(* ===== verification/_CoqProject ===== *)
-Q . S2P
Prelude.v
RustStd.v
RustText.v
RustOrd.v
RustUtf.v
RustNet.v
HostTypes.v
Concrete.v
Json.v
ResourceGraph.v
ResourceGraphFacts.v
ResourceReport.v
ResourcePlan.v
HostRegistry.v
ApplyBundle.v
HostLifecycle.v
HostLifecycleFacts.v
HostPlanner.v
JournalFs.v
HostJournal.v
HostJournalFacts.v
HostJournalSystem.v
HostJournalGate.v
HostJournalRecovery.v
PlanAuthority.v
LifecycleCommon.v
Service.v
DnsLifecycle.v
DnsService.v
VpcLifecycle.v
MeshLifecycle.v
MeshService.v
MeshProvider.v
VultrLifecycle.v
VultrLifecycleFacts.v
VultrService.v
VpcService.v
VpcProvider.v
ApplicationLifecycle.v
ApplicationBundle.v
ApplicationService.v
ApplicationServiceFacts.v
ApplicationHost.v
DeployPhases.v
EdgeState.v
EdgeStateFacts.v
EdgeStateWf.v
Orchestration.v
Credentials.v
CrashLogic.v
CredentialStore.v
CredentialReceipts.v
CredentialDisk.v
CredentialStoreFacts.v
CredentialStoreSafety.v
CredentialPromotions.v
CredentialStoreRuns.v
CredentialStoreProgress.v
NativeNetwork.v
NativeObserver.v
NativeObserverFacts.v
NativeSnapshot.v
NativeNetworkFacts.v
HostAdmin.v
AdminCommand.v
AdminProcess.v
AdminDispatch.v
AdminDispatchFacts.v
AdminHistory.v
WindowsEffect.v
WindowsEffectFacts.v
HostAttestations.v
HostDiagnostics.v
DiagnosticSnapshot.v
WindowsRouting.v
Singbox.v
SingboxInspect.v
SingboxFacts.v
LocalRuntime.v
LocalRuntimeFacts.v
