(* ===== verification/Prelude.v ===== *)
(** * edge-platform: verification library

    A model of the decision-making code of the Rust workspace
    [src/edge-platform], with the theorems that make it correct.

    ** The program and its parts

    The platform runs a small fleet of machines (one Windows host, Linux virtual
    machines) and the cloud resources around them. Seven parts interact:

    - _Contracts_ ([crates/edge-shared-types]): protobuf messages with validators,
      digests and signatures. Desired state, observations, plans, intents and
      results are exchanged in this form only.
    - _Host control_ ([host_planner.rs], [host_lifecycle.rs], [host_journal.rs]): a
      pure planner proposes, a detached worker signs an intent, and the native
      owner of the host executes the intent once under a durable journal.
    - _Cloud lifecycles_ ([crates/edge-controller-core]): for each provider a pure
      planner from desired state and inventory, whose material is hashed into a
      plan authority; the services of [crates/edge-orchestrator] execute one
      authorized mutation over a provider trait and re-observe.
    - _The controller_ ([crates/edge-controller], [crates/edge-state]): deployments
      as a phase machine kept in SQLite.
    - _Credentials_ ([crates/edge-secrets]): each host keeps the credentials it was
      delivered in a private directory, in two slots; agent, console and controller
      stage, promote and roll them back there.
    - _The Windows owner_ ([crates/edge-console], [windows_native_network.rs],
      [host_admin.rs]): the SYSTEM task observes the network of the host before and
      after its TUN, runs administrative commands that the Worker authorized, and
      delegates the start of the runtime to the controller with a signed effect. The
      configuration it starts is rendered from Git's policy ([crates/edge-singbox]) and
      run by the local runtime ([crates/edge-local-runtime]).
    - _Evidence_ ([host_receipt.rs], [host_diagnostic_snapshot.rs], [vm_bootstrap.rs],
      [host_probe.rs] and their kin): signed receipts, snapshots and attestations, the
      sealed first identity of a VM, and the read-only diagnostics of its agent.

    ** Files and what they model

    Shared:
    - [Prelude] (this file): [result] with its [?], scopes, tactics, hint
      databases, list and option lemmas.
    - [RustStd], [RustText], [RustNet]: strings as UTF-8 bytes, [trim],
      splitting, lines, number parsing, checked and saturating arithmetic, IP
      addresses. [RustOrd]: [Ord] and [BTreeSet]. [RustUtf]: characters, UTF-16.
    - [HostTypes]: the prost messages and enumerations; the classes [Message]
      (prost), [Sha256] and [Ed25519] (ring). [Concrete]: executable instances of
      them, for witnesses.
    - [Json]: [serde_json] values, [canonicalize] of [lifecycle.rs] and
      [canonical_json_value] of [vultr_lifecycle.rs].

    Contracts and host control ([edge-shared-types/src]):
    - [ResourceGraph], [ResourceGraphFacts]: [host_resources.rs] 15-499, the desired
      resource graph, its hierarchy and its reconciliation.
    - [ResourceReport]: [host_resources.rs] 501-1165, the evidence a VM reports.
    - [ResourcePlan]: [host_resources.rs] 1649-1930, transition proposals and the
      gate on native starts.
    - [HostRegistry]: [lib.rs] 64-258. [ApplyBundle]: [lib.rs] 2334-2419.
    - [HostLifecycle], [HostLifecycleFacts]: [host_lifecycle.rs].
    - [HostPlanner]: [host_planner.rs].
    - [JournalFs]: the calls the journal makes, a disk that separates visible from
      durable contents, and a program logic. [HostJournal]: [host_journal.rs] as
      programs over these calls. [HostJournalFacts]: one run. [HostJournalSystem]:
      concurrent runs with crashes and power loss. [HostJournalGate]: runs under
      the owner's exclusive lock. [HostJournalRecovery]: recovery of a completed
      operation.

    Cloud lifecycles ([edge-controller-core/src], [edge-orchestrator/src]):
    - [PlanAuthority]: [lifecycle.rs]. [LifecycleCommon]: helpers the lifecycles
      share. [Service]: services as programs over a provider trait, which calls
      mutate, and bounds on the mutations of a run.
    - [DnsLifecycle], [DnsService]: [cloudflare_dns_lifecycle.rs] and
      [cloudflare_dns_lifecycle_service.rs].
    - [MeshLifecycle], [MeshService]: [cloudflare_mesh_lifecycle.rs] and
      [cloudflare_mesh_lifecycle_service.rs]. [MeshProvider]: a provider with lost
      answers and delayed visibility.
    - [VpcLifecycle], [VpcService]: [vultr_vpc_lifecycle.rs] and
      [vultr_vpc_lifecycle_service.rs]. [VpcProvider]: a provider with uncertain
      answers and incomplete listings.
    - [VultrLifecycle], [VultrLifecycleFacts], [VultrService]: [vultr_lifecycle.rs],
      [vultr_lifecycle_adapter.rs], [vultr_lifecycle_service.rs] and the error
      classes of [edge-provider-vultr/src/lib.rs].
    - [ApplicationLifecycle]: [application_lifecycle.rs]. [ApplicationBundle],
      [ApplicationService], [ApplicationServiceFacts], [ApplicationHost]:
      [application_lifecycle_service.rs], the preparation of a bundle, the remote
      steps over SSH and the agent's RPCs, and a host that answers them.
    - [Orchestration]: [orchestration.rs] and [host_substrate_lifecycle.rs].

    Controller:
    - [DeployPhases]: the phase machine of [edge-controller-core/src/lib.rs].
    - [EdgeState], [EdgeStateFacts], [EdgeStateWf]: [edge-state/src/lib.rs] with the
      phase update of [edge-controller].

    Credentials:
    - [Credentials]: [edge-shared-types/src/lib.rs] 425-1150, delivery bundles, rotation
      deltas, the local state and the apply checkpoint.
    - [CredentialStore], [CredentialReceipts]: [edge-secrets/src/credential_store.rs],
      every method as a program over file-system calls, in the Unix build.
    - [CrashLogic]: a program logic for programs that may stop at any point.
      [CredentialDisk]: what the calls do to a disk, what a crash and a loss of power
      leave. [CredentialStoreFacts], [CredentialStoreSafety], [CredentialPromotions]:
      the methods in that logic, and the abstract state machine [transition].
      [CredentialStoreRuns]: sequences of interrupted methods, an executable disk.
      [CredentialStoreProgress]: the methods return where the machine allows them.

    Windows owner:
    - [NativeNetwork], [NativeObserver]: [windows_native_network.rs], the comparisons
      and stored baselines, and the observers over the tables of the system, with
      every dereference of a returned pointer. [NativeObserverFacts],
      [NativeSnapshot], [NativeNetworkFacts]: memory safety, exactness, restoration.
    - [HostAdmin]: [host_admin.rs]. [AdminCommand], [AdminProcess]:
      [windows_admin_process.rs], command lines and the run of a process over Win32
      calls (with the agent's drain of [host_admin_native.rs]). [AdminDispatch]:
      [windows_admin.rs] over journal and exchange calls. [AdminDispatchFacts],
      [AdminHistory]: the dispatcher in the logic of [CrashLogic], and histories.
    - [WindowsEffect]: [windows_runtime_effect.rs] and the controller's
      [windows_native_runtime.rs]. [WindowsEffectFacts]: histories of starts.
    - [WindowsRouting]: [windows_routing.rs], the policy of Git for the applications of
      the host, and the runtime state of its tunnels ([lib.rs] 1836-1942).
    - [Singbox]: [edge-singbox/src/lib.rs], the renderer of the configuration of
      sing-box, the checks before a start, the synchronization. [SingboxInspect]: the
      inspection of a configuration. [SingboxFacts]: renderer, checks and inspection
      agree, and what the rendered rules do.
    - [LocalRuntime]: [edge-local-runtime/src/lib.rs] in its Windows build, the guarded
      start and restart of sing-box with its rollback, the starts SYSTEM admitted, the
      stop. [LocalRuntimeFacts]: these on a host whose calls fail and whose runs stop
      anywhere.

    Evidence:
    - [HostAttestations]: [host_receipt.rs],
      [host_signer_attestation.rs], [initial_credential_attestation.rs] and
      [vm_bootstrap.rs]; the key agreement and the sealing are the class [SealedBox].
    - [HostDiagnostics]: [host_diagnostics.rs] and the agent's [host_probe.rs].
      [DiagnosticSnapshot]: [host_diagnostic_snapshot.rs].

    ** How the code is translated

    A struct is a [Record], an enum an [Inductive] with the source's constructors, a
    function returning [Result] a function to [result]; error texts are kept. A
    protobuf enumeration field stays the raw [i32] it is in the generated code.
    Machine integers are [Z] with the bounds checks of the source written out.
    Loops over collections are structural recursions over lists. The loops that are
    not (the worklist of the desired graph, polling with a number of attempts) carry
    the bound the source gives them, or fuel with a proof that it is enough
    ([desired_graph_dag] for the worklist).

    Effects are calls: a journal procedure and a provider service are trees of
    calls with continuations. A theorem about such a program quantifies over every
    answer the calls may give; the convergence theorems use a handler that answers
    from a state. [EdgeState] passes the tables explicitly, and every SQL statement
    may fail in the way an oracle says.

    Code outside the repository is a parameter with the laws the platform relies on:
    [Message] (prost round trip), [Sha256] and [Ed25519] (ring; collisions appear as
    an explicit disjunct, never as an assumption), [ProductionText] and [TextForms]
    (prost-reflect), [SerdeJson] with its laws and [FromJson], [protoc] and the
    other commands a service runs, the provider traits, the clock, the SQLite
    engine's failures. Each class with laws has an instance, so that the
    witnesses evaluate.

    ** What the theorems show

    - Journal ([HostJournalSystem], [HostJournalFacts], [HostJournalGate]): under
      crashes and power loss an operation is applied at most once, only after a
      durable BEGIN and an authenticated admission; a VERIFIED result carries a
      converged readback, fresh by the clock of its run; without loss of power a
      resource gate outlives its operation's effect until that operation's whole
      receipt is in its file. [HostJournalRecovery]: a process that
      dies after its receipt and before releasing its gate blocks the resource.
    - Contracts: the accepted graphs are exactly the acyclic ones
      ([desired_graph_dag]); derived hierarchies, registries, plans and proposals
      satisfy their own validators; an authorization is valid only in its window
      and its payload is injective; a bundle digest binds the bundle.
    - Plans: [authority_binds] and its clients ([vultr_destroy_binds],
      [rollback_authority_binds]) reduce acting on other material than what was
      authorized to a SHA-256 collision; the planners act only where the inventory
      justifies it, reach a NOOP ([vultr_created_is_noop],
      [mesh_apply_converges], [vpc_teardown_completes]) and stay within their bounds.
    - Services: at most one mutation per run, of the authorized kind, after the
      check of its authority, whatever the provider answers ([dns_apply_once],
      [vultr_apply_once], [vultr_destroy_once], [mesh_apply_once],
      [vpc_cleanup_once]). Against a provider that performs what it is asked, also
      when answers are lost and effects shown late, they converge and tear down
      exactly what they own ([dns_apply_converges], [mesh_service_converges],
      [mesh_teardown_completes], [vpc_service_cycle]); the Mesh service ends where the
      abstract loop [converge] does, with exactly the desired routes. A VPC readiness report is backed by the listings of
      its run ([vpc_ready_backed]).
    - Application: the bundle that is sent is the one that was prepared from the
      sources ([prepared_bundle_exact], [managed_sources_compiled]); a run mutates
      the host at most once per authorized step, in order, and publishes a release
      only after the runtime was seen ready ([application_apply_once],
      [application_rollback_once]); on a host that performs what it is asked and
      answers the uploads, also when every other answer is lost, it converges ([application_apply_converges],
      [application_rollback_converges]); the control state reads back as published;
      a rollback interrupted between its steps blocks later runs
      ([interrupted_rollback_blocks]).
    - Controller store: a method's statements happen as a whole or not at all
      ([transition_atomic], [destroy_atomic]); phases move only along the machine;
      the tables stay well formed; a failed COMMIT leaves a connection on which
      later writes are not durable ([failed_commit_wedges]).

    - Credentials: a rotation changes exactly the selected class
      ([rotation_materializes]); the store refines its state machine at every point of
      every method, and a method that returns leaves its bundles durable
      ([store_refines]); it survives failures, crashes and losses of power
      ([store_survives]), except a loss of power after a method ran over writes of a
      crashed one that were still pending ([reused_bundle_lost]); a paired promotion
      leaves its receipt durably before the state changes and cannot be repeated
      ([promotion_once]); a method that is allowed and ready returns ([store_progress]),
      and receipts read back as written ([receipts_read_back]).

    - Windows network: the observers stay inside the buffers of the system
      ([adapters_walk_safe]) and report exactly its tables ([strict_observation_exact],
      [managed_observation_exact]); a stored baseline is accepted as restored exactly
      when the tables agree ([restoration_exact]), its digest binds them
      ([prebegin_digest_binds]); an accepted TUN captures every destination and touches
      nothing else ([tun_preserves_foreign]). A resolver address may be read misaligned
      ([resolver_address_misaligned]).
    - Administrative requests: over interrupted dispatches an operation is executed at
      most once, and only the authorized command ([admin_at_most_once]); any pending
      record stops the dispatcher ([pending_freezes]); a success delivers a receipt
      that verifies ([admin_delivers]), and the evidence of a process can always be
      signed ([evidence_signs]); the C runtime parses the command line back into the
      arguments, but for the bare root of a drive as the program
      ([command_line_exact]).
    - Starts of the Windows runtime: an effect signed by SYSTEM and the Worker starts
      the child at most once, accepted against what its own request read
      ([effects_start_once]), provided
      the time a request reads is not older than the replay set
      ([stale_time_replays]).
    - sing-box configuration: what is rendered passes the checks of its own mode and of
      no other ([rendered_config_admitted]), is inspected as in order against its state
      ([rendered_config_in_order]), and its rules, under sing-box's documented matching
      (the class [RuleMatching]), route every connection as Git's policy says
      ([rendered_rules_route]). A synchronized configuration is not in order
      ([synced_config_degraded]).
    - Local runtime: at every point of a start the last configuration is on the disk, only
      the sole owner is stopped, and only by a restart, and children run configurations
      that sing-box accepted ([start_keeps_configuration]); a success runs the staged
      configuration, a failure leaves the old one ([start_outcome]). Both except when the
      copy that makes the backup fails: then the rollback puts an older backup in place
      ([failed_backup_loses_configuration]). A start rejected after its child was bound
      leaves the job with the controller and blocks every later one ([rejected_tun_blocks_starts]).
    - Evidence: receipts and snapshots verify exactly for what was signed
      ([native_receipt_exact], [snapshot_exact]); a first-use fingerprint binds its
      fields ([first_use_binds]); a sealed identity opens for its recipient only
      ([identity_sealed_for_root]); a diagnostic batch is one to six approved commands
      ([parse_commands_exact]) and the probe starts nothing else, without privileges
      ([probe_read_only]).

    ** Not modelled

    The file modes and the Windows branch ([MoveFileExW]) of the credential store. The
    Unix build and the smoke test of the local runtime. The
    command lines, HTTP and SSH clients, Docker, netlink and Win32 adapters
    ([edge-agent], [edge-console], [edge-provider-*]), and the reporting crates are
    input and output around the modelled decisions. Release sets and the production
    desired state rest on prost-reflect's text format. *)

From Stdlib Require Export ZArith Lia.
From Stdlib.Strings Require Export Ascii Byte.
From stdpp Require Export base decidable list strings gmap option.

#[global] Open Scope string_scope.
#[global] Open Scope list_scope.
#[global] Open Scope bool_scope.
#[global] Open Scope Z_scope.

(** ** Fallible code: Rust's [Result<A, E>] *)

Inductive result (E A : Type) : Type :=
| Ok (a : A)
| Err (e : E).
Arguments Ok {E A} a.
Arguments Err {E A} e.

#[global] Instance result_ret {E} : MRet (result E) := λ A a, Ok a.
#[global] Instance result_bind {E} : MBind (result E) :=
  λ A B f m, match m with Ok a => f a | Err e => Err e end.

#[global] Instance result_eq_dec {E A} `{EqDecision E, EqDecision A} :
  EqDecision (result E A).
Proof. solve_decision. Defined.

(** [Result<A, &'static str>] and [Result<A, String>] *)
Abbreviation res := (result string).

(** [if b { return Err(e) }] *)
Definition fail_if {E} (b : bool) (e : E) : result E unit :=
  if b then Err e else Ok tt.

(** [Option::ok_or] *)
Definition ok_or {E A} (o : option A) (e : E) : result E A :=
  match o with Some a => Ok a | None => Err e end.

(** [Result::map_err] *)
Definition map_err {E F A} (f : E → F) (m : result E A) : result F A :=
  match m with Ok a => Ok a | Err e => Err (f e) end.

Definition is_ok {E A} (m : result E A) : bool :=
  match m with Ok _ => true | Err _ => false end.
Definition is_err {E A} (m : result E A) : bool := negb (is_ok m).

(** [for x in xs { body(x)?; }] *)
Fixpoint for_each {E A} (f : A → result E unit) (xs : list A) : result E unit :=
  match xs with
  | [] => Ok tt
  | x :: xs => f x ;; for_each f xs
  end.

(** [for x in xs { state = body(state, x)?; }] *)
Fixpoint try_fold {E A S} (f : S → A → result E S) (s : S) (xs : list A)
    : result E S :=
  match xs with
  | [] => Ok s
  | x :: xs => s ← f s x; try_fold f s xs
  end.

Section ResultFacts.
Context {E : Type}.

Lemma bind_Ok {A B} (m : result E A) (f : A → result E B) b :
  m ≫= f = Ok b ↔ ∃ a, m = Ok a ∧ f a = Ok b.
Proof. destruct m; simpl; split; naive_solver. Qed.

Lemma bind_Err {A B} (m : result E A) (f : A → result E B) e :
  m ≫= f = Err e ↔ m = Err e ∨ ∃ a, m = Ok a ∧ f a = Err e.
Proof. destruct m; simpl; split; naive_solver. Qed.

Lemma fail_if_Err (b : bool) (e e' : E) : fail_if b e = Err e' ↔ b = true ∧ e = e'.
Proof. destruct b; unfold fail_if; split; naive_solver. Qed.

Lemma fail_if_Ok (b : bool) (e : E) u : fail_if b e = Ok u ↔ b = false.
Proof. destruct b, u; unfold fail_if; split; naive_solver. Qed.

Lemma ok_or_Ok {A} (o : option A) (e : E) a : ok_or o e = Ok a ↔ o = Some a.
Proof. destruct o; simpl; split; naive_solver. Qed.

Lemma map_err_Ok {F A} (f : E → F) (m : result E A) a :
  map_err f m = Ok a ↔ m = Ok a.
Proof. destruct m; simpl; split; naive_solver. Qed.

Lemma is_err_false {A} (m : result E A) : is_err m = false ↔ ∃ a, m = Ok a.
Proof. destruct m; unfold is_err; simpl; split; naive_solver. Qed.

Lemma is_ok_true {A} (m : result E A) : is_ok m = true ↔ ∃ a, m = Ok a.
Proof. destruct m; simpl; split; naive_solver. Qed.

Lemma for_each_Ok {A} (f : A → result E unit) xs :
  for_each f xs = Ok tt ↔ Forall (λ x, f x = Ok tt) xs.
Proof.
  induction xs as [|x xs IH]; simpl; [naive_solver|].
  rewrite Forall_cons_iff, bind_Ok, <- IH. split.
  - intros ([] & ? & ?); auto.
  - intros [? ?]; exists tt; auto.
Qed.

Lemma try_fold_Forall {A S} (f : S → A → result E S) (P : A → Prop) xs :
  (∀ s x s', f s x = Ok s' → P x) →
  ∀ s s', try_fold f s xs = Ok s' → Forall P xs.
Proof.
  intros Hf. induction xs as [|x xs IH]; intros s s'; simpl; [constructor|].
  intros (s1 & H1 & H2)%bind_Ok. constructor; eauto.
Qed.

Lemma try_fold_Err {A S} (f : S → A → result E S) s xs e :
  try_fold f s xs = Err e → ∃ s' x, x ∈ xs ∧ f s' x = Err e.
Proof.
  revert s. induction xs as [|x xs IH]; intros s; simpl; [done|].
  rewrite bind_Err. intros [Hx|(s1 & _ & (s' & y & ? & ?)%IH)].
  - exists s, x. split; [left|done].
  - exists s', y. split; [by right|done].
Qed.

Lemma try_fold_inv {A S} (f : S → A → result E S) (I : S → Prop) xs :
  (∀ s x s', x ∈ xs → I s → f s x = Ok s' → I s') →
  ∀ s s', I s → try_fold f s xs = Ok s' → I s'.
Proof.
  induction xs as [|x xs IH]; intros Hf s s' Hs; simpl.
  - by intros [= <-].
  - intros (s1 & H1 & H2)%bind_Ok. eapply IH; [|eapply Hf; eauto; left|exact H2].
    intros. eapply Hf; eauto. by right.
Qed.

(** An invariant that relates the state to the elements already visited. *)
Lemma try_fold_prefix {A S} (f : S → A → result E S) (I : list A → S → Prop) xs :
  ∀ s s', I [] s →
  (∀ pre x s s', pre ++ [x] `prefix_of` xs → I pre s → f s x = Ok s' → I (pre ++ [x]) s') →
  try_fold f s xs = Ok s' → I xs s'.
Proof.
  intros s s' H0 Hstep. cut (∀ pre s, pre ++ xs = pre ++ xs → I pre s →
    (∀ pre' x s s', pre ++ pre' ++ [x] `prefix_of` pre ++ xs →
      I (pre ++ pre') s → f s x = Ok s' → I (pre ++ pre' ++ [x]) s') →
    try_fold f s xs = Ok s' → I (pre ++ xs) s').
  { intros Hc Hf. apply (Hc [] s); [done..|by simpl|done]. }
  clear H0 Hstep s. induction xs as [|x xs IH]; intros pre s _ HI Hstep; simpl.
  - intros [= <-]. by rewrite app_nil_r.
  - intros (s1 & H1 & H2)%bind_Ok.
    replace (pre ++ x :: xs) with ((pre ++ [x]) ++ xs) in * by (by rewrite <- app_assoc).
    apply (IH (pre ++ [x]) s1); [done|..|done].
    + apply (Hstep [] x s s1); simpl; [by exists xs|by rewrite app_nil_r|done].
    + intros pre' y t t'. rewrite <- !app_assoc. rewrite <- app_assoc in Hstep.
      apply (Hstep ([x] ++ pre')).
Qed.

(** A loop that inserts a fresh key into a set of seen keys. *)
Lemma try_fold_seen {A K} (f : list K → A → result E (list K)) (key : A → K) xs :
  (∀ s x s', f s x = Ok s' → key x ∉ s ∧ s' = key x :: s) →
  ∀ s s', NoDup s → try_fold f s xs = Ok s' →
    s' = rev (key <$> xs) ++ s ∧ NoDup s'.
Proof.
  intros Hf. induction xs as [|x xs IH]; intros s s' Hs; simpl.
  - by intros [= <-].
  - intros (s1 & H1 & H2)%bind_Ok. apply Hf in H1 as [Hx ->].
    apply IH in H2 as [-> ?]; [|by constructor]. by rewrite <- app_assoc.
Qed.

(** [for x in xs { out.push(f(x)?) }] *)
Fixpoint try_map {A B} (f : A → result E B) (xs : list A) : result E (list B) :=
  match xs with
  | [] => Ok []
  | x :: xs => y ← f x; ys ← try_map f xs; Ok (y :: ys)
  end.

Lemma try_map_Ok {A B} (f : A → result E B) xs ys :
  try_map f xs = Ok ys ↔ Forall2 (λ x y, f x = Ok y) xs ys.
Proof.
  revert ys. induction xs as [|x xs IH]; intros ys; simpl.
  - split; [by intros [= <-]|by inversion 1].
  - rewrite bind_Ok. split.
    + intros (y & Hy & (ys' & Hys & [= <-])%bind_Ok). constructor; [done|by apply IH].
    + inversion 1 as [|? y ? ys' Hy Hys]; subst. exists y. split; [done|].
      apply bind_Ok. exists ys'. split; [by apply IH|done].
Qed.

Lemma try_map_total {A B} (f : A → result E B) xs :
  Forall (λ x, ∃ y, f x = Ok y) xs → ∃ ys, try_map f xs = Ok ys.
Proof.
  induction 1 as [|x xs [y Hy] _ [ys IH]]; simpl; [by exists []|].
  exists (y :: ys). rewrite Hy. simpl. by rewrite IH.
Qed.
End ResultFacts.

Lemma elem_of_rev {A} (x : A) l : x ∈ rev l ↔ x ∈ l.
Proof. rewrite !list_elem_of_In. symmetry. apply in_rev. Qed.

(** ** Boolean reflection *)

Lemma orb_false (a b : bool) : a || b = false ↔ a = false ∧ b = false.
Proof. destruct a, b; naive_solver. Qed.
Lemma andb_true (a b : bool) : a && b = true ↔ a = true ∧ b = true.
Proof. destruct a, b; naive_solver. Qed.
Lemma negb_false (a : bool) : negb a = false ↔ a = true.
Proof. destruct a; naive_solver. Qed.
Lemma negb_true (a : bool) : negb a = true ↔ a = false.
Proof. destruct a; naive_solver. Qed.
Lemma bool_decide_true_iff (P : Prop) `{Decision P} : bool_decide P = true ↔ P.
Proof. apply bool_decide_eq_true. Qed.
Lemma bool_decide_false_iff (P : Prop) `{Decision P} : bool_decide P = false ↔ ¬ P.
Proof. apply bool_decide_eq_false. Qed.

Create Rewrite HintDb reflect.
#[export] Hint Rewrite @bind_Ok @fail_if_Ok @ok_or_Ok @map_err_Ok @is_err_false
  @is_ok_true orb_false andb_true negb_false negb_true bool_decide_true_iff
  bool_decide_false_iff Z.eqb_eq Z.eqb_neq Z.leb_le Z.leb_gt Z.ltb_lt Z.ltb_ge
  Nat.eqb_eq Nat.eqb_neq Nat.leb_le Nat.leb_gt Nat.ltb_lt Nat.ltb_ge
  : reflect.

(** Splits a hypothesis of the form [computation = Ok _] or
    [guards = false/true] into its conjuncts. *)
Ltac reflect_in H := autorewrite with reflect in H.

Ltac inv_step H :=
  match type of H with
  | Ok _ = Ok _ => injection H as H; subst
  | Err _ = Ok _ => discriminate H
  | Ok _ = Err _ => discriminate H
  | _ ≫= _ = Ok _ =>
      let x := fresh "x" in let H1 := fresh "Hm" in
      apply bind_Ok in H as (x & H1 & H); inv_step H1
  | fail_if _ _ = Ok _ =>
      apply fail_if_Ok in H
  | ok_or _ _ = Ok _ => apply ok_or_Ok in H
  | map_err _ _ = Ok _ => apply map_err_Ok in H
  | _ => idtac
  end.
Ltac inv_ok H :=
  repeat (progress (inv_step H));
  repeat match goal with u : unit |- _ => destruct u end.

(** Case analysis on the first guard or match of a hypothesis. *)
Ltac split_guard H :=
  match type of H with
  | context [if ?b then _ else _] =>
      lazymatch b with
      | context [if _ then _ else _] => fail
      | _ => let E := fresh "Hg" in destruct b eqn:E
      end
  | context [match ?x with _ => _ end] =>
      let E := fresh "Hg" in destruct x eqn:E
  end.

(** ** Machine integers

    A [u32], [u64] or [i32] is a [Z]; the operations that can leave the range
    are written with their Rust behaviour. *)

Definition u8_max : Z := 2 ^ 8 - 1.
Definition u16_max : Z := 2 ^ 16 - 1.
Definition u32_max : Z := 2 ^ 32 - 1.
Definition u64_max : Z := 2 ^ 64 - 1.
Definition in_u32 (z : Z) : Prop := 0 ≤ z ≤ u32_max.
Definition in_u64 (z : Z) : Prop := 0 ≤ z ≤ u64_max.

(** [u64::saturating_add], [u64::saturating_sub] *)
Definition u64_saturating_add (a b : Z) : Z := Z.min (a + b) u64_max.
Definition u64_saturating_sub (a b : Z) : Z := Z.max (a - b) 0.

Lemma u64_saturating_add_bounds a b :
  in_u64 a → in_u64 b → in_u64 (u64_saturating_add a b).
Proof. unfold in_u64, u64_saturating_add, u64_max. lia. Qed.

Lemma u64_saturating_sub_bounds a b :
  in_u64 a → in_u64 b → in_u64 (u64_saturating_sub a b).
Proof. unfold in_u64, u64_saturating_sub, u64_max. lia. Qed.

(** ** Bytes *)

Abbreviation bytes := (list Byte.byte).

#[global] Instance byte_eq_dec : EqDecision Byte.byte := Byte.byte_eq_dec.

Definition blen (b : bytes) : Z := Z.of_nat (length b).
Definition slen (s : string) : Z := Z.of_nat (String.length s).

(** [str::as_bytes] *)
Definition as_bytes (s : string) : bytes := String.list_byte_of_string s.

Definition byte_eqb (a b : Byte.byte) : bool := bool_decide (a = b).
Definition bytes_eqb (a b : bytes) : bool := bool_decide (a = b).

(** [b.iter().all(|b| *b == 0)] and its negation *)
Definition all_zero (b : bytes) : bool := forallb (byte_eqb x00) b.
Definition any_nonzero (b : bytes) : bool := negb (all_zero b).

Definition is_empty {A} (l : list A) : bool :=
  match l with [] => true | _ => false end.

Lemma is_empty_true {A} (l : list A) : is_empty l = true ↔ l = [].
Proof. destruct l; naive_solver. Qed.
Lemma is_empty_false {A} (l : list A) : is_empty l = false ↔ l ≠ [].
Proof. destruct l; naive_solver. Qed.

Definition str_eqb (a b : string) : bool := bool_decide (a = b).
Definition str_empty (s : string) : bool := str_eqb s "".

Lemma str_eqb_true a b : str_eqb a b = true ↔ a = b.
Proof. apply bool_decide_eq_true. Qed.
Lemma str_eqb_false a b : str_eqb a b = false ↔ a ≠ b.
Proof. apply bool_decide_eq_false. Qed.
Lemma bytes_eqb_true a b : bytes_eqb a b = true ↔ a = b.
Proof. apply bool_decide_eq_true. Qed.
Lemma bytes_eqb_false a b : bytes_eqb a b = false ↔ a ≠ b.
Proof. apply bool_decide_eq_false. Qed.

(** ** Filters *)

Lemma filter_twice {A} (f : A → bool) l : List.filter f (List.filter f l) = List.filter f l.
Proof.
  induction l as [|x l IH]; simpl; [done|]. destruct (f x) eqn:E; simpl; [|done].
  by rewrite E, IH.
Qed.
Lemma filter_none {A} (f : A → bool) l : (∀ x, x ∈ l → f x = false) → List.filter f l = [].
Proof.
  induction l as [|x l IH]; simpl; [done|]. intros Hf. rewrite Hf by (by left).
  apply IH. intros y Hy. apply Hf. by right.
Qed.
Lemma filter_all {A} (f : A → bool) l : (∀ x, x ∈ l → f x = true) → List.filter f l = l.
Proof.
  induction l as [|x l IH]; simpl; [done|]. intros Hf. rewrite Hf by (by left). f_equal.
  apply IH. intros y Hy. apply Hf. by right.
Qed.
Lemma filter_single {A} (f : A → bool) l x :
  List.filter f l = [x] → x ∈ l ∧ f x = true.
Proof.
  intros E. assert (Hin : In x (List.filter f l)) by (rewrite E; by left).
  apply filter_In in Hin as [? ?]. by rewrite list_elem_of_In.
Qed.
Lemma filter_agree {A} (f g : A → bool) l :
  (∀ x, x ∈ l → f x = g x) → List.filter f l = List.filter g l.
Proof.
  intros Hfg. apply filter_ext_in. intros x Hx. by apply Hfg, list_elem_of_In.
Qed.
Lemma filter_and {A} (f g : A → bool) l :
  List.filter f (List.filter g l) = List.filter (λ x, g x && f x) l.
Proof.
  induction l as [|x l IH]; simpl; [done|]. destruct (g x); simpl; by rewrite ?IH.
Qed.

(** Elements with distinct keys *)
Lemma key_unique {A} (key : A → string) l x y :
  NoDup (map key l) → x ∈ l → y ∈ l → key x = key y → x = y.
Proof.
  intros Hn Hx Hy E. induction l as [|z l IH]; [by apply elem_of_nil in Hy|].
  simpl in Hn. inversion_clear Hn as [|? ? Hz Hn']. rewrite elem_of_cons in Hx, Hy.
  assert (Hmap : ∀ v, v ∈ l → key v ∈ map key l)
    by (intros v ?; apply list_elem_of_In, in_map; by apply list_elem_of_In).
  destruct Hx as [->|Hx], Hy as [->|Hy]; [done| | |by apply IH].
  - destruct Hz. rewrite E. by apply Hmap.
  - destruct Hz. rewrite <- E. by apply Hmap.
Qed.
Lemma filter_complement {A} (f : A → bool) (key : A → string) l x :
  NoDup (map key l) → List.filter f l = [x] →
  List.filter (λ v, negb (str_eqb (key v) (key x))) l = List.filter (λ v, negb (f v)) l.
Proof.
  intros Hn Hf. destruct (filter_single f l x Hf) as [Hin Hfx].
  apply filter_agree. intros y Hy. f_equal. destruct (f y) eqn:Hfy.
  - assert (Hyx : In y (List.filter f l)) by (apply filter_In; split; [by apply list_elem_of_In|done]).
    rewrite Hf in Hyx. destruct Hyx as [->|[]]. by apply str_eqb_true.
  - apply str_eqb_false. intros E. rewrite (key_unique key l y x Hn Hy Hin E) in Hfy. congruence.
Qed.
#[export] Hint Rewrite @is_empty_true @is_empty_false str_eqb_true str_eqb_false
  bytes_eqb_true bytes_eqb_false : reflect.

(** [uN::to_be_bytes]: [n] bytes, most significant first. *)
Definition byte_of_Z (z : Z) : Byte.byte :=
  match Byte.of_N (Z.to_N (z mod 256)) with Some b => b | None => x00 end.

Fixpoint le_bytes (n : nat) (z : Z) : bytes :=
  match n with
  | O => []
  | S n => byte_of_Z z :: le_bytes n (z / 256)
  end.
Definition be_bytes (n : nat) (z : Z) : bytes := rev (le_bytes n z).
Definition u32_to_be_bytes (z : Z) : bytes := be_bytes 4 z.
Definition u64_to_be_bytes (z : Z) : bytes := be_bytes 8 z.

(** ** Framing: fixed-width integers and length-prefixed fields *)

Lemma length_le_bytes n z : length (le_bytes n z) = n.
Proof. revert z. induction n; intros; simpl; auto. Qed.
Lemma length_be_bytes n z : length (be_bytes n z) = n.
Proof. unfold be_bytes. by rewrite length_rev, length_le_bytes. Qed.

Lemma byte_of_Z_inj a b : byte_of_Z a = byte_of_Z b → a mod 256 = b mod 256.
Proof.
  assert (Hb : ∀ z, Byte.of_N (Z.to_N (z mod 256)) = Some (byte_of_Z z)).
  { intros z. unfold byte_of_Z. destruct (Byte.of_N _) eqn:E; [done|].
    apply Byte.of_N_None_iff in E.
    pose proof (Z.mod_pos_bound z 256 ltac:(lia)). lia. }
  intros E. pose proof (Hb a) as Ha. pose proof (Hb b) as Hb'. rewrite E in Ha.
  apply Byte.to_of_N in Ha, Hb'.
  pose proof (Z.mod_pos_bound a 256 ltac:(lia)). pose proof (Z.mod_pos_bound b 256 ltac:(lia)).
  lia.
Qed.

Lemma le_bytes_inj n a b :
  0 ≤ a < 256 ^ Z.of_nat n → 0 ≤ b < 256 ^ Z.of_nat n →
  le_bytes n a = le_bytes n b → a = b.
Proof.
  revert a b. induction n as [|n IH]; intros a b Ha Hb; cbn [le_bytes].
  - simpl in *. lia.
  - intros [= E1%byte_of_Z_inj E2].
    rewrite Nat2Z.inj_succ, Z.pow_succ_r in Ha, Hb by lia.
    assert (a / 256 = b / 256).
    { apply IH; [split; [apply Z.div_pos|apply Z.div_lt_upper_bound]; lia..|done]. }
    rewrite (Z.div_mod a 256), (Z.div_mod b 256) by lia. lia.
Qed.

Lemma be_bytes_inj n a b :
  0 ≤ a < 256 ^ Z.of_nat n → 0 ≤ b < 256 ^ Z.of_nat n →
  be_bytes n a = be_bytes n b → a = b.
Proof.
  intros Ha Hb E. apply (le_bytes_inj n); [done..|].
  unfold be_bytes in E. apply (f_equal (@rev _)) in E. by rewrite !rev_involutive in E.
Qed.

Lemma app_inj_len {A} (a b c d : list A) :
  length a = length b → a ++ c = b ++ d → a = b ∧ c = d.
Proof. apply app_inj_1. Qed.

(** [payload.extend((x.len() as uN).to_be_bytes()); payload.extend(x)] with an
    [n]-byte length *)
Definition framed (n : nat) (x : bytes) : bytes := be_bytes n (blen x) ++ x.

Lemma framed_inj n x y r s :
  blen x < 256 ^ Z.of_nat n → blen y < 256 ^ Z.of_nat n →
  framed n x ++ r = framed n y ++ s → x = y ∧ r = s.
Proof.
  unfold framed. intros Hx Hy E. rewrite <- !app_assoc in E.
  apply app_inj_len in E as [E1 E2]; [|by rewrite !length_be_bytes].
  apply be_bytes_inj in E1; [|unfold blen in *; lia..].
  apply app_inj_len in E2; [done|]. unfold blen in E1. lia.
Qed.

Lemma as_bytes_inj s t : as_bytes s = as_bytes t → s = t.
Proof.
  unfold as_bytes. intros E. apply (f_equal String.string_of_list_byte) in E.
  by rewrite !String.string_of_list_byte_of_string in E.
Qed.

Lemma blen_as_bytes s : blen (as_bytes s) = slen s.
Proof.
  unfold blen, slen, as_bytes, String.list_byte_of_string. f_equal.
  rewrite length_map. induction s; simpl; [done|]. by f_equal.
Qed.
