(* ===== verification/RustStd.v ===== *)
(** * The parts of the Rust standard library the modelled code uses

    Strings are their UTF-8 bytes ([String.string]); [str::len] is the number
    of bytes.  Character tests that mention only ASCII classes are therefore
    the same on [chars()] and on [bytes()].  [str::trim] removes the characters
    with the Unicode property White_Space, recognised by their UTF-8
    encodings.  Ordering on strings is the byte-wise lexicographic order. *)

From stdpp Require Export pretty sorting.
From S2P Require Import Prelude.

#[global] Open Scope string_scope.
#[global] Open Scope list_scope.
#[global] Open Scope bool_scope.
#[global] Open Scope Z_scope.

(** ** Character classes *)

Definition code (c : ascii) : Z := Z.of_N (N_of_ascii c).
Definition between (lo hi : Z) (c : ascii) : bool :=
  (lo <=? code c) && (code c <=? hi).

Definition is_ascii_digit : ascii → bool := between 48 57.
Definition is_ascii_lowercase : ascii → bool := between 97 122.
Definition is_ascii_uppercase : ascii → bool := between 65 90.
Definition is_ascii_alphanumeric (c : ascii) : bool :=
  is_ascii_digit c || is_ascii_lowercase c || is_ascii_uppercase c.
Definition is_ascii_hexdigit (c : ascii) : bool :=
  is_ascii_digit c || between 97 102 c || between 65 70 c.
(** [byte.is_ascii_digit() || (b'a'..=b'f').contains(&byte)] *)
Definition is_lower_hex (c : ascii) : bool := is_ascii_digit c || between 97 102 c.

Definition one_of (cs : string) (c : ascii) : bool :=
  existsb (Ascii.eqb c) (String.list_ascii_of_string cs).

(** [s.bytes().all(p)] and [s.chars().all(p)] for an ASCII class [p] *)
Fixpoint str_all (p : ascii → bool) (s : string) : bool :=
  match s with
  | EmptyString => true
  | String c s => p c && str_all p s
  end.

Definition to_ascii_lowercase_char (c : ascii) : ascii :=
  if is_ascii_uppercase c then ascii_of_N (N_of_ascii c + 32) else c.
Fixpoint to_ascii_lowercase (s : string) : string :=
  match s with
  | EmptyString => EmptyString
  | String c s => String (to_ascii_lowercase_char c) (to_ascii_lowercase s)
  end.

(** ** Prefixes, suffixes, splitting *)

(** [s.strip_prefix(p)] *)
Fixpoint strip_prefix (p s : string) : option string :=
  match p, s with
  | EmptyString, _ => Some s
  | String a p, String b s => if Ascii.eqb a b then strip_prefix p s else None
  | String _ _, EmptyString => None
  end.
Definition starts_with (p s : string) : bool :=
  match strip_prefix p s with Some _ => true | None => false end.

Definition str_rev (s : string) : string :=
  String.string_of_list_ascii (rev (String.list_ascii_of_string s)).

(** [s.strip_suffix(p)] *)
Fixpoint strip_suffix (p s : string) : option string :=
  if str_eqb s p then Some ""
  else match s with
       | EmptyString => None
       | String c s => String c <$> strip_suffix p s
       end.
Definition ends_with (p s : string) : bool :=
  match strip_suffix p s with Some _ => true | None => false end.

(** [s.contains(p)] *)
Fixpoint str_contains (p s : string) : bool :=
  starts_with p s ||
  match s with EmptyString => false | String _ s => str_contains p s end.

(** [s.split(c)]: always at least one part *)
Fixpoint split (c : ascii) (s : string) : list string :=
  match s with
  | EmptyString => [""]
  | String d s =>
      if Ascii.eqb d c then "" :: split c s
      else match split c s with
           | [] => [String d ""]
           | p :: ps => String d p :: ps
           end
  end.

(** [s.split_once(c)] *)
Fixpoint split_once (c : ascii) (s : string) : option (string * string) :=
  match s with
  | EmptyString => None
  | String d s =>
      if Ascii.eqb d c then Some ("", s)
      else '(a, b) ← split_once c s; Some (String d a, b)
  end.

(** [s.rsplit_once(p)]: the last occurrence of [p] *)
Fixpoint rsplit_once (p s : string) : option (string * string) :=
  match s with
  | EmptyString => if str_empty p then Some ("", "") else None
  | String d s' =>
      match rsplit_once p s' with
      | Some (a, b) => Some (String d a, b)
      | None => (λ r, ("", r)) <$> strip_prefix p s
      end
  end.

(** [s.trim_start_matches(p)]: removes [p] repeatedly; [n] bounds the number of
    removals, and the length of [s] is enough when [p] is not empty. *)
Fixpoint trim_start_matches_n (n : nat) (p s : string) : string :=
  match n with
  | O => s
  | S n => match strip_prefix p s with
           | Some r => trim_start_matches_n n p r
           | None => s
           end
  end.
Definition trim_start_matches (p s : string) : string :=
  trim_start_matches_n (String.length s) p s.
Fixpoint trim_end_matches_n (n : nat) (p s : string) : string :=
  match n with
  | O => s
  | S n => match strip_suffix p s with
           | Some r => trim_end_matches_n n p r
           | None => s
           end
  end.
Definition trim_end_matches (p s : string) : string :=
  trim_end_matches_n (String.length s) p s.

(** [&s[..n]] for [n <= s.len()] *)
Fixpoint str_take (n : nat) (s : string) : string :=
  match n, s with
  | O, _ => ""
  | S n, String c s => String c (str_take n s)
  | S _, EmptyString => ""
  end.
Fixpoint str_drop (n : nat) (s : string) : string :=
  match n, s with
  | O, _ => s
  | S n, String _ s => str_drop n s
  | S _, EmptyString => ""
  end.

(** [parts.join(sep)] *)
Fixpoint join (sep : string) (parts : list string) : string :=
  match parts with
  | [] => ""
  | [p] => p
  | p :: ps => p +:+ sep +:+ join sep ps
  end.

(** ** [str::trim] *)

(** The encodings of the White_Space characters of one, two and three bytes. *)
Definition ws1 (a : Z) : bool := (9 <=? a) && (a <=? 13) || (a =? 32).
Definition ws2 (a b : Z) : bool := (a =? 194) && ((b =? 133) || (b =? 160)).
Definition ws3 (a b c : Z) : bool :=
  (a =? 225) && (b =? 154) && (c =? 128)
  || (a =? 226) && (b =? 128)
     && ((128 <=? c) && (c <=? 138) || (c =? 168) || (c =? 169) || (c =? 175))
  || (a =? 226) && (b =? 129) && (c =? 159)
  || (a =? 227) && (b =? 128) && (c =? 128).

Fixpoint trim_start_list (l : list ascii) : list ascii :=
  match l with
  | [] => []
  | a :: l1 =>
      if ws1 (code a) then trim_start_list l1
      else match l1 with
           | [] => l
           | b :: l2 =>
               if ws2 (code a) (code b) then trim_start_list l2
               else match l2 with
                    | [] => l
                    | c :: l3 =>
                        if ws3 (code a) (code b) (code c)
                        then trim_start_list l3 else l
                    end
           end
  end.

(** The same from the end, on the reversed bytes. *)
Fixpoint trim_end_rev (l : list ascii) : list ascii :=
  match l with
  | [] => []
  | a :: l1 =>
      if ws1 (code a) then trim_end_rev l1
      else match l1 with
           | [] => l
           | b :: l2 =>
               if ws2 (code b) (code a) then trim_end_rev l2
               else match l2 with
                    | [] => l
                    | c :: l3 =>
                        if ws3 (code c) (code b) (code a)
                        then trim_end_rev l3 else l
                    end
           end
  end.

Definition trim (s : string) : string :=
  String.string_of_list_ascii
    (rev (trim_end_rev (rev (trim_start_list (String.list_ascii_of_string s))))).

(** ** Ordering and stable sorting *)

(** [a <= b] for [&str] *)
Definition str_leb (a b : string) : bool :=
  match String.compare a b with Gt => false | _ => true end.
Definition str_ltb (a b : string) : bool := negb (str_leb b a).

(** [v.sort_by(leb)]: stable, so the result is the one insertion from the right
    computes. *)
Fixpoint insert_by {A} (leb : A → A → bool) (x : A) (l : list A) : list A :=
  match l with
  | [] => [x]
  | y :: l' => if leb x y then x :: l else y :: insert_by leb x l'
  end.
Fixpoint sort_by {A} (leb : A → A → bool) (l : list A) : list A :=
  match l with
  | [] => []
  | x :: l => insert_by leb x (sort_by leb l)
  end.
Definition sort_strings : list string → list string := sort_by str_leb.

(** [v.dedup()]: removes consecutive repetitions *)
Fixpoint dedup (l : list string) : list string :=
  match l with
  | x :: (y :: _) as l' => if str_eqb x y then dedup l' else x :: dedup l'
  | _ => l
  end.

(** ** Sets used as "seen" accumulators ([BTreeSet::insert]) *)

Definition mem {A} `{EqDecision A} (x : A) (l : list A) : bool :=
  bool_decide (x ∈ l).

(** ** Numbers *)

(** [n.to_string()] for an unsigned integer *)
Definition dec (z : Z) : string := pretty (Z.to_N z).

Definition digit_of (c : ascii) : option Z :=
  if is_ascii_digit c then Some (code c - 48) else None.
(** [char::to_digit(16)] *)
Definition hex_digit_of (c : ascii) : option Z :=
  if is_ascii_digit c then Some (code c - 48)
  else if between 97 102 c then Some (code c - 87)
  else if between 65 70 c then Some (code c - 55)
  else None.

(** [s.parse::<uN>()] with maximum [m]: an optional [+], then digits. *)
Fixpoint parse_digits (m acc : Z) (s : string) : option Z :=
  match s with
  | EmptyString => Some acc
  | String c s =>
      d ← digit_of c;
      if m <? acc * 10 + d then None else parse_digits m (acc * 10 + d) s
  end.
Definition parse_uint (m : Z) (s : string) : option Z :=
  match s with
  | EmptyString => None
  | String "+" EmptyString => None
  | String "+" r => parse_digits m 0 r
  | _ => parse_digits m 0 s
  end.

(** [format!("{b:02x}")] over a byte slice *)
Definition hex_char (n : Z) : ascii :=
  if n <? 10 then ascii_of_N (Z.to_N (48 + n)) else ascii_of_N (Z.to_N (87 + n)).
Definition hex_of_byte (b : Byte.byte) : string :=
  let n := Z.of_N (Byte.to_N b) in
  String (hex_char (n / 16)) (String (hex_char (n mod 16)) "").
Fixpoint hex_of_bytes (bs : bytes) : string :=
  match bs with
  | [] => ""
  | b :: bs => hex_of_byte b +:+ hex_of_bytes bs
  end.

(** ** Facts *)

Section StringFacts.

Lemma app_assoc_str (a b c : string) : (a +:+ b) +:+ c = a +:+ (b +:+ c).
Proof. induction a as [|x a IH]; [done|]. exact (f_equal (String x) IH). Qed.

Lemma app_nil_r_str (a : string) : a +:+ "" = a.
Proof. induction a as [|x a IH]; [done|]. exact (f_equal (String x) IH). Qed.

Lemma app_inv_head_str (a b c : string) : a +:+ b = a +:+ c → b = c.
Proof. induction a as [|x a IH]; [done|]. intros [= H]. by apply IH. Qed.

Lemma length_app_str (a b : string) :
  String.length (a +:+ b) = (String.length a + String.length b)%nat.
Proof. induction a as [|x a IH]; [done|]. exact (f_equal S IH). Qed.

Lemma slen_app (a b : string) : slen (a +:+ b) = slen a + slen b.
Proof. unfold slen. rewrite length_app_str. lia. Qed.

Lemma strip_prefix_Some p s r : strip_prefix p s = Some r ↔ s = p +:+ r.
Proof.
  revert s; induction p as [|a p IH]; intros s; simpl.
  { split; [by intros [= ->]|by intros ->]. }
  destruct s as [|b s]; [done|].
  destruct (Ascii.eqb_spec a b) as [->|Hne].
  - rewrite IH. split; [by intros ->|by intros [= ->]].
  - split; [done|]. intros [= -> _]. done.
Qed.

Lemma strip_prefix_app p r : strip_prefix p (p +:+ r) = Some r.
Proof. by apply strip_prefix_Some. Qed.

Lemma starts_with_true p s : starts_with p s = true ↔ ∃ r, s = p +:+ r.
Proof.
  unfold starts_with. destruct (strip_prefix p s) as [r|] eqn:E.
  - apply strip_prefix_Some in E. naive_solver.
  - split; [done|]. intros [r ->]. by rewrite strip_prefix_app in E.
Qed.

Lemma strip_suffix_Some p s r : strip_suffix p s = Some r → s = r +:+ p.
Proof.
  revert r; induction s as [|c s IH]; intros r; simpl;
    destruct (str_eqb _ p) eqn:E; try (apply str_eqb_true in E; naive_solver);
    [done|].
  destruct (strip_suffix p s) as [r'|] eqn:E'; simpl; [|done].
  injection 1 as <-. exact (f_equal (String c) (IH r' eq_refl)).
Qed.

Lemma str_all_app p a b : str_all p (a +:+ b) = str_all p a && str_all p b.
Proof.
  induction a as [|c a IH]; [done|].
  change (p c && str_all p (a +:+ b) = p c && str_all p a && str_all p b).
  by rewrite IH, andb_assoc.
Qed.

Lemma str_all_impl (p q : ascii → bool) s :
  (∀ c, p c = true → q c = true) → str_all p s = true → str_all q s = true.
Proof.
  intros Hpq. induction s as [|c s IH]; simpl; [done|].
  rewrite !andb_true. naive_solver.
Qed.

Lemma length_str_take n s :
  (n ≤ String.length s)%nat → String.length (str_take n s) = n.
Proof.
  revert s; induction n as [|n IH]; intros [|c s]; simpl; try lia.
  intros. rewrite IH; lia.
Qed.

Lemma str_all_take p n s : str_all p s = true → str_all p (str_take n s) = true.
Proof.
  revert n; induction s as [|c s IH]; intros [|n]; simpl; try done.
  rewrite !andb_true. naive_solver.
Qed.

Lemma split_not_nil c s : split c s ≠ [].
Proof.
  induction s as [|d s IH]; simpl; [done|].
  destruct (Ascii.eqb d c); [done|]. by destruct (split c s).
Qed.

Lemma split_once_Some c s a b :
  split_once c s = Some (a, b) → s = a +:+ String c b ∧
    str_all (λ d, negb (Ascii.eqb d c)) a = true.
Proof.
  revert a; induction s as [|d s IH]; intros a; simpl; [done|].
  destruct (Ascii.eqb_spec d c) as [->|Hne]; [naive_solver|].
  destruct (split_once c s) as [[a' b']|]; simpl; [|done].
  injection 1 as <- <-. destruct (IH a' eq_refl) as [-> ?]. simpl.
  split; [done|]. rewrite andb_true. split; [|done].
  by destruct (Ascii.eqb_spec d c).
Qed.

Lemma rsplit_once_Some p s a b :
  p ≠ "" → rsplit_once p s = Some (a, b) → s = a +:+ p +:+ b.
Proof.
  intros Hp. revert a b; induction s as [|d s IH]; intros a b; simpl.
  - unfold str_empty. destruct (str_eqb p "") eqn:E; [|done].
    by apply str_eqb_true in E.
  - destruct (rsplit_once p s) as [[a' b']|] eqn:E.
    + injection 1 as <- <-. exact (f_equal (String d) (IH a' b' eq_refl)).
    + destruct (strip_prefix p (String d s)) as [r|] eqn:E'; simpl; [|done].
      injection 1 as <- <-. by apply strip_prefix_Some in E'.
Qed.

End StringFacts.

(** *** Hexadecimal *)

Lemma hex_char_facts n :
  0 ≤ n < 16 → is_lower_hex (hex_char n) = true ∧ hex_digit_of (hex_char n) = Some n.
Proof.
  intros Hn.
  assert (H : forallb (λ k, is_lower_hex (hex_char (Z.of_nat k)) &&
     bool_decide (hex_digit_of (hex_char (Z.of_nat k)) = Some (Z.of_nat k)))
     (seq 0 16) = true) by (vm_compute; reflexivity).
  rewrite forallb_forall in H. specialize (H (Z.to_nat n)).
  rewrite Z2Nat.id in H by lia.
  assert (Hin : In (Z.to_nat n) (seq 0 16)) by (apply in_seq; lia).
  specialize (H Hin). apply andb_true in H as [H1 H2].
  by apply bool_decide_eq_true in H2.
Qed.

Lemma byte_to_N_bound b : 0 ≤ Z.of_N (Byte.to_N b) < 256.
Proof. pose proof (Byte.to_N_bounded b). lia. Qed.

Lemma hex_of_bytes_lower_hex bs : str_all is_lower_hex (hex_of_bytes bs) = true.
Proof.
  induction bs as [|b bs IH]; simpl; [done|].
  pose proof (byte_to_N_bound b). set (n := Z.of_N (Byte.to_N b)) in *.
  rewrite (proj1 (hex_char_facts (n / 16) ltac:(split; [apply Z.div_pos|apply Z.div_lt_upper_bound]; lia))),
    (proj1 (hex_char_facts (n mod 16) ltac:(apply Z.mod_pos_bound; lia))).
  done.
Qed.

Lemma length_hex_of_bytes bs : String.length (hex_of_bytes bs) = (2 * length bs)%nat.
Proof.
  induction bs as [|b bs IH]; [done|]. cbn [hex_of_bytes].
  rewrite length_app_str, IH. simpl. lia.
Qed.

Lemma hex_char_inj m n : 0 ≤ m < 16 → 0 ≤ n < 16 → hex_char m = hex_char n → m = n.
Proof.
  intros Hm Hn E. pose proof (proj2 (hex_char_facts m Hm)) as H1.
  rewrite E, (proj2 (hex_char_facts n Hn)) in H1. naive_solver.
Qed.

Lemma hex_of_byte_inj a b : hex_of_byte a = hex_of_byte b → a = b.
Proof.
  unfold hex_of_byte. intros [= H1 H2].
  pose proof (byte_to_N_bound a). pose proof (byte_to_N_bound b).
  set (m := Z.of_N (Byte.to_N a)) in *. set (n := Z.of_N (Byte.to_N b)) in *.
  apply hex_char_inj in H1;
    [|split; [apply Z.div_pos|apply Z.div_lt_upper_bound]; lia..].
  apply hex_char_inj in H2; [|apply Z.mod_pos_bound; lia..].
  assert (Hmn : m = n) by (rewrite (Z.div_mod m 16), (Z.div_mod n 16); lia).
  assert (HN : Byte.to_N a = Byte.to_N b) by (unfold m, n in Hmn; lia).
  pose proof (Byte.of_to_N a) as Ha. pose proof (Byte.of_to_N b) as Hb.
  congruence.
Qed.

Lemma hex_of_bytes_inj a b : hex_of_bytes a = hex_of_bytes b → a = b.
Proof.
  revert b; induction a as [|x a IH]; intros [|y b]; try done.
  cbn -[hex_of_byte]. destruct (hex_of_byte x) as [|c1 [|c2 [|]]] eqn:E1; try done.
  destruct (hex_of_byte y) as [|d1 [|d2 [|]]] eqn:E2; try done.
  simpl. intros [= -> -> H]. f_equal; [|auto].
  apply hex_of_byte_inj. congruence.
Qed.

(** *** Ordering and sorting *)

Lemma str_compare_refl s : String.compare s s = Eq.
Proof.
  induction s as [|c s IH]; simpl; [done|]. unfold Ascii.compare.
  by rewrite N.compare_refl.
Qed.

Lemma str_leb_refl s : str_leb s s = true.
Proof. unfold str_leb. by rewrite str_compare_refl. Qed.

Lemma str_leb_total a b : str_leb a b = true ∨ str_leb b a = true.
Proof.
  unfold str_leb. rewrite (String.compare_antisym b a).
  destruct (String.compare a b); simpl; auto.
Qed.

Lemma str_leb_antisym a b : str_leb a b = true → str_leb b a = true → a = b.
Proof.
  unfold str_leb. rewrite (String.compare_antisym b a).
  destruct (String.compare a b) eqn:E; simpl; try done.
  by intros _ _; apply String.compare_eq_iff.
Qed.

Lemma ascii_compare_trans x y z c :
  Ascii.compare x y = c → Ascii.compare y z = c → Ascii.compare x z = c.
Proof.
  unfold Ascii.compare. destruct c; rewrite ?N.compare_eq_iff, ?N.compare_lt_iff,
    ?N.compare_gt_iff; lia.
Qed.

Lemma str_leb_trans a b c :
  str_leb a b = true → str_leb b c = true → str_leb a c = true.
Proof.
  revert b c; induction a as [|x a IH]; intros [|y b] [|z c]; try done.
  unfold str_leb. simpl.
  destruct (Ascii.compare x y) eqn:E1; destruct (Ascii.compare y z) eqn:E2; try done.
  - rewrite (ascii_compare_trans _ _ _ _ E1 E2). intros H1 H2.
    specialize (IH b c). unfold str_leb in IH. auto.
  - apply Ascii.compare_eq_iff in E1 as ->. by rewrite E2.
  - apply Ascii.compare_eq_iff in E2 as ->. by rewrite E1.
  - by rewrite (ascii_compare_trans _ _ _ _ E1 E2).
Qed.

Section Sorting.
Context {A : Type} (leb : A → A → bool).

Lemma insert_by_perm x l : insert_by leb x l ≡ₚ x :: l.
Proof.
  induction l as [|y l IH]; simpl; [done|].
  destruct (leb x y); [done|]. rewrite IH. apply Permutation_swap.
Qed.

Lemma sort_by_perm l : sort_by leb l ≡ₚ l.
Proof.
  induction l as [|x l IH]; simpl; [done|]. by rewrite insert_by_perm, IH.
Qed.

Lemma length_sort_by l : length (sort_by leb l) = length l.
Proof. by rewrite sort_by_perm. Qed.

Hypothesis Htotal : ∀ a b, leb a b = true ∨ leb b a = true.
Hypothesis Htrans : ∀ a b c, leb a b = true → leb b c = true → leb a c = true.

Lemma insert_by_sorted x l :
  StronglySorted (λ a b, leb a b = true) l →
  StronglySorted (λ a b, leb a b = true) (insert_by leb x l).
Proof using Htotal Htrans.
  induction 1 as [|y l Hs IH Hall]; simpl; [repeat constructor|].
  destruct (leb x y) eqn:E.
  - constructor; [by constructor|]. constructor; [done|].
    rewrite Forall_forall in *. eauto.
  - constructor; [done|]. rewrite insert_by_perm. constructor; [|done].
    destruct (Htotal x y); congruence.
Qed.

Lemma sort_by_sorted l : StronglySorted (λ a b, leb a b = true) (sort_by leb l).
Proof using Htotal Htrans.
  induction l as [|x l IH]; simpl; [constructor|]. by apply insert_by_sorted.
Qed.

Hypothesis Hantisym : ∀ a b, leb a b = true → leb b a = true → a = b.

(** Sorting by a total order forgets the order of its input. *)
Lemma sort_by_canonical l1 l2 : l1 ≡ₚ l2 → sort_by leb l1 = sort_by leb l2.
Proof using Htotal Htrans Hantisym.
  intros Hp. eapply (StronglySorted_unique_strong (λ a b, leb a b = true));
    [|apply sort_by_sorted..|by rewrite !sort_by_perm].
  intros x y _ _. apply Hantisym.
Qed.
End Sorting.

Lemma sort_strings_canonical l1 l2 :
  l1 ≡ₚ l2 → sort_strings l1 = sort_strings l2.
Proof.
  apply sort_by_canonical; eauto using str_leb_total, str_leb_trans, str_leb_antisym.
Qed.

Lemma sort_strings_eq_perm l1 l2 : sort_strings l1 = sort_strings l2 ↔ l1 ≡ₚ l2.
Proof.
  split; [|apply sort_strings_canonical]. intros E.
  rewrite <- (sort_by_perm str_leb l1), <- (sort_by_perm str_leb l2).
  unfold sort_strings in E. by rewrite E.
Qed.

Lemma mem_true {A} `{EqDecision A} (x : A) l : mem x l = true ↔ x ∈ l.
Proof. apply bool_decide_eq_true. Qed.
Lemma mem_false {A} `{EqDecision A} (x : A) l : mem x l = false ↔ x ∉ l.
Proof. apply bool_decide_eq_false. Qed.
#[export] Hint Rewrite @mem_true @mem_false : reflect.

(** *** Examples *)

Example trim_ex : trim "  a b " = "a b" ∧ trim " " = "" ∧ trim "x" = "x".
Proof. vm_compute. auto. Qed.
Example parse_ex :
  parse_uint 255 "+24" = Some 24 ∧ parse_uint 255 "024" = Some 24 ∧
  parse_uint 255 "256" = None ∧ parse_uint 255 "" = None ∧ parse_uint 255 "+" = None ∧
  parse_uint 255 "-1" = None.
Proof. vm_compute. repeat split. Qed.
Example split_ex : split "." "a..b" = ["a"; ""; "b"] ∧ split "." "" = [""].
Proof. split; reflexivity. Qed.
Example rsplit_ex :
  rsplit_once "@sha256:" "a@sha256:b@sha256:c" = Some ("a@sha256:b", "c").
Proof. reflexivity. Qed.
Example dec_ex : dec 0 = "0" ∧ dec 255 = "255".
Proof. vm_compute. auto. Qed.
