(* ===== verification/RustText.v ===== *)
(** * Text: lines and decimal numbers

    [str::lines], and the facts that relate [to_string] and [parse] of unsigned
    integers and the lines of a formatted text. *)

From S2P Require Import Prelude RustStd.

(** [str::lines]: a line ends at [\n] or [\r\n]; the last one may have no end. *)
Definition newline : ascii := "010".
Definition carriage_return : string := String "013" "".
Definition strip_cr (line : string) : string :=
  match strip_suffix carriage_return line with Some l => l | None => line end.
Fixpoint lines_of (parts : list string) : list string :=
  match parts with
  | [] => []
  | [last] => if str_empty last then [] else [last]
  | part :: parts => strip_cr part :: lines_of parts
  end.
Definition lines (s : string) : list string := lines_of (split newline s).
Definition nl : string := String newline "".

(** [value.to_string()] of an [i32] *)
Definition dec_i32 (z : Z) : string := if z <? 0 then "-" +:+ dec (- z) else dec z.

(** [s.chars().filter(p)], [p] false of the characters outside ASCII *)
Fixpoint str_filter (p : ascii → bool) (s : string) : string :=
  match s with
  | EmptyString => ""
  | String c s => if p c then String c (str_filter p s) else str_filter p s
  end.

(** ** Lines *)

Lemma split_app_nl c a s : str_all (λ x, negb (Ascii.eqb x c)) a = true →
  split c (a +:+ String c s) = a :: split c s.
Proof.
  induction a as [|x a IH].
  - intros _. change ("" +:+ String c s) with (String c s). cbn [split].
    by rewrite Ascii.eqb_refl.
  - cbn [str_all]. intros [Hx Ha]%andb_true. apply negb_true in Hx.
    change (String x a +:+ String c s) with (String x (a +:+ String c s)).
    cbn [split]. by rewrite Hx, IH.
Qed.
Lemma split_once_app c a s : str_all (λ x, negb (Ascii.eqb x c)) a = true →
  split_once c (a +:+ String c s) = Some (a, s).
Proof.
  induction a as [|x a IH].
  - intros _. change ("" +:+ String c s) with (String c s). cbn [split_once].
    by rewrite Ascii.eqb_refl.
  - cbn [str_all]. intros [Hx Ha]%andb_true. apply negb_true in Hx.
    change (String x a +:+ String c s) with (String x (a +:+ String c s)).
    cbn [split_once]. by rewrite Hx, IH.
Qed.

(** A character of an environment line that neither ends the line nor belongs to
    its end *)
Definition line_char (c : ascii) : bool :=
  negb (Ascii.eqb c newline) && negb (Ascii.eqb c "013").

Lemma strip_suffix_cr a : str_all line_char a = true → strip_suffix carriage_return a = None.
Proof.
  induction a as [|x a IH]; [done|]. cbn [str_all]. intros [Hx Ha]%andb_true.
  cbn [strip_suffix]. replace (str_eqb (String x a) carriage_return) with false.
  - by rewrite (IH Ha).
  - symmetry. apply str_eqb_false. intros [= -> ->]. by vm_compute in Hx.
Qed.

Lemma lines_cons a s : str_all line_char a = true → lines (a +:+ nl +:+ s) = a :: lines s.
Proof.
  intros Ha. unfold lines. change (nl +:+ s) with (String newline s).
  rewrite split_app_nl.
  2:{ revert Ha. apply str_all_impl. intros c Hc%andb_true. apply Hc. }
  pose proof (split_not_nil newline s). destruct (split newline s) as [|p ps]; [done|].
  cbn [lines_of]. unfold strip_cr. by rewrite strip_suffix_cr.
Qed.

Lemma lower_hex_line c : is_lower_hex c = true → line_char c = true.
Proof. by destruct c as [[] [] [] [] [] [] [] []]. Qed.

(** ** Decimal numbers *)

Lemma pretty_digits (n : N) : str_all is_ascii_digit (pretty n) = true.
Proof.
  unfold pretty, pretty_N.
  case_decide as Hn; [done|]. clear Hn.
  cut (∀ s, str_all is_ascii_digit s = true → str_all is_ascii_digit (pretty_N_go n s) = true).
  { intros Hc. by apply Hc. }
  induction (N.lt_wf_0 n) as [n _ IH]. intros s Hs.
  destruct (decide (0 < n)%N) as [Hpos|Hz].
  - rewrite pretty_N_go_step by done. apply IH; [apply N.div_lt; lia|].
    simpl. rewrite Hs, andb_true_r.
    assert (n `mod` 10 < 10)%N as Hd by (apply N.mod_lt; lia).
    revert Hd. generalize (n `mod` 10)%N as d. intros d Hd.
    assert (d ∈ [0; 1; 2; 3; 4; 5; 6; 7; 8; 9]%N) as Hin.
    { rewrite !elem_of_cons. lia. }
    rewrite !elem_of_cons, elem_of_nil in Hin.
    by destruct Hin as [->|[->|[->|[->|[->|[->|[->|[->|[->|[->|[]]]]]]]]]]].
  - replace n with 0%N by lia. by rewrite pretty_N_go_0.
Qed.

Lemma pretty_head (n : N) : ∃ c t, pretty n = String c t ∧ is_ascii_digit c = true.
Proof.
  pose proof (pretty_digits n) as Hd. destruct (pretty n) as [|c t] eqn:E.
  - assert (Hne : n ≠ 0%N) by (by intros ->).
    unfold pretty, pretty_N in E. rewrite decide_False in E by done.
    exfalso. revert E. rewrite pretty_N_go_step by lia.
    cut (∀ n s, s ≠ "" → pretty_N_go n s ≠ ""). { intros Hc. by apply Hc. }
    clear. intros n. induction (N.lt_wf_0 n) as [n _ IH]. intros s Hs.
    destruct (decide (0 < n)%N).
    + rewrite pretty_N_go_step by done. apply IH; [apply N.div_lt; lia|done].
    + replace n with 0%N by lia. by rewrite pretty_N_go_0.
  - exists c, t. split; [done|]. simpl in Hd. by apply andb_true in Hd as [? _].
Qed.

Lemma digit_of_pretty (d : N) : (d < 10)%N → digit_of (pretty_N_char d) = Some (Z.of_N d).
Proof.
  intros Hd. assert (d ∈ [0; 1; 2; 3; 4; 5; 6; 7; 8; 9]%N) as Hin.
  { rewrite !elem_of_cons. lia. }
  rewrite !elem_of_cons, elem_of_nil in Hin.
  by destruct Hin as [->|[->|[->|[->|[->|[->|[->|[->|[->|[->|[]]]]]]]]]]].
Qed.
Lemma parse_digits_pretty m n s :
  Z.of_N n ≤ m → parse_digits m 0 (pretty_N_go n s) = parse_digits m (Z.of_N n) s.
Proof.
  revert s. induction (N.lt_wf_0 n) as [n _ IH]. intros s Hn.
  destruct (decide (0 < n)%N) as [Hpos|Hz].
  - rewrite pretty_N_go_step by done. pose proof (N.div_mod n 10 ltac:(lia)) as E.
    assert (n `div` 10 < n)%N as Hlt by (apply N.div_lt; lia).
    assert (n `mod` 10 < 10)%N as Hd by (apply N.mod_lt; lia).
    rewrite IH by lia. cbn [parse_digits].
    rewrite digit_of_pretty by done. cbn [mbind option_bind].
    replace (Z.of_N (n `div` 10) * 10 + Z.of_N (n `mod` 10)) with (Z.of_N n) by lia.
    by rewrite (proj2 (Z.ltb_ge _ _) Hn).
  - replace n with 0%N by lia. by rewrite pretty_N_go_0.
Qed.

(** [z.to_string().parse::<uN>()] *)
Lemma parse_uint_dec m z : 0 ≤ z ≤ m → parse_uint m (dec z) = Some z.
Proof.
  intros [H0 Hm]. unfold dec, parse_uint. set (n := Z.to_N z).
  destruct (pretty_head n) as (c & t & E & Hc). rewrite E.
  assert (parse_digits m 0 (String c t) = Some z) as Hp.
  { rewrite <- E. unfold pretty, pretty_N. case_decide as Hz; unfold n in *.
    - replace z with 0 by lia. cbn [parse_digits]. change (digit_of "0") with (Some 0).
      cbn [mbind option_bind]. by rewrite (proj2 (Z.ltb_ge _ _)) by lia.
    - rewrite parse_digits_pretty by lia. cbn. f_equal. lia. }
  destruct c as [[] [] [] [] [] [] [] []]; try done.
Qed.
Lemma dec_line z : str_all line_char (dec z) = true.
Proof.
  eapply str_all_impl, pretty_digits. intros c. by destruct c as [[] [] [] [] [] [] [] []].
Qed.
