(* ===== verification/RustOrd.v ===== *)
(** * Derived orders and ordered sets

    [#[derive(PartialOrd, Ord)]] compares the fields of a struct in the order of their
    declaration, a [Vec] and a [String] lexicographically. A [BTreeSet] is the strictly
    ascending list of its elements, [insert] says whether the element is new, and
    [windows(2).all(|w| w[0] < w[1])] tests that a vector is such a list. *)

From S2P Require Import Prelude RustStd.

(** ** [Ord::cmp] *)

Class Ord (A : Type) := cmp : A → A → comparison.

Class OrdLaws (A : Type) `{Ord A} : Prop := {
  cmp_eq x y : cmp x y = Eq ↔ x = y;
  cmp_flip x y : cmp y x = CompOpp (cmp x y);
  cmp_trans x y z : cmp x y = Lt → cmp y z = Lt → cmp x z = Lt
}.

(** [Ordering::then] *)
Definition then_with (c d : comparison) : comparison :=
  match c with Eq => d | _ => c end.

Definition cmp_ltb {A} `{Ord A} (x y : A) : bool :=
  match cmp x y with Lt => true | _ => false end.

#[global] Instance Z_ord : Ord Z := Z.compare.
#[global] Instance bool_ord : Ord bool := Bool.compare.
#[global] Instance byte_ord : Ord Byte.byte := λ a b, N.compare (Byte.to_N a) (Byte.to_N b).
#[global] Instance pair_ord {A B} `{Ord A, Ord B} : Ord (A * B) := λ x y,
  then_with (cmp (fst x) (fst y)) (cmp (snd x) (snd y)).
Fixpoint list_cmp {A} `{Ord A} (x y : list A) : comparison :=
  match x, y with
  | [], [] => Eq
  | [], _ :: _ => Lt
  | _ :: _, [] => Gt
  | a :: x, b :: y => then_with (cmp a b) (list_cmp x y)
  end.
#[global] Instance list_ord {A} `{Ord A} : Ord (list A) := list_cmp.
(** The order of a struct is the order of the tuple of its fields. *)
Definition ord_by {A B} `{Ord B} (f : A → B) : Ord A := λ x y, cmp (f x) (f y).
#[global] Instance string_ord : Ord string := ord_by as_bytes.

#[global] Instance Z_ord_laws : OrdLaws Z.
Proof.
  split; unfold cmp, Z_ord.
  - apply Z.compare_eq_iff.
  - intros. apply Z.compare_antisym.
  - intros x y z. rewrite !Z.compare_lt_iff. lia.
Qed.
#[global] Instance bool_ord_laws : OrdLaws bool.
Proof. split; intros [] []; try intros []; naive_solver. Qed.

Lemma byte_to_N_inj a b : Byte.to_N a = Byte.to_N b → a = b.
Proof. intros E. assert (H := Byte.of_to_N a). rewrite E, Byte.of_to_N in H. naive_solver. Qed.

#[global] Instance byte_ord_laws : OrdLaws Byte.byte.
Proof.
  split; unfold cmp, byte_ord.
  - intros x y. rewrite N.compare_eq_iff. split; [apply byte_to_N_inj|by intros ->].
  - intros. apply N.compare_antisym.
  - intros x y z. rewrite !N.compare_lt_iff. lia.
Qed.

Lemma then_with_Lt c d : then_with c d = Lt ↔ c = Lt ∨ c = Eq ∧ d = Lt.
Proof. destruct c, d; naive_solver. Qed.
Lemma then_with_Eq c d : then_with c d = Eq ↔ c = Eq ∧ d = Eq.
Proof. destruct c, d; naive_solver. Qed.
Lemma then_with_opp c d : CompOpp (then_with c d) = then_with (CompOpp c) (CompOpp d).
Proof. by destruct c, d. Qed.

(** Two lexicographic steps compose. *)
Lemma then_with_trans {A} `{OrdLaws A} (a b c : A) (d1 d2 d3 : comparison) :
  (d1 = Lt → d2 = Lt → d3 = Lt) →
  then_with (cmp a b) d1 = Lt → then_with (cmp b c) d2 = Lt → then_with (cmp a c) d3 = Lt.
Proof.
  rewrite !then_with_Lt, !cmp_eq. intros Hd [Hab|[-> Hab]] [Hbc|[-> Hbc]]; auto.
  left. eapply cmp_trans; eauto.
Qed.

#[global] Instance pair_ord_laws {A B} `{OrdLaws A, OrdLaws B} : OrdLaws (A * B).
Proof.
  split; unfold cmp, pair_ord.
  - intros [a b] [a' b']. rewrite then_with_Eq, !cmp_eq. simpl. naive_solver.
  - intros [a b] [a' b']. simpl. by rewrite then_with_opp, <- !cmp_flip.
  - intros [a b] [a' b'] [a'' b'']. apply then_with_trans. simpl. apply cmp_trans.
Qed.

#[global] Instance list_ord_laws {A} `{OrdLaws A} : OrdLaws (list A).
Proof.
  split; unfold cmp, list_ord.
  - induction x as [|a x IH]; intros [|b y]; simpl; [naive_solver..|].
    rewrite then_with_Eq, cmp_eq, IH. naive_solver.
  - induction x as [|a x IH]; intros [|b y]; simpl; [done..|].
    by rewrite then_with_opp, <- cmp_flip, IH.
  - induction x as [|a x IH]; intros [|b y] [|c z]; simpl; [done..|].
    apply then_with_trans. apply IH.
Qed.

Lemma ord_by_laws {A B} `{OrdLaws B} (f : A → B) :
  (∀ x y, f x = f y → x = y) → @OrdLaws A (ord_by f).
Proof.
  intros Hf. split; unfold cmp, ord_by.
  - intros x y. fold (cmp (f x) (f y)). rewrite cmp_eq. split; [apply Hf|by intros ->].
  - intros. apply cmp_flip.
  - intros x y z. apply cmp_trans.
Qed.

#[global] Instance string_ord_laws : OrdLaws string.
Proof. apply ord_by_laws. apply as_bytes_inj. Qed.

(** ** [BTreeSet] *)

(** [BTreeSet::insert] *)
Fixpoint set_insert {A} `{Ord A} (x : A) (s : list A) : bool * list A :=
  match s with
  | [] => (true, [x])
  | y :: s' =>
      match cmp x y with
      | Lt => (true, x :: s)
      | Eq => (false, s)
      | Gt => let (new, s') := set_insert x s' in (new, y :: s')
      end
  end.

(** [s.windows(2).all(|w| w[0] < w[1])] *)
Fixpoint ascending {A} `{Ord A} (s : list A) : bool :=
  match s with
  | x :: (y :: _) as s' => cmp_ltb x y && ascending s'
  | _ => true
  end.

Section Sets.
Context `{HO : OrdLaws A}.
Implicit Types (x y : A) (s : list A).

Abbreviation lt x y := (cmp x y = Lt).

Lemma cmp_ltb_true x y : cmp_ltb x y = true ↔ lt x y.
Proof. unfold cmp_ltb. destruct (cmp x y); naive_solver. Qed.
Lemma cmp_refl x : cmp x x = Eq.
Proof. by apply cmp_eq. Qed.
Lemma cmp_Gt x y : cmp x y = Gt ↔ lt y x.
Proof. rewrite (cmp_flip x y). destruct (cmp x y); simpl; naive_solver. Qed.
Lemma lt_irrefl x : ¬ lt x x.
Proof. by rewrite cmp_refl. Qed.

Lemma ascending_sorted s : ascending s = true ↔ StronglySorted (λ x y, lt x y) s.
Proof.
  induction s as [|x [|y s] IH]; simpl.
  - split; [constructor|done].
  - split; [repeat constructor|done].
  - rewrite andb_true, cmp_ltb_true, IH. split.
    + intros [Hxy Hs]. constructor; [done|]. constructor; [done|].
      apply StronglySorted_inv in Hs as [_ Hy]. eapply Forall_impl; [exact Hy|].
      simpl. intros z Hz. by eapply cmp_trans.
    + intros [Hs Hx]%StronglySorted_inv. by apply Forall_cons in Hx as [? _].
Qed.

Lemma set_insert_elem x s y : y ∈ snd (set_insert x s) ↔ y = x ∨ y ∈ s.
Proof.
  induction s as [|z s IH]; simpl; [set_solver|].
  destruct (cmp x z) eqn:E; simpl; [apply cmp_eq in E as ->; set_solver|set_solver|].
  destruct (set_insert x s) as [b s']. simpl in *. rewrite !elem_of_cons, IH. naive_solver.
Qed.

Lemma set_insert_Forall (P : A → Prop) x s :
  P x → Forall P s → Forall P (snd (set_insert x s)).
Proof.
  rewrite !Forall_forall. intros Hx Hs y [->|?]%set_insert_elem; auto.
Qed.

Lemma set_insert_ascending x s : ascending s = true → ascending (snd (set_insert x s)) = true.
Proof.
  rewrite !ascending_sorted. induction 1 as [|z s Hs IH Hz]; simpl; [repeat constructor|].
  destruct (cmp x z) eqn:E; simpl; [by constructor|constructor; [by constructor|]|].
  - constructor; [done|]. eapply Forall_impl; [exact Hz|]. intros w. by apply cmp_trans.
  - assert (Hf := set_insert_Forall (λ w, lt z w) x s).
    destruct (set_insert x s) as [b s']. simpl in *. constructor; [done|].
    apply Hf; [by apply cmp_Gt|done].
Qed.

(** The answer of [insert] *)
Lemma set_insert_new x s :
  ascending s = true → fst (set_insert x s) = true ↔ x ∉ s.
Proof.
  rewrite ascending_sorted. induction 1 as [|z s Hs IH Hz]; simpl; [set_solver|].
  destruct (cmp x z) eqn:E; simpl.
  - apply cmp_eq in E as ->. set_solver.
  - split; [|done]. intros _ [->|Hx]%elem_of_cons; [by apply lt_irrefl in E|].
    rewrite Forall_forall in Hz. apply Hz in Hx. by apply (cmp_trans _ _ _ E), lt_irrefl in Hx.
  - destruct (set_insert x s) as [b s']. simpl in *. rewrite IH, not_elem_of_cons.
    split; [|naive_solver]. intros ?. split; [|done]. intros ->. by rewrite cmp_refl in E.
Qed.

Lemma set_insert_perm x s : fst (set_insert x s) = true → snd (set_insert x s) ≡ₚ x :: s.
Proof using Type.
  induction s as [|y s IH]; simpl; [done|]. destruct (cmp x y); simpl; [done..|].
  destruct (set_insert x s) as [b s']. simpl in *. intros Hb. rewrite IH by done.
  apply Permutation_swap.
Qed.

(** A set is determined by its elements. *)
Lemma ascending_ext s t :
  ascending s = true → ascending t = true → (∀ x, x ∈ s ↔ x ∈ t) → s = t.
Proof.
  rewrite !ascending_sorted. intros Hs. revert t.
  induction Hs as [|x s Hs IH Hx]; intros t Ht He.
  - destruct t as [|y t]; [done|]. exfalso. apply (not_elem_of_nil y), He. by left.
  - destruct Ht as [|y t Ht Hy]; [exfalso; apply (not_elem_of_nil x), He; by left|].
    rewrite Forall_forall in Hx, Hy.
    assert (x = y) as ->.
    { destruct (proj1 (elem_of_cons t x y) (proj1 (He x) ltac:(left))) as [->|Hxt]; [done|].
      destruct (proj1 (elem_of_cons s y x) (proj2 (He y) ltac:(left))) as [->|Hys]; [done|].
      apply Hy in Hxt. apply Hx in Hys. by apply (cmp_trans _ _ _ Hxt), lt_irrefl in Hys. }
    f_equal. apply IH; [done|]. intros z. specialize (He z). rewrite !elem_of_cons in He.
    split; intros Hz.
    + destruct (proj1 He (or_intror Hz)) as [->|?]; [|done].
      apply Hx in Hz. by apply lt_irrefl in Hz.
    + destruct (proj2 He (or_intror Hz)) as [->|?]; [|done].
      apply Hy in Hz. by apply lt_irrefl in Hz.
Qed.

Lemma ascending_filter (P : A → Prop) `{∀ x, Decision (P x)} s :
  ascending s = true → ascending (filter P s) = true.
Proof.
  rewrite !ascending_sorted. induction 1 as [|x s Hs IH Hx]; [constructor|].
  rewrite filter_cons. case_decide; [|done]. constructor; [done|].
  rewrite Forall_forall in *. intros y [_ ?]%list_elem_of_filter. auto.
Qed.
End Sets.
