(* ===== verification/RustUtf.v ===== *)
(** * Characters, UTF-8 and UTF-16

    A Rust [str] is a sequence of Unicode scalar values kept in UTF-8. [string_of] and
    [chars] are that encoding and its decoder, [encode_utf16] and [from_utf16] the
    conversions to and from the 16-bit strings of the Windows API. *)

From S2P Require Import Prelude RustStd.

(** [char]: a scalar value *)
Definition scalar (c : Z) : Prop := 0 ≤ c < 55296 ∨ 57344 ≤ c < 1114112.

Definition ascii_of_Z (z : Z) : ascii := ascii_of_N (Z.to_N z).

(** [String::push] *)
Definition utf8_char (c : Z) : string :=
  if c <? 128 then String (ascii_of_Z c) ""
  else if c <? 2048 then
    String (ascii_of_Z (192 + c / 64)) (String (ascii_of_Z (128 + c mod 64)) "")
  else if c <? 65536 then
    String (ascii_of_Z (224 + c / 4096))
      (String (ascii_of_Z (128 + c / 64 mod 64)) (String (ascii_of_Z (128 + c mod 64)) ""))
  else
    String (ascii_of_Z (240 + c / 262144))
      (String (ascii_of_Z (128 + c / 4096 mod 64))
        (String (ascii_of_Z (128 + c / 64 mod 64)) (String (ascii_of_Z (128 + c mod 64)) ""))).

(** [cs.into_iter().collect::<String>()] *)
Fixpoint string_of (cs : list Z) : string :=
  match cs with
  | [] => ""
  | c :: cs => utf8_char c +:+ string_of cs
  end.

(** [str::chars] *)
Fixpoint chars (s : string) : list Z :=
  match s with
  | "" => []
  | String a s1 =>
      let a := code a in
      if a <? 128 then a :: chars s1
      else match s1 with
      | "" => []
      | String b s2 =>
          let b := code b in
          if a <? 224 then (a - 192) * 64 + (b - 128) :: chars s2
          else match s2 with
          | "" => []
          | String c s3 =>
              let c := code c in
              if a <? 240 then ((a - 224) * 64 + (b - 128)) * 64 + (c - 128) :: chars s3
              else match s3 with
              | "" => []
              | String d s4 =>
                  (((a - 240) * 64 + (b - 128)) * 64 + (c - 128)) * 64 + (code d - 128)
                  :: chars s4
              end
          end
      end
  end.

(** Every [str] is the encoding of its characters. *)
Definition utf8 (s : string) : Prop := ∃ cs, Forall scalar cs ∧ s = string_of cs.

(** [char::encode_utf16] *)
Definition utf16_char (c : Z) : list Z :=
  if c <? 65536 then [c]
  else [55296 + (c - 65536) / 1024; 56320 + (c - 65536) mod 1024].

(** [str::encode_utf16] *)
Definition encode_utf16 (s : string) : list Z := flat_map utf16_char (chars s).

Definition high_surrogate (u : Z) : bool := (55296 <=? u) && (u <? 56320).
Definition low_surrogate (u : Z) : bool := (56320 <=? u) && (u <? 57344).

(** [char::decode_utf16]: [None] for an unpaired surrogate *)
Fixpoint decode_utf16 (us : list Z) : option (list Z) :=
  match us with
  | [] => Some []
  | u :: us =>
      if low_surrogate u then None
      else if high_surrogate u then
        match us with
        | v :: us =>
            if low_surrogate v
            then cs ← decode_utf16 us; Some ((u - 55296) * 1024 + (v - 56320) + 65536 :: cs)
            else None
        | [] => None
        end
      else cs ← decode_utf16 us; Some (u :: cs)
  end.

(** [String::from_utf16] *)
Definition from_utf16 (us : list Z) : option string := string_of <$> decode_utf16 us.

(** [str::eq_ignore_ascii_case] *)
Definition eq_ignore_ascii_case (a b : string) : bool :=
  str_eqb (to_ascii_lowercase a) (to_ascii_lowercase b).

(** ** Round trips *)

Lemma code_ascii_of_Z z : 0 ≤ z < 256 → code (ascii_of_Z z) = z.
Proof.
  intros Hz. unfold code, ascii_of_Z. rewrite N_ascii_embedding; [lia|].
  apply N2Z.inj_lt. rewrite Z2N.id; lia.
Qed.
Lemma code_range c : 0 ≤ code c < 256.
Proof. unfold code. assert (H := N_ascii_bounded c). lia. Qed.
Lemma ascii_of_code c : ascii_of_Z (code c) = c.
Proof. unfold code, ascii_of_Z. by rewrite N2Z.id, ascii_N_embedding. Qed.

Lemma cons_app_str a s t : String a s +:+ t = String a (s +:+ t).
Proof. reflexivity. Qed.
Lemma nil_app_str t : "" +:+ t = t.
Proof. reflexivity. Qed.

Ltac utf8_bounds c :=
  pose proof (Z.div_mod c 64 ltac:(lia)); pose proof (Z.mod_pos_bound c 64 ltac:(lia));
  pose proof (Z.div_mod (c / 64) 64 ltac:(lia));
  pose proof (Z.mod_pos_bound (c / 64) 64 ltac:(lia));
  pose proof (Z.div_mod (c / 4096) 64 ltac:(lia));
  pose proof (Z.mod_pos_bound (c / 4096) 64 ltac:(lia));
  assert (c / 64 / 64 = c / 4096) by (rewrite Z.div_div; [done|lia..]);
  assert (c / 4096 / 64 = c / 262144) by (rewrite Z.div_div; [done|lia..]).

Lemma chars_utf8_char c s : scalar c → chars (utf8_char c +:+ s) = c :: chars s.
Proof.
  intros Hc. assert (0 ≤ c < 1114112) by (unfold scalar in Hc; lia). utf8_bounds c.
  unfold utf8_char.
  destruct (Z.ltb_spec c 128).
  { rewrite ?cons_app_str, nil_app_str. cbn [chars]. rewrite code_ascii_of_Z by lia.
    by destruct (Z.ltb_spec c 128); [|lia]. }
  destruct (Z.ltb_spec c 2048).
  { rewrite ?cons_app_str, nil_app_str. cbn [chars]. rewrite !code_ascii_of_Z by lia.
    destruct (Z.ltb_spec (192 + c / 64) 128); [lia|].
    destruct (Z.ltb_spec (192 + c / 64) 224); [|lia]. f_equal. lia. }
  destruct (Z.ltb_spec c 65536).
  { rewrite ?cons_app_str, nil_app_str. cbn [chars]. rewrite !code_ascii_of_Z by lia.
    destruct (Z.ltb_spec (224 + c / 4096) 128); [lia|].
    destruct (Z.ltb_spec (224 + c / 4096) 224); [lia|].
    destruct (Z.ltb_spec (224 + c / 4096) 240); [|lia]. f_equal. lia. }
  rewrite ?cons_app_str, nil_app_str. cbn [chars]. rewrite !code_ascii_of_Z by lia.
  destruct (Z.ltb_spec (240 + c / 262144) 128); [lia|].
  destruct (Z.ltb_spec (240 + c / 262144) 224); [lia|].
  destruct (Z.ltb_spec (240 + c / 262144) 240); [lia|]. f_equal. lia.
Qed.

Lemma chars_app cs s : Forall scalar cs → chars (string_of cs +:+ s) = cs ++ chars s.
Proof.
  induction 1 as [|c cs Hc _ IH]; [done|]. cbn [string_of].
  rewrite app_assoc_str, chars_utf8_char, IH by done. done.
Qed.

Lemma chars_string_of cs : Forall scalar cs → chars (string_of cs) = cs.
Proof.
  intros H. rewrite <- (app_nil_r_str (string_of cs)), chars_app by done. apply app_nil_r.
Qed.

Lemma string_of_chars s : utf8 s → string_of (chars s) = s.
Proof. intros (cs & ? & ->). by rewrite chars_string_of. Qed.
Lemma utf8_scalar s : utf8 s → Forall scalar (chars s).
Proof. intros (cs & ? & ->). by rewrite chars_string_of. Qed.

Lemma string_of_app cs ds : string_of (cs ++ ds) = string_of cs +:+ string_of ds.
Proof. induction cs as [|c cs IH]; simpl; [done|]. by rewrite IH, app_assoc_str. Qed.

Lemma decode_utf16_char c us :
  scalar c → decode_utf16 (utf16_char c ++ us) = (c ::.) <$> decode_utf16 us.
Proof.
  unfold scalar, utf16_char. intros Hc. destruct (Z.ltb_spec c 65536).
  - simpl. unfold low_surrogate, high_surrogate.
    destruct (Z.leb_spec 56320 c), (Z.ltb_spec c 57344), (Z.leb_spec 55296 c),
      (Z.ltb_spec c 56320); simpl; first [lia|by destruct (decode_utf16 us)].
  - assert (H1 := Z.div_mod (c - 65536) 1024 ltac:(lia)).
    assert (H2 := Z.mod_pos_bound (c - 65536) 1024 ltac:(lia)).
    simpl. unfold low_surrogate, high_surrogate.
    set (q := (c - 65536) / 1024) in *. set (r := (c - 65536) mod 1024) in *.
    destruct (Z.leb_spec 56320 (55296 + q)); [lia|]. simpl.
    destruct (Z.leb_spec 55296 (55296 + q)); [|lia].
    destruct (Z.ltb_spec (55296 + q) 56320); [|lia]. simpl.
    destruct (Z.leb_spec 56320 (56320 + r)); [|lia].
    destruct (Z.ltb_spec (56320 + r) 57344); [|lia]. simpl.
    destruct (decode_utf16 us); simpl; [|done]. do 2 f_equal. lia.
Qed.

(** A string survives the passage through the 16-bit form. *)
Lemma from_encode_utf16 s : utf8 s → from_utf16 (encode_utf16 s) = Some s.
Proof.
  intros (cs & Hcs & ->). unfold from_utf16, encode_utf16. rewrite chars_string_of by done.
  enough (decode_utf16 (flat_map utf16_char cs) = Some cs) as -> by done.
  induction Hcs as [|c cs Hc _ IH]; [done|]. simpl. by rewrite decode_utf16_char, IH.
Qed.

Lemma encode_utf16_string_of cs :
  Forall scalar cs → encode_utf16 (string_of cs) = flat_map utf16_char cs.
Proof. intros. unfold encode_utf16. by rewrite chars_string_of. Qed.

(** ** ASCII *)

Lemma utf8_char_ascii c : code c < 128 → utf8_char (code c) = String c "".
Proof.
  intros Hc. unfold utf8_char. destruct (Z.ltb_spec (code c) 128); [|lia].
  by rewrite ascii_of_code.
Qed.

Definition is_ascii (c : ascii) : bool := code c <? 128.
Definition codes (s : string) : list Z := code <$> String.list_ascii_of_string s.

Lemma string_of_codes s : str_all is_ascii s = true → string_of (codes s) = s.
Proof.
  unfold codes. induction s as [|c s IH]; [done|]. cbn. rewrite andb_true.
  unfold is_ascii. rewrite Z.ltb_lt. intros [Hc Hs]. by rewrite utf8_char_ascii, IH.
Qed.
Lemma codes_scalar s : str_all is_ascii s = true → Forall scalar (codes s).
Proof.
  unfold codes. induction s as [|c s IH]; [constructor|]. cbn. rewrite andb_true.
  unfold is_ascii at 1. rewrite Z.ltb_lt. intros [Hc Hs]. constructor; [|by apply IH].
  assert (H := code_range c). unfold scalar. lia.
Qed.
Lemma ascii_utf8 s : str_all is_ascii s = true → utf8 s.
Proof. intros H. exists (codes s). split; [by apply codes_scalar|by rewrite string_of_codes]. Qed.
