(* ===== verification/RustNet.v ===== *)
(** * Internet addresses of the Rust standard library

    [std::net::Ipv4Addr], [Ipv6Addr] and [IpAddr]: the parsers of
    [core::net::parser] (a recursive-descent parser on the bytes of the
    string, with [read_atomically] restoring the input on failure) and the
    [Display] form of an IPv4 address.  The facts are the ones the callers
    rely on: parsing accepts exactly the printed form of an IPv4 address. *)

From S2P Require Import Prelude RustStd.

(** A parser returns the value read and the input left. *)
Definition parser (A : Type) : Type := string → option (A * string).

Definition read_given_char (c : ascii) : parser unit := λ s,
  match s with
  | String d r => if Ascii.eqb c d then Some (tt, r) else None
  | EmptyString => None
  end.

(** [read_separator(sep, index, inner)] *)
Definition read_separator {A} (sep : ascii) (index : nat) (inner : parser A) : parser A :=
  λ s, match index with
       | O => inner s
       | S _ => '(_, s) ← read_given_char sep s; inner s
       end.

(** The digit loop of [read_number]: [n] more digits may be read, one more makes
    it fail.  Returns the number, the count of digits and the rest. *)
Fixpoint read_digits (digit : ascii → option Z) (radix : Z) (n : nat) (acc : Z)
    (count : nat) (s : string) {struct s} : option (Z * nat * string) :=
  match s with
  | String c r =>
      match digit c with
      | Some d =>
          match n with
          | O => None
          | S n => read_digits digit radix n (acc * radix + d) (S count) r
          end
      | None => Some (acc, count, s)
      end
  | EmptyString => Some (acc, count, s)
  end.

Definition starts_with_zero (s : string) : bool := starts_with "0" s.

(** [read_number::<uN>(radix, Some(max_digits), allow_zero_prefix)] with the
    maximum [m] of [uN] *)
Definition read_number (m : Z) (digit : ascii → option Z) (radix : Z)
    (max_digits : nat) (allow_zero_prefix : bool) : parser Z := λ s,
  '(result, digit_count, r) ← read_digits digit radix max_digits 0 0 s;
  if m <? result then None
  else if (digit_count =? 0)%nat then None
  else if negb allow_zero_prefix && starts_with_zero s && (1 <? digit_count)%nat
  then None
  else Some (result, r).

Definition read_octet : parser Z := read_number u8_max digit_of 10 3 false.
Definition read_hextet : parser Z := read_number u16_max hex_digit_of 16 4 true.

(** [Ipv4Addr]: its four octets *)
Record Ipv4Addr : Set := ipv4 { oct0 : Z; oct1 : Z; oct2 : Z; oct3 : Z }.
#[global] Instance Ipv4Addr_eq_dec : EqDecision Ipv4Addr.
Proof. solve_decision. Defined.

Definition read_ipv4_addr : parser Ipv4Addr := λ s,
  '(a, s) ← read_separator "." 0 read_octet s;
  '(b, s) ← read_separator "." 1 read_octet s;
  '(c, s) ← read_separator "." 2 read_octet s;
  '(d, s) ← read_separator "." 3 read_octet s;
  Some (ipv4 a b c d, s).

(** [read_groups]: at most [limit] groups are left; [i] is the index of the next
    one.  Returns the groups read (reversed), and whether an embedded IPv4
    address ended them. *)
Fixpoint read_groups (limit i : nat) (acc : list Z) (s : string)
    : list Z * bool * string :=
  match limit with
  | O => (acc, false, s)
  | S limit =>
      let embedded :=
        if (0 <? limit)%nat then read_separator ":" i read_ipv4_addr s else None in
      match embedded with
      | Some (ip, r) =>
          (oct2 ip * 256 + oct3 ip :: oct0 ip * 256 + oct1 ip :: acc, true, r)
      | None =>
          match read_separator ":" i read_hextet s with
          | Some (g, r) => read_groups limit (S i) (g :: acc) r
          | None => (acc, false, s)
          end
      end
  end.

(** [Ipv6Addr]: its eight 16-bit segments *)
Definition Ipv6Addr : Set := list Z.

Definition read_ipv6_addr : parser Ipv6Addr := λ s,
  let '(head, head_ipv4, s) := read_groups 8 0 [] s in
  if (length head =? 8)%nat then Some (rev head, s)
  else if head_ipv4 then None
  else
    '(_, s) ← read_given_char ":" s;
    '(_, s) ← read_given_char ":" s;
    let '(tail, _, s) := read_groups (8 - (length head + 1)) 0 [] s in
    Some (rev head ++ replicate (8 - length head - length tail) 0 ++ rev tail, s).

(** [Parser::parse_with]: the whole input must be read *)
Definition parse_with {A} (p : parser A) (s : string) : option A :=
  match p s with
  | Some (a, "") => Some a
  | _ => None
  end.

(** [s.parse::<Ipv4Addr>()] *)
Definition parse_ipv4 (s : string) : option Ipv4Addr :=
  if 15 <? slen s then None else parse_with read_ipv4_addr s.

Inductive IpAddr : Set := V4 (ip : Ipv4Addr) | V6 (ip : Ipv6Addr).

(** [s.parse::<IpAddr>()] *)
Definition read_ip_addr : parser IpAddr := λ s,
  match read_ipv4_addr s with
  | Some (ip, r) => Some (V4 ip, r)
  | None => match read_ipv6_addr s with
            | Some (ip, r) => Some (V6 ip, r)
            | None => None
            end
  end.
Definition parse_ip (s : string) : option IpAddr := parse_with read_ip_addr s.

(** [Ipv4Addr::to_string] *)
Definition ipv4_display (ip : Ipv4Addr) : string :=
  dec (oct0 ip) +:+ "." +:+ dec (oct1 ip) +:+ "." +:+ dec (oct2 ip) +:+ "." +:+
  dec (oct3 ip).

(** [u32::from(Ipv4Addr)] *)
Definition ipv4_to_u32 (ip : Ipv4Addr) : Z :=
  ((oct0 ip * 256 + oct1 ip) * 256 + oct2 ip) * 256 + oct3 ip.
(** [Ipv4Addr::from(u32)] *)
Definition ipv4_of_u32 (z : Z) : Ipv4Addr :=
  ipv4 (z / 256 ^ 3 mod 256) (z / 256 ^ 2 mod 256) (z / 256 mod 256) (z mod 256).

Definition octets_in_range (ip : Ipv4Addr) : Prop :=
  0 ≤ oct0 ip ≤ 255 ∧ 0 ≤ oct1 ip ≤ 255 ∧ 0 ≤ oct2 ip ≤ 255 ∧ 0 ≤ oct3 ip ≤ 255.

Example parse_ip_ex :
  parse_ipv4 "10.1.0.255" = Some (ipv4 10 1 0 255) ∧ parse_ipv4 "10.01.0.1" = None ∧
  parse_ipv4 "10.1.0.256" = None ∧ parse_ipv4 "10.1.0" = None ∧
  parse_ip "::1" = Some (V6 [0; 0; 0; 0; 0; 0; 0; 1]) ∧
  parse_ip "fe80::1:2" = Some (V6 [65152; 0; 0; 0; 0; 0; 1; 2]) ∧
  parse_ip "::ffff:1.2.3.4" = Some (V6 [0; 0; 0; 0; 0; 65535; 258; 772]) ∧
  parse_ip "1:2:3:4:5:6:7:8" = Some (V6 [1; 2; 3; 4; 5; 6; 7; 8]) ∧
  parse_ip "1::2::3" = None ∧ parse_ip "" = None.
Proof. vm_compute. repeat split. Qed.

(** ** Facts *)

Definition no_digit_head (digit : ascii → option Z) (s : string) : Prop :=
  match s with EmptyString => True | String c _ => digit c = None end.

Section Digits.
Context (digit : ascii → option Z) (radix : Z).

Lemma read_digits_app n acc k s v k' r :
  no_digit_head digit r →
  read_digits digit radix n acc k s = Some (v, k', "") →
  read_digits digit radix n acc k (s +:+ r) = Some (v, k', r).
Proof.
  intros Hr. revert n acc k. induction s as [|c s IH]; intros n acc k; simpl.
  - injection 1 as -> ->. destruct r as [|c r]; simpl; [done|].
    simpl in Hr. by rewrite Hr.
  - destruct (digit c); [|done]. destruct n; [done|]. apply IH.
Qed.

Lemma read_digits_Some n acc k s v k' r :
  read_digits digit radix n acc k s = Some (v, k', r) →
  ∃ p, s = p +:+ r ∧ read_digits digit radix n acc k p = Some (v, k', "") ∧
    (String.length p ≤ n)%nat ∧ no_digit_head digit r ∧
    str_all (λ c, match digit c with Some _ => true | None => false end) p = true.
Proof.
  revert n acc k. induction s as [|c s IH]; intros n acc k; simpl.
  - intros [= -> -> <-]. exists "". simpl. auto with lia.
  - destruct (digit c) as [d|] eqn:Hd.
    + destruct n as [|n]; [done|]. intros (p & -> & ? & ? & ? & Hall)%IH.
      exists (String c p). simpl. rewrite Hd, Hall. auto with lia.
    + intros [= -> -> <-]. exists "". simpl. auto with lia.
Qed.
End Digits.

Lemma starts_with_zero_app c s r :
  starts_with_zero (String c s +:+ r) = starts_with_zero (String c s).
Proof. unfold starts_with_zero, starts_with; simpl. by destruct c as [[] [] [] [] [] [] [] []]. Qed.

Lemma read_number_app m digit radix n z s v r :
  no_digit_head digit r →
  read_number m digit radix n z s = Some (v, "") →
  read_number m digit radix n z (s +:+ r) = Some (v, r).
Proof.
  intros Hr. unfold read_number.
  destruct (read_digits digit radix n 0 0 s) as [[[v' k] r']|] eqn:E; simpl; [|done].
  destruct (m <? v') eqn:Hm; [done|]. destruct (k =? 0)%nat eqn:Hk; [done|].
  destruct (negb z && starts_with_zero s && (1 <? k)%nat) eqn:Hz; [done|].
  intros [= -> ->]. rewrite (read_digits_app _ _ _ _ _ _ _ _ _ Hr E). simpl.
  rewrite Hm, Hk. destruct s as [|c s].
  - simpl in E. injection E as <- <-. done.
  - by rewrite starts_with_zero_app, Hz.
Qed.

Lemma read_number_Some m digit radix n z s v r :
  read_number m digit radix n z s = Some (v, r) →
  ∃ p, s = p +:+ r ∧ read_number m digit radix n z p = Some (v, "") ∧
    (String.length p ≤ n)%nat ∧ no_digit_head digit r ∧
    str_all (λ c, match digit c with Some _ => true | None => false end) p = true.
Proof.
  unfold read_number.
  destruct (read_digits digit radix n 0 0 s) as [[[v' k] r']|] eqn:E; simpl; [|done].
  apply read_digits_Some in E as (p & -> & E & ? & ? & ?).
  destruct (m <? v') eqn:Hm; [done|]. destruct (k =? 0)%nat eqn:Hk; [done|].
  destruct (negb z && starts_with_zero (p +:+ r') && (1 <? k)%nat) eqn:Hz; [done|].
  intros [= -> ->]. exists p. split; [done|]. rewrite E. simpl. rewrite Hm, Hk.
  destruct p as [|c p].
  - simpl in E. injection E as <- <-. done.
  - rewrite starts_with_zero_app in Hz. rewrite Hz. auto.
Qed.

(** *** Octets: the strings of at most three digits, enumerated *)

Definition digit_strings (n : nat) : list string :=
  Nat.iter n (λ l, "" :: (s ← l; (λ k, String (ascii_of_nat (48 + k)) s) <$> seq 0 10)) [""].

Lemma digit_of_Some c d :
  digit_of c = Some d → ∃ k, (k < 10)%nat ∧ c = ascii_of_nat (48 + k).
Proof.
  unfold digit_of, is_ascii_digit, between, code.
  destruct (_ && _) eqn:E; [|done]. intros _. exists (nat_of_ascii c - 48)%nat.
  apply andb_true in E as [E1 E2]. unfold nat_of_ascii.
  split; [lia|]. rewrite <- (ascii_nat_embedding c) at 1.
  f_equal. unfold nat_of_ascii. lia.
Qed.

Lemma digit_strings_complete n p :
  (String.length p ≤ n)%nat →
  str_all (λ c, match digit_of c with Some _ => true | None => false end) p = true →
  p ∈ digit_strings n.
Proof.
  revert p. induction n as [|n IH]; intros [|c p]; cbn [String.length str_all]; try lia.
  - intros _ _. apply list_elem_of_singleton. done.
  - intros _ _. apply elem_of_cons. by left.
  - intros Hlen [Hc Hp]%andb_true. apply elem_of_cons. right.
    apply list_elem_of_bind. exists p. split; [|apply IH; [lia|done]].
    destruct (digit_of c) as [d|] eqn:Hd; [|done].
    apply digit_of_Some in Hd as (k & ? & ->).
    apply list_elem_of_fmap. exists k. split; [done|]. apply elem_of_seq. lia.
Qed.

Lemma octet_table_read :
  forallb (λ p, match read_octet p with
                | Some (v, "") => str_eqb (dec v) p && (0 <=? v) && (v <=? 255)
                | _ => true
                end) (digit_strings 3) = true.
Proof. vm_compute. reflexivity. Qed.

Lemma octet_table_dec :
  forallb (λ k, bool_decide (read_octet (dec (Z.of_nat k)) = Some (Z.of_nat k, "")))
    (seq 0 256) = true.
Proof. vm_compute. reflexivity. Qed.

Lemma read_octet_Some s v r :
  read_octet s = Some (v, r) →
  s = dec v +:+ r ∧ 0 ≤ v ≤ 255 ∧ no_digit_head digit_of r.
Proof.
  intros (p & -> & E & Hlen & Hr & Hall)%read_number_Some.
  pose proof octet_table_read as T. rewrite forallb_forall in T.
  specialize (T p). rewrite <- list_elem_of_In in T.
  specialize (T (digit_strings_complete 3 p Hlen Hall)).
  fold read_octet in E. rewrite E in T.
  rewrite !andb_true, str_eqb_true in T. destruct T as [[<- ?] ?].
  split; [done|]. split; [lia|done].
Qed.

Lemma read_octet_dec v r :
  0 ≤ v ≤ 255 → no_digit_head digit_of r → read_octet (dec v +:+ r) = Some (v, r).
Proof.
  intros Hv Hr. apply read_number_app; [done|].
  pose proof octet_table_dec as T. rewrite forallb_forall in T.
  specialize (T (Z.to_nat v)). rewrite in_seq, Z2Nat.id, bool_decide_eq_true in T by lia.
  apply T. lia.
Qed.

(** *** IPv4 addresses *)

Lemma read_given_char_Some c s r : read_given_char c s = Some (tt, r) → s = String c r.
Proof.
  destruct s as [|d s]; simpl; [done|].
  destruct (Ascii.eqb_spec c d) as [->|]; [|done]. by intros [= ->].
Qed.

Lemma read_sep_octet_Some i s v r :
  read_separator "." (S i) read_octet s = Some (v, r) →
  s = String "." (dec v +:+ r) ∧ 0 ≤ v ≤ 255 ∧ no_digit_head digit_of r.
Proof.
  simpl. destruct (read_given_char "." s) as [[[] s']|] eqn:E; simpl; [|done].
  apply read_given_char_Some in E as ->.
  intros (-> & ? & ?)%read_octet_Some. auto.
Qed.

Lemma read_ipv4_addr_Some s ip r :
  read_ipv4_addr s = Some (ip, r) → s = ipv4_display ip +:+ r ∧ octets_in_range ip.
Proof.
  unfold read_ipv4_addr.
  change (read_separator "." 0 read_octet s) with (read_octet s).
  destruct (read_octet s) as [[a s1]|] eqn:E1; cbn -[read_separator]; [|done].
  destruct (read_separator "." 1 read_octet s1) as [[b s2]|] eqn:E2;
    cbn -[read_separator]; [|done].
  destruct (read_separator "." 2 read_octet s2) as [[c s3]|] eqn:E3;
    cbn -[read_separator]; [|done].
  destruct (read_separator "." 3 read_octet s3) as [[d s4]|] eqn:E4;
    cbn -[read_separator]; [|done].
  intros [= <- <-]. apply read_octet_Some in E1 as (-> & ? & _).
  apply read_sep_octet_Some in E2 as (-> & ? & _), E3 as (-> & ? & _), E4 as (-> & ? & _).
  split; [|done]. unfold ipv4_display; cbn [oct0 oct1 oct2 oct3].
  by rewrite !app_assoc_str.
Qed.

Lemma read_ipv4_addr_display ip r :
  octets_in_range ip → no_digit_head digit_of r →
  read_ipv4_addr (ipv4_display ip +:+ r) = Some (ip, r).
Proof.
  destruct ip as [a b c d]. intros (? & ? & ? & ?) Hr.
  unfold read_ipv4_addr, ipv4_display; cbn [oct0 oct1 oct2 oct3] in *.
  assert (Hsep : ∀ i v t, 0 ≤ v ≤ 255 → no_digit_head digit_of t →
    read_separator "." (S i) read_octet ("." +:+ dec v +:+ t) = Some (v, t)).
  { intros i v t Hv Ht. exact (read_octet_dec v t Hv Ht). }
  rewrite !app_assoc_str.
  change (read_separator "." 0 read_octet) with read_octet.
  rewrite read_octet_dec by done. cbn beta iota delta [mbind option_bind].
  rewrite Hsep by done. cbn beta iota delta [mbind option_bind].
  rewrite Hsep by done. cbn beta iota delta [mbind option_bind].
  by rewrite Hsep.
Qed.

Lemma dec_octet_length v : 0 ≤ v ≤ 255 → (String.length (dec v) ≤ 3)%nat.
Proof.
  intros Hv. pose proof (read_octet_dec v "" Hv I) as E.
  rewrite app_nil_r_str in E. unfold read_octet in E.
  apply read_number_Some in E as (p & E & _ & Hlen & _).
  rewrite app_nil_r_str in E. by subst.
Qed.

Lemma ipv4_display_length ip : octets_in_range ip → slen (ipv4_display ip) ≤ 15.
Proof.
  intros (H0 & H1 & H2 & H3).
  apply dec_octet_length in H0, H1, H2, H3.
  unfold ipv4_display. rewrite !slen_app. unfold slen. simpl. lia.
Qed.

(** The accepted strings are the printed forms. *)
Lemma parse_ipv4_Some s ip :
  parse_ipv4 s = Some ip ↔ s = ipv4_display ip ∧ octets_in_range ip.
Proof.
  unfold parse_ipv4, parse_with. split.
  - destruct (15 <? slen s); [done|].
    destruct (read_ipv4_addr s) as [[ip' r]|] eqn:E; [|done].
    destruct r; [|done]. intros [= ->].
    apply read_ipv4_addr_Some in E as [-> ?]. by rewrite app_nil_r_str.
  - intros [-> Hip]. pose proof (ipv4_display_length ip Hip).
    replace (15 <? slen (ipv4_display ip)) with false by (symmetry; apply Z.ltb_ge; lia).
    pose proof (read_ipv4_addr_display ip "" Hip I) as E.
    rewrite app_nil_r_str in E. by rewrite E.
Qed.

Lemma parse_ipv4_display ip :
  octets_in_range ip → parse_ipv4 (ipv4_display ip) = Some ip.
Proof. intros. by apply parse_ipv4_Some. Qed.

Lemma ipv4_of_u32_in_range z : octets_in_range (ipv4_of_u32 z).
Proof.
  unfold octets_in_range, ipv4_of_u32; simpl.
  repeat split; try (apply Z.mod_pos_bound; lia);
    (apply Zlt_succ_le; apply Z.mod_pos_bound; lia).
Qed.

Lemma ipv4_to_u32_range ip : octets_in_range ip → in_u32 (ipv4_to_u32 ip).
Proof.
  unfold octets_in_range, in_u32, ipv4_to_u32, u32_max. lia.
Qed.

Lemma ipv4_u32_roundtrip z : in_u32 z → ipv4_to_u32 (ipv4_of_u32 z) = z.
Proof.
  unfold in_u32, u32_max, ipv4_to_u32, ipv4_of_u32; cbn [oct0 oct1 oct2 oct3].
  intros. Z.div_mod_to_equations. lia.
Qed.

Lemma ipv4_of_to_u32 ip : octets_in_range ip → ipv4_of_u32 (ipv4_to_u32 ip) = ip.
Proof.
  destruct ip as [a b c d]. unfold octets_in_range, ipv4_to_u32, ipv4_of_u32.
  cbn [oct0 oct1 oct2 oct3]. intros.
  f_equal; Z.div_mod_to_equations; lia.
Qed.

(** ** IPv6 addresses as numbers and text, and the errors of integer parsing *)

(** [u128::from(Ipv6Addr)] and [Ipv6Addr::from(u128)] *)
Definition ipv6_to_u128 (ip : Ipv6Addr) : Z := foldl (λ acc h, acc * 65536 + h) 0 ip.
Fixpoint hextets (n : nat) (z : Z) : list Z :=
  match n with O => [] | S n => hextets n (z / 65536) ++ [z mod 65536] end.
Definition ipv6_of_u128 (z : Z) : Ipv6Addr := hextets 8 z.

(** [format!("{:x}", segment)] of a [u16] *)
Definition hex16 (h : Z) : string :=
  let digits := [h / 4096; h / 256 mod 16; h / 16 mod 16; h mod 16] in
  let fix strip (ds : list Z) : list Z :=
    match ds with 0 :: (_ :: _) as ds' => strip ds' | _ => ds end in
  String.string_of_list_ascii (map hex_char (strip digits)).

(** The first longest run of zero segments, as (start, length) *)
Fixpoint zero_spans (i : nat) (current longest : nat * nat) (segments : list Z) : nat * nat :=
  match segments with
  | [] => longest
  | s :: rest =>
      if s =? 0 then
        let current := if (current.2 =? 0)%nat then (i, 1%nat) else (current.1, S current.2) in
        zero_spans (S i) current (if (longest.2 <? current.2)%nat then current else longest) rest
      else zero_spans (S i) (0%nat, 0%nat) longest rest
  end.

Definition fmt_subslice (segments : list Z) : string := join ":" (map hex16 segments).

(** [impl Display for Ipv6Addr] *)
Definition ipv6_display (ip : Ipv6Addr) : string :=
  match ip with
  | [0; 0; 0; 0; 0; 65535; a; b] =>
      "::ffff:" +:+ ipv4_display (ipv4 (a / 256) (a mod 256) (b / 256) (b mod 256))
  | _ =>
      let '(start, len) := zero_spans 0 (0%nat, 0%nat) (0%nat, 0%nat) ip in
      if (1 <? len)%nat then
        fmt_subslice (take start ip) +:+ "::" +:+ fmt_subslice (drop (start + len) ip)
      else fmt_subslice ip
  end.

Definition ip_display (ip : IpAddr) : string :=
  match ip with V4 ip => ipv4_display ip | V6 ip => ipv6_display ip end.

(** [s.parse::<u8>()] with the text of its [ParseIntError] *)
Fixpoint parse_u8_digits (acc : Z) (s : string) : result string Z :=
  match s with
  | EmptyString => Ok acc
  | String c s =>
      d ← ok_or (digit_of c) "invalid digit found in string";
      if u8_max <? acc * 10 + d then Err "number too large to fit in target type"
      else parse_u8_digits (acc * 10 + d) s
  end.
Definition parse_u8 (s : string) : result string Z :=
  match s with
  | EmptyString => Err "cannot parse integer from empty string"
  | String "+" EmptyString => Err "invalid digit found in string"
  | String "+" r => parse_u8_digits 0 r
  | _ => parse_u8_digits 0 s
  end.

Example ipv6_display_ex :
  ipv6_display (ipv6_of_u128 1) = "::1" ∧
  ipv6_display [8193; 3512; 0; 0; 1; 0; 0; 1] = "2001:db8::1:0:0:1" ∧
  ipv6_display [0; 0; 0; 0; 0; 65535; 258; 772] = "::ffff:1.2.3.4" ∧
  ipv6_display [1; 0; 2; 3; 4; 5; 6; 7] = "1:0:2:3:4:5:6:7" ∧
  ipv6_display [65152; 0; 0; 0; 0; 0; 0; 0] = "fe80::" ∧
  ipv6_to_u128 [65152; 0; 0; 0; 0; 0; 0; 1] = 65152 * 2 ^ 112 + 1.
Proof. vm_compute. repeat split. Qed.
Example parse_u8_ex :
  parse_u8 "+32" = Ok 32 ∧ parse_u8 "256" = Err "number too large to fit in target type" ∧
  parse_u8 "" = Err "cannot parse integer from empty string" ∧
  parse_u8 "-1" = Err "invalid digit found in string".
Proof. vm_compute. repeat split. Qed.
