(* ===== verification/HostTypes.v ===== *)
(** * Protocol types of the host fleet

    The messages and enumerations of [proto/edge/platform/v1/{fleet,runtime,bundle,
    production}.proto] and [proto/edge/release/v1/release_set.proto] that the
    host controllers exchange, as prost generates them: an enumeration field of a message is its raw [i32], so that an
    unknown number is representable and [try_from] can fail; a message field
    is an [option]; [uintN] and [intN] are [Z].  Field names carry the name of
    their message as a prefix.

    Code that is not part of the repository enters through three type classes:
    [Message] (prost's encoder and decoder), [Sha256] (ring's digest) and
    [Ed25519] (ring's signatures).  Their laws are the documented behaviour
    the host code relies on. *)

From S2P Require Import Prelude RustStd.

(** ** Enumerations: [as i32] and [E::try_from(i32)] *)

Class ProtoEnum (E : Type) := {
  as_i32 : E → Z;
  variants : list E;
  find_as_i32 (e : E) : List.find (λ v, as_i32 v =? as_i32 e) variants = Some e
}.

Definition try_from {E} `{ProtoEnum E} (z : Z) : option E :=
  List.find (λ v, as_i32 v =? z) variants.

Section EnumFacts.
Context {E : Type} `{ProtoEnum E}.

Lemma try_from_as_i32 (e : E) : try_from (as_i32 e) = Some e.
Proof. apply find_as_i32. Qed.

Lemma try_from_Some z (e : E) : try_from z = Some e ↔ z = as_i32 e.
Proof.
  split; [|intros ->; apply try_from_as_i32].
  intros [_ ?]%List.find_some. lia.
Qed.

Lemma as_i32_inj (e1 e2 : E) : as_i32 e1 = as_i32 e2 ↔ e1 = e2.
Proof.
  split; [|by intros ->]. intros E12. pose proof (try_from_as_i32 e1) as H1.
  rewrite E12, try_from_as_i32 in H1. by injection H1.
Qed.

Lemma as_i32_eqb (e1 e2 : E) `{EqDecision E} :
  (as_i32 e1 =? as_i32 e2) = bool_decide (e1 = e2).
Proof.
  case_bool_decide as Heq; [subst; apply Z.eqb_refl|].
  apply Z.eqb_neq. by rewrite as_i32_inj.
Qed.

(** [matches!(E::try_from(z), Ok(v1 | v2 | ...))] *)
Definition try_from_one_of `{EqDecision E} (z : Z) (vs : list E) : bool :=
  match try_from z with Some v => bool_decide (v ∈ vs) | None => false end.

Lemma try_from_one_of_true `{EqDecision E} z (vs : list E) :
  try_from_one_of z vs = true ↔ ∃ v, z = as_i32 v ∧ v ∈ vs.
Proof.
  unfold try_from_one_of. split.
  - destruct (try_from z) as [v|] eqn:Ev; [|done].
    rewrite bool_decide_eq_true. apply try_from_Some in Ev. eauto.
  - intros (v & -> & ?). rewrite try_from_as_i32. by apply bool_decide_eq_true.
Qed.
End EnumFacts.

#[export] Hint Rewrite @try_from_as_i32 @as_i32_inj @try_from_one_of_true : reflect.

(** ** Code outside the repository *)

(** [prost::Message]: [encode_to_vec] and [decode] of a message type. *)
Class Message (A : Type) := {
  encode_to_vec : A → bytes;
  decode : bytes → option A
}.

(** Decoding what was encoded gives the message back, for the messages the
    wire format can represent. *)
Class MessageLaws (A : Type) `{Message A} (representable : A → Prop) : Prop := {
  decode_encode x : representable x → decode (encode_to_vec x) = Some x
}.

Lemma encode_inj {A} `{MessageLaws A R} x y :
  R x → R y → encode_to_vec x = encode_to_vec y → x = y.
Proof.
  intros Hx Hy E. pose proof (decode_encode x Hx) as D.
  rewrite E, decode_encode in D by done. by injection D.
Qed.

(** [ring::digest::digest(&SHA256, _)]: always 32 bytes. *)
Class Sha256 := {
  sha256 : bytes → bytes;
  sha256_length b : length (sha256 b) = 32%nat
}.

(** Two different inputs with the same digest. *)
Definition sha256_collision `{Sha256} (a b : bytes) : Prop :=
  a ≠ b ∧ sha256 a = sha256 b.

Lemma sha256_eq `{Sha256} a b :
  sha256 a = sha256 b → a = b ∨ sha256_collision a b.
Proof. intros E. destruct (decide (a = b)); [by left|by right]. Qed.

(** [ring::signature]: [UnparsedPublicKey::new(&ED25519, key).verify(msg, sig)],
    [Ed25519KeyPair::from_pkcs8(k)] with its public key, and [pair.sign(msg)]. *)
Class Ed25519 := {
  ed25519_verify : bytes → bytes → bytes → bool;
  ed25519_public_key : bytes → option bytes;
  ed25519_sign : bytes → bytes → bytes
}.

(** A signature verifies under the public key of the pair that made it; keys have 32
    bytes and signatures 64. *)
Class Ed25519Laws `{Ed25519} : Prop := {
  ed25519_public_key_length k p : ed25519_public_key k = Some p → length p = 32%nat;
  ed25519_sign_length k m : length (ed25519_sign k m) = 64%nat;
  ed25519_sign_verify k p m :
    ed25519_public_key k = Some p → ed25519_verify p m (ed25519_sign k m) = true
}.

(** ** Generated types *)

Inductive FleetHostKind : Set :=
| FleetHostKind_Unspecified
| FleetHostKind_Windows
| FleetHostKind_Vm.

#[global] Instance FleetHostKind_eq_dec : EqDecision FleetHostKind.
Proof. solve_decision. Defined.

Definition FleetHostKind_as_i32 (v : FleetHostKind) : Z :=
  match v with
  | FleetHostKind_Unspecified => 0
  | FleetHostKind_Windows => 1
  | FleetHostKind_Vm => 2
  end.

#[global] Program Instance FleetHostKind_enum : ProtoEnum FleetHostKind := {|
  as_i32 := FleetHostKind_as_i32;
  variants := [FleetHostKind_Unspecified; FleetHostKind_Windows; FleetHostKind_Vm]
|}.
Next Obligation. by destruct e. Qed.

Inductive FleetResourceKind : Set :=
| FleetResourceKind_Unspecified
| FleetResourceKind_Host
| FleetResourceKind_DockerNetwork
| FleetResourceKind_DockerContainer
| FleetResourceKind_SingboxConfig
| FleetResourceKind_Dns
| FleetResourceKind_Firewall
| FleetResourceKind_Route
| FleetResourceKind_CredentialRef.

#[global] Instance FleetResourceKind_eq_dec : EqDecision FleetResourceKind.
Proof. solve_decision. Defined.

Definition FleetResourceKind_as_i32 (v : FleetResourceKind) : Z :=
  match v with
  | FleetResourceKind_Unspecified => 0
  | FleetResourceKind_Host => 1
  | FleetResourceKind_DockerNetwork => 2
  | FleetResourceKind_DockerContainer => 3
  | FleetResourceKind_SingboxConfig => 4
  | FleetResourceKind_Dns => 5
  | FleetResourceKind_Firewall => 6
  | FleetResourceKind_Route => 7
  | FleetResourceKind_CredentialRef => 8
  end.

#[global] Program Instance FleetResourceKind_enum : ProtoEnum FleetResourceKind := {|
  as_i32 := FleetResourceKind_as_i32;
  variants := [FleetResourceKind_Unspecified; FleetResourceKind_Host; FleetResourceKind_DockerNetwork; FleetResourceKind_DockerContainer; FleetResourceKind_SingboxConfig; FleetResourceKind_Dns; FleetResourceKind_Firewall; FleetResourceKind_Route; FleetResourceKind_CredentialRef]
|}.
Next Obligation. by destruct e. Qed.

Inductive FleetResourceOwner : Set :=
| FleetResourceOwner_Unspecified
| FleetResourceOwner_VmRootAgent
| FleetResourceOwner_WindowsSystemController
| FleetResourceOwner_WorkerSecrets.

#[global] Instance FleetResourceOwner_eq_dec : EqDecision FleetResourceOwner.
Proof. solve_decision. Defined.

Definition FleetResourceOwner_as_i32 (v : FleetResourceOwner) : Z :=
  match v with
  | FleetResourceOwner_Unspecified => 0
  | FleetResourceOwner_VmRootAgent => 1
  | FleetResourceOwner_WindowsSystemController => 2
  | FleetResourceOwner_WorkerSecrets => 3
  end.

#[global] Program Instance FleetResourceOwner_enum : ProtoEnum FleetResourceOwner := {|
  as_i32 := FleetResourceOwner_as_i32;
  variants := [FleetResourceOwner_Unspecified; FleetResourceOwner_VmRootAgent; FleetResourceOwner_WindowsSystemController; FleetResourceOwner_WorkerSecrets]
|}.
Next Obligation. by destruct e. Qed.

Inductive FleetVmPolicyChange : Set :=
| FleetVmPolicyChange_Unspecified
| FleetVmPolicyChange_NoChange
| FleetVmPolicyChange_ConfigTemplateReplaced
| FleetVmPolicyChange_ImageReplaced.

#[global] Instance FleetVmPolicyChange_eq_dec : EqDecision FleetVmPolicyChange.
Proof. solve_decision. Defined.

Definition FleetVmPolicyChange_as_i32 (v : FleetVmPolicyChange) : Z :=
  match v with
  | FleetVmPolicyChange_Unspecified => 0
  | FleetVmPolicyChange_NoChange => 1
  | FleetVmPolicyChange_ConfigTemplateReplaced => 2
  | FleetVmPolicyChange_ImageReplaced => 3
  end.

#[global] Program Instance FleetVmPolicyChange_enum : ProtoEnum FleetVmPolicyChange := {|
  as_i32 := FleetVmPolicyChange_as_i32;
  variants := [FleetVmPolicyChange_Unspecified; FleetVmPolicyChange_NoChange; FleetVmPolicyChange_ConfigTemplateReplaced; FleetVmPolicyChange_ImageReplaced]
|}.
Next Obligation. by destruct e. Qed.

Inductive FleetVmConfigProof : Set :=
| FleetVmConfigProof_Unproven
| FleetVmConfigProof_NotApplicable
| FleetVmConfigProof_NotRunning
| FleetVmConfigProof_BoundRunningProcess.

#[global] Instance FleetVmConfigProof_eq_dec : EqDecision FleetVmConfigProof.
Proof. solve_decision. Defined.

Definition FleetVmConfigProof_as_i32 (v : FleetVmConfigProof) : Z :=
  match v with
  | FleetVmConfigProof_Unproven => 0
  | FleetVmConfigProof_NotApplicable => 1
  | FleetVmConfigProof_NotRunning => 2
  | FleetVmConfigProof_BoundRunningProcess => 3
  end.

#[global] Program Instance FleetVmConfigProof_enum : ProtoEnum FleetVmConfigProof := {|
  as_i32 := FleetVmConfigProof_as_i32;
  variants := [FleetVmConfigProof_Unproven; FleetVmConfigProof_NotApplicable; FleetVmConfigProof_NotRunning; FleetVmConfigProof_BoundRunningProcess]
|}.
Next Obligation. by destruct e. Qed.

Inductive FleetVmObservedReason : Set :=
| FleetVmObservedReason_Unspecified
| FleetVmObservedReason_DockerUnavailable
| FleetVmObservedReason_ContainerAbsent
| FleetVmObservedReason_InspectUnavailable
| FleetVmObservedReason_ForeignOwner
| FleetVmObservedReason_StateUnproven
| FleetVmObservedReason_Healthy
| FleetVmObservedReason_HealthStarting
| FleetVmObservedReason_HealthUnhealthy
| FleetVmObservedReason_RunningNoHealthcheck
| FleetVmObservedReason_HealthUnproven
| FleetVmObservedReason_Stopped.

#[global] Instance FleetVmObservedReason_eq_dec : EqDecision FleetVmObservedReason.
Proof. solve_decision. Defined.

Definition FleetVmObservedReason_as_i32 (v : FleetVmObservedReason) : Z :=
  match v with
  | FleetVmObservedReason_Unspecified => 0
  | FleetVmObservedReason_DockerUnavailable => 1
  | FleetVmObservedReason_ContainerAbsent => 2
  | FleetVmObservedReason_InspectUnavailable => 3
  | FleetVmObservedReason_ForeignOwner => 4
  | FleetVmObservedReason_StateUnproven => 5
  | FleetVmObservedReason_Healthy => 6
  | FleetVmObservedReason_HealthStarting => 7
  | FleetVmObservedReason_HealthUnhealthy => 8
  | FleetVmObservedReason_RunningNoHealthcheck => 9
  | FleetVmObservedReason_HealthUnproven => 10
  | FleetVmObservedReason_Stopped => 11
  end.

#[global] Program Instance FleetVmObservedReason_enum : ProtoEnum FleetVmObservedReason := {|
  as_i32 := FleetVmObservedReason_as_i32;
  variants := [FleetVmObservedReason_Unspecified; FleetVmObservedReason_DockerUnavailable; FleetVmObservedReason_ContainerAbsent; FleetVmObservedReason_InspectUnavailable; FleetVmObservedReason_ForeignOwner; FleetVmObservedReason_StateUnproven; FleetVmObservedReason_Healthy; FleetVmObservedReason_HealthStarting; FleetVmObservedReason_HealthUnhealthy; FleetVmObservedReason_RunningNoHealthcheck; FleetVmObservedReason_HealthUnproven; FleetVmObservedReason_Stopped]
|}.
Next Obligation. by destruct e. Qed.

(** [FleetVmObservedReason::as_str_name] *)
Definition FleetVmObservedReason_as_str_name (v : FleetVmObservedReason) : string :=
  match v with
  | FleetVmObservedReason_Unspecified =>
      "FLEET_VM_OBSERVED_REASON_UNSPECIFIED"
  | FleetVmObservedReason_DockerUnavailable =>
      "FLEET_VM_OBSERVED_REASON_DOCKER_UNAVAILABLE"
  | FleetVmObservedReason_ContainerAbsent =>
      "FLEET_VM_OBSERVED_REASON_CONTAINER_ABSENT"
  | FleetVmObservedReason_InspectUnavailable =>
      "FLEET_VM_OBSERVED_REASON_INSPECT_UNAVAILABLE"
  | FleetVmObservedReason_ForeignOwner =>
      "FLEET_VM_OBSERVED_REASON_FOREIGN_OWNER"
  | FleetVmObservedReason_StateUnproven =>
      "FLEET_VM_OBSERVED_REASON_STATE_UNPROVEN"
  | FleetVmObservedReason_Healthy =>
      "FLEET_VM_OBSERVED_REASON_HEALTHY"
  | FleetVmObservedReason_HealthStarting =>
      "FLEET_VM_OBSERVED_REASON_HEALTH_STARTING"
  | FleetVmObservedReason_HealthUnhealthy =>
      "FLEET_VM_OBSERVED_REASON_HEALTH_UNHEALTHY"
  | FleetVmObservedReason_RunningNoHealthcheck =>
      "FLEET_VM_OBSERVED_REASON_RUNNING_NO_HEALTHCHECK"
  | FleetVmObservedReason_HealthUnproven =>
      "FLEET_VM_OBSERVED_REASON_HEALTH_UNPROVEN"
  | FleetVmObservedReason_Stopped =>
      "FLEET_VM_OBSERVED_REASON_STOPPED"
  end.

Inductive FleetVmRuntimeFailureClass : Set :=
| FleetVmRuntimeFailureClass_Unproven
| FleetVmRuntimeFailureClass_StateErrorOther
| FleetVmRuntimeFailureClass_ConfigParse
| FleetVmRuntimeFailureClass_Permission
| FleetVmRuntimeFailureClass_PortBind
| FleetVmRuntimeFailureClass_Dns
| FleetVmRuntimeFailureClass_UpstreamRefused
| FleetVmRuntimeFailureClass_Tls
| FleetVmRuntimeFailureClass_ProcessCrash
| FleetVmRuntimeFailureClass_FileMissing.

#[global] Instance FleetVmRuntimeFailureClass_eq_dec : EqDecision FleetVmRuntimeFailureClass.
Proof. solve_decision. Defined.

Definition FleetVmRuntimeFailureClass_as_i32 (v : FleetVmRuntimeFailureClass) : Z :=
  match v with
  | FleetVmRuntimeFailureClass_Unproven => 0
  | FleetVmRuntimeFailureClass_StateErrorOther => 1
  | FleetVmRuntimeFailureClass_ConfigParse => 2
  | FleetVmRuntimeFailureClass_Permission => 3
  | FleetVmRuntimeFailureClass_PortBind => 4
  | FleetVmRuntimeFailureClass_Dns => 5
  | FleetVmRuntimeFailureClass_UpstreamRefused => 6
  | FleetVmRuntimeFailureClass_Tls => 7
  | FleetVmRuntimeFailureClass_ProcessCrash => 8
  | FleetVmRuntimeFailureClass_FileMissing => 9
  end.

#[global] Program Instance FleetVmRuntimeFailureClass_enum : ProtoEnum FleetVmRuntimeFailureClass := {|
  as_i32 := FleetVmRuntimeFailureClass_as_i32;
  variants := [FleetVmRuntimeFailureClass_Unproven; FleetVmRuntimeFailureClass_StateErrorOther; FleetVmRuntimeFailureClass_ConfigParse; FleetVmRuntimeFailureClass_Permission; FleetVmRuntimeFailureClass_PortBind; FleetVmRuntimeFailureClass_Dns; FleetVmRuntimeFailureClass_UpstreamRefused; FleetVmRuntimeFailureClass_Tls; FleetVmRuntimeFailureClass_ProcessCrash; FleetVmRuntimeFailureClass_FileMissing]
|}.
Next Obligation. by destruct e. Qed.

Inductive FleetVmInstalledPolicyStatus : Set :=
| FleetVmInstalledPolicyStatus_Unspecified
| FleetVmInstalledPolicyStatus_Valid
| FleetVmInstalledPolicyStatus_ComposeInvalid
| FleetVmInstalledPolicyStatus_ImageInvalid
| FleetVmInstalledPolicyStatus_NetworkInvalid
| FleetVmInstalledPolicyStatus_DependencyInvalid
| FleetVmInstalledPolicyStatus_ConfigInvalid
| FleetVmInstalledPolicyStatus_OtherInvalid.

#[global] Instance FleetVmInstalledPolicyStatus_eq_dec : EqDecision FleetVmInstalledPolicyStatus.
Proof. solve_decision. Defined.

Definition FleetVmInstalledPolicyStatus_as_i32 (v : FleetVmInstalledPolicyStatus) : Z :=
  match v with
  | FleetVmInstalledPolicyStatus_Unspecified => 0
  | FleetVmInstalledPolicyStatus_Valid => 1
  | FleetVmInstalledPolicyStatus_ComposeInvalid => 2
  | FleetVmInstalledPolicyStatus_ImageInvalid => 3
  | FleetVmInstalledPolicyStatus_NetworkInvalid => 4
  | FleetVmInstalledPolicyStatus_DependencyInvalid => 5
  | FleetVmInstalledPolicyStatus_ConfigInvalid => 6
  | FleetVmInstalledPolicyStatus_OtherInvalid => 7
  end.

#[global] Program Instance FleetVmInstalledPolicyStatus_enum : ProtoEnum FleetVmInstalledPolicyStatus := {|
  as_i32 := FleetVmInstalledPolicyStatus_as_i32;
  variants := [FleetVmInstalledPolicyStatus_Unspecified; FleetVmInstalledPolicyStatus_Valid; FleetVmInstalledPolicyStatus_ComposeInvalid; FleetVmInstalledPolicyStatus_ImageInvalid; FleetVmInstalledPolicyStatus_NetworkInvalid; FleetVmInstalledPolicyStatus_DependencyInvalid; FleetVmInstalledPolicyStatus_ConfigInvalid; FleetVmInstalledPolicyStatus_OtherInvalid]
|}.
Next Obligation. by destruct e. Qed.

Inductive FleetVmCredentialState : Set :=
| FleetVmCredentialState_Unspecified
| FleetVmCredentialState_StoreAbsent
| FleetVmCredentialState_ActiveLocalValid
| FleetVmCredentialState_CandidateOnly
| FleetVmCredentialState_LegacyPresent
| FleetVmCredentialState_Unproven.

#[global] Instance FleetVmCredentialState_eq_dec : EqDecision FleetVmCredentialState.
Proof. solve_decision. Defined.

Definition FleetVmCredentialState_as_i32 (v : FleetVmCredentialState) : Z :=
  match v with
  | FleetVmCredentialState_Unspecified => 0
  | FleetVmCredentialState_StoreAbsent => 1
  | FleetVmCredentialState_ActiveLocalValid => 2
  | FleetVmCredentialState_CandidateOnly => 3
  | FleetVmCredentialState_LegacyPresent => 4
  | FleetVmCredentialState_Unproven => 5
  end.

#[global] Program Instance FleetVmCredentialState_enum : ProtoEnum FleetVmCredentialState := {|
  as_i32 := FleetVmCredentialState_as_i32;
  variants := [FleetVmCredentialState_Unspecified; FleetVmCredentialState_StoreAbsent; FleetVmCredentialState_ActiveLocalValid; FleetVmCredentialState_CandidateOnly; FleetVmCredentialState_LegacyPresent; FleetVmCredentialState_Unproven]
|}.
Next Obligation. by destruct e. Qed.

Inductive FleetVmBootstrapPhase : Set :=
| FleetVmBootstrapPhase_Unspecified
| FleetVmBootstrapPhase_TrustUnproven
| FleetVmBootstrapPhase_JournalUnknownNoReplay
| FleetVmBootstrapPhase_ReceiptKeyGitRegistrationRequired
| FleetVmBootstrapPhase_ReceiptKeyMismatchOrUnproven
| FleetVmBootstrapPhase_WorkerActiveCredentialRequired
| FleetVmBootstrapPhase_LocalPrerequisitesOnly
| FleetVmBootstrapPhase_FirstUseWorkerSourceUnverified
| FleetVmBootstrapPhase_FirstUseGitSourceRequired
| FleetVmBootstrapPhase_FirstUseWorkerSourceVerifiedLocal
| FleetVmBootstrapPhase_FirstUseWorkerSourceMismatch
| FleetVmBootstrapPhase_FirstUseWorkerSourceUnavailable.

#[global] Instance FleetVmBootstrapPhase_eq_dec : EqDecision FleetVmBootstrapPhase.
Proof. solve_decision. Defined.

Definition FleetVmBootstrapPhase_as_i32 (v : FleetVmBootstrapPhase) : Z :=
  match v with
  | FleetVmBootstrapPhase_Unspecified => 0
  | FleetVmBootstrapPhase_TrustUnproven => 1
  | FleetVmBootstrapPhase_JournalUnknownNoReplay => 2
  | FleetVmBootstrapPhase_ReceiptKeyGitRegistrationRequired => 3
  | FleetVmBootstrapPhase_ReceiptKeyMismatchOrUnproven => 4
  | FleetVmBootstrapPhase_WorkerActiveCredentialRequired => 5
  | FleetVmBootstrapPhase_LocalPrerequisitesOnly => 6
  | FleetVmBootstrapPhase_FirstUseWorkerSourceUnverified => 7
  | FleetVmBootstrapPhase_FirstUseGitSourceRequired => 8
  | FleetVmBootstrapPhase_FirstUseWorkerSourceVerifiedLocal => 9
  | FleetVmBootstrapPhase_FirstUseWorkerSourceMismatch => 10
  | FleetVmBootstrapPhase_FirstUseWorkerSourceUnavailable => 11
  end.

#[global] Program Instance FleetVmBootstrapPhase_enum : ProtoEnum FleetVmBootstrapPhase := {|
  as_i32 := FleetVmBootstrapPhase_as_i32;
  variants := [FleetVmBootstrapPhase_Unspecified; FleetVmBootstrapPhase_TrustUnproven; FleetVmBootstrapPhase_JournalUnknownNoReplay; FleetVmBootstrapPhase_ReceiptKeyGitRegistrationRequired; FleetVmBootstrapPhase_ReceiptKeyMismatchOrUnproven; FleetVmBootstrapPhase_WorkerActiveCredentialRequired; FleetVmBootstrapPhase_LocalPrerequisitesOnly; FleetVmBootstrapPhase_FirstUseWorkerSourceUnverified; FleetVmBootstrapPhase_FirstUseGitSourceRequired; FleetVmBootstrapPhase_FirstUseWorkerSourceVerifiedLocal; FleetVmBootstrapPhase_FirstUseWorkerSourceMismatch; FleetVmBootstrapPhase_FirstUseWorkerSourceUnavailable]
|}.
Next Obligation. by destruct e. Qed.

Inductive FleetVmManagedDockerKind : Set :=
| FleetVmManagedDockerKind_Unspecified
| FleetVmManagedDockerKind_LocalVolume
| FleetVmManagedDockerKind_BridgeNetwork
| FleetVmManagedDockerKind_Container.

#[global] Instance FleetVmManagedDockerKind_eq_dec : EqDecision FleetVmManagedDockerKind.
Proof. solve_decision. Defined.

Definition FleetVmManagedDockerKind_as_i32 (v : FleetVmManagedDockerKind) : Z :=
  match v with
  | FleetVmManagedDockerKind_Unspecified => 0
  | FleetVmManagedDockerKind_LocalVolume => 1
  | FleetVmManagedDockerKind_BridgeNetwork => 2
  | FleetVmManagedDockerKind_Container => 3
  end.

#[global] Program Instance FleetVmManagedDockerKind_enum : ProtoEnum FleetVmManagedDockerKind := {|
  as_i32 := FleetVmManagedDockerKind_as_i32;
  variants := [FleetVmManagedDockerKind_Unspecified; FleetVmManagedDockerKind_LocalVolume; FleetVmManagedDockerKind_BridgeNetwork; FleetVmManagedDockerKind_Container]
|}.
Next Obligation. by destruct e. Qed.

Inductive FleetVmManagedDockerDesiredState : Set :=
| FleetVmManagedDockerDesiredState_Unspecified
| FleetVmManagedDockerDesiredState_Present
| FleetVmManagedDockerDesiredState_Absent
| FleetVmManagedDockerDesiredState_Stopped.

#[global] Instance FleetVmManagedDockerDesiredState_eq_dec : EqDecision FleetVmManagedDockerDesiredState.
Proof. solve_decision. Defined.

Definition FleetVmManagedDockerDesiredState_as_i32 (v : FleetVmManagedDockerDesiredState) : Z :=
  match v with
  | FleetVmManagedDockerDesiredState_Unspecified => 0
  | FleetVmManagedDockerDesiredState_Present => 1
  | FleetVmManagedDockerDesiredState_Absent => 2
  | FleetVmManagedDockerDesiredState_Stopped => 3
  end.

#[global] Program Instance FleetVmManagedDockerDesiredState_enum : ProtoEnum FleetVmManagedDockerDesiredState := {|
  as_i32 := FleetVmManagedDockerDesiredState_as_i32;
  variants := [FleetVmManagedDockerDesiredState_Unspecified; FleetVmManagedDockerDesiredState_Present; FleetVmManagedDockerDesiredState_Absent; FleetVmManagedDockerDesiredState_Stopped]
|}.
Next Obligation. by destruct e. Qed.

Inductive FleetVmIpFamily : Set :=
| FleetVmIpFamily_Unspecified
| FleetVmIpFamily_V4
| FleetVmIpFamily_V6.

#[global] Instance FleetVmIpFamily_eq_dec : EqDecision FleetVmIpFamily.
Proof. solve_decision. Defined.

Definition FleetVmIpFamily_as_i32 (v : FleetVmIpFamily) : Z :=
  match v with
  | FleetVmIpFamily_Unspecified => 0
  | FleetVmIpFamily_V4 => 1
  | FleetVmIpFamily_V6 => 2
  end.

#[global] Program Instance FleetVmIpFamily_enum : ProtoEnum FleetVmIpFamily := {|
  as_i32 := FleetVmIpFamily_as_i32;
  variants := [FleetVmIpFamily_Unspecified; FleetVmIpFamily_V4; FleetVmIpFamily_V6]
|}.
Next Obligation. by destruct e. Qed.

Inductive FleetHostRunState : Set :=
| FleetHostRunState_Unspecified
| FleetHostRunState_Stopped
| FleetHostRunState_Running.

#[global] Instance FleetHostRunState_eq_dec : EqDecision FleetHostRunState.
Proof. solve_decision. Defined.

Definition FleetHostRunState_as_i32 (v : FleetHostRunState) : Z :=
  match v with
  | FleetHostRunState_Unspecified => 0
  | FleetHostRunState_Stopped => 1
  | FleetHostRunState_Running => 2
  end.

#[global] Program Instance FleetHostRunState_enum : ProtoEnum FleetHostRunState := {|
  as_i32 := FleetHostRunState_as_i32;
  variants := [FleetHostRunState_Unspecified; FleetHostRunState_Stopped; FleetHostRunState_Running]
|}.
Next Obligation. by destruct e. Qed.

Inductive FleetHostAction : Set :=
| FleetHostAction_Unspecified
| FleetHostAction_Status
| FleetHostAction_Apply
| FleetHostAction_Recover
| FleetHostAction_Install
| FleetHostAction_Reinstall
| FleetHostAction_Configure
| FleetHostAction_Start
| FleetHostAction_Stop
| FleetHostAction_SetMode.

#[global] Instance FleetHostAction_eq_dec : EqDecision FleetHostAction.
Proof. solve_decision. Defined.

Definition FleetHostAction_as_i32 (v : FleetHostAction) : Z :=
  match v with
  | FleetHostAction_Unspecified => 0
  | FleetHostAction_Status => 1
  | FleetHostAction_Apply => 2
  | FleetHostAction_Recover => 3
  | FleetHostAction_Install => 4
  | FleetHostAction_Reinstall => 5
  | FleetHostAction_Configure => 6
  | FleetHostAction_Start => 7
  | FleetHostAction_Stop => 8
  | FleetHostAction_SetMode => 9
  end.

#[global] Program Instance FleetHostAction_enum : ProtoEnum FleetHostAction := {|
  as_i32 := FleetHostAction_as_i32;
  variants := [FleetHostAction_Unspecified; FleetHostAction_Status; FleetHostAction_Apply; FleetHostAction_Recover; FleetHostAction_Install; FleetHostAction_Reinstall; FleetHostAction_Configure; FleetHostAction_Start; FleetHostAction_Stop; FleetHostAction_SetMode]
|}.
Next Obligation. by destruct e. Qed.

Inductive FleetHostMode : Set :=
| FleetHostMode_Unspecified
| FleetHostMode_ProxyOnly
| FleetHostMode_ManagedTun.

#[global] Instance FleetHostMode_eq_dec : EqDecision FleetHostMode.
Proof. solve_decision. Defined.

Definition FleetHostMode_as_i32 (v : FleetHostMode) : Z :=
  match v with
  | FleetHostMode_Unspecified => 0
  | FleetHostMode_ProxyOnly => 1
  | FleetHostMode_ManagedTun => 2
  end.

#[global] Program Instance FleetHostMode_enum : ProtoEnum FleetHostMode := {|
  as_i32 := FleetHostMode_as_i32;
  variants := [FleetHostMode_Unspecified; FleetHostMode_ProxyOnly; FleetHostMode_ManagedTun]
|}.
Next Obligation. by destruct e. Qed.

Inductive FleetHostResultState : Set :=
| FleetHostResultState_Unspecified
| FleetHostResultState_Observed
| FleetHostResultState_Prepared
| FleetHostResultState_Authorized
| FleetHostResultState_Verified
| FleetHostResultState_Blocked
| FleetHostResultState_UnknownNoReplay.

#[global] Instance FleetHostResultState_eq_dec : EqDecision FleetHostResultState.
Proof. solve_decision. Defined.

Definition FleetHostResultState_as_i32 (v : FleetHostResultState) : Z :=
  match v with
  | FleetHostResultState_Unspecified => 0
  | FleetHostResultState_Observed => 1
  | FleetHostResultState_Prepared => 2
  | FleetHostResultState_Authorized => 3
  | FleetHostResultState_Verified => 4
  | FleetHostResultState_Blocked => 5
  | FleetHostResultState_UnknownNoReplay => 6
  end.

#[global] Program Instance FleetHostResultState_enum : ProtoEnum FleetHostResultState := {|
  as_i32 := FleetHostResultState_as_i32;
  variants := [FleetHostResultState_Unspecified; FleetHostResultState_Observed; FleetHostResultState_Prepared; FleetHostResultState_Authorized; FleetHostResultState_Verified; FleetHostResultState_Blocked; FleetHostResultState_UnknownNoReplay]
|}.
Next Obligation. by destruct e. Qed.

Inductive FleetHostResultReason : Set :=
| FleetHostResultReason_Unspecified
| FleetHostResultReason_PreparedNeedsOwnerTrust
| FleetHostResultReason_AuthorizedAwaitNativeReadback
| FleetHostResultReason_NoFurtherAction
| FleetHostResultReason_RecoveredNativeRunning
| FleetHostResultReason_RecoveredNativeStopped
| FleetHostResultReason_StoppedReleaseDriftRequiresInstallTarget
| FleetHostResultReason_HistoricalPartialRequiresFreshApply.

#[global] Instance FleetHostResultReason_eq_dec : EqDecision FleetHostResultReason.
Proof. solve_decision. Defined.

Definition FleetHostResultReason_as_i32 (v : FleetHostResultReason) : Z :=
  match v with
  | FleetHostResultReason_Unspecified => 0
  | FleetHostResultReason_PreparedNeedsOwnerTrust => 1
  | FleetHostResultReason_AuthorizedAwaitNativeReadback => 2
  | FleetHostResultReason_NoFurtherAction => 3
  | FleetHostResultReason_RecoveredNativeRunning => 4
  | FleetHostResultReason_RecoveredNativeStopped => 5
  | FleetHostResultReason_StoppedReleaseDriftRequiresInstallTarget => 6
  | FleetHostResultReason_HistoricalPartialRequiresFreshApply => 7
  end.

#[global] Program Instance FleetHostResultReason_enum : ProtoEnum FleetHostResultReason := {|
  as_i32 := FleetHostResultReason_as_i32;
  variants := [FleetHostResultReason_Unspecified; FleetHostResultReason_PreparedNeedsOwnerTrust; FleetHostResultReason_AuthorizedAwaitNativeReadback; FleetHostResultReason_NoFurtherAction; FleetHostResultReason_RecoveredNativeRunning; FleetHostResultReason_RecoveredNativeStopped; FleetHostResultReason_StoppedReleaseDriftRequiresInstallTarget; FleetHostResultReason_HistoricalPartialRequiresFreshApply]
|}.
Next Obligation. by destruct e. Qed.

Inductive FleetNativeOwnerState : Set :=
| FleetNativeOwnerState_Unspecified
| FleetNativeOwnerState_Unproven
| FleetNativeOwnerState_Stopped
| FleetNativeOwnerState_Running
| FleetNativeOwnerState_Transitioning.

#[global] Instance FleetNativeOwnerState_eq_dec : EqDecision FleetNativeOwnerState.
Proof. solve_decision. Defined.

Definition FleetNativeOwnerState_as_i32 (v : FleetNativeOwnerState) : Z :=
  match v with
  | FleetNativeOwnerState_Unspecified => 0
  | FleetNativeOwnerState_Unproven => 1
  | FleetNativeOwnerState_Stopped => 2
  | FleetNativeOwnerState_Running => 3
  | FleetNativeOwnerState_Transitioning => 4
  end.

#[global] Program Instance FleetNativeOwnerState_enum : ProtoEnum FleetNativeOwnerState := {|
  as_i32 := FleetNativeOwnerState_as_i32;
  variants := [FleetNativeOwnerState_Unspecified; FleetNativeOwnerState_Unproven; FleetNativeOwnerState_Stopped; FleetNativeOwnerState_Running; FleetNativeOwnerState_Transitioning]
|}.
Next Obligation. by destruct e. Qed.

Inductive FleetNativeReleaseProof : Set :=
| FleetNativeReleaseProof_Unspecified
| FleetNativeReleaseProof_Unproven
| FleetNativeReleaseProof_ActivationRecord
| FleetNativeReleaseProof_ApplicationBundle
| FleetNativeReleaseProof_VerifiedAbsent.

#[global] Instance FleetNativeReleaseProof_eq_dec : EqDecision FleetNativeReleaseProof.
Proof. solve_decision. Defined.

Definition FleetNativeReleaseProof_as_i32 (v : FleetNativeReleaseProof) : Z :=
  match v with
  | FleetNativeReleaseProof_Unspecified => 0
  | FleetNativeReleaseProof_Unproven => 1
  | FleetNativeReleaseProof_ActivationRecord => 2
  | FleetNativeReleaseProof_ApplicationBundle => 3
  | FleetNativeReleaseProof_VerifiedAbsent => 4
  end.

#[global] Program Instance FleetNativeReleaseProof_enum : ProtoEnum FleetNativeReleaseProof := {|
  as_i32 := FleetNativeReleaseProof_as_i32;
  variants := [FleetNativeReleaseProof_Unspecified; FleetNativeReleaseProof_Unproven; FleetNativeReleaseProof_ActivationRecord; FleetNativeReleaseProof_ApplicationBundle; FleetNativeReleaseProof_VerifiedAbsent]
|}.
Next Obligation. by destruct e. Qed.

Inductive FleetHostPlannedStep : Set :=
| FleetHostPlannedStep_Unspecified
| FleetHostPlannedStep_Blocked
| FleetHostPlannedStep_Noop
| FleetHostPlannedStep_Start
| FleetHostPlannedStep_Stop
| FleetHostPlannedStep_ReplaceRelease
| FleetHostPlannedStep_Install
| FleetHostPlannedStep_Configure.

#[global] Instance FleetHostPlannedStep_eq_dec : EqDecision FleetHostPlannedStep.
Proof. solve_decision. Defined.

Definition FleetHostPlannedStep_as_i32 (v : FleetHostPlannedStep) : Z :=
  match v with
  | FleetHostPlannedStep_Unspecified => 0
  | FleetHostPlannedStep_Blocked => 1
  | FleetHostPlannedStep_Noop => 2
  | FleetHostPlannedStep_Start => 3
  | FleetHostPlannedStep_Stop => 4
  | FleetHostPlannedStep_ReplaceRelease => 5
  | FleetHostPlannedStep_Install => 6
  | FleetHostPlannedStep_Configure => 7
  end.

#[global] Program Instance FleetHostPlannedStep_enum : ProtoEnum FleetHostPlannedStep := {|
  as_i32 := FleetHostPlannedStep_as_i32;
  variants := [FleetHostPlannedStep_Unspecified; FleetHostPlannedStep_Blocked; FleetHostPlannedStep_Noop; FleetHostPlannedStep_Start; FleetHostPlannedStep_Stop; FleetHostPlannedStep_ReplaceRelease; FleetHostPlannedStep_Install; FleetHostPlannedStep_Configure]
|}.
Next Obligation. by destruct e. Qed.

Inductive FleetHostPlanReason : Set :=
| FleetHostPlanReason_Unspecified
| FleetHostPlanReason_HostKindInvalid
| FleetHostPlanReason_ExpectedReleaseUnproven
| FleetHostPlanReason_TargetUnsetObserveOnly
| FleetHostPlanReason_TargetRunStateUnproven
| FleetHostPlanReason_TargetModeUnproven
| FleetHostPlanReason_TunSeparatePhysicalGateRequired
| FleetHostPlanReason_TargetModeKindMismatch
| FleetHostPlanReason_NativeReadbackRequired
| FleetHostPlanReason_NativeReadbackInvalidOrWrongKind
| FleetHostPlanReason_NativeReadbackStale
| FleetHostPlanReason_NativeReadbackDegraded
| FleetHostPlanReason_NativeStateUnproven
| FleetHostPlanReason_VerifiedAbsentInstallProposalOnly
| FleetHostPlanReason_AbsentInstallWithStoppedTarget
| FleetHostPlanReason_AbsenceOwnerStateConflict
| FleetHostPlanReason_NativeReleaseProofUnproven
| FleetHostPlanReason_StopTargetOverridesReleaseMismatch
| FleetHostPlanReason_StoppedReleaseMismatchRequiresInstallTarget
| FleetHostPlanReason_StoppedMatchesDesiredLocalOnly
| FleetHostPlanReason_ReleaseMismatchProposalOnly
| FleetHostPlanReason_StartProposalOnly
| FleetHostPlanReason_RunningMatchesLocalNotExternal
| FleetHostPlanReason_VmDegradedRequiresScopedContainerPreadmission
| FleetHostPlanReason_RuntimeReadinessUnproven
| FleetHostPlanReason_StoppedConfigurationDrift.

#[global] Instance FleetHostPlanReason_eq_dec : EqDecision FleetHostPlanReason.
Proof. solve_decision. Defined.

Definition FleetHostPlanReason_as_i32 (v : FleetHostPlanReason) : Z :=
  match v with
  | FleetHostPlanReason_Unspecified => 0
  | FleetHostPlanReason_HostKindInvalid => 1
  | FleetHostPlanReason_ExpectedReleaseUnproven => 2
  | FleetHostPlanReason_TargetUnsetObserveOnly => 3
  | FleetHostPlanReason_TargetRunStateUnproven => 4
  | FleetHostPlanReason_TargetModeUnproven => 5
  | FleetHostPlanReason_TunSeparatePhysicalGateRequired => 6
  | FleetHostPlanReason_TargetModeKindMismatch => 7
  | FleetHostPlanReason_NativeReadbackRequired => 8
  | FleetHostPlanReason_NativeReadbackInvalidOrWrongKind => 9
  | FleetHostPlanReason_NativeReadbackStale => 10
  | FleetHostPlanReason_NativeReadbackDegraded => 11
  | FleetHostPlanReason_NativeStateUnproven => 12
  | FleetHostPlanReason_VerifiedAbsentInstallProposalOnly => 13
  | FleetHostPlanReason_AbsentInstallWithStoppedTarget => 14
  | FleetHostPlanReason_AbsenceOwnerStateConflict => 15
  | FleetHostPlanReason_NativeReleaseProofUnproven => 16
  | FleetHostPlanReason_StopTargetOverridesReleaseMismatch => 17
  | FleetHostPlanReason_StoppedReleaseMismatchRequiresInstallTarget => 18
  | FleetHostPlanReason_StoppedMatchesDesiredLocalOnly => 19
  | FleetHostPlanReason_ReleaseMismatchProposalOnly => 20
  | FleetHostPlanReason_StartProposalOnly => 21
  | FleetHostPlanReason_RunningMatchesLocalNotExternal => 22
  | FleetHostPlanReason_VmDegradedRequiresScopedContainerPreadmission => 23
  | FleetHostPlanReason_RuntimeReadinessUnproven => 24
  | FleetHostPlanReason_StoppedConfigurationDrift => 25
  end.

#[global] Program Instance FleetHostPlanReason_enum : ProtoEnum FleetHostPlanReason := {|
  as_i32 := FleetHostPlanReason_as_i32;
  variants := [FleetHostPlanReason_Unspecified; FleetHostPlanReason_HostKindInvalid; FleetHostPlanReason_ExpectedReleaseUnproven; FleetHostPlanReason_TargetUnsetObserveOnly; FleetHostPlanReason_TargetRunStateUnproven; FleetHostPlanReason_TargetModeUnproven; FleetHostPlanReason_TunSeparatePhysicalGateRequired; FleetHostPlanReason_TargetModeKindMismatch; FleetHostPlanReason_NativeReadbackRequired; FleetHostPlanReason_NativeReadbackInvalidOrWrongKind; FleetHostPlanReason_NativeReadbackStale; FleetHostPlanReason_NativeReadbackDegraded; FleetHostPlanReason_NativeStateUnproven; FleetHostPlanReason_VerifiedAbsentInstallProposalOnly; FleetHostPlanReason_AbsentInstallWithStoppedTarget; FleetHostPlanReason_AbsenceOwnerStateConflict; FleetHostPlanReason_NativeReleaseProofUnproven; FleetHostPlanReason_StopTargetOverridesReleaseMismatch; FleetHostPlanReason_StoppedReleaseMismatchRequiresInstallTarget; FleetHostPlanReason_StoppedMatchesDesiredLocalOnly; FleetHostPlanReason_ReleaseMismatchProposalOnly; FleetHostPlanReason_StartProposalOnly; FleetHostPlanReason_RunningMatchesLocalNotExternal; FleetHostPlanReason_VmDegradedRequiresScopedContainerPreadmission; FleetHostPlanReason_RuntimeReadinessUnproven; FleetHostPlanReason_StoppedConfigurationDrift]
|}.
Next Obligation. by destruct e. Qed.

(** [FleetHostPlanReason::as_str_name] *)
Definition FleetHostPlanReason_as_str_name (v : FleetHostPlanReason) : string :=
  match v with
  | FleetHostPlanReason_Unspecified =>
      "FLEET_HOST_PLAN_REASON_UNSPECIFIED"
  | FleetHostPlanReason_HostKindInvalid =>
      "FLEET_HOST_PLAN_REASON_HOST_KIND_INVALID"
  | FleetHostPlanReason_ExpectedReleaseUnproven =>
      "FLEET_HOST_PLAN_REASON_EXPECTED_RELEASE_UNPROVEN"
  | FleetHostPlanReason_TargetUnsetObserveOnly =>
      "FLEET_HOST_PLAN_REASON_TARGET_UNSET_OBSERVE_ONLY"
  | FleetHostPlanReason_TargetRunStateUnproven =>
      "FLEET_HOST_PLAN_REASON_TARGET_RUN_STATE_UNPROVEN"
  | FleetHostPlanReason_TargetModeUnproven =>
      "FLEET_HOST_PLAN_REASON_TARGET_MODE_UNPROVEN"
  | FleetHostPlanReason_TunSeparatePhysicalGateRequired =>
      "FLEET_HOST_PLAN_REASON_TUN_SEPARATE_PHYSICAL_GATE_REQUIRED"
  | FleetHostPlanReason_TargetModeKindMismatch =>
      "FLEET_HOST_PLAN_REASON_TARGET_MODE_KIND_MISMATCH"
  | FleetHostPlanReason_NativeReadbackRequired =>
      "FLEET_HOST_PLAN_REASON_NATIVE_READBACK_REQUIRED"
  | FleetHostPlanReason_NativeReadbackInvalidOrWrongKind =>
      "FLEET_HOST_PLAN_REASON_NATIVE_READBACK_INVALID_OR_WRONG_KIND"
  | FleetHostPlanReason_NativeReadbackStale =>
      "FLEET_HOST_PLAN_REASON_NATIVE_READBACK_STALE"
  | FleetHostPlanReason_NativeReadbackDegraded =>
      "FLEET_HOST_PLAN_REASON_NATIVE_READBACK_DEGRADED"
  | FleetHostPlanReason_NativeStateUnproven =>
      "FLEET_HOST_PLAN_REASON_NATIVE_STATE_UNPROVEN"
  | FleetHostPlanReason_VerifiedAbsentInstallProposalOnly =>
      "FLEET_HOST_PLAN_REASON_VERIFIED_ABSENT_INSTALL_PROPOSAL_ONLY"
  | FleetHostPlanReason_AbsentInstallWithStoppedTarget =>
      "FLEET_HOST_PLAN_REASON_ABSENT_INSTALL_WITH_STOPPED_TARGET"
  | FleetHostPlanReason_AbsenceOwnerStateConflict =>
      "FLEET_HOST_PLAN_REASON_ABSENCE_OWNER_STATE_CONFLICT"
  | FleetHostPlanReason_NativeReleaseProofUnproven =>
      "FLEET_HOST_PLAN_REASON_NATIVE_RELEASE_PROOF_UNPROVEN"
  | FleetHostPlanReason_StopTargetOverridesReleaseMismatch =>
      "FLEET_HOST_PLAN_REASON_STOP_TARGET_OVERRIDES_RELEASE_MISMATCH"
  | FleetHostPlanReason_StoppedReleaseMismatchRequiresInstallTarget =>
      "FLEET_HOST_PLAN_REASON_STOPPED_RELEASE_MISMATCH_REQUIRES_INSTALL_TARGET"
  | FleetHostPlanReason_StoppedMatchesDesiredLocalOnly =>
      "FLEET_HOST_PLAN_REASON_STOPPED_MATCHES_DESIRED_LOCAL_ONLY"
  | FleetHostPlanReason_ReleaseMismatchProposalOnly =>
      "FLEET_HOST_PLAN_REASON_RELEASE_MISMATCH_PROPOSAL_ONLY"
  | FleetHostPlanReason_StartProposalOnly =>
      "FLEET_HOST_PLAN_REASON_START_PROPOSAL_ONLY"
  | FleetHostPlanReason_RunningMatchesLocalNotExternal =>
      "FLEET_HOST_PLAN_REASON_RUNNING_MATCHES_LOCAL_NOT_EXTERNAL"
  | FleetHostPlanReason_VmDegradedRequiresScopedContainerPreadmission =>
      "FLEET_HOST_PLAN_REASON_VM_DEGRADED_REQUIRES_SCOPED_CONTAINER_PREADMISSION"
  | FleetHostPlanReason_RuntimeReadinessUnproven =>
      "FLEET_HOST_PLAN_REASON_RUNTIME_READINESS_UNPROVEN"
  | FleetHostPlanReason_StoppedConfigurationDrift =>
      "FLEET_HOST_PLAN_REASON_STOPPED_CONFIGURATION_DRIFT"
  end.

Inductive FleetVmResourceReason : Set :=
| FleetVmResourceReason_Unspecified
| FleetVmResourceReason_TargetUnsetObserveOnly
| FleetVmResourceReason_AbsentAsDesired
| FleetVmResourceReason_ContainerAbsentInstallRequired
| FleetVmResourceReason_ResourceIdentityOrStateUnproven
| FleetVmResourceReason_ContainerRunningButTargetStopped
| FleetVmResourceReason_StoppedAsDesired
| FleetVmResourceReason_ContainerStoppedButTargetRunning
| FleetVmResourceReason_RunningRuntimeOnlyConfigUnproven
| FleetVmResourceReason_RuntimeHealthOrConfigUnproven
| FleetVmResourceReason_CredentialDependencyUnproven
| FleetVmResourceReason_FirstUseWorkerVerifiedInstallProposalOnly.

#[global] Instance FleetVmResourceReason_eq_dec : EqDecision FleetVmResourceReason.
Proof. solve_decision. Defined.

Definition FleetVmResourceReason_as_i32 (v : FleetVmResourceReason) : Z :=
  match v with
  | FleetVmResourceReason_Unspecified => 0
  | FleetVmResourceReason_TargetUnsetObserveOnly => 1
  | FleetVmResourceReason_AbsentAsDesired => 2
  | FleetVmResourceReason_ContainerAbsentInstallRequired => 3
  | FleetVmResourceReason_ResourceIdentityOrStateUnproven => 4
  | FleetVmResourceReason_ContainerRunningButTargetStopped => 5
  | FleetVmResourceReason_StoppedAsDesired => 6
  | FleetVmResourceReason_ContainerStoppedButTargetRunning => 7
  | FleetVmResourceReason_RunningRuntimeOnlyConfigUnproven => 8
  | FleetVmResourceReason_RuntimeHealthOrConfigUnproven => 9
  | FleetVmResourceReason_CredentialDependencyUnproven => 10
  | FleetVmResourceReason_FirstUseWorkerVerifiedInstallProposalOnly => 11
  end.

#[global] Program Instance FleetVmResourceReason_enum : ProtoEnum FleetVmResourceReason := {|
  as_i32 := FleetVmResourceReason_as_i32;
  variants := [FleetVmResourceReason_Unspecified; FleetVmResourceReason_TargetUnsetObserveOnly; FleetVmResourceReason_AbsentAsDesired; FleetVmResourceReason_ContainerAbsentInstallRequired; FleetVmResourceReason_ResourceIdentityOrStateUnproven; FleetVmResourceReason_ContainerRunningButTargetStopped; FleetVmResourceReason_StoppedAsDesired; FleetVmResourceReason_ContainerStoppedButTargetRunning; FleetVmResourceReason_RunningRuntimeOnlyConfigUnproven; FleetVmResourceReason_RuntimeHealthOrConfigUnproven; FleetVmResourceReason_CredentialDependencyUnproven; FleetVmResourceReason_FirstUseWorkerVerifiedInstallProposalOnly]
|}.
Next Obligation. by destruct e. Qed.

(** [FleetVmResourceReason::as_str_name] *)
Definition FleetVmResourceReason_as_str_name (v : FleetVmResourceReason) : string :=
  match v with
  | FleetVmResourceReason_Unspecified =>
      "FLEET_VM_RESOURCE_REASON_UNSPECIFIED"
  | FleetVmResourceReason_TargetUnsetObserveOnly =>
      "FLEET_VM_RESOURCE_REASON_TARGET_UNSET_OBSERVE_ONLY"
  | FleetVmResourceReason_AbsentAsDesired =>
      "FLEET_VM_RESOURCE_REASON_ABSENT_AS_DESIRED"
  | FleetVmResourceReason_ContainerAbsentInstallRequired =>
      "FLEET_VM_RESOURCE_REASON_CONTAINER_ABSENT_INSTALL_REQUIRED"
  | FleetVmResourceReason_ResourceIdentityOrStateUnproven =>
      "FLEET_VM_RESOURCE_REASON_RESOURCE_IDENTITY_OR_STATE_UNPROVEN"
  | FleetVmResourceReason_ContainerRunningButTargetStopped =>
      "FLEET_VM_RESOURCE_REASON_CONTAINER_RUNNING_BUT_TARGET_STOPPED"
  | FleetVmResourceReason_StoppedAsDesired =>
      "FLEET_VM_RESOURCE_REASON_STOPPED_AS_DESIRED"
  | FleetVmResourceReason_ContainerStoppedButTargetRunning =>
      "FLEET_VM_RESOURCE_REASON_CONTAINER_STOPPED_BUT_TARGET_RUNNING"
  | FleetVmResourceReason_RunningRuntimeOnlyConfigUnproven =>
      "FLEET_VM_RESOURCE_REASON_RUNNING_RUNTIME_ONLY_CONFIG_UNPROVEN"
  | FleetVmResourceReason_RuntimeHealthOrConfigUnproven =>
      "FLEET_VM_RESOURCE_REASON_RUNTIME_HEALTH_OR_CONFIG_UNPROVEN"
  | FleetVmResourceReason_CredentialDependencyUnproven =>
      "FLEET_VM_RESOURCE_REASON_CREDENTIAL_DEPENDENCY_UNPROVEN"
  | FleetVmResourceReason_FirstUseWorkerVerifiedInstallProposalOnly =>
      "FLEET_VM_RESOURCE_REASON_FIRST_USE_WORKER_VERIFIED_INSTALL_PROPOSAL_ONLY"
  end.

Inductive WindowsDatapathMode : Set :=
| WindowsDatapathMode_Unspecified
| WindowsDatapathMode_ProxyOnly
| WindowsDatapathMode_ManagedTun.

#[global] Instance WindowsDatapathMode_eq_dec : EqDecision WindowsDatapathMode.
Proof. solve_decision. Defined.

Definition WindowsDatapathMode_as_i32 (v : WindowsDatapathMode) : Z :=
  match v with
  | WindowsDatapathMode_Unspecified => 0
  | WindowsDatapathMode_ProxyOnly => 1
  | WindowsDatapathMode_ManagedTun => 2
  end.

#[global] Program Instance WindowsDatapathMode_enum : ProtoEnum WindowsDatapathMode := {|
  as_i32 := WindowsDatapathMode_as_i32;
  variants := [WindowsDatapathMode_Unspecified; WindowsDatapathMode_ProxyOnly; WindowsDatapathMode_ManagedTun]
|}.
Next Obligation. by destruct e. Qed.

Record BundleFile : Set := {
  file_relative_path : string;
  file_content : bytes;
  file_executable : bool;
  file_sensitive : bool
}.

#[global] Instance BundleFile_eq_dec : EqDecision BundleFile.
Proof. solve_decision. Defined.

Record ApplyBundleRequest : Set := {
  apply_stack_files : list BundleFile;
  apply_host_files : list BundleFile;
  apply_deployment_summary : option BundleFile;
  apply_agent_env_file : option BundleFile;
  apply_prune_existing : bool;
  apply_bundle_id : option string;
  apply_bundle_digest : option string
}.

#[global] Instance ApplyBundleRequest_eq_dec : EqDecision ApplyBundleRequest.
Proof. solve_decision. Defined.

Record SingBoxRelease : Set := {
  singbox_version : string;
  singbox_windows_amd64_sha256 : bytes;
  singbox_linux_amd64_sha256 : bytes
}.

#[global] Instance SingBoxRelease_eq_dec : EqDecision SingBoxRelease.
Proof. solve_decision. Defined.

Record WindowsRuntime : Set := {
  winrt_artifact_sha256 : bytes;
  winrt_controller_sha256 : bytes;
  winrt_console_sha256 : bytes;
  winrt_sing_box_sha256 : bytes;
  winrt_input_sha256 : bytes;
  winrt_source_revision : string;
  winrt_diagnostic_sha256 : bytes
}.

#[global] Instance WindowsRuntime_eq_dec : EqDecision WindowsRuntime.
Proof. solve_decision. Defined.

Record OciImage : Set := {
  oci_repository : string;
  oci_sha256 : bytes
}.

#[global] Instance OciImage_eq_dec : EqDecision OciImage.
Proof. solve_decision. Defined.

Record VmRuntime : Set := {
  vmrt_edge_agent_sha256 : bytes;
  vmrt_sing_box_image : option OciImage;
  vmrt_warp_egress_image : option OciImage;
  vmrt_docker_engine_version : string;
  vmrt_containerd_version : string;
  vmrt_compose_version : string;
  vmrt_edge_controller_sha256 : bytes;
  vmrt_edge_orchestrator_sha256 : bytes;
  vmrt_runtime_input_sha256 : bytes;
  vmrt_runtime_source_revision : string;
  vmrt_application_bundle_sha256 : bytes
}.

#[global] Instance VmRuntime_eq_dec : EqDecision VmRuntime.
Proof. solve_decision. Defined.

Record CloudflareRuntime : Set := {
  cfrt_warp_version : string;
  cfrt_mesh_image : option OciImage;
  cfrt_vm_worker_source_sha256 : bytes;
  cfrt_vm_worker_predecessor_source_sha256 : bytes;
  cfrt_vm_worker_predecessor_revision : string
}.

#[global] Instance CloudflareRuntime_eq_dec : EqDecision CloudflareRuntime.
Proof. solve_decision. Defined.

Record SchemaVersions : Set := {
  schemas_config_schema : Z;
  schemas_db_schema : Z
}.

#[global] Instance SchemaVersions_eq_dec : EqDecision SchemaVersions.
Proof. solve_decision. Defined.

Record ReleaseSet : Set := {
  release_schema_version : Z;
  release_source_revision : string;
  release_sing_box : option SingBoxRelease;
  release_windows_runtime : option WindowsRuntime;
  release_vm_runtime : option VmRuntime;
  release_cloudflare : option CloudflareRuntime;
  release_schemas : option SchemaVersions
}.

#[global] Instance ReleaseSet_eq_dec : EqDecision ReleaseSet.
Proof. solve_decision. Defined.

Record FleetVmContainer : Set := {
  sel_container_name : string;
  sel_compose_project : string;
  sel_compose_service : string
}.

#[global] Instance FleetVmContainer_eq_dec : EqDecision FleetVmContainer.
Proof. solve_decision. Defined.

Record FleetVmFirstUseCredential : Set := {
  first_generation : Z;
  first_bundle_sha256 : string
}.

#[global] Instance FleetVmFirstUseCredential_eq_dec : EqDecision FleetVmFirstUseCredential.
Proof. solve_decision. Defined.

Record FleetHostTarget : Set := {
  target_run_state : Z;
  target_windows_mode : Z
}.

#[global] Instance FleetHostTarget_eq_dec : EqDecision FleetHostTarget.
Proof. solve_decision. Defined.

(** [managed_host::Owner] *)
Inductive Owner : Set :=
| Owner_WindowsRunnerName (name : string)
| Owner_VmMachineId (name : string).
#[global] Instance Owner_eq_dec : EqDecision Owner.
Proof. solve_decision. Defined.

Record FleetHost : Set := {
  host_machine_id : string;
  host_kind : Z;
  host_owner : option Owner;
  host_windows_runner_label : string;
  host_desired_spec_path : string;
  host_target : option FleetHostTarget;
  host_vm_containers : list FleetVmContainer;
  host_native_receipt_public_key : bytes;
  host_vm_first_use_credential : option FleetVmFirstUseCredential;
  host_worker_authority_public_key : bytes;
  host_vm_provider_spec_path : string
}.

#[global] Instance FleetHost_eq_dec : EqDecision FleetHost.
Proof. solve_decision. Defined.

Record FleetDesiredState : Set := {
  registry_schema_version : Z;
  registry_hosts : list FleetHost
}.

#[global] Instance FleetDesiredState_eq_dec : EqDecision FleetDesiredState.
Proof. solve_decision. Defined.

Record FleetVmDesiredResource : Set := {
  dres_resource : option FleetVmContainer;
  dres_image_ref : string;
  dres_dependencies : list string;
  dres_config_template_sha256 : bytes
}.

#[global] Instance FleetVmDesiredResource_eq_dec : EqDecision FleetVmDesiredResource.
Proof. solve_decision. Defined.

Record FleetVmDesiredNetwork : Set := {
  dnet_compose_project : string;
  dnet_network_name : string;
  dnet_driver : string;
  dnet_attached_services : list string
}.

#[global] Instance FleetVmDesiredNetwork_eq_dec : EqDecision FleetVmDesiredNetwork.
Proof. solve_decision. Defined.

Record FleetVmDesiredGraph : Set := {
  graph_schema_version : Z;
  graph_machine_id : string;
  graph_resources : list FleetVmDesiredResource;
  graph_networks : list FleetVmDesiredNetwork
}.

#[global] Instance FleetVmDesiredGraph_eq_dec : EqDecision FleetVmDesiredGraph.
Proof. solve_decision. Defined.

Record FleetResourceNode : Set := {
  node_resource_id : string;
  node_kind : Z;
  node_parent_resource_id : string;
  node_dependency_ids : list string;
  node_owner : Z;
  node_expected_policy_sha256 : bytes
}.

#[global] Instance FleetResourceNode_eq_dec : EqDecision FleetResourceNode.
Proof. solve_decision. Defined.

Record FleetResourceHierarchy : Set := {
  hier_schema_version : Z;
  hier_machine_id : string;
  hier_nodes : list FleetResourceNode;
  hier_owner_attested : bool;
  hier_mutation_authorized : bool
}.

Record FleetVmGraphResourceChange : Set := {
  change_resource : option FleetVmContainer;
  change_change : Z;
  change_expected_image_ref : string;
  change_expected_config_template_sha256 : bytes;
  change_resource_id : string;
  change_resource_kind : Z
}.

Record FleetVmGraphReconcile : Set := {
  recon_schema_version : Z;
  recon_machine_id : string;
  recon_resources : list FleetVmGraphResourceChange;
  recon_owner_attested : bool;
  recon_mutation_authorized : bool
}.

Record FleetVmResourceReadback : Set := {
  row_resource : option FleetVmContainer;
  row_present : bool;
  row_ownership_proven : bool;
  row_running : bool;
  row_running_proven : bool;
  row_container_id : string;
  row_image : string;
  row_health : string;
  row_restart_count : Z;
  row_restart_count_proven : bool;
  row_reason_code : string;
  row_config_proof : Z;
  row_config_sha256 : bytes;
  row_observed_reason : Z;
  row_last_exit_code : Z;
  row_last_exit_code_proven : bool;
  row_oom_killed : bool;
  row_oom_killed_proven : bool;
  row_docker_state_error_present : bool;
  row_runtime_failure_class : Z
}.

Record Ipv4LinkObservation : Set := {
  link_interface_index : Z;
  link_name : string;
  link_up : bool;
  link_lower_up : bool;
  link_loopback : bool
}.

Record Ipv4AddressObservation : Set := {
  addr4_interface_index : Z;
  addr4_address : string;
  addr4_prefix_length : Z;
  addr4_global_scope : bool
}.

Record Ipv4RouteObservation : Set := {
  route4_destination : string;
  route4_prefix_length : Z;
  route4_output_interface_index : Z;
  route4_preferred_source : option string;
  route4_kernel_protocol : bool;
  route4_link_scope : bool
}.

Record Ipv4NetworkObservation : Set := {
  net4_links : list Ipv4LinkObservation;
  net4_addresses : list Ipv4AddressObservation;
  net4_routes : list Ipv4RouteObservation
}.

Record FleetVmKernelAddress : Set := {
  kaddr_interface_index : Z;
  kaddr_family : Z;
  kaddr_address : string;
  kaddr_prefix_length : Z;
  kaddr_global_scope : bool
}.

Record FleetVmKernelRoute : Set := {
  kroute_family : Z;
  kroute_destination : string;
  kroute_prefix_length : Z;
  kroute_output_interface_index : Z;
  kroute_gateway : string;
  kroute_preferred_source : string;
  kroute_table_id : Z;
  kroute_metric : Z;
  kroute_kernel_protocol : bool;
  kroute_link_scope : bool
}.

Record FleetVmKernelPolicyRule : Set := {
  krule_family : Z;
  krule_table_id : Z;
  krule_priority : Z;
  krule_fw_mark : Z;
  krule_fw_mark_present : bool
}.

Record FleetVmDualStackNetwork : Set := {
  dual_links : list Ipv4LinkObservation;
  dual_addresses : list FleetVmKernelAddress;
  dual_routes : list FleetVmKernelRoute;
  dual_ipv4_route_dump_complete : bool;
  dual_ipv6_route_dump_complete : bool;
  dual_policy_rules : list FleetVmKernelPolicyRule;
  dual_ipv4_rule_dump_complete : bool;
  dual_ipv6_rule_dump_complete : bool
}.

Record FleetVmNetworkReadback : Set := {
  net_ipv4 : option Ipv4NetworkObservation;
  net_dns_nameservers : list string;
  net_dns_configuration_observed : bool;
  net_nft_ruleset_sha256 : bytes;
  net_nft_rule_count : Z;
  net_nft_ruleset_observed : bool;
  net_dual_stack : option FleetVmDualStackNetwork;
  net_dual_stack_error_code : string
}.

Record FleetVmCredentialReadback : Set := {
  cred_state : Z;
  cred_active_generation : Z;
  cred_candidate_generation : Z
}.

Record FleetVmManagedDockerReadback : Set := {
  mdocker_resource_name : string;
  mdocker_kind : Z;
  mdocker_desired_state : Z;
  mdocker_manifest_sha256 : bytes;
  mdocker_present : bool;
  mdocker_ownership_proven : bool;
  mdocker_fingerprint_sha256 : bytes;
  mdocker_reason_code : string;
  mdocker_converged : bool
}.

Record FleetVmManagedKernelRouteReadback : Set := {
  mroute_resource_name : string;
  mroute_family : Z;
  mroute_table_id : Z;
  mroute_manifest_sha256 : bytes;
  mroute_present : bool;
  mroute_converged : bool;
  mroute_reason_code : string
}.

Record FleetVmManagedFirewallReadback : Set := {
  mfw_resource_name : string;
  mfw_manifest_sha256 : bytes;
  mfw_present : bool;
  mfw_converged : bool;
  mfw_reason_code : string
}.

Record FleetVmManagedSystemDnsReadback : Set := {
  mdns_resource_name : string;
  mdns_manifest_sha256 : bytes;
  mdns_present : bool;
  mdns_converged : bool;
  mdns_reason_code : string
}.

Record FleetVmProcessEvidence : Set := {
  proc_pid : Z;
  proc_parent_pid : Z;
  proc_real_uid : Z;
  proc_state_code : string;
  proc_command_name_sha256 : bytes;
  proc_read_error_code : string
}.

Record FleetVmProcessSnapshot : Set := {
  snap_observed_count : Z;
  snap_truncated : bool;
  snap_processes : list FleetVmProcessEvidence;
  snap_procfs_readable : bool;
  snap_read_error_count : Z
}.

Record FleetVmResourceReport : Set := {
  report_schema_version : Z;
  report_machine_id : string;
  report_observed_at_unix : Z;
  report_resources : list FleetVmResourceReadback;
  report_remote_attested : bool;
  report_network : option FleetVmNetworkReadback;
  report_installed_policy_graph : option FleetVmDesiredGraph;
  report_installed_policy_status : Z;
  report_installed_policy_error_code : string;
  report_credential : option FleetVmCredentialReadback;
  report_bootstrap_phase : Z;
  report_processes : option FleetVmProcessSnapshot;
  report_managed_docker : list FleetVmManagedDockerReadback;
  report_managed_kernel_routes : list FleetVmManagedKernelRouteReadback;
  report_managed_firewall : list FleetVmManagedFirewallReadback;
  report_managed_system_dns : list FleetVmManagedSystemDnsReadback
}.

Record FleetWindowsNetworkAdmission : Set := {
  adm_schema_version : Z;
  adm_machine_id : string;
  adm_operation_id : string;
  adm_installed_release_sha256 : bytes;
  adm_desired_release_set_sha256 : bytes;
  adm_config_sha256 : bytes;
  adm_before_network_sha256 : bytes;
  adm_observed_at_unix : Z;
  adm_expires_at_unix : Z;
  adm_line1_witness_sha256 : bytes;
  adm_control_witness_sha256 : bytes;
  adm_dns_witness_sha256 : bytes;
  adm_system_signature : bytes
}.

#[global] Instance FleetWindowsNetworkAdmission_eq_dec : EqDecision FleetWindowsNetworkAdmission.
Proof. solve_decision. Defined.

Record FleetHostIntent : Set := {
  intent_schema_version : Z;
  intent_machine_id : string;
  intent_kind : Z;
  intent_resource_id : string;
  intent_operation_id : string;
  intent_action : Z;
  intent_registry_sha256 : bytes;
  intent_desired_sha256 : bytes;
  intent_release_set_sha256 : bytes;
  intent_requested_mode : Z;
  intent_requested_at_unix : Z;
  intent_network_admission : option FleetWindowsNetworkAdmission
}.

#[global] Instance FleetHostIntent_eq_dec : EqDecision FleetHostIntent.
Proof. solve_decision. Defined.

Record FleetHostResult : Set := {
  result_schema_version : Z;
  result_machine_id : string;
  result_resource_id : string;
  result_operation_id : string;
  result_action : Z;
  result_state : Z;
  result_release_set_sha256 : bytes;
  result_desired_sha256 : bytes;
  result_observed_at_unix : Z;
  result_error_class : string;
  result_next_action : string;
  result_physical_readback : bool;
  result_reason : Z
}.

#[global] Instance FleetHostResult_eq_dec : EqDecision FleetHostResult.
Proof. solve_decision. Defined.

Record FleetHostAuthorization : Set := {
  auth_schema_version : Z;
  auth_key_id : string;
  auth_operation_id : string;
  auth_issued_at_unix : Z;
  auth_expires_at_unix : Z;
  auth_ed25519_signature : bytes
}.

#[global] Instance FleetHostAuthorization_eq_dec : EqDecision FleetHostAuthorization.
Proof. solve_decision. Defined.

Record FleetNativeObservation : Set := {
  obs_schema_version : Z;
  obs_host_kind : Z;
  obs_observed_at_unix : Z;
  obs_owner_state : Z;
  obs_release_proof : Z;
  obs_observed_release_sha256 : bytes;
  obs_runtime_ready : bool;
  obs_runtime_ready_proven : bool;
  obs_reason_codes : list string;
  obs_vm_recovery_resources : option FleetVmResourceReport;
  obs_windows_config_sha256 : bytes
}.

Record FleetHostTransitionPlan : Set := {
  plan_schema_version : Z;
  plan_machine_id : string;
  plan_step : Z;
  plan_reason_code : string;
  plan_expected_release_digest : bytes;
  plan_observed_release_digest : bytes;
  plan_owner_attested : bool;
  plan_mutation_authorized : bool;
  plan_reason : Z
}.

#[global] Instance FleetHostTransitionPlan_eq_dec : EqDecision FleetHostTransitionPlan.
Proof. solve_decision. Defined.

Record FleetVmResourceTransition : Set := {
  trans_resource : option FleetVmContainer;
  trans_step : Z;
  trans_reason_code : string;
  trans_reason : Z;
  trans_resource_id : string
}.

#[global] Instance FleetVmResourceTransition_eq_dec : EqDecision FleetVmResourceTransition.
Proof. solve_decision. Defined.

Record FleetVmResourceTransitionPlan : Set := {
  rplan_schema_version : Z;
  rplan_machine_id : string;
  rplan_resources : list FleetVmResourceTransition;
  rplan_owner_attested : bool;
  rplan_mutation_authorized : bool
}.

#[global] Instance FleetVmResourceTransitionPlan_eq_dec : EqDecision FleetVmResourceTransitionPlan.
Proof. solve_decision. Defined.
