(* ===== verification/Concrete.v ===== *)
(** * Concrete instances of the external interfaces

    Executable instances of the classes of [HostTypes], used by the witnesses
    to evaluate the definitions on concrete inputs: SHA-256 as FIPS 180-4
    specifies it, a codec for the messages of a table that satisfies the
    round-trip law, a codec of empty messages for the checks that only bound
    an encoded length, and a signature scheme. *)

From S2P Require Import Prelude RustStd HostTypes.

(** ** SHA-256 *)

Definition w32 (z : Z) : Z := Z.land z u32_max.
Definition rotr (n x : Z) : Z := Z.lor (Z.shiftr x n) (w32 (Z.shiftl x (32 - n))).
Definition add32 (a b : Z) : Z := w32 (a + b).

(** The constants are the first 32 fractional bits of the cube roots (square roots for
    the initial hash) of the first primes. *)
Definition primes : list Z :=
  List.filter (λ n, forallb (λ d, negb (n mod Z.of_nat d =? 0)) (seq 2 (Z.to_nat n - 2)))
    (Z.of_nat <$> seq 2 310).
Fixpoint cube_root (bits : nat) (acc n : Z) : Z :=
  match bits with
  | O => acc
  | S bits =>
      let a := acc + 2 ^ Z.of_nat bits in
      cube_root bits (if a * a * a <=? n then a else acc) n
  end.
Definition round_constants : list Z :=
  Eval vm_compute in (λ p, cube_root 36 0 (p * 2 ^ 96) mod 2 ^ 32) <$> primes.
Definition initial_hash : list Z :=
  Eval vm_compute in (λ p, Z.sqrt (p * 2 ^ 64) mod 2 ^ 32) <$> firstn 8 primes.

(** The last sixteen words of the schedule, newest first, to the next word *)
Definition schedule_next (w : list Z) : Z :=
  let at_ i := nth i w 0 in
  let s0 := let x := at_ 14%nat in Z.lxor (rotr 7 x) (Z.lxor (rotr 18 x) (Z.shiftr x 3)) in
  let s1 := let x := at_ 1%nat in Z.lxor (rotr 17 x) (Z.lxor (rotr 19 x) (Z.shiftr x 10)) in
  add32 (add32 (at_ 15%nat) s0) (add32 (at_ 6%nat) s1).
Definition schedule (block : list Z) : list Z :=
  rev (Nat.iter 48 (λ w, schedule_next w :: w) (rev block)).

Definition compress_round (h : list Z) (kw : Z * Z) : list Z :=
  match h with
  | [a; b; c; d; e; f; g; hh] =>
      let s1 := Z.lxor (rotr 6 e) (Z.lxor (rotr 11 e) (rotr 25 e)) in
      let ch := Z.lxor (Z.land e f) (Z.land (Z.lxor e u32_max) g) in
      let t1 := add32 (add32 hh s1) (add32 ch (add32 (fst kw) (snd kw))) in
      let s0 := Z.lxor (rotr 2 a) (Z.lxor (rotr 13 a) (rotr 22 a)) in
      let maj := Z.lxor (Z.land a b) (Z.lxor (Z.land a c) (Z.land b c)) in
      [add32 t1 (add32 s0 maj); a; b; c; add32 d t1; e; f; g]
  | _ => h
  end.
Definition compress (h block : list Z) : list Z :=
  zip_with add32 h (fold_left compress_round (combine round_constants (schedule block)) h).

Definition Z_of_byte (b : Byte.byte) : Z := Z.of_N (Byte.to_N b).
Fixpoint words (fuel : nat) (b : bytes) : list Z :=
  match fuel, b with
  | S fuel, b0 :: b1 :: b2 :: b3 :: b =>
      ((Z_of_byte b0 * 256 + Z_of_byte b1) * 256 + Z_of_byte b2) * 256 + Z_of_byte b3
      :: words fuel b
  | _, _ => []
  end.
Fixpoint blocks (fuel : nat) (w : list Z) : list (list Z) :=
  match fuel, w with
  | O, _ | _, [] => []
  | S fuel, _ => firstn 16 w :: blocks fuel (skipn 16 w)
  end.
Definition pad (b : bytes) : bytes :=
  b ++ [x80] ++ replicate (Z.to_nat ((55 - blen b) mod 64)) x00 ++ be_bytes 8 (8 * blen b).

Definition sha256_fips (b : bytes) : bytes :=
  let p := pad b in
  let w := words (length p) p in
  let h := fold_left compress (blocks (length w) w) initial_hash in
  firstn 32 (concat (be_bytes 4 <$> h) ++ replicate 32 x00).

Lemma sha256_fips_length b : length (sha256_fips b) = 32%nat.
Proof.
  unfold sha256_fips. rewrite length_firstn, length_app, length_replicate. lia.
Qed.

#[global] Instance sha256_concrete : Sha256 :=
  {| sha256 := sha256_fips; sha256_length := sha256_fips_length |}.

Example sha256_abc : hex_of_bytes (sha256_fips (as_bytes "abc")) =
  "ba7816bf8f01cfea414140de5dae2223b00361a396177a9cb410ff61f20015ad".
Proof. vm_compute. reflexivity. Qed.
Example sha256_empty : hex_of_bytes (sha256_fips []) =
  "e3b0c44298fc1c149afbf4c8996fb92427ae41e4649b934ca495991b7852b855".
Proof. vm_compute. reflexivity. Qed.

(** ** Codecs *)

(** Every message has the empty encoding: enough where only a bound on the length
    of an encoding matters. *)
Definition null_message (A : Type) : Message A :=
  {| encode_to_vec := λ _, []; decode := λ _, None |}.

(** A codec for the messages of a table: a message is encoded as as many bytes as its
    position, plus one. *)
Fixpoint position {A} `{EqDecision A} (x : A) (l : list A) : nat :=
  match l with
  | [] => 0
  | y :: l => if decide (x = y) then 0 else S (position x l)
  end.

Definition table_message {A} `{EqDecision A} (table : list A) : Message A :=
  {| encode_to_vec := λ x, replicate (S (position x table)) x01;
     decode := λ b, table !! (length b - 1)%nat |}.

Lemma lookup_position {A} `{EqDecision A} (x : A) l :
  x ∈ l → l !! position x l = Some x.
Proof.
  induction l as [|y l IH]; [set_solver|]. simpl. case_decide; [by subst|].
  intros [?|?]%elem_of_cons; [done|auto].
Qed.

Lemma table_message_laws {A} `{EqDecision A} (table : list A) :
  @MessageLaws A (table_message table) (.∈ table).
Proof.
  split. intros x Hx. simpl. rewrite length_replicate, Nat.sub_0_r.
  by apply lookup_position.
Qed.

(** ** Signatures: a tag of the public key and the message *)

Definition sample_tag (key msg : bytes) : bytes :=
  sha256_fips (key ++ msg) ++ sha256_fips (msg ++ key).
#[global] Instance sample_ed25519 : Ed25519 := {|
  ed25519_verify := λ key msg sig, bytes_eqb sig (sample_tag key msg);
  ed25519_public_key := λ k, Some (sha256_fips k);
  ed25519_sign := λ k msg, sample_tag (sha256_fips k) msg
|}.
#[global] Instance sample_ed25519_laws : Ed25519Laws.
Proof.
  split; simpl.
  - intros k p [= <-]. apply sha256_fips_length.
  - intros k m. unfold sample_tag. by rewrite length_app, !sha256_fips_length.
  - intros k p m [= <-]. by apply bytes_eqb_true.
Qed.
