(* ===== verification/Json.v ===== *)
(** * JSON values and their canonical forms

    The values [serde_json] exchanges with the lifecycles of
    [edge-controller-core], the normal form of [lifecycle.rs] ([canonicalize]) and
    the canonical text of [vultr_lifecycle.rs] ([canonical_json_value]).

    [serde_json] itself is a parameter: the class [SerdeJson] names the two
    encoders the code calls, [JsonTokenLaws] and
    [JsonValueLaws] what it relies on. The platform
    serializes no floating-point number, so that a number is an unsigned integer. *)

From S2P Require Import Prelude RustStd RustText HostTypes.

(** [serde_json::Value]; a [Map] is the list of its entries in iteration order. *)
Inductive Value : Type :=
| VNull
| VBool (b : bool)
| VNumber (n : N)
| VString (s : string)
| VArray (values : list Value)
| VObject (entries : list (string * Value)).

Section ValueInd.
Context (P : Value → Prop) (Hnull : P VNull) (Hbool : ∀ b, P (VBool b))
  (Hnum : ∀ n, P (VNumber n)) (Hstr : ∀ s, P (VString s))
  (Harr : ∀ vs, Forall P vs → P (VArray vs))
  (Hobj : ∀ es, Forall (λ e, P e.2) es → P (VObject es)).

Fixpoint value_nested_ind (v : Value) : P v :=
  match v with
  | VNull => Hnull
  | VBool b => Hbool b
  | VNumber n => Hnum n
  | VString s => Hstr s
  | VArray vs => Harr vs
      ((fix go vs : Forall P vs := match vs with
         | [] => Forall_nil_2 P
         | v :: vs => Forall_cons_2 P v vs (value_nested_ind v) (go vs) end) vs)
  | VObject es => Hobj es
      ((fix go es : Forall (λ e, P e.2) es := match es with
         | [] => Forall_nil_2 (λ e, P e.2)
         | e :: es => Forall_cons_2 (λ e, P e.2) e es (value_nested_ind e.2) (go es) end) es)
  end.
End ValueInd.

(** [left.0.cmp(&right.0)] *)
Definition json_key_leb {A} (a b : string * A) : bool := str_leb a.1 b.1.

(** [BTreeMap::insert]: the entries stay in increasing order of their keys. *)
Fixpoint map_insert {A} (k : string) (v : A) (m : list (string * A)) : list (string * A) :=
  match m with
  | [] => [(k, v)]
  | (k', v') :: m' =>
      if str_eqb k k' then (k, v) :: m'
      else if str_leb k k' then (k, v) :: m
      else (k', v') :: map_insert k v m'
  end.

(** [canonicalize]. The sort looks at the keys only, so that the values may be
    normalized before it. *)
Fixpoint canonicalize (value : Value) : Value :=
  match value with
  | VArray values => VArray (map canonicalize values)
  | VObject entries =>
      let entries := sort_by json_key_leb (map (λ e, (e.1, canonicalize e.2)) entries) in
      VObject (foldl (λ m e, map_insert e.1 e.2 m) [] entries)
  | scalar => scalar
  end.

(** The keys of every object are distinct, as in any [Map]. *)
Fixpoint keys_unique (value : Value) : Prop :=
  match value with
  | VArray values => foldr (λ v P, keys_unique v ∧ P) True values
  | VObject entries =>
      NoDup (map fst entries) ∧ foldr (λ e P, keys_unique (snd e) ∧ P) True entries
  | _ => True
  end.

(** ** The encoders of serde_json *)

Class SerdeJson := {
  (** [serde_json::to_string(&str)] *)
  json_str : string → string;
  (** [serde_json::to_vec(&Value)] *)
  json_to_vec : Value → result string bytes
}.

Definition quote : ascii := "034"%char.

(** A JSON string token starts with a quote and ends where its closing quote is. *)
Class JsonTokenLaws `{SerdeJson} := {
  json_str_quote s : ∃ t, json_str s = String quote t;
  json_str_prefix a b r s : json_str a +:+ r = json_str b +:+ s → a = b ∧ r = s
}.
(** Serializing a [Value] succeeds, and two values have the same text only if they
    are the same. *)
Class JsonValueLaws `{SerdeJson} := {
  json_to_vec_total v : ∃ b, json_to_vec v = Ok b;
  json_to_vec_inj v w b : json_to_vec v = Ok b → json_to_vec w = Ok b → v = w
}.

(** [serde_json::to_value] of a type with a derived [Serialize] *)
Class Serialize (A : Type) := to_value : A → result string Value.
#[global] Instance value_serialize : Serialize Value := Ok.

Section Printing.
Context `{SerdeJson}.

Definition braces (body : string) : string := "{" +:+ body +:+ "}".
Definition brackets (body : string) : string := "[" +:+ body +:+ "]".

(** [canonical_json_value] *)
Fixpoint canonical_json_value (value : Value) : string :=
  match value with
  | VNull => "null"
  | VBool b => if b then "true" else "false"
  | VNumber n => pretty n
  | VString s => json_str s
  | VArray values => brackets (join "," (map canonical_json_value values))
  | VObject entries =>
      let entries := sort_by json_key_leb (map (λ e, (e.1, canonical_json_value e.2)) entries) in
      braces (join "," (map (λ e, json_str e.1 +:+ ":" +:+ e.2) entries))
  end.

(** The text of a value whose entries are already in order *)
Fixpoint plain_json (value : Value) : string :=
  match value with
  | VNull => "null"
  | VBool b => if b then "true" else "false"
  | VNumber n => pretty n
  | VString s => json_str s
  | VArray values => brackets (join "," (map plain_json values))
  | VObject entries =>
      braces (join "," (map (λ e, json_str e.1 +:+ ":" +:+ plain_json e.2) entries))
  end.
End Printing.

(** ** Facts about maps *)

Lemma json_key_leb_total {A} (a b : string * A) : json_key_leb a b = true ∨ json_key_leb b a = true.
Proof. apply str_leb_total. Qed.
Lemma json_key_leb_trans {A} (a b c : string * A) :
  json_key_leb a b = true → json_key_leb b c = true → json_key_leb a c = true.
Proof. apply str_leb_trans. Qed.

(** Mapping over the values of the entries commutes with sorting by key. *)
Definition on_value {A B} (f : A → B) (e : string * A) : string * B := (e.1, f e.2).

Lemma insert_by_on_value {A B} (f : A → B) e (l : list (string * A)) :
  insert_by json_key_leb (on_value f e) (map (on_value f) l)
  = map (on_value f) (insert_by json_key_leb e l).
Proof.
  induction l as [|x l IH]; simpl; [done|]. unfold json_key_leb at 1 3. simpl.
  destruct (str_leb e.1 x.1); simpl; [done|]. by rewrite IH.
Qed.
Lemma sort_by_on_value {A B} (f : A → B) (l : list (string * A)) :
  sort_by json_key_leb (map (on_value f) l) = map (on_value f) (sort_by json_key_leb l).
Proof.
  induction l as [|x l IH]; simpl; [done|]. by rewrite IH, insert_by_on_value.
Qed.

Definition key_before {A} (k : string) (e : string * A) : Prop :=
  str_leb e.1 k = true ∧ e.1 ≠ k.

Lemma map_insert_last {A} k (v : A) m :
  Forall (key_before k) m → map_insert k v m = m ++ [(k, v)].
Proof.
  induction 1 as [|[k' v'] m [Hle Hne] _ IH]; simpl in *; [done|].
  replace (str_eqb k k') with false by (symmetry; apply str_eqb_false; congruence).
  destruct (str_leb k k') eqn:E; [|by rewrite IH].
  destruct Hne. by apply str_leb_antisym.
Qed.

Lemma foldl_map_insert_sorted {A} (es acc : list (string * A)) :
  StronglySorted (λ a b, json_key_leb a b = true) (acc ++ es) → NoDup (map fst (acc ++ es)) →
  foldl (λ m e, map_insert e.1 e.2 m) acc es = acc ++ es.
Proof.
  revert acc. induction es as [|[k v] es IH]; intros acc Hs Hn; simpl.
  - by rewrite app_nil_r.
  - rewrite map_insert_last; simpl.
    + rewrite IH by (by rewrite <- app_assoc). by rewrite <- app_assoc.
    + apply Forall_forall. intros e He. split.
      * apply StronglySorted_app in Hs as (Hs & _ & _).
        apply (Hs e (k, v)); [done|by left].
      * intros E. simpl in E. subst k. rewrite map_app in Hn. apply NoDup_app in Hn as (_ & Hn & _).
        apply (Hn e.1); [|left]. apply list_elem_of_In, in_map, list_elem_of_In, He.
Qed.

Lemma map_of_sorted {A} (es : list (string * A)) :
  NoDup (map fst es) →
  foldl (λ m e, map_insert e.1 e.2 m) [] (sort_by json_key_leb es) = sort_by json_key_leb es.
Proof.
  intros Hn. rewrite foldl_map_insert_sorted; [done|..]; simpl.
  - apply sort_by_sorted; [apply json_key_leb_total|apply json_key_leb_trans].
  - by rewrite (Permutation_map fst (sort_by_perm json_key_leb es)).
Qed.

Lemma map_fst_on_value {A B} (f : A → B) (es : list (string * A)) :
  map fst (map (on_value f) es) = map fst es.
Proof. rewrite map_map. done. Qed.

Lemma keys_unique_array vs : keys_unique (VArray vs) ↔ Forall keys_unique vs.
Proof. simpl. induction vs; simpl; [split; auto|]. rewrite Forall_cons. tauto. Qed.
Lemma keys_unique_object es :
  keys_unique (VObject es) ↔ NoDup (map fst es) ∧ Forall (λ e, keys_unique e.2) es.
Proof.
  simpl. apply and_iff_compat_l. induction es; simpl; [split; auto|].
  rewrite Forall_cons. tauto.
Qed.

(** The normal form of an object lists its entries in order of their keys. *)
Lemma canonicalize_object es :
  NoDup (map fst es) →
  canonicalize (VObject es) = VObject (map (on_value canonicalize) (sort_by json_key_leb es)).
Proof.
  intros Hn. simpl. change (λ e : string * Value, (e.1, canonicalize e.2))
    with (on_value canonicalize).
  rewrite map_of_sorted by (by rewrite map_fst_on_value). by rewrite sort_by_on_value.
Qed.

(** ** Objects built field by field

    [json!({ ... })] and the derived [Serialize] of a struct insert the fields in
    the order they are written in. *)
Definition obj_entries {A} (fields : list (string * A)) : list (string * A) :=
  foldl (λ m e, map_insert e.1 e.2 m) [] fields.
Definition obj (fields : list (string * Value)) : Value := VObject (obj_entries fields).

Lemma map_insert_perm {A} k (v : A) m :
  k ∉ map fst m → map_insert k v m ≡ₚ (k, v) :: m.
Proof.
  induction m as [|[k' v'] m IH]; simpl; [done|]. rewrite not_elem_of_cons. intros [Hne Hm].
  replace (str_eqb k k') with false by (by symmetry; apply str_eqb_false).
  destruct (str_leb k k'); [done|]. rewrite IH by done. apply Permutation_swap.
Qed.

Lemma obj_entries_perm {A} (fields : list (string * A)) :
  NoDup (map fst fields) → obj_entries fields ≡ₚ fields.
Proof.
  intros Hn. unfold obj_entries.
  cut (∀ acc, NoDup (map fst (fields ++ acc)) →
    foldl (λ m e, map_insert e.1 e.2 m) acc fields ≡ₚ fields ++ acc).
  { intros Hc. rewrite Hc; rewrite app_nil_r; done. }
  clear Hn. induction fields as [|[k v] fields IH]; intros acc Hn; simpl in *; [done|].
  rewrite map_app in Hn. pose proof Hn as [Hk _]%NoDup_cons.
  apply not_elem_of_app in Hk as [_ Hk]. assert (Hp := map_insert_perm k v acc Hk).
  rewrite IH, Hp; [by rewrite Permutation_middle|].
  rewrite map_app, (Permutation_map fst Hp). simpl. by rewrite <- Permutation_middle.
Qed.

(** Two lists of fields with the same distinct names and the same bindings are the
    same list. *)
Lemma fields_perm_eq {A} (fs gs : list (string * A)) :
  map fst fs = map fst gs → NoDup (map fst fs) → fs ≡ₚ gs → fs = gs.
Proof.
  intros Hk Hn Hp. assert (Hinj : ∀ k x y, (k, x) ∈ gs → (k, y) ∈ gs → x = y).
  { rewrite Hk in Hn. clear -Hn. induction gs as [|[k v] gs IH]; intros k' x y; simpl in *;
      [by intros ?%elem_of_nil|].
    apply NoDup_cons in Hn as [Hk Hn]. rewrite !elem_of_cons.
    assert (Hout : ∀ z, (k, z) ∈ gs → False).
    { intros z Hz. apply Hk, list_elem_of_In, in_map_iff. exists (k, z). split; [done|].
      by apply list_elem_of_In. }
    intros [[= -> ->]|Hx] [[= ->]|Hy]; [done|by destruct (Hout y)|subst; by destruct (Hout x)|eauto]. }
  apply (list_eq_same_length _ _ (length gs)); [done|by rewrite Hp|].
  intros i [k x] [k' y] _ Hf Hg. assert (Some k = Some k') as [= ->].
  { apply (f_equal (.!! i)) in Hk. change (@map ?A ?B) with (@fmap list _ A B) in Hk.
    by rewrite !list_lookup_fmap, Hf, Hg in Hk. }
  f_equal. apply (Hinj k'); [rewrite <- Hp|]; by eapply list_elem_of_lookup_2.
Qed.

Lemma canonicalize_obj_inj fs gs :
  map fst fs = map fst gs → NoDup (map fst fs) →
  canonicalize (obj fs) = canonicalize (obj gs) →
  map (on_value canonicalize) fs = map (on_value canonicalize) gs.
Proof.
  intros Hk Hn. assert (Hn' : NoDup (map fst gs)) by (by rewrite <- Hk).
  unfold obj. rewrite !canonicalize_object; [|by rewrite obj_entries_perm by done..].
  intros [= E]. apply fields_perm_eq; [by rewrite !map_fst_on_value|by rewrite map_fst_on_value|].
  rewrite <- (obj_entries_perm fs), <- (obj_entries_perm gs) by done.
  rewrite <- (sort_by_perm json_key_leb (obj_entries fs)), <- (sort_by_perm json_key_leb (obj_entries gs)).
  by rewrite E.
Qed.

Section Canonical.
Context `{SerdeJson}.

Lemma plain_canonicalize v :
  keys_unique v → plain_json (canonicalize v) = canonical_json_value v.
Proof.
  induction v as [| | | |vs IH|es IH] using value_nested_ind; try done.
  - rewrite keys_unique_array. intros Hu. simpl. do 2 f_equal. rewrite map_map.
    apply map_ext_Forall. rewrite Forall_forall in *. eauto.
  - rewrite keys_unique_object. intros [Hn Hu]. rewrite canonicalize_object by done.
    cbn [plain_json canonical_json_value]. do 2 f_equal.
    change (λ e : string * Value, (e.1, canonical_json_value e.2))
      with (on_value canonical_json_value).
    rewrite sort_by_on_value, !map_map. apply map_ext_Forall.
    rewrite (sort_by_perm json_key_leb es). rewrite Forall_forall in *.
    intros e He. simpl. by rewrite IH by eauto.
Qed.
End Canonical.

(** ** The canonical text determines the value *)

(** What can follow a value in a JSON text *)
Definition delimited (r : string) : Prop :=
  match r with EmptyString => True | String c _ => is_ascii_digit c = false end.

Lemma digits_prefix a b r s :
  str_all is_ascii_digit a = true → str_all is_ascii_digit b = true →
  delimited r → delimited s → a +:+ r = b +:+ s → a = b ∧ r = s.
Proof.
  revert b. induction a as [|x a IH]; intros [|y b]; simpl; intros Ha Hb Hr Hs E.
  - done.
  - change (r = String y (b +:+ s)) in E. subst r. simpl in Hr. by rewrite Hr in Hb.
  - change (String x (a +:+ r) = s) in E. subst s. simpl in Hs. by rewrite Hs in Ha.
  - injection E as -> E. apply andb_true in Ha as [_ Ha]. apply andb_true in Hb as [_ Hb].
    by destruct (IH b Ha Hb Hr Hs E) as [-> ->].
Qed.

(** A comma-separated list whose items are self-delimiting, up to a closing
    bracket *)
Fixpoint join_tail (l : list string) : string :=
  match l with [] => "" | x :: l => "," +:+ x +:+ join_tail l end.
Lemma join_cons x l : join "," (x :: l) = x +:+ join_tail l.
Proof.
  revert x. induction l as [|y l IH]; intros x; simpl; [by rewrite app_nil_r_str|].
  simpl in IH. by rewrite IH.
Qed.

Section JoinPrefix.
Context {A : Type} (p : A → string) (close : ascii).
Context (Hclose : is_ascii_digit close = false) (Hcomma : close ≠ ","%char).

Definition item_ok (x : A) : Prop := ∃ c t, p x = String c t ∧ c ≠ close.
Definition item_prefix (x : A) : Prop := ∀ y r s, delimited r → delimited s →
  p x +:+ r = p y +:+ s → x = y ∧ r = s.

Lemma join_tail_delimited l r : delimited (join_tail l +:+ String close r).
Proof using Hclose. by destruct l. Qed.

Lemma join_tail_prefix xs ys r s :
  Forall item_prefix xs →
  join_tail (map p xs) +:+ String close r = join_tail (map p ys) +:+ String close s →
  xs = ys ∧ r = s.
Proof using Hclose Hcomma.
  intros Hx. revert ys. induction Hx as [|x xs Hx _ IH]; intros [|y ys]; simpl.
  - by intros [= ->].
  - intros [= E _]. congruence.
  - intros [= E _]. congruence.
  - rewrite !app_assoc_str. intros [= E].
    apply Hx in E as [-> E]; [|apply join_tail_delimited..].
    by apply IH in E as [-> ->].
Qed.

Lemma join_prefix xs ys r s :
  Forall item_prefix xs → Forall item_ok xs → Forall item_ok ys →
  join "," (map p xs) +:+ String close r = join "," (map p ys) +:+ String close s →
  xs = ys ∧ r = s.
Proof using Hclose Hcomma.
  intros Hx Hok1 Hok2. destruct xs as [|x xs], ys as [|y ys]; cbn [map].
  - by intros [= ->].
  - inversion_clear Hok2 as [|? ? (c & t & Hc & Hne) _]. rewrite join_cons, Hc.
    intros [= E _]. congruence.
  - inversion_clear Hok1 as [|? ? (c & t & Hc & Hne) _]. rewrite join_cons, Hc.
    intros [= E _]. congruence.
  - rewrite !join_cons, !app_assoc_str. inversion_clear Hx as [|? ? Hx1 Hxs].
    intros E. apply Hx1 in E as [-> E]; [|apply join_tail_delimited..].
    by apply join_tail_prefix in E as [-> ->].
Qed.
End JoinPrefix.

Section TextInjective.
Context `{JsonTokenLaws}.

(** The first character of a text tells the kind of its value. *)
Definition kind_of (v : Value) : Z :=
  match v with
  | VNull => 0 | VBool b => if b then 1 else 2 | VNumber _ => 3 | VString _ => 4
  | VArray _ => 5 | VObject _ => 6
  end.
Definition kind_of_char (c : ascii) : Z :=
  if is_ascii_digit c then 3
  else if bool_decide (c = "n"%char) then 0 else if bool_decide (c = "t"%char) then 1
  else if bool_decide (c = "f"%char) then 2 else if bool_decide (c = quote) then 4
  else if bool_decide (c = "["%char) then 5 else 6.

Lemma plain_head v : ∃ c t, plain_json v = String c t ∧ kind_of_char c = kind_of v.
Proof using Type*.
  destruct v as [|[]|n|s|vs|es]; simpl.
  - by exists "n"%char, "ull".
  - by exists "t"%char, "rue".
  - by exists "f"%char, "alse".
  - destruct (pretty_head n) as (c & t & -> & Hc). exists c, t. split; [done|].
    unfold kind_of_char. by rewrite Hc.
  - destruct (json_str_quote s) as [t ->]. by exists quote, t.
  - unfold brackets. eexists _, _. by split.
  - unfold braces. eexists _, _. by split.
Qed.

Lemma plain_kind v w r s :
  plain_json v +:+ r = plain_json w +:+ s → kind_of v = kind_of w.
Proof using Type*.
  destruct (plain_head v) as (c & t & -> & <-), (plain_head w) as (d & u & -> & <-).
  by intros [= -> _].
Qed.

Lemma plain_not_close v c : kind_of_char c = 6 → c ≠ "{"%char → ∃ d t, plain_json v = String d t ∧ d ≠ c.
Proof using Type*.
  intros Hc Hne. destruct (plain_head v) as (d & t & E & Hd). exists d, t. split; [done|].
  intros ->. rewrite Hc in Hd. destruct v as [|[]| | | |]; try discriminate Hd.
  simpl in E. unfold braces in E. injection E as E _. by rewrite E in Hne.
Qed.

Definition entry_text (e : string * Value) : string := json_str e.1 +:+ ":" +:+ plain_json e.2.

Lemma brackets_app b r : brackets b +:+ r = String "[" (b +:+ String "]" r).
Proof. exact (f_equal (String "[") (app_assoc_str b "]" r)). Qed.
Lemma braces_app b r : braces b +:+ r = String "{" (b +:+ String "}" r).
Proof. exact (f_equal (String "{") (app_assoc_str b "}" r)). Qed.

Lemma entry_item_ok es : Forall (item_ok entry_text "}") es.
Proof using Type*.
  apply Forall_forall. intros e _. destruct (json_str_quote e.1) as [t Ht].
  exists quote, (t +:+ ":" +:+ plain_json e.2). unfold entry_text. by rewrite Ht.
Qed.
Lemma value_item_ok vs : Forall (item_ok plain_json "]") vs.
Proof using Type*. apply Forall_forall. intros v _. by apply plain_not_close. Qed.

Lemma plain_prefix v w r s :
  delimited r → delimited s → plain_json v +:+ r = plain_json w +:+ s → v = w ∧ r = s.
Proof using Type*.
  revert w r s.
  induction v as [|b|n|str|vs IH|es IH] using value_nested_ind; intros w r s Hr Hs E;
    pose proof (plain_kind _ _ _ _ E) as Hk; destruct w as [|b'|n'|str'|vs'|es'];
    try (by destruct b); try (by destruct b'); try done; cbn [plain_json] in E.
  - by apply app_inv_head_str in E as ->.
  - destruct b, b'; try discriminate Hk; by apply app_inv_head_str in E as ->.
  - apply digits_prefix in E as [E ->]; [|apply pretty_digits..|done|done].
    by apply (inj pretty) in E as ->.
  - by apply json_str_prefix in E as [-> ->].
  - rewrite !brackets_app in E. injection E as E.
    apply (join_prefix plain_json) in E as [-> ->]; [done..|apply value_item_ok|apply value_item_ok].
  - rewrite !braces_app in E. injection E as E.
    apply (join_prefix entry_text) in E as [-> ->]; [done..| |apply entry_item_ok|apply entry_item_ok].
    eapply Forall_impl; [exact IH|]. intros [k v] Hin [k' w] r' s' ?? E'. unfold entry_text in E'.
    rewrite !app_assoc_str in E'. apply json_str_prefix in E' as [Ek E']. simpl in Ek.
    apply app_inv_head_str, Hin in E' as [Ev ->]; simpl in *; [by subst|done..].
Qed.

Lemma plain_json_inj v w : plain_json v = plain_json w → v = w.
Proof using Type*.
  intros E. apply (plain_prefix v w "" ""); [done..|]. by rewrite !app_nil_r_str.
Qed.

(** The canonical text of a value and its normal form carry the same information: two
    values have the same text exactly when they differ only in the order of the
    entries of their objects. *)
Theorem canonical_text_is_normal_form v w :
  keys_unique v → keys_unique w →
  canonical_json_value v = canonical_json_value w ↔ canonicalize v = canonicalize w.
Proof using Type*.
  intros Hv Hw. rewrite <- !plain_canonicalize by done. split; [|congruence].
  apply plain_json_inj.
Qed.
End TextInjective.

(** ** A concrete encoder: the escapes of serde_json *)

Definition escape_char (c : ascii) : string :=
  if bool_decide (c = quote) then String "\" (String quote "")
  else if bool_decide (c = "\"%char) then "\\"
  else if code c =? 8 then "\b" else if code c =? 9 then "\t"
  else if code c =? 10 then "\n" else if code c =? 12 then "\f"
  else if code c =? 13 then "\r"
  else if code c <? 32 then "\u00" +:+ hex_of_bytes [byte_of_Z (code c)]
  else String c "".
Fixpoint escape (s : string) : string :=
  match s with "" => "" | String c s => escape_char c +:+ escape s end.
Definition json_string_token (s : string) : string := String quote (escape s +:+ String quote "").

(** Reads one escaped character back. *)
Definition unescape_char (s : string) : option (ascii * string) :=
  match s with
  | String "\" (String "u" (String _ (String _ (String a (String b r))))) =>
      x ← hex_digit_of a; y ← hex_digit_of b;
      Some (ascii_of_N (Z.to_N (16 * x + y)), r)
  | String "\" (String c r) =>
      Some (if bool_decide (c = "b"%char) then "008"%char
            else if bool_decide (c = "t"%char) then "009"%char
            else if bool_decide (c = "n"%char) then "010"%char
            else if bool_decide (c = "f"%char) then "012"%char
            else if bool_decide (c = "r"%char) then "013"%char else c, r)
  | String c r => if bool_decide (c = quote) then None else Some (c, r)
  | EmptyString => None
  end.

Lemma unescape_escape c r : unescape_char (escape_char c +:+ r) = Some (c, r).
Proof. destruct c as [[] [] [] [] [] [] [] []]; reflexivity. Qed.

Lemma escape_prefix a b r s :
  escape a +:+ String quote r = escape b +:+ String quote s → a = b ∧ r = s.
Proof.
  assert (Hq : ∀ r c x, String quote r = escape_char c +:+ x → False).
  { intros r' c x E. apply (f_equal unescape_char) in E.
    by rewrite unescape_escape in E. }
  revert b. induction a as [|c a IH]; intros [|d b]; cbn [escape].
  - by intros [= ->].
  - rewrite app_assoc_str. intros E. by destruct (Hq _ _ _ E).
  - rewrite app_assoc_str. intros E. symmetry in E. by destruct (Hq _ _ _ E).
  - rewrite !app_assoc_str. intros E. apply (f_equal unescape_char) in E.
    rewrite !unescape_escape in E. injection E as -> E. by destruct (IH _ E) as [-> ->].
Qed.

Lemma json_string_token_prefix a b r s :
  json_string_token a +:+ r = json_string_token b +:+ s → a = b ∧ r = s.
Proof.
  unfold json_string_token. intros [= E].
  rewrite !app_assoc_str in E. by apply escape_prefix in E.
Qed.

#[global] Instance json_concrete : SerdeJson := {|
  json_str := json_string_token;
  json_to_vec v := Ok (as_bytes (@plain_json {| json_str := json_string_token;
                                               json_to_vec := λ _, Err "" |} v)) |}.
#[global] Instance json_concrete_tokens : JsonTokenLaws.
Proof.
  split; [by eexists|]. apply json_string_token_prefix.
Qed.
#[global] Instance json_concrete_values : JsonValueLaws.
Proof.
  split; [by eexists|]. intros v w b [= <-] [= E%as_bytes_inj]. symmetry.
  refine (@plain_json_inj _ _ v w E) || refine (@plain_json_inj _ _ w v E).
  split; [by eexists|]. apply json_string_token_prefix.
Qed.

(** Two texts of one value; the witness of [canonical_text_is_normal_form]. *)
Module JsonSample.
Definition left : Value := VObject
  [("a", VNumber 1); ("b", VObject [("x", VNumber 2); ("y", VArray [VNull; VBool true])])].
Definition right : Value := VObject
  [("b", VObject [("y", VArray [VNull; VBool true]); ("x", VNumber 2)]); ("a", VNumber 1)].

Lemma canonical_text_is_normal_form_witness :
  canonical_json_value left = canonical_json_value right ↔
  canonicalize left = canonicalize right.
Proof.
  apply (canonical_text_is_normal_form left right).
  - vm_compute. repeat constructor; set_solver.
  - vm_compute. repeat constructor; set_solver.
Defined.
End JsonSample.
