(* ===== verification/ResourceGraph.v ===== *)
(** * The desired resource graph of a VM host

    Models [edge-shared-types/src/host_resources.rs], lines 15-499: validation
    of the desired graph (scope, networks, resources, dependency order),
    resource identifiers, the resource hierarchy derived from a graph, its
    validator, and the proposal that reconciles an installed graph with a
    desired one.  A Rust [BTreeSet] that only remembers what a loop has seen
    is a list with membership; a [BTreeMap] that is only read by key is a
    [gmap]. *)

From S2P Require Import Prelude RustStd HostTypes.

Section Graph.
Context `{Message FleetVmDesiredGraph} `{Message FleetResourceHierarchy}
  `{Message FleetVmDesiredNetwork} `{Message FleetVmDesiredResource} `{Sha256}.

(** [b.is_ascii_alphanumeric() || b == b'_' || b == b'-'] *)
Definition network_name_char (c : ascii) : bool :=
  is_ascii_alphanumeric c || one_of "_-" c.

Definition has_service (host : FleetHost) (service : string) : bool :=
  existsb (λ item, str_eqb (sel_compose_service item) service) (host_vm_containers host).

(** ** [validate_vm_desired_graph] *)

(** The loop over the services attached to one network; the state is [members]
    and [network_membership]. *)
Definition check_member (host : FleetHost) (st : list string * list string)
    (service : string) : res (list string * list string) :=
  let '(members, membership) := st in
  fail_if (negb (has_service host service) || mem service members
           || mem service membership) "VM_GRAPH_NETWORK_MEMBERSHIP_INVALID" ;;
  Ok (service :: members, service :: membership).

(** The loop over the networks; the state is [network_names] and
    [network_membership]. *)
Definition check_network (host : FleetHost) (project : string)
    (st : list string * list string) (network : FleetVmDesiredNetwork)
    : res (list string * list string) :=
  let '(names, membership) := st in
  fail_if (negb (str_eqb (dnet_compose_project network) project)
           || negb (str_eqb (dnet_driver network) "bridge")
           || str_empty (dnet_network_name network)
           || (64 <? slen (dnet_network_name network))
           || negb (str_all network_name_char (dnet_network_name network))
           || str_eqb (dnet_network_name network) "mesh_net"
           || mem (dnet_network_name network) names
           || is_empty (dnet_attached_services network))
    "VM_GRAPH_NETWORK_SCOPE_INVALID" ;;
  '(_, membership) ←
    try_fold (check_member host) ([], membership) (dnet_attached_services network);
  Ok (dnet_network_name network :: names, membership).

Definition image_ref_pinned (image : string) : bool :=
  match rsplit_once "@sha256:" image with
  | Some (name, sha) =>
      negb (str_empty name) && (slen sha =? 64) && str_all is_ascii_hexdigit sha
  | None => false
  end.

Definition digest_malformed (b : bytes) : bool := negb (blen b =? 32) || all_zero b.

Definition is_gateway (service : string) : bool :=
  str_eqb service "line1-gateway" || str_eqb service "line2-proxy".

(** The [match selector.compose_service] on the configuration digest *)
Definition check_config (service : string) (config : bytes) : res unit :=
  if is_gateway service && digest_malformed config then Err "VM_GRAPH_CONFIG_MISSING"
  else if str_eqb service "warp-egress" && negb (is_empty config)
  then Err "VM_GRAPH_WARP_CONFIG_FOREIGN"
  else if negb (is_empty config) && digest_malformed config
  then Err "VM_GRAPH_CONFIG_INVALID"
  else Ok tt.

(** The loop over the dependencies of one resource; the state is [deps]. *)
Definition check_dependency (host : FleetHost) (service : string)
    (deps : list string) (dep : string) : res (list string) :=
  fail_if (str_eqb dep service || negb (has_service host dep) || mem dep deps)
    "VM_GRAPH_DEPENDENCY_INVALID" ;;
  Ok (dep :: deps).

(** The loop over [graph.resources.iter().zip(&host.vm_containers)]; the state is
    [unique]. *)
Definition check_resource (host : FleetHost) (graph : FleetVmDesiredGraph)
    (unique : list string) (pair : FleetVmDesiredResource * FleetVmContainer)
    : res (list string) :=
  let '(row, selector) := pair in
  fail_if (negb (bool_decide (dres_resource row = Some selector))
           || mem (sel_compose_service selector) unique
           || (256 <? slen (dres_image_ref row))
           || negb (image_ref_pinned (dres_image_ref row))
           || (length (graph_resources graph) <? length (dres_dependencies row))%nat)
    "VM_GRAPH_RESOURCE_INVALID" ;;
  check_config (sel_compose_service selector) (dres_config_template_sha256 row) ;;
  try_fold (check_dependency host (sel_compose_service selector)) []
    (dres_dependencies row) ;;
  Ok (sel_compose_service selector :: unique).

(** [resource.resource.as_ref().unwrap().compose_service]: the [unwrap] follows a
    check that the option is [Some] (lemma [checked_rows]). *)
Definition service_of (row : FleetVmDesiredResource) : string :=
  match dres_resource row with Some sel => sel_compose_service sel | None => "" end.

(** One pass of the [for] loop inside the [while] loop *)
Definition settle_one (settled : list string) (row : FleetVmDesiredResource)
    : list string :=
  if negb (mem (service_of row) settled)
     && forallb (λ dep, mem dep settled) (dres_dependencies row)
  then service_of row :: settled else settled.
Definition settle_pass (rows : list FleetVmDesiredResource) (settled : list string)
    : list string := fold_left settle_one rows settled.

(** The [while] loop; [None] when the fuel runs out (lemma [settle_total]: it
    never does with one more than the number of resources). *)
Fixpoint settle (fuel : nat) (rows : list FleetVmDesiredResource)
    (settled : list string) : option (res unit) :=
  match fuel with
  | O => None
  | S fuel =>
      if (length settled <? length rows)%nat then
        let settled' := settle_pass rows settled in
        if (length settled' =? length settled)%nat
        then Some (Err "VM_GRAPH_DEPENDENCY_CYCLE")
        else settle fuel rows settled'
      else Some (Ok tt)
  end.

Definition graph_scope_invalid (graph : FleetVmDesiredGraph) (host : FleetHost) : bool :=
  negb (host_kind host =? as_i32 FleetHostKind_Vm)
  || negb (graph_schema_version graph =? 1)
  || negb (str_eqb (graph_machine_id graph) (host_machine_id host))
  || is_empty (graph_resources graph)
  || negb (length (graph_resources graph) =? length (host_vm_containers host))%nat
  || is_empty (graph_networks graph)
  || (16 <? length (graph_networks graph))%nat
  || (16384 <? blen (encode_to_vec graph)).

(** [host.vm_containers[0].compose_project]: the list is not empty here, since it
    is as long as [graph.resources]. *)
Definition first_project (host : FleetHost) : string :=
  match host_vm_containers host with
  | sel :: _ => sel_compose_project sel
  | [] => ""
  end.

Definition validate_vm_desired_graph (graph : FleetVmDesiredGraph) (host : FleetHost)
    : res unit :=
  fail_if (graph_scope_invalid graph host) "VM_GRAPH_SCOPE_INVALID" ;;
  '(_, membership) ←
    try_fold (check_network host (first_project host)) ([], []) (graph_networks graph);
  fail_if (negb (length membership =? length (host_vm_containers host))%nat)
    "VM_GRAPH_NETWORK_MEMBERSHIP_INCOMPLETE" ;;
  try_fold (check_resource host graph) []
    (zip (graph_resources graph) (host_vm_containers host)) ;;
  match settle (S (length (graph_resources graph))) (graph_resources graph) [] with
  | Some r => r
  | None => Err "unreachable: out of fuel"
  end.

(** ** Resource identifiers *)

Definition vm_container_resource_id (host : FleetHost) (selector : FleetVmContainer)
    : res string :=
  fail_if (negb (host_kind host =? as_i32 FleetHostKind_Vm)
           || negb (mem selector (host_vm_containers host))
           || str_empty (sel_compose_project selector)
           || str_empty (sel_compose_service selector)) "VM_RESOURCE_ID_NOT_REGISTERED" ;;
  Ok ("container/" +:+ sel_compose_project selector +:+ "/" +:+
      sel_compose_service selector).

Definition vm_network_resource_id (project name : string) : string :=
  "network/" +:+ project +:+ "/" +:+ name.
Definition vm_config_resource_id (project service : string) : string :=
  "config/" +:+ project +:+ "/" +:+ service.
Definition vm_host_resource_id (host : FleetHost) : string :=
  "host/" +:+ host_machine_id host.
Definition vm_worker_credential_resource_id (host : FleetHost) : string :=
  "credential/" +:+ host_machine_id host +:+ "/application-v2".

(** ** The hierarchy projected from a graph *)

Definition mk_node id kind parent deps owner digest : FleetResourceNode := {|
  node_resource_id := id;
  node_kind := as_i32 (E:=FleetResourceKind) kind;
  node_parent_resource_id := parent;
  node_dependency_ids := deps;
  node_owner := as_i32 (E:=FleetResourceOwner) owner;
  node_expected_policy_sha256 := digest
|}.

(** The map from a service to the network that lists it last *)
Definition service_networks (networks : list FleetVmDesiredNetwork) : gmap string string :=
  fold_left (λ m network,
    fold_left (λ m service, <[service := dnet_network_name network]> m)
      (dnet_attached_services network) m) networks ∅.

Definition network_node (root : string) (network : FleetVmDesiredNetwork)
    : FleetResourceNode :=
  mk_node (vm_network_resource_id (dnet_compose_project network)
             (dnet_network_name network))
    FleetResourceKind_DockerNetwork root [] FleetResourceOwner_VmRootAgent
    (sha256 (encode_to_vec network)).

(** The inner loop over [resource.dependencies] *)
Definition container_dependency (host : FleetHost) (dependency : string) : res string :=
  s ← ok_or (List.find (λ v, str_eqb (sel_compose_service v) dependency)
               (host_vm_containers host)) "VM_HIERARCHY_FOREIGN_CONTAINER_DEPENDENCY";
  vm_container_resource_id host s.

(** The body of the loop over [desired.resources]: one or two nodes *)
Definition container_nodes (host : FleetHost) (networks : gmap string string)
    (resource : FleetVmDesiredResource) : res (list FleetResourceNode) :=
  selector ← ok_or (dres_resource resource) "VM_HIERARCHY_SELECTOR_MISSING";
  id ← vm_container_resource_id host selector;
  network ← ok_or (networks !! sel_compose_service selector)
    "VM_HIERARCHY_NETWORK_DEPENDENCY_MISSING";
  containers ← try_map (container_dependency host) (dres_dependencies resource);
  let dependencies :=
    vm_network_resource_id (sel_compose_project selector) network ::
    (if is_gateway (sel_compose_service selector)
     then [vm_worker_credential_resource_id host] else []) ++ containers in
  let container :=
    mk_node id FleetResourceKind_DockerContainer (vm_host_resource_id host)
      (dedup (sort_strings dependencies)) FleetResourceOwner_VmRootAgent
      (sha256 (encode_to_vec resource)) in
  let config :=
    mk_node (vm_config_resource_id (sel_compose_project selector)
               (sel_compose_service selector))
      FleetResourceKind_SingboxConfig id [id] FleetResourceOwner_VmRootAgent
      (dres_config_template_sha256 resource) in
  Ok (if is_empty (dres_config_template_sha256 resource) then [container]
      else [container; config]).

Definition project_vm_hierarchy_nodes_unchecked (host : FleetHost)
    (desired : FleetVmDesiredGraph) : res (list FleetResourceNode) :=
  let root := vm_host_resource_id host in
  let networks := service_networks (graph_networks desired) in
  nodes ← try_map (container_nodes host networks) (graph_resources desired);
  Ok (mk_node root FleetResourceKind_Host "" [] FleetResourceOwner_VmRootAgent []
      :: mk_node (vm_worker_credential_resource_id host) FleetResourceKind_CredentialRef
           root [] FleetResourceOwner_WorkerSecrets []
      :: (network_node root <$> graph_networks desired) ++ concat nodes).

(** ** [validate_vm_resource_hierarchy] *)

Definition expected_owner (node : FleetResourceNode) : FleetResourceOwner :=
  if node_kind node =? as_i32 FleetResourceKind_CredentialRef
  then FleetResourceOwner_WorkerSecrets else FleetResourceOwner_VmRootAgent.

(** The loop over the nodes; [unique] and [seen] of the source always hold the
    same identifiers at the start of an iteration. *)
Definition check_node (host : FleetHost) (all_ids : list string)
    (seen : list string) (node : FleetResourceNode) : res (list string) :=
  fail_if (mem (node_resource_id node) seen
           || negb (node_owner node =? as_i32 (expected_owner node))
           || negb (bool_decide (is_Some (try_from (E:=FleetResourceKind) (node_kind node))))
           || (node_kind node =? as_i32 FleetResourceKind_Unspecified))
    "VM_HIERARCHY_NODE_IDENTITY_INVALID" ;;
  (if str_empty (node_parent_resource_id node) then
     fail_if (negb (str_eqb (node_resource_id node) (vm_host_resource_id host))
              || negb (node_kind node =? as_i32 FleetResourceKind_Host)
              || negb (is_empty (node_dependency_ids node))) "VM_HIERARCHY_ROOT_INVALID"
   else fail_if (negb (mem (node_parent_resource_id node) seen))
          "VM_HIERARCHY_PARENT_NOT_FOUND_OR_UNORDERED") ;;
  for_each (λ dep, fail_if (negb (mem dep all_ids) || str_eqb dep (node_resource_id node))
                     "VM_HIERARCHY_DEPENDENCY_UNREGISTERED") (node_dependency_ids node) ;;
  fail_if (negb (is_empty (node_expected_policy_sha256 node))
           && digest_malformed (node_expected_policy_sha256 node))
    "VM_HIERARCHY_DIGEST_INVALID" ;;
  Ok (node_resource_id node :: seen).

Definition expected_node_count (desired : FleetVmDesiredGraph) : nat :=
  2 + length (graph_networks desired) + length (graph_resources desired)
  + length (List.filter (λ r, negb (is_empty (dres_config_template_sha256 r)))
              (graph_resources desired)).

Definition hierarchy_scope_invalid (observed : FleetResourceHierarchy) (host : FleetHost)
    : bool :=
  negb (hier_schema_version observed =? 1)
  || negb (str_eqb (hier_machine_id observed) (host_machine_id host))
  || is_empty (hier_nodes observed)
  || (128 <? length (hier_nodes observed))%nat
  || hier_owner_attested observed
  || hier_mutation_authorized observed
  || (32768 <? blen (encode_to_vec observed)).

(** [observed.nodes[0].resource_id]: the list is not empty here. *)
Definition first_node_id (nodes : list FleetResourceNode) : string :=
  match nodes with n :: _ => node_resource_id n | [] => "" end.

Definition validate_vm_resource_hierarchy (observed : FleetResourceHierarchy)
    (host : FleetHost) (desired : FleetVmDesiredGraph) : res unit :=
  validate_vm_desired_graph desired host ;;
  fail_if (hierarchy_scope_invalid observed host)
    "VM_HIERARCHY_SCOPE_OR_AUTHORITY_INVALID" ;;
  try_fold (check_node host (node_resource_id <$> hier_nodes observed)) []
    (hier_nodes observed) ;;
  fail_if (negb (str_eqb (first_node_id (hier_nodes observed)) (vm_host_resource_id host))
           || negb (length (hier_nodes observed) =? expected_node_count desired)%nat)
    "VM_HIERARCHY_INCOMPLETE" ;;
  expected ← project_vm_hierarchy_nodes_unchecked host desired;
  fail_if (negb (bool_decide (hier_nodes observed = expected)))
    "VM_HIERARCHY_POLICY_DRIFT".

Definition derive_vm_resource_hierarchy (host : FleetHost) (desired : FleetVmDesiredGraph)
    : res FleetResourceHierarchy :=
  validate_vm_desired_graph desired host ;;
  nodes ← project_vm_hierarchy_nodes_unchecked host desired;
  let graph := {|
    hier_schema_version := 1;
    hier_machine_id := host_machine_id host;
    hier_nodes := nodes;
    hier_owner_attested := false;
    hier_mutation_authorized := false
  |} in
  validate_vm_resource_hierarchy graph host desired ;;
  Ok graph.

(** ** [propose_vm_graph_reconcile] *)

Definition policy_change (before after : FleetVmDesiredResource) : FleetVmPolicyChange :=
  if negb (str_eqb (dres_image_ref before) (dres_image_ref after))
  then FleetVmPolicyChange_ImageReplaced
  else if negb (bytes_eqb (dres_config_template_sha256 before)
                  (dres_config_template_sha256 after))
  then FleetVmPolicyChange_ConfigTemplateReplaced
  else FleetVmPolicyChange_NoChange.

Definition combined_change (before after : FleetVmDesiredResource) : bool :=
  negb (str_eqb (dres_image_ref before) (dres_image_ref after))
  && negb (bytes_eqb (dres_config_template_sha256 before)
             (dres_config_template_sha256 after)).

(** The exact node a change addresses, and the check of its owner and parent *)
Definition reconcile_target (host : FleetHost) (nodes : list FleetResourceNode)
    (selector : FleetVmContainer) (change : FleetVmPolicyChange)
    : res (string * FleetResourceKind) :=
  '(resource_id, resource_kind) ←
    (if bool_decide (change = FleetVmPolicyChange_ConfigTemplateReplaced)
     then Ok (vm_config_resource_id (sel_compose_project selector)
                (sel_compose_service selector), FleetResourceKind_SingboxConfig)
     else id ← vm_container_resource_id host selector;
          Ok (id, FleetResourceKind_DockerContainer));
  exact_node ← ok_or (List.find (λ node, str_eqb (node_resource_id node) resource_id) nodes)
    "VM_RECONCILE_RESOURCE_NODE_NOT_IN_GRAPH";
  fail_if (negb (node_kind exact_node =? as_i32 resource_kind)
           || negb (node_owner exact_node =? as_i32 FleetResourceOwner_VmRootAgent))
    "VM_RECONCILE_NODE_OWNER_OR_PARENT_INVALID" ;;
  (if bool_decide (resource_kind = FleetResourceKind_SingboxConfig) then
     parent ← vm_container_resource_id host selector;
     fail_if (negb (str_eqb (node_parent_resource_id exact_node) parent))
       "VM_RECONCILE_NODE_OWNER_OR_PARENT_INVALID"
   else fail_if (negb (str_eqb (node_parent_resource_id exact_node)
                         (vm_host_resource_id host)))
          "VM_RECONCILE_NODE_OWNER_OR_PARENT_INVALID") ;;
  Ok (resource_id, resource_kind).

Record reconcile_state : Set := {
  rs_index : nat;
  rs_old_consumers : gmap string (list nat);
  rs_resources : list FleetVmGraphResourceChange
}.

(** One iteration over [installed.resources.iter().zip(&desired.resources)] *)
Definition reconcile_step (host : FleetHost) (nodes : list FleetResourceNode)
    (st : reconcile_state) (pair : FleetVmDesiredResource * FleetVmDesiredResource)
    : res reconcile_state :=
  let '(before, after) := pair in
  fail_if (negb (bool_decide (dres_resource before = dres_resource after))
           || negb (bool_decide (dres_dependencies before = dres_dependencies after)))
    "VM_RECONCILE_DEPENDENCY_OR_IDENTITY_CHANGED" ;;
  let old_consumers :=
    <[dres_image_ref before :=
        default [] (rs_old_consumers st !! dres_image_ref before) ++ [rs_index st]]>
      (rs_old_consumers st) in
  fail_if (combined_change before after)
    "VM_RECONCILE_COMBINED_IMAGE_AND_CONFIG_UNSUPPORTED" ;;
  selector ← ok_or (dres_resource after) "VM_RECONCILE_RESOURCE_MISSING";
  '(resource_id, resource_kind) ←
    reconcile_target host nodes selector (policy_change before after);
  Ok {| rs_index := S (rs_index st);
        rs_old_consumers := old_consumers;
        rs_resources := rs_resources st ++ [{|
          change_resource := dres_resource after;
          change_change := as_i32 (policy_change before after);
          change_expected_image_ref := dres_image_ref after;
          change_expected_config_template_sha256 := dres_config_template_sha256 after;
          change_resource_id := resource_id;
          change_resource_kind := as_i32 resource_kind
        |}] |}.

(** [&desired.resources[index].image_ref]: in range, see [reconcile_indices]. *)
Definition image_at (rows : list FleetVmDesiredResource) (i : nat) : string :=
  match rows !! i with Some r => dres_image_ref r | None => "" end.

(** The check of one entry of [old_consumers] *)
Definition shared_image_partial (desired : FleetVmDesiredGraph) (consumers : list nat)
    : bool :=
  (1 <? length consumers)%nat
  && negb (size (list_to_set (C:=gset string)
                   (image_at (graph_resources desired) <$> consumers)) =? 1)%nat.

Definition propose_vm_graph_reconcile (host : FleetHost)
    (installed desired : FleetVmDesiredGraph) : res FleetVmGraphReconcile :=
  installed_hierarchy ← derive_vm_resource_hierarchy host installed;
  desired_hierarchy ← derive_vm_resource_hierarchy host desired;
  fail_if (negb (length (hier_nodes installed_hierarchy)
                 =? length (hier_nodes desired_hierarchy))%nat)
    "VM_RECONCILE_HIERARCHY_SCOPE_CHANGED" ;;
  fail_if (negb (bool_decide (graph_networks installed = graph_networks desired)))
    "VM_RECONCILE_NETWORK_POLICY_REQUIRES_NATIVE_HANDLER" ;;
  st ← try_fold (reconcile_step host (hier_nodes desired_hierarchy))
    {| rs_index := 0; rs_old_consumers := ∅; rs_resources := [] |}
    (zip (graph_resources installed) (graph_resources desired));
  fail_if (existsb (λ kv, shared_image_partial desired (snd kv))
             (map_to_list (rs_old_consumers st)))
    "VM_RECONCILE_SHARED_IMAGE_PARTIAL_REPLACE" ;;
  Ok {| recon_schema_version := 1;
        recon_machine_id := host_machine_id host;
        recon_resources := rs_resources st;
        recon_owner_attested := false;
        recon_mutation_authorized := false |}.

End Graph.

(** ** Dependency order *)

(** [a] depends directly on [b]. *)
Definition depends_on (rows : list FleetVmDesiredResource) (a b : string) : Prop :=
  ∃ r, r ∈ rows ∧ service_of r = a ∧ b ∈ dres_dependencies r.

Definition acyclic (rows : list FleetVmDesiredResource) : Prop :=
  ∀ a, ¬ tc (depends_on rows) a a.

(** A list in which every service comes after (to the left of) its
    dependencies. *)
Definition topological (rows : list FleetVmDesiredResource) (order : list string) : Prop :=
  ∀ l1 x l2, order = l1 ++ x :: l2 → ∀ y, depends_on rows x y → y ∈ l2.

Section Settle.
Context (rows : list FleetVmDesiredResource).
Hypothesis names_unique : NoDup (service_of <$> rows).

Lemma depends_on_row r y :
  r ∈ rows → depends_on rows (service_of r) y ↔ y ∈ dres_dependencies r.
Proof using names_unique.
  intros Hr. split; [|intros; exists r; auto].
  intros (r' & Hr' & E & Hy). replace r with r'; [done|].
  apply list_elem_of_lookup in Hr as [i Hi], Hr' as [j Hj].
  assert (i = j) as ->; [|congruence].
  eapply (NoDup_lookup _ i j (service_of r)); [done|..];
    rewrite list_lookup_fmap; [by rewrite Hi|by rewrite Hj; simpl; f_equal].
Qed.

Lemma topological_nil : topological rows [].
Proof. intros [] x l2; discriminate. Qed.

Lemma settle_one_topological settled r :
  r ∈ rows → topological rows settled → topological rows (settle_one settled r).
Proof using names_unique.
  intros Hr Ht. unfold settle_one. destruct (_ && _) eqn:E; [|done].
  rewrite andb_true, forallb_forall in E. destruct E as [_ Hdeps].
  intros [|z l1] x l2 Heq y; simpl in Heq; injection Heq as ? Heq; [|by eapply Ht].
  subst. rewrite depends_on_row by done. intros Hy%list_elem_of_In%Hdeps.
  by apply mem_true in Hy.
Qed.

Lemma settle_one_nodup settled r : NoDup settled → NoDup (settle_one settled r).
Proof.
  unfold settle_one. intros. destruct (_ && _) eqn:E; [|done].
  rewrite andb_true, negb_true, mem_false in E. constructor; naive_solver.
Qed.

Lemma settle_one_cases settled r :
  settle_one settled r = settled ∨ settle_one settled r = service_of r :: settled.
Proof. unfold settle_one. destruct (_ && _); auto. Qed.

Lemma settle_pass_length rs settled :
  (length settled ≤ length (settle_pass rs settled))%nat.
Proof.
  unfold settle_pass. revert settled. induction rs as [|r rs IH]; intros s; simpl; [done|].
  specialize (IH (settle_one s r)).
  destruct (settle_one_cases s r) as [E|E]; rewrite E in *; simpl in *; lia.
Qed.

(** A pass that settles nothing found every resource settled or waiting. *)
Lemma settle_pass_stuck rs settled :
  length (settle_pass rs settled) = length settled →
  settle_pass rs settled = settled ∧ Forall (λ r, settle_one settled r = settled) rs.
Proof.
  unfold settle_pass. revert settled. induction rs as [|r rs IH]; intros s; simpl.
  { intros _. auto. }
  intros Hlen. pose proof (settle_pass_length rs (settle_one s r)) as Hle.
  unfold settle_pass in Hle.
  destruct (settle_one_cases s r) as [E|E]; rewrite E in *.
  - apply IH in Hlen as [? ?]. auto.
  - simpl in Hle. lia.
Qed.

Definition settled_inv (settled : list string) : Prop :=
  topological rows settled ∧ NoDup settled ∧ settled ⊆ (service_of <$> rows).

Lemma settle_pass_inv settled : settled_inv settled → settled_inv (settle_pass rows settled).
Proof using names_unique.
  unfold settle_pass. assert (Hsub : rows ⊆ rows) by done. revert Hsub.
  generalize rows at 1 3. intros rs. revert settled.
  induction rs as [|r rs IH]; intros s Hsub Hs; simpl; [done|].
  apply IH; [set_solver|]. destruct Hs as (Ht & Hn & Hin).
  assert (r ∈ rows) by set_solver.
  split_and!; [by apply settle_one_topological|by apply settle_one_nodup|].
  destruct (settle_one_cases s r) as [->| ->]; [done|].
  intros x [->|?]%elem_of_cons; [by apply list_elem_of_fmap_2|auto].
Qed.

(** Termination: each round settles a service, so that one round more than the
    number of resources is enough. *)
Lemma settle_total fuel settled :
  (length rows - length settled < fuel)%nat → settle fuel rows settled ≠ None.
Proof.
  revert settled. induction fuel as [|fuel IH]; intros s Hf; simpl.
  - lia.
  - destruct (length s <? length rows)%nat eqn:E1; [|done].
    destruct (_ =? _)%nat eqn:E2; [done|]. apply IH.
    pose proof (settle_pass_length rows s).
    apply Nat.eqb_neq in E2. apply Nat.ltb_lt in E1. lia.
Qed.

Lemma settle_sound fuel settled :
  settled_inv settled → settle fuel rows settled = Some (Ok tt) →
  ∃ order, settled_inv order ∧ (length rows ≤ length order)%nat.
Proof using names_unique.
  revert settled. induction fuel as [|fuel IH]; intros s Hs; simpl; [done|].
  destruct (length s <? length rows)%nat eqn:E1.
  - destruct (_ =? _)%nat; [done|]. apply IH. by apply settle_pass_inv.
  - intros _. exists s. split; [done|]. by apply Nat.ltb_ge in E1.
Qed.

Lemma topological_tc order x y l1 l2 :
  topological rows order → order = l1 ++ x :: l2 → tc (depends_on rows) x y → y ∈ l2.
Proof.
  intros Ht E Htc. revert l1 l2 E. induction Htc as [x y Hxy|x y z Hxy Hyz IH]; intros l1 l2 E.
  - by eapply Ht.
  - assert (y ∈ l2) as (l3 & l4 & ->)%list_elem_of_split by (by eapply Ht).
    apply elem_of_app. right. right. eapply (IH (l1 ++ x :: l3) l4).
    by rewrite E, <- app_assoc.
Qed.

Lemma complete_order_acyclic order :
  settled_inv order → (length rows ≤ length order)%nat → acyclic rows.
Proof using names_unique.
  intros (Ht & Hn & Hsub) Hlen a Ha.
  assert (order ≡ₚ service_of <$> rows) as Hperm.
  { apply submseteq_length_Permutation; [by apply NoDup_submseteq|].
    by rewrite length_fmap. }
  assert (a ∈ order) as (l1 & l2 & E)%list_elem_of_split.
  { rewrite Hperm. inversion Ha as [? ? (r & ? & <- & _)|? ? ? (r & ? & <- & _)]; subst;
      by apply list_elem_of_fmap_2. }
  subst order. assert (a ∈ l2) by (by eapply topological_tc).
  apply NoDup_app in Hn as (_ & _ & Hn). inversion Hn; subst. done.
Qed.

Hypothesis deps_registered :
  ∀ r, r ∈ rows → dres_dependencies r ⊆ (service_of <$> rows).

Lemma depends_on_finite x : pred_finite (tc (depends_on rows) x).
Proof using deps_registered.
  exists (service_of <$> rows). intros y Hy.
  induction Hy as [x y (r & Hr & _ & Hy)|]; [by eapply deps_registered|done].
Qed.

(** Stuck with an unsettled service left: following unsettled dependencies never
    ends, so there is a cycle. *)
Lemma stuck_not_acyclic settled :
  settled_inv settled → (length settled < length rows)%nat →
  Forall (λ r, settle_one settled r = settled) rows → ¬ acyclic rows.
Proof using names_unique deps_registered.
  intros (_ & Hn & Hsub) Hlen Hstuck Hac.
  assert (Hno : ∀ x, sn (depends_on rows) x → x ∈ (service_of <$> rows) → x ∈ settled).
  { induction 1 as [x _ IH]. intros (r & -> & Hr)%list_elem_of_fmap.
    rewrite Forall_forall in Hstuck. specialize (Hstuck r Hr). unfold settle_one in Hstuck.
    destruct (mem (service_of r) settled) eqn:Em; [by apply mem_true|].
    assert (Hall : forallb (λ dep, mem dep settled) (dres_dependencies r) = true).
    { apply forallb_forall. intros d Hd%list_elem_of_In. apply mem_true, IH.
      - exists r. auto.
      - by eapply deps_registered. }
    rewrite Hall in Hstuck. simpl in Hstuck.
    apply (f_equal length) in Hstuck. simpl in Hstuck. lia. }
  assert (Hle : (length (service_of <$> rows) ≤ length settled)%nat).
  { apply submseteq_length, NoDup_submseteq; [done|]. intros x Hx. apply Hno; [|done].
    apply tc_finite_sn; [|apply depends_on_finite]. intros y Hy. by apply (Hac y). }
  rewrite length_fmap in Hle. lia.
Qed.

Lemma settle_complete fuel settled e :
  settled_inv settled → settle fuel rows settled = Some (Err e) → ¬ acyclic rows.
Proof using names_unique deps_registered.
  revert settled. induction fuel as [|fuel IH]; intros s Hs; simpl; [done|].
  destruct (length s <? length rows)%nat eqn:E1; [|done].
  destruct (_ =? _)%nat eqn:E2; [|by apply IH, settle_pass_inv].
  intros _. apply Nat.eqb_eq in E2. apply settle_pass_stuck in E2 as [_ Hst].
  apply Nat.ltb_lt in E1. by eapply stuck_not_acyclic.
Qed.

Lemma settled_inv_nil : settled_inv [].
Proof. split_and!; [apply topological_nil|constructor|set_solver]. Qed.

(** The loop decides whether the dependencies are acyclic. *)
Lemma settle_decides :
  (settle (S (length rows)) rows [] = Some (Ok tt) ∧ acyclic rows) ∨
  (∃ e, settle (S (length rows)) rows [] = Some (Err e) ∧ ¬ acyclic rows).
Proof using names_unique deps_registered.
  destruct (settle (S (length rows)) rows []) as [[[]|e]|] eqn:E.
  - left. split; [done|].
    apply settle_sound in E as (order & ? & ?); [|apply settled_inv_nil].
    by eapply complete_order_acyclic.
  - right. exists e. split; [done|]. eapply settle_complete; [|done]. apply settled_inv_nil.
  - exfalso. eapply (settle_total (S (length rows)) []); [simpl; lia|done].
Qed.
End Settle.

(** ** What the checks before the loop establish *)

Section Checks.
Context (host : FleetHost) (graph : FleetVmDesiredGraph).

Lemma has_service_true service :
  has_service host service = true ↔
  service ∈ (sel_compose_service <$> host_vm_containers host).
Proof.
  unfold has_service. rewrite existsb_exists, list_elem_of_fmap. split.
  - intros (x & Hx & E). apply str_eqb_true in E. exists x.
    rewrite list_elem_of_In. auto.
  - intros (x & -> & Hx). exists x. rewrite <- list_elem_of_In. split; [done|].
    by apply str_eqb_true.
Qed.

Lemma check_dependency_Ok service deps dep deps' :
  check_dependency host service deps dep = Ok deps' →
  dep ≠ service ∧ dep ∈ (sel_compose_service <$> host_vm_containers host).
Proof.
  unfold check_dependency. intros Hc. inv_ok Hc. reflect_in Hm.
  rewrite has_service_true in Hm. naive_solver.
Qed.

Lemma check_resource_Ok unique row sel unique' :
  check_resource host graph unique (row, sel) = Ok unique' →
  (sel_compose_service sel ∉ unique ∧ unique' = sel_compose_service sel :: unique) ∧
  dres_resource row = Some sel ∧ image_ref_pinned (dres_image_ref row) = true ∧
  check_config (sel_compose_service sel) (dres_config_template_sha256 row) = Ok tt ∧
  Forall (λ d, d ≠ sel_compose_service sel ∧
               d ∈ (sel_compose_service <$> host_vm_containers host)) (dres_dependencies row).
Proof.
  unfold check_resource. intros Hc. inv_ok Hc. reflect_in Hm.
  split_and!; try tauto.
  eapply try_fold_Forall; [|done]. intros. by eapply check_dependency_Ok.
Qed.

Abbreviation services := (sel_compose_service <$> host_vm_containers host).

Lemma check_members_Ok svcs members ms st' :
  try_fold (check_member host) (members, ms) svcs = Ok st' →
  snd st' = rev svcs ++ ms ∧ (NoDup ms → NoDup (snd st')) ∧ Forall (.∈ services) svcs.
Proof.
  revert members ms. induction svcs as [|s svcs IH]; intros members ms; simpl.
  - intros [= <-]. auto.
  - intros ([members1 ms1] & H1 & H2)%bind_Ok. unfold check_member in H1.
    inv_ok H1. reflect_in Hm. rewrite has_service_true in Hm.
    apply IH in H2 as (E & Hn & Hall). rewrite E in *.
    rewrite <- app_assoc. split; [done|]. split.
    + intros. apply Hn. constructor; naive_solver.
    + constructor; naive_solver.
Qed.

Definition attached (networks : list FleetVmDesiredNetwork) (s : string) : Prop :=
  ∃ n, n ∈ networks ∧ s ∈ dnet_attached_services n.

Lemma check_networks_Ok project nets names ms st' :
  try_fold (check_network host project) (names, ms) nets = Ok st' →
  NoDup ms → ms ⊆ services →
  NoDup (snd st') ∧ snd st' ⊆ services ∧ (∀ s, s ∈ snd st' ↔ s ∈ ms ∨ attached nets s).
Proof.
  revert names ms. induction nets as [|n nets IH]; intros names ms; simpl.
  - intros [= <-] Hn Hs. split_and!; [done..|]. unfold attached. set_solver.
  - intros ([names1 ms1] & H1 & H2)%bind_Ok Hn Hs. unfold check_network in H1.
    inv_ok H1. destruct x0 as [mem1 ms1']. inv_ok H1.
    apply check_members_Ok in Hm0 as (E & Hn1 & Hall). simpl in E, Hn1. subst.
    specialize (Hn1 Hn). rewrite Forall_forall in Hall.
    apply IH in H2 as (? & ? & Hin); [|done|].
    + split_and!; [done..|]. intros s. rewrite Hin. unfold attached.
      rewrite elem_of_app, elem_of_rev. set_solver.
    + intros s. rewrite elem_of_app, elem_of_rev. intros [?|?]; [by apply Hall|by apply Hs].
Qed.

Lemma check_resources_Ok rows sels unique unique' :
  length rows = length sels → NoDup unique →
  try_fold (check_resource host graph) unique (zip rows sels) = Ok unique' →
  dres_resource <$> rows = Some <$> sels ∧
  unique' = rev (sel_compose_service <$> sels) ++ unique ∧ NoDup unique' ∧
  Forall (λ r, image_ref_pinned (dres_image_ref r) = true ∧
    check_config (service_of r) (dres_config_template_sha256 r) = Ok tt ∧
    Forall (λ d, d ≠ service_of r ∧ d ∈ services) (dres_dependencies r)) rows.
Proof.
  revert sels unique. induction rows as [|r rows IH]; intros [|sel sels] unique;
    try discriminate; csimpl; intros Hlen Hu.
  - intros [= <-]. auto.
  - intros (u & H1 & H2)%bind_Ok.
    apply check_resource_Ok in H1 as ((Hx & ->) & Er & ? & ? & ?).
    apply IH in H2 as (E1 & -> & ? & ?); [|lia|by constructor].
    rewrite Er, E1, <- app_assoc. split_and!; try done.
    constructor; [|done]. unfold service_of. rewrite Er. auto.
Qed.
End Checks.

Section ValidGraph.
Context `{Message FleetVmDesiredGraph}.
Context (graph : FleetVmDesiredGraph) (host : FleetHost).

(** Everything an accepted graph satisfies. *)
Record graph_ok : Prop := {
  ok_vm : host_kind host = as_i32 FleetHostKind_Vm;
  ok_machine : graph_machine_id graph = host_machine_id host;
  ok_rows : dres_resource <$> graph_resources graph = Some <$> host_vm_containers host;
  ok_services : service_of <$> graph_resources graph
                = sel_compose_service <$> host_vm_containers host;
  ok_unique : NoDup (service_of <$> graph_resources graph);
  ok_attached s : s ∈ (service_of <$> graph_resources graph) →
                  attached (graph_networks graph) s;
  ok_resources : Forall (λ r, image_ref_pinned (dres_image_ref r) = true ∧
    check_config (service_of r) (dres_config_template_sha256 r) = Ok tt ∧
    Forall (λ d, d ≠ service_of r ∧ d ∈ (service_of <$> graph_resources graph))
      (dres_dependencies r)) (graph_resources graph)
}.

Lemma rows_services (rows : list FleetVmDesiredResource) (sels : list FleetVmContainer) :
  dres_resource <$> rows = Some <$> sels →
  service_of <$> rows = sel_compose_service <$> sels.
Proof.
  revert sels. induction rows as [|r rows IH]; intros [|sel sels] E; try discriminate; [done|].
  simpl in *. injection E as E1 E2. f_equal; [|by apply IH].
  unfold service_of. by rewrite E1.
Qed.

Lemma checks_graph_ok names ms u :
  fail_if (graph_scope_invalid graph host) "VM_GRAPH_SCOPE_INVALID" = Ok tt →
  try_fold (check_network host (first_project host)) ([], []) (graph_networks graph)
    = Ok (names, ms) →
  fail_if (negb (length ms =? length (host_vm_containers host))%nat)
    "VM_GRAPH_NETWORK_MEMBERSHIP_INCOMPLETE" = Ok tt →
  try_fold (check_resource host graph) []
    (zip (graph_resources graph) (host_vm_containers host)) = Ok u →
  graph_ok.
Proof.
  intros E0 E1 E2 E3. unfold graph_scope_invalid in E0.
  rewrite fail_if_Ok in E0, E2. reflect_in E0. reflect_in E2.
  destruct_and! E0.
  apply check_networks_Ok in E1 as (Hn & Hsub & Hatt); [|constructor|set_solver].
  apply check_resources_Ok in E3 as (Er & -> & Hu & HF); [|done|constructor].
  pose proof (rows_services _ _ Er) as Es. rewrite app_nil_r in Hu.
  assert (Hu' : NoDup (sel_compose_service <$> host_vm_containers host)).
  { by rewrite <- Permutation_rev in Hu. }
  split; try done.
  - by rewrite Es.
  - intros s Hs. rewrite Es in Hs. simpl in *.
    assert (ms ≡ₚ sel_compose_service <$> host_vm_containers host) as Hp.
    { apply submseteq_length_Permutation; [by apply NoDup_submseteq|].
      rewrite length_fmap. lia. }
    rewrite <- Hp in Hs. apply Hatt in Hs as [?|?]; [set_solver|done].
  - by rewrite Es.
Qed.

Lemma check_networks_Err project nets st e :
  try_fold (check_network host project) st nets = Err e →
  e = "VM_GRAPH_NETWORK_SCOPE_INVALID" ∨ e = "VM_GRAPH_NETWORK_MEMBERSHIP_INVALID".
Proof.
  intros ([names ms] & n & _ & Hn)%try_fold_Err. unfold check_network in Hn.
  rewrite bind_Err, fail_if_Err in Hn. destruct Hn as [[_ <-]|([] & _ & Hn)]; [by left|].
  rewrite bind_Err in Hn. destruct Hn as [Hn|([] & _ & ?)]; [|done].
  apply try_fold_Err in Hn as ([] & s & _ & Hs). unfold check_member in Hs.
  rewrite bind_Err, fail_if_Err in Hs. destruct Hs as [[_ <-]|([] & _ & ?)]; [by right|done].
Qed.

Lemma check_config_Err service config e :
  check_config service config = Err e →
  e ∈ ["VM_GRAPH_CONFIG_MISSING"; "VM_GRAPH_WARP_CONFIG_FOREIGN"; "VM_GRAPH_CONFIG_INVALID"].
Proof.
  unfold check_config. repeat case_match; intros [= <-]; set_solver.
Qed.

Lemma check_resources_Err st ps e :
  try_fold (check_resource host graph) st ps = Err e →
  e ∈ ["VM_GRAPH_RESOURCE_INVALID"; "VM_GRAPH_CONFIG_MISSING";
       "VM_GRAPH_WARP_CONFIG_FOREIGN"; "VM_GRAPH_CONFIG_INVALID";
       "VM_GRAPH_DEPENDENCY_INVALID"].
Proof.
  intros (u & [row sel] & _ & Hn)%try_fold_Err. unfold check_resource in Hn.
  rewrite bind_Err, fail_if_Err in Hn. destruct Hn as [[_ <-]|([] & _ & Hn)]; [set_solver|].
  rewrite bind_Err in Hn. destruct Hn as [Hn%check_config_Err|([] & _ & Hn)]; [set_solver|].
  rewrite bind_Err in Hn. destruct Hn as [Hn|(d & _ & ?)]; [|done].
  apply try_fold_Err in Hn as (ds & d & _ & Hd). unfold check_dependency in Hd.
  rewrite bind_Err, fail_if_Err in Hd.
  destruct Hd as [[_ <-]|([] & _ & ?)]; [set_solver|done].
Qed.

Lemma settle_Err fuel rows settled e :
  settle fuel rows settled = Some (Err e) → e = "VM_GRAPH_DEPENDENCY_CYCLE".
Proof.
  revert settled. induction fuel as [|fuel IH]; intros s; simpl; [done|].
  destruct (_ <? _)%nat; [|done]. destruct (_ =? _)%nat; [by intros [= <-]|apply IH].
Qed.

(** The outcome of the validator: the checks before the loop, then the loop. *)
Lemma validate_graph_cases :
  (∃ e, validate_vm_desired_graph graph host = Err e ∧
     e ∈ ["VM_GRAPH_SCOPE_INVALID"; "VM_GRAPH_NETWORK_SCOPE_INVALID";
          "VM_GRAPH_NETWORK_MEMBERSHIP_INVALID"; "VM_GRAPH_NETWORK_MEMBERSHIP_INCOMPLETE";
          "VM_GRAPH_RESOURCE_INVALID"; "VM_GRAPH_CONFIG_MISSING";
          "VM_GRAPH_WARP_CONFIG_FOREIGN"; "VM_GRAPH_CONFIG_INVALID";
          "VM_GRAPH_DEPENDENCY_INVALID"]) ∨
  (graph_ok ∧ acyclic (graph_resources graph) ∧
   validate_vm_desired_graph graph host = Ok tt) ∨
  (graph_ok ∧ ¬ acyclic (graph_resources graph) ∧
   validate_vm_desired_graph graph host = Err "VM_GRAPH_DEPENDENCY_CYCLE").
Proof.
  unfold validate_vm_desired_graph.
  destruct (fail_if (graph_scope_invalid graph host) _) as [[]|e] eqn:E0; cbn [mbind result_bind].
  2:{ left. apply fail_if_Err in E0 as [_ <-]. set_solver. }
  destruct (try_fold (check_network _ _) _ _) as [[names ms]|e] eqn:E1; cbn [mbind result_bind].
  2:{ left. exists e. split; [done|]. apply check_networks_Err in E1. set_solver. }
  destruct (fail_if (negb _) _) as [[]|e] eqn:E2; cbn [mbind result_bind].
  2:{ left. apply fail_if_Err in E2 as [_ <-]. set_solver. }
  destruct (try_fold (check_resource _ _) _ _) as [u|e] eqn:E3; cbn [mbind result_bind].
  2:{ left. exists e. split; [done|]. apply check_resources_Err in E3. set_solver. }
  right. pose proof (checks_graph_ok _ _ _ E0 E1 E2 E3) as Hok.
  destruct (settle_decides (graph_resources graph)) as [[-> ?]|(e & Es & ?)].
  - apply Hok.
  - intros r Hr. pose proof (ok_resources Hok) as HF. rewrite Forall_forall in HF.
    destruct (HF r Hr) as (_ & _ & Hd). rewrite Forall_forall in Hd.
    intros d Hd'. by apply Hd.
  - by left.
  - right. rewrite Es. apply settle_Err in Es as ->. auto.
Qed.
End ValidGraph.
