(* ===== verification/ResourceGraphFacts.v ===== *)
(** * Properties of the desired resource graph

    Acceptance is acyclicity ([desired_graph_dag]); the projection to a
    hierarchy cannot fail on an accepted graph of a registered host
    ([hierarchy_projection_total]); a derived hierarchy is a tree over unique
    identifiers with registered dependencies and no authority
    ([hierarchy_well_formed]); a reconciliation classifies every resource
    exactly and never splits the consumers of an image
    ([reconcile_exact]). *)

From S2P Require Import Prelude RustStd HostTypes Concrete ResourceGraph.

Section Hierarchy.
Context `{Message FleetVmDesiredGraph} `{Message FleetResourceHierarchy}
  `{Message FleetVmDesiredNetwork} `{Message FleetVmDesiredResource} `{Sha256}.

Lemma validate_graph_Ok graph host :
  validate_vm_desired_graph graph host = Ok tt →
  graph_ok graph host ∧ acyclic (graph_resources graph).
Proof.
  intros E. destruct (validate_graph_cases graph host) as [(e & E' & _)|[?|(_ & _ & E')]];
    [congruence|tauto|congruence].
Qed.

(** The map of services covers every attached service. *)
Lemma service_networks_attached networks s :
  attached networks s → is_Some (service_networks networks !! s).
Proof.
  unfold service_networks. intros (n & Hn & Hs).
  assert (Hin : ∀ svcs (name : string) (m : gmap string string),
    s ∈ svcs ∨ is_Some (m !! s) →
    is_Some (fold_left (λ m service, <[service := name]> m) svcs m !! s)).
  { induction svcs as [|x svcs IH]; intros name m Hx; simpl; [set_solver|].
    apply IH. rewrite elem_of_cons in Hx. destruct (decide (x = s)) as [->|].
    - right. rewrite lookup_insert_eq. eauto.
    - rewrite lookup_insert_ne by done. naive_solver. }
  assert (Hgen : ∀ nets (m : gmap string string), n ∈ nets ∨ is_Some (m !! s) →
    is_Some (fold_left (λ m network, fold_left
      (λ m service, <[service := dnet_network_name network]> m)
      (dnet_attached_services network) m) nets m !! s)).
  { induction nets as [|x nets IH]; intros m Hx; simpl; [set_solver|].
    apply IH. rewrite elem_of_cons in Hx. destruct Hx as [[<-|?]|?]; [|by left|].
    - right. apply Hin. by left.
    - right. apply Hin. by right. }
  apply Hgen. by left.
Qed.

Definition named_selectors (host : FleetHost) : Prop :=
  Forall (λ sel, sel_compose_project sel ≠ "" ∧ sel_compose_service sel ≠ "")
    (host_vm_containers host).

Lemma container_id_total host sel :
  host_kind host = as_i32 FleetHostKind_Vm → named_selectors host →
  sel ∈ host_vm_containers host →
  vm_container_resource_id host sel =
    Ok ("container/" +:+ sel_compose_project sel +:+ "/" +:+ sel_compose_service sel).
Proof.
  intros Hk Hn Hsel. unfold named_selectors in Hn. rewrite Forall_forall in Hn.
  destruct (Hn sel Hsel) as [Hp Hs]. unfold vm_container_resource_id.
  replace (_ || _) with false; [done|]. symmetry. unfold str_empty.
  autorewrite with reflect. tauto.
Qed.

Lemma find_service host d :
  d ∈ (sel_compose_service <$> host_vm_containers host) →
  ∃ sel, List.find (λ v, str_eqb (sel_compose_service v) d) (host_vm_containers host)
         = Some sel ∧ sel ∈ host_vm_containers host.
Proof.
  intros (sel & -> & Hsel)%list_elem_of_fmap.
  destruct (List.find _ _) as [sel'|] eqn:E.
  - exists sel'. split; [done|]. apply List.find_some in E as [? _].
    by apply list_elem_of_In.
  - exfalso. eapply List.find_none in E; [|by apply list_elem_of_In].
    simpl in E. by apply str_eqb_false in E.
Qed.

Lemma container_nodes_total graph host r :
  graph_ok graph host → named_selectors host → r ∈ graph_resources graph →
  ∃ nodes, container_nodes host (service_networks (graph_networks graph)) r = Ok nodes ∧
    length nodes = (1 + (if is_empty (dres_config_template_sha256 r) then 0 else 1))%nat.
Proof.
  intros Hok Hn Hr.
  assert (Hsel : ∃ sel, dres_resource r = Some sel ∧ sel ∈ host_vm_containers host).
  { pose proof (list_elem_of_fmap_2 dres_resource _ _ Hr) as Hs.
    rewrite (ok_rows _ _ Hok) in Hs. by apply list_elem_of_fmap in Hs. }
  destruct Hsel as (sel & Er & Hsel).
  assert (Hatt : is_Some (service_networks (graph_networks graph) !! sel_compose_service sel)).
  { apply service_networks_attached, (ok_attached _ _ Hok).
    rewrite (ok_services _ _ Hok). by apply list_elem_of_fmap_2. }
  destruct Hatt as [network Hnet].
  assert (Hdeps : ∃ ids, try_map (container_dependency host) (dres_dependencies r) = Ok ids).
  { apply try_map_total. pose proof (ok_resources _ _ Hok) as HF.
    rewrite Forall_forall in HF. destruct (HF r Hr) as (_ & _ & Hd).
    eapply Forall_impl; [exact Hd|]. intros d [_ Hin]. rewrite (ok_services _ _ Hok) in Hin.
    apply find_service in Hin as (s & Ef & Hs). unfold container_dependency.
    rewrite Ef. simpl. rewrite container_id_total by (done || apply Hok). eauto. }
  destruct Hdeps as [ids Hids]. unfold container_nodes. rewrite Er. simpl.
  rewrite container_id_total by (done || apply Hok). simpl. rewrite Hnet. simpl.
  rewrite Hids. simpl. eexists. split; [done|].
  by destruct (is_empty _).
Qed.

Lemma concat_nodes_length host networks rows nodes :
  Forall2 (λ r ns, container_nodes host networks r = Ok ns ∧
     length ns = (1 + (if is_empty (dres_config_template_sha256 r) then 0 else 1))%nat)
    rows nodes →
  length (concat nodes) = (length rows + length (List.filter
     (λ r, negb (is_empty (dres_config_template_sha256 r))) rows))%nat.
Proof.
  induction 1 as [|r ns rows nodes [_ Hl] _ IH]; simpl; [done|].
  rewrite length_app, Hl, IH. destruct (is_empty _); simpl; lia.
Qed.

(** On a graph the validator accepts, for a host whose selectors carry a project and a
    service name (every registered host), the projection to hierarchy nodes cannot
    fail: no selector, network or dependency is missing, and it yields exactly the
    number of nodes the hierarchy validator demands. *)
Theorem hierarchy_projection_total graph host :
  validate_vm_desired_graph graph host = Ok tt → named_selectors host →
  ∃ nodes, project_vm_hierarchy_nodes_unchecked host graph = Ok nodes ∧
    length nodes = expected_node_count graph ∧
    first_node_id nodes = vm_host_resource_id host.
Proof.
  intros [Hok _]%validate_graph_Ok Hn.
  unfold project_vm_hierarchy_nodes_unchecked, expected_node_count.
  assert (Hall : Forall (λ r, ∃ ns,
    container_nodes host (service_networks (graph_networks graph)) r = Ok ns ∧
    length ns = (1 + (if is_empty (dres_config_template_sha256 r) then 0 else 1))%nat)
    (graph_resources graph)).
  { apply Forall_forall. intros r Hr. by eapply container_nodes_total. }
  apply Forall_exists_Forall2_l in Hall as [nodes Hnodes].
  assert (Hmap : try_map (container_nodes host (service_networks (graph_networks graph)))
    (graph_resources graph) = Ok nodes).
  { apply try_map_Ok. eapply Forall2_impl; [exact Hnodes|]. naive_solver. }
  rewrite Hmap. cbn [mbind result_bind]. eexists. split; [done|]. split; [|done].
  apply concat_nodes_length in Hnodes. simpl. rewrite length_app, length_fmap, Hnodes. lia.
Qed.

(** C37: the validator of a desired graph terminates within its bound, accepts only
    graphs whose dependencies are acyclic and whose services are distinct and each
    attached to a network, and reports a dependency cycle only when there is one. *)
Theorem desired_graph_dag graph host :
  validate_vm_desired_graph graph host ≠ Err "unreachable: out of fuel" ∧
  (validate_vm_desired_graph graph host = Ok tt →
     acyclic (graph_resources graph) ∧
     NoDup (service_of <$> graph_resources graph) ∧
     ∀ r, r ∈ graph_resources graph → attached (graph_networks graph) (service_of r)) ∧
  (validate_vm_desired_graph graph host = Err "VM_GRAPH_DEPENDENCY_CYCLE" →
     ¬ acyclic (graph_resources graph)).
Proof.
  destruct (validate_graph_cases graph host) as
    [(e & -> & He)|[(Hok & Hac & ->)|(_ & Hac & ->)]].
  - split_and!; [|done|]; intros [= ->]; set_solver.
  - split_and!; [done| |done]. intros _. split_and!; [done|apply Hok|].
    intros r Hr. apply (ok_attached _ _ Hok). by apply list_elem_of_fmap_2.
  - done.
Qed.

(** *** The validator of a hierarchy *)

Lemma check_node_Ok host all_ids seen node seen' :
  check_node host all_ids seen node = Ok seen' →
  (node_resource_id node ∉ seen ∧ seen' = node_resource_id node :: seen) ∧
  (node_parent_resource_id node = "" ∧ node_resource_id node = vm_host_resource_id host ∨
   node_parent_resource_id node ∈ seen) ∧
  (∀ d, d ∈ node_dependency_ids node → d ∈ all_ids ∧ d ≠ node_resource_id node) ∧
  node_owner node = as_i32 (expected_owner node).
Proof.
  unfold check_node. intros Hc. inv_ok Hc. reflect_in Hm.
  split_and!; try tauto.
  - unfold str_empty in Hm0. destruct (str_eqb _ "") eqn:Ep; inv_ok Hm0; reflect_in Hm0.
    + left. apply str_eqb_true in Ep. tauto.
    + right. tauto.
  - intros d Hd. apply for_each_Ok in Hm1. rewrite Forall_forall in Hm1.
    apply Hm1 in Hd. apply fail_if_Ok in Hd. reflect_in Hd. tauto.
Qed.

(** Every node but the root comes after its parent. *)
Definition parents_first (host : FleetHost) (nodes : list FleetResourceNode) : Prop :=
  ∀ pre n post, nodes = pre ++ n :: post →
    node_parent_resource_id n = "" ∧ node_resource_id n = vm_host_resource_id host ∨
    node_parent_resource_id n ∈ (node_resource_id <$> pre).

Lemma check_nodes_Ok host all_ids nodes seen' :
  try_fold (check_node host all_ids) [] nodes = Ok seen' →
  NoDup (node_resource_id <$> nodes) ∧ parents_first host nodes ∧
  Forall (λ n, (∀ d, d ∈ node_dependency_ids n → d ∈ all_ids ∧ d ≠ node_resource_id n) ∧
               node_owner n = as_i32 (expected_owner n)) nodes.
Proof.
  intros E. split_and!.
  - apply (try_fold_seen _ node_resource_id) in E as [-> Hn]; [|by intros ??? [? _]%check_node_Ok|constructor].
    by rewrite app_nil_r, <- Permutation_rev in Hn.
  - revert E. apply (try_fold_prefix _ (λ pre seen,
      seen = rev (node_resource_id <$> pre) ∧ parents_first host pre)).
    + split; [done|]. intros [] ? ?; discriminate.
    + intros pre x s s' _ [-> Hp] ((_ & ->) & Hpar & _)%check_node_Ok.
      split; [by rewrite fmap_app, rev_app_distr|].
      intros pre' n post Heq. destruct post as [|y post _] using rev_ind.
      * apply app_inj_tail in Heq as [-> ->]. by rewrite elem_of_rev in Hpar.
      * rewrite app_comm_cons, app_assoc in Heq. apply app_inj_tail in Heq as [-> _].
        by eapply Hp.
  - eapply try_fold_Forall; [|done]. intros s x s' (_ & _ & ? & ?)%check_node_Ok. auto.
Qed.

(** A derived hierarchy is exactly the projection of its graph, its identifiers are
    unique, every node but the host follows its parent, every dependency is a
    registered node other than itself, every owner is the one its kind requires, and
    it carries no attestation and no authority to mutate. *)
Theorem hierarchy_well_formed host desired hierarchy :
  derive_vm_resource_hierarchy host desired = Ok hierarchy →
  project_vm_hierarchy_nodes_unchecked host desired = Ok (hier_nodes hierarchy) ∧
  NoDup (node_resource_id <$> hier_nodes hierarchy) ∧
  parents_first host (hier_nodes hierarchy) ∧
  Forall (λ n, (∀ d, d ∈ node_dependency_ids n →
                  d ∈ (node_resource_id <$> hier_nodes hierarchy) ∧ d ≠ node_resource_id n) ∧
               node_owner n = as_i32 (expected_owner n)) (hier_nodes hierarchy) ∧
  hier_machine_id hierarchy = host_machine_id host ∧
  hier_owner_attested hierarchy = false ∧ hier_mutation_authorized hierarchy = false.
Proof.
  unfold derive_vm_resource_hierarchy, validate_vm_resource_hierarchy. intros Hd.
  inv_ok Hd. inv_ok Hm1. apply check_nodes_Ok in Hm4 as (? & ? & ?).
  split_and!; done.
Qed.

Lemma derive_validates host desired hierarchy :
  derive_vm_resource_hierarchy host desired = Ok hierarchy →
  validate_vm_desired_graph desired host = Ok tt.
Proof. unfold derive_vm_resource_hierarchy. intros Hd. by inv_ok Hd. Qed.

(** *** Reconciliation *)

(** What one entry of a proposal says about the installed and the desired row. *)
Definition exact_change (before after : FleetVmDesiredResource)
    (c : FleetVmGraphResourceChange) : Prop :=
  change_resource c = dres_resource before ∧
  change_expected_image_ref c = dres_image_ref after ∧
  change_expected_config_template_sha256 c = dres_config_template_sha256 after ∧
  dres_resource after = dres_resource before ∧
  dres_dependencies after = dres_dependencies before ∧
  (change_change c = as_i32 FleetVmPolicyChange_NoChange ↔ after = before) ∧
  (change_change c = as_i32 FleetVmPolicyChange_ImageReplaced ↔
     dres_image_ref after ≠ dres_image_ref before) ∧
  (change_change c = as_i32 FleetVmPolicyChange_ConfigTemplateReplaced ↔
     dres_config_template_sha256 after ≠ dres_config_template_sha256 before).

Lemma reconcile_step_Ok host nodes st before after st' :
  reconcile_step host nodes st (before, after) = Ok st' →
  rs_index st' = S (rs_index st) ∧
  rs_old_consumers st' = <[dres_image_ref before :=
    default [] (rs_old_consumers st !! dres_image_ref before) ++ [rs_index st]]>
    (rs_old_consumers st) ∧
  ∃ c, rs_resources st' = rs_resources st ++ [c] ∧ exact_change before after c.
Proof.
  unfold reconcile_step. intros Hs. inv_ok Hs. destruct x2 as [id kind]. inv_ok Hs.
  reflect_in Hm. destruct Hm as [Er Ed].
  split; [done|]. split; [done|]. eexists. split; [done|].
  unfold exact_change, policy_change, combined_change in *; simpl.
  destruct (str_eqb (dres_image_ref before) _) eqn:Ei,
    (bytes_eqb (dres_config_template_sha256 before) _) eqn:Ec; try discriminate Hm0;
    reflect_in Ei; reflect_in Ec;
    split_and!; try done; simpl; split; try done; try congruence.
  intros _. destruct before, after; simpl in *; congruence.
Qed.

(** Invariant of the loop: entries correspond to the pairs visited, and the
    consumers of an image are the positions whose installed row has it. *)
Definition reconcile_inv (pairs : list (FleetVmDesiredResource * FleetVmDesiredResource))
    (st : reconcile_state) : Prop :=
  rs_index st = length pairs ∧
  Forall2 (λ p c, exact_change (fst p) (snd p) c) pairs (rs_resources st) ∧
  ∀ i p, pairs !! i = Some p →
    ∃ l, rs_old_consumers st !! dres_image_ref (fst p) = Some l ∧ i ∈ l.

Lemma reconcile_loop host nodes pairs st' :
  try_fold (reconcile_step host nodes)
    {| rs_index := 0; rs_old_consumers := ∅; rs_resources := [] |} pairs = Ok st' →
  reconcile_inv pairs st'.
Proof.
  apply (try_fold_prefix _ reconcile_inv).
  - split_and!; [done|constructor|]. intros [] ?; discriminate.
  - intros pre [before after] s s' _ (Hi & Hf & Hc)
      (Hi' & Ho & c & Hr & Hex)%reconcile_step_Ok.
    split_and!.
    + rewrite Hi', Hi, length_app. simpl. lia.
    + rewrite Hr. apply Forall2_app; [done|]. by constructor.
    + intros i p Hp. rewrite Ho. apply lookup_app_Some in Hp as [Hp|[Hge Hp]].
      * apply Hc in Hp as (l & Hl & Hin).
        destruct (decide (dres_image_ref before = dres_image_ref (fst p))) as [E|].
        -- rewrite <- E in *. rewrite lookup_insert_eq, Hl. simpl.
           eexists. split; [done|]. apply elem_of_app. by left.
        -- rewrite lookup_insert_ne by done. eauto.
      * apply list_lookup_singleton_Some in Hp as [Hz <-]. simpl.
        rewrite lookup_insert_eq. eexists. split; [done|].
        replace i with (rs_index s) by lia. apply elem_of_app. right. by left.
Qed.

Lemma shared_image_whole desired l i j :
  shared_image_partial desired l = false → i ∈ l → j ∈ l →
  image_at (graph_resources desired) i = image_at (graph_resources desired) j.
Proof.
  unfold shared_image_partial. intros Hs Hi Hj.
  destruct (decide (i = j)) as [->|Hne]; [done|].
  destruct (1 <? length l)%nat eqn:E1; simpl in Hs.
  - rewrite negb_false, Nat.eqb_eq in Hs. apply size_1_elem_of in Hs as [x Hx].
    assert (∀ k, k ∈ l → image_at (graph_resources desired) k = x) as Hk.
    { intros k Hk. apply (elem_of_singleton (C:=gset string)). rewrite <- Hx.
      apply elem_of_list_to_set, list_elem_of_fmap_2. done. }
    by rewrite !Hk.
  - apply Nat.ltb_ge in E1. destruct l as [|a [|b l]]; simpl in E1; [set_solver|set_solver|lia].
Qed.

(** A reconciliation proposal has one entry per resource, in order; identity and
    dependencies are those already installed; an entry says "image replaced",
    "configuration replaced" or "no change" exactly when the image differs, the
    configuration digest differs, or the rows are equal; services that shared an
    installed image move to one common image; and the proposal carries neither
    attestation nor authority. *)
Theorem reconcile_exact host installed desired plan :
  propose_vm_graph_reconcile host installed desired = Ok plan →
  graph_networks installed = graph_networks desired ∧
  Forall2 (λ p c, exact_change (fst p) (snd p) c)
    (zip (graph_resources installed) (graph_resources desired)) (recon_resources plan) ∧
  length (recon_resources plan) = length (graph_resources desired) ∧
  (∀ i j bi bj ai aj,
     graph_resources installed !! i = Some bi → graph_resources installed !! j = Some bj →
     graph_resources desired !! i = Some ai → graph_resources desired !! j = Some aj →
     dres_image_ref bi = dres_image_ref bj → dres_image_ref ai = dres_image_ref aj) ∧
  recon_owner_attested plan = false ∧ recon_mutation_authorized plan = false.
Proof.
  unfold propose_vm_graph_reconcile. intros Hp. inv_ok Hp. simpl.
  apply reconcile_loop in Hm3 as (_ & Hf & Hc). reflect_in Hm2.
  assert (Hlen : length (graph_resources installed) = length (graph_resources desired)).
  { apply derive_validates, validate_graph_Ok in Hm as [Hi _], Hm0 as [Hd _].
    apply ok_rows, (f_equal length) in Hi, Hd. rewrite !length_fmap in Hi, Hd. lia. }
  split_and!; try done.
  - apply Forall2_length in Hf. rewrite <- Hf, length_zip. lia.
  - intros i j bi bj ai aj Hbi Hbj Hai Haj E.
    destruct (Hc i (bi, ai)) as (l & Hl & Hi); [by apply lookup_zip_with_Some; eauto 6|].
    destruct (Hc j (bj, aj)) as (l' & Hl' & Hj); [by apply lookup_zip_with_Some; eauto 6|].
    simpl in *. rewrite <- E in Hl'. assert (l' = l) as -> by congruence.
    assert (Hs : shared_image_partial desired l = false).
    { apply not_true_iff_false. intros Ht. apply not_true_iff_false in Hm4. apply Hm4.
      apply existsb_exists. exists (dres_image_ref bi, l). split; [|done].
      apply list_elem_of_In, elem_of_map_to_list. done. }
    pose proof (shared_image_whole _ _ _ _ Hs Hi Hj) as Him.
    unfold image_at in Him. by rewrite Hai, Haj in Him.
Qed.
End Hierarchy.

(** ** Witnesses: two services on one network *)

Module GraphSample.
#[local] Instance any_message A : Message A := null_message A.

Definition gateway : FleetVmContainer :=
  {| sel_container_name := "edge-line1"; sel_compose_project := "edge";
     sel_compose_service := "line1-gateway" |}.
Definition warp : FleetVmContainer :=
  {| sel_container_name := "edge-warp"; sel_compose_project := "edge";
     sel_compose_service := "warp-egress" |}.
Definition host : FleetHost := {|
  host_machine_id := "vm-1"; host_kind := 2; host_owner := Some (Owner_VmMachineId "vm-1");
  host_windows_runner_label := ""; host_desired_spec_path := "infra/hosts/specs/vm-1.textproto";
  host_target := Some {| target_run_state := 2; target_windows_mode := 0 |};
  host_vm_containers := [gateway; warp]; host_native_receipt_public_key := replicate 32 x01;
  host_vm_first_use_credential := None; host_worker_authority_public_key := replicate 32 x02;
  host_vm_provider_spec_path := "" |}.
Definition image (c : ascii) : string :=
  "registry/edge@sha256:" +:+ String.string_of_list_ascii (replicate 64 c).
Definition graph_with (c d : ascii) : FleetVmDesiredGraph := {|
  graph_schema_version := 1; graph_machine_id := "vm-1";
  graph_resources :=
    [{| dres_resource := Some gateway; dres_image_ref := image c;
        dres_dependencies := ["warp-egress"]; dres_config_template_sha256 := replicate 32 x07 |};
     {| dres_resource := Some warp; dres_image_ref := image d; dres_dependencies := [];
        dres_config_template_sha256 := [] |}];
  graph_networks :=
    [{| dnet_compose_project := "edge"; dnet_network_name := "edge_net"; dnet_driver := "bridge";
        dnet_attached_services := ["line1-gateway"; "warp-egress"] |}] |}.
Definition graph := graph_with "a" "a".
Definition cyclic : FleetVmDesiredGraph := {|
  graph_schema_version := 1; graph_machine_id := "vm-1";
  graph_resources :=
    [{| dres_resource := Some gateway; dres_image_ref := image "a";
        dres_dependencies := ["warp-egress"]; dres_config_template_sha256 := replicate 32 x07 |};
     {| dres_resource := Some warp; dres_image_ref := image "a";
        dres_dependencies := ["line1-gateway"]; dres_config_template_sha256 := [] |}];
  graph_networks := graph_networks graph |}.

Example accepts_dag : validate_vm_desired_graph graph host = Ok tt.
Proof. vm_compute. reflexivity. Qed.
Example rejects_cycle :
  validate_vm_desired_graph cyclic host = Err "VM_GRAPH_DEPENDENCY_CYCLE".
Proof. vm_compute. reflexivity. Qed.

(** Witness of [hierarchy_projection_total]. *)
Lemma hierarchy_projection_total_witness :
  ∃ nodes, project_vm_hierarchy_nodes_unchecked host graph = Ok nodes ∧
    length nodes = expected_node_count graph ∧
    first_node_id nodes = vm_host_resource_id host.
Proof.
  apply (hierarchy_projection_total graph host); [vm_compute; reflexivity|].
  repeat constructor; discriminate.
Defined.

Definition hierarchy : FleetResourceHierarchy :=
  match derive_vm_resource_hierarchy host graph with
  | Ok h => h
  | Err _ => Build_FleetResourceHierarchy 0 "" [] true true
  end.

(** Witness of [hierarchy_well_formed]. *)
Lemma hierarchy_well_formed_witness :
  length (hier_nodes hierarchy) = 6%nat ∧
  NoDup (node_resource_id <$> hier_nodes hierarchy).
Proof.
  split; [vm_compute; reflexivity|].
  eapply (hierarchy_well_formed host graph hierarchy). vm_compute. reflexivity.
Defined.

(** Both services ran image "a" and both move to image "b". *)
Definition proposal : FleetVmGraphReconcile :=
  match propose_vm_graph_reconcile host graph (graph_with "b" "b") with
  | Ok p => p
  | Err _ => Build_FleetVmGraphReconcile 0 "" [] true true
  end.

Example rejects_partial_replacement :
  propose_vm_graph_reconcile host graph (graph_with "b" "a")
  = Err "VM_RECONCILE_SHARED_IMAGE_PARTIAL_REPLACE".
Proof. vm_compute. reflexivity. Qed.

(** Witness of [reconcile_exact]. *)
Lemma reconcile_exact_witness :
  map change_change (recon_resources proposal) = [3; 3] ∧
  recon_mutation_authorized proposal = false.
Proof.
  split; [vm_compute; reflexivity|].
  apply (reconcile_exact host graph (graph_with "b" "b") proposal). vm_compute. reflexivity.
Defined.
End GraphSample.
