(* ===== verification/ResourceReport.v ===== *)
(** * The resource report of a VM host

    Models [edge-shared-types/src/host_resources.rs], lines 501-1165: the
    structural validation of the evidence a VM owner reports (credential slot,
    bootstrap phase, process snapshot, network readback, managed objects and
    containers). *)

From S2P Require Import Prelude RustStd RustNet HostTypes ResourceGraph.

(** [code.bytes().all(|b| b.is_ascii_uppercase() || b.is_ascii_digit() || b == b'_')] *)
Definition upper_snake_char (c : ascii) : bool :=
  is_ascii_uppercase c || is_ascii_digit c || one_of "_" c.

(** ** [validate_vm_credential_readback] *)

Definition validate_vm_credential_readback (readback : FleetVmCredentialReadback)
    : res unit :=
  state ← ok_or (try_from (cred_state readback)) "VM_CREDENTIAL_STATE_INVALID";
  let active := cred_active_generation readback in
  let candidate := cred_candidate_generation readback in
  match state with
  | FleetVmCredentialState_ActiveLocalValid =>
      if 0 <? active then Ok tt else Err "VM_CREDENTIAL_READBACK_INCONSISTENT"
  | FleetVmCredentialState_CandidateOnly =>
      if (active =? 0) && (0 <? candidate) then Ok tt
      else Err "VM_CREDENTIAL_READBACK_INCONSISTENT"
  | FleetVmCredentialState_StoreAbsent | FleetVmCredentialState_LegacyPresent
  | FleetVmCredentialState_Unproven =>
      if (active =? 0) && (candidate =? 0) then Ok tt
      else Err "VM_CREDENTIAL_READBACK_INCONSISTENT"
  | FleetVmCredentialState_Unspecified => Err "VM_CREDENTIAL_READBACK_INCONSISTENT"
  end.

(** ** Bootstrap phase *)

Definition vm_bootstrap_next_action (phase : FleetVmBootstrapPhase) : string :=
  match phase with
  | FleetVmBootstrapPhase_Unspecified =>
      "UPDATE_INSTALLED_NATIVE_OWNER_FOR_TYPED_BOOTSTRAP_EVIDENCE"
  | FleetVmBootstrapPhase_TrustUnproven => "ENROLL_TRUST_THROUGH_EXISTING_ROOT_OWNER"
  | FleetVmBootstrapPhase_JournalUnknownNoReplay =>
      "RECONCILE_UNRESOLVED_NATIVE_JOURNAL_READ_ONLY"
  | FleetVmBootstrapPhase_ReceiptKeyGitRegistrationRequired =>
      "REGISTER_NATIVE_RECEIPT_PUBLIC_KEY_IN_PROTECTED_GIT"
  | FleetVmBootstrapPhase_ReceiptKeyMismatchOrUnproven =>
      "VERIFY_NATIVE_RECEIPT_IDENTITY_WITH_ROOT_OWNER"
  | FleetVmBootstrapPhase_WorkerActiveCredentialRequired =>
      "COMPLETE_WORKER_V2_FIRST_USE_ACTIVE_CREDENTIAL_DELIVERY"
  | FleetVmBootstrapPhase_LocalPrerequisitesOnly =>
      "VERIFY_WORKER_SIGNER_NATIVE_RECEIPT_AND_PHYSICAL_STATE"
  | FleetVmBootstrapPhase_FirstUseWorkerSourceUnverified =>
      "VERIFY_GIT_PINNED_WORKER_BUNDLE_DURING_SIGNED_INSTALL"
  | FleetVmBootstrapPhase_FirstUseGitSourceRequired =>
      "PUBLISH_WORKER_BUNDLE_AND_PIN_FIRST_USE_IDENTITY_IN_GIT"
  | FleetVmBootstrapPhase_FirstUseWorkerSourceVerifiedLocal =>
      "REQUEST_FRESH_SIGNED_INSTALL_WITH_INDEPENDENT_NATIVE_RECEIPT"
  | FleetVmBootstrapPhase_FirstUseWorkerSourceMismatch =>
      "RECONCILE_WORKER_BUNDLE_AND_GIT_IDENTITY_WITHOUT_LOCAL_MUTATION"
  | FleetVmBootstrapPhase_FirstUseWorkerSourceUnavailable =>
      "VERIFY_WORKER_ACCESS_OR_GENERATION_READ_ONLY"
  end.

Definition bootstrap_consistent (phase : FleetVmBootstrapPhase) (host : FleetHost)
    (credential : FleetVmCredentialReadback) : bool :=
  let git_key := host_native_receipt_public_key host in
  let git_pinned := (blen git_key =? 32) && any_nonzero git_key in
  let active := (cred_state credential =? as_i32 FleetVmCredentialState_ActiveLocalValid)
                && (0 <? cred_active_generation credential) in
  let absent := cred_state credential =? as_i32 FleetVmCredentialState_StoreAbsent in
  let pinned_first_use :=
    match host_vm_first_use_credential host with Some _ => true | None => false end in
  match phase with
  | FleetVmBootstrapPhase_Unspecified | FleetVmBootstrapPhase_TrustUnproven
  | FleetVmBootstrapPhase_JournalUnknownNoReplay => true
  | FleetVmBootstrapPhase_ReceiptKeyGitRegistrationRequired => is_empty git_key || git_pinned
  | FleetVmBootstrapPhase_ReceiptKeyMismatchOrUnproven => git_pinned
  | FleetVmBootstrapPhase_WorkerActiveCredentialRequired =>
      git_pinned && negb active && negb absent
  | FleetVmBootstrapPhase_LocalPrerequisitesOnly => git_pinned && active
  | FleetVmBootstrapPhase_FirstUseWorkerSourceUnverified
  | FleetVmBootstrapPhase_FirstUseWorkerSourceVerifiedLocal
  | FleetVmBootstrapPhase_FirstUseWorkerSourceMismatch
  | FleetVmBootstrapPhase_FirstUseWorkerSourceUnavailable =>
      git_pinned && absent && pinned_first_use
  | FleetVmBootstrapPhase_FirstUseGitSourceRequired =>
      git_pinned && absent && negb pinned_first_use
  end.

Definition validate_vm_bootstrap_phase (phase : Z) (host : FleetHost)
    (credential : FleetVmCredentialReadback) : res unit :=
  phase ← ok_or (try_from phase) "VM_BOOTSTRAP_PHASE_UNKNOWN";
  fail_if (negb (bootstrap_consistent phase host credential))
    "VM_BOOTSTRAP_PHASE_DEPENDENCY_CONFLICT".

(** ** [validate_vm_process_snapshot] *)

Definition snapshot_scope_invalid (s : FleetVmProcessSnapshot) : bool :=
  let n := Z.of_nat (length (snap_processes s)) in
  (4096 <? n)
  || (snap_observed_count s <? n)
  || negb (Bool.eqb (snap_truncated s) (n <? snap_observed_count s))
  || (negb (snap_procfs_readable s)
      && (negb (is_empty (snap_processes s)) || negb (snap_observed_count s =? 0)))
  || (n <? snap_read_error_count s).

(** One process; the state is [prev] and [errors]. *)
Definition check_process (st : Z * Z) (p : FleetVmProcessEvidence) : res (Z * Z) :=
  let '(prev, errors) := st in
  let ok_state := mem (proc_state_code p)
    ["R"; "S"; "D"; "Z"; "T"; "I"; "X"; "W"; "K"; "P"; "?"] in
  fail_if ((proc_pid p =? 0) || (proc_pid p <=? prev) || negb ok_state)
    "VM_PROCESS_SNAPSHOT_ORDER_OR_STATE_INVALID" ;;
  if str_empty (proc_read_error_code p) then
    fail_if (digest_malformed (proc_command_name_sha256 p)
             || str_eqb (proc_state_code p) "?")
      "VM_PROCESS_SNAPSHOT_COMMAND_PROOF_INVALID" ;;
    Ok (proc_pid p, errors)
  else
    fail_if (negb (mem (proc_read_error_code p)
                     ["STAT_UNAVAILABLE"; "STAT_INVALID"; "METADATA_UNAVAILABLE"])
             || negb (is_empty (proc_command_name_sha256 p))
             || negb (str_eqb (proc_state_code p) "?")
             || negb (proc_parent_pid p =? 0))
      "VM_PROCESS_SNAPSHOT_ERROR_INVALID" ;;
    Ok (proc_pid p, errors + 1).

Definition validate_vm_process_snapshot (s : FleetVmProcessSnapshot) : res unit :=
  fail_if (snapshot_scope_invalid s) "VM_PROCESS_SNAPSHOT_SCOPE_INVALID" ;;
  '(_, errors) ← try_fold check_process (0, 0) (snap_processes s);
  fail_if (negb (errors =? snap_read_error_count s))
    "VM_PROCESS_SNAPSHOT_ERROR_COUNT_INVALID".

(** ** Network readback *)

Definition link_char (c : ascii) : bool := is_ascii_alphanumeric c || one_of "_.-:@" c.

Definition link_malformed (l : Ipv4LinkObservation) : bool :=
  (link_interface_index l =? 0) || str_empty (link_name l) || (64 <? slen (link_name l))
  || negb (str_all link_char (link_name l)).

Definition is_ipv4 (s : string) : bool :=
  match parse_ipv4 s with Some _ => true | None => false end.
Definition is_ip (s : string) : bool :=
  match parse_ip s with Some _ => true | None => false end.

(** [same_family] *)
Definition same_family (family : Z) (value : string) : bool :=
  match try_from family, parse_ip value with
  | Some FleetVmIpFamily_V4, Some (V4 _) => true
  | Some FleetVmIpFamily_V6, Some (V6 _) => true
  | _, _ => false
  end.

Definition is_ip_family (family : Z) : bool :=
  try_from_one_of family [FleetVmIpFamily_V4; FleetVmIpFamily_V6].

Definition prefix_too_long (family prefix : Z) : bool :=
  (family =? as_i32 FleetVmIpFamily_V4) && (32 <? prefix)
  || (family =? as_i32 FleetVmIpFamily_V6) && (128 <? prefix).

Section Network.
Context `{Message FleetVmDualStackNetwork} `{Message Ipv4NetworkObservation}.

Definition dual_scope_invalid (kernel : FleetVmDualStackNetwork) : bool :=
  negb (dual_ipv4_rule_dump_complete kernel)
  || negb (dual_ipv6_rule_dump_complete kernel)
  || (256 <? length (dual_policy_rules kernel))%nat
  || existsb (λ rule, negb (is_ip_family (krule_family rule))
                      || (negb (krule_fw_mark_present rule) && negb (krule_fw_mark rule =? 0)))
       (dual_policy_rules kernel)
  || negb (dual_ipv4_route_dump_complete kernel)
  || negb (dual_ipv6_route_dump_complete kernel)
  || (128 <? length (dual_links kernel))%nat
  || (256 <? length (dual_addresses kernel))%nat
  || (512 <? length (dual_routes kernel))%nat
  || (24576 <? blen (encode_to_vec kernel)).

Definition check_link (links : list Z) (link : Ipv4LinkObservation) : res (list Z) :=
  fail_if (link_malformed link || mem (link_interface_index link) links)
    "VM_DUAL_STACK_LINK_INVALID" ;;
  Ok (link_interface_index link :: links).

Definition validate_vm_dual_stack_network (kernel : FleetVmDualStackNetwork) : res unit :=
  fail_if (dual_scope_invalid kernel) "VM_DUAL_STACK_DUMP_INCOMPLETE_OR_OVERSIZE" ;;
  links ← try_fold check_link [] (dual_links kernel);
  for_each (λ address,
    fail_if (negb (mem (kaddr_interface_index address) links)
             || negb (same_family (kaddr_family address) (kaddr_address address))
             || prefix_too_long (kaddr_family address) (kaddr_prefix_length address))
      "VM_DUAL_STACK_ADDRESS_INVALID") (dual_addresses kernel) ;;
  for_each (λ route,
    fail_if (negb (same_family (kroute_family route) (kroute_destination route))
             || (negb (str_empty (kroute_gateway route))
                 && negb (same_family (kroute_family route) (kroute_gateway route)))
             || (negb (str_empty (kroute_preferred_source route))
                 && negb (same_family (kroute_family route) (kroute_preferred_source route)))
             || prefix_too_long (kroute_family route) (kroute_prefix_length route)
             || (negb (kroute_output_interface_index route =? 0)
                 && negb (mem (kroute_output_interface_index route) links)))
      "VM_DUAL_STACK_ROUTE_INVALID") (dual_routes kernel).

Definition has_link (links : list Ipv4LinkObservation) (index : Z) : bool :=
  existsb (λ l, link_interface_index l =? index) links.

Definition net4_invalid (n : Ipv4NetworkObservation) : bool :=
  (128 <? length (net4_links n))%nat
  || (256 <? length (net4_addresses n))%nat
  || (512 <? length (net4_routes n))%nat
  || existsb link_malformed (net4_links n)
  || existsb (λ a, negb (is_ipv4 (addr4_address a)) || (32 <? addr4_prefix_length a)
                   || negb (has_link (net4_links n) (addr4_interface_index a)))
       (net4_addresses n)
  || existsb (λ r, negb (is_ipv4 (route4_destination r)) || (32 <? route4_prefix_length r)
                   || (negb (route4_output_interface_index r =? 0)
                       && negb (has_link (net4_links n) (route4_output_interface_index r)))
                   || match route4_preferred_source r with
                      | Some source => negb (is_ipv4 source)
                      | None => false
                      end)
       (net4_routes n)
  || (24576 <? blen (encode_to_vec n)).

Definition network_evidence_invalid (network : FleetVmNetworkReadback) : bool :=
  (8 <? length (net_dns_nameservers network))%nat
  || existsb (λ a, negb (is_ip a)) (net_dns_nameservers network)
  || (negb (net_dns_configuration_observed network)
      && negb (is_empty (net_dns_nameservers network)))
  || (negb (net_nft_ruleset_observed network)
      && (negb (is_empty (net_nft_ruleset_sha256 network))
          || negb (net_nft_rule_count network =? 0)))
  || (net_nft_ruleset_observed network && digest_malformed (net_nft_ruleset_sha256 network)).

Definition validate_vm_network_readback (network : FleetVmNetworkReadback) : res unit :=
  fail_if (network_evidence_invalid network) "VM_NETWORK_EVIDENCE_INVALID" ;;
  fail_if (negb (bool_decide (NoDup (net_dns_nameservers network))))
    "VM_NETWORK_DNS_DUPLICATE" ;;
  match net_dual_stack network with
  | Some kernel =>
      fail_if (negb (str_empty (net_dual_stack_error_code network)))
        "VM_DUAL_STACK_CONTRADICTORY_EVIDENCE" ;;
      validate_vm_dual_stack_network kernel
  | None =>
      fail_if (negb (str_empty (net_dual_stack_error_code network))
               && ((96 <? slen (net_dual_stack_error_code network))
                   || negb (str_all upper_snake_char (net_dual_stack_error_code network))))
        "VM_DUAL_STACK_ERROR_CODE_INVALID"
  end ;;
  match net_ipv4 network with
  | Some kernel => fail_if (net4_invalid kernel) "VM_NETWORK_KERNEL_EVIDENCE_INVALID"
  | None => Ok tt
  end.
End Network.

(** ** Container rows *)

Definition valid_vm_policy_error_code (code : string) : bool :=
  negb (str_empty code) && (slen code <=? 128) && starts_with "HOST_" code
  && str_all upper_snake_char code.

Definition valid_container_id (value : string) : bool :=
  (slen value =? 64) && str_all is_ascii_hexdigit value.

Definition config_proof_consistent (row : FleetVmResourceReadback)
    (expected : FleetVmContainer) : bool :=
  let digest_valid := (blen (row_config_sha256 row) =? 32)
                      && any_nonzero (row_config_sha256 row) in
  match try_from (row_config_proof row) with
  | Some FleetVmConfigProof_Unproven => is_empty (row_config_sha256 row)
  | Some FleetVmConfigProof_NotApplicable =>
      str_eqb (sel_compose_service expected) "warp-egress" && is_empty (row_config_sha256 row)
  | Some FleetVmConfigProof_NotRunning =>
      negb (row_running row) && is_empty (row_config_sha256 row)
  | Some FleetVmConfigProof_BoundRunningProcess =>
      is_gateway (sel_compose_service expected) && row_present row && row_ownership_proven row
      && row_running_proven row && row_running row && digest_valid
  | None => false
  end.

(** The state a reason claims *)
Definition reason_state (reason : FleetVmObservedReason) (row : FleetVmResourceReadback)
    : bool :=
  let owned := row_present row && row_ownership_proven row && row_running_proven row in
  match reason with
  | FleetVmObservedReason_ContainerAbsent => negb (row_present row)
  | FleetVmObservedReason_DockerUnavailable
  | FleetVmObservedReason_InspectUnavailable => negb (row_present row)
  | FleetVmObservedReason_ForeignOwner => row_present row && negb (row_ownership_proven row)
  | FleetVmObservedReason_StateUnproven =>
      row_present row && row_ownership_proven row && negb (row_running_proven row)
  | FleetVmObservedReason_Healthy =>
      owned && row_running row && str_eqb (row_health row) "HEALTHY"
  | FleetVmObservedReason_HealthStarting =>
      owned && row_running row && str_eqb (row_health row) "STARTING"
  | FleetVmObservedReason_HealthUnhealthy =>
      owned && row_running row && str_eqb (row_health row) "UNHEALTHY"
  | FleetVmObservedReason_RunningNoHealthcheck | FleetVmObservedReason_HealthUnproven =>
      owned && row_running row && str_empty (row_health row)
  | FleetVmObservedReason_Stopped => owned && negb (row_running row)
  | FleetVmObservedReason_Unspecified => false
  end.

Definition reason_consistent (row : FleetVmResourceReadback) : bool :=
  match try_from (row_observed_reason row) with
  | None | Some FleetVmObservedReason_Unspecified => false
  | Some reason =>
      str_eqb (row_reason_code row)
        (default "" (strip_prefix "FLEET_VM_OBSERVED_REASON_"
                       (FleetVmObservedReason_as_str_name reason)))
      && reason_state reason row
  end.

Definition image_char (c : ascii) : bool := is_ascii_alphanumeric c || one_of "/:._-@" c.

Definition row_evidence_invalid (row : FleetVmResourceReadback) (expected : FleetVmContainer)
    : bool :=
  let unproven_failure := as_i32 FleetVmRuntimeFailureClass_Unproven in
  negb (bool_decide (row_resource row = Some expected))
  || (256 <? slen (row_image row))
  || negb (str_all image_char (row_image row))
  || (32 <? slen (row_health row))
  || negb (str_all (λ c, is_ascii_alphanumeric c || one_of "_" c) (row_health row))
  || (row_present row && negb (row_ownership_proven row)
      && (negb (str_empty (row_container_id row)) || negb (str_empty (row_image row))
          || negb (str_empty (row_health row)) || row_running row || row_running_proven row
          || row_restart_count_proven row))
  || (negb (row_present row)
      && (row_ownership_proven row || row_running_proven row || row_running row))
  || (row_running row && negb (row_running_proven row))
  || (row_ownership_proven row && negb (valid_container_id (row_container_id row)))
  || (negb (row_ownership_proven row) && negb (str_empty (row_container_id row)))
  || (negb (row_restart_count row =? 0) && negb (row_restart_count_proven row))
  || (negb (row_last_exit_code_proven row) && negb (row_last_exit_code row =? 0))
  || (negb (row_oom_killed_proven row) && row_oom_killed row)
  || (negb (row_ownership_proven row)
      && (row_last_exit_code_proven row || row_oom_killed_proven row
          || row_docker_state_error_present row
          || negb (row_runtime_failure_class row =? unproven_failure)))
  || negb (bool_decide (is_Some (try_from (E:=FleetVmRuntimeFailureClass)
                                   (row_runtime_failure_class row))))
  || negb (Bool.eqb (row_docker_state_error_present row)
             (negb (row_runtime_failure_class row =? unproven_failure)))
  || negb (config_proof_consistent row expected)
  || negb (reason_consistent row).

(** ** Managed objects *)

Definition reason_code_malformed (code : string) : bool :=
  str_empty code || (96 <? slen code) || negb (str_all upper_snake_char code).

(** [row.resource_name.starts_with(&format!("sb-{}-", host.machine_id))] and the
    length bound *)
Definition managed_name_foreign (host : FleetHost) (name : string) : bool :=
  negb (starts_with ("sb-" +:+ host_machine_id host +:+ "-") name) || (112 <? slen name).

Definition check_managed_docker (host : FleetHost) (names : list string)
    (row : FleetVmManagedDockerReadback) : res (list string) :=
  fail_if (reason_code_malformed (mdocker_reason_code row)
           || negb (Bool.eqb (mdocker_present row) (mdocker_ownership_proven row))
           || negb (Bool.eqb (mdocker_present row)
                      (negb (is_empty (mdocker_fingerprint_sha256 row))))
           || (negb (is_empty (mdocker_fingerprint_sha256 row))
               && negb (blen (mdocker_fingerprint_sha256 row) =? 32))
           || (mdocker_converged row && negb (starts_with "DESIRED_" (mdocker_reason_code row))))
    "VM_MANAGED_DOCKER_EVIDENCE_INVALID" ;;
  if str_empty (mdocker_resource_name row) then
    fail_if (negb (mdocker_kind row =? 0) || negb (mdocker_desired_state row =? 0)
             || negb (is_empty (mdocker_manifest_sha256 row)) || mdocker_present row
             || mdocker_converged row) "VM_MANAGED_DOCKER_UNSCOPED_EVIDENCE" ;;
    Ok names
  else
    fail_if (managed_name_foreign host (mdocker_resource_name row)
             || mem (mdocker_resource_name row) names
             || negb (blen (mdocker_manifest_sha256 row) =? 32)
             || negb (try_from_one_of (mdocker_kind row)
                        [FleetVmManagedDockerKind_LocalVolume;
                         FleetVmManagedDockerKind_BridgeNetwork;
                         FleetVmManagedDockerKind_Container])
             || negb (try_from_one_of (mdocker_desired_state row)
                        [FleetVmManagedDockerDesiredState_Present;
                         FleetVmManagedDockerDesiredState_Absent;
                         FleetVmManagedDockerDesiredState_Stopped]))
      "VM_MANAGED_DOCKER_RESOURCE_SCOPE_INVALID" ;;
    Ok (mdocker_resource_name row :: names).

(** [row.converged != (row.present && row.reason_code == "DESIRED_PRESENT")] *)
Definition convergence_contradicted (converged present : bool) (code : string) : bool :=
  negb (Bool.eqb converged (present && str_eqb code "DESIRED_PRESENT")).

Definition check_managed_route (host : FleetHost) (names : list string)
    (row : FleetVmManagedKernelRouteReadback) : res (list string) :=
  fail_if (reason_code_malformed (mroute_reason_code row)
           || convergence_contradicted (mroute_converged row) (mroute_present row)
                (mroute_reason_code row)) "VM_MANAGED_ROUTE_EVIDENCE_INVALID" ;;
  if str_empty (mroute_resource_name row) then
    fail_if (negb (mroute_family row =? 0) || negb (mroute_table_id row =? 0)
             || negb (is_empty (mroute_manifest_sha256 row)) || mroute_present row
             || mroute_converged row) "VM_MANAGED_ROUTE_UNSCOPED_EVIDENCE" ;;
    Ok names
  else
    fail_if (managed_name_foreign host (mroute_resource_name row)
             || mem (mroute_resource_name row) names
             || negb (blen (mroute_manifest_sha256 row) =? 32)
             || negb (is_ip_family (mroute_family row))
             || negb ((20000 <=? mroute_table_id row) && (mroute_table_id row <=? 20999)))
      "VM_MANAGED_ROUTE_SCOPE_INVALID" ;;
    Ok (mroute_resource_name row :: names).

Definition check_managed_dns (host : FleetHost) (names : list string)
    (row : FleetVmManagedSystemDnsReadback) : res (list string) :=
  fail_if (reason_code_malformed (mdns_reason_code row)
           || convergence_contradicted (mdns_converged row) (mdns_present row)
                (mdns_reason_code row)) "VM_MANAGED_SYSTEM_DNS_EVIDENCE_INVALID" ;;
  if str_empty (mdns_resource_name row) then
    fail_if (mdns_present row || mdns_converged row
             || negb (is_empty (mdns_manifest_sha256 row)))
      "VM_MANAGED_SYSTEM_DNS_UNSCOPED_EVIDENCE" ;;
    Ok names
  else
    fail_if (managed_name_foreign host (mdns_resource_name row)
             || negb (blen (mdns_manifest_sha256 row) =? 32)
             || mem (mdns_resource_name row) names) "VM_MANAGED_SYSTEM_DNS_SCOPE_INVALID" ;;
    Ok (mdns_resource_name row :: names).

Definition check_managed_firewall (host : FleetHost) (names : list string)
    (row : FleetVmManagedFirewallReadback) : res (list string) :=
  fail_if (reason_code_malformed (mfw_reason_code row)
           || convergence_contradicted (mfw_converged row) (mfw_present row)
                (mfw_reason_code row)) "VM_MANAGED_FIREWALL_EVIDENCE_INVALID" ;;
  if str_empty (mfw_resource_name row) then
    fail_if (mfw_present row || mfw_converged row || negb (is_empty (mfw_manifest_sha256 row)))
      "VM_MANAGED_FIREWALL_UNSCOPED_EVIDENCE" ;;
    Ok names
  else
    fail_if (managed_name_foreign host (mfw_resource_name row)
             || mem (mfw_resource_name row) names
             || negb (blen (mfw_manifest_sha256 row) =? 32))
      "VM_MANAGED_FIREWALL_RESOURCE_SCOPE_INVALID" ;;
    Ok (mfw_resource_name row :: names).

(** ** [validate_vm_resource_report] *)

Definition MAX_VM_RESOURCE_REPORT_BYTES : Z := 32768.

Section Report.
Context `{Message FleetVmDesiredGraph} `{Message FleetResourceHierarchy}
  `{Message FleetVmDesiredNetwork} `{Message FleetVmDesiredResource} `{Sha256}
  `{Message FleetVmDualStackNetwork} `{Message Ipv4NetworkObservation}
  `{Message FleetVmResourceReport}.

Definition report_scope_invalid (report : FleetVmResourceReport) (host : FleetHost) : bool :=
  negb (host_kind host =? as_i32 FleetHostKind_Vm)
  || negb (report_schema_version report =? 2)
  || report_remote_attested report
  || negb (str_eqb (report_machine_id report) (host_machine_id host))
  || (report_observed_at_unix report =? 0)
  || is_empty (host_vm_containers host)
  || negb (length (report_resources report) =? length (host_vm_containers host))%nat
  || (MAX_VM_RESOURCE_REPORT_BYTES <? blen (encode_to_vec report)).

(** The [match policy_status] *)
Definition check_installed_policy (report : FleetVmResourceReport) (host : FleetHost)
    : res unit :=
  status ← ok_or (try_from (report_installed_policy_status report))
    "VM_INSTALLED_POLICY_STATUS_INVALID";
  let has_graph :=
    match report_installed_policy_graph report with Some _ => true | None => false end in
  match status with
  | FleetVmInstalledPolicyStatus_Valid =>
      fail_if (negb (str_empty (report_installed_policy_error_code report)))
        "VM_INSTALLED_POLICY_SUCCESS_WITH_ERROR" ;;
      installed ← ok_or (report_installed_policy_graph report)
        "VM_INSTALLED_POLICY_GRAPH_MISSING";
      derive_vm_resource_hierarchy host installed ;;
      Ok tt
  | FleetVmInstalledPolicyStatus_Unspecified =>
      fail_if (has_graph || negb (str_empty (report_installed_policy_error_code report)))
        "VM_INSTALLED_POLICY_STATUS_UNPROVEN_CONFLICT"
  | FleetVmInstalledPolicyStatus_ComposeInvalid
  | FleetVmInstalledPolicyStatus_ImageInvalid
  | FleetVmInstalledPolicyStatus_NetworkInvalid
  | FleetVmInstalledPolicyStatus_DependencyInvalid
  | FleetVmInstalledPolicyStatus_ConfigInvalid
  | FleetVmInstalledPolicyStatus_OtherInvalid =>
      fail_if (has_graph
               || negb (valid_vm_policy_error_code (report_installed_policy_error_code report)))
        "VM_INSTALLED_POLICY_FAILURE_INVALID"
  end.

Definition check_managed_objects (report : FleetVmResourceReport) (host : FleetHost)
    : res unit :=
  fail_if (64 <? length (report_managed_docker report))%nat
    "VM_MANAGED_DOCKER_READBACK_TOO_MANY" ;;
  try_fold (check_managed_docker host) [] (report_managed_docker report) ;;
  fail_if (32 <? length (report_managed_kernel_routes report))%nat
    "VM_MANAGED_ROUTE_REPORT_OVERSIZE" ;;
  try_fold (check_managed_route host) [] (report_managed_kernel_routes report) ;;
  fail_if (32 <? length (report_managed_system_dns report))%nat
    "VM_MANAGED_SYSTEM_DNS_READBACK_OVERSIZE" ;;
  try_fold (check_managed_dns host) [] (report_managed_system_dns report) ;;
  fail_if (32 <? length (report_managed_firewall report))%nat
    "VM_MANAGED_FIREWALL_READBACK_OVERSIZE" ;;
  try_fold (check_managed_firewall host) [] (report_managed_firewall report) ;;
  Ok tt.

Definition validate_vm_resource_report (report : FleetVmResourceReport) (host : FleetHost)
    : res unit :=
  fail_if (report_scope_invalid report host) "VM_RESOURCE_REPORT_SCOPE_INVALID" ;;
  match report_network report with
  | Some network => validate_vm_network_readback network
  | None => Ok tt
  end ;;
  match report_processes report with
  | Some processes => validate_vm_process_snapshot processes
  | None => Ok tt
  end ;;
  credential ← ok_or (report_credential report) "VM_CREDENTIAL_READBACK_REQUIRED";
  validate_vm_credential_readback credential ;;
  validate_vm_bootstrap_phase (report_bootstrap_phase report) host credential ;;
  check_installed_policy report host ;;
  check_managed_objects report host ;;
  for_each (λ '(row, expected),
    fail_if (row_evidence_invalid row expected) "VM_RESOURCE_REPORT_EVIDENCE_INVALID")
    (zip (report_resources report) (host_vm_containers host)).

Definition decode_vm_resource_report (b : bytes) (host : FleetHost)
    : res FleetVmResourceReport :=
  fail_if (is_empty b || (MAX_VM_RESOURCE_REPORT_BYTES <? blen b))
    "VM_RESOURCE_REPORT_SIZE_INVALID" ;;
  report ← ok_or (decode b) "VM_RESOURCE_REPORT_PROTO_INVALID";
  fail_if (negb (bytes_eqb (encode_to_vec report) b)) "VM_RESOURCE_REPORT_NONCANONICAL" ;;
  validate_vm_resource_report report host ;;
  Ok report.

(** *** What an accepted report establishes about its rows *)

Definition row_explained (row : FleetVmResourceReadback) : Prop :=
  ∃ reason, row_observed_reason row = as_i32 reason ∧
    reason ≠ FleetVmObservedReason_Unspecified ∧ reason_state reason row = true.

Lemma row_evidence_valid row expected :
  row_evidence_invalid row expected = false →
  row_resource row = Some expected ∧ row_explained row.
Proof.
  unfold row_evidence_invalid. intros [Hrow Hreason]%orb_false.
  repeat (apply orb_false in Hrow as [Hrow _]).
  rewrite negb_false in Hrow, Hreason. apply bool_decide_eq_true in Hrow.
  split; [done|]. unfold reason_consistent in Hreason.
  destruct (try_from _) as [reason|] eqn:E; [|done]. apply try_from_Some in E.
  exists reason. split; [done|]. by destruct reason; try discriminate Hreason; apply andb_true in Hreason as [_ ?].
Qed.

Lemma rows_valid rows sels :
  length rows = length sels →
  Forall (λ '(row, expected),
    fail_if (row_evidence_invalid row expected) "VM_RESOURCE_REPORT_EVIDENCE_INVALID" = Ok tt)
    (zip rows sels) →
  row_resource <$> rows = Some <$> sels ∧ Forall row_explained rows.
Proof.
  revert sels. induction rows as [|row rows IH]; intros [|sel sels]; try discriminate;
    [done|]. cbn [zip_with length]. rewrite !fmap_cons.
  intros Hlen [Hrow Hrows]%Forall_cons_iff.
  apply fail_if_Ok, row_evidence_valid in Hrow as [-> ?].
  destruct (IH sels) as [-> ?]; [lia|done|]. split; [done|]. by constructor.
Qed.

Lemma report_rows report host :
  validate_vm_resource_report report host = Ok tt →
  row_resource <$> report_resources report = Some <$> host_vm_containers host ∧
  Forall row_explained (report_resources report) ∧
  host_kind host = as_i32 FleetHostKind_Vm.
Proof.
  unfold validate_vm_resource_report. intros Hr. inv_ok Hr.
  unfold report_scope_invalid in Hm. reflect_in Hm. destruct_and! Hm.
  apply for_each_Ok in Hr.
  assert (Forall (λ '(row, expected),
    fail_if (row_evidence_invalid row expected) "VM_RESOURCE_REPORT_EVIDENCE_INVALID" = Ok tt)
    (zip (report_resources report) (host_vm_containers host))) as Hrows.
  { eapply Forall_impl; [exact Hr|]. by intros []. }
  apply rows_valid in Hrows as [? ?]; [|done]. auto.
Qed.
End Report.
