(* ===== verification/ResourcePlan.v ===== *)
(** * The resource transition plan of a VM host

    Models [edge-shared-types/src/host_resources.rs], lines 1649-1930: one
    non-authorizing proposal per container, its validator, the scope gate of a
    native start, and the "requires attention" predicate. *)

From S2P Require Import Prelude RustStd RustNet HostTypes Concrete ResourceGraph.
From S2P Require Import ResourceGraphFacts ResourceReport.

(** [reason.as_str_name().strip_prefix("FLEET_VM_RESOURCE_REASON_")] *)
Definition resource_reason_code (reason : FleetVmResourceReason) : option string :=
  strip_prefix "FLEET_VM_RESOURCE_REASON_" (FleetVmResourceReason_as_str_name reason).

Section Plan.
Context `{Message FleetVmDesiredGraph} `{Message FleetResourceHierarchy}
  `{Message FleetVmDesiredNetwork} `{Message FleetVmDesiredResource} `{Sha256}
  `{Message FleetVmDualStackNetwork} `{Message Ipv4NetworkObservation}
  `{Message FleetVmResourceReport}.

(** ** [validate_vm_resource_transition_plan] *)

(** The [match reason]; [Unspecified] was rejected before. *)
Definition expected_resource_step (reason : FleetVmResourceReason)
    : res FleetHostPlannedStep :=
  match reason with
  | FleetVmResourceReason_TargetUnsetObserveOnly
  | FleetVmResourceReason_ResourceIdentityOrStateUnproven
  | FleetVmResourceReason_RuntimeHealthOrConfigUnproven
  | FleetVmResourceReason_CredentialDependencyUnproven => Ok FleetHostPlannedStep_Blocked
  | FleetVmResourceReason_AbsentAsDesired
  | FleetVmResourceReason_StoppedAsDesired
  | FleetVmResourceReason_RunningRuntimeOnlyConfigUnproven => Ok FleetHostPlannedStep_Noop
  | FleetVmResourceReason_ContainerAbsentInstallRequired
  | FleetVmResourceReason_FirstUseWorkerVerifiedInstallProposalOnly =>
      Ok FleetHostPlannedStep_Install
  | FleetVmResourceReason_ContainerRunningButTargetStopped => Ok FleetHostPlannedStep_Stop
  | FleetVmResourceReason_ContainerStoppedButTargetRunning => Ok FleetHostPlannedStep_Start
  | FleetVmResourceReason_Unspecified => Err "VM_RESOURCE_PLAN_REASON_UNSPECIFIED"
  end.

Definition check_transition (host : FleetHost) (entry : FleetVmResourceTransition)
    (selector : FleetVmContainer) : res unit :=
  fail_if (negb (bool_decide (trans_resource entry = Some selector)))
    "VM_RESOURCE_PLAN_IDENTITY_INVALID" ;;
  id ← vm_container_resource_id host selector;
  fail_if (negb (str_eqb (trans_resource_id entry) id))
    "VM_RESOURCE_PLAN_IDENTITY_INVALID" ;;
  reason ← ok_or (try_from (trans_reason entry)) "VM_RESOURCE_PLAN_REASON_UNRECOGNIZED";
  fail_if (bool_decide (reason = FleetVmResourceReason_Unspecified))
    "VM_RESOURCE_PLAN_REASON_UNSPECIFIED" ;;
  code ← ok_or (resource_reason_code reason) "VM_RESOURCE_PLAN_REASON_INVALID";
  fail_if (negb (str_eqb (trans_reason_code entry) code))
    "VM_RESOURCE_PLAN_REASON_CODE_MISMATCH" ;;
  expected_step ← expected_resource_step reason;
  fail_if (negb (trans_step entry =? as_i32 expected_step))
    "VM_RESOURCE_PLAN_ACTION_REASON_CONFLICT".

Definition validate_vm_resource_transition_plan (plan : FleetVmResourceTransitionPlan)
    (host : FleetHost) : res unit :=
  fail_if (negb (host_kind host =? as_i32 FleetHostKind_Vm)
           || negb (rplan_schema_version plan =? 1)
           || negb (str_eqb (rplan_machine_id plan) (host_machine_id host))
           || negb (length (rplan_resources plan) =? length (host_vm_containers host))%nat
           || rplan_owner_attested plan
           || rplan_mutation_authorized plan)
    "VM_RESOURCE_PLAN_SCOPE_OR_AUTHORITY_INVALID" ;;
  for_each (λ '(entry, selector), check_transition host entry selector)
    (zip (rplan_resources plan) (host_vm_containers host)).

(** ** [propose_vm_resource_transitions] *)

Definition container_absent (row : FleetVmResourceReadback) : bool :=
  negb (row_present row)
  && (row_observed_reason row =? as_i32 FleetVmObservedReason_ContainerAbsent).

Definition credential_state_is (report : FleetVmResourceReport)
    (state : FleetVmCredentialState) : bool :=
  match report_credential report with
  | Some credential => cred_state credential =? as_i32 state
  | None => false
  end.

(** [host.target.as_ref().and_then(|t| FleetHostRunState::try_from(t.run_state).ok())] *)
Definition desired_run_state (host : FleetHost) : option FleetHostRunState :=
  target ← host_target host; try_from (target_run_state target).

Definition first_use_install_proposal (report : FleetVmResourceReport) : bool :=
  negb (credential_state_is report FleetVmCredentialState_ActiveLocalValid)
  && (report_bootstrap_phase report
      =? as_i32 FleetVmBootstrapPhase_FirstUseWorkerSourceVerifiedLocal)
  && credential_state_is report FleetVmCredentialState_StoreAbsent
  && forallb container_absent (report_resources report).

(** The [match desired] on one row *)
Definition resource_transition (desired : option FleetHostRunState)
    (credential_ready first_use : bool) (row : FleetVmResourceReadback)
    : FleetHostPlannedStep * FleetVmResourceReason :=
  match desired with
  | Some FleetHostRunState_Running =>
      if first_use then
        (FleetHostPlannedStep_Install,
         FleetVmResourceReason_FirstUseWorkerVerifiedInstallProposalOnly)
      else if negb credential_ready then
        (FleetHostPlannedStep_Blocked, FleetVmResourceReason_CredentialDependencyUnproven)
      else if container_absent row then
        (FleetHostPlannedStep_Install, FleetVmResourceReason_ContainerAbsentInstallRequired)
      else if negb (row_present row) || negb (row_ownership_proven row)
              || negb (row_running_proven row) then
        (FleetHostPlannedStep_Blocked, FleetVmResourceReason_ResourceIdentityOrStateUnproven)
      else if negb (row_running row) then
        (FleetHostPlannedStep_Start, FleetVmResourceReason_ContainerStoppedButTargetRunning)
      else if try_from_one_of (row_observed_reason row)
                [FleetVmObservedReason_Healthy; FleetVmObservedReason_RunningNoHealthcheck] then
        (FleetHostPlannedStep_Noop, FleetVmResourceReason_RunningRuntimeOnlyConfigUnproven)
      else
        (FleetHostPlannedStep_Blocked, FleetVmResourceReason_RuntimeHealthOrConfigUnproven)
  | None | Some FleetHostRunState_Unspecified =>
      (FleetHostPlannedStep_Blocked, FleetVmResourceReason_TargetUnsetObserveOnly)
  | Some FleetHostRunState_Stopped =>
      if container_absent row then
        (FleetHostPlannedStep_Noop, FleetVmResourceReason_AbsentAsDesired)
      else if negb (row_present row) || negb (row_ownership_proven row)
              || negb (row_running_proven row) then
        (FleetHostPlannedStep_Blocked, FleetVmResourceReason_ResourceIdentityOrStateUnproven)
      else if row_running row then
        (FleetHostPlannedStep_Stop, FleetVmResourceReason_ContainerRunningButTargetStopped)
      else (FleetHostPlannedStep_Noop, FleetVmResourceReason_StoppedAsDesired)
  end.

(** [.expect("typed reason uses the stable protobuf prefix")]: never fails, see
    [resource_reason_code_total]. *)
Definition propose_row (host : FleetHost) (report : FleetVmResourceReport)
    (row : FleetVmResourceReadback) : res FleetVmResourceTransition :=
  let '(step, reason) := resource_transition (desired_run_state host)
    (credential_state_is report FleetVmCredentialState_ActiveLocalValid)
    (first_use_install_proposal report) row in
  selector ← ok_or (row_resource row) "VM_RESOURCE_PLAN_SELECTOR_MISSING";
  id ← vm_container_resource_id host selector;
  Ok {| trans_resource := row_resource row;
        trans_step := as_i32 step;
        trans_reason_code := default "" (resource_reason_code reason);
        trans_reason := as_i32 reason;
        trans_resource_id := id |}.

Definition propose_vm_resource_transitions (host : FleetHost) (report : FleetVmResourceReport)
    : res FleetVmResourceTransitionPlan :=
  validate_vm_resource_report report host ;;
  resources ← try_map (propose_row host report) (report_resources report);
  let proposed := {|
    rplan_schema_version := 1;
    rplan_machine_id := host_machine_id host;
    rplan_resources := resources;
    rplan_owner_attested := false;
    rplan_mutation_authorized := false
  |} in
  validate_vm_resource_transition_plan proposed host ;;
  Ok proposed.

(** ** [validate_vm_native_start_dag] *)

(** [BTreeMap] of the nodes and of the transitions by identifier; a later entry
    replaces an earlier one. *)
Definition nodes_by_id (nodes : list FleetResourceNode) : gmap string FleetResourceNode :=
  fold_left (λ m n, <[node_resource_id n := n]> m) nodes ∅.
Definition transitions_by_id (entries : list FleetVmResourceTransition)
    : gmap string FleetVmResourceTransition :=
  fold_left (λ m e, <[trans_resource_id e := e]> m) entries ∅.

(** The loop over [node.dependency_ids] of a container to start or install *)
Definition check_start_dependency (host : FleetHost) (nodes : gmap string FleetResourceNode)
    (transitions : gmap string FleetVmResourceTransition) (dependency_id : string)
    : res unit :=
  dependency ← ok_or (nodes !! dependency_id) "VM_START_DAG_DEPENDENCY_UNREGISTERED";
  kind ← ok_or (try_from (node_kind dependency)) "VM_START_DAG_DEPENDENCY_KIND_UNRECOGNIZED";
  if bool_decide (kind = FleetResourceKind_CredentialRef) then
    fail_if (negb (node_owner dependency =? as_i32 FleetResourceOwner_WorkerSecrets)
             || negb (str_eqb (node_resource_id dependency)
                        (vm_worker_credential_resource_id host))
             || negb (str_eqb (node_parent_resource_id dependency) (vm_host_resource_id host)))
      "VM_START_DAG_CREDENTIAL_OWNER_UNPROVEN"
  else
    fail_if (negb (node_owner dependency =? as_i32 FleetResourceOwner_VmRootAgent))
      "VM_START_DAG_DEPENDENCY_OWNER_UNPROVEN" ;;
    match kind with
    | FleetResourceKind_DockerNetwork =>
        fail_if (negb (str_eqb (node_parent_resource_id dependency) (vm_host_resource_id host)))
          "VM_START_DAG_NETWORK_PARENT_UNPROVEN"
    | FleetResourceKind_DockerContainer =>
        upstream ← ok_or (transitions !! dependency_id)
          "VM_START_DAG_CONTAINER_DEPENDENCY_NOT_IN_PLAN";
        step ← ok_or (try_from (trans_step upstream)) "VM_START_DAG_DEPENDENCY_STEP_INVALID";
        match step with
        | FleetHostPlannedStep_Noop | FleetHostPlannedStep_Start => Ok tt
        | _ => Err "VM_START_DAG_UPSTREAM_NOT_READY"
        end
    | _ => Err "VM_START_DAG_DEPENDENCY_KIND_UNSUPPORTED"
    end.

(** One transition; the state is [mutating]. *)
Definition check_start (host : FleetHost) (nodes : gmap string FleetResourceNode)
    (transitions : gmap string FleetVmResourceTransition) (mutating : nat)
    (entry : string * FleetVmResourceTransition) : res nat :=
  let '(resource_id, transition) := entry in
  node ← ok_or (nodes !! resource_id) "VM_START_DAG_RESOURCE_NOT_REGISTERED";
  fail_if (negb (node_kind node =? as_i32 FleetResourceKind_DockerContainer)
           || negb (node_owner node =? as_i32 FleetResourceOwner_VmRootAgent)
           || negb (str_eqb (node_parent_resource_id node) (vm_host_resource_id host))
           || is_empty (node_dependency_ids node)) "VM_START_DAG_OWNER_OR_PARENT_UNPROVEN" ;;
  step ← ok_or (try_from (trans_step transition)) "VM_START_DAG_STEP_INVALID";
  match step with
  | FleetHostPlannedStep_Noop => Ok mutating
  | FleetHostPlannedStep_Start | FleetHostPlannedStep_Install =>
      for_each (check_start_dependency host nodes transitions) (node_dependency_ids node) ;;
      Ok (S mutating)
  | _ => Err "VM_START_DAG_ACTION_NOT_START"
  end.

(** [for (id, t) in &transitions] visits the keys in increasing order. *)
Definition entry_leb (a b : string * FleetVmResourceTransition) : bool :=
  str_leb (fst a) (fst b).

Definition validate_vm_native_start_dag (host : FleetHost)
    (installed_policy : FleetVmDesiredGraph) (plan : FleetVmResourceTransitionPlan)
    : res unit :=
  validate_vm_resource_transition_plan plan host ;;
  hierarchy ← derive_vm_resource_hierarchy host installed_policy;
  let nodes := nodes_by_id (hier_nodes hierarchy) in
  let transitions := transitions_by_id (rplan_resources plan) in
  fail_if (negb (size transitions =? length (graph_resources installed_policy))%nat)
    "VM_START_DAG_SCOPE_INCOMPLETE" ;;
  mutating ← try_fold (check_start host nodes transitions) 0%nat
    (sort_by entry_leb (map_to_list transitions));
  fail_if (mutating =? 0)%nat "VM_START_DAG_NO_MUTATION".

Definition vm_resource_requires_attention (transition : FleetVmResourceTransition) : bool :=
  negb (trans_step transition =? as_i32 FleetHostPlannedStep_Noop)
  || (trans_reason transition
      =? as_i32 FleetVmResourceReason_RunningRuntimeOnlyConfigUnproven).
End Plan.

(** ** Properties *)

Lemma resource_reason_code_total reason :
  resource_reason_code reason = Some (default "" (resource_reason_code reason)).
Proof. by destruct reason. Qed.

(** The step always matches the reason. *)
Lemma resource_transition_step desired ready first_use row :
  let '(step, reason) := resource_transition desired ready first_use row in
  expected_resource_step reason = Ok step ∧ reason ≠ FleetVmResourceReason_Unspecified.
Proof. unfold resource_transition. repeat case_match; simplify_eq; done. Qed.

Section PlanFacts.
Context `{Message FleetVmDesiredGraph} `{Message FleetResourceHierarchy}
  `{Message FleetVmDesiredNetwork} `{Message FleetVmDesiredResource} `{Sha256}
  `{Message FleetVmDualStackNetwork} `{Message Ipv4NetworkObservation}
  `{Message FleetVmResourceReport}.

Lemma propose_row_total host report row sel :
  host_kind host = as_i32 FleetHostKind_Vm → named_selectors host →
  sel ∈ host_vm_containers host → row_resource row = Some sel →
  ∃ entry, propose_row host report row = Ok entry ∧ check_transition host entry sel = Ok tt.
Proof.
  intros Hk Hn Hsel Er. unfold propose_row.
  pose proof (resource_transition_step (desired_run_state host)
    (credential_state_is report FleetVmCredentialState_ActiveLocalValid)
    (first_use_install_proposal report) row) as Hstep.
  destruct (resource_transition _ _ _ row) as [step reason]. destruct Hstep as [Hstep Hr].
  rewrite Er. cbn [mbind result_bind ok_or].
  pose proof (container_id_total host sel Hk Hn Hsel) as Hid. rewrite Hid.
  cbn [mbind result_bind]. eexists. split; [done|].
  unfold check_transition. cbn [trans_resource trans_resource_id trans_reason trans_reason_code
    trans_step]. rewrite bool_decide_true, Hid by done.
  cbn [fail_if negb mbind result_bind]. rewrite (proj2 (str_eqb_true _ _) eq_refl).
  cbn [fail_if negb mbind result_bind]. rewrite try_from_as_i32.
  cbn [ok_or mbind result_bind]. rewrite bool_decide_false by done.
  cbn [fail_if mbind result_bind]. rewrite resource_reason_code_total.
  cbn [ok_or mbind result_bind default from_option id].
  rewrite (proj2 (str_eqb_true _ _) eq_refl). cbn [fail_if negb mbind result_bind].
  rewrite Hstep. cbn [mbind result_bind]. by rewrite Z.eqb_refl.
Qed.

Lemma propose_rows_total host report rows sels :
  host_kind host = as_i32 FleetHostKind_Vm → named_selectors host →
  sels ⊆ host_vm_containers host → row_resource <$> rows = Some <$> sels →
  ∃ entries, try_map (propose_row host report) rows = Ok entries ∧
    length entries = length sels ∧
    Forall (λ '(entry, sel), check_transition host entry sel = Ok tt) (zip entries sels).
Proof.
  intros Hk Hn. revert sels. induction rows as [|row rows IH]; intros [|sel sels] Hsub E;
    try discriminate; [by exists []|].
  rewrite !fmap_cons in E. injection E as Er Ers.
  destruct (propose_row_total host report row sel) as (entry & He & Hc); [done..|set_solver|done|].
  destruct (IH sels) as (entries & Hes & Hl & Hcs); [set_solver|done|].
  exists (entry :: entries). cbn [try_map]. rewrite He. cbn [mbind result_bind].
  rewrite Hes. cbn [mbind result_bind length zip_with].
  split; [done|]. split; [lia|]. by constructor.
Qed.

(** For every accepted report of a registered VM host the resource planner returns a
    plan: each proposal it builds passes the plan validator, so the planner never
    rejects its own output. *)
Theorem resource_plan_total host report :
  validate_vm_resource_report report host = Ok tt → named_selectors host →
  ∃ plan, propose_vm_resource_transitions host report = Ok plan ∧
    validate_vm_resource_transition_plan plan host = Ok tt.
Proof.
  intros Hr Hn. pose proof (report_rows _ _ Hr) as (Hrows & _ & Hk).
  destruct (propose_rows_total host report (report_resources report)
    (host_vm_containers host)) as (entries & Hes & Hl & Hc); [done..|].
  unfold propose_vm_resource_transitions. rewrite Hr, Hes. cbn [mbind result_bind].
  match goal with |- context [validate_vm_resource_transition_plan ?p _] => set (plan := p) end.
  assert (Hv : validate_vm_resource_transition_plan plan host = Ok tt).
  { unfold validate_vm_resource_transition_plan, plan.
    cbn [rplan_schema_version rplan_machine_id rplan_resources rplan_owner_attested
      rplan_mutation_authorized].
    rewrite Hk, Hl, Z.eqb_refl, Nat.eqb_refl, (proj2 (str_eqb_true _ _) eq_refl).
    apply for_each_Ok. eapply Forall_impl; [exact Hc|]. by intros []. }
  exists plan. by rewrite Hv.
Qed.

(** A proposed resource plan carries no authority and its entries are those of the
    decision table. A stopped (or unset) target never starts or installs a container,
    and a running target without an active credential proposes nothing but a block,
    unless every container is proven absent, the store is absent and the pinned
    first-use source was verified. *)
Theorem resource_plan_safe host report plan :
  propose_vm_resource_transitions host report = Ok plan →
  rplan_owner_attested plan = false ∧ rplan_mutation_authorized plan = false ∧
  length (rplan_resources plan) = length (report_resources report) ∧
  Forall (λ entry,
    (trans_step entry = as_i32 FleetHostPlannedStep_Start ∨
     trans_step entry = as_i32 FleetHostPlannedStep_Install →
       desired_run_state host = Some FleetHostRunState_Running ∧
       (credential_state_is report FleetVmCredentialState_ActiveLocalValid = true ∨
        Forall (λ row, row_present row = false) (report_resources report) ∧
        report_bootstrap_phase report
        = as_i32 FleetVmBootstrapPhase_FirstUseWorkerSourceVerifiedLocal)) ∧
    (trans_step entry = as_i32 FleetHostPlannedStep_Stop →
       desired_run_state host = Some FleetHostRunState_Stopped)) (rplan_resources plan).
Proof.
  unfold propose_vm_resource_transitions. intros Hp. inv_ok Hp.
  cbn [rplan_resources rplan_owner_attested rplan_mutation_authorized].
  apply try_map_Ok in Hm0. split_and!; [done|done|by apply Forall2_length in Hm0|].
  apply (Forall2_Forall_r _ _ _ _ Hm0), Forall_forall. intros row _ entry He.
  unfold propose_row in He.
  destruct (resource_transition _ _ _ row) as [step reason] eqn:Et. inv_ok He.
  cbn [trans_step]. change (FleetHostPlannedStep_as_i32 step) with (as_i32 step).
  rewrite !as_i32_inj. unfold resource_transition in Et.
  assert (Hfirst : first_use_install_proposal report = true →
    Forall (λ row, row_present row = false) (report_resources report) ∧
    report_bootstrap_phase report
    = as_i32 FleetVmBootstrapPhase_FirstUseWorkerSourceVerifiedLocal).
  { unfold first_use_install_proposal. rewrite !andb_true, Z.eqb_eq.
    intros [[[_ ?] _] Hall]. split; [|done]. apply Forall_forall. intros r Hr.
    rewrite forallb_forall in Hall. apply list_elem_of_In, Hall in Hr.
    apply andb_true in Hr as [Hr _]. by apply negb_true in Hr. }
  repeat case_match; simplify_eq; split; intros Hst; try discriminate Hst;
    try (destruct Hst as [Hst|Hst]; discriminate Hst); try done;
    split; try done; try (right; by apply Hfirst); left;
    (match goal with Hc : negb ?b = false |- ?b = true => by apply negb_false in Hc end).
Qed.


(** *** The start gate *)

Lemma fold_insert_Some {A} (key : A → string) l (m : gmap string A) id x :
  (∀ i k, m !! i = Some k → key k = i) →
  fold_left (λ m a, <[key a := a]> m) l m !! id = Some x →
  (x ∈ l ∨ m !! id = Some x) ∧ key x = id.
Proof.
  revert m. induction l as [|y l IH]; intros m Hm; simpl; [eauto|].
  intros Hl. destruct (IH (<[key y := y]> m)) as [[?|Hx] ?]; [|done|..].
  - intros i k [[<- <-]|[? Hk]]%lookup_insert_Some; eauto.
  - split; [left; by right|done].
  - apply lookup_insert_Some in Hx as [[_ <-]|[_ ?]]; split; eauto. left. by left.
Qed.

Lemma nodes_by_id_Some nodes id n :
  nodes_by_id nodes !! id = Some n → n ∈ nodes ∧ node_resource_id n = id.
Proof.
  intros [[?|Hl] ?]%fold_insert_Some; [done|by rewrite lookup_empty in Hl|].
  intros i k Hl. by rewrite lookup_empty in Hl.
Qed.

Lemma transitions_by_id_Some entries id e :
  transitions_by_id entries !! id = Some e → e ∈ entries ∧ trans_resource_id e = id.
Proof.
  intros [[?|Hl] ?]%fold_insert_Some; [done|by rewrite lookup_empty in Hl|].
  intros i k Hl. by rewrite lookup_empty in Hl.
Qed.

Definition mutates (e : FleetVmResourceTransition) : Prop :=
  trans_step e = as_i32 FleetHostPlannedStep_Start ∨
  trans_step e = as_i32 FleetHostPlannedStep_Install.

(** What the gate guarantees about the dependencies of a node. *)
Definition dependencies_ready (host : FleetHost) (nodes : list FleetResourceNode)
    (entries : list FleetVmResourceTransition) (n : FleetResourceNode) : Prop :=
  ∀ d, d ∈ node_dependency_ids n → ∃ dep, dep ∈ nodes ∧ node_resource_id dep = d ∧
    (node_kind dep = as_i32 FleetResourceKind_CredentialRef ∧
       d = vm_worker_credential_resource_id host ∨
     node_kind dep = as_i32 FleetResourceKind_DockerNetwork ∨
     node_kind dep = as_i32 FleetResourceKind_DockerContainer ∧
       ∃ up, up ∈ entries ∧ trans_resource_id up = d ∧
         (trans_step up = as_i32 FleetHostPlannedStep_Noop ∨
          trans_step up = as_i32 FleetHostPlannedStep_Start)).

Lemma check_start_dependency_Ok host nodes entries d :
  check_start_dependency host (nodes_by_id nodes) (transitions_by_id entries) d = Ok tt →
  ∃ dep, dep ∈ nodes ∧ node_resource_id dep = d ∧
    (node_kind dep = as_i32 FleetResourceKind_CredentialRef ∧
       d = vm_worker_credential_resource_id host ∨
     node_kind dep = as_i32 FleetResourceKind_DockerNetwork ∨
     node_kind dep = as_i32 FleetResourceKind_DockerContainer ∧
       ∃ up, up ∈ entries ∧ trans_resource_id up = d ∧
         (trans_step up = as_i32 FleetHostPlannedStep_Noop ∨
          trans_step up = as_i32 FleetHostPlannedStep_Start)).
Proof.
  unfold check_start_dependency. intros Hc. inv_ok Hc.
  apply nodes_by_id_Some in Hm as [Hin Hid]. apply try_from_Some in Hm0.
  exists x. split; [done|]. split; [done|].
  case_bool_decide as Hk; subst.
  - left. inv_ok Hc. reflect_in Hc. split; [done|]. tauto.
  - inv_ok Hc. destruct x0; try discriminate; [by right; left|]. right; right.
    inv_ok Hc. apply transitions_by_id_Some in Hm1 as [? ?]. apply try_from_Some in Hm2.
    split; [done|]. exists x0. destruct x1; try discriminate; eauto.
Qed.

Lemma check_start_Ok host nodes entries k e k' :
  check_start host (nodes_by_id nodes) (transitions_by_id entries) k
    (trans_resource_id e, e) = Ok k' →
  ∃ n, n ∈ nodes ∧ node_resource_id n = trans_resource_id e ∧
    node_kind n = as_i32 FleetResourceKind_DockerContainer ∧
    (trans_step e = as_i32 FleetHostPlannedStep_Noop ∧ k' = k ∨
     mutates e ∧ k' = S k ∧ dependencies_ready host nodes entries n).
Proof.
  unfold check_start. intros Hc. inv_ok Hc. apply nodes_by_id_Some in Hm as [? ?].
  apply try_from_Some in Hm1. reflect_in Hm0. exists x.
  split_and!; try tauto.
  destruct x1; try discriminate; inv_ok Hc; [by left|..]; right;
    (split; [unfold mutates; auto|]); split; try done;
    match goal with Hf : for_each _ _ = Ok _ |- _ =>
      apply for_each_Ok in Hf; rewrite Forall_forall in Hf;
      intros d Hd; by apply check_start_dependency_Ok, Hf
    end.
Qed.

Lemma check_starts_Ok host nodes entries es k k' :
  Forall (λ p, fst p = trans_resource_id (snd p)) es →
  try_fold (check_start host (nodes_by_id nodes) (transitions_by_id entries)) k es = Ok k' →
  Forall (λ p, ∃ n, n ∈ nodes ∧ node_resource_id n = trans_resource_id (snd p) ∧
    node_kind n = as_i32 FleetResourceKind_DockerContainer ∧
    (trans_step (snd p) = as_i32 FleetHostPlannedStep_Noop ∨
     mutates (snd p) ∧ dependencies_ready host nodes entries n)) es ∧
  ((k < k')%nat → Exists (λ p, mutates (snd p)) es).
Proof.
  intros Hes. revert k. induction Hes as [|[id e] es Hid _ IH]; intros k; simpl.
  - intros [= ->]. split; [constructor|lia].
  - intros (k1 & H1' & H2')%bind_Ok. simpl in Hid. subst id.
    apply check_start_Ok in H1' as (n & ? & ? & ? & Hcase).
    apply IH in H2' as [? HE]. split.
    + constructor; [|done]. exists n. naive_solver.
    + intros Hlt. apply Exists_cons. destruct Hcase as [[_ ->]|[? _]]; [right; auto|by left].
Qed.

(** A start the gate admits addresses registered Docker containers only, starts or
    installs at least one of them, and starts none before its dependencies: each is a
    registered credential reference of the Worker, a network, or a container the same
    plan leaves running or starts. *)
Theorem native_start_dag_sound host installed plan hierarchy :
  derive_vm_resource_hierarchy host installed = Ok hierarchy →
  validate_vm_native_start_dag host installed plan = Ok tt →
  Forall (λ e, ∃ n, n ∈ hier_nodes hierarchy ∧
    node_resource_id n = trans_resource_id e ∧
    node_kind n = as_i32 FleetResourceKind_DockerContainer ∧
    (trans_step e = as_i32 FleetHostPlannedStep_Noop ∨
     mutates e ∧ dependencies_ready host (hier_nodes hierarchy) (rplan_resources plan) n))
    (snd <$> map_to_list (transitions_by_id (rplan_resources plan))) ∧
  ∃ e, e ∈ rplan_resources plan ∧ mutates e.
Proof.
  intros Hh. unfold validate_vm_native_start_dag. rewrite Hh. intros Hv. inv_ok Hv.
  set (entries := map_to_list (transitions_by_id (rplan_resources plan))) in *.
  assert (Hent : ∀ p, p ∈ entries →
    snd p ∈ rplan_resources plan ∧ fst p = trans_resource_id (snd p)).
  { intros [i e] Hp. unfold entries in Hp. apply elem_of_map_to_list in Hp.
    apply transitions_by_id_Some in Hp as [? <-]. done. }
  pose proof (sort_by_perm entry_leb entries) as Hperm.
  match goal with Hf : try_fold _ _ _ = Ok _ |- _ =>
    apply check_starts_Ok in Hf as [HF HE] end.
  2:{ rewrite Hperm. apply Forall_forall. intros p Hp. by apply Hent. }
  rewrite Hperm in HF, HE. apply Nat.eqb_neq in Hv. split.
  - apply Forall_fmap. exact HF.
  - destruct (proj1 (Exists_exists _ _) (HE ltac:(lia))) as (p & Hp & ?). exists (snd p). split; [|done].
    by apply Hent.
Qed.
End PlanFacts.

(** ** Witnesses: a running egress and a stopped gateway *)

Module PlanSample.
Import GraphSample.
#[local] Instance any_message A : Message A := null_message A.

Definition row (sel : FleetVmContainer) (running : bool) (reason : FleetVmObservedReason)
    (code : string) (proof : FleetVmConfigProof) (id : ascii) : FleetVmResourceReadback := {|
  row_resource := Some sel; row_present := true; row_ownership_proven := true;
  row_running := running; row_running_proven := true;
  row_container_id := String.string_of_list_ascii (replicate 64 id);
  row_image := "registry/edge"; row_health := ""; row_restart_count := 0;
  row_restart_count_proven := false; row_reason_code := code;
  row_config_proof := as_i32 proof; row_config_sha256 := [];
  row_observed_reason := as_i32 reason; row_last_exit_code := 0;
  row_last_exit_code_proven := false; row_oom_killed := false; row_oom_killed_proven := false;
  row_docker_state_error_present := false; row_runtime_failure_class := 0 |}.

Definition report : FleetVmResourceReport := {|
  report_schema_version := 2; report_machine_id := "vm-1"; report_observed_at_unix := 1000;
  report_resources :=
    [row gateway false FleetVmObservedReason_Stopped "STOPPED" FleetVmConfigProof_NotRunning "a";
     row warp true FleetVmObservedReason_RunningNoHealthcheck "RUNNING_NO_HEALTHCHECK"
       FleetVmConfigProof_NotApplicable "b"];
  report_remote_attested := false; report_network := None;
  report_installed_policy_graph := Some graph; report_installed_policy_status := 1;
  report_installed_policy_error_code := "";
  report_credential := Some {| cred_state := 2; cred_active_generation := 3;
                               cred_candidate_generation := 0 |};
  report_bootstrap_phase := 6; report_processes := None; report_managed_docker := [];
  report_managed_kernel_routes := []; report_managed_firewall := [];
  report_managed_system_dns := [] |}.

(** Witness of [resource_plan_total]. *)
Lemma resource_plan_total_witness :
  ∃ plan, propose_vm_resource_transitions host report = Ok plan ∧
    validate_vm_resource_transition_plan plan host = Ok tt.
Proof.
  apply (resource_plan_total host report); [vm_compute; reflexivity|].
  repeat constructor; discriminate.
Defined.

Definition plan : FleetVmResourceTransitionPlan :=
  match propose_vm_resource_transitions host report with
  | Ok p => p
  | Err _ => Build_FleetVmResourceTransitionPlan 0 "" [] true true
  end.

(** Witness of [resource_plan_safe]. *)
Lemma resource_plan_safe_witness :
  map trans_step (rplan_resources plan) = [3; 2] ∧ rplan_mutation_authorized plan = false.
Proof.
  split; [vm_compute; reflexivity|].
  apply (resource_plan_safe host report plan). vm_compute. reflexivity.
Defined.

(** Witness of [native_start_dag_sound]. *)
Lemma native_start_dag_sound_witness :
  validate_vm_native_start_dag host graph plan = Ok tt ∧
  ∃ e, e ∈ rplan_resources plan ∧ mutates e.
Proof.
  split; [vm_compute; reflexivity|].
  apply (native_start_dag_sound host graph plan hierarchy); vm_compute; reflexivity.
Defined.
End PlanSample.
