(* ===== verification/HostRegistry.v ===== *)
(** * The host registry

    Models [edge-shared-types/src/lib.rs], lines 64-258: validation, encoding
    and decoding of the Git-owned registry of managed hosts. *)

From S2P Require Import Prelude RustStd HostTypes Concrete ResourceGraph.
From S2P Require Import ResourceGraphFacts.

(** [byte.is_ascii_alphanumeric() || matches!(byte, b'.' | b'_' | b'-')] *)
Definition token_char (c : ascii) : bool := is_ascii_alphanumeric c || one_of "._-" c.

Definition first_alphanumeric (value : string) : bool :=
  match value with String c _ => is_ascii_alphanumeric c | EmptyString => false end.

Definition host_token (value : string) (max : Z) : bool :=
  negb (str_empty value) && (slen value <=? max) && first_alphanumeric value
  && str_all token_char value.

(** ** The checks of one host, in the order of the loop body *)

Definition owner_selector (kind : FleetHostKind) (owner : option Owner)
    : res (string * string) :=
  match kind, owner with
  | FleetHostKind_Windows, Some (Owner_WindowsRunnerName name) => Ok ("windows", name)
  | FleetHostKind_Vm, Some (Owner_VmMachineId name) => Ok ("vm", name)
  | _, _ => Err "host host owner must match its kind"
  end.

Definition per_host_spec (host : FleetHost) : string :=
  "infra/hosts/specs/" +:+ host_machine_id host +:+ ".textproto".

Definition application_char (c : ascii) : bool :=
  is_ascii_lowercase c || is_ascii_digit c || one_of "-_" c.

Definition spec_path_allowed (kind : FleetHostKind) (host : FleetHost) : bool :=
  let spec := host_desired_spec_path host in
  str_eqb spec (per_host_spec host)
  || match kind with
     | FleetHostKind_Windows => str_eqb spec "infra/production/production.textproto"
     | FleetHostKind_Vm =>
         str_eqb spec "infra/production/production.textproto"
         || (starts_with "infra/application/" spec && ends_with ".json" spec
             && (slen spec <=? 160)
             && str_all application_char
                  (trim_end_matches ".json" (trim_start_matches "infra/application/" spec))
             && negb (str_eqb spec "infra/application/.json"))
     | FleetHostKind_Unspecified => false
     end.

Definition public_key_malformed (key : bytes) : bool :=
  negb (is_empty key) && digest_malformed key.

Definition provider_char (c : ascii) : bool :=
  is_ascii_lowercase c || is_ascii_digit c || one_of "-" c.

(** [provider_spec["infra/vultr/".len()..provider_spec.len() - ".json".len()]] is
    evaluated only after the prefix, the suffix and the length were checked. *)
Definition provider_spec_allowed (host : FleetHost) : bool :=
  let spec := host_vm_provider_spec_path host in
  (starts_with "infra/vultr/" spec && ends_with ".json" spec
   && (slen "infra/vultr/" + slen ".json" <? slen spec) && (slen spec <=? 128)
   && negb (str_contains ".." spec)
   && str_all provider_char
        (str_take (String.length spec - String.length "infra/vultr/" - String.length ".json")
           (str_drop (String.length "infra/vultr/") spec)))
  || str_eqb spec (per_host_spec host).

Definition first_use_malformed (kind : FleetHostKind) (first : FleetVmFirstUseCredential)
    : bool :=
  negb (bool_decide (kind = FleetHostKind_Vm))
  || (first_generation first =? 0)
  || negb (slen (first_bundle_sha256 first) =? 64)
  || negb (str_all is_lower_hex (first_bundle_sha256 first))
  || str_all (one_of "0") (first_bundle_sha256 first).

(** The loop over [host.vm_containers]; the state is [previous] and [services]. *)
Definition check_container (st : option string * list (string * string))
    (resource : FleetVmContainer) : res (option string * list (string * string)) :=
  let '(previous, services) := st in
  let service := (sel_compose_project resource, sel_compose_service resource) in
  fail_if (negb (host_token (sel_container_name resource) 128)
           || negb (host_token (sel_compose_project resource) 128)
           || negb (host_token (sel_compose_service resource) 128)
           || match previous with
              | Some name => str_leb (sel_container_name resource) name
              | None => false
              end
           || mem service services) "HOST_VM_RESOURCE_IDENTITY_INVALID_OR_DUPLICATED" ;;
  Ok (Some (sel_container_name resource), service :: services).

Definition check_target (target : option FleetHostTarget) : res unit :=
  match target with
  | None => Ok tt
  | Some target =>
      run_state ← ok_or (try_from (target_run_state target)) "HOST_TARGET_RUN_STATE_INVALID";
      mode ← ok_or (try_from (target_windows_mode target)) "HOST_TARGET_MODE_INVALID";
      fail_if (bool_decide (run_state = FleetHostRunState_Unspecified))
        "HOST_TARGET_RUN_STATE_REQUIRED" ;;
      fail_if (negb (bool_decide (mode = FleetHostMode_Unspecified)))
        "HOST_WINDOWS_DUPLICATE_GIT_MODE_FORBIDDEN"
  end.

Record registry_state : Set := {
  rg_ids : list string;
  rg_selectors : list (string * string);
  rg_preceding : option string
}.

Definition check_host (st : registry_state) (host : FleetHost) : res registry_state :=
  let id := host_machine_id host in
  fail_if (negb (host_token id 64) || mem id (rg_ids st))
    "host machine_id invalid or duplicated" ;;
  fail_if (match rg_preceding st with Some prior => str_leb id prior | None => false end)
    "host hosts must be sorted by unique machine_id" ;;
  kind ← ok_or (try_from (host_kind host)) "host host kind is invalid";
  '(scope, name) ← owner_selector kind (host_owner host);
  fail_if (negb (host_token name 128) || mem (scope, name) (rg_selectors st))
    "host owner selector invalid or duplicated" ;;
  let selectors := (scope, name) :: rg_selectors st in
  fail_if (negb (spec_path_allowed kind host) || str_contains ".." (host_desired_spec_path host))
    "host desired spec reference invalid for this kind" ;;
  fail_if (public_key_malformed (host_native_receipt_public_key host))
    "HOST_NATIVE_RECEIPT_PUBLIC_KEY_INVALID" ;;
  fail_if (public_key_malformed (host_worker_authority_public_key host))
    "HOST_GIT_WORKER_SIGNER_KEY_INVALID" ;;
  fail_if (negb (str_empty (host_vm_provider_spec_path host))
           && (negb (bool_decide (kind = FleetHostKind_Vm))
               || negb (provider_spec_allowed host)))
    "HOST_VM_PROVIDER_SPEC_REFERENCE_INVALID" ;;
  match host_vm_first_use_credential host with
  | Some first => fail_if (first_use_malformed kind first)
                    "HOST_VM_FIRST_USE_CREDENTIAL_IDENTITY_INVALID"
  | None => Ok tt
  end ;;
  fail_if (negb (bool_decide (kind = FleetHostKind_Vm))
           && negb (is_empty (host_vm_containers host))) "HOST_VM_RESOURCES_ON_NON_VM" ;;
  fail_if (64 <? length (host_vm_containers host))%nat "HOST_VM_RESOURCE_LIMIT_EXCEEDED" ;;
  try_fold check_container (None, []) (host_vm_containers host) ;;
  check_target (host_target host) ;;
  match kind with
  | FleetHostKind_Windows =>
      fail_if (negb (host_token (host_windows_runner_label host) 128)
               || mem ("windows-label", host_windows_runner_label host) selectors)
        "host Windows runner label invalid or duplicated" ;;
      Ok {| rg_ids := id :: rg_ids st;
            rg_selectors := ("windows-label", host_windows_runner_label host) :: selectors;
            rg_preceding := Some id |}
  | FleetHostKind_Vm =>
      fail_if (negb (str_empty (host_windows_runner_label host)))
        "host VM must not carry a Windows runner label" ;;
      Ok {| rg_ids := id :: rg_ids st; rg_selectors := selectors; rg_preceding := Some id |}
  | FleetHostKind_Unspecified => Err "host host kind unspecified"
  end.

Definition validate_host_registry (desired : FleetDesiredState) : res unit :=
  fail_if (negb (registry_schema_version desired =? 1) || is_empty (registry_hosts desired))
    "host registry requires schema_version=1 and registered hosts" ;;
  try_fold check_host {| rg_ids := []; rg_selectors := []; rg_preceding := None |}
    (registry_hosts desired) ;;
  Ok tt.

Section Codec.
Context `{Message FleetDesiredState}.

(** The message of a decoding error is not modelled: only that there is one. *)
Definition decode_host_registry (b : bytes) : res FleetDesiredState :=
  desired ← ok_or (decode b) "host protobuf decode failed";
  validate_host_registry desired ;;
  Ok desired.

Definition encode_host_registry (desired : FleetDesiredState) : res bytes :=
  validate_host_registry desired ;;
  Ok (encode_to_vec desired).
End Codec.

(** ** Properties *)

Lemma host_token_not_empty value max : host_token value max = true → value ≠ "".
Proof. by destruct value. Qed.

Lemma str_leb_false a b : str_leb a b = false → str_ltb b a = true.
Proof. unfold str_ltb. by intros ->. Qed.

Lemma check_containers_named containers st st' :
  try_fold check_container st containers = Ok st' →
  Forall (λ sel, sel_compose_project sel ≠ "" ∧ sel_compose_service sel ≠ "") containers.
Proof.
  apply try_fold_Forall. intros [prev svcs] sel st1. unfold check_container. intros Hc.
  inv_ok Hc. repeat (apply orb_false in Hm as [Hm ?]).
  rewrite negb_false in *. eauto using host_token_not_empty.
Qed.

(** What the loop guarantees of a host it accepts. *)
Record host_ok (host : FleetHost) : Prop := {
  host_ok_id : host_token (host_machine_id host) 64 = true;
  host_ok_owner :
    (host_kind host = as_i32 FleetHostKind_Windows ∧
       ∃ name, host_owner host = Some (Owner_WindowsRunnerName name)) ∨
    (host_kind host = as_i32 FleetHostKind_Vm ∧
       ∃ name, host_owner host = Some (Owner_VmMachineId name));
  host_ok_spec : str_contains ".." (host_desired_spec_path host) = false;
  host_ok_selectors : named_selectors host;
  host_ok_containers : host_kind host ≠ as_i32 FleetHostKind_Vm → host_vm_containers host = [];
  host_ok_target t : host_target host = Some t →
    (target_run_state t = as_i32 FleetHostRunState_Stopped ∨
     target_run_state t = as_i32 FleetHostRunState_Running) ∧
    target_windows_mode t = as_i32 FleetHostMode_Unspecified
}.

Lemma check_target_Ok t :
  check_target (Some t) = Ok tt →
  (target_run_state t = as_i32 FleetHostRunState_Stopped ∨
   target_run_state t = as_i32 FleetHostRunState_Running) ∧
  target_windows_mode t = as_i32 FleetHostMode_Unspecified.
Proof.
  unfold check_target. intros Hc. inv_ok Hc.
  apply try_from_Some in Hm as ->, Hm0 as ->.
  rewrite bool_decide_eq_false in Hm1. rewrite negb_false, bool_decide_eq_true in Hc.
  subst. split; [|done]. destruct x; auto. done.
Qed.

(** The pair under which an owner is recorded *)
Definition selector_of (owner : Owner) : string * string :=
  match owner with
  | Owner_WindowsRunnerName name => ("windows", name)
  | Owner_VmMachineId name => ("vm", name)
  end.

Lemma selector_of_inj o1 o2 : selector_of o1 = selector_of o2 → o1 = o2.
Proof. destruct o1, o2; simpl; congruence. Qed.

Lemma owner_selector_Ok kind owner sel :
  owner_selector kind owner = Ok sel →
  ∃ o, owner = Some o ∧ selector_of o = sel ∧
    match o with
    | Owner_WindowsRunnerName _ => kind = FleetHostKind_Windows
    | Owner_VmMachineId _ => kind = FleetHostKind_Vm
    end.
Proof.
  destruct kind, owner as [[]|]; simpl; intros [= <-]; eexists; eauto.
Qed.

Definition recorded (st : registry_state) (o : Owner) : Prop := selector_of o ∈ rg_selectors st.

Lemma check_host_Ok st host st' :
  check_host st host = Ok st' →
  host_ok host ∧ rg_ids st' = host_machine_id host :: rg_ids st ∧
  host_machine_id host ∉ rg_ids st ∧
  (∀ prior, rg_preceding st = Some prior → str_ltb prior (host_machine_id host) = true) ∧
  rg_preceding st' = Some (host_machine_id host) ∧
  (∃ o, host_owner host = Some o ∧ ¬ recorded st o ∧ recorded st' o) ∧
  (∀ o, recorded st o → recorded st' o).
Proof.
  unfold check_host. intros Hc. inv_ok Hc. destruct x2 as [scope name]. inv_ok Hc.
  apply owner_selector_Ok in Hm2 as (o & Ho & Hsel & Hkind).
  apply orb_false in Hm as [Hid Hfresh], Hm3 as [Hname Hnew], Hm4 as [_ Hspec].
  apply negb_false in Hid. apply mem_false in Hfresh, Hnew.
  apply try_from_Some in Hm1. apply check_containers_named in Hm11.
  assert (Hst' : rg_ids st' = host_machine_id host :: rg_ids st ∧
    rg_preceding st' = Some (host_machine_id host) ∧
    (scope, name) :: rg_selectors st ⊆ rg_selectors st').
  { destruct x1; [done|..]; inv_ok Hc; simpl; set_solver. }
  destruct Hst' as (Hids & Hpre & Hsub).
  split_and!; try done.
  - split; try done.
    + rewrite Hm1, Ho. destruct o; subst; eauto.
    + intros Hk. destruct (is_empty _) eqn:E in Hm9; [by apply is_empty_true|].
      rewrite Hm1, as_i32_inj in Hk. by rewrite bool_decide_false in Hm9.
    + intros t Ht. rewrite Ht in Hm12. by apply check_target_Ok.
  - intros prior Hprior. rewrite Hprior in Hm0. by apply str_leb_false.
  - exists o. unfold recorded. rewrite Hsel. set_solver.
  - unfold recorded. set_solver.
Qed.

Definition id_lt (a b : FleetHost) : Prop :=
  str_ltb (host_machine_id a) (host_machine_id b) = true.

Lemma str_ltb_trans a b c : str_ltb a b = true → str_ltb b c = true → str_ltb a c = true.
Proof.
  unfold str_ltb. rewrite !negb_true. intros Hab Hbc.
  destruct (str_leb c a) eqn:E; [|done]. exfalso.
  destruct (str_leb_total b c) as [?|?]; [|congruence].
  assert (str_leb b a = true) by (by eapply str_leb_trans). congruence.
Qed.

(** State of the loop after the hosts [pre] *)
Definition registry_inv (pre : list FleetHost) (st : registry_state) : Prop :=
  Forall host_ok pre ∧ rg_ids st = rev (host_machine_id <$> pre) ∧
  NoDup (host_machine_id <$> pre) ∧ StronglySorted id_lt pre ∧
  rg_preceding st = host_machine_id <$> last pre ∧
  NoDup (host_owner <$> pre) ∧
  (∀ h o, h ∈ pre → host_owner h = Some o → recorded st o).

Lemma StronglySorted_snoc {A} (R : A → A → Prop) `{!Transitive R} pre x :
  StronglySorted R pre → (∀ y, last pre = Some y → R y x) → StronglySorted R (pre ++ [x]).
Proof.
  induction 1 as [|y pre Hs IH Hall]; intros Hlast; simpl; [repeat constructor|].
  assert (Hyx : R y x).
  { destruct (last pre) as [z|] eqn:E.
    - etrans; [|apply Hlast; by rewrite last_cons, E].
      rewrite Forall_forall in Hall. apply Hall. apply last_Some in E as [l ->]. set_solver.
    - apply last_None in E as ->. by apply Hlast. }
  constructor.
  - apply IH. intros z Hz. apply Hlast. by rewrite last_cons, Hz.
  - apply Forall_app. split; [done|]. by constructor.
Qed.

#[local] Instance id_lt_trans : Transitive id_lt.
Proof. intros a b c. apply str_ltb_trans. Qed.

Lemma registry_loop hosts st' :
  try_fold check_host {| rg_ids := []; rg_selectors := []; rg_preceding := None |} hosts
    = Ok st' → registry_inv hosts st'.
Proof.
  apply (try_fold_prefix _ registry_inv).
  - unfold registry_inv. simpl. split_and!; try constructor; set_solver.
  - intros pre x s s' _ (H1 & H2 & H3 & H4 & H5 & H6 & H7)
      (Hok & Hids & Hnew & Hlt & Hpre & (o & Ho & Hno & Hrec) & Hmono)%check_host_Ok.
    unfold registry_inv. rewrite !fmap_app, last_snoc. simpl.
    rewrite H2, elem_of_rev in Hnew. split_and!.
    + apply Forall_app. split; [done|]. by constructor.
    + rewrite Hids, H2. by rewrite rev_app_distr.
    + apply NoDup_app. split_and!; [done| |repeat constructor; set_solver]. set_solver.
    + apply StronglySorted_snoc; [apply _|done|]. intros y Hy. apply Hlt.
      by rewrite H5, Hy.
    + done.
    + apply NoDup_app. split_and!; [done| |repeat constructor; set_solver].
      intros ow (h & -> & Hh)%list_elem_of_fmap Heq%list_elem_of_singleton.
      apply Hno. rewrite Ho in Heq. by eapply H7.
    + intros h o' [Hh| ->%list_elem_of_singleton]%elem_of_app Ho'; [eauto|].
      rewrite Ho in Ho'. by injection Ho' as <-.
Qed.

Lemma validate_registry_Ok desired :
  validate_host_registry desired = Ok tt → ∃ st, registry_inv (registry_hosts desired) st.
Proof.
  unfold validate_host_registry. intros Hv. inv_ok Hv. eauto using registry_loop.
Qed.

(** An accepted registry lists its hosts in strictly increasing order of machine id,
    no two hosts share an id or an owner, every owner matches the kind of its host,
    only VM hosts have containers, no desired path climbs out of the tree, and every
    target is an explicit STOPPED or RUNNING without a mode. *)
Theorem registry_canonical desired :
  validate_host_registry desired = Ok tt →
  StronglySorted id_lt (registry_hosts desired) ∧
  NoDup (host_machine_id <$> registry_hosts desired) ∧
  NoDup (host_owner <$> registry_hosts desired) ∧
  Forall host_ok (registry_hosts desired).
Proof. intros (st & ? & ? & ? & ? & ? & ? & ?)%validate_registry_Ok. auto. Qed.

(** What the registry encoder accepts, the registry decoder reads back. *)
Theorem registry_roundtrip `{MessageLaws FleetDesiredState R} desired b :
  R desired → encode_host_registry desired = Ok b → decode_host_registry b = Ok desired.
Proof.
  unfold encode_host_registry, decode_host_registry. intros HR Hv. inv_ok Hv.
  rewrite decode_encode by done. simpl. by rewrite Hm.
Qed.

(** ** Witnesses *)

Module RegistrySample.
Definition windows : FleetHost := {|
  host_machine_id := "pc-1"; host_kind := 1;
  host_owner := Some (Owner_WindowsRunnerName "runner-1");
  host_windows_runner_label := "label-1";
  host_desired_spec_path := "infra/production/production.textproto";
  host_target := Some {| target_run_state := 1; target_windows_mode := 0 |};
  host_vm_containers := []; host_native_receipt_public_key := replicate 32 x03;
  host_vm_first_use_credential := None; host_worker_authority_public_key := replicate 32 x02;
  host_vm_provider_spec_path := "" |}.
Definition registry : FleetDesiredState :=
  {| registry_schema_version := 1; registry_hosts := [windows; GraphSample.host] |}.
#[local] Instance registry_message : Message FleetDesiredState := table_message [registry].
#[local] Instance registry_laws : MessageLaws FleetDesiredState (.∈ [registry]) :=
  table_message_laws [registry].

(** Witness of [registry_canonical]. *)
Lemma registry_canonical_witness :
  validate_host_registry registry = Ok tt ∧ Forall host_ok (registry_hosts registry).
Proof.
  split; [vm_compute; reflexivity|].
  apply (registry_canonical registry). vm_compute. reflexivity.
Defined.

(** Witness of [registry_roundtrip]. *)
Lemma registry_roundtrip_witness : decode_host_registry [x01] = Ok registry.
Proof.
  apply (registry_roundtrip registry [x01]).
  - apply list_elem_of_singleton. reflexivity.
  - vm_compute. reflexivity.
Defined.

Example registry_unsorted : is_err (validate_host_registry
  {| registry_schema_version := 1; registry_hosts := [GraphSample.host; windows] |}) = true.
Proof. vm_compute. reflexivity. Qed.
End RegistrySample.
