(* ===== verification/ApplyBundle.v ===== *)
(** * The logical digest of an application bundle

    Models [canonical_apply_bundle_digest] of [edge-shared-types/src/lib.rs],
    lines 2334-2419: the files of an [ApplyBundleRequest] are sorted by scope
    and path, duplicate paths are refused, and the domain-separated,
    length-framed material is hashed.  The digest does not depend on the order
    of the files, and equal digests mean equal bundles unless SHA-256
    collides. *)

From S2P Require Import Prelude RustStd HostTypes Concrete.

(** A file with its scope: 1 stack, 2 host, 3 deployment summary, 4 agent environment *)
Definition entry : Set := (Z * BundleFile)%type.

Definition bundle_id_char (c : ascii) : bool := is_ascii_alphanumeric c || one_of "-_.:" c.

Definition option_list {A} (o : option A) : list A :=
  match o with Some a => [a] | None => [] end.

Definition bundle_entries (request : ApplyBundleRequest) : list entry :=
  (pair 1 <$> apply_stack_files request) ++ (pair 2 <$> apply_host_files request)
  ++ (pair 3 <$> option_list (apply_deployment_summary request))
  ++ (pair 4 <$> option_list (apply_agent_env_file request)).

(** [left.scope.cmp(&right.scope).then_with(|| left.path.cmp(&right.path))] is not
    [Greater] *)
Definition key_leb (a b : Z * string) : bool :=
  (fst a <? fst b) || ((fst a =? fst b) && str_leb (snd a) (snd b)).
Definition entry_key (e : entry) : Z * string := (fst e, file_relative_path (snd e)).
Definition entry_leb (a b : entry) : bool := key_leb (entry_key a) (entry_key b).

(** The loop over [entries.windows(2)] *)
Fixpoint check_windows (es : list entry) : res unit :=
  match es with
  | a :: (b :: _) as es' =>
      fail_if ((fst a =? fst b)
               && str_eqb (file_relative_path (snd a)) (file_relative_path (snd b)))
        ("duplicate bundle path in scope " +:+ dec (fst a) +:+ ": " +:+
         file_relative_path (snd a)) ;;
      check_windows es'
  | _ => Ok tt
  end.

Definition bool_byte (b : bool) : Byte.byte := if b then x01 else x00.

(** [feed_field]: an eight-byte length and the bytes *)
Definition feed_field (b : bytes) : bytes := framed 8 b.

Definition entry_bytes (e : entry) : bytes :=
  [byte_of_Z (fst e)] ++ feed_field (as_bytes (file_relative_path (snd e)))
  ++ [bool_byte (file_executable (snd e)); bool_byte (file_sensitive (snd e))]
  ++ feed_field (file_content (snd e)).

Definition bundle_domain : bytes := as_bytes "sing-box-application-bundle-v1" ++ [x00].

(** Everything the digest context is fed *)
Definition bundle_material (bundle_id : string) (prune : bool) (es : list entry) : bytes :=
  bundle_domain ++ feed_field (as_bytes bundle_id) ++ [bool_byte prune]
  ++ concat (entry_bytes <$> es).

Definition canonical_apply_bundle_digest `{Sha256} (request : ApplyBundleRequest)
    : res string :=
  bundle_id ← ok_or (apply_bundle_id request) "digest-bound bundle requires bundle_id";
  fail_if (str_empty bundle_id || (160 <? slen bundle_id)
           || negb (str_all bundle_id_char bundle_id))
    "bundle_id contains unsupported characters" ;;
  let entries := sort_by entry_leb (bundle_entries request) in
  check_windows entries ;;
  Ok (hex_of_bytes (sha256 (bundle_material bundle_id (apply_prune_existing request) entries))).

(** ** Facts *)

Lemma key_leb_total a b : key_leb a b = true ∨ key_leb b a = true.
Proof.
  unfold key_leb. rewrite !orb_true_iff, !andb_true_iff, !Z.ltb_lt, !Z.eqb_eq.
  destruct (Z.lt_trichotomy (fst a) (fst b)) as [?|[?|?]]; [auto| |auto].
  destruct (str_leb_total (snd a) (snd b)) as [?|?]; [left|right]; auto.
Qed.

Lemma key_leb_trans a b c : key_leb a b = true → key_leb b c = true → key_leb a c = true.
Proof.
  unfold key_leb. rewrite !orb_true_iff, !andb_true_iff, !Z.ltb_lt, !Z.eqb_eq.
  intros [?|[? ?]] [?|[? ?]]; [left; lia..|right]. split; [lia|]. by eapply str_leb_trans.
Qed.

Lemma key_leb_antisym a b : key_leb a b = true → key_leb b a = true → a = b.
Proof.
  destruct a, b. unfold key_leb; simpl.
  rewrite !orb_true_iff, !andb_true_iff, !Z.ltb_lt, !Z.eqb_eq.
  intros [?|[-> ?]] [?|[? ?]]; try lia. f_equal. by apply str_leb_antisym.
Qed.

Lemma entry_leb_total a b : entry_leb a b = true ∨ entry_leb b a = true.
Proof. apply key_leb_total. Qed.
Lemma entry_leb_trans a b c :
  entry_leb a b = true → entry_leb b c = true → entry_leb a c = true.
Proof. apply key_leb_trans. Qed.
Lemma entries_sorted es : StronglySorted (λ a b, entry_leb a b = true) (sort_by entry_leb es).
Proof. apply sort_by_sorted; [apply entry_leb_total|apply entry_leb_trans]. Qed.

(** In a sorted list without equal neighbours all keys differ. *)
Lemma check_windows_nodup es :
  StronglySorted (λ a b, entry_leb a b = true) es → check_windows es = Ok tt →
  NoDup (entry_key <$> es).
Proof.
  induction 1 as [|a es Hs IH Hall]; [constructor|]. intros Hc.
  destruct es as [|b es].
  - repeat constructor. set_solver.
  - cbn [check_windows] in Hc. inv_ok Hc. specialize (IH Hc).
    rewrite fmap_cons. constructor; [|done].
    intros (c & Hkey & Hin)%list_elem_of_fmap.
    assert (Hab : entry_key a = entry_key b).
    { apply key_leb_antisym; [by inversion Hall|].
      unfold entry_key in Hkey. fold (entry_key a) (entry_key c) in Hkey. rewrite Hkey.
      apply elem_of_cons in Hin as [->|Hin]; [destruct (key_leb_total (entry_key b) (entry_key b)); done|].
      inversion Hs as [|? ? _ Hb]; subst. rewrite Forall_forall in Hb. by apply Hb. }
    unfold entry_key in Hab. injection Hab as Hf Hp.
    by rewrite Hf, Hp, Z.eqb_refl, (proj2 (str_eqb_true _ _) eq_refl) in Hm.
Qed.

Lemma nodup_check_windows es : NoDup (entry_key <$> es) → check_windows es = Ok tt.
Proof.
  induction es as [|a es IH]; [done|]. rewrite fmap_cons. intros [Hna Hn]%NoDup_cons.
  destruct es as [|b es]; [done|]. cbn [check_windows].
  replace (_ && _) with false; [by apply IH|]. symmetry. apply not_true_iff_false.
  rewrite andb_true, Z.eqb_eq, str_eqb_true. intros [Hf Hp]. apply Hna.
  rewrite fmap_cons. apply elem_of_cons. left. unfold entry_key. by rewrite Hf, Hp.
Qed.

Lemma nodup_key_inj (es : list entry) a b :
  NoDup (entry_key <$> es) → a ∈ es → b ∈ es → entry_key a = entry_key b → a = b.
Proof.
  intros Hn (i & Hi)%list_elem_of_lookup (j & Hj)%list_elem_of_lookup E.
  assert (i = j) as ->; [|congruence].
  eapply (NoDup_lookup _ i j (entry_key a)); [done|..];
    rewrite list_lookup_fmap; [by rewrite Hi|by rewrite Hj; simpl; f_equal].
Qed.

(** With distinct keys the sorted order does not depend on the input order. *)
Lemma sort_entries_canonical es1 es2 :
  es1 ≡ₚ es2 → NoDup (entry_key <$> es1) → sort_by entry_leb es1 = sort_by entry_leb es2.
Proof.
  intros Hp Hn. eapply (StronglySorted_unique_strong (λ a b, entry_leb a b = true));
    [|apply entries_sorted..|by rewrite !sort_by_perm].
  intros x y Hx Hy Hxy Hyx. rewrite sort_by_perm in Hx. rewrite sort_by_perm, <- Hp in Hy.
  eapply nodup_key_inj; [done..|]. by apply key_leb_antisym.
Qed.

Lemma bool_byte_inj a b : bool_byte a = bool_byte b → a = b.
Proof. by destruct a, b. Qed.

(** Sizes that fit the eight-byte length of a field *)
Definition entry_sized (e : entry) : Prop :=
  1 ≤ fst e ≤ 4 ∧ slen (file_relative_path (snd e)) ≤ u64_max ∧
  blen (file_content (snd e)) ≤ u64_max.

Lemma entry_bytes_inj e1 e2 r s :
  entry_sized e1 → entry_sized e2 →
  entry_bytes e1 ++ r = entry_bytes e2 ++ s → e1 = e2 ∧ r = s.
Proof.
  destruct e1 as [s1 f1], e2 as [s2 f2]. intros (? & ? & ?) (? & ? & ?).
  unfold entry_bytes, feed_field; simpl fst in *; simpl snd in *.
  rewrite <- !app_assoc. intros [Es E]%app_inj_len; [|done].
  injection Es as Es%byte_of_Z_inj.
  apply framed_inj in E as [Ep%as_bytes_inj E];
    [|rewrite blen_as_bytes; unfold u64_max in *; lia..].
  apply app_inj_len in E as [Eb E]; [|done].
  injection Eb as Ex%bool_byte_inj Ese%bool_byte_inj.
  apply framed_inj in E as [Ec ->]; [|unfold u64_max in *; lia..].
  rewrite !Z.mod_small in Es by lia. subst. destruct f1, f2; simpl in *. by subst.
Qed.

Lemma entries_bytes_inj es1 es2 :
  Forall entry_sized es1 → Forall entry_sized es2 →
  concat (entry_bytes <$> es1) = concat (entry_bytes <$> es2) → es1 = es2.
Proof.
  intros H1. revert es2. induction H1 as [|e1 es1 He1 _ IH]; intros es2 H2; destruct H2 as [|e2 es2 He2 H2].
  - done.
  - done.
  - done.
  - rewrite !fmap_cons. cbn [concat]. intros [-> E]%entry_bytes_inj; [|done..].
    f_equal. by apply IH.
Qed.

Lemma bundle_material_inj id1 id2 p1 p2 es1 es2 :
  slen id1 ≤ 160 → slen id2 ≤ 160 → Forall entry_sized es1 → Forall entry_sized es2 →
  bundle_material id1 p1 es1 = bundle_material id2 p2 es2 → id1 = id2 ∧ p1 = p2 ∧ es1 = es2.
Proof.
  unfold bundle_material, feed_field. intros ???? E. apply app_inv_head in E.
  apply framed_inj in E as [->%as_bytes_inj E]; [|rewrite blen_as_bytes; lia..].
  apply app_inj_len in E as [Eb E]; [|done]. injection Eb as ->%bool_byte_inj.
  split_and!; [done..|]. by apply entries_bytes_inj.
Qed.

Definition request_sized (request : ApplyBundleRequest) : Prop :=
  Forall entry_sized (bundle_entries request).

Lemma request_sized_small request :
  forallb (λ e, (1 <=? fst e) && (fst e <=? 4)
     && (slen (file_relative_path (snd e)) <=? u64_max)
     && (blen (file_content (snd e)) <=? u64_max)) (bundle_entries request) = true →
  request_sized request.
Proof.
  intros Hf. apply Forall_forall. intros e He. rewrite forallb_forall in Hf.
  apply list_elem_of_In, Hf in He. unfold entry_sized. lia.
Qed.

Section Digest.
Context `{Sha256}.

Lemma canonical_digest_Ok request d :
  canonical_apply_bundle_digest request = Ok d ↔
  ∃ id, apply_bundle_id request = Some id ∧
    (id ≠ "" ∧ slen id ≤ 160 ∧ str_all bundle_id_char id = true) ∧
    NoDup (entry_key <$> bundle_entries request) ∧
    d = hex_of_bytes (sha256 (bundle_material id (apply_prune_existing request)
                                (sort_by entry_leb (bundle_entries request)))).
Proof.
  unfold canonical_apply_bundle_digest. split.
  - intros Hc. inv_ok Hc. reflect_in Hm0. unfold str_empty in Hm0. reflect_in Hm0.
    apply check_windows_nodup in Hm1; [|apply entries_sorted].
    rewrite sort_by_perm in Hm1. exists x. tauto.
  - intros (id & -> & (Hne & Hlen & Hall) & Hn & ->). cbn [ok_or mbind result_bind].
    assert (str_empty id || (160 <? slen id) || negb (str_all bundle_id_char id) = false) as ->.
    { unfold str_empty. autorewrite with reflect. auto. }
    cbn [fail_if mbind result_bind]. rewrite nodup_check_windows; [done|].
    by rewrite sort_by_perm.
Qed.

(** The files of one scope *)
Definition scope_files (k : Z) (es : list entry) : list BundleFile :=
  omap (λ e, if fst e =? k then Some (snd e) else None) es.

Lemma scope_files_pair k j (l : list BundleFile) :
  scope_files k (pair j <$> l) = if j =? k then l else [].
Proof.
  unfold scope_files. induction l as [|f l IH]; [by destruct (j =? k)|].
  rewrite fmap_cons. cbn [omap list_omap fst snd].
  destruct (j =? k); [by f_equal|done].
Qed.

Lemma scope_files_bundle r :
  scope_files 1 (bundle_entries r) = apply_stack_files r ∧
  scope_files 2 (bundle_entries r) = apply_host_files r ∧
  scope_files 3 (bundle_entries r) = option_list (apply_deployment_summary r) ∧
  scope_files 4 (bundle_entries r) = option_list (apply_agent_env_file r).
Proof.
  assert (Happ : ∀ k a b, scope_files k (a ++ b) = scope_files k a ++ scope_files k b).
  { intros. apply omap_app. }
  unfold bundle_entries. rewrite !Happ, !scope_files_pair. simpl.
  by rewrite !app_nil_r.
Qed.

Lemma option_list_inj {A} (a b : option A) : option_list a ≡ₚ option_list b → a = b.
Proof.
  destruct a, b; simpl; try done.
  - by intros [= ->]%Permutation_length_1.
  - by intros ?%Permutation_nil_r.
  - by intros ?%Permutation_nil_l.
Qed.

Lemma bundle_scope_files r1 r2 :
  bundle_entries r1 ≡ₚ bundle_entries r2 →
  apply_stack_files r1 ≡ₚ apply_stack_files r2 ∧ apply_host_files r1 ≡ₚ apply_host_files r2 ∧
  apply_deployment_summary r1 = apply_deployment_summary r2 ∧
  apply_agent_env_file r1 = apply_agent_env_file r2.
Proof.
  intros Hp. destruct (scope_files_bundle r1) as (<- & <- & E3 & E4).
  destruct (scope_files_bundle r2) as (<- & <- & F3 & F4).
  split_and!; [by apply omap_Permutation..| |]; apply option_list_inj.
  - rewrite <- E3, <- F3. by apply omap_Permutation.
  - rewrite <- E4, <- F4. by apply omap_Permutation.
Qed.

(** The logical digest of a bundle does not depend on the order in which the files of
    a scope are listed. *)
Theorem bundle_digest_order_independent r1 r2 d :
  canonical_apply_bundle_digest r1 = Ok d →
  apply_bundle_id r1 = apply_bundle_id r2 →
  apply_prune_existing r1 = apply_prune_existing r2 →
  apply_stack_files r1 ≡ₚ apply_stack_files r2 →
  apply_host_files r1 ≡ₚ apply_host_files r2 →
  apply_deployment_summary r1 = apply_deployment_summary r2 →
  apply_agent_env_file r1 = apply_agent_env_file r2 →
  canonical_apply_bundle_digest r2 = Ok d.
Proof.
  intros (id & Hid & Hok & Hn & ->)%canonical_digest_Ok Ei Ep Es Eh Ed Ea.
  assert (Hperm : bundle_entries r1 ≡ₚ bundle_entries r2).
  { unfold bundle_entries. by rewrite Es, Eh, Ed, Ea. }
  apply canonical_digest_Ok. exists id. rewrite <- Ei, <- Ep.
  split_and!; [done|tauto..|by rewrite <- Hperm|].
  by rewrite (sort_entries_canonical _ _ Hperm).
Qed.

(** Two bundles with the same logical digest have the same identifier, the same prune
    flag and, scope by scope, the same files (path, flags and contents), or the two
    byte strings that were hashed are an explicit SHA-256 collision. *)
Theorem bundle_digest_binds r1 r2 d :
  request_sized r1 → request_sized r2 →
  canonical_apply_bundle_digest r1 = Ok d → canonical_apply_bundle_digest r2 = Ok d →
  (apply_bundle_id r1 = apply_bundle_id r2 ∧
   apply_prune_existing r1 = apply_prune_existing r2 ∧
   apply_stack_files r1 ≡ₚ apply_stack_files r2 ∧ apply_host_files r1 ≡ₚ apply_host_files r2 ∧
   apply_deployment_summary r1 = apply_deployment_summary r2 ∧
   apply_agent_env_file r1 = apply_agent_env_file r2) ∨
  (∃ a b, sha256_collision a b).
Proof.
  intros Hs1 Hs2 (id1 & Hid1 & Hok1 & _ & ->)%canonical_digest_Ok
    (id2 & Hid2 & Hok2 & _ & Ed)%canonical_digest_Ok.
  apply hex_of_bytes_inj, sha256_eq in Ed as [E|]; [left|right; eauto].
  apply bundle_material_inj in E as (-> & -> & E);
    [|tauto|tauto|by rewrite sort_by_perm..].
  split; [congruence|]. split; [done|]. apply bundle_scope_files.
  by rewrite <- (sort_by_perm entry_leb (bundle_entries r1)), E, sort_by_perm.
Qed.
End Digest.

(** ** Witnesses *)

Module BundleSample.
Definition file (path : string) (c : Byte.byte) : BundleFile :=
  {| file_relative_path := path; file_content := [c]; file_executable := false;
     file_sensitive := true |}.
Definition request (files : list BundleFile) : ApplyBundleRequest :=
  {| apply_stack_files := files; apply_host_files := []; apply_deployment_summary := None;
     apply_agent_env_file := None; apply_prune_existing := true;
     apply_bundle_id := Some "app:1"; apply_bundle_digest := None |}.
Definition r1 := request [file "b/compose.yml" x01; file "a.json" x02].
Definition r2 := request [file "a.json" x02; file "b/compose.yml" x01].
Definition digest : string :=
  match canonical_apply_bundle_digest r1 with Ok d => d | Err e => e end.

(** Witness of [bundle_digest_order_independent]. *)
Lemma bundle_digest_order_independent_witness :
  canonical_apply_bundle_digest r2 = Ok digest.
Proof.
  apply (bundle_digest_order_independent r1 r2 digest).
  - vm_compute. reflexivity.
  - reflexivity.
  - reflexivity.
  - apply Permutation_swap.
  - apply Permutation_refl.
  - reflexivity.
  - reflexivity.
Defined.

(** Witness of [bundle_digest_binds]. *)
Lemma bundle_digest_binds_witness :
  apply_stack_files r1 ≡ₚ apply_stack_files r2 ∨ ∃ a b, sha256_collision a b.
Proof.
  destruct (bundle_digest_binds r1 r2 digest) as [(_ & _ & ? & _)|?].
  - apply request_sized_small. vm_compute. reflexivity.
  - apply request_sized_small. vm_compute. reflexivity.
  - vm_compute. reflexivity.
  - vm_compute. reflexivity.
  - left. assumption.
  - right. assumption.
Defined.

Example duplicate_path : canonical_apply_bundle_digest
  (request [file "a.json" x02; file "a.json" x01])
  = Err "duplicate bundle path in scope 1: a.json".
Proof. vm_compute. reflexivity. Qed.
End BundleSample.
