(* ===== verification/HostLifecycle.v ===== *)
(** * The host lifecycle contract

    Models [edge-shared-types/src/host_lifecycle.rs]: native observations,
    desired digests and artifact binding, intents, results, network admission
    and the detached Worker authorization.  The text-format parser of the
    production specification (prost-reflect) is the parameter
    [ProductionText]. *)

From S2P Require Import Prelude RustStd RustNet HostTypes Concrete ResourceGraph.
From S2P Require Import ResourceGraphFacts ResourceReport HostRegistry ApplyBundle.

(** [parse_production_desired_text], of whose result this file only reads
    [windows_datapath_mode] *)
Class ProductionText := {
  parse_production_desired_text : bytes → res Z
}.

Definition MAX_HOST_INTENT_BYTES : Z := 8192.
Definition MAX_HOST_RESULT_BYTES : Z := 8192.
Definition MAX_NATIVE_OBSERVATION_BYTES : Z := 4096.
Definition MAX_HOST_AUTHORIZATION_BYTES : Z := 2048.
Definition RELEASE_SET_SCHEMA_VERSION : Z := 8.

(** [token] and [sha] of the module *)
Definition token (value : string) : bool :=
  negb (str_empty value) && (slen value <=? 128) && first_alphanumeric value
  && str_all token_char value.
Definition sha (value : bytes) : bool := (blen value =? 32) && any_nonzero value.

(** ** Windows datapath mode *)

Definition validate_windows_mode_target_and_spec (host : FleetHost)
    (windows_datapath_mode : Z) : res WindowsDatapathMode :=
  fail_if (negb (host_kind host =? as_i32 FleetHostKind_Windows))
    "HOST_WINDOWS_MODE_HOST_KIND_MISMATCH" ;;
  target ← ok_or (host_target host) "HOST_TARGET_UNSET_OBSERVE_ONLY";
  mode ← ok_or (try_from (target_windows_mode target)) "HOST_TARGET_MODE_INVALID";
  fail_if (negb (bool_decide (mode = FleetHostMode_Unspecified)))
    "HOST_WINDOWS_DUPLICATE_GIT_MODE_FORBIDDEN" ;;
  datapath ← ok_or (try_from windows_datapath_mode) "HOST_WINDOWS_DATAPATH_MODE_INVALID";
  fail_if (bool_decide (datapath = WindowsDatapathMode_Unspecified))
    "HOST_WINDOWS_DATAPATH_MODE_INVALID" ;;
  Ok datapath.

Definition validate_windows_datapath_prebegin_with_admission (mode : WindowsDatapathMode)
    (action : FleetHostAction) (desired_run : FleetHostRunState)
    (observed_owner : FleetNativeOwnerState) (signed_network_admission_verified : bool)
    : res unit :=
  match mode with
  | WindowsDatapathMode_ProxyOnly =>
      if signed_network_admission_verified
      then Err "HOST_WINDOWS_NETWORK_ADMISSION_PROXY_ONLY_FORBIDDEN" else Ok tt
  | WindowsDatapathMode_ManagedTun =>
      match action, desired_run, observed_owner with
      | FleetHostAction_Stop, FleetHostRunState_Stopped, FleetNativeOwnerState_Stopped
      | FleetHostAction_Apply, FleetHostRunState_Stopped, FleetNativeOwnerState_Stopped =>
          if negb signed_network_admission_verified then Ok tt
          else Err "HOST_WINDOWS_CONFIG_NETWORK_ADMISSION_REQUIRED"
      | FleetHostAction_Start, FleetHostRunState_Running, FleetNativeOwnerState_Stopped =>
          if signed_network_admission_verified then Ok tt
          else Err "HOST_WINDOWS_CONFIG_NETWORK_ADMISSION_REQUIRED"
      | _, _, _ => Err "HOST_WINDOWS_CONFIG_NETWORK_ADMISSION_REQUIRED"
      end
  | WindowsDatapathMode_Unspecified => Err "HOST_WINDOWS_DATAPATH_MODE_INVALID"
  end.

Definition validate_windows_datapath_prebegin mode action desired_run observed_owner
    : res unit :=
  validate_windows_datapath_prebegin_with_admission mode action desired_run observed_owner
    false.

Definition with_target (host : FleetHost) (target : option FleetHostTarget) : FleetHost := {|
  host_machine_id := host_machine_id host; host_kind := host_kind host;
  host_owner := host_owner host; host_windows_runner_label := host_windows_runner_label host;
  host_desired_spec_path := host_desired_spec_path host; host_target := target;
  host_vm_containers := host_vm_containers host;
  host_native_receipt_public_key := host_native_receipt_public_key host;
  host_vm_first_use_credential := host_vm_first_use_credential host;
  host_worker_authority_public_key := host_worker_authority_public_key host;
  host_vm_provider_spec_path := host_vm_provider_spec_path host |}.

Definition with_mode (target : FleetHostTarget) (mode : FleetHostMode) : FleetHostTarget :=
  {| target_run_state := target_run_state target; target_windows_mode := as_i32 mode |}.

Definition project_host_for_planner `{ProductionText} (host : FleetHost) (spec_bytes : bytes)
    : res FleetHost :=
  if negb (host_kind host =? as_i32 FleetHostKind_Windows) then Ok host
  else
    spec ← parse_production_desired_text spec_bytes;
    mode ← validate_windows_mode_target_and_spec host spec;
    target ← ok_or (host_target host) "HOST_TARGET_UNSET_OBSERVE_ONLY";
    match mode with
    | WindowsDatapathMode_ProxyOnly =>
        Ok (with_target host (Some (with_mode target FleetHostMode_ProxyOnly)))
    | WindowsDatapathMode_ManagedTun =>
        Ok (with_target host (Some (with_mode target FleetHostMode_ManagedTun)))
    | WindowsDatapathMode_Unspecified => Err "HOST_WINDOWS_DATAPATH_MODE_INVALID"
    end.

(** ** Native observations *)

Definition is_proof_without_release (proof : FleetNativeReleaseProof) : bool :=
  match proof with
  | FleetNativeReleaseProof_Unproven | FleetNativeReleaseProof_VerifiedAbsent => true
  | _ => false
  end.

Definition reason_code_invalid (code : string) : bool :=
  str_empty code || (96 <? slen code) || negb (str_all upper_snake_char code).

(** [chunks_exact(2)] with [to_digit(16)]: a trailing single character is dropped. *)
Fixpoint decode_hex_pairs (error : string) (s : string) : res bytes :=
  match s with
  | String h (String l r) =>
      high ← ok_or (hex_digit_of h) error;
      low ← ok_or (hex_digit_of l) error;
      rest ← decode_hex_pairs error r;
      Ok (byte_of_Z (Z.lor (Z.shiftl high 4) low) :: rest)
  | _ => Ok []
  end.

Section Observation.
Context `{Message FleetVmDesiredGraph} `{Message FleetResourceHierarchy}
  `{Message FleetVmDesiredNetwork} `{Message FleetVmDesiredResource} `{Sha256}
  `{Message FleetVmDualStackNetwork} `{Message Ipv4NetworkObservation}
  `{Message FleetVmResourceReport} `{Message FleetNativeObservation}.

Definition recovery_report_foreign (kind : FleetHostKind) (observed : FleetNativeObservation)
    : bool :=
  match obs_vm_recovery_resources observed with
  | Some report =>
      negb (bool_decide (kind = FleetHostKind_Vm))
      || str_empty (report_machine_id report)
      || negb (report_observed_at_unix report =? obs_observed_at_unix observed)
  | None => false
  end.

Definition observation_evidence_invalid (kind : FleetHostKind) (state : FleetNativeOwnerState)
    (proof : FleetNativeReleaseProof) (observed : FleetNativeObservation) : bool :=
  let release := obs_observed_release_sha256 observed in
  negb (obs_schema_version observed =? 1)
  || (obs_observed_at_unix observed =? 0)
  || bool_decide (kind = FleetHostKind_Unspecified)
  || bool_decide (state = FleetNativeOwnerState_Unspecified)
  || bool_decide (proof = FleetNativeReleaseProof_Unspecified)
  || (bool_decide (kind = FleetHostKind_Windows)
      && bool_decide (proof = FleetNativeReleaseProof_ApplicationBundle))
  || (bool_decide (kind = FleetHostKind_Vm)
      && bool_decide (proof = FleetNativeReleaseProof_ActivationRecord))
  || negb (Bool.eqb (is_empty release) (is_proof_without_release proof))
  || (bool_decide (proof = FleetNativeReleaseProof_VerifiedAbsent)
      && (negb (bool_decide (state = FleetNativeOwnerState_Stopped))
          || obs_runtime_ready observed))
  || (negb (is_empty release) && negb (blen release =? 32))
  || (obs_runtime_ready observed && negb (obs_runtime_ready_proven observed))
  || (negb (is_empty (obs_windows_config_sha256 observed))
      && (negb (bool_decide (kind = FleetHostKind_Windows))
          || negb (sha (obs_windows_config_sha256 observed))))
  || (12 <? length (obs_reason_codes observed))%nat
  || existsb reason_code_invalid (obs_reason_codes observed)
  || recovery_report_foreign kind observed
  || (MAX_NATIVE_OBSERVATION_BYTES <? blen (encode_to_vec observed)).

Definition validate_native_observation (observed : FleetNativeObservation) : res unit :=
  kind ← ok_or (try_from (obs_host_kind observed)) "HOST_OBSERVATION_KIND_INVALID";
  state ← ok_or (try_from (obs_owner_state observed)) "HOST_OBSERVATION_STATE_INVALID";
  proof ← ok_or (try_from (obs_release_proof observed)) "HOST_OBSERVATION_PROOF_INVALID";
  fail_if (observation_evidence_invalid kind state proof observed)
    "HOST_OBSERVATION_EVIDENCE_INVALID".

Definition build_native_observation (kind : FleetHostKind) (state : FleetNativeOwnerState)
    (proof : FleetNativeReleaseProof) (release_digest_hex : option string)
    (runtime_ready : option bool) (observed_at_unix : Z) (reason_codes : list string)
    : res FleetNativeObservation :=
  release ← match release_digest_hex with
            | Some value =>
                fail_if (negb (slen value =? 64) || negb (str_all is_lower_hex value))
                  "HOST_OBSERVATION_RELEASE_DIGEST_INVALID" ;;
                decode_hex_pairs "HOST_OBSERVATION_DIGEST_INVALID" value
            | None => Ok []
            end;
  expected ← match kind with
             | FleetHostKind_Windows => Ok FleetNativeReleaseProof_ActivationRecord
             | FleetHostKind_Vm => Ok FleetNativeReleaseProof_ApplicationBundle
             | FleetHostKind_Unspecified => Err "HOST_OBSERVATION_KIND_INVALID"
             end;
  fail_if (negb (is_proof_without_release proof) && negb (bool_decide (proof = expected)))
    "HOST_OBSERVATION_PROOF_KIND_MISMATCH" ;;
  fail_if (negb (Bool.eqb (is_empty release) (is_proof_without_release proof)))
    "HOST_OBSERVATION_RELEASE_PROOF_INCOMPLETE" ;;
  let observation := {|
    obs_schema_version := 1;
    obs_host_kind := as_i32 kind;
    obs_observed_at_unix := observed_at_unix;
    obs_owner_state := as_i32 state;
    obs_release_proof := as_i32 proof;
    obs_observed_release_sha256 := release;
    obs_runtime_ready := default false runtime_ready;
    obs_runtime_ready_proven := bool_decide (is_Some runtime_ready);
    obs_reason_codes := reason_codes;
    obs_vm_recovery_resources := None;
    obs_windows_config_sha256 := []
  |} in
  validate_native_observation observation ;;
  Ok observation.

Definition decode_native_observation (b : bytes) : res FleetNativeObservation :=
  fail_if (is_empty b || (MAX_NATIVE_OBSERVATION_BYTES <? blen b))
    "HOST_OBSERVATION_SIZE_INVALID" ;;
  observed ← ok_or (decode b) "HOST_OBSERVATION_PROTO_INVALID";
  fail_if (negb (bytes_eqb (encode_to_vec observed) b)) "HOST_OBSERVATION_NONCANONICAL" ;;
  validate_native_observation observed ;;
  Ok observed.

(** ** Known partial and runtime-only baselines *)

(** One row of the partial baseline; the state is [ids] and [stopped].  [None] is
    [return false]. *)
Definition partial_row (graph : FleetVmDesiredGraph) (st : list string * nat)
    (row : FleetVmResourceReadback) : option (list string * nat) :=
  let '(ids, stopped) := st in
  resource ← row_resource row;
  policy ← List.find (λ candidate, bool_decide (dres_resource candidate = Some resource))
    (graph_resources graph);
  if negb (row_present row) || negb (row_ownership_proven row)
     || negb (row_running_proven row) || negb (slen (row_container_id row) =? 64)
     || mem (row_container_id row) ids || row_docker_state_error_present row
     || negb (str_eqb (row_image row) (dres_image_ref policy))
  then None
  else
    let egress := str_eqb (sel_compose_service resource) "warp-egress" in
    let ids := row_container_id row :: ids in
    if row_running row then
      if negb (row_observed_reason row =? as_i32 FleetVmObservedReason_RunningNoHealthcheck)
         && negb (row_observed_reason row =? as_i32 FleetVmObservedReason_Healthy)
      then None
      else if negb egress
              && negb (row_config_proof row =? as_i32 FleetVmConfigProof_BoundRunningProcess)
      then None
      else Some (ids, stopped)
    else
      if negb (row_observed_reason row =? as_i32 FleetVmObservedReason_Stopped)
         || (negb egress
             && negb (row_config_proof row =? as_i32 FleetVmConfigProof_NotRunning))
      then None
      else Some (ids, S stopped).

Fixpoint partial_rows (graph : FleetVmDesiredGraph) (st : list string * nat)
    (rows : list FleetVmResourceReadback) : option (list string * nat) :=
  match rows with
  | [] => Some st
  | row :: rows => st ← partial_row graph st row; partial_rows graph st rows
  end.

Definition partial_reason (code : string) : bool :=
  mem code ["CONTAINER_NOT_RUNNING"; "EXACT_IMAGE_OR_CONTAINER_UNREADY";
            "WARP_CLIENT_CONNECTION_UNPROVEN"].

Definition known_partial_vm_resource_baseline (host : FleetHost)
    (observed : FleetNativeObservation) : bool :=
  if negb (host_kind host =? as_i32 FleetHostKind_Vm)
     || negb (obs_host_kind observed =? host_kind host)
     || negb (try_from_one_of (obs_owner_state observed)
                [FleetNativeOwnerState_Running; FleetNativeOwnerState_Stopped])
     || negb (obs_runtime_ready_proven observed)
     || obs_runtime_ready observed
     || negb (existsb (λ s, str_eqb s "CONTAINER_NOT_RUNNING") (obs_reason_codes observed))
     || existsb (λ s, negb (partial_reason s)) (obs_reason_codes observed)
  then false
  else match obs_vm_recovery_resources observed with
  | None => false
  | Some report =>
      if negb (report_observed_at_unix report =? obs_observed_at_unix observed)
         || is_err (validate_vm_resource_report report host)
         || negb (report_installed_policy_status report
                  =? as_i32 FleetVmInstalledPolicyStatus_Valid)
      then false
      else match report_installed_policy_graph report with
      | None => false
      | Some graph =>
          if negb (length (graph_resources graph) =? length (report_resources report))%nat
          then false
          else match partial_rows graph ([], 0%nat) (report_resources report) with
               | None => false
               | Some (_, stopped) => (0 <? stopped)%nat
               end
      end
  end.

Definition known_runtime_only_historical_reasons (observed : FleetNativeObservation) : bool :=
  if negb (obs_runtime_ready_proven observed) then false
  else if obs_runtime_ready observed then is_empty (obs_reason_codes observed)
  else negb (is_empty (obs_reason_codes observed))
       && forallb (λ code, mem code ["WARP_LINE1_CONSUMER_EGRESS_FAILED";
                                     "WARP_LINE2_CONSUMER_EGRESS_FAILED"])
            (obs_reason_codes observed).
End Observation.

(** ** Desired digest and runtime digest *)

Section Digests.
Context `{Sha256} `{Message FleetHost} `{Message ApplyBundleRequest}.

Definition host_desired_payload (host : FleetHost) (spec_bytes : bytes) : bytes :=
  as_bytes "sing-box/host-desired/v1:" ++ framed 4 (encode_to_vec host)
  ++ framed 4 spec_bytes.

Definition digest_host_desired (host : FleetHost) (spec_bytes : bytes) : res bytes :=
  fail_if (is_empty spec_bytes || (1048576 <? blen spec_bytes))
    "HOST_DESIRED_SPEC_SIZE_INVALID" ;;
  Ok (sha256 (host_desired_payload host spec_bytes)).

Definition release_schema_invalid (release : ReleaseSet) : bool :=
  negb ((7 <=? release_schema_version release)
        && (release_schema_version release <=? RELEASE_SET_SCHEMA_VERSION)).

Definition native_vm_bundle_runtime_digest (release : ReleaseSet) (vm_bundle_pb : bytes)
    : res bytes :=
  fail_if (release_schema_invalid release || is_empty vm_bundle_pb
           || (8 * 1024 * 1024 <? blen vm_bundle_pb)) "HOST_NATIVE_VM_BUNDLE_ARTIFACT_INVALID" ;;
  vm_runtime ← ok_or (release_vm_runtime release) "HOST_NATIVE_VM_RUNTIME_UNAVAILABLE";
  let published := vmrt_application_bundle_sha256 vm_runtime in
  fail_if (negb (sha published) || negb (bytes_eqb (sha256 vm_bundle_pb) published))
    "HOST_NATIVE_VM_BUNDLE_TRANSPORT_MISMATCH" ;;
  request ← ok_or (decode vm_bundle_pb) "HOST_NATIVE_VM_BUNDLE_PROTO_INVALID";
  fail_if (negb (bytes_eqb (encode_to_vec request) vm_bundle_pb)
           || negb (apply_prune_existing request)
           || negb (is_empty (apply_host_files request))
           || bool_decide (is_Some (apply_deployment_summary request))
           || bool_decide (is_Some (apply_agent_env_file request)))
    "HOST_NATIVE_VM_BUNDLE_NONCANONICAL" ;;
  logical ← ok_or (apply_bundle_digest request) "HOST_NATIVE_VM_BUNDLE_LOGICAL_DIGEST_MISSING";
  computed ← map_err (λ _, "HOST_NATIVE_VM_BUNDLE_LOGICAL_DIGEST_INVALID")
    (canonical_apply_bundle_digest request);
  fail_if (negb (str_eqb logical computed) || negb (slen logical =? 64))
    "HOST_NATIVE_VM_BUNDLE_LOGICAL_DIGEST_MISMATCH" ;;
  decoded ← decode_hex_pairs "HOST_NATIVE_VM_BUNDLE_HEX_INVALID" logical;
  fail_if (negb (sha decoded)) "HOST_NATIVE_VM_BUNDLE_LOGICAL_DIGEST_INVALID" ;;
  Ok decoded.
End Digests.

(** ** Signer pins and prerequisites *)

Definition verify_git_host_worker_signer_pin (host : FleetHost) (supplied : bytes) : res unit :=
  fail_if (negb (try_from_one_of (host_kind host) [FleetHostKind_Vm; FleetHostKind_Windows])
           || digest_malformed (host_worker_authority_public_key host))
    "HOST_GIT_WORKER_SIGNER_KEY_REQUIRED" ;;
  fail_if (negb (bytes_eqb supplied (host_worker_authority_public_key host)))
    "HOST_WORKER_SIGNER_DIFFERS_FROM_PROTECTED_GIT".

Definition verify_git_worker_signer_pin (host : FleetHost) (supplied : bytes) : res unit :=
  fail_if (negb (host_kind host =? as_i32 FleetHostKind_Vm))
    "HOST_GIT_WORKER_SIGNER_KEY_REQUIRED" ;;
  verify_git_host_worker_signer_pin host supplied.

Definition verify_vm_git_resource_scope (host : FleetHost) : res unit :=
  fail_if (is_empty (host_vm_containers host)) "HOST_VM_GIT_RESOURCE_SCOPE_REQUIRED".

Definition verify_vm_first_use_git_prerequisites (host : FleetHost) : res unit :=
  fail_if (negb (host_kind host =? as_i32 FleetHostKind_Vm)) "HOST_VM_FIRST_USE_KIND_REQUIRED" ;;
  verify_git_worker_signer_pin host (host_worker_authority_public_key host) ;;
  verify_vm_git_resource_scope host ;;
  fail_if (str_empty (host_vm_provider_spec_path host)) "HOST_VM_GIT_PROVIDER_SPEC_REQUIRED" ;;
  fail_if (negb (match host_target host with
                 | Some t => target_run_state t =? as_i32 FleetHostRunState_Running
                 | None => false
                 end)) "HOST_VM_GIT_RUNNING_TARGET_REQUIRED".

Definition verify_vm_first_use_provider_spec (host : FleetHost) (provider_spec_path : string)
    : res unit :=
  verify_vm_first_use_git_prerequisites host ;;
  fail_if (negb (str_eqb provider_spec_path (host_vm_provider_spec_path host)))
    "HOST_BOOTSTRAP_GIT_PROVIDER_SPEC_MISMATCH".

Definition verify_vm_signed_git_prerequisites (host : FleetHost) : res unit :=
  if negb (host_kind host =? as_i32 FleetHostKind_Vm) then Ok tt
  else
    verify_git_worker_signer_pin host (host_worker_authority_public_key host) ;;
    fail_if (digest_malformed (host_native_receipt_public_key host))
      "HOST_VM_GIT_RECEIPT_REGISTRATION_REQUIRED" ;;
    verify_vm_git_resource_scope host.

Definition verify_windows_signed_git_prerequisites (host : FleetHost) : res unit :=
  fail_if (negb (host_kind host =? as_i32 FleetHostKind_Windows))
    "HOST_WINDOWS_SIGNED_KIND_REQUIRED" ;;
  verify_git_host_worker_signer_pin host (host_worker_authority_public_key host) ;;
  fail_if (digest_malformed (host_native_receipt_public_key host))
    "HOST_WINDOWS_GIT_RECEIPT_REGISTRATION_REQUIRED".

(** ** Intents *)

Definition validate_scoped_vm_resource_id (host : FleetHost) (resource_id : string)
    : res unit :=
  fail_if (negb (host_kind host =? as_i32 FleetHostKind_Vm)) "HOST_SCOPE_VM_OWNER_REQUIRED" ;;
  fail_if ((128 <? slen resource_id)
           || negb (length (List.filter (λ selector,
                      is_gateway (sel_compose_service selector)
                      && str_eqb ("config/" +:+ sel_compose_project selector +:+ "/" +:+
                                  sel_compose_service selector) resource_id)
                      (host_vm_containers host)) =? 1)%nat)
    "HOST_SCOPE_RESOURCE_NOT_REGISTERED".

Definition find_host (registry : FleetDesiredState) (machine_id : string) : option FleetHost :=
  List.find (λ h, str_eqb (host_machine_id h) machine_id) (registry_hosts registry).

Definition owner_matches (host : FleetHost) : bool :=
  match try_from (host_kind host), host_owner host with
  | Some FleetHostKind_Windows, Some (Owner_WindowsRunnerName _) => true
  | Some FleetHostKind_Vm, Some (Owner_VmMachineId _) => true
  | _, _ => false
  end.

Definition validate_host_intent (intent : FleetHostIntent) (registry : FleetDesiredState)
    (exact_registry_sha256 exact_desired_sha256 exact_release_set_sha256 : bytes) : res unit :=
  fail_if (negb (intent_schema_version intent =? 1)
           || negb (token (intent_machine_id intent))
           || str_empty (intent_resource_id intent)
           || negb (token (intent_operation_id intent))
           || (intent_requested_at_unix intent =? 0)) "HOST_INTENT_IDENTITY_INVALID" ;;
  fail_if (negb (sha exact_registry_sha256) || negb (sha exact_desired_sha256)
           || negb (sha exact_release_set_sha256)
           || negb (bytes_eqb (intent_registry_sha256 intent) exact_registry_sha256)
           || negb (bytes_eqb (intent_desired_sha256 intent) exact_desired_sha256)
           || negb (bytes_eqb (intent_release_set_sha256 intent) exact_release_set_sha256))
    "HOST_INTENT_DIGEST_MISMATCH" ;;
  host ← ok_or (find_host registry (intent_machine_id intent)) "HOST_INTENT_UNKNOWN_MACHINE";
  fail_if (negb (host_kind host =? intent_kind intent) || negb (owner_matches host))
    "HOST_INTENT_OWNER_MISMATCH" ;;
  action ← ok_or (try_from (intent_action intent)) "HOST_INTENT_ACTION_INVALID";
  (if negb (str_eqb (intent_resource_id intent) "sing-box") then
     fail_if (negb (bool_decide (action = FleetHostAction_Apply)))
       "HOST_SCOPE_ACTION_NOT_APPLY" ;;
     validate_scoped_vm_resource_id host (intent_resource_id intent)
   else Ok tt) ;;
  mode ← ok_or (try_from (intent_requested_mode intent)) "HOST_INTENT_MODE_INVALID";
  fail_if (bool_decide (is_Some (intent_network_admission intent))
           && (negb (host_kind host =? as_i32 FleetHostKind_Windows)
               || negb (bool_decide (action = FleetHostAction_Start))))
    "HOST_WINDOWS_NETWORK_ADMISSION_UNEXPECTED_ACTION" ;;
  fail_if (bool_decide (action = FleetHostAction_Unspecified)
           || (bool_decide (action = FleetHostAction_SetMode)
               && (negb (host_kind host =? as_i32 FleetHostKind_Windows)
                   || bool_decide (mode = FleetHostMode_Unspecified)))
           || (negb (bool_decide (action = FleetHostAction_SetMode))
               && negb (bool_decide (mode = FleetHostMode_Unspecified))))
    "HOST_INTENT_ACTION_MODE_MISMATCH".

Definition validate_intent_against_target (intent : FleetHostIntent)
    (registry : FleetDesiredState) : res unit :=
  host ← ok_or (find_host registry (intent_machine_id intent)) "HOST_INTENT_UNKNOWN_MACHINE";
  target ← ok_or (host_target host) "HOST_TARGET_UNSET_OBSERVE_ONLY";
  action ← ok_or (try_from (intent_action intent)) "HOST_INTENT_ACTION_INVALID";
  state ← ok_or (try_from (target_run_state target)) "HOST_TARGET_RUN_STATE_INVALID";
  fail_if (bool_decide (state = FleetHostRunState_Unspecified))
    "HOST_TARGET_RUN_STATE_REQUIRED" ;;
  mode ← ok_or (try_from (target_windows_mode target)) "HOST_TARGET_MODE_INVALID";
  fail_if (negb (bool_decide (mode = FleetHostMode_Unspecified)))
    "HOST_WINDOWS_DUPLICATE_GIT_MODE_FORBIDDEN" ;;
  fail_if (bool_decide (action = FleetHostAction_SetMode))
    "HOST_SET_MODE_RETIRED_USE_GIT_APPLY" ;;
  fail_if ((bool_decide (action = FleetHostAction_Start)
            && negb (bool_decide (state = FleetHostRunState_Running)))
           || (bool_decide (action = FleetHostAction_Stop)
               && negb (bool_decide (state = FleetHostRunState_Stopped))))
    "HOST_ACTION_CONFLICTS_WITH_DESIRED".

(** ** Results *)

Definition host_result_reason_projection (reason : FleetHostResultReason) : string * string :=
  match reason with
  | FleetHostResultReason_Unspecified => ("", "UNSPECIFIED")
  | FleetHostResultReason_PreparedNeedsOwnerTrust =>
      ("NATIVE_INSTALL_AUTHORITY_NOT_ACCEPTED", "NEED_TRUSTED_OWNER_BOOTSTRAP")
  | FleetHostResultReason_AuthorizedAwaitNativeReadback =>
      ("", "NATIVE_OWNER_READBACK_REQUIRED")
  | FleetHostResultReason_NoFurtherAction => ("", "NONE")
  | FleetHostResultReason_RecoveredNativeRunning => ("", "RECOVERED_NATIVE_RUNNING")
  | FleetHostResultReason_RecoveredNativeStopped => ("", "RECOVERED_NATIVE_STOPPED")
  | FleetHostResultReason_StoppedReleaseDriftRequiresInstallTarget =>
      ("", "STOPPED_RELEASE_DRIFT_REQUIRES_INSTALL_TARGET")
  | FleetHostResultReason_HistoricalPartialRequiresFreshApply =>
      ("", "HISTORICAL_PARTIAL_REQUIRES_FRESH_APPLY")
  end.

Definition set_host_result_reason (result : FleetHostResult) (reason : FleetHostResultReason)
    : FleetHostResult := {|
  result_schema_version := result_schema_version result;
  result_machine_id := result_machine_id result;
  result_resource_id := result_resource_id result;
  result_operation_id := result_operation_id result;
  result_action := result_action result;
  result_state := result_state result;
  result_release_set_sha256 := result_release_set_sha256 result;
  result_desired_sha256 := result_desired_sha256 result;
  result_observed_at_unix := result_observed_at_unix result;
  result_error_class := fst (host_result_reason_projection reason);
  result_next_action := snd (host_result_reason_projection reason);
  result_physical_readback := result_physical_readback result;
  result_reason := as_i32 reason |}.

Definition validate_host_result_reason (result : FleetHostResult) : res unit :=
  reason ← ok_or (try_from (result_reason result)) "HOST_RESULT_REASON_UNKNOWN";
  state ← ok_or (try_from (result_state result)) "HOST_RESULT_STATE_INVALID";
  let allowed :=
    match reason with
    | FleetHostResultReason_Unspecified => false
    | FleetHostResultReason_PreparedNeedsOwnerTrust =>
        bool_decide (state = FleetHostResultState_Prepared)
    | FleetHostResultReason_AuthorizedAwaitNativeReadback =>
        bool_decide (state = FleetHostResultState_Authorized)
    | FleetHostResultReason_HistoricalPartialRequiresFreshApply =>
        bool_decide (state = FleetHostResultState_UnknownNoReplay
                     ∨ state = FleetHostResultState_Observed)
    | _ => bool_decide (state = FleetHostResultState_Observed
                        ∨ state = FleetHostResultState_Verified)
    end in
  let '(error, action) := host_result_reason_projection reason in
  fail_if (negb allowed || negb (str_eqb (result_error_class result) error)
           || negb (str_eqb (result_next_action result) action))
    "HOST_RESULT_REASON_STATE_OR_PROJECTION_MISMATCH".

Definition result_uncorrelated (result : FleetHostResult) (intent : FleetHostIntent) : bool :=
  negb (result_schema_version result =? 1)
  || negb (str_eqb (result_machine_id result) (intent_machine_id intent))
  || negb (str_eqb (result_resource_id result) (intent_resource_id intent))
  || negb (str_eqb (result_operation_id result) (intent_operation_id intent))
  || negb (result_action result =? intent_action intent)
  || negb (bytes_eqb (result_release_set_sha256 result) (intent_release_set_sha256 intent))
  || negb (bytes_eqb (result_desired_sha256 result) (intent_desired_sha256 intent)).

Definition validate_unattested_native_result (result : FleetHostResult)
    (intent : FleetHostIntent) : res unit :=
  fail_if (result_uncorrelated result intent) "HOST_NATIVE_RESULT_CORRELATION_MISMATCH" ;;
  map_err (λ _, "HOST_NATIVE_RESULT_STRUCTURE_INVALID") (validate_host_result_reason result) ;;
  state ← ok_or (try_from (result_state result)) "HOST_NATIVE_RESULT_STATE_INVALID";
  fail_if (negb (bool_decide (state = FleetHostResultState_Observed
                              ∨ state = FleetHostResultState_Verified))
           || (result_observed_at_unix result =? 0)
           || negb (Bool.eqb (result_physical_readback result)
                      (bool_decide (state = FleetHostResultState_Verified)))
           || negb (str_empty (result_error_class result))
           || (128 <? slen (result_next_action result))
           || negb (str_all upper_snake_char (result_next_action result)))
    "HOST_NATIVE_RESULT_STRUCTURE_INVALID".

Definition validate_host_result (result : FleetHostResult) (intent : FleetHostIntent)
    : res unit :=
  fail_if (result_uncorrelated result intent) "HOST_RESULT_CORRELATION_MISMATCH" ;;
  state ← ok_or (try_from (result_state result)) "HOST_RESULT_STATE_INVALID";
  fail_if (bool_decide (state = FleetHostResultState_Authorized
                        ∨ state = FleetHostResultState_Verified))
    "HOST_NATIVE_RECEIPT_ATTESTATION_REQUIRED" ;;
  map_err (λ _, "HOST_RESULT_EVIDENCE_INVALID") (validate_host_result_reason result) ;;
  let verified := bool_decide (state = FleetHostResultState_Verified) in
  fail_if (bool_decide (state = FleetHostResultState_Unspecified)
           || (verified && (negb (result_physical_readback result)
                            || (result_observed_at_unix result =? 0)
                            || negb (str_empty (result_error_class result))))
           || (negb verified && result_physical_readback result)
           || (128 <? slen (result_error_class result))
           || (128 <? slen (result_next_action result))
           || negb (str_all upper_snake_char (result_error_class result))
           || negb (str_all upper_snake_char (result_next_action result)))
    "HOST_RESULT_EVIDENCE_INVALID".

Definition prepared_host_result (intent : FleetHostIntent) : FleetHostResult :=
  set_host_result_reason {|
    result_schema_version := 1;
    result_machine_id := intent_machine_id intent;
    result_resource_id := intent_resource_id intent;
    result_operation_id := intent_operation_id intent;
    result_action := intent_action intent;
    result_state := as_i32 FleetHostResultState_Prepared;
    result_release_set_sha256 := intent_release_set_sha256 intent;
    result_desired_sha256 := intent_desired_sha256 intent;
    result_observed_at_unix := 0;
    result_error_class := "";
    result_next_action := "";
    result_physical_readback := false;
    result_reason := 0
  |} FleetHostResultReason_PreparedNeedsOwnerTrust.

(** ** Wire forms of intents, authorizations and results *)

Section Wire.
Context `{Message FleetHostIntent} `{Message FleetHostAuthorization}
  `{Message FleetHostResult}.

Definition decode_host_intent (b : bytes) : res FleetHostIntent :=
  fail_if (is_empty b || (MAX_HOST_INTENT_BYTES <? blen b)) "HOST_INTENT_SIZE_INVALID" ;;
  intent ← ok_or (decode b) "HOST_INTENT_PROTO_INVALID";
  fail_if (negb (bytes_eqb (encode_to_vec intent) b)) "HOST_INTENT_NONCANONICAL" ;;
  Ok intent.

Definition authorization_fields_invalid (value : FleetHostAuthorization) : bool :=
  negb (auth_schema_version value =? 1)
  || negb (token (auth_key_id value))
  || negb (token (auth_operation_id value))
  || (auth_issued_at_unix value =? 0)
  || (auth_expires_at_unix value <=? auth_issued_at_unix value)
  || (300 <? auth_expires_at_unix value - auth_issued_at_unix value)
  || negb (blen (auth_ed25519_signature value) =? 64).

Definition decode_host_authorization (b : bytes) : res FleetHostAuthorization :=
  fail_if (is_empty b || (MAX_HOST_AUTHORIZATION_BYTES <? blen b))
    "HOST_AUTHORIZATION_SIZE_INVALID" ;;
  value ← ok_or (decode b) "HOST_AUTHORIZATION_PROTO_INVALID";
  fail_if (negb (bytes_eqb (encode_to_vec value) b)) "HOST_AUTHORIZATION_NONCANONICAL" ;;
  fail_if (authorization_fields_invalid value) "HOST_AUTHORIZATION_FIELDS_INVALID" ;;
  Ok value.

Definition decode_host_result (b : bytes) : res FleetHostResult :=
  fail_if (is_empty b || (MAX_HOST_RESULT_BYTES <? blen b)) "HOST_RESULT_SIZE_INVALID" ;;
  result ← ok_or (decode b) "HOST_RESULT_PROTO_INVALID";
  fail_if (negb (bytes_eqb (encode_to_vec result) b)) "HOST_RESULT_NONCANONICAL" ;;
  Ok result.

(** ** The detached Worker authorization *)

Definition host_authorization_payload (intent : FleetHostIntent)
    (authorization : FleetHostAuthorization) : bytes :=
  as_bytes "sing-box/native-host-authorization/v1:"
  ++ framed 4 (encode_to_vec intent)
  ++ framed 4 (as_bytes (auth_key_id authorization))
  ++ framed 4 (as_bytes (auth_operation_id authorization))
  ++ u64_to_be_bytes (auth_issued_at_unix authorization)
  ++ u64_to_be_bytes (auth_expires_at_unix authorization).

Definition verify_host_authorization `{Ed25519} (intent : FleetHostIntent)
    (authorization : FleetHostAuthorization) (trusted_ed25519_public_key : bytes)
    (now_unix : Z) : res unit :=
  fail_if (negb (auth_schema_version authorization =? 1)
           || negb (token (auth_key_id authorization))
           || negb (str_eqb (auth_operation_id authorization) (intent_operation_id intent))
           || negb (blen trusted_ed25519_public_key =? 32)
           || negb (blen (auth_ed25519_signature authorization) =? 64))
    "HOST_AUTHORIZATION_IDENTITY_INVALID" ;;
  fail_if ((auth_expires_at_unix authorization <=? auth_issued_at_unix authorization)
           || (300 <? auth_expires_at_unix authorization - auth_issued_at_unix authorization)
           || (u64_saturating_add now_unix 60 <? auth_issued_at_unix authorization)
           || (u64_saturating_add (auth_expires_at_unix authorization) 60 <? now_unix))
    "HOST_AUTHORIZATION_EXPIRED_OR_FUTURE" ;;
  fail_if (negb (ed25519_verify trusted_ed25519_public_key
                   (host_authorization_payload intent authorization)
                   (auth_ed25519_signature authorization)))
    "HOST_AUTHORIZATION_SIGNATURE_INVALID".
End Wire.

(** ** Network admission of a Windows start *)

Section Admission.
Context `{Message FleetWindowsNetworkAdmission} `{Ed25519}.

Definition unsigned_admission (proof : FleetWindowsNetworkAdmission)
    : FleetWindowsNetworkAdmission := {|
  adm_schema_version := adm_schema_version proof; adm_machine_id := adm_machine_id proof;
  adm_operation_id := adm_operation_id proof;
  adm_installed_release_sha256 := adm_installed_release_sha256 proof;
  adm_desired_release_set_sha256 := adm_desired_release_set_sha256 proof;
  adm_config_sha256 := adm_config_sha256 proof;
  adm_before_network_sha256 := adm_before_network_sha256 proof;
  adm_observed_at_unix := adm_observed_at_unix proof;
  adm_expires_at_unix := adm_expires_at_unix proof;
  adm_line1_witness_sha256 := adm_line1_witness_sha256 proof;
  adm_control_witness_sha256 := adm_control_witness_sha256 proof;
  adm_dns_witness_sha256 := adm_dns_witness_sha256 proof;
  adm_system_signature := [] |}.

Definition windows_network_admission_payload (proof : FleetWindowsNetworkAdmission) : bytes :=
  as_bytes "sing-box/windows-network-admission/v1:" ++ encode_to_vec (unsigned_admission proof).

Definition admission_binding_invalid (intent : FleetHostIntent)
    (proof : FleetWindowsNetworkAdmission)
    (trusted_system_public_key installed_release_sha256 config_sha256
     native_before_sha256 : bytes) (now : Z) : bool :=
  negb (intent_kind intent =? as_i32 FleetHostKind_Windows)
  || negb (intent_action intent =? as_i32 FleetHostAction_Start)
  || negb (adm_schema_version proof =? 1)
  || negb (str_eqb (adm_machine_id proof) (intent_machine_id intent))
  || negb (str_eqb (adm_operation_id proof) (intent_operation_id intent))
  || negb (blen trusted_system_public_key =? 32)
  || negb (sha installed_release_sha256)
  || negb (sha config_sha256)
  || negb (sha native_before_sha256)
  || negb (bytes_eqb (adm_installed_release_sha256 proof) installed_release_sha256)
  || negb (bytes_eqb (adm_desired_release_set_sha256 proof) (intent_release_set_sha256 intent))
  || negb (bytes_eqb (adm_config_sha256 proof) config_sha256)
  || negb (bytes_eqb (adm_before_network_sha256 proof) native_before_sha256)
  || negb (sha (adm_line1_witness_sha256 proof))
  || negb (sha (adm_control_witness_sha256 proof))
  || negb (sha (adm_dns_witness_sha256 proof))
  || (adm_observed_at_unix proof =? 0)
  || (adm_expires_at_unix proof <=? adm_observed_at_unix proof)
  || (60 <? adm_expires_at_unix proof - adm_observed_at_unix proof)
  || (now <? adm_observed_at_unix proof)
  || (adm_expires_at_unix proof <? now)
  || negb (blen (adm_system_signature proof) =? 64).

Definition verify_windows_network_admission (intent : FleetHostIntent)
    (trusted_system_public_key installed_release_sha256 config_sha256
     native_before_sha256 : bytes) (now : Z) : res unit :=
  proof ← ok_or (intent_network_admission intent) "HOST_WINDOWS_NETWORK_ADMISSION_MISSING";
  fail_if (admission_binding_invalid intent proof trusted_system_public_key
             installed_release_sha256 config_sha256 native_before_sha256 now)
    "HOST_WINDOWS_NETWORK_ADMISSION_BINDING_OR_FRESHNESS_INVALID" ;;
  fail_if (negb (ed25519_verify trusted_system_public_key
                   (windows_network_admission_payload proof) (adm_system_signature proof)))
    "HOST_WINDOWS_NETWORK_ADMISSION_SYSTEM_SIGNATURE_INVALID".

Definition with_signature (proof : FleetWindowsNetworkAdmission) (signature : bytes)
    : FleetWindowsNetworkAdmission := {|
  adm_schema_version := adm_schema_version proof; adm_machine_id := adm_machine_id proof;
  adm_operation_id := adm_operation_id proof;
  adm_installed_release_sha256 := adm_installed_release_sha256 proof;
  adm_desired_release_set_sha256 := adm_desired_release_set_sha256 proof;
  adm_config_sha256 := adm_config_sha256 proof;
  adm_before_network_sha256 := adm_before_network_sha256 proof;
  adm_observed_at_unix := adm_observed_at_unix proof;
  adm_expires_at_unix := adm_expires_at_unix proof;
  adm_line1_witness_sha256 := adm_line1_witness_sha256 proof;
  adm_control_witness_sha256 := adm_control_witness_sha256 proof;
  adm_dns_witness_sha256 := adm_dns_witness_sha256 proof;
  adm_system_signature := signature |}.

Definition with_admission (intent : FleetHostIntent) (proof : FleetWindowsNetworkAdmission)
    : FleetHostIntent := {|
  intent_schema_version := intent_schema_version intent;
  intent_machine_id := intent_machine_id intent; intent_kind := intent_kind intent;
  intent_resource_id := intent_resource_id intent;
  intent_operation_id := intent_operation_id intent; intent_action := intent_action intent;
  intent_registry_sha256 := intent_registry_sha256 intent;
  intent_desired_sha256 := intent_desired_sha256 intent;
  intent_release_set_sha256 := intent_release_set_sha256 intent;
  intent_requested_mode := intent_requested_mode intent;
  intent_requested_at_unix := intent_requested_at_unix intent;
  intent_network_admission := Some proof |}.

Definition sign_windows_network_admission (intent : FleetHostIntent)
    (system_private_pkcs8 installed_release_sha256 config_sha256 before_network_sha256
     line1_witness_sha256 control_witness_sha256 dns_witness_sha256 : bytes)
    (observed_at_unix : Z) : res FleetWindowsNetworkAdmission :=
  public ← ok_or (ed25519_public_key system_private_pkcs8)
    "HOST_WINDOWS_NETWORK_ADMISSION_LOCAL_KEY_INVALID";
  let unsigned := {|
    adm_schema_version := 1;
    adm_machine_id := intent_machine_id intent;
    adm_operation_id := intent_operation_id intent;
    adm_installed_release_sha256 := installed_release_sha256;
    adm_desired_release_set_sha256 := intent_release_set_sha256 intent;
    adm_config_sha256 := config_sha256;
    adm_before_network_sha256 := before_network_sha256;
    adm_observed_at_unix := observed_at_unix;
    adm_expires_at_unix := u64_saturating_add observed_at_unix 60;
    adm_line1_witness_sha256 := line1_witness_sha256;
    adm_control_witness_sha256 := control_witness_sha256;
    adm_dns_witness_sha256 := dns_witness_sha256;
    adm_system_signature := []
  |} in
  let proof := with_signature unsigned
    (ed25519_sign system_private_pkcs8 (windows_network_admission_payload unsigned)) in
  verify_windows_network_admission (with_admission intent proof) public
    installed_release_sha256 config_sha256 before_network_sha256 observed_at_unix ;;
  Ok proof.
End Admission.

(** ** Binding an intent to the exact artifacts *)

Record BoundNativeHostArtifacts : Set := {
  bound_registry_sha256 : bytes;
  bound_desired_sha256 : bytes;
  bound_release_set_sha256 : bytes;
  bound_runtime_release_sha256 : bytes
}.

Section Binding.
Context `{Sha256} `{ProductionText} `{Message FleetHost} `{Message ApplyBundleRequest}
  `{Message FleetDesiredState} `{Message ReleaseSet}.

(** One host of the loop that clears the historical mode *)
Definition clear_historical_mode (exact_spec_bytes : bytes) (machine_id : string)
    (host : FleetHost) : res FleetHost :=
  match host_target host with
  | None => Ok host
  | Some target =>
      if target_windows_mode target =? as_i32 FleetHostMode_Unspecified then Ok host
      else
        fail_if (negb (host_kind host =? as_i32 FleetHostKind_Windows)
                 || negb (str_eqb (host_machine_id host) machine_id)
                 || negb (target_windows_mode target =? as_i32 FleetHostMode_ProxyOnly)
                 || negb (target_run_state target =? as_i32 FleetHostRunState_Stopped))
          "HOST_WINDOWS_HISTORICAL_MODE_NOT_ACCEPTED" ;;
        spec ← map_err (λ _, "HOST_WINDOWS_HISTORICAL_SPEC_INVALID")
          (parse_production_desired_text exact_spec_bytes);
        fail_if (negb (spec =? as_i32 WindowsDatapathMode_ProxyOnly))
          "HOST_WINDOWS_HISTORICAL_MODE_SPEC_MISMATCH" ;;
        Ok (with_target host (Some (with_mode target FleetHostMode_Unspecified)))
  end.

Definition decode_historical_windows_trust_registry (b exact_spec_bytes : bytes)
    (machine_id : string) : res FleetDesiredState :=
  fail_if (is_empty b || (65536 <? blen b)) "HOST_WINDOWS_HISTORICAL_REGISTRY_INVALID" ;;
  original ← ok_or (decode b) "HOST_WINDOWS_HISTORICAL_REGISTRY_INVALID";
  hosts ← try_map (clear_historical_mode exact_spec_bytes machine_id)
    (registry_hosts original);
  let checked := {| registry_schema_version := registry_schema_version original;
                    registry_hosts := hosts |} in
  map_err (λ _, "HOST_WINDOWS_HISTORICAL_REGISTRY_INVALID") (validate_host_registry checked) ;;
  fail_if (negb (existsb (λ host, (host_kind host =? as_i32 FleetHostKind_Windows)
                                  && str_eqb (host_machine_id host) machine_id) hosts))
    "HOST_WINDOWS_HISTORICAL_MACHINE_UNREGISTERED" ;;
  Ok original.

Definition bind_native_host_artifacts_inner (intent : FleetHostIntent)
    (registry_pb exact_spec_bytes release_set_pb : bytes) (vm_bundle_pb : option bytes)
    (historical_windows_trust : bool)
    : res (FleetDesiredState * BoundNativeHostArtifacts) :=
  fail_if (is_empty registry_pb || (65536 <? blen registry_pb)
           || is_empty release_set_pb || (65536 <? blen release_set_pb))
    "HOST_NATIVE_ARTIFACT_SIZE_INVALID" ;;
  registry ← (if historical_windows_trust
              then decode_historical_windows_trust_registry registry_pb exact_spec_bytes
                     (intent_machine_id intent)
              else map_err (λ _, "HOST_NATIVE_REGISTRY_INVALID")
                     (decode_host_registry registry_pb));
  host ← ok_or (List.find (λ h, str_eqb (host_machine_id h) (intent_machine_id intent)
                                && (host_kind h =? intent_kind intent))
                  (registry_hosts registry)) "HOST_NATIVE_MACHINE_UNREGISTERED";
  release ← ok_or (decode (A:=ReleaseSet) release_set_pb) "HOST_NATIVE_RELEASE_PROTO_INVALID";
  fail_if (release_schema_invalid release
           || negb (slen (release_source_revision release) =? 40)
           || negb (str_all is_lower_hex (release_source_revision release)))
    "HOST_NATIVE_RELEASE_SCHEMA_INVALID" ;;
  fail_if (negb (bytes_eqb (encode_to_vec release) release_set_pb))
    "HOST_NATIVE_RELEASE_NONCANONICAL" ;;
  runtime_release_sha256 ←
    match try_from (intent_kind intent) with
    | Some FleetHostKind_Windows =>
        fail_if (bool_decide (is_Some vm_bundle_pb))
          "HOST_NATIVE_WINDOWS_VM_ARTIFACT_FORBIDDEN" ;;
        Ok (sha256 release_set_pb)
    | Some FleetHostKind_Vm =>
        vm_bundle_pb ← ok_or vm_bundle_pb "HOST_NATIVE_VM_BUNDLE_REQUIRED";
        native_vm_bundle_runtime_digest release vm_bundle_pb
    | _ => Err "HOST_NATIVE_OWNER_KIND_INVALID"
    end;
  fail_if (negb (sha runtime_release_sha256)) "HOST_NATIVE_RUNTIME_RELEASE_INVALID" ;;
  desired ← digest_host_desired host exact_spec_bytes;
  let bound := {|
    bound_registry_sha256 := sha256 registry_pb;
    bound_desired_sha256 := desired;
    bound_release_set_sha256 := sha256 release_set_pb;
    bound_runtime_release_sha256 := runtime_release_sha256
  |} in
  validate_host_intent intent registry (bound_registry_sha256 bound)
    (bound_desired_sha256 bound) (bound_release_set_sha256 bound) ;;
  Ok (registry, bound).

Definition bind_native_host_artifacts (intent : FleetHostIntent)
    (registry_pb exact_spec_bytes release_set_pb : bytes) (vm_bundle_pb : option bytes)
    : res (FleetDesiredState * BoundNativeHostArtifacts) :=
  bind_native_host_artifacts_inner intent registry_pb exact_spec_bytes release_set_pb
    vm_bundle_pb false.

Definition bind_historical_windows_trust_artifacts (intent : FleetHostIntent)
    (registry_pb exact_spec_bytes release_set_pb : bytes)
    : res (FleetDesiredState * BoundNativeHostArtifacts) :=
  fail_if (negb (intent_kind intent =? as_i32 FleetHostKind_Windows))
    "HOST_WINDOWS_HISTORICAL_KIND_INVALID" ;;
  bind_native_host_artifacts_inner intent registry_pb exact_spec_bytes release_set_pb None true.
End Binding.
