(* ===== verification/HostLifecycleFacts.v ===== *)
(** * Properties of the host lifecycle contract

    What an authorization signs and when it is valid, what the digests of an
    intent bind, which actions a target permits, which results an observer may
    accept, and that a signed network admission verifies exactly inside its
    window. *)

From S2P Require Import Prelude RustStd RustNet HostTypes Concrete ResourceGraph.
From S2P Require Import ResourceGraphFacts ResourceReport HostRegistry ApplyBundle.
From S2P Require Import HostLifecycle.

(** ** Authorization *)

Section Authorization.
Context `{MessageLaws FleetHostIntent R} `{Ed25519}.

Lemma u64_bytes_inj a b r s :
  in_u64 a → in_u64 b → u64_to_be_bytes a ++ r = u64_to_be_bytes b ++ s → a = b ∧ r = s.
Proof.
  unfold u64_to_be_bytes, in_u64, u64_max. intros ?? [E ?]%app_inj_len;
    [|by rewrite !length_be_bytes].
  split; [|done]. apply (be_bytes_inj 8); [lia..|done].
Qed.

(** Sizes a [u32] length can express, and times that are [u64] *)
Definition authorization_sized (intent : FleetHostIntent) (a : FleetHostAuthorization) : Prop :=
  blen (encode_to_vec intent) ≤ u32_max ∧ slen (auth_key_id a) ≤ u32_max ∧
  slen (auth_operation_id a) ≤ u32_max ∧
  in_u64 (auth_issued_at_unix a) ∧ in_u64 (auth_expires_at_unix a).

(** The byte string the Worker signs determines the whole intent and the key,
    operation and validity period of the authorization: a signature for one pair is
    never a signature for another. *)
Theorem authorization_payload_injective i1 i2 a1 a2 :
  R i1 → R i2 → authorization_sized i1 a1 → authorization_sized i2 a2 →
  host_authorization_payload i1 a1 = host_authorization_payload i2 a2 →
  i1 = i2 ∧ auth_key_id a1 = auth_key_id a2 ∧ auth_operation_id a1 = auth_operation_id a2 ∧
  auth_issued_at_unix a1 = auth_issued_at_unix a2 ∧
  auth_expires_at_unix a1 = auth_expires_at_unix a2.
Proof.
  intros HR1 HR2 (? & ? & ? & ? & ?) (? & ? & ? & ? & ?). unfold host_authorization_payload.
  unfold u32_max in *. intros E%app_inv_head.
  apply framed_inj in E as [Ei E]; [|simpl; lia..].
  apply framed_inj in E as [Ek%as_bytes_inj E]; [|rewrite blen_as_bytes; simpl; lia..].
  apply framed_inj in E as [Eo%as_bytes_inj E]; [|rewrite blen_as_bytes; simpl; lia..].
  apply u64_bytes_inj in E as [Et E]; [|done..].
  rewrite <- (app_nil_r (u64_to_be_bytes (auth_expires_at_unix a1))),
    <- (app_nil_r (u64_to_be_bytes (auth_expires_at_unix a2))) in E.
  apply u64_bytes_inj in E as [Ex _]; [|done..].
  apply encode_inj in Ei; [|done..]. auto.
Qed.

(** An accepted authorization is for exactly this operation, its signature verifies
    over this intent under the pinned key, it lives at most 300 seconds, and it is
    used no earlier than 60 seconds before and no later than 60 seconds after that
    period, also when the clock arithmetic saturates. *)
Theorem authorization_window intent a key now :
  in_u64 now → in_u64 (auth_issued_at_unix a) → in_u64 (auth_expires_at_unix a) →
  verify_host_authorization intent a key now = Ok tt →
  auth_operation_id a = intent_operation_id intent ∧
  ed25519_verify key (host_authorization_payload intent a) (auth_ed25519_signature a) = true ∧
  0 < auth_expires_at_unix a - auth_issued_at_unix a ≤ 300 ∧
  auth_issued_at_unix a - 60 ≤ now ≤ auth_expires_at_unix a + 60 ∧
  now - auth_issued_at_unix a ≤ 360.
Proof.
  intros ??? Hv. unfold verify_host_authorization in Hv. inv_ok Hv.
  reflect_in Hm. reflect_in Hm0. reflect_in Hv. destruct_and! Hm. destruct_and! Hm0.
  unfold u64_saturating_add, in_u64 in *. split_and!; try done; lia.
Qed.
End Authorization.

(** ** Desired digest *)

Section Desired.
Context `{Sha256} `{MessageLaws FleetHost R}.

Lemma host_desired_payload_inj h1 h2 s1 s2 :
  R h1 → R h2 → blen (encode_to_vec h1) ≤ u32_max → blen (encode_to_vec h2) ≤ u32_max →
  blen s1 ≤ 1048576 → blen s2 ≤ 1048576 →
  host_desired_payload h1 s1 = host_desired_payload h2 s2 → h1 = h2 ∧ s1 = s2.
Proof.
  unfold host_desired_payload, u32_max. intros ?????? E%app_inv_head.
  apply framed_inj in E as [Eh E]; [|simpl; lia..].
  rewrite <- (app_nil_r (framed 4 s1)), <- (app_nil_r (framed 4 s2)) in E.
  apply framed_inj in E as [Es _]; [|simpl; lia..].
  apply encode_inj in Eh; [|done..]. auto.
Qed.

(** Two (host, specification) pairs with the same desired digest are equal, or the
    hashed byte strings are an explicit SHA-256 collision: the digest an intent
    carries pins the machine, its run state and the exact specification. *)
Theorem desired_digest_binds h1 h2 s1 s2 d :
  R h1 → R h2 → blen (encode_to_vec h1) ≤ u32_max → blen (encode_to_vec h2) ≤ u32_max →
  digest_host_desired h1 s1 = Ok d → digest_host_desired h2 s2 = Ok d →
  (h1 = h2 ∧ s1 = s2) ∨
  sha256_collision (host_desired_payload h1 s1) (host_desired_payload h2 s2).
Proof.
  unfold digest_host_desired. intros ???? Hd1 Hd2. inv_ok Hd1.
  apply bind_Ok in Hd2 as ([] & Hs2%fail_if_Ok & [= Hd2]).
  reflect_in Hm. reflect_in Hs2.
  symmetry in Hd2. apply sha256_eq in Hd2 as [E|]; [left|by right].
  apply host_desired_payload_inj in E; tauto || lia.
Qed.
End Desired.

(** ** Targets and actions *)

(** Against the Git target, START is accepted only for a RUNNING target and STOP
    only for a STOPPED one, no action is accepted for an unset target or a
    duplicated mode, and SET_MODE is never accepted. *)
Theorem intent_respects_target intent registry :
  validate_intent_against_target intent registry = Ok tt →
  ∃ host target, find_host registry (intent_machine_id intent) = Some host ∧
    host_target host = Some target ∧
    target_windows_mode target = as_i32 FleetHostMode_Unspecified ∧
    (intent_action intent = as_i32 FleetHostAction_Start →
       target_run_state target = as_i32 FleetHostRunState_Running) ∧
    (intent_action intent = as_i32 FleetHostAction_Stop →
       target_run_state target = as_i32 FleetHostRunState_Stopped) ∧
    intent_action intent ≠ as_i32 FleetHostAction_SetMode.
Proof.
  unfold validate_intent_against_target. intros Hv. inv_ok Hv.
  repeat match goal with Hf : try_from _ = Some _ |- _ => apply try_from_Some in Hf end.
  exists x, x0. split; [done|]. split; [done|].
  reflect_in Hm3. reflect_in Hm5. reflect_in Hm6. subst.
  rewrite Hm1, Hm2, Hm4, !as_i32_inj. split; [done|].
  destruct x1, x2; try done; simpl in Hv; try done; split_and!; intros; done.
Qed.

(** Before BEGIN, a managed TUN datapath may only be staged or stopped on a stopped
    owner, and may only be started from a stopped owner with a RUNNING target and a
    separately verified network admission; an admission for a proxy-only datapath is
    refused. *)
Theorem managed_tun_start_needs_admission mode action run owner admitted :
  validate_windows_datapath_prebegin_with_admission mode action run owner admitted = Ok tt →
  (mode = WindowsDatapathMode_ProxyOnly ∧ admitted = false) ∨
  (mode = WindowsDatapathMode_ManagedTun ∧ owner = FleetNativeOwnerState_Stopped ∧
   ((action = FleetHostAction_Start ∧ run = FleetHostRunState_Running ∧ admitted = true) ∨
    ((action = FleetHostAction_Stop ∨ action = FleetHostAction_Apply) ∧
     run = FleetHostRunState_Stopped ∧ admitted = false))).
Proof.
  destruct mode; simpl; [done| |].
  - destruct admitted; [done|]. auto.
  - intros Hv. right. split; [done|].
    destruct action; try done; destruct run; try done; destruct owner; try done;
      destruct admitted; try done; auto 10.
Qed.

(** ** Results *)

Lemma upper_snake_projection reason :
  str_all upper_snake_char (fst (host_result_reason_projection reason)) = true ∧
  str_all upper_snake_char (snd (host_result_reason_projection reason)) = true ∧
  slen (fst (host_result_reason_projection reason)) ≤ 128 ∧
  slen (snd (host_result_reason_projection reason)) ≤ 128.
Proof. destruct reason; vm_compute; repeat split; discriminate. Qed.

(** An external observer accepts a result only if it repeats the intent's machine,
    resource, operation, action and digests, and never one that claims
    authorization, verification or a physical readback; the result of a
    prepared intent is always acceptable. *)
Theorem host_result_unprivileged result intent :
  (validate_host_result result intent = Ok tt →
     result_machine_id result = intent_machine_id intent ∧
     result_resource_id result = intent_resource_id intent ∧
     result_operation_id result = intent_operation_id intent ∧
     result_action result = intent_action intent ∧
     result_release_set_sha256 result = intent_release_set_sha256 intent ∧
     result_desired_sha256 result = intent_desired_sha256 intent ∧
     result_state result ≠ as_i32 FleetHostResultState_Authorized ∧
     result_state result ≠ as_i32 FleetHostResultState_Verified ∧
     result_physical_readback result = false) ∧
  validate_host_result (prepared_host_result intent) intent = Ok tt.
Proof.
  split.
  - unfold validate_host_result, result_uncorrelated. intros Hv. inv_ok Hv.
    reflect_in Hm. destruct_and! Hm. apply try_from_Some in Hm0.
    apply bool_decide_eq_false in Hm1. rewrite Hm0, !as_i32_inj.
    assert (Hnv : x0 ≠ FleetHostResultState_Verified) by tauto.
    rewrite (bool_decide_false (x0 = FleetHostResultState_Verified)) in Hv by done.
    simpl in Hv. reflect_in Hv.
    split_and!; tauto.
  - unfold validate_host_result, result_uncorrelated, prepared_host_result. simpl.
    by rewrite !Z.eqb_refl, !(proj2 (str_eqb_true _ _) eq_refl),
      !(proj2 (bytes_eqb_true _ _) eq_refl).
Qed.

(** ** Network admission *)

Section AdmissionFacts.
Context `{Message FleetWindowsNetworkAdmission} `{Ed25519Laws}.

Definition admission_inputs_ok (intent : FleetHostIntent)
    (installed config before line1 control dns : bytes) (observed_at : Z) : Prop :=
  intent_kind intent = as_i32 FleetHostKind_Windows ∧
  intent_action intent = as_i32 FleetHostAction_Start ∧
  sha installed = true ∧ sha config = true ∧ sha before = true ∧
  sha line1 = true ∧ sha control = true ∧ sha dns = true ∧
  0 < observed_at < u64_max.

(** Signing a network admission for a Windows start succeeds, and the signed admission
    verifies against the same release, configuration and network digests exactly
    during the sixty seconds from its observation. *)
Theorem admission_sign_verify intent key public installed config before line1 control dns t :
  ed25519_public_key key = Some public →
  admission_inputs_ok intent installed config before line1 control dns t →
  ∃ proof,
    sign_windows_network_admission intent key installed config before line1 control dns t
      = Ok proof ∧
    ∀ now, verify_windows_network_admission (with_admission intent proof) public installed
             config before now = Ok tt ↔ t ≤ now ≤ u64_saturating_add t 60.
Proof.
  intros Hkey (Hk & Ha & Hi & Hc & Hb & Hl & Hct & Hd & Ht).
  pose proof (ed25519_public_key_length _ _ Hkey) as Hlen.
  unfold sign_windows_network_admission. rewrite Hkey. cbn [ok_or mbind result_bind].
  match goal with |- context [with_signature ?u ?s] =>
    set (proof := with_signature u s); set (unsigned := u) in * end.
  assert (Hver : ∀ now, verify_windows_network_admission (with_admission intent proof) public
             installed config before now = Ok tt ↔ t ≤ now ≤ u64_saturating_add t 60).
  { intros now. unfold verify_windows_network_admission. cbn [with_admission
      intent_network_admission ok_or mbind result_bind].
    assert (Hsig : ed25519_verify public (windows_network_admission_payload proof)
                     (adm_system_signature proof) = true)
      by (apply (ed25519_sign_verify key public _ Hkey)).
    rewrite Hsig.
    transitivity (admission_binding_invalid (with_admission intent proof) proof public
      installed config before now = false).
    { destruct (admission_binding_invalid _ _ _ _ _ _ _); simpl; split; done. }
    unfold admission_binding_invalid. cbn [with_admission intent_kind intent_action
      intent_machine_id intent_operation_id intent_release_set_sha256 proof with_signature
      unsigned adm_schema_version adm_machine_id adm_operation_id adm_installed_release_sha256
      adm_desired_release_set_sha256 adm_config_sha256 adm_before_network_sha256
      adm_line1_witness_sha256 adm_control_witness_sha256 adm_dns_witness_sha256
      adm_observed_at_unix adm_expires_at_unix adm_system_signature].
    rewrite Hk, Ha, Hi, Hc, Hb, Hl, Hct, Hd, !Z.eqb_refl,
      !(proj2 (str_eqb_true _ _) eq_refl), !(proj2 (bytes_eqb_true _ _) eq_refl).
    unfold blen. rewrite ed25519_sign_length, Hlen. cbn [negb orb Z.of_nat].
    unfold u64_saturating_add in *. autorewrite with reflect. unfold u64_max in *. simpl. lia. }
  exists proof. split; [|done].
  replace (verify_windows_network_admission _ _ _ _ _ _) with (@Ok string unit tt); [done|].
  symmetry. apply Hver. unfold u64_saturating_add. lia.
Qed.
End AdmissionFacts.

(** ** Hexadecimal digests *)

Lemma nibble_lor h l : 0 ≤ h < 16 → 0 ≤ l < 16 → Z.lor (Z.shiftl h 4) l = 16 * h + l.
Proof.
  intros Hh Hl.
  assert (T : forallb (λ i, forallb (λ j, Z.lor (Z.shiftl (Z.of_nat i) 4) (Z.of_nat j)
    =? 16 * Z.of_nat i + Z.of_nat j) (seq 0 16)) (seq 0 16) = true) by (vm_compute; reflexivity).
  rewrite forallb_forall in T. specialize (T (Z.to_nat h) ltac:(apply in_seq; lia)).
  rewrite forallb_forall in T. specialize (T (Z.to_nat l) ltac:(apply in_seq; lia)).
  rewrite !Z2Nat.id in T by lia. by apply Z.eqb_eq in T.
Qed.

Lemma decode_hex_of_bytes e b : decode_hex_pairs e (hex_of_bytes b) = Ok b.
Proof.
  induction b as [|x b IH]; [done|].
  change (hex_of_bytes (x :: b)) with (String (hex_char (Z.of_N (Byte.to_N x) / 16))
    (String (hex_char (Z.of_N (Byte.to_N x) mod 16)) (hex_of_bytes b))).
  pose proof (byte_to_N_bound x) as Hx. set (n := Z.of_N (Byte.to_N x)) in *.
  assert (H1 : 0 ≤ n / 16 < 16) by (split; [apply Z.div_pos|apply Z.div_lt_upper_bound]; lia).
  assert (H2 : 0 ≤ n mod 16 < 16) by (apply Z.mod_pos_bound; lia).
  cbn [decode_hex_pairs].
  rewrite (proj2 (hex_char_facts _ H1)), (proj2 (hex_char_facts _ H2)), IH.
  cbn [ok_or mbind result_bind]. do 2 f_equal.
  replace (Z.lor (Z.shiftl (n / 16) 4) (n mod 16)) with n.
  - unfold byte_of_Z. rewrite Z.mod_small by done. unfold n. rewrite N2Z.id.
    by rewrite Byte.of_to_N.
  - rewrite nibble_lor by done. apply Z.div_mod. lia.
Qed.

(** ** Runtime digest and artifact binding *)

Section BindingFacts.
Context `{Sha256} `{ProductionText} `{Message FleetHost} `{Message ApplyBundleRequest}
  `{Message FleetDesiredState} `{Message ReleaseSet}.

(** The runtime digest expected of a VM is the logical digest of the very bundle whose
    transport digest the release publishes, decoded from hexadecimal without loss;
    such a bundle prunes and carries no host files, summary or agent environment. *)
Theorem runtime_digest_is_logical release bundle d :
  native_vm_bundle_runtime_digest release bundle = Ok d →
  ∃ vm request, release_vm_runtime release = Some vm ∧
    vmrt_application_bundle_sha256 vm = sha256 bundle ∧
    decode bundle = Some request ∧ encode_to_vec request = bundle ∧
    canonical_apply_bundle_digest request = Ok (hex_of_bytes d) ∧
    apply_prune_existing request = true ∧ apply_host_files request = [] ∧
    apply_deployment_summary request = None ∧ apply_agent_env_file request = None ∧
    length d = 32%nat.
Proof.
  unfold native_vm_bundle_runtime_digest. intros Hn. inv_ok Hn.
  reflect_in Hm1. reflect_in Hm3. reflect_in Hm6. destruct_and! Hm3. destruct Hm6 as [-> _].
  apply canonical_digest_Ok in Hm5 as Hc. destruct Hc as (id & _ & _ & _ & ->).
  rewrite decode_hex_of_bytes in Hm7. injection Hm7 as <-.
  exists x0, x2. split_and!; try done; try naive_solver.
  - by apply eq_None_not_Some.
  - by apply eq_None_not_Some.
  - apply sha256_length.
Qed.

(** Artifacts bound to an intent are the ones whose digests the intent carries, for
    the registered host of its machine and kind; binding the same intent to other
    registry or release bytes needs a SHA-256 collision. *)
Theorem artifact_binding intent reg_pb spec rel_pb vm_pb historical registry bound :
  bind_native_host_artifacts_inner intent reg_pb spec rel_pb vm_pb historical
    = Ok (registry, bound) →
  intent_registry_sha256 intent = sha256 reg_pb ∧
  intent_release_set_sha256 intent = sha256 rel_pb ∧
  (∃ host, host ∈ registry_hosts registry ∧ host_machine_id host = intent_machine_id intent ∧
     host_kind host = intent_kind intent ∧
     digest_host_desired host spec = Ok (intent_desired_sha256 intent)) ∧
  ∀ reg_pb' spec' rel_pb' vm_pb' historical' registry' bound',
    bind_native_host_artifacts_inner intent reg_pb' spec' rel_pb' vm_pb' historical'
      = Ok (registry', bound') →
    (reg_pb' = reg_pb ∨ sha256_collision reg_pb' reg_pb) ∧
    (rel_pb' = rel_pb ∨ sha256_collision rel_pb' rel_pb).
Proof.
  assert (Hb : ∀ reg_pb spec rel_pb vm_pb historical registry bound,
    bind_native_host_artifacts_inner intent reg_pb spec rel_pb vm_pb historical
      = Ok (registry, bound) →
    intent_registry_sha256 intent = sha256 reg_pb ∧
    intent_release_set_sha256 intent = sha256 rel_pb ∧
    (∃ host, host ∈ registry_hosts registry ∧ host_machine_id host = intent_machine_id intent ∧
       host_kind host = intent_kind intent ∧
       digest_host_desired host spec = Ok (intent_desired_sha256 intent))).
  { clear. intros reg_pb spec rel_pb vm_pb historical registry bound Hb.
    unfold bind_native_host_artifacts_inner in Hb. inv_ok Hb.
    match goal with Hv : validate_host_intent _ _ _ _ _ = Ok _ |- _ =>
      unfold validate_host_intent in Hv;
      apply bind_Ok in Hv as ([] & _ & Hv); apply bind_Ok in Hv as ([] & Hdig & _) end.
    apply fail_if_Ok in Hdig. reflect_in Hdig. cbn in Hdig. destruct_and! Hdig.
    split; [done|]. split; [done|].
    match goal with Hf : List.find _ _ = Some ?h |- _ =>
      exists h; apply List.find_some in Hf as [Hin Heq] end.
    apply andb_true in Heq as [Hid Hkind]. apply str_eqb_true in Hid.
    apply Z.eqb_eq in Hkind. split_and!; try done; [by apply list_elem_of_In|congruence]. }
  intros Hbind. pose proof (Hb _ _ _ _ _ _ _ Hbind) as (E1 & E2 & Hh). split_and!; try done.
  intros reg' spec' rel' vm' hist' registry' bound' Hbind'.
  pose proof (Hb _ _ _ _ _ _ _ Hbind') as (E1' & E2' & _).
  split; apply sha256_eq; congruence.
Qed.
End BindingFacts.

(** ** Witnesses *)

Module LifecycleSample.
Import RegistrySample.
Definition release_set : ReleaseSet := {|
  release_schema_version := 8;
  release_source_revision := String.string_of_list_ascii (replicate 40 "a"%char);
  release_sing_box := None; release_windows_runtime := None; release_vm_runtime := None;
  release_cloudflare := None; release_schemas := None |}.
#[local] Instance release_message : Message ReleaseSet := table_message [release_set].
#[local] Instance registry_message : Message FleetDesiredState := table_message [registry].
#[local] Instance host_message : Message FleetHost := table_message [windows; GraphSample.host].
#[local] Instance host_laws : MessageLaws FleetHost (.∈ [windows; GraphSample.host]) :=
  table_message_laws _.
#[local] Instance text : ProductionText := {| parse_production_desired_text := λ _, Ok 1 |}.
#[local] Instance other_message A : Message A | 100 := null_message A.
Definition spec : bytes := [x0a; x0b].

Definition desired : bytes :=
  match digest_host_desired windows spec with Ok d => d | Err _ => [] end.
Definition intent_for (op : string) (action : FleetHostAction) : FleetHostIntent := {|
  intent_schema_version := 1; intent_machine_id := "pc-1"; intent_kind := 1;
  intent_resource_id := "sing-box"; intent_operation_id := op;
  intent_action := as_i32 action; intent_registry_sha256 := sha256 [x01];
  intent_desired_sha256 := desired; intent_release_set_sha256 := sha256 [x01];
  intent_requested_mode := 0; intent_requested_at_unix := 5;
  intent_network_admission := None |}.
Definition intent := intent_for "op-1" FleetHostAction_Stop.
Definition intent_message : Message FleetHostIntent := table_message [intent].
#[local] Existing Instance intent_message.
#[local] Instance intent_laws : MessageLaws FleetHostIntent (.∈ [intent]) :=
  table_message_laws _.

Definition unsigned : FleetHostAuthorization := {|
  auth_schema_version := 1; auth_key_id := "k1"; auth_operation_id := "op-1";
  auth_issued_at_unix := 1000; auth_expires_at_unix := 1200; auth_ed25519_signature := [] |}.
Definition private_key : bytes := [x05].
Definition authorization : FleetHostAuthorization := {|
  auth_schema_version := 1; auth_key_id := "k1"; auth_operation_id := "op-1";
  auth_issued_at_unix := 1000; auth_expires_at_unix := 1200;
  auth_ed25519_signature :=
    ed25519_sign private_key (host_authorization_payload intent unsigned) |}.

(** Witness of [authorization_payload_injective]. *)
Lemma authorization_payload_injective_witness :
  auth_key_id unsigned = auth_key_id authorization.
Proof.
  apply (authorization_payload_injective intent intent unsigned authorization).
  - apply list_elem_of_singleton. reflexivity.
  - apply list_elem_of_singleton. reflexivity.
  - vm_compute. repeat split; discriminate.
  - vm_compute. repeat split; discriminate.
  - vm_compute. reflexivity.
Defined.

(** Witness of [authorization_window]. *)
Lemma authorization_window_witness :
  ed25519_verify (sha256 private_key) (host_authorization_payload intent authorization)
    (auth_ed25519_signature authorization) = true.
Proof.
  apply (authorization_window intent authorization (sha256 private_key) 1100).
  - vm_compute. repeat split; discriminate.
  - vm_compute. repeat split; discriminate.
  - vm_compute. repeat split; discriminate.
  - vm_compute. reflexivity.
Defined.

(** Witness of [desired_digest_binds]. *)
Lemma desired_digest_binds_witness :
  (windows = windows ∧ spec = spec) ∨
  sha256_collision (host_desired_payload windows spec) (host_desired_payload windows spec).
Proof.
  apply (desired_digest_binds windows windows spec spec desired).
  - apply elem_of_cons. left. reflexivity.
  - apply elem_of_cons. left. reflexivity.
  - vm_compute. discriminate.
  - vm_compute. discriminate.
  - vm_compute. reflexivity.
  - vm_compute. reflexivity.
Defined.

(** Witness of [intent_respects_target]. *)
Lemma intent_respects_target_witness :
  ∃ host target, find_host registry "pc-1" = Some host ∧ host_target host = Some target.
Proof.
  destruct (intent_respects_target intent registry) as (h & t & E1 & E2 & _).
  - vm_compute. reflexivity.
  - exists h, t. split; assumption.
Defined.

(** Witness of [managed_tun_start_needs_admission]. *)
Lemma managed_tun_start_needs_admission_witness :
  validate_windows_datapath_prebegin WindowsDatapathMode_ManagedTun FleetHostAction_Start
    FleetHostRunState_Running FleetNativeOwnerState_Stopped
  = Err "HOST_WINDOWS_CONFIG_NETWORK_ADMISSION_REQUIRED" ∧
  (true = false ∨ true = true).
Proof.
  split; [reflexivity|].
  destruct (managed_tun_start_needs_admission WindowsDatapathMode_ManagedTun
    FleetHostAction_Start FleetHostRunState_Running FleetNativeOwnerState_Stopped true)
    as [[H _]|(_ & _ & [(_ & _ & H)|(_ & _ & H)])].
  - reflexivity.
  - discriminate H.
  - right. exact H.
  - left. exact H.
Defined.

(** Witness of [admission_sign_verify]. *)
Lemma admission_sign_verify_witness :
  ∃ proof, sign_windows_network_admission (intent_for "op-2" FleetHostAction_Start) private_key
    (sha256 [x01]) (sha256 [x02]) (sha256 [x03]) (sha256 [x04]) (sha256 [x05]) (sha256 [x06])
    1000 = Ok proof.
Proof.
  destruct (admission_sign_verify (intent_for "op-2" FleetHostAction_Start) private_key
    (sha256 private_key) (sha256 [x01]) (sha256 [x02]) (sha256 [x03]) (sha256 [x04])
    (sha256 [x05]) (sha256 [x06]) 1000) as (proof & E & _).
  - vm_compute. reflexivity.
  - vm_compute. repeat split; discriminate.
  - exists proof. exact E.
Defined.

(** Witness of [artifact_binding]. *)
Lemma artifact_binding_witness :
  intent_registry_sha256 intent = sha256 [x01].
Proof.
  destruct (bind_native_host_artifacts_inner intent [x01] spec [x01] None false)
    as [[r b]|e] eqn:E.
  - exact (proj1 (artifact_binding intent [x01] spec [x01] None false r b E)).
  - vm_compute in E. discriminate E.
Defined.
End LifecycleSample.

Module RuntimeSample.
Definition unsigned_request : ApplyBundleRequest := {|
  apply_stack_files := [BundleSample.file "compose.yml" x01]; apply_host_files := [];
  apply_deployment_summary := None; apply_agent_env_file := None;
  apply_prune_existing := true; apply_bundle_id := Some "app:1"; apply_bundle_digest := None |}.
Definition logical : string :=
  match canonical_apply_bundle_digest unsigned_request with Ok d => d | Err e => e end.
Definition request : ApplyBundleRequest := {|
  apply_stack_files := [BundleSample.file "compose.yml" x01]; apply_host_files := [];
  apply_deployment_summary := None; apply_agent_env_file := None;
  apply_prune_existing := true; apply_bundle_id := Some "app:1";
  apply_bundle_digest := Some logical |}.
#[local] Instance request_message : Message ApplyBundleRequest := table_message [request].
Definition release : ReleaseSet := {|
  release_schema_version := 8; release_source_revision := ""; release_sing_box := None;
  release_windows_runtime := None;
  release_vm_runtime := Some {| vmrt_edge_agent_sha256 := []; vmrt_sing_box_image := None;
    vmrt_warp_egress_image := None; vmrt_docker_engine_version := "";
    vmrt_containerd_version := ""; vmrt_compose_version := "";
    vmrt_edge_controller_sha256 := []; vmrt_edge_orchestrator_sha256 := [];
    vmrt_runtime_input_sha256 := []; vmrt_runtime_source_revision := "";
    vmrt_application_bundle_sha256 := sha256 [x01] |};
  release_cloudflare := None; release_schemas := None |}.

(** Witness of [runtime_digest_is_logical]. *)
Lemma runtime_digest_is_logical_witness :
  ∃ d, native_vm_bundle_runtime_digest release [x01] = Ok d ∧ length d = 32%nat.
Proof.
  destruct (native_vm_bundle_runtime_digest release [x01]) as [d|e] eqn:E.
  - exists d. split; [reflexivity|].
    destruct (runtime_digest_is_logical release [x01] d E)
      as (vm & r & _ & _ & _ & _ & _ & _ & _ & _ & _ & H). exact H.
  - vm_compute in E. discriminate E.
Defined.
End RuntimeSample.
