(* ===== verification/HostPlanner.v ===== *)
(** * The host transition planner

    Models [edge-shared-types/src/host_planner.rs]: the pure proposal from a
    desired host and an observation, its signed variant, and the validator of
    a plan.  A plan never carries authority; every proposal satisfies the
    validator; a stopped target is never started or installed. *)

From S2P Require Import Prelude RustStd RustNet HostTypes Concrete ResourceGraph.
From S2P Require Import ResourceGraphFacts ResourceReport ResourcePlan HostRegistry.
From S2P Require Import ApplyBundle HostLifecycle.

(** [reason.as_str_name().strip_prefix("FLEET_HOST_PLAN_REASON_")] *)
Definition host_reason_code (reason : FleetHostPlanReason) : option string :=
  strip_prefix "FLEET_HOST_PLAN_REASON_" (FleetHostPlanReason_as_str_name reason).

(** [plan]; the [expect] on the prefix never fails ([host_reason_code_total]). *)
Definition plan (host : FleetHost) (step : FleetHostPlannedStep)
    (reason : FleetHostPlanReason) (expected observed : bytes) : FleetHostTransitionPlan := {|
  plan_schema_version := 1;
  plan_machine_id := host_machine_id host;
  plan_step := as_i32 step;
  plan_reason_code := default "" (host_reason_code reason);
  plan_expected_release_digest := expected;
  plan_observed_release_digest := observed;
  plan_owner_attested := false;
  plan_mutation_authorized := false;
  plan_reason := as_i32 reason
|}.

(** ** The decision on an observation that is valid and fresh *)

(** Lines 235-368: from the release proof to the step *)
Definition plan_release (host : FleetHost) (kind : FleetHostKind)
    (desired_run : FleetHostRunState) (state : FleetNativeOwnerState)
    (observed : FleetNativeObservation) (expected actual : bytes) : FleetHostTransitionPlan :=
  let proof := try_from (obs_release_proof observed) in
  if bool_decide (proof = Some FleetNativeReleaseProof_VerifiedAbsent) then
    match desired_run, state with
    | FleetHostRunState_Running, FleetNativeOwnerState_Stopped =>
        plan host FleetHostPlannedStep_Install
          FleetHostPlanReason_VerifiedAbsentInstallProposalOnly expected []
    | FleetHostRunState_Stopped, FleetNativeOwnerState_Stopped =>
        plan host FleetHostPlannedStep_Blocked
          FleetHostPlanReason_AbsentInstallWithStoppedTarget expected []
    | _, _ =>
        plan host FleetHostPlannedStep_Blocked
          FleetHostPlanReason_AbsenceOwnerStateConflict expected []
    end
  else
  let expected_proof :=
    if bool_decide (kind = FleetHostKind_Windows)
    then FleetNativeReleaseProof_ActivationRecord
    else FleetNativeReleaseProof_ApplicationBundle in
  if negb (bool_decide (proof = Some expected_proof)) then
    plan host FleetHostPlannedStep_Blocked
      FleetHostPlanReason_NativeReleaseProofUnproven expected actual
  else if bool_decide (desired_run = FleetHostRunState_Stopped) then
    match state with
    | FleetNativeOwnerState_Running =>
        plan host FleetHostPlannedStep_Stop
          FleetHostPlanReason_StopTargetOverridesReleaseMismatch expected actual
    | FleetNativeOwnerState_Stopped =>
        if negb (bytes_eqb actual expected) then
          plan host FleetHostPlannedStep_Blocked
            FleetHostPlanReason_StoppedReleaseMismatchRequiresInstallTarget expected actual
        else
          plan host FleetHostPlannedStep_Noop
            FleetHostPlanReason_StoppedMatchesDesiredLocalOnly expected actual
    | _ =>
        plan host FleetHostPlannedStep_Blocked
          FleetHostPlanReason_NativeStateUnproven expected actual
    end
  else if negb (bytes_eqb actual expected) then
    plan host FleetHostPlannedStep_ReplaceRelease
      FleetHostPlanReason_ReleaseMismatchProposalOnly expected actual
  else
    match desired_run, state with
    | FleetHostRunState_Running, FleetNativeOwnerState_Stopped =>
        plan host FleetHostPlannedStep_Start
          FleetHostPlanReason_StartProposalOnly expected actual
    | FleetHostRunState_Running, FleetNativeOwnerState_Running =>
        if obs_runtime_ready_proven observed && obs_runtime_ready observed then
          plan host FleetHostPlannedStep_Noop
            FleetHostPlanReason_RunningMatchesLocalNotExternal expected actual
        else if bool_decide (kind = FleetHostKind_Vm) && obs_runtime_ready_proven observed then
          plan host FleetHostPlannedStep_Start
            FleetHostPlanReason_VmDegradedRequiresScopedContainerPreadmission expected actual
        else
          plan host FleetHostPlannedStep_Blocked
            FleetHostPlanReason_RuntimeReadinessUnproven expected actual
    | _, _ =>
        plan host FleetHostPlannedStep_Blocked
          FleetHostPlanReason_RuntimeReadinessUnproven expected actual
    end.

Section Planner.
Context `{Message FleetVmDesiredGraph} `{Message FleetResourceHierarchy}
  `{Message FleetVmDesiredNetwork} `{Message FleetVmDesiredResource} `{Sha256}
  `{Message FleetVmDualStackNetwork} `{Message Ipv4NetworkObservation}
  `{Message FleetVmResourceReport} `{Message FleetNativeObservation}.

(** ** Degraded observations that still permit a proposal *)

Definition vm_known_resource_bundle_drift (host : FleetHost) (kind : FleetHostKind)
    (desired_run : FleetHostRunState) (observed : FleetNativeObservation)
    (expected actual : bytes) : bool :=
  bool_decide (kind = FleetHostKind_Vm)
  && bool_decide (desired_run = FleetHostRunState_Running)
  && (obs_release_proof observed =? as_i32 FleetNativeReleaseProof_ApplicationBundle)
  && (blen actual =? 32) && any_nonzero actual
  && negb (bytes_eqb actual expected)
  && negb (is_empty (obs_reason_codes observed))
  && (((obs_owner_state observed =? as_i32 FleetNativeOwnerState_Running)
       && known_runtime_only_historical_reasons observed)
      || known_partial_vm_resource_baseline host observed).

Definition vm_known_same_release_runtime_defect (kind : FleetHostKind)
    (desired_run : FleetHostRunState) (observed : FleetNativeObservation)
    (expected actual : bytes) : bool :=
  bool_decide (kind = FleetHostKind_Vm)
  && bool_decide (desired_run = FleetHostRunState_Running)
  && (obs_owner_state observed =? as_i32 FleetNativeOwnerState_Running)
  && (obs_release_proof observed =? as_i32 FleetNativeReleaseProof_ApplicationBundle)
  && bytes_eqb actual expected
  && known_runtime_only_historical_reasons observed.

Definition vm_known_same_release_network_loss (kind : FleetHostKind)
    (desired_run : FleetHostRunState) (observed : FleetNativeObservation)
    (expected actual : bytes) : bool :=
  bool_decide (kind = FleetHostKind_Vm)
  && bool_decide (desired_run = FleetHostRunState_Running)
  && (obs_owner_state observed =? as_i32 FleetNativeOwnerState_Running)
  && (obs_release_proof observed =? as_i32 FleetNativeReleaseProof_ApplicationBundle)
  && bytes_eqb actual expected
  && obs_runtime_ready_proven observed && negb (obs_runtime_ready observed)
  && bool_decide (obs_reason_codes observed = ["VM_MANAGED_NETWORK_MISSING"]).

(** Lines 144-234: validity, freshness and degradation of the observation *)
Definition plan_observed (host : FleetHost) (kind : FleetHostKind)
    (desired_run : FleetHostRunState) (observed : FleetNativeObservation)
    (expected : bytes) (now_unix : Z) : FleetHostTransitionPlan :=
  let actual := obs_observed_release_sha256 observed in
  if is_err (validate_native_observation observed)
     || negb (obs_host_kind observed =? host_kind host) then
    plan host FleetHostPlannedStep_Blocked
      FleetHostPlanReason_NativeReadbackInvalidOrWrongKind expected actual
  else if (u64_saturating_add now_unix 60 <? obs_observed_at_unix observed)
          || (300 <? u64_saturating_sub now_unix (obs_observed_at_unix observed)) then
    plan host FleetHostPlannedStep_Blocked FleetHostPlanReason_NativeReadbackStale
      expected actual
  else if negb (is_empty (obs_reason_codes observed))
          && negb (vm_known_resource_bundle_drift host kind desired_run observed expected actual)
          && negb (vm_known_same_release_runtime_defect kind desired_run observed expected actual)
          && negb (vm_known_same_release_network_loss kind desired_run observed expected actual)
  then
    plan host FleetHostPlannedStep_Blocked FleetHostPlanReason_NativeReadbackDegraded
      expected actual
  else
    match try_from (obs_owner_state observed) with
    | None =>
        plan host FleetHostPlannedStep_Blocked FleetHostPlanReason_NativeStateUnproven
          expected actual
    | Some FleetNativeOwnerState_Unproven | Some FleetNativeOwnerState_Transitioning =>
        plan host FleetHostPlannedStep_Blocked FleetHostPlanReason_NativeStateUnproven
          expected actual
    | Some state => plan_release host kind desired_run state observed expected actual
    end.

(** Lines 66-143: the expected digest and the target *)
Definition plan_target (host : FleetHost) (kind : FleetHostKind) (expected : bytes)
    (observed : option FleetNativeObservation) (now_unix : Z) : FleetHostTransitionPlan :=
  if negb (blen expected =? 32) || negb (any_nonzero expected) then
    plan host FleetHostPlannedStep_Blocked FleetHostPlanReason_ExpectedReleaseUnproven
      expected []
  else match host_target host with
  | None =>
      plan host FleetHostPlannedStep_Blocked FleetHostPlanReason_TargetUnsetObserveOnly
        expected []
  | Some target =>
      match try_from (target_run_state target) with
      | None | Some FleetHostRunState_Unspecified =>
          plan host FleetHostPlannedStep_Blocked FleetHostPlanReason_TargetRunStateUnproven
            expected []
      | Some desired_run =>
          match try_from (target_windows_mode target) with
          | None =>
              plan host FleetHostPlannedStep_Blocked FleetHostPlanReason_TargetModeUnproven
                expected []
          | Some desired_mode =>
              if (bool_decide (kind = FleetHostKind_Windows)
                  && negb (bool_decide (desired_mode = FleetHostMode_ProxyOnly
                                        ∨ desired_mode = FleetHostMode_ManagedTun)))
                 || (bool_decide (kind = FleetHostKind_Vm)
                     && negb (bool_decide (desired_mode = FleetHostMode_Unspecified)))
              then
                plan host FleetHostPlannedStep_Blocked
                  FleetHostPlanReason_TargetModeKindMismatch expected []
              else match observed with
              | None =>
                  plan host FleetHostPlannedStep_Blocked
                    FleetHostPlanReason_NativeReadbackRequired expected []
              | Some observed =>
                  plan_observed host kind desired_run observed expected now_unix
              end
          end
      end
  end.

(** [propose_host_transition]: lines 40-65, then the above *)
Definition propose_host_transition (host : FleetHost) (observed : option FleetNativeObservation)
    (expected_release_set_sha256 expected_vm_bundle_sha256 : bytes) (now_unix : Z)
    : FleetHostTransitionPlan :=
  match try_from (host_kind host) with
  | None | Some FleetHostKind_Unspecified =>
      plan host FleetHostPlannedStep_Blocked FleetHostPlanReason_HostKindInvalid [] []
  | Some FleetHostKind_Windows =>
      plan_target host FleetHostKind_Windows expected_release_set_sha256 observed now_unix
  | Some FleetHostKind_Vm =>
      plan_target host FleetHostKind_Vm expected_vm_bundle_sha256 observed now_unix
  end.

Definition propose_signed_host_transition (host : FleetHost)
    (observed : FleetNativeObservation) (action : FleetHostAction)
    (expected_release expected_bundle : bytes) (now : Z) : FleetHostTransitionPlan :=
  let proposal :=
    propose_host_transition host (Some observed) expected_release expected_bundle now in
  if (host_kind host =? as_i32 FleetHostKind_Windows)
     && bool_decide (action = FleetHostAction_Apply)
     && (plan_reason proposal
         =? as_i32 FleetHostPlanReason_StoppedReleaseMismatchRequiresInstallTarget)
  then plan host FleetHostPlannedStep_ReplaceRelease
         FleetHostPlanReason_ReleaseMismatchProposalOnly expected_release
         (obs_observed_release_sha256 observed)
  else proposal.
End Planner.

(** ** [validate_host_transition_plan] *)

Definition expected_plan_step (reason : FleetHostPlanReason) : res FleetHostPlannedStep :=
  match reason with
  | FleetHostPlanReason_HostKindInvalid
  | FleetHostPlanReason_ExpectedReleaseUnproven
  | FleetHostPlanReason_TargetUnsetObserveOnly
  | FleetHostPlanReason_TargetRunStateUnproven
  | FleetHostPlanReason_TargetModeUnproven
  | FleetHostPlanReason_TunSeparatePhysicalGateRequired
  | FleetHostPlanReason_TargetModeKindMismatch
  | FleetHostPlanReason_NativeReadbackRequired
  | FleetHostPlanReason_NativeReadbackInvalidOrWrongKind
  | FleetHostPlanReason_NativeReadbackStale
  | FleetHostPlanReason_NativeReadbackDegraded
  | FleetHostPlanReason_NativeStateUnproven
  | FleetHostPlanReason_AbsentInstallWithStoppedTarget
  | FleetHostPlanReason_AbsenceOwnerStateConflict
  | FleetHostPlanReason_NativeReleaseProofUnproven
  | FleetHostPlanReason_StoppedReleaseMismatchRequiresInstallTarget
  | FleetHostPlanReason_RuntimeReadinessUnproven => Ok FleetHostPlannedStep_Blocked
  | FleetHostPlanReason_VerifiedAbsentInstallProposalOnly => Ok FleetHostPlannedStep_Install
  | FleetHostPlanReason_StopTargetOverridesReleaseMismatch => Ok FleetHostPlannedStep_Stop
  | FleetHostPlanReason_StoppedMatchesDesiredLocalOnly
  | FleetHostPlanReason_RunningMatchesLocalNotExternal => Ok FleetHostPlannedStep_Noop
  | FleetHostPlanReason_ReleaseMismatchProposalOnly => Ok FleetHostPlannedStep_ReplaceRelease
  | FleetHostPlanReason_StartProposalOnly
  | FleetHostPlanReason_VmDegradedRequiresScopedContainerPreadmission =>
      Ok FleetHostPlannedStep_Start
  | FleetHostPlanReason_StoppedConfigurationDrift => Ok FleetHostPlannedStep_Configure
  | FleetHostPlanReason_Unspecified => Err "HOST_PLAN_REASON_UNSPECIFIED"
  end.

Definition validate_host_transition_plan (proposal : FleetHostTransitionPlan)
    (host : FleetHost) : res unit :=
  fail_if (negb (plan_schema_version proposal =? 1)
           || negb (str_eqb (plan_machine_id proposal) (host_machine_id host))
           || plan_owner_attested proposal
           || plan_mutation_authorized proposal) "HOST_PLAN_SCOPE_OR_AUTHORITY_INVALID" ;;
  reason ← ok_or (try_from (plan_reason proposal)) "HOST_PLAN_REASON_UNRECOGNIZED";
  fail_if (bool_decide (reason = FleetHostPlanReason_Unspecified))
    "HOST_PLAN_REASON_UNSPECIFIED" ;;
  code ← ok_or (host_reason_code reason) "HOST_PLAN_REASON_INVALID";
  fail_if (negb (str_eqb (plan_reason_code proposal) code)) "HOST_PLAN_REASON_CODE_MISMATCH" ;;
  expected_step ← expected_plan_step reason;
  fail_if (negb (plan_step proposal =? as_i32 expected_step))
    "HOST_PLAN_ACTION_REASON_CONFLICT".

(** ** Properties *)

Lemma host_reason_code_total reason :
  host_reason_code reason = Some (default "" (host_reason_code reason)).
Proof. by destruct reason. Qed.

(** A plan built by [plan] from a consistent step and reason is valid. *)
Lemma plan_valid host step reason expected observed :
  expected_plan_step reason = Ok step →
  validate_host_transition_plan (plan host step reason expected observed) host = Ok tt.
Proof.
  intros Hs. unfold validate_host_transition_plan, plan.
  cbn [plan_schema_version plan_machine_id plan_owner_attested plan_mutation_authorized
    plan_reason plan_reason_code plan_step].
  rewrite (proj2 (str_eqb_true _ _) eq_refl). cbn [negb orb Z.eqb Pos.eqb fail_if mbind result_bind].
  rewrite try_from_as_i32. cbn [ok_or mbind result_bind].
  rewrite bool_decide_false by (intros ->; discriminate).
  cbn [fail_if mbind result_bind]. rewrite host_reason_code_total.
  cbn [ok_or mbind result_bind default from_option id].
  rewrite (proj2 (str_eqb_true _ _) eq_refl). cbn [negb fail_if mbind result_bind].
  rewrite Hs. cbn [mbind result_bind]. by rewrite Z.eqb_refl.
Qed.

Section PlannerFacts.
Context `{Message FleetVmDesiredGraph} `{Message FleetResourceHierarchy}
  `{Message FleetVmDesiredNetwork} `{Message FleetVmDesiredResource} `{Sha256}
  `{Message FleetVmDualStackNetwork} `{Message Ipv4NetworkObservation}
  `{Message FleetVmResourceReport} `{Message FleetNativeObservation}.

Lemma plan_release_valid host kind run state obs expected actual :
  validate_host_transition_plan (plan_release host kind run state obs expected actual) host
  = Ok tt.
Proof. unfold plan_release. repeat case_match; by apply plan_valid. Qed.

Lemma plan_observed_valid host kind run obs expected now :
  validate_host_transition_plan (plan_observed host kind run obs expected now) host = Ok tt.
Proof.
  unfold plan_observed. repeat case_match; try (by apply plan_valid); apply plan_release_valid.
Qed.

Lemma propose_valid host obs rel bundle now :
  validate_host_transition_plan (propose_host_transition host obs rel bundle now) host = Ok tt.
Proof.
  unfold propose_host_transition, plan_target.
  repeat case_match; try (by apply plan_valid); apply plan_observed_valid.
Qed.

(** Every proposal of the planner, for any host, observation, digests and clock, is
    accepted by the plan validator: it names its machine, its reason code and step are
    those of its typed reason, and it claims neither attestation nor authority. The
    variant for a signed action has the same property. *)
Theorem planner_proposals_valid host obs observation action rel bundle now :
  validate_host_transition_plan (propose_host_transition host obs rel bundle now) host = Ok tt ∧
  validate_host_transition_plan
    (propose_signed_host_transition host observation action rel bundle now) host = Ok tt ∧
  plan_mutation_authorized (propose_host_transition host obs rel bundle now) = false ∧
  plan_owner_attested (propose_host_transition host obs rel bundle now) = false.
Proof.
  pose proof (propose_valid host obs rel bundle now) as Hv. split; [done|].
  split.
  - unfold propose_signed_host_transition.
    destruct (_ && _); [by apply plan_valid|apply propose_valid].
  - unfold validate_host_transition_plan in Hv. inv_ok Hv. reflect_in Hm. tauto.
Qed.

(** *** When a step is proposed *)

(** The digest the planner compares with: the release set on Windows, the logical
    bundle on a VM. *)
Definition expected_digest (host : FleetHost) (rel bundle : bytes) : bytes :=
  if host_kind host =? as_i32 FleetHostKind_Windows then rel else bundle.

Definition planned_release (host : FleetHost) (state : FleetNativeOwnerState)
    (run : FleetHostRunState) (obs : FleetNativeObservation) (expected : bytes)
    (step : FleetHostPlannedStep) : Prop :=
  match step with
  | FleetHostPlannedStep_Install =>
      run = FleetHostRunState_Running ∧ state = FleetNativeOwnerState_Stopped ∧
      obs_release_proof obs = as_i32 FleetNativeReleaseProof_VerifiedAbsent
  | FleetHostPlannedStep_Start =>
      run = FleetHostRunState_Running ∧ obs_observed_release_sha256 obs = expected ∧
      (state = FleetNativeOwnerState_Stopped ∨
       state = FleetNativeOwnerState_Running ∧ host_kind host = as_i32 FleetHostKind_Vm ∧
       obs_runtime_ready_proven obs = true ∧ obs_runtime_ready obs = false)
  | FleetHostPlannedStep_ReplaceRelease =>
      run ≠ FleetHostRunState_Stopped ∧ obs_observed_release_sha256 obs ≠ expected
  | FleetHostPlannedStep_Stop =>
      run = FleetHostRunState_Stopped ∧ state = FleetNativeOwnerState_Running
  | FleetHostPlannedStep_Noop =>
      obs_observed_release_sha256 obs = expected ∧
      (run = FleetHostRunState_Stopped ∧ state = FleetNativeOwnerState_Stopped ∨
       run = FleetHostRunState_Running ∧ state = FleetNativeOwnerState_Running ∧
       obs_runtime_ready obs = true)
  | FleetHostPlannedStep_Blocked => True
  | _ => False
  end.

Lemma plan_release_spec host kind run state obs expected :
  host_kind host = as_i32 kind → run ≠ FleetHostRunState_Unspecified →
  ∃ step reason o, plan_release host kind run state obs expected
      (obs_observed_release_sha256 obs) = plan host step reason expected o ∧
    planned_release host state run obs expected step.
Proof.
  intros Hk Hrun. unfold plan_release.
  repeat case_match; try done; eexists _, _, _; (split; [reflexivity|]);
    repeat match goal with
    | Hb : bool_decide _ = true |- _ => apply bool_decide_eq_true in Hb
    | Hb : bool_decide _ = false |- _ => apply bool_decide_eq_false in Hb
    | Hb : negb (bytes_eqb _ _) = true |- _ => apply negb_true, bytes_eqb_false in Hb
    | Hb : negb (bytes_eqb _ _) = false |- _ => apply negb_false, bytes_eqb_true in Hb
    | Hb : _ && _ = true |- _ => apply andb_true in Hb as [? ?]
    | Hb : try_from _ = Some _ |- _ => apply try_from_Some in Hb
    end; simpl; subst; auto 10; try done.
  rewrite H17 in H15. simpl in H15. auto 10.
Qed.

(** Everything that holds when a step other than BLOCKED is proposed *)
Record justified (host : FleetHost) (obs : FleetNativeObservation) (rel bundle : bytes)
    (now : Z) (step : FleetHostPlannedStep) : Prop := {
  just_kind : host_kind host = as_i32 FleetHostKind_Windows ∨
              host_kind host = as_i32 FleetHostKind_Vm;
  just_expected : sha (expected_digest host rel bundle) = true;
  just_valid : validate_native_observation obs = Ok tt;
  just_same_kind : obs_host_kind obs = host_kind host;
  just_fresh : obs_observed_at_unix obs ≤ u64_saturating_add now 60 ∧
               u64_saturating_sub now (obs_observed_at_unix obs) ≤ 300;
  just_decision : ∃ target run state, host_target host = Some target ∧
    target_run_state target = as_i32 run ∧ run ≠ FleetHostRunState_Unspecified ∧
    obs_owner_state obs = as_i32 state ∧
    planned_release host state run obs (expected_digest host rel bundle) step
}.

Lemma plan_observed_spec host kind run obs expected now :
  host_kind host = as_i32 kind → run ≠ FleetHostRunState_Unspecified →
  ∃ step reason o, plan_observed host kind run obs expected now
      = plan host step reason expected o ∧
    (step = FleetHostPlannedStep_Blocked ∨
     validate_native_observation obs = Ok tt ∧ obs_host_kind obs = host_kind host ∧
     obs_observed_at_unix obs ≤ u64_saturating_add now 60 ∧
     u64_saturating_sub now (obs_observed_at_unix obs) ≤ 300 ∧
     ∃ state, obs_owner_state obs = as_i32 state ∧
       planned_release host state run obs expected step).
Proof.
  intros Hk Hrun. unfold plan_observed.
  destruct (is_err _ || _) eqn:E1; [eauto 10|].
  destruct (_ || _) eqn:E2 in |- *; [eauto 10|].
  apply orb_false in E1 as [[[] Hv]%is_err_false Hkind%negb_false%Z.eqb_eq], E2 as [Hf1 Hf2].
  apply Z.ltb_ge in Hf1, Hf2.
  destruct (_ && _) in |- *; [eauto 10|].
  destruct (try_from (obs_owner_state obs)) as [state|] eqn:Es; [|eauto 10].
  apply try_from_Some in Es.
  destruct (plan_release_spec host kind run state obs expected Hk Hrun)
    as (step & reason & o & Hp & Hd).
  destruct state; eauto 10; exists step, reason, o; (split; [exact Hp|]); right; eauto 10.
Qed.

Lemma plan_blocked_step host reason e o step :
  plan_step (plan host FleetHostPlannedStep_Blocked reason e o) = as_i32 step →
  step = FleetHostPlannedStep_Blocked.
Proof. intros Hs. symmetry. by apply as_i32_inj. Qed.

Lemma plan_target_spec host kind expected obs now step :
  host_kind host = as_i32 kind → step ≠ FleetHostPlannedStep_Blocked →
  plan_step (plan_target host kind expected (Some obs) now) = as_i32 step →
  sha expected = true ∧ validate_native_observation obs = Ok tt ∧
  obs_host_kind obs = host_kind host ∧ obs_observed_at_unix obs ≤ u64_saturating_add now 60 ∧
  u64_saturating_sub now (obs_observed_at_unix obs) ≤ 300 ∧
  ∃ target run state, host_target host = Some target ∧
    target_run_state target = as_i32 run ∧ run ≠ FleetHostRunState_Unspecified ∧
    obs_owner_state obs = as_i32 state ∧ planned_release host state run obs expected step.
Proof.
  intros Hk Hb. unfold plan_target.
  destruct (_ || _) eqn:Ee; [by intros ?%plan_blocked_step|].
  destruct (host_target host) as [target|]; [|by intros ?%plan_blocked_step].
  destruct (try_from (target_run_state target)) as [run|] eqn:Er;
    [|by intros ?%plan_blocked_step].
  assert (Hrun : run = FleetHostRunState_Unspecified ∨ run ≠ FleetHostRunState_Unspecified)
    by (destruct run; auto).
  destruct Hrun as [->|Hrun]; [by intros ?%plan_blocked_step|].
  destruct (try_from (target_windows_mode target)) as [mode|];
    [|by destruct run; intros ?%plan_blocked_step].
  destruct (_ || _) in |- *; [by destruct run; intros ?%plan_blocked_step|].
  destruct (plan_observed_spec host kind run obs expected now Hk Hrun)
    as (st & reason & o & Hp & Hd).
  intros Hs. assert (Hs' : plan_step (plan host st reason expected o) = as_i32 step).
  { rewrite <- Hp. by destruct run. }
  apply as_i32_inj in Hs'. subst st. destruct Hd as [?|(? & ? & ? & ? & state & ? & ?)]; [done|].
  apply try_from_Some in Er. apply orb_false in Ee as [?%negb_false ?%negb_false].
  unfold sha. split_and!; try done; [by apply andb_true|eauto 10].
Qed.

(** A step other than BLOCKED is proposed only from a valid, fresh observation of the
    right kind against a well-formed expected digest, and the step fits the target and
    the observed state: INSTALL needs a RUNNING target, a stopped owner and a proven
    absence; START needs a RUNNING target and the expected release; REPLACE_RELEASE
    needs a RUNNING target and another release; STOP needs a STOPPED target and a
    running owner; NOOP needs the expected release in the desired run state. *)
Theorem planner_steps_justified host obs rel bundle now step :
  plan_step (propose_host_transition host (Some obs) rel bundle now) = as_i32 step →
  step ≠ FleetHostPlannedStep_Blocked →
  justified host obs rel bundle now step.
Proof.
  intros Hs Hb. unfold propose_host_transition in Hs.
  destruct (try_from (host_kind host)) as [[]|] eqn:Ek;
    try (by apply plan_blocked_step in Hs); apply try_from_Some in Ek;
    apply plan_target_spec in Hs as (? & ? & ? & ? & ? & ?); try done;
    split; unfold expected_digest; rewrite ?Ek; try done; auto; congruence.
Qed.
End PlannerFacts.

(** ** Witness: a stopped VM with the expected bundle and a RUNNING target *)

Module PlannerSample.
#[local] Instance any_message A : Message A := null_message A.
Definition bundle : bytes := replicate 32 x09.
Definition observation : FleetNativeObservation := {|
  obs_schema_version := 1; obs_host_kind := 2; obs_observed_at_unix := 1000;
  obs_owner_state := 2; obs_release_proof := 3; obs_observed_release_sha256 := bundle;
  obs_runtime_ready := false; obs_runtime_ready_proven := false; obs_reason_codes := [];
  obs_vm_recovery_resources := None; obs_windows_config_sha256 := [] |}.

(** Witness of [planner_steps_justified]. *)
Lemma planner_steps_justified_witness :
  justified GraphSample.host observation [] bundle 1100 FleetHostPlannedStep_Start.
Proof.
  apply (planner_steps_justified GraphSample.host observation [] bundle 1100
    FleetHostPlannedStep_Start).
  - vm_compute. reflexivity.
  - discriminate.
Defined.
End PlannerSample.
