(* ===== verification/JournalFs.v ===== *)
(** * The native journal: calls, programs, disk

    The owner journal of [edge-shared-types/src/host_journal.rs] talks to the
    world through a fixed set of calls: file-system calls on one directory, the
    three closures [observe], [allow_step], [apply_once] it is given, and the
    clock.  A procedure is a [prog], a tree of such calls; [io] adds Rust's
    [Result] and its [?].

    [exec] gives the calls their meaning on a [disk] that separates what a
    running process sees from what survives a loss of power: file contents are
    durable after [sync_all] on the file, directory entries after a sync of the
    directory.  Every call may also fail.

    [wp] is a program logic over these trees: a [Protocol] says, of a ghost
    state, which calls it allows and how the answer to a call changes it. *)

From S2P Require Import Prelude RustStd HostTypes.

(** ** Calls *)

(** What [fs::symlink_metadata] says of an entry: [Ok(_)], an error of kind
    [NotFound], or another error *)
Inductive stat : Set := Found | NotFound | Unavailable.
#[global] Instance stat_eq_dec : EqDecision stat.
Proof. solve_decision. Defined.

Inductive call : Type → Type :=
| Protection : call (res unit)                 (* verify_native_journal_protection(dir) *)
| StatRoot : call (option (bool * bool))       (* symlink_metadata(dir): (is_dir, is_symlink) *)
| ReadDir : call (option (list (option string))) (* read_dir(dir), each item may fail *)
| Stat (n : string) : call stat                (* symlink_metadata(dir/n) *)
| ReadFile (n : string) : call (option bytes)  (* read(dir/n) *)
| CreateNew (n : string) : call (option positive) (* open with create_new: a handle *)
| WriteAll (h : positive) (b : bytes) : call bool
| SyncAll (h : positive) : call bool
| OpenRoot : call bool                         (* File::open(dir) *)
| SyncRoot : call bool                         (* sync_all on it *)
| RemoveFile (n : string) : call bool          (* remove_file(dir/n) *)
| Observe : call (res FleetNativeObservation)  (* observe() *)
| AllowStep (s : FleetHostPlannedStep) : call (res unit) (* allow_step(step) *)
| ApplyOnce (s : FleetHostPlannedStep) : call (res unit) (* apply_once(step) *)
| Elapsed : call Z.                            (* effect_started.elapsed().as_secs() *)

(** ** Programs *)

Inductive prog (A : Type) : Type :=
| Ret (a : A)
| Vis {R : Type} (c : call R) (k : R → prog A).
Arguments Ret {A} a.
Arguments Vis {A R} c k.

Fixpoint prog_bind {A B} (p : prog A) (f : A → prog B) : prog B :=
  match p with
  | Ret a => f a
  | Vis c k => Vis c (λ r, prog_bind (k r) f)
  end.

(** Fallible programs: [?] returns the error at once. *)
Definition io (A : Type) : Type := prog (res A).
#[global] Instance io_ret : MRet io := λ A a, Ret (Ok a).
#[global] Instance io_bind : MBind io := λ A B f p,
  prog_bind p (λ r, match r with Ok a => f a | Err e => Ret (Err e) end).

Definition lift {A} (m : res A) : io A := Ret m.
Definition perform {R} (c : call R) : io R := Vis c (λ r, Ret (Ok r)).
(** A call that answers with a [Result] *)
Definition perform_res {R} (c : call (res R)) : io R := Vis c Ret.

(** ** Program logic *)

Class Protocol := {
  ghost : Type;
  allowed {R} : ghost → call R → Prop;
  next {R} : ghost → call R → R → ghost
}.

Section Wp.
Context `{P : Protocol}.

Fixpoint wp {A} (p : prog A) (Q : A → ghost → Prop) (g : ghost) : Prop :=
  match p with
  | Ret a => Q a g
  | Vis c k => allowed g c ∧ ∀ r, wp (k r) Q (next g c r)
  end.

Lemma wp_mono {A} (p : prog A) (Q1 Q2 : A → ghost → Prop) g :
  (∀ a g, Q1 a g → Q2 a g) → wp p Q1 g → wp p Q2 g.
Proof.
  intros HQ. revert g. induction p as [a|R c k IH]; intros g; simpl; [auto|].
  intros [? Hk]. split; [done|]. intros r. apply IH, Hk.
Qed.

Lemma wp_bind {A B} (p : io A) (f : A → io B) (Q : res B → ghost → Prop) g :
  wp p (λ r g, match r with Ok a => wp (f a) Q g | Err e => Q (Err e) g end) g →
  wp (p ≫= f) Q g.
Proof.
  unfold mbind, io_bind. revert g. induction p as [[a|e]|R c k IH]; intros g; simpl; auto.
  intros [? Hk]. split; [done|]. intros r. apply IH, Hk.
Qed.

Lemma wp_lift {A} (m : res A) (Q : res A → ghost → Prop) g : Q m g → wp (lift m) Q g.
Proof. done. Qed.

Lemma wp_ret {A} (a : A) (Q : res A → ghost → Prop) g : Q (Ok a) g → wp (mret a : io A) Q g.
Proof. done. Qed.

Lemma wp_perform {R} (c : call R) (Q : res R → ghost → Prop) g :
  allowed g c → (∀ r, Q (Ok r) (next g c r)) → wp (perform c) Q g.
Proof. done. Qed.

Lemma wp_perform_res {R} (c : call (res R)) (Q : res R → ghost → Prop) g :
  allowed g c → (∀ r, Q r (next g c r)) → wp (perform_res c) Q g.
Proof. done. Qed.

(** An [Ok] result satisfies [Q]. *)
Definition post {A} (Q : A → ghost → Prop) (r : res A) (g : ghost) : Prop :=
  match r with Ok a => Q a g | Err _ => True end.

Lemma wp_seq {A B} (p : io A) (f : A → io B) (Q : B → ghost → Prop) g :
  wp p (post (λ a g, wp (f a) (post Q) g)) g → wp (p ≫= f) (post Q) g.
Proof. intros Hp. apply wp_bind. eapply wp_mono; [|exact Hp]. by intros [a|e] g'. Qed.

Lemma wp_check {A B} (m : res A) (f : A → io B) (Q : B → ghost → Prop) g :
  (∀ a, m = Ok a → wp (f a) (post Q) g) → wp (lift m ≫= f) (post Q) g.
Proof. intros Hm. apply wp_bind, wp_lift. destruct m; [by apply Hm|exact I]. Qed.

Lemma wp_ask {R} (c : call (res R)) (Q : R → ghost → Prop) g :
  allowed g c → (∀ r, Q r (next g c (Ok r))) → wp (perform_res c) (post Q) g.
Proof. intros Hc HQ. apply wp_perform_res; [done|]. intros [r|]; [apply HQ|exact I]. Qed.

(** [x ← perform c; lift (fail_if (negb x) e) ;; rest] *)
Lemma wp_demand {A} (c : call bool) e (rest : unit → io A) (Q : A → ghost → Prop) g :
  allowed g c → wp (rest tt) (post Q) (next g c true) →
  wp (x ← perform c; lift (fail_if (negb x) e) ≫= rest) (post Q) g.
Proof.
  intros Hc Hrest. apply wp_bind, wp_perform; [done|]. intros [|]; [|exact I].
  by apply wp_bind, wp_lift.
Qed.

Lemma wp_demand_last (c : call bool) e (Q : unit → ghost → Prop) g :
  allowed g c → Q tt (next g c true) →
  wp (x ← perform c; lift (fail_if (negb x) e)) (post Q) g.
Proof.
  intros Hc Hrest. apply wp_bind, wp_perform; [done|]. intros [|]; [|exact I].
  by apply wp_lift.
Qed.
End Wp.

(** ** Traces *)

Inductive event : Type :=
| Ev {R : Type} (c : call R) (r : R).

(** [runs p tr a]: with the answers of [tr], [p] makes the calls of [tr] and
    returns [a]; [steps p tr p']: after them it is at [p']. *)
Fixpoint runs {A} (p : prog A) (tr : list event) (a : A) : Prop :=
  match p, tr with
  | Ret x, [] => x = a
  | Vis c k, e :: tr => ∃ r, e = Ev c r ∧ runs (k r) tr a
  | _, _ => False
  end.

Fixpoint steps {A} (p : prog A) (tr : list event) (p' : prog A) {struct tr} : Prop :=
  match tr with
  | [] => p = p'
  | e :: tr =>
      match p with
      | Ret _ => False
      | Vis c k => ∃ r, e = Ev c r ∧ steps (k r) tr p'
      end
  end.

Definition next_event `{Protocol} (g : ghost) (e : event) : ghost :=
  match e with Ev c r => next g c r end.

Lemma wp_runs `{Protocol} {A} (p : prog A) Q g tr a :
  wp p Q g → runs p tr a → Q a (fold_left next_event tr g).
Proof.
  revert g tr. induction p as [x|R c k IH]; intros g [|e tr]; simpl; try done.
  - by intros ? ->.
  - intros [_ Hk] (r & -> & Hr). exact (IH r _ _ (Hk r) Hr).
Qed.

(** The protocol that records the history of calls, oldest first, and allows a
    call only where [ok] holds of the history before it *)
Definition trace_protocol (ok : list event → ∀ R, call R → Prop) : Protocol := {|
  ghost := list event;
  allowed := λ R tr c, ok tr R c;
  next := λ R tr c r, tr ++ [Ev c r]
|}.

Section TraceFacts.
Context (ok : list event → ∀ R, call R → Prop).

Lemma trace_fold tr tr0 :
  fold_left (next_event (H := trace_protocol ok)) tr tr0 = tr0 ++ tr.
Proof.
  revert tr0. induction tr as [|[R c r] tr IH]; intros tr0; simpl; [by rewrite app_nil_r|].
  rewrite IH. by rewrite <- app_assoc.
Qed.

Lemma wp_trace_runs {A} (p : prog A) Q tr a :
  wp (P := trace_protocol ok) p Q [] → runs p tr a → Q a tr.
Proof.
  intros Hp Hr. pose proof (wp_runs (H := trace_protocol ok) p Q [] tr a Hp Hr) as HQ.
  by rewrite trace_fold in HQ.
Qed.

Lemma wp_trace_steps {A R} (p p' : prog A) Q tr0 tr (c : call R) r :
  wp (P := trace_protocol ok) p Q tr0 → steps p (tr ++ [Ev c r]) p' → ok (tr0 ++ tr) R c.
Proof.
  revert tr0 tr. induction p as [x|R' c' k IH]; intros tr0 [|e tr]; try done.
  - intros [Hc _] (r' & E & _). rewrite app_nil_r.
    by apply (f_equal (λ e, match e with @Ev R c _ => ok tr0 R c end)) in E; simpl in E;
      rewrite E.
  - intros [_ Hk] (r' & -> & Hs). pose proof (IH r' _ _ (Hk r') Hs) as Hok.
    simpl in Hok. by rewrite <- app_assoc in Hok.
Qed.
End TraceFacts.

(** ** The disk *)

Record inode : Set := {
  ino_data : bytes;
  ino_synced : bool      (* the contents are durable *)
}.

Record disk : Set := {
  dir : gmap string positive;
  inodes : gmap positive inode;
  unsettled : gset string  (* entries created or removed since the directory was synced *)
}.

Definition set_inode (d : disk) (h : positive) (f : inode) : disk :=
  {| dir := dir d; inodes := <[h := f]> (inodes d); unsettled := unsettled d |}.

Definition link_new (d : disk) (n : string) (h : positive) : disk :=
  {| dir := <[n := h]> (dir d);
     inodes := <[h := {| ino_data := []; ino_synced := false |}]> (inodes d);
     unsettled := {[ n ]} ∪ unsettled d |}.

Definition unlink (d : disk) (n : string) : disk :=
  {| dir := delete n (dir d); inodes := inodes d; unsettled := {[ n ]} ∪ unsettled d |}.

Definition settle_dir (d : disk) : disk :=
  {| dir := dir d; inodes := inodes d; unsettled := ∅ |}.

Definition file_at (d : disk) (n : string) : option inode :=
  h ← dir d !! n; inodes d !! h.

(** [exec c d r d']: on the disk [d] the call [c] can answer [r] and leave [d'].
    A failing [create_new] may leave an empty file behind, a failing write a part
    of the data, a failing removal may have removed the entry. *)
Definition exec {R} (c : call R) (d : disk) : R → disk → Prop :=
  match c in call R return R → disk → Prop with
  | Stat n => λ r d', d' = d ∧
      (r = Unavailable ∨ r = if decide (is_Some (dir d !! n)) then Found else NotFound)
  | ReadFile n => λ r d', d' = d ∧
      (r = None ∨ ∃ f, file_at d n = Some f ∧ r = Some (ino_data f))
  | ReadDir => λ r d', d' = d ∧
      ∀ items, r = Some items →
        (∀ n, Some n ∈ items → is_Some (dir d !! n)) ∧
        (∀ n, is_Some (dir d !! n) → Some n ∈ items ∨ None ∈ items)
  | CreateNew n => λ r d',
      match r with
      | Some h => dir d !! n = None ∧ inodes d !! h = None ∧ d' = link_new d n h
      | None => d' = d ∨ ∃ h, dir d !! n = None ∧ inodes d !! h = None ∧ d' = link_new d n h
      end
  | WriteAll h b => λ r d', ∃ written, d' = set_inode d h {| ino_data := written; ino_synced := false |} ∧
      (r = true → written = b) ∧ written `prefix_of` b
  | SyncAll h => λ r d',
      match r with
      | true => ∃ f, inodes d !! h = Some f ∧
          d' = set_inode d h {| ino_data := ino_data f; ino_synced := true |}
      | false => d' = d
      end
  | SyncRoot => λ r d', d' = if r : bool then settle_dir d else d
  | RemoveFile n => λ r d', d' = unlink d n ∧ is_Some (dir d !! n) ∨ r = false ∧ d' = d
  | _ => λ _ d', d' = d
  end.

(** After a loss of power an entry that was settled is as it was, with its
    contents if they were synced; an entry created or removed since the last
    sync of the directory may be there or not, and hold anything. *)
Record power_loss (d d' : disk) : Prop := {
  pl_settled : unsettled d' = ∅;
  pl_entry n : n ∉ unsettled d → dir d' !! n = dir d !! n;
  pl_data n h f : n ∉ unsettled d → dir d !! n = Some h → inodes d !! h = Some f →
    ∃ f', inodes d' !! h = Some f' ∧ (ino_synced f = true → f' = f)
}.

(** ** An executable environment

    Every call succeeds; the [n]-th observation is [obs n]. *)

Definition fresh_handle (d : disk) : positive := fresh (map_to_list (inodes d)).*1.

Lemma fresh_handle_new d : inodes d !! fresh_handle d = None.
Proof.
  unfold fresh_handle. pose proof (infinite_is_fresh (map_to_list (inodes d)).*1) as Hf.
  set (h := fresh _) in *. destruct (inodes d !! h) as [f|] eqn:E; [|done].
  destruct Hf. apply list_elem_of_fmap. exists (h, f). by rewrite elem_of_map_to_list.
Qed.

Definition answer (obs : nat → res FleetNativeObservation) (n : nat) {R} (c : call R) (d : disk)
    : R * disk :=
  match c in call R return R * disk with
  | Protection => (Ok tt, d)
  | StatRoot => (Some (true, false), d)
  | ReadDir => (Some (Some <$> (map_to_list (dir d)).*1), d)
  | Stat n => (if decide (is_Some (dir d !! n)) then Found else NotFound, d)
  | ReadFile n => (ino_data <$> file_at d n, d)
  | CreateNew n =>
      if decide (dir d !! n = None) then (Some (fresh_handle d), link_new d n (fresh_handle d))
      else (None, d)
  | WriteAll h b => (true, set_inode d h {| ino_data := b; ino_synced := false |})
  | SyncAll h =>
      match inodes d !! h with
      | Some f => (true, set_inode d h {| ino_data := ino_data f; ino_synced := true |})
      | None => (false, d)
      end
  | OpenRoot => (true, d)
  | SyncRoot => (true, settle_dir d)
  | RemoveFile n =>
      if decide (is_Some (dir d !! n)) then (true, unlink d n) else (false, d)
  | Observe => (obs n, d)
  | AllowStep _ => (Ok tt, d)
  | ApplyOnce _ => (Ok tt, d)
  | Elapsed => (0, d)
  end.

Lemma answer_exec obs n {R} (c : call R) d :
  exec c d (fst (answer obs n c d)) (snd (answer obs n c d)).
Proof.
  destruct c; simpl; try done; try (split; [done|]); auto.
  - intros items [= <-]. setoid_rewrite list_elem_of_fmap. split.
    + intros m (m' & [= ->] & ((k, h) & -> & Hin)%list_elem_of_fmap).
      exists h. by apply elem_of_map_to_list.
    + intros m [h Hh]. left. exists m. split; [done|]. apply list_elem_of_fmap.
      exists (m, h). by rewrite elem_of_map_to_list.
  - destruct (file_at d n0) as [f|]; [right; by exists f|by left].
  - case_decide; simpl; [|by left]. split; [done|]. split; [apply fresh_handle_new|done].
  - eexists. by split; [|split].
  - destruct (inodes d !! h) as [f|] eqn:E; simpl; [|done]. by exists f.
  - case_decide; simpl; [by left|by right].
Qed.

Definition observes {R} (c : call R) : nat := match c with Observe => 1 | _ => 0 end.

(** The run of a program in this environment: its trace, the disk it leaves, its
    result *)
Fixpoint run {A} (obs : nat → res FleetNativeObservation) (p : prog A) (n : nat) (d : disk)
    : list event * disk * A :=
  match p with
  | Ret a => ([], d, a)
  | Vis c k =>
      let '(r, d1) := answer obs n c d in
      let '(tr, d2, a) := run obs (k r) (n + observes c) d1 in
      (Ev c r :: tr, d2, a)
  end.

(** The first [m] calls of that run *)
Fixpoint run_for {A} (obs : nat → res FleetNativeObservation) (m : nat) (p : prog A) (n : nat)
    (d : disk) : list event * disk :=
  match m, p with
  | S m, Vis c k =>
      let '(r, d1) := answer obs n c d in
      let '(tr, d2) := run_for obs m (k r) (n + observes c) d1 in
      (Ev c r :: tr, d2)
  | _, _ => ([], d)
  end.

Definition run_trace {A} obs (p : prog A) n d : list event := (run obs p n d).1.1.
Definition run_result {A} obs (p : prog A) n d : A := (run obs p n d).2.

Lemma run_runs {A} obs (p : prog A) n d :
  runs p (run_trace obs p n d) (run_result obs p n d).
Proof.
  unfold run_trace, run_result. revert n d.
  induction p as [x|R c k IH]; intros n d; simpl; [done|].
  destruct (answer obs n c d) as [r d1]. specialize (IH r (n + observes c)%nat d1).
  destruct (run obs (k r) _ d1) as [[tr1 d2] a1]. by exists r.
Qed.

Lemma runs_steps {A} (p : prog A) tr1 e tr2 a :
  runs p (tr1 ++ e :: tr2) a → ∃ p', steps p (tr1 ++ [e]) p'.
Proof.
  revert tr1. induction p as [x|R c k IH]; intros [|e1 tr1]; simpl; try done.
  - intros (r & -> & _). exists (k r), r. split; reflexivity.
  - intros (r & -> & [p' Hp']%IH). exists p', r. split; [reflexivity|done].
Qed.
