(* ===== verification/HostJournal.v ===== *)
(** * The durable one-shot journal of a native owner

    Models [edge-shared-types/src/host_journal.rs]: admission of a signed
    intent, its single execution, the receipts, and the read-only recovery of
    an interrupted operation, as programs over the calls of [JournalFs].  The
    directory sync is the one of the platforms other than Windows.  Paths are
    names inside the one journal directory. *)

From S2P Require Import Prelude RustStd RustNet HostTypes Concrete ResourceGraph.
From S2P Require Import ResourceGraphFacts ResourceReport HostRegistry ApplyBundle.
From S2P Require Import HostLifecycle HostPlanner JournalFs.

Record WindowsExecutionBinding : Set := {
  installed_release_sha256 : bytes;
  expected_config_sha256 : option bytes
}.

(** ** File primitives *)

Definition create_private_native_record (n : string) : io (option positive) :=
  perform (CreateNew n).

Definition sync_native_journal_directory : io unit :=
  opened ← perform OpenRoot;
  lift (fail_if (negb opened) "HOST_JOURNAL_DIR_SYNC_UNAVAILABLE") ;;
  synced ← perform SyncRoot;
  lift (fail_if (negb synced) "HOST_JOURNAL_DIR_SYNC_UNCERTAIN_NO_REPLAY").

(** The sequence every record is written with: create, write, sync the file,
    sync the directory; the three errors are the ones of the first three calls. *)
Definition write_record (n : string) (b : bytes) (e_create e_write e_sync : string) : io unit :=
  h ← create_private_native_record n;
  h ← lift (ok_or h e_create);
  written ← perform (WriteAll h b);
  lift (fail_if (negb written) e_write) ;;
  synced ← perform (SyncAll h);
  lift (fail_if (negb synced) e_sync) ;;
  sync_native_journal_directory.

(** [match symlink_metadata(n) { Ok => Err(e_found), NotFound => {}, Err => Err(e) }] *)
Definition require_absent (n : string) (e_found e : string) : io unit :=
  st ← perform (Stat n);
  lift match st with Found => Err e_found | NotFound => Ok tt | Unavailable => Err e end.

Definition read_or (n : string) (e : string) : io bytes :=
  b ← perform (ReadFile n);
  lift (ok_or b e).

(** ** Guards on actions *)

Definition validate_native_action_kind (kind : FleetHostKind) (action : FleetHostAction)
    : res unit :=
  match kind, action with
  | FleetHostKind_Vm, (FleetHostAction_Apply | FleetHostAction_Recover)
  | FleetHostKind_Windows, (FleetHostAction_Apply | FleetHostAction_Recover
                            | FleetHostAction_Start | FleetHostAction_Stop) => Ok tt
  | FleetHostKind_Windows, FleetHostAction_SetMode =>
      Err "HOST_WINDOWS_SIGNED_MODE_EFFECT_NOT_ACCEPTED"
  | _, _ => Err "HOST_NATIVE_EXECUTION_ACTION_NOT_ALLOWED"
  end.

Definition validate_native_action_step (kind : FleetHostKind) (action : FleetHostAction)
    (step : FleetHostPlannedStep) : res unit :=
  validate_native_action_kind kind action ;;
  match kind, action with
  | FleetHostKind_Windows, FleetHostAction_Start =>
      match step with
      | FleetHostPlannedStep_Start | FleetHostPlannedStep_Noop => Ok tt
      | _ => Err "HOST_WINDOWS_SIGNED_START_STEP_MISMATCH"
      end
  | FleetHostKind_Windows, FleetHostAction_Stop =>
      match step with
      | FleetHostPlannedStep_Stop | FleetHostPlannedStep_Noop => Ok tt
      | _ => Err "HOST_WINDOWS_SIGNED_STOP_STEP_MISMATCH"
      end
  | _, _ => Ok tt
  end.

Section Journal.
Context `{Sha256} `{Ed25519} `{ProductionText}.
Context `{Message FleetHostIntent} `{Message FleetHostResult} `{Message FleetHost}
  `{Message ApplyBundleRequest} `{Message FleetDesiredState} `{Message ReleaseSet}
  `{Message FleetVmDesiredGraph} `{Message FleetResourceHierarchy}
  `{Message FleetVmDesiredNetwork} `{Message FleetVmDesiredResource}
  `{Message FleetVmDualStackNetwork} `{Message Ipv4NetworkObservation}
  `{Message FleetVmResourceReport} `{Message FleetNativeObservation}.

(** ** Names of the records *)

Definition journal_hex (b : bytes) : string := hex_of_bytes (sha256 b).

Definition scope_material (machine_id resource_id : string) : bytes :=
  as_bytes "sing-box/native-resource-scope/v1:"
  ++ framed 4 (as_bytes machine_id) ++ framed 4 (as_bytes resource_id).

Definition native_scope_pending_path (intent : FleetHostIntent) : string :=
  "resource-"
  +:+ journal_hex (scope_material (intent_machine_id intent) (intent_resource_id intent))
  +:+ ".pending.pb".

(** [format!("{id}.pb")], [format!("{id}.{terminal}.pb")] *)
Definition record_path (operation_id : string) : string :=
  journal_hex (as_bytes operation_id) +:+ ".pb".
Definition terminal_path (operation_id terminal : string) : string :=
  journal_hex (as_bytes operation_id) +:+ "." +:+ terminal +:+ ".pb".

(** ** Admission *)

(** A result about an intent *)
Definition result_for (intent : FleetHostIntent) (state : FleetHostResultState)
    (observed_at : Z) (physical_readback : bool) (reason : FleetHostResultReason)
    : FleetHostResult :=
  set_host_result_reason {|
    result_schema_version := 1;
    result_machine_id := intent_machine_id intent;
    result_resource_id := intent_resource_id intent;
    result_operation_id := intent_operation_id intent;
    result_action := intent_action intent;
    result_state := as_i32 state;
    result_release_set_sha256 := intent_release_set_sha256 intent;
    result_desired_sha256 := intent_desired_sha256 intent;
    result_observed_at_unix := observed_at;
    result_error_class := "";
    result_next_action := "";
    result_physical_readback := physical_readback;
    result_reason := 0
  |} reason.

(** The BEGIN record *)
Definition begin_record (intent : FleetHostIntent) (now_unix : Z) : FleetHostResult :=
  result_for intent FleetHostResultState_Authorized now_unix false
    FleetHostResultReason_AuthorizedAwaitNativeReadback.

Definition admit_after_protected_owner_check_once (intent : FleetHostIntent)
    (authorization : FleetHostAuthorization) (registry : FleetDesiredState)
    (expected_registry_sha256 expected_desired_sha256 expected_release_sha256 : bytes)
    (pinned_worker_public_key : bytes) (native_machine_id : string) (native_owner_kind : Z)
    (now_unix : Z) : io FleetHostResult :=
  lift (fail_if (negb (str_eqb (intent_machine_id intent) native_machine_id)
                 || negb (intent_kind intent =? native_owner_kind))
          "HOST_LOCAL_OWNER_IDENTITY_MISMATCH") ;;
  lift (validate_host_intent intent registry expected_registry_sha256
          expected_desired_sha256 expected_release_sha256) ;;
  lift (validate_intent_against_target intent registry) ;;
  lift (verify_host_authorization intent authorization pinned_worker_public_key now_unix) ;;
  root ← perform StatRoot;
  '(is_dir, is_symlink) ← lift (ok_or root "HOST_JOURNAL_ROOT_MISSING");
  lift (fail_if (negb is_dir || is_symlink) "HOST_JOURNAL_ROOT_INVALID") ;;
  let path := record_path (intent_operation_id intent) in
  require_absent path "HOST_OPERATION_EXISTS_OR_JOURNAL_UNAVAILABLE"
    "HOST_OPERATION_JOURNAL_UNAVAILABLE" ;;
  write_record (native_scope_pending_path intent) (encode_to_vec intent)
    "HOST_RESOURCE_PENDING_OR_UNAVAILABLE" "HOST_SCOPE_WRITE_UNCERTAIN_NO_REPLAY"
    "HOST_SCOPE_SYNC_UNCERTAIN_NO_REPLAY" ;;
  let recorded := begin_record intent now_unix in
  write_record path (encode_to_vec recorded)
    "HOST_OPERATION_EXISTS_OR_JOURNAL_UNAVAILABLE" "HOST_JOURNAL_WRITE_UNCERTAIN_NO_REPLAY"
    "HOST_JOURNAL_SYNC_UNCERTAIN_NO_REPLAY" ;;
  mret recorded.

(** ** Terminal receipts *)

Definition terminal_result_invalid (intent : FleetHostIntent) (result : FleetHostResult)
    (terminal : string) : bool :=
  negb (str_eqb (result_operation_id result) (intent_operation_id intent))
  || negb (str_eqb (result_machine_id result) (intent_machine_id intent))
  || negb (str_eqb (result_resource_id result) (intent_resource_id intent))
  || negb (bytes_eqb (result_release_set_sha256 result) (intent_release_set_sha256 intent))
  || negb (bytes_eqb (result_desired_sha256 result) (intent_desired_sha256 intent))
  || negb (match try_from (result_state result) with
           | Some FleetHostResultState_Verified => str_eqb terminal "verified"
           | Some FleetHostResultState_Observed => str_eqb terminal "observed"
           | Some FleetHostResultState_UnknownNoReplay => str_eqb terminal "incomplete"
           | _ => false
           end)
  || (str_eqb terminal "observed" && result_physical_readback result)
  || (str_eqb terminal "verified" && negb (result_physical_readback result))
  || (str_eqb terminal "incomplete"
      && (result_physical_readback result
          || negb (result_reason result
                   =? as_i32 FleetHostResultReason_HistoricalPartialRequiresFreshApply)))
  || is_err (validate_host_result_reason result).

Definition store_native_terminal_and_unlock_once (intent : FleetHostIntent)
    (result : FleetHostResult) (terminal : string) : io unit :=
  lift (fail_if (terminal_result_invalid intent result terminal)
          "HOST_TERMINAL_RESULT_INVALID") ;;
  let scope := native_scope_pending_path intent in
  pending ← read_or scope "HOST_RESOURCE_PENDING_RECORD_REQUIRED";
  lift (fail_if (negb (bytes_eqb pending (encode_to_vec intent)))
          "HOST_RESOURCE_PENDING_IDENTITY_MISMATCH") ;;
  write_record (terminal_path (intent_operation_id intent) terminal) (encode_to_vec result)
    "HOST_TERMINAL_RECEIPT_EXISTS_OR_UNAVAILABLE" "HOST_TERMINAL_RECEIPT_WRITE_UNCERTAIN"
    "HOST_TERMINAL_RECEIPT_SYNC_UNCERTAIN" ;;
  removed ← perform (RemoveFile scope);
  lift (fail_if (negb removed) "HOST_SCOPE_RELEASE_UNCERTAIN_NO_REPLAY") ;;
  sync_native_journal_directory.

(** ** Completion after the effect *)

Definition observed_stale (observed now_unix : Z) : bool :=
  (u64_saturating_add now_unix 60 <? observed)
  || (300 <? u64_saturating_sub now_unix observed).

(** The checks of the readback after the effect: the reason of the result *)
Definition check_poststate (intent : FleetHostIntent) (target : FleetHostTarget)
    (expected_runtime_digest : bytes) (executed_step : FleetHostPlannedStep)
    (previous_runtime_digest : bytes) (now_unix : Z) (observed : FleetNativeObservation)
    : res FleetHostResultReason :=
  validate_native_observation observed ;;
  fail_if (negb (obs_host_kind observed =? intent_kind intent))
    "HOST_NATIVE_POSTSTATE_KIND_MISMATCH" ;;
  fail_if (u64_saturating_add now_unix 60 <? obs_observed_at_unix observed)
    "HOST_NATIVE_POSTSTATE_FUTURE_TIMESTAMP" ;;
  fail_if (300 <? u64_saturating_sub now_unix (obs_observed_at_unix observed))
    "HOST_NATIVE_POSTSTATE_STALE_TIMESTAMP" ;;
  fail_if (negb (is_empty (obs_reason_codes observed)))
    "HOST_NATIVE_POSTSTATE_REASONS_PRESENT" ;;
  kind ← ok_or (try_from (intent_kind intent)) "HOST_NATIVE_KIND_INVALID";
  expected_proof ← match kind with
    | FleetHostKind_Windows => Ok FleetNativeReleaseProof_ActivationRecord
    | FleetHostKind_Vm => Ok FleetNativeReleaseProof_ApplicationBundle
    | FleetHostKind_Unspecified => Err "HOST_NATIVE_KIND_INVALID"
    end;
  poststate_release ←
    (if bool_decide (executed_step = FleetHostPlannedStep_Stop) then
       fail_if (negb (blen previous_runtime_digest =? 32))
         "HOST_NATIVE_PRESTATE_RELEASE_UNPROVEN" ;;
       Ok previous_runtime_digest
     else Ok expected_runtime_digest);
  fail_if (negb (obs_release_proof observed =? as_i32 expected_proof)
           || negb (bytes_eqb (obs_observed_release_sha256 observed) poststate_release))
    "HOST_NATIVE_RELEASE_POSTSTATE_MISMATCH" ;;
  run ← ok_or (try_from (target_run_state target)) "HOST_TARGET_RUN_STATE_INVALID";
  owner ← ok_or (try_from (obs_owner_state observed)) "HOST_NATIVE_OWNER_STATE_INVALID";
  fail_if (negb (match run, owner with
                 | FleetHostRunState_Stopped, FleetNativeOwnerState_Stopped
                 | FleetHostRunState_Running, FleetNativeOwnerState_Running => true
                 | _, _ => false
                 end)
           || (bool_decide (run = FleetHostRunState_Running)
               && negb (obs_runtime_ready_proven observed && obs_runtime_ready observed)))
    "HOST_NATIVE_RUNTIME_POSTSTATE_MISMATCH" ;;
  Ok (if bool_decide (executed_step = FleetHostPlannedStep_Stop)
         && negb (bytes_eqb previous_runtime_digest expected_runtime_digest)
      then FleetHostResultReason_StoppedReleaseDriftRequiresInstallTarget
      else FleetHostResultReason_NoFurtherAction).

Definition begin_mismatch (recorded : FleetHostResult) (intent : FleetHostIntent) : bool :=
  negb (result_state recorded =? as_i32 FleetHostResultState_Authorized)
  || negb (str_eqb (result_machine_id recorded) (intent_machine_id intent))
  || negb (str_eqb (result_resource_id recorded) (intent_resource_id intent))
  || negb (str_eqb (result_operation_id recorded) (intent_operation_id intent))
  || negb (result_action recorded =? intent_action intent)
  || negb (bytes_eqb (result_release_set_sha256 recorded) (intent_release_set_sha256 intent))
  || negb (bytes_eqb (result_desired_sha256 recorded) (intent_desired_sha256 intent)).

Definition find_selected (registry : FleetDesiredState) (intent : FleetHostIntent)
    : option FleetHost :=
  List.find (λ h, str_eqb (host_machine_id h) (intent_machine_id intent)
                  && (host_kind h =? intent_kind intent)) (registry_hosts registry).

Definition finish_after_protected_owner_check_once (intent : FleetHostIntent)
    (registry : FleetDesiredState) (native_machine_id : string) (native_owner_kind : Z)
    (expected_runtime_digest : bytes) (executed_step : FleetHostPlannedStep)
    (previous_runtime_digest : bytes) (now_unix : Z)
    (native_readback : io FleetNativeObservation) : io FleetHostResult :=
  lift (fail_if (negb (str_eqb (intent_machine_id intent) native_machine_id)
                 || negb (intent_kind intent =? native_owner_kind))
          "HOST_LOCAL_OWNER_IDENTITY_MISMATCH") ;;
  lift (validate_intent_against_target intent registry) ;;
  target ← lift (ok_or (find_selected registry intent ≫= host_target)
                   "HOST_TARGET_UNSET_OBSERVE_ONLY");
  lift (fail_if (negb (blen expected_runtime_digest =? 32) || all_zero expected_runtime_digest)
          "HOST_EXPECTED_RUNTIME_DIGEST_INVALID") ;;
  b ← read_or (native_scope_pending_path intent) "HOST_RESOURCE_PENDING_RECORD_REQUIRED";
  recorded_intent ← lift (decode_host_intent b);
  lift (fail_if (negb (bool_decide (recorded_intent = intent)))
          "HOST_RESOURCE_PENDING_IDENTITY_MISMATCH") ;;
  original ← read_or (record_path (intent_operation_id intent))
    "HOST_AUTHORIZED_JOURNAL_MISSING";
  recorded ← lift (ok_or (decode original) "HOST_AUTHORIZED_JOURNAL_INVALID");
  lift (fail_if (begin_mismatch recorded intent) "HOST_AUTHORIZED_JOURNAL_MISMATCH") ;;
  observed ← native_readback;
  reason ← lift (check_poststate intent target expected_runtime_digest executed_step
                   previous_runtime_digest now_unix observed);
  let result := result_for intent FleetHostResultState_Verified
                  (obs_observed_at_unix observed) true reason in
  store_native_terminal_and_unlock_once intent result "verified" ;;
  mret result.

(** ** Read-only recovery *)

Definition verify_read_only_recovery_state (host : FleetHost)
    (observation : FleetNativeObservation) (expected_runtime_digest : bytes) (now_unix : Z)
    : res FleetHostResultReason :=
  validate_native_observation observation ;;
  fail_if (negb (obs_host_kind observation =? host_kind host)
           || negb (is_empty (obs_reason_codes observation))
           || observed_stale (obs_observed_at_unix observation) now_unix
           || negb (blen expected_runtime_digest =? 32))
    "HOST_NATIVE_RECOVERY_READBACK_UNPROVEN" ;;
  kind ← ok_or (try_from (host_kind host)) "HOST_NATIVE_RECOVERY_KIND_INVALID";
  required_proof ← match kind with
    | FleetHostKind_Vm => Ok FleetNativeReleaseProof_ApplicationBundle
    | FleetHostKind_Windows => Ok FleetNativeReleaseProof_ActivationRecord
    | FleetHostKind_Unspecified => Err "HOST_NATIVE_RECOVERY_KIND_INVALID"
    end;
  fail_if (negb (obs_release_proof observation =? as_i32 required_proof)
           || negb (blen (obs_observed_release_sha256 observation) =? 32)
           || all_zero (obs_observed_release_sha256 observation))
    "HOST_NATIVE_RECOVERY_RELEASE_UNPROVEN" ;;
  desired ← ok_or (host_target host) "HOST_NATIVE_RECOVERY_TARGET_UNPROVEN";
  run ← ok_or (try_from (target_run_state desired)) "HOST_NATIVE_RECOVERY_TARGET_INVALID";
  mode ← ok_or (try_from (target_windows_mode desired)) "HOST_NATIVE_RECOVERY_MODE_INVALID";
  fail_if (negb (bool_decide (mode = FleetHostMode_Unspecified)))
    "HOST_NATIVE_RECOVERY_MODE_NOT_ACCEPTED" ;;
  owner ← ok_or (try_from (obs_owner_state observation)) "HOST_NATIVE_RECOVERY_OWNER_UNPROVEN";
  match run, owner with
  | FleetHostRunState_Running, FleetNativeOwnerState_Running =>
      if obs_runtime_ready_proven observation && obs_runtime_ready observation
         && bytes_eqb (obs_observed_release_sha256 observation) expected_runtime_digest
      then Ok FleetHostResultReason_RecoveredNativeRunning
      else Err "HOST_NATIVE_RECOVERY_NOT_CONVERGED_NO_REPLAY"
  | FleetHostRunState_Stopped, FleetNativeOwnerState_Stopped =>
      if bytes_eqb (obs_observed_release_sha256 observation) expected_runtime_digest
      then Ok FleetHostResultReason_RecoveredNativeStopped
      else Ok FleetHostResultReason_StoppedReleaseDriftRequiresInstallTarget
  | _, _ => Err "HOST_NATIVE_RECOVERY_NOT_CONVERGED_NO_REPLAY"
  end.

Definition verify_historical_partial_recovery_state (host : FleetHost)
    (observed : FleetNativeObservation) (current_release : bytes) (now_unix : Z)
    : res FleetHostResultReason :=
  validate_native_observation observed ;;
  fail_if (negb (host_kind host =? as_i32 FleetHostKind_Vm)
           || negb (bool_decide (target_run_state <$> host_target host
                                 = Some (as_i32 FleetHostRunState_Running)))
           || negb (obs_host_kind observed =? host_kind host)
           || observed_stale (obs_observed_at_unix observed) now_unix
           || negb (((obs_owner_state observed =? as_i32 FleetNativeOwnerState_Running)
                     && known_runtime_only_historical_reasons observed)
                    || known_partial_vm_resource_baseline host observed)
           || negb (obs_release_proof observed
                    =? as_i32 FleetNativeReleaseProof_ApplicationBundle)
           || negb (obs_runtime_ready_proven observed)
           || negb (blen current_release =? 32)
           || negb (blen (obs_observed_release_sha256 observed) =? 32)
           || all_zero (obs_observed_release_sha256 observed)
           || (bytes_eqb (obs_observed_release_sha256 observed) current_release
               && (obs_runtime_ready observed
                   || negb (known_runtime_only_historical_reasons observed))))
    "HOST_NATIVE_HISTORICAL_BASELINE_UNPROVEN_NO_REPLAY" ;;
  Ok FleetHostResultReason_HistoricalPartialRequiresFreshApply.

Definition pending_identity_mismatch (original intent : FleetHostIntent) : bool :=
  negb (str_eqb (intent_machine_id original) (intent_machine_id intent))
  || negb (intent_kind original =? intent_kind intent)
  || negb (str_eqb (intent_resource_id original) (intent_resource_id intent))
  || str_eqb (intent_operation_id original) (intent_operation_id intent)
  || negb (try_from_one_of (intent_action original)
             [FleetHostAction_Apply; FleetHostAction_Recover]).

Definition recovery_begin_mismatch (begin : FleetHostResult) (original : FleetHostIntent)
    : bool :=
  negb (result_schema_version begin =? 1)
  || negb (result_state begin =? as_i32 FleetHostResultState_Authorized)
  || result_physical_readback begin
  || negb (str_empty (result_error_class begin))
  || is_err (validate_host_result_reason begin)
  || negb (result_reason begin
           =? as_i32 FleetHostResultReason_AuthorizedAwaitNativeReadback)
  || negb (str_eqb (result_machine_id begin) (intent_machine_id original))
  || negb (str_eqb (result_resource_id begin) (intent_resource_id original))
  || negb (str_eqb (result_operation_id begin) (intent_operation_id original))
  || negb (result_action begin =? intent_action original)
  || negb (bytes_eqb (result_release_set_sha256 begin) (intent_release_set_sha256 original))
  || negb (bytes_eqb (result_desired_sha256 begin) (intent_desired_sha256 original)).

(** What the observation says of the interrupted operation *)
Definition recovery_verdict (intent original : FleetHostIntent) (selected : FleetHost)
    (bound : BoundNativeHostArtifacts) (now_unix : Z) (observed : FleetNativeObservation)
    : res FleetHostResultReason :=
  let historical_drift :=
    negb (bytes_eqb (intent_registry_sha256 original) (intent_registry_sha256 intent))
    || negb (bytes_eqb (intent_desired_sha256 original) (intent_desired_sha256 intent))
    || negb (bytes_eqb (intent_release_set_sha256 original) (intent_release_set_sha256 intent)) in
  let native_release_mismatch :=
    negb (bytes_eqb (obs_observed_release_sha256 observed)
            (bound_runtime_release_sha256 bound)) in
  let known_runtime_incomplete :=
    (host_kind selected =? as_i32 FleetHostKind_Vm)
    && (obs_owner_state observed =? as_i32 FleetNativeOwnerState_Running)
    && negb (obs_runtime_ready observed)
    && known_runtime_only_historical_reasons observed in
  let incomplete := historical_drift || native_release_mismatch || known_runtime_incomplete in
  fail_if (incomplete
           && (negb (intent_action original =? as_i32 FleetHostAction_Apply)
               || negb (str_eqb (intent_resource_id original) "sing-box")
               || negb (host_kind selected =? as_i32 FleetHostKind_Vm)))
    "HOST_NATIVE_HISTORICAL_SCOPE_UNSUPPORTED_NO_REPLAY" ;;
  if incomplete
  then verify_historical_partial_recovery_state selected observed
         (bound_runtime_release_sha256 bound) now_unix
  else verify_read_only_recovery_state selected observed
         (bound_runtime_release_sha256 bound) now_unix.

Definition terminal_mismatch (exact prior_result : FleetHostResult)
    (original : FleetHostIntent) : bool :=
  negb (result_state exact =? result_state prior_result)
  || negb (Bool.eqb (result_physical_readback exact) (result_physical_readback prior_result))
  || negb (result_reason exact =? result_reason prior_result)
  || negb (str_eqb (result_error_class exact) (result_error_class prior_result))
  || negb (str_eqb (result_next_action exact) (result_next_action prior_result))
  || negb (str_eqb (result_machine_id exact) (intent_machine_id original))
  || negb (str_eqb (result_resource_id exact) (intent_resource_id original))
  || negb (str_eqb (result_operation_id exact) (intent_operation_id original))
  || negb (result_action exact =? intent_action original)
  || negb (bytes_eqb (result_release_set_sha256 exact) (intent_release_set_sha256 original))
  || negb (bytes_eqb (result_desired_sha256 exact) (intent_desired_sha256 original)).

(** The receipt of the interrupted operation and the release of its gate *)
Definition settle_prior_operation (original : FleetHostIntent) (scope : string)
    (verdict : FleetHostResultReason) (observed_at : Z) : io unit :=
  let partial :=
    bool_decide (verdict = FleetHostResultReason_HistoricalPartialRequiresFreshApply) in
  let prior_result := result_for original
    (if partial then FleetHostResultState_UnknownNoReplay else FleetHostResultState_Verified)
    observed_at (negb partial) verdict in
  let terminal_name := if partial then "incomplete" else "verified" in
  opposite ← perform (Stat (terminal_path (intent_operation_id original)
                              (if partial then "verified" else "incomplete")));
  lift (fail_if (match opposite with Found => true | _ => false end)
          "HOST_NATIVE_RECOVERY_CONFLICTING_TERMINAL") ;;
  let prior_terminal := terminal_path (intent_operation_id original) terminal_name in
  st ← perform (Stat prior_terminal);
  match st with
  | Found =>
      b ← read_or prior_terminal "HOST_NATIVE_RECOVERY_TERMINAL_UNREADABLE";
      exact ← lift (decode_host_result b);
      lift (fail_if (terminal_mismatch exact prior_result original)
              "HOST_NATIVE_RECOVERY_TERMINAL_MISMATCH") ;;
      removed ← perform (RemoveFile scope);
      lift (fail_if (negb removed) "HOST_RECOVERY_SCOPE_UNCERTAIN_NO_REPLAY") ;;
      sync_native_journal_directory
  | NotFound => store_native_terminal_and_unlock_once original prior_result terminal_name
  | Unavailable => lift (Err "HOST_NATIVE_RECOVERY_TERMINAL_UNAVAILABLE")
  end.

Definition observed_result (intent : FleetHostIntent) (observed_at : Z)
    (reason : FleetHostResultReason) : FleetHostResult :=
  let result := prepared_host_result intent in
  set_host_result_reason {|
    result_schema_version := result_schema_version result;
    result_machine_id := result_machine_id result;
    result_resource_id := result_resource_id result;
    result_operation_id := result_operation_id result;
    result_action := result_action result;
    result_state := as_i32 FleetHostResultState_Observed;
    result_release_set_sha256 := result_release_set_sha256 result;
    result_desired_sha256 := result_desired_sha256 result;
    result_observed_at_unix := observed_at;
    result_error_class := result_error_class result;
    result_next_action := result_next_action result;
    result_physical_readback := result_physical_readback result;
    result_reason := result_reason result
  |} reason.

Definition resolve_pending_native_recovery_once (intent : FleetHostIntent)
    (authorization : FleetHostAuthorization) (registry : FleetDesiredState)
    (selected : FleetHost) (bound : BoundNativeHostArtifacts)
    (pinned_worker_public_key : bytes) (native_machine_id : string) (native_owner_kind : Z)
    (now_unix : Z) (observed : FleetNativeObservation) : io FleetHostResult :=
  let scope := native_scope_pending_path intent in
  pending ← read_or scope "HOST_RECOVERY_PENDING_RECORD_UNREADABLE";
  original ← lift (decode_host_intent pending);
  lift (fail_if (pending_identity_mismatch original intent)
          "HOST_NATIVE_RECOVERY_PENDING_IDENTITY_MISMATCH") ;;
  original_begin ← read_or (record_path (intent_operation_id original))
    "HOST_NATIVE_RECOVERY_BEGIN_MISSING";
  begin ← lift (decode_host_result original_begin);
  lift (fail_if (recovery_begin_mismatch begin original)
          "HOST_NATIVE_RECOVERY_BEGIN_MISMATCH") ;;
  verdict ← lift (recovery_verdict intent original selected bound now_unix observed);
  settle_prior_operation original scope verdict (obs_observed_at_unix observed) ;;
  admit_after_protected_owner_check_once intent authorization registry
    (bound_registry_sha256 bound) (bound_desired_sha256 bound)
    (bound_release_set_sha256 bound) pinned_worker_public_key native_machine_id
    native_owner_kind now_unix ;;
  let result := observed_result intent (obs_observed_at_unix observed) verdict in
  store_native_terminal_and_unlock_once intent result "observed" ;;
  mret result.

(** ** Execution *)

Definition bind_windows_release (binding : option WindowsExecutionBinding)
    (intent : FleetHostIntent) (native_owner_kind : Z) (bound : BoundNativeHostArtifacts)
    : res BoundNativeHostArtifacts :=
  match binding with
  | None => Ok bound
  | Some binding =>
      let installed := installed_release_sha256 binding in
      fail_if (match expected_config_sha256 binding with
               | Some sha => negb (blen sha =? 32) || all_zero sha
               | None => false
               end) "HOST_WINDOWS_EXPECTED_CONFIG_DIGEST_INVALID" ;;
      fail_if (negb (native_owner_kind =? as_i32 FleetHostKind_Windows)
               || negb (intent_kind intent =? native_owner_kind)
               || negb (blen installed =? 32)
               || all_zero installed) "HOST_WINDOWS_INSTALLED_RUNTIME_PROOF_INVALID" ;;
      Ok (if negb (intent_action intent =? as_i32 FleetHostAction_Apply)
          then {| bound_registry_sha256 := bound_registry_sha256 bound;
                  bound_desired_sha256 := bound_desired_sha256 bound;
                  bound_release_set_sha256 := bound_release_set_sha256 bound;
                  bound_runtime_release_sha256 := installed |}
          else bound)
  end.

(** Identity, artifacts, target, signer and signature: everything that is
    checked before the journal is read *)
Definition authenticate (binding : option WindowsExecutionBinding) (intent : FleetHostIntent)
    (authorization : FleetHostAuthorization)
    (registry_pb selected_spec_bytes release_set_pb : bytes) (vm_bundle_pb : option bytes)
    (pinned_worker_public_key : bytes) (native_machine_id : string) (native_owner_kind : Z)
    (now_unix : Z)
    : res (FleetDesiredState * BoundNativeHostArtifacts * FleetHostAction * FleetHostKind) :=
  fail_if (negb (str_eqb (intent_machine_id intent) native_machine_id)
           || negb (intent_kind intent =? native_owner_kind))
    "HOST_LOCAL_OWNER_IDENTITY_MISMATCH" ;;
  '(registry, bound) ← bind_native_host_artifacts intent registry_pb selected_spec_bytes
    release_set_pb vm_bundle_pb;
  bound ← bind_windows_release binding intent native_owner_kind bound;
  validate_intent_against_target intent registry ;;
  (if intent_kind intent =? as_i32 FleetHostKind_Windows then
     selected ← ok_or (find_selected registry intent) "HOST_INTENT_UNKNOWN_MACHINE";
     verify_git_host_worker_signer_pin selected pinned_worker_public_key
   else Ok tt) ;;
  verify_host_authorization intent authorization pinned_worker_public_key now_unix ;;
  action ← ok_or (try_from (intent_action intent)) "HOST_NATIVE_EXECUTION_ACTION_NOT_ALLOWED";
  kind ← ok_or (try_from (intent_kind intent)) "HOST_NATIVE_EXECUTION_ACTION_NOT_ALLOWED";
  validate_native_action_kind kind action ;;
  Ok (registry, bound, action, kind).

(** The gate of another resource *)
Definition foreign_pending (current_scope name : string) : bool :=
  (starts_with "resource-" name || starts_with "admin-" name)
  && ends_with ".pending.pb" name && negb (str_eqb name current_scope).

Definition scan_pending (current_scope : string) : io unit :=
  items ← perform ReadDir;
  items ← lift (ok_or items "HOST_RESOURCE_PENDING_DIRECTORY_UNAVAILABLE");
  lift (for_each (λ item,
    name ← ok_or item "HOST_RESOURCE_PENDING_DIRECTORY_UNAVAILABLE";
    fail_if (foreign_pending current_scope name)
      "HOST_OTHER_RESOURCE_PENDING_UNKNOWN_NO_REPLAY") items).

Definition expected_config (binding : option WindowsExecutionBinding) : option bytes :=
  binding ≫= expected_config_sha256.

(** [config.is_some_and(|sha| observed != sha)] *)
Definition config_differs (config : option bytes) (observed : bytes) : bool :=
  match config with Some sha => negb (bytes_eqb observed sha) | None => false end.

(** The step the planner selects from the fresh observation, with the guards
    that tie it to the signed action *)
Definition select_step (binding : option WindowsExecutionBinding) (intent : FleetHostIntent)
    (selected_spec_bytes : bytes) (bound : BoundNativeHostArtifacts)
    (action : FleetHostAction) (kind : FleetHostKind) (selected : FleetHost)
    (before : FleetNativeObservation) (now_unix : Z) : res FleetHostPlannedStep :=
  validate_native_observation before ;;
  match binding with
  | Some binding =>
      fail_if (negb (obs_release_proof before
                     =? as_i32 FleetNativeReleaseProof_ActivationRecord)
               || negb (bytes_eqb (obs_observed_release_sha256 before)
                          (installed_release_sha256 binding)))
        "HOST_WINDOWS_INSTALLED_RUNTIME_READBACK_MISMATCH"
  | None => Ok tt
  end ;;
  planned_host ← project_host_for_planner selected selected_spec_bytes;
  let plan := propose_signed_host_transition planned_host before action
    (if bool_decide (is_Some binding) then bound_runtime_release_sha256 bound
     else bound_release_set_sha256 bound)
    (bound_runtime_release_sha256 bound) now_unix in
  plan ← (if bool_decide (action = FleetHostAction_Apply)
             && (plan_step plan =? as_i32 FleetHostPlannedStep_Noop)
             && config_differs (expected_config binding) (obs_windows_config_sha256 before)
          then
            fail_if (negb (bool_decide (kind = FleetHostKind_Windows))
                     || negb (obs_owner_state before =? as_i32 FleetNativeOwnerState_Stopped))
              "HOST_WINDOWS_CONFIGURATION_REQUIRES_STOPPED_OWNER" ;;
            Ok {| plan_schema_version := plan_schema_version plan;
                  plan_machine_id := plan_machine_id plan;
                  plan_step := as_i32 FleetHostPlannedStep_Configure;
                  plan_reason_code := "STOPPED_CONFIGURATION_DRIFT";
                  plan_expected_release_digest := plan_expected_release_digest plan;
                  plan_observed_release_digest := plan_observed_release_digest plan;
                  plan_owner_attested := plan_owner_attested plan;
                  plan_mutation_authorized := plan_mutation_authorized plan;
                  plan_reason := as_i32 FleetHostPlanReason_StoppedConfigurationDrift |}
          else Ok plan);
  validate_host_transition_plan plan planned_host ;;
  step ← ok_or (try_from (plan_step plan)) "HOST_NATIVE_PLAN_STEP_INVALID";
  fail_if (bool_decide (step = FleetHostPlannedStep_Blocked)) "HOST_NATIVE_PLAN_BLOCKED" ;;
  validate_native_action_step kind action step ;;
  fail_if (negb (str_eqb (intent_resource_id intent) "sing-box")
           && negb (bool_decide (step = FleetHostPlannedStep_ReplaceRelease)))
    "HOST_SCOPED_INTENT_CANNOT_EXECUTE_HOST_WIDE_STEP" ;;
  fail_if ((intent_action intent =? as_i32 FleetHostAction_Recover)
           && negb (bool_decide (step = FleetHostPlannedStep_Noop)))
    "HOST_NATIVE_RECOVER_READ_ONLY_STATE_NOT_CONVERGED" ;;
  Ok step.

Definition executable_step (step : FleetHostPlannedStep) : bool :=
  bool_decide (step ∈ [FleetHostPlannedStep_Start; FleetHostPlannedStep_Stop;
    FleetHostPlannedStep_Install; FleetHostPlannedStep_ReplaceRelease;
    FleetHostPlannedStep_Configure]).

(** The closure [native_readback] of the completion *)
Definition poststate_readback (binding : option WindowsExecutionBinding)
    (action : FleetHostAction) : io FleetNativeObservation :=
  observed ← perform_res Observe;
  lift (fail_if (bool_decide (action = FleetHostAction_Apply)
                 && config_differs (expected_config binding)
                      (obs_windows_config_sha256 observed))
          "HOST_WINDOWS_CONFIG_POSTSTATE_MISMATCH") ;;
  mret observed.

(** The selected step: a NOOP is recorded as observed; any other step is applied
    once between its admission and its completion *)
Definition execute_step (binding : option WindowsExecutionBinding) (intent : FleetHostIntent)
    (authorization : FleetHostAuthorization) (registry : FleetDesiredState)
    (bound : BoundNativeHostArtifacts) (action : FleetHostAction)
    (pinned_worker_public_key : bytes) (native_machine_id : string) (native_owner_kind : Z)
    (now_unix : Z) (before : FleetNativeObservation) (step : FleetHostPlannedStep)
    : io FleetHostResult :=
  let admitted_record := admit_after_protected_owner_check_once intent authorization registry
    (bound_registry_sha256 bound) (bound_desired_sha256 bound)
    (bound_release_set_sha256 bound) pinned_worker_public_key native_machine_id
    native_owner_kind now_unix in
  if bool_decide (step = FleetHostPlannedStep_Noop) then
    admitted_record ;;
    let result := observed_result intent (obs_observed_at_unix before)
                    FleetHostResultReason_NoFurtherAction in
    store_native_terminal_and_unlock_once intent result "observed" ;;
    mret result
  else
    lift (fail_if (negb (executable_step step)) "HOST_NATIVE_PLAN_UNSUPPORTED") ;;
    perform_res (AllowStep step) ;;
    admitted_record ;;
    perform_res (ApplyOnce step) ;;
    elapsed ← perform Elapsed;
    finish_after_protected_owner_check_once intent registry native_machine_id
      native_owner_kind (bound_runtime_release_sha256 bound) step
      (obs_observed_release_sha256 before) (u64_saturating_add now_unix elapsed)
      (poststate_readback binding action).

Definition execute_after_protected_owner_check_once
    (binding : option WindowsExecutionBinding) (intent : FleetHostIntent)
    (authorization : FleetHostAuthorization)
    (registry_pb selected_spec_bytes release_set_pb : bytes) (vm_bundle_pb : option bytes)
    (pinned_worker_public_key : bytes) (native_machine_id : string) (native_owner_kind : Z)
    (now_unix : Z) : io FleetHostResult :=
  '(registry, bound, action, kind) ← lift (authenticate binding intent authorization
    registry_pb selected_spec_bytes release_set_pb vm_bundle_pb pinned_worker_public_key
    native_machine_id native_owner_kind now_unix);
  let current_scope := native_scope_pending_path intent in
  scan_pending current_scope ;;
  require_absent (record_path (intent_operation_id intent))
    "HOST_OPERATION_EXISTS_OR_JOURNAL_UNAVAILABLE" "HOST_OPERATION_JOURNAL_UNAVAILABLE" ;;
  selected ← lift (ok_or (find_selected registry intent) "HOST_INTENT_UNKNOWN_MACHINE");
  pending ← perform (Stat current_scope);
  match pending with
  | Unavailable => lift (Err "HOST_RESOURCE_PENDING_OR_UNAVAILABLE")
  | Found =>
      if intent_action intent =? as_i32 FleetHostAction_Recover then
        observed ← perform_res Observe;
        (if bool_decide (kind = FleetHostKind_Windows) then
           expected ← lift (ok_or (expected_config binding)
             "HOST_WINDOWS_RECOVERY_CONFIGURATION_UNPROVEN_NO_REPLAY");
           lift (fail_if (negb (bytes_eqb (obs_windows_config_sha256 observed) expected))
             "HOST_WINDOWS_RECOVERY_CONFIGURATION_NOT_CONVERGED_NO_REPLAY")
         else mret tt) ;;
        resolve_pending_native_recovery_once intent authorization registry selected bound
          pinned_worker_public_key native_machine_id native_owner_kind now_unix observed
      else lift (Err "HOST_RESOURCE_PENDING_OR_UNAVAILABLE")
  | NotFound =>
      before ← perform_res Observe;
      step ← lift (select_step binding intent selected_spec_bytes bound action kind selected
                     before now_unix);
      execute_step binding intent authorization registry bound action
        pinned_worker_public_key native_machine_id native_owner_kind now_unix before step
  end.

(** What one call of the owner is given *)
Record request : Set := {
  rq_binding : option WindowsExecutionBinding;
  rq_intent : FleetHostIntent;
  rq_authorization : FleetHostAuthorization;
  rq_registry_pb : bytes;
  rq_spec_bytes : bytes;
  rq_release_set_pb : bytes;
  rq_vm_bundle_pb : option bytes;
  rq_worker_public_key : bytes;
  rq_machine_id : string;
  rq_owner_kind : Z;
  rq_now_unix : Z
}.

Definition execute_protected (rq : request) : io FleetHostResult :=
  perform_res Protection ;;
  execute_after_protected_owner_check_once (rq_binding rq) (rq_intent rq)
    (rq_authorization rq) (rq_registry_pb rq) (rq_spec_bytes rq) (rq_release_set_pb rq)
    (rq_vm_bundle_pb rq) (rq_worker_public_key rq) (rq_machine_id rq) (rq_owner_kind rq)
    (rq_now_unix rq).

(** The two entry points: without a Windows binding, and with one *)
Definition execute_native_host_once (intent : FleetHostIntent)
    (authorization : FleetHostAuthorization)
    (registry_pb selected_spec_bytes release_set_pb : bytes) (vm_bundle_pb : option bytes)
    (pinned_worker_public_key : bytes) (native_machine_id : string) (native_owner_kind : Z)
    (now_unix : Z) : io FleetHostResult :=
  execute_protected {|
    rq_binding := None; rq_intent := intent; rq_authorization := authorization;
    rq_registry_pb := registry_pb; rq_spec_bytes := selected_spec_bytes;
    rq_release_set_pb := release_set_pb; rq_vm_bundle_pb := vm_bundle_pb;
    rq_worker_public_key := pinned_worker_public_key; rq_machine_id := native_machine_id;
    rq_owner_kind := native_owner_kind; rq_now_unix := now_unix |}.

Definition execute_native_windows_host_once (intent : FleetHostIntent)
    (authorization : FleetHostAuthorization)
    (registry_pb selected_spec_bytes release_set_pb : bytes) (vm_bundle_pb : option bytes)
    (pinned_worker_public_key : bytes) (native_machine_id : string) (native_owner_kind : Z)
    (installed : bytes) (config : option bytes) (now_unix : Z) : io FleetHostResult :=
  execute_protected {|
    rq_binding := Some {| installed_release_sha256 := installed;
                          expected_config_sha256 := config |};
    rq_intent := intent; rq_authorization := authorization;
    rq_registry_pb := registry_pb; rq_spec_bytes := selected_spec_bytes;
    rq_release_set_pb := release_set_pb; rq_vm_bundle_pb := vm_bundle_pb;
    rq_worker_public_key := pinned_worker_public_key; rq_machine_id := native_machine_id;
    rq_owner_kind := native_owner_kind; rq_now_unix := now_unix |}.
End Journal.
