(* ===== verification/HostJournalFacts.v ===== *)
(** * One call of the owner

    What a single run of the journal of [HostJournal] does, whatever its calls
    answer: nothing is written before authentication, a free journal and a
    fresh observation; the effect is applied at most once, directly after a
    durable BEGIN; a VERIFIED result carries a converged readback. *)

From S2P Require Import Prelude RustStd RustNet HostTypes Concrete ResourceGraph.
From S2P Require Import ResourceGraphFacts ResourceReport HostRegistry ApplyBundle.
From S2P Require Import HostLifecycle HostLifecycleFacts HostPlanner JournalFs.
From S2P Require Import HostJournal.

(** The steps applied in a history *)
Definition applied_step {R} (c : call R) : option FleetHostPlannedStep :=
  match c with ApplyOnce s => Some s | _ => None end.
Definition applied (tr : list event) : list FleetHostPlannedStep :=
  omap (λ e, match e with Ev c _ => applied_step c end) tr.

(** The calls that change the journal *)
Definition mutates_journal {R} (c : call R) : bool :=
  match c with
  | CreateNew _ | WriteAll _ _ | RemoveFile _ => true
  | _ => false
  end.

Lemma applied_app tr1 tr2 : applied (tr1 ++ tr2) = applied tr1 ++ applied tr2.
Proof. apply omap_app. Qed.

(** The answers of a record that was written *)
Definition record_events (n : string) (b : bytes) (h : positive) : list event :=
  [Ev (CreateNew n) (Some h); Ev (WriteAll h b) true; Ev (SyncAll h) true;
   Ev OpenRoot true; Ev SyncRoot true].

(** ** Runs that satisfy a guard on their mutations *)

Section Guarded.
Context (guard : list event → Prop) (apply_ok : list event → FleetHostPlannedStep → Prop).

Definition guarded (tr : list event) (R : Type) (c : call R) : Prop :=
  (mutates_journal c = true → guard tr) ∧ ∀ s, applied_step c = Some s → apply_ok tr s.

#[local] Instance guarded_protocol : Protocol := trace_protocol guarded.
Ltac norm_trace := cbn [next guarded_protocol trace_protocol]; rewrite <- ?app_assoc.

Context (guard_app : ∀ tr1 tr2, guard tr1 → guard (tr1 ++ tr2)).

Lemma guarded_pure tr R (c : call R) :
  mutates_journal c = false → applied_step c = None → guarded tr R c.
Proof. intros E1 E2. split; rewrite ?E1, ?E2; done. Qed.

Lemma guarded_mut tr R (c : call R) : guard tr → applied_step c = None → guarded tr R c.
Proof. intros ? E2. split; rewrite ?E2; done. Qed.

Lemma wp_sync_dir (Q : unit → list event → Prop) tr :
  Q tt (tr ++ [Ev OpenRoot true; Ev SyncRoot true]) →
  wp sync_native_journal_directory (post Q) tr.
Proof.
  intros HQ. apply wp_demand; [by apply guarded_pure|].
  apply wp_demand_last; [by apply guarded_pure|]. by norm_trace.
Qed.

Lemma wp_write_record n b e1 e2 e3 (Q : unit → list event → Prop) tr :
  guard tr → (∀ h, Q tt (tr ++ record_events n b h)) →
  wp (write_record n b e1 e2 e3) (post Q) tr.
Proof.
  intros Hg HQ. apply wp_bind, wp_perform; [by apply guarded_mut|].
  intros [h|]; [|exact I]. apply wp_bind, wp_lift. cbn [ok_or].
  apply wp_demand; [by apply guarded_mut; [apply guard_app|]|]. apply wp_demand; [by apply guarded_pure|].
  apply wp_sync_dir. specialize (HQ h). by norm_trace.
Qed.

Lemma wp_require_absent n e1 e2 (Q : unit → list event → Prop) tr :
  Q tt (tr ++ [Ev (Stat n) NotFound]) → wp (require_absent n e1 e2) (post Q) tr.
Proof. intros HQ. apply wp_bind, wp_perform; [by apply guarded_pure|]. by intros []. Qed.

Lemma wp_read_or n e (Q : bytes → list event → Prop) tr :
  (∀ b, Q b (tr ++ [Ev (ReadFile n) (Some b)])) → wp (read_or n e) (post Q) tr.
Proof.
  intros HQ. apply wp_bind, wp_perform; [by apply guarded_pure|].
  intros [b|]; [apply HQ|exact I].
Qed.

Section Subprograms.
Context `{Sha256} `{Ed25519} `{ProductionText}.
Context `{Message FleetHostIntent} `{Message FleetHostResult} `{Message FleetHost}
  `{Message ApplyBundleRequest} `{Message FleetDesiredState} `{Message ReleaseSet}
  `{Message FleetVmDesiredGraph} `{Message FleetResourceHierarchy}
  `{Message FleetVmDesiredNetwork} `{Message FleetVmDesiredResource}
  `{Message FleetVmDualStackNetwork} `{Message Ipv4NetworkObservation}
  `{Message FleetVmResourceReport} `{Message FleetNativeObservation}.

(** The calls of a successful admission *)
Definition admit_events (intent : FleetHostIntent) (now : Z) (h1 h2 : positive) : list event :=
  [Ev StatRoot (Some (true, false));
   Ev (Stat (record_path (intent_operation_id intent))) NotFound]
  ++ record_events (native_scope_pending_path intent) (encode_to_vec intent) h1
  ++ record_events (record_path (intent_operation_id intent))
       (encode_to_vec (begin_record intent now)) h2.

Lemma wp_admit intent auth registry d1 d2 d3 key machine kind now
    (Q : FleetHostResult → list event → Prop) tr :
  guard tr →
  (∀ h1 h2, Q (begin_record intent now) (tr ++ admit_events intent now h1 h2)) →
  wp (admit_after_protected_owner_check_once intent auth registry d1 d2 d3 key machine
        kind now) (post Q) tr.
Proof.
  intros Hg HQ. unfold admit_after_protected_owner_check_once.
  do 4 (apply wp_check; intros _ _).
  apply wp_bind, wp_perform; [by apply guarded_pure|]. intros root.
  apply wp_check. intros [d l] Hroot%ok_or_Ok. subst root. apply wp_check. intros _ Hdl%fail_if_Ok.
  reflect_in Hdl. destruct Hdl as [-> ->].
  apply wp_seq, wp_require_absent, wp_seq, wp_write_record; [by repeat apply guard_app|].
  intros h1. apply wp_seq, wp_write_record; [by repeat apply guard_app|].
  intros h2. apply wp_ret. specialize (HQ h1 h2). unfold post. by norm_trace.
Qed.

(** The calls of a stored receipt *)
Definition terminal_events (intent : FleetHostIntent) (result : FleetHostResult)
    (terminal : string) (h : positive) : list event :=
  [Ev (ReadFile (native_scope_pending_path intent)) (Some (encode_to_vec intent))]
  ++ record_events (terminal_path (intent_operation_id intent) terminal)
       (encode_to_vec result) h
  ++ [Ev (RemoveFile (native_scope_pending_path intent)) true; Ev OpenRoot true;
      Ev SyncRoot true].

Lemma wp_store intent result terminal (Q : unit → list event → Prop) tr :
  guard tr → (∀ h, Q tt (tr ++ terminal_events intent result terminal h)) →
  wp (store_native_terminal_and_unlock_once intent result terminal) (post Q) tr.
Proof.
  intros Hg HQ. unfold store_native_terminal_and_unlock_once.
  apply wp_check; intros _ _. apply wp_seq, wp_read_or. intros b.
  apply wp_check. intros _ Hb%fail_if_Ok. reflect_in Hb. subst b.
  apply wp_seq, wp_write_record; [by repeat apply guard_app|]. intros h.
  apply wp_demand; [apply guarded_mut; [by repeat apply guard_app|done]|].
  apply wp_sync_dir. specialize (HQ h). by norm_trace.
Qed.

Lemma wp_settle_prior original scope verdict t (Q : unit → list event → Prop) tr :
  guard tr → (∀ mid, applied mid = [] → Q tt (tr ++ mid)) →
  wp (settle_prior_operation original scope verdict t) (post Q) tr.
Proof.
  intros Hg HQ. unfold settle_prior_operation.
  apply wp_bind, wp_perform; [by apply guarded_pure|]. intros st1.
  apply wp_check; intros _ _.
  apply wp_bind, wp_perform; [by apply guarded_pure|]. intros [| |]; [| |exact I].
  - apply wp_seq, wp_read_or. intros b. apply wp_check; intros exact _.
    apply wp_check; intros _ _.
    apply wp_demand; [apply guarded_mut; [by repeat apply guard_app|done]|].
    apply wp_sync_dir. norm_trace. by apply HQ.
  - apply wp_store; [by repeat apply guard_app|]. intros h.
    norm_trace. by apply HQ.
Qed.

Lemma wp_resolve intent auth registry selected bound key machine kind now observed
    (Q : FleetHostResult → list event → Prop) tr :
  guard tr →
  (∀ mid verdict, applied mid = [] →
     Q (observed_result intent (obs_observed_at_unix observed) verdict) (tr ++ mid)) →
  wp (resolve_pending_native_recovery_once intent auth registry selected bound key machine
        kind now observed) (post Q) tr.
Proof.
  intros Hg HQ. unfold resolve_pending_native_recovery_once.
  apply wp_seq, wp_read_or. intros b. apply wp_check; intros original _.
  apply wp_check; intros _ _. apply wp_seq, wp_read_or. intros b'.
  do 2 (apply wp_check; intros ? _). apply wp_check; intros verdict _.
  apply wp_seq, wp_settle_prior; [by repeat apply guard_app|]. intros mid Hmid.
  apply wp_seq, wp_admit; [by repeat apply guard_app|]. intros h1 h2.
  apply wp_seq, wp_store; [by repeat apply guard_app|]. intros h.
  apply wp_ret. norm_trace. apply HQ. rewrite !applied_app, Hmid. done.
Qed.

Lemma wp_readback binding action (Q : FleetNativeObservation → list event → Prop) tr :
  (∀ o, (action = FleetHostAction_Apply →
         config_differs (expected_config binding) (obs_windows_config_sha256 o) = false) →
        Q o (tr ++ [Ev Observe (Ok o)])) →
  wp (poststate_readback binding action) (post Q) tr.
Proof.
  intros HQ. apply wp_seq, wp_ask; [by apply guarded_pure|]. intros o.
  apply wp_check. intros _ Ho%fail_if_Ok. apply wp_ret, HQ.
  intros ->. by rewrite bool_decide_true in Ho.
Qed.

Lemma wp_finish intent registry machine kind digest step previous now binding action
    (Q : FleetHostResult → list event → Prop) tr :
  guard tr →
  (∀ target o reason mid h,
     find_selected registry intent ≫= host_target = Some target →
     check_poststate intent target digest step previous now o = Ok reason →
     (action = FleetHostAction_Apply →
      config_differs (expected_config binding) (obs_windows_config_sha256 o) = false) →
     applied mid = [] →
     let result := result_for intent FleetHostResultState_Verified
                     (obs_observed_at_unix o) true reason in
     Q result (tr ++ mid ++ [Ev Observe (Ok o)] ++ terminal_events intent result "verified" h)) →
  wp (finish_after_protected_owner_check_once intent registry machine kind digest step
        previous now (poststate_readback binding action)) (post Q) tr.
Proof.
  intros Hg HQ. unfold finish_after_protected_owner_check_once.
  do 2 (apply wp_check; intros _ _). apply wp_check; intros target Ht%ok_or_Ok.
  apply wp_check; intros _ _. apply wp_seq, wp_read_or. intros b.
  do 2 (apply wp_check; intros ? _). apply wp_seq, wp_read_or. intros b'.
  do 2 (apply wp_check; intros ? _). apply wp_seq, wp_readback. intros o Ho.
  apply wp_check; intros reason Hr.
  apply wp_seq, wp_store; [by repeat apply guard_app|]. intros h. apply wp_ret.
  norm_trace. specialize (HQ target o reason
    [Ev (ReadFile (native_scope_pending_path intent)) (Some b);
     Ev (ReadFile (record_path (intent_operation_id intent))) (Some b')] h Ht Hr Ho eq_refl).
  exact HQ.
Qed.
End Subprograms.
End Guarded.

(** ** One call of the owner *)

Section Execute.
Context `{Sha256} `{Ed25519} `{ProductionText}.
Context `{Message FleetHostIntent} `{Message FleetHostResult} `{Message FleetHost}
  `{Message ApplyBundleRequest} `{Message FleetDesiredState} `{Message ReleaseSet}
  `{Message FleetVmDesiredGraph} `{Message FleetResourceHierarchy}
  `{Message FleetVmDesiredNetwork} `{Message FleetVmDesiredResource}
  `{Message FleetVmDualStackNetwork} `{Message Ipv4NetworkObservation}
  `{Message FleetVmResourceReport} `{Message FleetNativeObservation}.

Definition rq_authenticate (rq : request)
    : res (FleetDesiredState * BoundNativeHostArtifacts * FleetHostAction * FleetHostKind) :=
  authenticate (rq_binding rq) (rq_intent rq) (rq_authorization rq) (rq_registry_pb rq)
    (rq_spec_bytes rq) (rq_release_set_pb rq) (rq_vm_bundle_pb rq) (rq_worker_public_key rq)
    (rq_machine_id rq) (rq_owner_kind rq) (rq_now_unix rq).

Definition rq_record (rq : request) : string := record_path (intent_operation_id (rq_intent rq)).
Definition rq_scope (rq : request) : string := native_scope_pending_path (rq_intent rq).

(** What a history shows before anything may be written: the directory is
    protected, the request authentic, no other resource pending, the operation
    identifier unused, and the machine observed. *)
Record may_write (rq : request) (tr : list event) : Prop := {
  mw_protected : Ev Protection (Ok tt) ∈ tr;
  mw_authentic : ∃ x, rq_authenticate rq = Ok x;
  mw_free : ∃ items, Ev ReadDir (Some items) ∈ tr ∧ None ∉ items ∧
    ∀ n, Some n ∈ items → starts_with "resource-" n || starts_with "admin-" n = true →
      ends_with ".pending.pb" n = true → n = rq_scope rq;
  mw_unused : Ev (Stat (rq_record rq)) NotFound ∈ tr;
  mw_observed : ∃ o, Ev Observe (Ok o) ∈ tr
}.

(** What it shows before the effect is applied: the step was selected by the
    planner from an observation for the authentic request, the owner allows it,
    nothing was applied before, and the last calls made the gate and the BEGIN
    record durable. *)
Definition may_apply (rq : request) (tr : list event) (s : FleetHostPlannedStep) : Prop :=
  ∃ registry bound action kind selected before tr0 h1 h2,
    rq_authenticate rq = Ok (registry, bound, action, kind) ∧
    find_selected registry (rq_intent rq) = Some selected ∧
    select_step (rq_binding rq) (rq_intent rq) (rq_spec_bytes rq) bound action kind selected
      before (rq_now_unix rq) = Ok s ∧
    executable_step s = true ∧
    Ev Observe (Ok before) ∈ tr0 ∧ Ev (AllowStep s) (Ok tt) ∈ tr0 ∧ applied tr0 = [] ∧
    tr = tr0 ++ admit_events (rq_intent rq) (rq_now_unix rq) h1 h2.

(** What it shows of a result that is returned *)
Definition result_justified (rq : request) (r : FleetHostResult) (tr : list event) : Prop :=
  (applied tr = [] ∧ ∃ t verdict, r = observed_result (rq_intent rq) t verdict) ∨
  ∃ registry bound action kind target before s elapsed tr0 mid o reason h,
    rq_authenticate rq = Ok (registry, bound, action, kind) ∧
    find_selected registry (rq_intent rq) ≫= host_target = Some target ∧
    may_apply rq tr0 s ∧
    Ev Observe (Ok before) ∈ tr0 ∧
    check_poststate (rq_intent rq) target (bound_runtime_release_sha256 bound) s
      (obs_observed_release_sha256 before) (u64_saturating_add (rq_now_unix rq) elapsed) o
      = Ok reason ∧
    r = result_for (rq_intent rq) FleetHostResultState_Verified (obs_observed_at_unix o)
          true reason ∧
    applied mid = [] ∧
    tr = tr0 ++ [Ev (ApplyOnce s) (Ok tt); Ev Elapsed elapsed] ++ mid ++ [Ev Observe (Ok o)]
         ++ terminal_events (rq_intent rq) r "verified" h.

Lemma may_write_app rq tr1 tr2 : may_write rq tr1 → may_write rq (tr1 ++ tr2).
Proof. intros [? ? (items & ? & ?) ? (o & ?)]. split; set_solver. Qed.

Lemma scan_items scope items :
  for_each (λ item, name ← ok_or item "HOST_RESOURCE_PENDING_DIRECTORY_UNAVAILABLE";
    fail_if (foreign_pending scope name) "HOST_OTHER_RESOURCE_PENDING_UNKNOWN_NO_REPLAY") items
  = Ok tt →
  None ∉ items ∧
  ∀ n, Some n ∈ items → starts_with "resource-" n || starts_with "admin-" n = true →
    ends_with ".pending.pb" n = true → n = scope.
Proof.
  rewrite for_each_Ok, Forall_forall. intros Hall. split.
  - intros Hn. by specialize (Hall _ Hn).
  - intros n Hn Hs He. specialize (Hall _ Hn). simpl in Hall. apply fail_if_Ok in Hall.
    unfold foreign_pending in Hall. rewrite Hs, He in Hall.
    change (negb (str_eqb n scope) = false) in Hall. by reflect_in Hall.
Qed.

Lemma wp_scan (G : list event → Prop) (A : list event → FleetHostPlannedStep → Prop)
    scope (Q : unit → list event → Prop) tr :
  (∀ items, None ∉ items →
     (∀ n, Some n ∈ items → starts_with "resource-" n || starts_with "admin-" n = true →
        ends_with ".pending.pb" n = true → n = scope) →
     Q tt (tr ++ [Ev ReadDir (Some items)])) →
  wp (P := guarded_protocol G A) (scan_pending scope) (post (P := guarded_protocol G A) Q) tr.
Proof.
  intros HQ. apply wp_bind, wp_perform; [by apply guarded_pure|]. intros items.
  apply wp_check; intros items' Hi%ok_or_Ok. subst items. apply wp_lift.
  destruct (for_each _ _) as [[]|] eqn:Es; [|exact I].
  apply scan_items in Es as [??]. by apply HQ.
Qed.

Lemma recover_selects_noop binding intent spec bound action kind selected before now s :
  select_step binding intent spec bound action kind selected before now = Ok s →
  intent_action intent = as_i32 FleetHostAction_Recover → s = FleetHostPlannedStep_Noop.
Proof.
  unfold select_step. intros Hs Hr. inv_ok Hs. rewrite Hr, Z.eqb_refl in *.
  repeat match goal with Hb : _ = false |- _ => progress reflect_in Hb end.
  destruct (decide (s = FleetHostPlannedStep_Noop)); [done|].
  repeat match goal with Hb : _ && _ = false |- _ => apply andb_false_iff in Hb as [?|?] end;
    try done; by repeat match goal with Hb : negb _ = false |- _ => reflect_in Hb end.
Qed.

(** The protocol of a request *)
#[local] Instance request_protocol (rq : request) : Protocol :=
  guarded_protocol (may_write rq) (may_apply rq).

(** The branch without a pending gate, after the observation *)
Lemma wp_fresh rq registry bound action kind selected before s tr :
  rq_authenticate rq = Ok (registry, bound, action, kind) →
  find_selected registry (rq_intent rq) = Some selected →
  select_step (rq_binding rq) (rq_intent rq) (rq_spec_bytes rq) bound action kind selected
    before (rq_now_unix rq) = Ok s →
  may_write rq tr → applied tr = [] → Ev Observe (Ok before) ∈ tr →
  wp (P := request_protocol rq)
    (execute_step (rq_binding rq) (rq_intent rq) (rq_authorization rq) registry bound action
       (rq_worker_public_key rq) (rq_machine_id rq) (rq_owner_kind rq) (rq_now_unix rq)
       before s) (post (P := request_protocol rq) (result_justified rq)) tr.
Proof.
  intros Ha Hsel Hs Hw Happ Hobs. unfold execute_step.
  destruct (bool_decide _) eqn:Hnoop.
  - apply wp_seq, wp_admit; [apply may_write_app|done|]. intros h1 h2.
    apply wp_seq, wp_store; [apply may_write_app|by apply may_write_app|]. intros h.
    apply wp_ret. left. rewrite !applied_app, Happ. split; [done|by eexists _, _].
  - apply wp_check. intros _ Hex%fail_if_Ok. reflect_in Hex.
    apply wp_seq, wp_ask; [by apply guarded_pure|]. intros [].
    apply wp_seq, wp_admit; [apply may_write_app|by apply may_write_app|]. intros h1 h2.
    set (tr1 := _ ++ admit_events _ _ _ _).
    assert (Hma : may_apply rq tr1 s).
    { exists registry, bound, action, kind, selected, before, (tr ++ [Ev (AllowStep s) (Ok tt)]), h1, h2.
      split_and!; try done; [set_solver..|]. by rewrite applied_app, Happ. }
    apply wp_seq, wp_ask.
    { split; [done|]. intros s' [= <-]. exact Hma. }
    intros []. apply wp_bind, wp_perform; [by apply guarded_pure|]. intros elapsed.
    apply wp_finish; [apply may_write_app|by repeat apply may_write_app|].
    intros target o reason mid h Ht Hc _ Hmid. cbn zeta. right.
    eexists registry, bound, action, kind, target, before, s, elapsed, tr1, mid, o,
      reason, h.
    split_and!; try done.
    + unfold tr1. set_solver.
    + cbn [next request_protocol guarded_protocol trace_protocol]. by rewrite <- !app_assoc.
Qed.

Lemma wp_execute rq :
  wp (P := request_protocol rq) (execute_protected rq)
    (post (P := request_protocol rq) (result_justified rq)) [].
Proof.
  apply wp_seq, wp_ask; [by apply guarded_pure|]. intros []. cbn [app].
  apply wp_check. intros [[[registry bound] action] kind] Ha.
  apply wp_seq, wp_scan. intros items Hn Hi.
  apply wp_seq, wp_require_absent. apply wp_check; intros selected Hsel%ok_or_Ok.
  apply wp_bind, wp_perform; [by apply guarded_pure|]. intros pending.
  assert (Hw : ∀ o tr, may_write rq ([Ev Protection (Ok tt)] ++ [Ev ReadDir (Some items)]
    ++ [Ev (Stat (rq_record rq)) NotFound] ++ [Ev (Stat (rq_scope rq)) pending]
    ++ [Ev Observe (Ok o)] ++ tr)).
  { intros o tr. assert (Hlast : ∀ e, e ∈ [Ev Protection (Ok tt); Ev ReadDir (Some items);
      Ev (Stat (rq_record rq)) NotFound; Ev (Stat (rq_scope rq)) pending; Ev Observe (Ok o)] →
      e ∈ [Ev Protection (Ok tt)] ++ [Ev ReadDir (Some items)]
        ++ [Ev (Stat (rq_record rq)) NotFound] ++ [Ev (Stat (rq_scope rq)) pending]
        ++ [Ev Observe (Ok o)] ++ tr) by (intros e; clear; set_solver).
    split; [|by eexists|exists items; split; [|done]| |exists o]; apply Hlast;
      repeat first [by left|right]. }
  destruct pending; [| |exact I].
  - destruct (_ =? _); [|exact I].
    apply wp_seq, wp_ask; [by apply guarded_pure|]. intros o.
    assert (Hres : wp (P := request_protocol rq)
      (resolve_pending_native_recovery_once (rq_intent rq) (rq_authorization rq) registry
         selected bound (rq_worker_public_key rq) (rq_machine_id rq) (rq_owner_kind rq)
         (rq_now_unix rq) o) (post (P := request_protocol rq) (result_justified rq))
      ([Ev Protection (Ok tt)] ++ [Ev ReadDir (Some items)]
       ++ [Ev (Stat (rq_record rq)) NotFound] ++ [Ev (Stat (rq_scope rq)) Found]
       ++ [Ev Observe (Ok o)] ++ [])).
    { apply wp_resolve; [apply may_write_app|apply Hw|].
      intros mid verdict Hmid. left. rewrite applied_app, Hmid. split; [done|by eexists _, _]. }
    apply wp_seq. destruct (bool_decide _); [|exact Hres].
    apply wp_check; intros ? _. apply wp_lift. destruct (fail_if _ _); [exact Hres|exact I].
  - apply wp_seq, wp_ask; [by apply guarded_pure|]. intros before.
    apply wp_check; intros s Hs.
    assert (Hw' : ∀ tr, may_write rq (([Ev Protection (Ok tt)] ++ [Ev ReadDir (Some items)]
      ++ [Ev (Stat (rq_record rq)) NotFound] ++ [Ev (Stat (rq_scope rq)) NotFound]
      ++ [Ev Observe (Ok before)]) ++ tr)).
    { intros tr. rewrite <- !app_assoc. apply Hw. }
    eapply wp_fresh; [done..|by rewrite <- (app_nil_r (_ ++ _)); apply Hw'|done|repeat first [by left|right]].
Qed.

(** ** The converged readback *)

(** The readback after step [s]: fresh at [t], of the machine's kind, without
    reasons, with the release the step leads to, in the run state of the target. *)
Record converged (intent : FleetHostIntent) (target : FleetHostTarget)
    (runtime_digest : bytes) (s : FleetHostPlannedStep) (previous : bytes) (t : Z)
    (o : FleetNativeObservation) : Prop := {
  cv_valid : validate_native_observation o = Ok tt;
  cv_kind : obs_host_kind o = intent_kind intent;
  cv_fresh : obs_observed_at_unix o ≤ u64_saturating_add t 60 ∧
             t - obs_observed_at_unix o ≤ 300;
  cv_reasons : obs_reason_codes o = [];
  cv_release : obs_observed_release_sha256 o =
    if bool_decide (s = FleetHostPlannedStep_Stop) then previous else runtime_digest;
  cv_run : target_run_state target = as_i32 FleetHostRunState_Stopped ∧
             obs_owner_state o = as_i32 FleetNativeOwnerState_Stopped ∨
           target_run_state target = as_i32 FleetHostRunState_Running ∧
             obs_owner_state o = as_i32 FleetNativeOwnerState_Running ∧
             obs_runtime_ready_proven o = true ∧ obs_runtime_ready o = true
}.

Lemma run_converged target o run owner :
  try_from (target_run_state target) = Some run → try_from (obs_owner_state o) = Some owner →
  match run, owner with
  | FleetHostRunState_Stopped, FleetNativeOwnerState_Stopped
  | FleetHostRunState_Running, FleetNativeOwnerState_Running => true
  | _, _ => false
  end = true →
  bool_decide (run = FleetHostRunState_Running)
    && negb (obs_runtime_ready_proven o && obs_runtime_ready o) = false →
  target_run_state target = as_i32 FleetHostRunState_Stopped ∧
    obs_owner_state o = as_i32 FleetNativeOwnerState_Stopped ∨
  target_run_state target = as_i32 FleetHostRunState_Running ∧
    obs_owner_state o = as_i32 FleetNativeOwnerState_Running ∧
    obs_runtime_ready_proven o = true ∧ obs_runtime_ready o = true.
Proof.
  rewrite !try_from_Some. intros -> -> Hm Hr.
  destruct run, owner; try done; [by left|right].
  rewrite bool_decide_true in Hr by done. simpl in Hr. reflect_in Hr. tauto.
Qed.

Lemma check_poststate_converged intent target digest s previous t o reason :
  check_poststate intent target digest s previous t o = Ok reason →
  converged intent target digest s previous t o.
Proof.
  unfold check_poststate. intros Hc. inv_ok Hc.
  repeat match goal with Hb : _ = false |- _ => progress reflect_in Hb end.
  destruct_and?.
  repeat match goal with
    | Hs : (if bool_decide _ then _ else _) = Ok _ |- _ => destruct (bool_decide _) eqn:?
    | Hs : _ ≫= _ = Ok _ |- _ => inv_ok Hs
    | Hs : Ok _ = Ok _ |- _ => injection Hs as <-
    end.
  all: split; [done|done|unfold u64_saturating_sub in *; lia|done| |].
  2, 4: eapply run_converged; eassumption.
  all: match goal with Hb : bool_decide (_ = FleetHostPlannedStep_Stop) = _ |- _ => by rewrite Hb end.
Qed.

(** ** Properties of one call *)

(** Whatever its calls answer, the owner creates, writes or removes a journal file
    only after the directory was found protected, the request authenticated (identity,
    artifacts, target, signer, signature and validity window), the directory read
    without an error and without the gate of another resource, the operation
    identifier found unused, and the machine observed. *)
Theorem journal_written_only_when_admitted rq tr R (c : call R) r p' :
  steps (execute_protected rq) (tr ++ [Ev c r]) p' →
  mutates_journal c = true → may_write rq tr.
Proof.
  intros Hs Hc. apply (wp_trace_steps _ _ _ _ [] tr c r (wp_execute rq) Hs), Hc.
Qed.

(** C3: the effect is applied only for an authentic request that is not a RECOVER,
    with the step the planner selected from an observation of this run and the owner
    allowed, and only directly after the calls that made first the resource gate and
    then the BEGIN record durable; nothing was applied before in the run. *)
Theorem applied_after_durable_begin rq tr s r p' :
  steps (execute_protected rq) (tr ++ [Ev (ApplyOnce s) r]) p' →
  may_apply rq tr s ∧ intent_action (rq_intent rq) ≠ as_i32 FleetHostAction_Recover.
Proof.
  intros Hs. assert (Hma : may_apply rq tr s).
  { by apply (wp_trace_steps _ _ _ _ [] tr _ r (wp_execute rq) Hs). }
  split; [done|]. intros Hr.
  destruct Hma as (?&?&?&?&?&?&?&?&?&?&?& Hsel & Hex &_).
  apply recover_selects_noop in Hsel; [|done]. by subst s.
Qed.

(** C4: a run that returns a result either applied nothing and reports OBSERVED
    without a physical readback, or applied exactly one step, after its durable BEGIN,
    and reports VERIFIED from an observation made after the effect that has converged:
    without reasons, in the target's run state, with the release the step leads to,
    and fresh at the time of the request plus the time the clock of the run measured
    from the effect on: at most 60 seconds ahead of it and at most 300 behind; the
    receipt is stored before the gate is released. *)
Theorem verified_by_readback rq tr r :
  runs (execute_protected rq) tr (Ok r) →
  (result_state r = as_i32 FleetHostResultState_Observed ∧
   result_physical_readback r = false ∧ applied tr = []) ∨
  (result_state r = as_i32 FleetHostResultState_Verified ∧
   ∃ s tr0 mid o registry bound action kind target before elapsed h,
     applied tr = [s] ∧ may_apply rq tr0 s ∧
     tr = tr0 ++ [Ev (ApplyOnce s) (Ok tt); Ev Elapsed elapsed] ++ mid ++ [Ev Observe (Ok o)]
          ++ terminal_events (rq_intent rq) r "verified" h ∧
     rq_authenticate rq = Ok (registry, bound, action, kind) ∧
     find_selected registry (rq_intent rq) ≫= host_target = Some target ∧
     Ev Observe (Ok before) ∈ tr0 ∧
     converged (rq_intent rq) target (bound_runtime_release_sha256 bound) s
       (obs_observed_release_sha256 before) (u64_saturating_add (rq_now_unix rq) elapsed) o).
Proof.
  intros Hr. apply (wp_trace_runs _ _ _ _ _ (wp_execute rq)) in Hr. simpl in Hr.
  destruct Hr as [(Happ & t & verdict & ->)|Hr]; [by left|right].
  destruct Hr as (registry & bound & action & kind & target & before & s & elapsed & tr0 & mid
    & o & reason & h & Ha & Ht & Hma & Hb & Hc & -> & Hmid & Htr).
  split; [done|]. exists s, tr0, mid, o, registry, bound, action, kind, target, before, elapsed, h.
  split_and!; try done; [|by eapply check_poststate_converged].
  assert (Hnone : applied tr0 = []).
  { destruct Hma as (?&?&?&?&?&?&?&?&?&?&?&?&?&?&?& Hn & ->). by rewrite applied_app, Hn. }
  rewrite Htr, !applied_app, Hnone, Hmid. done.
Qed.
End Execute.

(** ** Witnesses: a signed STOP of a running Windows machine *)

Module JournalSample.
Definition private_key : bytes := [x05].
Definition worker_key : bytes := sha256 private_key.
Definition host : FleetHost := {|
  host_machine_id := "pc-1"; host_kind := 1;
  host_owner := Some (Owner_WindowsRunnerName "runner-1");
  host_windows_runner_label := "label-1";
  host_desired_spec_path := "infra/production/production.textproto";
  host_target := Some {| target_run_state := 1; target_windows_mode := 0 |};
  host_vm_containers := []; host_native_receipt_public_key := replicate 32 x03;
  host_vm_first_use_credential := None; host_worker_authority_public_key := worker_key;
  host_vm_provider_spec_path := "" |}.
Definition registry : FleetDesiredState :=
  {| registry_schema_version := 1; registry_hosts := [host] |}.
Definition release_set : ReleaseSet := LifecycleSample.release_set.
#[export] Instance text : ProductionText := {| parse_production_desired_text := λ _, Ok 1 |}.
#[export] Instance release_message : Message ReleaseSet := table_message [release_set].
#[export] Instance registry_message : Message FleetDesiredState := table_message [registry].
#[export] Instance host_message : Message FleetHost := table_message [host].
Definition spec : bytes := [x0a; x0b].
Definition desired : bytes :=
  match digest_host_desired host spec with Ok d => d | Err _ => [] end.
Definition intent_for (op : string) : FleetHostIntent := {|
  intent_schema_version := 1; intent_machine_id := "pc-1"; intent_kind := 1;
  intent_resource_id := "sing-box"; intent_operation_id := op;
  intent_action := as_i32 FleetHostAction_Stop; intent_registry_sha256 := sha256 [x01];
  intent_desired_sha256 := desired; intent_release_set_sha256 := sha256 [x01];
  intent_requested_mode := 0; intent_requested_at_unix := 5;
  intent_network_admission := None |}.
Definition intents : list FleetHostIntent := [intent_for "op-1"; intent_for "op-2"].
#[export] Instance intent_message : Message FleetHostIntent := table_message intents.
#[export] Instance intent_laws : MessageLaws FleetHostIntent (.∈ intents) :=
  table_message_laws _.
Definition begin_for (op : string) : FleetHostResult := begin_record (intent_for op) 1100.
#[export] Instance result_message : Message FleetHostResult :=
  table_message [begin_for "op-1"; begin_for "op-2"].
#[export] Instance other_message A : Message A | 100 := null_message A.

Definition authorization_with (op : string) (signature : bytes) : FleetHostAuthorization := {|
  auth_schema_version := 1; auth_key_id := "k1"; auth_operation_id := op;
  auth_issued_at_unix := 1000; auth_expires_at_unix := 1200;
  auth_ed25519_signature := signature |}.
Definition authorization (op : string) : FleetHostAuthorization :=
  authorization_with op
    (ed25519_sign private_key
       (host_authorization_payload (intent_for op) (authorization_with op []))).

Definition installed : bytes := replicate 32 x07.
Definition observation (running : bool) : FleetNativeObservation := {|
  obs_schema_version := 1; obs_host_kind := 1; obs_observed_at_unix := 1100;
  obs_owner_state := as_i32 (if running then FleetNativeOwnerState_Running
                             else FleetNativeOwnerState_Stopped);
  obs_release_proof := as_i32 FleetNativeReleaseProof_ActivationRecord;
  obs_observed_release_sha256 := installed; obs_runtime_ready := running;
  obs_runtime_ready_proven := true; obs_reason_codes := [];
  obs_vm_recovery_resources := None; obs_windows_config_sha256 := [] |}.

Definition rq_for (op : string) : request := {|
  rq_binding := Some {| installed_release_sha256 := installed; expected_config_sha256 := None |};
  rq_intent := intent_for op; rq_authorization := authorization op; rq_registry_pb := [x01];
  rq_spec_bytes := spec; rq_release_set_pb := [x01]; rq_vm_bundle_pb := None;
  rq_worker_public_key := worker_key; rq_machine_id := "pc-1"; rq_owner_kind := 1;
  rq_now_unix := 1100 |}.
Definition rq : request := rq_for "op-1".
Definition empty_disk : disk := {| dir := ∅; inodes := ∅; unsettled := ∅ |}.
(** It runs, then it is stopped. *)
Definition obs (n : nat) : res FleetNativeObservation := Ok (observation (n =? 0)%nat).

Definition trace : list event := run_trace obs (execute_protected rq) 0 empty_disk.
Definition outcome : res FleetHostResult := run_result obs (execute_protected rq) 0 empty_disk.
Definition unwrap_or {A} (a : A) (m : res A) : A := match m with Ok r => r | Err _ => a end.
Definition verified : FleetHostResult := unwrap_or (begin_for "op-1") outcome.

(** The eighth call creates the gate, the eighteenth applies the effect. *)
Lemma trace_gate :
  trace = take 8 trace ++ Ev (CreateNew (rq_scope rq)) (Some 1%positive) :: drop 9 trace.
Proof. vm_compute. reflexivity. Qed.
Lemma trace_apply :
  trace = take 18 trace ++ Ev (ApplyOnce FleetHostPlannedStep_Stop) (Ok tt) :: drop 19 trace.
Proof. vm_compute. reflexivity. Qed.
Lemma trace_runs : runs (execute_protected rq) trace outcome.
Proof. exact (run_runs obs (execute_protected rq) 0 empty_disk). Qed.

(** Witness of [journal_written_only_when_admitted]. *)
Lemma journal_written_only_when_admitted_witness : may_write rq (take 8 trace).
Proof.
  pose proof trace_runs as Hr. rewrite trace_gate in Hr. apply runs_steps in Hr as [p' Hp'].
  apply (journal_written_only_when_admitted rq (take 8 trace) _
    (CreateNew (rq_scope rq)) (Some 1%positive) p').
  - exact Hp'.
  - reflexivity.
Defined.

(** Witness of [applied_after_durable_begin]. *)
Lemma applied_after_durable_begin_witness :
  may_apply rq (take 18 trace) FleetHostPlannedStep_Stop.
Proof.
  pose proof trace_runs as Hr. rewrite trace_apply in Hr. apply runs_steps in Hr as [p' Hp'].
  apply (applied_after_durable_begin rq (take 18 trace) FleetHostPlannedStep_Stop (Ok tt) p').
  exact Hp'.
Defined.

(** Witness of [verified_by_readback]. *)
Lemma verified_by_readback_witness :
  result_state verified = as_i32 FleetHostResultState_Verified ∧
  applied trace = [FleetHostPlannedStep_Stop].
Proof.
  assert (Hr : runs (execute_protected rq) trace (Ok verified)).
  { replace (Ok verified) with outcome; [apply trace_runs|]. vm_compute. reflexivity. }
  assert (Ha : applied trace = [FleetHostPlannedStep_Stop]) by (vm_compute; reflexivity).
  split; [|exact Ha]. destruct (verified_by_readback rq trace verified Hr)
    as [(_ & _ & E)|(Hs & _)].
  - rewrite Ha in E. discriminate E.
  - exact Hs.
Defined.
End JournalSample.
