(* ===== verification/HostJournalSystem.v ===== *)
(** * Many calls of the owner on one journal

    Any number of concurrent calls of the owner of [HostJournal] on one journal
    directory, with failing calls, processes that die at any call and losses of
    power.  The effect of an operation identifier is applied at most once, and
    its BEGIN record stays on the disk. *)

From S2P Require Import Prelude RustStd RustNet HostTypes Concrete ResourceGraph.
From S2P Require Import ResourceGraphFacts ResourceReport HostRegistry ApplyBundle.
From S2P Require Import HostLifecycle HostLifecycleFacts HostPlanner JournalFs.
From S2P Require Import HostJournal HostJournalFacts.

(** ** The system *)

Section System.
Context `{Sha256} `{Ed25519} `{ProductionText}.
Context `{Message FleetHostIntent} `{Message FleetHostResult} `{Message FleetHost}
  `{Message ApplyBundleRequest} `{Message FleetDesiredState} `{Message ReleaseSet}
  `{Message FleetVmDesiredGraph} `{Message FleetResourceHierarchy}
  `{Message FleetVmDesiredNetwork} `{Message FleetVmDesiredResource}
  `{Message FleetVmDualStackNetwork} `{Message Ipv4NetworkObservation}
  `{Message FleetVmResourceReport} `{Message FleetNativeObservation}.

Record thread : Type := {
  th_rq : request;
  th_prog : io FleetHostResult   (* what is left to do *)
}.

Record system : Type := {
  sys_disk : disk;
  sys_threads : gmap nat thread;
  sys_log : list (request * FleetHostPlannedStep)  (* the effects applied, oldest first *)
}.

Inductive sys_step : system → system → Prop :=
(** a new call of the owner *)
| step_start s t rq :
    sys_threads s !! t = None →
    sys_step s {| sys_disk := sys_disk s;
                  sys_threads := <[t := {| th_rq := rq; th_prog := execute_protected rq |}]>
                                   (sys_threads s);
                  sys_log := sys_log s |}
(** a call of one thread, answered by the disk or the environment *)
| step_call s t th R (c : call R) k r d' :
    sys_threads s !! t = Some th → th_prog th = Vis c k → exec c (sys_disk s) r d' →
    sys_step s {| sys_disk := d';
                  sys_threads := <[t := {| th_rq := th_rq th; th_prog := k r |}]>
                                   (sys_threads s);
                  sys_log := sys_log s
                    ++ (match applied_step c with Some p => [(th_rq th, p)] | None => [] end) |}
(** a thread ends or its process dies *)
| step_exit s t :
    sys_step s {| sys_disk := sys_disk s; sys_threads := delete t (sys_threads s);
                  sys_log := sys_log s |}
(** a loss of power *)
| step_power s d' :
    power_loss (sys_disk s) d' →
    sys_step s {| sys_disk := d'; sys_threads := ∅; sys_log := sys_log s |}.

(** Any disk, nothing running, nothing applied *)
Definition initial (s : system) : Prop := sys_threads s = ∅ ∧ sys_log s = [].

(** ** Names *)

Definition record_form (n : string) : Prop := ∃ x, n = journal_hex x +:+ ".pb".

Lemma length_journal_hex x : String.length (journal_hex x) = 64%nat.
Proof. unfold journal_hex. by rewrite length_hex_of_bytes, sha256_length. Qed.

Lemma record_form_length n : record_form n → String.length n = 67%nat.
Proof. intros [x ->]. by rewrite length_app_str, length_journal_hex. Qed.

Lemma scope_not_record intent : ¬ record_form (native_scope_pending_path intent).
Proof.
  intros E%record_form_length. unfold native_scope_pending_path in E.
  rewrite !length_app_str, length_journal_hex in E. discriminate E.
Qed.

Lemma terminal_not_record op terminal : ¬ record_form (terminal_path op terminal).
Proof.
  intros E%record_form_length. unfold terminal_path in E.
  rewrite !length_app_str, length_journal_hex in E. simpl in E. lia.
Qed.

(** ** Ownership of the BEGIN record by one thread *)

(** [Held l h]: this thread created its record with handle [h] and has written
    ([1]), synced ([2]) and settled ([3]) it. *)
Inductive stage : Set := Idle | Held (level : nat) (h : positive) | Spent.
#[global] Instance stage_eq_dec : EqDecision stage.
Proof. solve_decision. Defined.

Record owner : Set := {
  ow_stage : stage;
  ow_files : list positive  (* the other files it created *)
}.

Definition begin_bytes (rq : request) : bytes :=
  encode_to_vec (begin_record (rq_intent rq) (rq_now_unix rq)).

Definition may_call (rq : request) {R} (g : owner) (c : call R) : Prop :=
  match c with
  | CreateNew n => if decide (n = rq_record rq) then ow_stage g = Idle else ¬ record_form n
  | WriteAll h b => h ∈ ow_files g ∨ ow_stage g = Held 0 h ∧ b = begin_bytes rq
  | SyncAll h => h ∈ ow_files g ∨ ow_stage g = Held 1 h
  | RemoveFile n => ¬ record_form n
  | ApplyOnce _ => ∃ h, ow_stage g = Held 3 h
  | _ => True
  end.

Definition raise (from : nat) (answer : bool) (g : owner) : owner :=
  match answer, ow_stage g with
  | true, Held l h =>
      {| ow_stage := if decide (l = from) then Held (S l) h else Held l h;
         ow_files := ow_files g |}
  | _, _ => g
  end.

Definition after_call (rq : request) {R} (g : owner) (c : call R) : R → owner :=
  match c in call R return R → owner with
  | CreateNew n => λ r,
      match r with
      | Some h => if decide (n = rq_record rq)
                  then {| ow_stage := Held 0 h; ow_files := filter (λ x, x ≠ h) (ow_files g) |}
                  else {| ow_stage := ow_stage g; ow_files := h :: ow_files g |}
      | None => g
      end
  | WriteAll h _ => λ r, if decide (h ∈ ow_files g) then g else raise 0 r g
  | SyncAll h => λ r, if decide (h ∈ ow_files g) then g else raise 1 r g
  | SyncRoot => λ r, raise 2 r g
  | ApplyOnce _ => λ _, {| ow_stage := Spent; ow_files := ow_files g |}
  | _ => λ _, g
  end.

#[local] Instance own_protocol (rq : request) : Protocol := {|
  ghost := owner;
  allowed := λ R g c, may_call rq g c;
  next := λ R g c r, after_call rq g c r
|}.

(** A stage that the writing of other files leaves alone *)
Definition steady (st : stage) : Prop :=
  match st with Held l _ => l = 3%nat | _ => True end.

Lemma raise_stage l r g :
  steady (ow_stage g) → (l < 3)%nat → ow_stage (raise l r g) = ow_stage g.
Proof.
  intros Hs Hl. unfold raise. destruct r, (ow_stage g) as [|l' h|] eqn:E; try done.
  simpl in Hs |- *. by rewrite decide_False by lia.
Qed.

Lemma own_sync_dir rq g (Q : unit → owner → Prop) :
  Q tt (raise 2 true g) → wp (P := own_protocol rq) sync_native_journal_directory (post (P := own_protocol rq) Q) g.
Proof. intros HQ. by apply wp_demand, wp_demand_last. Qed.

(** Writing a file that is not a BEGIN record *)
Lemma own_write_other rq n b e1 e2 e3 g (Q : unit → owner → Prop) :
  ¬ record_form n → n ≠ rq_record rq → steady (ow_stage g) →
  (∀ g', ow_stage g' = ow_stage g → Q tt g') →
  wp (P := own_protocol rq) (write_record n b e1 e2 e3) (post (P := own_protocol rq) Q) g.
Proof.
  intros Hn Hne Hst HQ. apply wp_bind, wp_perform; [by simpl; rewrite decide_False|].
  intros [h|]; [|exact I]. apply wp_check. intros h' [= <-]. cbn [next own_protocol after_call].
  rewrite decide_False by done.
  apply wp_demand; [left; simpl; set_solver|]. cbn [next own_protocol after_call].
  rewrite decide_True by (simpl; set_solver).
  apply wp_demand; [left; simpl; set_solver|]. cbn [next own_protocol after_call].
  rewrite decide_True by (simpl; set_solver).
  apply own_sync_dir, HQ. rewrite raise_stage; [done|exact Hst|lia].
Qed.

Lemma rq_record_form rq : record_form (rq_record rq).
Proof. by eexists. Qed.

(** Writing the BEGIN record *)
Lemma own_write_begin rq e1 e2 e3 g (Q : unit → owner → Prop) :
  ow_stage g = Idle → (∀ h g', ow_stage g' = Held 3 h → Q tt g') →
  wp (P := own_protocol rq) (write_record (rq_record rq) (begin_bytes rq) e1 e2 e3) (post (P := own_protocol rq) Q) g.
Proof.
  intros Hst HQ. apply wp_bind, wp_perform; [by simpl; rewrite decide_True|].
  intros [h|]; [|exact I]. apply wp_check. intros h' [= <-]. cbn [next own_protocol after_call].
  rewrite decide_True by done.
  assert (Hh : h ∉ filter (λ x, x ≠ h) (ow_files g)) by (rewrite list_elem_of_filter; tauto).
  apply wp_demand; [by right|]. cbn [next own_protocol after_call ow_files].
  rewrite decide_False by done. cbn [raise ow_stage ow_files]. rewrite decide_True by done.
  apply wp_demand; [by right|]. cbn [next own_protocol after_call ow_files].
  rewrite decide_False by done. cbn [raise ow_stage ow_files]. rewrite decide_True by done.
  apply own_sync_dir. cbn [raise ow_stage ow_files]. rewrite decide_True by done.
  by apply (HQ h).
Qed.

Lemma own_require_absent rq n e1 e2 g (Q : unit → owner → Prop) :
  Q tt g → wp (P := own_protocol rq) (require_absent n e1 e2) (post (P := own_protocol rq) Q) g.
Proof. intros HQ. apply wp_bind, wp_perform; [exact I|]. by intros []. Qed.

Lemma own_read_or rq n e g (Q : bytes → owner → Prop) :
  (∀ b, Q b g) → wp (P := own_protocol rq) (read_or n e) (post (P := own_protocol rq) Q) g.
Proof.
  intros HQ. apply wp_bind, wp_perform; [exact I|]. intros [b|]; [apply HQ|exact I].
Qed.

Lemma own_admit rq auth registry d1 d2 d3 key machine kind g
    (Q : FleetHostResult → owner → Prop) :
  ow_stage g = Idle → (∀ r h g', ow_stage g' = Held 3 h → Q r g') →
  wp (P := own_protocol rq)
    (admit_after_protected_owner_check_once (rq_intent rq) auth registry d1 d2 d3 key machine
       kind (rq_now_unix rq)) (post (P := own_protocol rq) Q) g.
Proof.
  intros Hst HQ. unfold admit_after_protected_owner_check_once.
  do 4 (apply wp_check; intros _ _).
  apply wp_bind, wp_perform; [exact I|]. intros root.
  apply wp_check. intros [d l] _. apply wp_check. intros _ _.
  apply wp_seq, own_require_absent, wp_seq, own_write_other.
  - apply scope_not_record.
  - intros E. apply (scope_not_record (rq_intent rq)). rewrite E. apply rq_record_form.
  - cbn [next own_protocol after_call]. by rewrite Hst.
  - intros g' Hg'. apply wp_seq, own_write_begin; [by rewrite Hg'|].
    intros h g'' Hg''. apply wp_ret. by apply (HQ _ h).
Qed.

Lemma own_store rq intent result terminal g (Q : unit → owner → Prop) :
  steady (ow_stage g) → (∀ g', ow_stage g' = ow_stage g → Q tt g') →
  wp (P := own_protocol rq) (store_native_terminal_and_unlock_once intent result terminal)
    (post (P := own_protocol rq) Q) g.
Proof.
  intros Hst HQ. unfold store_native_terminal_and_unlock_once.
  apply wp_check; intros _ _. apply wp_seq, own_read_or. intros b. apply wp_check; intros _ _.
  apply wp_seq, own_write_other; [apply terminal_not_record| |done|].
  { intros E. eapply terminal_not_record. rewrite E. apply rq_record_form. }
  intros g' Hg'. apply wp_demand; [apply scope_not_record|].
  apply own_sync_dir, HQ. rewrite <- Hg'. apply raise_stage; [by simpl; rewrite Hg'|lia].
Qed.

Lemma own_settle rq original intent verdict t g (Q : unit → owner → Prop) :
  ow_stage g = Idle → (∀ g', ow_stage g' = Idle → Q tt g') →
  wp (P := own_protocol rq)
    (settle_prior_operation original (native_scope_pending_path intent) verdict t)
    (post (P := own_protocol rq) Q) g.
Proof.
  intros Hst HQ. unfold settle_prior_operation.
  apply wp_bind, wp_perform; [exact I|]. intros st1. apply wp_check; intros _ _.
  apply wp_bind, wp_perform; [exact I|]. intros [| |]; [| |exact I].
  - apply wp_seq, own_read_or. intros b. do 2 (apply wp_check; intros ? _).
    apply wp_demand; [apply scope_not_record|]. apply own_sync_dir, HQ.
    rewrite raise_stage; [done|by simpl; rewrite Hst|lia].
  - apply own_store; [by simpl; rewrite Hst|]. intros g' Hg'. apply HQ. by rewrite Hg'.
Qed.

Lemma own_resolve rq auth registry selected bound key machine kind observed g :
  ow_stage g = Idle →
  wp (P := own_protocol rq)
    (resolve_pending_native_recovery_once (rq_intent rq) auth registry selected bound key
       machine kind (rq_now_unix rq) observed) (post (P := own_protocol rq) (λ _ _, True)) g.
Proof.
  intros Hst. unfold resolve_pending_native_recovery_once.
  apply wp_seq, own_read_or. intros b. do 2 (apply wp_check; intros ? _).
  apply wp_seq, own_read_or. intros b'. do 3 (apply wp_check; intros ? _).
  apply wp_seq, own_settle; [done|]. intros g1 Hg1.
  apply wp_seq, own_admit; [done|]. intros r h g2 Hg2.
  apply wp_seq, own_store; [by rewrite Hg2|]. intros g3 _. by apply wp_ret.
Qed.

Lemma own_finish rq registry machine kind digest step previous now binding action g :
  steady (ow_stage g) →
  wp (P := own_protocol rq)
    (finish_after_protected_owner_check_once (rq_intent rq) registry machine kind digest step
       previous now (poststate_readback binding action))
    (post (P := own_protocol rq) (λ _ _, True)) g.
Proof.
  intros Hst. unfold finish_after_protected_owner_check_once.
  do 4 (apply wp_check; intros ? _). apply wp_seq, own_read_or. intros b.
  do 2 (apply wp_check; intros ? _). apply wp_seq, own_read_or. intros b'.
  do 2 (apply wp_check; intros ? _).
  apply wp_seq, wp_seq, wp_ask; [exact I|]. intros o. apply wp_check; intros _ _.
  apply wp_ret. apply wp_check; intros ? _.
  apply wp_seq, own_store; [done|]. intros g' _. by apply wp_ret.
Qed.

Lemma own_step rq auth registry bound action key machine kind before s g :
  ow_stage g = Idle →
  wp (P := own_protocol rq)
    (execute_step (rq_binding rq) (rq_intent rq) auth registry bound action key machine kind
       (rq_now_unix rq) before s) (post (P := own_protocol rq) (λ _ _, True)) g.
Proof.
  intros Hst. unfold execute_step. destruct (bool_decide _).
  - apply wp_seq, own_admit; [done|]. intros r h g' Hg'.
    apply wp_seq, own_store; [by rewrite Hg'|]. intros g'' _. by apply wp_ret.
  - apply wp_check; intros _ _. apply wp_seq, wp_ask; [exact I|]. intros [].
    apply wp_seq, own_admit; [done|]. intros r h g' Hg'.
    apply wp_seq, wp_ask; [by exists h|]. intros [].
    apply wp_bind, wp_perform; [exact I|]. intros elapsed. by apply own_finish.
Qed.

Lemma own_execute rq :
  wp (P := own_protocol rq) (execute_protected rq) (λ _ _, True)
    {| ow_stage := Idle; ow_files := [] |}.
Proof.
  apply (wp_mono (P := own_protocol rq) _ (post (P := own_protocol rq) (λ _ _, True))); [done|].
  apply wp_seq, wp_ask; [exact I|]. intros [].
  apply wp_check. intros [[[registry bound] action] kind] _.
  apply wp_seq. apply wp_bind, wp_perform; [exact I|]. intros items.
  apply wp_check; intros items' _. apply wp_lift. destruct (for_each _ _); [|exact I].
  apply wp_seq, own_require_absent. apply wp_check; intros selected _.
  apply wp_bind, wp_perform; [exact I|]. intros [| |]; [| |exact I].
  - destruct (_ =? _); [|exact I]. apply wp_seq, wp_ask; [exact I|]. intros o.
    apply wp_seq. destruct (bool_decide _); [|by apply own_resolve].
    apply wp_check; intros ? _. apply wp_lift. destruct (fail_if _ _); [|exact I].
    by apply own_resolve.
  - apply wp_seq, wp_ask; [exact I|]. intros before. apply wp_check; intros s _.
    by apply own_step.
Qed.

(** ** Claims on the disk *)

(** The record [n] is there, with inode [h]; from level 1 its contents are [b],
    from level 2 they are durable, from level 3 its entry is too. *)
Record claim (d : disk) (n : string) (b : bytes) (level : nat) (h : positive) : Prop := {
  cl_entry : dir d !! n = Some h;
  cl_inode : ∃ f, inodes d !! h = Some f ∧ ((1 ≤ level)%nat → ino_data f = b) ∧
                  ((2 ≤ level)%nat → ino_synced f = true);
  cl_settled : (3 ≤ level)%nat → n ∉ unsettled d
}.

(** The handle a call writes to *)
Definition written_handle {R} (c : call R) : option positive :=
  match c with WriteAll h _ => Some h | _ => None end.
Definition removed_name {R} (c : call R) : option string :=
  match c with RemoveFile n => Some n | _ => None end.

Lemma claim_link d n b l h n' h' :
  claim d n b l h → dir d !! n' = None → inodes d !! h' = None →
  claim (link_new d n' h') n b l h.
Proof.
  intros [He (f & Hf & ?) Hs] Hn' Hh'.
  assert (n ≠ n') by congruence. assert (h ≠ h') by congruence.
  split; simpl; [by rewrite lookup_insert_ne|exists f; by rewrite lookup_insert_ne|set_solver].
Qed.

(** A call of somebody else keeps a claim. *)
Lemma claim_frame {R} (c : call R) d r d' n b l h :
  exec c d r d' → claim d n b l h →
  written_handle c ≠ Some h → removed_name c ≠ Some n → claim d' n b l h.
Proof.
  intros Hx Hc Hw Hr. destruct c; simpl in *; try (destruct Hx; by subst); subst; try done.
  - destruct r as [h'|]; [destruct Hx as (?&?&->); by apply claim_link|].
    destruct Hx as [->|(h' & ? & ? & ->)]; [done|by apply claim_link].
  - destruct Hx as (w & -> & _). destruct Hc as [He (f & Hf & ?) Hs].
    split; simpl; [done| |done]. exists f. by rewrite lookup_insert_ne by congruence.
  - destruct r; [|by subst]. destruct Hx as (f & Hf & ->). destruct Hc as [He (f' & Hf' & ? & ?) Hs].
    split; simpl; [done| |done].
    destruct (decide (h = h0)) as [->|]; [|exists f'; by rewrite lookup_insert_ne by done].
    rewrite Hf in Hf'. injection Hf' as <-. eexists. by rewrite lookup_insert_eq.
  - destruct r; [|done]. destruct Hc as [? ? _]. split; simpl; [done..|set_solver].
  - destruct Hx as [[-> _]|[_ ->]]; [|done]. destruct Hc as [He Hi Hs].
    assert (n ≠ n0) by congruence.
    split; simpl; [by rewrite lookup_delete_ne|done|set_solver].
Qed.

(** ** What a thread owns *)

Definition held (g : owner) : list positive :=
  match ow_stage g with Held _ h => [h] | _ => [] end.
Definition handles (g : owner) : list positive := held g ++ ow_files g.

Record own_ok (d : disk) (rq : request) (g : owner) : Prop := {
  ok_claim l h : ow_stage g = Held l h → claim d (rq_record rq) (begin_bytes rq) l h;
  ok_apart l h : ow_stage g = Held l h → h ∉ ow_files g;
  ok_files h : h ∈ ow_files g → is_Some (inodes d !! h)
}.

Lemma exec_inodes {R} (c : call R) d r d' h :
  exec c d r d' → is_Some (inodes d !! h) → is_Some (inodes d' !! h).
Proof.
  intros Hx Hh. destruct c; simpl in *; try (destruct Hx; by subst); subst; try done.
  - destruct r as [h'|]; [destruct Hx as (?&?&->)|destruct Hx as [->|(h' & ? & ? & ->)]];
      try done; simpl; rewrite lookup_insert_is_Some; destruct (decide (h' = h)); auto.
  - destruct Hx as (w & -> & _). simpl. rewrite lookup_insert_is_Some.
    destruct (decide (h0 = h)); auto.
  - destruct r; [|by subst]. destruct Hx as (f & Hf & ->). simpl. rewrite lookup_insert_is_Some.
    destruct (decide (h0 = h)); auto.
  - by destruct r.
  - by destruct Hx as [[-> _]|[_ ->]].
Qed.

(** A call that leaves the thread's claims alone *)
Lemma own_frame {R} (c : call R) d r d' rq g :
  exec c d r d' → own_ok d rq g →
  (∀ h, written_handle c = Some h → h ∉ held g) → removed_name c ≠ Some (rq_record rq) →
  own_ok d' rq g.
Proof.
  intros Hx [Hc Ha Hf] Hw Hr. split; [|done|].
  - intros l h Hst. eapply claim_frame; eauto. intros Hwh. apply (Hw h Hwh).
    unfold held. rewrite Hst. set_solver.
  - intros h Hh. eapply exec_inodes; eauto.
Qed.

Lemma own_create n d r d' rq g :
  may_call rq g (CreateNew n) → exec (CreateNew n) d r d' → own_ok d rq g →
  own_ok d' rq (after_call rq g (CreateNew n) r).
Proof.
  intros Hm Hx Hok. pose proof (own_frame _ _ _ _ _ _ Hx Hok ltac:(done) ltac:(done)) as Hok'.
  destruct r as [h|]; [|done]. destruct Hx as (Hn & Hh & ->). destruct Hok as [Hc Ha Hf].
  simpl in Hm |- *. case_decide as En.
  - subst n. split; simpl.
    + intros l h' [= <- <-]. split; simpl; [by rewrite lookup_insert_eq| |lia].
      eexists. split; [by rewrite lookup_insert_eq|]. split; lia.
    + intros l h' [= <- <-]. rewrite list_elem_of_filter. tauto.
    + intros h' [_ Hh']%list_elem_of_filter. by apply (ok_files _ _ _ Hok').
  - destruct Hok' as [Hc' _ Hf']. split; simpl; [done| |].
    + intros l h' Hst [->|Hin]%elem_of_cons; [|by apply (Ha l h')].
      destruct (Hc l h Hst) as [_ (f & Hfi & _) _]. congruence.
    + intros h' [->|Hin]%elem_of_cons; [|by apply Hf'].
      eexists. by rewrite lookup_insert_eq.
Qed.

Lemma own_write h b d r d' rq g :
  may_call rq g (WriteAll h b) → exec (WriteAll h b) d r d' → own_ok d rq g →
  own_ok d' rq (after_call rq g (WriteAll h b) r).
Proof.
  intros Hm Hx Hok. simpl. case_decide as Hin.
  - apply (own_frame _ _ _ _ _ _ Hx Hok); [|done]. intros h' [= <-]. unfold held.
    destruct (ow_stage g) as [|l h'|] eqn:Est; [set_solver| |set_solver].
    intros ->%list_elem_of_singleton. by eapply ok_apart.
  - destruct Hm as [?|[Hst ->]]; [done|]. destruct Hx as (w & -> & Hw & _).
    destruct Hok as [Hc Ha Hf]. destruct (Hc _ _ Hst) as [He (f & Hfi & _) _].
    assert (Hf' : ∀ h', h' ∈ ow_files g → is_Some (<[h := {| ino_data := w; ino_synced := false |}]>
      (inodes d) !! h')).
    { intros h' Hh'. rewrite lookup_insert_is_Some. destruct (decide (h = h')); auto. }
    unfold raise. rewrite Hst. destruct r; [specialize (Hw eq_refl) as ->|]; split; simpl;
      try done; rewrite ?Hst.
    + intros l h' [= <- <-]. split; simpl; [done| |lia].
      eexists. split; [by rewrite lookup_insert_eq|]. split; [done|lia].
    + intros l h' [= <- <-]. done.
    + intros l h' [= <- <-]. split; simpl; [done| |lia].
      eexists. split; [by rewrite lookup_insert_eq|]. split; lia.
Qed.

Lemma own_sync h d r d' rq g :
  may_call rq g (SyncAll h) → exec (SyncAll h) d r d' → own_ok d rq g →
  own_ok d' rq (after_call rq g (SyncAll h) r).
Proof.
  intros Hm Hx Hok. pose proof (own_frame _ _ _ _ _ _ Hx Hok ltac:(done) ltac:(done)) as Hok'.
  simpl. case_decide as Hin; [done|]. destruct Hm as [?|Hst]; [done|].
  unfold raise. rewrite Hst. destruct r; [|done]. destruct Hx as (f & Hfi & ->).
  destruct Hok' as [Hc Ha Hf]. split; simpl; [|by intros l h' [= <- <-]|done].
  intros l h' [= <- <-]. destruct (Hc _ _ Hst) as [He (f' & Hfi' & Hd & _) _].
  split; [done| |lia]. exists f'. split; [done|]. split; [intros _; apply Hd; lia|intros _].
  simpl in Hfi'. rewrite lookup_insert_eq in Hfi'. by injection Hfi' as <-.
Qed.

Lemma own_sync_root d r d' rq g :
  exec SyncRoot d r d' → own_ok d rq g → own_ok d' rq (after_call rq g SyncRoot r).
Proof.
  intros Hx Hok. pose proof (own_frame _ _ _ _ _ _ Hx Hok ltac:(done) ltac:(done)) as Hok'.
  simpl. unfold raise. destruct r; [|done]. destruct (ow_stage g) as [|l h|] eqn:Hst; try done.
  simpl in Hx. subst d'. destruct Hok' as [Hc Ha Hf].
  case_decide as El; split; simpl; try done; try (intros l' h' [= <- <-]); eauto.
  subst l. destruct (Hc _ _ Hst) as [He (f & Hfi & Hd & Hsy) _].
  split; simpl; [done| |set_solver]. exists f. split; [done|]. split; intros _; [apply Hd|apply Hsy]; lia.
Qed.

Lemma own_call {R} (c : call R) d r d' rq g :
  may_call rq g c → exec c d r d' → own_ok d rq g → own_ok d' rq (after_call rq g c r).
Proof.
  intros Hm Hx Hok. destruct c;
    eauto using own_create, own_write, own_sync, own_sync_root;
    try (eapply own_frame; eauto; done).
  - apply (own_frame _ _ _ _ _ _ Hx Hok); [done|]. intros [= ->]. apply Hm, rq_record_form.
  - simpl in Hx. subst d'. destruct Hok. by split.
Qed.

(** The handles a call adds are new. *)
Lemma handles_call {R} (c : call R) d r d' rq g h :
  exec c d r d' → h ∈ handles (after_call rq g c r) → h ∈ handles g ∨ inodes d !! h = None.
Proof.
  assert (Hraise : ∀ l b, handles (raise l b g) = handles g).
  { intros l b. unfold handles, held, raise. destruct b, (ow_stage g) eqn:E; simpl; rewrite ?E; try done.
    by case_decide. }
  intros Hx. destruct c; simpl; auto.
  - destruct r as [h'|]; [|auto]. destruct Hx as (_ & Hn & _). unfold handles, held.
    case_decide; simpl; [|set_solver].
    intros [->|[_ ?]%list_elem_of_filter]%elem_of_cons; set_solver.
  - case_decide; rewrite ?Hraise; auto.
  - case_decide; rewrite ?Hraise; auto.
  - rewrite Hraise. auto.
  - unfold handles, held. simpl. set_solver.
Qed.

(** ** The invariant of the system *)

Definition log_records (log : list (request * FleetHostPlannedStep)) : list string :=
  (λ e, rq_record e.1) <$> log.

Record inv (s : system) (gs : nat → owner) : Prop := {
  iv_wp t th : sys_threads s !! t = Some th →
    wp (P := own_protocol (th_rq th)) (th_prog th) (λ _ _, True) (gs t);
  iv_own t th : sys_threads s !! t = Some th → own_ok (sys_disk s) (th_rq th) (gs t);
  iv_apart t u th th' h : sys_threads s !! t = Some th → sys_threads s !! u = Some th' →
    t ≠ u → h ∈ handles (gs t) → h ∉ handles (gs u);
  iv_log e : e ∈ sys_log s →
    ∃ h, claim (sys_disk s) (rq_record e.1) (begin_bytes e.1) 3 h ∧
         ∀ t th, sys_threads s !! t = Some th → h ∉ handles (gs t);
  iv_once : NoDup (log_records (sys_log s))
}.

Lemma own_handles_alive d rq g h : own_ok d rq g → h ∈ handles g → is_Some (inodes d !! h).
Proof.
  intros [Hc _ Hf]. unfold handles, held. destruct (ow_stage g) as [|l h'|] eqn:E; simpl; auto.
  intros [->|?]%elem_of_cons; [|auto]. destruct (Hc _ _ eq_refl) as [_ (f & ? & _) _]. by exists f.
Qed.

(** What a call of one thread does to the claim of somebody else *)
Lemma other_claim {R} (c : call R) d r d' rq g n b l h :
  may_call rq g c → exec c d r d' → record_form n → h ∉ handles g →
  claim d n b l h → claim d' n b l h.
Proof.
  intros Hm Hx Hn Hh Hc. eapply claim_frame; eauto.
  - destruct c; try done. intros [= ->]. apply Hh. unfold handles, held.
    destruct Hm as [?|[-> _]]; set_solver.
  - destruct c; try done. by intros [= ->].
Qed.

Lemma other_own {R} (c : call R) d r d' rq g rq' g' :
  may_call rq g c → exec c d r d' → (∀ h, h ∈ handles g' → h ∉ handles g) →
  own_ok d rq' g' → own_ok d' rq' g'.
Proof.
  intros Hm Hx Hap [Hc Ha Hf]. split; [|done|].
  - intros l h Hst. apply (other_claim c d r d' rq g); auto using rq_record_form.
    apply Hap. unfold handles, held. rewrite Hst. set_solver.
  - intros h Hh. eapply exec_inodes; eauto.
Qed.

Definition set_owner (gs : nat → owner) (t : nat) (g : owner) : nat → owner :=
  λ u, if decide (u = t) then g else gs u.
Lemma set_owner_eq gs t g : set_owner gs t g t = g.
Proof. unfold set_owner. by rewrite decide_True. Qed.
Lemma set_owner_ne gs t g u : u ≠ t → set_owner gs t g u = gs u.
Proof. intros. unfold set_owner. by rewrite decide_False. Qed.

(** The effect: the record of the thread is new to the log. *)
Lemma apply_log s gs t th p h :
  inv s gs → sys_threads s !! t = Some th → ow_stage (gs t) = Held 3 h →
  NoDup (log_records (sys_log s ++ [(th_rq th, p)])).
Proof.
  intros Hi Ht Hst. unfold log_records. rewrite fmap_app. apply NoDup_app.
  split; [apply (iv_once _ _ Hi)|]. split; [|apply NoDup_singleton].
  intros n ((rq & p') & -> & Hin)%list_elem_of_fmap Hn.
  apply list_elem_of_singleton in Hn. simpl in Hn.
  destruct (iv_log _ _ Hi _ Hin) as (h' & Hc & Hno). simpl in Hc.
  apply (Hno t th Ht). pose proof (ok_claim _ _ _ (iv_own _ _ Hi _ _ Ht) _ _ Hst) as Hc'.
  destruct Hc as [He _ _], Hc' as [He' _ _]. rewrite Hn, He' in He. injection He as ->.
  unfold handles, held. rewrite Hst. set_solver.
Qed.

Section Call.
Context (s : system) (gs : nat → owner) (t : nat) (th : thread) (R : Type) (c : call R)
  (k : R → io FleetHostResult) (r : R) (d' : disk).
Context (Hi : inv s gs) (Ht : sys_threads s !! t = Some th) (Hp : th_prog th = Vis c k)
  (Hx : exec c (sys_disk s) r d').

Let g' : owner := after_call (th_rq th) (gs t) c r.

Lemma call_allowed : may_call (th_rq th) (gs t) c.
Proof. pose proof (iv_wp _ _ Hi _ _ Ht) as Hwp. rewrite Hp in Hwp. apply Hwp. Qed.

Lemma call_own u th' :
  sys_threads s !! u = Some th' → own_ok d' (th_rq th') (set_owner gs t g' u).
Proof.
  intros Hu. destruct (decide (u = t)) as [->|Hne].
  - rewrite set_owner_eq. rewrite Ht in Hu. injection Hu as <-.
    eapply own_call; [apply call_allowed|exact Hx|by apply (iv_own _ _ Hi)].
  - rewrite set_owner_ne by done. eapply other_own; [apply call_allowed|exact Hx| |by apply (iv_own _ _ Hi)].
    intros h Hh. by apply (iv_apart _ _ Hi u t th' th).
Qed.

Lemma call_new_handle h u th' :
  h ∈ handles g' → u ≠ t → sys_threads s !! u = Some th' → h ∉ handles (gs u).
Proof.
  intros Hh Hne Hu. destruct (handles_call _ _ _ _ _ _ _ Hx Hh) as [Hold|Hnew].
  - by apply (iv_apart _ _ Hi t u th th').
  - intros Hin. destruct (own_handles_alive _ _ _ _ (iv_own _ _ Hi _ _ Hu) Hin). congruence.
Qed.

Lemma call_apart u v th1 th2 h :
  sys_threads s !! u = Some th1 → sys_threads s !! v = Some th2 → u ≠ v →
  h ∈ handles (set_owner gs t g' u) → h ∉ handles (set_owner gs t g' v).
Proof.
  intros Hu Hv Hne. destruct (decide (u = t)) as [->|Hut], (decide (v = t)) as [->|Hvt];
    rewrite ?set_owner_eq, ?set_owner_ne by done.
  - done.
  - intros Hh. by eapply call_new_handle.
  - intros Hh Hh'. by apply (call_new_handle h u th1 Hh' Hut Hu).
  - by apply (iv_apart _ _ Hi u v th1 th2).
Qed.

Lemma call_log e :
  e ∈ sys_log s → ∃ h, claim d' (rq_record e.1) (begin_bytes e.1) 3 h ∧
    ∀ u th', sys_threads s !! u = Some th' → h ∉ handles (set_owner gs t g' u).
Proof.
  intros He. destruct (iv_log _ _ Hi _ He) as (h & Hc & Hno). exists h. split.
  - eapply other_claim; [apply call_allowed|exact Hx|apply rq_record_form|by eapply Hno|done].
  - intros u th' Hu. destruct (decide (u = t)) as [->|Hne];
      rewrite ?set_owner_eq, ?set_owner_ne by done; [|by eapply Hno].
    intros Hh. destruct (handles_call _ _ _ _ _ _ _ Hx Hh) as [Hold|Hnew]; [by eapply Hno|].
    destruct Hc as [_ (f & Hf & _) _]. congruence.
Qed.

Lemma call_effect p :
  applied_step c = Some p →
  NoDup (log_records (sys_log s ++ [(th_rq th, p)])) ∧
  ∃ h, claim d' (rq_record (th_rq th)) (begin_bytes (th_rq th)) 3 h ∧
    ∀ u th', sys_threads s !! u = Some th' → h ∉ handles (set_owner gs t g' u).
Proof.
  intros Hap. pose proof call_allowed as Hm. destruct c; try discriminate Hap.
  destruct Hm as [h Hst]. simpl in Hx. subst d'. split; [by eapply apply_log|].
  pose proof (iv_own _ _ Hi _ _ Ht) as Hown. exists h. split; [by apply (ok_claim _ _ _ Hown)|].
  assert (Hin : h ∈ handles (gs t)) by (unfold handles, held; rewrite Hst; set_solver).
  intros u th' Hu. destruct (decide (u = t)) as [->|Hne];
    rewrite ?set_owner_eq, ?set_owner_ne by done.
  - unfold handles, held. simpl. by eapply (ok_apart _ _ _ Hown).
  - by apply (iv_apart _ _ Hi t u th th').
Qed.

Lemma inv_call :
  inv {| sys_disk := d';
         sys_threads := <[t := {| th_rq := th_rq th; th_prog := k r |}]> (sys_threads s);
         sys_log := sys_log s
           ++ (match applied_step c with Some p => [(th_rq th, p)] | None => [] end) |}
      (set_owner gs t g').
Proof.
  (* a thread of the new pool stands for one of the old pool *)
  assert (Hpool : ∀ u th', <[t := {| th_rq := th_rq th; th_prog := k r |}]> (sys_threads s) !! u
    = Some th' → ∃ th0, sys_threads s !! u = Some th0 ∧ th_rq th0 = th_rq th').
  { intros u th'. destruct (decide (u = t)) as [->|Hne].
    - rewrite lookup_insert_eq. intros [= <-]. by exists th.
    - rewrite lookup_insert_ne by done. by exists th'. }
  split; simpl.
  - intros u th'. destruct (decide (u = t)) as [->|Hne].
    + rewrite lookup_insert_eq, set_owner_eq. intros [= <-]. simpl.
      pose proof (iv_wp _ _ Hi _ _ Ht) as Hwp. rewrite Hp in Hwp. apply Hwp.
    + rewrite lookup_insert_ne, set_owner_ne by done. apply (iv_wp _ _ Hi).
  - intros u th' (th0 & Hu & <-)%Hpool. by apply call_own.
  - intros u v th1 th2 h (th1' & Hu & _)%Hpool (th2' & Hv & _)%Hpool.
    by apply (call_apart u v th1' th2').
  - intros e [He|He]%elem_of_app.
    + destruct (call_log e He) as (h & Hc & Hno). exists h. split; [done|].
      intros u th' (th0 & Hu & _)%Hpool. by eapply Hno.
    + destruct (applied_step c) as [p|] eqn:Hap; [|by apply elem_of_nil in He].
      apply list_elem_of_singleton in He as ->.
      destruct (call_effect p Hap) as (_ & h & Hc & Hno). exists h. split; [done|].
      intros u th' (th0 & Hu & _)%Hpool. by eapply Hno.
  - destruct (applied_step c) as [p|] eqn:Hap; [by apply call_effect|].
    rewrite app_nil_r. apply (iv_once _ _ Hi).
Qed.
End Call.

Lemma power_claim d d' n b h : power_loss d d' → claim d n b 3 h → claim d' n b 3 h.
Proof.
  intros [Hs He Hd] [Hn (f & Hf & Hdata & Hsync) Hset]. specialize (Hset ltac:(lia)).
  destruct (Hd n h f Hset Hn Hf) as (f' & Hf' & Heq). specialize (Heq (Hsync ltac:(lia))). subst f'.
  split; [by rewrite He|by exists f|]. rewrite Hs. set_solver.
Qed.

Lemma inv_step s s' gs : inv s gs → sys_step s s' → ∃ gs', inv s' gs'.
Proof.
  intros Hi Hst. destruct Hst as [s t rq Ht|s t th R c k r d' Ht Hp Hx|s t|s d' Hpl].
  - exists (set_owner gs t {| ow_stage := Idle; ow_files := [] |}).
    assert (Hnone : ∀ h, h ∉ handles {| ow_stage := Idle; ow_files := [] |}) by (by intros h ?%elem_of_nil).
    split; simpl.
    + intros u th'. destruct (decide (u = t)) as [->|Hne].
      * rewrite lookup_insert_eq, set_owner_eq. intros [= <-]. apply own_execute.
      * rewrite lookup_insert_ne, set_owner_ne by done. apply (iv_wp _ _ Hi).
    + intros u th'. destruct (decide (u = t)) as [->|Hne].
      * rewrite set_owner_eq. intros _. split; simpl; try done. by intros h ?%elem_of_nil.
      * rewrite lookup_insert_ne, set_owner_ne by done. apply (iv_own _ _ Hi).
    + intros u v th1 th2 h. destruct (decide (u = t)) as [->|], (decide (v = t)) as [->|];
        rewrite ?set_owner_eq, ?set_owner_ne, ?lookup_insert_ne by done; auto.
      * intros _ _ _ Hh. by destruct (Hnone h).
      * apply (iv_apart _ _ Hi).
    + intros e He. destruct (iv_log _ _ Hi e He) as (h & Hc & Hno). exists h. split; [done|].
      intros u th'. destruct (decide (u = t)) as [->|];
        rewrite ?set_owner_eq, ?set_owner_ne, ?lookup_insert_ne by done; auto. apply Hno.
    + apply (iv_once _ _ Hi).
  - eexists. by eapply inv_call.
  - exists gs. destruct Hi as [H1' H2' H3' H4' H5']. split; simpl; try done.
    + intros u th' [_ ?]%lookup_delete_Some. auto.
    + intros u th' [_ ?]%lookup_delete_Some. auto.
    + intros u v th1 th2 h [_ ?]%lookup_delete_Some [_ ?]%lookup_delete_Some. eauto.
    + intros e He. destruct (H4' e He) as (h & Hc & Hno). exists h. split; [done|].
      intros u th' [_ ?]%lookup_delete_Some. eauto.
  - exists gs. destruct Hi as [_ _ _ H4' H5']. split; simpl; try done.
    intros e He. destruct (H4' e He) as (h & Hc & _). exists h.
    split; [by eapply power_claim|done].
Qed.

Lemma inv_initial s : initial s → inv s (λ _, {| ow_stage := Idle; ow_files := [] |}).
Proof.
  intros [Ht Hl]. split; rewrite ?Ht, ?Hl; try done.
  - by intros e ?%elem_of_nil.
  - apply NoDup_nil_2.
Qed.

Lemma inv_reachable s0 s : initial s0 → rtc sys_step s0 s → ∃ gs, inv s gs.
Proof.
  intros H0'%inv_initial Hr. revert H0'. generalize (λ _ : nat, {| ow_stage := Idle; ow_files := [] |}).
  induction Hr as [s|s s1 s2 Hs _ IH]; intros gs Hi; [by exists gs|].
  destruct (inv_step _ _ _ Hi Hs) as [gs' Hi']. by eapply IH.
Qed.

(** ** Properties of the system *)

(** C1: over any number of concurrent calls of the owner on one journal, whatever
    fails, whichever processes die and whenever power is lost, the effect of an
    operation identifier is applied at most once. *)
Theorem applied_at_most_once s0 s :
  initial s0 → rtc sys_step s0 s →
  NoDup ((λ e, intent_operation_id (rq_intent e.1)) <$> sys_log s).
Proof.
  intros H0' Hr. destruct (inv_reachable _ _ H0' Hr) as [gs Hi].
  apply (NoDup_fmap_1 record_path). rewrite <- list_fmap_compose. apply (iv_once _ _ Hi).
Qed.

(** C2: whenever the effect of a request has been applied, now or before any number of
    crashes and losses of power, its BEGIN record is on the disk under the name of its
    operation, with exactly the contents the owner wrote, and both contents and
    directory entry are durable. *)
Theorem begin_record_survives s0 s rq p :
  initial s0 → rtc sys_step s0 s → (rq, p) ∈ sys_log s →
  rq_record rq ∉ unsettled (sys_disk s) ∧
  file_at (sys_disk s) (rq_record rq) =
    Some {| ino_data := encode_to_vec (begin_record (rq_intent rq) (rq_now_unix rq));
            ino_synced := true |}.
Proof.
  intros H0' Hr Hin. destruct (inv_reachable _ _ H0' Hr) as [gs Hi].
  destruct (iv_log _ _ Hi _ Hin) as (h & [He (f & Hf & Hd & Hs) Hset] & _). simpl in *.
  split; [apply Hset; lia|]. unfold file_at. rewrite He. simpl. rewrite Hf.
  destruct f as [data synced]. simpl in *. by rewrite Hd, Hs by lia.
Qed.

(** ** A thread that runs to its end in the executable environment *)

Lemma run_system obs rq t p n d ths log :
  let '(tr, d', a) := run obs p n d in
  rtc sys_step
    {| sys_disk := d; sys_threads := <[t := {| th_rq := rq; th_prog := p |}]> ths;
       sys_log := log |}
    {| sys_disk := d'; sys_threads := <[t := {| th_rq := rq; th_prog := Ret a |}]> ths;
       sys_log := log ++ ((λ s, (rq, s)) <$> applied tr) |}.
Proof.
  revert n d log. induction p as [a|R c k IH]; intros n d log; simpl.
  - rewrite app_nil_r. apply rtc_refl.
  - destruct (answer obs n c d) as [r d1] eqn:Ea.
    pose proof (answer_exec obs n c d) as Hx. rewrite Ea in Hx. simpl in Hx.
    specialize (IH r (n + observes c)%nat d1
      (log ++ match applied_step c with Some p => [(rq, p)] | None => [] end)).
    destruct (run obs (k r) _ d1) as [[tr d2] a].
    eapply rtc_l; [eapply (step_call _ t _ R c k r d1); [by apply lookup_insert_eq|done|exact Hx]|].
    cbn [sys_disk sys_threads sys_log th_rq]. rewrite insert_insert_eq.
    replace (log ++ ((λ s, (rq, s)) <$> applied (Ev c r :: tr))) with
      ((log ++ match applied_step c with Some p => [(rq, p)] | None => [] end)
       ++ ((λ s, (rq, s)) <$> applied tr)); [exact IH|].
    rewrite <- app_assoc. f_equal. unfold applied. simpl. by destruct (applied_step c).
Qed.
End System.

(** ** Witnesses: the signed STOP of [JournalSample], from an empty disk *)

Module SystemSample.
Import JournalSample.
Definition start : system := {| sys_disk := empty_disk; sys_threads := ∅; sys_log := [] |}.
Definition final_disk : disk := (run obs (execute_protected rq) 0 empty_disk).1.2.
Definition final : system := {|
  sys_disk := final_disk;
  sys_threads := {[ 0%nat := {| th_rq := rq; th_prog := Ret outcome |} ]};
  sys_log := [(rq, FleetHostPlannedStep_Stop)] |}.

Lemma final_reachable : rtc sys_step start final.
Proof.
  eapply rtc_l; [apply (step_start start 0%nat rq); reflexivity|].
  pose proof (run_system obs rq 0%nat (execute_protected rq) 0 empty_disk ∅ []) as Hr.
  destruct (run obs (execute_protected rq) 0 empty_disk) as [[tr d'] a] eqn:E.
  replace final with {| sys_disk := d';
    sys_threads := <[0%nat := {| th_rq := rq; th_prog := Ret a |}]> ∅;
    sys_log := [] ++ ((λ s, (rq, s)) <$> applied tr) |}; [exact Hr|].
  unfold final, final_disk, outcome, run_result. rewrite E. simpl. f_equal.
  replace tr with trace by (unfold trace, run_trace; by rewrite E).
  replace (applied trace) with [FleetHostPlannedStep_Stop] by (vm_compute; reflexivity).
  reflexivity.
Qed.

(** Witness of [applied_at_most_once]. *)
Lemma applied_at_most_once_witness :
  NoDup ((λ e, intent_operation_id (rq_intent e.1)) <$> sys_log final).
Proof.
  apply (applied_at_most_once start final).
  - split; reflexivity.
  - apply final_reachable.
Defined.

(** Witness of [begin_record_survives]. *)
Lemma begin_record_survives_witness :
  is_Some (file_at (sys_disk final) (rq_record rq)).
Proof.
  destruct (begin_record_survives start final rq FleetHostPlannedStep_Stop) as [_ E].
  - split; reflexivity.
  - apply final_reachable.
  - apply list_elem_of_singleton. reflexivity.
  - exact (mk_is_Some _ _ E).
Defined.
End SystemSample.
