(* ===== verification/HostJournalGate.v ===== *)
(** * The resource gate of serialized calls

    The native owner holds an exclusive lock around each call, so that calls on
    one journal do not overlap.  Under that lock, whatever fails and whichever
    processes die, an applied operation keeps its resource gate until the whole
    receipt of that very operation is in its file, and the next effect on the same
    resource comes only after it. *)

From S2P Require Import Prelude RustStd RustNet HostTypes Concrete ResourceGraph.
From S2P Require Import ResourceGraphFacts ResourceReport HostRegistry ApplyBundle.
From S2P Require Import HostLifecycle HostLifecycleFacts HostPlanner JournalFs HostJournal.
From S2P Require Import HostJournalFacts HostJournalSystem.

(** ** What a thread knows of the disk *)

Record knowledge : Set := {
  kn_open : option (string * positive);  (* the file it has just created *)
  kn_data : list (string * bytes)        (* files whose contents it knows *)
}.

Definition no_knowledge : knowledge := {| kn_open := None; kn_data := [] |}.

(** More is known in [g'] than in [g]. *)
Definition knows_more (g g' : knowledge) : Prop := kn_data g ⊆ kn_data g'.

Definition receipts : list string := ["verified"; "observed"; "incomplete"].

Section Gate.
Context `{Sha256} `{Ed25519} `{ProductionText}.
Context `{Message FleetHostIntent} `{Message FleetHostResult} `{Message FleetHost}
  `{Message ApplyBundleRequest} `{Message FleetDesiredState} `{Message ReleaseSet}
  `{Message FleetVmDesiredGraph} `{Message FleetResourceHierarchy}
  `{Message FleetVmDesiredNetwork} `{Message FleetVmDesiredResource}
  `{Message FleetVmDualStackNetwork} `{Message Ipv4NetworkObservation}
  `{Message FleetVmResourceReport} `{Message FleetNativeObservation}.

(** The receipt [t] of an operation: the bytes of a terminal result that names the
    operation, its machine and resource, its release and desired state, with the state,
    the readback and the reason that a receipt [t] has. *)
Definition receipt_for (intent : FleetHostIntent) (t : string) (b : bytes) : Prop :=
  ∃ result, b = encode_to_vec result ∧ terminal_result_invalid intent result t = false.

(** A file may be removed if it is the gate of an intent whose receipt is known to be in
    its file; the effect may be applied if the gate is known to hold the intent. *)
Definition gate_call (rq : request) {R} (g : knowledge) (c : call R) : Prop :=
  match c with
  | WriteAll h _ => ∃ n, kn_open g = Some (n, h)
  | RemoveFile n => (∃ intent, n = native_scope_pending_path intent) ∧
      ∃ b intent t b', (n, b) ∈ kn_data g ∧ decode b = Some intent ∧ t ∈ receipts ∧
        (terminal_path (intent_operation_id intent) t, b') ∈ kn_data g ∧
        receipt_for intent t b'
  | ApplyOnce _ => (rq_scope rq, encode_to_vec (rq_intent rq)) ∈ kn_data g
  | _ => True
  end.

Definition forget_open (g : knowledge) : knowledge :=
  {| kn_open := None; kn_data := kn_data g |}.

Definition learn {R} (g : knowledge) (c : call R) : R → knowledge :=
  match c in call R return R → knowledge with
  | ReadFile n => λ r, {| kn_open := None;
      kn_data := match r with Some b => (n, b) :: kn_data g | None => kn_data g end |}
  | CreateNew n => λ r,
      match r with
      | Some h => {| kn_open := Some (n, h); kn_data := kn_data g |}
      | None => forget_open g
      end
  | WriteAll h b => λ r, {| kn_open := None;
      kn_data := match r, kn_open g with true, Some (n, _) => (n, b) :: kn_data g
                 | _, _ => kn_data g end |}
  | RemoveFile n => λ _, {| kn_open := None;
      kn_data := filter (λ p, p.1 ≠ n) (kn_data g) |}
  | _ => λ _, forget_open g
  end.

#[local] Instance gate_protocol (rq : request) : Protocol := {|
  ghost := knowledge;
  allowed := λ R g c, gate_call rq g c;
  next := λ R g c r, learn g c r
|}.

Abbreviation gpost rq := (post (P := gate_protocol rq)).
Abbreviation gwp rq := (wp (P := gate_protocol rq)).

Lemma gate_sync_dir rq g (Q : unit → knowledge → Prop) :
  (∀ g', knows_more g g' → Q tt g') → gwp rq sync_native_journal_directory (gpost rq Q) g.
Proof. intros HQ. apply wp_demand, wp_demand_last; [exact I..|]. apply HQ. by unfold knows_more. Qed.

Lemma gate_write_record rq n b e1 e2 e3 g (Q : unit → knowledge → Prop) :
  (∀ g', knows_more g g' → (n, b) ∈ kn_data g' → Q tt g') →
  gwp rq (write_record n b e1 e2 e3) (gpost rq Q) g.
Proof.
  intros HQ. apply wp_bind, wp_perform; [exact I|]. intros [h|]; [|exact I].
  apply wp_check. intros h' [= <-]. apply wp_demand; [by exists n|].
  apply wp_demand; [exact I|]. apply gate_sync_dir. intros g' Hd. unfold knows_more in *.
  simpl in *. apply HQ; set_solver.
Qed.

Lemma gate_require_absent rq n e1 e2 g (Q : unit → knowledge → Prop) :
  (∀ g', knows_more g g' → Q tt g') → gwp rq (require_absent n e1 e2) (gpost rq Q) g.
Proof. intros HQ. apply wp_bind, wp_perform; [exact I|]. intros []; try exact I. apply HQ. by unfold knows_more. Qed.

Lemma gate_read_or rq n e g (Q : bytes → knowledge → Prop) :
  (∀ b g', knows_more g g' → (n, b) ∈ kn_data g' → Q b g') →
  gwp rq (read_or n e) (gpost rq Q) g.
Proof.
  intros HQ. apply wp_bind, wp_perform; [exact I|]. intros [b|]; [|exact I].
  unfold knows_more in *. apply HQ; simpl; set_solver.
Qed.

(** ** The programs *)

Lemma gate_admission rq auth registry d1 d2 d3 key machine kind g
    (Q : FleetHostResult → knowledge → Prop) :
  (∀ r g', (rq_scope rq, encode_to_vec (rq_intent rq)) ∈ kn_data g' → Q r g') →
  gwp rq (admit_after_protected_owner_check_once (rq_intent rq) auth registry d1 d2 d3 key
       machine kind (rq_now_unix rq)) (gpost rq Q) g.
Proof.
  intros HQ. unfold admit_after_protected_owner_check_once.
  do 4 (apply wp_check; intros _ _). apply wp_bind, wp_perform; [exact I|]. intros root.
  apply wp_check. intros [d l] _. apply wp_check. intros _ _.
  apply wp_seq, gate_require_absent. intros g1 _.
  apply wp_seq, gate_write_record. intros g2 _ Hd.
  apply wp_seq, gate_write_record. intros g3 Hm _.
  apply wp_ret, HQ. by apply Hm.
Qed.

Lemma gate_store rq intent result terminal g (Q : unit → knowledge → Prop) :
  terminal ∈ receipts → decode (encode_to_vec intent) = Some intent → (∀ g', Q tt g') →
  gwp rq (store_native_terminal_and_unlock_once intent result terminal) (gpost rq Q) g.
Proof.
  intros Ht Hdec HQ. unfold store_native_terminal_and_unlock_once.
  apply wp_check; intros _ Hv%fail_if_Ok. apply wp_seq, gate_read_or. intros b g1 _ Hb.
  apply wp_check. intros _ Hbe%fail_if_Ok. reflect_in Hbe. subst b.
  apply wp_seq, gate_write_record. intros g2 Hm Hrec.
  apply wp_demand; [|by apply gate_sync_dir].
  split; [by exists intent|]. exists (encode_to_vec intent), intent, terminal, (encode_to_vec result).
  split_and!; auto. by exists result.
Qed.

(** The verdicts of a recovery *)
Definition settled_verdicts : list FleetHostResultReason :=
  [FleetHostResultReason_RecoveredNativeRunning; FleetHostResultReason_RecoveredNativeStopped;
   FleetHostResultReason_StoppedReleaseDriftRequiresInstallTarget;
   FleetHostResultReason_HistoricalPartialRequiresFreshApply].
Lemma recovery_verdict_settled intent original selected bound now observed verdict :
  recovery_verdict intent original selected bound now observed = Ok verdict →
  verdict ∈ settled_verdicts.
Proof.
  unfold recovery_verdict. intros Hv. inv_ok Hv.
  match type of Hv with (if ?b then _ else _) = _ => destruct b end.
  - unfold verify_historical_partial_recovery_state in Hv. inv_ok Hv. set_solver.
  - unfold verify_read_only_recovery_state in Hv. inv_ok Hv.
    repeat split_guard Hv; inv_ok Hv; set_solver.
Qed.

(** A receipt that agrees with the one the recovery computes is a receipt of the operation. *)
Lemma agreeing_receipt original verdict t exact :
  verdict ∈ settled_verdicts →
  let partial := bool_decide (verdict = FleetHostResultReason_HistoricalPartialRequiresFreshApply) in
  terminal_mismatch exact
    (result_for original (if partial then FleetHostResultState_UnknownNoReplay
                          else FleetHostResultState_Verified) t (negb partial) verdict)
    original = false →
  terminal_result_invalid original exact (if partial then "incomplete" else "verified") = false.
Proof.
  unfold settled_verdicts, terminal_mismatch. intros Hin. cbv zeta.
  repeat rewrite orb_false_iff. rewrite !negb_false_iff.
  intros Hm. destruct_and! Hm.
  repeat match goal with
    | H : (_ =? _) = true |- _ => apply Z.eqb_eq in H
    | H : str_eqb _ _ = true |- _ => apply str_eqb_true in H
    | H : bytes_eqb _ _ = true |- _ => apply bytes_eqb_true in H
    | H : Bool.eqb _ _ = true |- _ => apply Bool.eqb_prop in H
    end.
  unfold terminal_result_invalid, validate_host_result_reason.
  repeat match goal with H : _ exact = _ |- _ => rewrite H; clear H end.
  rewrite !(proj2 (str_eqb_true _ _) eq_refl), !(proj2 (bytes_eqb_true _ _) eq_refl).
  repeat (apply elem_of_cons in Hin as [->|Hin]; [vm_compute; reflexivity|]).
  by apply elem_of_nil in Hin.
Qed.

Lemma gate_settle rq original intent verdict t b g (Q : unit → knowledge → Prop) :
  verdict ∈ settled_verdicts → decode b = Some original → encode_to_vec original = b →
  (native_scope_pending_path intent, b) ∈ kn_data g → (∀ g', Q tt g') →
  gwp rq (settle_prior_operation original (native_scope_pending_path intent) verdict t)
    (gpost rq Q) g.
Proof.
  intros Hver Hdec Henc Hdata HQ. unfold settle_prior_operation.
  pose proof (agreeing_receipt original verdict t) as Hagree. cbv zeta in Hagree.
  set (partial := bool_decide _) in *.
  set (terminal := if partial then "incomplete" else "verified") in *.
  assert (Hin : terminal ∈ receipts) by (unfold terminal; destruct partial; set_solver).
  apply wp_bind, wp_perform; [exact I|]. intros st1. apply wp_check; intros _ _.
  apply wp_bind, wp_perform; [exact I|]. intros [| |]; [| |exact I].
  - apply wp_seq, gate_read_or. intros b' g' Hd Hb'.
    apply wp_check; intros exact Hexact. apply wp_check; intros _ Hmis%fail_if_Ok.
    apply wp_demand; [|by apply gate_sync_dir].
    split; [by exists intent|]. exists b, original, terminal, b'. split_and!; try done.
    + by apply Hd.
    + exists exact. split; [|by apply Hagree].
      unfold decode_host_result in Hexact. inv_ok Hexact. by reflect_in Hm1.
  - apply gate_store; [done|by rewrite Henc|done].
Qed.

Lemma decode_host_intent_Ok b intent :
  decode_host_intent b = Ok intent → decode b = Some intent ∧ encode_to_vec intent = b.
Proof. unfold decode_host_intent. intros Hd. inv_ok Hd. reflect_in Hm1. by subst. Qed.

Section Programs.
Context (rq : request) (Hrep : decode (encode_to_vec (rq_intent rq)) = Some (rq_intent rq)).

Lemma gate_resolve auth registry selected bound key machine kind observed g :
  gwp rq (resolve_pending_native_recovery_once (rq_intent rq) auth registry selected bound key
       machine kind (rq_now_unix rq) observed) (gpost rq (λ _ _, True)) g.
Proof.
  unfold resolve_pending_native_recovery_once.
  apply wp_seq, gate_read_or. intros b g1 _ Hb.
  apply wp_check; intros original [Hdec Henc]%decode_host_intent_Ok. apply wp_check; intros _ _.
  apply wp_seq, gate_read_or. intros b' g2 Hm _. do 2 (apply wp_check; intros ? _).
  apply wp_check; intros verdict Hv%recovery_verdict_settled.
  apply wp_seq. eapply gate_settle; [done..|by apply Hm|]. intros g3.
  apply wp_seq, gate_admission. intros r g4 _.
  apply wp_seq, gate_store; [set_solver|done|]. intros g5. by apply wp_ret.
Qed.

Lemma gate_finish registry machine kind digest step previous now binding action g :
  gwp rq (finish_after_protected_owner_check_once (rq_intent rq) registry machine kind digest
       step previous now (poststate_readback binding action)) (gpost rq (λ _ _, True)) g.
Proof.
  unfold finish_after_protected_owner_check_once.
  do 4 (apply wp_check; intros ? _). apply wp_seq, gate_read_or. intros b g1 _ _.
  do 2 (apply wp_check; intros ? _). apply wp_seq, gate_read_or. intros b' g2 _ _.
  do 2 (apply wp_check; intros ? _).
  apply wp_seq, wp_seq, wp_ask; [exact I|]. intros o. apply wp_check; intros _ _.
  apply wp_ret. apply wp_check; intros ? _.
  apply wp_seq, gate_store; [set_solver|done|]. intros g3. by apply wp_ret.
Qed.

Lemma gate_step auth registry bound action key machine kind before s g :
  gwp rq (execute_step (rq_binding rq) (rq_intent rq) auth registry bound action key machine
       kind (rq_now_unix rq) before s) (gpost rq (λ _ _, True)) g.
Proof.
  unfold execute_step. destruct (bool_decide _).
  - apply wp_seq, gate_admission. intros r g1 _.
    apply wp_seq, gate_store; [set_solver|done|]. intros g2. by apply wp_ret.
  - apply wp_check; intros _ _. apply wp_seq, wp_ask; [exact I|]. intros [].
    apply wp_seq, gate_admission. intros r g1 Hg1.
    apply wp_seq, wp_ask; [exact Hg1|]. intros [].
    apply wp_bind, wp_perform; [exact I|]. intros elapsed. apply gate_finish.
Qed.

Lemma gate_execute : gwp rq (execute_protected rq) (λ _ _, True) no_knowledge.
Proof.
  apply (wp_mono (P := gate_protocol rq) _ (gpost rq (λ _ _, True))); [done|].
  apply wp_seq, wp_ask; [exact I|]. intros [].
  apply wp_check. intros [[[registry bound] action] kind] _.
  apply wp_seq. apply wp_bind, wp_perform; [exact I|]. intros items.
  apply wp_check; intros items' _. apply wp_lift. destruct (for_each _ _); [|exact I].
  apply wp_seq, gate_require_absent. intros g1 _. apply wp_check; intros selected _.
  apply wp_bind, wp_perform; [exact I|]. intros [| |]; [| |exact I].
  - destruct (_ =? _); [|exact I]. apply wp_seq, wp_ask; [exact I|]. intros o.
    apply wp_seq. destruct (bool_decide _); [|apply gate_resolve].
    apply wp_check; intros ? _. apply wp_lift. destruct (fail_if _ _); [|exact I].
    apply gate_resolve.
  - apply wp_seq, wp_ask; [exact I|]. intros before. apply wp_check; intros s _.
    apply gate_step.
Qed.
End Programs.

(** ** Knowledge and the disk *)

(** Every directory entry has its inode. *)
Definition disk_ok (d : disk) : Prop := ∀ n h, dir d !! n = Some h → is_Some (inodes d !! h).

Definition file_data (d : disk) (n : string) : option bytes := ino_data <$> file_at d n.

Record known (d : disk) (g : knowledge) : Prop := {
  kd_data n b : (n, b) ∈ kn_data g → file_data d n = Some b;
  kd_open n h : kn_open g = Some (n, h) →
    dir d !! n = Some h ∧ (∀ b, (n, b) ∉ kn_data g) ∧ ∀ m, m ≠ n → dir d !! m ≠ Some h
}.

Lemma file_data_entry d n b : file_data d n = Some b → is_Some (dir d !! n).
Proof. unfold file_data, file_at. destruct (dir d !! n); naive_solver. Qed.

Lemma link_data d n b m h :
  file_data d n = Some b → dir d !! m = None → inodes d !! h = None →
  file_data (link_new d m h) n = Some b.
Proof.
  intros Hf Hm Hh. assert (n ≠ m) by (intros ->; destruct (file_data_entry _ _ _ Hf); congruence).
  unfold file_data, file_at in *. simpl. rewrite lookup_insert_ne by done.
  destruct (dir d !! n) as [h'|]; [|done]. simpl in *. rewrite lookup_insert_ne; [done|].
  intros ->. by rewrite Hh in Hf.
Qed.

Lemma exec_disk_ok {R} (c : call R) d r d' : exec c d r d' → disk_ok d → disk_ok d'.
Proof.
  intros Hx Hd n h Hn. assert (Hold : dir d !! n = Some h → is_Some (inodes d' !! h)).
  { intros Ho. eapply exec_inodes; eauto. }
  assert (Hlink : ∀ m h', d' = link_new d m h' → is_Some (inodes d' !! h)).
  { intros m h' ->. simpl in *. apply lookup_insert_Some in Hn as [[_ <-]|[_ ?]]; [|auto].
    by rewrite lookup_insert_eq. }
  destruct c; simpl in Hx; try (by subst; auto); try (destruct Hx as [-> _]; by auto).
  - destruct r as [h'|]; [destruct Hx as (_ & _ & ?); eauto|].
    destruct Hx as [->|(h' & _ & _ & ?)]; eauto.
  - destruct Hx as (w & -> & _). auto.
  - destruct r; [destruct Hx as (f & _ & ->)|subst]; auto.
  - destruct r; subst; auto.
  - destruct Hx as [[-> _]|[_ ->]]; [|auto]. simpl in Hn.
    apply Hold. by apply lookup_delete_Some in Hn as [_ ?].
Qed.

(** A call of the thread keeps the contents of a file it has not just created
    and does not remove. *)
Lemma exec_data {R} (c : call R) d r d' rq g n b :
  exec c d r d' → gate_call rq g c → known d g → disk_ok d →
  file_data d n = Some b → (∀ h, kn_open g ≠ Some (n, h)) → removed_name c ≠ Some n →
  file_data d' n = Some b.
Proof.
  intros Hx Hc Hk Hd Hf Ho Hr.
  destruct c; simpl in Hx; try (by subst); try (destruct Hx as [-> _]; done).
  - destruct r as [h'|]; [destruct Hx as (? & ? & ->); by apply link_data|].
    destruct Hx as [->|(h' & ? & ? & ->)]; [done|by apply link_data].
  - destruct Hx as (w & -> & _). destruct Hc as [m Hm].
    destruct (kd_open _ _ Hk _ _ Hm) as (_ & _ & Hother).
    assert (Hne : dir d !! n ≠ Some h) by (apply Hother; intros ->; by apply (Ho h)).
    unfold file_data, file_at in *. simpl. destruct (dir d !! n) as [h'|]; [|done].
    simpl in *. by rewrite lookup_insert_ne by congruence.
  - destruct r; [|by subst]. destruct Hx as (f & Hfi & ->).
    unfold file_data, file_at in *. simpl. destruct (dir d !! n) as [h'|]; [|done]. simpl in *.
    destruct (decide (h = h')) as [->|]; [|by rewrite lookup_insert_ne].
    rewrite lookup_insert_eq. by rewrite Hfi in Hf.
  - by destruct r; subst.
  - destruct Hx as [[-> _]|[_ ->]]; [|done]. unfold file_data, file_at in *. simpl in *.
    by rewrite lookup_delete_ne by congruence.
Qed.

Section Learn.
Context {R : Type} (c : call R) (d : disk) (r : R) (d' : disk) (rq : request) (g : knowledge).
Context (Hx : exec c d r d') (Hc : gate_call rq g c) (Hk : known d g) (Hd : disk_ok d).

Lemma keep_data n b :
  (n, b) ∈ kn_data g → removed_name c ≠ Some n → file_data d' n = Some b.
Proof.
  intros Hin Hr. eapply exec_data; eauto using kd_data.
  intros h Ho. destruct (kd_open _ _ Hk _ _ Ho) as (_ & Hno & _). by apply (Hno b).
Qed.

End Learn.

Lemma learn_known {R} (c : call R) d r d' rq g :
  exec c d r d' → gate_call rq g c → known d g → disk_ok d → known d' (learn g c r).
Proof.
  intros Hx Hc Hk Hd. pose proof (keep_data c d r d' rq g Hx Hc Hk Hd) as Hkd.
  assert (Hplain : removed_name c = None → known d' (forget_open g)).
  { intros Hr. split; simpl; [|done]. intros n b Hin. apply Hkd; [done|by rewrite Hr]. }
  destruct c; simpl in Hx |- *; try (by apply Hplain).
  - (* ReadFile *)
    destruct (Hplain eq_refl) as [Hpd _]. split; simpl; [|done].
    destruct r as [b|]; [|done]. intros m b' [[= -> ->]|Hm]%elem_of_cons; [|by apply Hpd].
    destruct Hx as [-> [?|(f & Hf & [= ->])]]; [done|]. unfold file_data. by rewrite Hf.
  - (* CreateNew *)
    destruct (Hplain eq_refl) as [Hpd _]. destruct r as [h|]; [|by split].
    destruct Hx as (Hn & Hh & ->). split; simpl; [done|].
    intros m h' [= <- <-]. rewrite lookup_insert_eq. split; [done|]. split.
    + intros b Hin. apply (kd_data _ _ Hk), file_data_entry in Hin as [??]. congruence.
    + intros m Hm. rewrite lookup_insert_ne by done. intros [??]%Hd. congruence.
  - (* WriteAll *)
    destruct (Hplain eq_refl) as [Hpd _]. split; simpl; [|done].
    destruct Hc as [m Hm]. rewrite Hm. destruct r; [|done].
    intros n b' [[= -> ->]|Hin]%elem_of_cons; [|by apply Hpd].
    destruct Hx as (w & -> & Hw & _). rewrite Hw by done.
    destruct (kd_open _ _ Hk _ _ Hm) as (Hdir & _).
    unfold file_data, file_at. simpl. rewrite Hdir. simpl. by rewrite lookup_insert_eq.
  - (* RemoveFile *)
    split; simpl; [|done].
    intros m b [Hne Hin]%list_elem_of_filter. apply Hkd; [done|]. simpl in *. congruence.
Qed.

(** ** The gate of an applied operation *)

(** The receipt of an operation is in its file, whole. *)
Definition has_receipt (d : disk) (rq : request) : Prop :=
  ∃ t b, t ∈ receipts ∧
    file_data d (terminal_path (intent_operation_id (rq_intent rq)) t) = Some b ∧
    receipt_for (rq_intent rq) t b.
Definition gate_pending (d : disk) (rq : request) : Prop :=
  file_data d (rq_scope rq) = Some (encode_to_vec (rq_intent rq)).

(** A file with these contents that the thread with knowledge [g] has not just created *)
Definition holds (d : disk) (g : knowledge) (n : string) (b : bytes) : Prop :=
  file_data d n = Some b ∧ ∀ h, kn_open g ≠ Some (n, h).
Definition receipt_held (d : disk) (g : knowledge) (rq0 : request) : Prop :=
  ∃ t b, t ∈ receipts ∧
    holds d g (terminal_path (intent_operation_id (rq_intent rq0)) t) b ∧
    receipt_for (rq_intent rq0) t b.
Definition gate_kept (d : disk) (g : knowledge) (rq0 : request) : Prop :=
  holds d g (rq_scope rq0) (encode_to_vec (rq_intent rq0)) ∨ receipt_held d g rq0.

Lemma receipt_not_scope op t intent :
  t ∈ receipts → terminal_path op t ≠ native_scope_pending_path intent.
Proof.
  intros Ht E. apply (f_equal String.length) in E.
  unfold terminal_path, native_scope_pending_path in E.
  rewrite !length_app_str, !length_journal_hex in E. unfold receipts in Ht.
  repeat (apply elem_of_cons in Ht as [->|Ht]; [discriminate E|]). by apply elem_of_nil in Ht.
Qed.

Lemma holds_kept {R} (c : call R) d r d' rq g n b :
  exec c d r d' → gate_call rq g c → known d g → disk_ok d → removed_name c ≠ Some n →
  holds d g n b → holds d' (learn g c r) n b.
Proof.
  intros Hx Hc Hk Hd Hr [Hf Ho]. split; [by eapply exec_data|]. intros h.
  destruct c; simpl; try done. destruct r as [h'|]; [|done].
  intros [= -> ->]. destruct Hx as (Hn & _). apply file_data_entry in Hf as [??]. congruence.
Qed.

Lemma receipt_kept {R} (c : call R) d r d' rq g rq0 :
  exec c d r d' → gate_call rq g c → known d g → disk_ok d →
  receipt_held d g rq0 → receipt_held d' (learn g c r) rq0.
Proof.
  intros Hx Hc Hk Hd (t & b & Ht & Hh & Hb). exists t, b. split; [done|]. split; [|done].
  eapply holds_kept; eauto. destruct c; try done. destruct Hc as [[intent ->] _]. intros [= E].
  by eapply receipt_not_scope.
Qed.

Lemma gate_kept_call {R} (c : call R) d r d' rq g rq0 :
  exec c d r d' → gate_call rq g c → known d g → disk_ok d →
  decode (encode_to_vec (rq_intent rq0)) = Some (rq_intent rq0) →
  gate_kept d g rq0 → gate_kept d' (learn g c r) rq0.
Proof.
  intros Hx Hc Hk Hd Hrep [Hp|Hr]; [|right; by eapply receipt_kept].
  destruct (decide (removed_name c = Some (rq_scope rq0))) as [Hrem|Hrem];
    [|left; by eapply holds_kept].
  right. destruct c; try discriminate Hrem. injection Hrem as ->. pose proof Hc as Hc'.
  destruct Hc as [[intent Hi] (b & original & t & b' & Hdata & Hdec & Ht & Hrec & Hb')].
  apply (kd_data _ _ Hk) in Hdata. rewrite (proj1 Hp) in Hdata. injection Hdata as <-.
  rewrite Hrep in Hdec. injection Hdec as <-. exists t, b'. split; [done|]. split; [|done].
  split; [|done]. eapply keep_data; eauto. rewrite Hi. intros [= E]. by eapply receipt_not_scope.
Qed.

(** ** Serialized calls *)

(** The intents the wire format can represent *)
Context {R : FleetHostIntent → Prop} {HR : MessageLaws FleetHostIntent R}.

(** One call of the owner at a time; failing calls and dying processes, no loss of
    power. *)
Inductive serial_step : system → system → Prop :=
| serial_start s t rq :
    sys_threads s = ∅ → R (rq_intent rq) →
    serial_step s {| sys_disk := sys_disk s;
                     sys_threads := {[ t := {| th_rq := rq; th_prog := execute_protected rq |} ]};
                     sys_log := sys_log s |}
| serial_call s t rq A (c : call A) k r d' :
    sys_threads s = {[ t := {| th_rq := rq; th_prog := Vis c k |} ]} →
    exec c (sys_disk s) r d' →
    serial_step s {| sys_disk := d';
                     sys_threads := {[ t := {| th_rq := rq; th_prog := k r |} ]};
                     sys_log := sys_log s
                       ++ (match applied_step c with Some p => [(rq, p)] | None => [] end) |}
| serial_exit s :
    serial_step s {| sys_disk := sys_disk s; sys_threads := ∅; sys_log := sys_log s |}.

Definition serial_initial (s : system) : Prop := initial s ∧ disk_ok (sys_disk s).

(** Serialized steps are steps of the system, one by one. *)
Lemma serial_sys s s' :
  (sys_threads s = ∅ ∨ ∃ t th, sys_threads s = {[ t := th ]}) → serial_step s s' →
  rtc sys_step s s' ∧ (sys_threads s' = ∅ ∨ ∃ t th, sys_threads s' = {[ t := th ]}).
Proof.
  intros Hsize Hs. destruct Hs as [s t rq He _|s t rq A c k r d' He Hx|s].
  - split; [|right; eauto]. apply rtc_once. rewrite <- insert_empty, <- He.
    apply step_start. by rewrite He.
  - split; [|right; eauto]. apply rtc_once.
    replace ({[t := {| th_rq := rq; th_prog := k r |}]} : gmap nat thread) with
      (<[t := {| th_rq := rq; th_prog := k r |}]> (sys_threads s)) by (by rewrite He, insert_singleton_eq).
    eapply (step_call s t {| th_rq := rq; th_prog := Vis c k |}); [|done..].
    rewrite He. apply lookup_singleton_eq.
  - split; [|by left]. destruct Hsize as [He|(t & th & He)].
    + replace {| sys_disk := sys_disk s; sys_threads := ∅; sys_log := sys_log s |} with s;
        [apply rtc_refl|]. destruct s; simpl in *. by rewrite He.
    + apply rtc_once. replace (∅ : gmap nat thread) with (delete t (sys_threads s))
        by (by rewrite He, delete_singleton_eq). apply step_exit.
Qed.

(** ** The invariant *)

Definition ordered_receipts (d : disk) (g : knowledge)
    (log : list (request * FleetHostPlannedStep)) : Prop :=
  ∀ l1 e1 l2 e2 l3, log = l1 ++ e1 :: l2 ++ e2 :: l3 →
    rq_scope e1.1 = rq_scope e2.1 → receipt_held d g e1.1.

Record serial_inv (s : system) (g : knowledge) : Prop := {
  sv_disk : disk_ok (sys_disk s);
  sv_known : known (sys_disk s) g;
  sv_thread : sys_threads s = ∅ ∨ ∃ t th, sys_threads s = {[ t := th ]} ∧
    R (rq_intent (th_rq th)) ∧ gwp (th_rq th) (th_prog th) (λ _ _, True) g;
  sv_rep e : e ∈ sys_log s → R (rq_intent e.1);
  sv_gate e : e ∈ sys_log s → gate_kept (sys_disk s) g e.1;
  sv_order : ordered_receipts (sys_disk s) g (sys_log s)
}.

Lemma no_knowledge_known d : known d no_knowledge.
Proof. split; simpl; [by intros n b ?%elem_of_nil|done]. Qed.

Lemma receipt_forget d g rq : receipt_held d g rq → receipt_held d no_knowledge rq.
Proof. intros (t & b & ? & [? _] & ?). by exists t, b. Qed.
Lemma gate_kept_forget d g rq : gate_kept d g rq → gate_kept d no_knowledge rq.
Proof. intros [[? _]|?]; [left|right]; [done|by eapply receipt_forget]. Qed.
Lemma ordered_forget d g log : ordered_receipts d g log → ordered_receipts d no_knowledge log.
Proof. intros Hord l1 e1 l2 e2 l3 Heq Hsc. eapply receipt_forget, Hord; eauto. Qed.
Lemma receipt_held_has d g rq : receipt_held d g rq → has_receipt d rq.
Proof. intros (t & b & ? & [? _] & ?). by exists t, b. Qed.

(** The last effect, against the earlier ones on the same resource *)
Lemma apply_ordered d g rq p log :
  known d g → (rq_scope rq, encode_to_vec (rq_intent rq)) ∈ kn_data g → R (rq_intent rq) →
  (∀ e, e ∈ log → R (rq_intent e.1) ∧ gate_kept d g e.1) →
  NoDup (log_records (log ++ [(rq, p)])) → ordered_receipts d g log →
  ordered_receipts d g (log ++ [(rq, p)]).
Proof.
  intros Hk Hdata Hrep Hlog Hnd Hord l1 e1 l2 e2 l3 Heq Hsc.
  destruct (decide (l3 = [])) as [->|Hl3].
  - rewrite app_comm_cons, app_assoc in Heq. apply app_inj_tail in Heq as [-> <-]. simpl in Hsc.
    destruct (Hlog e1) as [Hrep1 [[Hp _]|Hr]]; [set_solver| |done].
    exfalso. rewrite Hsc, (kd_data _ _ Hk _ _ Hdata) in Hp.
    injection Hp as Henc. apply encode_inj in Henc; [|done..].
    unfold log_records in Hnd. rewrite fmap_app in Hnd. apply NoDup_app in Hnd as (_ & Hnd & _).
    apply (Hnd (rq_record e1.1)).
    + apply list_elem_of_fmap. exists e1. set_solver.
    + simpl. unfold rq_record. rewrite Henc. set_solver.
  - destruct (exists_last Hl3) as (l3' & e & ->).
    rewrite !app_comm_cons, !app_assoc in Heq. apply app_inj_tail in Heq as [-> _].
    apply (Hord l1 e1 l2 e2 l3'); [|done]. by rewrite <- app_assoc.
Qed.

Lemma ordered_kept {A} (c : call A) d r d' rq g log :
  exec c d r d' → gate_call rq g c → known d g → disk_ok d →
  ordered_receipts d g log → ordered_receipts d' (learn g c r) log.
Proof. intros Hx Hc Hk Hd Hord l1 e1 l2 e2 l3 Heq Hsc. eapply receipt_kept; eauto. Qed.

Lemma serial_inv_call s g t rq A (c : call A) k r d' :
  serial_inv s g → sys_threads s = {[ t := {| th_rq := rq; th_prog := Vis c k |} ]} →
  exec c (sys_disk s) r d' →
  let log' := sys_log s ++ match applied_step c with Some p => [(rq, p)] | None => [] end in
  NoDup (log_records log') →
  serial_inv {| sys_disk := d'; sys_threads := {[ t := {| th_rq := rq; th_prog := k r |} ]};
                sys_log := log' |} (learn g c r).
Proof.
  intros [Hd Hk Hth Hrep Hgate Hord] Ht Hx log' Hnd.
  destruct Hth as [He|(t' & th & He & HRq & Hwp)].
  { rewrite Ht in He. by apply map_non_empty_singleton in He. }
  rewrite Ht in He. apply (f_equal (.!! t)) in He as Hl. rewrite lookup_singleton_eq in Hl.
  symmetry in Hl. apply lookup_singleton_Some in Hl as [-> ->]. simpl in HRq, Hwp.
  destruct Hwp as [Hc Hk'].
  assert (Hg' : ∀ e, e ∈ sys_log s → gate_kept d' (learn g c r) e.1).
  { intros e Hin. eapply gate_kept_call; eauto. apply decode_encode. auto. }
  assert (Hord' : ordered_receipts d' (learn g c r) (sys_log s)) by (by eapply ordered_kept).
  assert (Happ : ∀ p, applied_step c = Some p → d' = sys_disk s ∧
    (rq_scope rq, encode_to_vec (rq_intent rq)) ∈ kn_data g ∧ learn g c r = forget_open g).
  { intros p Hp. destruct c; try discriminate Hp. done. }
  split; simpl.
  - by eapply exec_disk_ok.
  - by eapply learn_known.
  - right. eexists t, _. split; [done|]. split; [done|apply Hk'].
  - intros e [Hin|Hin]%elem_of_app; [auto|].
    destruct (applied_step c); [|by apply elem_of_nil in Hin].
    by apply list_elem_of_singleton in Hin as ->.
  - intros e [Hin|Hin]%elem_of_app; [auto|].
    destruct (applied_step c) as [p|] eqn:Hp; [|by apply elem_of_nil in Hin].
    apply list_elem_of_singleton in Hin as ->. destruct (Happ p eq_refl) as (-> & Hdata & ->).
    left. split; [by apply (kd_data _ _ Hk)|done].
  - destruct (applied_step c) as [p|] eqn:Hp; unfold log'; [|by rewrite app_nil_r].
    destruct (Happ p eq_refl) as (-> & Hdata & Hlearn).
    apply apply_ordered; [by eapply learn_known|by rewrite Hlearn|done| |exact Hnd|done]. auto.
Qed.

Lemma serial_reachable s0 s :
  serial_initial s0 → rtc serial_step s0 s → rtc sys_step s0 s ∧ ∃ g, serial_inv s g.
Proof.
  intros [Hi Hd] Hr.
  cut (∀ s1, rtc sys_step s0 s1 → (∃ g, serial_inv s1 g) → rtc serial_step s1 s →
         rtc sys_step s0 s ∧ ∃ g, serial_inv s g).
  { intros Hcut. apply (Hcut s0); [apply rtc_refl| |done]. exists no_knowledge.
    destruct Hi as [Ht Hl]. split; rewrite ?Hl; try done; auto using no_knowledge_known.
    - by intros e ?%elem_of_nil.
    - by intros e ?%elem_of_nil.
    - intros l1 e1 l2 e2 l3 E. by destruct l1. }
  clear Hr. intros s1 Hreach Hinv Hr. induction Hr as [s|s1 s2 s3 Hs _ IH]; [done|].
  destruct Hinv as [g Hinv].
  assert (Hreach2 : rtc sys_step s0 s2).
  { etrans; [exact Hreach|]. apply serial_sys; [|done].
    destruct (sv_thread _ _ Hinv) as [?|(t & th & ? & _)]; eauto. }
  apply IH; [done|]. destruct (inv_reachable _ _ Hi Hreach2) as [gs Hi2].
  destruct Hs as [s1 t rq He HRq|s1 t rq A c k r d' He Hx|s1].
  - exists no_knowledge. destruct Hinv as [Hdk _ _ Hrep Hgate Hord].
    split; simpl; auto using no_knowledge_known.
    + right. eexists t, _. split; [done|]. split; [done|]. apply gate_execute. by apply decode_encode.
    + intros e Hin. by eapply gate_kept_forget, Hgate.
    + by eapply ordered_forget.
  - exists (learn g c r). eapply serial_inv_call; eauto. apply (iv_once _ _ Hi2).
  - exists no_knowledge. destruct Hinv as [Hdk _ _ Hrep Hgate Hord].
    split; simpl; auto using no_knowledge_known.
    + intros e Hin. by eapply gate_kept_forget, Hgate.
    + by eapply ordered_forget.
Qed.

(** ** Properties *)

(** C5: under the owner lock, whatever fails and whichever processes die, as long as
    the power is not lost, an operation whose effect was applied keeps its resource
    gate, holding exactly its intent, until the receipt of that operation is in its
    file: the whole encoding of a terminal result that names the operation, its
    machine, resource, release and desired state, and has the state, the readback and
    the reason of its kind of receipt. *)
Theorem gate_until_receipt s0 s rq p :
  serial_initial s0 → rtc serial_step s0 s → (rq, p) ∈ sys_log s →
  gate_pending (sys_disk s) rq ∨ has_receipt (sys_disk s) rq.
Proof.
  intros Hi Hr Hin. destruct (serial_reachable _ _ Hi Hr) as [_ [g Hinv]].
  destruct (sv_gate _ _ Hinv _ Hin) as [[? _]|?]; eauto using receipt_held_has.
Qed.

(** C6: under the owner lock and as long as the power is not lost, of two effects
    applied to the same resource the earlier operation has its whole receipt in its
    file, as soon as the second is applied and from then on: a second effect never
    runs over an unresolved one. *)
Theorem effects_on_a_resource_resolved s0 s l1 rq1 p1 l2 rq2 p2 l3 :
  serial_initial s0 → rtc serial_step s0 s →
  sys_log s = l1 ++ (rq1, p1) :: l2 ++ (rq2, p2) :: l3 →
  intent_machine_id (rq_intent rq1) = intent_machine_id (rq_intent rq2) →
  intent_resource_id (rq_intent rq1) = intent_resource_id (rq_intent rq2) →
  has_receipt (sys_disk s) rq1.
Proof.
  intros Hi Hr Hlog Hm Hres. destruct (serial_reachable _ _ Hi Hr) as [_ [g Hinv]].
  eapply receipt_held_has, (sv_order _ _ Hinv _ _ _ _ _ Hlog).
  unfold rq_scope, native_scope_pending_path. simpl. by rewrite Hm, Hres.
Qed.

(** ** Calls of the owner in the executable environment *)

(** A call of the owner whose process ends or dies after [m] calls *)
Definition after_calls obs m (rq : request) (s : system) : system :=
  let '(tr, d') := run_for obs m (execute_protected rq) 0 (sys_disk s) in
  {| sys_disk := d'; sys_threads := ∅;
     sys_log := sys_log s ++ ((λ p, (rq, p)) <$> applied tr) |}.

Lemma run_for_serial obs m rq t p n d log :
  let '(tr, d') := run_for obs m p n d in
  ∃ p', rtc serial_step
    {| sys_disk := d; sys_threads := {[ t := {| th_rq := rq; th_prog := p |} ]}; sys_log := log |}
    {| sys_disk := d'; sys_threads := {[ t := {| th_rq := rq; th_prog := p' |} ]};
       sys_log := log ++ ((λ s, (rq, s)) <$> applied tr) |}.
Proof.
  revert n p d log. induction m as [|m IH]; intros n p d log.
  - destruct p as [a|A c k]; simpl; rewrite app_nil_r; eexists; apply rtc_refl.
  - destruct p as [a|A c k]; [simpl; rewrite app_nil_r; eexists; apply rtc_refl|].
    cbn [run_for]. destruct (answer obs n c d) as [r d1] eqn:Ea.
    pose proof (answer_exec obs n c d) as Hx. rewrite Ea in Hx. simpl in Hx.
    specialize (IH (n + observes c)%nat (k r) d1
      (log ++ match applied_step c with Some p => [(rq, p)] | None => [] end)).
    destruct (run_for obs m (k r) _ d1) as [tr d2]. destruct IH as [p' IH]. exists p'.
    eapply rtc_l; [eapply (serial_call _ t rq A c k r d1); [done|exact Hx]|].
    cbn [sys_disk sys_threads sys_log].
    replace (log ++ ((λ s, (rq, s)) <$> applied (Ev c r :: tr))) with
      ((log ++ match applied_step c with Some p => [(rq, p)] | None => [] end)
       ++ ((λ s, (rq, s)) <$> applied tr)); [exact IH|].
    rewrite <- app_assoc. f_equal. unfold applied. simpl. by destruct (applied_step c).
Qed.

Lemma after_calls_serial obs m rq s :
  sys_threads s = ∅ → R (rq_intent rq) → rtc serial_step s (after_calls obs m rq s).
Proof.
  intros He HRq. unfold after_calls.
  pose proof (run_for_serial obs m rq 0%nat (execute_protected rq) 0 (sys_disk s) (sys_log s)) as Hr.
  destruct (run_for obs m (execute_protected rq) 0 (sys_disk s)) as [tr d'].
  destruct Hr as [p' Hr]. eapply rtc_l; [by apply (serial_start s 0%nat rq)|].
  etrans; [exact Hr|]. apply rtc_once, (serial_exit {| sys_disk := d'; sys_threads := _;
    sys_log := _ |}).
Qed.

Lemma after_calls_quiet obs m rq s : sys_threads (after_calls obs m rq s) = ∅.
Proof. unfold after_calls. by destruct (run_for _ _ _ _ _) as [? ?]. Qed.
End Gate.

(** ** Witnesses: two signed STOPs of the machine of [JournalSample] *)

Module GateSample.
Import JournalSample.
Definition rq2 : request := rq_for "op-2".
Definition start : system := {| sys_disk := empty_disk; sys_threads := ∅; sys_log := [] |}.
(** Forty calls are more than the operation makes. *)
Definition once : system := after_calls obs 40 rq start.
Definition twice : system := after_calls obs 40 rq2 once.

Lemma twice_log :
  sys_log twice = [] ++ (rq, FleetHostPlannedStep_Stop) :: [] ++
                  (rq2, FleetHostPlannedStep_Stop) :: [].
Proof. vm_compute. reflexivity. Qed.
Lemma start_initial : serial_initial start.
Proof. split; [done|]. intros n h Hn. simpl in Hn. by rewrite lookup_empty in Hn. Qed.
Lemma known_intents : rq_intent rq ∈ intents ∧ rq_intent rq2 ∈ intents.
Proof.
  split; apply elem_of_cons; [by left|]. right. by apply list_elem_of_singleton.
Qed.
Lemma twice_reachable : rtc (serial_step (R := (.∈ intents))) start twice.
Proof.
  transitivity once.
  - exact (after_calls_serial obs 40 rq start eq_refl (proj1 known_intents)).
  - exact (after_calls_serial obs 40 rq2 once (after_calls_quiet obs 40 rq start)
      (proj2 known_intents)).
Qed.

(** Witness of [gate_until_receipt]. *)
Lemma gate_until_receipt_witness :
  gate_pending (sys_disk twice) rq ∨ has_receipt (sys_disk twice) rq.
Proof.
  apply (gate_until_receipt start twice rq FleetHostPlannedStep_Stop).
  - exact start_initial.
  - exact twice_reachable.
  - rewrite twice_log. apply elem_of_cons. left. reflexivity.
Defined.

(** Witness of [effects_on_a_resource_resolved]. *)
Lemma effects_on_a_resource_resolved_witness : has_receipt (sys_disk twice) rq.
Proof.
  apply (effects_on_a_resource_resolved start twice [] rq FleetHostPlannedStep_Stop [] rq2
    FleetHostPlannedStep_Stop []).
  - exact start_initial.
  - exact twice_reachable.
  - exact twice_log.
  - vm_compute. reflexivity.
  - vm_compute. reflexivity.
Defined.
End GateSample.
