(* ===== verification/HostJournalRecovery.v ===== *)
(** * Recovery of an operation whose receipt is already stored

    The receipt of a completed effect and the receipt a RECOVER computes for the
    same operation never agree, so that a gate left behind by a process that died
    between storing its receipt and releasing the gate is not released by any
    later RECOVER. *)

From S2P Require Import Prelude RustStd RustNet HostTypes Concrete ResourceGraph.
From S2P Require Import ResourceGraphFacts ResourceReport HostRegistry ApplyBundle.
From S2P Require Import HostLifecycle HostLifecycleFacts HostPlanner JournalFs HostJournal.
From S2P Require Import HostJournalFacts HostJournalSystem HostJournalGate.

Section Recovery.
Context `{Sha256} `{Ed25519} `{ProductionText}.
Context `{Message FleetHostIntent} `{Message FleetHostResult} `{Message FleetHost}
  `{Message ApplyBundleRequest} `{Message FleetDesiredState} `{Message ReleaseSet}
  `{Message FleetVmDesiredGraph} `{Message FleetResourceHierarchy}
  `{Message FleetVmDesiredNetwork} `{Message FleetVmDesiredResource}
  `{Message FleetVmDualStackNetwork} `{Message Ipv4NetworkObservation}
  `{Message FleetVmResourceReport} `{Message FleetNativeObservation}.

(** The receipt [finish_after_protected_owner_check_once] stores for a step other
    than STOP *)
Definition completion_receipt (intent : FleetHostIntent) (observed_at : Z) : FleetHostResult :=
  result_for intent FleetHostResultState_Verified observed_at true
    FleetHostResultReason_NoFurtherAction.

Lemma recovery_verdict_reason intent original selected bound now observed verdict :
  recovery_verdict intent original selected bound now observed = Ok verdict →
  verdict ≠ FleetHostResultReason_NoFurtherAction.
Proof.
  intros Hv%recovery_verdict_settled ->. unfold settled_verdicts in Hv. by repeat (apply elem_of_cons in Hv as [Hv|Hv]; [discriminate Hv|]); apply elem_of_nil in Hv.
Qed.

Lemma completion_mismatch original t0 t state readback verdict :
  verdict ≠ FleetHostResultReason_NoFurtherAction →
  terminal_mismatch (completion_receipt original t0)
    (result_for original state t readback verdict) original = true.
Proof.
  intros Hne. unfold terminal_mismatch.
  destruct (negb (result_state _ =? _)); [done|].
  destruct (negb (Bool.eqb _ _)); [done|].
  replace (result_reason (completion_receipt original t0) =? _) with false; [done|].
  symmetry. apply Z.eqb_neq. intros E. apply Hne. by destruct verdict.
Qed.

#[local] Opaque result_for terminal_mismatch completion_receipt.

Lemma decode_host_result_receipt b x y :
  decode_host_result b = Ok x → decode b = Some y → x = y.
Proof. unfold decode_host_result. intros Hx Hy. inv_ok Hx. congruence. Qed.

(** C40: a RECOVER of an operation that already stored the receipt of its completed
    effect ends in an error and removes nothing, whatever it observes: the gate stays.
    *)
Theorem stored_receipt_blocks_recovery intent original selected bound now observed verdict
    scope t t0 tr r :
  let receipt := terminal_path (intent_operation_id original) "verified" in
  recovery_verdict intent original selected bound now observed = Ok verdict →
  runs (settle_prior_operation original scope verdict t) tr r →
  (∀ st, Ev (Stat receipt) st ∈ tr → st = Found) →
  (∀ b, Ev (ReadFile receipt) (Some b) ∈ tr →
        decode b = Some (completion_receipt original t0)) →
  is_err r = true ∧ ∀ n x, Ev (RemoveFile n) x ∉ tr.
Proof.
  intros receipt Hne%recovery_verdict_reason Hr Hst Hrd.
  unfold settle_prior_operation in Hr. case_bool_decide as Hv.
  - (* an incomplete verdict conflicts with the receipt *)
    destruct tr as [|e1 tr]; [done|]. destruct Hr as (st1 & -> & Hr).
    rewrite (Hst st1) in * by (by left). destruct tr; simpl in Hr; [subst r|done].
    split; [done|]. intros n x [?|?%elem_of_nil]%elem_of_cons; done.
  - destruct tr as [|e1 tr]; [done|]. destruct Hr as (st1 & -> & Hr).
    destruct (decide (st1 = Found)) as [->|Hn1].
    { destruct tr; simpl in Hr; [subst r|done].
      split; [done|]. intros n x [?|?%elem_of_nil]%elem_of_cons; done. }
    assert (E1 : match st1 with Found => true | _ => false end = false) by (by destruct st1).
    simpl in Hr. rewrite E1 in Hr. simpl in Hr.
    destruct tr as [|e2 tr]; [done|].
    destruct Hr as (st2 & -> & Hr). rewrite (Hst st2) in * by (right; by left).
    destruct tr as [|e3 tr]; [done|]. destruct Hr as (ob & -> & Hr).
    assert (Hend : tr = [] ∧ is_err r = true).
    { destruct ob as [b|]; simpl in Hr; [|by destruct tr; subst].
      destruct (decode_host_result b) as [exact|e] eqn:Ed; simpl in Hr; [|by destruct tr; subst].
      apply (decode_host_result_receipt _ _ (completion_receipt original t0)) in Ed as ->;
        [|apply Hrd; right; right; by left].
      cbn [io_bind prog_bind] in Hr. rewrite completion_mismatch in Hr by done.
      simpl in Hr. by destruct tr; subst. }
    destruct Hend as [-> ->]. split; [done|].
    intros n x. rewrite !elem_of_cons, elem_of_nil. by intros [?|[?|[?|?]]].
Qed.
#[local] Transparent result_for terminal_mismatch completion_receipt.
End Recovery.

Module RecoverySample.
#[local] Existing Instances JournalSample.text JournalSample.release_message
  JournalSample.registry_message JournalSample.host_message.
#[local] Instance other_message A : Message A | 100 := null_message A.
Definition installed : bytes := sha256 [x01].
Definition config : bytes := replicate 32 x08.

Definition intent_for (op : string) (action : FleetHostAction) : FleetHostIntent := {|
  intent_schema_version := 1; intent_machine_id := "pc-1"; intent_kind := 1;
  intent_resource_id := "sing-box"; intent_operation_id := op;
  intent_action := as_i32 action; intent_registry_sha256 := sha256 [x01];
  intent_desired_sha256 := JournalSample.desired; intent_release_set_sha256 := sha256 [x01];
  intent_requested_mode := 0; intent_requested_at_unix := 5;
  intent_network_admission := None |}.
Definition apply_intent := intent_for "op-1" FleetHostAction_Apply.
Definition recover_intent := intent_for "op-2" FleetHostAction_Recover.
Definition intents : list FleetHostIntent := [apply_intent; recover_intent].
#[local] Instance intent_message : Message FleetHostIntent := table_message intents.
#[local] Instance intent_laws : MessageLaws FleetHostIntent (.∈ intents) :=
  table_message_laws _.
#[local] Instance result_message : Message FleetHostResult :=
  table_message [begin_record apply_intent 1100; completion_receipt apply_intent 1100].

Definition observation (configured : bool) : FleetNativeObservation := {|
  obs_schema_version := 1; obs_host_kind := 1; obs_observed_at_unix := 1100;
  obs_owner_state := as_i32 FleetNativeOwnerState_Stopped;
  obs_release_proof := as_i32 FleetNativeReleaseProof_ActivationRecord;
  obs_observed_release_sha256 := installed; obs_runtime_ready := false;
  obs_runtime_ready_proven := true; obs_reason_codes := [];
  obs_vm_recovery_resources := None;
  obs_windows_config_sha256 := if configured then config else replicate 32 x04 |}.

Definition rq_for (intent : FleetHostIntent) : request := {|
  rq_binding := Some {| installed_release_sha256 := installed;
                        expected_config_sha256 := Some config |};
  rq_intent := intent;
  rq_authorization := JournalSample.authorization_with (intent_operation_id intent)
    (ed25519_sign JournalSample.private_key (host_authorization_payload intent
       (JournalSample.authorization_with (intent_operation_id intent) [])));
  rq_registry_pb := [x01]; rq_spec_bytes := JournalSample.spec; rq_release_set_pb := [x01];
  rq_vm_bundle_pb := None; rq_worker_public_key := JournalSample.worker_key;
  rq_machine_id := "pc-1"; rq_owner_kind := 1; rq_now_unix := 1100 |}.
Definition obs (n : nat) : res FleetNativeObservation := Ok (observation (negb (n =? 0)%nat)).

(** The configuration is applied and its receipt synced; the process dies before it
    releases the gate. *)
Definition start : system :=
  {| sys_disk := JournalSample.empty_disk; sys_threads := ∅; sys_log := [] |}.
Definition crashed : system := after_calls obs 29 (rq_for apply_intent) start.
Definition recovery : list event * disk * res FleetHostResult :=
  run (λ _, Ok (observation true)) (execute_protected (rq_for recover_intent)) 0
    (sys_disk crashed).

Example crashed_applied :
  map snd (sys_log crashed) = [FleetHostPlannedStep_Configure] ∧
  file_data (sys_disk crashed) (terminal_path "op-1" "verified") =
    Some (encode_to_vec (completion_receipt apply_intent 1100)).
Proof. vm_compute. split; reflexivity. Qed.
Example recovery_refused : snd recovery = Err "HOST_NATIVE_RECOVERY_TERMINAL_MISMATCH".
Proof. vm_compute. reflexivity. Qed.

(** The settlement inside that RECOVER *)
Definition bound : BoundNativeHostArtifacts := {|
  bound_registry_sha256 := []; bound_desired_sha256 := []; bound_release_set_sha256 := [];
  bound_runtime_release_sha256 := installed |}.
Definition settlement : io unit :=
  settle_prior_operation apply_intent (native_scope_pending_path apply_intent)
    FleetHostResultReason_RecoveredNativeStopped 1100.
Definition three_calls (m n : string) (x : option bytes) : list event :=
  [Ev (Stat m) NotFound; Ev (Stat n) Found; Ev (ReadFile n) x].
Definition settlement_trace : list event :=
  three_calls (terminal_path "op-1" "incomplete") (terminal_path "op-1" "verified")
    (Some (encode_to_vec (completion_receipt apply_intent 1100))).
Lemma runs_of_run {A} (o : nat → res FleetNativeObservation) (p : prog A) n dk tr a :
  run_trace o p n dk = tr → run_result o p n dk = a → runs p tr a.
Proof. intros <- <-. exact (run_runs o p n dk). Qed.
Lemma settlement_runs :
  runs settlement settlement_trace (Err "HOST_NATIVE_RECOVERY_TERMINAL_MISMATCH").
Proof.
  apply (runs_of_run obs settlement 0 (sys_disk crashed)); vm_compute; reflexivity.
Qed.

Definition stat_of (e : event) : option (string * stat) :=
  match e with
  | @Ev R c r => match c in call R return R → option (string * stat) with
                 | Stat n => λ r, Some (n, r) | _ => λ _, None end r
  end.
Definition read_of (e : event) : option (string * option bytes) :=
  match e with
  | @Ev R c r => match c in call R return R → option (string * option bytes) with
                 | ReadFile n => λ r, Some (n, r) | _ => λ _, None end r
  end.
Lemma three_stats m n x st : m ≠ n → Ev (Stat n) st ∈ three_calls m n x → st = Found.
Proof.
  unfold three_calls. rewrite !elem_of_cons, elem_of_nil.
  intros Hne [E|[E|[E|[]]]]; apply (f_equal stat_of) in E; simpl in E; congruence.
Qed.
Lemma three_reads m n x (P : bytes → Prop) b :
  P x → Ev (ReadFile n) (Some b) ∈ three_calls m n (Some x) → P b.
Proof.
  unfold three_calls. rewrite !elem_of_cons, elem_of_nil.
  intros HP [E|[E|[E|[]]]]; apply (f_equal read_of) in E; simpl in E; congruence.
Qed.

Lemma names_differ : terminal_path "op-1" "incomplete" ≠ terminal_path "op-1" "verified".
Proof. intros E. apply (f_equal String.length) in E. vm_compute in E. discriminate E. Qed.
Lemma receipt_decodes :
  decode (encode_to_vec (completion_receipt apply_intent 1100))
  = Some (completion_receipt apply_intent 1100).
Proof. vm_compute. reflexivity. Qed.

(** Witness of [stored_receipt_blocks_recovery]. *)
Lemma stored_receipt_blocks_recovery_witness :
  is_err (@Err string unit "HOST_NATIVE_RECOVERY_TERMINAL_MISMATCH") = true ∧
  ∀ n x, Ev (RemoveFile n) x ∉ settlement_trace.
Proof.
  apply (stored_receipt_blocks_recovery recover_intent apply_intent JournalSample.host bound
    1100 (observation true) FleetHostResultReason_RecoveredNativeStopped
    (native_scope_pending_path apply_intent) 1100 1100).
  - vm_compute. reflexivity.
  - exact settlement_runs.
  - intros st Hst. exact (three_stats _ _ _ st names_differ Hst).
  - intros b Hb. exact (three_reads _ _ _ (λ b, decode b = Some (completion_receipt apply_intent 1100))
      b receipt_decodes Hb).
Defined.
End RecoverySample.
