(* ===== verification/PlanAuthority.v ===== *)
(** * Plan authority

    Models [edge-controller-core/src/lifecycle.rs]: every provider lifecycle turns
    its desired state, its observation and its plan into one authority digest; a
    mutation is executed only under the digest of exactly that material. *)

From S2P Require Import Prelude RustStd HostTypes Concrete Json.

Definition PLAN_AUTHORITY_SCHEMA : Z := 1.

Inductive PlanDisposition : Set := Noop | Mutate | Blocked.
#[global] Instance PlanDisposition_eq_dec : EqDecision PlanDisposition.
Proof. solve_decision. Defined.
(** [rename_all = "SCREAMING_SNAKE_CASE"] *)
Definition disposition_name (d : PlanDisposition) : string :=
  match d with Noop => "NOOP" | Mutate => "MUTATE" | Blocked => "BLOCKED" end.

Inductive VerificationState : Set := Converged | MutationRequired | VerificationBlocked.

Record PlanAuthority : Type := {
  schema_version : Z;
  domain : string;
  desired_digest : string;
  observed_digest : string;
  plan_digest : string;
  authority_digest : string
}.

Record AuthorizedPlan (P : Type) : Type := {
  disposition : PlanDisposition;
  authority : PlanAuthority;
  plan : P
}.
Arguments disposition {P} _.
Arguments authority {P} _.
Arguments plan {P} _.

Definition verification_state {P} (p : AuthorizedPlan P) : VerificationState :=
  match disposition p with
  | Noop => Converged
  | Mutate => MutationRequired
  | Blocked => VerificationBlocked
  end.

Inductive PlanAuthorityError : Type :=
| InvalidDomain
| Serialization (detail : string)
| InvalidDigest
| Stale (authorized current : string).

(** [impl Display for PlanAuthorityError] *)
Definition authority_error_text (e : PlanAuthorityError) : string :=
  match e with
  | InvalidDomain => "plan authority domain must be a bounded lowercase ASCII identifier"
  | Serialization detail =>
      "failed to canonicalize plan authority material: " +:+ detail
  | InvalidDigest => "plan authority digest must be 64 lowercase hexadecimal characters"
  | Stale authorized current =>
      "plan authority is stale: authorized=" +:+ authorized +:+ " current=" +:+ current
  end.

Record AuthorityMaterial : Type := {
  material_schema_version : Z;
  material_domain : string;
  material_disposition : PlanDisposition;
  material_desired_digest : string;
  material_observed_digest : string;
  material_plan_digest : string
}.

Definition material_fields (m : AuthorityMaterial) : list (string * Value) :=
  [("schema_version", VNumber (Z.to_N (material_schema_version m)));
   ("domain", VString (material_domain m));
   ("disposition", VString (disposition_name (material_disposition m)));
   ("desired_digest", VString (material_desired_digest m));
   ("observed_digest", VString (material_observed_digest m));
   ("plan_digest", VString (material_plan_digest m))].
#[global] Instance material_serialize : Serialize AuthorityMaterial :=
  λ m, Ok (obj (material_fields m)).

Definition domain_char (c : ascii) : bool :=
  is_ascii_lowercase c || is_ascii_digit c || one_of "-_." c.
Definition validate_domain (domain : string) : result PlanAuthorityError unit :=
  fail_if (str_empty domain || (96 <? slen domain) || negb (str_eqb (trim domain) domain)
           || negb (str_all domain_char domain))
    InvalidDomain.

Definition is_sha256_hex (value : string) : bool :=
  (slen value =? 64)
  && str_all (λ c, is_ascii_hexdigit c && negb (is_ascii_uppercase c)) value.

Section Authority.
Context `{Sha256} `{SerdeJson}.

Definition sha256_hex (b : bytes) : string := hex_of_bytes (sha256 b).

(** The bytes [canonical_digest] hashes *)
Definition canonical_bytes {T} `{Serialize T} (value : T) : result PlanAuthorityError bytes :=
  v ← map_err Serialization (to_value value);
  map_err Serialization (json_to_vec (canonicalize v)).

Definition canonical_digest {T} `{Serialize T} (value : T)
    : result PlanAuthorityError string :=
  b ← canonical_bytes value; Ok (sha256_hex b).

Definition authorize_plan {D O P} `{Serialize D} `{Serialize O} `{Serialize P}
    (dom : string) (desired : D) (observed : O) (pl : P) (disp : PlanDisposition)
    : result PlanAuthorityError (AuthorizedPlan P) :=
  validate_domain dom ;;
  desired_d ← canonical_digest desired;
  observed_d ← canonical_digest observed;
  plan_d ← canonical_digest pl;
  authority_d ← canonical_digest {|
    material_schema_version := PLAN_AUTHORITY_SCHEMA; material_domain := dom;
    material_disposition := disp; material_desired_digest := desired_d;
    material_observed_digest := observed_d; material_plan_digest := plan_d |};
  Ok {| disposition := disp;
        authority := {| schema_version := PLAN_AUTHORITY_SCHEMA; domain := dom;
                        desired_digest := desired_d; observed_digest := observed_d;
                        plan_digest := plan_d; authority_digest := authority_d |};
        plan := pl |}.

Definition verify_exact_authority (authorized_digest : string) (current : PlanAuthority)
    : result PlanAuthorityError unit :=
  fail_if (negb (is_sha256_hex authorized_digest)) InvalidDigest ;;
  fail_if (negb (str_eqb (authority_digest current) authorized_digest))
    (Stale authorized_digest (authority_digest current)).

(** ** The digest binds the material *)

(** Two values with the same JSON, up to the order of object entries *)
Definition same_json {A B} `{Serialize A} `{Serialize B} (a : A) (b : B) : Prop :=
  ∃ v w, to_value a = Ok v ∧ to_value b = Ok w ∧ canonicalize v = canonicalize w.
(** The canonical texts of two values collide under SHA-256. *)
Definition texts_collide {A B} `{Serialize A} `{Serialize B} (a : A) (b : B) : Prop :=
  ∃ x y, canonical_bytes a = Ok x ∧ canonical_bytes b = Ok y ∧ sha256_collision x y.

Definition material_of {P} (a : AuthorizedPlan P) : AuthorityMaterial := {|
  material_schema_version := schema_version (authority a);
  material_domain := domain (authority a); material_disposition := disposition a;
  material_desired_digest := desired_digest (authority a);
  material_observed_digest := observed_digest (authority a);
  material_plan_digest := plan_digest (authority a) |}.

Context `{!JsonValueLaws}.

Lemma canonical_digest_inj {A B} `{Serialize A} `{Serialize B} (a : A) (b : B) d :
  canonical_digest a = Ok d → canonical_digest b = Ok d → same_json a b ∨ texts_collide a b.
Proof.
  unfold canonical_digest. intros Ha Hb. inv_ok Ha. inv_ok Hb.
  apply hex_of_bytes_inj, sha256_eq in Hb as [->|Hc].
  - left. unfold canonical_bytes in *. inv_ok Hm. inv_ok Hm0.
    exists x0, x1. split_and!; [done..|]. eapply json_to_vec_inj; eauto.
  - right. exists x, x0. split_and!; [done..|]. by destruct Hc as [? ?]; split.
Qed.

Lemma disposition_name_inj a b : disposition_name a = disposition_name b → a = b.
Proof. by destruct a, b. Qed.

Lemma same_material m n :
  material_schema_version m = material_schema_version n →
  same_json m n → m = n.
Proof.
  intros Hs (v & w & [= <-] & [= <-] & E).
  apply canonicalize_obj_inj in E; [|done|by vm_compute; repeat constructor; set_solver].
  destruct m, n. simpl in *. injection E as _ E2 E3 E4 E5 E6.
  apply disposition_name_inj in E3. by subst.
Qed.

Lemma authorize_plan_Ok {D O P} `{Serialize D} `{Serialize O} `{Serialize P}
    dom (d : D) (o : O) (p : P) disp a :
  authorize_plan dom d o p disp = Ok a →
  domain (authority a) = dom ∧ disposition a = disp ∧ plan a = p ∧
  schema_version (authority a) = PLAN_AUTHORITY_SCHEMA ∧
  canonical_digest d = Ok (desired_digest (authority a)) ∧
  canonical_digest o = Ok (observed_digest (authority a)) ∧
  canonical_digest p = Ok (plan_digest (authority a)) ∧
  canonical_digest (material_of a) = Ok (authority_digest (authority a)).
Proof. unfold authorize_plan. intros E. inv_ok E. by split_and!. Qed.

Lemma verify_exact_authority_Ok digest a :
  verify_exact_authority digest a = Ok tt → authority_digest a = digest.
Proof. unfold verify_exact_authority. intros E. inv_ok E. by reflect_in E. Qed.

Lemma authority_digest_hex dom {D O P} `{Serialize D} `{Serialize O} `{Serialize P}
    (de : D) (ob : O) (pl : P) disp a :
  authorize_plan dom de ob pl disp = Ok a → is_sha256_hex (authority_digest (authority a)) = true.
Proof.
  intros (_ & _ & _ & _ & _ & _ & _ & E)%authorize_plan_Ok. unfold canonical_digest in E.
  inv_ok E. rewrite <- E. unfold is_sha256_hex, sha256_hex. apply andb_true. split.
  - apply Z.eqb_eq. unfold slen. by rewrite length_hex_of_bytes, sha256_length.
  - eapply str_all_impl; [|apply hex_of_bytes_lower_hex]. intros c.
    unfold is_lower_hex, is_ascii_hexdigit, is_ascii_uppercase, is_ascii_digit, between.
    intros [Hc|Hc]%orb_true_iff; reflect_in Hc; apply andb_true; split;
      rewrite ?orb_true_iff, ?negb_true, ?andb_true, ?andb_false_iff, ?Z.leb_le, ?Z.leb_gt; lia.
Qed.
(** The digest of an authorization is accepted for it. *)
Lemma verify_own_authority dom {D O P} `{Serialize D} `{Serialize O} `{Serialize P}
    (de : D) (ob : O) (pl : P) disp a :
  authorize_plan dom de ob pl disp = Ok a →
  verify_exact_authority (authority_digest (authority a)) (authority a) = Ok tt.
Proof.
  intros Ha. unfold verify_exact_authority. rewrite (authority_digest_hex _ _ _ _ _ _ Ha).
  simpl. by rewrite (proj2 (str_eqb_true _ _) eq_refl).
Qed.

(** Authorizing succeeds for material that serializes. *)
Lemma canonical_digest_total {T} `{Serialize T} (t : T) v :
  to_value t = Ok v → ∃ digest, canonical_digest t = Ok digest.
Proof.
  intros Hv. destruct (json_to_vec_total (canonicalize v)) as [b Hb].
  exists (sha256_hex b). unfold canonical_digest, canonical_bytes. by rewrite Hv; simpl; rewrite Hb.
Qed.
Lemma authorize_plan_total {D O P} `{Serialize D} `{Serialize O} `{Serialize P}
    dom (d : D) (o : O) (p : P) disp vd vo vp :
  validate_domain dom = Ok tt → to_value d = Ok vd → to_value o = Ok vo → to_value p = Ok vp →
  ∃ a, authorize_plan dom d o p disp = Ok a.
Proof.
  intros Hdom (dd & Hd)%canonical_digest_total (od & Ho)%canonical_digest_total
    (pd & Hp)%canonical_digest_total.
  unfold authorize_plan. rewrite Hdom, Hd, Ho, Hp. simpl.
  edestruct (canonical_digest_total (T := AuthorityMaterial)) as [ad Ha]; [reflexivity|].
  rewrite Ha. simpl. by eauto.
Qed.

Lemma authorize_plan_accepted {D O P} `{Serialize D} `{Serialize O} `{Serialize P}
    dom (d : D) (o : O) (p : P) disp vd vo vp :
  validate_domain dom = Ok tt → to_value d = Ok vd → to_value o = Ok vo → to_value p = Ok vp →
  ∃ a, authorize_plan dom d o p disp = Ok a ∧
    verify_exact_authority (authority_digest (authority a)) (authority a) = Ok tt.
Proof.
  intros Hdom Hd Ho Hp.
  destruct (authorize_plan_total dom d o p disp vd vo vp Hdom Hd Ho Hp) as [a Ha].
  exists a. exact (conj Ha (verify_own_authority _ _ _ _ _ _ Ha)).
Qed.

(** A plan whose authority digest was granted for other material is refused: if the
    digest of one authorization is accepted for another, both were made for the same
    domain and disposition and for the same desired state, observation and plan up to
    the order of JSON entries, unless two of the hashed texts are a SHA-256 collision.
    *)
Theorem authority_binds {D O P D' O' P'} `{Serialize D} `{Serialize O} `{Serialize P}
    `{Serialize D'} `{Serialize O'} `{Serialize P'}
    dom (d : D) (o : O) (p : P) disp a dom' (d' : D') (o' : O') (p' : P') disp' a' :
  authorize_plan dom d o p disp = Ok a →
  authorize_plan dom' d' o' p' disp' = Ok a' →
  verify_exact_authority (authority_digest (authority a)) (authority a') = Ok tt →
  (dom = dom' ∧ disp = disp' ∧ same_json d d' ∧ same_json o o' ∧ same_json p p') ∨
  texts_collide d d' ∨ texts_collide o o' ∨ texts_collide p p' ∨
  texts_collide (material_of a) (material_of a').
Proof.
  intros (Ed & Edi & _ & Es & Dd & Do & Dp & Dm)%authorize_plan_Ok.
  intros (Ed' & Edi' & _ & Es' & Dd' & Do' & Dp' & Dm')%authorize_plan_Ok.
  unfold verify_exact_authority. intros E. inv_ok E. reflect_in E. rewrite E in Dm'.
  destruct (canonical_digest_inj _ _ _ Dm Dm') as [Hmat|?]; [|by eauto].
  apply same_material in Hmat; [|simpl; congruence]. unfold material_of in Hmat.
  injection Hmat as _ Hdom Hdisp E1 E2 E3. rewrite <- E1 in Dd'. rewrite <- E2 in Do'.
  rewrite <- E3 in Dp'.
  destruct (canonical_digest_inj _ _ _ Dd Dd') as [?|?]; [|by eauto].
  destruct (canonical_digest_inj _ _ _ Do Do') as [?|?]; [|by eauto].
  destruct (canonical_digest_inj _ _ _ Dp Dp') as [?|?]; [|by eauto].
  left. split_and!; congruence || done.
Qed.
End Authority.

Module AuthoritySample.
Definition desired : Value := obj [("record", VString "edge.example.com")].
Definition observed : Value := obj [("records", VArray [])].
Definition create : Value :=
  VObject [("ip", VString "203.0.113.10"); ("action", VString "CREATE")].
Definition create' : Value :=
  VObject [("action", VString "CREATE"); ("ip", VString "203.0.113.10")].
Definition authorized (p : Value) : result PlanAuthorityError (AuthorizedPlan Value) :=
  authorize_plan "cloudflare_dns" desired observed p Mutate.
Definition granted (p : Value) : AuthorizedPlan Value :=
  match authorized p with Ok a => a | Err _ =>
    {| disposition := Blocked; plan := p;
       authority := {| schema_version := 0; domain := ""; desired_digest := "";
         observed_digest := ""; plan_digest := ""; authority_digest := "" |} |} end.

Lemma authorized_ok p : is_ok (authorized p) = true → authorized p = Ok (granted p).
Proof. unfold granted. by destruct (authorized p). Qed.

(** Witness of [authority_binds]: two plans that differ in the order of their
    entries. *)
Lemma authority_binds_witness :
  ("cloudflare_dns" = "cloudflare_dns" ∧ Mutate = Mutate ∧ same_json desired desired ∧
   same_json observed observed ∧ same_json create create') ∨
  texts_collide desired desired ∨ texts_collide observed observed ∨
  texts_collide create create' ∨
  texts_collide (material_of (granted create)) (material_of (granted create')).
Proof.
  apply (authority_binds "cloudflare_dns" desired observed create Mutate (granted create)
    "cloudflare_dns" desired observed create' Mutate (granted create')).
  - apply authorized_ok. vm_compute. reflexivity.
  - apply authorized_ok. vm_compute. reflexivity.
  - vm_compute. reflexivity.
Defined.
End AuthoritySample.
