(* ===== verification/LifecycleCommon.v ===== *)
(** * Shared parts of the provider lifecycles

    The error type and the helpers that the DNS, VPC and Mesh lifecycles of
    [edge-controller-core] each declare in the same words. *)

From S2P Require Import Prelude RustStd RustNet HostTypes Json PlanAuthority.

(** [DnsLifecycleError], [VpcLifecycleError], [MeshLifecycleError] *)
Inductive LifecycleError : Type :=
| JsonError (message : string)
| UnsupportedSchema (schema : Z)
| Validation (message : string)
| Ambiguous (message : string)
| Conflict (message : string)
| SerializationError (message : string).
Abbreviation lres := (result LifecycleError).

(** [impl Display]; [system] is the name in the text of an unsupported schema. *)
Definition lifecycle_error_text (system : string) (e : LifecycleError) : string :=
  match e with
  | JsonError m | Validation m | Ambiguous m | Conflict m | SerializationError m => m
  | UnsupportedSchema schema => "unsupported " +:+ system +:+ " lifecycle schema " +:+ dec schema
  end.

(** [serde_json::from_str] with the derived [Deserialize] of a type *)
Class FromJson (A : Type) := from_str : string → result string A.

Definition identifier_char (c : ascii) : bool := is_ascii_alphanumeric c || one_of "-_" c.

Definition validate_identifier (label value : string) (max_len : Z) : lres unit :=
  fail_if (str_empty value || (max_len <? slen value) || negb (str_all identifier_char value))
    (Validation (label +:+ " must be 1..=" +:+ dec max_len
       +:+ " ASCII alphanumeric, '-' or '_' characters")).

(** [is_sha256_hex] of these modules *)
Definition lower_hex64 (value : string) : bool :=
  (slen value =? 64) && str_all is_lower_hex value.

(** [Option<String>] in JSON *)
Definition opt_string (o : option string) : Value :=
  match o with Some s => VString s | None => VNull end.

(** [Ipv4Addr::is_unspecified] and the other address classes *)
Definition is_unspecified (ip : Ipv4Addr) : bool := bool_decide (ip = ipv4 0 0 0 0).
Definition is_loopback (ip : Ipv4Addr) : bool := oct0 ip =? 127.
Definition is_multicast (ip : Ipv4Addr) : bool := (224 <=? oct0 ip) && (oct0 ip <=? 239).
Definition is_broadcast (ip : Ipv4Addr) : bool := bool_decide (ip = ipv4 255 255 255 255).
Definition is_private (ip : Ipv4Addr) : bool :=
  (oct0 ip =? 10)
  || (oct0 ip =? 172) && (16 <=? oct1 ip) && (oct1 ip <=? 31)
  || (oct0 ip =? 192) && (oct1 ip =? 168).

(** The text of [AddrParseError] *)
Definition ipv4_error : string := "invalid IPv4 address syntax".
Definition ip_error : string := "invalid IP address syntax".

(** [serde_json::to_vec] and [sha256_hex] of the cleanup material *)
Definition digest_of_value `{Sha256} `{SerdeJson} (value : Value) : lres string :=
  b ← map_err SerializationError (json_to_vec value); Ok (sha256_hex b).

(** [uN::MAX << n], with [w] the width of the type *)
Definition uint_mask (w n : Z) : Z := Z.land (Z.shiftl (2 ^ w - 1) n) (2 ^ w - 1).
Definition u32_mask (n : Z) : Z := uint_mask 32 n.
Definition u128_mask (n : Z) : Z := uint_mask 128 n.

Section DigestFacts.
Context `{Sha256} `{SerdeJson} `{!JsonValueLaws}.

Lemma digest_of_value_total v : ∃ d, digest_of_value v = Ok d.
Proof.
  destruct (json_to_vec_total v) as [b Hb]. exists (sha256_hex b).
  unfold digest_of_value. by rewrite Hb.
Qed.

(** The JSON texts of two values collide under SHA-256. *)
Definition values_collide (v w : Value) : Prop :=
  ∃ x y, json_to_vec v = Ok x ∧ json_to_vec w = Ok y ∧ sha256_collision x y.

Lemma digest_of_value_inj v w d :
  digest_of_value v = Ok d → digest_of_value w = Ok d → v = w ∨ values_collide v w.
Proof.
  unfold digest_of_value. intros Hv Hw. inv_ok Hv. inv_ok Hw.
  apply hex_of_bytes_inj, sha256_eq in Hw as [->|[Hne Hc]].
  - left. by eapply json_to_vec_inj.
  - right. exists x, x0. split_and!; [done..|]. split; congruence.
Qed.

Lemma digest_hex v d : digest_of_value v = Ok d → lower_hex64 d = true.
Proof.
  unfold digest_of_value. intros Hv. inv_ok Hv. unfold lower_hex64, sha256_hex.
  rewrite hex_of_bytes_lower_hex. unfold slen. rewrite length_hex_of_bytes, sha256_length. done.
Qed.
End DigestFacts.

(** An object determines the values of its fields. *)
Lemma obj_inj fs gs :
  map fst fs = map fst gs → NoDup (map fst fs) → obj fs = obj gs → fs = gs.
Proof.
  intros Hk Hn [= E]. apply fields_perm_eq; [done..|].
  rewrite <- (obj_entries_perm fs) by done. rewrite E.
  apply obj_entries_perm. by rewrite <- Hk.
Qed.
Ltac distinct_keys := cbn; repeat constructor; set_solver.

Lemma opt_string_inj a b : opt_string a = opt_string b → a = b.
Proof. by destruct a, b; simpl; intros [=]; subst. Qed.

(** ** Prefix masks *)

Section Masks.

Lemma uint_mask_spec w k : 0 ≤ k ≤ w → uint_mask w k = 2 ^ w - 2 ^ k.
Proof.
  intros Hk. unfold uint_mask. replace (2 ^ w - 1) with (Z.ones w) by (rewrite Z.ones_equiv; lia).
  rewrite Z.land_ones by lia. rewrite Z.shiftl_mul_pow2 by lia. rewrite Z.ones_equiv.
  assert (0 < 2 ^ k) by (apply Z.pow_pos_nonneg; lia).
  assert (2 ^ k ≤ 2 ^ w) by (apply Z.pow_le_mono_r; lia).
  replace (Z.pred (2 ^ w) * 2 ^ k) with ((2 ^ w - 2 ^ k) + (2 ^ k - 1) * 2 ^ w) by lia.
  rewrite Z_mod_plus_full. apply Z.mod_small. lia.
Qed.

(** Masking an address with a prefix clears its host part. *)
Lemma land_uint_mask w x k :
  0 ≤ x < 2 ^ w → 0 ≤ k ≤ w → Z.land x (uint_mask w k) = x - x mod 2 ^ k.
Proof.
  intros Hx Hk. assert (Hm : uint_mask w k = Z.ldiff (Z.ones w) (Z.ones k)).
  { rewrite uint_mask_spec by done. rewrite <- Z.sub_nocarry_ldiff.
    - rewrite !Z.ones_equiv. lia.
    - apply Z.bits_inj'. intros n Hn.
      rewrite Z.ldiff_spec, Z.bits_0, !Z.testbit_ones_nonneg by lia.
      destruct (Z.ltb_spec n k), (Z.ltb_spec n w); lia || done. }
  rewrite Hm. assert (Hl : Z.land x (Z.ldiff (Z.ones w) (Z.ones k)) = Z.ldiff x (Z.ones k)).
  { apply Z.bits_inj'. intros n Hn.
    rewrite Z.land_spec, !Z.ldiff_spec, !Z.testbit_ones_nonneg by lia.
    destruct (Z.ltb_spec n w) as [|Hnw]; [done|].
    assert (Z.testbit x n = false) as ->; [|done].
    destruct (decide (x = 0)) as [->|]; [apply Z.bits_0|].
    apply Z.bits_above_log2; [lia|]. apply Z.lt_le_trans with w; [|done].
    apply Z.log2_lt_pow2; lia. }
  rewrite Hl, Z.ldiff_ones_r by lia. rewrite Z.shiftl_mul_pow2, Z.shiftr_div_pow2 by lia.
  assert (0 < 2 ^ k) by (apply Z.pow_pos_nonneg; lia).
  pose proof (Z.div_mod x (2 ^ k)). lia.
Qed.
End Masks.
