(* ===== verification/Service.v ===== *)
(** * Services: programs over provider calls

    The orchestrator's services are [async] functions over a provider trait. A
    service is a program whose nodes are the trait's methods; an execution is the
    trace of calls with their answers ([runs]), and a provider with a state is a
    handler that answers them ([exec]). *)

From S2P Require Import Prelude.

Section Service.
Context {C : Type → Type}.

Inductive service (A : Type) : Type :=
| Return (a : A)
| Invoke {R : Type} (c : C R) (k : R → service A).
#[global] Arguments Return {A} a.
#[global] Arguments Invoke {A R} c k.

Fixpoint service_bind {A B} (p : service A) (f : A → service B) : service B :=
  match p with
  | Return a => f a
  | Invoke c k => Invoke c (λ r, service_bind (k r) f)
  end.

(** A call with its answer *)
Inductive exchange : Type :=
| Exchange {R : Type} (c : C R) (r : R).

(** [tr] is a complete execution of [p] that returns [a]. *)
Fixpoint runs {A} (p : service A) (tr : list exchange) (a : A) : Prop :=
  match p, tr with
  | Return x, [] => a = x
  | Invoke c k, e :: tr => ∃ r, e = Exchange c r ∧ runs (k r) tr a
  | _, _ => False
  end.

Lemma runs_return {A} (x : A) tr a : runs (Return x) tr a ↔ tr = [] ∧ a = x.
Proof. destruct tr; simpl; naive_solver. Qed.
Lemma runs_invoke {A R} (c : C R) (k : R → service A) tr a :
  runs (Invoke c k) tr a ↔ ∃ r tr', tr = Exchange c r :: tr' ∧ runs (k r) tr' a.
Proof. destruct tr; simpl; naive_solver. Qed.
Lemma runs_bind {A B} (p : service A) (f : A → service B) tr b :
  runs (service_bind p f) tr b ↔ ∃ a t1 t2, tr = t1 ++ t2 ∧ runs p t1 a ∧ runs (f a) t2 b.
Proof.
  revert tr. induction p as [x|R c k IH]; intros tr; cbn [service_bind].
  - split.
    + intros Hf. exists x, [], tr. split_and!; [done|by apply runs_return|done].
    + intros (a & t1 & t2 & -> & [-> ->]%runs_return & Hf). done.
  - rewrite runs_invoke. split.
    + intros (r & tr' & -> & (a & t1 & t2 & -> & ? & ?)%IH).
      exists a, (Exchange c r :: t1), t2. split_and!; [done|apply runs_invoke; eauto|done].
    + intros (a & t1 & t2 & -> & (r & t & -> & ?)%runs_invoke & ?).
      exists r, (t ++ t2). split; [done|]. apply IH. eauto 8.
Qed.

(** A provider with state [S] answers the calls. *)
Section Handler.
Context {S : Type} (answer : ∀ R, C R → S → R * S).

Fixpoint exec {A} (p : service A) (s : S) : A * S :=
  match p with
  | Return a => (a, s)
  | Invoke c k => let '(r, s') := answer _ c s in exec (k r) s'
  end.
Fixpoint exec_trace {A} (p : service A) (s : S) : list exchange :=
  match p with
  | Return _ => []
  | Invoke c k => let '(r, s') := answer _ c s in Exchange c r :: exec_trace (k r) s'
  end.

Lemma exec_runs {A} (p : service A) s : runs p (exec_trace p s) (exec p s).1.
Proof.
  revert s. induction p as [x|R c k IH]; intros s; simpl; [done|].
  destruct (answer R c s) as [r s']. simpl. exists r. eauto.
Qed.
Lemma exec_bind {A B} (p : service A) (f : A → service B) s :
  exec (service_bind p f) s = let '(a, s') := exec p s in exec (f a) s'.
Proof.
  revert s. induction p as [x|R c k IH]; intros s; simpl; [done|].
  destruct (answer R c s) as [r s']. apply IH.
Qed.
End Handler.
End Service.
Arguments service C A : clear implicits.
Arguments exchange C : clear implicits.

(** ** Fallible services: [Result] in the program *)

Definition fservice (C : Type → Type) (E A : Type) : Type := service C (result E A).

#[global] Instance fservice_ret {C E} : MRet (fservice C E) := λ A a, Return (Ok a).
#[global] Instance fservice_bind {C E} : MBind (fservice C E) := λ A B f p,
  service_bind p (λ r, match r with Ok a => f a | Err e => Return (Err e) end).

(** A pure step of a service *)
Definition pure_step {C E A} (r : result E A) : fservice C E A := Return r.
(** A call whose own failure is a value of the program *)
Definition invoke {C E R} (c : C R) : fservice C E R := Invoke c (λ r, Return (Ok r)).
(** A call whose failure is the failure of the service ([.await?]) *)
Definition invoke_res {C E R} (c : C (result E R)) : fservice C E R := Invoke c Return.

Section FallibleFacts.
Context {C : Type → Type} {E : Type}.

Lemma runs_pure {A B} (r : result E A) (f : A → fservice C E B) tr b :
  runs (pure_step r ≫= f) tr b →
  (∃ e, r = Err e ∧ tr = [] ∧ b = Err e) ∨ (∃ a, r = Ok a ∧ runs (f a) tr b).
Proof.
  destruct r; simpl; [by eauto|]. intros [-> ->]%runs_return. eauto.
Qed.
Lemma runs_fbind {A B} (p : fservice C E A) (f : A → fservice C E B) tr b :
  runs (p ≫= f) tr b →
  (∃ e, runs p tr (Err e) ∧ b = Err e) ∨
  (∃ a t1 t2, tr = t1 ++ t2 ∧ runs p t1 (Ok a) ∧ runs (f a) t2 b).
Proof.
  intros ([a|e] & t1 & t2 & -> & Hp & Hf)%runs_bind; [by eauto 10|].
  apply runs_return in Hf as [-> ->]. rewrite app_nil_r. eauto.
Qed.
End FallibleFacts.

Lemma exec_fbind {C : Type → Type} {E S A B} (answer : ∀ R, C R → S → R * S)
    (p : fservice C E A) (f : A → fservice C E B) s :
  exec answer (p ≫= f) s =
  let '(r, s') := exec answer p s in
  match r with Ok a => exec answer (f a) s' | Err e => (Err e, s') end.
Proof.
  unfold mbind, fservice_bind. rewrite exec_bind.
  destruct (exec answer p s) as [[a|e] s']; done.
Qed.
Lemma exec_pure {C : Type → Type} {E S A B} (answer : ∀ R, C R → S → R * S)
    (a : A) (f : A → fservice C E B) s :
  exec answer (pure_step (Ok a) ≫= f) s = exec answer (f a) s.
Proof. done. Qed.
Lemma exec_ret {C : Type → Type} {E S A} (answer : ∀ R, C R → S → R * S) (a : A) s :
  exec answer (mret a : fservice C E A) s = (Ok a, s).
Proof. done. Qed.
Lemma exec_call {C : Type → Type} {E S R B} (answer : ∀ R, C R → S → R * S)
    (c : C R) (f : R → fservice C E B) s :
  exec answer (invoke c ≫= f) s = let '(r, s') := answer R c s in exec answer (f r) s'.
Proof. done. Qed.

(** ** What the calls of a service change

    A class says which calls of a provider trait are mutations. [within ms p] bounds
    the mutations of every run of [p] by [ms], whatever the provider answers; it
    composes along the shape of the program, and [quiet] programs mutate nothing. *)

Class Mutates (C : Type → Type) (M : Type) := call_mutation : ∀ {R}, C R → option M.
#[global] Hint Mode Mutates ! - : typeclass_instances.

Section Traces.
Context {C : Type → Type} {M : Type} `{HM : Mutates C M}.

Definition mutation_of (e : exchange C) : option M :=
  match e with Exchange c _ => call_mutation c end.
Definition mutations (tr : list (exchange C)) : list M := omap mutation_of tr.

Lemma mutations_app t1 t2 : mutations (t1 ++ t2) = mutations t1 ++ mutations t2.
Proof. apply omap_app. Qed.
Lemma mutations_cons {R} (c : C R) r tr :
  mutations (Exchange c r :: tr) = option_list (call_mutation c) ++ mutations tr.
Proof. unfold mutations. cbn. by destruct (call_mutation c). Qed.
Lemma mutations_one {R} (c : C R) r m t1 t2 :
  call_mutation c = Some m → mutations t1 = [] → mutations t2 = [] →
  mutations (t1 ++ Exchange c r :: t2) = [m].
Proof. intros Hc H1 H2. by rewrite mutations_app, mutations_cons, H1, H2, Hc. Qed.

(** Every run of [p] makes, in this order, at most the mutations [ms]. *)
Definition within {A} (ms : list M) (p : service C A) : Prop :=
  ∀ tr a, runs p tr a → mutations tr `sublist_of` ms.

Section Within.
Context {A B : Type}.

Lemma within_return ms (a : A) : within ms (Return a).
Proof. intros tr b [-> _]%runs_return. apply sublist_nil_l. Qed.
Lemma within_invoke {R} ms (c : C R) (k : R → service C A) :
  (∀ r, within ms (k r)) → within (option_list (call_mutation c) ++ ms) (Invoke c k).
Proof.
  intros Hk tr a (r & tr' & -> & Hr)%runs_invoke. rewrite mutations_cons.
  apply sublist_app; [done|]. by eapply Hk.
Qed.
Lemma within_sbind ms ms' (p : service C A) (f : A → service C B) :
  within ms p → (∀ a, within ms' (f a)) → within (ms ++ ms') (service_bind p f).
Proof.
  intros Hp Hf tr b (a & t1 & t2 & -> & H1 & H2)%runs_bind. rewrite mutations_app.
  apply sublist_app; [by eapply Hp|by eapply Hf].
Qed.
Lemma within_weaken ms ms' (p : service C A) :
  within ms p → ms `sublist_of` ms' → within ms' p.
Proof. intros Hp Hs tr a Hr. etrans; [by eapply Hp|done]. Qed.
Lemma within_runs (p : service C A) tr r : within [] p → runs p tr r → mutations tr = [].
Proof. intros Hq Hr. apply sublist_nil_r. by eapply Hq. Qed.
End Within.

Section WithinDerived.
Context {E A B : Type}.

Lemma within_bind ms ms' (p : fservice C E A) (f : A → fservice C E B) :
  within ms p → (∀ a, within ms' (f a)) → within (ms ++ ms') (p ≫= f).
Proof. intros Hp Hf. apply within_sbind; [done|]. intros [a|e]; [done|apply within_return]. Qed.

(** A quiet step before or after the others *)
Lemma within_quiet_bind ms (p : fservice C E A) (f : A → fservice C E B) :
  within [] p → (∀ a, within ms (f a)) → within ms (p ≫= f).
Proof. apply (within_bind []). Qed.
Lemma within_bind_quiet ms (p : fservice C E A) (f : A → fservice C E B) :
  within ms p → (∀ a, within [] (f a)) → within ms (p ≫= f).
Proof. intros Hp Hf. rewrite <- (app_nil_r ms). by apply within_bind. Qed.
Lemma within_pure ms (r : result E A) : within ms (pure_step r : fservice C E A).
Proof. apply within_return. Qed.
Lemma within_ret ms (a : A) : within ms (mret a : fservice C E A).
Proof. apply within_return. Qed.
Lemma within_call {R} (c : C R) :
  within (option_list (call_mutation c)) (invoke c : fservice C E R).
Proof.
  rewrite <- (app_nil_r (option_list _)). apply within_invoke. intros r. apply within_return.
Qed.
Lemma within_call_res (c : C (result E A)) :
  within (option_list (call_mutation c)) (invoke_res c : fservice C E A).
Proof.
  rewrite <- (app_nil_r (option_list _)). apply within_invoke. intros r. apply within_return.
Qed.
Lemma quiet_call {R} (c : C R) :
  call_mutation c = None → within [] (invoke c : fservice C E R).
Proof. intros Hc. pose proof (within_call c) as Hw. by rewrite Hc in Hw. Qed.
Lemma quiet_call_res (c : C (result E A)) :
  call_mutation c = None → within [] (invoke_res c : fservice C E A).
Proof. intros Hc. pose proof (within_call_res c) as Hw. by rewrite Hc in Hw. Qed.
Lemma within_if ms (b : bool) (p q : fservice C E A) :
  within ms p → within ms q → within ms (if b then p else q).
Proof. by destruct b. Qed.
End WithinDerived.

Section WithinCalls.
Context {E A B : Type}.

(** A mutating call first *)
Lemma within_call_bind {R} m ms (c : C R) (f : R → fservice C E A) :
  call_mutation c = Some m → (∀ r, within ms (f r)) → within (m :: ms) (invoke c ≫= f).
Proof.
  intros Hc Hf. apply (within_bind [m] ms); [|done].
  pose proof (within_call (E := E) c) as Hw. by rewrite Hc in Hw.
Qed.
Lemma within_call_res_bind m ms (c : C (result E A)) (f : A → fservice C E B) :
  call_mutation c = Some m → (∀ r, within ms (f r)) → within (m :: ms) (invoke_res c ≫= f).
Proof.
  intros Hc Hf. apply (within_bind [m] ms); [|done]. pose proof (within_call_res c) as Hw.
  by rewrite Hc in Hw.
Qed.
End WithinCalls.

(** A fallible pure step either stops the run or hands on its value. *)
Lemma runs_or_stop {E A B} (x : result E A) (f : A → fservice C E B) tr r :
  runs (pure_step x ≫= f) tr r → (tr = [] ∧ is_err r = true) ∨ ∃ a, x = Ok a ∧ runs (f a) tr r.
Proof using Type. intros [(e & _ & -> & ->)|(a & Ha & Hr)]%runs_pure; eauto. Qed.
(** A quiet step either stops the run or hands on its value. *)
Lemma runs_quiet_bind {E A B} (p : fservice C E A) (f : A → fservice C E B) tr r :
  within [] p → runs (p ≫= f) tr r →
  (mutations tr = [] ∧ is_err r = true) ∨
  ∃ a t1 t2, tr = t1 ++ t2 ∧ mutations t1 = [] ∧ runs p t1 (Ok a) ∧ runs (f a) t2 r.
Proof.
  intros Hq [(e & He & ->)|(a & t1 & t2 & -> & Hp & Hf)]%runs_fbind.
  - left. split; [by eapply within_runs|done].
  - right. exists a, t1, t2. split_and!; [done|by eapply within_runs|done..].
Qed.
Lemma runs_call_res {E A} (c : C (result E A)) tr r :
  runs (invoke_res c : fservice C E A) tr r → tr = [Exchange c r].
Proof using Type. intros (x & t & -> & [-> ->]%runs_return)%runs_invoke. done. Qed.

(** The run follows [p], which returned [a], with the mutation [m], and makes no other
    mutation. *)
Definition mutates_once {E A} (p : fservice C E A) (tr : list (exchange C)) (a : A) (m : M)
    : Prop :=
  ∃ before R (c : C R) (answer : R) after,
    tr = before ++ Exchange c answer :: after ∧ call_mutation c = Some m ∧
    runs p before (Ok a) ∧ mutations before = [] ∧ mutations after = [].

(** The run ends with [p], which returned [a], without further mutations. *)
Definition run_ends {E A} (p : fservice C E A) (tr : list (exchange C)) (a : A) : Prop :=
  ∃ pre t, tr = pre ++ t ∧ mutations t = [] ∧ runs p t (Ok a).
Lemma ends_with_app {E A} (p : fservice C E A) pre tr a :
  run_ends p tr a → run_ends p (pre ++ tr) a.
Proof. intros (q & t & -> & ? & ?). exists (pre ++ q), t. by rewrite <- app_assoc. Qed.
Lemma ends_with_self {E A} (p : fservice C E A) tr a :
  within [] p → runs p tr (Ok a) → run_ends p tr a.
Proof. intros Hq Hr. exists [], tr. split_and!; [done|by eapply within_runs|done]. Qed.
End Traces.

(** A run that stopped before its mutation *)
Ltac stopped :=
  rewrite ?app_nil_r; split; [by left|];
  lazymatch goal with |- ∀ report, ?r = _ → _ => by destruct r end.
Abbreviation quiet := (within []).

(** The quiet programs, by their shape *)
Create HintDb quiet discriminated.
#[export] Hint Resolve within_pure within_ret within_return within_if : quiet.
Ltac quiet_shape :=
  lazymatch goal with
  | |- within _ (mbind _ _) => apply within_quiet_bind; [|intros ?]
  | |- within _ (invoke _) => apply quiet_call; reflexivity
  | |- within _ (invoke_res _) => apply quiet_call_res; reflexivity
  | |- within _ (match ?x with _ => _ end) => destruct x
  end.
Ltac quiet := repeat first [solve [auto with quiet]|quiet_shape].
(** ... and the ones that begin with the next mutation *)
Ltac mutates :=
  repeat first [solve [auto with quiet]
               |apply within_call_bind; [reflexivity|intros ?]
               |apply within_call_res_bind; [reflexivity|intros ?]
               |quiet_shape].
