(* ===== verification/DnsLifecycle.v ===== *)
(** * The Cloudflare DNS lifecycle

    Models [edge-controller-core/src/cloudflare_dns_lifecycle.rs]: the closed
    specification of one A record, the apply and cleanup plans and the digest that
    binds a cleanup to what was observed. *)

From S2P Require Import Prelude RustStd RustNet HostTypes Concrete Json PlanAuthority.
From S2P Require Import LifecycleCommon.

Definition CURRENT_SCHEMA : Z := 1.

Record DesiredDnsState : Type := {
  dns_schema : Z;
  dns_environment : string;
  dns_zone_name : string;
  dns_record_name : string
}.

Record ObservedDnsRecord : Type := {
  rec_provider_id : string;
  rec_record_name : string;
  rec_ip : string
}.
#[global] Instance ObservedDnsRecord_eq_dec : EqDecision ObservedDnsRecord.
Proof. solve_decision. Defined.

(** [DnsObservation] is its list of records. *)
Record DnsObservation : Type := { obs_records : list ObservedDnsRecord }.

Inductive ApplyAction : Type :=
| ApplyNoop
| Create (ip : string)
| Update (record_id from_ip to_ip : string).
#[global] Instance ApplyAction_eq_dec : EqDecision ApplyAction.
Proof. solve_decision. Defined.
Record ApplyPlan : Type := { apply_action : ApplyAction }.

Inductive CleanupAction : Type :=
| CleanupNoop
| Delete (record_id ip : string).
#[global] Instance CleanupAction_eq_dec : EqDecision CleanupAction.
Proof. solve_decision. Defined.
Record CleanupPlan : Type := {
  cleanup_action : CleanupAction;
  destructive_digest : option string
}.
#[global] Instance CleanupPlan_eq_dec : EqDecision CleanupPlan.
Proof. solve_decision. Defined.

(** ** JSON forms (derived [Serialize]) *)

Definition record_fields (r : ObservedDnsRecord) : list (string * Value) :=
  [("provider_id", VString (rec_provider_id r));
   ("record_name", VString (rec_record_name r)); ("ip", VString (rec_ip r))].
Definition record_value (r : ObservedDnsRecord) : Value := obj (record_fields r).

Definition apply_action_value (a : ApplyAction) : Value :=
  match a with
  | ApplyNoop => obj [("kind", VString "NOOP")]
  | Create ip => obj [("kind", VString "CREATE"); ("ip", VString ip)]
  | Update record_id from_ip to_ip =>
      obj [("kind", VString "UPDATE"); ("record_id", VString record_id);
           ("from_ip", VString from_ip); ("to_ip", VString to_ip)]
  end.
Definition cleanup_action_value (a : CleanupAction) : Value :=
  match a with
  | CleanupNoop => obj [("kind", VString "NOOP")]
  | Delete record_id ip =>
      obj [("kind", VString "DELETE"); ("record_id", VString record_id); ("ip", VString ip)]
  end.

#[global] Instance desired_serialize : Serialize DesiredDnsState := λ d, Ok (obj
  [("schema", VNumber (Z.to_N (dns_schema d))); ("environment", VString (dns_environment d));
   ("zone_name", VString (dns_zone_name d)); ("record_name", VString (dns_record_name d))]).
#[global] Instance observation_serialize : Serialize DnsObservation := λ o,
  Ok (obj [("records", VArray (map record_value (obs_records o)))]).
#[global] Instance apply_plan_serialize : Serialize ApplyPlan := λ p,
  Ok (obj [("action", apply_action_value (apply_action p))]).
#[global] Instance cleanup_plan_serialize : Serialize CleanupPlan := λ p,
  Ok (obj [("action", cleanup_action_value (cleanup_action p));
           ("destructive_digest", opt_string (destructive_digest p))]).

(** ** Validation *)

Definition dns_label_char (c : ascii) : bool :=
  is_ascii_lowercase c || is_ascii_digit c || one_of "-" c.
Definition dns_label_invalid (part : string) : bool :=
  str_empty part || (63 <? slen part) || negb (str_all dns_label_char part)
  || starts_with "-" part || ends_with "-" part.

Definition validate_dns_name (label value : string) : lres unit :=
  let message := Validation (label +:+ " must be a canonical lowercase DNS name") in
  fail_if (str_empty value || (253 <? slen value) || ends_with "." value) message ;;
  for_each (λ part, fail_if (dns_label_invalid part) message) (split "." value).

(** [record_name.strip_suffix(&format!(".{zone}")).is_some_and(|p| !p.is_empty())] *)
Definition child_of_zone (record_name zone_name : string) : bool :=
  match strip_suffix ("." +:+ zone_name) record_name with
  | Some prefix => negb (str_empty prefix)
  | None => false
  end.

Definition validate (d : DesiredDnsState) : lres unit :=
  fail_if (negb (dns_schema d =? CURRENT_SCHEMA)) (UnsupportedSchema (dns_schema d)) ;;
  validate_identifier "environment" (dns_environment d) 64 ;;
  validate_dns_name "zone_name" (dns_zone_name d) ;;
  validate_dns_name "record_name" (dns_record_name d) ;;
  fail_if (negb (str_eqb (dns_record_name d) (dns_zone_name d))
           && negb (child_of_zone (dns_record_name d) (dns_zone_name d)))
    (Validation ("record_name " +:+ dns_record_name d
       +:+ " must be the zone apex or a child of " +:+ dns_zone_name d)).

Definition parse_json `{FromJson DesiredDnsState} (input : string) : lres DesiredDnsState :=
  desired ← map_err JsonError (from_str input);
  validate desired ;; Ok desired.

Definition validate_target_ipv4 (value : string) : lres Ipv4Addr :=
  parsed ← ok_or (parse_ipv4 value)
    (Validation ("invalid Cloudflare DNS target IPv4 " +:+ value +:+ ": " +:+ ipv4_error));
  fail_if (is_unspecified parsed || is_loopback parsed || is_multicast parsed
           || is_broadcast parsed)
    (Validation ("Cloudflare DNS target IPv4 is not routable: " +:+ value)) ;;
  Ok parsed.

(** ** Planning *)

Definition of_record (d : DesiredDnsState) (r : ObservedDnsRecord) : bool :=
  str_eqb (rec_record_name r) (dns_record_name d).
Definition provider_id_leb (a b : ObservedDnsRecord) : bool :=
  str_leb (rec_provider_id a) (rec_provider_id b).
Definition matching_records (d : DesiredDnsState) (o : DnsObservation)
    : list ObservedDnsRecord :=
  sort_by provider_id_leb (List.filter (of_record d) (obs_records o)).

Definition check_record (d : DesiredDnsState) (r : ObservedDnsRecord) : lres unit :=
  map_err (λ e, Conflict ("Cloudflare DNS record " +:+ dns_record_name d
      +:+ " returned invalid provider content: "
      +:+ lifecycle_error_text "Cloudflare DNS" e))
    (validate_target_ipv4 (rec_ip r)) ;;
  Ok tt.

Definition exact_records (d : DesiredDnsState) (o : DnsObservation)
    : lres (list ObservedDnsRecord) :=
  let matches := matching_records d o in
  fail_if (1 <? Z.of_nat (length matches))
    (Ambiguous ("Cloudflare DNS record " +:+ dns_record_name d +:+ " is ambiguous: observed "
       +:+ dec (Z.of_nat (length matches)) +:+ " exact A records")) ;;
  for_each (check_record d) matches ;;
  Ok matches.

(** The last branch is [unreachable!]: [exact_records] returns at most one record
    ([exact_records_le_1]). *)
Definition plan_apply (d : DesiredDnsState) (target_ip : string) (o : DnsObservation)
    : lres ApplyPlan :=
  validate d ;;
  validate_target_ipv4 target_ip ;;
  records ← exact_records d o;
  match records with
  | [] => Ok {| apply_action := Create target_ip |}
  | [r] =>
      if str_eqb (rec_ip r) target_ip then Ok {| apply_action := ApplyNoop |}
      else Ok {| apply_action := Update (rec_provider_id r) (rec_ip r) target_ip |}
  | _ => Err (Ambiguous "exact_records rejects ambiguity")
  end.

Section Cleanup.
Context `{Sha256} `{SerdeJson}.

Definition cleanup_material (d : DesiredDnsState) (o : DnsObservation) (a : CleanupAction)
    : Value := obj
  [("schema", VNumber (Z.to_N (dns_schema d))); ("environment", VString (dns_environment d));
   ("zone_name", VString (dns_zone_name d)); ("record_name", VString (dns_record_name d));
   ("records", VArray (map record_value (matching_records d o)));
   ("action", cleanup_action_value a)].
Definition cleanup_digest (d : DesiredDnsState) (o : DnsObservation) (a : CleanupAction)
    : lres string := digest_of_value (cleanup_material d o a).

Definition plan_cleanup (d : DesiredDnsState) (o : DnsObservation) : lres CleanupPlan :=
  validate d ;;
  records ← exact_records d o;
  match records with
  | [] => Ok {| cleanup_action := CleanupNoop; destructive_digest := None |}
  | r :: _ =>
      let action := Delete (rec_provider_id r) (rec_ip r) in
      digest ← cleanup_digest d o action;
      Ok {| cleanup_action := action; destructive_digest := Some digest |}
  end.

Definition verify_cleanup_digest (d : DesiredDnsState) (o : DnsObservation)
    (expected_digest : string) : lres CleanupPlan :=
  fail_if (negb (lower_hex64 expected_digest))
    (Validation "Cloudflare DNS cleanup digest must be 64 lowercase hexadecimal characters") ;;
  plan ← plan_cleanup d o;
  match destructive_digest plan with
  | None => Err (Conflict "Cloudflare DNS cleanup target is already absent")
  | Some actual =>
      fail_if (negb (str_eqb actual expected_digest))
        (Conflict "Cloudflare DNS cleanup digest is stale") ;;
      Ok plan
  end.
End Cleanup.

(** ** Facts *)

Lemma sort_by_short {A} (leb : A → A → bool) l : (length l ≤ 1)%nat → sort_by leb l = l.
Proof. destruct l as [|x [|y l]]; simpl; [done|done|lia]. Qed.

Lemma exact_records_Ok d o rs :
  exact_records d o = Ok rs →
  rs = List.filter (of_record d) (obs_records o) ∧ (length rs ≤ 1)%nat ∧
  Forall (λ r, is_ok (validate_target_ipv4 (rec_ip r)) = true) rs.
Proof.
  unfold exact_records, matching_records. intros E. inv_ok E. reflect_in Hm.
  apply for_each_Ok in Hm0. rewrite length_sort_by in *.
  rewrite sort_by_short in * by lia. split_and!; [done|lia|].
  eapply Forall_impl; [exact Hm0|]. unfold check_record. intros r Hr. inv_ok Hr.
  by rewrite Hm1.
Qed.

Lemma exact_records_intro d o rs :
  List.filter (of_record d) (obs_records o) = rs → (length rs ≤ 1)%nat →
  Forall (λ r, is_ok (validate_target_ipv4 (rec_ip r)) = true) rs →
  exact_records d o = Ok rs.
Proof.
  intros Hf Hl Hv. unfold exact_records, matching_records. rewrite Hf, length_sort_by.
  rewrite sort_by_short by done.
  replace (fail_if (1 <? Z.of_nat (length rs)) _) with (@Ok LifecycleError _ tt).
  2: { symmetry. apply fail_if_Ok, Z.ltb_ge. lia. }
  simpl. replace (for_each _ _) with (@Ok LifecycleError _ tt); [done|].
  symmetry. apply for_each_Ok. eapply Forall_impl; [exact Hv|]. intros r Hr.
  apply is_ok_true in Hr as [ip Hip]. unfold check_record. by rewrite Hip.
Qed.

(** What [plan_apply] decides, from the records of the name *)
Lemma plan_apply_Ok d ip o p :
  plan_apply d ip o = Ok p →
  validate d = Ok tt ∧ is_ok (validate_target_ipv4 ip) = true ∧
  match List.filter (of_record d) (obs_records o) with
  | [] => apply_action p = Create ip
  | [r] => apply_action p =
      (if str_eqb (rec_ip r) ip then ApplyNoop else Update (rec_provider_id r) (rec_ip r) ip)
      ∧ is_ok (validate_target_ipv4 (rec_ip r)) = true
  | _ => False
  end.
Proof.
  unfold plan_apply. intros E. inv_ok E. apply exact_records_Ok in Hm1 as (-> & Hl & Hv).
  split; [done|]. split; [by rewrite Hm0|].
  destruct (List.filter _ _) as [|r [|r' rs]]; [by inv_ok E| |simpl in Hl; lia].
  inversion_clear Hv. split; [|done]. destruct (str_eqb _ _); by inv_ok E.
Qed.

Lemma plan_apply_single d ip o r :
  validate d = Ok tt → is_ok (validate_target_ipv4 ip) = true →
  List.filter (of_record d) (obs_records o) = [r] → rec_ip r = ip →
  plan_apply d ip o = Ok {| apply_action := ApplyNoop |}.
Proof.
  intros Hd Hip Hf Hr. unfold plan_apply. rewrite Hd. simpl.
  destruct (validate_target_ipv4 ip) eqn:E; [|done]. simpl.
  rewrite (exact_records_intro d o [r]); [|done|simpl; lia|constructor; [|constructor]].
  - simpl. by rewrite (proj2 (str_eqb_true (rec_ip r) ip) Hr).
  - by rewrite Hr, E.
Qed.
