(* ===== verification/DnsService.v ===== *)
(** * The Cloudflare DNS service

    Models [edge-orchestrator/src/cloudflare_dns_lifecycle_service.rs]: one
    authorized mutation of a DNS record over the [DnsProvider] trait, followed by
    bounded re-observation.

    [dns_apply_once] shows what one run may do whatever the provider answers;
    [dns_apply_converges] that a run against a provider that performs what it is
    asked ends with the record in place, also when the answer to the mutation is
    lost. The message of a run that does not converge is kept as the value of its
    arguments. *)

From S2P Require Import Prelude RustStd RustNet HostTypes Concrete Json PlanAuthority.
From S2P Require Import LifecycleCommon Service DnsLifecycle.

(** [edge_provider_cloudflare::CloudflareDnsObservedRecord] *)
Record CloudflareDnsObservedRecord : Type := {
  cf_id : string;
  cf_zone_id : string;
  cf_record_name : string;
  cf_ip : string
}.

(** The methods of the trait [DnsProvider], and [tokio::time::sleep] *)
Inductive dns_call : Type → Type :=
| ListRecords (zone_name record_name : string) : dns_call (res (list CloudflareDnsObservedRecord))
| CreateRecord (zone_name record_name ip : string) : dns_call (res unit)
| UpdateRecord (zone_name record_id record_name expected_ip ip : string) : dns_call (res unit)
| DeleteRecord (zone_name record_id : string) : dns_call (res unit)
| Sleep (delay : Z) : dns_call unit.

Record DnsExecutionPolicy : Type := { reobserve_attempts : nat; reobserve_delay : Z }.
(** [DnsExecutionPolicy::default], the delay in seconds *)
Definition default_policy : DnsExecutionPolicy :=
  {| reobserve_attempts := 30; reobserve_delay := 2 |}.

Inductive dns_error : Type :=
| Failed (message : string)
| ApplyNotConverged (performed : ApplyAction) (detail : string)
    (last_plan : option ApplyPlan) (last_observation : option DnsObservation)
| CleanupNotConverged (performed : CleanupAction) (detail : string)
    (last_plan : option CleanupPlan) (last_observation : option DnsObservation).

Abbreviation dns := (fservice dns_call dns_error).

Record DnsApplyReport : Type := {
  apply_performed : ApplyAction;
  apply_observation : DnsObservation;
  apply_next_plan : ApplyPlan
}.
Record DnsCleanupReport : Type := {
  cleanup_performed : CleanupAction;
  cleanup_observation : DnsObservation;
  cleanup_next_plan : CleanupPlan
}.

(** [.map_err(|err| err.to_string())?] *)
Definition lifecycle_step {A} (r : lres A) : dns A :=
  pure_step (map_err (λ e, Failed (lifecycle_error_text "Cloudflare DNS" e)) r).
Definition authority_step {A} (r : result PlanAuthorityError A) : dns A :=
  pure_step (map_err (λ e, Failed (authority_error_text e)) r).

Definition validate_policy (policy : DnsExecutionPolicy) : dns unit :=
  pure_step (fail_if (reobserve_attempts policy =? 0)%nat
    (Failed "Cloudflare DNS re-observation attempts must be greater than zero")).

Definition observed_record (r : CloudflareDnsObservedRecord) : ObservedDnsRecord :=
  {| rec_provider_id := cf_id r; rec_record_name := cf_record_name r; rec_ip := cf_ip r |}.
Definition observation_of (rs : list CloudflareDnsObservedRecord) : DnsObservation :=
  {| obs_records := map observed_record rs |}.

Definition observe_dns (d : DesiredDnsState) : dns DnsObservation :=
  lifecycle_step (validate d) ;;
  Invoke (ListRecords (dns_zone_name d) (dns_record_name d)) (λ answer,
    Return (match answer with Ok rs => Ok (observation_of rs) | Err e => Err (Failed e) end)).

Definition plan_dns_apply (d : DesiredDnsState) (target_ip : string)
    : dns (DnsObservation * ApplyPlan) :=
  observed ← observe_dns d;
  plan ← lifecycle_step (plan_apply d target_ip observed);
  mret (observed, plan).

Definition apply_is_noop (a : ApplyAction) : bool :=
  match a with ApplyNoop => true | _ => false end.
Definition cleanup_is_noop (a : CleanupAction) : bool :=
  match a with CleanupNoop => true | _ => false end.

(** [mutation.err()], then [unwrap_or_else(|| "mutation returned success")] *)
Definition mutation_detail (mutation : res unit) : string :=
  match mutation with Ok _ => "mutation returned success" | Err e => e end.

(** The loop of [reobserve_apply_change]; [n] attempts are left. *)
Fixpoint reobserve_apply (d : DesiredDnsState) (target_ip : string) (delay : Z)
    (performed : ApplyAction) (mutation : res unit) (n : nat)
    (last_plan : option ApplyPlan) (last_observation : option DnsObservation)
    : dns DnsApplyReport :=
  match n with
  | O => pure_step (Err (ApplyNotConverged performed (mutation_detail mutation)
                           last_plan last_observation))
  | S n =>
      observed ← observe_dns d;
      next_plan ← lifecycle_step (plan_apply d target_ip observed);
      if apply_is_noop (apply_action next_plan) then
        mret {| apply_performed := performed; apply_observation := observed;
                apply_next_plan := next_plan |}
      else
        (if (0 <? n)%nat then invoke (Sleep delay) else mret tt) ;;
        reobserve_apply d target_ip delay performed mutation n
          (Some next_plan) (Some observed)
  end.
Definition reobserve_apply_change (d : DesiredDnsState) (target_ip : string)
    (policy : DnsExecutionPolicy) (performed : ApplyAction) (mutation : res unit)
    : dns DnsApplyReport :=
  reobserve_apply d target_ip (reobserve_delay policy) performed mutation
    (reobserve_attempts policy) None None.

Section Authorized.
Context `{Sha256} `{SerdeJson}.

(** [json!({"desired": desired, "target_ipv4": target_ip})] *)
Definition apply_material (d : DesiredDnsState) (target_ip : string) : Value :=
  match to_value d with
  | Ok v => obj [("desired", v); ("target_ipv4", VString target_ip)]
  | Err _ => VNull
  end.
Definition authorize_dns_apply (d : DesiredDnsState) (target_ip : string)
    (o : DnsObservation) (p : ApplyPlan)
    : result PlanAuthorityError (AuthorizedPlan ApplyPlan) :=
  authorize_plan "cloudflare_dns_apply" (apply_material d target_ip) o p
    (if apply_is_noop (apply_action p) then Noop else Mutate).
Definition authorize_dns_cleanup (d : DesiredDnsState) (o : DnsObservation) (p : CleanupPlan)
    : result PlanAuthorityError (AuthorizedPlan CleanupPlan) :=
  authorize_plan "cloudflare_dns_cleanup" d o p
    (if cleanup_is_noop (cleanup_action p) then Noop else Mutate).

(** The provider call of an action *)
Definition apply_call (d : DesiredDnsState) (a : ApplyAction) : option (dns_call (res unit)) :=
  match a with
  | ApplyNoop => None
  | Create ip => Some (CreateRecord (dns_zone_name d) (dns_record_name d) ip)
  | Update record_id from_ip to_ip =>
      Some (UpdateRecord (dns_zone_name d) record_id (dns_record_name d) from_ip to_ip)
  end.

Definition apply_dns_once (d : DesiredDnsState) (target_ip authorized_plan_digest : string)
    (policy : DnsExecutionPolicy) : dns DnsApplyReport :=
  validate_policy policy ;;
  '(before, plan) ← plan_dns_apply d target_ip;
  authorized ← authority_step (authorize_dns_apply d target_ip before plan);
  authority_step (verify_exact_authority authorized_plan_digest (authority authorized)) ;;
  match apply_call d (apply_action plan) with
  | None => mret {| apply_performed := ApplyNoop; apply_observation := before;
                    apply_next_plan := plan |}
  | Some call =>
      mutation ← invoke call;
      reobserve_apply_change d target_ip policy (apply_action plan) mutation
  end.

Definition plan_dns_cleanup (d : DesiredDnsState) : dns (DnsObservation * CleanupPlan) :=
  observed ← observe_dns d;
  plan ← lifecycle_step (plan_cleanup d observed);
  mret (observed, plan).

(** The loop of [reobserve_cleanup_change] *)
Fixpoint reobserve_cleanup (d : DesiredDnsState) (delay : Z) (performed : CleanupAction)
    (mutation : res unit) (n : nat) (last_plan : option CleanupPlan)
    (last_observation : option DnsObservation) : dns DnsCleanupReport :=
  match n with
  | O => pure_step (Err (CleanupNotConverged performed (mutation_detail mutation)
                           last_plan last_observation))
  | S n =>
      observed ← observe_dns d;
      next_plan ← lifecycle_step (plan_cleanup d observed);
      if cleanup_is_noop (cleanup_action next_plan) then
        mret {| cleanup_performed := performed; cleanup_observation := observed;
                cleanup_next_plan := next_plan |}
      else
        (if (0 <? n)%nat then invoke (Sleep delay) else mret tt) ;;
        reobserve_cleanup d delay performed mutation n (Some next_plan) (Some observed)
  end.

Definition cleanup_dns_once (d : DesiredDnsState)
    (expected_digest authorized_plan_digest : string) (policy : DnsExecutionPolicy)
    : dns DnsCleanupReport :=
  validate_policy policy ;;
  observed ← observe_dns d;
  current ← lifecycle_step (plan_cleanup d observed);
  authorized ← authority_step (authorize_dns_cleanup d observed current);
  authority_step (verify_exact_authority authorized_plan_digest (authority authorized)) ;;
  plan ← lifecycle_step (verify_cleanup_digest d observed expected_digest);
  pure_step (fail_if (negb (bool_decide (current = plan)))
    (Failed "Cloudflare DNS cleanup authorization changed during planning")) ;;
  match cleanup_action plan with
  | CleanupNoop => pure_step (Err (Failed "Cloudflare DNS cleanup target is already absent"))
  | Delete record_id _ =>
      mutation ← invoke (DeleteRecord (dns_zone_name d) record_id);
      reobserve_cleanup d (reobserve_delay policy) (cleanup_action plan) mutation
        (reobserve_attempts policy) None None
  end.
End Authorized.

(** ** What one run may do *)

Definition mutates (e : exchange dns_call) : bool :=
  match e with
  | Exchange (ListRecords _ _) _ | Exchange (Sleep _) _ => false
  | _ => true
  end.
Abbreviation quiet := (Forall (λ e, mutates e = false)).

Definition list_call (d : DesiredDnsState) : dns_call (res (list CloudflareDnsObservedRecord)) :=
  ListRecords (dns_zone_name d) (dns_record_name d).

Lemma runs_observe d tr r :
  runs (observe_dns d) tr r →
  (tr = [] ∧ is_err r = true) ∨
  ∃ answer, tr = [Exchange (list_call d) answer] ∧
    r = match answer with Ok rs => Ok (observation_of rs) | Err e => Err (Failed e) end.
Proof.
  unfold observe_dns, lifecycle_step.
  intros [(e & _ & -> & ->)|(u & _ & Hr)]%runs_pure; [by left|].
  apply runs_invoke in Hr as (answer & tr' & -> & [-> ->]%runs_return). eauto.
Qed.

Lemma observe_quiet d tr r : runs (observe_dns d) tr r → quiet tr.
Proof.
  intros [[-> _]|(answer & -> & _)]%runs_observe; [constructor|]. by constructor.
Qed.

(** A step of a service that is pure or stops the run *)
Lemma runs_lifecycle {A B} (x : lres A) (f : A → dns B) tr r :
  runs (lifecycle_step x ≫= f) tr r →
  (tr = [] ∧ is_err r = true) ∨ ∃ a, x = Ok a ∧ runs (f a) tr r.
Proof.
  unfold lifecycle_step. intros [(e & _ & -> & ->)|(a & Ha & Hr)]%runs_pure; [by left|].
  apply map_err_Ok in Ha. eauto.
Qed.
Lemma runs_authority {A B} (x : result PlanAuthorityError A) (f : A → dns B) tr r :
  runs (authority_step x ≫= f) tr r →
  (tr = [] ∧ is_err r = true) ∨ ∃ a, x = Ok a ∧ runs (f a) tr r.
Proof.
  unfold authority_step. intros [(e & _ & -> & ->)|(a & Ha & Hr)]%runs_pure; [by left|].
  apply map_err_Ok in Ha. eauto.
Qed.

Lemma pause_quiet n delay tr r :
  runs (if (0 <? n)%nat then invoke (Sleep delay) else mret tt : dns unit) tr r → quiet tr.
Proof.
  destruct (0 <? n)%nat; [|by intros [-> _]%runs_return].
  intros (x & tr' & -> & [-> ->]%runs_return)%runs_invoke. by constructor.
Qed.

(** The last list of records a trace holds is the one a report carries. *)
Definition last_listed (d : DesiredDnsState) (tr : list (exchange dns_call))
    (o : DnsObservation) : Prop :=
  ∃ pre rs, tr = pre ++ [Exchange (list_call d) (Ok rs)] ∧ o = observation_of rs.

Lemma last_listed_app d pre tr o : last_listed d tr o → last_listed d (pre ++ tr) o.
Proof. intros (q & rs & -> & ->). exists (pre ++ q), rs. by rewrite <- app_assoc. Qed.

Lemma observed_last d tr o : runs (observe_dns d) tr (Ok o) → last_listed d tr o.
Proof.
  intros [[_ ?]|([rs|e] & -> & E)]%runs_observe; [done| |done].
  injection E as ->. by exists [], rs.
Qed.

Lemma reobserve_apply_runs d ip delay performed mutation n lp lo tr r :
  runs (reobserve_apply d ip delay performed mutation n lp lo) tr r →
  quiet tr ∧ ∀ report, r = Ok report →
    apply_performed report = performed ∧ last_listed d tr (apply_observation report) ∧
    plan_apply d ip (apply_observation report) = Ok (apply_next_plan report) ∧
    apply_action (apply_next_plan report) = ApplyNoop.
Proof.
  revert lp lo tr. induction n as [|n IH]; intros lp lo tr; cbn [reobserve_apply].
  { intros [-> ->]%runs_return. split; [constructor|done]. }
  intros [(e & Ho%observe_quiet & ->)|(o & t1 & t2 & -> & Ho & Hr)]%runs_fbind; [done|].
  pose proof (observe_quiet _ _ _ Ho) as Hq. apply observed_last in Ho.
  apply runs_lifecycle in Hr as [[-> ?]|(p & Hp & Hr)]; [rewrite app_nil_r; by destruct r|].
  destruct (apply_is_noop (apply_action p)) eqn:Hn.
  - apply runs_return in Hr as [-> ->]. rewrite app_nil_r. split; [done|].
    intros report [= <-]. split_and!; [done..|]. simpl. by destruct (apply_action p).
  - apply runs_fbind in Hr as [(e & Hs%pause_quiet & ->)|(u & t3 & t4 & -> & Hs%pause_quiet & Hr)];
      [split; [by apply Forall_app|done]|].
    apply IH in Hr as [Hq4 Hrep]. split; [by rewrite !Forall_app|].
    intros report E. destruct (Hrep report E) as (? & ? & ?).
    split_and!; [done|by do 2 apply last_listed_app|apply H1..].
Qed.

(** A run that stopped before any mutation *)
Ltac stops :=
  rewrite app_nil_r; split; [by left|];
  lazymatch goal with |- ∀ report, ?r = _ → _ => try (by destruct r) end; try done.

Section RunFacts.
Context `{Sha256} `{SerdeJson}.

(** The authority under which the mutation of [action] was granted *)
Definition apply_granted (d : DesiredDnsState) (ip digest : string) (o : DnsObservation)
    (action : ApplyAction) : Prop :=
  ∃ plan a, plan_apply d ip o = Ok plan ∧ apply_action plan = action ∧
    authorize_dns_apply d ip o plan = Ok a ∧ authority_digest (authority a) = digest.

(** Whatever the provider answers, a run of [apply_dns_once] sends at most one
    mutation; the mutation directly follows the list of records its plan was made
    from, and the digest the operator authorized is the one of exactly that plan and
    observation. A run that reports success ends with a list of records for which the
    plan is NOOP. *)
Theorem dns_apply_once d ip digest policy tr r :
  runs (apply_dns_once d ip digest policy) tr r →
  (quiet tr ∨
   ∃ rs action call answer rest,
     tr = Exchange (list_call d) (Ok rs) :: Exchange call answer :: rest ∧ quiet rest ∧
     apply_call d action = Some call ∧ apply_granted d ip digest (observation_of rs) action) ∧
  ∀ report, r = Ok report →
    last_listed d tr (apply_observation report) ∧
    plan_apply d ip (apply_observation report) = Ok (apply_next_plan report) ∧
    apply_action (apply_next_plan report) = ApplyNoop.
Proof.
  unfold apply_dns_once, validate_policy.
  intros [(e & _ & -> & ->)|(u & _ & Hr)]%runs_pure; [split; [by left; constructor|done]|].
  unfold plan_dns_apply in Hr. apply runs_fbind in Hr as [(e & Hp & ->)|(bp & t1 & t2 & -> & Hp & Hr)].
  { apply runs_fbind in Hp as [(e' & Hq%observe_quiet & _)|(o & t1 & t2 & -> & Hq%observe_quiet & Hp)];
      [split; [by left|done]|].
    apply runs_lifecycle in Hp as [[-> _]|(p & _ & [-> ?]%runs_return)];
      rewrite app_nil_r; split; [by left|done|by left|done]. }
  apply runs_fbind in Hp as [(e' & _ & ?)|(o & t3 & t4 & -> & Ho & Hp)]; [done|].
  apply runs_lifecycle in Hp as [[-> ?]|(p & Hpl & [-> [= ->]]%runs_return)]; [done|].
  rewrite app_nil_r. pose proof (observe_quiet _ _ _ Ho) as Hq.
  pose proof (observed_last _ _ _ Ho) as Hl. simpl in Hr.
  apply runs_authority in Hr as [[-> ?]|(a & Ha & Hr)]; [stops|].
  apply runs_authority in Hr as [[-> ?]|([] & Hv & Hr)]; [stops|].
  apply verify_exact_authority_Ok in Hv.
  destruct (apply_call d (apply_action p)) as [call|] eqn:Hc.
  - apply runs_invoke in Hr as (answer & t & -> & Hr). cbn [service_bind] in Hr.
    unfold reobserve_apply_change in Hr. apply reobserve_apply_runs in Hr as [Hq2 Hrep].
    apply runs_observe in Ho as [[_ ?]|([rs|e] & -> & E)]; [done| |done]. injection E as ->.
    split.
    + right. exists rs, (apply_action p), call, answer, t. split_and!; [done..|].
      exists p, a. by split_and!.
    + intros report E. destruct (Hrep report E) as (_ & Hl2 & Hn).
      split; [|done]. by apply (last_listed_app d [_; _]).
  - apply runs_return in Hr as [-> ->]. rewrite app_nil_r. split; [by left|].
    intros report [= <-]. split_and!; [done..|]. simpl. by destruct (apply_action p).
Qed.

Lemma reobserve_cleanup_runs d delay performed mutation n lp lo tr r :
  runs (reobserve_cleanup d delay performed mutation n lp lo) tr r →
  quiet tr ∧ ∀ report, r = Ok report →
    last_listed d tr (cleanup_observation report) ∧
    plan_cleanup d (cleanup_observation report) = Ok (cleanup_next_plan report) ∧
    cleanup_action (cleanup_next_plan report) = CleanupNoop.
Proof.
  revert lp lo tr. induction n as [|n IH]; intros lp lo tr; cbn [reobserve_cleanup].
  { intros [-> ->]%runs_return. split; [constructor|done]. }
  intros [(e & Ho%observe_quiet & ->)|(o & t1 & t2 & -> & Ho & Hr)]%runs_fbind; [done|].
  pose proof (observe_quiet _ _ _ Ho) as Hq. apply observed_last in Ho.
  apply runs_lifecycle in Hr as [[-> ?]|(p & Hp & Hr)]; [rewrite app_nil_r; by destruct r|].
  destruct (cleanup_is_noop (cleanup_action p)) eqn:Hn.
  - apply runs_return in Hr as [-> ->]. rewrite app_nil_r. split; [done|].
    intros report [= <-]. split_and!; [done..|]. simpl. by destruct (cleanup_action p).
  - apply runs_fbind in Hr as [(e & Hs%pause_quiet & ->)|(u & t3 & t4 & -> & Hs%pause_quiet & Hr)];
      [split; [by apply Forall_app|done]|].
    apply IH in Hr as [Hq4 Hrep]. split; [by rewrite !Forall_app|].
    intros report E. destruct (Hrep report E) as (Hl & Hn').
    split; [by do 2 apply last_listed_app|done].
Qed.

Lemma verify_cleanup_digest_Ok d o expected p :
  verify_cleanup_digest d o expected = Ok p →
  plan_cleanup d o = Ok p ∧ destructive_digest p = Some expected.
Proof.
  unfold verify_cleanup_digest. intros E. inv_ok E.
  destruct (destructive_digest x0) as [actual|] eqn:Ed; [|done].
  inv_ok E. reflect_in Hm1. by subst.
Qed.

(** The two digests under which a deletion was granted: the authority of the cleanup
    plan, and the digest of the record to be destroyed *)
Definition cleanup_granted (d : DesiredDnsState) (expected digest : string)
    (o : DnsObservation) (record_id : string) : Prop :=
  ∃ plan a ip, plan_cleanup d o = Ok plan ∧ cleanup_action plan = Delete record_id ip ∧
    destructive_digest plan = Some expected ∧
    authorize_dns_cleanup d o plan = Ok a ∧ authority_digest (authority a) = digest.

(** Whatever the provider answers, a run of [cleanup_dns_once] deletes at most one
    record: the one of the plan made from the list of records directly before, under
    both digests the operator authorized. A run that reports success ends with a list
    without the record. *)
Theorem dns_cleanup_once d expected digest policy tr r :
  runs (cleanup_dns_once d expected digest policy) tr r →
  (quiet tr ∨
   ∃ rs record_id answer rest,
     tr = Exchange (list_call d) (Ok rs)
          :: Exchange (DeleteRecord (dns_zone_name d) record_id) answer :: rest ∧
     quiet rest ∧ cleanup_granted d expected digest (observation_of rs) record_id) ∧
  ∀ report, r = Ok report →
    last_listed d tr (cleanup_observation report) ∧
    plan_cleanup d (cleanup_observation report) = Ok (cleanup_next_plan report) ∧
    cleanup_action (cleanup_next_plan report) = CleanupNoop.
Proof.
  unfold cleanup_dns_once, validate_policy.
  intros [(e & _ & -> & ->)|(u & _ & Hr)]%runs_pure; [split; [by left; constructor|done]|].
  apply runs_fbind in Hr as [(e & Hq%observe_quiet & ->)|(o & t1 & t2 & -> & Ho & Hr)];
    [split; [by left|done]|].
  pose proof (observe_quiet _ _ _ Ho) as Hq.
  apply runs_lifecycle in Hr as [[-> ?]|(current & Hc & Hr)]; [stops|].
  apply runs_authority in Hr as [[-> ?]|(a & Ha & Hr)]; [stops|].
  apply runs_authority in Hr as [[-> ?]|([] & Hv & Hr)]; [stops|].
  apply runs_lifecycle in Hr as [[-> ?]|(p & Hp & Hr)]; [stops|].
  apply runs_pure in Hr as [(e & _ & -> & ->)|([] & He & Hr)]; [stops|]. inv_ok He.
  reflect_in He. subst p. apply verify_exact_authority_Ok in Hv.
  apply verify_cleanup_digest_Ok in Hp as [_ Hd].
  destruct (cleanup_action current) as [|record_id ip] eqn:Hact.
  { apply runs_return in Hr as [-> ->]. stops. }
  apply runs_invoke in Hr as (answer & t & -> & Hr). cbn [service_bind] in Hr.
  apply reobserve_cleanup_runs in Hr as [Hq2 Hrep].
  apply runs_observe in Ho as [[_ ?]|([rs|e] & -> & E)]; [done| |done]. injection E as ->.
  split.
  - right. exists rs, record_id, answer, t. split_and!; [done..|].
    exists current, a, ip. by split_and!.
  - intros report E. destruct (Hrep report E) as (Hl & Hn). split; [|done].
    by apply (last_listed_app d [_; _]).
Qed.
End RunFacts.

(** ** Convergence *)

Definition of_name (name : string) (r : CloudflareDnsObservedRecord) : bool :=
  str_eqb (cf_record_name r) name.
Definition set_ip (record_id name from_ip to_ip : string) (r : CloudflareDnsObservedRecord)
    : CloudflareDnsObservedRecord :=
  if str_eqb (cf_id r) record_id && of_name name r && str_eqb (cf_ip r) from_ip
  then {| cf_id := cf_id r; cf_zone_id := cf_zone_id r; cf_record_name := cf_record_name r;
          cf_ip := to_ip |}
  else r.

(** A provider that performs what it is asked, whatever it answers to a mutation *)
Class DnsSemantics {S} (answer : ∀ R, dns_call R → S → R * S)
    (records : S → list CloudflareDnsObservedRecord) := {
  list_exact zone name s : answer _ (ListRecords zone name) s
    = (Ok (List.filter (of_name name) (records s)), s);
  create_commits zone name ip s : ∃ r, cf_record_name r = name ∧ cf_ip r = ip ∧
    records (answer _ (CreateRecord zone name ip) s).2 = records s ++ [r];
  update_commits zone record_id name from_ip to_ip s :
    records (answer _ (UpdateRecord zone record_id name from_ip to_ip) s).2
    = map (set_ip record_id name from_ip to_ip) (records s)
}.

Lemma filter_observed d rs :
  List.filter (of_record d) (obs_records (observation_of rs))
  = map observed_record (List.filter (of_name (dns_record_name d)) rs).
Proof.
  unfold observation_of, of_record, of_name. simpl.
  induction rs as [|r rs IH]; simpl; [done|]. destruct (str_eqb _ _); simpl; by rewrite IH.
Qed.

Section Converges.
Context `{Sha256} `{SerdeJson}.
Context {S : Type} (answer : ∀ R, dns_call R → S → R * S)
  (records : S → list CloudflareDnsObservedRecord) `{!DnsSemantics answer records}.
Context (d : DesiredDnsState) (ip : string).

Definition listed (s : S) : list CloudflareDnsObservedRecord :=
  List.filter (of_name (dns_record_name d)) (records s).

Lemma exec_observe s :
  validate d = Ok tt →
  exec answer (observe_dns d) s = (Ok (observation_of (listed s)), s).
Proof.
  intros Hd. unfold observe_dns, lifecycle_step. rewrite Hd. simpl. by rewrite list_exact.
Qed.

Lemma filter_listed s :
  List.filter (of_record d) (obs_records (observation_of (listed s)))
  = map observed_record (listed s).
Proof. rewrite filter_observed. unfold listed. by rewrite filter_twice. Qed.

(** After the mutation of the plan exactly the desired record is left. *)
Lemma mutation_effect s plan call :
  plan_apply d ip (observation_of (listed s)) = Ok plan →
  apply_call d (apply_action plan) = Some call →
  ∃ r, listed (answer _ call s).2 = [r] ∧ cf_ip r = ip.
Proof.
  intros (_ & _ & Hp)%plan_apply_Ok Hc. rewrite filter_listed in Hp.
  destruct (listed s) as [|r [|r' rs]] eqn:Hl; simpl in Hp; [..|done].
  - rewrite Hp in Hc. injection Hc as <-.
    destruct (create_commits (dns_zone_name d) (dns_record_name d) ip s) as (r & Hn & Hi & Hr).
    exists r. split; [|done]. unfold listed in *. rewrite Hr, List.filter_app, Hl. simpl.
    unfold of_name. by rewrite Hn, (proj2 (str_eqb_true _ _) eq_refl).
  - destruct Hp as [Hp _]. destruct (str_eqb (cf_ip r) ip) eqn:Hi; rewrite Hp in Hc; [done|].
    injection Hc as <-. clear Hi.
    exists {| cf_id := cf_id r; cf_zone_id := cf_zone_id r;
              cf_record_name := cf_record_name r; cf_ip := ip |}.
    split; [|done]. unfold listed in *. rewrite update_commits.
    assert (Hkeep : ∀ x, of_name (dns_record_name d)
      (set_ip (cf_id r) (dns_record_name d) (cf_ip r) ip x) = of_name (dns_record_name d) x).
    { intros x. unfold set_ip. by destruct (_ && _ && _). }
    assert (Hone : of_name (dns_record_name d) r = true).
    { assert (Hin : In r (List.filter (of_name (dns_record_name d)) (records s)))
        by (rewrite Hl; by left). by apply filter_In in Hin as [_ ?]. }
    revert Hl. induction (records s) as [|x l IH]; simpl; [done|]. rewrite Hkeep.
    destruct (of_name (dns_record_name d) x) eqn:Hx; [|exact IH].
    intros [= -> Hl]. clear IH. f_equal.
    + unfold set_ip. by rewrite Hone, !(proj2 (str_eqb_true _ _) eq_refl).
    + clear -Hl Hkeep. induction l as [|y l IH]; simpl in *; [done|]. rewrite Hkeep.
      destruct (of_name (dns_record_name d) y); [done|by apply IH].
Qed.

Lemma reobserve_converged s delay performed mutation n lp lo r :
  validate d = Ok tt → is_ok (validate_target_ipv4 ip) = true →
  listed s = [r] → cf_ip r = ip →
  exec answer (reobserve_apply d ip delay performed mutation (Datatypes.S n) lp lo) s
  = (Ok {| apply_performed := performed; apply_observation := observation_of [r];
           apply_next_plan := {| apply_action := ApplyNoop |} |}, s).
Proof.
  intros Hd Hip Hl Hr. cbn [reobserve_apply]. rewrite exec_fbind, exec_observe by done.
  rewrite Hl. unfold lifecycle_step.
  rewrite (plan_apply_single d ip _ (observed_record r)); [done|done|done| |done].
  rewrite <- Hl, filter_listed. by rewrite Hl.
Qed.

Context `{!JsonValueLaws}.

(** Against a provider that performs what it is asked, a run under the digest of the
    current plan succeeds, and afterwards the name has exactly one record, with the
    target address, also when the answer to the mutation was an error. *)
Theorem dns_apply_converges policy s plan a :
  (0 < reobserve_attempts policy)%nat →
  plan_apply d ip (observation_of (listed s)) = Ok plan →
  authorize_dns_apply d ip (observation_of (listed s)) plan = Ok a →
  let '(outcome, s') :=
    exec answer (apply_dns_once d ip (authority_digest (authority a)) policy) s in
  ∃ report r, outcome = Ok report ∧ listed s' = [r] ∧ cf_ip r = ip ∧
    apply_performed report = apply_action plan ∧
    apply_action (apply_next_plan report) = ApplyNoop.
Proof.
  intros Hn Hp Ha. pose proof (plan_apply_Ok _ _ _ _ Hp) as (Hd & Hip & Hc).
  unfold apply_dns_once, validate_policy.
  destruct (reobserve_attempts policy) as [|n] eqn:En; [lia|]. rewrite exec_fbind. simpl.
  unfold plan_dns_apply. rewrite !exec_fbind, exec_observe by done.
  unfold lifecycle_step. rewrite Hp. simpl. unfold authority_step. rewrite ?Ha. simpl.
  pose proof (verify_own_authority _ _ _ _ _ _ Ha) as Hv.
  unfold fservice_bind. cbn [service_bind]. rewrite Hv. cbn [map_err service_bind].
  destruct (apply_call d (apply_action plan)) as [call|] eqn:Hcall.
  - destruct (mutation_effect s plan call Hp Hcall) as (r & Hl & Hr).
    cbn [exec service_bind]. destruct (answer _ call s) as [mutation s'] eqn:Hans. simpl in *.
    unfold reobserve_apply_change. rewrite En.
    rewrite (reobserve_converged s' _ _ _ _ _ _ r) by done. eauto 10.
  - simpl. rewrite filter_listed in Hc. destruct (listed s) as [|r [|r' rs]] eqn:Hl;
      simpl in Hc; [by rewrite Hc in Hcall| |done].
    destruct Hc as [Hc _]. destruct (str_eqb (cf_ip r) ip) eqn:Hi; [|by rewrite Hc in Hcall].
    apply str_eqb_true in Hi. eexists _, r. split_and!; [done..| |]; simpl; by rewrite Hc.
Qed.
End Converges.

(** ** A sample provider: a list of records; the answer to a create is lost. *)
Module DnsSample.
Definition answer (R : Type) (c : dns_call R) (s : list CloudflareDnsObservedRecord)
    : R * list CloudflareDnsObservedRecord :=
  match c in dns_call R return R * list CloudflareDnsObservedRecord with
  | ListRecords _ name => (Ok (List.filter (of_name name) s), s)
  | CreateRecord _ name ip =>
      (Err "connection reset", s ++ [{| cf_id := "dns-1"; cf_zone_id := "zone-1";
                                        cf_record_name := name; cf_ip := ip |}])
  | UpdateRecord _ record_id name from_ip to_ip =>
      (Ok tt, map (set_ip record_id name from_ip to_ip) s)
  | DeleteRecord _ record_id =>
      (Ok tt, List.filter (λ r, negb (str_eqb (cf_id r) record_id)) s)
  | Sleep _ => (tt, s)
  end.
#[export] Instance answer_semantics : DnsSemantics answer id.
Proof.
  split; [done| |done]. intros zone name ip s.
  by exists {| cf_id := "dns-1"; cf_zone_id := "zone-1"; cf_record_name := name; cf_ip := ip |}.
Qed.

Definition desired : DesiredDnsState := {|
  dns_schema := 1; dns_environment := "lifecycle-acceptance"; dns_zone_name := "alegria.by";
  dns_record_name := "stage2-acceptance.alegria.by" |}.
Definition ip : string := "203.0.113.10".
Definition create_plan : ApplyPlan := {| apply_action := Create ip |}.
Definition none : AuthorizedPlan ApplyPlan :=
  {| disposition := Blocked; plan := create_plan;
     authority := {| schema_version := 0; domain := ""; desired_digest := "";
       observed_digest := ""; plan_digest := ""; authority_digest := "" |} |}.
Definition empty_observation : DnsObservation := {| obs_records := [] |}.
Definition granted : AuthorizedPlan ApplyPlan :=
  match authorize_dns_apply desired ip empty_observation create_plan with
  | Ok a => a | Err _ => none end.
Definition program : dns DnsApplyReport :=
  apply_dns_once desired ip (authority_digest (authority granted)) default_policy.

Lemma granted_ok :
  authorize_dns_apply desired ip empty_observation create_plan = Ok granted.
Proof.
  unfold granted. destruct (authorize_dns_apply _ _ _ _) eqn:E; [done|].
  apply (f_equal is_ok) in E. vm_compute in E. discriminate E.
Qed.

(** Witness of [dns_apply_once]: the create whose answer was lost *)
Lemma dns_apply_once_witness :
  (quiet (exec_trace answer program []) ∨
   ∃ rs action call ans rest,
     exec_trace answer program []
     = Exchange (list_call desired) (Ok rs) :: Exchange call ans :: rest ∧ quiet rest ∧
     apply_call desired action = Some call ∧
     apply_granted desired ip (authority_digest (authority granted)) (observation_of rs)
       action) ∧
  ∀ report, (exec answer program []).1 = Ok report →
    last_listed desired (exec_trace answer program []) (apply_observation report) ∧
    plan_apply desired ip (apply_observation report) = Ok (apply_next_plan report) ∧
    apply_action (apply_next_plan report) = ApplyNoop.
Proof.
  exact (dns_apply_once desired ip (authority_digest (authority granted)) default_policy
    (exec_trace answer program []) (exec answer program []).1
    (exec_runs answer program [])).
Defined.

(** Witness of [dns_apply_converges]. *)
Lemma dns_apply_converges_witness :
  let '(outcome, s') :=
    exec answer (apply_dns_once desired ip (authority_digest (authority granted))
                   default_policy) [] in
  ∃ report r, outcome = Ok report ∧ listed id desired s' = [r] ∧ cf_ip r = ip ∧
    apply_performed report = apply_action create_plan ∧
    apply_action (apply_next_plan report) = ApplyNoop.
Proof.
  apply (dns_apply_converges answer id desired ip default_policy [] create_plan granted).
  - simpl. lia.
  - vm_compute. reflexivity.
  - exact granted_ok.
Defined.

(** Witness of [dns_cleanup_once]: the deletion of an existing record *)
Definition present : list CloudflareDnsObservedRecord :=
  [{| cf_id := "dns-1"; cf_zone_id := "zone-1";
      cf_record_name := "stage2-acceptance.alegria.by"; cf_ip := ip |}].
Definition cleanup : CleanupPlan :=
  match plan_cleanup desired (observation_of present) with
  | Ok p => p
  | Err _ => {| cleanup_action := CleanupNoop; destructive_digest := None |}
  end.
Definition expected : string :=
  match destructive_digest cleanup with Some e => e | None => "" end.
Definition cleanup_digest_granted : string :=
  match authorize_dns_cleanup desired (observation_of present) cleanup with
  | Ok a => authority_digest (authority a) | Err _ => "" end.
Definition cleanup_program : dns DnsCleanupReport :=
  cleanup_dns_once desired expected cleanup_digest_granted default_policy.

Lemma dns_cleanup_once_witness :
  (quiet (exec_trace answer cleanup_program present) ∨
   ∃ rs record_id ans rest,
     exec_trace answer cleanup_program present
     = Exchange (list_call desired) (Ok rs)
       :: Exchange (DeleteRecord (dns_zone_name desired) record_id) ans :: rest ∧
     quiet rest ∧
     cleanup_granted desired expected cleanup_digest_granted (observation_of rs) record_id) ∧
  ∀ report, (exec answer cleanup_program present).1 = Ok report →
    last_listed desired (exec_trace answer cleanup_program present)
      (cleanup_observation report) ∧
    plan_cleanup desired (cleanup_observation report) = Ok (cleanup_next_plan report) ∧
    cleanup_action (cleanup_next_plan report) = CleanupNoop.
Proof.
  exact (dns_cleanup_once desired expected cleanup_digest_granted default_policy
    (exec_trace answer cleanup_program present) (exec answer cleanup_program present).1
    (exec_runs answer cleanup_program present)).
Defined.
Example cleanup_removed :
  match exec answer cleanup_program present with
  | (Ok report, []) => cleanup_performed report = Delete "dns-1" ip
  | _ => False
  end.
Proof. vm_compute. reflexivity. Qed.

(** The record is created although the answer was lost, and found on the first
    re-observation. *)
Example create_converged :
  match exec answer program [] with
  | (Ok report, [r]) => apply_performed report = Create ip ∧ cf_ip r = ip
  | _ => False
  end ∧ length (exec_trace answer program []) = 3%nat.
Proof. vm_compute. repeat split. Qed.
End DnsSample.
