(* ===== verification/VpcLifecycle.v ===== *)
(** * The Vultr VPC lifecycle

    Models [edge-controller-core/src/vultr_vpc_lifecycle.rs]: the plans that create
    one owned VPC, attach one instance to it and tear both down again. *)

From S2P Require Import Prelude RustStd RustNet HostTypes Concrete Json PlanAuthority.
From S2P Require Import LifecycleCommon.

Definition CURRENT_SCHEMA : Z := 1.
Definition DESCRIPTION_PREFIX : string := "managed-by-sing-box:vpc:".

Record DesiredVpcState : Type := {
  vpc_schema : Z;
  vpc_environment : string;
  vpc_region : string;
  vpc_machine_id : string
}.

Record ObservedVpc : Type := {
  ov_provider_id : string;
  ov_region : string;
  ov_description : string;
  ov_v4_subnet : string;
  ov_v4_subnet_mask : Z
}.
Record VpcObservation : Type := { obs_vpcs : list ObservedVpc }.

Record ObservedVpcAttachment : Type := {
  at_attachment_id : string;
  at_subscription_id : option string;
  at_private_ipv4 : string
}.
Record VpcAttachmentObservation : Type := { obs_attachments : list ObservedVpcAttachment }.

Inductive VpcApplyAction : Type := VpcNoop | CreateVpc.
Record VpcApplyPlan : Type := {
  vap_action : VpcApplyAction;
  vap_provider_id : option string;
  vap_cidr : option string
}.

Inductive AttachmentAction : Type := AttachNoop | AttachInstance (vpc_id : string).
Record AttachmentPlan : Type := {
  atp_action : AttachmentAction;
  atp_cidr : string;
  atp_private_ipv4 : option string
}.

Inductive CleanupAction : Type :=
| CleanupNoop
| DetachInstance (vpc_id instance_id : string)
| DeleteVpc (vpc_id : string).
#[global] Instance CleanupAction_eq_dec : EqDecision CleanupAction.
Proof. solve_decision. Defined.
Record CleanupPlan : Type := {
  cleanup_action : CleanupAction;
  destructive_digest : option string
}.
#[global] Instance CleanupPlan_eq_dec : EqDecision CleanupPlan.
Proof. solve_decision. Defined.

(** ** JSON forms (derived [Serialize]) *)

Definition vpc_fields (v : ObservedVpc) : list (string * Value) :=
  [("provider_id", VString (ov_provider_id v)); ("region", VString (ov_region v));
   ("description", VString (ov_description v)); ("v4_subnet", VString (ov_v4_subnet v));
   ("v4_subnet_mask", VNumber (Z.to_N (ov_v4_subnet_mask v)))].
Definition vpc_value (v : ObservedVpc) : Value := obj (vpc_fields v).
Definition attachment_fields (a : ObservedVpcAttachment) : list (string * Value) :=
  [("attachment_id", VString (at_attachment_id a));
   ("subscription_id", opt_string (at_subscription_id a));
   ("private_ipv4", VString (at_private_ipv4 a))].
Definition attachment_value (a : ObservedVpcAttachment) : Value := obj (attachment_fields a).

Definition vpc_action_value (a : VpcApplyAction) : Value :=
  obj [("kind", VString (match a with VpcNoop => "NOOP" | CreateVpc => "CREATE_VPC" end))].
Definition attachment_action_value (a : AttachmentAction) : Value :=
  match a with
  | AttachNoop => obj [("kind", VString "NOOP")]
  | AttachInstance vpc_id =>
      obj [("kind", VString "ATTACH_INSTANCE"); ("vpc_id", VString vpc_id)]
  end.
Definition cleanup_action_value (a : CleanupAction) : Value :=
  match a with
  | CleanupNoop => obj [("kind", VString "NOOP")]
  | DetachInstance vpc_id instance_id =>
      obj [("kind", VString "DETACH_INSTANCE"); ("vpc_id", VString vpc_id);
           ("instance_id", VString instance_id)]
  | DeleteVpc vpc_id => obj [("kind", VString "DELETE_VPC"); ("vpc_id", VString vpc_id)]
  end.

#[global] Instance desired_serialize : Serialize DesiredVpcState := λ d, Ok (obj
  [("schema", VNumber (Z.to_N (vpc_schema d))); ("environment", VString (vpc_environment d));
   ("region", VString (vpc_region d)); ("machine_id", VString (vpc_machine_id d))]).
#[global] Instance observation_serialize : Serialize VpcObservation := λ o,
  Ok (obj [("vpcs", VArray (map vpc_value (obs_vpcs o)))]).
#[global] Instance attachments_serialize : Serialize VpcAttachmentObservation := λ o,
  Ok (obj [("attachments", VArray (map attachment_value (obs_attachments o)))]).
#[global] Instance apply_plan_serialize : Serialize VpcApplyPlan := λ p,
  Ok (obj [("action", vpc_action_value (vap_action p));
           ("provider_id", opt_string (vap_provider_id p));
           ("cidr", opt_string (vap_cidr p))]).
#[global] Instance attachment_plan_serialize : Serialize AttachmentPlan := λ p,
  Ok (obj [("action", attachment_action_value (atp_action p));
           ("cidr", VString (atp_cidr p)); ("private_ipv4", opt_string (atp_private_ipv4 p))]).
#[global] Instance cleanup_plan_serialize : Serialize CleanupPlan := λ p,
  Ok (obj [("action", cleanup_action_value (cleanup_action p));
           ("destructive_digest", opt_string (destructive_digest p))]).

(** ** Validation *)

Definition ownership_description (d : DesiredVpcState) : string :=
  DESCRIPTION_PREFIX +:+ vpc_environment d +:+ ":" +:+ vpc_machine_id d.

Definition region_char (c : ascii) : bool :=
  is_ascii_lowercase c || is_ascii_digit c || one_of "-" c.

Definition validate (d : DesiredVpcState) : lres unit :=
  fail_if (negb (vpc_schema d =? CURRENT_SCHEMA)) (UnsupportedSchema (vpc_schema d)) ;;
  validate_identifier "environment" (vpc_environment d) 64 ;;
  validate_identifier "machine_id" (vpc_machine_id d) 64 ;;
  fail_if (str_empty (vpc_region d) || (32 <? slen (vpc_region d))
           || negb (str_all region_char (vpc_region d)))
    (Validation "region must be 1..=32 lowercase ASCII alphanumeric or '-' characters") ;;
  fail_if (255 <? slen (ownership_description d))
    (Validation "derived Vultr VPC ownership description exceeds 255 characters").

Definition parse_json `{FromJson DesiredVpcState} (input : string) : lres DesiredVpcState :=
  desired ← map_err JsonError (from_str input);
  validate desired ;; Ok desired.

(** ** Observed addresses *)

Definition owned (d : DesiredVpcState) (v : ObservedVpc) : bool :=
  str_eqb (ov_description v) (ownership_description d).
Definition select_exact_vpc (d : DesiredVpcState) (o : VpcObservation)
    : lres (option ObservedVpc) :=
  match List.filter (owned d) (obs_vpcs o) with
  | [] => Ok None
  | [vpc] => Ok (Some vpc)
  | matches => Err (Ambiguous ("Vultr VPC ownership description " +:+ ownership_description d
      +:+ " is ambiguous: observed " +:+ dec (Z.of_nat (length matches)) +:+ " exact matches"))
  end.

Definition subnet_error (vpc : ObservedVpc) : LifecycleError :=
  Conflict ("Vultr VPC " +:+ ov_provider_id vpc +:+ " returned invalid IPv4 subnet "
    +:+ ov_v4_subnet vpc +:+ ": " +:+ ipv4_error).

(** [u32::MAX << (32 - u32::from(vpc.v4_subnet_mask))] *)
Definition subnet_mask (vpc : ObservedVpc) : Z := u32_mask (32 - ov_v4_subnet_mask vpc).

Definition observed_cidr (vpc : ObservedVpc) : lres string :=
  subnet ← ok_or (parse_ipv4 (ov_v4_subnet vpc)) (subnet_error vpc);
  fail_if (negb (is_private subnet))
    (Conflict ("Vultr VPC " +:+ ov_provider_id vpc +:+ " returned non-private IPv4 subnet "
       +:+ ov_v4_subnet vpc)) ;;
  fail_if (negb ((1 <=? ov_v4_subnet_mask vpc) && (ov_v4_subnet_mask vpc <=? 32)))
    (Conflict ("Vultr VPC " +:+ ov_provider_id vpc
       +:+ " returned invalid IPv4 prefix length " +:+ dec (ov_v4_subnet_mask vpc))) ;;
  let canonical := ipv4_of_u32 (Z.land (ipv4_to_u32 subnet) (subnet_mask vpc)) in
  fail_if (negb (bool_decide (canonical = subnet)))
    (Conflict ("Vultr VPC " +:+ ov_provider_id vpc +:+ " returned non-canonical subnet "
       +:+ ov_v4_subnet vpc +:+ "/" +:+ dec (ov_v4_subnet_mask vpc) +:+ "; expected "
       +:+ ipv4_display canonical +:+ "/" +:+ dec (ov_v4_subnet_mask vpc))) ;;
  Ok (ipv4_display subnet +:+ "/" +:+ dec (ov_v4_subnet_mask vpc)).

Definition validate_private_ip_in_cidr (value : string) (vpc : ObservedVpc) : lres unit :=
  ip ← ok_or (parse_ipv4 value)
    (Conflict ("Vultr VPC attachment returned invalid private IPv4 " +:+ value +:+ ": "
       +:+ ipv4_error));
  fail_if (negb (is_private ip))
    (Conflict ("Vultr VPC attachment returned non-private IPv4 " +:+ value)) ;;
  subnet ← ok_or (parse_ipv4 (ov_v4_subnet vpc)) (subnet_error vpc);
  fail_if (negb (Z.land (ipv4_to_u32 ip) (subnet_mask vpc) =? ipv4_to_u32 subnet))
    (Conflict ("Vultr VPC attachment private IPv4 " +:+ value +:+ " is outside "
       +:+ ov_v4_subnet vpc +:+ "/" +:+ dec (ov_v4_subnet_mask vpc))).

(** [subscription_id.as_deref() == Some(target_instance_id)] *)
Definition attached_to (target : string) (a : ObservedVpcAttachment) : bool :=
  bool_decide (at_subscription_id a = Some target).
Definition unresolved (a : ObservedVpcAttachment) : bool :=
  match at_subscription_id a with None => true | Some _ => false end.

Definition reject_foreign_attachments (o : VpcAttachmentObservation) (target : string)
    : lres unit :=
  match List.find unresolved (obs_attachments o) with
  | Some a => Err (Conflict ("owned disposable Vultr VPC has unresolved attachment "
      +:+ at_attachment_id a +:+ " without linked subscription"))
  | None =>
      match List.find (λ a, negb (attached_to target a)) (obs_attachments o) with
      | Some a => Err (Conflict ("owned disposable Vultr VPC has foreign attachment "
          +:+ at_attachment_id a))
      | None => Ok tt
      end
  end.

(** ** Plans *)

Definition region_conflict (d : DesiredVpcState) (vpc : ObservedVpc) : LifecycleError :=
  Conflict ("owned Vultr VPC " +:+ ov_provider_id vpc +:+ " is in region " +:+ ov_region vpc
    +:+ ", expected " +:+ vpc_region d).

Definition plan_vpc_apply (d : DesiredVpcState) (o : VpcObservation) : lres VpcApplyPlan :=
  validate d ;;
  selected ← select_exact_vpc d o;
  match selected with
  | None => Ok {| vap_action := CreateVpc; vap_provider_id := None; vap_cidr := None |}
  | Some vpc =>
      fail_if (negb (str_eqb (ov_region vpc) (vpc_region d))) (region_conflict d vpc) ;;
      cidr ← observed_cidr vpc;
      Ok {| vap_action := VpcNoop; vap_provider_id := Some (ov_provider_id vpc);
            vap_cidr := Some cidr |}
  end.

Definition multiple_attachments (vpc : ObservedVpc) (target : string) : LifecycleError :=
  Ambiguous ("Vultr VPC " +:+ ov_provider_id vpc
    +:+ " has multiple attachments for target instance " +:+ target).

Definition plan_attachment (d : DesiredVpcState) (o : VpcObservation)
    (attachments : VpcAttachmentObservation) (target : string) : lres AttachmentPlan :=
  validate d ;;
  fail_if (str_empty (trim target))
    (Validation "target Vultr instance provider id is required") ;;
  selected ← select_exact_vpc d o;
  vpc ← ok_or selected
    (Conflict "owned Vultr VPC is absent; create it before attachment");
  fail_if (negb (str_eqb (ov_region vpc) (vpc_region d))) (region_conflict d vpc) ;;
  cidr ← observed_cidr vpc;
  reject_foreign_attachments attachments target ;;
  match List.filter (attached_to target) (obs_attachments attachments) with
  | [] => Ok {| atp_action := AttachInstance (ov_provider_id vpc); atp_cidr := cidr;
                atp_private_ipv4 := None |}
  | [a] =>
      validate_private_ip_in_cidr (at_private_ipv4 a) vpc ;;
      Ok {| atp_action := AttachNoop; atp_cidr := cidr;
            atp_private_ipv4 := Some (at_private_ipv4 a) |}
  | _ => Err (multiple_attachments vpc target)
  end.

(** The action of [plan_cleanup] on the selected VPC *)
Definition cleanup_step (vpc : ObservedVpc) (attachments : VpcAttachmentObservation)
    (target_instance_id : option string) : lres CleanupAction :=
  if is_empty (obs_attachments attachments) then Ok (DeleteVpc (ov_provider_id vpc))
  else
    target ← ok_or target_instance_id
      (Conflict "refusing Vultr VPC cleanup because attachments exist but target instance is absent");
    reject_foreign_attachments attachments target ;;
    match List.filter (attached_to target) (obs_attachments attachments) with
    | [a] =>
        validate_private_ip_in_cidr (at_private_ipv4 a) vpc ;;
        Ok (DetachInstance (ov_provider_id vpc) target)
    | [] => Err (Conflict
        "Vultr VPC reports attachments but none belong to the exact target instance")
    | _ => Err (multiple_attachments vpc target)
    end.

(** [Option<String>::cmp], then the attachment identifier *)
Definition opt_leb (a b : option string) : bool :=
  match a, b with None, _ => true | Some _, None => false | Some a, Some b => str_leb a b end.
Definition attachment_leb (a b : ObservedVpcAttachment) : bool :=
  if bool_decide (at_subscription_id a = at_subscription_id b)
  then str_leb (at_attachment_id a) (at_attachment_id b)
  else opt_leb (at_subscription_id a) (at_subscription_id b).
Definition vpc_id_leb (a b : ObservedVpc) : bool :=
  str_leb (ov_provider_id a) (ov_provider_id b).

Section Cleanup.
Context `{Sha256} `{SerdeJson}.

Definition cleanup_material (d : DesiredVpcState) (o : VpcObservation)
    (attachments : VpcAttachmentObservation) (a : CleanupAction) : Value := obj
  [("schema", VNumber (Z.to_N (vpc_schema d))); ("environment", VString (vpc_environment d));
   ("region", VString (vpc_region d)); ("machine_id", VString (vpc_machine_id d));
   ("vpcs", VArray (map vpc_value
      (sort_by vpc_id_leb (List.filter (owned d) (obs_vpcs o)))));
   ("attachments", VArray (map attachment_value
      (sort_by attachment_leb (obs_attachments attachments))));
   ("action", cleanup_action_value a)].
Definition cleanup_digest (d : DesiredVpcState) (o : VpcObservation)
    (attachments : VpcAttachmentObservation) (a : CleanupAction) : lres string :=
  digest_of_value (cleanup_material d o attachments a).

Definition plan_cleanup (d : DesiredVpcState) (o : VpcObservation)
    (attachments : VpcAttachmentObservation) (target_instance_id : option string)
    : lres CleanupPlan :=
  validate d ;;
  selected ← select_exact_vpc d o;
  match selected with
  | None => Ok {| cleanup_action := CleanupNoop; destructive_digest := None |}
  | Some vpc =>
      fail_if (negb (str_eqb (ov_region vpc) (vpc_region d)))
        (Conflict ("refusing Vultr VPC cleanup because owned identity is in region "
           +:+ ov_region vpc +:+ ", expected " +:+ vpc_region d)) ;;
      observed_cidr vpc ;;
      action ← cleanup_step vpc attachments target_instance_id;
      digest ← cleanup_digest d o attachments action;
      Ok {| cleanup_action := action; destructive_digest := Some digest |}
  end.

Definition verify_cleanup_digest (d : DesiredVpcState) (o : VpcObservation)
    (attachments : VpcAttachmentObservation) (target_instance_id : option string)
    (expected_digest : string) : lres CleanupPlan :=
  fail_if (negb (lower_hex64 expected_digest))
    (Validation "Vultr VPC cleanup digest must be 64 lowercase hexadecimal characters") ;;
  plan ← plan_cleanup d o attachments target_instance_id;
  match destructive_digest plan with
  | None => Err (Conflict "Vultr VPC cleanup target is already absent")
  | Some actual =>
      fail_if (negb (str_eqb actual expected_digest))
        (Conflict "Vultr VPC cleanup digest is stale") ;;
      Ok plan
  end.
End Cleanup.

(** ** Facts *)

(** The number of addresses of a prefix is [2 ^ host_width]. *)
Definition host_width (vpc : ObservedVpc) : Z := 32 - ov_v4_subnet_mask vpc.

Lemma select_exact_vpc_Some d o vpc :
  select_exact_vpc d o = Ok (Some vpc) ↔ List.filter (owned d) (obs_vpcs o) = [vpc].
Proof.
  unfold select_exact_vpc. destruct (List.filter _ _) as [|v [|v' vs]]; split; congruence.
Qed.
Lemma select_exact_vpc_None d o :
  select_exact_vpc d o = Ok None ↔ List.filter (owned d) (obs_vpcs o) = [].
Proof.
  unfold select_exact_vpc. destruct (List.filter _ _) as [|v [|v' vs]]; split; congruence.
Qed.
Lemma observed_cidr_Ok vpc cidr :
  observed_cidr vpc = Ok cidr →
  ∃ subnet, parse_ipv4 (ov_v4_subnet vpc) = Some subnet ∧ is_private subnet = true ∧
    0 ≤ host_width vpc ≤ 31 ∧ ipv4_to_u32 subnet mod 2 ^ host_width vpc = 0 ∧
    cidr = ov_v4_subnet vpc +:+ "/" +:+ dec (ov_v4_subnet_mask vpc).
Proof.
  unfold observed_cidr. intros E. inv_ok E. reflect_in Hm0. reflect_in Hm1. reflect_in Hm2.
  exists x. unfold host_width. pose proof (proj1 (parse_ipv4_Some _ _) Hm) as [Hs Hr]. rewrite Hs.
  split_and!; [by rewrite <- Hs|done|lia|lia| |done].
  apply (f_equal ipv4_to_u32) in Hm2. unfold subnet_mask, u32_mask in Hm2.
  pose proof (ipv4_to_u32_range x Hr) as Hx. unfold in_u32, u32_max in Hx.
  rewrite land_uint_mask in Hm2 by lia.
  assert (0 < 2 ^ (32 - ov_v4_subnet_mask vpc)) by (apply Z.pow_pos_nonneg; lia).
  pose proof (Z.mod_pos_bound (ipv4_to_u32 x) (2 ^ (32 - ov_v4_subnet_mask vpc))).
  pose proof (Z.mod_le (ipv4_to_u32 x) (2 ^ (32 - ov_v4_subnet_mask vpc))).
  rewrite ipv4_u32_roundtrip in Hm2 by (unfold in_u32, u32_max; lia). lia.
Qed.

Lemma private_ip_in_cidr_Ok value vpc :
  0 ≤ host_width vpc ≤ 31 → validate_private_ip_in_cidr value vpc = Ok tt →
  ∃ ip subnet, parse_ipv4 value = Some ip ∧ parse_ipv4 (ov_v4_subnet vpc) = Some subnet ∧
    is_private ip = true ∧
    ipv4_to_u32 subnet = ipv4_to_u32 ip - ipv4_to_u32 ip mod 2 ^ host_width vpc.
Proof.
  intros Hw. unfold validate_private_ip_in_cidr. intros E. inv_ok E. reflect_in Hm0. reflect_in E.
  pose proof (proj1 (parse_ipv4_Some _ _) Hm) as [_ Hr]. pose proof (ipv4_to_u32_range x Hr) as Hx.
  unfold in_u32, u32_max in Hx. exists x, x1. split_and!; [done..|]. rewrite <- E.
  unfold subnet_mask, u32_mask, host_width in *. rewrite land_uint_mask by lia. done.
Qed.

Lemma reject_foreign_Ok o target :
  reject_foreign_attachments o target = Ok tt →
  Forall (λ a, at_subscription_id a = Some target) (obs_attachments o) ∧
  List.filter (attached_to target) (obs_attachments o) = obs_attachments o.
Proof.
  unfold reject_foreign_attachments. destruct (List.find unresolved _); [done|].
  destruct (List.find _ _) eqn:Hf; [done|]. intros _.
  assert (Ha : ∀ a, In a (obs_attachments o) → attached_to target a = true).
  { intros a Hin. pose proof (find_none _ _ Hf a Hin) as Hn. by apply negb_false in Hn. }
  split.
  - apply Forall_forall. intros a Hin%list_elem_of_In. apply Ha in Hin.
    by apply bool_decide_eq_true in Hin.
  - induction (obs_attachments o) as [|a l IH]; simpl; [done|].
    rewrite Ha by (by left). f_equal. apply IH; [|intros; apply Ha; by right].
    simpl in Hf. rewrite Ha in Hf by (by left). done.
Qed.

(** A block of [2 ^ k] addresses starting at a multiple of [2 ^ k] stays in range. *)
Lemma prefix_block_in_u32 x k :
  in_u32 x → 0 ≤ k ≤ 32 → x mod 2 ^ k = 0 → x + (2 ^ k - 1) ≤ u32_max.
Proof.
  unfold in_u32, u32_max. intros Hx Hk Hm.
  assert (0 < 2 ^ k) by (apply Z.pow_pos_nonneg; lia).
  assert (Hd : 2 ^ 32 = 2 ^ k * 2 ^ (32 - k)) by (rewrite <- Z.pow_add_r by lia; f_equal; lia).
  apply Z.div_exact in Hm; [|lia]. rewrite Hd in *. rewrite Hm in *.
  assert (x / 2 ^ k < 2 ^ (32 - k)) by nia. nia.
Qed.

(** The address of an attachment the plan accepts lies in the block the plan's CIDR
    denotes: the CIDR is the subnet and prefix of the one owned VPC, in the desired
    region, the prefix is between 1 and 32, the block starts at a multiple of its
    size, contains the address and does not leave the 32-bit range. *)
Theorem vpc_attachment_in_block d o attachments target p text :
  plan_attachment d o attachments target = Ok p → atp_private_ipv4 p = Some text →
  ∃ vpc subnet ip,
    List.filter (owned d) (obs_vpcs o) = [vpc] ∧ ov_region vpc = vpc_region d ∧
    parse_ipv4 (ov_v4_subnet vpc) = Some subnet ∧ parse_ipv4 text = Some ip ∧
    atp_cidr p = ov_v4_subnet vpc +:+ "/" +:+ dec (ov_v4_subnet_mask vpc) ∧
    1 ≤ ov_v4_subnet_mask vpc ≤ 32 ∧ ipv4_to_u32 subnet mod 2 ^ host_width vpc = 0 ∧
    0 ≤ ipv4_to_u32 subnet ≤ ipv4_to_u32 ip ∧
    ipv4_to_u32 ip ≤ ipv4_to_u32 subnet + (2 ^ host_width vpc - 1) ≤ u32_max ∧
    atp_action p = AttachNoop ∧
    ∃ a, obs_attachments attachments = [a] ∧ at_subscription_id a = Some target ∧
      at_private_ipv4 a = text.
Proof.
  unfold plan_attachment. intros E Ht. inv_ok E. reflect_in Hm3.
  subst x1. apply select_exact_vpc_Some in Hm1.
  apply observed_cidr_Ok in Hm4 as (subnet & Hs & _ & Hw & Hal & ->).
  apply reject_foreign_Ok in Hm5 as [Hall Hfil].
  destruct (List.filter (attached_to target) _) as [|a [|a' l]]; inv_ok E; [done|].
  simpl in Ht. injection Ht as <-.
  apply private_ip_in_cidr_Ok in Hm2 as (ip & subnet' & Hip & Hs' & _ & Heq); [|done].
  assert (subnet' = subnet) as -> by congruence.
  pose proof (proj1 (parse_ipv4_Some _ _) Hip) as [_ Hr%ipv4_to_u32_range].
  pose proof (proj1 (parse_ipv4_Some _ _) Hs) as [_ Hsr%ipv4_to_u32_range].
  pose proof (prefix_block_in_u32 _ (host_width x2) Hsr ltac:(lia) Hal).
  assert (0 < 2 ^ host_width x2) by (apply Z.pow_pos_nonneg; lia).
  pose proof (Z.mod_pos_bound (ipv4_to_u32 ip) (2 ^ host_width x2)).
  unfold in_u32, host_width in *. rewrite <- Hfil in Hall. inversion_clear Hall.
  exists x2, subnet, ip. unfold host_width. split_and!; [done..|lia|lia|done|lia|lia|lia|lia|done|].
  exists a. by rewrite <- Hfil.
Qed.

(** ** Tearing down *)

(** What the provider holds, and the effect of a cleanup action on it *)
Record world : Type := { w_vpcs : list ObservedVpc; w_attached : list ObservedVpcAttachment }.
Definition vpcs_of (w : world) : VpcObservation := {| obs_vpcs := w_vpcs w |}.
Definition attached_of (w : world) : VpcAttachmentObservation :=
  {| obs_attachments := w_attached w |}.
Definition effect (a : CleanupAction) (w : world) : world :=
  match a with
  | CleanupNoop => w
  | DetachInstance _ instance_id =>
      {| w_vpcs := w_vpcs w;
         w_attached := List.filter (λ a, negb (attached_to instance_id a)) (w_attached w) |}
  | DeleteVpc vpc_id =>
      {| w_vpcs := List.filter (λ v, negb (str_eqb (ov_provider_id v) vpc_id)) (w_vpcs w);
         w_attached := w_attached w |}
  end.

Section Teardown.
Context `{Sha256} `{SerdeJson}.

(** Plan and perform, at most [n] times. *)
Fixpoint teardown (n : nat) (d : DesiredVpcState) (target : option string) (w : world)
    : lres world :=
  match n with
  | O => Ok w
  | S n =>
      p ← plan_cleanup d (vpcs_of w) (attached_of w) target;
      match cleanup_action p with
      | CleanupNoop => Ok w
      | a => teardown n d target (effect a w)
      end
  end.

Lemma cleanup_step_Ok vpc attachments target a :
  cleanup_step vpc attachments target = Ok a →
  (a = DeleteVpc (ov_provider_id vpc) ∧ obs_attachments attachments = []) ∨
  (∃ i att, a = DetachInstance (ov_provider_id vpc) i ∧ target = Some i ∧
     obs_attachments attachments = [att] ∧ at_subscription_id att = Some i).
Proof.
  unfold cleanup_step. destruct (is_empty _) eqn:He.
  { intros E. inv_ok E. left. by apply is_empty_true in He. }
  intros E. inv_ok E. apply reject_foreign_Ok in Hm0 as [Hall Hfil]. rewrite Hfil in E.
  destruct (obs_attachments attachments) as [|att [|]] eqn:Ho; [done| |done].
  inv_ok E. right. exists x, att. inversion_clear Hall. by split_and!.
Qed.

Lemma plan_cleanup_Ok d o attachments target p :
  plan_cleanup d o attachments target = Ok p →
  validate d = Ok tt ∧
  ((p = {| cleanup_action := CleanupNoop; destructive_digest := None |} ∧
    List.filter (owned d) (obs_vpcs o) = []) ∨
   ∃ vpc cidr digest, List.filter (owned d) (obs_vpcs o) = [vpc] ∧
     ov_region vpc = vpc_region d ∧ observed_cidr vpc = Ok cidr ∧
     cleanup_step vpc attachments target = Ok (cleanup_action p) ∧
     destructive_digest p = Some digest).
Proof.
  unfold plan_cleanup. intros E. inv_ok E. split; [done|]. destruct x0 as [vpc|].
  - right. inv_ok E. reflect_in Hm1. apply select_exact_vpc_Some in Hm0.
    exists vpc, x0, x2. by split_and!.
  - left. inv_ok E. by apply select_exact_vpc_None in Hm0.
Qed.

Context `{!JsonValueLaws}.

Lemma plan_cleanup_intro d o attachments target vpc cidr a :
  validate d = Ok tt → List.filter (owned d) (obs_vpcs o) = [vpc] →
  ov_region vpc = vpc_region d → observed_cidr vpc = Ok cidr →
  cleanup_step vpc attachments target = Ok a →
  ∃ digest, plan_cleanup d o attachments target
    = Ok {| cleanup_action := a; destructive_digest := Some digest |}.
Proof.
  intros Hd Hf Hr Hc Ha. destruct (digest_of_value_total (cleanup_material d o attachments a))
    as [digest Hdig]. exists digest. unfold plan_cleanup. rewrite Hd. simpl.
  rewrite (proj2 (select_exact_vpc_Some d o vpc) Hf). simpl.
  rewrite (proj2 (str_eqb_true _ _) Hr). simpl. rewrite Hc. simpl. rewrite Ha. simpl.
  unfold cleanup_digest. by rewrite Hdig.
Qed.

(** A cleanup that may start ends: after at most a detachment and a deletion the plan
    is NOOP, no owned VPC is left, and every VPC the controller does not own is
    untouched. *)
Theorem vpc_teardown_completes d target w p :
  NoDup (map ov_provider_id (w_vpcs w)) →
  plan_cleanup d (vpcs_of w) (attached_of w) target = Ok p →
  ∃ w', teardown 2 d target w = Ok w' ∧
    plan_cleanup d (vpcs_of w') (attached_of w') target
      = Ok {| cleanup_action := CleanupNoop; destructive_digest := None |} ∧
    w_vpcs w' = List.filter (λ v, negb (owned d v)) (w_vpcs w).
Proof.
  intros Hn Hp. pose proof (plan_cleanup_Ok _ _ _ _ _ Hp) as [Hd [[-> Hf]|(vpc & cidr & dg & Hf & Hr & Hc & Hs & Hdg)]].
  { exists w. cbn [teardown]. rewrite Hp. split_and!; [done..|].
    simpl in Hf. clear -Hf. induction (w_vpcs w) as [|v l IH]; simpl in *; [done|].
    destruct (owned d v); simpl; [done|]. by rewrite <- IH. }
  assert (Hnoop : ∀ l, plan_cleanup d {| obs_vpcs := List.filter (λ v, negb (owned d v)) (w_vpcs w) |}
    l target = Ok {| cleanup_action := CleanupNoop; destructive_digest := None |}).
  { intros l. unfold plan_cleanup. rewrite Hd. simpl.
    rewrite (proj2 (select_exact_vpc_None d {| obs_vpcs := _ |})); [done|].
    simpl. clear. induction (w_vpcs w) as [|v l IH]; simpl; [done|].
    destruct (owned d v) eqn:E; simpl; [done|]. by rewrite E. }
  assert (Hdel : ∀ w0, w_vpcs w0 = w_vpcs w → w_vpcs (effect (DeleteVpc (ov_provider_id vpc)) w0)
    = List.filter (λ v, negb (owned d v)) (w_vpcs w)).
  { intros w0 E. simpl. rewrite E. by apply filter_complement. }
  cbn [teardown]. rewrite Hp. cbn [mbind result_bind].
  apply cleanup_step_Ok in Hs as Hs'. destruct Hs' as [[Ha Hat]|(i & att & Ha & -> & Hat & Hsub)].
  - rewrite Ha. exists (effect (DeleteVpc (ov_provider_id vpc)) w).
    assert (Hnext : plan_cleanup d (vpcs_of (effect (DeleteVpc (ov_provider_id vpc)) w))
      (attached_of (effect (DeleteVpc (ov_provider_id vpc)) w)) target
      = Ok {| cleanup_action := CleanupNoop; destructive_digest := None |}).
    { unfold vpcs_of. rewrite Hdel by done. apply Hnoop. }
    rewrite Hnext. split_and!; [done..|by apply Hdel].
  - rewrite Ha. set (w1 := effect (DetachInstance (ov_provider_id vpc) i) w).
    assert (Hw1 : w_attached w1 = []).
    { subst w1. simpl. simpl in Hat. rewrite Hat. simpl. unfold attached_to.
      by rewrite bool_decide_true. }
    destruct (plan_cleanup_intro d (vpcs_of w1) (attached_of w1) (Some i) vpc cidr
      (DeleteVpc (ov_provider_id vpc))) as [digest Hp1]; [done..| |].
    { unfold cleanup_step, attached_of. cbn [obs_attachments]. by rewrite Hw1. }
    rewrite Hp1. cbn [mbind result_bind cleanup_action teardown].
    exists (effect (DeleteVpc (ov_provider_id vpc)) w1). split_and!; [done| |by apply Hdel].
    unfold vpcs_of. rewrite Hdel by done. apply Hnoop.
Qed.
End Teardown.

(** ** Samples *)
Module VpcSample.
Definition desired : DesiredVpcState := {|
  vpc_schema := 1; vpc_environment := "application-acceptance"; vpc_region := "waw";
  vpc_machine_id := "application-acceptance-1" |}.
Definition vpc : ObservedVpc := {|
  ov_provider_id := "vpc-1"; ov_region := "waw";
  ov_description := "managed-by-sing-box:vpc:application-acceptance:application-acceptance-1";
  ov_v4_subnet := "10.0.4.0"; ov_v4_subnet_mask := 24 |}.
Definition foreign : ObservedVpc := {|
  ov_provider_id := "vpc-2"; ov_region := "waw"; ov_description := "office";
  ov_v4_subnet := "10.9.0.0"; ov_v4_subnet_mask := 20 |}.
Definition attachment : ObservedVpcAttachment := {|
  at_attachment_id := "attachment-1"; at_subscription_id := Some "instance-1";
  at_private_ipv4 := "10.0.4.255" |}.
Definition start : world := {| w_vpcs := [foreign; vpc]; w_attached := [attachment] |}.
Definition attach_plan : AttachmentPlan := {|
  atp_action := AttachNoop; atp_cidr := "10.0.4.0/24"; atp_private_ipv4 := Some "10.0.4.255" |}.

(** Witness of [vpc_attachment_in_block]: the last address of the block *)
Lemma vpc_attachment_in_block_witness :
  ∃ vpc subnet ip,
    List.filter (owned desired) (obs_vpcs (vpcs_of start)) = [vpc] ∧
    ov_region vpc = vpc_region desired ∧
    parse_ipv4 (ov_v4_subnet vpc) = Some subnet ∧ parse_ipv4 "10.0.4.255" = Some ip ∧
    atp_cidr attach_plan = ov_v4_subnet vpc +:+ "/" +:+ dec (ov_v4_subnet_mask vpc) ∧
    1 ≤ ov_v4_subnet_mask vpc ≤ 32 ∧ ipv4_to_u32 subnet mod 2 ^ host_width vpc = 0 ∧
    0 ≤ ipv4_to_u32 subnet ≤ ipv4_to_u32 ip ∧
    ipv4_to_u32 ip ≤ ipv4_to_u32 subnet + (2 ^ host_width vpc - 1) ≤ u32_max ∧
    atp_action attach_plan = AttachNoop ∧
    ∃ a, obs_attachments (attached_of start) = [a] ∧ at_subscription_id a = Some "instance-1" ∧
      at_private_ipv4 a = "10.0.4.255".
Proof.
  apply (vpc_attachment_in_block desired (vpcs_of start) (attached_of start) "instance-1"
    attach_plan "10.0.4.255"); vm_compute; reflexivity.
Defined.

Definition first_plan : CleanupPlan :=
  match plan_cleanup desired (vpcs_of start) (attached_of start) (Some "instance-1") with
  | Ok p => p
  | Err _ => {| cleanup_action := CleanupNoop; destructive_digest := None |}
  end.

(** Witness of [vpc_teardown_completes]: one attached instance *)
Lemma vpc_teardown_completes_witness :
  ∃ w', teardown 2 desired (Some "instance-1") start = Ok w' ∧
    plan_cleanup desired (vpcs_of w') (attached_of w') (Some "instance-1")
      = Ok {| cleanup_action := CleanupNoop; destructive_digest := None |} ∧
    w_vpcs w' = List.filter (λ v, negb (owned desired v)) (w_vpcs start).
Proof.
  apply (vpc_teardown_completes desired (Some "instance-1") start first_plan).
  - vm_compute. repeat constructor; set_solver.
  - vm_compute. reflexivity.
Defined.
Example teardown_keeps_foreign :
  cleanup_action first_plan = DetachInstance "vpc-1" "instance-1" ∧
  teardown 2 desired (Some "instance-1") start
  = Ok {| w_vpcs := [foreign]; w_attached := [] |}.
Proof. vm_compute. split; reflexivity. Qed.
End VpcSample.
