(* ===== verification/MeshLifecycle.v ===== *)
(** * The Cloudflare Mesh lifecycle

    Models [edge-controller-core/src/cloudflare_mesh_lifecycle.rs]: one owned Mesh
    node with its routes, brought up and torn down one provider action at a time. *)

From S2P Require Import Prelude RustStd RustNet HostTypes Concrete Json.
From S2P Require Import PlanAuthority LifecycleCommon.

Definition CURRENT_SCHEMA : Z := 1.
Definition NODE_NAME_PREFIX : string := "singbox-line3-".
Definition OWNERSHIP_COMMENT_PREFIX : string := "managed-by-sing-box:line3:".

Record MeshRouteSpec : Type := { rs_network : string }.
Record DesiredMeshState : Type := {
  mesh_schema : Z;
  mesh_account_id : string;
  mesh_environment : string;
  mesh_node_name : string;
  mesh_routes : list MeshRouteSpec
}.

Record ObservedMeshNode : Type := {
  node_provider_id : string;
  node_name : string;
  node_status : option string
}.
Record ObservedMeshRoute : Type := {
  route_provider_id : string;
  route_network : string;
  route_tunnel_id : string;
  route_tunnel_type : option string;
  route_comment : option string
}.
Record MeshObservation : Type := {
  obs_nodes : list ObservedMeshNode;
  obs_routes : list ObservedMeshRoute
}.

Inductive ApplyAction : Type :=
| ApplyNoop
| CreateNode
| CreateRoute (network : string).
Record ApplyPlan : Type := { apply_action : ApplyAction; apply_node_id : option string }.

Inductive CleanupAction : Type :=
| CleanupNoop
| DeleteRoute (route_id network : string)
| DeleteNode (node_id : string).
#[global] Instance CleanupAction_eq_dec : EqDecision CleanupAction.
Proof. solve_decision. Defined.
Record CleanupPlan : Type := {
  cleanup_action : CleanupAction;
  destructive_digest : option string
}.
#[global] Instance CleanupPlan_eq_dec : EqDecision CleanupPlan.
Proof. solve_decision. Defined.

(** ** JSON forms (derived [Serialize]) *)

Definition node_value (n : ObservedMeshNode) : Value := obj
  [("provider_id", VString (node_provider_id n)); ("name", VString (node_name n));
   ("status", opt_string (node_status n))].
Definition route_value (r : ObservedMeshRoute) : Value := obj
  [("provider_id", VString (route_provider_id r)); ("network", VString (route_network r));
   ("tunnel_id", VString (route_tunnel_id r)); ("tunnel_type", opt_string (route_tunnel_type r));
   ("comment", opt_string (route_comment r))].
Definition apply_action_value (a : ApplyAction) : Value :=
  match a with
  | ApplyNoop => obj [("kind", VString "NOOP")]
  | CreateNode => obj [("kind", VString "CREATE_NODE")]
  | CreateRoute network => obj [("kind", VString "CREATE_ROUTE"); ("network", VString network)]
  end.
Definition cleanup_action_value (a : CleanupAction) : Value :=
  match a with
  | CleanupNoop => obj [("kind", VString "NOOP")]
  | DeleteRoute route_id network =>
      obj [("kind", VString "DELETE_ROUTE"); ("route_id", VString route_id);
           ("network", VString network)]
  | DeleteNode node_id => obj [("kind", VString "DELETE_NODE"); ("node_id", VString node_id)]
  end.

#[global] Instance desired_serialize : Serialize DesiredMeshState := λ d, Ok (obj
  [("schema", VNumber (Z.to_N (mesh_schema d))); ("account_id", VString (mesh_account_id d));
   ("environment", VString (mesh_environment d)); ("node_name", VString (mesh_node_name d));
   ("routes", VArray (map (λ r, obj [("network", VString (rs_network r))]) (mesh_routes d)))]).
#[global] Instance observation_serialize : Serialize MeshObservation := λ o,
  Ok (obj [("nodes", VArray (map node_value (obs_nodes o)));
           ("routes", VArray (map route_value (obs_routes o)))]).
#[global] Instance apply_plan_serialize : Serialize ApplyPlan := λ p,
  Ok (obj [("action", apply_action_value (apply_action p));
           ("node_id", opt_string (apply_node_id p))]).
#[global] Instance cleanup_plan_serialize : Serialize CleanupPlan := λ p,
  Ok (obj [("action", cleanup_action_value (cleanup_action p));
           ("destructive_digest", opt_string (destructive_digest p))]).

(** ** Canonical networks *)

Definition canonical_network (value : string) : lres string :=
  '(address, prefix) ← ok_or (split_once "/" value)
    (Validation ("Cloudflare Mesh route " +:+ value +:+ " must use CIDR notation"));
  ip ← ok_or (parse_ip address)
    (Validation ("invalid Cloudflare Mesh route address " +:+ address +:+ ": " +:+ ip_error));
  prefix ← map_err (λ err, Validation ("invalid Cloudflare Mesh route prefix in " +:+ value
    +:+ ": " +:+ err)) (parse_u8 prefix);
  fail_if (prefix =? 0) (Validation ("default Cloudflare Mesh route " +:+ value
    +:+ " is intentionally disabled until the explicit full-Internet PoC gate")) ;;
  match ip with
  | V4 ip =>
      fail_if (32 <? prefix)
        (Validation ("IPv4 Cloudflare Mesh route prefix must be <= 32: " +:+ value)) ;;
      let network := ipv4_of_u32 (Z.land (ipv4_to_u32 ip) (u32_mask (32 - prefix))) in
      Ok (ipv4_display network +:+ "/" +:+ dec prefix)
  | V6 ip =>
      fail_if (128 <? prefix)
        (Validation ("IPv6 Cloudflare Mesh route prefix must be <= 128: " +:+ value)) ;;
      let network := ipv6_of_u128 (Z.land (ipv6_to_u128 ip) (u128_mask (128 - prefix))) in
      Ok (ipv6_display network +:+ "/" +:+ dec prefix)
  end.

Definition validate_account_id (value : string) : lres unit :=
  fail_if (negb (slen value =? 32) || negb (str_all is_lower_hex value))
    (Validation "Cloudflare account_id must be exactly 32 lowercase hexadecimal characters").

Definition ownership_comment (d : DesiredMeshState) : string :=
  OWNERSHIP_COMMENT_PREFIX +:+ mesh_environment d.

(** The loop body of [validate] over the set of networks already seen *)
Definition check_route (seen : list string) (r : MeshRouteSpec) : lres (list string) :=
  canonical ← canonical_network (rs_network r);
  fail_if (negb (str_eqb canonical (rs_network r)))
    (Validation ("Cloudflare Mesh route " +:+ rs_network r +:+ " is not canonical; use "
       +:+ canonical)) ;;
  fail_if (mem (rs_network r) seen)
    (Validation ("duplicate Cloudflare Mesh route " +:+ rs_network r)) ;;
  Ok (rs_network r :: seen).

Definition validate (d : DesiredMeshState) : lres unit :=
  fail_if (negb (mesh_schema d =? CURRENT_SCHEMA)) (UnsupportedSchema (mesh_schema d)) ;;
  validate_account_id (mesh_account_id d) ;;
  validate_identifier "environment" (mesh_environment d) 64 ;;
  validate_identifier "node_name" (mesh_node_name d) 128 ;;
  fail_if (negb (starts_with NODE_NAME_PREFIX (mesh_node_name d)))
    (Validation ("Cloudflare Mesh node_name must start with " +:+ NODE_NAME_PREFIX)) ;;
  fail_if (100 <? slen (ownership_comment d))
    (Validation "derived Cloudflare Mesh ownership comment exceeds 100 characters") ;;
  try_fold check_route [] (mesh_routes d) ;;
  Ok tt.

Definition parse_json `{FromJson DesiredMeshState} (input : string) : lres DesiredMeshState :=
  desired ← map_err JsonError (from_str input);
  validate desired ;; Ok desired.

(** ** Selection *)

Definition named (d : DesiredMeshState) (n : ObservedMeshNode) : bool :=
  str_eqb (node_name n) (mesh_node_name d).
Definition select_exact_node (d : DesiredMeshState) (o : MeshObservation)
    : lres (option ObservedMeshNode) :=
  match List.filter (named d) (obs_nodes o) with
  | [] => Ok None
  | [n] => Ok (Some n)
  | matches => Err (Ambiguous ("Cloudflare Mesh node " +:+ mesh_node_name d
      +:+ " is ambiguous: observed " +:+ dec (Z.of_nat (length matches))
      +:+ " exact-name matches"))
  end.

(** The routes of the node's tunnel *)
Definition of_node (node_id : string) (r : ObservedMeshRoute) : bool :=
  str_eqb (route_tunnel_id r) node_id
  && bool_decide (route_tunnel_type r = Some "warp_connector").

Definition check_observed_route (d : DesiredMeshState) (r : ObservedMeshRoute) : lres unit :=
  canonical ← map_err (λ err, Conflict ("Cloudflare Mesh node " +:+ mesh_node_name d
      +:+ " returned invalid route " +:+ route_provider_id r +:+ ": "
      +:+ lifecycle_error_text "Cloudflare Mesh" err)) (canonical_network (route_network r));
  fail_if (negb (str_eqb canonical (route_network r)))
    (Conflict ("Cloudflare Mesh node " +:+ mesh_node_name d +:+ " returned non-canonical route "
       +:+ route_provider_id r +:+ ": " +:+ route_network r)).

Definition exact_node_routes (d : DesiredMeshState) (o : MeshObservation)
    (n : ObservedMeshNode) : lres (list ObservedMeshRoute) :=
  let routes := List.filter (of_node (node_provider_id n)) (obs_routes o) in
  for_each (check_observed_route d) routes ;; Ok routes.

(** ** Plans *)

Definition owned_route (d : DesiredMeshState) (r : ObservedMeshRoute) : bool :=
  bool_decide (route_comment r = Some (ownership_comment d)).
Definition desired_networks (d : DesiredMeshState) : list string :=
  map rs_network (mesh_routes d).

Definition check_managed (d : DesiredMeshState) (r : ObservedMeshRoute) : lres unit :=
  fail_if (negb (owned_route d r))
    (Conflict ("Cloudflare Mesh node " +:+ mesh_node_name d +:+ " has foreign route "
       +:+ route_provider_id r +:+ " (" +:+ route_network r +:+ ")")) ;;
  fail_if (negb (mem (route_network r) (desired_networks d)))
    (Conflict ("Cloudflare Mesh node " +:+ mesh_node_name d +:+ " has managed route "
       +:+ route_network r +:+ " not present in desired state; remove it through cleanup before changing the route set")).

Definition matching (network : string) (routes : list ObservedMeshRoute)
    : list ObservedMeshRoute :=
  List.filter (λ r, str_eqb (route_network r) network) routes.

(** The first desired route that is missing *)
Fixpoint first_missing (d : DesiredMeshState) (routes : list ObservedMeshRoute)
    (specs : list MeshRouteSpec) : lres (option string) :=
  match specs with
  | [] => Ok None
  | spec :: specs =>
      match matching (rs_network spec) routes with
      | [] => Ok (Some (rs_network spec))
      | [_] => first_missing d routes specs
      | matches => Err (Ambiguous ("Cloudflare Mesh route " +:+ rs_network spec
          +:+ " is ambiguous on node " +:+ mesh_node_name d +:+ ": observed "
          +:+ dec (Z.of_nat (length matches)) +:+ " matches"))
      end
  end.

Definition plan_apply (d : DesiredMeshState) (o : MeshObservation) : lres ApplyPlan :=
  validate d ;;
  selected ← select_exact_node d o;
  match selected with
  | None => Ok {| apply_action := CreateNode; apply_node_id := None |}
  | Some node =>
      routes ← exact_node_routes d o node;
      for_each (check_managed d) routes ;;
      missing ← first_missing d routes (mesh_routes d);
      Ok {| apply_action := match missing with
                            | Some network => CreateRoute network
                            | None => ApplyNoop
                            end;
            apply_node_id := Some (node_provider_id node) |}
  end.

Definition check_cleanup_route (d : DesiredMeshState) (r : ObservedMeshRoute) : lres unit :=
  fail_if (negb (owned_route d r))
    (Conflict ("refusing Cloudflare Mesh cleanup because node " +:+ mesh_node_name d
       +:+ " has foreign route " +:+ route_provider_id r +:+ " (" +:+ route_network r +:+ ")")).

(** By network, then by provider identifier *)
Definition route_leb (a b : ObservedMeshRoute) : bool :=
  if str_eqb (route_network a) (route_network b)
  then str_leb (route_provider_id a) (route_provider_id b)
  else str_leb (route_network a) (route_network b).
Definition node_leb (a b : ObservedMeshNode) : bool :=
  str_leb (node_provider_id a) (node_provider_id b).

Section Cleanup.
Context `{Sha256} `{SerdeJson}.

Definition cleanup_material (d : DesiredMeshState) (o : MeshObservation) (a : CleanupAction)
    : Value :=
  let nodes := sort_by node_leb (List.filter (named d) (obs_nodes o)) in
  let node_ids := map node_provider_id nodes in
  let routes := sort_by route_leb
    (List.filter (λ r, mem (route_tunnel_id r) node_ids) (obs_routes o)) in
  obj [("schema", VNumber (Z.to_N (mesh_schema d))); ("account_id", VString (mesh_account_id d));
       ("environment", VString (mesh_environment d)); ("node_name", VString (mesh_node_name d));
       ("nodes", VArray (map node_value nodes)); ("routes", VArray (map route_value routes));
       ("action", cleanup_action_value a)].
Definition cleanup_digest (d : DesiredMeshState) (o : MeshObservation) (a : CleanupAction)
    : lres string := digest_of_value (cleanup_material d o a).

Definition plan_cleanup (d : DesiredMeshState) (o : MeshObservation) : lres CleanupPlan :=
  validate d ;;
  selected ← select_exact_node d o;
  match selected with
  | None => Ok {| cleanup_action := CleanupNoop; destructive_digest := None |}
  | Some node =>
      routes ← exact_node_routes d o node;
      for_each (check_cleanup_route d) routes ;;
      let action := match sort_by route_leb routes with
                    | r :: _ => DeleteRoute (route_provider_id r) (route_network r)
                    | [] => DeleteNode (node_provider_id node)
                    end in
      digest ← cleanup_digest d o action;
      Ok {| cleanup_action := action; destructive_digest := Some digest |}
  end.

Definition verify_cleanup_digest (d : DesiredMeshState) (o : MeshObservation)
    (expected_digest : string) : lres CleanupPlan :=
  fail_if (negb (lower_hex64 expected_digest))
    (Validation "Cloudflare Mesh cleanup digest must be 64 lowercase hexadecimal characters") ;;
  plan ← plan_cleanup d o;
  match destructive_digest plan with
  | None => Err (Conflict "Cloudflare Mesh cleanup target is already absent")
  | Some actual =>
      fail_if (negb (str_eqb actual expected_digest))
        (Conflict "Cloudflare Mesh cleanup digest is stale") ;;
      Ok plan
  end.
End Cleanup.

(** ** Convergence *)

Lemma check_route_Ok s r s' :
  check_route s r = Ok s' → canonical_network (rs_network r) = Ok (rs_network r).
Proof. unfold check_route. intros Hr. inv_ok Hr. reflect_in Hm0. by subst. Qed.

Lemma validate_routes d :
  validate d = Ok tt →
  Forall (λ r, canonical_network (rs_network r) = Ok (rs_network r)) (mesh_routes d).
Proof.
  unfold validate. intros E. inv_ok E. eapply try_fold_Forall; [|eassumption].
  intros s r s'. apply check_route_Ok.
Qed.

(** Specifications without an observed route *)
Definition missing (routes : list ObservedMeshRoute) (specs : list MeshRouteSpec)
    : list MeshRouteSpec :=
  List.filter (λ s, is_empty (matching (rs_network s) routes)) specs.

Lemma matching_unique network routes :
  NoDup (map route_network routes) → (length (matching network routes) ≤ 1)%nat.
Proof.
  unfold matching. induction routes as [|r rs IH]; simpl; [lia|].
  intros [Hr Hn]%NoDup_cons. destruct (str_eqb (route_network r) network) eqn:E; [|by apply IH].
  apply str_eqb_true in E as <-. simpl.
  replace (List.filter _ rs) with (@nil ObservedMeshRoute); [simpl; lia|].
  clear -Hr. induction rs as [|x rs IH]; simpl in *; [done|].
  rewrite not_elem_of_cons in Hr. destruct Hr as [Hx Hr].
  replace (str_eqb (route_network x) (route_network r)) with false;
    [by apply IH|symmetry; apply str_eqb_false; congruence].
Qed.

Lemma first_missing_spec d routes specs :
  NoDup (map route_network routes) →
  first_missing d routes specs
  = Ok (match missing routes specs with [] => None | s :: _ => Some (rs_network s) end).
Proof.
  intros Hn. induction specs as [|s specs IH]; simpl; [done|].
  pose proof (matching_unique (rs_network s) routes Hn) as Hl. unfold missing in *. simpl.
  destruct (matching (rs_network s) routes) as [|r [|r' rs]]; simpl in *; [done|done|lia].
Qed.

Lemma check_managed_intro d r :
  owned_route d r = true → mem (route_network r) (desired_networks d) = true →
  check_managed d r = Ok tt.
Proof. unfold check_managed. by intros -> ->. Qed.

Section Converge.
(** The identifier the provider gives to a new node or route *)
Context (fresh : MeshObservation → string).
Context (fresh_tunnel : ∀ o r, r ∈ obs_routes o → route_tunnel_id r ≠ fresh o).

Definition new_route (d : DesiredMeshState) (o : MeshObservation) (node_id network : string)
    : ObservedMeshRoute := {|
  route_provider_id := fresh o; route_network := network; route_tunnel_id := node_id;
  route_tunnel_type := Some "warp_connector"; route_comment := Some (ownership_comment d) |}.

(** The effect of an apply action on the provider *)
Definition effect (d : DesiredMeshState) (p : ApplyPlan) (o : MeshObservation)
    : MeshObservation :=
  match apply_action p, apply_node_id p with
  | CreateNode, _ =>
      {| obs_nodes := obs_nodes o ++
           [{| node_provider_id := fresh o; node_name := mesh_node_name d;
               node_status := None |}];
         obs_routes := obs_routes o |}
  | CreateRoute network, Some node_id =>
      {| obs_nodes := obs_nodes o;
         obs_routes := obs_routes o ++ [new_route d o node_id network] |}
  | _, _ => o
  end.

(** Plan and perform, at most [n] times. *)
Fixpoint converge (n : nat) (d : DesiredMeshState) (o : MeshObservation)
    : lres MeshObservation :=
  match n with
  | O => Ok o
  | S n =>
      p ← plan_apply d o;
      match apply_action p with
      | ApplyNoop => Ok o
      | _ => converge n d (effect d p o)
      end
  end.

(** The node exists with only owned, desired routes, at most one per network. *)
Record node_ok (d : DesiredMeshState) (o : MeshObservation) (node : ObservedMeshNode)
    (routes : list ObservedMeshRoute) : Prop := {
  ok_valid : validate d = Ok tt;
  ok_node : List.filter (named d) (obs_nodes o) = [node];
  ok_routes : List.filter (of_node (node_provider_id node)) (obs_routes o) = routes;
  ok_observed : Forall (λ r, check_observed_route d r = Ok tt) routes;
  ok_managed : Forall (λ r, check_managed d r = Ok tt) routes;
  ok_unique : NoDup (map route_network routes)
}.

Lemma node_ok_plan d o node routes :
  node_ok d o node routes →
  plan_apply d o = Ok {|
    apply_action := match missing routes (mesh_routes d) with
                    | [] => ApplyNoop | s :: _ => CreateRoute (rs_network s) end;
    apply_node_id := Some (node_provider_id node) |}.
Proof.
  intros [Hv Hn Hr Ho Hm Hu]. unfold plan_apply, select_exact_node, exact_node_routes.
  rewrite Hv, Hn. simpl. rewrite Hr.
  rewrite (proj2 (for_each_Ok (check_observed_route d) routes) Ho). simpl.
  rewrite (proj2 (for_each_Ok (check_managed d) routes) Hm). simpl.
  rewrite first_missing_spec by done. simpl. by destruct (missing _ _).
Qed.

Lemma of_node_new d o id network : of_node id (new_route d o id network) = true.
Proof. unfold of_node. simpl. by rewrite (proj2 (str_eqb_true _ _) eq_refl). Qed.

Lemma matching_snoc network routes r :
  matching network (routes ++ [r])
  = matching network routes ++ (if str_eqb (route_network r) network then [r] else []).
Proof. unfold matching. by rewrite List.filter_app. Qed.

(** Creating a missing route leaves the node in order, with fewer routes missing. *)
Lemma node_ok_step d o node routes s rest :
  node_ok d o node routes → missing routes (mesh_routes d) = s :: rest →
  let p := {| apply_action := CreateRoute (rs_network s);
              apply_node_id := Some (node_provider_id node) |} in
  let routes' := routes ++ [new_route d o (node_provider_id node) (rs_network s)] in
  node_ok d (effect d p o) node routes' ∧
  (length (missing routes' (mesh_routes d)) < length (missing routes (mesh_routes d)))%nat.
Proof.
  intros [Hv Hn Hr Ho Hm Hu] Hs p routes'. set (r := new_route d o _ _) in *.
  assert (Hin : In s (missing routes (mesh_routes d))) by (rewrite Hs; by left).
  apply filter_In in Hin as [Hin He]. apply is_empty_true in He.
  assert (Hcan : canonical_network (rs_network s) = Ok (rs_network s)).
  { apply validate_routes in Hv. rewrite Forall_forall in Hv. by apply Hv, list_elem_of_In. }
  split.
  - split; [done|done|..].
    + simpl. rewrite List.filter_app, Hr. simpl. subst r. by rewrite of_node_new.
    + apply Forall_app. split; [done|]. constructor; [|constructor].
      unfold check_observed_route. simpl. rewrite Hcan. simpl.
      by rewrite (proj2 (str_eqb_true _ _) eq_refl).
    + apply Forall_app. split; [done|]. constructor; [|constructor].
      apply check_managed_intro; [by apply bool_decide_eq_true|].
      apply mem_true, list_elem_of_In. exact (in_map rs_network _ _ Hin).
    + subst routes'. rewrite map_app. apply NoDup_app. split_and!; [done| |].
      * intros n Hn1. simpl. rewrite elem_of_cons, elem_of_nil. intros [->|[]].
        apply list_elem_of_In, in_map_iff in Hn1 as (x & Hx & Hxin).
        assert (Hf : In x (matching (rs_network s) routes)).
        { apply filter_In. split; [done|]. by apply str_eqb_true. }
        by rewrite He in Hf.
      * simpl. apply NoDup_singleton.
  - subst routes'. unfold missing. clear Hs rest. revert Hin.
    assert (Hle : ∀ specs, (length (List.filter (λ s, is_empty (matching (rs_network s) (routes ++ [r]))) specs)
      ≤ length (List.filter (λ s, is_empty (matching (rs_network s) routes)) specs))%nat).
    { intros specs. induction specs as [|x specs IH]; simpl; [lia|].
      rewrite matching_snoc.
      destruct (matching (rs_network x) routes), (str_eqb (route_network r) (rs_network x));
        cbn [is_empty app length]; lia. }
    induction (mesh_routes d) as [|x specs IH]; simpl; [done|].
    intros [->|Hin].
    + rewrite matching_snoc, He. change (route_network r) with (rs_network s).
      rewrite (proj2 (str_eqb_true (rs_network s) (rs_network s)) eq_refl).
      specialize (Hle specs). cbn [is_empty app length]. lia.
    + specialize (IH Hin). rewrite matching_snoc.
      destruct (matching (rs_network x) routes), (str_eqb (route_network r) (rs_network x));
        cbn [is_empty app length]; lia.
Qed.

Lemma converge_ok k d o node routes :
  node_ok d o node routes → (length (missing routes (mesh_routes d)) ≤ k)%nat →
  ∃ o' more, converge k d o = Ok o' ∧ node_ok d o' node (routes ++ more) ∧
    missing (routes ++ more) (mesh_routes d) = [] ∧
    obs_nodes o' = obs_nodes o ∧ obs_routes o' = obs_routes o ++ more ∧
    Forall (λ r, of_node (node_provider_id node) r = true ∧ owned_route d r = true) more.
Proof.
  revert o routes. induction k as [|k IH]; intros o routes Hok Hk.
  - exists o, []. rewrite !app_nil_r. split_and!; [done..| |done|done|constructor].
    destruct (missing routes (mesh_routes d)); [done|simpl in Hk; lia].
  - cbn [converge]. rewrite (node_ok_plan _ _ _ _ Hok). cbn [mbind result_bind apply_action].
    destruct (missing routes (mesh_routes d)) as [|s rest] eqn:Hs.
    + exists o, []. rewrite !app_nil_r. by split_and!.
    + destruct (node_ok_step d o node routes s rest Hok Hs) as [Hok' Hlt].
      apply IH in Hok' as (o' & more & Hc & Hok' & Hm & Hns & Hrs & Hown);
        [|rewrite Hs in Hlt; simpl in *; lia].
      rewrite <- app_assoc in Hok', Hm.
      exists o', (new_route d o (node_provider_id node) (rs_network s) :: more).
      split_and!; [done..| |].
      * rewrite Hrs. simpl. by rewrite <- app_assoc.
      * constructor; [|done]. split; [apply of_node_new|by apply bool_decide_eq_true].
Qed.

(** The Mesh is up: the plan is NOOP, the node was there or was added beside the others,
    every added route is one of the node and owned, and the networks of the node's routes
    are the desired ones, each once. *)
Record brought_up (d : DesiredMeshState) (o o' : MeshObservation) (node : ObservedMeshNode)
    : Prop := {
  up_plan : plan_apply d o' = Ok {| apply_action := ApplyNoop;
                                    apply_node_id := Some (node_provider_id node) |};
  up_node : List.filter (named d) (obs_nodes o') = [node];
  up_nodes : obs_nodes o' = obs_nodes o ∨
    List.filter (named d) (obs_nodes o) = [] ∧ obs_nodes o' = obs_nodes o ++ [node];
  up_routes : ∃ routes, obs_routes o' = obs_routes o ++ routes ∧
    Forall (λ r, of_node (node_provider_id node) r = true ∧ owned_route d r = true) routes;
  up_once : NoDup (map route_network
    (List.filter (of_node (node_provider_id node)) (obs_routes o')));
  up_networks network :
    network ∈ map route_network (List.filter (of_node (node_provider_id node)) (obs_routes o')) ↔
    network ∈ desired_networks d
}.

Lemma check_managed_network d r : check_managed d r = Ok tt → route_network r ∈ desired_networks d.
Proof.
  unfold check_managed. intros ([] & _ & Hm%fail_if_Ok%negb_false)%bind_Ok.
  by apply mem_true in Hm.
Qed.
Lemma none_missing routes specs network :
  missing routes specs = [] → network ∈ map rs_network specs → network ∈ map route_network routes.
Proof.
  intros Hm (s & <- & Hs)%list_elem_of_In%in_map_iff.
  destruct (matching (rs_network s) routes) as [|r rs] eqn:Er.
  - assert (In s (missing routes specs)) as Hin
      by (apply filter_In; split; [done|by rewrite Er]).
    by rewrite Hm in Hin.
  - assert (In r (matching (rs_network s) routes)) as Hin by (rewrite Er; by left).
    apply filter_In in Hin as [Hin Hn%str_eqb_true]. rewrite <- Hn.
    by apply list_elem_of_In, in_map.
Qed.
Lemma node_ok_up d o o' node routes more :
  node_ok d o' node (routes ++ more) → missing (routes ++ more) (mesh_routes d) = [] →
  obs_nodes o' = obs_nodes o ∨
    List.filter (named d) (obs_nodes o) = [] ∧ obs_nodes o' = obs_nodes o ++ [node] →
  obs_routes o' = obs_routes o ++ more →
  Forall (λ r, of_node (node_provider_id node) r = true ∧ owned_route d r = true) more →
  brought_up d o o' node.
Proof.
  intros Hok Hm Hn Hr Hown. pose proof (node_ok_plan _ _ _ _ Hok) as Hp. rewrite Hm in Hp.
  destruct Hok as [_ Hf Hrs _ Hman Hu]. split; [done..|by exists more| |]; rewrite Hrs; [done|].
  intros network. split; [|by apply none_missing].
  intros (r & <- & Hin)%list_elem_of_In%in_map_iff. apply check_managed_network.
  exact (proj1 (List.Forall_forall _ _) Hman r Hin).
Qed.

Lemma plan_apply_node d o p :
  plan_apply d o = Ok p → validate d = Ok tt ∧
  (List.filter (named d) (obs_nodes o) = [] ∨
   ∃ node, List.filter (named d) (obs_nodes o) = [node] ∧
     let routes := List.filter (of_node (node_provider_id node)) (obs_routes o) in
     Forall (λ r, check_observed_route d r = Ok tt) routes ∧
     Forall (λ r, check_managed d r = Ok tt) routes).
Proof.
  unfold plan_apply, select_exact_node. intros E. inv_ok E. split; [done|].
  destruct (List.filter (named d) (obs_nodes o)) as [|n [|n' ns]] eqn:Hf; inv_ok Hm0; [by left|].
  right. exists n. split; [done|]. inv_ok E. unfold exact_node_routes in Hm0. inv_ok Hm0.
  split; by apply for_each_Ok.
Qed.

(** A created node has no routes yet. *)
Lemma node_ok_created d o :
  validate d = Ok tt → List.filter (named d) (obs_nodes o) = [] →
  let p := {| apply_action := CreateNode; apply_node_id := None |} in
  node_ok d (effect d p o)
    {| node_provider_id := fresh o; node_name := mesh_node_name d; node_status := None |} [].
Proof.
  intros Hv Hf p. split; [done|..|constructor|constructor|constructor]; simpl.
  - rewrite List.filter_app, Hf. unfold named. simpl.
    by rewrite (proj2 (str_eqb_true (mesh_node_name d) _) eq_refl).
  - apply filter_none. intros r Hr. unfold of_node.
    by rewrite (proj2 (str_eqb_false _ _) (fresh_tunnel o r Hr)).
Qed.
Lemma plan_apply_absent d o :
  validate d = Ok tt → List.filter (named d) (obs_nodes o) = [] →
  plan_apply d o = Ok {| apply_action := CreateNode; apply_node_id := None |}.
Proof. intros Hv Hf. unfold plan_apply, select_exact_node. by rewrite Hv, Hf. Qed.

(** A Mesh that may be applied converges: on a provider that performs each action and
    gives new nodes fresh identifiers, one action for the node and one per missing
    route bring it up; no existing node or route is changed on the way. *)
Theorem mesh_apply_converges d o p :
  (∀ id, NoDup (map route_network (List.filter (of_node id) (obs_routes o)))) →
  plan_apply d o = Ok p →
  ∃ o' node,
    converge (S (length (mesh_routes d))) d o = Ok o' ∧ brought_up d o o' node.
Proof.
  intros Hu Hp. assert (Hlen : ∀ rs, (length (missing rs (mesh_routes d)) ≤ length (mesh_routes d))%nat)
    by (intros; apply filter_length_le).
  destruct (plan_apply_node _ _ _ Hp) as [Hv [Hf|(node & Hf & Ho & Hm)]].
  - cbn [converge]. rewrite plan_apply_absent by done. cbn [mbind result_bind apply_action].
    set (node := {| node_provider_id := fresh o; node_name := mesh_node_name d; node_status := None |}).
    set (o1 := effect d _ o). assert (Hok : node_ok d o1 node []) by (by apply node_ok_created).
    destruct (converge_ok (length (mesh_routes d)) d o1 node [] Hok (Hlen []))
      as (o' & more & Hc & Hok' & Hno & Hns & Hrs & Hown).
    exists o', node. split; [done|]. eapply node_ok_up; [exact Hok'|exact Hno|by right|exact Hrs|exact Hown].
  - destruct (converge_ok (S (length (mesh_routes d))) d o node
      (List.filter (of_node (node_provider_id node)) (obs_routes o)))
      as (o' & more & Hc & Hok' & Hno & Hns & Hrs & Hown).
    { by split. }
    { specialize (Hlen (List.filter (of_node (node_provider_id node)) (obs_routes o))). lia. }
    exists o', node. split; [done|]. eapply node_ok_up; [exact Hok'|exact Hno|by left|exact Hrs|exact Hown].
Qed.
End Converge.

Module MeshSample.
Definition desired : DesiredMeshState := {|
  mesh_schema := 1; mesh_account_id := "0123456789abcdef0123456789abcdef";
  mesh_environment := "acceptance"; mesh_node_name := "singbox-line3-acceptance";
  mesh_routes := [{| rs_network := "10.0.4.0/24" |}; {| rs_network := "fd00:4::/64" |}] |}.
Definition office : ObservedMeshNode :=
  {| node_provider_id := "t"; node_name := "office"; node_status := Some "healthy" |}.
Definition office_route : ObservedMeshRoute := {|
  route_provider_id := "r-1"; route_network := "10.0.4.0/24"; route_tunnel_id := "t";
  route_tunnel_type := Some "warp_connector"; route_comment := None |}.
Definition start : MeshObservation :=
  {| obs_nodes := [office]; obs_routes := [office_route] |}.

(** Longer than every tunnel identifier in use *)
Fixpoint stars (n : nat) : string := match n with O => "*" | S n => "*" +:+ stars n end.
Definition fresh (o : MeshObservation) : string :=
  stars (foldr (λ r n, (String.length (route_tunnel_id r) + n)%nat) 0%nat (obs_routes o)).
Lemma length_stars n : String.length (stars n) = S n.
Proof. induction n; simpl; [done|]. rewrite length_app_str. simpl. lia. Qed.
Lemma fresh_tunnel o r : r ∈ obs_routes o → route_tunnel_id r ≠ fresh o.
Proof.
  intros Hr E. apply (f_equal String.length) in E. unfold fresh in E. rewrite length_stars in E.
  revert E. induction (obs_routes o) as [|x l IH]; simpl; [by apply elem_of_nil in Hr|].
  apply elem_of_cons in Hr as [->|Hr]; [lia|]. specialize (IH Hr). intros E.
  assert (Hle : (String.length (route_tunnel_id r) ≤
    foldr (λ r n, (String.length (route_tunnel_id r) + n)%nat) 0%nat l)%nat).
  { clear -Hr. induction l as [|x l IH]; simpl; [by apply elem_of_nil in Hr|].
    apply elem_of_cons in Hr as [->|Hr]; [lia|]. specialize (IH Hr). lia. }
  lia.
Qed.

(** Witness of [mesh_apply_converges]: a node and two routes are created beside a
    foreign node. *)
Lemma mesh_apply_converges_witness :
  ∃ o' node,
    converge fresh (S (length (mesh_routes desired))) desired start = Ok o' ∧
    brought_up desired start o' node.
Proof.
  apply (mesh_apply_converges fresh fresh_tunnel desired start
    {| apply_action := CreateNode; apply_node_id := None |}).
  - intros id. change (obs_routes start) with [office_route]. cbn [List.filter].
    destruct (of_node id office_route); [apply NoDup_singleton|apply NoDup_nil_2].
  - vm_compute. reflexivity.
Defined.
Example converge_creates :
  match converge fresh 3 desired start with
  | Ok o => map route_network (obs_routes o) = ["10.0.4.0/24"; "10.0.4.0/24"; "fd00:4::/64"]
  | Err _ => False
  end.
Proof. vm_compute. reflexivity. Qed.
End MeshSample.
