(* ===== verification/MeshService.v ===== *)
(** * The Cloudflare Mesh service

    Models [edge-orchestrator/src/cloudflare_mesh_lifecycle_service.rs]: one
    authorized mutation of the Mesh over the [MeshProvider] trait, followed by
    bounded re-observation; the node's runtime token; and the wait for health.

    [mesh_apply_once] and [mesh_cleanup_once] bound what one run may do whatever the
    provider answers. Messages that print a value with [{:?}] are kept as the value. *)

From S2P Require Import Prelude RustStd HostTypes Concrete Json PlanAuthority.
From S2P Require Import LifecycleCommon Service MeshLifecycle.

(** [edge_provider_cloudflare::CloudflareMeshNode] and [CloudflareMeshRoute] *)
Record CloudflareMeshNode : Type := {
  cn_id : string;
  cn_name : string;
  cn_status : option string
}.
Record CloudflareMeshRoute : Type := {
  cr_id : string;
  cr_network : string;
  cr_tunnel_id : string;
  cr_tunnel_type : option string;
  cr_comment : option string
}.

(** The methods of the trait [MeshProvider], and [tokio::time::sleep] *)
Inductive mesh_call : Type → Type :=
| ListNodes (exact_name : string) : mesh_call (res (list CloudflareMeshNode))
| ListRoutes (node_id : string) : mesh_call (res (list CloudflareMeshRoute))
| CreateNodeCall (name : string) : mesh_call (res CloudflareMeshNode)
| CreateRouteCall (node_id network comment : string) : mesh_call (res CloudflareMeshRoute)
| DeleteRouteCall (route_id : string) : mesh_call (res unit)
| DeleteNodeCall (node_id : string) : mesh_call (res unit)
| GetNodeToken (node_id : string) : mesh_call (res string)
| Sleep (delay : Z) : mesh_call unit.

Record MeshExecutionPolicy : Type := { reobserve_attempts : nat; reobserve_delay : Z }.
(** [MeshExecutionPolicy::default], the delay in seconds *)
Definition default_policy : MeshExecutionPolicy :=
  {| reobserve_attempts := 30; reobserve_delay := 2 |}.

Inductive mesh_error : Type :=
| Failed (message : string)
| TokenNotNoop (action : ApplyAction)
| HealthDrifted (action : ApplyAction)
| ApplyNotConverged (performed : ApplyAction) (detail : string)
    (last_plan : option ApplyPlan) (last_observation : option MeshObservation)
| CleanupNotConverged (performed : CleanupAction) (detail : string)
    (last_plan : option CleanupPlan) (last_observation : option MeshObservation).
Abbreviation mesh := (fservice mesh_call mesh_error).

Record MeshApplyReport : Type := {
  apply_performed : ApplyAction;
  apply_observation : MeshObservation;
  apply_next_plan : ApplyPlan
}.
Record MeshCleanupReport : Type := {
  cleanup_performed : CleanupAction;
  cleanup_observation : MeshObservation;
  cleanup_next_plan : CleanupPlan
}.
Record MeshRuntimeCredential : Type := { registration_id : string; node_token : string }.

(** [CloudflareMeshApiProvider::new]; the provider keeps the two values. *)
Definition new_provider (api_token account_id : string) : res (string * string) :=
  fail_if (str_empty (trim api_token)) "CLOUDFLARE_API_TOKEN must be non-empty" ;;
  fail_if (str_empty (trim account_id)) "CLOUDFLARE_ACCOUNT_ID must be non-empty" ;;
  Ok (api_token, account_id).

(** [.map_err(|err| err.to_string())?] *)
Definition lifecycle_res {A} (r : lres A) : result mesh_error A :=
  map_err (λ e, Failed (lifecycle_error_text "Cloudflare Mesh" e)) r.
Definition authority_res {A} (r : result PlanAuthorityError A) : result mesh_error A :=
  map_err (λ e, Failed (authority_error_text e)) r.
(** [provider.method(..).await?] *)
Definition call {A} (c : mesh_call (res A)) : mesh A :=
  answer ← invoke c; pure_step (map_err Failed answer).

Definition validate_policy (policy : MeshExecutionPolicy) : result mesh_error unit :=
  fail_if (reobserve_attempts policy =? 0)%nat
    (Failed "Cloudflare Mesh re-observation attempts must be greater than zero").

Definition observed_node (n : CloudflareMeshNode) : ObservedMeshNode :=
  {| node_provider_id := cn_id n; node_name := cn_name n; node_status := cn_status n |}.
Definition observed_route (r : CloudflareMeshRoute) : ObservedMeshRoute := {|
  route_provider_id := cr_id r; route_network := cr_network r;
  route_tunnel_id := cr_tunnel_id r; route_tunnel_type := cr_tunnel_type r;
  route_comment := cr_comment r |}.

Definition observe_mesh (d : DesiredMeshState) : mesh MeshObservation :=
  pure_step (lifecycle_res (validate d)) ;;
  nodes ← call (ListNodes (mesh_node_name d));
  routes ← match nodes with
           | [node] => call (ListRoutes (cn_id node))
           | _ => mret []
           end;
  mret {| obs_nodes := map observed_node nodes; obs_routes := map observed_route routes |}.

Definition plan_mesh_apply (d : DesiredMeshState) : mesh (MeshObservation * ApplyPlan) :=
  observed ← observe_mesh d;
  plan ← pure_step (lifecycle_res (plan_apply d observed));
  mret (observed, plan).

Definition apply_is_noop (a : ApplyAction) : bool :=
  match a with ApplyNoop => true | _ => false end.
Definition cleanup_is_noop (a : CleanupAction) : bool :=
  match a with CleanupNoop => true | _ => false end.

Definition apply_action_completed (performed : ApplyAction) (next_plan : ApplyPlan) : bool :=
  match performed, apply_action next_plan with
  | CreateNode, CreateNode => false
  | CreateRoute expected, CreateRoute next => negb (str_eqb expected next)
  | _, _ => true
  end.
Definition cleanup_action_completed (performed : CleanupAction) (observed : MeshObservation)
    : bool :=
  match performed with
  | CleanupNoop => true
  | DeleteRoute route_id _ =>
      forallb (λ r, negb (str_eqb (route_provider_id r) route_id)) (obs_routes observed)
  | DeleteNode node_id =>
      forallb (λ n, negb (str_eqb (node_provider_id n) node_id)) (obs_nodes observed)
  end.

(** [mutation.err()], then [unwrap_or_else(|| "mutation returned success")] *)
Definition mutation_detail {A} (mutation : res A) : string :=
  match mutation with Ok _ => "mutation returned success" | Err e => e end.
(** [if attempt + 1 < attempts { sleep(delay).await }], [n] attempts left after it *)
Definition pause (n : nat) (delay : Z) : mesh unit :=
  if (0 <? n)%nat then invoke (Sleep delay) else mret tt.

(** The loop of [reobserve_apply_change]; [n] attempts are left. *)
Fixpoint reobserve_apply (d : DesiredMeshState) (delay : Z) (performed : ApplyAction)
    (detail : string) (n : nat) (last_plan : option ApplyPlan)
    (last_observation : option MeshObservation) : mesh MeshApplyReport :=
  match n with
  | O => pure_step (Err (ApplyNotConverged performed detail last_plan last_observation))
  | S n =>
      observed ← observe_mesh d;
      next_plan ← pure_step (lifecycle_res (plan_apply d observed));
      if apply_action_completed performed next_plan then
        mret {| apply_performed := performed; apply_observation := observed;
                apply_next_plan := next_plan |}
      else
        pause n delay ;;
        reobserve_apply d delay performed detail n (Some next_plan) (Some observed)
  end.
Definition reobserve_apply_change (d : DesiredMeshState) (policy : MeshExecutionPolicy)
    (performed : ApplyAction) (detail : string) : mesh MeshApplyReport :=
  reobserve_apply d (reobserve_delay policy) performed detail (reobserve_attempts policy)
    None None.

Definition valid_token (token : string) : bool :=
  negb (str_empty token || (16 * 1024 <? slen token) || negb (str_eqb (trim token) token)
        || negb (str_all (λ c, negb (bool_decide (nat_of_ascii c ∈ [0; 13; 10]%nat))) token)).

Definition exact_mesh_node_token (d : DesiredMeshState) : mesh MeshRuntimeCredential :=
  '(observed, plan) ← plan_mesh_apply d;
  pure_step (fail_if (negb (apply_is_noop (apply_action plan)))
    (TokenNotNoop (apply_action plan))) ;;
  match obs_nodes observed with
  | [node] =>
      token ← call (GetNodeToken (node_provider_id node));
      pure_step (fail_if (negb (valid_token token))
        (Failed "Cloudflare Mesh node token has an invalid bounded shape")) ;;
      mret {| registration_id := node_provider_id node; node_token := token |}
  | _ => pure_step (Err (Failed
           "Mesh runtime token requires exactly one observed provider node"))
  end.

(** The loop of [wait_mesh_provider_healthy] *)
Fixpoint wait_healthy (d : DesiredMeshState) (delay : Z) (n : nat)
    (last_status : option string) : mesh MeshObservation :=
  match n with
  | O => pure_step (Err (Failed
      ("Cloudflare Mesh node did not become healthy after bounded re-observation; last_status="
         +:+ default "missing" last_status)))
  | S n =>
      '(observed, plan) ← plan_mesh_apply d;
      pure_step (fail_if (negb (apply_is_noop (apply_action plan)))
        (HealthDrifted (apply_action plan))) ;;
      match obs_nodes observed with
      | [node] =>
          if bool_decide (node_status node = Some "healthy") then mret observed
          else pause n delay ;; wait_healthy d delay n (node_status node)
      | _ => pure_step (Err (Failed "Mesh provider health requires exactly one observed node"))
      end
  end.
Definition wait_mesh_provider_healthy (d : DesiredMeshState) (policy : MeshExecutionPolicy)
    : mesh MeshObservation :=
  pure_step (validate_policy policy) ;;
  wait_healthy d (reobserve_delay policy) (reobserve_attempts policy) None.

Section Authorized.
Context `{Sha256} `{SerdeJson}.

Definition authorize_mesh_apply (d : DesiredMeshState) (o : MeshObservation) (p : ApplyPlan)
    : result PlanAuthorityError (AuthorizedPlan ApplyPlan) :=
  authorize_plan "cloudflare_mesh_apply" d o p
    (if apply_is_noop (apply_action p) then Noop else Mutate).
Definition authorize_mesh_cleanup (d : DesiredMeshState) (o : MeshObservation)
    (p : CleanupPlan) : result PlanAuthorityError (AuthorizedPlan CleanupPlan) :=
  authorize_plan "cloudflare_mesh_cleanup" d o p
    (if cleanup_is_noop (cleanup_action p) then Noop else Mutate).

Definition apply_mesh_once (d : DesiredMeshState) (authorized_plan_digest : string)
    (policy : MeshExecutionPolicy) : mesh MeshApplyReport :=
  pure_step (validate_policy policy) ;;
  '(before, plan) ← plan_mesh_apply d;
  authorized ← pure_step (authority_res (authorize_mesh_apply d before plan));
  pure_step (authority_res
    (verify_exact_authority authorized_plan_digest (authority authorized))) ;;
  match apply_action plan with
  | ApplyNoop => mret {| apply_performed := ApplyNoop; apply_observation := before;
                         apply_next_plan := plan |}
  | CreateNode =>
      mutation ← invoke (CreateNodeCall (mesh_node_name d));
      reobserve_apply_change d policy (apply_action plan) (mutation_detail mutation)
  | CreateRoute network =>
      node_id ← pure_step (ok_or (apply_node_id plan)
        (Failed "CREATE_ROUTE plan is missing node_id"));
      mutation ← invoke (CreateRouteCall node_id network (ownership_comment d));
      reobserve_apply_change d policy (apply_action plan) (mutation_detail mutation)
  end.

Definition plan_mesh_cleanup (d : DesiredMeshState) : mesh (MeshObservation * CleanupPlan) :=
  observed ← observe_mesh d;
  plan ← pure_step (lifecycle_res (plan_cleanup d observed));
  mret (observed, plan).

(** The loop of [reobserve_cleanup_change] *)
Fixpoint reobserve_cleanup (d : DesiredMeshState) (delay : Z) (performed : CleanupAction)
    (detail : string) (n : nat) (last_plan : option CleanupPlan)
    (last_observation : option MeshObservation) : mesh MeshCleanupReport :=
  match n with
  | O => pure_step (Err (CleanupNotConverged performed detail last_plan last_observation))
  | S n =>
      observed ← observe_mesh d;
      next_plan ← pure_step (lifecycle_res (plan_cleanup d observed));
      if cleanup_action_completed performed observed then
        mret {| cleanup_performed := performed; cleanup_observation := observed;
                cleanup_next_plan := next_plan |}
      else
        pause n delay ;;
        reobserve_cleanup d delay performed detail n (Some next_plan) (Some observed)
  end.
Definition reobserve_cleanup_change (d : DesiredMeshState) (policy : MeshExecutionPolicy)
    (performed : CleanupAction) (detail : string) : mesh MeshCleanupReport :=
  reobserve_cleanup d (reobserve_delay policy) performed detail (reobserve_attempts policy)
    None None.

Definition cleanup_mesh_once (d : DesiredMeshState)
    (expected_digest authorized_plan_digest : string) (policy : MeshExecutionPolicy)
    : mesh MeshCleanupReport :=
  pure_step (validate_policy policy) ;;
  observed ← observe_mesh d;
  current ← pure_step (lifecycle_res (plan_cleanup d observed));
  authorized ← pure_step (authority_res (authorize_mesh_cleanup d observed current));
  pure_step (authority_res
    (verify_exact_authority authorized_plan_digest (authority authorized))) ;;
  plan ← pure_step (lifecycle_res (verify_cleanup_digest d observed expected_digest));
  pure_step (fail_if (negb (bool_decide (current = plan)))
    (Failed "Cloudflare Mesh cleanup authorization changed during planning")) ;;
  mutation ← match cleanup_action plan with
             | CleanupNoop =>
                 pure_step (Err (Failed "Cloudflare Mesh cleanup target is already absent"))
             | DeleteRoute route_id _ => invoke (DeleteRouteCall route_id)
             | DeleteNode node_id => invoke (DeleteNodeCall node_id)
             end;
  reobserve_cleanup_change d policy (cleanup_action plan) (mutation_detail mutation).
End Authorized.

(** ** What one run may do *)

Inductive mutation : Type :=
| NodeCreated (name : string)
| RouteCreated (node_id network comment : string)
| RouteDeleted (route_id : string)
| NodeDeleted (node_id : string).
#[global] Instance mesh_mutates : Mutates mesh_call mutation := λ R c,
  match c with
  | CreateNodeCall name => Some (NodeCreated name)
  | CreateRouteCall node_id network comment => Some (RouteCreated node_id network comment)
  | DeleteRouteCall route_id => Some (RouteDeleted route_id)
  | DeleteNodeCall node_id => Some (NodeDeleted node_id)
  | ListNodes _ | ListRoutes _ | GetNodeToken _ | Sleep _ => None
  end.

Lemma mesh_call_quiet {A} (c : mesh_call (res A)) : call_mutation c = None → quiet (call c).
Proof.
  intros Hc. unfold call. apply within_quiet_bind; [by apply quiet_call|]. intros. quiet.
Qed.
Lemma observe_mesh_quiet d : quiet (observe_mesh d).
Proof.
  unfold observe_mesh. quiet; apply mesh_call_quiet; reflexivity.
Qed.
Lemma mesh_pause_quiet n delay : quiet (pause n delay).
Proof. unfold pause. quiet. Qed.
#[export] Hint Resolve observe_mesh_quiet mesh_pause_quiet : quiet.
Lemma plan_mesh_apply_quiet d : quiet (plan_mesh_apply d).
Proof. unfold plan_mesh_apply. quiet. Qed.
#[export] Hint Resolve plan_mesh_apply_quiet : quiet.
Lemma wait_healthy_quiet d delay n last : quiet (wait_healthy d delay n last).
Proof. revert last. induction n; intros last; cbn [wait_healthy]; quiet. Qed.
Lemma reobserve_apply_quiet d delay performed detail n lp lo :
  quiet (reobserve_apply d delay performed detail n lp lo).
Proof. revert lp lo. induction n; intros lp lo; cbn [reobserve_apply]; quiet. Qed.
#[export] Hint Resolve wait_healthy_quiet reobserve_apply_quiet : quiet.

Abbreviation ends_observed d := (run_ends (observe_mesh d)).
Lemma ends_observed_self d tr o : runs (observe_mesh d) tr (Ok o) → ends_observed d tr o.
Proof. apply ends_with_self, observe_mesh_quiet. Qed.

Lemma mesh_lifecycle_res_Ok {A} (x : lres A) a : lifecycle_res x = Ok a → x = Ok a.
Proof. apply map_err_Ok. Qed.
Lemma mesh_authority_res_Ok {A} (x : result PlanAuthorityError A) a : authority_res x = Ok a → x = Ok a.
Proof. apply map_err_Ok. Qed.

Lemma plan_mesh_apply_runs d tr o p :
  runs (plan_mesh_apply d) tr (Ok (o, p)) →
  runs (observe_mesh d) tr (Ok o) ∧ plan_apply d o = Ok p.
Proof.
  intros [(e & _ & [=])|(o' & t1 & t2 & -> & Ho & Hr)]%runs_fbind.
  apply runs_or_stop in Hr as [[_ [=]]|(p' & Hp%mesh_lifecycle_res_Ok & [-> [= -> ->]]%runs_return)].
  by rewrite app_nil_r.
Qed.

(** A report of [reobserve_apply] is backed by its last observation. *)
Lemma mesh_reobserve_apply_runs d delay performed detail n lp lo tr report :
  runs (reobserve_apply d delay performed detail n lp lo) tr (Ok report) →
  apply_performed report = performed ∧ ends_observed d tr (apply_observation report) ∧
  plan_apply d (apply_observation report) = Ok (apply_next_plan report) ∧
  apply_action_completed performed (apply_next_plan report) = true.
Proof.
  revert lp lo tr. induction n as [|n IH]; intros lp lo tr; cbn [reobserve_apply].
  { by intros [_ [=]]%runs_return. }
  intros [(e & _ & [=])|(o & t1 & t2 & -> & Ho%ends_observed_self & Hr)]%runs_fbind.
  apply runs_or_stop in Hr as [[_ [=]]|(p & Hp%mesh_lifecycle_res_Ok & Hr)].
  destruct (apply_action_completed performed p) eqn:Hc.
  - apply runs_return in Hr as [-> [= ->]]. by rewrite app_nil_r.
  - apply runs_fbind in Hr as [(e & _ & [=])|(u & t3 & t4 & -> & _ & Hr)].
    apply IH in Hr as (? & ? & ?). split_and!; [done|by do 2 apply ends_with_app|apply H1..].
Qed.

Lemma call_runs {A} (c : mesh_call (res A)) tr a :
  runs (call c) tr (Ok a) → tr = [Exchange c (Ok a)].
Proof.
  intros (x & t & -> & Hr)%runs_invoke. destruct x; simpl in Hr; apply runs_return in Hr as [-> E]; [|done].
  by injection E as ->.
Qed.

(** The credential of the runtime is the token the provider gave for the one node of
    the desired name, asked for directly after an observation whose plan was NOOP; it is
    bounded and without line breaks. *)
Theorem mesh_token_exact d tr c :
  runs (exact_mesh_node_token d) tr (Ok c) →
  ∃ t o node, tr = t ++ [Exchange (GetNodeToken (registration_id c)) (Ok (node_token c))] ∧
    runs (observe_mesh d) t (Ok o) ∧ obs_nodes o = [node] ∧
    node_name node = mesh_node_name d ∧ node_provider_id node = registration_id c ∧
    plan_apply d o = Ok {| apply_action := ApplyNoop; apply_node_id := Some (registration_id c) |} ∧
    valid_token (node_token c) = true.
Proof.
  unfold exact_mesh_node_token.
  intros [(e & _ & [=])|([o p] & t1 & t2 & -> & [Ho Hp]%plan_mesh_apply_runs & Hr)]%runs_fbind.
  apply runs_or_stop in Hr as [[_ [=]]|([] & Hn%fail_if_Ok%negb_false & Hr)].
  destruct (obs_nodes o) as [|node [|? ?]] eqn:Hnodes; [by apply runs_return in Hr as [_ [=]]| |by apply runs_return in Hr as [_ [=]]].
  apply runs_fbind in Hr as [(e & _ & [=])|(token & t3 & t4 & -> & ->%call_runs & Hr)].
  apply runs_or_stop in Hr as [[_ [=]]|([] & Hv%fail_if_Ok%negb_false & [-> [= ->]]%runs_return)].
  exists t1, o, node. cbn [registration_id node_token]. rewrite app_nil_r.
  unfold plan_apply, select_exact_node in Hp. rewrite Hnodes in Hp. inv_ok Hp. simpl in Hm0.
  destruct (named d node) eqn:Hname; inv_ok Hm0; inv_ok Hp; [|done].
  split_and!; [done|done|done|by apply str_eqb_true in Hname|done| |done].
  unfold plan_apply, select_exact_node. rewrite Hnodes, Hm. simpl. rewrite Hname. simpl.
  rewrite Hm0. simpl. rewrite Hm1. simpl. rewrite Hm2. simpl. destruct x1; [done|]. by destruct x.
Qed.

(** The one mutation an apply plan stands for *)
Definition apply_mutation (d : DesiredMeshState) (p : ApplyPlan) : option mutation :=
  match apply_action p, apply_node_id p with
  | CreateNode, _ => Some (NodeCreated (mesh_node_name d))
  | CreateRoute network, Some node_id =>
      Some (RouteCreated node_id network (ownership_comment d))
  | _, _ => None
  end.

Section RunFacts.
Context `{Sha256} `{SerdeJson}.

(** The operator authorized exactly this plan for this observation. *)
Definition apply_granted (d : DesiredMeshState) (digest : string) (o : MeshObservation)
    (p : ApplyPlan) : Prop :=
  plan_apply d o = Ok p ∧
  ∃ a, authorize_mesh_apply d o p = Ok a ∧ authority_digest (authority a) = digest.

(** The part of a run after its mutation *)
Lemma mutate_then_reobserve {R} d policy p detail (c : mesh_call R) m o before tr r :
  call_mutation c = Some m → runs (observe_mesh d) before (Ok o) → mutations before = [] →
  runs (a ← invoke c; reobserve_apply_change d policy (apply_action p) (detail a)) tr r →
  mutates_once (observe_mesh d) (before ++ tr) o m ∧
  ∀ report, r = Ok report →
    apply_performed report = apply_action p ∧
    ends_observed d (before ++ tr) (apply_observation report) ∧
    plan_apply d (apply_observation report) = Ok (apply_next_plan report) ∧
    apply_action_completed (apply_action p) (apply_next_plan report) = true.
Proof using Type.
  intros Hm Ho Hq (a & t & -> & Hr)%runs_invoke. cbn [service_bind] in Hr.
  unfold reobserve_apply_change in Hr. split.
  - exists before, R, c, a, t. split_and!; [done..|].
    eapply within_runs, Hr. apply reobserve_apply_quiet.
  - intros report ->. apply mesh_reobserve_apply_runs in Hr as (? & Hend & ?). split_and!; [done| |apply H2..].
    apply ends_with_app. by apply (ends_with_app _ [_]).
Qed.

(** Whatever the provider answers, a run of [apply_mesh_once] sends at most one
    mutation. The mutation is the one of the plan made from the observation directly
    before, and the digest the operator authorized is the one of exactly that plan and
    observation. A run that reports success ends with an observation whose plan no
    longer asks for the performed action. *)
Theorem mesh_apply_once d digest policy tr r :
  runs (apply_mesh_once d digest policy) tr r →
  (mutations tr = [] ∨
   ∃ o p m, mutates_once (observe_mesh d) tr o m ∧ apply_granted d digest o p ∧ apply_mutation d p = Some m) ∧
  ∀ report, r = Ok report →
    ends_observed d tr (apply_observation report) ∧
    plan_apply d (apply_observation report) = Ok (apply_next_plan report) ∧
    apply_action_completed (apply_performed report) (apply_next_plan report) = true.
Proof using Type.
  unfold apply_mesh_once.
  intros [[-> ?]|([] & _ & Hr)]%runs_or_stop; [stopped|].
  apply runs_quiet_bind in Hr as [[-> ?]|([o p] & t1 & t2 & -> & Hq & Hp & Hr)]; [..|quiet];
    [stopped|].
  apply plan_mesh_apply_runs in Hp as [Ho Hp].
  apply runs_or_stop in Hr as [[-> ?]|(a & Ha%mesh_authority_res_Ok & Hr)];
    [stopped|].
  apply runs_or_stop in Hr as [[-> ?]|([] & Hv%mesh_authority_res_Ok & Hr)];
    [stopped|].
  apply verify_exact_authority_Ok in Hv.
  assert (Hg : apply_granted d digest o p) by (split; eauto).
  destruct (apply_action p) as [| |network] eqn:Hact.
  - apply runs_return in Hr as [-> ->]. rewrite app_nil_r. split; [by left|].
    intros report [= <-]. split_and!; [by apply ends_observed_self|done..].
  - rewrite <- Hact in Hr. eapply mutate_then_reobserve in Hr as [Hone Hrep]; [|done..].
    split; [right; exists o, p, (NodeCreated (mesh_node_name d)); split_and!; [done..|]|].
    + unfold apply_mutation. by rewrite Hact.
    + intros report E. destruct (Hrep report E) as (-> & ? & ?). done.
  - apply runs_or_stop in Hr as [[-> ?]|(id & Hid & Hr)];
      [stopped|].
    rewrite <- Hact in Hr. eapply mutate_then_reobserve in Hr as [Hone Hrep]; [|done..].
    split; [right; exists o, p, (RouteCreated id network (ownership_comment d)); split_and!; [done..|]|].
    + unfold apply_mutation. rewrite Hact. by destruct (apply_node_id p) as [?|]; inversion Hid.
    + intros report E. destruct (Hrep report E) as (-> & ? & ?). done.
Qed.

Lemma plan_mesh_cleanup_quiet d : quiet (plan_mesh_cleanup d).
Proof using Type. unfold plan_mesh_cleanup. quiet. Qed.
Lemma reobserve_cleanup_quiet d delay performed detail n lp lo :
  quiet (reobserve_cleanup d delay performed detail n lp lo).
Proof using Type. revert lp lo. induction n; intros lp lo; cbn [reobserve_cleanup]; quiet. Qed.

Lemma mesh_reobserve_cleanup_runs d delay performed detail n lp lo tr report :
  runs (reobserve_cleanup d delay performed detail n lp lo) tr (Ok report) →
  cleanup_performed report = performed ∧ ends_observed d tr (cleanup_observation report) ∧
  plan_cleanup d (cleanup_observation report) = Ok (cleanup_next_plan report) ∧
  cleanup_action_completed performed (cleanup_observation report) = true.
Proof using Type.
  revert lp lo tr. induction n as [|n IH]; intros lp lo tr; cbn [reobserve_cleanup].
  { by intros [_ [=]]%runs_return. }
  intros [(e & _ & [=])|(o & t1 & t2 & -> & Ho%ends_observed_self & Hr)]%runs_fbind.
  apply runs_or_stop in Hr as [[_ [=]]|(p & Hp%mesh_lifecycle_res_Ok & Hr)].
  destruct (cleanup_action_completed performed o) eqn:Hc.
  - apply runs_return in Hr as [-> [= ->]]. by rewrite app_nil_r.
  - apply runs_fbind in Hr as [(e & _ & [=])|(u & t3 & t4 & -> & _ & Hr)].
    apply IH in Hr as (? & ? & ?). split_and!; [done|by do 2 apply ends_with_app|apply H3..].
Qed.

Definition cleanup_mutation (a : CleanupAction) : option mutation :=
  match a with
  | CleanupNoop => None
  | DeleteRoute route_id _ => Some (RouteDeleted route_id)
  | DeleteNode node_id => Some (NodeDeleted node_id)
  end.

(** The operator authorized this plan twice: by the authority of the plan, and by the
    digest of what it destroys. *)
Definition cleanup_granted (d : DesiredMeshState) (expected digest : string)
    (o : MeshObservation) (p : CleanupPlan) : Prop :=
  plan_cleanup d o = Ok p ∧ destructive_digest p = Some expected ∧
  ∃ a, authorize_mesh_cleanup d o p = Ok a ∧ authority_digest (authority a) = digest.

Lemma mesh_verify_cleanup_digest_Ok d o expected p :
  verify_cleanup_digest d o expected = Ok p →
  plan_cleanup d o = Ok p ∧ destructive_digest p = Some expected.
Proof using Type.
  unfold verify_cleanup_digest. intros E. inv_ok E.
  destruct (destructive_digest x0) as [actual|] eqn:Ed; [|done].
  inv_ok E. reflect_in Hm1. by subst.
Qed.

Lemma delete_then_reobserve (c : mesh_call (res unit)) m d policy a o before tr r :
  call_mutation c = Some m → runs (observe_mesh d) before (Ok o) → mutations before = [] →
  runs (x ← invoke c; reobserve_cleanup_change d policy a (mutation_detail x)) tr r →
  mutates_once (observe_mesh d) (before ++ tr) o m ∧
  ∀ report, r = Ok report →
    ends_observed d (before ++ tr) (cleanup_observation report) ∧
    plan_cleanup d (cleanup_observation report) = Ok (cleanup_next_plan report) ∧
    cleanup_performed report = a ∧ cleanup_action_completed a (cleanup_observation report) = true.
Proof using Type.
  intros Hm Ho Hq (x & t & -> & Hr)%runs_invoke. cbn [service_bind] in Hr.
  unfold reobserve_cleanup_change in Hr. split.
  - exists before, _, c, x, t. split_and!; [done..|].
    eapply within_runs, Hr. apply reobserve_cleanup_quiet.
  - intros report ->. apply mesh_reobserve_cleanup_runs in Hr as (? & Hend & ? & ?).
    split_and!; [|done..]. apply ends_with_app. by apply (ends_with_app _ [_]).
Qed.

(** Whatever the provider answers, a run of [cleanup_mesh_once] deletes at most one
    route or node: the one of the plan made from the observation directly before, under
    both digests the operator authorized. A run that reports success ends with an
    observation without it. *)
Theorem mesh_cleanup_once d expected digest policy tr r :
  runs (cleanup_mesh_once d expected digest policy) tr r →
  (mutations tr = [] ∨
   ∃ o p m, mutates_once (observe_mesh d) tr o m ∧ cleanup_granted d expected digest o p ∧
     cleanup_mutation (cleanup_action p) = Some m) ∧
  ∀ report, r = Ok report →
    ends_observed d tr (cleanup_observation report) ∧
    plan_cleanup d (cleanup_observation report) = Ok (cleanup_next_plan report) ∧
    cleanup_action_completed (cleanup_performed report) (cleanup_observation report) = true.
Proof using Type.
  unfold cleanup_mesh_once.
  intros [[-> ?]|([] & _ & Hr)]%runs_or_stop; [stopped|].
  apply runs_quiet_bind in Hr as [[-> ?]|(o & t1 & t2 & -> & Hq & Ho & Hr)]; [stopped| |quiet].
  apply runs_or_stop in Hr as [[-> ?]|(p & Hp%mesh_lifecycle_res_Ok & Hr)]; [stopped|].
  apply runs_or_stop in Hr as [[-> ?]|(a & Ha%mesh_authority_res_Ok & Hr)]; [stopped|].
  apply runs_or_stop in Hr as [[-> ?]|([] & Hv%mesh_authority_res_Ok & Hr)]; [stopped|].
  apply runs_or_stop in Hr as [[-> ?]|(p' & Hd%mesh_lifecycle_res_Ok & Hr)]; [stopped|].
  apply runs_or_stop in Hr as [[-> ?]|([] & He & Hr)]; [stopped|].
  apply fail_if_Ok, negb_false, bool_decide_eq_true in He as <-.
  apply verify_exact_authority_Ok in Hv. apply mesh_verify_cleanup_digest_Ok in Hd as [_ Hd].
  assert (Hg : cleanup_granted d expected digest o p) by (split_and!; eauto).
  destruct (cleanup_action p) as [|route_id network|node_id] eqn:Hact.
  1: apply runs_or_stop in Hr as [[-> ?]|(? & [=] & _)]; [stopped].
  all: eapply delete_then_reobserve in Hr as [Hone Hrep]; [|done..]; split;
    [right; eexists o, p, _; split_and!; [exact Hone|done|by rewrite Hact]
    |intros report E; destruct (Hrep report E) as (? & ? & -> & ?); done].
Qed.
End RunFacts.
