(* ===== verification/MeshProvider.v ===== *)
(** * A Mesh provider with delayed visibility

    A provider that performs what it is asked, may lose the answer to a mutation, and
    shows a mutation only after some listings. The service of [MeshService], driven by
    an operator that authorizes each plan it is shown, then reaches what the abstract
    [converge] of [MeshLifecycle] reaches ([mesh_service_converges]), and its
    teardown removes exactly the owned node and its routes ([mesh_teardown_completes]). *)

From S2P Require Import Prelude RustStd HostTypes Concrete Json PlanAuthority.
From S2P Require Import LifecycleCommon Service MeshLifecycle MeshService.

(** What the provider did, what it shows, and how many listings still show the old state *)
Record provider : Type := {
  actual : MeshObservation;
  shown : MeshObservation;
  lag : nat
}.
Definition settled (o : MeshObservation) : provider := {| actual := o; shown := o; lag := 0 |}.
Definition tick (s : provider) : provider :=
  match lag s with
  | O => settled (actual s)
  | S n => {| actual := actual s; shown := shown s; lag := n |}
  end.

Definition record_of_node (n : ObservedMeshNode) : CloudflareMeshNode :=
  {| cn_id := node_provider_id n; cn_name := node_name n; cn_status := node_status n |}.
Definition record_of_route (r : ObservedMeshRoute) : CloudflareMeshRoute := {|
  cr_id := route_provider_id r; cr_network := route_network r; cr_tunnel_id := route_tunnel_id r;
  cr_tunnel_type := route_tunnel_type r; cr_comment := route_comment r |}.

Definition has_name (name : string) (n : ObservedMeshNode) : bool := str_eqb (node_name n) name.
Definition in_tunnel (id : string) (r : ObservedMeshRoute) : bool :=
  str_eqb (route_tunnel_id r) id.
Definition drop_route (id : string) (o : MeshObservation) : MeshObservation := {|
  obs_nodes := obs_nodes o;
  obs_routes := List.filter (λ r, negb (str_eqb (route_provider_id r) id)) (obs_routes o) |}.
Definition drop_node (id : string) (o : MeshObservation) : MeshObservation := {|
  obs_nodes := List.filter (λ n, negb (str_eqb (node_provider_id n) id)) (obs_nodes o);
  obs_routes := obs_routes o |}.

Section Provider.
(** The identifier of a new object, whether an answer is lost, and the delay until a
    mutation is shown *)
Context (fresh : MeshObservation → string) (lost : MeshObservation → bool)
  (delay : MeshObservation → nat) (token : string → string).

Definition add_node (name : string) (o : MeshObservation) : MeshObservation := {|
  obs_nodes := obs_nodes o ++
    [{| node_provider_id := fresh o; node_name := name; node_status := None |}];
  obs_routes := obs_routes o |}.
Definition route_for (node_id network comment : string) (o : MeshObservation)
    : ObservedMeshRoute := {|
  route_provider_id := fresh o; route_network := network; route_tunnel_id := node_id;
  route_tunnel_type := Some "warp_connector"; route_comment := Some comment |}.
Definition add_route (node_id network comment : string) (o : MeshObservation)
    : MeshObservation := {|
  obs_nodes := obs_nodes o;
  obs_routes := obs_routes o ++ [route_for node_id network comment o] |}.

Definition commit (s : provider) (o : MeshObservation) : provider :=
  {| actual := o; shown := shown s; lag := delay (actual s) |}.
Definition reply {A} (s : provider) (a : A) : res A :=
  if lost (actual s) then Err "connection reset" else Ok a.

Definition answer (R : Type) (c : mesh_call R) (s : provider) : R * provider :=
  match c in mesh_call R return R * provider with
  | ListNodes name =>
      (Ok (map record_of_node (List.filter (has_name name) (obs_nodes (shown (tick s))))), tick s)
  | ListRoutes id =>
      (Ok (map record_of_route (List.filter (in_tunnel id) (obs_routes (shown s)))), s)
  | CreateNodeCall name =>
      (reply s {| cn_id := fresh (actual s); cn_name := name; cn_status := None |},
       commit s (add_node name (actual s)))
  | CreateRouteCall id network comment =>
      (reply s (record_of_route (route_for id network comment (actual s))),
       commit s (add_route id network comment (actual s)))
  | DeleteRouteCall id => (reply s tt, commit s (drop_route id (actual s)))
  | DeleteNodeCall id => (reply s tt, commit s (drop_node id (actual s)))
  | GetNodeToken id => (Ok (token id), s)
  | Sleep _ => (tt, s)
  end.

(** ** Observation *)

(** The part of the provider's state the service lists *)
Definition view (d : DesiredMeshState) (o : MeshObservation) : MeshObservation :=
  let nodes := List.filter (named d) (obs_nodes o) in
  {| obs_nodes := nodes;
     obs_routes := match nodes with
                   | [n] => List.filter (in_tunnel (node_provider_id n)) (obs_routes o)
                   | _ => []
                   end |}.

Lemma observed_records_node l : map observed_node (map record_of_node l) = l.
Proof using Type. rewrite map_map. rewrite <- (map_id l) at 2. by apply map_ext; intros []. Qed.
Lemma observed_records_route l : map observed_route (map record_of_route l) = l.
Proof using Type. rewrite map_map. rewrite <- (map_id l) at 2. by apply map_ext; intros []. Qed.

Lemma mesh_exec_observe d s :
  validate d = Ok tt →
  exec answer (observe_mesh d) s = (Ok (view d (shown (tick s))), tick s).
Proof using Type.
  intros Hd. unfold observe_mesh, call. rewrite Hd. simpl. unfold view, named.
  change (λ n, str_eqb (node_name n) (mesh_node_name d)) with (has_name (mesh_node_name d)).
  set (nodes := List.filter _ _) in *. pose proof (observed_records_node nodes) as Hn.
  destruct nodes as [|n [|n' nodes]]; simpl in *; rewrite ?Hn; [done| |done].
  rewrite observed_records_route. by destruct n.
Qed.

(** A plan does not depend on what the service does not list. *)
Lemma filter_of_node_view id l :
  List.filter (of_node id) (List.filter (in_tunnel id) l) = List.filter (of_node id) l.
Proof using Type.
  rewrite filter_and. apply filter_agree. intros r _. unfold of_node, in_tunnel.
  by destruct (str_eqb (route_tunnel_id r) id).
Qed.
Lemma plan_apply_view d o : plan_apply d (view d o) = plan_apply d o.
Proof using Type.
  unfold plan_apply, select_exact_node, exact_node_routes, view. cbn [obs_nodes obs_routes].
  rewrite filter_twice. destruct (List.filter (named d) (obs_nodes o)) as [|n [|n' ns]]; [done| |done].
  destruct (validate d); [|done]. simpl. by rewrite filter_of_node_view.
Qed.
Lemma view_view d o : view d (view d o) = view d o.
Proof using Type.
  unfold view. cbn [obs_nodes obs_routes]. rewrite filter_twice.
  destruct (List.filter (named d) (obs_nodes o)) as [|n [|n' ns]]; [done| |done].
  by rewrite filter_twice.
Qed.
(** ** One apply *)

Context (fresh_tunnel : ∀ o r, r ∈ obs_routes o → route_tunnel_id r ≠ fresh o).
Context (d : DesiredMeshState) (policy : MeshExecutionPolicy).
Context (Hdelay : ∀ o, (delay o < reobserve_attempts policy)%nat).

Lemma tick_settled o : tick (settled o) = settled o.
Proof using Type. done. Qed.

(** A Mesh that may be applied, with at most one route per node and network *)
Definition ready (o : MeshObservation) : Prop :=
  (∃ p, plan_apply d o = Ok p) ∧
  ∀ id, NoDup (map route_network (List.filter (of_node id) (obs_routes o))).

Lemma missing_created routes r specs s :
  In s (missing (routes ++ [r]) specs) → rs_network s ≠ route_network r.
Proof using Type.
  unfold missing. intros [_ He]%filter_In E. rewrite matching_snoc, E in He.
  rewrite (proj2 (str_eqb_true (route_network r) _) eq_refl) in He.
  by destruct (matching _ _).
Qed.
Lemma routes_other id node_id network comment o :
  id ≠ node_id →
  List.filter (of_node id) (obs_routes (add_route node_id network comment o))
  = List.filter (of_node id) (obs_routes o).
Proof using Type.
  intros Hne. unfold add_route. cbn [obs_routes]. rewrite List.filter_app. simpl.
  unfold of_node at 2. simpl. rewrite (proj2 (str_eqb_false node_id id)) by congruence.
  apply app_nil_r.
Qed.

(** Performing the plan keeps the Mesh ready, and the next plan asks for something else. *)
Lemma ready_step o p :
  ready o → plan_apply d o = Ok p → apply_action p ≠ ApplyNoop →
  ready (effect fresh d p o) ∧
  ∃ p', plan_apply d (effect fresh d p o) = Ok p' ∧
    apply_action_completed (apply_action p) p' = true.
Proof.
  intros [_ Hu] Hp Hne. destruct (plan_apply_node _ _ _ Hp) as [Hv [Hf|(node & Hf & Ho & Hm)]].
  - rewrite (plan_apply_absent d o Hv Hf) in Hp. injection Hp as <-.
    pose proof (node_ok_created fresh fresh_tunnel d o Hv Hf) as Hok.
    apply node_ok_plan in Hok as Hp'. split; [split; [by eauto|exact Hu]|].
    eexists. split; [exact Hp'|]. simpl. by destruct (missing _ _).
  - assert (Hok : node_ok d o node (List.filter (of_node (node_provider_id node)) (obs_routes o)))
      by (by split).
    set (routes := List.filter _ (obs_routes o)) in *. pose proof (node_ok_plan _ _ _ _ Hok) as Hpl.
    rewrite Hp in Hpl. injection Hpl as ->.
    destruct (missing routes (mesh_routes d)) as [|s rest] eqn:Hs; [done|].
    destruct (node_ok_step fresh d o node routes s rest Hok Hs) as [Hok' _].
    pose proof (node_ok_plan _ _ _ _ Hok') as Hp'. split; [split; [by eauto|]|].
    + intros id. destruct (decide (id = node_provider_id node)) as [->|Hid].
      * rewrite (ok_routes _ _ _ _ Hok'). exact (ok_unique _ _ _ _ Hok').
      * specialize (Hu id). by rewrite <- (routes_other id _ (rs_network s) (ownership_comment d) o Hid) in Hu.
    + eexists. split; [exact Hp'|]. cbn [apply_action_completed apply_action].
      destruct (missing (routes ++ _) _) as [|s' rest'] eqn:Hs'; [done|].
      apply negb_true, str_eqb_false. apply not_eq_sym.
      apply (missing_created routes (new_route fresh d o (node_provider_id node) (rs_network s))
        (mesh_routes d)). rewrite Hs'. by left.
Qed.

(** Re-observation lasts until the mutation is shown. *)
Lemma reobserve_apply_shown pause_s performed detail n k o o' p p' lp lo :
  validate d = Ok tt → (k < n)%nat →
  plan_apply d o = Ok p → apply_action_completed performed p = false →
  plan_apply d o' = Ok p' → apply_action_completed performed p' = true →
  exec answer (reobserve_apply d pause_s performed detail n lp lo)
    {| actual := o'; shown := o; lag := k |}
  = (Ok {| apply_performed := performed; apply_observation := view d o';
           apply_next_plan := p' |}, settled o').
Proof using Type.
  intros Hd Hk Hp Hc Hp' Hc'. revert k lp lo Hk. induction n as [|n IH]; intros k lp lo Hk; [lia|].
  cbn [reobserve_apply]. rewrite exec_fbind, mesh_exec_observe by done. cbv beta iota.
  destruct k as [|k]; cbn [tick lag shown settled actual].
  - rewrite plan_apply_view, Hp'. cbn [lifecycle_res map_err]. by rewrite exec_pure, Hc'.
  - rewrite plan_apply_view, Hp. cbn [lifecycle_res map_err]. rewrite exec_pure, Hc, exec_fbind.
    unfold pause. destruct n as [|n]; [lia|]. apply IH. lia.
Qed.

Context `{Sha256} `{SerdeJson} `{!JsonValueLaws}.

Lemma exec_plan o p :
  plan_apply d o = Ok p → exec answer (plan_mesh_apply d) (settled o) = (Ok (view d o, p), settled o).
Proof using Type.
  intros Hp. destruct (plan_apply_node _ _ _ Hp) as [Hv _]. unfold plan_mesh_apply.
  rewrite exec_fbind, mesh_exec_observe by done. rewrite tick_settled. cbv beta iota. cbn [shown settled].
  rewrite plan_apply_view, Hp. done.
Qed.
Lemma authorize_apply_total o p : ∃ a, authorize_mesh_apply d o p = Ok a.
Proof. eapply authorize_plan_total; reflexivity. Qed.

(** One run performs exactly the planned action. *)
Lemma apply_performs o p a :
  ready o → plan_apply d o = Ok p → authorize_mesh_apply d (view d o) p = Ok a →
  ∃ report, apply_performed report = apply_action p ∧
    exec answer (apply_mesh_once d (authority_digest (authority a)) policy) (settled o)
    = (Ok report, settled (effect fresh d p o)).
Proof.
  intros Hr Hp Ha. assert (Hn : (0 < reobserve_attempts policy)%nat) by (specialize (Hdelay o); lia).
  unfold apply_mesh_once, validate_policy. rewrite (proj2 (Nat.eqb_neq _ _)) by lia.
  cbn [fail_if]. rewrite exec_pure, exec_fbind, (exec_plan o p Hp). cbv beta iota.
  rewrite Ha. cbn [authority_res map_err]. rewrite exec_pure.
  rewrite (verify_own_authority _ _ _ _ _ _ Ha). cbn [authority_res map_err]. rewrite exec_pure.
  destruct (plan_apply_node _ _ _ Hp) as [Hv _].
  assert (Hshow : ∀ detail, apply_action p ≠ ApplyNoop → ∃ report,
    apply_performed report = apply_action p ∧
    exec answer (reobserve_apply_change d policy (apply_action p) detail)
      {| actual := effect fresh d p o; shown := o; lag := delay o |}
    = (Ok report, settled (effect fresh d p o))).
  { intros detail Hne. destruct (ready_step o p Hr Hp Hne) as (_ & p' & Hp' & Hc').
    eexists. split; [|apply (reobserve_apply_shown _ _ _ _ (delay o) o _ p p'); try done].
    - done.
    - unfold apply_action_completed. destruct (apply_action p) as [| |network]; [done..|]. by rewrite (proj2 (str_eqb_true network _) eq_refl). }
  destruct (apply_action p) as [| |network] eqn:Hact.
  - eexists. split; [|rewrite exec_ret; unfold effect; rewrite Hact; reflexivity]. done.
  - destruct (Hshow (mutation_detail (reply (settled o) {| cn_id := fresh o;
      cn_name := mesh_node_name d; cn_status := None |})) ltac:(done)) as (report & Hrep & He).
    exists report. split; [done|]. rewrite exec_call. cbn [answer]. rewrite <- He.
    unfold effect. by rewrite Hact.
  - destruct (apply_node_id p) as [id|] eqn:Hid; cycle 1.
    { exfalso. clear -Hp Hact Hid. unfold plan_apply in Hp. inv_ok Hp.
      destruct x0; inv_ok Hp; simpl in *; congruence. }
    cbn [ok_or]. rewrite exec_pure.
    destruct (Hshow (mutation_detail (reply (settled o) (record_of_route
      (route_for id network (ownership_comment d) o)))) ltac:(done)) as (report & Hrep & He).
    exists report. split; [done|]. rewrite exec_call. cbn [answer]. rewrite <- He.
    unfold effect. by rewrite Hact, Hid.
Qed.

(** ** The operator *)

(** An operator plans, authorizes the plan it is shown, and applies it, until nothing
    is left to do; [n] bounds the number of rounds. *)
Fixpoint operate (n : nat) : mesh unit :=
  match n with
  | O => mret tt
  | S n =>
      '(o, p) ← plan_mesh_apply d;
      a ← pure_step (authority_res (authorize_mesh_apply d o p));
      report ← apply_mesh_once d (authority_digest (authority a)) policy;
      if apply_is_noop (apply_performed report) then mret tt else operate n
  end.

(** Each round of the operator is a round of the abstract loop. *)
Lemma operate_simulates n o o' :
  ready o → converge fresh n d o = Ok o' →
  exec answer (operate n) (settled o) = (Ok tt, settled o').
Proof.
  revert o. induction n as [|n IH]; intros o Hr Hc; cbn [operate converge] in *.
  { by injection Hc as ->. }
  apply bind_Ok in Hc as (p & Hp & Hc).
  rewrite exec_fbind, (exec_plan o p Hp). cbv beta iota.
  destruct (authorize_apply_total (view d o) p) as [a Ha]. rewrite Ha.
  cbn [authority_res map_err]. rewrite exec_pure, exec_fbind.
  destruct (apply_performs o p a Hr Hp Ha) as (report & Hrep & ->). cbv beta iota. rewrite Hrep.
  destruct (apply_action p) as [| |network] eqn:Hact; cbn [apply_is_noop].
  1: injection Hc as <-; rewrite exec_ret; unfold effect; by rewrite Hact.
  all: apply IH; [|done]; apply ready_step; congruence || done.
Qed.

(** C38: the Mesh service brings the Mesh up. Let the provider perform what it is
    asked, give new nodes unused identifiers, lose any of its answers to mutations,
    and show a mutation after fewer listings than the service re-observes; and let the
    Mesh be one that may be applied at all, with at most one route per node and
    network. Then an operator who authorizes each plan it is shown takes the provider,
    in at most one round for the node and one per desired route, to the end of the
    abstract loop [converge]: the plan is NOOP, the node was there or is the only one
    added, every added route is an owned one of that node, and its networks are the
    desired ones, each once. No existing node or route is changed. *)
Theorem mesh_service_converges o p :
  (∀ id, NoDup (map route_network (List.filter (of_node id) (obs_routes o)))) →
  plan_apply d o = Ok p →
  ∃ o' node,
    exec answer (operate (S (length (mesh_routes d)))) (settled o) = (Ok tt, settled o') ∧
    converge fresh (S (length (mesh_routes d))) d o = Ok o' ∧ brought_up d o o' node.
Proof.
  intros Hu Hp. destruct (mesh_apply_converges fresh fresh_tunnel d o p Hu Hp)
    as (o' & node & Hc & Hup).
  exists o', node. split_and!; [|done..].
  apply operate_simulates; [|done]. split; [by eauto|done].
Qed.

(** ** Teardown *)

Lemma plan_cleanup_view o : plan_cleanup d (view d o) = plan_cleanup d o.
Proof using Type.
  unfold plan_cleanup, select_exact_node, exact_node_routes, view. cbn [obs_nodes obs_routes].
  rewrite filter_twice.
  destruct (List.filter (named d) (obs_nodes o)) as [|n [|n' ns]] eqn:Hf; [done| |done].
  destruct (validate d); [|done]. simpl. rewrite filter_of_node_view.
  destruct (for_each _ _); [|done]. simpl. destruct (for_each _ _); [|done]. simpl.
  unfold cleanup_digest, cleanup_material. cbn [obs_nodes obs_routes].
  assert (Hn : List.filter (named d) [n] = [n]) by (rewrite <- Hf; apply filter_twice).
  rewrite Hn, Hf. simpl. do 4 f_equal.
  assert (Hr : List.filter (λ r, mem (route_tunnel_id r) [node_provider_id n])
      (List.filter (in_tunnel (node_provider_id n)) (obs_routes o))
    = List.filter (λ r, mem (route_tunnel_id r) [node_provider_id n]) (obs_routes o)).
  { rewrite filter_and. apply filter_agree. intros r _. unfold in_tunnel.
    destruct (str_eqb (route_tunnel_id r) (node_provider_id n)) eqn:E; [done|].
    apply str_eqb_false in E. symmetry. apply bool_decide_eq_false. by intros Hin%list_elem_of_singleton. }
  by rewrite Hr.
Qed.

(** The node to be torn down, with routes that are all its own *)
Record down_ok (o : MeshObservation) (node : ObservedMeshNode) : Prop := {
  down_valid : validate d = Ok tt;
  down_node : List.filter (named d) (obs_nodes o) = [node];
  down_routes : Forall (λ r, check_observed_route d r = Ok tt ∧ check_cleanup_route d r = Ok tt)
                  (List.filter (of_node (node_provider_id node)) (obs_routes o));
  down_node_ids : NoDup (map node_provider_id (obs_nodes o));
  down_route_ids : NoDup (map route_provider_id (obs_routes o))
}.
Definition own (node : ObservedMeshNode) (o : MeshObservation) : list ObservedMeshRoute :=
  List.filter (of_node (node_provider_id node)) (obs_routes o).
Definition down_action (node : ObservedMeshNode) (o : MeshObservation) : CleanupAction :=
  match sort_by route_leb (own node o) with
  | r :: _ => DeleteRoute (route_provider_id r) (route_network r)
  | [] => DeleteNode (node_provider_id node)
  end.

Lemma down_plan o node :
  down_ok o node → ∃ digest, lower_hex64 digest = true ∧
    plan_cleanup d o = Ok {| cleanup_action := down_action node o;
                             destructive_digest := Some digest |}.
Proof.
  intros [Hv Hn Hr _ _]. destruct (digest_of_value_total (cleanup_material d o (down_action node o)))
    as [digest Hd]. exists digest. split; [by eapply digest_hex|].
  unfold plan_cleanup, select_exact_node, exact_node_routes. rewrite Hv, Hn. simpl.
  apply Forall_and in Hr as [Ho Hc].
  rewrite (proj2 (for_each_Ok _ _) Ho). simpl. rewrite (proj2 (for_each_Ok _ _) Hc). simpl.
  fold (own node o). fold (down_action node o). unfold cleanup_digest. by rewrite Hd.
Qed.

Definition down_effect (a : CleanupAction) (o : MeshObservation) : MeshObservation :=
  match a with
  | CleanupNoop => o
  | DeleteRoute id _ => drop_route id o
  | DeleteNode id => drop_node id o
  end.

(** The deleted object is no longer listed, and was listed before. *)
Lemma down_completed o node :
  down_ok o node →
  cleanup_action_completed (down_action node o) (view d o) = false ∧
  cleanup_action_completed (down_action node o)
    (view d (down_effect (down_action node o) o)) = true.
Proof using Type.
  intros [Hv Hn Hr _ _]. unfold down_action.
  destruct (sort_by route_leb (own node o)) as [|r rs] eqn:Hs; simpl.
  - unfold view. rewrite Hn. simpl. rewrite (proj2 (str_eqb_true (node_provider_id node) _) eq_refl).
    split; [done|]. apply forallb_forall. intros n Hin. apply filter_In in Hin as [Hin _].
    by apply filter_In in Hin as [_ ?].
  - assert (Hin : In r (own node o)).
    { apply (Permutation_in r (sort_by_perm route_leb (own node o))). rewrite Hs. by left. }
    apply filter_In in Hin as [Hin Ho]. unfold view. rewrite Hn. cbn [obs_routes]. split.
    + apply not_true_is_false. intros Hall. rewrite forallb_forall in Hall.
      specialize (Hall r). rewrite (proj2 (str_eqb_true (route_provider_id r) _) eq_refl) in Hall.
      assert (negb true = true); [|done]. apply Hall, filter_In. split; [done|].
      unfold of_node in Ho. by apply andb_true in Ho as [Ho _].
    + cbn [obs_nodes obs_routes drop_route]. rewrite ?Hn.
      apply forallb_forall. intros x Hx. apply filter_In in Hx as [Hx _].
      by apply filter_In in Hx as [_ ?].
Qed.

(** Deleting one of the node's routes *)
Lemma drop_route_ok o node r :
  down_ok o node → r ∈ own node o →
  let o' := drop_route (route_provider_id r) o in
  down_ok o' node ∧ (length (own node o') < length (own node o))%nat ∧
  List.filter (λ x, negb (of_node (node_provider_id node) x)) (obs_routes o')
  = List.filter (λ x, negb (of_node (node_provider_id node) x)) (obs_routes o).
Proof using Type.
  intros [Hv Hn Hr Hni Hri] Hin o'.
  assert (Hown : own node o' = List.filter (λ x, negb (str_eqb (route_provider_id x)
    (route_provider_id r))) (own node o)).
  { unfold own, o'. cbn [drop_route obs_routes]. rewrite !filter_and. apply filter_agree.
    intros x _. apply andb_comm. }
  apply list_elem_of_In in Hin as Hin'. apply filter_In in Hin' as [Hall Ho].
  split_and!.
  - split; [done|done| |done|].
    + fold (own node o'). rewrite Hown. apply Forall_forall. intros x Hx.
      rewrite Forall_forall in Hr. apply Hr. apply list_elem_of_In in Hx.
      apply filter_In in Hx as [Hx _]. by apply list_elem_of_In.
    + cbn [drop_route obs_routes o']. clear -Hri. induction (obs_routes o) as [|x l IH]; simpl in *; [done|].
      apply NoDup_cons in Hri as [Hx Hri]. destruct (negb _); simpl; [|by apply IH].
      apply NoDup_cons. split; [|by apply IH]. intros Hin. apply Hx.
      apply list_elem_of_In, in_map_iff in Hin as (y & <- & Hy%filter_In).
      apply list_elem_of_In, in_map. tauto.
  - rewrite Hown. clear -Hin. induction (own node o) as [|x l IH]; [by apply elem_of_nil in Hin|].
    apply elem_of_cons in Hin as [->|Hin]; simpl.
    + rewrite (proj2 (str_eqb_true (route_provider_id x) _) eq_refl). simpl.
      pose proof (filter_length_le (λ y, negb (str_eqb (route_provider_id y) (route_provider_id x))) l).
      lia.
    + specialize (IH Hin). destruct (negb _); simpl; lia.
  - unfold o'. cbn [drop_route obs_routes]. rewrite filter_and. apply filter_agree. intros x Hx.
    destruct (str_eqb (route_provider_id x) (route_provider_id r)) eqn:E; [|done].
    apply str_eqb_true in E. apply list_elem_of_In in Hall.
    rewrite (key_unique _ _ x r Hri Hx Hall E), Ho. done.
Qed.

(** Deleting the node *)
Lemma drop_node_ok o node :
  down_ok o node →
  let o' := drop_node (node_provider_id node) o in
  obs_nodes o' = List.filter (λ n, negb (named d n)) (obs_nodes o) ∧
  plan_cleanup d o' = Ok {| cleanup_action := CleanupNoop; destructive_digest := None |}.
Proof using Type.
  intros [Hv Hn Hr Hni Hri] o'.
  assert (Hnodes : obs_nodes o' = List.filter (λ n, negb (named d n)) (obs_nodes o))
    by (by apply filter_complement).
  split; [done|]. unfold plan_cleanup, select_exact_node. rewrite Hv, Hnodes, filter_and.
  rewrite filter_none; [done|]. intros x _. apply andb_negb_l.
Qed.

Lemma reobserve_cleanup_shown pause_s performed detail n k o o' p p' lp lo :
  validate d = Ok tt → (k < n)%nat →
  plan_cleanup d o = Ok p → cleanup_action_completed performed (view d o) = false →
  plan_cleanup d o' = Ok p' → cleanup_action_completed performed (view d o') = true →
  exec answer (reobserve_cleanup d pause_s performed detail n lp lo)
    {| actual := o'; shown := o; lag := k |}
  = (Ok {| cleanup_performed := performed; cleanup_observation := view d o';
           cleanup_next_plan := p' |}, settled o').
Proof using Type.
  intros Hd Hk Hp Hc Hp' Hc'. revert k lp lo Hk. induction n as [|n IH]; intros k lp lo Hk; [lia|].
  cbn [reobserve_cleanup]. rewrite exec_fbind, mesh_exec_observe by done. cbv beta iota.
  destruct k as [|k]; cbn [tick lag shown settled actual].
  - rewrite plan_cleanup_view, Hp'. cbn [lifecycle_res map_err]. by rewrite exec_pure, Hc'.
  - rewrite plan_cleanup_view, Hp. cbn [lifecycle_res map_err]. rewrite exec_pure, Hc, exec_fbind.
    unfold pause. destruct n as [|n]; [lia|]. apply IH. lia.
Qed.

Lemma down_next o node :
  down_ok o node → ∃ p', plan_cleanup d (down_effect (down_action node o) o) = Ok p'.
Proof.
  intros Hok. unfold down_action. destruct (sort_by route_leb (own node o)) as [|r rs] eqn:Hs; simpl.
  - eexists. by apply drop_node_ok.
  - assert (Hin : r ∈ own node o).
    { apply list_elem_of_In. apply (Permutation_in r (sort_by_perm route_leb (own node o))).
      rewrite Hs. by left. }
    destruct (drop_route_ok o node r Hok Hin) as [Hok' _].
    destruct (down_plan _ _ Hok') as (digest & _ & Hp). eauto.
Qed.

Lemma authorize_cleanup_total o p : ∃ a, authorize_mesh_cleanup d o p = Ok a.
Proof. eapply authorize_plan_total; reflexivity. Qed.
Lemma verify_own_digest o p digest :
  plan_cleanup d o = Ok p → destructive_digest p = Some digest → lower_hex64 digest = true →
  verify_cleanup_digest d o digest = Ok p.
Proof using Type.
  intros Hp Hd Hh. unfold verify_cleanup_digest. rewrite Hh, Hp. simpl. rewrite Hd. simpl.
  by rewrite (proj2 (str_eqb_true digest _) eq_refl).
Qed.

(** One run deletes exactly the planned object. *)
Lemma cleanup_performs o node p a digest :
  down_ok o node → plan_cleanup d o = Ok p → destructive_digest p = Some digest →
  lower_hex64 digest = true → cleanup_action p = down_action node o →
  authorize_mesh_cleanup d (view d o) p = Ok a →
  ∃ report,
    exec answer (cleanup_mesh_once d digest (authority_digest (authority a)) policy) (settled o)
    = (Ok report, settled (down_effect (down_action node o) o)).
Proof.
  intros Hok Hp Hd Hh Hact Ha. destruct (down_completed o node Hok) as [Hc Hc'].
  destruct (down_next o node Hok) as [p' Hp']. pose proof (down_valid _ _ Hok) as Hv.
  assert (Hn : (0 < reobserve_attempts policy)%nat) by (specialize (Hdelay o); lia).
  unfold cleanup_mesh_once, validate_policy. rewrite (proj2 (Nat.eqb_neq _ _)) by lia.
  cbn [fail_if]. rewrite exec_pure, exec_fbind, mesh_exec_observe by done. rewrite tick_settled.
  cbv beta iota. cbn [shown settled].
  rewrite plan_cleanup_view, Hp. cbn [lifecycle_res map_err]. rewrite exec_pure, Ha.
  cbn [authority_res map_err]. rewrite exec_pure, (verify_own_authority _ _ _ _ _ _ Ha).
  cbn [authority_res map_err]. rewrite exec_pure.
  rewrite (verify_own_digest (view d o) p digest); [|by rewrite plan_cleanup_view|done..].
  cbn [lifecycle_res map_err]. rewrite exec_pure, (bool_decide_eq_true_2 (p = p) eq_refl).
  cbn [negb fail_if]. rewrite exec_pure, Hact.
  assert (Hshow : ∀ detail, exec answer (reobserve_cleanup_change d policy (down_action node o) detail)
    {| actual := down_effect (down_action node o) o; shown := o; lag := delay o |}
    = (Ok {| cleanup_performed := down_action node o;
             cleanup_observation := view d (down_effect (down_action node o) o);
             cleanup_next_plan := p' |}, settled (down_effect (down_action node o) o))).
  { intros detail. by apply (reobserve_cleanup_shown _ _ _ _ (delay o) o _ p p'). }
  destruct (down_action node o) as [|id network|id] eqn:Ed;
    [unfold down_action in Ed; by destruct (sort_by _ _)|..];
    eexists; rewrite exec_call; cbn [answer]; apply Hshow.
Qed.

(** The operator tears down one authorized object per round. *)
Fixpoint operate_cleanup (n : nat) : mesh unit :=
  match n with
  | O => mret tt
  | S n =>
      '(o, p) ← plan_mesh_cleanup d;
      match destructive_digest p with
      | None => mret tt
      | Some digest =>
          a ← pure_step (authority_res (authorize_mesh_cleanup d o p));
          cleanup_mesh_once d digest (authority_digest (authority a)) policy ;;
          operate_cleanup n
      end
  end.

Lemma mesh_exec_plan_cleanup o p :
  validate d = Ok tt → plan_cleanup d o = Ok p →
  exec answer (plan_mesh_cleanup d) (settled o) = (Ok (view d o, p), settled o).
Proof using Type.
  intros Hv Hp. unfold plan_mesh_cleanup.
  rewrite exec_fbind, mesh_exec_observe by done. rewrite tick_settled. cbv beta iota. cbn [shown settled].
  by rewrite plan_cleanup_view, Hp.
Qed.

Lemma operate_cleanup_round n o node :
  down_ok o node →
  exec answer (operate_cleanup (S n)) (settled o)
  = exec answer (operate_cleanup n) (settled (down_effect (down_action node o) o)).
Proof.
  intros Hok. destruct (down_plan o node Hok) as (digest & Hh & Hp). cbn [operate_cleanup].
  rewrite exec_fbind, (mesh_exec_plan_cleanup o _ (down_valid _ _ Hok) Hp). cbv beta iota.
  cbn [destructive_digest]. destruct (authorize_cleanup_total (view d o)
    {| cleanup_action := down_action node o; destructive_digest := Some digest |}) as [a Ha].
  rewrite Ha. cbn [authority_res map_err]. rewrite exec_pure, exec_fbind.
  destruct (cleanup_performs o node _ a digest Hok Hp eq_refl Hh eq_refl Ha) as [report ->]. done.
Qed.

Definition torn_down (node : ObservedMeshNode) (o : MeshObservation) : MeshObservation := {|
  obs_nodes := List.filter (λ n, negb (named d n)) (obs_nodes o);
  obs_routes := List.filter (λ r, negb (of_node (node_provider_id node) r)) (obs_routes o) |}.

Lemma operate_cleanup_completes n o node :
  down_ok o node → (length (own node o) < n)%nat →
  exec answer (operate_cleanup n) (settled o) = (Ok tt, settled (torn_down node o)) ∧
  plan_cleanup d (torn_down node o) = Ok {| cleanup_action := CleanupNoop; destructive_digest := None |}.
Proof.
  revert o. induction n as [|n IH]; intros o Hok Hlt; [lia|].
  rewrite (operate_cleanup_round n o node Hok). unfold down_action.
  destruct (sort_by route_leb (own node o)) as [|r rs] eqn:Hs; cbn [down_effect].
  - assert (Hnil : own node o = []).
    { apply Permutation_nil. rewrite <- (sort_by_perm route_leb (own node o)). by rewrite Hs. }
    destruct (drop_node_ok o node Hok) as [Hnodes Hp].
    assert (Hdown : drop_node (node_provider_id node) o = torn_down node o).
    { unfold torn_down, drop_node in *. cbn [obs_nodes] in Hnodes. rewrite Hnodes. f_equal. symmetry.
      unfold own in Hnil. clear -Hnil. induction (obs_routes o) as [|x l IH]; simpl in *; [done|].
      destruct (of_node _ x); simpl; [done|]. by rewrite IH. }
    rewrite Hdown in *. split; [|done]. destruct n as [|n]; [done|]. cbn [operate_cleanup].
    by rewrite exec_fbind, (mesh_exec_plan_cleanup _ _ (down_valid _ _ Hok) Hp).
  - assert (Hin : r ∈ own node o).
    { apply list_elem_of_In. apply (Permutation_in r (sort_by_perm route_leb (own node o))).
      rewrite Hs. by left. }
    destruct (drop_route_ok o node r Hok Hin) as (Hok' & Hlen & Hrest).
    destruct (IH _ Hok' ltac:(lia)) as [He Hp].
    assert (Hsame : torn_down node (drop_route (route_provider_id r) o) = torn_down node o).
    { unfold torn_down. by rewrite Hrest. }
    rewrite Hsame in *. done.
Qed.

Lemma plan_cleanup_down o p :
  NoDup (map node_provider_id (obs_nodes o)) → NoDup (map route_provider_id (obs_routes o)) →
  plan_cleanup d o = Ok p → validate d = Ok tt ∧
  (List.filter (named d) (obs_nodes o) = [] ∧
   p = {| cleanup_action := CleanupNoop; destructive_digest := None |} ∨
   ∃ node, down_ok o node).
Proof using Type.
  intros Hni Hri. unfold plan_cleanup, select_exact_node. intros E. inv_ok E. split; [done|].
  destruct (List.filter (named d) (obs_nodes o)) as [|n [|n' ns]] eqn:Hf; inv_ok Hm0; inv_ok E; [by left|].
  right. exists n. unfold exact_node_routes in Hm0. inv_ok Hm0.
  split; [done|done| |done|done]. apply Forall_and. split; by apply for_each_Ok.
Qed.

(** The routes of the owned node *)
Definition belongs (o : MeshObservation) (r : ObservedMeshRoute) : bool :=
  existsb (λ n, of_node (node_provider_id n) r) (List.filter (named d) (obs_nodes o)).

(** The Mesh service tears the Mesh down. On a provider as in
    [mesh_service_converges], an operator who authorizes each deletion it is shown
    ends, within one round per route and one for the node, with a NOOP plan; exactly
    the owned node and its routes are gone. *)
Theorem mesh_teardown_completes o p :
  NoDup (map node_provider_id (obs_nodes o)) → NoDup (map route_provider_id (obs_routes o)) →
  plan_cleanup d o = Ok p →
  ∃ o', exec answer (operate_cleanup (S (length (obs_routes o)))) (settled o) = (Ok tt, settled o') ∧
    obs_nodes o' = List.filter (λ n, negb (named d n)) (obs_nodes o) ∧
    obs_routes o' = List.filter (λ r, negb (belongs o r)) (obs_routes o) ∧
    plan_cleanup d o' = Ok {| cleanup_action := CleanupNoop; destructive_digest := None |}.
Proof.
  intros Hni Hri Hp. destruct (plan_cleanup_down o p Hni Hri Hp) as [Hv [[Hf ->]|[node Hok]]].
  - exists o. split_and!; [| | |done].
    + cbn [operate_cleanup]. by rewrite exec_fbind, (mesh_exec_plan_cleanup _ _ Hv Hp).
    + symmetry. apply filter_all. intros x Hx. apply negb_true, not_true_is_false. intros Hn.
      assert (Hin : In x (List.filter (named d) (obs_nodes o)))
        by (apply filter_In; split; [by apply list_elem_of_In|done]).
      by rewrite Hf in Hin.
    + unfold belongs. rewrite Hf. symmetry. by apply filter_all.
  - exists (torn_down node o). pose proof (filter_length_le (of_node (node_provider_id node)) (obs_routes o)).
    destruct (operate_cleanup_completes (S (length (obs_routes o))) o node Hok) as [He Hnoop];
      [unfold own; lia|].
    split_and!; [done|done| |done]. unfold belongs. rewrite (down_node _ _ Hok). cbn [obs_routes torn_down].
    apply filter_agree. intros r _. simpl. by rewrite orb_false_r.
Qed.
End Provider.

(** ** Samples *)
Module MeshProviderSample.
Import MeshSample.

(** Every answer to a mutation is lost, and a mutation is shown after three listings. *)
Definition lost (_ : MeshObservation) : bool := true.
Definition delay (_ : MeshObservation) : nat := 3.
Definition token (_ : string) : string := "token".
Lemma delay_short o : (delay o < reobserve_attempts default_policy)%nat.
Proof. unfold delay. simpl. lia. Qed.
Abbreviation sample_answer := (answer fresh lost delay token).

Lemma one_route_per_network id :
  NoDup (map route_network (List.filter (of_node id) (obs_routes start))).
Proof.
  change (obs_routes start) with [office_route]. cbn [List.filter].
  destruct (of_node id office_route); [apply NoDup_singleton|apply NoDup_nil_2].
Qed.

(** Witness of [mesh_service_converges]: a node and two routes beside a foreign node *)
Lemma mesh_service_converges_witness :
  ∃ o' node,
    exec sample_answer (operate desired default_policy (S (length (mesh_routes desired))))
      (settled start) = (Ok tt, settled o') ∧
    converge fresh (S (length (mesh_routes desired))) desired start = Ok o' ∧
    brought_up desired start o' node.
Proof.
  apply (mesh_service_converges fresh lost delay token fresh_tunnel desired default_policy delay_short
    start {| apply_action := CreateNode; apply_node_id := None |} one_route_per_network).
  vm_compute. reflexivity.
Defined.

(** The Mesh brought up, with the identifiers the sample provider hands out *)
Definition raised : MeshObservation := {|
  obs_nodes := [office; {| node_provider_id := "n-1"; node_name := mesh_node_name desired;
                           node_status := Some "healthy" |}];
  obs_routes := [office_route;
    {| route_provider_id := "r-2"; route_network := "10.0.4.0/24"; route_tunnel_id := "n-1";
       route_tunnel_type := Some "warp_connector";
       route_comment := Some (ownership_comment desired) |};
    {| route_provider_id := "r-3"; route_network := "fd00:4::/64"; route_tunnel_id := "n-1";
       route_tunnel_type := Some "warp_connector";
       route_comment := Some (ownership_comment desired) |}] |}.
Definition first_cleanup : CleanupPlan :=
  match plan_cleanup desired raised with
  | Ok p => p
  | Err _ => {| cleanup_action := CleanupNoop; destructive_digest := None |}
  end.

(** Witness of [mesh_teardown_completes] *)
Lemma mesh_teardown_completes_witness :
  ∃ o', exec sample_answer (operate_cleanup desired default_policy (S (length (obs_routes raised))))
      (settled raised) = (Ok tt, settled o') ∧
    obs_nodes o' = List.filter (λ n, negb (named desired n)) (obs_nodes raised) ∧
    obs_routes o' = List.filter (λ r, negb (belongs desired raised r)) (obs_routes raised) ∧
    plan_cleanup desired o' = Ok {| cleanup_action := CleanupNoop; destructive_digest := None |}.
Proof.
  apply (mesh_teardown_completes fresh lost delay token desired default_policy delay_short
    raised first_cleanup).
  - apply (bool_decide_unpack _). vm_compute. exact I.
  - apply (bool_decide_unpack _). vm_compute. exact I.
  - unfold first_cleanup. destruct (plan_cleanup desired raised) eqn:E; [done|].
    apply (f_equal is_ok) in E. vm_compute in E. discriminate E.
Defined.

(** Witness of [mesh_apply_once]: the run that creates the node *)
Definition granted_digest : string :=
  match authorize_mesh_apply desired (view desired start)
          {| apply_action := CreateNode; apply_node_id := None |} with
  | Ok a => authority_digest (authority a) | Err _ => "" end.
Definition program : mesh MeshApplyReport := apply_mesh_once desired granted_digest default_policy.
Definition trace := exec_trace sample_answer program (settled start).

Lemma mesh_apply_once_witness :
  mutations trace = [NodeCreated (mesh_node_name desired)] ∧
  ∃ o p m, mutates_once (observe_mesh desired) trace o m ∧ apply_granted desired granted_digest o p ∧
    apply_mutation desired p = Some m.
Proof.
  assert (Hm : mutations trace = [NodeCreated (mesh_node_name desired)])
    by (vm_compute; reflexivity).
  split; [exact Hm|].
  destruct (mesh_apply_once desired granted_digest default_policy trace
    (exec sample_answer program (settled start)).1 (exec_runs sample_answer program (settled start)))
    as [[Hq|Hone] _]; [|exact Hone].
  exfalso. rewrite Hm in Hq. discriminate Hq.
Defined.
End MeshProviderSample.
