(* ===== verification/VultrLifecycle.v ===== *)
(** * The Vultr machine lifecycle

    Models [edge-controller-core/src/vultr_lifecycle.rs]: the desired machines of an
    environment, the plan of each machine against the provider's inventory, the
    lifecycle tags that carry ownership at the provider, and the digest under which
    a machine may be destroyed. *)

From S2P Require Import Prelude RustStd HostTypes Concrete Json PlanAuthority.
From S2P Require Import LifecycleCommon.

Definition SUPPORTED_SCHEMA : Z := 1.
Definition MANAGED_BY_IDENTITY : string := "sing-box".
Definition MANAGED_BY_TAG : string := "managed-by-sing-box".
Definition ENVIRONMENT_TAG_PREFIX : string := "singbox-env-".
Definition LOGICAL_ID_TAG_PREFIX : string := "singbox-id-".
Definition SPEC_DIGEST_TAG_PREFIX : string := "singbox-spec-".

Record ProviderSpec : Type := {
  ps_region : string;
  ps_plan : string;
  ps_os_id : option Z;
  ps_snapshot_id : option string;
  ps_enable_ipv6 : bool;
  ps_firewall_profile : option string
}.
#[global] Instance ProviderSpec_eq_dec : EqDecision ProviderSpec.
Proof. solve_decision. Defined.

Record MachineSpec : Type := {
  ms_id : string;
  ms_role : string;
  ms_provider : ProviderSpec;
  ms_bootstrap_profile : string;
  ms_application_profiles : list string;
  ms_tags : list string
}.
#[global] Instance MachineSpec_eq_dec : EqDecision MachineSpec.
Proof. solve_decision. Defined.

Record DesiredState : Type := {
  ds_schema : Z;
  ds_environment : string;
  ds_machines : list MachineSpec
}.

Inductive LifecycleSpecError : Type :=
| SpecJson (detail : string)
| SpecUnsupportedSchema (schema : Z)
| SpecValidation (detail : string)
| SpecSerialization (detail : string).
Abbreviation vres := (result LifecycleSpecError).

(** [impl Display for LifecycleSpecError] *)
Definition spec_error_text (e : LifecycleSpecError) : string :=
  match e with
  | SpecJson detail => "invalid desired-state JSON: " +:+ detail
  | SpecUnsupportedSchema schema => "unsupported desired-state schema " +:+ dec schema
  | SpecValidation detail => "invalid desired state: " +:+ detail
  | SpecSerialization detail => "failed to canonicalize desired state: " +:+ detail
  end.

(** ** JSON forms: [skip_serializing_if = "Option::is_none"] drops absent fields. *)

Definition strings_value (l : list string) : Value := VArray (map VString l).
Definition opt_number (o : option Z) : Value :=
  match o with Some z => VNumber (Z.to_N z) | None => VNull end.
Definition when {A} (name : string) (f : A → Value) (o : option A) : list (string * Value) :=
  match o with Some a => [(name, f a)] | None => [] end.
Definition number (z : Z) : Value := VNumber (Z.to_N z).

Definition provider_value (p : ProviderSpec) : Value := obj (
  [("region", VString (ps_region p)); ("plan", VString (ps_plan p))]
  ++ when "os_id" number (ps_os_id p) ++ when "snapshot_id" VString (ps_snapshot_id p)
  ++ [("enable_ipv6", VBool (ps_enable_ipv6 p))]
  ++ when "firewall_profile" VString (ps_firewall_profile p)).
Definition machine_value (m : MachineSpec) : Value := obj
  [("id", VString (ms_id m)); ("role", VString (ms_role m));
   ("provider", provider_value (ms_provider m));
   ("bootstrap_profile", VString (ms_bootstrap_profile m));
   ("application_profiles", strings_value (ms_application_profiles m));
   ("tags", strings_value (ms_tags m))].
Definition desired_value (d : DesiredState) : Value := obj
  [("schema", number (ds_schema d)); ("environment", VString (ds_environment d));
   ("machines", VArray (map machine_value (ds_machines d)))].

(** ** Validation *)

Definition vultr_identifier_char (c : ascii) : bool :=
  is_ascii_alphanumeric c || one_of "-_." c.
Definition validate_identifier (label value : string) : vres unit :=
  fail_if (str_empty value || negb (str_eqb (trim value) value))
    (SpecValidation (label
       +:+ " must be non-empty and must not contain leading/trailing whitespace")) ;;
  fail_if (negb (str_all vultr_identifier_char value))
    (SpecValidation (label +:+ " contains unsupported characters")).

Definition check_unique (label : string) (identifiers : bool) (seen : list string)
    (value : string) : vres (list string) :=
  (if identifiers then validate_identifier label value
   else fail_if (str_empty value || negb (str_eqb (trim value) value))
     (SpecValidation (label +:+ " entries must be non-empty and trimmed"))) ;;
  fail_if (mem value seen)
    (SpecValidation (label +:+ " contains duplicate value " +:+ value)) ;;
  Ok (value :: seen).
Definition validate_unique_strings (label : string) (values : list string)
    (identifiers : bool) : vres unit :=
  try_fold (check_unique label identifiers) [] values ;; Ok tt.

Definition reserved_tag (tag : string) : bool :=
  str_eqb tag MANAGED_BY_TAG || starts_with ENVIRONMENT_TAG_PREFIX tag
  || starts_with LOGICAL_ID_TAG_PREFIX tag || starts_with SPEC_DIGEST_TAG_PREFIX tag.
Definition validate_user_tags (machine_id : string) (tags : list string) : vres unit :=
  validate_unique_strings ("machine " +:+ machine_id +:+ " tags") tags true ;;
  for_each (λ tag, fail_if (reserved_tag tag)
    (SpecValidation ("machine " +:+ machine_id +:+ " tag " +:+ tag
       +:+ " uses the reserved lifecycle namespace"))) tags.

Definition validate_provider (p : ProviderSpec) (machine_id : string) : vres unit :=
  let label := λ field, "machine " +:+ machine_id +:+ " " +:+ field in
  validate_identifier (label "region") (ps_region p) ;;
  validate_identifier (label "plan") (ps_plan p) ;;
  match ps_os_id p, ps_snapshot_id p with
  | Some 0, _ => Err (SpecValidation (label "os_id must be greater than zero"))
  | Some _, Some _ | None, None =>
      Err (SpecValidation (label "must select exactly one of os_id or snapshot_id"))
  | None, Some snapshot_id => validate_identifier (label "snapshot_id") snapshot_id
  | Some _, None => Ok tt
  end ;;
  match ps_firewall_profile p with
  | Some profile => validate_identifier (label "firewall_profile") profile
  | None => Ok tt
  end.

Definition validate_machine (m : MachineSpec) : vres unit :=
  validate_identifier "machine id" (ms_id m) ;;
  validate_identifier "role" (ms_role m) ;;
  validate_identifier "bootstrap profile" (ms_bootstrap_profile m) ;;
  validate_provider (ms_provider m) (ms_id m) ;;
  validate_unique_strings ("machine " +:+ ms_id m +:+ " application_profiles")
    (ms_application_profiles m) true ;;
  validate_user_tags (ms_id m) (ms_tags m).

Definition check_machine (seen : list string) (m : MachineSpec) : vres (list string) :=
  validate_machine m ;;
  fail_if (mem (ms_id m) seen) (SpecValidation ("duplicate machine id " +:+ ms_id m)) ;;
  Ok (ms_id m :: seen).
Definition validate (d : DesiredState) : vres unit :=
  fail_if (negb (ds_schema d =? SUPPORTED_SCHEMA)) (SpecUnsupportedSchema (ds_schema d)) ;;
  validate_identifier "environment" (ds_environment d) ;;
  try_fold check_machine [] (ds_machines d) ;;
  Ok tt.

Definition parse_json `{FromJson DesiredState} (raw : string) : vres DesiredState :=
  desired ← map_err SpecJson (from_str raw);
  validate desired ;; Ok desired.

Definition with_sorted_tags (m : MachineSpec) : MachineSpec := {|
  ms_id := ms_id m; ms_role := ms_role m; ms_provider := ms_provider m;
  ms_bootstrap_profile := ms_bootstrap_profile m;
  ms_application_profiles := ms_application_profiles m;
  ms_tags := sort_strings (ms_tags m) |}.
Definition machine_leb (a b : MachineSpec) : bool := str_leb (ms_id a) (ms_id b).

Section Digests.
Context `{Sha256} `{SerdeJson}.

(** [sha256_hex(text.as_bytes())] *)
Definition text_digest (text : string) : string := sha256_hex (as_bytes text).

(** [DesiredState::canonical_json] *)
Definition canonical_json (d : DesiredState) : vres string :=
  validate d ;;
  let normalized := {| ds_schema := ds_schema d; ds_environment := ds_environment d;
    ds_machines := map with_sorted_tags (sort_by machine_leb (ds_machines d)) |} in
  Ok (canonical_json_value (desired_value normalized)).
Definition desired_digest (d : DesiredState) : vres string :=
  text ← canonical_json d; Ok (text_digest text).

Definition has_id (id : string) (m : MachineSpec) : bool := str_eqb (ms_id m) id.
Definition machine_material (d : DesiredState) (m : MachineSpec) : Value := obj
  [("schema", number (ds_schema d)); ("environment", VString (ds_environment d));
   ("machine", machine_value (with_sorted_tags m))].
Definition machine_digest (d : DesiredState) (m : MachineSpec) : vres string :=
  validate d ;;
  match List.find (has_id (ms_id m)) (ds_machines d) with
  | Some candidate =>
      fail_if (negb (bool_decide (candidate = m)))
        (SpecValidation ("machine " +:+ ms_id m +:+ " does not exactly match desired state"))
  | None =>
      Err (SpecValidation ("machine " +:+ ms_id m +:+ " is not part of desired state"))
  end ;;
  Ok (text_digest (canonical_json_value (machine_material d m))).
End Digests.

(** ** The provider's inventory *)

Record ObservedOwnership : Type := {
  own_managed_by : option string;
  own_environment : option string;
  own_logical_id : option string
}.
Record ObservedMachine : Type := {
  om_provider_id : string;
  om_label : string;
  om_ownership : ObservedOwnership;
  om_region : string;
  om_plan : string;
  om_provider_status : option string;
  om_server_status : option string;
  om_power_status : option string;
  om_main_ip : option string;
  om_v6_main_ip : option string;
  om_firewall_group_id : option string;
  om_date_created : option string;
  om_os_id : option Z;
  om_snapshot_id : option string;
  om_enable_ipv6 : bool;
  om_firewall_profile : option string;
  om_tags : list string;
  om_spec_digest : option string
}.
Record LifecycleInventory : Type := {
  inv_resources : list ObservedMachine;
  inv_orphaned : list string
}.

Definition provider_id_leb (a b : ObservedMachine) : bool :=
  str_leb (om_provider_id a) (om_provider_id b).

Definition orphaned (d : DesiredState) (r : ObservedMachine) : bool :=
  bool_decide (own_managed_by (om_ownership r) = Some MANAGED_BY_IDENTITY)
  && bool_decide (own_environment (om_ownership r) = Some (ds_environment d))
  && match own_logical_id (om_ownership r) with
     | Some id => negb (mem id (map ms_id (ds_machines d)))
     | None => false
     end.
Definition build_inventory (d : DesiredState) (resources : list ObservedMachine)
    : LifecycleInventory :=
  let resources := sort_by provider_id_leb resources in
  {| inv_resources := resources;
     inv_orphaned := map om_provider_id (List.filter (orphaned d) resources) |}.

(** ** Plans *)

Inductive PlanClass : Set :=
| PlanNoop | PlanCreate | UpdateInPlace | ReplaceRequired | BlockedDrift | BlockedAmbiguous.
#[global] Instance PlanClass_eq_dec : EqDecision PlanClass.
Proof. solve_decision. Defined.

Record MachinePlan : Type := {
  mp_machine_id : string;
  mp_class : PlanClass;
  mp_provider_id : option string;
  mp_desired_spec_digest : string;
  mp_reasons : list string
}.

Definition ownership_matches (d : DesiredState) (m : MachineSpec) (r : ObservedMachine)
    : bool :=
  bool_decide (own_managed_by (om_ownership r) = Some MANAGED_BY_IDENTITY)
  && bool_decide (own_environment (om_ownership r) = Some (ds_environment d))
  && bool_decide (own_logical_id (om_ownership r) = Some (ms_id m)).

Definition identity_conflicts (d : DesiredState) (m : MachineSpec) (r : ObservedMachine)
    : bool :=
  if str_eqb (om_label r) (ms_id m) then true
  else if bool_decide (own_logical_id (om_ownership r) = Some (ms_id m)) then true
  else bool_decide (own_managed_by (om_ownership r) = Some MANAGED_BY_IDENTITY)
       && bool_decide (own_environment (om_ownership r) = Some (ds_environment d))
       && str_eqb (om_label r) (ms_id m).

Definition image_matches (p : ProviderSpec) (r : ObservedMachine) : bool :=
  match ps_os_id p, ps_snapshot_id p with
  | Some os_id, None =>
      match om_snapshot_id r with None => true | Some _ => false end
      && bool_decide (om_os_id r = Some os_id)
  | None, Some snapshot_id => bool_decide (om_snapshot_id r = Some snapshot_id)
  | _, _ => false
  end.

(** [if condition { reasons.push(text) }] *)
Definition reason (condition : bool) (text : string) : list string :=
  if condition then [text] else [].
(** [bool::to_string] *)
Definition bool_text (b : bool) : string := if b then "true" else "false".
Definition differs (what desired observed : string) : string :=
  what +:+ " differs: desired=" +:+ desired +:+ " observed=" +:+ observed.

Definition replacement_reasons (p : ProviderSpec) (r : ObservedMachine) : list string :=
  reason (negb (str_eqb (om_region r) (ps_region p)))
    (differs "region" (ps_region p) (om_region r))
  ++ reason (negb (str_eqb (om_plan r) (ps_plan p)))
    (differs "plan" (ps_plan p) (om_plan r))
  ++ reason (negb (image_matches p r)) "provider image identity differs"
  ++ reason (negb (Bool.eqb (om_enable_ipv6 r) (ps_enable_ipv6 p)))
    (differs "IPv6 policy" (bool_text (ps_enable_ipv6 p)) (bool_text (om_enable_ipv6 r))).

Definition firewall_reasons (p : ProviderSpec) (r : ObservedMachine) : list string :=
  match ps_firewall_profile p with
  | Some expected =>
      reason (negb (bool_decide (om_firewall_profile r = Some expected)))
        "firewall profile differs or is not provider-verified"
  | None =>
      reason (match om_firewall_group_id r with Some _ => true | None => false end)
        "unexpected firewall group is attached"
  end.
Definition update_reasons (m : MachineSpec) (digest : string) (r : ObservedMachine)
    : list string :=
  reason (negb (str_eqb (om_label r) (ms_id m))) (differs "label" (ms_id m) (om_label r))
  ++ firewall_reasons (ms_provider m) r
  ++ reason (negb (bool_decide (sort_strings (ms_tags m) = sort_strings (om_tags r))))
    "managed tags differ"
  ++ reason (negb (bool_decide (om_spec_digest r = Some digest)))
    "managed spec digest differs".

(** The plan for the one exactly owned resource *)
Definition plan_owned (m : MachineSpec) (digest : string) (r : ObservedMachine)
    : MachinePlan :=
  let plan class provider_id reasons := {|
    mp_machine_id := ms_id m; mp_class := class; mp_provider_id := provider_id;
    mp_desired_spec_digest := digest; mp_reasons := reasons |} in
  if str_empty (trim (om_provider_id r)) then
    plan BlockedDrift None ["exact owned resource has an empty provider id"]
  else if match om_os_id r, om_snapshot_id r with None, None => true | _, _ => false end then
    plan BlockedDrift (Some (om_provider_id r)) ["observed provider image identity is missing"]
  else
    let replacement := replacement_reasons (ms_provider m) r in
    if negb (is_empty replacement) then
      plan ReplaceRequired (Some (om_provider_id r)) replacement
    else
      let update := update_reasons m digest r in
      plan (if is_empty update then PlanNoop else UpdateInPlace)
        (Some (om_provider_id r)) update.

(** The plan when no resource is exactly owned *)
Definition plan_unowned (d : DesiredState) (m : MachineSpec) (digest : string)
    (resources : list ObservedMachine) : MachinePlan :=
  let conflicts := dedup (sort_strings
    (map om_provider_id (List.filter (identity_conflicts d m) resources))) in
  if is_empty conflicts then {|
    mp_machine_id := ms_id m; mp_class := PlanCreate; mp_provider_id := None;
    mp_desired_spec_digest := digest;
    mp_reasons := ["no exact owned provider resource exists"] |}
  else {|
    mp_machine_id := ms_id m; mp_class := BlockedDrift; mp_provider_id := None;
    mp_desired_spec_digest := digest;
    mp_reasons := ["provider resources conflict with logical identity " +:+ ms_id m
      +:+ ": " +:+ join ", " conflicts] |}.

Section Planning.
Context `{Sha256} `{SerdeJson}.

Definition plan_machine (d : DesiredState) (m : MachineSpec) (inv : LifecycleInventory)
    : vres MachinePlan :=
  digest ← machine_digest d m;
  match sort_by provider_id_leb (List.filter (ownership_matches d m) (inv_resources inv)) with
  | [] => Ok (plan_unowned d m digest (inv_resources inv))
  | [r] => Ok (plan_owned m digest r)
  | exact_owned => Ok {|
      mp_machine_id := ms_id m; mp_class := BlockedAmbiguous; mp_provider_id := None;
      mp_desired_spec_digest := digest;
      mp_reasons := ["multiple exact owned resources match logical id " +:+ ms_id m
        +:+ ": " +:+ join ", " (map om_provider_id exact_owned)] |}
  end.

Definition plan_all (d : DesiredState) (inv : LifecycleInventory) : vres (list MachinePlan) :=
  validate d ;;
  try_map (λ m, plan_machine d m inv) (sort_by machine_leb (ds_machines d)).
End Planning.

(** ** Lifecycle tags *)

Inductive ProviderIdentityError : Type :=
| DuplicateLifecycleTag (kind : string)
| InvalidLifecycleTag (tag : string)
| IncompleteManagedIdentity.

Record DecodedProviderTags : Type := {
  dt_ownership : ObservedOwnership;
  dt_spec_digest : option string;
  dt_user_tags : list string
}.

Definition provider_tags_for_machine `{Sha256} `{SerdeJson} (d : DesiredState)
    (m : MachineSpec) : vres (list string) :=
  validate d ;;
  digest ← machine_digest d m;
  Ok (sort_strings
    ([MANAGED_BY_TAG; ENVIRONMENT_TAG_PREFIX +:+ ds_environment d;
      LOGICAL_ID_TAG_PREFIX +:+ ms_id m; SPEC_DIGEST_TAG_PREFIX +:+ digest] ++ ms_tags m)).

(** The variables of the loop of [decode_provider_tags] *)
Record tag_state : Type := {
  ts_managed : bool;
  ts_environment : option string;
  ts_logical_id : option string;
  ts_spec_digest : option string;
  ts_user_tags : list string
}.

Definition is_some {A} (o : option A) : bool := match o with Some _ => true | None => false end.

Definition set_lifecycle_value (kind raw_tag value : string) (slot : option string)
    : result ProviderIdentityError (option string) :=
  fail_if (is_some slot) (DuplicateLifecycleTag kind) ;;
  fail_if (str_empty value || negb (str_all vultr_identifier_char value))
    (InvalidLifecycleTag raw_tag) ;;
  Ok (Some value).

Definition decode_tag (s : tag_state) (tag : string) : result ProviderIdentityError tag_state :=
  if str_eqb tag MANAGED_BY_TAG then
    fail_if (ts_managed s) (DuplicateLifecycleTag "managed-by") ;;
    Ok {| ts_managed := true; ts_environment := ts_environment s;
          ts_logical_id := ts_logical_id s; ts_spec_digest := ts_spec_digest s;
          ts_user_tags := ts_user_tags s |}
  else match strip_prefix ENVIRONMENT_TAG_PREFIX tag with
  | Some value =>
      slot ← set_lifecycle_value "environment" tag value (ts_environment s);
      Ok {| ts_managed := ts_managed s; ts_environment := slot;
            ts_logical_id := ts_logical_id s; ts_spec_digest := ts_spec_digest s;
            ts_user_tags := ts_user_tags s |}
  | None =>
  match strip_prefix LOGICAL_ID_TAG_PREFIX tag with
  | Some value =>
      slot ← set_lifecycle_value "logical-id" tag value (ts_logical_id s);
      Ok {| ts_managed := ts_managed s; ts_environment := ts_environment s;
            ts_logical_id := slot; ts_spec_digest := ts_spec_digest s;
            ts_user_tags := ts_user_tags s |}
  | None =>
  match strip_prefix SPEC_DIGEST_TAG_PREFIX tag with
  | Some value =>
      fail_if (is_some (ts_spec_digest s)) (DuplicateLifecycleTag "spec-digest") ;;
      fail_if (negb (slen value =? 64) || negb (str_all is_lower_hex value))
        (InvalidLifecycleTag tag) ;;
      Ok {| ts_managed := ts_managed s; ts_environment := ts_environment s;
            ts_logical_id := ts_logical_id s; ts_spec_digest := Some value;
            ts_user_tags := ts_user_tags s |}
  | None =>
      Ok {| ts_managed := ts_managed s; ts_environment := ts_environment s;
            ts_logical_id := ts_logical_id s; ts_spec_digest := ts_spec_digest s;
            ts_user_tags := ts_user_tags s ++ [tag] |}
  end end end.

Definition no_tags : tag_state := {|
  ts_managed := false; ts_environment := None; ts_logical_id := None;
  ts_spec_digest := None; ts_user_tags := [] |}.

Definition decode_provider_tags (tags : list string)
    : result ProviderIdentityError DecodedProviderTags :=
  s ← try_fold decode_tag no_tags tags;
  let any := ts_managed s || is_some (ts_environment s) || is_some (ts_logical_id s)
             || is_some (ts_spec_digest s) in
  fail_if (any && negb (ts_managed s && is_some (ts_environment s)
                        && is_some (ts_logical_id s)))
    IncompleteManagedIdentity ;;
  Ok {| dt_ownership := {|
          own_managed_by := if ts_managed s then Some MANAGED_BY_IDENTITY else None;
          own_environment := ts_environment s; own_logical_id := ts_logical_id s |};
        dt_spec_digest := ts_spec_digest s;
        dt_user_tags := sort_strings (ts_user_tags s) |}.

(** ** Destruction *)

Record DestroyPlan : Type := {
  dp_machine_id : string;
  dp_provider_id : string;
  dp_label : string;
  dp_source_revision : string;
  dp_region : string;
  dp_plan : string;
  dp_os_id : option Z;
  dp_snapshot_id : option string;
  dp_main_ip : option string;
  dp_v6_main_ip : option string;
  dp_firewall_group_id : option string;
  dp_date_created : option string;
  dp_observed_spec_digest : option string;
  dp_destroy_digest : string
}.

Inductive DestroyAuthorityError : Type :=
| DestroySpec (e : LifecycleSpecError)
| InvalidSourceRevision
| DestroyAbsent
| DestroyAmbiguous
| StaleDigest (expected actual : string).

(** [impl Display for DestroyAuthorityError] *)
Definition destroy_error_text (e : DestroyAuthorityError) : string :=
  match e with
  | DestroySpec err => spec_error_text err
  | InvalidSourceRevision =>
      "source revision must be a 40 or 64 character lowercase hex digest"
  | DestroyAbsent => "exact owned provider resource is absent"
  | DestroyAmbiguous => "multiple exact owned provider resources exist"
  | StaleDigest expected actual =>
      "destroy digest is stale: authorized=" +:+ expected +:+ " current=" +:+ actual
  end.

Definition is_source_revision (value : string) : bool :=
  ((slen value =? 40) || (slen value =? 64)) && str_all is_lower_hex value.

Definition ownership_value (o : ObservedOwnership) : Value := obj
  [("managed_by", opt_string (own_managed_by o));
   ("environment", opt_string (own_environment o));
   ("logical_id", opt_string (own_logical_id o))].
Definition destroy_provider_fields (r : ObservedMachine) : list (string * Value) :=
  [("id", VString (om_provider_id r)); ("label", VString (om_label r));
   ("ownership", ownership_value (om_ownership r)); ("region", VString (om_region r));
   ("plan", VString (om_plan r)); ("os_id", opt_number (om_os_id r));
   ("snapshot_id", opt_string (om_snapshot_id r)); ("main_ip", opt_string (om_main_ip r));
   ("v6_main_ip", opt_string (om_v6_main_ip r));
   ("firewall_group_id", opt_string (om_firewall_group_id r));
   ("date_created", opt_string (om_date_created r));
   ("enable_ipv6", VBool (om_enable_ipv6 r));
   ("firewall_profile", opt_string (om_firewall_profile r));
   ("tags", strings_value (sort_strings (om_tags r)));
   ("spec_digest", opt_string (om_spec_digest r))].
Definition destroy_material (d : DesiredState) (m : MachineSpec) (r : ObservedMachine)
    (source_revision : string) : Value := obj
  [("schema", number SUPPORTED_SCHEMA); ("environment", VString (ds_environment d));
   ("logical_id", VString (ms_id m)); ("source_revision", VString source_revision);
   ("provider", obj (destroy_provider_fields r))].

Section Destroy.
Context `{Sha256} `{SerdeJson}.

Definition destroy_digest (d : DesiredState) (m : MachineSpec) (r : ObservedMachine)
    (source_revision : string) : string :=
  text_digest (canonical_json_value (destroy_material d m r source_revision)).

Definition destroy_plan (d : DesiredState) (m : MachineSpec) (inv : LifecycleInventory)
    (source_revision : string) : result DestroyAuthorityError DestroyPlan :=
  map_err DestroySpec (validate d) ;;
  fail_if (negb (is_source_revision source_revision)) InvalidSourceRevision ;;
  match List.filter (ownership_matches d m) (inv_resources inv) with
  | [] => Err DestroyAbsent
  | [r] => Ok {|
      dp_machine_id := ms_id m; dp_provider_id := om_provider_id r; dp_label := om_label r;
      dp_source_revision := source_revision; dp_region := om_region r; dp_plan := om_plan r;
      dp_os_id := om_os_id r; dp_snapshot_id := om_snapshot_id r; dp_main_ip := om_main_ip r;
      dp_v6_main_ip := om_v6_main_ip r; dp_firewall_group_id := om_firewall_group_id r;
      dp_date_created := om_date_created r; dp_observed_spec_digest := om_spec_digest r;
      dp_destroy_digest := destroy_digest d m r source_revision |}
  | _ => Err DestroyAmbiguous
  end.

Definition authorize_destroy (d : DesiredState) (m : MachineSpec) (inv : LifecycleInventory)
    (source_revision authorized_digest : string) : result DestroyAuthorityError string :=
  current ← destroy_plan d m inv source_revision;
  fail_if (negb (str_eqb (dp_destroy_digest current) authorized_digest))
    (StaleDigest authorized_digest (dp_destroy_digest current)) ;;
  Ok (dp_provider_id current).
End Destroy.
