(* ===== verification/VultrLifecycleFacts.v ===== *)
(** * Facts about the Vultr machine lifecycle

    Tags round-trip through the provider in any order ([vultr_tags_roundtrip]); plans
    create, update and replace only what the inventory justifies
    ([vultr_plan_justified]); a machine created to specification needs nothing more
    ([vultr_created_is_noop]); a destruction is bound to the observed machine
    ([vultr_destroy_binds]). *)

From S2P Require Import Prelude RustStd HostTypes Concrete Json PlanAuthority.
From S2P Require Import LifecycleCommon VultrLifecycle.

Lemma validate_identifier_Ok label value :
  validate_identifier label value = Ok tt →
  str_empty value = false ∧ str_all vultr_identifier_char value = true.
Proof.
  unfold validate_identifier. intros E. inv_ok E. reflect_in E. apply orb_false in Hm as [? _].
  done.
Qed.

Lemma validate_unique_NoDup label values identifiers :
  validate_unique_strings label values identifiers = Ok tt → NoDup values.
Proof.
  unfold validate_unique_strings. intros E. inv_ok E.
  apply (try_fold_seen _ id) in Hm as [-> Hn]; [|clear|constructor].
  - rewrite app_nil_r in Hn. change (id <$> values) with (map id values) in Hn.
    rewrite map_id in Hn. rewrite (Permutation_rev values). exact Hn.
  - intros s x s' E. unfold check_unique in E. inv_ok E. by reflect_in Hm0.
Qed.

Lemma validate_user_tags_Ok id tags :
  validate_user_tags id tags = Ok tt → NoDup tags ∧ Forall (λ t, reserved_tag t = false) tags.
Proof.
  unfold validate_user_tags. intros E. inv_ok E. apply validate_unique_NoDup in Hm.
  split; [done|]. apply for_each_Ok in E. eapply Forall_impl; [exact E|].
  intros t Ht. cbn beta in Ht. by apply fail_if_Ok in Ht.
Qed.

Lemma check_machine_Ok seen m seen' :
  check_machine seen m = Ok seen' → validate_machine m = Ok tt.
Proof. unfold check_machine. intros E. by inv_ok E. Qed.

Lemma validate_Ok d :
  validate d = Ok tt →
  validate_identifier "environment" (ds_environment d) = Ok tt ∧
  Forall (λ m, validate_machine m = Ok tt) (ds_machines d).
Proof.
  unfold validate. intros E. inv_ok E. split; [done|].
  eapply try_fold_Forall; [|eassumption]. intros s m s'. apply check_machine_Ok.
Qed.

Lemma validate_machine_Ok m :
  validate_machine m = Ok tt →
  validate_identifier "machine id" (ms_id m) = Ok tt ∧
  validate_user_tags (ms_id m) (ms_tags m) = Ok tt.
Proof. unfold validate_machine. intros E. by inv_ok E. Qed.

Lemma bool_decide_ext_or (x t : string) l :
  bool_decide (x ∈ t :: l) = bool_decide (t = x) || bool_decide (x ∈ l).
Proof.
  destruct (decide (t = x)) as [->|Hne].
  - rewrite (bool_decide_true (x = x)) by done. by rewrite bool_decide_true by (by left).
  - rewrite (bool_decide_false (t = x)) by done. simpl. apply bool_decide_ext.
    rewrite elem_of_cons. split; [intros [->|?]; done|by right].
Qed.

Section VultrFacts.
Context `{Sha256} `{SerdeJson}.

Lemma text_digest_hex text :
  slen (text_digest text) = 64 ∧ str_all is_lower_hex (text_digest text) = true.
Proof.
  unfold text_digest, sha256_hex. rewrite hex_of_bytes_lower_hex. unfold slen.
  by rewrite length_hex_of_bytes, sha256_length.
Qed.

Lemma machine_digest_Ok d m digest :
  machine_digest d m = Ok digest →
  validate d = Ok tt ∧ m ∈ ds_machines d ∧ validate_machine m = Ok tt ∧
  digest = text_digest (canonical_json_value (machine_material d m)).
Proof.
  unfold machine_digest. intros E. inv_ok E.
  destruct (List.find _ _) as [c|] eqn:Hf; [|done]. inv_ok Hm0. reflect_in Hm0. subst c.
  apply find_some in Hf as [Hin%list_elem_of_In _].
  split_and!; [done|done| |done]. apply validate_Ok in Hm as [_ Hall].
  rewrite Forall_forall in Hall. auto.
Qed.

(** ** Tags *)

Definition env_tag (e : string) : string := ENVIRONMENT_TAG_PREFIX +:+ e.
Definition id_tag (i : string) : string := LOGICAL_ID_TAG_PREFIX +:+ i.
Definition spec_tag (s : string) : string := SPEC_DIGEST_TAG_PREFIX +:+ s.

Lemma starts_with_app p s : starts_with p (p +:+ s) = true.
Proof. apply starts_with_true. by exists s. Qed.

Lemma reserved_lifecycle e i s :
  reserved_tag MANAGED_BY_TAG = true ∧ reserved_tag (env_tag e) = true ∧
  reserved_tag (id_tag i) = true ∧ reserved_tag (spec_tag s) = true.
Proof.
  unfold reserved_tag, env_tag, id_tag, spec_tag.
  rewrite !starts_with_app, !orb_true_r. by split_and!.
Qed.

Section Loop.
Context (e i s : string).
Context (He : str_empty e = false ∧ str_all vultr_identifier_char e = true)
  (Hi : str_empty i = false ∧ str_all vultr_identifier_char i = true)
  (Hs : slen s = 64 ∧ str_all is_lower_hex s = true).

Definition lifecycle_tags : list string := [MANAGED_BY_TAG; env_tag e; id_tag i; spec_tag s].

Definition with_tag (st : tag_state) (t : string) : tag_state := {|
  ts_managed := ts_managed st || str_eqb t MANAGED_BY_TAG;
  ts_environment := if str_eqb t (env_tag e) then Some e else ts_environment st;
  ts_logical_id := if str_eqb t (id_tag i) then Some i else ts_logical_id st;
  ts_spec_digest := if str_eqb t (spec_tag s) then Some s else ts_spec_digest st;
  ts_user_tags := ts_user_tags st ++ (if reserved_tag t then [] else [t]) |}.

(** No slot a tag would fill is filled. *)
Definition unset (st : tag_state) (t : string) : Prop :=
  (t = MANAGED_BY_TAG → ts_managed st = false) ∧
  (t = env_tag e → ts_environment st = None) ∧
  (t = id_tag i → ts_logical_id st = None) ∧
  (t = spec_tag s → ts_spec_digest st = None).

Lemma str_eqb_refl (a : string) : str_eqb a a = true.
Proof. by apply str_eqb_true. Qed.
Lemma get_differs n (a b : string) : String.get n a ≠ String.get n b → str_eqb a b = false.
Proof. intros Hne. apply str_eqb_false. by intros ->. Qed.

Lemma decode_tag_ok st t :
  t ∈ lifecycle_tags ∨ reserved_tag t = false → unset st t →
  decode_tag st t = Ok (with_tag st t).
Proof using He Hi Hs.
  destruct st as [b oe oi os u]. intros Ht (Um & Ue & Ui & Us). simpl in *.
  destruct (reserved_lifecycle e i s) as (Rm & Re & Ri & Rs).
  unfold lifecycle_tags in Ht. rewrite !elem_of_cons, elem_of_nil in Ht.
  destruct He as [He1 He2], Hi as [Hi1 Hi2], Hs as [Hs1 Hs2].
  destruct Ht as [[->|[->|[->|[->|[]]]]]|Hr].
  - rewrite Um by done. unfold decode_tag, with_tag.
    rewrite Rm, str_eqb_refl, !(get_differs 0 MANAGED_BY_TAG _) by done. simpl. by rewrite app_nil_r.
  - rewrite Ue by done. unfold decode_tag, with_tag, set_lifecycle_value.
    replace (strip_prefix ENVIRONMENT_TAG_PREFIX (env_tag e)) with (Some e)
      by (symmetry; apply strip_prefix_app).
    rewrite Re, str_eqb_refl, He1, He2, !(get_differs 8 (env_tag e) _) by done.
    simpl. by rewrite app_nil_r, orb_false_r.
  - rewrite Ui by done. unfold decode_tag, with_tag, set_lifecycle_value.
    replace (strip_prefix ENVIRONMENT_TAG_PREFIX (id_tag i)) with (@None string) by done.
    replace (strip_prefix LOGICAL_ID_TAG_PREFIX (id_tag i)) with (Some i)
      by (symmetry; apply strip_prefix_app).
    rewrite Ri, str_eqb_refl, Hi1, Hi2, !(get_differs 8 (id_tag i) _) by done.
    simpl. by rewrite app_nil_r, orb_false_r.
  - rewrite Us by done. unfold decode_tag, with_tag.
    replace (strip_prefix ENVIRONMENT_TAG_PREFIX (spec_tag s)) with (@None string) by done.
    replace (strip_prefix LOGICAL_ID_TAG_PREFIX (spec_tag s)) with (@None string) by done.
    replace (strip_prefix SPEC_DIGEST_TAG_PREFIX (spec_tag s)) with (Some s)
      by (symmetry; apply strip_prefix_app).
    rewrite Rs, str_eqb_refl, Hs1, Hs2, !(get_differs 8 (spec_tag s) _) by done.
    simpl. by rewrite app_nil_r, orb_false_r.
  - unfold decode_tag, with_tag. rewrite Hr. unfold reserved_tag, starts_with in Hr.
    rewrite !orb_false in Hr. destruct Hr as [[[R1 R2] R3] R4].
    destruct (strip_prefix ENVIRONMENT_TAG_PREFIX t) eqn:E2; [done|].
    destruct (strip_prefix LOGICAL_ID_TAG_PREFIX t) eqn:E3; [done|].
    destruct (strip_prefix SPEC_DIGEST_TAG_PREFIX t) eqn:E4; [done|].
    assert (Hne : ∀ p v, strip_prefix p t = None → str_eqb t (p +:+ v) = false).
    { intros p v Hp. apply str_eqb_false. intros ->. by rewrite strip_prefix_app in Hp. }
    unfold env_tag, id_tag, spec_tag. rewrite R1, !Hne by done. simpl. by rewrite orb_false_r.
Qed.

Lemma unset_with st t u : t ≠ u → unset st u → unset (with_tag st t) u.
Proof.
  intros Hne (Hm & He' & Hi' & Hs'). unfold unset, with_tag. simpl.
  split_and!; intros ->; rewrite (proj2 (str_eqb_false t _) Hne), ?orb_false_r; auto.
Qed.

Lemma decode_loop st l :
  NoDup l → (∀ t, t ∈ l → t ∈ lifecycle_tags ∨ reserved_tag t = false) →
  (∀ t, t ∈ l → unset st t) →
  try_fold decode_tag st l = Ok (foldl with_tag st l).
Proof using He Hi Hs.
  revert st. induction l as [|t l IH]; intros st Hn Ht Hu; simpl; [done|].
  apply NoDup_cons in Hn as [Hin Hn]. rewrite decode_tag_ok; [|apply Ht; by left|apply Hu; by left].
  simpl. apply IH; [done|intros; apply Ht; by right|].
  intros u Hul. apply unset_with; [by intros ->|]. apply Hu. by right.
Qed.

Lemma foldl_with_tag st l :
  foldl with_tag st l = {|
    ts_managed := ts_managed st || mem MANAGED_BY_TAG l;
    ts_environment := if mem (env_tag e) l then Some e else ts_environment st;
    ts_logical_id := if mem (id_tag i) l then Some i else ts_logical_id st;
    ts_spec_digest := if mem (spec_tag s) l then Some s else ts_spec_digest st;
    ts_user_tags := ts_user_tags st ++ List.filter (λ t, negb (reserved_tag t)) l |}.
Proof.
  assert (Hmem : ∀ x t l', mem x (t :: l') = str_eqb t x || mem x l').
  { intros x t l'. unfold mem, str_eqb. apply bool_decide_ext_or. }
  revert st. induction l as [|t l IH]; intros st; cbn [foldl].
  - destruct st. unfold mem. rewrite !bool_decide_false by (apply not_elem_of_nil).
    simpl. by rewrite orb_false_r, app_nil_r.
  - rewrite IH, !Hmem. unfold with_tag. cbn [ts_managed ts_environment ts_logical_id ts_spec_digest ts_user_tags].
    rewrite orb_assoc. cbn [List.filter]. rewrite <- app_assoc.
    f_equal; [..|by destruct (reserved_tag t)].
    + by destruct (str_eqb t (env_tag e)), (mem (env_tag e) l).
    + by destruct (str_eqb t (id_tag i)), (mem (id_tag i) l).
    + by destruct (str_eqb t (spec_tag s)), (mem (spec_tag s) l).
Qed.
End Loop.

(** The tags of a machine are distinct. *)
Lemma machine_tags_NoDup e i s tags :
  NoDup tags → Forall (λ t, reserved_tag t = false) tags →
  NoDup (lifecycle_tags e i s ++ tags).
Proof.
  intros Hn Hr. destruct (reserved_lifecycle e i s) as (Rm & Re & Ri & Rs).
  apply NoDup_app. split_and!; [| |done].
  - unfold lifecycle_tags. rewrite !NoDup_cons, !not_elem_of_cons.
    split_and!; try apply not_elem_of_nil; try apply NoDup_nil_2; done.
  - rewrite Forall_forall in Hr. intros t Ht Hin%Hr. unfold lifecycle_tags in Ht.
    rewrite !elem_of_cons, elem_of_nil in Ht. destruct Ht as [->|[->|[->|[->|[]]]]]; congruence.
Qed.

Lemma filter_user_tags e i s tags :
  Forall (λ t, reserved_tag t = false) tags →
  List.filter (λ t, negb (reserved_tag t)) (lifecycle_tags e i s ++ tags) = tags.
Proof.
  intros Hr. destruct (reserved_lifecycle e i s) as (Rm & Re & Ri & Rs).
  unfold lifecycle_tags. cbn [app List.filter]. rewrite Rm, Re, Ri, Rs. cbn [negb].
  induction Hr as [|t tags Ht _ IH]; cbn [List.filter]; [done|]. by rewrite Ht, IH.
Qed.

Lemma filter_perm {A} (f : A → bool) l l' : l ≡ₚ l' → List.filter f l ≡ₚ List.filter f l'.
Proof.
  induction 1 as [|x l l' _ IH|x y l|l1 l2 l3 _ IH1 _ IH2]; simpl; [done|..].
  - destruct (f x); [by rewrite IH|done].
  - destruct (f x), (f y); done || apply Permutation_swap.
  - by rewrite IH1.
Qed.

(** What decoding gives for the tags of a machine *)
Definition machine_identity (d : DesiredState) (m : MachineSpec) (digest : string)
    : DecodedProviderTags := {|
  dt_ownership := {| own_managed_by := Some MANAGED_BY_IDENTITY;
                     own_environment := Some (ds_environment d);
                     own_logical_id := Some (ms_id m) |};
  dt_spec_digest := Some digest; dt_user_tags := sort_strings (ms_tags m) |}.

Lemma decode_machine_tags d m tags listed :
  provider_tags_for_machine d m = Ok tags → listed ≡ₚ tags →
  ∃ digest, machine_digest d m = Ok digest ∧
    decode_provider_tags listed = Ok (machine_identity d m digest).
Proof.
  unfold provider_tags_for_machine. intros E Hp. inv_ok E. exists x0. split; [done|].
  pose proof (machine_digest_Ok _ _ _ Hm0) as (_ & _ & Hv & Hdig).
  apply validate_machine_Ok in Hv as [Hid%validate_identifier_Ok Htags].
  apply validate_user_tags_Ok in Htags as [Hn Hr].
  apply validate_Ok in Hm as [Henv%validate_identifier_Ok _].
  assert (Hs : slen x0 = 64 ∧ str_all is_lower_hex x0 = true) by (subst x0; apply text_digest_hex).
  set (all := lifecycle_tags (ds_environment d) (ms_id m) x0 ++ ms_tags m).
  assert (Hall : listed ≡ₚ all) by (rewrite Hp; apply sort_by_perm).
  assert (Hnd : NoDup listed) by (rewrite Hall; by apply machine_tags_NoDup).
  assert (Hmem : ∀ t, t ∈ lifecycle_tags (ds_environment d) (ms_id m) x0 → mem t listed = true).
  { intros t Ht. apply mem_true. rewrite Hall. apply elem_of_app. by left. }
  unfold decode_provider_tags, machine_identity.
  rewrite (decode_loop (ds_environment d) (ms_id m) x0) by
    (done || (intros t; rewrite Hall; unfold all; rewrite elem_of_app;
              rewrite Forall_forall in Hr; intros [?|?]; auto)).
  cbn [mbind result_bind]. rewrite foldl_with_tag.
  rewrite !Hmem by (unfold lifecycle_tags; rewrite !elem_of_cons; tauto).
  cbn [no_tags ts_managed ts_environment ts_logical_id ts_spec_digest ts_user_tags orb is_some app andb negb fail_if mbind result_bind].
  do 2 f_equal. apply sort_strings_canonical.
  rewrite (filter_perm _ _ _ Hall). unfold all. by rewrite filter_user_tags.
Qed.

(** The tags written at the provider carry the machine's identity: in whatever order
    the provider lists them, decoding gives back the owner, the environment, the
    machine, the digest of its specification and its own tags. *)
Theorem vultr_tags_roundtrip d m tags listed :
  provider_tags_for_machine d m = Ok tags → listed ≡ₚ tags →
  ∃ digest, machine_digest d m = Ok digest ∧
    decode_provider_tags listed = Ok {|
      dt_ownership := {| own_managed_by := Some MANAGED_BY_IDENTITY;
                         own_environment := Some (ds_environment d);
                         own_logical_id := Some (ms_id m) |};
      dt_spec_digest := Some digest; dt_user_tags := sort_strings (ms_tags m) |}.
Proof. exact (decode_machine_tags d m tags listed). Qed.

(** ** Plans *)

(** The attributes only a replacement can change *)
Definition fixed_as_specified (p : ProviderSpec) (r : ObservedMachine) : Prop :=
  om_region r = ps_region p ∧ om_plan r = ps_plan p ∧ image_matches p r = true ∧
  om_enable_ipv6 r = ps_enable_ipv6 p.
(** The attributes an update in place sets *)
Definition mutable_as_specified (m : MachineSpec) (digest : string) (r : ObservedMachine)
    : Prop :=
  om_label r = ms_id m ∧ om_tags r ≡ₚ ms_tags m ∧ om_spec_digest r = Some digest ∧
  match ps_firewall_profile (ms_provider m) with
  | Some profile => om_firewall_profile r = Some profile
  | None => om_firewall_group_id r = None
  end.

Lemma reason_nil b t : reason b t = [] ↔ b = false.
Proof. by destruct b. Qed.

Lemma replacement_reasons_nil p r :
  replacement_reasons p r = [] ↔ fixed_as_specified p r.
Proof.
  unfold replacement_reasons, fixed_as_specified.
  rewrite !app_nil, !reason_nil, !negb_false, !str_eqb_true, eqb_true_iff. done.
Qed.

Lemma update_reasons_nil m digest r :
  update_reasons m digest r = [] ↔ mutable_as_specified m digest r.
Proof.
  unfold update_reasons, mutable_as_specified, firewall_reasons.
  rewrite !app_nil, !reason_nil, !negb_false, str_eqb_true, !bool_decide_eq_true.
  rewrite sort_strings_eq_perm.
  assert (Hf : (match ps_firewall_profile (ms_provider m) with
    | Some expected => reason (negb (bool_decide (om_firewall_profile r = Some expected)))
        "firewall profile differs or is not provider-verified"
    | None => reason (match om_firewall_group_id r with Some _ => true | None => false end)
        "unexpected firewall group is attached" end) = [] ↔
    match ps_firewall_profile (ms_provider m) with
    | Some profile => om_firewall_profile r = Some profile
    | None => om_firewall_group_id r = None end).
  { destruct (ps_firewall_profile _); rewrite reason_nil.
    - by rewrite negb_false, bool_decide_eq_true.
    - by destruct (om_firewall_group_id r). }
  rewrite Hf. split; intros (? & ? & ? & ?); split_and!; done || by symmetry.
Qed.

Lemma plan_owned_class m digest r :
  let p := plan_owned m digest r in
  match mp_class p with
  | PlanNoop => fixed_as_specified (ms_provider m) r ∧ mutable_as_specified m digest r ∧
      mp_provider_id p = Some (om_provider_id r) ∧ mp_reasons p = []
  | UpdateInPlace => fixed_as_specified (ms_provider m) r ∧
      ¬ mutable_as_specified m digest r ∧ mp_provider_id p = Some (om_provider_id r)
  | ReplaceRequired => ¬ fixed_as_specified (ms_provider m) r ∧
      mp_provider_id p = Some (om_provider_id r)
  | BlockedDrift => True
  | _ => False
  end.
Proof.
  unfold plan_owned. destruct (str_empty _); [done|].
  destruct (match om_os_id r, om_snapshot_id r with None, None => true | _, _ => false end); [done|].
  pose proof (replacement_reasons_nil (ms_provider m) r) as Hf.
  pose proof (update_reasons_nil m digest r) as Hu.
  destruct (replacement_reasons _ _) as [|x l]; simpl.
  - destruct (update_reasons _ _ _); simpl; split_and!; try done; naive_solver.
  - split; [|done]. by intros ?%Hf.
Qed.

(** Nothing in the inventory carries the identity of the machine. *)
Definition unclaimed (m : MachineSpec) (inv : LifecycleInventory) : Prop :=
  ∀ r, r ∈ inv_resources inv →
    om_label r ≠ ms_id m ∧ own_logical_id (om_ownership r) ≠ Some (ms_id m).

Lemma dedup_nil l : dedup l = [] → l = [].
Proof.
  induction l as [|x [|y l] IH]; [done|done|]. cbn [dedup]. destruct (str_eqb x y); [|done].
  by intros E%IH.
Qed.

Lemma plan_unowned_create d m digest inv :
  mp_class (plan_unowned d m digest (inv_resources inv)) = PlanCreate → unclaimed m inv.
Proof.
  unfold plan_unowned. destruct (is_empty _) eqn:E; [|done]. intros _ r Hr.
  apply is_empty_true, dedup_nil in E. apply (f_equal length) in E.
  unfold sort_strings in E. rewrite length_sort_by, length_map in E.
  assert (Hc : identity_conflicts d m r = false).
  { destruct (identity_conflicts d m r) eqn:Hc; [|done].
    assert (Hin : In r (List.filter (identity_conflicts d m) (inv_resources inv)))
      by (apply filter_In; split; [by apply list_elem_of_In|done]).
    destruct (List.filter _ _); done. }
  unfold identity_conflicts in Hc. destruct (str_eqb (om_label r) (ms_id m)) eqn:El; [done|].
  case_bool_decide; [done|]. split; [by apply str_eqb_false|done].
Qed.

(** A plan never creates a machine whose label or logical identifier is already in
    use, calls a machine converged only when the one owned resource is as specified in
    every attribute, and proposes an update or a replacement only for that resource
    and only for a difference of the matching kind. *)
Theorem vultr_plan_justified d m inv p :
  plan_machine d m inv = Ok p →
  match mp_class p with
  | PlanCreate => unclaimed m inv ∧ mp_provider_id p = None
  | BlockedAmbiguous | BlockedDrift => True
  | class => ∃ r digest,
      List.filter (ownership_matches d m) (inv_resources inv) = [r] ∧
      machine_digest d m = Ok digest ∧ mp_provider_id p = Some (om_provider_id r) ∧
      (class = ReplaceRequired ↔ ¬ fixed_as_specified (ms_provider m) r) ∧
      (class = PlanNoop ↔ fixed_as_specified (ms_provider m) r ∧
                          mutable_as_specified m digest r)
  end.
Proof.
  unfold plan_machine. intros E. inv_ok E.
  assert (Hone : ∀ r, sort_by provider_id_leb
    (List.filter (ownership_matches d m) (inv_resources inv)) = [r] →
    List.filter (ownership_matches d m) (inv_resources inv) = [r]).
  { intros r Hr. apply Permutation_singleton_r. rewrite <- Hr. symmetry. apply sort_by_perm. }
  destruct (sort_by provider_id_leb _) as [|r [|r' rs]] eqn:Hs; inv_ok E; [..|done].
  - pose proof (plan_unowned_create d m x inv) as Hc. unfold plan_unowned in *.
    destruct (is_empty _); simpl in *; auto.
  - pose proof (plan_owned_class m x r) as Hc. simpl in Hc.
    destruct (mp_class (plan_owned m x r)); try done.
    + destruct Hc as (Hf & Hmu & Hp & _). exists r, x. split_and!; auto; naive_solver.
    + destruct Hc as (Hf & Hmu & Hp). exists r, x. split_and!; auto; naive_solver.
    + destruct Hc as (Hf & Hp). exists r, x. split_and!; auto; naive_solver.
Qed.

Lemma plan_owned_noop m digest r :
  str_empty (trim (om_provider_id r)) = false →
  fixed_as_specified (ms_provider m) r → mutable_as_specified m digest r →
  plan_owned m digest r = {|
    mp_machine_id := ms_id m; mp_class := PlanNoop;
    mp_provider_id := Some (om_provider_id r); mp_desired_spec_digest := digest;
    mp_reasons := [] |}.
Proof.
  intros Hid Hf Hm. unfold plan_owned. rewrite Hid.
  rewrite (proj2 (replacement_reasons_nil _ _) Hf), (proj2 (update_reasons_nil _ _ _) Hm).
  destruct Hf as (_ & _ & Himg & _). unfold image_matches in Himg.
  destruct (om_os_id r), (om_snapshot_id r); [done..|].
  destruct (ps_os_id _), (ps_snapshot_id _); simpl in Himg; try done.
Qed.

(** A resource that shows what it was created with: the tags it was given, decoded,
    and the attributes of the specification *)
Definition as_created (m : MachineSpec) (decoded : DecodedProviderTags)
    (r : ObservedMachine) : Prop :=
  om_ownership r = dt_ownership decoded ∧ om_tags r = dt_user_tags decoded ∧
  om_spec_digest r = dt_spec_digest decoded ∧ om_label r = ms_id m ∧
  fixed_as_specified (ms_provider m) r ∧ str_empty (trim (om_provider_id r)) = false ∧
  match ps_firewall_profile (ms_provider m) with
  | Some profile => om_firewall_profile r = Some profile
  | None => om_firewall_group_id r = None
  end.

(** A machine created to its specification needs nothing more: when the provider keeps
    the tags it was given, in any order, and the other attributes are as specified,
    the next plan is NOOP, whatever else the inventory holds that this machine does
    not own. *)
Theorem vultr_created_is_noop d m tags listed decoded before r after orphans :
  provider_tags_for_machine d m = Ok tags → listed ≡ₚ tags →
  decode_provider_tags listed = Ok decoded → as_created m decoded r →
  Forall (λ x, ownership_matches d m x = false) (before ++ after) →
  ∃ digest,
    plan_machine d m {| inv_resources := before ++ r :: after; inv_orphaned := orphans |}
    = Ok {| mp_machine_id := ms_id m; mp_class := PlanNoop;
            mp_provider_id := Some (om_provider_id r); mp_desired_spec_digest := digest;
            mp_reasons := [] |}.
Proof.
  intros Ht Hp Hd (Ho & Htags & Hsd & Hl & Hf & Hid & Hfw) Hothers.
  destruct (decode_machine_tags d m tags listed Ht Hp) as (digest & Hdig & Hdec).
  rewrite Hdec in Hd. injection Hd as <-. simpl in *. exists digest.
  unfold plan_machine. rewrite Hdig. cbn [mbind result_bind inv_resources].
  assert (Hown : ownership_matches d m r = true).
  { unfold ownership_matches. rewrite Ho. simpl. by rewrite !bool_decide_true by done. }
  assert (Hnone : ∀ l, Forall (λ x, ownership_matches d m x = false) l →
    List.filter (ownership_matches d m) l = []).
  { induction 1 as [|x l Hx _ IH]; simpl; [done|]. by rewrite Hx. }
  apply Forall_app in Hothers as [Hb Ha].
  rewrite List.filter_app. cbn [List.filter]. rewrite Hown, !Hnone by done. simpl.
  rewrite plan_owned_noop; [done|done|done|].
  split_and!; [done| |done|done]. rewrite Htags. apply sort_by_perm.
Qed.

(** ** Destruction *)

Lemma keys_unique_obj fields :
  NoDup (map fst fields) → Forall (λ e, keys_unique e.2) fields → keys_unique (obj fields).
Proof.
  intros Hn Hf. apply keys_unique_object. by rewrite obj_entries_perm by done.
Qed.
Lemma keys_unique_opt o : keys_unique (opt_string o).
Proof. by destruct o. Qed.
Lemma keys_unique_strings l : keys_unique (strings_value l).
Proof. apply keys_unique_array. induction l; by constructor. Qed.

Lemma keys_unique_number o : keys_unique (opt_number o).
Proof. by destruct o. Qed.

(** The fields of an object have distinct names and values in order. *)
Ltac unique_keys :=
  apply keys_unique_obj;
  [ cbn [map fst]; apply (bool_decide_unpack (NoDup _)); vm_compute; exact I
  | repeat (apply Forall_cons_2; [cbn [snd]|]); [..|apply Forall_nil_2];
    first [exact I | apply keys_unique_opt | apply keys_unique_strings
          | apply keys_unique_number | idtac ] ].

Lemma destroy_provider_unique r : keys_unique (obj (destroy_provider_fields r)).
Proof. unfold destroy_provider_fields. unique_keys. unfold ownership_value. unique_keys. Qed.
Lemma destroy_material_unique d m r rev : keys_unique (destroy_material d m r rev).
Proof. unfold destroy_material. unique_keys. apply destroy_provider_unique. Qed.

Lemma canonicalize_opt o : canonicalize (opt_string o) = opt_string o.
Proof. by destruct o. Qed.
Lemma canonicalize_number o : canonicalize (opt_number o) = opt_number o.
Proof. by destruct o. Qed.
Lemma canonicalize_strings l : canonicalize (strings_value l) = strings_value l.
Proof. unfold strings_value. cbn [canonicalize]. f_equal. by rewrite map_map. Qed.
Lemma strings_value_inj l l' : strings_value l = strings_value l' → l = l'.
Proof.
  intros [= E]. revert l' E. induction l as [|x l IH]; intros [|y l'] E; try done.
  injection E as -> E. f_equal. by apply IH.
Qed.

(** Everything an operator sees of the machine to be destroyed *)
Definition same_resource (r r' : ObservedMachine) : Prop :=
  om_provider_id r = om_provider_id r' ∧ om_label r = om_label r' ∧
  om_region r = om_region r' ∧ om_plan r = om_plan r' ∧
  om_snapshot_id r = om_snapshot_id r' ∧ om_main_ip r = om_main_ip r' ∧
  om_v6_main_ip r = om_v6_main_ip r' ∧ om_firewall_group_id r = om_firewall_group_id r' ∧
  om_date_created r = om_date_created r' ∧ om_enable_ipv6 r = om_enable_ipv6 r' ∧
  om_firewall_profile r = om_firewall_profile r' ∧ om_tags r ≡ₚ om_tags r' ∧
  om_spec_digest r = om_spec_digest r'.

Lemma destroy_fields_inj r r' :
  canonicalize (obj (destroy_provider_fields r)) = canonicalize (obj (destroy_provider_fields r')) →
  same_resource r r'.
Proof.
  intros E. apply canonicalize_obj_inj in E; [|done|apply (bool_decide_unpack (NoDup _)); vm_compute; exact I].
  unfold destroy_provider_fields, on_value in E. cbn [map fst snd] in E.
  rewrite !canonicalize_opt, !canonicalize_strings, !canonicalize_number in E.
  cbn [canonicalize] in E.
  injection E. intros. unfold same_resource.
  repeat match goal with Ho : opt_string _ = opt_string _ |- _ => apply opt_string_inj in Ho end.
  split_and!; try done. apply sort_strings_eq_perm, strings_value_inj.
  unfold strings_value. by f_equal.
Qed.

Lemma destroy_material_inj d m r rev d' m' r' rev' :
  canonicalize (destroy_material d m r rev) = canonicalize (destroy_material d' m' r' rev') →
  ds_environment d = ds_environment d' ∧ ms_id m = ms_id m' ∧ rev = rev' ∧ same_resource r r'.
Proof.
  unfold destroy_material. intros E.
  apply canonicalize_obj_inj in E; [|done|apply (bool_decide_unpack (NoDup _)); vm_compute; exact I].
  unfold on_value in E. cbn [map fst snd] in E. revert E.
  pose proof (destroy_fields_inj r r') as Hin. revert Hin.
  generalize (obj (destroy_provider_fields r)) (obj (destroy_provider_fields r')).
  intros v v' Hin E. injection E as E1 E2 E3 E4. apply Hin in E4. by split_and!.
Qed.

Definition destroy_text (d : DesiredState) (m : MachineSpec) (r : ObservedMachine)
    (rev : string) : bytes := as_bytes (canonical_json_value (destroy_material d m r rev)).

Context `{!JsonTokenLaws}.

(** A destruction is bound to what the operator reviewed: if the digest of one destroy
    plan authorizes a destruction, the environment, the machine, the source revision
    and every reviewed attribute of the resource are the same, the resource is the
    only one with that ownership in the current inventory, and its provider identifier
    is the one returned; otherwise the two texts are a SHA-256 collision. *)
Theorem vultr_destroy_binds d m inv rev p d' m' inv' rev' id :
  destroy_plan d m inv rev = Ok p →
  authorize_destroy d' m' inv' rev' (dp_destroy_digest p) = Ok id →
  ∃ r r', List.filter (ownership_matches d m) (inv_resources inv) = [r] ∧
    List.filter (ownership_matches d' m') (inv_resources inv') = [r'] ∧
    id = om_provider_id r' ∧
    ((ds_environment d = ds_environment d' ∧ ms_id m = ms_id m' ∧ rev = rev' ∧
      same_resource r r') ∨
     sha256_collision (destroy_text d m r rev) (destroy_text d' m' r' rev')).
Proof.
  unfold authorize_destroy. intros Hp Ha. inv_ok Ha. reflect_in Hm0. unfold destroy_plan in Hp, Hm.
  inv_ok Hp. inv_ok Hm.
  destruct (List.filter (ownership_matches d m) _) as [|r [|]]; [done| |done].
  destruct (List.filter (ownership_matches d' m') _) as [|r' [|]]; [done| |done].
  inv_ok Hp. inv_ok Hm. exists r, r'. split_and!; [done..|]. simpl in Hm0.
  unfold destroy_digest, text_digest, sha256_hex in Hm0.
  apply hex_of_bytes_inj in Hm0. symmetry in Hm0. apply sha256_eq in Hm0 as [E|Hc]; [|by right].
  left. apply as_bytes_inj in E. rewrite <- !plain_canonicalize in E by apply destroy_material_unique.
  apply plain_json_inj in E. by apply destroy_material_inj in E.
Qed.
End VultrFacts.

(** ** Samples *)
Module VultrSample.
Definition provider : ProviderSpec := {|
  ps_region := "waw"; ps_plan := "vc2-1c-1gb"; ps_os_id := Some 2284; ps_snapshot_id := None;
  ps_enable_ipv6 := true; ps_firewall_profile := Some "edge" |}.
Definition machine : MachineSpec := {|
  ms_id := "edge-1"; ms_role := "edge"; ms_provider := provider;
  ms_bootstrap_profile := "base"; ms_application_profiles := ["line1"];
  ms_tags := ["team-b"; "team-a"] |}.
Definition desired : DesiredState := {|
  ds_schema := 1; ds_environment := "production"; ds_machines := [machine] |}.
Definition tags : list string :=
  match provider_tags_for_machine desired machine with Ok l => l | Err _ => [] end.
Definition listed : list string := rev tags.
Definition decoded : DecodedProviderTags :=
  match decode_provider_tags listed with
  | Ok t => t
  | Err _ => {| dt_ownership := {| own_managed_by := None; own_environment := None;
                                   own_logical_id := None |};
                dt_spec_digest := None; dt_user_tags := [] |}
  end.
Definition created : ObservedMachine := {|
  om_provider_id := "vm-1"; om_label := "edge-1"; om_ownership := dt_ownership decoded;
  om_region := "waw"; om_plan := "vc2-1c-1gb"; om_provider_status := Some "active";
  om_server_status := None; om_power_status := None; om_main_ip := Some "203.0.113.7";
  om_v6_main_ip := None; om_firewall_group_id := Some "fw-1"; om_date_created := None;
  om_os_id := Some 2284; om_snapshot_id := None; om_enable_ipv6 := true;
  om_firewall_profile := Some "edge"; om_tags := dt_user_tags decoded;
  om_spec_digest := dt_spec_digest decoded |}.
Definition inventory : LifecycleInventory :=
  {| inv_resources := [created]; inv_orphaned := [] |}.

Lemma tags_ok : provider_tags_for_machine desired machine = Ok tags.
Proof.
  unfold tags. destruct (provider_tags_for_machine _ _) eqn:E; [done|].
  apply (f_equal is_ok) in E. vm_compute in E. discriminate E.
Qed.
Lemma decoded_ok : decode_provider_tags listed = Ok decoded.
Proof.
  unfold decoded. destruct (decode_provider_tags listed) eqn:E; [done|].
  apply (f_equal is_ok) in E. vm_compute in E. discriminate E.
Qed.

(** Witness of [vultr_tags_roundtrip]: the provider lists the tags backwards. *)
Lemma vultr_tags_roundtrip_witness :
  ∃ digest, machine_digest desired machine = Ok digest ∧
    decode_provider_tags listed = Ok {|
      dt_ownership := {| own_managed_by := Some MANAGED_BY_IDENTITY;
                         own_environment := Some "production";
                         own_logical_id := Some "edge-1" |};
      dt_spec_digest := Some digest; dt_user_tags := sort_strings (ms_tags machine) |}.
Proof.
  apply (vultr_tags_roundtrip desired machine tags listed).
  - exact tags_ok.
  - unfold listed. symmetry. apply Permutation_rev.
Defined.

(** Witness of [vultr_created_is_noop]. *)
Lemma vultr_created_is_noop_witness :
  ∃ digest, plan_machine desired machine inventory
    = Ok {| mp_machine_id := "edge-1"; mp_class := PlanNoop; mp_provider_id := Some "vm-1";
            mp_desired_spec_digest := digest; mp_reasons := [] |}.
Proof.
  apply (vultr_created_is_noop desired machine tags listed decoded [] created [] []).
  - exact tags_ok.
  - unfold listed. symmetry. apply Permutation_rev.
  - exact decoded_ok.
  - unfold as_created, fixed_as_specified. split_and!; reflexivity.
  - constructor.
Defined.

Definition noop_plan : MachinePlan :=
  match plan_machine desired machine inventory with
  | Ok p => p
  | Err _ => {| mp_machine_id := ""; mp_class := BlockedDrift; mp_provider_id := None;
                mp_desired_spec_digest := ""; mp_reasons := [] |}
  end.
(** Witness of [vultr_plan_justified]. *)
Lemma vultr_plan_justified_witness :
  match mp_class noop_plan with
  | PlanCreate => unclaimed machine inventory ∧ mp_provider_id noop_plan = None
  | BlockedAmbiguous | BlockedDrift => True
  | class => ∃ r digest,
      List.filter (ownership_matches desired machine) (inv_resources inventory) = [r] ∧
      machine_digest desired machine = Ok digest ∧
      mp_provider_id noop_plan = Some (om_provider_id r) ∧
      (class = ReplaceRequired ↔ ¬ fixed_as_specified (ms_provider machine) r) ∧
      (class = PlanNoop ↔ fixed_as_specified (ms_provider machine) r ∧
                          mutable_as_specified machine digest r)
  end.
Proof.
  apply (vultr_plan_justified desired machine inventory noop_plan). vm_compute. reflexivity.
Defined.
Example noop_class : mp_class noop_plan = PlanNoop.
Proof. vm_compute. reflexivity. Qed.

Definition revision : string := "0123456789abcdef0123456789abcdef01234567".
Definition reviewed : DestroyPlan :=
  match destroy_plan desired machine inventory revision with
  | Ok p => p
  | Err _ => {|
      dp_machine_id := ""; dp_provider_id := ""; dp_label := ""; dp_source_revision := "";
      dp_region := ""; dp_plan := ""; dp_os_id := None; dp_snapshot_id := None;
      dp_main_ip := None; dp_v6_main_ip := None; dp_firewall_group_id := None;
      dp_date_created := None; dp_observed_spec_digest := None; dp_destroy_digest := "" |}
  end.
Lemma reviewed_ok : destroy_plan desired machine inventory revision = Ok reviewed.
Proof.
  unfold reviewed. destruct (destroy_plan _ _ _ _) eqn:E; [done|].
  apply (f_equal is_ok) in E. vm_compute in E. discriminate E.
Qed.

(** Witness of [vultr_destroy_binds]: the inventory did not change since the review. *)
Lemma vultr_destroy_binds_witness :
  ∃ r r', List.filter (ownership_matches desired machine) (inv_resources inventory) = [r] ∧
    List.filter (ownership_matches desired machine) (inv_resources inventory) = [r'] ∧
    "vm-1" = om_provider_id r' ∧
    (("production" = "production" ∧ "edge-1" = "edge-1" ∧ revision = revision ∧
      same_resource r r') ∨
     sha256_collision (destroy_text desired machine r revision)
       (destroy_text desired machine r' revision)).
Proof.
  apply (vultr_destroy_binds desired machine inventory revision reviewed
    desired machine inventory revision "vm-1").
  - exact reviewed_ok.
  - vm_compute. reflexivity.
Defined.
End VultrSample.
