(* ===== verification/VultrService.v ===== *)
(** * The Vultr machine service

    Models [edge-orchestrator/src/vultr_lifecycle_adapter.rs] (the inventory of the
    lifecycle from the provider's instances) and [vultr_lifecycle_service.rs]: one
    authorized creation or destruction of a machine over the [LifecycleProvider]
    trait, followed by bounded re-observation; with the error classification of
    [edge-provider-vultr/src/lib.rs]. *)

From S2P Require Import Prelude RustStd HostTypes Concrete Json PlanAuthority.
From S2P Require Import LifecycleCommon Service VultrLifecycle VultrLifecycleFacts.

(** ** The provider client *)

Inductive VultrErrorKind : Set :=
| Configuration | ObservationTransport | MutationUncertain | Http | Decode.
#[global] Instance VultrErrorKind_eq_dec : EqDecision VultrErrorKind.
Proof. solve_decision. Defined.
Record VultrError : Type := {
  ve_operation : string; ve_kind : VultrErrorKind; ve_status : option Z;
  ve_retry_after_secs : option Z; ve_detail : string }.

(** [StatusCode::from_u16(status).ok()] of a code that asks to try later *)
Definition busy_status (status : Z) : bool :=
  (100 <=? status) && (status <=? 999) && ((status =? 429) || (500 <=? status) && (status <=? 599)).
Definition is_not_found (e : VultrError) : bool := bool_decide (ve_status e = Some 404).
Definition is_mutation_uncertain (e : VultrError) : bool :=
  bool_decide (ve_kind e = MutationUncertain).
Definition requires_mutation_reobservation (e : VultrError) : bool :=
  if decide (ve_kind e = MutationUncertain) then true
  else bool_decide (ve_kind e = Http)
       && match ve_status e with Some s => busy_status s | None => false end.
Definition is_observation_retryable (e : VultrError) : bool :=
  match ve_kind e with
  | ObservationTransport => true
  | Http => match ve_status e with Some s => busy_status s | None => false end
  | Configuration | MutationUncertain | Decode => false
  end.
(** [impl Display for VultrError] *)
Definition vultr_error_text (e : VultrError) : string :=
  match ve_status e with
  | Some status =>
      ve_operation e +:+ " failed with HTTP " +:+ dec status +:+ ": " +:+ ve_detail e
  | None => ve_operation e +:+ " failed: " +:+ ve_detail e
  end.

Record VultrInstance : Type := {
  vi_id : string; vi_label : string; vi_region : string; vi_plan : string;
  vi_status : string; vi_server_status : string; vi_power_status : string;
  vi_main_ip : string; vi_v6_main_ip : string; vi_firewall_group_id : string;
  vi_date_created : string; vi_tags : list string; vi_os_id : Z;
  vi_snapshot_id : option string; vi_enable_ipv6 : bool }.

(** ** The adapter *)

(** [impl Display for ProviderIdentityError] *)
Definition identity_error_text (e : ProviderIdentityError) : string :=
  match e with
  | DuplicateLifecycleTag kind =>
      "provider instance has multiple " +:+ kind +:+ " lifecycle tags"
  | InvalidLifecycleTag tag => "invalid lifecycle tag " +:+ tag
  | IncompleteManagedIdentity => "provider instance has incomplete managed lifecycle identity"
  end.

Definition nonempty (value : string) : option string :=
  let trimmed := trim value in if str_empty trimmed then None else Some trimmed.

Definition normalize_vultr_instance_with_firewall_profiles (instance : VultrInstance)
    (profiles : gmap string string) : res ObservedMachine :=
  decoded ← map_err (λ e, "invalid lifecycle identity on Vultr instance " +:+ vi_id instance
      +:+ ": " +:+ identity_error_text e) (decode_provider_tags (vi_tags instance));
  let group := nonempty (vi_firewall_group_id instance) in
  Ok {| om_provider_id := vi_id instance; om_label := vi_label instance;
        om_ownership := dt_ownership decoded; om_region := vi_region instance;
        om_plan := vi_plan instance; om_provider_status := nonempty (vi_status instance);
        om_server_status := nonempty (vi_server_status instance);
        om_power_status := nonempty (vi_power_status instance);
        om_main_ip := nonempty (vi_main_ip instance);
        om_v6_main_ip := nonempty (vi_v6_main_ip instance); om_firewall_group_id := group;
        om_date_created := nonempty (vi_date_created instance);
        om_os_id := if vi_os_id instance =? 0 then None else Some (vi_os_id instance);
        om_snapshot_id := vi_snapshot_id instance;
        om_enable_ipv6 := vi_enable_ipv6 instance;
        om_firewall_profile := group ≫= λ id, profiles !! id;
        om_tags := dt_user_tags decoded; om_spec_digest := dt_spec_digest decoded |}.

Definition normalize_vultr_inventory_with_firewall_profiles (d : DesiredState)
    (instances : list VultrInstance) (profiles : gmap string string) : res LifecycleInventory :=
  resources ← try_map
    (λ i, normalize_vultr_instance_with_firewall_profiles i profiles) instances;
  Ok (build_inventory d resources).
Definition normalize_vultr_inventory (d : DesiredState) (instances : list VultrInstance)
    : res LifecycleInventory :=
  normalize_vultr_inventory_with_firewall_profiles d instances ∅.

(** ** JSON forms *)

Definition class_name (c : PlanClass) : string :=
  match c with
  | PlanNoop => "NOOP" | PlanCreate => "CREATE" | UpdateInPlace => "UPDATE_IN_PLACE"
  | ReplaceRequired => "REPLACE_REQUIRED" | BlockedDrift => "BLOCKED_DRIFT"
  | BlockedAmbiguous => "BLOCKED_AMBIGUOUS"
  end.
(** [{:?}] *)
Definition class_debug (c : PlanClass) : string :=
  match c with
  | PlanNoop => "Noop" | PlanCreate => "Create" | UpdateInPlace => "UpdateInPlace"
  | ReplaceRequired => "ReplaceRequired" | BlockedDrift => "BlockedDrift"
  | BlockedAmbiguous => "BlockedAmbiguous"
  end.
Definition observed_machine_value (r : ObservedMachine) : Value := obj (
  [("provider_id", VString (om_provider_id r)); ("label", VString (om_label r));
   ("ownership", ownership_value (om_ownership r)); ("region", VString (om_region r));
   ("plan", VString (om_plan r))]
  ++ when "provider_status" VString (om_provider_status r)
  ++ when "server_status" VString (om_server_status r)
  ++ when "power_status" VString (om_power_status r)
  ++ when "main_ip" VString (om_main_ip r)
  ++ when "v6_main_ip" VString (om_v6_main_ip r)
  ++ when "firewall_group_id" VString (om_firewall_group_id r)
  ++ when "date_created" VString (om_date_created r)
  ++ when "os_id" number (om_os_id r) ++ when "snapshot_id" VString (om_snapshot_id r)
  ++ [("enable_ipv6", VBool (om_enable_ipv6 r))]
  ++ when "firewall_profile" VString (om_firewall_profile r)
  ++ [("tags", strings_value (om_tags r))]
  ++ when "spec_digest" VString (om_spec_digest r)).
#[global] Instance inventory_serialize : Serialize LifecycleInventory := λ i,
  Ok (obj [("resources", VArray (map observed_machine_value (inv_resources i)));
           ("orphaned_managed_provider_ids", strings_value (inv_orphaned i))]).
#[global] Instance vultr_desired_serialize : Serialize DesiredState := λ d, Ok (desired_value d).
#[global] Instance machine_plan_serialize : Serialize MachinePlan := λ p, Ok (obj (
  [("machine_id", VString (mp_machine_id p)); ("class", VString (class_name (mp_class p)))]
  ++ when "provider_id" VString (mp_provider_id p)
  ++ [("desired_spec_digest", VString (mp_desired_spec_digest p));
      ("reasons", strings_value (mp_reasons p))])).
#[global] Instance destroy_plan_serialize : Serialize DestroyPlan := λ p, Ok (obj
  [("machine_id", VString (dp_machine_id p)); ("provider_id", VString (dp_provider_id p));
   ("label", VString (dp_label p)); ("source_revision", VString (dp_source_revision p));
   ("region", VString (dp_region p)); ("plan", VString (dp_plan p));
   ("os_id", opt_number (dp_os_id p)); ("snapshot_id", opt_string (dp_snapshot_id p));
   ("main_ip", opt_string (dp_main_ip p)); ("v6_main_ip", opt_string (dp_v6_main_ip p));
   ("firewall_group_id", opt_string (dp_firewall_group_id p));
   ("date_created", opt_string (dp_date_created p));
   ("observed_spec_digest", opt_string (dp_observed_spec_digest p));
   ("destroy_digest", VString (dp_destroy_digest p))]).

(** ** The service *)

Record LifecycleExecutionPolicy : Type := {
  create_reobserve_attempts : nat; destroy_reobserve_attempts : nat; reobserve_delay : Z }.
(** [LifecycleExecutionPolicy::default], the delay in seconds *)
Definition default_policy : LifecycleExecutionPolicy := {|
  create_reobserve_attempts := 30; destroy_reobserve_attempts := 180; reobserve_delay := 2 |}.

Record CreatePrerequisites : Type := {
  cp_bootstrap_profile : string; cp_ssh_key_id : string; cp_cloud_init : string;
  cp_firewall_group_id : option string; cp_firewall_profile : option string }.
Record OwnedCreateRequest : Type := {
  req_region : string; req_plan : string; req_os_id : option Z; req_snapshot_id : option string;
  req_label : string; req_ssh_key_id : string; req_cloud_init : string;
  req_firewall_group_id : option string; req_tags : list string; req_enable_ipv6 : bool }.

(** The methods of the trait [LifecycleProvider], and [tokio::time::sleep] *)
Inductive vultr_call : Type → Type :=
| ListInstances : vultr_call (result VultrError (list VultrInstance))
| CreateInstance (request : OwnedCreateRequest) : vultr_call (result VultrError VultrInstance)
| GetInstance (instance_id : string) : vultr_call (result VultrError VultrInstance)
| DestroyInstance (instance_id : string) : vultr_call (result VultrError unit)
| Pause (delay : Z) : vultr_call unit.
Abbreviation vultr := (fservice vultr_call string).

(** [VultrApiProvider::new] *)
Definition new_provider (api_key : string) : res string :=
  fail_if (str_empty (trim api_key)) "VULTR_API_KEY must be non-empty" ;; Ok api_key.

Inductive ApplyAction : Set := AppliedNoop | Created.
Definition apply_action_str (a : ApplyAction) : string :=
  match a with AppliedNoop => "NOOP" | Created => "CREATED" end.
Record ApplyReport : Type := {
  ar_action : ApplyAction; ar_machine_id : string; ar_provider_id : string;
  ar_final_plan : MachinePlan }.
Record DestroyApplyReport : Type := {
  dr_machine_id : string; dr_provider_id : string; dr_delete_requested : bool;
  dr_absence_verified : bool }.
Record LifecyclePlanReport : Type := {
  lr_environment : string; lr_desired_state_digest : string; lr_plans : list MachinePlan;
  lr_inventory : LifecycleInventory; lr_orphaned : list string }.

(** [.map_err(|err| err.to_string())?] *)
Definition spec_step {A} (r : vres A) : vultr A := pure_step (map_err spec_error_text r).
Definition authority_res {A} (r : result PlanAuthorityError A) : res A :=
  map_err authority_error_text r.

Definition validate_policy (policy : LifecycleExecutionPolicy) : res unit :=
  fail_if (create_reobserve_attempts policy =? 0)%nat
    "create re-observation attempts must be greater than zero" ;;
  fail_if (destroy_reobserve_attempts policy =? 0)%nat
    "destroy re-observation attempts must be greater than zero".
Definition machine_by_id (d : DesiredState) (machine_id : string) : res MachineSpec :=
  map_err spec_error_text (validate d) ;;
  ok_or (List.find (has_id machine_id) (ds_machines d))
    ("machine " +:+ machine_id +:+ " is not present in desired state").

Definition inventory_of (d : DesiredState) (profiles : gmap string string)
    (answer : result VultrError (list VultrInstance)) : res LifecycleInventory :=
  instances ← map_err vultr_error_text answer;
  if decide (profiles = ∅) then normalize_vultr_inventory d instances
  else normalize_vultr_inventory_with_firewall_profiles d instances profiles.
Definition observe_inventory (d : DesiredState) (profiles : gmap string string)
    : vultr LifecycleInventory :=
  Invoke ListInstances (λ answer, Return (inventory_of d profiles answer)).

(** The profiles with which a machine can be created, and what they require *)
Definition native_cloud_init (p : CreatePrerequisites) : bool :=
  str_empty (cp_ssh_key_id p)
  && starts_with ("#cloud-config" +:+ String "010" "") (cp_cloud_init p)
  && str_contains "singbox-native-first-use.sh" (cp_cloud_init p)
  && str_contains "ssh_pwauth: false" (cp_cloud_init p)
  && str_contains "disable_root: true" (cp_cloud_init p)
  && negb (str_contains "ssh_authorized_keys:" (cp_cloud_init p)).
Definition check_bootstrap (m : MachineSpec) (p : CreatePrerequisites) : res unit :=
  let profile := ms_bootstrap_profile m in
  if str_eqb profile "singbox-host-v1" || str_eqb profile "singbox-host-v2" then
    fail_if (str_empty (trim (cp_ssh_key_id p)))
      "CREATE requires a resolved Vultr SSH key object id"
  else if str_eqb profile "singbox-native-first-use-v1" then
    fail_if (negb (native_cloud_init p))
      "HOST_NATIVE_CREATE_MUST_HAVE_NO_SSH_AND_PINNED_CLOUD_INIT"
  else Err "HOST_CREATE_BOOTSTRAP_PROFILE_NOT_SUPPORTED".
Definition blank_group (o : option string) : bool :=
  match o with Some v => str_empty (trim v) | None => true end.
Definition validate_create_prerequisites (m : MachineSpec) (p : CreatePrerequisites) : res unit :=
  fail_if (negb (str_eqb (cp_bootstrap_profile p) (ms_bootstrap_profile m)))
    ("bootstrap prerequisite profile " +:+ cp_bootstrap_profile p
     +:+ " does not match desired profile " +:+ ms_bootstrap_profile m) ;;
  check_bootstrap m p ;;
  fail_if (str_empty (trim (cp_cloud_init p)))
    "CREATE requires non-empty bootstrap user-data" ;;
  match ps_firewall_profile (ms_provider m) with
  | Some expected =>
      fail_if (negb (bool_decide (cp_firewall_profile p = Some expected))
               || blank_group (cp_firewall_group_id p))
        ("CREATE for machine " +:+ ms_id m
         +:+ " requires a provider-verified firewall binding for profile " +:+ expected)
  | None =>
      fail_if (is_some (cp_firewall_profile p) || is_some (cp_firewall_group_id p))
        ("machine " +:+ ms_id m
         +:+ " does not declare a firewall profile but CREATE prerequisites contain a "
         +:+ "firewall binding")
  end.

(** The loop of [wait_for_absence]; [n] attempts are left. *)
Fixpoint wait_absent (provider_id : string) (delay : Z) (n : nat) : vultr bool :=
  match n with
  | O => mret false
  | S n =>
      Invoke (GetInstance provider_id) (λ answer,
        match answer with
        | Err e => if is_not_found e then Return (Ok true) else Return (Err (vultr_error_text e))
        | Ok _ =>
            (if (0 <? n)%nat then invoke (Pause delay) else mret tt) ;;
            wait_absent provider_id delay n
        end)
  end.
Definition wait_for_absence (provider_id : string) (policy : LifecycleExecutionPolicy)
    : vultr bool :=
  wait_absent provider_id (reobserve_delay policy) (destroy_reobserve_attempts policy).

Section Authorized.
Context `{Sha256} `{SerdeJson}.

(** [managed_provider_tags] *)
Definition managed_provider_tags (d : DesiredState) (m : MachineSpec) : res (list string) :=
  map_err spec_error_text (provider_tags_for_machine d m).

Definition plan_desired_state_with_firewall_profiles (d : DesiredState)
    (machine_id : option string) (profiles : gmap string string) : vultr LifecyclePlanReport :=
  inventory ← observe_inventory d profiles;
  plans ← pure_step (match machine_id with
    | Some id => m ← machine_by_id d id; p ← map_err spec_error_text (plan_machine d m inventory);
                 Ok [p]
    | None => map_err spec_error_text (plan_all d inventory)
    end);
  digest ← spec_step (desired_digest d);
  mret {| lr_environment := ds_environment d; lr_desired_state_digest := digest;
          lr_plans := plans; lr_inventory := inventory; lr_orphaned := inv_orphaned inventory |}.

Definition class_disposition (c : PlanClass) : PlanDisposition :=
  match c with
  | PlanNoop => Noop
  | PlanCreate | UpdateInPlace => Mutate
  | ReplaceRequired | BlockedDrift | BlockedAmbiguous => Blocked
  end.
Definition authorize_vultr_machine (d : DesiredState) (inventory : LifecycleInventory)
    (plan : MachinePlan) : result PlanAuthorityError (AuthorizedPlan MachinePlan) :=
  authorize_plan "vultr_machine" d inventory plan (class_disposition (mp_class plan)).

Definition create_request (d : DesiredState) (m : MachineSpec) (p : CreatePrerequisites)
    : res OwnedCreateRequest :=
  tags ← managed_provider_tags d m;
  Ok {| req_region := ps_region (ms_provider m); req_plan := ps_plan (ms_provider m);
        req_os_id := ps_os_id (ms_provider m); req_snapshot_id := ps_snapshot_id (ms_provider m);
        req_label := ms_id m; req_ssh_key_id := cp_ssh_key_id p;
        req_cloud_init := cp_cloud_init p; req_firewall_group_id := cp_firewall_group_id p;
        req_tags := tags; req_enable_ipv6 := ps_enable_ipv6 (ms_provider m) |}.

(** The loop of [reobserve_created_machine] *)
Fixpoint reobserve_created (d : DesiredState) (m : MachineSpec) (profiles : gmap string string)
    (attempts : nat) (delay : Z) (n : nat) : vultr MachinePlan :=
  match n with
  | O => pure_step (Err ("machine " +:+ ms_id m +:+ " remained absent after "
           +:+ dec (Z.of_nat attempts) +:+ " re-observations"))
  | S n =>
      inventory ← observe_inventory d profiles;
      plan ← spec_step (plan_machine d m inventory);
      match mp_class plan with
      | PlanCreate =>
          (if (0 <? n)%nat then invoke (Pause delay) else mret tt) ;;
          reobserve_created d m profiles attempts delay n
      | _ => mret plan
      end
  end.

Definition reasons_text (p : MachinePlan) : string := join "; " (mp_reasons p).

(** [map_err] of the re-observation, then the checks of the converged plan *)
Definition created_report (m : MachineSpec) (mutation : result VultrError VultrInstance)
    (reobserved : res MachinePlan) : res ApplyReport :=
  final_plan ← map_err (λ detail, match mutation with
      | Ok _ => "CREATE was accepted but machine " +:+ ms_id m +:+ " did not converge: " +:+ detail
      | Err e => vultr_error_text e
          +:+ "; CREATE was not replayed and re-observation did not prove convergence: "
          +:+ detail
      end) reobserved;
  fail_if (negb (bool_decide (mp_class final_plan = PlanNoop)))
    ("machine " +:+ ms_id m +:+ " was created/recovered but did not converge to NOOP: "
     +:+ class_debug (mp_class final_plan) +:+ ": " +:+ reasons_text final_plan) ;;
  provider_id ← ok_or (mp_provider_id final_plan) "converged CREATE plan is missing provider id";
  Ok {| ar_action := Created; ar_machine_id := ms_id m; ar_provider_id := provider_id;
        ar_final_plan := final_plan |}.

Definition execute_create (d : DesiredState) (m : MachineSpec) (p : CreatePrerequisites)
    (policy : LifecycleExecutionPolicy) (profiles : gmap string string) : vultr ApplyReport :=
  pure_step (validate_create_prerequisites m p) ;;
  request ← pure_step (create_request d m p);
  mutation ← invoke (CreateInstance request);
  pure_step (match mutation with
    | Ok _ => Ok tt
    | Err e => if requires_mutation_reobservation e then Ok tt else Err (vultr_error_text e)
    end) ;;
  service_bind (reobserve_created d m profiles (create_reobserve_attempts policy)
      (reobserve_delay policy) (create_reobserve_attempts policy))
    (λ reobserved, Return (created_report m mutation reobserved)).

Definition execute_plan (d : DesiredState) (m : MachineSpec) (p : CreatePrerequisites)
    (policy : LifecycleExecutionPolicy) (profiles : gmap string string) (plan : MachinePlan)
    : vultr ApplyReport :=
  match mp_class plan with
  | PlanNoop => pure_step (
      provider_id ← ok_or (mp_provider_id plan) "NOOP plan is missing provider id";
      Ok {| ar_action := AppliedNoop; ar_machine_id := ms_id m; ar_provider_id := provider_id;
            ar_final_plan := plan |})
  | PlanCreate => execute_create d m p policy profiles
  | UpdateInPlace => pure_step (Err ("machine " +:+ ms_id m
      +:+ " requires UPDATE_IN_PLACE; this slice does not mutate existing instances: "
      +:+ reasons_text plan))
  | ReplaceRequired => pure_step (Err ("machine " +:+ ms_id m
      +:+ " requires replacement; replacement is never implicit: " +:+ reasons_text plan))
  | BlockedDrift | BlockedAmbiguous => pure_step (Err ("machine " +:+ ms_id m
      +:+ " is blocked with " +:+ class_debug (mp_class plan) +:+ ": " +:+ reasons_text plan))
  end.

Definition apply_machine_with_firewall_profiles (d : DesiredState)
    (machine_id authorized_plan_digest : string) (p : CreatePrerequisites)
    (policy : LifecycleExecutionPolicy) (profiles : gmap string string) : vultr ApplyReport :=
  pure_step (validate_policy policy) ;;
  m ← pure_step (machine_by_id d machine_id);
  inventory ← observe_inventory d profiles;
  initial_plan ← spec_step (plan_machine d m inventory);
  authorized ← pure_step (authority_res (authorize_vultr_machine d inventory initial_plan));
  pure_step (authority_res
    (verify_exact_authority authorized_plan_digest (authority authorized))) ;;
  execute_plan d m p policy profiles initial_plan.

Definition build_destroy_plan_with_firewall_profiles (d : DesiredState)
    (machine_id source_revision : string) (profiles : gmap string string) : vultr DestroyPlan :=
  m ← pure_step (machine_by_id d machine_id);
  inventory ← observe_inventory d profiles;
  pure_step (map_err destroy_error_text (destroy_plan d m inventory source_revision)).

(** [json!({"desired": ..., "machine_id": ..., "source_revision": ...})] *)
Definition destroy_desired_material (d : DesiredState) (machine_id source_revision : string)
    : Value := obj
  [("desired", desired_value d); ("machine_id", VString machine_id);
   ("source_revision", VString source_revision)].
Definition authorize_vultr_destroy (d : DesiredState) (machine_id source_revision : string)
    (inventory : LifecycleInventory) (plan : DestroyPlan)
    : result PlanAuthorityError (AuthorizedPlan DestroyPlan) :=
  authorize_plan "vultr_destroy" (destroy_desired_material d machine_id source_revision)
    inventory plan Mutate.

Definition absent_report (m : MachineSpec) (provider_id : string) : DestroyApplyReport := {|
  dr_machine_id := ms_id m; dr_provider_id := provider_id; dr_delete_requested := true;
  dr_absence_verified := true |}.
Definition remained_error (provider_id : string) (mutation : result VultrError unit) : string :=
  match mutation with
  | Ok _ => "DELETE for " +:+ provider_id +:+ " was accepted but exact provider id remained "
      +:+ "present after bounded re-observation; DELETE was not replayed"
  | Err e => vultr_error_text e +:+ "; exact provider id " +:+ provider_id
      +:+ " remained present after bounded re-observation and DELETE was not replayed"
  end.
Definition execute_destroy (m : MachineSpec) (provider_id : string)
    (policy : LifecycleExecutionPolicy) : vultr DestroyApplyReport :=
  mutation ← invoke (DestroyInstance provider_id);
  let reobserve :=
    absent ← wait_for_absence provider_id policy;
    pure_step (if absent : bool then Ok (absent_report m provider_id)
               else Err (remained_error provider_id mutation)) in
  match mutation with
  | Ok _ => reobserve
  | Err e =>
      if is_not_found e then mret (absent_report m provider_id)
      else if requires_mutation_reobservation e then reobserve
      else pure_step (Err (vultr_error_text e))
  end.

Definition destroy_machine_with_firewall_profiles (d : DesiredState)
    (machine_id source_revision authorized_digest authorized_plan_digest : string)
    (policy : LifecycleExecutionPolicy) (profiles : gmap string string)
    : vultr DestroyApplyReport :=
  pure_step (validate_policy policy) ;;
  m ← pure_step (machine_by_id d machine_id);
  inventory ← observe_inventory d profiles;
  current_plan ← pure_step (map_err destroy_error_text
    (destroy_plan d m inventory source_revision));
  generic ← pure_step (authority_res
    (authorize_vultr_destroy d machine_id source_revision inventory current_plan));
  pure_step (authority_res
    (verify_exact_authority authorized_plan_digest (authority generic))) ;;
  provider_id ← pure_step (map_err destroy_error_text
    (authorize_destroy d m inventory source_revision authorized_digest));
  execute_destroy m provider_id policy.

(** The entry points without firewall profiles *)
Definition plan_desired_state (d : DesiredState) (machine_id : option string) :=
  plan_desired_state_with_firewall_profiles d machine_id ∅.
Definition apply_machine (d : DesiredState) (machine_id authorized_plan_digest : string)
    (p : CreatePrerequisites) (policy : LifecycleExecutionPolicy) :=
  apply_machine_with_firewall_profiles d machine_id authorized_plan_digest p policy ∅.
Definition build_destroy_plan (d : DesiredState) (machine_id source_revision : string) :=
  build_destroy_plan_with_firewall_profiles d machine_id source_revision ∅.
Definition destroy_machine (d : DesiredState)
    (machine_id source_revision authorized_digest authorized_plan_digest : string)
    (policy : LifecycleExecutionPolicy) :=
  destroy_machine_with_firewall_profiles d machine_id source_revision authorized_digest
    authorized_plan_digest policy ∅.
End Authorized.

(** ** What one run may do *)

Definition mutates (e : exchange vultr_call) : bool :=
  match e with
  | Exchange (CreateInstance _) _ | Exchange (DestroyInstance _) _ => true
  | _ => false
  end.
Abbreviation quiet := (Forall (λ e, mutates e = false)).

(** A step of a service that is pure or stops the run *)
Lemma runs_step {A B} (x : res A) (f : A → vultr B) tr r :
  runs (pure_step x ≫= f) tr r →
  (tr = [] ∧ is_err r = true) ∨ ∃ a, x = Ok a ∧ runs (f a) tr r.
Proof. intros [(e & _ & -> & ->)|(a & Ha & Hr)]%runs_pure; [by left|]. eauto. Qed.
Lemma runs_inventory {B} d profiles (f : LifecycleInventory → vultr B) tr r :
  runs (observe_inventory d profiles ≫= f) tr r →
  ∃ answer tr', tr = Exchange ListInstances answer :: tr' ∧
    ((tr' = [] ∧ is_err r = true) ∨
     ∃ inv, inventory_of d profiles answer = Ok inv ∧ runs (f inv) tr' r).
Proof.
  intros (answer & tr' & -> & Hr)%runs_invoke. exists answer, tr'. split; [done|].
  cbn [service_bind] in Hr. destruct (inventory_of d profiles answer) as [inv|e]; [by eauto|].
  left. by apply runs_return in Hr as [-> ->].
Qed.
Lemma vultr_pause_quiet n delay tr r :
  runs (if (0 <? n)%nat then invoke (Pause delay) else mret tt : vultr unit) tr r → quiet tr.
Proof.
  destruct (0 <? n)%nat; [|by intros [-> _]%runs_return].
  intros (x & tr' & -> & [-> ->]%runs_return)%runs_invoke. by constructor.
Qed.

Lemma map_err_res {E A} (f : E → string) (x : result E A) a : map_err f x = Ok a → x = Ok a.
Proof. by intros ?%map_err_Ok. Qed.

(** The trace ends with an answer to [c] for which [P] holds. *)
Definition ends_with_answer {R} (c : vultr_call R) (P : R → Prop)
    (tr : list (exchange vultr_call)) : Prop :=
  ∃ pre answer, tr = pre ++ [Exchange c answer] ∧ P answer.
Lemma ends_app {R} (c : vultr_call R) P pre tr :
  ends_with_answer c P tr → ends_with_answer c P (pre ++ tr).
Proof. intros (q & a & -> & Ha). exists (pre ++ q), a. by rewrite <- app_assoc. Qed.

Section RunFacts.
Context `{Sha256} `{SerdeJson}.

(** The answer to a listing for which the plan of the machine is [plan] *)
Definition planned (d : DesiredState) (m : MachineSpec) (profiles : gmap string string)
    (plan : MachinePlan) (answer : result VultrError (list VultrInstance)) : Prop :=
  ∃ inv, inventory_of d profiles answer = Ok inv ∧ plan_machine d m inv = Ok plan.

Lemma reobserve_created_runs d m profiles attempts delay n tr r :
  runs (reobserve_created d m profiles attempts delay n) tr r →
  quiet tr ∧ ∀ plan, r = Ok plan → ends_with_answer ListInstances (planned d m profiles plan) tr.
Proof.
  revert tr. induction n as [|n IH]; intros tr; cbn [reobserve_created].
  { intros [-> ->]%runs_return. split; [constructor|done]. }
  intros (answer & t & -> & [[-> Hr]|(inv & Hinv & Hr)])%runs_inventory.
  { split; [by repeat constructor|]. intros plan ->. done. }
  unfold spec_step in Hr.
  apply runs_step in Hr as [[-> Hr]|(plan & Hp%map_err_res & Hr)].
  { split; [by repeat constructor|]. intros plan ->. done. }
  assert (done_ : runs (mret plan : vultr MachinePlan) t r → quiet (Exchange ListInstances answer :: t) ∧
    ∀ plan', r = Ok plan' → ends_with_answer ListInstances (planned d m profiles plan')
      (Exchange ListInstances answer :: t)).
  { intros [-> ->]%runs_return. split; [by repeat constructor|]. intros plan' [= <-].
    exists [], answer. split; [done|]. by exists inv. }
  destruct (mp_class plan); try by apply done_.
  apply runs_fbind in Hr as [(e & Hs%vultr_pause_quiet & ->)|(u & t3 & t4 & -> & Hs%vultr_pause_quiet & Hr)].
  { split; [by constructor|done]. }
  apply IH in Hr as [Hq Hend]. split; [constructor; [done|by apply Forall_app]|].
  intros plan' E. apply (ends_app _ _ (Exchange ListInstances answer :: t3)). by apply Hend.
Qed.

(** What was granted before a machine was created *)
Definition create_granted (d : DesiredState) (machine_id digest : string) (p : CreatePrerequisites)
    (profiles : gmap string string) (answer : result VultrError (list VultrInstance))
    (request : OwnedCreateRequest) : Prop :=
  ∃ m inv plan a,
    machine_by_id d machine_id = Ok m ∧ inventory_of d profiles answer = Ok inv ∧
    plan_machine d m inv = Ok plan ∧ mp_class plan = PlanCreate ∧
    authorize_vultr_machine d inv plan = Ok a ∧ authority_digest (authority a) = digest ∧
    validate_create_prerequisites m p = Ok tt ∧ create_request d m p = Ok request.

(** A report is backed by the last listing of the trace. *)
Definition report_backed (d : DesiredState) (m : MachineSpec) (profiles : gmap string string)
    (tr : list (exchange vultr_call)) (r : res ApplyReport) : Prop :=
  ∀ report, r = Ok report →
    mp_class (ar_final_plan report) = PlanNoop ∧
    mp_provider_id (ar_final_plan report) = Some (ar_provider_id report) ∧
    ends_with_answer ListInstances (planned d m profiles (ar_final_plan report)) tr.

Lemma execute_create_runs d m p policy profiles tr r :
  runs (execute_create d m p policy profiles) tr r →
  (tr = [] ∧ is_err r = true) ∨
  ∃ request answer rest, tr = Exchange (CreateInstance request) answer :: rest ∧ quiet rest ∧
    validate_create_prerequisites m p = Ok tt ∧ create_request d m p = Ok request ∧
    report_backed d m profiles rest r.
Proof.
  unfold execute_create.
  intros [Hs|([] & Hv & Hr)]%runs_step; [by left|].
  apply runs_step in Hr as [Hs|(request & Hreq & Hr)]; [by left|].
  apply runs_invoke in Hr as (answer & rest & -> & Hr). cbn [service_bind] in Hr. right.
  exists request, answer, rest. split; [done|].
  apply runs_step in Hr as [[-> Hr]|([] & _ & Hr)].
  { split_and!; [constructor|done|done|]. intros report ->. done. }
  apply runs_bind in Hr as (reobserved & t1 & t2 & -> & Hr & [-> ->]%runs_return).
  rewrite app_nil_r. apply reobserve_created_runs in Hr as [Hq Hend].
  split_and!; [done..|]. intros report E. unfold created_report in E.
  apply bind_Ok in E as (plan & ->%map_err_res & E).
  apply bind_Ok in E as (? & Hn%fail_if_Ok & E). reflect_in Hn.
  apply bind_Ok in E as (pid & Hpid%ok_or_Ok & [= <-]). split_and!; [done..|]. by apply Hend.
Qed.

(** Whatever the provider answers, a run of [apply_machine_with_firewall_profiles]
    creates at most one instance. The creation directly follows the listing its plan
    was made from, that plan is CREATE, and the digest the operator authorized is the
    one of exactly that desired state, inventory and plan. A run that reports success
    ends with a listing for which the plan of the machine is NOOP on the reported
    instance. *)
Theorem vultr_apply_once d machine_id digest p policy profiles tr r :
  runs (apply_machine_with_firewall_profiles d machine_id digest p policy profiles) tr r →
  (quiet tr ∨
   ∃ answer request created rest,
     tr = Exchange ListInstances answer :: Exchange (CreateInstance request) created :: rest ∧
     quiet rest ∧ create_granted d machine_id digest p profiles answer request) ∧
  ∀ report, r = Ok report → ∃ m, machine_by_id d machine_id = Ok m ∧
    mp_class (ar_final_plan report) = PlanNoop ∧
    mp_provider_id (ar_final_plan report) = Some (ar_provider_id report) ∧
    ends_with_answer ListInstances (planned d m profiles (ar_final_plan report)) tr.
Proof.
  unfold apply_machine_with_firewall_profiles.
  intros [[-> Hr]|([] & _ & Hr)]%runs_step; [split; [by left; constructor|by intros ? ->]|].
  apply runs_step in Hr as [[-> Hr]|(m & Hm & Hr)]; [split; [by left; constructor|by intros ? ->]|].
  apply runs_inventory in Hr as (answer & t & -> & Hr).
  assert (stop : t = [] ∧ is_err r = true → (quiet (Exchange ListInstances answer :: t) ∨
    ∃ answer' request created rest, Exchange ListInstances answer :: t =
      Exchange ListInstances answer' :: Exchange (CreateInstance request) created :: rest ∧
      quiet rest ∧ create_granted d machine_id digest p profiles answer' request) ∧
    ∀ report, r = Ok report → ∃ m, machine_by_id d machine_id = Ok m ∧
      mp_class (ar_final_plan report) = PlanNoop ∧
      mp_provider_id (ar_final_plan report) = Some (ar_provider_id report) ∧
      ends_with_answer ListInstances (planned d m profiles (ar_final_plan report))
        (Exchange ListInstances answer :: t)).
  { intros [-> Hr']. split; [left; by repeat constructor|by intros ? ->]. }
  destruct Hr as [Hr|(inv & Hinv & Hr)]; [by apply stop|]. unfold spec_step in Hr.
  apply runs_step in Hr as [Hs|(plan & Hp%map_err_res & Hr)]; [by apply stop|].
  apply runs_step in Hr as [Hs|(a & Ha%map_err_res & Hr)]; [by apply stop|].
  apply runs_step in Hr as [Hs|([] & Hv%map_err_res & Hr)]; [by apply stop|].
  apply verify_exact_authority_Ok in Hv. unfold execute_plan in Hr.
  destruct (mp_class plan) eqn:Hc; try (apply runs_return in Hr; by apply stop; destruct Hr; subst).
  - apply runs_return in Hr as [-> ->]. split; [left; by repeat constructor|].
    intros report E. apply bind_Ok in E as (pid & Hpid%ok_or_Ok & [= <-]). exists m.
    split_and!; [done..|]. exists [], answer. split; [done|]. by exists inv.
  - apply execute_create_runs in Hr as [Hs|(request & created & rest & -> & Hq & Hpre & Hreq & Hrep)];
      [by apply stop|].
    split.
    + right. exists answer, request, created, rest. split_and!; [done..|].
      exists m, inv, plan, a. by split_and!.
    + intros report E. destruct (Hrep report E) as (Hn & Hid & Hend). exists m.
      split_and!; [done..|]. by apply (ends_app _ _ [_; _]).
Qed.

Definition not_found {A} (answer : result VultrError A) : Prop :=
  ∃ e, answer = Err e ∧ is_not_found e = true.

Lemma wait_absent_runs provider_id delay n tr r :
  runs (wait_absent provider_id delay n) tr r →
  quiet tr ∧ (r = Ok true → ends_with_answer (GetInstance provider_id) not_found tr).
Proof using Type.
  revert tr. induction n as [|n IH]; intros tr; cbn [wait_absent].
  { intros [-> ->]%runs_return. split; [constructor|done]. }
  intros (answer & t & -> & Hr)%runs_invoke. destruct answer as [i|e].
  - apply runs_fbind in Hr as [(e & Hs%vultr_pause_quiet & ->)|(u & t3 & t4 & -> & Hs%vultr_pause_quiet & Hr)].
    { split; [by constructor|done]. }
    apply IH in Hr as [Hq Hend]. split; [constructor; [done|by apply Forall_app]|].
    intros E. apply (ends_app _ _ (Exchange (GetInstance provider_id) (Ok i) :: t3)). by apply Hend.
  - destruct (is_not_found e) eqn:He; apply runs_return in Hr as [-> ->];
      (split; [by repeat constructor|]); [|done].
    intros _. exists [], (Err e). split; [done|]. by exists e.
Qed.

(** The provider answered that the instance does not exist. *)
Definition absence_answered (provider_id : string) (tr : list (exchange vultr_call)) : Prop :=
  ends_with_answer (DestroyInstance provider_id) not_found tr ∨
  ends_with_answer (GetInstance provider_id) not_found tr.

Lemma execute_destroy_runs m provider_id policy tr r :
  runs (execute_destroy m provider_id policy) tr r →
  ∃ answer rest, tr = Exchange (DestroyInstance provider_id) answer :: rest ∧ quiet rest ∧
    ∀ report, r = Ok report →
      dr_provider_id report = provider_id ∧ absence_answered provider_id tr.
Proof using Type.
  unfold execute_destroy. intros (answer & rest & -> & Hr)%runs_invoke.
  cbn [service_bind] in Hr. exists answer, rest. split; [done|].
  assert (Hre : runs (absent ← wait_for_absence provider_id policy;
      pure_step (if absent : bool then Ok (absent_report m provider_id)
                 else Err (remained_error provider_id answer))) rest r →
    quiet rest ∧ ∀ report, r = Ok report → dr_provider_id report = provider_id ∧
      absence_answered provider_id (Exchange (DestroyInstance provider_id) answer :: rest)).
  { unfold wait_for_absence.
    intros [(e & [Hq _]%wait_absent_runs & ->)|(b & t1 & t2 & -> & [Hq Hend]%wait_absent_runs
      & [-> ->]%runs_return)]%runs_fbind; [done|].
    rewrite app_nil_r. split; [done|]. intros report E. destruct b; [|done].
    injection E as <-. split; [done|]. right. by apply (ends_app _ _ [_]), Hend. }
  destruct answer as [u|e]; [by apply Hre|]. destruct (is_not_found e) eqn:He.
  { apply runs_return in Hr as [-> ->]. split; [constructor|]. intros report [= <-].
    split; [done|]. left. exists [], (Err e). split; [done|]. by exists e. }
  destruct (requires_mutation_reobservation e); [by apply Hre|].
  apply runs_return in Hr as [-> ->]. split; [constructor|done].
Qed.

(** The two digests under which an instance may be destroyed: the one of the plan in
    the review of the machine, and the authority of the whole observation *)
Definition destroy_granted (d : DesiredState)
    (machine_id rev authorized digest : string) (profiles : gmap string string)
    (answer : result VultrError (list VultrInstance)) (provider_id : string) : Prop :=
  ∃ m inv plan a,
    machine_by_id d machine_id = Ok m ∧ inventory_of d profiles answer = Ok inv ∧
    destroy_plan d m inv rev = Ok plan ∧
    authorize_vultr_destroy d machine_id rev inv plan = Ok a ∧
    authority_digest (authority a) = digest ∧
    authorize_destroy d m inv rev authorized = Ok provider_id.

(** Whatever the provider answers, a run of [destroy_machine_with_firewall_profiles]
    destroys at most one instance: the one owned by the machine in the listing
    directly before, under both digests the operator authorized. A run that reports
    success ends with the provider's answer that this instance does not exist. *)
Theorem vultr_destroy_once d machine_id rev authorized digest policy profiles tr r :
  runs (destroy_machine_with_firewall_profiles d machine_id rev authorized digest policy
          profiles) tr r →
  (quiet tr ∧ is_err r = true ∨
   ∃ answer provider_id destroyed rest,
     tr = Exchange ListInstances answer
          :: Exchange (DestroyInstance provider_id) destroyed :: rest ∧ quiet rest ∧
     destroy_granted d machine_id rev authorized digest profiles answer provider_id ∧
     ∀ report, r = Ok report →
       dr_provider_id report = provider_id ∧ absence_answered provider_id tr).
Proof using Type.
  unfold destroy_machine_with_firewall_profiles.
  intros [[-> Hr]|([] & _ & Hr)]%runs_step; [left; by split; [constructor|]|].
  apply runs_step in Hr as [[-> Hr]|(m & Hm & Hr)]; [left; by split; [constructor|]|].
  apply runs_inventory in Hr as (answer & t & -> & Hr).
  assert (stop : t = [] ∧ is_err r = true →
    quiet (Exchange ListInstances answer :: t) ∧ is_err r = true).
  { intros [-> ?]. split; [by repeat constructor|done]. }
  destruct Hr as [Hr|(inv & Hinv & Hr)]; [left; by apply stop|].
  apply runs_step in Hr as [Hs|(plan & Hp%map_err_res & Hr)]; [left; by apply stop|].
  apply runs_step in Hr as [Hs|(a & Ha%map_err_res & Hr)]; [left; by apply stop|].
  apply runs_step in Hr as [Hs|([] & Hv%map_err_res & Hr)]; [left; by apply stop|].
  apply runs_step in Hr as [Hs|(pid & Hd%map_err_res & Hr)]; [left; by apply stop|].
  apply verify_exact_authority_Ok in Hv. right.
  apply execute_destroy_runs in Hr as (destroyed & rest & -> & Hq & Hrep).
  exists answer, pid, destroyed, rest. split_and!; [done|done| |].
  - exists m, inv, plan, a. by split_and!.
  - intros report E. destruct (Hrep report E) as [Hid Habs]. split; [done|].
    by destruct Habs; [left|right]; apply (ends_app _ _ [_]).
Qed.
End RunFacts.

(** ** A sample provider: a list of instances; the answer to a creation is lost. *)
Module VultrServiceSample.
Definition machine : MachineSpec := {|
  ms_id := "edge-1"; ms_role := "edge"; ms_provider := VultrSample.provider;
  ms_bootstrap_profile := "singbox-host-v2"; ms_application_profiles := ["line1"];
  ms_tags := ["team-b"; "team-a"] |}.
Definition desired : DesiredState := {|
  ds_schema := 1; ds_environment := "production"; ds_machines := [machine] |}.
Definition profiles : gmap string string := {[ "fw-1" := "edge" ]}.
Definition prerequisites : CreatePrerequisites := {|
  cp_bootstrap_profile := "singbox-host-v2"; cp_ssh_key_id := "key-1";
  cp_cloud_init := "#cloud-config"; cp_firewall_group_id := Some "fw-1";
  cp_firewall_profile := Some "edge" |}.
Definition policy : LifecycleExecutionPolicy := {|
  create_reobserve_attempts := 2; destroy_reobserve_attempts := 2; reobserve_delay := 2 |}.

Definition instance_of (r : OwnedCreateRequest) : VultrInstance := {|
  vi_id := "vm-1"; vi_label := req_label r; vi_region := req_region r; vi_plan := req_plan r;
  vi_status := "pending"; vi_server_status := "none"; vi_power_status := "running";
  vi_main_ip := "0.0.0.0"; vi_v6_main_ip := "";
  vi_firewall_group_id := match req_firewall_group_id r with Some g => g | None => "" end;
  vi_date_created := ""; vi_tags := rev (req_tags r);
  vi_os_id := match req_os_id r with Some n => n | None => 0 end;
  vi_snapshot_id := req_snapshot_id r; vi_enable_ipv6 := req_enable_ipv6 r |}.
Definition error (kind : VultrErrorKind) (status : option Z) : VultrError := {|
  ve_operation := "vultr"; ve_kind := kind; ve_status := status; ve_retry_after_secs := None;
  ve_detail := "sample" |}.
Definition find_instance (id : string) (s : list VultrInstance) : option VultrInstance :=
  List.find (λ i, str_eqb (vi_id i) id) s.
Definition answer (R : Type) (c : vultr_call R) (s : list VultrInstance)
    : R * list VultrInstance :=
  match c in vultr_call R return R * list VultrInstance with
  | ListInstances => (Ok s, s)
  | CreateInstance r => (Err (error MutationUncertain None), s ++ [instance_of r])
  | GetInstance id => (ok_or (find_instance id s) (error Http (Some 404)), s)
  | DestroyInstance id => (Ok tt, List.filter (λ i, negb (str_eqb (vi_id i) id)) s)
  | Pause _ => (tt, s)
  end.

Definition digest_for (s : list VultrInstance) : string :=
  match (inv ← inventory_of desired profiles (Ok s);
         p ← map_err spec_error_text (plan_machine desired machine inv);
         a ← authority_res (authorize_vultr_machine desired inv p);
         Ok (authority_digest (authority a))) with
  | Ok d => d | Err _ => "" end.
Definition create_program : vultr ApplyReport :=
  apply_machine_with_firewall_profiles desired "edge-1" (digest_for []) prerequisites policy
    profiles.
Definition created : list VultrInstance := (exec answer create_program []).2.

Definition destroy_digests : string * string :=
  match (inv ← inventory_of desired profiles (Ok created);
         p ← map_err destroy_error_text (destroy_plan desired machine inv VultrSample.revision);
         a ← authority_res (authorize_vultr_destroy desired "edge-1" VultrSample.revision inv p);
         Ok (dp_destroy_digest p, authority_digest (authority a))) with
  | Ok d => d | Err _ => ("", "") end.
Definition destroy_program : vultr DestroyApplyReport :=
  destroy_machine_with_firewall_profiles desired "edge-1" VultrSample.revision
    destroy_digests.1 destroy_digests.2 policy profiles.

(** The machine is created although the answer was lost, is found on the first
    re-observation, and is destroyed again. *)
Example create_and_destroy :
  match exec answer create_program [] with
  | (Ok report, [i]) => ar_action report = Created ∧ ar_provider_id report = vi_id i
  | _ => False
  end ∧
  match exec answer destroy_program created with
  | (Ok report, []) => dr_absence_verified report = true
  | _ => False
  end.
Proof. vm_compute. repeat split. Qed.
End VultrServiceSample.

(** Witness of [vultr_apply_once]: the creation whose answer was lost *)
Lemma vultr_apply_once_witness :
  let program := VultrServiceSample.create_program in
  let tr := exec_trace VultrServiceSample.answer program [] in
  quiet tr ∨
  ∃ answer request created rest,
    tr = Exchange ListInstances answer :: Exchange (CreateInstance request) created :: rest ∧
    quiet rest ∧
    create_granted VultrServiceSample.desired "edge-1" (VultrServiceSample.digest_for [])
      VultrServiceSample.prerequisites VultrServiceSample.profiles answer request.
Proof.
  exact (proj1 (vultr_apply_once _ _ _ _ _ _ _ _
    (exec_runs VultrServiceSample.answer VultrServiceSample.create_program []))).
Defined.

(** Witness of [vultr_destroy_once] *)
Lemma vultr_destroy_once_witness :
  let program := VultrServiceSample.destroy_program in
  let tr := exec_trace VultrServiceSample.answer program VultrServiceSample.created in
  let r := (exec VultrServiceSample.answer program VultrServiceSample.created).1 in
  quiet tr ∧ is_err r = true ∨
  ∃ answer provider_id destroyed rest,
    tr = Exchange ListInstances answer
         :: Exchange (DestroyInstance provider_id) destroyed :: rest ∧ quiet rest ∧
    destroy_granted VultrServiceSample.desired "edge-1" VultrSample.revision
      VultrServiceSample.destroy_digests.1 VultrServiceSample.destroy_digests.2
      VultrServiceSample.profiles answer provider_id ∧
    ∀ report, r = Ok report →
      dr_provider_id report = provider_id ∧ absence_answered provider_id tr.
Proof.
  exact (vultr_destroy_once _ _ _ _ _ _ _ _ _
    (exec_runs VultrServiceSample.answer VultrServiceSample.destroy_program
       VultrServiceSample.created)).
Defined.
