(* ===== verification/VpcService.v ===== *)
(** * The Vultr VPC service

    Models [edge-orchestrator/src/vultr_vpc_lifecycle_service.rs]: creation of the owned
    VPC, attachment of the exact lifecycle-owned instance, the readiness report, and the
    teardown, each with one authorized mutation over the [VpcProvider] trait.

    [vpc_apply_once], [vpc_attach_once] and [vpc_cleanup_once] bound what one run may do
    whatever the provider answers; [vpc_ready_backed] says what a readiness report rests
    on. Messages that print a value with [{:?}] are kept as the value. *)

From S2P Require Import Prelude RustStd RustNet HostTypes Concrete Json PlanAuthority.
From S2P Require Import LifecycleCommon VultrLifecycle VultrService Service.
From S2P Require Import VpcLifecycle.

(** [edge_provider_vultr::VultrVpc], [VultrVpcAttachment], [VultrInstanceVpc] *)
Record VultrVpc : Type := {
  vv_id : string;
  vv_region : string;
  vv_description : string;
  vv_v4_subnet : string;
  vv_v4_subnet_mask : Z;
  vv_date_created : string
}.
Record VultrVpcAttachment : Type := {
  va_id : string;
  va_mac_address : string;
  va_private_ipv4 : string;
  va_subscription_id : option string
}.
Record VultrInstanceVpc : Type := {
  iv_id : string;
  iv_mac_address : string;
  iv_private_ipv4 : string
}.

Abbreviation pres := (result VultrError).

(** The methods of the trait [VpcProvider], and [tokio::time::sleep] *)
Inductive vpc_call : Type → Type :=
| ListVpcs : vpc_call (pres (list VultrVpc))
| CreateVpcCall (region description : string) : vpc_call (pres VultrVpc)
| DestroyVpcCall (vpc_id : string) : vpc_call (pres unit)
| ListVpcAttachments (vpc_id : string) : vpc_call (pres (list VultrVpcAttachment))
| ListInstanceVpcs (instance_id : string) : vpc_call (pres (list VultrInstanceVpc))
| AttachCall (instance_id vpc_id : string) : vpc_call (pres unit)
| DetachCall (instance_id vpc_id : string) : vpc_call (pres unit)
| ListInstances : vpc_call (pres (list VultrInstance))
| Sleep (delay : Z) : vpc_call unit.

Record VpcExecutionPolicy : Type := { reobserve_attempts : nat; reobserve_delay : Z }.
(** [VpcExecutionPolicy::default], the delay in seconds *)
Definition default_policy : VpcExecutionPolicy :=
  {| reobserve_attempts := 30; reobserve_delay := 2 |}.

Inductive vpc_error : Type :=
| Failed (message : string)
| AttachmentNotReady (machine_id : string) (action : AttachmentAction)
| VpcNotReady (machine_id : string) (action : VpcApplyAction).
Abbreviation vpc := (fservice vpc_call vpc_error).

Record TargetInstance : Type := {
  ti_provider_id : string;
  ti_region : string;
  ti_main_ip : string
}.
Record VpcApplyReport : Type := {
  var_performed : VpcApplyAction;
  var_observation : VpcObservation;
  var_next_plan : VpcApplyPlan
}.
Record AttachmentApplyReport : Type := {
  aar_performed : AttachmentAction;
  aar_target : TargetInstance;
  aar_observation : VpcObservation;
  aar_attachments : VpcAttachmentObservation;
  aar_next_plan : AttachmentPlan
}.
Record VpcReadyReport : Type := {
  vrr_status : string;
  vrr_target : TargetInstance;
  vrr_vpc_provider_id : string;
  vrr_cidr : string;
  vrr_private_ipv4 : string
}.
Record CleanupApplyReport : Type := {
  car_performed : CleanupAction;
  car_observation : VpcObservation;
  car_attachments : VpcAttachmentObservation;
  car_next_plan : CleanupPlan
}.

(** [VultrVpcApiProvider::new] *)
Definition new_provider (api_key : string) : res string :=
  fail_if (str_empty (trim api_key)) "VULTR_API_KEY must be non-empty" ;; Ok api_key.

(** [.map_err(|err| err.to_string())?] *)
Definition lifecycle_res {A} (r : lres A) : result vpc_error A :=
  map_err (λ e, Failed (lifecycle_error_text "Vultr VPC" e)) r.
Definition authority_res {A} (r : result PlanAuthorityError A) : result vpc_error A :=
  map_err (λ e, Failed (authority_error_text e)) r.
Definition call {A} (c : vpc_call (pres A)) : vpc A :=
  answer ← invoke c; pure_step (map_err (λ e, Failed (vultr_error_text e)) answer).
(** A mutation that failed for certain ends the run; an uncertain one is re-observed. *)
Definition mutate {A} (c : vpc_call (pres A)) : vpc unit :=
  mutation ← invoke c;
  pure_step match mutation with
            | Err e => if requires_mutation_reobservation e then Ok tt
                       else Err (Failed (vultr_error_text e))
            | Ok _ => Ok tt
            end.

Definition validate_policy (policy : VpcExecutionPolicy) : result vpc_error unit :=
  fail_if (reobserve_attempts policy =? 0)%nat
    (Failed "Vultr VPC reobserve_attempts must be greater than zero").
(** [if attempt < attempts { sleep(delay).await }], [n] attempts left after it *)
Definition pause (n : nat) (delay : Z) : vpc unit :=
  if (0 <? n)%nat then invoke (Sleep delay) else mret tt.

(** ** Observation *)

Definition normalize_vpc (v : VultrVpc) : ObservedVpc := {|
  ov_provider_id := vv_id v; ov_region := vv_region v; ov_description := vv_description v;
  ov_v4_subnet := vv_v4_subnet v; ov_v4_subnet_mask := vv_v4_subnet_mask v |}.
Definition normalize_attachment (a : VultrVpcAttachment) : ObservedVpcAttachment := {|
  at_attachment_id := va_id a; at_subscription_id := va_subscription_id a;
  at_private_ipv4 := va_private_ipv4 a |}.

(** The description filter and the sort of [observe_vpc] *)
Definition vpc_observation_of (d : DesiredVpcState) (vpcs : list VultrVpc) : VpcObservation :=
  {| obs_vpcs := sort_by vpc_id_leb (map normalize_vpc
       (List.filter (λ v, str_eqb (vv_description v) (ownership_description d)) vpcs)) |}.
Definition observe_vpc (d : DesiredVpcState) : vpc VpcObservation :=
  pure_step (lifecycle_res (validate d)) ;;
  vpcs ← call ListVpcs;
  mret (vpc_observation_of d vpcs).

Definition plan_vpc (d : DesiredVpcState) : vpc (VpcObservation * VpcApplyPlan) :=
  observed ← observe_vpc d;
  plan ← pure_step (lifecycle_res (plan_vpc_apply d observed));
  mret (observed, plan).

(** The loop body of [resolve_exact_target_instance] *)
Definition exact_owner (d : DesiredVpcState) (t : DecodedProviderTags) : bool :=
  bool_decide (own_managed_by (dt_ownership t) = Some MANAGED_BY_IDENTITY)
  && bool_decide (own_environment (dt_ownership t) = Some (vpc_environment d))
  && bool_decide (own_logical_id (dt_ownership t) = Some (vpc_machine_id d)).
Definition consider_instance (d : DesiredVpcState) (matches : list TargetInstance)
    (instance : VultrInstance) : res (list TargetInstance) :=
  decoded ← map_err (λ e, "invalid lifecycle identity on Vultr instance " +:+ vi_id instance
      +:+ " while resolving VPC target: " +:+ identity_error_text e)
    (decode_provider_tags (vi_tags instance));
  if exact_owner d decoded then
    fail_if (negb (str_eqb (vi_region instance) (vpc_region d)))
      ("exact lifecycle-owned Vultr instance " +:+ vi_id instance +:+ " is in region "
         +:+ vi_region instance +:+ ", expected " +:+ vpc_region d) ;;
    Ok (matches ++ [{| ti_provider_id := vi_id instance; ti_region := vi_region instance;
                       ti_main_ip := vi_main_ip instance |}])
  else Ok matches.
Definition target_leb (a b : TargetInstance) : bool := str_leb (ti_provider_id a) (ti_provider_id b).
Definition select_target (d : DesiredVpcState) (instances : list VultrInstance)
    : res (option TargetInstance) :=
  matches ← try_fold (consider_instance d) [] instances;
  match sort_by target_leb matches with
  | [] => Ok None
  | [target] => Ok (Some target)
  | _ => Err ("Vultr VPC target " +:+ vpc_machine_id d +:+ " is ambiguous: observed "
           +:+ dec (Z.of_nat (length matches)) +:+ " exact lifecycle-owned instances")
  end.
Definition resolve_exact_target_instance (d : DesiredVpcState) : vpc (option TargetInstance) :=
  instances ← call ListInstances;
  pure_step (map_err Failed (select_target d instances)).

Definition exact_vpc_id (d : DesiredVpcState) (o : VpcObservation) : result vpc_error string :=
  plan ← lifecycle_res (plan_vpc_apply d o);
  match vap_action plan, vap_provider_id plan with
  | VpcNoop, Some provider_id => Ok provider_id
  | _, _ => Err (Failed "owned Vultr VPC is absent; create it before attachment")
  end.

Definition eq_ignore_ascii_case (a b : string) : bool :=
  str_eqb (to_ascii_lowercase a) (to_ascii_lowercase b).
Definition attachment_matches_instance_vpc (a : VultrVpcAttachment) (i : VultrInstanceVpc)
    : bool :=
  let ip_comparable := negb (str_empty (va_private_ipv4 a)) && negb (str_empty (iv_private_ipv4 i)) in
  let mac_comparable := negb (str_empty (va_mac_address a)) && negb (str_empty (iv_mac_address i)) in
  let ip_matches := ip_comparable && str_eqb (va_private_ipv4 a) (iv_private_ipv4 i) in
  let mac_matches := mac_comparable && eq_ignore_ascii_case (va_mac_address a) (iv_mac_address i) in
  let ip_conflicts := ip_comparable && negb ip_matches in
  let mac_conflicts := mac_comparable && negb mac_matches in
  (ip_matches || mac_matches) && negb ip_conflicts && negb mac_conflicts.

Definition unlinked (a : VultrVpcAttachment) : bool :=
  match va_subscription_id a with None => true | Some _ => false end.
Definition candidate (i : VultrInstanceVpc) (a : VultrVpcAttachment) : bool :=
  unlinked a && attachment_matches_instance_vpc a i.
Definition link (target : TargetInstance) (i : VultrInstanceVpc) (a : VultrVpcAttachment)
    : VultrVpcAttachment := {|
  va_id := va_id a; va_mac_address := va_mac_address a;
  va_private_ipv4 := if str_empty (va_private_ipv4 a) then iv_private_ipv4 i
                     else va_private_ipv4 a;
  va_subscription_id := Some (ti_provider_id target) |}.
(** The indices of the candidates, by [enumerate] and [filter] *)
Definition candidates (i : VultrInstanceVpc) (l : list VultrVpcAttachment) : list nat :=
  map fst (List.filter (λ e, candidate i e.2) (imap pair l)).

Definition resolve_target_attachment_identity (attachments : list VultrVpcAttachment)
    (vpc_id : string) (target : TargetInstance) (instance_vpcs : list VultrInstanceVpc)
    : res (list VultrVpcAttachment) :=
  match List.filter (λ v, str_eqb (iv_id v) vpc_id) instance_vpcs with
  | [] => Ok attachments
  | [target_vpc] =>
      match candidates target_vpc attachments with
      | [] => Ok attachments
      | [index] => Ok (alter (link target target_vpc) index attachments)
      | _ => Err ("Vultr VPC " +:+ vpc_id
               +:+ " has multiple unresolved attachments matching exact instance "
               +:+ ti_provider_id target)
      end
  | _ => Err ("Vultr instance " +:+ ti_provider_id target +:+ " reports multiple entries for VPC "
           +:+ vpc_id)
  end.

(** [sort_by] on the subscription, then on the identifier *)
Definition attachment_observation_of (raw : list VultrVpcAttachment) : VpcAttachmentObservation :=
  {| obs_attachments := sort_by attachment_leb (map normalize_attachment raw) |}.
Definition observe_attachments (vpc_id : string) (target : option TargetInstance)
    : vpc VpcAttachmentObservation :=
  raw ← call (ListVpcAttachments vpc_id);
  raw ← match target with
        | Some target =>
            if existsb unlinked raw then
              instance_vpcs ← call (ListInstanceVpcs (ti_provider_id target));
              pure_step (map_err Failed
                (resolve_target_attachment_identity raw vpc_id target instance_vpcs))
            else mret raw
        | None => mret raw
        end;
  mret (attachment_observation_of raw).

Definition attachments_have_unresolved_subscription (o : VpcAttachmentObservation) : bool :=
  existsb unresolved (obs_attachments o).

Definition vpc_is_noop (a : VpcApplyAction) : bool :=
  match a with VpcNoop => true | CreateVpc => false end.
Definition attach_is_noop (a : AttachmentAction) : bool :=
  match a with AttachNoop => true | AttachInstance _ => false end.
Definition cleanup_is_noop (a : CleanupAction) : bool :=
  match a with CleanupNoop => true | _ => false end.
Definition is_delete_vpc (a : CleanupAction) : bool :=
  match a with DeleteVpc _ => true | _ => false end.

(** ** Plans and bounded waiting *)

Definition absent_target (d : DesiredVpcState) : vpc_error :=
  Failed ("exact lifecycle-owned Vultr instance " +:+ vpc_machine_id d +:+ " is absent").

Definition plan_vpc_attachment (d : DesiredVpcState)
    : vpc (TargetInstance * VpcObservation * VpcAttachmentObservation * AttachmentPlan) :=
  resolved ← resolve_exact_target_instance d;
  target ← pure_step (ok_or resolved (absent_target d));
  observation ← observe_vpc d;
  vpc_id ← pure_step (exact_vpc_id d observation);
  attachments ← observe_attachments vpc_id (Some target);
  plan ← pure_step (lifecycle_res
    (plan_attachment d observation attachments (ti_provider_id target)));
  mret (target, observation, attachments, plan).

Fixpoint wait_vpc (d : DesiredVpcState) (delay : Z) (n : nat) : vpc (VpcObservation * VpcApplyPlan) :=
  match n with
  | O => pure_step (Err (Failed
           "Vultr VPC create did not converge to NOOP after bounded re-observation"))
  | S n =>
      '(observation, plan) ← plan_vpc d;
      if vpc_is_noop (vap_action plan) then mret (observation, plan)
      else pause n delay ;; wait_vpc d delay n
  end.
Definition wait_for_vpc_noop (d : DesiredVpcState) (policy : VpcExecutionPolicy) :=
  wait_vpc d (reobserve_delay policy) (reobserve_attempts policy).

Fixpoint wait_attachment (d : DesiredVpcState) (target : TargetInstance) (delay : Z) (n : nat)
    : vpc (VpcObservation * VpcAttachmentObservation * AttachmentPlan) :=
  match n with
  | O => pure_step (Err (Failed
           "Vultr VPC attachment did not converge to NOOP after bounded re-observation"))
  | S n =>
      observation ← observe_vpc d;
      vpc_id ← pure_step (exact_vpc_id d observation);
      attachments ← observe_attachments vpc_id (Some target);
      if attachments_have_unresolved_subscription attachments then
        pause n delay ;; wait_attachment d target delay n
      else
        plan ← pure_step (lifecycle_res
          (plan_attachment d observation attachments (ti_provider_id target)));
        if attach_is_noop (atp_action plan) then mret (observation, attachments, plan)
        else pause n delay ;; wait_attachment d target delay n
  end.
Definition wait_for_attachment_noop (d : DesiredVpcState) (target : TargetInstance)
    (policy : VpcExecutionPolicy) :=
  wait_attachment d target (reobserve_delay policy) (reobserve_attempts policy).

Definition verify_vpc_ready (d : DesiredVpcState) : vpc VpcReadyReport :=
  '(target, _, _, plan) ← plan_vpc_attachment d;
  pure_step (fail_if (negb (attach_is_noop (atp_action plan)))
    (AttachmentNotReady (vpc_machine_id d) (atp_action plan))) ;;
  '(_, vpc_plan) ← plan_vpc d;
  vpc_provider_id ← pure_step match vap_action vpc_plan, vap_provider_id vpc_plan with
                              | VpcNoop, Some provider_id => Ok provider_id
                              | action, _ => Err (VpcNotReady (vpc_machine_id d) action)
                              end;
  private_ipv4 ← pure_step (ok_or (atp_private_ipv4 plan)
    (Failed "Vultr VPC attachment is NOOP but provider private IPv4 is absent"));
  mret {| vrr_status := "PASS"; vrr_target := target; vrr_vpc_provider_id := vpc_provider_id;
          vrr_cidr := atp_cidr plan; vrr_private_ipv4 := private_ipv4 |}.

Definition no_attachments : VpcAttachmentObservation := {| obs_attachments := [] |}.
Definition target_id (target : option TargetInstance) : option string :=
  option_map ti_provider_id target.
Definition refuse_without_target (d : DesiredVpcState) (attachments : VpcAttachmentObservation)
    (target : option TargetInstance) : result vpc_error unit :=
  fail_if (negb (is_empty (obs_attachments attachments))
           && match target with None => true | Some _ => false end)
    (Failed ("refusing Vultr VPC cleanup: attachments exist but exact lifecycle-owned instance "
       +:+ vpc_machine_id d +:+ " is absent")).

Section Authorized.
Context `{Sha256} `{SerdeJson}.

Definition authorize_vpc_apply (d : DesiredVpcState) (o : VpcObservation) (p : VpcApplyPlan)
    : result PlanAuthorityError (AuthorizedPlan VpcApplyPlan) :=
  authorize_plan "vultr_vpc_apply" d o p
    (if vpc_is_noop (vap_action p) then Noop else Mutate).

(** The two [json!] values *)
Definition attachment_material (d : DesiredVpcState) (target : TargetInstance) : Value :=
  match to_value d with
  | Ok v => obj [("desired", v); ("target_provider_id", VString (ti_provider_id target))]
  | Err _ => VNull
  end.
Definition observed_material (o : VpcObservation) (attachments : VpcAttachmentObservation)
    : Value :=
  match to_value o, to_value attachments with
  | Ok v, Ok w => obj [("vpc", v); ("attachments", w)]
  | _, _ => VNull
  end.
Definition authorize_vpc_attachment (d : DesiredVpcState) (target : TargetInstance)
    (o : VpcObservation) (attachments : VpcAttachmentObservation) (p : AttachmentPlan)
    : result PlanAuthorityError (AuthorizedPlan AttachmentPlan) :=
  authorize_plan "vultr_vpc_attachment" (attachment_material d target)
    (observed_material o attachments) p
    (if attach_is_noop (atp_action p) then Noop else Mutate).
Definition authorize_vpc_cleanup (d : DesiredVpcState) (o : VpcObservation)
    (attachments : VpcAttachmentObservation) (p : CleanupPlan)
    : result PlanAuthorityError (AuthorizedPlan CleanupPlan) :=
  authorize_plan "vultr_vpc_cleanup" d (observed_material o attachments) p
    (if cleanup_is_noop (cleanup_action p) then Noop else Mutate).

Definition apply_vpc_once (d : DesiredVpcState) (authorized_plan_digest : string)
    (policy : VpcExecutionPolicy) : vpc VpcApplyReport :=
  pure_step (validate_policy policy) ;;
  '(observation, plan) ← plan_vpc d;
  authorized ← pure_step (authority_res (authorize_vpc_apply d observation plan));
  pure_step (authority_res
    (verify_exact_authority authorized_plan_digest (authority authorized))) ;;
  match vap_action plan with
  | VpcNoop => mret {| var_performed := VpcNoop; var_observation := observation;
                       var_next_plan := plan |}
  | CreateVpc =>
      mutate (CreateVpcCall (vpc_region d) (ownership_description d)) ;;
      '(observation, next_plan) ← wait_for_vpc_noop d policy;
      mret {| var_performed := CreateVpc; var_observation := observation;
              var_next_plan := next_plan |}
  end.

Definition apply_vpc_attachment_once (d : DesiredVpcState) (authorized_plan_digest : string)
    (policy : VpcExecutionPolicy) : vpc AttachmentApplyReport :=
  pure_step (validate_policy policy) ;;
  '(target, observation, attachments, plan) ← plan_vpc_attachment d;
  authorized ← pure_step (authority_res
    (authorize_vpc_attachment d target observation attachments plan));
  pure_step (authority_res
    (verify_exact_authority authorized_plan_digest (authority authorized))) ;;
  match atp_action plan with
  | AttachNoop => mret {| aar_performed := AttachNoop; aar_target := target;
                          aar_observation := observation; aar_attachments := attachments;
                          aar_next_plan := plan |}
  | AttachInstance vpc_id =>
      mutate (AttachCall (ti_provider_id target) vpc_id) ;;
      '(observation, attachments, next_plan) ← wait_for_attachment_noop d target policy;
      mret {| aar_performed := atp_action plan; aar_target := target;
              aar_observation := observation; aar_attachments := attachments;
              aar_next_plan := next_plan |}
  end.

Definition plan_vpc_cleanup (d : DesiredVpcState)
    : vpc (VpcObservation * VpcAttachmentObservation * CleanupPlan) :=
  observation ← observe_vpc d;
  vpc_plan ← pure_step (lifecycle_res (plan_vpc_apply d observation));
  match vap_provider_id vpc_plan with
  | None =>
      plan ← pure_step (lifecycle_res (plan_cleanup d observation no_attachments None));
      mret (observation, no_attachments, plan)
  | Some vpc_id =>
      target ← resolve_exact_target_instance d;
      attachments ← observe_attachments vpc_id target;
      pure_step (refuse_without_target d attachments target) ;;
      plan ← pure_step (lifecycle_res
        (plan_cleanup d observation attachments (target_id target)));
      mret (observation, attachments, plan)
  end.

(** The attempt of [wait_for_cleanup_progress]: [None] asks for another attempt. *)
Definition cleanup_attempt (d : DesiredVpcState) (expect_delete_vpc : bool)
    : vpc (option (VpcObservation * VpcAttachmentObservation * CleanupPlan)) :=
  observation ← observe_vpc d;
  vpc_plan ← pure_step (lifecycle_res (plan_vpc_apply d observation));
  attached ← match vap_provider_id vpc_plan with
             | Some vpc_id =>
                 target ← resolve_exact_target_instance d;
                 attachments ← observe_attachments vpc_id target;
                 if attachments_have_unresolved_subscription attachments then mret None
                 else
                   pure_step (refuse_without_target d attachments target) ;;
                   mret (Some (attachments, target))
             | None => mret (Some (no_attachments, None))
             end;
  match attached with
  | None => mret None
  | Some (attachments, target) =>
      plan ← pure_step (lifecycle_res
        (plan_cleanup d observation attachments (target_id target)));
      let converged := if expect_delete_vpc then is_delete_vpc (cleanup_action plan)
                       else cleanup_is_noop (cleanup_action plan) in
      mret (if converged then Some (observation, attachments, plan) else None)
  end.
Fixpoint wait_cleanup (d : DesiredVpcState) (expect_delete_vpc : bool) (delay : Z) (n : nat)
    : vpc (VpcObservation * VpcAttachmentObservation * CleanupPlan) :=
  match n with
  | O => pure_step (Err (Failed (if expect_delete_vpc
           then "Vultr VPC detach did not converge to DELETE_VPC after bounded re-observation"
           else "Vultr VPC delete did not converge to NOOP after bounded re-observation")))
  | S n =>
      outcome ← cleanup_attempt d expect_delete_vpc;
      match outcome with
      | Some report => mret report
      | None => pause n delay ;; wait_cleanup d expect_delete_vpc delay n
      end
  end.
Definition wait_for_cleanup_progress (d : DesiredVpcState) (policy : VpcExecutionPolicy)
    (expect_delete_vpc : bool) :=
  wait_cleanup d expect_delete_vpc (reobserve_delay policy) (reobserve_attempts policy).

(** A deletion and the wait for its effect *)
Definition delete_and_wait (d : DesiredVpcState) (policy : VpcExecutionPolicy)
    (performed : CleanupAction) (c : vpc_call (pres unit)) (expect_delete_vpc : bool)
    : vpc CleanupApplyReport :=
  mutate c ;;
  '(observation, attachments, next_plan) ← wait_for_cleanup_progress d policy expect_delete_vpc;
  mret {| car_performed := performed; car_observation := observation;
          car_attachments := attachments; car_next_plan := next_plan |}.

(** The plan of [cleanup_vpc_once] with the target it resolves once more *)
Definition plan_with_target (d : DesiredVpcState)
    : vpc (VpcObservation * VpcAttachmentObservation * CleanupPlan * option TargetInstance) :=
  '(observation, attachments, current) ← plan_vpc_cleanup d;
  target ← (if is_empty (obs_attachments attachments) then mret None
            else
              resolved ← resolve_exact_target_instance d;
              target ← pure_step (ok_or resolved (Failed
                "refusing Vultr VPC cleanup because exact target instance is absent"));
              mret (Some target));
  mret (observation, attachments, current, target).

Definition cleanup_vpc_once (d : DesiredVpcState)
    (expected_digest authorized_plan_digest : string) (policy : VpcExecutionPolicy)
    : vpc CleanupApplyReport :=
  pure_step (validate_policy policy) ;;
  '(observation, attachments, current, target) ← plan_with_target d;
  generic ← pure_step (authority_res (authorize_vpc_cleanup d observation attachments current));
  pure_step (authority_res
    (verify_exact_authority authorized_plan_digest (authority generic))) ;;
  destructive ← pure_step (lifecycle_res
    (verify_cleanup_digest d observation attachments (target_id target) expected_digest));
  pure_step (fail_if (negb (bool_decide (current = destructive)))
    (Failed "Vultr VPC cleanup authorization changed during planning")) ;;
  match cleanup_action destructive with
  | CleanupNoop => pure_step (Err (Failed "Vultr VPC cleanup target is already absent"))
  | DetachInstance vpc_id instance_id =>
      delete_and_wait d policy (cleanup_action destructive) (DetachCall instance_id vpc_id) true
  | DeleteVpc vpc_id =>
      delete_and_wait d policy (cleanup_action destructive) (DestroyVpcCall vpc_id) false
  end.
End Authorized.

(** ** What one run may do *)

Inductive mutation : Type :=
| VpcCreated (region description : string)
| VpcDestroyed (vpc_id : string)
| Attached (instance_id vpc_id : string)
| Detached (instance_id vpc_id : string).
#[global] Instance vpc_mutates : Mutates vpc_call mutation := λ R c,
  match c with
  | CreateVpcCall region description => Some (VpcCreated region description)
  | DestroyVpcCall vpc_id => Some (VpcDestroyed vpc_id)
  | AttachCall instance_id vpc_id => Some (Attached instance_id vpc_id)
  | DetachCall instance_id vpc_id => Some (Detached instance_id vpc_id)
  | ListVpcs | ListVpcAttachments _ | ListInstanceVpcs _ | ListInstances | Sleep _ => None
  end.

Lemma vpc_call_quiet {A} (c : vpc_call (pres A)) : call_mutation c = None → quiet (call c).
Proof. intros Hc. unfold call. apply within_quiet_bind; [by apply quiet_call|]. intros. quiet. Qed.
#[export] Hint Extern 1 (within _ (call _)) => apply vpc_call_quiet; reflexivity : quiet.

Lemma observe_vpc_quiet d : quiet (observe_vpc d).
Proof. unfold observe_vpc. quiet. Qed.
Lemma vpc_pause_quiet n delay : quiet (pause n delay).
Proof. unfold pause. quiet. Qed.
Lemma resolve_target_quiet d : quiet (resolve_exact_target_instance d).
Proof. unfold resolve_exact_target_instance. quiet. Qed.
Lemma observe_attachments_quiet vpc_id target : quiet (observe_attachments vpc_id target).
Proof. unfold observe_attachments. quiet. Qed.
#[export] Hint Resolve observe_vpc_quiet vpc_pause_quiet resolve_target_quiet
  observe_attachments_quiet : quiet.
Lemma plan_vpc_quiet d : quiet (plan_vpc d).
Proof. unfold plan_vpc. quiet. Qed.
Lemma plan_vpc_attachment_quiet d : quiet (plan_vpc_attachment d).
Proof. unfold plan_vpc_attachment. quiet. Qed.
#[export] Hint Resolve plan_vpc_quiet plan_vpc_attachment_quiet : quiet.
Lemma wait_vpc_quiet d delay n : quiet (wait_vpc d delay n).
Proof. induction n; cbn [wait_vpc]; quiet. Qed.
Lemma wait_attachment_quiet d target delay n : quiet (wait_attachment d target delay n).
Proof. induction n; cbn [wait_attachment]; quiet. Qed.
#[export] Hint Resolve wait_vpc_quiet wait_attachment_quiet : quiet.

Lemma vpc_lifecycle_res_Ok {A} (x : lres A) a : lifecycle_res x = Ok a → x = Ok a.
Proof. apply map_err_Ok. Qed.
Lemma vpc_authority_res_Ok {A} (x : result PlanAuthorityError A) a : authority_res x = Ok a → x = Ok a.
Proof. apply map_err_Ok. Qed.

(** A mutation followed by a quiet program *)
Lemma runs_mutate {A B} (c : vpc_call (pres A)) (q : vpc B) tr r :
  quiet q → runs (mutate c ;; q) tr r →
  ∃ answer t, tr = Exchange c answer :: t ∧ mutations t = [] ∧
    (is_err r = true ∨ runs q t r).
Proof.
  intros Hq [(e & Hm & ->)|([] & t1 & t2 & -> & Hm & Hr)]%runs_fbind.
  - apply runs_invoke in Hm as (answer & t & -> & Hr). cbn [service_bind] in Hr.
    apply runs_return in Hr as [-> _]. exists answer, []. by split_and!; [..|left].
  - apply runs_invoke in Hm as (answer & t & -> & Hx). cbn [service_bind] in Hx.
    apply runs_return in Hx as [-> _]. exists answer, t2. split_and!; [done| |by right].
    by eapply within_runs.
Qed.

Lemma plan_vpc_runs d tr o p :
  runs (plan_vpc d) tr (Ok (o, p)) → runs (observe_vpc d) tr (Ok o) ∧ plan_vpc_apply d o = Ok p.
Proof.
  intros [(e & _ & [=])|(o' & t1 & t2 & -> & Ho & Hr)]%runs_fbind.
  apply runs_or_stop in Hr as [[_ [=]]|(p' & Hp%vpc_lifecycle_res_Ok & [-> [= -> ->]]%runs_return)].
  by rewrite app_nil_r.
Qed.
Lemma wait_vpc_runs d delay n tr o p :
  runs (wait_vpc d delay n) tr (Ok (o, p)) →
  run_ends (plan_vpc d) tr (o, p) ∧ vap_action p = VpcNoop.
Proof.
  revert tr. induction n as [|n IH]; intros tr; cbn [wait_vpc]; [by intros [_ [=]]%runs_return|].
  intros [(e & _ & [=])|([o' p'] & t1 & t2 & -> & Ho & Hr)]%runs_fbind.
  destruct (vpc_is_noop (vap_action p')) eqn:Hn.
  - apply runs_return in Hr as [-> [= -> ->]]. rewrite app_nil_r.
    split; [apply ends_with_self; [quiet|done]|by destruct (vap_action p')].
  - apply runs_fbind in Hr as [(e & _ & [=])|(u & t3 & t4 & -> & _ & Hr)].
    apply IH in Hr as [? ?]. split; [by do 2 apply ends_with_app|done].
Qed.

Section RunFacts.
Context `{Sha256} `{SerdeJson}.

(** Whatever the provider answers, a run of [apply_vpc_once] sends at most one mutation:
    the creation of the owned VPC, directly after an observation without one, under the
    digest the operator authorized for exactly that observation. Success is reported
    only from a final observation whose plan is NOOP. *)
Theorem vpc_apply_once d digest policy tr r :
  runs (apply_vpc_once d digest policy) tr r →
  (mutations tr = [] ∨
   ∃ o p a, mutates_once (plan_vpc d) tr (o, p)
       (VpcCreated (vpc_region d) (ownership_description d)) ∧
     plan_vpc_apply d o = Ok p ∧ vap_action p = CreateVpc ∧
     authorize_vpc_apply d o p = Ok a ∧ authority_digest (authority a) = digest) ∧
  ∀ report, r = Ok report →
    run_ends (plan_vpc d) tr (var_observation report, var_next_plan report) ∧
    vap_action (var_next_plan report) = VpcNoop.
Proof using Type.
  unfold apply_vpc_once.
  intros [[-> ?]|([] & _ & Hr)]%runs_or_stop; [stopped|].
  apply runs_quiet_bind in Hr as [[-> ?]|([o p] & t1 & t2 & -> & Hq & Hp & Hr)]; [stopped| |quiet].
  apply runs_or_stop in Hr as [[-> ?]|(a & Ha%vpc_authority_res_Ok & Hr)]; [stopped|].
  apply runs_or_stop in Hr as [[-> ?]|([] & Hv%vpc_authority_res_Ok & Hr)]; [stopped|].
  apply verify_exact_authority_Ok in Hv. destruct (vap_action p) eqn:Hact.
  - apply runs_return in Hr as [-> ->]. rewrite app_nil_r. split; [by left|].
    intros report [= <-]. split; [by apply ends_with_self; [quiet|]|done].
  - apply runs_mutate in Hr as (answer & t & -> & Ht & Hr); [|unfold wait_for_vpc_noop; quiet].
    split.
    + right. exists o, p, a. apply plan_vpc_runs in Hp as Hp'. split_and!; [|apply Hp'|done..].
      eexists t1, _, _, answer, t. by split_and!.
    + intros report ->. destruct Hr as [?|Hr]; [done|].
      apply runs_fbind in Hr as [(e & _ & [=])|([o' p'] & t3 & t4 & -> & Hw & [-> [= ->]]%runs_return)].
      unfold wait_for_vpc_noop in Hw. apply wait_vpc_runs in Hw as [He Hn]. rewrite app_nil_r. simpl.
      split; [|done]. apply ends_with_app. by apply (ends_with_app _ [_]).
Qed.

Lemma plan_vpc_attachment_runs d tr target o att p :
  runs (plan_vpc_attachment d) tr (Ok (target, o, att, p)) →
  ∃ instances vpc_id, select_target d instances = Ok (Some target) ∧
    exact_vpc_id d o = Ok vpc_id ∧ plan_attachment d o att (ti_provider_id target) = Ok p ∧
    ∃ t1 t2, tr = Exchange ListInstances (Ok instances) :: t1 ++ t2 ∧
      runs (observe_vpc d) t1 (Ok o) ∧
      runs (observe_attachments vpc_id (Some target)) t2 (Ok att).
Proof using Type.
  intros [(e & _ & [=])|(resolved & t1 & t2 & -> & Hres & Hr)]%runs_fbind.
  apply runs_or_stop in Hr as [[_ [=]]|(tg & Htg%ok_or_Ok & Hr)].
  apply runs_fbind in Hr as [(e & _ & [=])|(o' & t3 & t4 & -> & Ho & Hr)].
  apply runs_or_stop in Hr as [[_ [=]]|(vpc_id & Hid & Hr)].
  apply runs_fbind in Hr as [(e & _ & [=])|(att' & t5 & t6 & -> & Hatt & Hr)].
  apply runs_or_stop in Hr as [[_ [=]]|(p' & Hp%vpc_lifecycle_res_Ok & [-> [= -> -> -> ->]]%runs_return)].
  unfold resolve_exact_target_instance in Hres.
  apply runs_fbind in Hres as [(e & _ & [=])|(instances & t7 & t8 & -> & Hl & Hs)].
  apply runs_invoke in Hl as (ans & t & -> & Hl). cbn [service_bind] in Hl.
  apply runs_return in Hl as [-> Hans]. symmetry in Hans. apply map_err_Ok in Hans as ->.
  apply runs_return in Hs as [-> Hs]. symmetry in Hs. apply map_err_Ok in Hs. rewrite Htg in Hs.
  exists instances, vpc_id. split_and!; [done..|]. exists t3, t5.
  by rewrite !app_nil_r.
Qed.

(** The last attempt of [wait_attachment] *)
Lemma wait_attachment_runs d target delay n tr o att p :
  runs (wait_attachment d target delay n) tr (Ok (o, att, p)) →
  plan_attachment d o att (ti_provider_id target) = Ok p ∧ atp_action p = AttachNoop ∧
  ∃ vpc_id, exact_vpc_id d o = Ok vpc_id ∧
    run_ends (observe_attachments vpc_id (Some target)) tr att.
Proof using Type.
  revert tr. induction n as [|n IH]; intros tr; cbn [wait_attachment]; [by intros [_ [=]]%runs_return|].
  intros [(e & _ & [=])|(o' & t1 & t2 & -> & Ho & Hr)]%runs_fbind.
  apply runs_or_stop in Hr as [[_ [=]]|(vpc_id & Hid & Hr)].
  apply runs_fbind in Hr as [(e & _ & [=])|(att' & t3 & t4 & -> & Hatt & Hr)].
  assert (Hnext : ∀ t, runs (pause n delay ;; wait_attachment d target delay n) t (Ok (o, att, p)) →
    plan_attachment d o att (ti_provider_id target) = Ok p ∧ atp_action p = AttachNoop ∧
    ∃ vpc_id, exact_vpc_id d o = Ok vpc_id ∧
      run_ends (observe_attachments vpc_id (Some target)) (t1 ++ t3 ++ t) att).
  { intros t [(e & _ & [=])|(u & t5 & t6 & -> & _ & Hx)]%runs_fbind.
    apply IH in Hx as (? & ? & id & ? & ?). split_and!; [done..|]. exists id.
    split; [done|]. by do 3 apply ends_with_app. }
  destruct (attachments_have_unresolved_subscription att'); [by apply Hnext|].
  apply runs_or_stop in Hr as [[_ [=]]|(p' & Hp%vpc_lifecycle_res_Ok & Hr)].
  destruct (attach_is_noop (atp_action p')) eqn:Hn; [|by apply Hnext].
  apply runs_return in Hr as [-> [= -> -> ->]]. rewrite app_nil_r.
  split_and!; [done|by destruct (atp_action p')|]. exists vpc_id. split; [done|].
  apply ends_with_app, ends_with_self; [quiet|done].
Qed.

(** The VPC of an attachment plan is the one owned VPC. *)
Lemma attach_exact_vpc d o att target p id vpc_id :
  plan_attachment d o att target = Ok p → atp_action p = AttachInstance id →
  exact_vpc_id d o = Ok vpc_id → id = vpc_id.
Proof using Type.
  unfold plan_attachment, exact_vpc_id, plan_vpc_apply. intros Hp Hact Hid.
  inv_ok Hp. subst. rewrite Hm, Hm1 in Hid. cbn [ok_or mbind result_bind fail_if] in Hid.
  rewrite Hm3, Hm4 in Hid. injection Hid as <-.
  destruct (List.filter (attached_to _) _) as [|? [|? ?]]; inv_ok Hp; simpl in Hact; congruence.
Qed.

(** Whatever the provider answers, a run of [apply_vpc_attachment_once] sends at most
    one mutation: it attaches the one instance whose tags carry the machine's identity
    to the one owned VPC, directly after the observation its plan was made from, under
    the digest the operator authorized for exactly this target, observation and plan.
    Success is reported only from a final listing of attachments whose plan is NOOP.
    *)
Theorem vpc_attach_once d digest policy tr r :
  runs (apply_vpc_attachment_once d digest policy) tr r →
  (mutations tr = [] ∨
   ∃ target o att p a vpc_id,
     mutates_once (plan_vpc_attachment d) tr (target, o, att, p)
       (Attached (ti_provider_id target) vpc_id) ∧
     (∃ instances, select_target d instances = Ok (Some target)) ∧
     exact_vpc_id d o = Ok vpc_id ∧
     plan_attachment d o att (ti_provider_id target) = Ok p ∧
     authorize_vpc_attachment d target o att p = Ok a ∧ authority_digest (authority a) = digest) ∧
  ∀ report, r = Ok report → ∃ vpc_id,
    exact_vpc_id d (aar_observation report) = Ok vpc_id ∧
    run_ends (observe_attachments vpc_id (Some (aar_target report))) tr (aar_attachments report) ∧
    plan_attachment d (aar_observation report) (aar_attachments report)
      (ti_provider_id (aar_target report)) = Ok (aar_next_plan report) ∧
    atp_action (aar_next_plan report) = AttachNoop.
Proof using Type.
  unfold apply_vpc_attachment_once.
  intros [[-> ?]|([] & _ & Hr)]%runs_or_stop; [stopped|].
  apply runs_quiet_bind in Hr as [[-> ?]|([[[target o] att] p] & t1 & t2 & -> & Hq & Hp & Hr)];
    [stopped| |quiet].
  apply runs_or_stop in Hr as [[-> ?]|(a & Ha%vpc_authority_res_Ok & Hr)]; [stopped|].
  apply runs_or_stop in Hr as [[-> ?]|([] & Hv%vpc_authority_res_Ok & Hr)]; [stopped|].
  apply verify_exact_authority_Ok in Hv.
  destruct (plan_vpc_attachment_runs _ _ _ _ _ _ Hp)
    as (instances & vpc_id & Hsel & Hid & Hpl & u1 & u2 & -> & Ho & Hatt).
  destruct (atp_action p) as [|id] eqn:Hact.
  - apply runs_return in Hr as [-> ->]. rewrite app_nil_r. split; [by left|].
    intros report [= <-]. exists vpc_id. split_and!; [done| |done..].
    apply (ends_with_app _ (_ :: u1)), ends_with_self; [quiet|done].
  - apply runs_mutate in Hr as (answer & t & -> & Ht & Hr); [|unfold wait_for_attachment_noop; quiet].
    assert (id = vpc_id) as -> by (by eapply attach_exact_vpc).
    split.
    + right. exists target, o, att, p, a, vpc_id. split_and!; [|by eauto|done..].
      eexists _, _, _, answer, t. by split_and!.
    + intros report ->. destruct Hr as [?|Hr]; [done|].
      apply runs_fbind in Hr as [(e & _ & [=])|([[o' att'] p'] & t3 & t4 & -> & Hw & [-> [= ->]]%runs_return)].
      unfold wait_for_attachment_noop in Hw.
      apply wait_attachment_runs in Hw as (Hp' & Hn & vpc_id' & Hid' & He). rewrite app_nil_r.
      exists vpc_id'. split_and!; [done| |done..]. simpl. apply (ends_with_app _ (_ :: _)).
      by apply (ends_with_app _ [_]).
Qed.

Lemma plan_vpc_cleanup_quiet d : quiet (plan_vpc_cleanup d).
Proof using Type. unfold plan_vpc_cleanup. quiet. Qed.
Lemma cleanup_attempt_quiet d b : quiet (cleanup_attempt d b).
Proof using Type. unfold cleanup_attempt. quiet. Qed.
#[local] Hint Resolve plan_vpc_cleanup_quiet cleanup_attempt_quiet : quiet.
Lemma plan_with_target_quiet d : quiet (plan_with_target d).
Proof using Type. unfold plan_with_target. quiet. Qed.
Lemma wait_cleanup_quiet d b delay n : quiet (wait_cleanup d b delay n).
Proof using Type. induction n; cbn [wait_cleanup]; quiet. Qed.
#[local] Hint Resolve plan_with_target_quiet wait_cleanup_quiet : quiet.

Lemma wait_cleanup_runs d b delay n tr report :
  runs (wait_cleanup d b delay n) tr (Ok report) →
  run_ends (cleanup_attempt d b) tr (Some report).
Proof using Type.
  revert tr. induction n as [|n IH]; intros tr; cbn [wait_cleanup]; [by intros [_ [=]]%runs_return|].
  intros [(e & _ & [=])|([found|] & t1 & t2 & -> & Ho & Hr)]%runs_fbind.
  - apply runs_return in Hr as [-> [= ->]]. rewrite app_nil_r. apply ends_with_self; [quiet|done].
  - apply runs_fbind in Hr as [(e & _ & [=])|(u & t3 & t4 & -> & _ & Hr)].
    apply IH in Hr. by do 2 apply ends_with_app.
Qed.

(** What an attempt that ends the wait has seen *)
Lemma cleanup_attempt_runs d b tr o att p :
  runs (cleanup_attempt d b) tr (Ok (Some (o, att, p))) →
  ∃ target, plan_cleanup d o att target = Ok p ∧
    (if b then is_delete_vpc (cleanup_action p) else cleanup_is_noop (cleanup_action p)) = true.
Proof using Type.
  intros [(e & _ & [=])|(o' & t1 & t2 & -> & _ & Hr)]%runs_fbind.
  apply runs_or_stop in Hr as [[_ [=]]|(vp & _ & Hr)].
  apply runs_fbind in Hr as [(e & _ & [=])|([[att' target]|] & t3 & t4 & -> & _ & Hr)];
    [|by apply runs_return in Hr as [_ [=]]].
  apply runs_or_stop in Hr as [[_ [=]]|(p' & Hp%vpc_lifecycle_res_Ok & Hr)].
  apply runs_return in Hr as [-> E].
  destruct (if b then _ else _) eqn:Hc in E; [|done]. injection E as -> -> ->. eauto.
Qed.

Definition cleanup_mutation (a : CleanupAction) : option mutation :=
  match a with
  | CleanupNoop => None
  | DetachInstance vpc_id instance_id => Some (Detached instance_id vpc_id)
  | DeleteVpc vpc_id => Some (VpcDestroyed vpc_id)
  end.
Definition expects_delete (a : CleanupAction) : bool :=
  match a with DetachInstance _ _ => true | _ => false end.

(** The operator authorized this plan twice: by the authority of the plan, and by the
    digest of what it destroys. *)
Definition cleanup_granted (d : DesiredVpcState) (expected digest : string) (o : VpcObservation)
    (att : VpcAttachmentObservation) (p : CleanupPlan) (target : option TargetInstance) : Prop :=
  plan_cleanup d o att (target_id target) = Ok p ∧ destructive_digest p = Some expected ∧
  ∃ a, authorize_vpc_cleanup d o att p = Ok a ∧ authority_digest (authority a) = digest.

Lemma vpc_verify_cleanup_digest_Ok d o att target expected p :
  verify_cleanup_digest d o att target expected = Ok p →
  plan_cleanup d o att target = Ok p ∧ destructive_digest p = Some expected.
Proof using Type.
  unfold verify_cleanup_digest. intros E. inv_ok E.
  destruct (destructive_digest x0) as [actual|] eqn:Ed; [|done].
  inv_ok E. reflect_in Hm1. by subst.
Qed.

Lemma delete_and_wait_runs d policy performed c b before tr r {A} (p : vpc A) (a : A) m :
  call_mutation c = Some m → runs p before (Ok a) → mutations before = [] →
  runs (delete_and_wait d policy performed c b) tr r →
  mutates_once p (before ++ tr) a m ∧
  ∀ report, r = Ok report →
    car_performed report = performed ∧
    run_ends (cleanup_attempt d b) (before ++ tr)
      (Some (car_observation report, car_attachments report, car_next_plan report)).
Proof using Type.
  intros Hm Hp Hq Hr. unfold delete_and_wait in Hr.
  apply runs_mutate in Hr as (answer & t & -> & Ht & Hr); [|unfold wait_for_cleanup_progress; quiet].
  split; [eexists before, _, c, answer, t; by split_and!|].
  intros report ->. destruct Hr as [?|Hr]; [done|].
  apply runs_fbind in Hr as [(e & _ & [=])|([[o' att'] p'] & t3 & t4 & -> & Hw & [-> [= ->]]%runs_return)].
  unfold wait_for_cleanup_progress in Hw. apply wait_cleanup_runs in Hw. rewrite app_nil_r.
  split; [done|]. apply ends_with_app. by apply (ends_with_app _ [_]).
Qed.

(** Whatever the provider answers, a run of [cleanup_vpc_once] makes at most one
    deletion: the detachment or the destruction of the plan made directly before it,
    with the target resolved once more, under both digests the operator authorized.
    Success is reported only from a final observation in which the VPC has no
    attachment left after a detachment, or is gone after a destruction. *)
Theorem vpc_cleanup_once d expected digest policy tr r :
  runs (cleanup_vpc_once d expected digest policy) tr r →
  (mutations tr = [] ∨
   ∃ o att p target m, mutates_once (plan_with_target d) tr (o, att, p, target) m ∧
     cleanup_mutation (cleanup_action p) = Some m ∧
     cleanup_granted d expected digest o att p target) ∧
  ∀ report, r = Ok report →
    run_ends (cleanup_attempt d (expects_delete (car_performed report))) tr
      (Some (car_observation report, car_attachments report, car_next_plan report)) ∧
    (if expects_delete (car_performed report) then obs_attachments (car_attachments report) = []
     else List.filter (owned d) (obs_vpcs (car_observation report)) = []).
Proof using Type.
  unfold cleanup_vpc_once.
  intros [[-> ?]|([] & _ & Hr)]%runs_or_stop; [stopped|].
  apply runs_quiet_bind in Hr as [[-> ?]|([[[o att] p] target] & t1 & t2 & -> & Hq & Hp & Hr)];
    [stopped| |quiet].
  apply runs_or_stop in Hr as [[-> ?]|(a & Ha%vpc_authority_res_Ok & Hr)]; [stopped|].
  apply runs_or_stop in Hr as [[-> ?]|([] & Hv%vpc_authority_res_Ok & Hr)]; [stopped|].
  apply runs_or_stop in Hr as [[-> ?]|(p' & Hd%vpc_lifecycle_res_Ok & Hr)]; [stopped|].
  apply runs_or_stop in Hr as [[-> ?]|([] & He & Hr)]; [stopped|].
  apply fail_if_Ok, negb_false, bool_decide_eq_true in He as <-.
  apply verify_exact_authority_Ok in Hv. apply vpc_verify_cleanup_digest_Ok in Hd as [Hpl Hd].
  assert (Hg : cleanup_granted d expected digest o att p target) by (split_and!; eauto).
  assert (Hend : ∀ b tr (report : CleanupApplyReport), run_ends (cleanup_attempt d b) tr
      (Some (car_observation report, car_attachments report, car_next_plan report)) →
    if b then obs_attachments (car_attachments report) = []
    else List.filter (owned d) (obs_vpcs (car_observation report)) = []).
  { clear. intros b tr report (pre & t & -> & _ & Hr).
    apply cleanup_attempt_runs in Hr as (target & Hp & Hc).
    apply plan_cleanup_Ok in Hp as [_ [[Hn Hf]|(v & cidr & dg & Hf & _ & _ & Hs & _)]].
    - rewrite Hn in Hc. by destruct b.
    - apply cleanup_step_Ok in Hs as [[Ha Ho]|(i & x & Ha & _)]; rewrite Ha in Hc; by destruct b. }
  destruct (cleanup_action p) as [|vpc_id instance_id|vpc_id] eqn:Hact.
  1: apply runs_return in Hr as [-> ->]; rewrite app_nil_r; split; [by left|done].
  all: eapply delete_and_wait_runs in Hr as [Hone Hrep]; [|done..]; split;
    [right; eexists o, att, p, target, _; split_and!; [exact Hone|by rewrite Hact|done]
    |intros report E; destruct (Hrep report E) as [-> Hx]; split; [exact Hx|by apply (Hend _ _ _ Hx)]].
Qed.
End RunFacts.

(** ** Readiness and identity *)

Lemma elem_candidates i l k :
  k ∈ candidates i l ↔ ∃ a, l !! k = Some a ∧ candidate i a = true.
Proof.
  unfold candidates. rewrite list_elem_of_In, in_map_iff. split.
  - intros ([k' a] & <- & Hin). apply filter_In in Hin as [Hin Hc].
    apply list_elem_of_In, elem_of_lookup_imap in Hin as (n & x & [= <- <-] & Hl). eauto.
  - intros (a & Hl & Hc). exists (k, a). split; [done|]. apply filter_In. split; [|done].
    apply list_elem_of_In, elem_of_lookup_imap. eauto.
Qed.

Lemma alter_lookup_Some {A} (f : A → A) k (l : list A) a :
  l !! k = Some a → alter f k l = <[k := f a]> l.
Proof.
  intros Hl. apply list_eq. intros j. destruct (decide (j = k)) as [->|].
  - rewrite list_lookup_alter_eq, Hl, list_lookup_insert_eq; [done|]. by eapply lookup_lt_Some.
  - by rewrite list_lookup_alter_ne, list_lookup_insert_ne.
Qed.

(** An attachment the provider lists without its subscription is given to the target
    only when it is the single unlinked one that agrees with the target's own entry
    for this VPC: address or MAC agree and neither contradicts. Every other
    attachment, and every linked one, is left as listed. *)
Theorem attachment_identity_exact raw vpc_id target entries raw' :
  resolve_target_attachment_identity raw vpc_id target entries = Ok raw' →
  raw' = raw ∨
  ∃ k a i, raw !! k = Some a ∧ va_subscription_id a = None ∧
    List.filter (λ v, str_eqb (iv_id v) vpc_id) entries = [i] ∧
    attachment_matches_instance_vpc a i = true ∧
    (∀ k' a', raw !! k' = Some a' → va_subscription_id a' = None →
       attachment_matches_instance_vpc a' i = true → k' = k) ∧
    raw' = <[k := link target i a]> raw.
Proof.
  unfold resolve_target_attachment_identity.
  destruct (List.filter _ entries) as [|i [|? ?]] eqn:Hf; [by intros [= ->]; left| |done].
  destruct (candidates i raw) as [|k [|? ?]] eqn:Hc; [by intros [= ->]; left| |done].
  intros [= <-]. right. assert (Hk : k ∈ candidates i raw) by (rewrite Hc; by left).
  apply elem_candidates in Hk as (a & Hl & Hca). unfold candidate in Hca.
  apply andb_true in Hca as [Hu Hm]. exists k, a, i. split_and!; [done| |done|done| |].
  - unfold unlinked in Hu. by destruct (va_subscription_id a).
  - intros k' a' Hl' Hu' Hm'. assert (Hin : k' ∈ candidates i raw).
    { apply elem_candidates. exists a'. split; [done|]. unfold candidate, unlinked. by rewrite Hu', Hm'. }
    rewrite Hc in Hin. by apply list_elem_of_singleton in Hin.
  - by apply alter_lookup_Some.
Qed.

(** The instances of a provider that carry the exact identity *)
Definition exact_instance (d : DesiredVpcState) (x : VultrInstance) : bool :=
  match decode_provider_tags (vi_tags x) with Ok t => exact_owner d t | Err _ => false end.
Definition target_of (x : VultrInstance) : TargetInstance :=
  {| ti_provider_id := vi_id x; ti_region := vi_region x; ti_main_ip := vi_main_ip x |}.

Lemma consider_fold d instances matches matches' :
  try_fold (consider_instance d) matches instances = Ok matches' →
  matches' = matches ++ map target_of (List.filter (exact_instance d) instances) ∧
  Forall (λ x, exact_instance d x = true → vi_region x = vpc_region d) instances.
Proof.
  revert matches. induction instances as [|x l IH]; intros matches; simpl.
  { intros [= ->]. by rewrite app_nil_r. }
  intros (m & Hx & Hl)%bind_Ok. apply IH in Hl as [-> Hall]. unfold consider_instance in Hx.
  inv_ok Hx. assert (Hex : exact_instance d x = exact_owner d x0) by (unfold exact_instance; by rewrite Hm).
  rewrite Hex.
  destruct (exact_owner d x0) eqn:Ho; inv_ok Hx; simpl.
  - reflect_in Hm0. split; [by rewrite <- app_assoc|]. constructor; [done|exact Hall].
  - split; [done|]. constructor; [|exact Hall]. by rewrite Hex.
Qed.

Lemma select_target_Some d instances target :
  select_target d instances = Ok (Some target) →
  ∃ x, List.filter (exact_instance d) instances = [x] ∧ target = target_of x ∧
    vi_region x = vpc_region d.
Proof.
  unfold select_target. intros (m & Hf & Hs)%bind_Ok. apply consider_fold in Hf as [-> Hall].
  simpl in Hs. destruct (List.filter (exact_instance d) instances) as [|x [|y l]] eqn:Hx.
  - done.
  - simpl in Hs. injection Hs as <-. exists x. split_and!; [done..|].
    apply filter_single in Hx as [Hin Hex]. rewrite Forall_forall in Hall. by apply Hall.
  - exfalso. pose proof (Permutation_length (sort_by_perm target_leb (map target_of (x :: y :: l)))) as Hlen.
    destruct (sort_by target_leb (map target_of (x :: y :: l))) as [|? [|? ?]]; simpl in Hlen; done.
Qed.

(** A readiness report is backed by what the provider listed in this run, without any
    mutation: exactly one instance carries the machine's identity, in the desired
    region; the one owned VPC listed with it has exactly one attachment, this
    instance's; and the reported address lies in the block the reported CIDR denotes.
    *)
Theorem vpc_ready_backed d tr report :
  runs (verify_vpc_ready d) tr (Ok report) →
  mutations tr = [] ∧
  ∃ instances x o att v subnet ip,
    List.filter (exact_instance d) instances = [x] ∧ vi_region x = vpc_region d ∧
    vrr_target report = target_of x ∧
    List.filter (owned d) (obs_vpcs o) = [v] ∧ ov_region v = vpc_region d ∧
    (∃ t1 t2 t3, tr = Exchange ListInstances (Ok instances) :: t1 ++ t2 ++ t3 ∧
       runs (observe_vpc d) t1 (Ok o) ∧
       runs (observe_attachments (ov_provider_id v) (Some (target_of x))) t2 (Ok att)) ∧
    (∃ a, obs_attachments att = [a] ∧ at_subscription_id a = Some (vi_id x) ∧
       at_private_ipv4 a = vrr_private_ipv4 report) ∧
    vrr_cidr report = ov_v4_subnet v +:+ "/" +:+ dec (ov_v4_subnet_mask v) ∧
    parse_ipv4 (ov_v4_subnet v) = Some subnet ∧ parse_ipv4 (vrr_private_ipv4 report) = Some ip ∧
    ipv4_to_u32 subnet ≤ ipv4_to_u32 ip ≤ ipv4_to_u32 subnet + (2 ^ host_width v - 1).
Proof.
  intros Hr. split.
  { eapply within_runs, Hr. unfold verify_vpc_ready. quiet. }
  unfold verify_vpc_ready in Hr.
  apply runs_fbind in Hr as [(e & _ & [=])|([[[target o] att] p] & t1 & t2 & -> & Hp & Hr)].
  apply runs_or_stop in Hr as [[_ [=]]|([] & _ & Hr)].
  apply runs_fbind in Hr as [(e & _ & [=])|([o2 vp] & t3 & t4 & -> & _ & Hr)].
  apply runs_or_stop in Hr as [[_ [=]]|(provider_id & _ & Hr)].
  apply runs_or_stop in Hr as [[_ [=]]|(text & Ht%ok_or_Ok & [-> [= ->]]%runs_return)].
  apply plan_vpc_attachment_runs in Hp
    as (instances & vpc_id & Hsel & Hid & Hpl & u1 & u2 & -> & Ho & Hatt).
  apply select_target_Some in Hsel as (x & Hx & -> & Hreg).
  destruct (vpc_attachment_in_block _ _ _ _ _ _ Hpl Ht)
    as (v & subnet & ip & Hv & Hvr & Hs & Hip & Hcidr & _ & _ & Hlo & Hhi & _ & Ha).
  assert (vpc_id = ov_provider_id v) as ->.
  { unfold exact_vpc_id, plan_vpc_apply in Hid. inv_ok Hid. apply map_err_Ok in Hm. inv_ok Hm.
    apply select_exact_vpc_Some in Hv. rewrite Hv in Hm1. injection Hm1 as <-. inv_ok Hm.
    simpl in Hid. by injection Hid. }
  exists instances, x, o, att, v, subnet, ip. split_and!; [done..| |done|done|done|done|lia|lia].
  exists u1, u2, (t3 ++ []). split_and!; [|done..]. simpl. by rewrite <- app_assoc.
Qed.
