(* ===== verification/VpcProvider.v ===== *)
(** * A VPC provider

    A provider that performs what it is asked, may answer any mutation with an
    uncertain error, and may list attachments without their subscription. Driven by an
    operator that authorizes each plan it is shown, the service of [VpcService] raises
    the VPC from nothing to READY and tears it down to what was there before
    ([vpc_service_cycle]). *)

From S2P Require Import Prelude RustStd RustNet HostTypes Concrete Json PlanAuthority.
From S2P Require Import LifecycleCommon VultrLifecycle VultrService Service.
From S2P Require Import VpcLifecycle VpcService.

Record cloud : Type := {
  c_vpcs : list VultrVpc;
  (** attachments with the VPC they belong to, subscription included *)
  c_attached : list (string * VultrVpcAttachment)
}.

Definition subscribed (instance_id : string) (e : string * VultrVpcAttachment) : bool :=
  bool_decide (va_subscription_id e.2 = Some instance_id).
Definition in_vpc (vpc_id : string) (e : string * VultrVpcAttachment) : bool :=
  str_eqb e.1 vpc_id.
Definition entry_of (e : string * VultrVpcAttachment) : VultrInstanceVpc := {|
  iv_id := e.1; iv_mac_address := va_mac_address e.2; iv_private_ipv4 := va_private_ipv4 e.2 |}.

Section Provider.
Context (instances : list VultrInstance).
(** The VPC and the attachment the provider makes, and what it hides *)
Context (new_vpc : cloud → string → string → VultrVpc)
  (new_attachment : cloud → string → string → VultrVpcAttachment)
  (hidden uncertain : cloud → bool).

Definition reply {A} (s : cloud) (a : A) : pres A :=
  if uncertain s then Err {| ve_operation := "mutation"; ve_kind := MutationUncertain;
    ve_status := None; ve_retry_after_secs := None; ve_detail := "connection reset" |} else Ok a.
Definition listed (s : cloud) (a : VultrVpcAttachment) : VultrVpcAttachment := {|
  va_id := va_id a; va_mac_address := va_mac_address a; va_private_ipv4 := va_private_ipv4 a;
  va_subscription_id := if hidden s then None else va_subscription_id a |}.

Definition add_vpc (region description : string) (s : cloud) : cloud := {|
  c_vpcs := c_vpcs s ++ [new_vpc s region description]; c_attached := c_attached s |}.
Definition attach (instance_id vpc_id : string) (s : cloud) : cloud := {|
  c_vpcs := c_vpcs s;
  c_attached := c_attached s ++ [(vpc_id, new_attachment s instance_id vpc_id)] |}.
Definition detach (instance_id vpc_id : string) (s : cloud) : cloud := {|
  c_vpcs := c_vpcs s;
  c_attached := List.filter (λ e, negb (in_vpc vpc_id e && subscribed instance_id e)) (c_attached s) |}.
Definition destroy (vpc_id : string) (s : cloud) : cloud := {|
  c_vpcs := List.filter (λ v, negb (str_eqb (vv_id v) vpc_id)) (c_vpcs s);
  c_attached := c_attached s |}.

Definition answer (R : Type) (c : vpc_call R) (s : cloud) : R * cloud :=
  match c in vpc_call R return R * cloud with
  | ListVpcs => (Ok (c_vpcs s), s)
  | CreateVpcCall region description =>
      (reply s (new_vpc s region description), add_vpc region description s)
  | DestroyVpcCall vpc_id => (reply s tt, destroy vpc_id s)
  | ListVpcAttachments vpc_id =>
      (Ok (map (λ e, listed s e.2) (List.filter (in_vpc vpc_id) (c_attached s))), s)
  | ListInstanceVpcs instance_id =>
      (Ok (map entry_of (List.filter (subscribed instance_id) (c_attached s))), s)
  | AttachCall instance_id vpc_id => (reply s tt, attach instance_id vpc_id s)
  | DetachCall instance_id vpc_id => (reply s tt, detach instance_id vpc_id s)
  | ListInstances => (Ok instances, s)
  | Sleep _ => (tt, s)
  end.

Context (d : DesiredVpcState) (policy : VpcExecutionPolicy) (target : TargetInstance).
Context (Hvalid : validate d = Ok tt) (Hattempts : (0 < reobserve_attempts policy)%nat).
Context (Htarget : select_target d instances = Ok (Some target)).
Context (Hname : str_empty (trim (ti_provider_id target)) = false).

(** What is known of the objects the provider makes: the VPC is new, private and
    canonical, and an attachment of an instance has an address in its VPC. *)
Context (start : cloud).
Context (made : VultrVpc) (Hmade : made = new_vpc start (vpc_region d) (ownership_description d)).
Context (cidr : string) (Hcidr : observed_cidr (normalize_vpc made) = Ok cidr).
Context (Hregion : vv_region made = vpc_region d)
  (Hdescription : vv_description made = ownership_description d).
Context (Hno_owned : List.filter (λ v, str_eqb (vv_description v) (ownership_description d))
    (c_vpcs start) = []).
Context (Hfresh : Forall (λ v, vv_id v ≠ vv_id made) (c_vpcs start)).
Context (Hunused : Forall (λ e, e.1 ≠ vv_id made) (c_attached start)).
Definition with_vpc : cloud := add_vpc (vpc_region d) (ownership_description d) start.
Context (linkage : VultrVpcAttachment)
  (Hlinkage : linkage = new_attachment with_vpc (ti_provider_id target) (vv_id made)).
Context (Hsubscribed : va_subscription_id linkage = Some (ti_provider_id target)).
Context (Haddress : validate_private_ip_in_cidr (va_private_ipv4 linkage) (normalize_vpc made) = Ok tt).
Definition with_attachment : cloud := attach (ti_provider_id target) (vv_id made) with_vpc.

(** ** Observations in the three states *)

Lemma vpc_exec_observe s :
  exec answer (observe_vpc d) s = (Ok (vpc_observation_of d (c_vpcs s)), s).
Proof. unfold observe_vpc. by rewrite Hvalid. Qed.
Lemma exec_resolve s : exec answer (resolve_exact_target_instance d) s = (Ok (Some target), s).
Proof. unfold resolve_exact_target_instance, call. simpl. by rewrite Htarget. Qed.

Definition absent : VpcObservation := {| obs_vpcs := [] |}.
Definition present : VpcObservation := {| obs_vpcs := [normalize_vpc made] |}.
Lemma observation_start : vpc_observation_of d (c_vpcs start) = absent.
Proof. unfold vpc_observation_of. by rewrite Hno_owned. Qed.
Lemma observation_made s :
  c_vpcs s = c_vpcs start ++ [made] → vpc_observation_of d (c_vpcs s) = present.
Proof.
  intros ->. unfold vpc_observation_of. rewrite List.filter_app, Hno_owned. simpl.
  by rewrite (proj2 (str_eqb_true _ _) Hdescription).
Qed.

Lemma plan_absent :
  plan_vpc_apply d absent = Ok {| vap_action := CreateVpc; vap_provider_id := None; vap_cidr := None |}.
Proof. unfold plan_vpc_apply. by rewrite Hvalid. Qed.
Lemma owned_made : List.filter (owned d) (obs_vpcs present) = [normalize_vpc made].
Proof. simpl. unfold owned. simpl. by rewrite (proj2 (str_eqb_true _ _) Hdescription). Qed.
Lemma plan_present :
  plan_vpc_apply d present = Ok {| vap_action := VpcNoop; vap_provider_id := Some (vv_id made);
                                   vap_cidr := Some cidr |}.
Proof.
  unfold plan_vpc_apply. rewrite Hvalid. simpl.
  rewrite (proj2 (select_exact_vpc_Some d present _) owned_made). simpl.
  rewrite (proj2 (str_eqb_true _ _) Hregion). simpl. by rewrite Hcidr.
Qed.
Lemma vpc_id_present : exact_vpc_id d present = Ok (vv_id made).
Proof. unfold exact_vpc_id. by rewrite plan_present. Qed.

Lemma attached_start : List.filter (in_vpc (vv_id made)) (c_attached start) = [].
Proof.
  apply filter_none. intros e He. rewrite Forall_forall in Hunused. by apply str_eqb_false, Hunused.
Qed.
Lemma exec_no_attachments s tgt :
  c_attached s = c_attached start →
  exec answer (observe_attachments (vv_id made) tgt) s = (Ok no_attachments, s).
Proof.
  intros Hs. unfold observe_attachments, call. simpl. rewrite Hs, attached_start. by destruct tgt.
Qed.

Definition one_attachment : VpcAttachmentObservation :=
  {| obs_attachments := [normalize_attachment linkage] |}.

Lemma address_nonempty : str_empty (va_private_ipv4 linkage) = false.
Proof.
  destruct (str_empty (va_private_ipv4 linkage)) eqn:E; [|done]. apply str_eqb_true in E.
  pose proof Haddress as Ha. rewrite E in Ha. discriminate Ha.
Qed.
(** The attachment listed without its subscription is recognized by its address. *)
Lemma matches_itself x :
  va_private_ipv4 x = va_private_ipv4 linkage → va_mac_address x = va_mac_address linkage →
  attachment_matches_instance_vpc x (entry_of (vv_id made, linkage)) = true.
Proof.
  intros Hip Hmac. unfold attachment_matches_instance_vpc, entry_of, eq_ignore_ascii_case.
  cbn [iv_private_ipv4 iv_mac_address fst snd]. rewrite Hip, Hmac, address_nonempty.
  rewrite !(proj2 (str_eqb_true _ _) eq_refl). by destruct (str_empty (va_mac_address linkage)).
Qed.
Lemma entry_of_target l :
  Forall (λ e, e.1 ≠ vv_id made) l →
  List.filter (λ v, str_eqb (iv_id v) (vv_id made)) (map entry_of l) = [].
Proof.
  induction 1 as [|e l He _ IH]; simpl; [done|]. by rewrite (proj2 (str_eqb_false _ _) He).
Qed.
Lemma exec_one_attachment s :
  c_attached s = c_attached start ++ [(vv_id made, linkage)] →
  exec answer (observe_attachments (vv_id made) (Some target)) s = (Ok one_attachment, s).
Proof.
  intros Hs. unfold observe_attachments, call. simpl. rewrite Hs, List.filter_app, attached_start. simpl.
  assert (Hin : in_vpc (vv_id made) (vv_id made, linkage) = true) by (by apply str_eqb_true).
  rewrite Hin. cbn [map existsb snd]. rewrite orb_false_r.
  destruct (hidden s) eqn:Hh; cycle 1.
  { assert (listed s linkage = linkage) as ->.
    { unfold listed. rewrite Hh. by destruct linkage. }
    unfold unlinked. by rewrite Hsubscribed. }
  assert (Hun : unlinked (listed s linkage) = true) by (unfold unlinked, listed; simpl; by rewrite Hh).
  rewrite Hun. simpl. rewrite Hs. unfold resolve_target_attachment_identity.
  rewrite List.filter_app, map_app, List.filter_app, entry_of_target; cycle 1.
  { apply Forall_forall. intros e He. rewrite Forall_forall in Hunused. apply Hunused.
    apply list_elem_of_In in He. apply filter_In in He as [He _]. by apply list_elem_of_In. }
  cbn [List.filter]. unfold subscribed. cbn [snd]. rewrite bool_decide_true by done. cbn [map List.filter app].
  rewrite (proj2 (str_eqb_true (iv_id (entry_of (vv_id made, linkage))) (vv_id made)) eq_refl).
  unfold candidates. cbn [imap List.filter snd]. unfold candidate. rewrite Hun, matches_itself by done.
  simpl. unfold attachment_observation_of, normalize_attachment. simpl.
  rewrite address_nonempty. by rewrite <- Hsubscribed.
Qed.

(** ** Plans in the three states *)

Lemma target_named : validate d = Ok tt ∧ List.filter (attached_to (ti_provider_id target))
    (obs_attachments one_attachment) = [normalize_attachment linkage].
Proof.
  split; [done|]. simpl. unfold attached_to. simpl. by rewrite bool_decide_true.
Qed.
Lemma accepted attachments :
  attachments = no_attachments ∨ attachments = one_attachment →
  reject_foreign_attachments attachments (ti_provider_id target) = Ok tt.
Proof.
  intros [->| ->]; [done|]. unfold reject_foreign_attachments. simpl. unfold unresolved. simpl.
  rewrite Hsubscribed. simpl. unfold attached_to. simpl. by rewrite bool_decide_true.
Qed.

Definition attach_plan : AttachmentPlan := {|
  atp_action := AttachInstance (vv_id made); atp_cidr := cidr; atp_private_ipv4 := None |}.
Definition attached_plan : AttachmentPlan := {|
  atp_action := AttachNoop; atp_cidr := cidr; atp_private_ipv4 := Some (va_private_ipv4 linkage) |}.
Ltac owned_vpc :=
  rewrite Hvalid; cbn [mbind result_bind];
  rewrite (proj2 (select_exact_vpc_Some d present _) owned_made);
  cbn [mbind result_bind ok_or ov_region normalize_vpc];
  rewrite (proj2 (str_eqb_true _ _) Hregion); cbn [negb fail_if mbind result_bind];
  rewrite Hcidr; cbn [mbind result_bind].
Lemma plan_to_attach : plan_attachment d present no_attachments (ti_provider_id target) = Ok attach_plan.
Proof. unfold plan_attachment. rewrite Hname. cbn [fail_if]. by owned_vpc. Qed.
Lemma plan_attached : plan_attachment d present one_attachment (ti_provider_id target) = Ok attached_plan.
Proof.
  unfold plan_attachment. rewrite Hname. cbn [fail_if]. owned_vpc.
  rewrite (accepted one_attachment) by (by right). cbn [mbind result_bind].
  rewrite (proj2 target_named). cbn [at_private_ipv4 normalize_attachment]. by rewrite Haddress.
Qed.

Context `{Sha256} `{SerdeJson} `{!JsonValueLaws}.

Definition cleanup_plan (a : CleanupAction) (digest : string) : CleanupPlan :=
  {| cleanup_action := a; destructive_digest := Some digest |}.
Definition to_detach : CleanupAction := DetachInstance (vv_id made) (ti_provider_id target).
Definition to_delete : CleanupAction := DeleteVpc (vv_id made).

Lemma digest_total o att a : ∃ digest, cleanup_digest d o att a = Ok digest ∧ lower_hex64 digest = true.
Proof.
  destruct (digest_of_value_total (cleanup_material d o att a)) as [digest Hd].
  exists digest. split; [done|]. by eapply digest_hex.
Qed.
Lemma cleanup_step_one :
  cleanup_step (normalize_vpc made) one_attachment (Some (ti_provider_id target)) = Ok to_detach.
Proof.
  unfold cleanup_step. cbn [is_empty obs_attachments one_attachment ok_or mbind result_bind].
  rewrite (accepted one_attachment) by (by right). cbn [mbind result_bind].
  change [normalize_attachment linkage] with (obs_attachments one_attachment).
  rewrite (proj2 target_named). cbn [at_private_ipv4 normalize_attachment]. by rewrite Haddress.
Qed.
Lemma plan_to_detach : ∃ digest, lower_hex64 digest = true ∧
  plan_cleanup d present one_attachment (Some (ti_provider_id target)) = Ok (cleanup_plan to_detach digest).
Proof.
  destruct (digest_total present one_attachment to_detach) as (digest & Hd & Hh).
  exists digest. split; [done|]. unfold plan_cleanup. owned_vpc.
  rewrite cleanup_step_one. cbn [mbind result_bind]. by rewrite Hd.
Qed.
Lemma plan_to_delete : ∃ digest, lower_hex64 digest = true ∧
  ∀ tgt, plan_cleanup d present no_attachments tgt = Ok (cleanup_plan to_delete digest).
Proof.
  destruct (digest_total present no_attachments to_delete) as (digest & Hd & Hh).
  exists digest. split; [done|]. intros tgt. unfold plan_cleanup. owned_vpc.
  change (cleanup_step (normalize_vpc made) no_attachments tgt)
    with (Ok to_delete : lres CleanupAction).
  cbn [mbind result_bind]. by rewrite Hd.
Qed.
Lemma plan_gone tgt att :
  plan_cleanup d absent att tgt = Ok {| cleanup_action := CleanupNoop; destructive_digest := None |}.
Proof. unfold plan_cleanup. by rewrite Hvalid. Qed.

(** ** The operator *)

Definition raise : vpc VpcReadyReport :=
  '(o, p) ← plan_vpc d;
  a ← pure_step (authority_res (authorize_vpc_apply d o p));
  apply_vpc_once d (authority_digest (authority a)) policy ;;
  '(t, o, att, p) ← plan_vpc_attachment d;
  a ← pure_step (authority_res (authorize_vpc_attachment d t o att p));
  apply_vpc_attachment_once d (authority_digest (authority a)) policy ;;
  verify_vpc_ready d.
(** One authorized step of the teardown *)
Definition lower : vpc (option CleanupApplyReport) :=
  '(o, att, p) ← plan_vpc_cleanup d;
  match destructive_digest p with
  | None => mret None
  | Some digest =>
      a ← pure_step (authority_res (authorize_vpc_cleanup d o att p));
      report ← cleanup_vpc_once d digest (authority_digest (authority a)) policy;
      mret (Some report)
  end.

Lemma policy_ok : validate_policy policy = Ok tt.
Proof. unfold validate_policy. by rewrite (proj2 (Nat.eqb_neq _ _)) by lia. Qed.
Lemma exec_mutate {A B} (c : vpc_call (pres A)) (q : vpc B) s a s' :
  answer _ c s = (reply s a, s') → exec answer (mutate c ;; q) s = exec answer q s'.
Proof.
  intros Hc. rewrite exec_fbind. unfold mutate. rewrite exec_call, Hc. unfold reply.
  by destruct (uncertain s).
Qed.

Lemma exec_plan_vpc s o p :
  vpc_observation_of d (c_vpcs s) = o → plan_vpc_apply d o = Ok p →
  exec answer (plan_vpc d) s = (Ok (o, p), s).
Proof.
  intros Ho Hp. unfold plan_vpc. rewrite exec_fbind, vpc_exec_observe, Ho. cbv beta iota. by rewrite Hp.
Qed.
Lemma exec_plan_attachment s att p :
  c_vpcs s = c_vpcs start ++ [made] →
  exec answer (observe_attachments (vv_id made) (Some target)) s = (Ok att, s) →
  plan_attachment d present att (ti_provider_id target) = Ok p →
  exec answer (plan_vpc_attachment d) s = (Ok (target, present, att, p), s).
Proof.
  intros Hs Hatt Hp. unfold plan_vpc_attachment. rewrite exec_fbind, exec_resolve. cbv beta iota.
  cbn [ok_or]. rewrite exec_pure, exec_fbind, vpc_exec_observe, (observation_made s Hs). cbv beta iota.
  rewrite vpc_id_present, exec_pure, exec_fbind, Hatt. cbv beta iota. by rewrite Hp.
Qed.

(** Authorization always succeeds, and its digest is accepted. *)
Lemma authorize_apply o p : ∃ a, authorize_vpc_apply d o p = Ok a ∧
  verify_exact_authority (authority_digest (authority a)) (authority a) = Ok tt.
Proof. eapply authorize_plan_accepted; reflexivity. Qed.
Lemma authorize_attach o att p : ∃ a, authorize_vpc_attachment d target o att p = Ok a ∧
  verify_exact_authority (authority_digest (authority a)) (authority a) = Ok tt.
Proof. eapply authorize_plan_accepted; reflexivity. Qed.
Lemma authorize_cleanup o att p : ∃ a, authorize_vpc_cleanup d o att p = Ok a ∧
  verify_exact_authority (authority_digest (authority a)) (authority a) = Ok tt.
Proof. eapply authorize_plan_accepted; reflexivity. Qed.

(** ** The states of the cycle *)

Lemma vpcs_with_vpc : c_vpcs with_vpc = c_vpcs start ++ [made].
Proof. rewrite Hmade. reflexivity. Qed.
Lemma attached_with_attachment :
  c_attached with_attachment = c_attached start ++ [(vv_id made, linkage)].
Proof. rewrite Hlinkage. reflexivity. Qed.
Lemma detached : detach (ti_provider_id target) (vv_id made) with_attachment = with_vpc.
Proof.
  unfold detach. rewrite attached_with_attachment, List.filter_app.
  assert (Hkeep : List.filter (λ e, negb (in_vpc (vv_id made) e && subscribed (ti_provider_id target) e))
    (c_attached start) = c_attached start).
  { apply filter_all. intros e He. rewrite Forall_forall in Hunused.
    unfold in_vpc. by rewrite (proj2 (str_eqb_false _ _) (Hunused e He)). }
  rewrite Hkeep. cbn [List.filter].
  assert (in_vpc (vv_id made) (vv_id made, linkage) = true) as -> by (by apply str_eqb_true).
  unfold subscribed. cbn [snd]. rewrite bool_decide_true by done. simpl. by rewrite app_nil_r.
Qed.
Lemma destroyed : destroy (vv_id made) with_vpc = start.
Proof.
  unfold destroy. rewrite vpcs_with_vpc, List.filter_app. cbn [List.filter].
  rewrite (proj2 (str_eqb_true (vv_id made) _) eq_refl). cbn [negb]. rewrite app_nil_r.
  assert (Hkeep : List.filter (λ v, negb (str_eqb (vv_id v) (vv_id made))) (c_vpcs start) = c_vpcs start).
  { apply filter_all. intros v Hin. rewrite Forall_forall in Hfresh.
    by rewrite (proj2 (str_eqb_false _ _) (Hfresh v Hin)). }
  rewrite Hkeep. unfold with_vpc, add_vpc. simpl. by destruct start.
Qed.

(** Waiting ends with the first attempt that sees the effect. *)
Lemma attempts_succ : ∃ n, reobserve_attempts policy = S n.
Proof. destruct (reobserve_attempts policy) as [|n]; [lia|eauto]. Qed.

Lemma exec_apply o p :
  plan_vpc_apply d o = Ok p → vpc_observation_of d (c_vpcs start) = o → vap_action p = CreateVpc →
  ∃ a report, authorize_vpc_apply d o p = Ok a ∧
    exec answer (apply_vpc_once d (authority_digest (authority a)) policy) start
    = (Ok report, with_vpc).
Proof.
  intros Hp Ho Hact. destruct (authorize_apply o p) as (a & Ha & Hv). eexists a, _. split; [done|].
  unfold apply_vpc_once. rewrite policy_ok, exec_pure, exec_fbind, (exec_plan_vpc _ o p Ho Hp).
  cbv beta iota. rewrite Ha. cbn [authority_res map_err]. rewrite exec_pure, Hv.
  cbn [authority_res map_err]. rewrite exec_pure, Hact, (exec_mutate _ _ _ _ with_vpc) by reflexivity.
  unfold wait_for_vpc_noop. destruct attempts_succ as [n ->]. cbn [wait_vpc].
  rewrite exec_fbind, exec_fbind, (exec_plan_vpc _ present _ (observation_made _ vpcs_with_vpc) plan_present).
  reflexivity.
Qed.
Lemma exec_attach :
  ∃ a report, authorize_vpc_attachment d target present no_attachments attach_plan = Ok a ∧
    exec answer (apply_vpc_attachment_once d (authority_digest (authority a)) policy) with_vpc
    = (Ok report, with_attachment).
Proof.
  destruct (authorize_attach present no_attachments attach_plan) as (a & Ha & Hv).
  eexists a, _. split; [done|]. unfold apply_vpc_attachment_once.
  rewrite policy_ok, exec_pure, exec_fbind.
  rewrite (exec_plan_attachment _ no_attachments attach_plan vpcs_with_vpc
    (exec_no_attachments with_vpc _ eq_refl) plan_to_attach). cbv beta iota.
  rewrite Ha. cbn [authority_res map_err]. rewrite exec_pure, Hv.
  cbn [authority_res map_err]. rewrite exec_pure. cbn [atp_action attach_plan].
  rewrite (exec_mutate _ _ _ _ with_attachment) by reflexivity.
  unfold wait_for_attachment_noop. destruct attempts_succ as [n ->]. cbn [wait_attachment].
  rewrite exec_fbind, exec_fbind, vpc_exec_observe.
  rewrite (observation_made with_attachment vpcs_with_vpc). cbv beta iota.
  rewrite vpc_id_present, exec_pure, exec_fbind.
  rewrite (exec_one_attachment with_attachment attached_with_attachment). cbv beta iota.
  assert (attachments_have_unresolved_subscription one_attachment = false) as ->.
  { unfold attachments_have_unresolved_subscription, unresolved. simpl. by rewrite Hsubscribed. }
  rewrite plan_attached. cbn [lifecycle_res map_err]. rewrite exec_pure. reflexivity.
Qed.

Lemma exec_ready :
  exec answer (verify_vpc_ready d) with_attachment
  = (Ok {| vrr_status := "PASS"; vrr_target := target; vrr_vpc_provider_id := vv_id made;
           vrr_cidr := cidr; vrr_private_ipv4 := va_private_ipv4 linkage |}, with_attachment).
Proof.
  unfold verify_vpc_ready. rewrite exec_fbind.
  rewrite (exec_plan_attachment with_attachment one_attachment attached_plan vpcs_with_vpc
    (exec_one_attachment with_attachment attached_with_attachment) plan_attached). cbv beta iota.
  cbn [attach_is_noop atp_action attached_plan negb fail_if]. rewrite exec_pure, exec_fbind.
  rewrite (exec_plan_vpc with_attachment present _ (observation_made with_attachment vpcs_with_vpc)
    plan_present). reflexivity.
Qed.

(** The plan of the teardown, where the VPC is present *)
Lemma vpc_exec_plan_cleanup s att p :
  c_vpcs s = c_vpcs start ++ [made] →
  exec answer (observe_attachments (vv_id made) (Some target)) s = (Ok att, s) →
  plan_cleanup d present att (Some (ti_provider_id target)) = Ok p →
  exec answer (plan_vpc_cleanup d) s = (Ok (present, att, p), s).
Proof.
  intros Hs Hatt Hp. unfold plan_vpc_cleanup.
  rewrite exec_fbind, vpc_exec_observe, (observation_made s Hs). cbv beta iota.
  rewrite plan_present. cbn [lifecycle_res map_err]. rewrite exec_pure. cbn [vap_provider_id].
  rewrite exec_fbind, exec_resolve. cbv beta iota. rewrite exec_fbind, Hatt. cbv beta iota.
  unfold refuse_without_target. rewrite andb_false_r. cbn [fail_if]. rewrite exec_pure.
  cbn [target_id option_map]. by rewrite Hp.
Qed.

Lemma verify_digest o att tgt p digest :
  plan_cleanup d o att tgt = Ok p → destructive_digest p = Some digest → lower_hex64 digest = true →
  verify_cleanup_digest d o att tgt digest = Ok p.
Proof.
  intros Hp Hd Hh. unfold verify_cleanup_digest. rewrite Hh, Hp. simpl. rewrite Hd. simpl.
  by rewrite (proj2 (str_eqb_true digest _) eq_refl).
Qed.

(** The checks before a deletion *)
Lemma exec_cleanup_checks s att p digest tgt a {B} (k : _ → vpc B) :
  exec answer (plan_with_target d) s = (Ok (present, att, p, tgt), s) →
  plan_cleanup d present att (target_id tgt) = Ok p → destructive_digest p = Some digest →
  lower_hex64 digest = true → authorize_vpc_cleanup d present att p = Ok a →
  verify_exact_authority (authority_digest (authority a)) (authority a) = Ok tt →
  exec answer (
    '(observation, attachments, current, target) ← plan_with_target d;
    generic ← pure_step (authority_res (authorize_vpc_cleanup d observation attachments current));
    pure_step (authority_res (verify_exact_authority (authority_digest (authority a)) (authority generic))) ;;
    destructive ← pure_step (lifecycle_res
      (verify_cleanup_digest d observation attachments (target_id target) digest));
    pure_step (fail_if (negb (bool_decide (current = destructive)))
      (Failed "Vultr VPC cleanup authorization changed during planning")) ;;
    k destructive) s
  = exec answer (k p) s.
Proof.
  intros Hs Hp Hd Hh Ha Hv. rewrite exec_fbind, Hs. cbv beta iota. rewrite Ha.
  cbn [authority_res map_err]. rewrite exec_pure, Hv. cbn [authority_res map_err]. rewrite exec_pure.
  rewrite (verify_digest _ _ _ _ _ Hp Hd Hh). cbn [lifecycle_res map_err]. rewrite exec_pure.
  rewrite (bool_decide_eq_true_2 (p = p) eq_refl). cbn [negb fail_if]. by rewrite exec_pure.
Qed.

Lemma exec_delete_and_wait performed c b s s' o att p :
  answer _ c s = (reply s tt, s') →
  exec answer (cleanup_attempt d b) s' = (Ok (Some (o, att, p)), s') →
  exec answer (delete_and_wait d policy performed c b) s
  = (Ok {| car_performed := performed; car_observation := o; car_attachments := att;
           car_next_plan := p |}, s').
Proof.
  intros Hc Hs. unfold delete_and_wait. rewrite (exec_mutate _ _ _ _ _ Hc), exec_fbind.
  unfold wait_for_cleanup_progress. destruct attempts_succ as [n ->]. cbn [wait_cleanup].
  rewrite exec_fbind, Hs. reflexivity.
Qed.
Lemma exec_attempt_delete digest :
  plan_cleanup d present no_attachments (Some (ti_provider_id target)) = Ok (cleanup_plan to_delete digest) →
  exec answer (cleanup_attempt d true) with_vpc
  = (Ok (Some (present, no_attachments, cleanup_plan to_delete digest)), with_vpc).
Proof.
  intros Hp. unfold cleanup_attempt.
  rewrite exec_fbind, vpc_exec_observe, (observation_made with_vpc vpcs_with_vpc). cbv beta iota.
  rewrite plan_present. cbn [lifecycle_res map_err]. rewrite exec_pure. cbn [vap_provider_id].
  rewrite exec_fbind, exec_fbind, exec_resolve. cbv beta iota.
  rewrite exec_fbind, (exec_no_attachments with_vpc _ eq_refl). cbv beta iota.
  cbn [attachments_have_unresolved_subscription existsb obs_attachments no_attachments].
  change (refuse_without_target d no_attachments (Some target)) with (Ok tt : result vpc_error unit).
  rewrite exec_pure. cbn [target_id option_map]. rewrite exec_ret. cbv beta iota.
  cbn [target_id option_map]. by rewrite Hp.
Qed.
Lemma exec_attempt_gone :
  exec answer (cleanup_attempt d false) start
  = (Ok (Some (absent, no_attachments, {| cleanup_action := CleanupNoop; destructive_digest := None |})),
     start).
Proof.
  unfold cleanup_attempt. rewrite exec_fbind, vpc_exec_observe, observation_start. cbv beta iota.
  rewrite plan_absent. cbn [lifecycle_res map_err]. rewrite exec_pure. cbn [vap_provider_id].
  rewrite exec_fbind, exec_ret. cbv beta iota. by rewrite plan_gone.
Qed.

Lemma exec_with_target s att p tgt :
  exec answer (plan_vpc_cleanup d) s = (Ok (present, att, p), s) →
  tgt = (if is_empty (obs_attachments att) then None else Some target) →
  exec answer (plan_with_target d) s = (Ok (present, att, p, tgt), s).
Proof.
  intros Hs ->. unfold plan_with_target. rewrite exec_fbind, Hs. cbv beta iota.
  destruct (is_empty (obs_attachments att)); [reflexivity|].
  rewrite exec_fbind, exec_fbind, exec_resolve. reflexivity.
Qed.

(** One step of the teardown *)
Lemma exec_lower s s' att act digest tgt c b o' att' p' :
  exec answer (plan_vpc_cleanup d) s = (Ok (present, att, cleanup_plan act digest), s) →
  tgt = (if is_empty (obs_attachments att) then None else Some target) →
  plan_cleanup d present att (target_id tgt) = Ok (cleanup_plan act digest) →
  lower_hex64 digest = true →
  (act = to_detach ∧ c = DetachCall (ti_provider_id target) (vv_id made) ∧ b = true ∨
   act = to_delete ∧ c = DestroyVpcCall (vv_id made) ∧ b = false) →
  answer _ c s = (reply s tt, s') →
  exec answer (cleanup_attempt d b) s' = (Ok (Some (o', att', p')), s') →
  exec answer lower s = (Ok (Some {| car_performed := act; car_observation := o';
                                     car_attachments := att'; car_next_plan := p' |}), s').
Proof.
  intros Hs Ht Hp Hh Hact Hc Hatt. unfold lower. rewrite exec_fbind, Hs. cbv beta iota.
  change (destructive_digest (cleanup_plan act digest)) with (Some digest). cbv beta iota.
  destruct (authorize_cleanup present att (cleanup_plan act digest)) as (a & Ha & Hv).
  rewrite Ha. cbn [authority_res map_err]. rewrite exec_pure, exec_fbind.
  unfold cleanup_vpc_once. rewrite policy_ok, exec_pure.
  rewrite (exec_cleanup_checks s att (cleanup_plan act digest) digest tgt a _
    (exec_with_target _ _ _ _ Hs Ht) Hp eq_refl Hh Ha Hv).
  destruct Hact as [(-> & -> & ->)|(-> & -> & ->)]; cbn [cleanup_action cleanup_plan to_detach to_delete];
    rewrite (exec_delete_and_wait _ _ _ _ _ _ _ _ Hc Hatt); reflexivity.
Qed.

(** C39: the VPC service completes its cycle. On a provider that performs what it is
    asked, may answer every mutation with an uncertain error and may list attachments
    without their subscription, starting without an owned VPC and with exactly one
    instance of the machine's identity, an operator who authorizes each plan it is
    shown gets a PASS report with the provider's own block and address after one
    creation and one attachment; one detachment and one destruction then restore the
    provider's state from before. *)
Theorem vpc_service_cycle :
  ∃ detach_report delete_report,
    exec answer raise start
    = (Ok {| vrr_status := "PASS"; vrr_target := target; vrr_vpc_provider_id := vv_id made;
             vrr_cidr := cidr; vrr_private_ipv4 := va_private_ipv4 linkage |}, with_attachment) ∧
    exec answer lower with_attachment = (Ok (Some detach_report), with_vpc) ∧
    car_performed detach_report = to_detach ∧
    exec answer lower with_vpc = (Ok (Some delete_report), start) ∧
    car_performed delete_report = to_delete.
Proof.
  destruct plan_to_detach as (dg1 & Hh1 & Hp1).
  destruct plan_to_delete as (dg2 & Hh2 & Hp2).
  pose proof (exec_one_attachment with_attachment attached_with_attachment) as Hatt.
  eexists _, _. split_and!.
  - unfold raise.
    rewrite exec_fbind, (exec_plan_vpc start absent _ observation_start plan_absent). cbv beta iota.
    destruct (exec_apply absent _ plan_absent observation_start eq_refl) as (a & report & Ha & He).
    rewrite Ha. cbn [authority_res map_err]. rewrite exec_pure, exec_fbind, He. cbv beta iota.
    rewrite exec_fbind, (exec_plan_attachment _ no_attachments attach_plan vpcs_with_vpc
      (exec_no_attachments with_vpc _ eq_refl) plan_to_attach). cbv beta iota.
    destruct exec_attach as (a2 & report2 & Ha2 & He2).
    rewrite Ha2. cbn [authority_res map_err]. rewrite exec_pure, exec_fbind, He2. cbv beta iota.
    apply exec_ready.
  - apply (exec_lower with_attachment with_vpc one_attachment to_detach dg1 (Some target)
      (DetachCall (ti_provider_id target) (vv_id made)) true).
    + exact (vpc_exec_plan_cleanup with_attachment _ _ vpcs_with_vpc Hatt Hp1).
    + done.
    + exact Hp1.
    + done.
    + by left.
    + cbn [answer]. by rewrite detached.
    + by apply exec_attempt_delete.
  - done.
  - apply (exec_lower with_vpc start no_attachments to_delete dg2 None (DestroyVpcCall (vv_id made)) false).
    + exact (vpc_exec_plan_cleanup _ _ _ vpcs_with_vpc (exec_no_attachments with_vpc _ eq_refl) (Hp2 _)).
    + done.
    + apply Hp2.
    + done.
    + by right.
    + cbn [answer]. by rewrite destroyed.
    + apply exec_attempt_gone.
  - done.
Qed.
End Provider.

(** ** A sample provider: every mutation is uncertain, subscriptions are not listed. *)
Module VpcProviderSample.
Definition desired : DesiredVpcState := VpcSample.desired.
Definition instance_with (id : string) (tags : list string) : VultrInstance := {|
  vi_id := id; vi_label := id; vi_region := "waw"; vi_plan := "vc2-1c-1gb"; vi_status := "active";
  vi_server_status := "ok"; vi_power_status := "running"; vi_main_ip := "203.0.113.10";
  vi_v6_main_ip := ""; vi_firewall_group_id := ""; vi_date_created := ""; vi_tags := tags;
  vi_os_id := 2136; vi_snapshot_id := None; vi_enable_ipv6 := false |}.
Definition instances : list VultrInstance :=
  [instance_with "office" []; instance_with "instance-1"
     [MANAGED_BY_TAG; ENVIRONMENT_TAG_PREFIX +:+ vpc_environment desired;
      LOGICAL_ID_TAG_PREFIX +:+ vpc_machine_id desired]].
Definition target : TargetInstance := target_of (instance_with "instance-1" []).
Definition new_vpc (_ : cloud) (region description : string) : VultrVpc := {|
  vv_id := "vpc-1"; vv_region := region; vv_description := description; vv_v4_subnet := "10.0.4.0";
  vv_v4_subnet_mask := 24; vv_date_created := "" |}.
Definition new_attachment (_ : cloud) (instance_id _ : string) : VultrVpcAttachment := {|
  va_id := "attachment-1"; va_mac_address := "5a:00:00:00:00:01"; va_private_ipv4 := "10.0.4.3";
  va_subscription_id := Some instance_id |}.
Definition yes (_ : cloud) : bool := true.
Definition foreign : VultrVpc := {|
  vv_id := "vpc-2"; vv_region := "waw"; vv_description := "office"; vv_v4_subnet := "10.9.0.0";
  vv_v4_subnet_mask := 20; vv_date_created := "" |}.
Definition start : cloud := {|
  c_vpcs := [foreign]; c_attached := [("vpc-2", new_attachment {| c_vpcs := []; c_attached := [] |} "office" "vpc-2")] |}.
Definition made : VultrVpc := new_vpc start (vpc_region desired) (ownership_description desired).
Definition linkage : VultrVpcAttachment := new_attachment start "instance-1" "vpc-1".
Abbreviation sample_answer := (answer instances new_vpc new_attachment yes yes).

(** Witness of [vpc_service_cycle] *)
Lemma vpc_service_cycle_witness :
  ∃ detach_report delete_report,
    exec sample_answer (raise desired default_policy) start
    = (Ok {| vrr_status := "PASS"; vrr_target := target; vrr_vpc_provider_id := "vpc-1";
             vrr_cidr := "10.0.4.0/24"; vrr_private_ipv4 := "10.0.4.3" |},
       with_attachment new_vpc new_attachment desired target start made) ∧
    exec sample_answer (lower desired default_policy)
      (with_attachment new_vpc new_attachment desired target start made)
    = (Ok (Some detach_report), with_vpc new_vpc desired start) ∧
    car_performed detach_report = to_detach target made ∧
    exec sample_answer (lower desired default_policy) (with_vpc new_vpc desired start)
    = (Ok (Some delete_report), start) ∧
    car_performed delete_report = to_delete made.
Proof.
  apply (vpc_service_cycle instances new_vpc new_attachment yes yes desired default_policy target)
    with (start := start) (made := made) (cidr := "10.0.4.0/24") (linkage := linkage).
  - vm_compute. reflexivity.
  - simpl. lia.
  - vm_compute. reflexivity.
  - vm_compute. reflexivity.
  - reflexivity.
  - vm_compute. reflexivity.
  - reflexivity.
  - reflexivity.
  - vm_compute. reflexivity.
  - repeat constructor. discriminate.
  - repeat constructor. discriminate.
  - reflexivity.
  - reflexivity.
  - vm_compute. reflexivity.
  - exact _.
Defined.

(** The traces of the sample: attaching, verifying and tearing down *)
Definition attach_digest : string :=
  match authorize_vpc_attachment desired target (present made) no_attachments
          (attach_plan made "10.0.4.0/24") with
  | Ok a => authority_digest (authority a) | Err _ => "" end.
Definition attach_program : vpc AttachmentApplyReport :=
  apply_vpc_attachment_once desired attach_digest default_policy.
Definition raised : cloud := with_vpc new_vpc desired start.
Definition linked : cloud := with_attachment new_vpc new_attachment desired target start made.
Definition attach_trace := exec_trace sample_answer attach_program raised.

(** Witness of [vpc_attach_once]: the attachment whose answer was uncertain *)
Lemma vpc_attach_once_witness :
  mutations attach_trace = [Attached "instance-1" "vpc-1"] ∧
  ∃ target o att p a vpc_id,
    mutates_once (plan_vpc_attachment desired) attach_trace (target, o, att, p)
      (Attached (ti_provider_id target) vpc_id) ∧
    (∃ instances, select_target desired instances = Ok (Some target)) ∧
    exact_vpc_id desired o = Ok vpc_id ∧
    plan_attachment desired o att (ti_provider_id target) = Ok p ∧
    authorize_vpc_attachment desired target o att p = Ok a ∧
    authority_digest (authority a) = attach_digest.
Proof.
  assert (Hm : mutations attach_trace = [Attached "instance-1" "vpc-1"]) by (vm_compute; reflexivity).
  split; [exact Hm|].
  destruct (vpc_attach_once desired attach_digest default_policy attach_trace
    (exec sample_answer attach_program raised).1 (exec_runs sample_answer attach_program raised))
    as [[Hq|Hone] _]; [|exact Hone].
  exfalso. rewrite Hm in Hq. discriminate Hq.
Defined.

Definition cleanup_digests : string * string :=
  match plan_cleanup desired (present made) (one_attachment linkage) (Some "instance-1") with
  | Ok p =>
      match authorize_vpc_cleanup desired (present made) (one_attachment linkage) p,
            destructive_digest p with
      | Ok a, Some digest => (digest, authority_digest (authority a))
      | _, _ => ("", "")
      end
  | Err _ => ("", "")
  end.
Definition cleanup_program : vpc CleanupApplyReport :=
  cleanup_vpc_once desired cleanup_digests.1 cleanup_digests.2 default_policy.
Definition cleanup_trace := exec_trace sample_answer cleanup_program linked.

(** Witness of [vpc_cleanup_once]: the detachment *)
Lemma vpc_cleanup_once_witness :
  mutations cleanup_trace = [Detached "instance-1" "vpc-1"] ∧
  ∃ o att p target m, mutates_once (plan_with_target desired) cleanup_trace (o, att, p, target) m ∧
    cleanup_mutation (cleanup_action p) = Some m ∧
    cleanup_granted desired cleanup_digests.1 cleanup_digests.2 o att p target.
Proof.
  assert (Hm : mutations cleanup_trace = [Detached "instance-1" "vpc-1"]) by (vm_compute; reflexivity).
  split; [exact Hm|].
  destruct (vpc_cleanup_once desired cleanup_digests.1 cleanup_digests.2 default_policy cleanup_trace
    (exec sample_answer cleanup_program linked).1 (exec_runs sample_answer cleanup_program linked))
    as [[Hq|Hone] _]; [|exact Hone].
  exfalso. rewrite Hm in Hq. discriminate Hq.
Defined.

Definition ready_report : VpcReadyReport := {|
  vrr_status := "PASS"; vrr_target := target; vrr_vpc_provider_id := "vpc-1";
  vrr_cidr := "10.0.4.0/24"; vrr_private_ipv4 := "10.0.4.3" |}.
Definition ready_trace := exec_trace sample_answer (verify_vpc_ready desired) linked.

(** Witness of [vpc_ready_backed] *)
Lemma vpc_ready_backed_witness :
  mutations ready_trace = [] ∧
  ∃ instances x o att v subnet ip,
    List.filter (exact_instance desired) instances = [x] ∧ vi_region x = vpc_region desired ∧
    vrr_target ready_report = target_of x ∧
    List.filter (owned desired) (obs_vpcs o) = [v] ∧ ov_region v = vpc_region desired ∧
    (∃ t1 t2 t3, ready_trace = Exchange ListInstances (Ok instances) :: t1 ++ t2 ++ t3 ∧
       runs (observe_vpc desired) t1 (Ok o) ∧
       runs (observe_attachments (ov_provider_id v) (Some (target_of x))) t2 (Ok att)) ∧
    (∃ a, obs_attachments att = [a] ∧ at_subscription_id a = Some (vi_id x) ∧
       at_private_ipv4 a = vrr_private_ipv4 ready_report) ∧
    vrr_cidr ready_report = ov_v4_subnet v +:+ "/" +:+ dec (ov_v4_subnet_mask v) ∧
    parse_ipv4 (ov_v4_subnet v) = Some subnet ∧
    parse_ipv4 (vrr_private_ipv4 ready_report) = Some ip ∧
    ipv4_to_u32 subnet ≤ ipv4_to_u32 ip ≤ ipv4_to_u32 subnet + (2 ^ host_width v - 1).
Proof.
  apply (vpc_ready_backed desired ready_trace ready_report).
  assert (E : (exec sample_answer (verify_vpc_ready desired) linked).1 = Ok ready_report)
    by (vm_compute; reflexivity).
  rewrite <- E. apply exec_runs.
Defined.

Definition unlinked_attachment : VultrVpcAttachment := listed yes linked linkage.
Definition entry : VultrInstanceVpc := entry_of ("vpc-1", linkage).

(** Witness of [attachment_identity_exact]: recognized by address and MAC *)
Lemma attachment_identity_exact_witness :
  [link target entry unlinked_attachment] ≠ [unlinked_attachment] ∧
  ([link target entry unlinked_attachment] = [unlinked_attachment] ∨
   ∃ k a i, [unlinked_attachment] !! k = Some a ∧ va_subscription_id a = None ∧
    List.filter (λ v, str_eqb (iv_id v) "vpc-1") [entry] = [i] ∧
    attachment_matches_instance_vpc a i = true ∧
    (∀ k' a', [unlinked_attachment] !! k' = Some a' → va_subscription_id a' = None →
       attachment_matches_instance_vpc a' i = true → k' = k) ∧
    [link target entry unlinked_attachment] = <[k := link target i a]> [unlinked_attachment]).
Proof.
  split; [discriminate|].
  apply (attachment_identity_exact [unlinked_attachment] "vpc-1" target [entry]).
  vm_compute. reflexivity.
Defined.
End VpcProviderSample.
