(* ===== verification/ApplicationLifecycle.v ===== *)
(** * The application lifecycle

    Models [edge-controller-core/src/application_lifecycle.rs]: the desired state of
    the managed application, the release it stands for, the plan that moves an
    observed host to that release and the digest under which a rollback may run. *)

From S2P Require Import Prelude RustStd HostTypes Concrete Json PlanAuthority.
From S2P Require Import LifecycleCommon.

Definition SUPPORTED_APPLICATION_SCHEMA : Z := 2.
Definition SUPPORTED_ARTIFACT_SCHEMA : Z := 1.

Record Line1RuntimePolicy : Type := {
  l1_tunnel_domain : string;
  l1_acme_email : string;
  l1_acme_provider : string;
  l1_reality_server_name : string
}.
Record Line2RuntimePolicy : Type := {
  l2_proxy_username : string;
  l2_proxy_cert_cn : string
}.
Record ApplicationRuntimePolicy : Type := {
  rp_line1 : option Line1RuntimePolicy;
  rp_line2 : option Line2RuntimePolicy
}.

Inductive ApplicationBootstrapMode : Set := ModeBase | ModeTunnel | ModeFull.
#[global] Instance ApplicationBootstrapMode_eq_dec : EqDecision ApplicationBootstrapMode.
Proof. solve_decision. Defined.
(** [as_str]; also the [snake_case] of the serialized form *)
Definition mode_str (mode : ApplicationBootstrapMode) : string :=
  match mode with ModeBase => "base" | ModeTunnel => "tunnel" | ModeFull => "full" end.

Record DesiredApplicationState : Type := {
  da_schema : Z;
  da_environment : string;
  da_vultr_spec_path : string;
  da_machine_id : string;
  da_application_profile : string;
  da_bundle_root : string;
  da_runtime_env_required : bool;
  da_runtime_policy : ApplicationRuntimePolicy;
  da_bootstrap_mode : ApplicationBootstrapMode
}.

Record AgentArtifactManifest : Type := {
  am_schema : Z;
  am_source_revision : string;
  am_sha256 : string
}.

Record PublishedApplicationRelease : Type := {
  rel_release_id : string;
  rel_source_revision : string;
  rel_agent_sha256 : string;
  rel_bundle_digest : string;
  rel_bootstrap_mode : ApplicationBootstrapMode
}.
#[global] Instance PublishedApplicationRelease_eq_dec : EqDecision PublishedApplicationRelease.
Proof. solve_decision. Defined.

Record ApplicationObservation : Type := {
  ao_observed_agent_sha256 : option string;
  ao_observed_bundle_digest : option string;
  ao_runtime_ready : bool;
  ao_current_release : option PublishedApplicationRelease;
  ao_previous_release : option PublishedApplicationRelease
}.

Inductive ApplicationPlanClass : Set := ClassNoop | ClassApply | ClassUpgrade | ClassBlocked.
#[global] Instance ApplicationPlanClass_eq_dec : EqDecision ApplicationPlanClass.
Proof. solve_decision. Defined.
Inductive ApplicationAction : Set :=
| InstallAgent | ApplyBundle | Bootstrap | Verify | PublishRelease.
#[global] Instance ApplicationAction_eq_dec : EqDecision ApplicationAction.
Proof. solve_decision. Defined.

Record ApplicationPlan : Type := {
  ap_class : ApplicationPlanClass;
  ap_desired_state_digest : string;
  ap_desired_release : PublishedApplicationRelease;
  ap_actions : list ApplicationAction;
  ap_reasons : list string
}.
Record RollbackPlan : Type := {
  rb_machine_id : string;
  rb_current_release : PublishedApplicationRelease;
  rb_previous_release : PublishedApplicationRelease;
  rb_rollback_digest : string
}.

Inductive ApplicationSpecError : Type :=
| AppJson (detail : string)
| AppUnsupportedSchema (schema : Z)
| AppValidation (detail : string)
| AppSerialization (detail : string).
Abbreviation ares := (result ApplicationSpecError).

(** [impl Display for ApplicationSpecError] *)
Definition app_error_text (e : ApplicationSpecError) : string :=
  match e with
  | AppJson detail => "invalid application desired-state JSON: " +:+ detail
  | AppUnsupportedSchema schema =>
      "unsupported application desired-state schema " +:+ dec schema
  | AppValidation detail => "invalid application desired state: " +:+ detail
  | AppSerialization detail => "failed to serialize application desired state: " +:+ detail
  end.

(** ** Paths

    [std::path::Component] of a path without a prefix, and [Path::components] on
    Unix: empty parts and inner [.] parts are skipped, a leading [.] is kept. *)
Inductive Component : Set := RootDir | CurDir | ParentDir | Normal (name : string).

Definition part_component (part : string) : list Component :=
  if str_empty part || str_eqb part "." then []
  else if str_eqb part ".." then [ParentDir] else [Normal part].
Definition components (path : string) : list Component :=
  let parts := split "/" path in
  (if starts_with "/" path then [RootDir]
   else match parts with "." :: _ => [CurDir] | _ => [] end)
  ++ concat (map part_component parts).
Definition is_normal (c : Component) : bool := match c with Normal _ => true | _ => false end.

(** ** Validation *)

Definition app_identifier_char (c : ascii) : bool :=
  is_ascii_alphanumeric c || one_of "-_." c.
Definition validate_identifier (label value : string) : ares unit :=
  fail_if (str_empty value || (128 <? slen value) || negb (str_all app_identifier_char value))
    (AppValidation (label +:+ " must contain only ASCII letters, digits, '.', '_' or '-'")).

Definition validate_repo_path (label value : string) : ares unit :=
  fail_if (str_empty value || str_contains "\" value)
    (AppValidation (label +:+ " must be a normalized repository-relative path")) ;;
  fail_if (starts_with "/" value || negb (forallb is_normal (components value)))
    (AppValidation (label
       +:+ " must be a normalized repository-relative path without traversal")).

Definition app_hex_char (c : ascii) : bool := is_ascii_hexdigit c && negb (is_ascii_uppercase c).
Definition validate_hex (label value : string) (expected_len : Z) : ares unit :=
  fail_if (negb (slen value =? expected_len) || negb (str_all app_hex_char value))
    (AppValidation (label +:+ " must be exactly " +:+ dec expected_len
       +:+ " lowercase hexadecimal characters")).

Definition validate_acme_provider (value : string) : ares unit :=
  fail_if (negb (str_eqb value "letsencrypt"
             || str_eqb value "https://acme-staging-v02.api.letsencrypt.org/directory"))
    (AppValidation ("runtime_policy.line1.acme_provider must be letsencrypt or the exact "
       +:+ "Let’s Encrypt staging directory")).

Definition runtime_dns_part (part : string) : bool :=
  negb (str_empty part) && (slen part <=? 63)
  && str_all (λ c, is_ascii_lowercase c || is_ascii_digit c || one_of "-" c) part
  && negb (starts_with "-" part) && negb (ends_with "-" part).
Definition validate_runtime_dns_name (label value : string) : ares unit :=
  fail_if (str_empty value || (253 <? slen value)
           || negb (str_eqb value (to_ascii_lowercase value))
           || negb (forallb runtime_dns_part (split "." value)))
    (AppValidation (label +:+ " must be a canonical lowercase DNS name")).

Definition runtime_public_char (c : ascii) : bool :=
  is_ascii_alphanumeric c || one_of "._:@%+/-" c.
Definition validate_runtime_public_value (label value : string) : ares unit :=
  fail_if (str_empty value || (253 <? slen value) || negb (str_all runtime_public_char value))
    (AppValidation (label +:+ " must be a non-empty single-line runtime policy value")).

Definition line1_required (mode : ApplicationBootstrapMode) : bool :=
  match mode with ModeTunnel | ModeFull => true | ModeBase => false end.
Definition line2_required (mode : ApplicationBootstrapMode) : bool :=
  match mode with ModeBase | ModeFull => true | ModeTunnel => false end.
Definition present {A} (o : option A) : bool := match o with Some _ => true | None => false end.

Definition presence_error (line : string) (mode : ApplicationBootstrapMode)
    : ApplicationSpecError :=
  AppValidation ("runtime_policy." +:+ line +:+ " presence must match bootstrap_mode "
    +:+ mode_str mode).
Definition validate_policy (p : ApplicationRuntimePolicy) (mode : ApplicationBootstrapMode)
    : ares unit :=
  fail_if (negb (Bool.eqb (present (rp_line1 p)) (line1_required mode)))
    (presence_error "line1" mode) ;;
  fail_if (negb (Bool.eqb (present (rp_line2 p)) (line2_required mode)))
    (presence_error "line2" mode) ;;
  match rp_line1 p with
  | Some line1 =>
      validate_runtime_dns_name "runtime_policy.line1.tunnel_domain" (l1_tunnel_domain line1) ;;
      validate_runtime_public_value "runtime_policy.line1.acme_email" (l1_acme_email line1) ;;
      validate_acme_provider (l1_acme_provider line1) ;;
      validate_runtime_public_value "runtime_policy.line1.reality_server_name"
        (l1_reality_server_name line1)
  | None => Ok tt
  end ;;
  match rp_line2 p with
  | Some line2 =>
      validate_runtime_public_value "runtime_policy.line2.proxy_username"
        (l2_proxy_username line2) ;;
      validate_runtime_public_value "runtime_policy.line2.proxy_cert_cn"
        (l2_proxy_cert_cn line2)
  | None => Ok tt
  end.

Definition spec_path_ok (d : DesiredApplicationState) : bool :=
  let path := da_vultr_spec_path d in
  starts_with "infra/vultr/" path && ends_with ".json" path
  || str_eqb path "infra/production/production.textproto"
  || str_eqb path ("infra/hosts/specs/" +:+ da_machine_id d +:+ ".textproto").

(** [DesiredApplicationState::validate] *)
Definition validate (d : DesiredApplicationState) : ares unit :=
  fail_if (negb (da_schema d =? SUPPORTED_APPLICATION_SCHEMA))
    (AppUnsupportedSchema (da_schema d)) ;;
  validate_identifier "environment" (da_environment d) ;;
  validate_identifier "machine_id" (da_machine_id d) ;;
  validate_identifier "application_profile" (da_application_profile d) ;;
  validate_repo_path "vultr_spec_path" (da_vultr_spec_path d) ;;
  validate_repo_path "bundle_root" (da_bundle_root d) ;;
  fail_if (negb (spec_path_ok d))
    (AppValidation ("vultr_spec_path must be a registered per-host textproto, "
       +:+ "legacy Vultr JSON, or canonical production authority")) ;;
  fail_if (negb (da_runtime_env_required d))
    (AppValidation "runtime_env_required must be true for the managed edge application") ;;
  validate_policy (da_runtime_policy d) (da_bootstrap_mode d).

Definition parse_desired `{FromJson DesiredApplicationState} (raw : string)
    : ares DesiredApplicationState :=
  desired ← map_err AppJson (from_str raw);
  validate desired ;; Ok desired.

Definition validate_artifact (a : AgentArtifactManifest) : ares unit :=
  fail_if (negb (am_schema a =? SUPPORTED_ARTIFACT_SCHEMA))
    (AppValidation ("unsupported edge-agent artifact schema " +:+ dec (am_schema a))) ;;
  validate_hex "artifact source_revision" (am_source_revision a) 40 ;;
  validate_hex "artifact sha256" (am_sha256 a) 64.
Definition parse_artifact `{FromJson AgentArtifactManifest} (raw : string)
    : ares AgentArtifactManifest :=
  manifest ← map_err AppJson (from_str raw);
  validate_artifact manifest ;; Ok manifest.

Definition validate_release (label : string) (r : PublishedApplicationRelease) : ares unit :=
  validate_identifier (label +:+ " release_id") (rel_release_id r) ;;
  validate_hex (label +:+ " source_revision") (rel_source_revision r) 40 ;;
  validate_hex (label +:+ " agent_sha256") (rel_agent_sha256 r) 64 ;;
  validate_hex (label +:+ " bundle_digest") (rel_bundle_digest r) 64.

(** ** JSON forms

    [serde_json::to_string] of a struct writes its fields in the order of their
    declaration: its text is the text of the object with these entries. *)

Definition entry {A} (name : string) (f : A → Value) (o : option A) : list (string * Value) :=
  match o with Some a => [(name, f a)] | None => [] end.
Definition line1_text (l : Line1RuntimePolicy) : Value := VObject
  [("tunnel_domain", VString (l1_tunnel_domain l)); ("acme_email", VString (l1_acme_email l));
   ("acme_provider", VString (l1_acme_provider l));
   ("reality_server_name", VString (l1_reality_server_name l))].
Definition line2_text (l : Line2RuntimePolicy) : Value := VObject
  [("proxy_username", VString (l2_proxy_username l));
   ("proxy_cert_cn", VString (l2_proxy_cert_cn l))].
Definition policy_text (p : ApplicationRuntimePolicy) : Value :=
  VObject (entry "line1" line1_text (rp_line1 p) ++ entry "line2" line2_text (rp_line2 p)).
Definition desired_text (d : DesiredApplicationState) : Value := VObject
  [("schema", VNumber (Z.to_N (da_schema d))); ("environment", VString (da_environment d));
   ("vultr_spec_path", VString (da_vultr_spec_path d));
   ("machine_id", VString (da_machine_id d));
   ("application_profile", VString (da_application_profile d));
   ("bundle_root", VString (da_bundle_root d));
   ("runtime_env_required", VBool (da_runtime_env_required d));
   ("runtime_policy", policy_text (da_runtime_policy d));
   ("bootstrap_mode", VString (mode_str (da_bootstrap_mode d)))].
Definition release_value (r : PublishedApplicationRelease) : Value := obj
  [("release_id", VString (rel_release_id r));
   ("source_revision", VString (rel_source_revision r));
   ("agent_sha256", VString (rel_agent_sha256 r));
   ("bundle_digest", VString (rel_bundle_digest r));
   ("bootstrap_mode", VString (mode_str (rel_bootstrap_mode r)))].

Section Planning.
Context `{Sha256} `{SerdeJson}.

(** [DesiredApplicationState::canonical_json], as the bytes of the text *)
Definition canonical_json (d : DesiredApplicationState) : ares bytes :=
  validate d ;;
  map_err AppSerialization (json_to_vec (desired_text d)).
Definition digest (d : DesiredApplicationState) : ares string :=
  text ← canonical_json d; Ok (sha256_hex text).

Definition desired_bundle_id (d : DesiredApplicationState) (a : AgentArtifactManifest)
    : ares string :=
  validate d ;;
  validate_artifact a ;;
  desired_digest ← digest d;
  Ok (da_machine_id d +:+ "-" +:+ str_take 12 (am_source_revision a)
      +:+ "-" +:+ str_take 12 desired_digest).

Definition desired_release (d : DesiredApplicationState) (a : AgentArtifactManifest)
    (bundle_digest : string) : ares PublishedApplicationRelease :=
  validate d ;;
  validate_artifact a ;;
  validate_hex "bundle digest" bundle_digest 64 ;;
  bundle_id ← desired_bundle_id d a;
  Ok {| rel_release_id := bundle_id +:+ "-" +:+ str_take 12 bundle_digest
          +:+ "-" +:+ mode_str (da_bootstrap_mode d);
        rel_source_revision := am_source_revision a;
        rel_agent_sha256 := am_sha256 a;
        rel_bundle_digest := bundle_digest;
        rel_bootstrap_mode := da_bootstrap_mode d |}.

Definition blocked_plan (desired_state_digest : string) (release : PublishedApplicationRelease)
    (reason : string) : ApplicationPlan := {|
  ap_class := ClassBlocked; ap_desired_state_digest := desired_state_digest;
  ap_desired_release := release; ap_actions := []; ap_reasons := [reason] |}.

(** [observed == Some(current) || observed == Some(desired)] *)
Definition known (observed : option string) (current desired : string) : bool :=
  bool_decide (observed = Some current) || bool_decide (observed = Some desired).

Definition action (condition : bool) (a : ApplicationAction) : list ApplicationAction :=
  if condition then [a] else [].

(** The plan once the observed digests are known ones *)
Definition plan_known (state_digest : string) (release : PublishedApplicationRelease)
    (o : ApplicationObservation) : ApplicationPlan :=
  let agent_matches :=
    bool_decide (ao_observed_agent_sha256 o = Some (rel_agent_sha256 release)) in
  let bundle_matches :=
    bool_decide (ao_observed_bundle_digest o = Some (rel_bundle_digest release)) in
  let release_matches := bool_decide (ao_current_release o = Some release) in
  if agent_matches && bundle_matches && release_matches && ao_runtime_ready o then
    {| ap_class := ClassNoop; ap_desired_state_digest := state_digest;
       ap_desired_release := release; ap_actions := [];
       ap_reasons := ["exact application release is already healthy"] |}
  else
    {| ap_class := if present (ao_current_release o) then ClassUpgrade else ClassApply;
       ap_desired_state_digest := state_digest; ap_desired_release := release;
       ap_actions := action (negb agent_matches) InstallAgent
         ++ action (negb bundle_matches) ApplyBundle
         ++ action (negb bundle_matches || negb (ao_runtime_ready o)) Bootstrap
         ++ [Verify] ++ action (negb release_matches) PublishRelease;
       ap_reasons := ["observed application state differs from exact desired release"] |}.

Definition plan_application (d : DesiredApplicationState) (a : AgentArtifactManifest)
    (bundle_digest : string) (o : ApplicationObservation) : ares ApplicationPlan :=
  release ← desired_release d a bundle_digest;
  state_digest ← digest d;
  match ao_current_release o with
  | Some current =>
      if negb (known (ao_observed_agent_sha256 o) (rel_agent_sha256 current)
                 (rel_agent_sha256 release)) then
        Ok (blocked_plan state_digest release
          "observed edge-agent digest is neither published current nor exact desired")
      else if negb (known (ao_observed_bundle_digest o) (rel_bundle_digest current)
                      (rel_bundle_digest release)) then
        Ok (blocked_plan state_digest release
          ("observed application bundle digest is neither published current nor "
             +:+ "exact desired"))
      else Ok (plan_known state_digest release o)
  | None => Ok (plan_known state_digest release o)
  end.

(** ** Rollback *)

Definition rollback_material (state_digest : string) (d : DesiredApplicationState)
    (current previous : PublishedApplicationRelease) : Value := obj
  [("schema", VNumber 1); ("desired_state_digest", VString state_digest);
   ("machine_id", VString (da_machine_id d)); ("current", release_value current);
   ("previous", release_value previous)].
Definition rollback_digest (d : DesiredApplicationState)
    (current previous : PublishedApplicationRelease) : ares string :=
  state_digest ← digest d;
  canonical ← map_err AppSerialization
    (json_to_vec (rollback_material state_digest d current previous));
  Ok (sha256_hex canonical).

Definition build_rollback_plan (d : DesiredApplicationState) (o : ApplicationObservation)
    : ares RollbackPlan :=
  validate d ;;
  current ← ok_or (ao_current_release o)
    (AppValidation "rollback requires a published current release");
  previous ← ok_or (ao_previous_release o)
    (AppValidation "rollback requires a published previous release");
  validate_release "current" current ;;
  validate_release "previous" previous ;;
  fail_if (negb (bool_decide (ao_observed_agent_sha256 o = Some (rel_agent_sha256 current))))
    (AppValidation ("rollback is blocked because observed edge-agent digest does not match "
       +:+ "current release")) ;;
  fail_if (negb (bool_decide (ao_observed_bundle_digest o = Some (rel_bundle_digest current))))
    (AppValidation ("rollback is blocked because observed bundle digest does not match "
       +:+ "current release")) ;;
  digest ← rollback_digest d current previous;
  Ok {| rb_machine_id := da_machine_id d; rb_current_release := current;
        rb_previous_release := previous; rb_rollback_digest := digest |}.

Definition authorize_rollback (d : DesiredApplicationState) (o : ApplicationObservation)
    (authorized_digest : string) : ares RollbackPlan :=
  validate_hex "rollback authorization digest" authorized_digest 64 ;;
  plan ← build_rollback_plan d o;
  fail_if (negb (str_eqb (rb_rollback_digest plan) authorized_digest))
    (AppValidation ("rollback digest is stale; re-run rollback-plan against current "
       +:+ "observations")) ;;
  Ok plan.
End Planning.

(** ** Facts *)

Lemma mode_str_inj a b : mode_str a = mode_str b → a = b.
Proof. by destruct a, b. Qed.

Lemma app_hex_lower c : app_hex_char c = is_lower_hex c.
Proof. by destruct c as [[] [] [] [] [] [] [] []]. Qed.
Lemma hex_is_identifier c : is_lower_hex c = true → app_identifier_char c = true.
Proof. by destruct c as [[] [] [] [] [] [] [] []]. Qed.
Lemma str_all_hex s : str_all app_hex_char s = str_all is_lower_hex s.
Proof. induction s as [|c s IH]; simpl; [done|]. by rewrite app_hex_lower, IH. Qed.

Lemma validate_hex_Ok label value n :
  validate_hex label value n = Ok tt ↔ slen value = n ∧ str_all is_lower_hex value = true.
Proof.
  unfold validate_hex. rewrite fail_if_Ok, str_all_hex.
  destruct (Z.eqb_spec (slen value) n), (str_all is_lower_hex value); naive_solver.
Qed.

Lemma identifier_take n s :
  str_all is_lower_hex s = true → str_all app_identifier_char (str_take n s) = true.
Proof. intros Hs. apply str_all_take, str_all_impl with is_lower_hex; [apply hex_is_identifier|done]. Qed.

Lemma slen_take n s : Z.of_nat n ≤ slen s → slen (str_take n s) = Z.of_nat n.
Proof. unfold slen. intros Hn. rewrite length_str_take; lia. Qed.

Lemma release_value_inj a b : release_value a = release_value b → a = b.
Proof.
  intros E%obj_inj; [|done|distinct_keys]. destruct a, b. simpl in E.
  by simplify_eq; f_equal; apply mode_str_inj.
Qed.
Lemma line1_text_inj a b : line1_text a = line1_text b → a = b.
Proof. destruct a, b. by intros [=]; simplify_eq/=. Qed.
Lemma line2_text_inj a b : line2_text a = line2_text b → a = b.
Proof. destruct a, b. by intros [=]; simplify_eq/=. Qed.
Lemma policy_text_inj a b : policy_text a = policy_text b → a = b.
Proof.
  unfold policy_text. intros E.
  assert (rp_line1 a = rp_line1 b ∧ rp_line2 a = rp_line2 b) as [E1 E2].
  { destruct a as [[l1|] [l2|]], b as [[k1|] [k2|]]; cbn [entry app rp_line1 rp_line2] in *;
      try discriminate E; try (injection E; intros);
      repeat match goal with |- _ ∧ _ => split end; f_equal;
      first [done | apply line1_text_inj | apply line2_text_inj]; unfold line1_text, line2_text;
      congruence. }
  destruct a, b; simpl in *; congruence.
Qed.

Lemma validate_Ok_schema d : validate d = Ok tt → da_schema d = 2.
Proof.
  unfold validate. intros Hv. apply bind_Ok in Hv as (u & Hs & _).
  apply fail_if_Ok, negb_false, Z.eqb_eq in Hs. done.
Qed.
Lemma validate_machine_id d :
  validate d = Ok tt → str_all app_identifier_char (da_machine_id d) = true.
Proof.
  unfold validate. intros Hv. do 2 apply bind_Ok in Hv as (? & _ & Hv).
  apply bind_Ok in Hv as (u & Hm & _). unfold validate_identifier in Hm.
  apply fail_if_Ok in Hm. reflect_in Hm. tauto.
Qed.
Lemma desired_text_inj a b :
  da_schema a = da_schema b → desired_text a = desired_text b → a = b.
Proof.
  intros Hs E. assert (da_runtime_policy a = da_runtime_policy b ∧
    da_bootstrap_mode a = da_bootstrap_mode b) as [Hp Hm].
  { split; [apply policy_text_inj|apply mode_str_inj]; unfold desired_text in E; congruence. }
  destruct a, b; unfold desired_text in E; simpl in *. injection E. intros. by subst.
Qed.

Lemma rollback_material_inj s d c p s' d' c' p' :
  rollback_material s d c p = rollback_material s' d' c' p' → s = s' ∧ c = c' ∧ p = p'.
Proof.
  intros E%obj_inj; [|done|distinct_keys].
  assert (field : ∀ i, _) by exact (λ i, f_equal (λ l, snd (nth i l ("", VNull))) E).
  split_and!; [injection (field 1%nat); done|apply release_value_inj, (field 3%nat)
    |apply release_value_inj, (field 4%nat)].
Qed.

(** Which actions a plan that is not blocked holds *)
Lemma plan_known_actions s r o :
  let p := plan_known s r o in
  ap_desired_release p = r ∧ ap_class p ≠ ClassBlocked ∧
  (ap_class p = ClassNoop ↔
     ao_observed_agent_sha256 o = Some (rel_agent_sha256 r) ∧
     ao_observed_bundle_digest o = Some (rel_bundle_digest r) ∧
     ao_current_release o = Some r ∧ ao_runtime_ready o = true) ∧
  (ap_actions p = [] ↔ ap_class p = ClassNoop) ∧
  (InstallAgent ∈ ap_actions p ↔ ao_observed_agent_sha256 o ≠ Some (rel_agent_sha256 r)) ∧
  (ApplyBundle ∈ ap_actions p ↔ ao_observed_bundle_digest o ≠ Some (rel_bundle_digest r)) ∧
  (Bootstrap ∈ ap_actions p ↔
     ao_observed_bundle_digest o ≠ Some (rel_bundle_digest r) ∨ ao_runtime_ready o = false) ∧
  (Verify ∈ ap_actions p ↔ ap_class p ≠ ClassNoop) ∧
  (PublishRelease ∈ ap_actions p ↔ ao_current_release o ≠ Some r).
Proof.
  unfold plan_known.
  destruct (bool_decide_reflect (ao_observed_agent_sha256 o = Some (rel_agent_sha256 r))),
    (bool_decide_reflect (ao_observed_bundle_digest o = Some (rel_bundle_digest r))),
    (bool_decide_reflect (ao_current_release o = Some r)), (ao_runtime_ready o) eqn:?;
    simpl; split_and!; try done;
    repeat match goal with |- context [match ?x with _ => _ end] => destruct x end; set_solver.
Qed.

(** The drift that blocks a plan: a release is published, and an observed digest is
    neither the published nor the desired one. *)
Definition drifted (o : ApplicationObservation) (r : PublishedApplicationRelease) : Prop :=
  ∃ c, ao_current_release o = Some c ∧
    (known (ao_observed_agent_sha256 o) (rel_agent_sha256 c) (rel_agent_sha256 r) = false ∨
     known (ao_observed_bundle_digest o) (rel_bundle_digest c) (rel_bundle_digest r) = false).

Section PlanFacts.
Context `{Sha256} `{SerdeJson} `{!JsonValueLaws}.

Lemma digest_Ok d h :
  digest d = Ok h → validate d = Ok tt ∧ ∃ t, json_to_vec (desired_text d) = Ok t ∧ h = sha256_hex t.
Proof using Type.
  unfold digest, canonical_json. intros Hd. apply bind_Ok in Hd as (t & Hc & [= <-]).
  apply bind_Ok in Hc as ([] & Hv & Ht%map_err_Ok). eauto.
Qed.
Lemma digest_hex64 d h : digest d = Ok h → slen h = 64 ∧ str_all is_lower_hex h = true.
Proof using Type.
  intros (_ & t & _ & ->)%digest_Ok. unfold sha256_hex. split; [|apply hex_of_bytes_lower_hex].
  unfold slen. by rewrite length_hex_of_bytes, sha256_length.
Qed.

Lemma desired_release_Ok d a b r :
  desired_release d a b = Ok r →
  validate d = Ok tt ∧ validate_artifact a = Ok tt ∧ validate_hex "bundle digest" b 64 = Ok tt ∧
  ∃ h, digest d = Ok h ∧
  r = {| rel_release_id := da_machine_id d +:+ "-" +:+ str_take 12 (am_source_revision a)
           +:+ "-" +:+ str_take 12 h +:+ "-" +:+ str_take 12 b
           +:+ "-" +:+ mode_str (da_bootstrap_mode d);
         rel_source_revision := am_source_revision a; rel_agent_sha256 := am_sha256 a;
         rel_bundle_digest := b; rel_bootstrap_mode := da_bootstrap_mode d |}.
Proof using Type.
  unfold desired_release, desired_bundle_id. intros Hr.
  apply bind_Ok in Hr as ([] & Hv & Hr). apply bind_Ok in Hr as ([] & Ha & Hr).
  apply bind_Ok in Hr as ([] & Hb & Hr). apply bind_Ok in Hr as (id & Hid & [= <-]).
  do 2 apply bind_Ok in Hid as (? & _ & Hid). apply bind_Ok in Hid as (h & Hh & [= <-]).
  split_and!; [done..|]. exists h. split; [done|]. by rewrite !app_assoc_str.
Qed.
Lemma validate_artifact_Ok a :
  validate_artifact a = Ok tt →
  slen (am_source_revision a) = 40 ∧ str_all is_lower_hex (am_source_revision a) = true ∧
  slen (am_sha256 a) = 64 ∧ str_all is_lower_hex (am_sha256 a) = true.
Proof using Type.
  unfold validate_artifact. intros Ha. apply bind_Ok in Ha as (? & _ & Ha).
  apply bind_Ok in Ha as ([] & Hr%validate_hex_Ok & Hs%validate_hex_Ok). tauto.
Qed.

(** The release id is the machine id with four suffixes. *)
Lemma release_id_shape d a b r :
  desired_release d a b = Ok r →
  slen (rel_release_id r) = slen (da_machine_id d) + 40 + slen (mode_str (da_bootstrap_mode d)) ∧
  str_all app_identifier_char (rel_release_id r) = true.
Proof using Type.
  intros (Hv & (Hl & Hx & _)%validate_artifact_Ok & [Hbl Hbx]%validate_hex_Ok
    & h & [Hhl Hhx]%digest_hex64 & ->)%desired_release_Ok. cbn [rel_release_id]. split.
  - rewrite !slen_app. rewrite !slen_take by lia. change (slen "-") with 1. lia.
  - rewrite !str_all_app. rewrite validate_machine_id by done.
    rewrite !identifier_take by done. by destruct (da_bootstrap_mode d).
Qed.

(** C36: A release that the lifecycle publishes passes the checks of a rollback
    exactly when the machine id leaves room for the suffixes of the release id, that
    is when it has at most 128 - 40 - |mode| characters; a longer machine id is
    accepted everywhere else. *)
Theorem release_rollback_limit d a b r label :
  desired_release d a b = Ok r →
  validate_release label r = Ok tt ↔
  slen (da_machine_id d) + slen (mode_str (da_bootstrap_mode d)) ≤ 88.
Proof using Type.
  intros Hr. pose proof (release_id_shape _ _ _ _ Hr) as [Hlen Hchars].
  apply desired_release_Ok in Hr as (Hv & (? & ? & ? & ?)%validate_artifact_Ok
    & []%validate_hex_Ok & h & Hh & Hr).
  assert (validate_release label r = validate_identifier (label +:+ " release_id") (rel_release_id r))
    as ->.
  { unfold validate_release. destruct (validate_identifier _ _) as [[]|]; [|done].
    rewrite Hr. simpl. by rewrite !(proj2 (validate_hex_Ok _ _ _)). }
  unfold validate_identifier. rewrite fail_if_Ok, Hchars.
  assert (str_empty (rel_release_id r) = false) as ->.
  { apply str_eqb_false. intros E. rewrite E in Hlen. unfold slen in Hlen. simpl in Hlen. lia. }
  simpl. rewrite orb_false_r. destruct (Z.ltb_spec 128 (slen (rel_release_id r))); lia || naive_solver.
Qed.

Lemma build_rollback_plan_Ok d o p :
  build_rollback_plan d o = Ok p →
  validate d = Ok tt ∧
  ao_current_release o = Some (rb_current_release p) ∧
  ao_previous_release o = Some (rb_previous_release p) ∧
  ao_observed_agent_sha256 o = Some (rel_agent_sha256 (rb_current_release p)) ∧
  ao_observed_bundle_digest o = Some (rel_bundle_digest (rb_current_release p)) ∧
  rb_machine_id p = da_machine_id d ∧
  rollback_digest d (rb_current_release p) (rb_previous_release p) = Ok (rb_rollback_digest p).
Proof using Type.
  unfold build_rollback_plan. intros Hp.
  apply bind_Ok in Hp as ([] & Hv & Hp). apply bind_Ok in Hp as (c & Hc%ok_or_Ok & Hp).
  apply bind_Ok in Hp as (v & Hpr%ok_or_Ok & Hp). do 2 apply bind_Ok in Hp as (? & _ & Hp).
  apply bind_Ok in Hp as (? & Ha%fail_if_Ok & Hp). apply bind_Ok in Hp as (? & Hb%fail_if_Ok & Hp).
  apply bind_Ok in Hp as (h & Hh & [= <-]). reflect_in Ha. reflect_in Hb. done.
Qed.
Lemma rollback_digest_Ok d c p h :
  rollback_digest d c p = Ok h →
  ∃ s t, digest d = Ok s ∧ json_to_vec (rollback_material s d c p) = Ok t ∧ h = sha256_hex t.
Proof using Type.
  unfold rollback_digest. intros Hd. apply bind_Ok in Hd as (s & Hs & Hd).
  apply bind_Ok in Hd as (t & Ht%map_err_Ok & [= <-]). eauto.
Qed.
Lemma sha256_hex_json v w t u :
  json_to_vec v = Ok t → json_to_vec w = Ok u → sha256_hex t = sha256_hex u →
  v = w ∨ values_collide v w.
Proof using Type*.
  intros Hv Hw Ht%hex_of_bytes_inj. apply sha256_eq in Ht as [->|Hc].
  - left. by eapply json_to_vec_inj.
  - right. by exists t, u.
Qed.

(** A rollback runs only on a host whose observed agent and bundle are those of the
    published current release, and its digest authorizes nothing else: two desired
    states and observations that are authorized by one digest are the same desired
    state with the same current and previous releases, up to a collision of SHA-256.
    *)
Theorem rollback_authority_binds d o d' o' h p p' :
  authorize_rollback d o h = Ok p → authorize_rollback d' o' h = Ok p' →
  (ao_current_release o = Some (rb_current_release p) ∧
   ao_previous_release o = Some (rb_previous_release p) ∧
   ao_observed_agent_sha256 o = Some (rel_agent_sha256 (rb_current_release p)) ∧
   ao_observed_bundle_digest o = Some (rel_bundle_digest (rb_current_release p))) ∧
  (d = d' ∧ p = p' ∨ ∃ v w, values_collide v w).
Proof using Type*.
  unfold authorize_rollback. intros Hp Hp'.
  apply bind_Ok in Hp as (? & _ & Hp). apply bind_Ok in Hp as (q & Hq & Hp).
  apply bind_Ok in Hp as (? & Hh%fail_if_Ok%negb_false%str_eqb_true & [= <-]).
  apply bind_Ok in Hp' as (? & _ & Hp). apply bind_Ok in Hp as (q' & Hq' & Hp).
  apply bind_Ok in Hp as (? & Hh'%fail_if_Ok%negb_false%str_eqb_true & [= <-]).
  apply build_rollback_plan_Ok in Hq as (Hv & Hc & Hpr & Ha & Hb & Hm & Hd).
  apply build_rollback_plan_Ok in Hq' as (Hv' & _ & _ & _ & _ & Hm' & Hd').
  split; [done|]. rewrite Hh in Hd. rewrite Hh' in Hd'.
  apply rollback_digest_Ok in Hd as (s & t & Hs & Ht & Eh).
  apply rollback_digest_Ok in Hd' as (s' & t' & Hs' & Ht' & Eh'). rewrite Eh in Eh'.
  destruct (sha256_hex_json _ _ _ _ Ht Ht' Eh') as [E|Hx]; [|by eauto].
  apply rollback_material_inj in E as (<- & Ec & Ep).
  apply digest_Ok in Hs as (_ & u & Hu & Hsu). apply digest_Ok in Hs' as (_ & u' & Hu' & Hsu').
  rewrite Hsu in Hsu'. destruct (sha256_hex_json _ _ _ _ Hu Hu' Hsu') as [E|Hx]; [|by eauto].
  left. apply desired_text_inj in E as <-.
  - split; [done|]. destruct q, q'; simpl in *. congruence.
  - by rewrite (validate_Ok_schema d), (validate_Ok_schema d').
Qed.

Lemma plan_application_cases d a b o p :
  plan_application d a b o = Ok p →
  ∃ s r, desired_release d a b = Ok r ∧ digest d = Ok s ∧ ap_desired_release p = r ∧
    (drifted o r ∧ ap_class p = ClassBlocked ∧ ap_actions p = [] ∨
     ¬ drifted o r ∧ p = plan_known s r o).
Proof using Type.
  unfold plan_application, drifted. intros Hp.
  apply bind_Ok in Hp as (r & Hr & Hp). apply bind_Ok in Hp as (s & Hs & Hp). exists s, r.
  pose proof (proj1 (plan_known_actions s r o)) as Hk. simpl in Hk.
  destruct (ao_current_release o) as [c|] eqn:Hc.
  2:{ injection Hp as <-. split_and!; [done..|right]. split; [|done]. by intros (? & [=] & _). }
  destruct (known _ (rel_agent_sha256 c) _) eqn:Ha; simpl in Hp.
  2:{ injection Hp as <-. split_and!; [done..|left]. split_and!; [by eauto|done..]. }
  destruct (known _ (rel_bundle_digest c) _) eqn:Hb; simpl in Hp; injection Hp as <-.
  - split_and!; [done..|right]. split; [|done]. intros (? & [= <-] & [|]); congruence.
  - split_and!; [done..|left]. split_and!; [by eauto|done..].
Qed.

(** The plan of an application never acts on drift. It is blocked and empty exactly
    when a release is published and an observed digest is neither the published nor
    the desired one; it is a no-op exactly when the observed host is the healthy
    desired release; and otherwise it installs the agent, the bundle and the release
    record exactly where the observed one differs, restarts the runtime when the
    bundle changes or the runtime is not ready, and always verifies. *)
Theorem plan_application_spec d a b o p :
  plan_application d a b o = Ok p →
  let r := ap_desired_release p in
  desired_release d a b = Ok r ∧
  (ap_class p = ClassBlocked ↔ drifted o r) ∧
  (ap_class p = ClassBlocked → ap_actions p = []) ∧
  (ap_class p ≠ ClassBlocked →
    (ap_class p = ClassNoop ↔
       ao_observed_agent_sha256 o = Some (rel_agent_sha256 r) ∧
       ao_observed_bundle_digest o = Some (rel_bundle_digest r) ∧
       ao_current_release o = Some r ∧ ao_runtime_ready o = true) ∧
    (ap_actions p = [] ↔ ap_class p = ClassNoop) ∧
    (InstallAgent ∈ ap_actions p ↔ ao_observed_agent_sha256 o ≠ Some (rel_agent_sha256 r)) ∧
    (ApplyBundle ∈ ap_actions p ↔ ao_observed_bundle_digest o ≠ Some (rel_bundle_digest r)) ∧
    (Bootstrap ∈ ap_actions p ↔
       ao_observed_bundle_digest o ≠ Some (rel_bundle_digest r) ∨ ao_runtime_ready o = false) ∧
    (Verify ∈ ap_actions p ↔ ap_class p ≠ ClassNoop) ∧
    (PublishRelease ∈ ap_actions p ↔ ao_current_release o ≠ Some r)).
Proof using Type.
  intros (s & r & Hr & _ & Er & [(Hd & Hc & Ha)|(Hd & ->)])%plan_application_cases; simpl.
  - rewrite Er. split_and!; done.
  - pose proof (plan_known_actions s r o) as (E & Hb & Hrest). rewrite E in *.
    split_and!; [done|done|done|by intros _].
Qed.
End PlanFacts.

(** ** Witnesses *)
Module ApplicationSample.
Definition line2 : Line2RuntimePolicy :=
  {| l2_proxy_username := "proxy"; l2_proxy_cert_cn := "proxy.example.net" |}.
Definition desired_of (machine : string) : DesiredApplicationState := {|
  da_schema := 2; da_environment := "production";
  da_vultr_spec_path := "infra/vultr/production.json"; da_machine_id := machine;
  da_application_profile := "edge-stack"; da_bundle_root := "win/vultr-waw/stack";
  da_runtime_env_required := true;
  da_runtime_policy := {| rp_line1 := None; rp_line2 := Some line2 |};
  da_bootstrap_mode := ModeBase |}.
Definition desired : DesiredApplicationState := desired_of "edge-1".
Fixpoint repeat_str (n : nat) (s : string) : string :=
  match n with O => "" | S n => s +:+ repeat_str n s end.
Definition hex40 : string := repeat_str 40 "a".
Definition hex64 (c : string) : string := repeat_str 64 c.
Definition artifact : AgentArtifactManifest :=
  {| am_schema := 1; am_source_revision := hex40; am_sha256 := hex64 "b" |}.
Definition release_of (machine : string) : PublishedApplicationRelease :=
  match desired_release (desired_of machine) artifact (hex64 "c") with
  | Ok r => r
  | Err _ => {| rel_release_id := ""; rel_source_revision := ""; rel_agent_sha256 := "";
                rel_bundle_digest := ""; rel_bootstrap_mode := ModeBase |}
  end.
Lemma release_of_ok machine :
  is_ok (desired_release (desired_of machine) artifact (hex64 "c")) = true →
  desired_release (desired_of machine) artifact (hex64 "c") = Ok (release_of machine).
Proof. unfold release_of. by destruct (desired_release _ _ _). Qed.

(** A machine id that is accepted and leaves no room for the release suffixes *)
Definition long_machine : string := repeat_str 100 "m".

Definition current : PublishedApplicationRelease := release_of "edge-1".
Definition previous : PublishedApplicationRelease := {|
  rel_release_id := "edge-1-previous"; rel_source_revision := hex40;
  rel_agent_sha256 := hex64 "d"; rel_bundle_digest := hex64 "e";
  rel_bootstrap_mode := ModeBase |}.
Definition observed : ApplicationObservation := {|
  ao_observed_agent_sha256 := Some (rel_agent_sha256 current);
  ao_observed_bundle_digest := Some (rel_bundle_digest current);
  ao_runtime_ready := true; ao_current_release := Some current;
  ao_previous_release := Some previous |}.
Definition digest_text : string :=
  match rollback_digest desired current previous with Ok h => h | Err _ => "" end.
End ApplicationSample.

Lemma release_rollback_limit_witness :
  validate_release "current" (ApplicationSample.release_of "edge-1") = Ok tt ∧
  validate_release "current" (ApplicationSample.release_of ApplicationSample.long_machine) ≠ Ok tt.
Proof.
  split.
  - apply (release_rollback_limit (ApplicationSample.desired_of "edge-1")
      ApplicationSample.artifact (ApplicationSample.hex64 "c")).
    + apply ApplicationSample.release_of_ok. vm_compute. reflexivity.
    + vm_compute. discriminate.
  - intros E. apply (release_rollback_limit
      (ApplicationSample.desired_of ApplicationSample.long_machine)
      ApplicationSample.artifact (ApplicationSample.hex64 "c")) in E.
    + vm_compute in E. by apply E.
    + apply ApplicationSample.release_of_ok. vm_compute. reflexivity.
Defined.

Module RollbackSample.
Import ApplicationSample.
Definition plan : RollbackPlan := {|
  rb_machine_id := "edge-1"; rb_current_release := current; rb_previous_release := previous;
  rb_rollback_digest := digest_text |}.
Lemma authorized : authorize_rollback desired observed digest_text = Ok plan.
Proof. vm_compute. reflexivity. Qed.
(** A host whose agent was replaced by hand *)
Definition foreign : ApplicationObservation := {|
  ao_observed_agent_sha256 := Some (hex64 "0");
  ao_observed_bundle_digest := Some (rel_bundle_digest current);
  ao_runtime_ready := true; ao_current_release := Some current;
  ao_previous_release := Some previous |}.
Definition foreign_plan : ApplicationPlan :=
  match plan_application desired artifact (hex64 "c") foreign with
  | Ok p => p
  | Err _ => blocked_plan "" previous ""
  end.
Lemma foreign_plan_ok : plan_application desired artifact (hex64 "c") foreign = Ok foreign_plan.
Proof. vm_compute. reflexivity. Qed.
End RollbackSample.

Lemma rollback_authority_binds_witness :
  ao_current_release ApplicationSample.observed
    = Some (rb_current_release RollbackSample.plan).
Proof.
  apply (rollback_authority_binds _ _ _ _ _ _ _
    RollbackSample.authorized RollbackSample.authorized).
Defined.

Lemma plan_application_spec_witness :
  drifted RollbackSample.foreign (ap_desired_release RollbackSample.foreign_plan).
Proof.
  apply (plan_application_spec _ _ _ _ _ RollbackSample.foreign_plan_ok).
  vm_compute. reflexivity.
Defined.

(** A path with empty and [.] parts passes the check of a normalized path. *)
Lemma unnormalized_path_accepted :
  validate_repo_path "bundle_root" "win//vultr-waw/./stack/" = Ok tt.
Proof. reflexivity. Qed.
