(* ===== verification/ApplicationBundle.v ===== *)
(** * Preparation of the application bundle

    Models the first part of
    [edge-orchestrator/src/application_lifecycle_service.rs]: the image
    environment, the files collected from the repository, the compilation of the
    managed text sources, and the request with its digest and release.

    The vendored [protoc] is a parameter; the directory of the bundle is a tree
    that also says where the file system fails. File names are UTF-8. *)

From S2P Require Import Prelude RustStd RustText HostTypes Concrete Json PlanAuthority ApplyBundle.
From S2P Require Import LifecycleCommon ApplicationLifecycle.

(** ** Text *)

(** [s.replace(a, b)] of one character by another *)
Fixpoint replace_char (a b : ascii) (s : string) : string :=
  match s with
  | EmptyString => ""
  | String c s => String (if Ascii.eqb c a then b else c) (replace_char a b s)
  end.

(** ** Exact images *)

Definition validate_lower_hex (label value : string) (expected_len : Z) : res unit :=
  fail_if (negb (slen value =? expected_len) || negb (str_all app_hex_char value))
    (label +:+ " must be exactly " +:+ dec expected_len
       +:+ " lowercase hexadecimal characters").

Definition validate_exact_image_ref (label value repository : string) : res unit :=
  digest ← ok_or (strip_prefix (repository +:+ "@sha256:") value)
    (label +:+ " must reference exact repository " +:+ repository +:+ " by digest");
  validate_lower_hex label digest 64.

Definition gateway_key : string := "EDGE_GATEWAY_IMAGE".
Definition warp_key : string := "EDGE_WARP_EGRESS_IMAGE".
Definition mesh_key : string := "CLOUDFLARE_MESH_IMAGE".
Definition gateway_repository : string := "ghcr.io/iamaman11/vultr-edge-gateway".
Definition warp_repository : string := "ghcr.io/iamaman11/vultr-warp-egress".
Definition mesh_repository : string := "docker.io/cloudflare/mesh".

Definition validate_image_refs (gateway warp mesh : string) : res unit :=
  validate_exact_image_ref gateway_key gateway gateway_repository ;;
  validate_exact_image_ref warp_key warp warp_repository ;;
  validate_exact_image_ref mesh_key mesh mesh_repository.

Definition env_line (key value : string) : string := key +:+ "=" +:+ value +:+ nl.
Definition candidate_application_image_environment (gateway warp mesh : string) : res string :=
  validate_image_refs gateway warp mesh ;;
  Ok (env_line gateway_key gateway +:+ env_line warp_key warp +:+ env_line mesh_key mesh).

(** The loop over the lines, [index] the number of the line from 0 *)
Fixpoint read_environment (index : Z) (values : gmap string string) (ls : list string)
    : res (gmap string string) :=
  match ls with
  | [] => Ok values
  | line :: ls =>
      if str_empty line then read_environment (index + 1) values ls else
      '(key, value) ← ok_or (split_once "=" line)
        ("application image environment line " +:+ dec (index + 1)
           +:+ " must use KEY=VALUE syntax");
      fail_if (str_empty key || negb (str_eqb (trim key) key) || str_empty value)
        ("application image environment line " +:+ dec (index + 1) +:+ " is invalid") ;;
      fail_if (present (values !! key))
        ("application image environment contains duplicate key: " +:+ key) ;;
      read_environment (index + 1) (<[key := value]> values) ls
  end.

Definition expected_keys : gset string := {[gateway_key; warp_key; mesh_key]}.
(** [values.get(key).unwrap()], after the check of the keys *)
Definition image_of (values : gmap string string) (key : string) : string :=
  default "" (values !! key).

Definition validate_materialized_image_environment_content (raw : string) : res unit :=
  values ← read_environment 0 ∅ (lines raw);
  fail_if (negb (bool_decide (dom values = expected_keys)))
    ("application image environment must contain exactly EDGE_GATEWAY_IMAGE, "
       +:+ "EDGE_WARP_EGRESS_IMAGE, and CLOUDFLARE_MESH_IMAGE") ;;
  validate_image_refs (image_of values gateway_key) (image_of values warp_key)
    (image_of values mesh_key).

(** ** Managed sources *)

Definition route_type : string := "edge.platform.v1.FleetVmManagedKernelRoute".
Definition firewall_type : string := "edge.platform.v1.FleetVmManagedFirewall".
Definition dns_type : string := "edge.platform.v1.FleetVmManagedSystemDns".
Definition docker_type : string := "edge.platform.v1.FleetVmManagedDockerResource".

(** The prefixes in the order the source tries them *)
Definition managed_prefixes : list (string * string) :=
  [("host-route-", route_type); ("host-firewall-", firewall_type); ("host-dns-", dns_type);
   ("docker-volume-", docker_type); ("docker-network-", docker_type);
   ("docker-container-", docker_type)].
Fixpoint managed_kind (prefixes : list (string * string)) (stem : string)
    : option (string * string) :=
  match prefixes with
  | [] => None
  | (prefix, kind) :: prefixes =>
      match strip_prefix prefix stem with
      | Some name => Some (kind, name)
      | None => managed_kind prefixes stem
      end
  end.

Definition managed_name_char (c : ascii) : bool :=
  is_ascii_lowercase c || is_ascii_digit c || one_of "-" c.
Definition managed_name_bad (name : string) : bool :=
  str_empty name || (24 <? slen name) || starts_with "-" name || ends_with "-" name
  || negb (str_all managed_name_char name).

Definition managed_textproto_type (relative : string) : res (option (string * string)) :=
  match strip_prefix "managed/" relative with
  | None => Ok None
  | Some suffix =>
      match strip_suffix ".textproto" suffix with
      | None => Ok None
      | Some stem =>
          '(kind, name) ← ok_or (managed_kind managed_prefixes stem)
            "HOST_VM_MANAGED_TEXTPROTO_UNSUPPORTED_TYPE";
          fail_if (managed_name_bad name) "HOST_VM_MANAGED_TEXTPROTO_FILENAME_INVALID" ;;
          Ok (Some (kind, "managed/" +:+ stem +:+ ".pb"))
      end
  end.

(** How the run of the vendored compiler ended *)
Inductive protoc_run : Set :=
| CompilerMissing
| CompilerUnavailable
| StdinMissing
| StdinWriteFailed
| WaitFailed
| Exited (success : bool) (stdout : bytes).

Definition is_managed_pb (path : string) : bool :=
  starts_with "managed/" path && ends_with ".pb" path.

Section Compile.
(** [protoc --encode=kind] on the text *)
Context (protoc : string → bytes → protoc_run).

Definition encode_managed_textproto (kind : string) (raw : bytes) : res bytes :=
  fail_if ((blen raw =? 0) || (2048 <? blen raw)) "HOST_VM_MANAGED_TEXTPROTO_SIZE_INVALID" ;;
  match protoc kind raw with
  | CompilerMissing => Err "HOST_VM_MANAGED_TEXTPROTO_COMPILER_MISSING"
  | CompilerUnavailable => Err "HOST_VM_MANAGED_TEXTPROTO_COMPILER_UNAVAILABLE"
  | StdinMissing => Err "HOST_VM_MANAGED_TEXTPROTO_STDIN_MISSING"
  | StdinWriteFailed => Err "HOST_VM_MANAGED_TEXTPROTO_WRITE_FAILED"
  | WaitFailed => Err "HOST_VM_MANAGED_TEXTPROTO_COMPILE_UNAVAILABLE"
  | Exited success stdout =>
      fail_if (negb success || (blen stdout =? 0) || (2048 <? blen stdout))
        "HOST_VM_MANAGED_TEXTPROTO_COMPILE_INVALID" ;;
      Ok stdout
  end.

(** One round of the loop: the file that takes the place of [file] *)
Definition compile_file (existing : list string) (file : BundleFile) : res BundleFile :=
  managed ← managed_textproto_type (file_relative_path file);
  match managed with
  | None =>
      fail_if (is_managed_pb (file_relative_path file))
        "HOST_VM_MANAGED_RAW_PROTOBUF_SOURCE_FORBIDDEN" ;;
      Ok file
  | Some (kind, output_path) =>
      fail_if (file_sensitive file || file_executable file)
        "HOST_VM_MANAGED_TEXTPROTO_METADATA_FORBIDDEN" ;;
      fail_if (mem output_path existing) "HOST_VM_MANAGED_TEXTPROTO_BINARY_DUPLICATE" ;;
      encoded ← encode_managed_textproto kind (file_content file);
      Ok {| file_relative_path := output_path; file_content := encoded;
            file_executable := false; file_sensitive := false |}
  end.

(** [any(|file| !seen.insert(path))] *)
Fixpoint has_duplicate (seen : list string) (paths : list string) : bool :=
  match paths with
  | [] => false
  | path :: paths => mem path seen || has_duplicate (path :: seen) paths
  end.

Definition compile_git_managed_protobuf_sources (files : list BundleFile)
    : res (list BundleFile) :=
  compiled ← try_map (compile_file (map file_relative_path files)) files;
  fail_if (has_duplicate [] (map file_relative_path compiled))
    "HOST_VM_MANAGED_TEXTPROTO_DUPLICATE_PATH" ;;
  Ok compiled.
End Compile.

(** ** The files of the bundle *)

(** What [read_dir] and its entries answer *)
Inductive listing (A : Type) : Type :=
| ReadDirFailed (error : string)
| EnumerateFailed (error : string)
| Entries (entries : list (string * A)).
Arguments ReadDirFailed {A} error.
Arguments EnumerateFailed {A} error.
Arguments Entries {A} entries.

(** An entry as [symlink_metadata] classifies it *)
Inductive fs_node : Type :=
| MetadataFailed (error : string)
| SymlinkNode
| DirNode (entries : listing fs_node)
| FileNode (content : res bytes)
| OtherNode.

(** What the file system answers about the root of the bundle: [is_dir], [exists]
    and [read_to_string] of a name in it, and the walk. *)
Record bundle_dir : Type := {
  dir_path : string;
  dir_is_dir : bool;
  dir_exists : string → bool;
  dir_text : string → res string;
  dir_entries : listing fs_node
}.

Definition name_leb {A} (a b : string * A) : bool := str_leb (fst a) (fst b).
Fixpoint concat_results {A} (l : list (string * res (list A))) : res (list A) :=
  match l with
  | [] => Ok []
  | (_, r) :: l => xs ← r; ys ← concat_results l; Ok (xs ++ ys)
  end.

Definition bundle_file (root relative : string) (content : res bytes) : res (list BundleFile) :=
  fail_if (negb (forallb is_normal (components relative)))
    ("application bundle path is not normalized: " +:+ relative) ;;
  let relative_path := replace_char "\" "/" relative in
  fail_if (str_eqb relative_path ".env.runtime")
    "application bundle source must not contain .env.runtime" ;;
  content ← map_err (λ err, "failed to read bundle file " +:+ root +:+ "/" +:+ relative
                              +:+ ": " +:+ err) content;
  Ok [{| file_relative_path := relative_path; file_content := content;
         file_executable := false; file_sensitive := false |}].

(** [collect_bundle_files] on one entry; [relative] is its path below [root]. The
    entries of a directory are visited in the order of their names. *)
Definition collect_listing (path : string) {A} (collect : string → A → res (list BundleFile))
    (entries : listing A) : res (list BundleFile) :=
  match entries with
  | ReadDirFailed err => Err ("failed to read application bundle " +:+ path +:+ ": " +:+ err)
  | EnumerateFailed err => Err ("failed to enumerate application bundle: " +:+ err)
  | Entries entries =>
      concat_results (sort_by name_leb
        (map (λ e, (fst e, collect (fst e) (snd e))) entries))
  end.
Fixpoint collect_entry (root relative : string) (n : fs_node) : res (list BundleFile) :=
  let path := root +:+ "/" +:+ relative in
  match n with
  | MetadataFailed err => Err ("failed to inspect bundle path " +:+ path +:+ ": " +:+ err)
  | SymlinkNode => Err ("application bundle symlinks are not allowed: " +:+ path)
  | DirNode entries =>
      collect_listing path (λ name, collect_entry root (relative +:+ "/" +:+ name)) entries
  | FileNode content => bundle_file root relative content
  | OtherNode =>
      Err ("application bundle contains unsupported filesystem entry: " +:+ path)
  end.
Definition collect_bundle_files (dir : bundle_dir) : res (list BundleFile) :=
  collect_listing (dir_path dir) (collect_entry (dir_path dir)) (dir_entries dir).

Definition validate_application_bundle_root (dir : bundle_dir) : res unit :=
  fail_if (negb (dir_is_dir dir)) ("application bundle root is missing: " +:+ dir_path dir) ;;
  fail_if (dir_exists dir ".env.runtime")
    ("committed application bundle must not contain .env.runtime; the VM derives it "
       +:+ "from Git-owned policy and VM-owned credentials") ;;
  fail_if (dir_exists dir ".env.runtime.policy")
    ("committed application bundle must not contain .env.runtime.policy; runtime policy "
       +:+ "is derived only from application desired state").

Definition line2_values (l : Line2RuntimePolicy) : list (string * string) :=
  [("PROXY_USERNAME", l2_proxy_username l); ("PROXY_CERT_CN", l2_proxy_cert_cn l)].
Definition line1_values (l : Line1RuntimePolicy) : list (string * string) :=
  [("REALITY_SERVER_NAME", l1_reality_server_name l); ("TUNNEL_DOMAIN", l1_tunnel_domain l);
   ("ACME_EMAIL", l1_acme_email l); ("ACME_PROVIDER", l1_acme_provider l)].
Definition from_option {A B} (f : A → list B) (o : option A) : list B :=
  match o with Some a => f a | None => [] end.
Definition render_runtime_policy_environment (d : DesiredApplicationState) : string :=
  let policy := da_runtime_policy d in
  join "" (map (λ kv, env_line (fst kv) (snd kv))
    (from_option line2_values (rp_line2 policy) ++ from_option line1_values (rp_line1 policy))).

Record PreparedApplicationBundle : Type := {
  prepared_request : ApplyBundleRequest;
  prepared_release : PublishedApplicationRelease
}.

Definition plain_file (path : string) (content : bytes) : BundleFile :=
  {| file_relative_path := path; file_content := content;
     file_executable := false; file_sensitive := false |}.
Definition with_bundle_digest (r : ApplyBundleRequest) (digest : string) : ApplyBundleRequest :=
  {| apply_stack_files := apply_stack_files r; apply_host_files := apply_host_files r;
     apply_deployment_summary := apply_deployment_summary r;
     apply_agent_env_file := apply_agent_env_file r;
     apply_prune_existing := apply_prune_existing r; apply_bundle_id := apply_bundle_id r;
     apply_bundle_digest := Some digest |}.

(** The stack files around the collected ones *)
Definition stack_files (d : DesiredApplicationState) (image_environment : string)
    (compiled : list BundleFile) : list BundleFile :=
  filter (λ f, file_relative_path f ≠ ".images.env") compiled
  ++ [plain_file ".images.env" (as_bytes image_environment);
      plain_file ".env.runtime.policy" (as_bytes (render_runtime_policy_environment d))].

Definition app_text {A} (r : ares A) : res A := map_err app_error_text r.

Section Prepare.
Context `{Sha256} `{SerdeJson} (protoc : string → bytes → protoc_run).

Definition prepare_application_bundle_with_image_environment (dir : bundle_dir)
    (d : DesiredApplicationState) (a : AgentArtifactManifest) (image_environment : string)
    : res PreparedApplicationBundle :=
  app_text (validate d) ;;
  app_text (validate_artifact a) ;;
  validate_application_bundle_root dir ;;
  validate_materialized_image_environment_content image_environment ;;
  collected ← collect_bundle_files dir;
  compiled ← compile_git_managed_protobuf_sources protoc collected;
  bundle_id ← app_text (desired_bundle_id d a);
  let request := {|
    apply_stack_files := stack_files d image_environment compiled; apply_host_files := [];
    apply_deployment_summary := None; apply_agent_env_file := None;
    apply_prune_existing := true; apply_bundle_id := Some bundle_id;
    apply_bundle_digest := None |} in
  bundle_digest ← canonical_apply_bundle_digest request;
  release ← app_text (desired_release d a bundle_digest);
  Ok {| prepared_request := with_bundle_digest request bundle_digest;
        prepared_release := release |}.

Definition prepare_application_bundle (dir : bundle_dir) (d : DesiredApplicationState)
    (a : AgentArtifactManifest) : res PreparedApplicationBundle :=
  validate_application_bundle_root dir ;;
  image_environment ← map_err (λ err,
      "exact application image environment is missing or unreadable at "
        +:+ dir_path dir +:+ "/.images.env: " +:+ err) (dir_text dir ".images.env");
  prepare_application_bundle_with_image_environment dir d a image_environment.
End Prepare.

(** ** Facts: exact images *)

Lemma exact_image_ref_Ok label value repository :
  validate_exact_image_ref label value repository = Ok tt ↔
  ∃ digest, value = repository +:+ "@sha256:" +:+ digest ∧
    slen digest = 64 ∧ str_all is_lower_hex digest = true.
Proof.
  unfold validate_exact_image_ref, validate_lower_hex. rewrite bind_Ok.
  setoid_rewrite ok_or_Ok. setoid_rewrite strip_prefix_Some. setoid_rewrite fail_if_Ok.
  setoid_rewrite orb_false. setoid_rewrite negb_false. setoid_rewrite Z.eqb_eq.
  setoid_rewrite str_all_hex. setoid_rewrite app_assoc_str. naive_solver.
Qed.

(** A validated reference is not empty and fits on one line. *)
Lemma exact_image_ref_line label value repository :
  str_all line_char repository = true →
  validate_exact_image_ref label value repository = Ok tt →
  str_all line_char value = true ∧ str_empty value = false.
Proof.
  intros Hr (digest & -> & Hl & Hd)%exact_image_ref_Ok. rewrite !str_all_app, Hr.
  rewrite (str_all_impl is_lower_hex line_char digest lower_hex_line Hd).
  split; [done|]. apply str_eqb_false. intros E%(f_equal slen).
  rewrite !slen_app in E. change (slen "@sha256:") with 8 in E. change (slen "") with 0 in E.
  pose proof (Zle_0_nat (String.length repository)). unfold slen in *. lia.
Qed.

Lemma validate_image_refs_Ok g w m :
  validate_image_refs g w m = Ok tt ↔
  validate_exact_image_ref gateway_key g gateway_repository = Ok tt ∧
  validate_exact_image_ref warp_key w warp_repository = Ok tt ∧
  validate_exact_image_ref mesh_key m mesh_repository = Ok tt.
Proof.
  unfold validate_image_refs. split.
  - intros Hv. apply bind_Ok in Hv as ([] & Hg & Hv). by apply bind_Ok in Hv as ([] & Hw & Hv).
  - intros (-> & -> & ->). done.
Qed.

Lemma read_environment_line key value index values s :
  str_all line_char key = true → str_all (λ x, negb (Ascii.eqb x "=")) key = true →
  str_empty key = false → trim key = key →
  str_all line_char value = true → str_empty value = false → values !! key = None →
  read_environment index values (lines (env_line key value +:+ s)) =
  read_environment (index + 1) (<[key := value]> values) (lines s).
Proof.
  intros Hk He Hk0 Ht Hv Hv0 Hfresh. unfold env_line.
  replace (_ +:+ s) with ((key +:+ "=" +:+ value) +:+ nl +:+ s) by by rewrite !app_assoc_str.
  rewrite lines_cons by by rewrite !str_all_app, Hk, Hv.
  cbn [read_environment]. replace (str_empty (key +:+ _)) with false.
  2:{ destruct key; done. }
  change ("=" +:+ value) with (String "=" value). rewrite split_once_app by done.
  cbn [ok_or mbind result_bind]. rewrite Hk0, Ht, Hv0.
  replace (str_eqb key key) with true by (symmetry; by apply str_eqb_true).
  cbn [orb negb fail_if mbind result_bind]. rewrite Hfresh. done.
Qed.

Lemma read_candidate g w m :
  validate_image_refs g w m = Ok tt →
  read_environment 0 ∅ (lines (env_line gateway_key g +:+ env_line warp_key w
    +:+ env_line mesh_key m)) = Ok {[mesh_key := m; warp_key := w; gateway_key := g]}.
Proof.
  intros (Hg & Hw & Hm)%validate_image_refs_Ok.
  apply exact_image_ref_line in Hg as [Hg Hg0], Hw as [Hw Hw0], Hm as [Hm Hm0]; [|done..].
  rewrite read_environment_line by (done || apply lookup_empty).
  rewrite read_environment_line by (done || by rewrite lookup_insert_ne).
  rewrite <- (app_nil_r_str (env_line mesh_key m)).
  rewrite read_environment_line by (done || by rewrite !lookup_insert_ne).
  done.
Qed.

Definition pinned_images (g w m : string) : gmap string string :=
  {[mesh_key := mesh_repository +:+ "@sha256:" +:+ m;
    warp_key := warp_repository +:+ "@sha256:" +:+ w;
    gateway_key := gateway_repository +:+ "@sha256:" +:+ g]}.

Lemma three_keys (values : gmap string string) :
  dom values = expected_keys →
  values = {[mesh_key := image_of values mesh_key; warp_key := image_of values warp_key;
             gateway_key := image_of values gateway_key]}.
Proof.
  intros Hd. apply map_eq. intros key. unfold image_of.
  assert (Hin : key ∈ dom values ↔ key = gateway_key ∨ key = warp_key ∨ key = mesh_key).
  { rewrite Hd. unfold expected_keys. set_solver. }
  rewrite elem_of_dom in Hin.
  destruct (decide (key = mesh_key)) as [->|]; [|destruct (decide (key = warp_key)) as [->|]];
    [| |destruct (decide (key = gateway_key)) as [->|]].
  4:{ rewrite !lookup_insert_ne, lookup_singleton_ne by done.
      apply eq_None_not_Some. naive_solver. }
  all: destruct (proj2 Hin) as [v Hv]; [by auto|]; rewrite Hv; by simplify_map_eq.
Qed.

(** The image environment a release candidate is rendered to is accepted by the
    validation of materialized environments and reads back as exactly the three
    references it was rendered from; and an accepted environment pins each of the
    three images of the platform's own repositories by a SHA-256 digest, and names
    nothing else. *)
Theorem image_environment_exact :
  (∀ g w m text, candidate_application_image_environment g w m = Ok text →
     validate_materialized_image_environment_content text = Ok tt ∧
     read_environment 0 ∅ (lines text) =
       Ok {[mesh_key := m; warp_key := w; gateway_key := g]}) ∧
  (∀ text, validate_materialized_image_environment_content text = Ok tt →
     ∃ g w m : string,
       Forall (λ d, slen d = 64 ∧ str_all is_lower_hex d = true) [g; w; m] ∧
       read_environment 0 ∅ (lines text) = Ok (pinned_images g w m)).
Proof.
  split.
  - intros g w m text Hc. apply bind_Ok in Hc as ([] & Hv & [= <-]).
    pose proof (read_candidate g w m Hv) as Hr. split; [|done].
    unfold validate_materialized_image_environment_content. rewrite Hr.
    cbn [mbind result_bind]. rewrite bool_decide_true
      by (unfold expected_keys; rewrite !dom_insert_L, dom_singleton_L; set_solver).
    cbn [negb fail_if mbind result_bind]. unfold image_of.
    simplify_map_eq. done.
  - intros text Hv. apply bind_Ok in Hv as (values & -> & Hv).
    apply bind_Ok in Hv as ([] & Hd%fail_if_Ok & Hv).
    apply negb_false, bool_decide_eq_true in Hd. rewrite (three_keys values Hd).
    apply validate_image_refs_Ok in Hv as (Hg & Hw & Hm).
    apply exact_image_ref_Ok in Hg as (g & -> & ?), Hw as (w & -> & ?), Hm as (m & -> & ?).
    exists g, w, m. split; [|done]. repeat (constructor; [done|]). constructor.
Qed.

(** ** Facts: managed sources *)

(** What a file of the bundle may have been made of *)
Inductive compiled_from (protoc : string → bytes → protoc_run) (f : BundleFile)
    : BundleFile → Prop :=
| compiled_same :
    managed_textproto_type (file_relative_path f) = Ok None →
    is_managed_pb (file_relative_path f) = false → compiled_from protoc f f
| compiled_text kind path content :
    managed_textproto_type (file_relative_path f) = Ok (Some (kind, path)) →
    file_sensitive f = false → file_executable f = false →
    protoc kind (file_content f) = Exited true content →
    0 < blen content ≤ 2048 → 0 < blen (file_content f) ≤ 2048 →
    compiled_from protoc f (plain_file path content).

Lemma strip_suffix_app p a : strip_suffix p (a +:+ p) = Some a.
Proof.
  induction a as [|x a IH].
  - change ("" +:+ p) with p. destruct p; cbn [strip_suffix];
      by rewrite (proj2 (str_eqb_true _ _) eq_refl).
  - change (String x a +:+ p) with (String x (a +:+ p)). cbn [strip_suffix].
    replace (str_eqb _ p) with false; [by rewrite IH|]. symmetry. apply str_eqb_false.
    intros E%(f_equal String.length). cbn [String.length] in E.
    rewrite length_app_str in E. lia.
Qed.

Lemma managed_textproto_output path kind out :
  managed_textproto_type path = Ok (Some (kind, out)) →
  ∃ stem, path = "managed/" +:+ stem +:+ ".textproto" ∧ out = "managed/" +:+ stem +:+ ".pb".
Proof.
  unfold managed_textproto_type. destruct (strip_prefix _ path) as [suffix|] eqn:Hp; [|done].
  destruct (strip_suffix _ suffix) as [stem|] eqn:Hs; [|done].
  destruct (managed_kind _ stem) as [[k name]|]; [|done]. cbn [ok_or mbind result_bind].
  destruct (managed_name_bad name); [done|]. intros [= _ <-]. exists stem.
  apply strip_prefix_Some in Hp as ->. by apply strip_suffix_Some in Hs as ->.
Qed.

Lemma list_ascii_app a b :
  String.list_ascii_of_string (a +:+ b)
  = String.list_ascii_of_string a ++ String.list_ascii_of_string b.
Proof. induction a as [|x a IH]; [done|]. exact (f_equal (cons x) IH). Qed.
Lemma pb_is_not_text stem : ends_with ".textproto" (stem +:+ ".pb") = false.
Proof.
  unfold ends_with. destruct (strip_suffix _ _) as [r|] eqn:E; [|done].
  apply strip_suffix_Some in E. exfalso.
  apply (f_equal (λ s, nth 0 (rev (String.list_ascii_of_string s)) zero)) in E.
  by rewrite !list_ascii_app, !rev_app_distr in E.
Qed.

Lemma compiled_is_not_text protoc f g :
  compiled_from protoc f g → managed_textproto_type (file_relative_path g) = Ok None.
Proof.
  intros [Hn _|kind path content (stem & _ & ->)%managed_textproto_output _ _ _ _ _]; [done|].
  cbn [plain_file file_relative_path]. unfold managed_textproto_type.
  rewrite strip_prefix_app. pose proof (pb_is_not_text stem) as Hp. unfold ends_with in Hp.
  by destruct (strip_suffix _ _).
Qed.

Lemma encode_managed_Ok protoc kind raw out :
  encode_managed_textproto protoc kind raw = Ok out ↔
  protoc kind raw = Exited true out ∧ 0 < blen out ≤ 2048 ∧ 0 < blen raw ≤ 2048.
Proof.
  unfold encode_managed_textproto. rewrite bind_Ok. setoid_rewrite fail_if_Ok.
  setoid_rewrite orb_false. setoid_rewrite Z.eqb_neq. setoid_rewrite Z.ltb_ge.
  unfold blen. split.
  - intros ([] & Hraw & Hr). destruct (protoc kind raw) as [| | | | |success stdout]; try done.
    apply bind_Ok in Hr as (? & Hf%fail_if_Ok & [= <-]). reflect_in Hf.
    destruct success; [|naive_solver]. split_and!; [done|lia..].
  - intros (-> & ? & ?). exists tt. split; [lia|]. apply bind_Ok. exists tt. split; [|done].
    apply fail_if_Ok. autorewrite with reflect. split_and!; [done|lia..].
Qed.

Lemma compile_file_Ok protoc existing f g :
  compile_file protoc existing f = Ok g ↔
  compiled_from protoc f g ∧ (f ≠ g → file_relative_path g ∉ existing).
Proof.
  unfold compile_file. split.
  - intros Hc. apply bind_Ok in Hc as ([[kind path]|] & Ht & Hc).
    + apply bind_Ok in Hc as ([] & Hm%fail_if_Ok & Hc). apply orb_false in Hm as [? ?].
      apply bind_Ok in Hc as ([] & Hx%fail_if_Ok%mem_false & Hc).
      apply bind_Ok in Hc as (content & (? & ? & ?)%encode_managed_Ok & [= <-]).
      split; [by eapply compiled_text|done].
    + apply bind_Ok in Hc as ([] & Hm%fail_if_Ok & [= <-]). split; [by constructor|done].
  - intros [[Ht Hn|kind path content Ht Hs Hx Hp Hc Hr] Hfresh]; rewrite Ht;
      cbn [mbind result_bind]; [by rewrite Hn|].
    rewrite Hs, Hx. cbn [orb fail_if mbind result_bind].
    rewrite (proj2 (mem_false path existing)).
    2:{ apply Hfresh. intros ->. apply managed_textproto_output in Ht as (stem & E & ->).
        cbn [plain_file file_relative_path] in E.
        apply app_inv_head_str in E. pose proof (pb_is_not_text stem) as Hb.
        unfold ends_with in Hb. by rewrite E, strip_suffix_app in Hb. }
    cbn [fail_if mbind result_bind].
    by rewrite (proj2 (encode_managed_Ok protoc kind (file_content f) content)).
Qed.

Lemma has_duplicate_false seen paths :
  has_duplicate seen paths = false ↔ NoDup paths ∧ ∀ p, p ∈ paths → p ∉ seen.
Proof.
  revert seen. induction paths as [|p paths IH]; intros seen; cbn [has_duplicate].
  - split; [split; [constructor|set_solver]|done].
  - rewrite orb_false, mem_false, IH, NoDup_cons. set_solver.
Qed.

(** C35: the managed sources of a bundle are compiled exactly: a bundle is accepted
    with the files [out] if and only if [out] holds, in the order of the sources, each
    ordinary file unchanged and for each managed text the protobuf bytes the compiler
    gave for its type, no output replaces a file of the sources and all paths differ.
    A managed text with permissions, an already compiled file, an oversized or empty
    text or output are refused; no managed text stays in the result. *)
Theorem managed_sources_compiled protoc files out :
  (compile_git_managed_protobuf_sources protoc files = Ok out ↔
     Forall2 (λ f g, compiled_from protoc f g ∧
                (f ≠ g → file_relative_path g ∉ map file_relative_path files)) files out ∧
     NoDup (map file_relative_path out)) ∧
  (compile_git_managed_protobuf_sources protoc files = Ok out →
     Forall (λ g, managed_textproto_type (file_relative_path g) = Ok None) out).
Proof.
  assert (Hiff : compile_git_managed_protobuf_sources protoc files = Ok out ↔
     Forall2 (λ f g, compiled_from protoc f g ∧
                (f ≠ g → file_relative_path g ∉ map file_relative_path files)) files out ∧
     NoDup (map file_relative_path out)).
  { unfold compile_git_managed_protobuf_sources. split.
    - intros Hc. apply bind_Ok in Hc as (compiled & Hm%try_map_Ok & Hc).
      apply bind_Ok in Hc as ([] & Hd%fail_if_Ok%has_duplicate_false & [= <-]).
      split; [|apply Hd]. eapply Forall2_impl; [done|]. intros ? ?. apply compile_file_Ok.
    - intros [Hf Hn]. rewrite (proj2 (try_map_Ok _ files out)); cbn [mbind result_bind].
      + rewrite (proj2 (has_duplicate_false [] _)); [done|]. set_solver.
      + eapply Forall2_impl; [done|]. intros ? ? ?. by apply compile_file_Ok. }
  split; [done|]. rewrite Hiff. intros [Hf _]. clear Hiff.
  induction Hf as [|f g ? ? [Hfg _] _ IH]; constructor; [by eapply compiled_is_not_text|done].
Qed.

(** ** Facts: the prepared bundle *)

Section NodeInd.
Context (P : fs_node → Prop).
Context (Hmeta : ∀ e, P (MetadataFailed e)) (Hlink : P SymlinkNode) (Hother : P OtherNode)
  (Hfile : ∀ c, P (FileNode c)) (Hread : ∀ e, P (DirNode (ReadDirFailed e)))
  (Henum : ∀ e, P (DirNode (EnumerateFailed e)))
  (Hdir : ∀ es, Forall (λ e, P (snd e)) es → P (DirNode (Entries es))).

Fixpoint fs_node_ind' (n : fs_node) : P n :=
  match n with
  | MetadataFailed e => Hmeta e
  | SymlinkNode => Hlink
  | OtherNode => Hother
  | FileNode c => Hfile c
  | DirNode (ReadDirFailed e) => Hread e
  | DirNode (EnumerateFailed e) => Henum e
  | DirNode (Entries es) => Hdir es
      ((fix go (es : list (string * fs_node)) : Forall (λ e, P (snd e)) es :=
          match es with
          | [] => Forall_nil_2 _
          | e :: es => Forall_cons_2 _ e es (fs_node_ind' (snd e)) (go es)
          end) es)
  end.
End NodeInd.

Lemma concat_results_Ok {A} (l : list (string * res (list A))) xs x :
  concat_results l = Ok xs → x ∈ xs → ∃ name ys, (name, Ok ys) ∈ l ∧ x ∈ ys.
Proof.
  revert xs. induction l as [|[name r] l IH]; intros xs; cbn [concat_results].
  - intros [= <-] ?. set_solver.
  - intros Hc. apply bind_Ok in Hc as (ys & -> & Hc). apply bind_Ok in Hc as (zs & Hz & [= <-]).
    intros [?|Hx]%elem_of_app; [exists name, ys; set_solver|].
    destruct (IH zs Hz Hx) as (n & ws & ? & ?). exists n, ws. set_solver.
Qed.

Lemma collect_listing_Ok {A} path (collect : string → A → res (list BundleFile)) l fs f :
  collect_listing path collect l = Ok fs → f ∈ fs →
  ∃ es e gs, l = Entries es ∧ e ∈ es ∧ collect (fst e) (snd e) = Ok gs ∧ f ∈ gs.
Proof.
  destruct l as [?|?|es]; [done..|]. cbn [collect_listing]. intros Hc Hf.
  destruct (concat_results_Ok _ _ _ Hc Hf) as (name & gs & Hin & Hg).
  rewrite sort_by_perm in Hin. apply list_elem_of_In, in_map_iff in Hin as (e & [= <- He] & Hin).
  exists es, e, gs. split_and!; [done|by apply list_elem_of_In|done..].
Qed.

Definition source_file (f : BundleFile) : Prop :=
  file_relative_path f ≠ ".env.runtime" ∧ file_executable f = false ∧ file_sensitive f = false.

Lemma collect_entry_source root relative n fs :
  collect_entry root relative n = Ok fs → ∀ f, f ∈ fs → source_file f.
Proof.
  revert relative fs. induction n as [| | |content| | |es IH] using fs_node_ind';
    intros relative fs; cbn [collect_entry]; [done..| |done|done|].
  - unfold bundle_file. intros Hc. apply bind_Ok in Hc as (? & _ & Hc).
    apply bind_Ok in Hc as (? & Hp%fail_if_Ok%str_eqb_false & Hc).
    apply bind_Ok in Hc as (? & _ & [= <-]). intros f ->%list_elem_of_singleton. done.
  - intros Hc f Hf. destruct (collect_listing_Ok _ _ _ _ _ Hc Hf) as (? & e & gs & [= <-] & He & Hg & Hfg).
    rewrite Forall_forall in IH. by eapply (IH e He).
Qed.
Lemma collected_sources dir fs :
  collect_bundle_files dir = Ok fs → ∀ f, f ∈ fs → source_file f.
Proof.
  intros Hc f Hf. destruct (collect_listing_Ok _ _ _ _ _ Hc Hf) as (es & e & gs & _ & _ & Hg & Hfg).
  by eapply collect_entry_source.
Qed.

Lemma compiled_source protoc f g : source_file f → compiled_from protoc f g → source_file g.
Proof.
  intros Hf [|kind path content (stem & _ & ->)%managed_textproto_output]; [done|].
  split_and!; [|done..]. cbn [plain_file file_relative_path]. intros E.
  apply (f_equal (str_take 1)) in E. by vm_compute in E.
Qed.
Lemma compiled_sources protoc files out :
  compile_git_managed_protobuf_sources protoc files = Ok out →
  (∀ f, f ∈ files → source_file f) → ∀ g, g ∈ out → source_file g.
Proof.
  intros Hc Hfiles g Hg. apply bind_Ok in Hc as (compiled & Hm%try_map_Ok & Hc).
  apply bind_Ok in Hc as (? & _ & [= ->]).
  apply list_elem_of_lookup in Hg as [i Hi].
  destruct (Forall2_lookup_r _ _ _ _ _ Hm Hi) as (f & Hf & [Hfg _]%compile_file_Ok).
  eapply compiled_source, Hfg. by apply Hfiles, list_elem_of_lookup_2 with i.
Qed.

Section PreparedFacts.
Context `{Sha256} `{SerdeJson} (protoc : string → bytes → protoc_run).

Lemma stack_entries_nodup request digest :
  canonical_apply_bundle_digest request = Ok digest →
  NoDup (map file_relative_path (apply_stack_files request)).
Proof using Type.
  intros (id & _ & _ & Hn & _)%canonical_digest_Ok. revert Hn. unfold bundle_entries.
  rewrite fmap_app, NoDup_app. intros [Hn _].
  apply (NoDup_fmap_1 (pair 1)). by rewrite <- !list_fmap_compose in *.
Qed.

(** A prepared bundle carries its own identity. The digest in the request is the
    canonical digest of that very request, so that the agent's recomputation accepts
    it; the release is the one the desired state and the artifact determine for that
    digest, so that every plan made with it has it as its target; the paths differ;
    the image environment and the runtime policy of the desired state are in it, and
    no file of the bundle is a runtime credential file, executable or sensitive. *)
Theorem prepared_bundle_exact dir d a env p :
  prepare_application_bundle_with_image_environment protoc dir d a env = Ok p →
  let request := prepared_request p in
  let release := prepared_release p in
  canonical_apply_bundle_digest request = Ok (rel_bundle_digest release) ∧
  apply_bundle_digest request = Some (rel_bundle_digest release) ∧
  desired_release d a (rel_bundle_digest release) = Ok release ∧
  (∀ o plan, plan_application d a (rel_bundle_digest release) o = Ok plan →
     ap_desired_release plan = release) ∧
  NoDup (map file_relative_path (apply_stack_files request)) ∧
  plain_file ".images.env" (as_bytes env) ∈ apply_stack_files request ∧
  plain_file ".env.runtime.policy" (as_bytes (render_runtime_policy_environment d))
    ∈ apply_stack_files request ∧
  (∀ f, f ∈ apply_stack_files request → source_file f).
Proof using Type.
  unfold prepare_application_bundle_with_image_environment, app_text. intros Hp.
  do 4 apply bind_Ok in Hp as (? & _ & Hp). apply bind_Ok in Hp as (collected & Hc & Hp).
  apply bind_Ok in Hp as (compiled & Hm & Hp). apply bind_Ok in Hp as (bundle_id & _ & Hp).
  apply bind_Ok in Hp as (digest & Hd & Hp).
  apply bind_Ok in Hp as (release & Hr%map_err_Ok & [= <-]).
  cbn [prepared_request prepared_release].
  assert (rel_bundle_digest release = digest) as ->.
  { by apply desired_release_Ok in Hr as (_ & _ & _ & h & _ & ->). }
  pose proof (compiled_sources protoc _ _ Hm (collected_sources _ _ Hc)) as Hs.
  split_and!; [exact Hd|done|done| |exact (stack_entries_nodup _ _ Hd)|..].
  - intros o plan (s & r & Hr' & _ & -> & _)%plan_application_cases. congruence.
  - apply elem_of_app. right. set_solver.
  - apply elem_of_app. right. set_solver.
  - intros f [[_ Hf]%list_elem_of_filter|Hf]%elem_of_app; [by apply Hs|].
    apply elem_of_cons in Hf as [->|Hf]; [done|]. by apply list_elem_of_singleton in Hf as ->.
Qed.
End PreparedFacts.

(** ** Witnesses *)
Module PrepareSample.
Import ApplicationSample.
Definition gateway : string := gateway_repository +:+ "@sha256:" +:+ hex64 "1".
Definition warp : string := warp_repository +:+ "@sha256:" +:+ hex64 "2".
Definition mesh : string := mesh_repository +:+ "@sha256:" +:+ hex64 "3".
Definition environment : string :=
  match candidate_application_image_environment gateway warp mesh with Ok t => t | Err _ => "" end.
Lemma environment_ok : candidate_application_image_environment gateway warp mesh = Ok environment.
Proof. vm_compute. reflexivity. Qed.

(** A compiler that encodes every text as one varint field *)
Definition protoc (kind : string) (raw : bytes) : protoc_run := Exited true [x08; x01].
Definition route : BundleFile := plain_file "managed/host-route-lab.textproto" [x61].
Definition compose : BundleFile := plain_file "compose.yml" [x62].
Definition compiled : list BundleFile :=
  [plain_file "managed/host-route-lab.pb" [x08; x01]; compose].
Lemma compiled_ok : compile_git_managed_protobuf_sources protoc [route; compose] = Ok compiled.
Proof. vm_compute. reflexivity. Qed.

Definition dir : bundle_dir := {|
  dir_path := "/repo/win/vultr-waw/stack"; dir_is_dir := true; dir_exists := λ _, false;
  dir_text := λ _, Ok environment;
  dir_entries := Entries
    [("managed", DirNode (Entries [("host-route-lab.textproto", FileNode (Ok [x61]))]));
     ("compose.yml", FileNode (Ok [x62])); (".images.env", FileNode (Ok [x00]))] |}.
Definition prepared : PreparedApplicationBundle :=
  match prepare_application_bundle_with_image_environment protoc dir desired artifact
          environment with
  | Ok p => p
  | Err _ => {| prepared_request := BundleSample.request []; prepared_release := previous |}
  end.
Lemma prepared_ok :
  prepare_application_bundle_with_image_environment protoc dir desired artifact environment
  = Ok prepared.
Proof. vm_compute. reflexivity. Qed.
End PrepareSample.

Lemma image_environment_exact_witness :
  validate_materialized_image_environment_content PrepareSample.environment = Ok tt.
Proof.
  apply (proj1 image_environment_exact PrepareSample.gateway PrepareSample.warp
    PrepareSample.mesh). exact PrepareSample.environment_ok.
Defined.
Lemma managed_sources_compiled_witness :
  Forall (λ g, managed_textproto_type (file_relative_path g) = Ok None) PrepareSample.compiled.
Proof.
  apply (proj2 (managed_sources_compiled PrepareSample.protoc
    [PrepareSample.route; PrepareSample.compose] PrepareSample.compiled)).
  exact PrepareSample.compiled_ok.
Defined.
Lemma prepared_bundle_exact_witness :
  map file_relative_path (apply_stack_files (prepared_request PrepareSample.prepared))
    = ["compose.yml"; "managed/host-route-lab.pb"; ".images.env"; ".env.runtime.policy"] ∧
  canonical_apply_bundle_digest (prepared_request PrepareSample.prepared)
    = Ok (rel_bundle_digest (prepared_release PrepareSample.prepared)).
Proof.
  split; [vm_compute; reflexivity|].
  apply (prepared_bundle_exact PrepareSample.protoc PrepareSample.dir ApplicationSample.desired
    ApplicationSample.artifact PrepareSample.environment). exact PrepareSample.prepared_ok.
Defined.
