(* ===== verification/ApplicationService.v ===== *)
(** * The application service

    Models [edge-orchestrator/src/application_lifecycle_service.rs] from
    [observe_application] on: the observation of a host, the execution of an
    authorized application plan and of an authorized rollback, the staging of the
    initial policy, and the remote steps they are made of, as programs over the
    calls of [app_call].

    Every step acts on the one host of its [ApplicationAuthority]; the calls leave
    that argument out. An RPC goes through the connection its function opened last.
    The event recorded when an uncertain mutation is resolved is a log line and left
    out. *)

From S2P Require Import Prelude RustStd RustText HostTypes Concrete Json PlanAuthority ApplyBundle.
From S2P Require Import LifecycleCommon Service ApplicationLifecycle ApplicationBundle.
From S2P Require Import HostLifecycle.

(** ** Messages *)

Inductive BootstrapMode : Set :=
| BootstrapUnspecified | BootstrapBase | BootstrapTunnel | BootstrapFull.
#[global] Instance BootstrapMode_eq_dec : EqDecision BootstrapMode.
Proof. solve_decision. Defined.
Definition BootstrapMode_as_i32 (v : BootstrapMode) : Z :=
  match v with
  | BootstrapUnspecified => 0 | BootstrapBase => 1 | BootstrapTunnel => 2 | BootstrapFull => 3
  end.
#[global] Program Instance BootstrapMode_enum : ProtoEnum BootstrapMode := {|
  as_i32 := BootstrapMode_as_i32;
  variants := [BootstrapUnspecified; BootstrapBase; BootstrapTunnel; BootstrapFull]
|}.
Next Obligation. by destruct e. Qed.

Inductive RuntimeProbeStatus : Set :=
| ProbeUnspecified | ProbeOk | ProbeTimeout | ProbeCommandNotFound | ProbePermissionDenied
| ProbeUnsupported | ProbeNonZero | ProbeEmpty | ProbeParseError | ProbeOutputLimit.
Definition RuntimeProbeStatus_as_i32 (v : RuntimeProbeStatus) : Z :=
  match v with
  | ProbeUnspecified => 0 | ProbeOk => 1 | ProbeTimeout => 2 | ProbeCommandNotFound => 3
  | ProbePermissionDenied => 4 | ProbeUnsupported => 5 | ProbeNonZero => 6 | ProbeEmpty => 7
  | ProbeParseError => 8 | ProbeOutputLimit => 9
  end.
#[global] Program Instance RuntimeProbeStatus_enum : ProtoEnum RuntimeProbeStatus := {|
  as_i32 := RuntimeProbeStatus_as_i32;
  variants := [ProbeUnspecified; ProbeOk; ProbeTimeout; ProbeCommandNotFound;
               ProbePermissionDenied; ProbeUnsupported; ProbeNonZero; ProbeEmpty;
               ProbeParseError; ProbeOutputLimit]
|}.
Next Obligation. by destruct e. Qed.

Record ApplicationBundleReleaseState : Type := {
  abr_schema_version : Z;
  abr_bundle_id : string;
  abr_bundle_digest : string
}.
#[global] Instance ApplicationBundleReleaseState_eq_dec :
  EqDecision ApplicationBundleReleaseState.
Proof. solve_decision. Defined.
Record PublishedApplicationReleaseState : Type := {
  prs_release_id : string;
  prs_source_revision : string;
  prs_agent_sha256 : string;
  prs_bundle_digest : string;
  prs_bootstrap_mode : Z
}.
#[global] Instance PublishedApplicationReleaseState_eq_dec :
  EqDecision PublishedApplicationReleaseState.
Proof. solve_decision. Defined.
Record ApplicationControlStateRecord : Type := {
  acr_schema_version : Z;
  acr_current : option PublishedApplicationReleaseState;
  acr_previous : option PublishedApplicationReleaseState
}.
#[global] Instance ApplicationControlStateRecord_eq_dec :
  EqDecision ApplicationControlStateRecord.
Proof. solve_decision. Defined.

(** The responses of the agent, with the fields that the service reads *)
Record BundleResponse : Type := {
  br_active_bundle_id : option string;
  br_active_bundle_digest : option string
}.
Record AgentState : Type := {
  ags_ready : bool;
  ags_mesh_runtime_ready : option bool
}.
Record BootstrapRuntimeResponse : Type := {
  brr_success : bool;
  brr_exit_code : Z;
  brr_post_state : option AgentState;
  brr_warnings : list string
}.
Record MeshContainerDiagnostics : Type := {
  mcd_present : bool;
  mcd_running : bool;
  mcd_image : option string;
  mcd_restart_count : option Z;
  mcd_oom_killed : option bool;
  mcd_networks : list string
}.
(** The status of the probe of each part of the host, where there is one *)
Record HostRuntimeDiagnostics : Type := {
  hrd_identity_probe : option Z;
  hrd_time_probe : option Z;
  hrd_resources_probe : option Z
}.
Record MeshRuntimeDiagnostics : Type := {
  mrd_warp_status_probe : option Z;
  mrd_warp_connection_state : option string;
  mrd_warp_settings_probe : option Z;
  mrd_tunnel_protocol : option string;
  mrd_ipv4_forwarding_probe : option Z;
  mrd_ipv4_forwarding : option bool;
  mrd_mesh_network_attached : bool;
  mrd_container : option MeshContainerDiagnostics;
  mrd_host : option HostRuntimeDiagnostics
}.
Record MeshRuntimeFailureSnapshot : Type := {
  mfs_observed_unix_time_seconds : Z;
  mfs_reasons : list string
}.
Record MeshRuntimeState : Type := {
  mrs_token_store_present : bool;
  mrs_container_running : bool;
  mrs_exact_image_ready : bool;
  mrs_runtime_ready : bool;
  mrs_warnings : list string;
  mrs_diagnostics : option MeshRuntimeDiagnostics;
  mrs_last_failure_snapshot : option MeshRuntimeFailureSnapshot;
  mrs_registration_id : option string
}.

(** ** The calls *)

Inductive app_call : Type → Type :=
| IsFile (path : string) : app_call bool
| ReadFile (path : string) : app_call (res bytes)
| UniqueTempFile (prefix : string) : app_call string
| WriteFile (path : string) (content : bytes) : app_call (res unit)
| RemoveFile (path : string) : app_call unit
| SshCapture (command : string) : app_call (res string)
| SshRun (command : string) : app_call (res unit)
| ScpUpload (local remote : string) : app_call (res unit)
| StartTunnel : app_call (res Z)
| ConnectAgent (endpoint : string) : app_call (res unit)
| StageInitialPolicyRpc (request : ApplyBundleRequest) : app_call (res BundleResponse)
| ApplyBundleRpc (request : ApplyBundleRequest) : app_call (res BundleResponse)
| RollbackBundleRpc (expected_current_bundle_digest : string) : app_call (res BundleResponse)
| BootstrapRuntimeRpc (mode : Z) : app_call (res BootstrapRuntimeResponse)
| VerifyRuntimeRpc (require_readiness : bool) (mode : Z) : app_call (res AgentState)
| VerifyMeshRuntimeRpc : app_call (res MeshRuntimeState)
| ConvergeMeshRuntimeRpc (node_token registration_id : string)
    : app_call (res MeshRuntimeState)
| CleanupMeshRuntimeRpc : app_call (res MeshRuntimeState)
| ObserveIpv4NetworkRpc : app_call (res Ipv4NetworkObservation)
| SleepMillis (delay : Z) : app_call unit.

Abbreviation app := (fservice app_call string).

(** [match p.await { Ok(..) => .., Err(..) => .. }] *)
Definition attempt {A} (p : app A) : app (res A) := service_bind p (λ r, Return (Ok r)).
(** [.map_err(f)?] on a call or a step *)
Definition with_error {A} (f : string → string) (p : app A) : app A :=
  service_bind p (λ r, Return (map_err f r)).
Definition step {A} (r : res A) : app A := pure_step r.
Definition authority_text {A} (r : result PlanAuthorityError A) : res A :=
  map_err authority_error_text r.

(** ** Texts *)

Definition REMOTE_ROOT : string := "/opt/vultr-edge-stack".
Definition REMOTE_AGENT : string := "/opt/vultr-edge-stack/bin/edge-agent".
Definition REMOTE_PREVIOUS_AGENT : string := "/opt/vultr-edge-stack/bin/edge-agent.previous".
Definition REMOTE_STACK_RELEASE : string :=
  "/opt/vultr-edge-stack/stack/.application-release.pb".
Definition REMOTE_PREVIOUS_STACK_RELEASE : string :=
  "/opt/vultr-edge-stack/stack.previous/.application-release.pb".
Definition REMOTE_STAGING_STACK_RELEASE : string :=
  "/opt/vultr-edge-stack/stack.next/.application-release.pb".
Definition REMOTE_CONTROL_RELEASE : string := "/opt/vultr-edge-stack/application-release.pb".
Definition REMOTE_CONTROL_RELEASE_STAGING : string := "/tmp/singbox-application-release.pb.tmp".
Definition AGENT_DROPIN_PATH : string :=
  "/etc/systemd/system/edge-agent.service.d/90-application-control.conf".
Definition AGENT_DROPIN_CONTENT : string :=
  "[Service]" +:+ nl +:+ "Environment=EDGE_AGENT_ADDR=127.0.0.1:50061" +:+ nl
  +:+ "EnvironmentFile=" +:+ nl.
Definition READ_ONLY_RUNTIME_REOBSERVE_ATTEMPTS : nat := 45.
Definition READ_ONLY_RUNTIME_REOBSERVE_DELAY : Z := 2000.
Definition UNCERTAIN_BUNDLE_REOBSERVE_ATTEMPTS : nat := 45.
Definition UNCERTAIN_BUNDLE_REOBSERVE_DELAY : Z := 2000.

(** A shell command; a backquote stands for the double quote of the source. *)
Definition shell (command : string) : string := replace_char "`" "034" command.

Definition application_agent_forensic_command : string := shell
    ("marker_sha() { path=`$1`; if sudo test -f `$path`; then sudo sha256sum "
     +:+ "`$path` 2>/dev/null | cut -d ' ' -f1 || printf unreadable; else printf "
     +:+ "absent; fi; }; active=$(marker_sha '" +:+ REMOTE_STACK_RELEASE
     +:+ "'); staging=$(marker_sha '" +:+ REMOTE_STAGING_STACK_RELEASE
     +:+ "'); previous=$(marker_sha '" +:+ REMOTE_PREVIOUS_STACK_RELEASE
     +:+ "'); agent='" +:+ REMOTE_AGENT
     +:+ "'; if sudo test -f `$agent`; then agent_present=yes; agent_sha256=$(sudo "
     +:+ "sha256sum `$agent` 2>/dev/null | cut -d ' ' -f1 || printf unreadable); "
     +:+ "agent_mode=$(sudo stat -c '%a' `$agent` 2>/dev/null || printf unreadable); "
     +:+ "agent_uid=$(sudo stat -c '%u' `$agent` 2>/dev/null || printf unreadable); "
     +:+ "agent_gid=$(sudo stat -c '%g' `$agent` 2>/dev/null || printf unreadable); "
     +:+ "agent_size=$(sudo stat -c '%s' `$agent` 2>/dev/null || printf unreadable); "
     +:+ "agent_elf_magic=$(sudo od -An -tx1 -N4 `$agent` 2>/dev/null | tr -d ' \n' || "
     +:+ "printf unreadable); agent_elf_machine=$(sudo dd if=`$agent` bs=1 skip=18 "
     +:+ "count=2 status=none 2>/dev/null | od -An -tu2 | tr -d ' ' || printf "
     +:+ "unreadable); else agent_present=no; agent_sha256=absent; agent_mode=absent; "
     +:+ "agent_uid=absent; agent_gid=absent; agent_size=absent; "
     +:+ "agent_elf_magic=absent; agent_elf_machine=absent; fi; if sudo test -x "
     +:+ "`$agent`; then agent_executable=yes; else agent_executable=no; fi; "
     +:+ "host_arch=$(uname -m 2>/dev/null || printf unknown); if command -v findmnt "
     +:+ ">/dev/null 2>&1 && findmnt -no OPTIONS -T `$agent` 2>/dev/null | tr ',' '\n' "
     +:+ "| grep -qx noexec; then agent_mount_noexec=yes; else agent_mount_noexec=no; "
     +:+ "fi; unit_load=$(systemctl show edge-agent.service -p LoadState --value "
     +:+ "2>/dev/null || true); unit_fragment=$(systemctl show edge-agent.service -p "
     +:+ "FragmentPath --value 2>/dev/null || true); unit_exec=$(systemctl show "
     +:+ "edge-agent.service -p ExecStart --value 2>/dev/null || true); if printf '%s' "
     +:+ "`$unit_exec` | grep -Fq '" +:+ REMOTE_AGENT
     +:+ " acceptance-serve'; then unit_exec_expected=yes; else unit_exec_expected=no; "
     +:+ "fi; unit_workdir=$(systemctl show edge-agent.service -p WorkingDirectory "
     +:+ "--value 2>/dev/null || true); if test `$unit_workdir` = '" +:+ REMOTE_ROOT
     +:+ "'; then unit_workdir_expected=yes; else unit_workdir_expected=no; fi; if sudo "
     +:+ "test -f '" +:+ AGENT_DROPIN_PATH
     +:+ "'; then dropin_present=yes; dropin_sha256=$(sudo sha256sum '"
     +:+ AGENT_DROPIN_PATH
     +:+ "' 2>/dev/null | cut -d ' ' -f1 || printf unreadable); else dropin_present=no; "
     +:+ "dropin_sha256=absent; fi; unit_active=$(systemctl is-active "
     +:+ "edge-agent.service 2>/dev/null || true); unit_sub=$(systemctl show "
     +:+ "edge-agent.service -p SubState --value 2>/dev/null || true); "
     +:+ "unit_result=$(systemctl show edge-agent.service -p Result --value 2>/dev/null "
     +:+ "|| true); unit_restarts=$(systemctl show edge-agent.service -p NRestarts "
     +:+ "--value 2>/dev/null || true); unit_main_code=$(systemctl show "
     +:+ "edge-agent.service -p ExecMainCode --value 2>/dev/null || true); "
     +:+ "unit_status=$(systemctl show edge-agent.service -p ExecMainStatus --value "
     +:+ "2>/dev/null || true); journal=$(sudo journalctl -u edge-agent.service -n 40 "
     +:+ "--no-pager -o cat 2>/dev/null || true); journal_class=OTHER; if printf '%s' "
     +:+ "`$journal` | grep -qi 'No such file or directory'; then journal_class=ENOENT; "
     +:+ "elif printf '%s' `$journal` | grep -qi 'Permission denied'; then "
     +:+ "journal_class=EACCES; elif printf '%s' `$journal` | grep -qi 'Exec format "
     +:+ "error'; then journal_class=ENOEXEC; fi; if printf '%s' `$journal` | grep -qi "
     +:+ "'Failed at step EXEC'; then journal_exec_failure=yes; else "
     +:+ "journal_exec_failure=no; fi; unset journal; listener=$(ss -ltnH 'sport = "
     +:+ ":50061' 2>/dev/null | wc -l | tr -d ' ' || true); boot_id=$(cat "
     +:+ "/proc/sys/kernel/random/boot_id 2>/dev/null || true); printf 'active=%s "
     +:+ "staging=%s previous=%s agent_present=%s agent_executable=%s agent_sha256=%s "
     +:+ "agent_mode=%s agent_uid=%s agent_gid=%s agent_size=%s agent_elf_magic=%s "
     +:+ "agent_elf_machine=%s host_arch=%s agent_mount_noexec=%s unit_load=%s "
     +:+ "unit_fragment=%s unit_exec_expected=%s unit_workdir_expected=%s "
     +:+ "dropin_present=%s dropin_sha256=%s unit_active=%s unit_sub=%s unit_result=%s "
     +:+ "unit_restarts=%s unit_main_code=%s unit_status=%s journal_exec_failure=%s "
     +:+ "journal_class=%s listener=%s boot_id=%s' `$active` `$staging` `$previous` "
     +:+ "`$agent_present` `$agent_executable` `$agent_sha256` `$agent_mode` "
     +:+ "`$agent_uid` `$agent_gid` `$agent_size` `$agent_elf_magic` "
     +:+ "`$agent_elf_machine` `$host_arch` `$agent_mount_noexec` `$unit_load` "
     +:+ "`$unit_fragment` `$unit_exec_expected` `$unit_workdir_expected` "
     +:+ "`$dropin_present` `$dropin_sha256` `$unit_active` `$unit_sub` `$unit_result` "
     +:+ "`$unit_restarts` `$unit_main_code` `$unit_status` `$journal_exec_failure` "
     +:+ "`$journal_class` `$listener` `$boot_id`").
Definition install_agent_command (digest candidate : string) : string := shell
    ("set -eu; expected='" +:+ digest +:+ "'; candidate='" +:+ candidate
     +:+ "'; actual=$(sha256sum `$candidate` | cut -d ' ' -f1); test `$actual` = "
     +:+ "`$expected`; sudo install -d -m 0755 " +:+ REMOTE_ROOT
     +:+ "/bin /etc/systemd/system/edge-agent.service.d; if sudo test -f "
     +:+ REMOTE_AGENT +:+ "; then sudo cp -f " +:+ REMOTE_AGENT +:+ " "
     +:+ REMOTE_PREVIOUS_AGENT +:+ "; fi; sudo install -m 0755 `$candidate` "
     +:+ REMOTE_AGENT +:+ ".next; actual=$(sudo sha256sum " +:+ REMOTE_AGENT
     +:+ ".next | cut -d ' ' -f1); test `$actual` = `$expected`; printf '%s\n' "
     +:+ "'[Service]' 'Environment=EDGE_AGENT_ADDR=127.0.0.1:50061' 'EnvironmentFile=' "
     +:+ "| sudo tee " +:+ AGENT_DROPIN_PATH +:+ " >/dev/null; sudo mv -f "
     +:+ REMOTE_AGENT +:+ ".next " +:+ REMOTE_AGENT
     +:+ "; rm -f `$candidate`; sudo systemctl daemon-reload; sudo systemctl enable "
     +:+ "edge-agent.service >/dev/null; sudo systemctl restart edge-agent.service; "
     +:+ "sudo systemctl is-active --quiet edge-agent.service").
Definition private_service_command : string := shell
    ("set -eu; sudo install -d -m 0755 /etc/systemd/system/edge-agent.service.d; "
     +:+ "printf '%s\n' '[Service]' 'Environment=EDGE_AGENT_ADDR=127.0.0.1:50061' "
     +:+ "'EnvironmentFile=' | sudo tee " +:+ AGENT_DROPIN_PATH
     +:+ " >/dev/null; sudo systemctl daemon-reload; sudo systemctl restart "
     +:+ "edge-agent.service; sudo systemctl is-active --quiet edge-agent.service").
Definition rollback_agent_command : string := shell
    ("set -eu; sudo cp -f " +:+ REMOTE_AGENT +:+ " " +:+ REMOTE_AGENT
     +:+ ".rollback; sudo mv -f " +:+ REMOTE_PREVIOUS_AGENT +:+ " " +:+ REMOTE_AGENT
     +:+ "; sudo mv -f " +:+ REMOTE_AGENT +:+ ".rollback " +:+ REMOTE_PREVIOUS_AGENT
     +:+ "; sudo systemctl restart edge-agent.service; sudo systemctl is-active --quiet "
     +:+ "edge-agent.service").
Definition publish_command : string := shell
    ("set -eu; sudo install -d -m 0755 " +:+ REMOTE_ROOT +:+ "; sudo install -m 0644 "
     +:+ REMOTE_CONTROL_RELEASE_STAGING +:+ " " +:+ REMOTE_CONTROL_RELEASE +:+ "; rm -f "
     +:+ REMOTE_CONTROL_RELEASE_STAGING).
Definition file_sha_command (remote_path : string) : string := shell
    ("if sudo test -f " +:+ remote_path +:+ "; then sudo sha256sum " +:+ remote_path
     +:+ " | cut -d ' ' -f1; fi").
Definition read_bytes_command (remote_path : string) : string := shell
    ("if sudo test -f " +:+ remote_path +:+ "; then sudo od -An -v -tx1 " +:+ remote_path
     +:+ " | tr -d ' \n'; fi").
Definition read_dropin_command : string :=
  "sudo cat " +:+ AGENT_DROPIN_PATH +:+ " 2>/dev/null || true".
Definition runtime_present_command : string :=
  "if sudo test -e /opt/vultr-edge-stack/stack/.env.runtime; then printf present; "
  +:+ "else printf absent; fi".

(** [value.chars().take(limit)], on the bytes of UTF-8 *)
Definition is_continuation (c : ascii) : bool := between 128 191 c.
Fixpoint bounded_detail (value : string) (limit : nat) : string :=
  match value with
  | EmptyString => ""
  | String c value =>
      if is_continuation c then String c (bounded_detail value limit)
      else match limit with
           | O => ""
           | S limit => String c (bounded_detail value limit)
           end
  end.

Definition is_ascii_whitespace (c : ascii) : bool :=
  one_of " " c || between 9 10 c || between 12 13 c.
Definition decode_hex_bytes (value label : string) : res bytes :=
  let compact := str_filter (λ c, negb (is_ascii_whitespace c)) value in
  if str_empty compact then Ok [] else
  fail_if (negb (slen compact mod 2 =? 0) || negb (str_all is_ascii_hexdigit compact))
    (label +:+ " returned invalid hex bytes") ;;
  decode_hex_pairs (label +:+ " returned invalid hex byte") compact.

(** [format!("{z}")] of a signed integer *)
Definition dec_signed (z : Z) : string := if z <? 0 then "-" +:+ dec (- z) else dec z.
Definition bool_text (b : bool) : string := if b then "true" else "false".
Definition runtime_probe_status_label (value : Z) : string :=
  match default ProbeUnspecified (try_from value) with
  | ProbeUnspecified => "UNSPECIFIED"
  | ProbeOk => "OK"
  | ProbeTimeout => "TIMEOUT"
  | ProbeCommandNotFound => "COMMAND_NOT_FOUND"
  | ProbePermissionDenied => "PERMISSION_DENIED"
  | ProbeUnsupported => "UNSUPPORTED"
  | ProbeNonZero => "NON_ZERO"
  | ProbeEmpty => "EMPTY"
  | ProbeParseError => "PARSE_ERROR"
  | ProbeOutputLimit => "OUTPUT_LIMIT"
  end.
Definition probe_text (o : option Z) : string :=
  match o with Some value => runtime_probe_status_label value | None => "UNSPECIFIED" end.
Definition some_true (o : option bool) : bool := default false o.
Definition opt_text {A} (f : A → string) (none : string) (o : option A) : string :=
  match o with Some a => f a | None => none end.

Definition mesh_provider_failure_evidence (state : MeshRuntimeState)
    (expected_registration : string) : string :=
  let diagnostics := mrs_diagnostics state in
  let container := diagnostics ≫= mrd_container in
  let warp_state :=
    match diagnostics ≫= mrd_warp_connection_state with
    | Some "CONNECTED" => "CONNECTED" | Some "DISCONNECTED" => "DISCONNECTED"
    | Some _ => "OTHER" | None => "UNKNOWN"
    end in
  let protocol :=
    match diagnostics ≫= mrd_tunnel_protocol with
    | Some "MASQUE" => "MASQUE" | Some "WIREGUARD" => "WIREGUARD"
    | Some _ => "OTHER" | None => "UNKNOWN"
    end in
  "local_diagnostic=OBSERVED runtime_ready=" +:+ bool_text (mrs_runtime_ready state)
  +:+ " exact_image_ready=" +:+ bool_text (mrs_exact_image_ready state)
  +:+ " registration_match="
  +:+ bool_text (bool_decide (mrs_registration_id state = Some expected_registration))
  +:+ " token_store_present=" +:+ bool_text (mrs_token_store_present state)
  +:+ " container_running=" +:+ bool_text (mrs_container_running state)
  +:+ " warp_state=" +:+ warp_state +:+ " tunnel_protocol=" +:+ protocol
  +:+ " warp_status_probe=" +:+ probe_text (diagnostics ≫= mrd_warp_status_probe)
  +:+ " warp_settings_probe=" +:+ probe_text (diagnostics ≫= mrd_warp_settings_probe)
  +:+ " ipv4_forwarding=" +:+ opt_text bool_text "unknown" (diagnostics ≫= mrd_ipv4_forwarding)
  +:+ " forwarding_probe=" +:+ probe_text (diagnostics ≫= mrd_ipv4_forwarding_probe)
  +:+ " mesh_network_attached="
  +:+ bool_text (some_true (mrd_mesh_network_attached <$> diagnostics))
  +:+ " container_restart_count=" +:+ opt_text dec "unknown" (container ≫= mcd_restart_count)
  +:+ " container_oom_killed=" +:+ opt_text bool_text "unknown" (container ≫= mcd_oom_killed)
  +:+ " last_failure_reason_count="
  +:+ dec (match mrs_last_failure_snapshot state with
           | Some s => Z.of_nat (length (mfs_reasons s))
           | None => 0
           end).

(** What the texts take from outside: the display of prost's decoding error, and
    [{:?}] of a string, which rests on the Unicode tables *)
Class TextForms := {
  decode_error : bytes → string;
  debug_str : string → string
}.

Section Texts.
Context `{TextForms}.
Definition debug_option (o : option string) : string :=
  match o with Some s => "Some(" +:+ debug_str s +:+ ")" | None => "None" end.
Definition debug_strings (l : list string) : string :=
  "[" +:+ join ", " (map debug_str l) +:+ "]".

Definition mesh_runtime_evidence_summary (state : MeshRuntimeState) : string :=
  let diagnostics := mrs_diagnostics state in
  let container := diagnostics ≫= mrd_container in
  let host := diagnostics ≫= mrd_host in
  let last_failure := mrs_last_failure_snapshot state in
  let reasons :=
    match last_failure with
    | Some snapshot =>
        let text := join "|" (map (λ r, bounded_detail r 160) (take 6 (mfs_reasons snapshot))) in
        if str_empty text then "none" else text
    | None => "none"
    end in
  "runtime_ready=" +:+ bool_text (mrs_runtime_ready state)
  +:+ " exact_image_ready=" +:+ bool_text (mrs_exact_image_ready state)
  +:+ " registration_id=" +:+ default "missing" (mrs_registration_id state)
  +:+ " warp_state=" +:+ default "UNKNOWN" (diagnostics ≫= mrd_warp_connection_state)
  +:+ " tunnel_protocol=" +:+ default "UNKNOWN" (diagnostics ≫= mrd_tunnel_protocol)
  +:+ " warp_status=" +:+ probe_text (diagnostics ≫= mrd_warp_status_probe)
  +:+ " warp_settings=" +:+ probe_text (diagnostics ≫= mrd_warp_settings_probe)
  +:+ " container_present=" +:+ bool_text (some_true (mcd_present <$> container))
  +:+ " container_running=" +:+ bool_text (some_true (mcd_running <$> container))
  +:+ " container_image=" +:+ default "unknown" (container ≫= mcd_image)
  +:+ " container_networks=" +:+ debug_strings (default [] (mcd_networks <$> container))
  +:+ " restart_count=" +:+ opt_text dec "unknown" (container ≫= mcd_restart_count)
  +:+ " oom_killed=" +:+ opt_text bool_text "unknown" (container ≫= mcd_oom_killed)
  +:+ " host_identity=" +:+ probe_text (host ≫= hrd_identity_probe)
  +:+ " host_time=" +:+ probe_text (host ≫= hrd_time_probe)
  +:+ " host_resources=" +:+ probe_text (host ≫= hrd_resources_probe)
  +:+ " last_failure_at=" +:+ opt_text (λ s, dec (mfs_observed_unix_time_seconds s)) "none"
                                last_failure
  +:+ " last_failure_reasons=" +:+ reasons.
End Texts.

(** ** Control state *)

Record ApplicationControlState : Type := {
  cs_schema : Z;
  cs_current : PublishedApplicationRelease;
  cs_previous : option PublishedApplicationRelease
}.
#[global] Instance ApplicationControlState_eq_dec : EqDecision ApplicationControlState.
Proof. solve_decision. Defined.

Definition proto_bootstrap_mode (mode : ApplicationBootstrapMode) : BootstrapMode :=
  match mode with
  | ModeBase => BootstrapBase
  | ModeTunnel => BootstrapTunnel
  | ModeFull => BootstrapFull
  end.
Definition mode_i32 (mode : ApplicationBootstrapMode) : Z := as_i32 (proto_bootstrap_mode mode).

Definition published_release_to_proto (r : PublishedApplicationRelease)
    : PublishedApplicationReleaseState := {|
  prs_release_id := rel_release_id r; prs_source_revision := rel_source_revision r;
  prs_agent_sha256 := rel_agent_sha256 r; prs_bundle_digest := rel_bundle_digest r;
  prs_bootstrap_mode := mode_i32 (rel_bootstrap_mode r) |}.

Definition published_release_from_proto (r : PublishedApplicationReleaseState)
    : res PublishedApplicationRelease :=
  validate_lower_hex "published release source_revision" (prs_source_revision r) 40 ;;
  validate_lower_hex "published release agent_sha256" (prs_agent_sha256 r) 64 ;;
  validate_lower_hex "published release bundle_digest" (prs_bundle_digest r) 64 ;;
  fail_if (str_empty (trim (prs_release_id r))) "published release id must be non-empty" ;;
  mode ← ok_or (try_from (prs_bootstrap_mode r)) "published release bootstrap mode is unknown";
  bootstrap_mode ← match mode with
    | BootstrapBase => Ok ModeBase
    | BootstrapTunnel => Ok ModeTunnel
    | BootstrapFull => Ok ModeFull
    | BootstrapUnspecified => Err "published release bootstrap mode is required"
    end;
  Ok {| rel_release_id := prs_release_id r; rel_source_revision := prs_source_revision r;
        rel_agent_sha256 := prs_agent_sha256 r; rel_bundle_digest := prs_bundle_digest r;
        rel_bootstrap_mode := bootstrap_mode |}.

Definition application_control_to_proto (s : ApplicationControlState)
    : res ApplicationControlStateRecord :=
  fail_if (negb (cs_schema s =? 1))
    ("unsupported application release control schema " +:+ dec (cs_schema s)) ;;
  Ok {| acr_schema_version := cs_schema s;
        acr_current := Some (published_release_to_proto (cs_current s));
        acr_previous := published_release_to_proto <$> cs_previous s |}.

Definition application_control_from_proto (r : ApplicationControlStateRecord)
    : res ApplicationControlState :=
  current ← ok_or (acr_current r) "application release control state is missing current release";
  current ← published_release_from_proto current;
  previous ← match acr_previous r with
    | Some p => p ← published_release_from_proto p; Ok (Some p)
    | None => Ok None
    end;
  Ok {| cs_schema := acr_schema_version r; cs_current := current; cs_previous := previous |}.

(** ** JSON forms *)

Definition line1_value (l : Line1RuntimePolicy) : Value := obj
  [("tunnel_domain", VString (l1_tunnel_domain l)); ("acme_email", VString (l1_acme_email l));
   ("acme_provider", VString (l1_acme_provider l));
   ("reality_server_name", VString (l1_reality_server_name l))].
Definition line2_value (l : Line2RuntimePolicy) : Value := obj
  [("proxy_username", VString (l2_proxy_username l));
   ("proxy_cert_cn", VString (l2_proxy_cert_cn l))].
Definition desired_app_value (d : DesiredApplicationState) : Value := obj
  [("schema", VNumber (Z.to_N (da_schema d))); ("environment", VString (da_environment d));
   ("vultr_spec_path", VString (da_vultr_spec_path d));
   ("machine_id", VString (da_machine_id d));
   ("application_profile", VString (da_application_profile d));
   ("bundle_root", VString (da_bundle_root d));
   ("runtime_env_required", VBool (da_runtime_env_required d));
   ("runtime_policy", obj (ApplicationLifecycle.entry "line1" line1_value
                             (rp_line1 (da_runtime_policy d))
      ++ ApplicationLifecycle.entry "line2" line2_value (rp_line2 (da_runtime_policy d))));
   ("bootstrap_mode", VString (mode_str (da_bootstrap_mode d)))].
#[global] Instance desired_app_serialize : Serialize DesiredApplicationState :=
  λ d, Ok (desired_app_value d).
Definition artifact_value (a : AgentArtifactManifest) : Value := obj
  [("schema", VNumber (Z.to_N (am_schema a)));
   ("source_revision", VString (am_source_revision a)); ("sha256", VString (am_sha256 a))].
Definition nullable {A} (f : A → Value) (o : option A) : Value :=
  match o with Some a => f a | None => VNull end.
#[global] Instance app_observation_serialize : Serialize ApplicationObservation := λ o, Ok (obj
  [("observed_agent_sha256", nullable VString (ao_observed_agent_sha256 o));
   ("observed_bundle_digest", nullable VString (ao_observed_bundle_digest o));
   ("runtime_ready", VBool (ao_runtime_ready o));
   ("current_release", nullable release_value (ao_current_release o));
   ("previous_release", nullable release_value (ao_previous_release o))]).
Definition app_class_name (c : ApplicationPlanClass) : string :=
  match c with
  | ClassNoop => "NOOP" | ClassApply => "APPLY" | ClassUpgrade => "UPGRADE"
  | ClassBlocked => "BLOCKED"
  end.
(** [{:?}] *)
Definition app_class_debug (c : ApplicationPlanClass) : string :=
  match c with
  | ClassNoop => "Noop" | ClassApply => "Apply" | ClassUpgrade => "Upgrade"
  | ClassBlocked => "Blocked"
  end.
Definition app_action_name (a : ApplicationAction) : string :=
  match a with
  | InstallAgent => "INSTALL_AGENT" | ApplyBundle => "APPLY_BUNDLE" | Bootstrap => "BOOTSTRAP"
  | Verify => "VERIFY" | PublishRelease => "PUBLISH_RELEASE"
  end.
#[global] Instance app_plan_serialize : Serialize ApplicationPlan := λ p, Ok (obj
  [("class", VString (app_class_name (ap_class p)));
   ("desired_state_digest", VString (ap_desired_state_digest p));
   ("desired_release", release_value (ap_desired_release p));
   ("actions", VArray (map (λ a, VString (app_action_name a)) (ap_actions p)));
   ("reasons", VArray (map VString (ap_reasons p)))]).
#[global] Instance rollback_plan_serialize : Serialize RollbackPlan := λ p, Ok (obj
  [("machine_id", VString (rb_machine_id p));
   ("current_release", release_value (rb_current_release p));
   ("previous_release", release_value (rb_previous_release p));
   ("rollback_digest", VString (rb_rollback_digest p))]).

#[global] Instance RollbackPlan_eq_dec : EqDecision RollbackPlan.
Proof. solve_decision. Defined.

(** ** Remote steps *)

Record BundleObservationResolution : Type := { observation_attempts : nat }.
Inductive DesiredMutationMode : Set := ModeApply | ModeUpgrade.
#[global] Instance DesiredMutationMode_eq_dec : EqDecision DesiredMutationMode.
Proof. solve_decision. Defined.
Definition mutation_mode_str (m : DesiredMutationMode) : string :=
  match m with ModeApply => "apply" | ModeUpgrade => "upgrade" end.

(** [ApplicationObservationView] has the fields of the observation. *)
Record ApplicationExecutionReport : Type := {
  aer_operation : string;
  aer_initial_plan : ApplicationPlan;
  aer_final_plan : ApplicationPlan;
  aer_final_observation : ApplicationObservation
}.

Definition opt_is (o : option string) (value : string) : bool := bool_decide (o = Some value).
Definition sleep_unless_last (n : nat) (delay : Z) : app unit :=
  if (0 <? n)%nat then invoke (SleepMillis delay) else mret tt.

(** The attempts of [connect_agent]; [n] of 20 are left. *)
Fixpoint connect_loop (endpoint : string) (n : nat) (last : option string) : app unit :=
  match n with
  | O => step (Err ("edge-agent did not become reachable through strict SSH tunnel: "
           +:+ default "no connection attempt completed" last))
  | S n =>
      answer ← invoke (ConnectAgent endpoint);
      match answer with
      | Ok _ => mret tt
      | Err e => invoke (SleepMillis 250) ;; connect_loop endpoint n (Some e)
      end
  end.
Definition connect_agent : app unit :=
  port ← invoke_res StartTunnel;
  connect_loop ("http://127.0.0.1:" +:+ dec port) 20 None.

Definition remote_file_sha (remote_path : string) : app (option string) :=
  value ← invoke_res (SshCapture (file_sha_command remote_path));
  if str_empty value then mret None else
  step (validate_lower_hex "remote sha256" value 64) ;;
  mret (Some value).

Definition read_remote_protobuf_bytes (remote_path : string) : app (option bytes) :=
  hex ← invoke_res (SshCapture (read_bytes_command remote_path));
  decoded ← step (decode_hex_bytes hex remote_path);
  mret (if is_empty decoded then None else Some decoded).

Definition exact_bundle_digest_observed (observed : option ApplicationBundleReleaseState)
    (expected_digest : string) : bool :=
  match observed with
  | Some value => str_eqb (abr_bundle_digest value) expected_digest
  | None => false
  end.

Definition application_agent_forensic_summary : app string :=
  answer ← invoke (SshCapture application_agent_forensic_command);
  mret match answer with
       | Ok value => bounded_detail value 2400
       | Err e => "forensic_unavailable=" +:+ bounded_detail e 512
       end.

Section Remote.
Context `{Sha256} `{SerdeJson} `{TextForms}.
Context `{Message ApplicationBundleReleaseState} `{Message ApplicationControlStateRecord}.

Definition verify_exact_agent_artifact (a : AgentArtifactManifest) (artifact_path : string)
    : app unit :=
  step (app_text (validate_artifact a)) ;;
  present ← invoke (IsFile artifact_path);
  step (fail_if (negb present)
    ("exact edge-agent artifact was not found: " +:+ artifact_path)) ;;
  content ← with_error (λ e, "failed to read exact edge-agent artifact " +:+ artifact_path
                               +:+ ": " +:+ e) (invoke_res (ReadFile artifact_path));
  let observed := sha256_hex content in
  step (fail_if (negb (str_eqb observed (am_sha256 a)))
    ("edge-agent artifact digest mismatch: manifest=" +:+ am_sha256 a
       +:+ " observed=" +:+ observed)).

(** The checks on the bytes of a release marker *)
Definition bundle_release_of (encoded : bytes) : res ApplicationBundleReleaseState :=
  value ← ok_or (decode encoded)
    ("remote bundle release marker protobuf is invalid: " +:+ decode_error encoded);
  fail_if (negb (bytes_eqb (encode_to_vec value) encoded))
    "remote bundle release marker is not canonical protobuf" ;;
  fail_if (negb (abr_schema_version value =? 1))
    ("unsupported remote bundle release marker schema " +:+ dec (abr_schema_version value)) ;;
  validate_lower_hex "remote bundle digest" (abr_bundle_digest value) 64 ;;
  fail_if (str_empty (trim (abr_bundle_id value)))
    "remote bundle release marker has empty bundle_id" ;;
  Ok value.
Definition read_remote_bundle_release (remote_path : string)
    : app (option ApplicationBundleReleaseState) :=
  encoded ← read_remote_protobuf_bytes remote_path;
  match encoded with
  | None => mret None
  | Some encoded => value ← step (bundle_release_of encoded); mret (Some value)
  end.

Definition control_state_of (encoded : bytes) : res ApplicationControlState :=
  record ← ok_or (decode encoded)
    ("application release control protobuf is invalid: " +:+ decode_error encoded);
  fail_if (negb (bytes_eqb (encode_to_vec (record : ApplicationControlStateRecord)) encoded))
    "application release control state is not canonical protobuf" ;;
  fail_if (negb (acr_schema_version record =? 1))
    ("unsupported application release control schema " +:+ dec (acr_schema_version record)) ;;
  application_control_from_proto record.
Definition read_control_state : app (option ApplicationControlState) :=
  encoded ← read_remote_protobuf_bytes REMOTE_CONTROL_RELEASE;
  match encoded with
  | None => mret None
  | Some encoded => state ← step (control_state_of encoded); mret (Some state)
  end.

(** [n] attempts are left of [UNCERTAIN_BUNDLE_REOBSERVE_ATTEMPTS]. *)
Fixpoint wait_bundle_loop (expected_digest : string) (n : nat) (last_detail : string)
    : app BundleObservationResolution :=
  match n with
  | O =>
      forensic ← application_agent_forensic_summary;
      step (Err ("desired bundle digest was not observed after "
        +:+ dec (Z.of_nat UNCERTAIN_BUNDLE_REOBSERVE_ATTEMPTS)
        +:+ " bounded read-only observations; last=" +:+ last_detail
        +:+ "; forensic=" +:+ forensic))
  | S n =>
      observed ← attempt (read_remote_bundle_release REMOTE_STACK_RELEASE);
      let next detail :=
        sleep_unless_last n UNCERTAIN_BUNDLE_REOBSERVE_DELAY ;;
        wait_bundle_loop expected_digest n detail in
      match observed with
      | Ok value =>
          if exact_bundle_digest_observed value expected_digest then
            mret {| observation_attempts := UNCERTAIN_BUNDLE_REOBSERVE_ATTEMPTS - n |}
          else match value with
               | Some value => next ("active_digest=" +:+ abr_bundle_digest value)
               | None => next "active_digest=absent"
               end
      | Err e => next ("observation_error=" +:+ bounded_detail e 512)
      end
  end.
Definition wait_for_exact_bundle_digest_after_uncertain_mutation (expected_digest : string)
    : app BundleObservationResolution :=
  step (validate_lower_hex "expected uncertain bundle digest" expected_digest 64) ;;
  wait_bundle_loop expected_digest UNCERTAIN_BUNDLE_REOBSERVE_ATTEMPTS "not-observed".

Definition agent_candidate (a : AgentArtifactManifest) : string :=
  "/tmp/singbox-edge-agent-" +:+ am_sha256 a +:+ ".tmp".
Definition install_exact_agent (a : AgentArtifactManifest) (artifact_path : string) : app unit :=
  verify_exact_agent_artifact a artifact_path ;;
  current ← remote_file_sha REMOTE_AGENT;
  if opt_is current (am_sha256 a) then mret tt else
  invoke_res (ScpUpload artifact_path (agent_candidate a)) ;;
  outcome ← invoke (SshRun (install_agent_command (am_sha256 a) (agent_candidate a)));
  match outcome with
  | Err e =>
      observed ← remote_file_sha REMOTE_AGENT;
      step (fail_if (negb (opt_is observed (am_sha256 a)))
        ("edge-agent install outcome is uncertain; mutation was not replayed: " +:+ e))
  | Ok _ =>
      observed ← remote_file_sha REMOTE_AGENT;
      step (fail_if (negb (opt_is observed (am_sha256 a)))
        "edge-agent install completed but remote digest did not match exact artifact")
  end.

Definition dropin_current (observed : string) : bool :=
  str_eqb (trim observed) (trim AGENT_DROPIN_CONTENT).
Definition ensure_private_agent_service : app unit :=
  observed ← invoke_res (SshCapture read_dropin_command);
  if dropin_current observed then mret tt else
  outcome ← invoke (SshRun private_service_command);
  match outcome with
  | Err e =>
      reobserved ← invoke_res (SshCapture read_dropin_command);
      step (fail_if (negb (dropin_current reobserved))
        ("edge-agent private service normalization outcome is uncertain; mutation was not "
           +:+ "replayed: " +:+ e))
  | Ok _ => mret tt
  end.

Definition execute_bundle_mutation_once (operation expected_digest : string)
    (mutate : app (res (option string))) (recover_uncertain : string → app unit) : app unit :=
  outcome ← mutate;
  match outcome with
  | Ok active_digest =>
      step (fail_if (negb (opt_is active_digest expected_digest))
        ("edge-agent " +:+ operation +:+ " returned unexpected active digest "
           +:+ debug_option active_digest))
  | Err e => recover_uncertain e
  end.

Definition bundle_rpc (c : app_call (res BundleResponse)) : app (res (option string)) :=
  answer ← invoke c;
  mret match answer with Ok r => Ok (br_active_bundle_digest r) | Err e => Err e end.
Definition resolve_by_observation (operation expected_digest : string) (e : string)
    : app unit :=
  resolution ← attempt (wait_for_exact_bundle_digest_after_uncertain_mutation expected_digest);
  step match resolution with
       | Ok _ => Ok tt
       | Err observation => Err (operation +:+ " outcome is uncertain; RPC was not replayed: "
           +:+ e +:+ "; " +:+ observation)
       end.

Definition apply_bundle_once (p : PreparedApplicationBundle) : app unit :=
  connect_agent ;;
  let expected_digest := rel_bundle_digest (prepared_release p) in
  execute_bundle_mutation_once "ApplyBundle" expected_digest
    (bundle_rpc (ApplyBundleRpc (prepared_request p)))
    (resolve_by_observation "ApplyBundle" expected_digest).

Definition rollback_bundle_once (p : RollbackPlan) : app unit :=
  connect_agent ;;
  let expected_digest := rel_bundle_digest (rb_previous_release p) in
  execute_bundle_mutation_once "RollbackBundle" expected_digest
    (bundle_rpc (RollbackBundleRpc (rel_bundle_digest (rb_current_release p))))
    (resolve_by_observation "RollbackBundle" expected_digest).

Definition rollback_agent_once (current previous : PublishedApplicationRelease) : app unit :=
  previous_observed ← remote_file_sha REMOTE_PREVIOUS_AGENT;
  step (fail_if (negb (opt_is previous_observed (rel_agent_sha256 previous)))
    "previous edge-agent artifact digest does not match published previous release") ;;
  outcome ← invoke (SshRun rollback_agent_command);
  match outcome with
  | Err e =>
      observed ← remote_file_sha REMOTE_AGENT;
      step (fail_if (negb (opt_is observed (rel_agent_sha256 previous)))
        ("edge-agent rollback outcome is uncertain; mutation was not replayed: " +:+ e))
  | Ok _ =>
      observed ← remote_file_sha REMOTE_AGENT;
      step (fail_if (negb (opt_is observed (rel_agent_sha256 previous)))
        ("edge-agent rollback did not reach previous digest; current release remains "
           +:+ rel_release_id current))
  end.

(** *** The runtime *)

Definition observe_mesh_runtime_remote_once : app MeshRuntimeState :=
  connect_agent ;;
  with_error (λ e, "typed VerifyMeshRuntime RPC failed: " +:+ e)
    (invoke_res VerifyMeshRuntimeRpc).

Definition verify_runtime_ready (mode : ApplicationBootstrapMode) : app bool :=
  connect_agent ;;
  response ← with_error (λ e, "typed VerifyRuntime RPC failed: " +:+ e)
    (invoke_res (VerifyRuntimeRpc true (mode_i32 mode)));
  if negb (ags_ready response) && bool_decide (ags_mesh_runtime_ready response = Some false) then
    mesh ← with_error (λ e, "typed runtime readiness failed and deep Mesh evidence could not "
        +:+ "be collected: " +:+ e) observe_mesh_runtime_remote_once;
    step (Err ("typed runtime readiness failed; mesh_evidence="
      +:+ mesh_runtime_evidence_summary mesh))
  else mret (ags_ready response).

(** [n] attempts are left of [READ_ONLY_RUNTIME_REOBSERVE_ATTEMPTS]. *)
Fixpoint wait_runtime_loop (mode : ApplicationBootstrapMode) (n : nat) (last_detail : string)
    : app unit :=
  match n with
  | O =>
      forensic ← application_agent_forensic_summary;
      step (Err ("runtime readiness was not observed after "
        +:+ dec (Z.of_nat READ_ONLY_RUNTIME_REOBSERVE_ATTEMPTS)
        +:+ " bounded read-only observations; last=" +:+ last_detail
        +:+ "; forensic=" +:+ forensic))
  | S n =>
      ready ← attempt (verify_runtime_ready mode);
      let next detail :=
        sleep_unless_last n READ_ONLY_RUNTIME_REOBSERVE_DELAY ;;
        wait_runtime_loop mode n detail in
      match ready with
      | Ok true => mret tt
      | Ok false => next "runtime_ready=false"
      | Err e => next ("observation_error=" +:+ bounded_detail e 512)
      end
  end.
Definition wait_for_runtime_ready_after_uncertain_bootstrap (mode : ApplicationBootstrapMode)
    : app unit :=
  wait_runtime_loop mode READ_ONLY_RUNTIME_REOBSERVE_ATTEMPTS "not-observed".

Definition mesh_suffix (r : BootstrapRuntimeResponse) : app string :=
  if bool_decide ((brr_post_state r ≫= ags_mesh_runtime_ready) = Some false) then
    mesh ← attempt observe_mesh_runtime_remote_once;
    mret match mesh with
         | Ok state => " mesh_evidence=" +:+ mesh_runtime_evidence_summary state
         | Err _ => ""
         end
  else mret "".
Definition bootstrap_once (mode : ApplicationBootstrapMode) : app unit :=
  connect_agent ;;
  result ← invoke (BootstrapRuntimeRpc (mode_i32 mode));
  match result with
  | Ok response =>
      if brr_success response then mret tt else
      suffix ← mesh_suffix response;
      step (Err ("typed BootstrapRuntime failed with exit_code="
        +:+ dec_signed (brr_exit_code response) +:+ " warnings="
        +:+ join "; " (brr_warnings response) +:+ suffix))
  | Err e =>
      observation ← attempt (wait_for_runtime_ready_after_uncertain_bootstrap mode);
      step match observation with
           | Ok _ => Ok tt
           | Err detail => Err ("BootstrapRuntime outcome is uncertain; RPC was not replayed: "
               +:+ e +:+ "; " +:+ detail)
           end
  end.

Definition observe_ipv4_network_remote : app Ipv4NetworkObservation :=
  connect_agent ;;
  with_error (λ e, "typed ObserveIpv4Network RPC failed: " +:+ e)
    (invoke_res ObserveIpv4NetworkRpc).

(** [n] attempts are left of [READ_ONLY_RUNTIME_REOBSERVE_ATTEMPTS]. *)
Fixpoint verify_mesh_loop (n : nat) (last_state : option MeshRuntimeState)
    (last_error : option string) : app MeshRuntimeState :=
  match n with
  | O =>
      step match last_state with
           | Some state => Ok state
           | None => Err ("typed VerifyMeshRuntime RPC did not produce an observation after "
               +:+ "bounded re-observation: "
               +:+ default "no RPC observation completed" last_error)
           end
  | S n =>
      answer ← invoke VerifyMeshRuntimeRpc;
      let next s e :=
        sleep_unless_last n READ_ONLY_RUNTIME_REOBSERVE_DELAY ;; verify_mesh_loop n s e in
      match answer with
      | Ok state => if mrs_runtime_ready state then mret state else next (Some state) None
      | Err e => next last_state (Some e)
      end
  end.
Definition verify_mesh_runtime_remote : app MeshRuntimeState :=
  connect_agent ;; verify_mesh_loop READ_ONLY_RUNTIME_REOBSERVE_ATTEMPTS None None.

(** The error of a re-observation that itself failed, with the forensic summary *)
Definition reobserved {A} (operation e : string) (p : app A) : app A :=
  outcome ← attempt p;
  match outcome with
  | Ok a => mret a
  | Err observe_err =>
      forensic ← application_agent_forensic_summary;
      step (Err (operation +:+ " outcome is uncertain; RPC was not replayed: " +:+ e
        +:+ "; read-only re-observation failed: " +:+ observe_err
        +:+ "; forensic=" +:+ forensic))
  end.
Definition converge_mesh_runtime_remote (registration_id node_token : string)
    : app MeshRuntimeState :=
  connect_agent ;;
  answer ← invoke (ConvergeMeshRuntimeRpc node_token registration_id);
  match answer with
  | Ok state => mret state
  | Err e =>
      state ← reobserved "ConvergeMeshRuntime" e verify_mesh_runtime_remote;
      if mrs_runtime_ready state then mret state else
      step (Err ("ConvergeMeshRuntime outcome is uncertain; RPC was not replayed: " +:+ e
        +:+ "; read-only re-observation did not reach READY: "
        +:+ join "; " (mrs_warnings state)))
  end.
Definition cleanup_mesh_runtime_remote : app MeshRuntimeState :=
  connect_agent ;;
  answer ← invoke CleanupMeshRuntimeRpc;
  match answer with
  | Ok state => mret state
  | Err e =>
      state ← reobserved "CleanupMeshRuntime" e observe_mesh_runtime_remote_once;
      if negb (mrs_token_store_present state) && negb (mrs_container_running state)
      then mret state
      else step (Err ("CleanupMeshRuntime outcome is uncertain; RPC was not replayed: " +:+ e
        +:+ "; token_store_present=" +:+ bool_text (mrs_token_store_present state)
        +:+ " container_running=" +:+ bool_text (mrs_container_running state)))
  end.

(** *** Publication *)

Definition publish_control_state_once (state : ApplicationControlState) : app unit :=
  local ← invoke (UniqueTempFile "singbox-application-release");
  record ← step (application_control_to_proto state);
  with_error (λ e, "failed to write temporary release control state: " +:+ e)
    (invoke_res (WriteFile local (encode_to_vec record))) ;;
  upload ← invoke (ScpUpload local REMOTE_CONTROL_RELEASE_STAGING);
  invoke (RemoveFile local) ;;
  step upload ;;
  outcome ← invoke (SshRun publish_command);
  match outcome with
  | Err e =>
      observed ← read_control_state;
      step (fail_if (negb (bool_decide (observed = Some state)))
        ("release publication outcome is uncertain; publication was not replayed: " +:+ e))
  | Ok _ =>
      observed ← read_control_state;
      step (fail_if (negb (bool_decide (observed = Some state)))
        "release publication completed but exact control state was not observed")
  end.

Definition publish_release_once (release : PublishedApplicationRelease) : app unit :=
  existing ← read_control_state;
  if bool_decide ((cs_current <$> existing) = Some release) then mret tt else
  publish_control_state_once
    {| cs_schema := 1; cs_current := release; cs_previous := cs_current <$> existing |}.

Definition verify_previous_release_material (current previous : PublishedApplicationRelease)
    : app unit :=
  (if negb (str_eqb (rel_agent_sha256 current) (rel_agent_sha256 previous)) then
     previous_agent ← remote_file_sha REMOTE_PREVIOUS_AGENT;
     step (fail_if (negb (opt_is previous_agent (rel_agent_sha256 previous)))
       ("rollback blocked: previous edge-agent artifact does not match published previous "
          +:+ "release"))
   else mret tt) ;;
  previous_bundle ← read_remote_bundle_release REMOTE_PREVIOUS_STACK_RELEASE;
  step (fail_if (negb (opt_is (abr_bundle_digest <$> previous_bundle)
                         (rel_bundle_digest previous)))
    ("rollback blocked: previous application bundle does not match published previous "
       +:+ "release")).

(** ** Operations *)

Definition observe_application (d : DesiredApplicationState) : app ApplicationObservation :=
  observed_agent_sha256 ← remote_file_sha REMOTE_AGENT;
  bundle ← read_remote_bundle_release REMOTE_STACK_RELEASE;
  control ← read_control_state;
  runtime_ready ←
    (if present observed_agent_sha256 then
       ready ← attempt (verify_runtime_ready (da_bootstrap_mode d));
       mret match ready with Ok b => b | Err _ => false end
     else mret false);
  mret {| ao_observed_agent_sha256 := observed_agent_sha256;
          ao_observed_bundle_digest := abr_bundle_digest <$> bundle;
          ao_runtime_ready := runtime_ready;
          ao_current_release := cs_current <$> control;
          ao_previous_release := control ≫= cs_previous |}.

Definition validate_exact_unpublished_initial_bundle (staged : ApplicationBundleReleaseState)
    (expected_id expected_digest : string) (installed_agent_sha256 : option string)
    (expected_agent_sha256 : string) : res unit :=
  fail_if (negb (str_eqb (abr_bundle_id staged) expected_id)
           || negb (str_eqb (abr_bundle_digest staged) expected_digest))
    "pre-existing VM application bundle differs from exact staged intent; no replay" ;;
  fail_if (negb (opt_is installed_agent_sha256 expected_agent_sha256))
    "pre-existing VM application agent differs from exact ReleaseSet; no replay".

Definition stage_initial_application_policy (a : AgentArtifactManifest) (artifact_path : string)
    (p : PreparedApplicationBundle) : app (string * string) :=
  verify_exact_agent_artifact a artifact_path ;;
  existing_stage ← read_remote_bundle_release REMOTE_STACK_RELEASE;
  control ← read_control_state;
  step (fail_if (present control)
    "initial policy stage refuses already published application release") ;;
  let expected := rel_bundle_digest (prepared_release p) in
  match existing_stage with
  | Some existing =>
      expected_id ← step (ok_or (apply_bundle_id (prepared_request p))
        "initial policy stage requires a canonical bundle ID");
      installed ← remote_file_sha REMOTE_AGENT;
      step (validate_exact_unpublished_initial_bundle existing expected_id expected installed
        (am_sha256 a)) ;;
      runtime_present ← invoke_res (SshCapture runtime_present_command);
      step (fail_if (negb (str_eqb runtime_present "absent"))
        "initial policy reattestation refuses existing runtime credentials") ;;
      mret (abr_bundle_id existing, abr_bundle_digest existing)
  | None =>
      agent_sha ← remote_file_sha REMOTE_AGENT;
      match agent_sha with
      | Some existing =>
          step (fail_if (negb (str_eqb existing (am_sha256 a)))
            "initial policy stage refuses previously installed foreign agent")
      | None => install_exact_agent a artifact_path
      end ;;
      ensure_private_agent_service ;;
      connect_agent ;;
      expected_id ← step (ok_or (apply_bundle_id (prepared_request p))
        "initial policy stage requires a canonical bundle ID");
      applied ← invoke (StageInitialPolicyRpc (prepared_request p));
      match applied with
      | Err e =>
          observed ← read_remote_bundle_release REMOTE_STACK_RELEASE;
          step (Err ("initial policy stage RPC has uncertain outcome; no mutation replay: "
            +:+ e +:+ ";                 exact_digest_observed="
            +:+ bool_text (exact_bundle_digest_observed observed expected)))
      | Ok response =>
          step (fail_if (negb (opt_is (br_active_bundle_id response) expected_id)
                         || negb (opt_is (br_active_bundle_digest response) expected))
            "initial policy stage returned a foreign bundle identity") ;;
          reobserved ← read_remote_bundle_release REMOTE_STACK_RELEASE;
          reobserved ← step (ok_or reobserved
            "initial policy stage did not persist its exact release marker");
          let refused :=
            "initial policy stage did not preserve unpublished bundle identity" in
          step (fail_if (negb (str_eqb (abr_bundle_id reobserved) expected_id)
                         || negb (str_eqb (abr_bundle_digest reobserved) expected)) refused) ;;
          published ← read_control_state;
          step (fail_if (present published) refused) ;;
          runtime_present ← invoke_res (SshCapture runtime_present_command);
          step (fail_if (negb (str_eqb runtime_present "absent"))
            "initial policy stage unexpectedly created runtime credentials") ;;
          mret (abr_bundle_id reobserved, abr_bundle_digest reobserved)
      end
  end.

(** [json!({"desired": .., "artifact": .., "bundle_digest": ..})] *)
Definition desired_material (d : DesiredApplicationState) (a : AgentArtifactManifest)
    (bundle_digest : string) : Value := obj
  [("desired", desired_app_value d); ("artifact", artifact_value a);
   ("bundle_digest", VString bundle_digest)].
Definition class_disposition (c : ApplicationPlanClass) : PlanDisposition :=
  match c with
  | ClassNoop => Noop
  | ClassApply | ClassUpgrade => Mutate
  | ClassBlocked => Blocked
  end.
Definition authorize_application_plan (d : DesiredApplicationState) (a : AgentArtifactManifest)
    (bundle_digest : string) (o : ApplicationObservation) (p : ApplicationPlan)
    : res (AuthorizedPlan ApplicationPlan) :=
  authority_text (authorize_plan "application" (desired_material d a bundle_digest) o p
    (class_disposition (ap_class p))).
Definition authorize_application_rollback (d : DesiredApplicationState)
    (o : ApplicationObservation) (p : RollbackPlan) : res (AuthorizedPlan RollbackPlan) :=
  authority_text (authorize_plan "application_rollback" d o p Mutate).

Definition contains (actions : list ApplicationAction) (x : ApplicationAction) : bool :=
  mem x actions.

(** The mutations of an admitted plan *)
Definition execute_actions (d : DesiredApplicationState) (a : AgentArtifactManifest)
    (artifact_path : string) (p : PreparedApplicationBundle) (actions : list ApplicationAction)
    : app unit :=
  (if contains actions InstallAgent then install_exact_agent a artifact_path else mret tt) ;;
  ensure_private_agent_service ;;
  (if contains actions ApplyBundle then apply_bundle_once p else mret tt) ;;
  (if contains actions Bootstrap then bootstrap_once (da_bootstrap_mode d) else mret tt) ;;
  ready ← verify_runtime_ready (da_bootstrap_mode d);
  step (fail_if (negb ready) "typed runtime verification did not reach readiness") ;;
  (if contains actions PublishRelease then publish_release_once (prepared_release p)
   else mret tt).

(** Whether the plan is refused in this mode *)
Definition mode_refusal (mode : DesiredMutationMode) (plan : ApplicationPlan) : option string :=
  match ap_class plan with
  | ClassBlocked =>
      Some ("application mutation is blocked: " +:+ join "; " (ap_reasons plan))
  | ClassNoop => None
  | ClassApply =>
      if bool_decide (mode = ModeUpgrade) then
        Some "upgrade requires an existing published application release; use apply"
      else None
  | ClassUpgrade =>
      if bool_decide (mode = ModeApply) then
        Some "apply refuses to overwrite an existing release; use upgrade"
      else None
  end.

Definition execute_desired (d : DesiredApplicationState) (a : AgentArtifactManifest)
    (artifact_path : string) (p : PreparedApplicationBundle) (authorized_plan_digest : string)
    (mode : DesiredMutationMode) : app ApplicationExecutionReport :=
  verify_exact_agent_artifact a artifact_path ;;
  let bundle_digest := rel_bundle_digest (prepared_release p) in
  initial_observation ← observe_application d;
  initial_plan ← step (app_text (plan_application d a bundle_digest initial_observation));
  authorized ← step (authorize_application_plan d a bundle_digest initial_observation
                       initial_plan);
  step (authority_text (verify_exact_authority authorized_plan_digest (authority authorized))) ;;
  match mode_refusal mode initial_plan with
  | Some refusal => step (Err refusal)
  | None =>
      if bool_decide (ap_class initial_plan = ClassNoop) then
        mret {| aer_operation := mutation_mode_str mode; aer_initial_plan := initial_plan;
                aer_final_plan := initial_plan; aer_final_observation := initial_observation |}
      else
        execute_actions d a artifact_path p (ap_actions initial_plan) ;;
        final_observation ← observe_application d;
        final_plan ← step (app_text (plan_application d a bundle_digest final_observation));
        step (fail_if (negb (bool_decide (ap_class final_plan = ClassNoop)))
          ("application mutation completed operations but did not converge to NOOP: "
             +:+ app_class_debug (ap_class final_plan) +:+ ": "
             +:+ join "; " (ap_reasons final_plan))) ;;
        mret {| aer_operation := mutation_mode_str mode; aer_initial_plan := initial_plan;
                aer_final_plan := final_plan; aer_final_observation := final_observation |}
  end.

Definition exact_release_identity_observed (o : ApplicationObservation)
    (r : PublishedApplicationRelease) : bool :=
  opt_is (ao_observed_agent_sha256 o) (rel_agent_sha256 r)
  && opt_is (ao_observed_bundle_digest o) (rel_bundle_digest r)
  && bool_decide (ao_current_release o = Some r).

(** The loop of [verify_desired]; [n] attempts follow this one. *)
Fixpoint verify_desired_loop (d : DesiredApplicationState) (a : AgentArtifactManifest)
    (p : PreparedApplicationBundle) (n : nat) : app (ApplicationPlan * ApplicationObservation) :=
  o ← observe_application d;
  plan ← step (app_text (plan_application d a (rel_bundle_digest (prepared_release p)) o));
  if bool_decide (ap_class plan = ClassNoop)
     || negb (exact_release_identity_observed o (prepared_release p))
  then mret (plan, o)
  else match n with
       | O => mret (plan, o)
       | S n =>
           invoke (SleepMillis READ_ONLY_RUNTIME_REOBSERVE_DELAY) ;;
           verify_desired_loop d a p n
       end.
Definition verify_desired (d : DesiredApplicationState) (a : AgentArtifactManifest)
    (p : PreparedApplicationBundle) : app (ApplicationPlan * ApplicationObservation) :=
  verify_desired_loop d a p (READ_ONLY_RUNTIME_REOBSERVE_ATTEMPTS - 1).

Definition rollback_plan_remote (d : DesiredApplicationState)
    : app (ApplicationObservation * RollbackPlan) :=
  o ← observe_application d;
  plan ← step (app_text (build_rollback_plan d o));
  verify_previous_release_material (rb_current_release plan) (rb_previous_release plan) ;;
  mret (o, plan).

(** The mutations of an admitted rollback *)
Definition rollback_actions (plan : RollbackPlan) : app unit :=
  let current := rb_current_release plan in
  let previous := rb_previous_release plan in
  rollback_bundle_once plan ;;
  (if negb (str_eqb (rel_agent_sha256 current) (rel_agent_sha256 previous))
   then rollback_agent_once current previous else mret tt) ;;
  ensure_private_agent_service ;;
  bootstrap_once (rel_bootstrap_mode previous) ;;
  ready ← verify_runtime_ready (rel_bootstrap_mode previous);
  step (fail_if (negb ready) "rolled-back runtime did not reach typed readiness") ;;
  publish_control_state_once
    {| cs_schema := 1; cs_current := previous; cs_previous := Some current |}.

Definition execute_rollback (d : DesiredApplicationState)
    (authorized_digest authorized_plan_digest : string) : app ApplicationObservation :=
  o ← observe_application d;
  current ← step (app_text (build_rollback_plan d o));
  generic ← step (authorize_application_rollback d o current);
  step (authority_text (verify_exact_authority authorized_plan_digest (authority generic))) ;;
  plan ← step (app_text (authorize_rollback d o authorized_digest));
  step (fail_if (negb (bool_decide (current = plan)))
    "application rollback authorization changed during planning") ;;
  verify_previous_release_material (rb_current_release plan) (rb_previous_release plan) ;;
  rollback_actions plan ;;
  let previous := rb_previous_release plan in
  final_observation ← observe_application d;
  step (fail_if (negb (exact_release_identity_observed final_observation previous)
                 || negb (ao_runtime_ready final_observation))
    "rollback did not converge to the exact previous release") ;;
  mret final_observation.
End Remote.
