(* ===== verification/ApplicationServiceFacts.v ===== *)
(** * Facts about the application service

    What one run of the service does to a host, whatever the host answers: the
    mutations of a run are an ordered part of the ones its authorized plan stands
    for, each at most once, and a release is published only after the runtime was
    seen ready ([application_apply_once], [application_rollback_once]); and the
    control state reads back as it was published ([control_state_roundtrip]). *)

From S2P Require Import Prelude RustStd RustText HostTypes Concrete Json PlanAuthority ApplyBundle.
From S2P Require Import LifecycleCommon Service ApplicationLifecycle ApplicationBundle.
From S2P Require Import HostLifecycle HostLifecycleFacts ApplicationService.

(** ** The mutations of a run *)

Inductive mutation : Type :=
| Uploaded (remote : string)
| Ran (command : string)
| Staged (request : ApplyBundleRequest)
| Applied (request : ApplyBundleRequest)
| RolledBack (expected_current : string)
| Bootstrapped (mode : Z)
| MeshConverged (registration_id : string)
| MeshCleaned.

(** What a call changes on the host. The captured commands only print. *)
#[global] Instance app_mutates : Mutates app_call mutation := λ R c,
  match c with
  | ScpUpload _ remote => Some (Uploaded remote)
  | SshRun command => Some (Ran command)
  | StageInitialPolicyRpc request => Some (Staged request)
  | ApplyBundleRpc request => Some (Applied request)
  | RollbackBundleRpc expected => Some (RolledBack expected)
  | BootstrapRuntimeRpc mode => Some (Bootstrapped mode)
  | ConvergeMeshRuntimeRpc _ registration_id => Some (MeshConverged registration_id)
  | CleanupMeshRuntimeRpc => Some MeshCleaned
  | _ => None
  end.

Lemma within_step {A} ms (r : res A) : within ms (step r).
Proof. apply within_return. Qed.
Lemma within_attempt {A} ms (p : app A) : within ms p → within ms (attempt p).
Proof.
  intros Hp. rewrite <- (app_nil_r ms). apply within_sbind; [done|]. intros r.
  apply within_return.
Qed.
Lemma within_error {A} ms f (p : app A) : within ms p → within ms (with_error f p).
Proof.
  intros Hp. rewrite <- (app_nil_r ms). apply within_sbind; [done|]. intros r.
  apply within_return.
Qed.
#[export] Hint Resolve within_step within_attempt within_error : quiet.

Lemma connect_loop_quiet endpoint n last : quiet (connect_loop endpoint n last).
Proof. revert last. induction n as [|n IH]; intros last; cbn [connect_loop]; quiet. Qed.
#[export] Hint Resolve connect_loop_quiet : quiet.

Section RemoteFacts.
Context `{Sha256} `{SerdeJson} `{TextForms}.
Context `{Message ApplicationBundleReleaseState} `{Message ApplicationControlStateRecord}.

Lemma connect_agent_quiet : quiet connect_agent.
Proof using Type. unfold connect_agent. quiet. Qed.
Lemma remote_file_sha_quiet path : quiet (remote_file_sha path).
Proof using Type. unfold remote_file_sha. quiet. Qed.
Lemma protobuf_bytes_quiet path : quiet (read_remote_protobuf_bytes path).
Proof using Type. unfold read_remote_protobuf_bytes. quiet. Qed.
Lemma forensic_quiet : quiet application_agent_forensic_summary.
Proof using Type. unfold application_agent_forensic_summary. quiet. Qed.
Lemma sleep_quiet n delay : quiet (sleep_unless_last n delay).
Proof using Type. unfold sleep_unless_last. quiet. Qed.
#[local] Hint Resolve connect_agent_quiet remote_file_sha_quiet protobuf_bytes_quiet
  forensic_quiet sleep_quiet : quiet.

Lemma artifact_quiet a path : quiet (verify_exact_agent_artifact a path).
Proof using Type. unfold verify_exact_agent_artifact. quiet. apply within_error. quiet. Qed.
Lemma bundle_release_quiet path : quiet (read_remote_bundle_release path).
Proof using Type. unfold read_remote_bundle_release. quiet. Qed.
Lemma control_state_quiet : quiet read_control_state.
Proof using Type. unfold read_control_state. quiet. Qed.
Lemma mesh_once_quiet : quiet observe_mesh_runtime_remote_once.
Proof using Type. unfold observe_mesh_runtime_remote_once. quiet. apply within_error. quiet. Qed.
#[local] Hint Resolve artifact_quiet bundle_release_quiet control_state_quiet
  mesh_once_quiet : quiet.

Lemma runtime_ready_quiet mode : quiet (verify_runtime_ready mode).
Proof using Type. unfold verify_runtime_ready. quiet. apply within_error. quiet. Qed.
#[local] Hint Resolve runtime_ready_quiet : quiet.
Lemma wait_bundle_quiet digest n last : quiet (wait_bundle_loop digest n last).
Proof using Type.
  revert last. induction n as [|n IH]; intros last; cbn [wait_bundle_loop]; quiet.
Qed.
Lemma wait_runtime_quiet mode n last : quiet (wait_runtime_loop mode n last).
Proof using Type.
  revert last. induction n as [|n IH]; intros last; cbn [wait_runtime_loop]; quiet.
Qed.
#[local] Hint Resolve wait_bundle_quiet wait_runtime_quiet : quiet.
Lemma observe_app_quiet d : quiet (observe_application d).
Proof using Type. unfold observe_application. quiet. Qed.
Lemma previous_material_quiet current previous :
  quiet (verify_previous_release_material current previous).
Proof using Type. unfold verify_previous_release_material. quiet. Qed.
#[local] Hint Resolve observe_app_quiet previous_material_quiet : quiet.

(** ** The mutating steps *)

Definition agent_mutations (a : AgentArtifactManifest) : list mutation :=
  [Uploaded (agent_candidate a);
   Ran (install_agent_command (am_sha256 a) (agent_candidate a))].
Definition publication : list mutation :=
  [Uploaded REMOTE_CONTROL_RELEASE_STAGING; Ran publish_command].

Lemma install_within a path : within (agent_mutations a) (install_exact_agent a path).
Proof using Type. unfold install_exact_agent, agent_mutations. mutates. Qed.
Lemma private_within : within [Ran private_service_command] ensure_private_agent_service.
Proof using Type. unfold ensure_private_agent_service. mutates. Qed.
Lemma resolve_quiet operation digest e : quiet (resolve_by_observation operation digest e).
Proof using Type.
  unfold resolve_by_observation, wait_for_exact_bundle_digest_after_uncertain_mutation. quiet.
  apply within_attempt. quiet.
Qed.
#[local] Hint Resolve resolve_quiet : quiet.
Lemma bundle_rpc_within c m operation digest recover :
  call_mutation c = Some m → (∀ e, quiet (recover e)) →
  within [m] (execute_bundle_mutation_once operation digest (bundle_rpc c) recover).
Proof using Type.
  intros Hc Hr. unfold execute_bundle_mutation_once, bundle_rpc.
  apply within_bind_quiet; [|intros [|]; quiet].
  apply within_call_bind; [done|]. intros. quiet.
Qed.
Lemma apply_within p : within [Applied (prepared_request p)] (apply_bundle_once p).
Proof using Type.
  unfold apply_bundle_once. apply within_quiet_bind; [quiet|intros _].
  apply bundle_rpc_within; [done|]. intros. quiet.
Qed.
Lemma rollback_bundle_within p :
  within [RolledBack (rel_bundle_digest (rb_current_release p))] (rollback_bundle_once p).
Proof using Type.
  unfold rollback_bundle_once. apply within_quiet_bind; [quiet|intros _].
  apply bundle_rpc_within; [done|]. intros. quiet.
Qed.
Lemma rollback_agent_within current previous :
  within [Ran rollback_agent_command] (rollback_agent_once current previous).
Proof using Type. unfold rollback_agent_once. mutates. Qed.
Lemma bootstrap_within mode : within [Bootstrapped (mode_i32 mode)] (bootstrap_once mode).
Proof using Type.
  unfold bootstrap_once, mesh_suffix, wait_for_runtime_ready_after_uncertain_bootstrap. mutates.
Qed.
Lemma publish_control_within state : within publication (publish_control_state_once state).
Proof using Type.
  unfold publish_control_state_once, publication. mutates. apply within_error. quiet.
Qed.
#[local] Hint Resolve publish_control_within : quiet.
Lemma publish_release_within release : within publication (publish_release_once release).
Proof using Type. unfold publish_release_once. mutates. Qed.

(** ** Publication is gated by readiness *)

(** The run made at most the mutations [before]; or the runtime was seen ready after
    them, and at most the mutations [after] followed. *)
Definition gated (mode : ApplicationBootstrapMode) (before after : list mutation)
    (tr : list (exchange app_call)) : Prop :=
  mutations tr `sublist_of` before ∨
  ∃ t1 st t2, tr = t1 ++ Exchange (VerifyRuntimeRpc true (mode_i32 mode)) (Ok st) :: t2 ∧
    ags_ready st = true ∧ mutations t1 `sublist_of` before ∧ mutations t2 `sublist_of` after.
Definition gate {A} mode before after (p : app A) : Prop :=
  ∀ tr r, runs p tr r → gated mode before after tr.

Lemma gate_bind {A B} mode ms before after (p : app A) (f : A → app B) :
  within ms p → (∀ a, gate mode before after (f a)) → gate mode (ms ++ before) after (p ≫= f).
Proof using Type.
  intros Hp Hf tr r [(e & He & _)|(a & t1 & t2 & -> & Hx & Hy)]%runs_fbind.
  - left. apply Hp in He. by apply sublist_inserts_r.
  - apply Hp in Hx. apply Hf in Hy as [Hm|(u1 & st & u2 & -> & Hst & Hu1 & Hu2)].
    + left. rewrite mutations_app. by apply sublist_app.
    + right. exists (t1 ++ u1), st, u2. rewrite mutations_app, <- app_assoc.
      split_and!; [done|done|by apply sublist_app|done].
Qed.

Lemma gated_app_quiet mode before after t1 t2 :
  gated mode before after t1 → mutations t2 = [] → gated mode before after (t1 ++ t2).
Proof using Type.
  intros [Hm|(u1 & st & u2 & -> & Hst & Hu1 & Hu2)] Hq.
  - left. by rewrite mutations_app, Hq, app_nil_r.
  - right. exists u1, st, (u2 ++ t2). rewrite mutations_app, Hq, app_nil_r.
    by rewrite <- app_assoc.
Qed.

Lemma runs_with_error {A} f (p : app A) tr r :
  runs (with_error f p) tr r → ∃ r', runs p tr r' ∧ r = map_err f r'.
Proof using Type.
  intros (r' & t1 & t2 & -> & Hp & [-> ->]%runs_return)%runs_bind.
  rewrite app_nil_r. eauto.
Qed.

Lemma ready_runs mode tr :
  runs (verify_runtime_ready mode) tr (Ok true) →
  ∃ pre st, tr = pre ++ [Exchange (VerifyRuntimeRpc true (mode_i32 mode)) (Ok st)] ∧
    ags_ready st = true.
Proof using Type.
  unfold verify_runtime_ready. intros [(e & _ & [=])|([] & t1 & t & -> & _ & Hr)]%runs_fbind.
  apply runs_fbind in Hr as [(e & _ & [=])|(st & t2 & t3 & -> & Hv & Hr)].
  apply runs_with_error in Hv as (r & ->%runs_call_res & E). destruct r as [st'|]; [|done].
  injection E as <-. exists t1, st.
  destruct (negb (ags_ready st) && _) eqn:Hg.
  - apply runs_fbind in Hr as [(e & _ & [=])|(m & t4 & t5 & _ & _ & [_ [=]]%runs_return)].
  - apply runs_return in Hr as [-> [= E]]. rewrite E in *. by rewrite app_nil_r.
Qed.

Lemma gate_ready {A} mode after e (q : app A) :
  within after q →
  gate mode [] after (ready ← verify_runtime_ready mode; step (fail_if (negb ready) e) ;; q).
Proof using Type.
  intros Hq tr r [(err & Hv & _)|(b & t1 & t2 & -> & Hv & Hr)]%runs_fbind.
  - left. by eapply runtime_ready_quiet.
  - apply runs_pure in Hr as [(? & _ & -> & _)|([] & Hb & Hr)].
    + left. rewrite app_nil_r. by eapply runtime_ready_quiet.
    + apply fail_if_Ok, negb_false in Hb as ->. right.
      pose proof (runtime_ready_quiet _ _ _ Hv) as Hm.
      apply ready_runs in Hv as (pre & st & -> & Hst). exists pre, st, t2.
      rewrite mutations_app in Hm. split_and!; [by rewrite <- app_assoc|done| |by eapply Hq].
      etrans; [|exact Hm]. by apply sublist_inserts_r.
Qed.

(** The mutations an application plan stands for *)
Definition optional (b : bool) (ms : list mutation) : list mutation := if b then ms else [].
Definition planned (d : DesiredApplicationState) (a : AgentArtifactManifest)
    (p : PreparedApplicationBundle) (actions : list ApplicationAction) : list mutation :=
  optional (contains actions InstallAgent) (agent_mutations a)
  ++ [Ran private_service_command]
  ++ optional (contains actions ApplyBundle) [Applied (prepared_request p)]
  ++ optional (contains actions Bootstrap) [Bootstrapped (mode_i32 (da_bootstrap_mode d))].

Lemma within_optional {A} (b : bool) ms (p : app A) a :
  within ms p → within (optional b ms) (if b then p else (mret a : app A)).
Proof using Type. destruct b; [done|]. intros _. apply within_ret. Qed.

Lemma execute_actions_gate d a path p actions :
  gate (da_bootstrap_mode d) (planned d a p actions)
    (optional (contains actions PublishRelease) publication)
    (execute_actions d a path p actions).
Proof using Type.
  unfold execute_actions, planned. rewrite <- (app_nil_r (optional (contains actions Bootstrap) _)).
  repeat (apply gate_bind; [|intros _]); [| | | |apply gate_ready];
    try apply within_optional; auto using install_within, private_within, apply_within,
      bootstrap_within, publish_release_within.
Qed.

(** ** One authorized run *)


(** The authority under which a plan was executed *)
Definition apply_granted (d : DesiredApplicationState) (a : AgentArtifactManifest)
    (bundle_digest authorized : string) (mode : DesiredMutationMode)
    (o : ApplicationObservation) (plan : ApplicationPlan) : Prop :=
  plan_application d a bundle_digest o = Ok plan ∧
  (∃ granted, authorize_application_plan d a bundle_digest o plan = Ok granted ∧
     authority_digest (authority granted) = authorized) ∧
  (ap_class plan = ClassApply ∧ mode = ModeApply ∨
   ap_class plan = ClassUpgrade ∧ mode = ModeUpgrade).

Lemma mode_refusal_None mode plan :
  mode_refusal mode plan = None → ap_class plan ≠ ClassNoop →
  ap_class plan = ClassApply ∧ mode = ModeApply ∨ ap_class plan = ClassUpgrade ∧ mode = ModeUpgrade.
Proof using Type.
  unfold mode_refusal. destruct (ap_class plan), mode; try done; simpl; auto.
Qed.

(** The observation and the plan a run ended with *)
Definition ends_with_noop (d : DesiredApplicationState) (a : AgentArtifactManifest)
    (bundle_digest : string) (tr : list (exchange app_call)) (report : ApplicationExecutionReport)
    : Prop :=
  plan_application d a bundle_digest (aer_final_observation report)
    = Ok (aer_final_plan report) ∧
  ap_class (aer_final_plan report) = ClassNoop ∧
  ∃ pre t, tr = pre ++ t ∧ mutations t = [] ∧
    runs (observe_application d) t (Ok (aer_final_observation report)).

Lemma ends_with_noop_app d a b pre tr report :
  ends_with_noop d a b tr report → ends_with_noop d a b (pre ++ tr) report.
Proof using Type.
  intros (? & ? & q & t & -> & ? & ?). split_and!; [done..|]. exists (pre ++ q), t.
  by rewrite <- app_assoc.
Qed.


(** The end of a run, once its mutations are made *)
Lemma final_runs d a p operation initial tr r :
  runs (final_observation ← observe_application d;
        final_plan ← step (app_text (plan_application d a
                             (rel_bundle_digest (prepared_release p)) final_observation));
        step (fail_if (negb (bool_decide (ap_class final_plan = ClassNoop)))
          ("application mutation completed operations but did not converge to NOOP: "
             +:+ app_class_debug (ap_class final_plan) +:+ ": "
             +:+ join "; " (ap_reasons final_plan))) ;;
        mret {| aer_operation := operation; aer_initial_plan := initial;
                aer_final_plan := final_plan; aer_final_observation := final_observation |})
    tr r →
  mutations tr = [] ∧ ∀ report, r = Ok report →
    ends_with_noop d a (rel_bundle_digest (prepared_release p)) tr report.
Proof using Type.
  intros [(e & Ho & ->)|(o & t1 & t2 & -> & Ho & Hr)]%runs_fbind.
  { split; [|done]. by eapply within_runs, Ho; apply observe_app_quiet. }
  pose proof (within_runs _ _ _ (observe_app_quiet d) Ho) as Hq.
  apply runs_or_stop in Hr as [[-> He]|(plan & Hp%map_err_Ok & Hr)].
  { rewrite app_nil_r. split; [done|]. by intros ? ->. }
  apply runs_or_stop in Hr as [[-> He]|([] & Hn & Hr)].
  { rewrite app_nil_r. split; [done|]. by intros ? ->. }
  apply runs_return in Hr as [-> ->]. rewrite app_nil_r. split; [done|].
  intros report [= <-]. apply fail_if_Ok, negb_false, bool_decide_eq_true in Hn.
  split_and!; [done..|]. by exists [], t1.
Qed.

(** C33: a run of [execute_desired] changes the host only as authorized. Whatever the
    host answers, either nothing is changed, or the artifact had its recorded digest,
    the host was observed, the plan from that observation has exactly the authorized
    digest and the class that the operation is for, and the mutations are, in order
    and each at most once, a part of those the plan stands for: the agent only where
    the plan installs it, the bundle only where the plan applies it, the bootstrap
    only where the plan asks for it, and the release record only after the runtime was
    seen ready after all of them. A successful run ends with an observation, after the
    last mutation, whose plan is a no-op. *)
Theorem application_apply_once d a path p authorized mode tr r :
  runs (execute_desired d a path p authorized mode) tr r →
  let bundle_digest := rel_bundle_digest (prepared_release p) in
  (mutations tr = [] ∨
   ∃ t0 t1 t2 o plan, tr = t0 ++ t1 ++ t2 ∧
     runs (verify_exact_agent_artifact a path) t0 (Ok tt) ∧
     runs (observe_application d) t1 (Ok o) ∧ mutations (t0 ++ t1) = [] ∧
     apply_granted d a bundle_digest authorized mode o plan ∧
     gated (da_bootstrap_mode d) (planned d a p (ap_actions plan))
       (optional (contains (ap_actions plan) PublishRelease) publication) t2) ∧
  (∀ report, r = Ok report → ends_with_noop d a bundle_digest tr report).
Proof using Type.
  unfold execute_desired. cbv zeta.
  intros [(e & Ha & ->)|([] & t0 & tr' & -> & Ha & Hr)]%runs_fbind.
  { split; [left|done]. by eapply within_runs, Ha; apply artifact_quiet. }
  pose proof (within_runs _ _ _ (artifact_quiet a path) Ha) as Hqa.
  apply runs_fbind in Hr as [(e & Ho & ->)|(o & t1 & t2 & -> & Ho & Hr)].
  { split; [left|done]. rewrite mutations_app, Hqa. by eapply within_runs, Ho; apply observe_app_quiet. }
  pose proof (within_runs _ _ _ (observe_app_quiet d) Ho) as Hqo.
  assert (Hq : mutations (t0 ++ t1 ++ []) = []).
  { by rewrite !mutations_app, Hqa, Hqo. }
  apply runs_or_stop in Hr as [[-> He]|(plan & Hp%map_err_Ok & Hr)].
  { split; [by left|]. by intros ? ->. }
  apply runs_or_stop in Hr as [[-> He]|(granted & Hg & Hr)].
  { split; [by left|]. by intros ? ->. }
  apply runs_or_stop in Hr as [[-> He]|([] & Hx%map_err_Ok & Hr)].
  { split; [by left|]. by intros ? ->. }
  apply verify_exact_authority_Ok in Hx.
  destruct (mode_refusal mode plan) eqn:Hm.
  { apply runs_return in Hr as [-> ->]. split; [by left|done]. }
  destruct (bool_decide (ap_class plan = ClassNoop)) eqn:Hc.
  - apply bool_decide_eq_true in Hc. apply runs_return in Hr as [-> ->]. split; [by left|].
    intros report [= <-]. apply ends_with_noop_app. rewrite app_nil_r.
    split_and!; [done..|]. by exists [], t1.
  - apply bool_decide_eq_false in Hc. pose proof (mode_refusal_None _ _ Hm Hc) as Hmode.
    assert (Hgr : apply_granted d a (rel_bundle_digest (prepared_release p)) authorized mode o plan).
    { split_and!; [done|by eauto|done]. }
    pose proof (execute_actions_gate d a path p (ap_actions plan)) as Hgate.
    apply runs_fbind in Hr as [(e & Hx' & ->)|([] & t3 & t4 & -> & Hx' & Hr)];
      apply Hgate in Hx'.
    + split; [|done]. right. exists t0, t1, t2, o, plan. by rewrite mutations_app, Hqa, Hqo.
    + apply final_runs in Hr as [Hq4 Hend]. split.
      * right. exists t0, t1, (t3 ++ t4), o, plan. rewrite mutations_app, Hqa, Hqo.
        split_and!; [done..|]. by apply gated_app_quiet.
      * intros report Hrep. do 3 apply ends_with_noop_app. auto.
Qed.

(** ** One authorized rollback *)

Definition rollback_planned (plan : RollbackPlan) : list mutation :=
  let current := rb_current_release plan in
  let previous := rb_previous_release plan in
  [RolledBack (rel_bundle_digest current)]
  ++ optional (negb (str_eqb (rel_agent_sha256 current) (rel_agent_sha256 previous)))
       [Ran rollback_agent_command]
  ++ [Ran private_service_command] ++ [Bootstrapped (mode_i32 (rel_bootstrap_mode previous))].

Lemma rollback_actions_gate plan :
  gate (rel_bootstrap_mode (rb_previous_release plan)) (rollback_planned plan) publication
    (rollback_actions plan).
Proof using Type.
  unfold rollback_actions, rollback_planned. cbv zeta.
  rewrite <- (app_nil_r [Bootstrapped _]).
  repeat (apply gate_bind; [|intros _]); [| | | |apply gate_ready];
    try apply within_optional; auto using rollback_bundle_within, rollback_agent_within,
      private_within, bootstrap_within, publish_control_within.
Qed.

Definition rollback_granted (d : DesiredApplicationState) (rollback_digest authorized : string)
    (o : ApplicationObservation) (plan : RollbackPlan) : Prop :=
  authorize_rollback d o rollback_digest = Ok plan ∧
  ∃ granted, authorize_application_rollback d o plan = Ok granted ∧
    authority_digest (authority granted) = authorized.

(** The release a rollback ended with *)
Definition ends_rolled_back (d : DesiredApplicationState) (plan : RollbackPlan)
    (tr : list (exchange app_call)) (o : ApplicationObservation) : Prop :=
  exact_release_identity_observed o (rb_previous_release plan) = true ∧
  ao_runtime_ready o = true ∧
  ∃ pre t, tr = pre ++ t ∧ mutations t = [] ∧ runs (observe_application d) t (Ok o).

Lemma rollback_end_runs d plan e tr r :
  runs (final_observation ← observe_application d;
        step (fail_if (negb (exact_release_identity_observed final_observation
                               (rb_previous_release plan))
                       || negb (ao_runtime_ready final_observation)) e) ;;
        mret final_observation) tr r →
  mutations tr = [] ∧ ∀ o, r = Ok o → ends_rolled_back d plan tr o.
Proof using Type.
  intros [(err & Ho & ->)|(o & t1 & t2 & -> & Ho & Hr)]%runs_fbind.
  { split; [|done]. by eapply within_runs, Ho; apply observe_app_quiet. }
  pose proof (within_runs _ _ _ (observe_app_quiet d) Ho) as Hq.
  apply runs_or_stop in Hr as [[-> He]|([] & Hn & Hr)].
  { rewrite app_nil_r. split; [done|]. by intros ? ->. }
  apply runs_return in Hr as [-> ->]. rewrite app_nil_r. split; [done|].
  intros ? [= <-]. apply fail_if_Ok, orb_false in Hn as [Hn1%negb_false Hn2%negb_false].
  split_and!; [done..|]. by exists [], t1.
Qed.

(** A run of [execute_rollback] changes the host only as authorized. Whatever the host
    answers, either nothing is changed, or the host was observed at the published
    current release, the rollback plan from that observation carries both authorized
    digests, the material of the previous release was found on the host, and the
    mutations are, in order and each at most once, a part of: the rollback of the
    bundle, the exchange of the agent where the two releases differ in it, the private
    service, the bootstrap of the previous release; and only after the runtime was
    seen ready, the publication with the two releases exchanged. A successful run ends
    with an observation, after the last mutation, of the healthy previous release. *)
Theorem application_rollback_once d rollback_digest authorized tr r :
  runs (execute_rollback d rollback_digest authorized) tr r →
  (mutations tr = [] ∧ is_err r = true) ∨
  ∃ t0 t1 t2 o plan, tr = t0 ++ t1 ++ t2 ∧
    runs (observe_application d) t0 (Ok o) ∧ mutations (t0 ++ t1) = [] ∧
    rollback_granted d rollback_digest authorized o plan ∧
    runs (verify_previous_release_material (rb_current_release plan)
            (rb_previous_release plan)) t1 (Ok tt) ∧
    gated (rel_bootstrap_mode (rb_previous_release plan)) (rollback_planned plan)
      publication t2 ∧
    (∀ o', r = Ok o' → ends_rolled_back d plan t2 o').
Proof using Type.
  unfold execute_rollback. intros [(e & Ho & ->)|(o & t0 & tr' & -> & Ho & Hr)]%runs_fbind.
  { left. split; [|done]. by eapply within_runs, Ho; apply observe_app_quiet. }
  pose proof (within_runs _ _ _ (observe_app_quiet d) Ho) as Hqo.
  assert (Hq : mutations (t0 ++ []) = []) by by rewrite app_nil_r.
  apply runs_or_stop in Hr as [[-> He]|(current & _ & Hr)]; [by left|].
  apply runs_or_stop in Hr as [[-> He]|(granted & Hg & Hr)]; [by left|].
  apply runs_or_stop in Hr as [[-> He]|([] & Hx%map_err_Ok%verify_exact_authority_Ok & Hr)];
    [by left|].
  apply runs_or_stop in Hr as [[-> He]|(plan & Hp%map_err_Ok & Hr)]; [by left|].
  apply runs_or_stop in Hr as [[-> He]|([] & Hn & Hr)]; [by left|].
  apply fail_if_Ok, negb_false, bool_decide_eq_true in Hn as ->.
  pose proof (previous_material_quiet (rb_current_release plan) (rb_previous_release plan)) as Hm.
  apply runs_fbind in Hr as [(e & Hv & ->)|([] & t1 & t2 & -> & Hv & Hr)].
  { left. split; [|done]. rewrite mutations_app, Hqo. by eapply within_runs. }
  pose proof (within_runs _ _ _ Hm Hv) as Hqv. right.
  pose proof (rollback_actions_gate plan) as Hgate.
  assert (Hgr : rollback_granted d rollback_digest authorized o plan) by (split; eauto).
  apply runs_fbind in Hr as [(e & Ha & ->)|([] & t3 & t4 & -> & Ha & Hr)]; apply Hgate in Ha.
  - exists t0, t1, t2, o, plan. rewrite mutations_app, Hqo, Hqv. by split_and!.
  - apply rollback_end_runs in Hr as [Hq4 Hend].
    exists t0, t1, (t3 ++ t4), o, plan. rewrite mutations_app, Hqo, Hqv.
    split_and!; [done..|by apply gated_app_quiet|].
    intros o' (? & ? & pre & t & -> & ? & ?)%Hend. split_and!; [done..|].
    exists (t3 ++ pre), t. by rewrite <- app_assoc.
Qed.

(** ** The initial policy *)

Lemma initial_stage_within a path p :
  within (agent_mutations a ++ [Ran private_service_command; Staged (prepared_request p)])
    (stage_initial_application_policy a path p).
Proof using Type.
  unfold stage_initial_application_policy. do 4 (apply within_quiet_bind; [quiet|intros ?]).
  cbv zeta. destruct a1 as [existing|].
  { eapply within_weaken; [|apply sublist_nil_l]. quiet. }
  apply within_quiet_bind; [quiet|intros agent_sha]. apply within_bind.
  { destruct agent_sha; [quiet|apply install_within]. }
  intros _. apply (within_bind [_]); [apply private_within|intros _]. mutates.
Qed.

(** What a program returns when it succeeds *)
Definition returns {A} (P : A → Prop) (p : app A) : Prop := ∀ tr a, runs p tr (Ok a) → P a.
Lemma returns_bind {A B} (Q : A → Prop) (P : B → Prop) (p : app A) (f : A → app B) :
  returns Q p → (∀ a, Q a → returns P (f a)) → returns P (p ≫= f).
Proof using Type.
  intros Hp Hf tr b [(e & _ & [=])|(a & t1 & t2 & _ & Ha & Hb)]%runs_fbind.
  exact (Hf a (Hp _ _ Ha) _ _ Hb).
Qed.
Lemma returns_any {A} (p : app A) : returns (λ _, True) p.
Proof using Type. by intros tr a _. Qed.
Lemma returns_step {A} (x : res A) : returns (λ a, x = Ok a) (step x).
Proof using Type. by intros tr a [_ ->]%runs_return. Qed.
Lemma returns_ret {A} (P : A → Prop) a : P a → returns P (mret a).
Proof using Type. by intros Ha tr b [_ [= ->]]%runs_return. Qed.
Lemma returns_err {A} (P : A → Prop) e : returns P (step (Err e)).
Proof using Type. by intros tr b [_ [=]]%runs_return. Qed.

Ltac pass := eapply returns_bind; [apply returns_any|intros ? _].
Ltac learn x := eapply returns_bind; [apply returns_step|intros ? x].

(** Staging the initial policy never bootstraps or publishes: whatever the host
    answers, the mutations are, in order and each at most once, a part of the
    installation of the exact agent, the private service and the one staging call; and
    the identity it returns is the one of the prepared bundle. *)
Theorem initial_stage_exact a path p tr r :
  runs (stage_initial_application_policy a path p) tr r →
  mutations tr `sublist_of` agent_mutations a
    ++ [Ran private_service_command; Staged (prepared_request p)] ∧
  (∀ id digest, r = Ok (id, digest) →
     apply_bundle_id (prepared_request p) = Some id ∧
     digest = rel_bundle_digest (prepared_release p)).
Proof using Type.
  intros Hr. split; [by eapply initial_stage_within|]. intros id digest ->.
  revert Hr. enough (Hret : returns (λ x, apply_bundle_id (prepared_request p) = Some (fst x) ∧
    snd x = rel_bundle_digest (prepared_release p)) (stage_initial_application_policy a path p)).
  { intros Hr. exact (Hret _ _ Hr). }
  clear. unfold stage_initial_application_policy. do 4 pass. cbv zeta.
  destruct a1 as [existing|].
  - learn Hid. pass. learn Hv. do 2 pass. apply returns_ret. simpl.
    apply ok_or_Ok in Hid as ->. apply bind_Ok in Hv as ([] & Hb%fail_if_Ok & _).
    reflect_in Hb. naive_solver.
  - do 4 pass. learn Hid. eapply returns_bind; [apply returns_any|intros applied _].
    destruct applied as [response|e]; [|by pass; apply returns_err].
    do 2 pass. learn Ho. learn Hb. do 4 pass. apply returns_ret. simpl.
    apply ok_or_Ok in Hid as ->. apply fail_if_Ok in Hb. reflect_in Hb. naive_solver.
Qed.
End RemoteFacts.

(** ** The control state *)

Lemma validate_lower_hex_Ok label value n :
  validate_lower_hex label value n = Ok tt ↔ slen value = n ∧ str_all is_lower_hex value = true.
Proof.
  unfold validate_lower_hex. rewrite fail_if_Ok, str_all_hex.
  destruct (Z.eqb_spec (slen value) n), (str_all is_lower_hex value); naive_solver.
Qed.

(** A release the control state can carry *)
Definition release_ok (r : PublishedApplicationRelease) : Prop :=
  (slen (rel_source_revision r) = 40 ∧ str_all is_lower_hex (rel_source_revision r) = true) ∧
  (slen (rel_agent_sha256 r) = 64 ∧ str_all is_lower_hex (rel_agent_sha256 r) = true) ∧
  (slen (rel_bundle_digest r) = 64 ∧ str_all is_lower_hex (rel_bundle_digest r) = true) ∧
  trim (rel_release_id r) ≠ "".
Definition control_ok (s : ApplicationControlState) : Prop :=
  cs_schema s = 1 ∧ release_ok (cs_current s) ∧ ∀ r, cs_previous s = Some r → release_ok r.

Lemma release_from_proto_Ok m r :
  published_release_from_proto m = Ok r ↔ m = published_release_to_proto r ∧ release_ok r.
Proof.
  unfold published_release_from_proto, release_ok. split.
  - intros Hr. apply bind_Ok in Hr as ([] & Hs%validate_lower_hex_Ok & Hr).
    apply bind_Ok in Hr as ([] & Ha%validate_lower_hex_Ok & Hr).
    apply bind_Ok in Hr as ([] & Hb%validate_lower_hex_Ok & Hr).
    apply bind_Ok in Hr as ([] & Hi%fail_if_Ok%str_eqb_false & Hr).
    apply bind_Ok in Hr as (mode & Hm%ok_or_Ok%try_from_Some & Hr).
    apply bind_Ok in Hr as (bm & Hb' & [= <-]). split; [|done].
    destruct m as [id rev agent bundle z]; simpl in *. subst z.
    unfold published_release_to_proto. simpl. f_equal.
    by destruct mode; simplify_eq/=.
  - destruct r as [id rev agent bundle mode]. simpl. intros [-> (Hs & Ha & Hb & Hi)].
    unfold published_release_to_proto. cbn [prs_source_revision prs_agent_sha256
      prs_bundle_digest prs_release_id prs_bootstrap_mode rel_release_id rel_source_revision
      rel_agent_sha256 rel_bundle_digest rel_bootstrap_mode].
    rewrite !(proj2 (validate_lower_hex_Ok _ _ _)) by done. cbn [mbind result_bind].
    unfold str_empty. rewrite (proj2 (str_eqb_false _ _) Hi). cbn [fail_if mbind result_bind].
    unfold mode_i32. rewrite try_from_as_i32. by destruct mode.
Qed.

Lemma control_from_proto_Ok record s :
  acr_schema_version record = 1 →
  application_control_from_proto record = Ok s ↔
  application_control_to_proto s = Ok record ∧ control_ok s.
Proof.
  intros Hv. unfold application_control_from_proto, application_control_to_proto, control_ok.
  destruct record as [v current previous]; simpl in Hv; subst v. split.
  - intros Hs. apply bind_Ok in Hs as (c & Hc%ok_or_Ok & Hs). simpl in Hc. subst current.
    apply bind_Ok in Hs as (c' & [-> Hok]%release_from_proto_Ok & Hs).
    apply bind_Ok in Hs as (p' & Hp & [= <-]). simpl. split.
    + do 2 f_equal. destruct previous as [m|]; simpl in Hp; [|by injection Hp as <-].
      apply bind_Ok in Hp as (r & [-> _]%release_from_proto_Ok & [= <-]). done.
    + split_and!; [done..|]. intros r ->. destruct previous as [m|]; [|done].
      apply bind_Ok in Hp as (r' & [_ ?]%release_from_proto_Ok & [= <-]). done.
  - intros [Hp (Hschema & Hc & Hprev)]. rewrite Hschema in Hp. injection Hp as <- <-.
    cbn [acr_current acr_previous ok_or mbind result_bind].
    rewrite (proj2 (release_from_proto_Ok _ (cs_current s))) by done.
    destruct s as [v c [r|]]; simpl in *; subst v; [|done].
    by rewrite (proj2 (release_from_proto_Ok _ r)) by auto.
Qed.

Lemma str_filter_all p s : str_all p s = true → str_filter p s = s.
Proof.
  induction s as [|c s IH]; [done|]. cbn [str_all]. intros [Hc Hs]%andb_true.
  cbn [str_filter]. by rewrite Hc, IH.
Qed.
Lemma lower_hex_facts c : is_lower_hex c = true →
  negb (is_ascii_whitespace c) = true ∧ is_ascii_hexdigit c = true.
Proof. by destruct c as [[] [] [] [] [] [] [] []]. Qed.

(** The bytes of a remote file survive their hexadecimal transport. *)
Lemma decode_hex_bytes_roundtrip b label : decode_hex_bytes (hex_of_bytes b) label = Ok b.
Proof.
  pose proof (hex_of_bytes_lower_hex b) as Hx. unfold decode_hex_bytes.
  rewrite str_filter_all by (eapply str_all_impl, Hx; intros; by apply lower_hex_facts).
  destruct b as [|x b]; [done|]. replace (str_empty _) with false by done.
  rewrite (str_all_impl _ _ _ (λ c Hc, proj2 (lower_hex_facts c Hc)) Hx).
  replace (slen _ mod 2) with 0; [by rewrite decode_hex_of_bytes|].
  unfold slen. rewrite length_hex_of_bytes, Nat2Z.inj_mul, Z.mul_comm.
  symmetry. apply Z.mod_mul. lia.
Qed.

Section ControlFacts.
Context `{TextForms} `{MessageLaws ApplicationControlStateRecord representable}.

Lemma control_state_written s record :
  control_ok s → application_control_to_proto s = Ok record → representable record →
  control_state_of (encode_to_vec record) = Ok s.
Proof.
  intros Hs Hr Hrep. unfold control_state_of. rewrite decode_encode by done.
  cbn [ok_or mbind result_bind]. assert (Hv : acr_schema_version record = 1).
  { pose proof Hr as Hr'. apply bind_Ok in Hr' as ([] & _ & [= <-]). apply Hs. }
  rewrite (proj2 (bytes_eqb_true _ _) eq_refl), Hv. cbn. by apply control_from_proto_Ok.
Qed.
Lemma control_state_read encoded s :
  control_state_of encoded = Ok s →
  control_ok s ∧ ∃ record, application_control_to_proto s = Ok record ∧
    encode_to_vec record = encoded.
Proof.
  intros Hs. apply bind_Ok in Hs as (record & Hd%ok_or_Ok & Hs).
  apply bind_Ok in Hs as ([] & He%fail_if_Ok & Hs).
  apply bind_Ok in Hs as ([] & Hv%fail_if_Ok & Hs). reflect_in He. reflect_in Hv.
  apply control_from_proto_Ok in Hs as [Hp Hok]; [|done]. eauto.
Qed.

(** The control state of a host round-trips. A well-formed state is published as bytes
    that, read back through the hexadecimal transport, give exactly that state; and
    every state the service reads is well formed and the bytes it was read from are
    the ones it would be published as. *)
Theorem control_state_roundtrip :
  (∀ s record label, control_ok s → application_control_to_proto s = Ok record →
     representable record →
     decode_hex_bytes (hex_of_bytes (encode_to_vec record)) label = Ok (encode_to_vec record) ∧
     control_state_of (encode_to_vec record) = Ok s) ∧
  (∀ encoded s, control_state_of encoded = Ok s →
     control_ok s ∧ ∃ record, application_control_to_proto s = Ok record ∧
       encode_to_vec record = encoded).
Proof.
  split; [|apply control_state_read].
  intros s record label Hs Hr Hrep. split; [apply decode_hex_bytes_roundtrip|].
  by apply control_state_written.
Qed.
End ControlFacts.

(** ** An interrupted rollback *)

Section Interrupted.
Context `{Sha256} `{SerdeJson}.

(** A rollback that stops after its bundle was exchanged cannot be taken up again by
    the service: while the control state still names the current release and the
    bundle is the previous one, every rollback plan is refused, and every application
    plan is blocked, with the exception of one whose bundle is that previous bundle.
    *)
Theorem interrupted_rollback_blocks d o plan o' :
  build_rollback_plan d o = Ok plan →
  rel_bundle_digest (rb_previous_release plan) ≠ rel_bundle_digest (rb_current_release plan) →
  ao_current_release o' = Some (rb_current_release plan) →
  ao_observed_bundle_digest o' = Some (rel_bundle_digest (rb_previous_release plan)) →
  (∀ d', is_err (build_rollback_plan d' o') = true) ∧
  (∀ d' a b p, plan_application d' a b o' = Ok p →
     b ≠ rel_bundle_digest (rb_previous_release plan) →
     ap_class p = ClassBlocked ∧ ap_actions p = []).
Proof.
  intros _ Hne Hc Hb. split.
  - intros d'. destruct (build_rollback_plan d' o') as [q|] eqn:E; [|done].
    apply build_rollback_plan_Ok in E as (_ & Hc' & _ & _ & Hb' & _). congruence.
  - intros d' a b p (s & r & Hr & _ & _ & [(_ & ? & ?)|[Hd _]])%plan_application_cases Hx; [done|].
    exfalso. apply Hd. exists (rb_current_release plan). split; [done|right].
    unfold known. rewrite Hb. apply desired_release_Ok in Hr as (_ & _ & _ & h & _ & ->).
    cbn [rel_bundle_digest]. rewrite !bool_decide_false by congruence. done.
Qed.
End Interrupted.

Module InterruptedSample.
Import ApplicationSample.
(** The host of [ApplicationSample] after its bundle was exchanged *)
Definition stopped : ApplicationObservation := {|
  ao_observed_agent_sha256 := Some (rel_agent_sha256 current);
  ao_observed_bundle_digest := Some (rel_bundle_digest previous);
  ao_runtime_ready := false; ao_current_release := Some current;
  ao_previous_release := Some previous |}.
End InterruptedSample.
Lemma interrupted_rollback_blocks_witness :
  is_err (build_rollback_plan ApplicationSample.desired InterruptedSample.stopped) = true.
Proof.
  apply (interrupted_rollback_blocks ApplicationSample.desired ApplicationSample.observed
    RollbackSample.plan InterruptedSample.stopped).
  - vm_compute. reflexivity.
  - vm_compute. discriminate.
  - reflexivity.
  - reflexivity.
Defined.
