(* ===== verification/ApplicationHost.v ===== *)
(** * The application service on a host that obeys

    A host that performs what the service asks of it, where the answer to any
    mutation may be lost on the way back. The service re-observes after every command
    and every call of the agent, but stops when an upload is not answered: as long as
    the uploads are, an authorized run of [execute_desired] succeeds and leaves exactly
    the desired release, agent and bundle.

    The host understands the commands the service sends; everything else it
    answers with an empty text. *)

From S2P Require Import Prelude RustStd HostTypes Concrete Json PlanAuthority ApplyBundle.
From S2P Require Import LifecycleCommon Service ApplicationLifecycle ApplicationBundle.
From S2P Require Import HostLifecycle HostLifecycleFacts ApplicationService.
From S2P Require Import ApplicationServiceFacts.

Record host : Type := {
  hs_agent : option string;        (* SHA-256 of the installed agent *)
  hs_candidate : option string;    (* ... of the uploaded one *)
  hs_previous_agent : option string;
  hs_dropin : string;
  hs_bundle : option ApplicationBundleReleaseState;
  hs_previous_bundle : option ApplicationBundleReleaseState;
  hs_control : bytes;              (* the published control state; empty: none *)
  hs_staged : bytes;               (* the uploaded one *)
  hs_local : bytes;                (* the temporary file of the service *)
  hs_ready : bool
}.

Definition set_agent (h : host) (v : option string) : host := {|
  hs_agent := v; hs_candidate := hs_candidate h; hs_previous_agent := hs_previous_agent h;
  hs_dropin := AGENT_DROPIN_CONTENT; hs_bundle := hs_bundle h;
  hs_previous_bundle := hs_previous_bundle h; hs_control := hs_control h;
  hs_staged := hs_staged h; hs_local := hs_local h; hs_ready := hs_ready h |}.
(** The installation keeps the agent it replaces. *)
Definition install_candidate (h : host) : host := {|
  hs_agent := hs_candidate h; hs_candidate := hs_candidate h;
  hs_previous_agent := hs_agent h; hs_dropin := AGENT_DROPIN_CONTENT;
  hs_bundle := hs_bundle h; hs_previous_bundle := hs_previous_bundle h;
  hs_control := hs_control h; hs_staged := hs_staged h; hs_local := hs_local h;
  hs_ready := hs_ready h |}.
Definition exchange_agents (h : host) : host := {|
  hs_agent := hs_previous_agent h; hs_candidate := hs_candidate h;
  hs_previous_agent := hs_agent h; hs_dropin := hs_dropin h; hs_bundle := hs_bundle h;
  hs_previous_bundle := hs_previous_bundle h; hs_control := hs_control h;
  hs_staged := hs_staged h; hs_local := hs_local h; hs_ready := hs_ready h |}.
Definition set_candidate (h : host) (v : option string) : host := {|
  hs_agent := hs_agent h; hs_candidate := v; hs_previous_agent := hs_previous_agent h;
  hs_dropin := hs_dropin h; hs_bundle := hs_bundle h;
  hs_previous_bundle := hs_previous_bundle h; hs_control := hs_control h;
  hs_staged := hs_staged h; hs_local := hs_local h; hs_ready := hs_ready h |}.
Definition set_dropin (h : host) : host := set_agent h (hs_agent h).
Definition set_bundle (h : host) (v : ApplicationBundleReleaseState) : host := {|
  hs_agent := hs_agent h; hs_candidate := hs_candidate h;
  hs_previous_agent := hs_previous_agent h; hs_dropin := hs_dropin h; hs_bundle := Some v;
  hs_previous_bundle := hs_bundle h; hs_control := hs_control h; hs_staged := hs_staged h;
  hs_local := hs_local h; hs_ready := false |}.
Definition exchange_bundles (h : host) : host := {|
  hs_agent := hs_agent h; hs_candidate := hs_candidate h;
  hs_previous_agent := hs_previous_agent h; hs_dropin := hs_dropin h;
  hs_bundle := hs_previous_bundle h; hs_previous_bundle := hs_bundle h;
  hs_control := hs_control h; hs_staged := hs_staged h; hs_local := hs_local h;
  hs_ready := false |}.
Definition set_files (h : host) (control staged local : bytes) : host := {|
  hs_agent := hs_agent h; hs_candidate := hs_candidate h;
  hs_previous_agent := hs_previous_agent h; hs_dropin := hs_dropin h;
  hs_bundle := hs_bundle h; hs_previous_bundle := hs_previous_bundle h;
  hs_control := control; hs_staged := staged; hs_local := local; hs_ready := hs_ready h |}.
Definition set_ready (h : host) : host := {|
  hs_agent := hs_agent h; hs_candidate := hs_candidate h;
  hs_previous_agent := hs_previous_agent h; hs_dropin := hs_dropin h;
  hs_bundle := hs_bundle h; hs_previous_bundle := hs_previous_bundle h;
  hs_control := hs_control h; hs_staged := hs_staged h; hs_local := hs_local h;
  hs_ready := true |}.

(** [trim] keeps a text that begins with a printable character. *)
Section Trim.
Context (c : ascii) (Hc : 33 ≤ code c ≤ 126).

Lemma graphic_not_space :
  ws1 (code c) = false ∧ (∀ b, ws2 (code c) b = false) ∧ (∀ a b, ws3 (code c) a b = false).
Proof.
  split_and!; [|intros b|intros a b]; unfold ws1, ws2, ws3;
    repeat match goal with
    | |- context [code c =? ?k] => replace (code c =? k) with false by (symmetry; apply Z.eqb_neq; lia)
    | |- context [code c <=? ?k] => replace (code c <=? k) with false by (symmetry; apply Z.leb_gt; lia)
    end; rewrite ?andb_false_r; done.
Qed.
Lemma trim_end_keeps n l : (length l ≤ n)%nat → ∃ l', trim_end_rev (l ++ [c]) = l' ++ [c].
Proof.
  destruct graphic_not_space as (H1 & H2 & H3).
  revert l. induction n as [|n IH]; intros l Hl.
  { destruct l; [|simpl in Hl; lia]. exists []. simpl. by rewrite H1. }
  destruct l as [|a l]; [exists []; simpl; by rewrite H1|]. cbn [Datatypes.app trim_end_rev].
  destruct (ws1 (code a)); [apply (IH l); simpl in Hl; lia|].
  destruct l as [|b l]; cbn [Datatypes.app]; [rewrite H2; by exists [a]|].
  destruct (ws2 (code b) (code a)); [apply (IH l); simpl in Hl; lia|].
  destruct l as [|d l]; cbn [Datatypes.app]; [rewrite H3; by exists [a; b]|].
  destruct (ws3 (code d) (code b) (code a)); [apply (IH l); simpl in Hl; lia|].
  by exists (a :: b :: d :: l).
Qed.
Lemma trim_start_keeps l : trim_start_list (c :: l) = c :: l.
Proof.
  destruct graphic_not_space as (H1 & H2 & H3). cbn [trim_start_list]. rewrite H1.
  destruct l as [|a [|b l]]; [done|by rewrite H2|by rewrite H2, H3].
Qed.
Lemma trim_not_empty s : trim (String c s) ≠ "".
Proof.
  unfold trim. cbn [String.list_ascii_of_string]. rewrite trim_start_keeps.
  cbn [rev]. destruct (trim_end_keeps _ _ (Nat.le_refl (length (rev (String.list_ascii_of_string s)))))
    as [l' ->]. by rewrite rev_app_distr.
Qed.
End Trim.

Section Host.
Context `{Sha256} `{SerdeJson} `{TextForms}.
Context `{MessageLaws ApplicationBundleReleaseState bundle_rep}.
Context `{MessageLaws ApplicationControlStateRecord control_rep}.

(** The artifact on the side of the service, and which answers are lost *)
Context (artifact : AgentArtifactManifest) (artifact_bytes : bytes) (lost : mutation → bool).

Definition marker (request : ApplyBundleRequest) : ApplicationBundleReleaseState := {|
  abr_schema_version := 1; abr_bundle_id := default "" (apply_bundle_id request);
  abr_bundle_digest := default "" (apply_bundle_digest request) |}.
Definition reply {A} (m : mutation) (a : A) : res A :=
  if lost m then Err "connection closed before the answer" else Ok a.

Definition captured (command : string) (h : host) : string :=
  if str_eqb command (file_sha_command REMOTE_AGENT) then default "" (hs_agent h)
  else if str_eqb command (read_bytes_command REMOTE_STACK_RELEASE) then
    match hs_bundle h with Some b => hex_of_bytes (encode_to_vec b) | None => "" end
  else if str_eqb command (read_bytes_command REMOTE_CONTROL_RELEASE) then
    hex_of_bytes (hs_control h)
  else if str_eqb command read_dropin_command then trim (hs_dropin h)
  else if str_eqb command (file_sha_command REMOTE_PREVIOUS_AGENT) then
    default "" (hs_previous_agent h)
  else if str_eqb command (read_bytes_command REMOTE_PREVIOUS_STACK_RELEASE) then
    match hs_previous_bundle h with Some b => hex_of_bytes (encode_to_vec b) | None => "" end
  else "".
Definition performed (command : string) (h : host) : host :=
  if str_eqb command publish_command then set_files h (hs_staged h) (hs_staged h) (hs_local h)
  else if str_eqb command private_service_command then set_dropin h
  else if str_eqb command (install_agent_command (am_sha256 artifact)
                             (agent_candidate artifact)) then install_candidate h
  else if str_eqb command rollback_agent_command then exchange_agents h
  else h.
Definition uploaded (remote : string) (h : host) : host :=
  if str_eqb remote REMOTE_CONTROL_RELEASE_STAGING then
    set_files h (hs_control h) (hs_local h) (hs_local h)
  else if str_eqb remote (agent_candidate artifact) then
    set_candidate h (Some (sha256_hex artifact_bytes))
  else h.
Definition bundle_response (request : ApplyBundleRequest) : BundleResponse := {|
  br_active_bundle_id := apply_bundle_id request;
  br_active_bundle_digest := apply_bundle_digest request |}.

Definition answer {R} (c : app_call R) : host → R * host :=
  match c in app_call R return host → R * host with
  | IsFile _ => λ h, (true, h)
  | ReadFile _ => λ h, (Ok artifact_bytes, h)
  | UniqueTempFile prefix => λ h, (prefix, h)
  | WriteFile _ content => λ h, (Ok tt, set_files h (hs_control h) (hs_staged h) content)
  | RemoveFile _ => λ h, (tt, set_files h (hs_control h) (hs_staged h) [])
  | SshCapture command => λ h, (Ok (captured command h), h)
  | SshRun command => λ h, (reply (Ran command) tt, performed command h)
  | ScpUpload _ remote => λ h, (reply (Uploaded remote) tt, uploaded remote h)
  | StartTunnel => λ h, (Ok 50061, h)
  | ConnectAgent _ => λ h, (Ok tt, h)
  | StageInitialPolicyRpc request => λ h,
      (reply (Staged request) (bundle_response request), set_bundle h (marker request))
  | ApplyBundleRpc request => λ h,
      (reply (Applied request) (bundle_response request), set_bundle h (marker request))
  | RollbackBundleRpc expected => λ h,
      if opt_is (abr_bundle_digest <$> hs_bundle h) expected then
        (reply (RolledBack expected) {|
           br_active_bundle_id := abr_bundle_id <$> hs_previous_bundle h;
           br_active_bundle_digest := abr_bundle_digest <$> hs_previous_bundle h |},
         exchange_bundles h)
      else (Err "active bundle differs", h)
  | BootstrapRuntimeRpc mode => λ h,
      (reply (Bootstrapped mode) {| brr_success := true; brr_exit_code := 0;
         brr_post_state := None; brr_warnings := [] |}, set_ready h)
  | VerifyRuntimeRpc _ _ => λ h,
      (Ok {| ags_ready := hs_ready h; ags_mesh_runtime_ready := None |}, h)
  | VerifyMeshRuntimeRpc => λ h, (Err "mesh is not configured", h)
  | ConvergeMeshRuntimeRpc _ _ => λ h, (Err "mesh is not configured", h)
  | CleanupMeshRuntimeRpc => λ h, (Err "mesh is not configured", h)
  | ObserveIpv4NetworkRpc => λ h, (Err "not observed", h)
  | SleepMillis _ => λ h, (tt, h)
  end.
Definition run {A} (p : app A) (h : host) : res A * host := exec (@answer) p h.

(** *** Evaluation *)

Lemma run_bind {A B} (p : app A) (f : A → app B) h :
  run (p ≫= f) h = let '(r, h') := run p h in
    match r with Ok a => run (f a) h' | Err e => (Err e, h') end.
Proof using Type. apply exec_fbind. Qed.
Lemma run_bind_Ok {A B} (p : app A) (f : A → app B) h a h' :
  run p h = (Ok a, h') → run (p ≫= f) h = run (f a) h'.
Proof using Type. intros E. by rewrite run_bind, E. Qed.
Lemma run_step {A} (a : A) h : run (step (Ok a)) h = (Ok a, h).
Proof using Type. done. Qed.
Lemma run_attempt {A} (p : app A) h :
  run (attempt p) h = let '(r, h') := run p h in (Ok r, h').
Proof using Type. unfold run, attempt. rewrite exec_bind. by destruct (exec _ p h). Qed.
Lemma run_error {A} f (p : app A) h a h' :
  run p h = (Ok a, h') → run (with_error f p) h = (Ok a, h').
Proof using Type. unfold run, with_error. intros E. by rewrite exec_bind, E. Qed.
Lemma run_call {R} (c : app_call R) h :
  run (invoke c : app R) h = let '(r, h') := answer c h in (Ok r, h').
Proof using Type. unfold run, invoke. simpl. by destruct (answer c h). Qed.
Lemma run_call_res {R} (c : app_call (res R)) h : run (invoke_res c : app R) h = answer c h.
Proof using Type. unfold run, invoke_res. simpl. by destruct (answer c h). Qed.

Lemma run_capture command h :
  run (invoke_res (SshCapture command) : app string) h = (Ok (captured command h), h).
Proof using Type. done. Qed.
Lemma run_connect h : run connect_agent h = (Ok tt, h).
Proof using Type. done. Qed.

(** *** What the host holds *)

(** prost writes every field that is not zero. *)
Context (Huploads : ∀ remote, lost (Uploaded remote) = false).
Context (Hbundle : ∀ b : ApplicationBundleReleaseState,
  abr_schema_version b = 1 → encode_to_vec b ≠ []).
Context (Hcontrol : ∀ r : ApplicationControlStateRecord,
  acr_schema_version r = 1 → encode_to_vec r ≠ []).

Definition hex64 (s : string) : Prop := slen s = 64 ∧ str_all is_lower_hex s = true.
Definition marker_ok (b : ApplicationBundleReleaseState) : Prop :=
  bundle_rep b ∧ abr_schema_version b = 1 ∧ hex64 (abr_bundle_digest b) ∧
  trim (abr_bundle_id b) ≠ "".
Definition control_bytes (encoded : bytes) (s : option ApplicationControlState) : Prop :=
  match s with
  | None => encoded = []
  | Some s => encoded ≠ [] ∧ control_state_of encoded = Ok s
  end.

(** The host holds this agent, bundle, control state and runtime. *)
Record holds (h : host) (agent : option string) (bundle : option ApplicationBundleReleaseState)
    (control : option ApplicationControlState) (ready : bool) : Prop := {
  holds_agent : hs_agent h = agent;
  holds_agent_hex : ∀ s, agent = Some s → hex64 s;
  holds_bundle : hs_bundle h = bundle;
  holds_bundle_ok : ∀ b, bundle = Some b → marker_ok b;
  holds_control : control_bytes (hs_control h) control;
  holds_ready : hs_ready h = ready
}.

Lemma hex64_not_empty s : hex64 s → str_empty s = false.
Proof using Type. intros [Hl _]. apply str_eqb_false. by intros ->. Qed.

Lemma run_sha path h o :
  captured (file_sha_command path) h = default "" o → (∀ s, o = Some s → hex64 s) →
  run (remote_file_sha path) h = (Ok o, h).
Proof using Type.
  intros E Ho. unfold remote_file_sha. erewrite run_bind_Ok by apply run_capture. rewrite E.
  destruct o as [s|]; [|done]. cbn [default from_option id].
  rewrite (hex64_not_empty s (Ho s eq_refl)). erewrite run_bind_Ok; [done|].
  by rewrite (proj2 (validate_lower_hex_Ok _ _ _) (Ho s eq_refl)).
Qed.
Lemma run_file_sha h agent bundle control ready :
  holds h agent bundle control ready → run (remote_file_sha REMOTE_AGENT) h = (Ok agent, h).
Proof using Type.
  intros Hh. apply run_sha; [|apply Hh]. unfold captured.
  by rewrite (proj2 (str_eqb_true _ _) eq_refl), (holds_agent _ _ _ _ _ Hh).
Qed.

Lemma captured_bundle h :
  captured (read_bytes_command REMOTE_STACK_RELEASE) h =
  match hs_bundle h with Some b => hex_of_bytes (encode_to_vec b) | None => "" end.
Proof using Type.
  unfold captured. replace (str_eqb _ (file_sha_command _)) with false by (vm_compute; done).
  by rewrite (proj2 (str_eqb_true _ _) eq_refl).
Qed.
Lemma captured_control h :
  captured (read_bytes_command REMOTE_CONTROL_RELEASE) h = hex_of_bytes (hs_control h).
Proof using Type.
  unfold captured. replace (str_eqb _ (file_sha_command _)) with false by (vm_compute; done).
  replace (str_eqb _ (read_bytes_command REMOTE_STACK_RELEASE)) with false by (vm_compute; done).
  by rewrite (proj2 (str_eqb_true _ _) eq_refl).
Qed.

Lemma run_bytes path h encoded :
  captured (read_bytes_command path) h = hex_of_bytes encoded →
  run (read_remote_protobuf_bytes path) h
  = (Ok (if is_empty encoded then None else Some encoded), h).
Proof using Type.
  intros E. unfold read_remote_protobuf_bytes. erewrite run_bind_Ok by apply run_capture.
  rewrite E. erewrite run_bind_Ok; [done|].
  by rewrite decode_hex_bytes_roundtrip.
Qed.

Lemma run_marker path h o :
  captured (read_bytes_command path) h
    = match o with Some b => hex_of_bytes (encode_to_vec b) | None => "" end →
  (∀ b, o = Some b → marker_ok b) →
  run (read_remote_bundle_release path) h = (Ok o, h).
Proof.
  intros E Ho. unfold read_remote_bundle_release. destruct o as [b|].
  - destruct (Ho b eq_refl) as (Hr & Hv & Hd & Hi).
    erewrite run_bind_Ok by apply (run_bytes _ _ _ E).
    assert (is_empty (encode_to_vec b) = false) as ->.
    { pose proof (Hbundle b Hv). by destruct (encode_to_vec b). }
    erewrite run_bind_Ok; [done|].
    unfold bundle_release_of. rewrite decode_encode by done. cbn [ok_or mbind result_bind].
    rewrite (proj2 (bytes_eqb_true _ _) eq_refl), Hv, (proj2 (validate_lower_hex_Ok _ _ _) Hd).
    cbn. unfold str_empty. by rewrite (proj2 (str_eqb_false _ _) Hi).
  - erewrite run_bind_Ok; [|by apply (run_bytes _ _ [])]. done.
Qed.
Lemma run_bundle_release h agent bundle control ready :
  holds h agent bundle control ready →
  run (read_remote_bundle_release REMOTE_STACK_RELEASE) h = (Ok bundle, h).
Proof.
  intros Hh. apply run_marker; [|apply Hh].
  by rewrite captured_bundle, (holds_bundle _ _ _ _ _ Hh).
Qed.

Lemma run_control h agent bundle control ready :
  holds h agent bundle control ready → run read_control_state h = (Ok control, h).
Proof using Type.
  intros Hh. unfold read_control_state.
  erewrite run_bind_Ok by apply (run_bytes _ _ _ (captured_control h)).
  pose proof (holds_control _ _ _ _ _ Hh) as Hc. destruct control as [s|]; simpl in Hc.
  - destruct Hc as [Hn Hc]. destruct (hs_control h) as [|x l]; [done|]. cbn [is_empty].
    erewrite run_bind_Ok; [done|]. by rewrite Hc.
  - by rewrite Hc.
Qed.

Lemma run_ready mode h : run (verify_runtime_ready mode) h = (Ok (hs_ready h), h).
Proof using Type.
  unfold verify_runtime_ready. erewrite run_bind_Ok by apply run_connect.
  erewrite run_bind_Ok by by apply run_error. cbn [ags_ready ags_mesh_runtime_ready].
  by rewrite andb_false_r.
Qed.

(** *** The steps *)

Definition observation (agent : option string) (bundle : option ApplicationBundleReleaseState)
    (control : option ApplicationControlState) (ready : bool) : ApplicationObservation := {|
  ao_observed_agent_sha256 := agent; ao_observed_bundle_digest := abr_bundle_digest <$> bundle;
  ao_runtime_ready := present agent && ready; ao_current_release := cs_current <$> control;
  ao_previous_release := control ≫= cs_previous |}.

Lemma run_observe d h agent bundle control ready :
  holds h agent bundle control ready →
  run (observe_application d) h = (Ok (observation agent bundle control ready), h).
Proof.
  intros Hh. unfold observe_application.
  erewrite run_bind_Ok by by eapply run_file_sha.
  erewrite run_bind_Ok by by eapply run_bundle_release.
  erewrite run_bind_Ok by by eapply run_control.
  unfold observation. destruct agent as [s|]; cbn [present andb]; [|done].
  erewrite run_bind_Ok; [done|].
  erewrite run_bind_Ok by (rewrite run_attempt, run_ready; done).
  by rewrite (holds_ready _ _ _ _ _ Hh).
Qed.

Context (Hartifact : validate_artifact artifact = Ok tt)
  (Hdigest : sha256_hex artifact_bytes = am_sha256 artifact).

Lemma run_artifact path h : run (verify_exact_agent_artifact artifact path) h = (Ok tt, h).
Proof using Hartifact Hdigest.
  unfold verify_exact_agent_artifact, app_text. rewrite Hartifact.
  erewrite run_bind_Ok by done. erewrite run_bind_Ok by done. erewrite run_bind_Ok by done.
  erewrite run_bind_Ok by by apply run_error.
  cbv zeta. by rewrite Hdigest, (proj2 (str_eqb_true _ _) eq_refl).
Qed.

Lemma artifact_hex : hex64 (am_sha256 artifact).
Proof using Hartifact.
  pose proof (validate_artifact_Ok artifact Hartifact) as (_ & _ & ? & ?). done.
Qed.

Lemma performed_install h :
  performed (install_agent_command (am_sha256 artifact) (agent_candidate artifact)) h
  = install_candidate h.
Proof using Type.
  unfold performed. rewrite (proj2 (str_eqb_false _ publish_command)).
  2:{ intros E%(f_equal (str_take 12)). by vm_compute in E. }
  rewrite (proj2 (str_eqb_false _ private_service_command)).
  2:{ intros E%(f_equal (str_take 12)). by vm_compute in E. }
  by rewrite (proj2 (str_eqb_true _ _) eq_refl).
Qed.
Lemma reply_upload remote : reply (Uploaded remote) tt = Ok tt.
Proof using Huploads. unfold reply. by rewrite Huploads. Qed.
Lemma uploaded_candidate h :
  uploaded (agent_candidate artifact) h = set_candidate h (Some (sha256_hex artifact_bytes)).
Proof using Type.
  unfold uploaded. rewrite (proj2 (str_eqb_false _ _)).
  2:{ intros E%(f_equal (str_take 14)). by vm_compute in E. }
  by rewrite (proj2 (str_eqb_true _ _) eq_refl).
Qed.

Lemma run_install path h agent bundle control ready :
  holds h agent bundle control ready → ∃ h',
  run (install_exact_agent artifact path) h = (Ok tt, h') ∧
  holds h' (Some (am_sha256 artifact)) bundle control ready.
Proof using Hartifact Hdigest Huploads.
  intros Hh. unfold install_exact_agent. erewrite run_bind_Ok by apply run_artifact.
  erewrite run_bind_Ok by by eapply run_file_sha.
  destruct (opt_is agent (am_sha256 artifact)) eqn:Ha.
  { apply bool_decide_eq_true in Ha as ->. by exists h. }
  erewrite run_bind_Ok; [|by rewrite run_call_res; cbn [answer]; rewrite uploaded_candidate, reply_upload].
  erewrite run_bind_Ok by (rewrite run_call; cbn [answer]; by rewrite performed_install).
  rewrite Hdigest. set (h' := install_candidate _).
  assert (Hh' : holds h' (Some (am_sha256 artifact)) bundle control ready).
  { destruct Hh. split; try done. intros s [= <-]. apply artifact_hex. }
  exists h'. split; [|done].
  destruct (reply _ tt); erewrite run_bind_Ok by (by eapply run_file_sha);
    unfold opt_is; by rewrite bool_decide_true.
Qed.

Lemma captured_dropin h : captured read_dropin_command h = trim (hs_dropin h).
Proof using Type.
  unfold captured. do 3 (rewrite (proj2 (str_eqb_false _ _)) by (vm_compute; congruence)).
  by rewrite (proj2 (str_eqb_true _ _) eq_refl).
Qed.
Lemma run_private h agent bundle control ready :
  holds h agent bundle control ready → ∃ h',
  run ensure_private_agent_service h = (Ok tt, h') ∧ holds h' agent bundle control ready.
Proof using Type.
  intros Hh. unfold ensure_private_agent_service. erewrite run_bind_Ok by apply run_capture.
  destruct (dropin_current _); [by exists h|].
  erewrite run_bind_Ok by by rewrite run_call. exists (set_dropin h). split.
  - unfold performed. rewrite (proj2 (str_eqb_false _ publish_command)) by (vm_compute; congruence).
    rewrite (proj2 (str_eqb_true _ _) eq_refl). destruct (reply _ tt); [done|].
    erewrite run_bind_Ok by apply run_capture. rewrite captured_dropin. by vm_compute.
  - destruct Hh. by split.
Qed.

(** *** The bundle, the runtime and the release record *)

Context (p : PreparedApplicationBundle).
Abbreviation release := (prepared_release p).
Abbreviation request := (prepared_request p).
Context (Hcanonical : canonical_apply_bundle_digest request = Ok (rel_bundle_digest release))
  (Hrequest : apply_bundle_digest request = Some (rel_bundle_digest release))
  (Hmarker : bundle_rep (marker request)) (Hrelease : release_ok release).

Lemma marker_request_ok : marker_ok (marker request).
Proof using Hcanonical Hmarker Hrelease Hrequest.
  unfold marker_ok. cbn [marker abr_schema_version abr_bundle_digest abr_bundle_id].
  rewrite Hrequest. cbn. split_and!; [done|done|apply Hrelease|].
  apply canonical_digest_Ok in Hcanonical as (id & -> & (Hne & _ & Hall) & _). cbn.
  destruct id as [|c id]; [done|]. apply trim_not_empty. cbn [str_all] in Hall.
  apply andb_true in Hall as [Hc _]. revert Hc. clear. 
  destruct c as [[] [] [] [] [] [] [] []]; vm_compute; intros; (done || by split).
Qed.

Lemma run_bundle_rpc h :
  run (bundle_rpc (ApplyBundleRpc request)) h
  = (Ok (r ← reply (Applied request) (bundle_response request); Ok (br_active_bundle_digest r)),
     set_bundle h (marker request)).
Proof using Type. unfold bundle_rpc. erewrite run_bind_Ok by done. by destruct (reply _ _). Qed.
Lemma run_wait_bundle digest n last h agent bundle control ready :
  holds h agent bundle control ready → exact_bundle_digest_observed bundle digest = true →
  run (wait_bundle_loop digest (S n) last) h
  = (Ok {| observation_attempts := UNCERTAIN_BUNDLE_REOBSERVE_ATTEMPTS - n |}, h).
Proof.
  intros Hh Hx. cbn [wait_bundle_loop].
  erewrite run_bind_Ok by (rewrite run_attempt; erewrite run_bundle_release by done; done).
  cbv beta iota zeta. by rewrite Hx.
Qed.
Lemma run_wait_runtime mode n last h :
  hs_ready h = true → run (wait_runtime_loop mode (S n) last) h = (Ok tt, h).
Proof.
  intros Hr. cbn [wait_runtime_loop].
  erewrite run_bind_Ok by by rewrite run_attempt, run_ready. cbv beta iota zeta. by rewrite Hr.
Qed.

Lemma run_apply h agent bundle control ready :
  holds h agent bundle control ready → ∃ h',
  run (apply_bundle_once p) h = (Ok tt, h') ∧
  holds h' agent (Some (marker request)) control false.
Proof.
  intros Hh. unfold apply_bundle_once. erewrite run_bind_Ok by apply run_connect. cbv zeta.
  unfold execute_bundle_mutation_once. erewrite run_bind_Ok by apply run_bundle_rpc.
  set (h' := set_bundle h (marker request)).
  assert (Hh' : holds h' agent (Some (marker request)) control false).
  { destruct Hh. split; try done. intros b [= <-]. apply marker_request_ok. }
  exists h'. split; [|done].
  assert (Hx : exact_bundle_digest_observed (Some (marker request)) (rel_bundle_digest release)
    = true).
  { cbn. rewrite Hrequest. by apply str_eqb_true. }
  unfold reply. destruct (lost _); cbn [mbind result_bind bundle_response
    br_active_bundle_digest].
  - unfold resolve_by_observation, wait_for_exact_bundle_digest_after_uncertain_mutation.
    rewrite (proj2 (validate_lower_hex_Ok _ _ _)) by apply Hrelease.
    erewrite run_bind_Ok.
    2:{ rewrite run_attempt. erewrite run_bind_Ok by apply run_step.
        erewrite (run_wait_bundle _ 44) by done. done. }
    apply run_step.
  - rewrite Hrequest. unfold opt_is. by rewrite bool_decide_true.
Qed.

Lemma run_bootstrap mode h agent bundle control ready :
  holds h agent bundle control ready → ∃ h',
  run (bootstrap_once mode) h = (Ok tt, h') ∧ holds h' agent bundle control true.
Proof.
  intros Hh. exists (set_ready h). split; [|by destruct Hh].
  unfold bootstrap_once. erewrite run_bind_Ok by apply run_connect.
  erewrite run_bind_Ok by by rewrite run_call. unfold reply. destruct (lost _); [|done].
  unfold wait_for_runtime_ready_after_uncertain_bootstrap. erewrite run_bind_Ok.
  2:{ rewrite run_attempt. erewrite (run_wait_runtime _ 44) by done. done. }
  apply run_step.
Qed.

(** The control state that publishing the release gives *)
Definition published (control : option ApplicationControlState) : ApplicationControlState :=
  if bool_decide ((cs_current <$> control) = Some release) then
    default {| cs_schema := 1; cs_current := release; cs_previous := None |} control
  else {| cs_schema := 1; cs_current := release; cs_previous := cs_current <$> control |}.

Lemma published_current control : cs_current (published control) = release.
Proof using Type.
  unfold published. case_bool_decide as E; [|done].
  destruct control as [s|]; [|done]. by injection E.
Qed.

Lemma control_bytes_ok encoded s : control_bytes encoded (Some s) → control_ok s.
Proof. by intros [_ [? _]%control_state_read]. Qed.

Lemma performed_publish h :
  performed publish_command h = set_files h (hs_staged h) (hs_staged h) (hs_local h).
Proof using Type. unfold performed. by rewrite (proj2 (str_eqb_true _ _) eq_refl). Qed.
Lemma uploaded_control h :
  uploaded REMOTE_CONTROL_RELEASE_STAGING h = set_files h (hs_control h) (hs_local h) (hs_local h).
Proof using Type. unfold uploaded. by rewrite (proj2 (str_eqb_true _ _) eq_refl). Qed.

Lemma run_publish_control state record h agent bundle control ready :
  holds h agent bundle control ready → control_ok state →
  application_control_to_proto state = Ok record → control_rep record → ∃ h',
  run (publish_control_state_once state) h = (Ok tt, h') ∧
  holds h' agent bundle (Some state) ready.
Proof.
  intros Hh Hok Hp Hrep. unfold publish_control_state_once. rewrite Hp.
  erewrite run_bind_Ok by by rewrite run_call.
  erewrite run_bind_Ok by apply run_step.
  erewrite run_bind_Ok by by apply run_error.
  erewrite run_bind_Ok by (rewrite run_call; cbn [answer]; by rewrite uploaded_control, reply_upload).
  erewrite run_bind_Ok by by rewrite run_call.
  erewrite run_bind_Ok by apply run_step.
  erewrite run_bind_Ok by (rewrite run_call; cbn [answer]; by rewrite performed_publish).
  match goal with |- context [run _ ?x] => set (h' := x) end. assert (Hh' : holds h' agent bundle (Some state) ready).
  { destruct Hh. split; try done. split; [|by eapply control_state_written].
    apply Hcontrol. pose proof Hp as E. apply bind_Ok in E as ([] & _ & [= <-]). apply Hok. }
  exists h'. split; [|done]. destruct (reply _ tt);
    erewrite run_bind_Ok by (by eapply run_control); by rewrite bool_decide_true.
Qed.

Lemma run_publish_release h agent bundle control ready :
  holds h agent bundle control ready →
  (∀ record, application_control_to_proto (published control) = Ok record →
     control_rep record) → ∃ h',
  run (publish_release_once release) h = (Ok tt, h') ∧
  holds h' agent bundle (Some (published control)) ready.
Proof.
  intros Hh Hrep. unfold publish_release_once, published in *.
  erewrite run_bind_Ok by by eapply run_control.
  case_bool_decide as E.
  - exists h. destruct control as [s|]; [|done]. done.
  - set (state := {| cs_schema := 1; cs_current := release; cs_previous := cs_current <$> control |}).
    eapply run_publish_control; [done| |done|by apply Hrep].
    split_and!; [done..|]. intros r Hr. destruct control as [s|]; [|done].
    injection Hr as <-. pose proof (control_bytes_ok _ _ (holds_control _ _ _ _ _ Hh)) as Hs.
    exact (proj1 (proj2 Hs)).
Qed.

(** A step that the plan may leave out *)
Lemma run_optional (b : bool) (q : app unit) h (P : host → Prop) :
  (b = true → ∃ h', run q h = (Ok tt, h') ∧ P h') → (b = false → P h) →
  ∃ h', run (if b then q else mret tt) h = (Ok tt, h') ∧ P h'.
Proof using Type. destruct b; [by auto|]. intros _ HP. exists h. auto. Qed.

(** *** The rollback *)

Lemma captured_previous_agent h :
  captured (file_sha_command REMOTE_PREVIOUS_AGENT) h = default "" (hs_previous_agent h).
Proof using Type.
  unfold captured. do 4 (rewrite (proj2 (str_eqb_false _ _)) by (vm_compute; congruence)).
  by rewrite (proj2 (str_eqb_true _ _) eq_refl).
Qed.
Lemma captured_previous_bundle h :
  captured (read_bytes_command REMOTE_PREVIOUS_STACK_RELEASE) h =
  match hs_previous_bundle h with Some b => hex_of_bytes (encode_to_vec b) | None => "" end.
Proof using Type.
  unfold captured. do 5 (rewrite (proj2 (str_eqb_false _ _)) by (vm_compute; congruence)).
  by rewrite (proj2 (str_eqb_true _ _) eq_refl).
Qed.
Lemma performed_rollback h : performed rollback_agent_command h = exchange_agents h.
Proof using Type.
  unfold performed. do 2 (rewrite (proj2 (str_eqb_false _ _)) by (vm_compute; congruence)).
  rewrite (proj2 (str_eqb_false _ _)).
  2:{ intros E%(f_equal (str_take 12)). by vm_compute in E. }
  by rewrite (proj2 (str_eqb_true _ _) eq_refl).
Qed.

Section Rollback.
Context (plan : RollbackPlan).
Abbreviation current := (rb_current_release plan).
Abbreviation previous := (rb_previous_release plan).
Context (Hprevious : release_ok previous).
(** The host kept the material of the previous release. *)
Definition keeps (h : host) (b : ApplicationBundleReleaseState) : Prop :=
  (rel_agent_sha256 current ≠ rel_agent_sha256 previous →
   hs_previous_agent h = Some (rel_agent_sha256 previous)) ∧
  hs_previous_bundle h = Some b ∧ marker_ok b ∧
  abr_bundle_digest b = rel_bundle_digest previous.

Lemma run_previous_agent h :
  hs_previous_agent h = Some (rel_agent_sha256 previous) →
  run (remote_file_sha REMOTE_PREVIOUS_AGENT) h = (Ok (Some (rel_agent_sha256 previous)), h).
Proof using Hprevious.
  intros Ha. apply run_sha; [by rewrite captured_previous_agent, Ha|].
  intros s [= <-]. apply Hprevious.
Qed.

Lemma run_material h b :
  keeps h b → run (verify_previous_release_material current previous) h = (Ok tt, h).
Proof.
  intros Hk. unfold verify_previous_release_material. erewrite run_bind_Ok.
  2:{ destruct (str_eqb _ _) eqn:E; [done|]. apply str_eqb_false in E. cbn [negb].
      erewrite run_bind_Ok by (apply run_previous_agent; by apply Hk).
      unfold opt_is. by rewrite bool_decide_true. }
  destruct Hk as (_ & Hb & Hok & Hd).
  erewrite run_bind_Ok.
  2:{ apply run_marker; [apply captured_previous_bundle|]. rewrite Hb. by intros ? [= <-]. }
  rewrite Hb. cbn. unfold opt_is. by rewrite Hd, bool_decide_true.
Qed.

Lemma run_rollback_bundle h agent bundle control ready b :
  holds h agent (Some bundle) control ready → keeps h b →
  abr_bundle_digest bundle = rel_bundle_digest current → ∃ h',
  run (rollback_bundle_once plan) h = (Ok tt, h') ∧ holds h' agent (Some b) control false ∧
  hs_previous_agent h' = hs_previous_agent h.
Proof.
  intros Hh (_ & Hb & Hok & Hd) Hcur. unfold rollback_bundle_once.
  erewrite run_bind_Ok by apply run_connect. cbv zeta. unfold execute_bundle_mutation_once.
  assert (Hh' : holds (exchange_bundles h) agent (Some b) control false).
  { destruct Hh. split; try done. by intros ? [= <-]. }
  erewrite run_bind_Ok.
  2:{ unfold bundle_rpc. erewrite run_bind_Ok; [done|]. rewrite run_call. cbn [answer].
      rewrite (holds_bundle _ _ _ _ _ Hh). cbn [fmap option_fmap option_map]. unfold opt_is.
      by rewrite Hcur, bool_decide_true, Hb. }
  exists (exchange_bundles h). split; [|done]. unfold reply. destruct (lost _); cbv beta iota.
  - unfold resolve_by_observation, wait_for_exact_bundle_digest_after_uncertain_mutation.
    rewrite (proj2 (validate_lower_hex_Ok _ _ _)) by apply Hprevious. erewrite run_bind_Ok.
    2:{ rewrite run_attempt. erewrite run_bind_Ok by apply run_step.
        erewrite (run_wait_bundle _ 44) by (done || (cbn; by apply str_eqb_true)). done. }
    apply run_step.
  - cbn. unfold opt_is. by rewrite Hd, bool_decide_true.
Qed.

Lemma run_rollback_agent h agent bundle control ready :
  holds h agent bundle control ready →
  hs_previous_agent h = Some (rel_agent_sha256 previous) → ∃ h',
  run (rollback_agent_once current previous) h = (Ok tt, h') ∧
  holds h' (Some (rel_agent_sha256 previous)) bundle control ready.
Proof.
  intros Hh Ha. unfold rollback_agent_once.
  erewrite run_bind_Ok by by eapply run_previous_agent. unfold opt_is.
  rewrite bool_decide_true by done. erewrite run_bind_Ok by apply run_step.
  erewrite run_bind_Ok by (rewrite run_call; cbn [answer]; by rewrite performed_rollback).
  assert (Hh' : holds (exchange_agents h) (Some (rel_agent_sha256 previous)) bundle control ready).
  { destruct Hh. split; try done. intros s [= <-]. apply Hprevious. }
  exists (exchange_agents h). split; [|done].
  destruct (reply _ tt); erewrite run_bind_Ok by (by eapply run_file_sha);
    by rewrite bool_decide_true.
Qed.

Definition exchanged : ApplicationControlState :=
  {| cs_schema := 1; cs_current := previous; cs_previous := Some current |}.

Lemma run_rollback_actions record h bundle control ready b :
  holds h (Some (rel_agent_sha256 current)) (Some bundle) control ready → keeps h b →
  abr_bundle_digest bundle = rel_bundle_digest current → release_ok current →
  application_control_to_proto exchanged = Ok record → control_rep record → ∃ h',
  run (rollback_actions plan) h = (Ok tt, h') ∧
  holds h' (Some (rel_agent_sha256 previous)) (Some b) (Some exchanged) true.
Proof.
  intros Hh Hk Hcur Hok Hp Hrep. unfold rollback_actions. cbv zeta.
  destruct (run_rollback_bundle _ _ _ _ _ _ Hh Hk Hcur) as (h1 & R1 & Hh1 & Hpa).
  erewrite run_bind_Ok by exact R1. clear R1.
  destruct (run_optional (negb (str_eqb (rel_agent_sha256 current) (rel_agent_sha256 previous)))
    (rollback_agent_once current previous) h1
    (λ h', holds h' (Some (rel_agent_sha256 previous)) (Some b) control false))
    as (h2 & R2 & Hh2).
  { intros Hne%negb_true%str_eqb_false.
    assert (Hpa1 : hs_previous_agent h1 = Some (rel_agent_sha256 previous)).
    { rewrite Hpa. by apply Hk. }
    by eapply run_rollback_agent. }
  { intros Hne%negb_false%str_eqb_true. by rewrite <- Hne. }
  erewrite run_bind_Ok by exact R2. clear R2.
  destruct (run_private _ _ _ _ _ Hh2) as (h3 & R3 & Hh3).
  erewrite run_bind_Ok by exact R3. clear R3.
  destruct (run_bootstrap (rel_bootstrap_mode previous) _ _ _ _ _ Hh3) as (h4 & R4 & Hh4).
  erewrite run_bind_Ok by exact R4. clear R4. erewrite run_bind_Ok by apply run_ready.
  rewrite (holds_ready _ _ _ _ _ Hh4). erewrite run_bind_Ok by apply run_step.
  eapply run_publish_control; [done| |done..]. split_and!; [done..|]. by intros r [= <-].
Qed.

Lemma run_execute_rollback d rollback_digest authorized record h agent bundle control ready b :
  holds h agent bundle control ready → keeps h b →
  rollback_granted d rollback_digest authorized (observation agent bundle control ready) plan →
  application_control_to_proto exchanged = Ok record → control_rep record → ∃ h' o,
  run (execute_rollback d rollback_digest authorized) h = (Ok o, h') ∧
  holds h' (Some (rel_agent_sha256 previous)) (Some b) (Some exchanged) true.
Proof.
  intros Hh Hk [Hr (granted & Hgranted & <-)] Hp Hrep. unfold execute_rollback.
  erewrite run_bind_Ok by by eapply run_observe.
  pose proof Hr as Hr'. unfold authorize_rollback in Hr'.
  apply bind_Ok in Hr' as ([] & _ & Hr'). apply bind_Ok in Hr' as (q & Hbuild & Hr').
  apply bind_Ok in Hr' as ([] & _ & [= ->]). rewrite Hbuild. cbn [app_text map_err].
  erewrite run_bind_Ok by apply run_step. rewrite Hgranted.
  erewrite run_bind_Ok by apply run_step. apply map_err_Ok in Hgranted.
  unfold authority_text. rewrite (verify_own_authority _ _ _ _ _ _ Hgranted). cbn [map_err].
  erewrite run_bind_Ok by apply run_step. rewrite Hr. cbn [map_err].
  erewrite run_bind_Ok by apply run_step. rewrite bool_decide_true by done.
  erewrite run_bind_Ok by apply run_step. erewrite run_bind_Ok by by eapply run_material.
  apply build_rollback_plan_Ok in Hbuild as (_ & Hc & _ & Ha & Hb & _).
  cbn in Hc, Ha, Hb. subst agent. destruct bundle as [bundle|]; [|done]. injection Hb as Hb.
  assert (Hok : release_ok current).
  { destruct control as [s|]; [|done]. injection Hc as <-.
    pose proof (control_bytes_ok _ _ (holds_control _ _ _ _ _ Hh)) as Hs.
    exact (proj1 (proj2 Hs)). }
  destruct (run_rollback_actions record h bundle control ready b Hh Hk Hb Hok Hp Hrep)
    as (h' & R & Hh'). erewrite run_bind_Ok by exact R. cbv zeta.
  erewrite run_bind_Ok by by eapply run_observe. exists h'. eexists.
  split; [|done]. replace (exact_release_identity_observed _ _) with true.
  { by erewrite run_bind_Ok by apply run_step. }
  symmetry. unfold exact_release_identity_observed, opt_is. cbn.
  destruct Hk as (_ & _ & _ & ->). by rewrite !bool_decide_true.
Qed.
End Rollback.

(** *** An authorized run *)

Context (d : DesiredApplicationState).
Context (Hdesired : desired_release d artifact (rel_bundle_digest release) = Ok release).

Lemma release_agent : rel_agent_sha256 release = am_sha256 artifact.
Proof using Hdesired.
  pose proof Hdesired as E. by apply desired_release_Ok in E as (_ & _ & _ & h & _ & ->).
Qed.

Lemma run_actions path s h agent bundle control ready :
  holds h agent bundle control ready →
  (∀ record, application_control_to_proto (published control) = Ok record →
     control_rep record) →
  let actions := ap_actions (plan_known s release (observation agent bundle control ready)) in
  ∃ h' b', run (execute_actions d artifact path p actions) h = (Ok tt, h') ∧
    holds h' (Some (am_sha256 artifact)) (Some b') (Some (published control)) true ∧
    abr_bundle_digest b' = rel_bundle_digest release.
Proof.
  intros Hh Hrep actions. pose proof (plan_known_actions s release
    (observation agent bundle control ready)) as (_ & _ & _ & _ & Hi & Hb & Hs & _ & Hp).
  fold actions in Hi, Hb, Hs, Hp. cbn [observation ao_observed_agent_sha256
    ao_observed_bundle_digest ao_runtime_ready ao_current_release] in Hi, Hb, Hs, Hp.
  rewrite release_agent in Hi. unfold execute_actions.
  destruct (run_optional (contains actions InstallAgent) (install_exact_agent artifact path) h
    (λ h', holds h' (Some (am_sha256 artifact)) bundle control ready)) as (h1 & R1 & Hh1).
  { intros _. by eapply run_install. }
  { intros Hc%mem_false. rewrite Hi in Hc. by destruct (decide (agent = Some (am_sha256 artifact)))
      as [<-|]. }
  erewrite run_bind_Ok by exact R1. clear R1.
  destruct (run_private _ _ _ _ _ Hh1) as (h2 & R2 & Hh2).
  erewrite run_bind_Ok by exact R2. clear R2 h1 Hh1.
  destruct (run_optional (contains actions ApplyBundle) (apply_bundle_once p) h2
    (λ h', ∃ b' r', holds h' (Some (am_sha256 artifact)) (Some b') control r' ∧
       abr_bundle_digest b' = rel_bundle_digest release ∧
       (contains actions Bootstrap = false → r' = true))) as (h3 & R3 & b' & r' & Hh3 & Hb' & Hr').
  { intros Hc%mem_true. destruct (run_apply _ _ _ _ _ Hh2) as (h3 & R3 & Hh3).
    exists h3. split; [done|]. exists (marker request), false. split_and!; [done|by cbn; rewrite Hrequest|].
    intros Hn%mem_false. exfalso. apply Hn, Hs. left. by apply Hb. }
  { intros Hc%mem_false. rewrite Hb in Hc.
    destruct (decide (abr_bundle_digest <$> bundle = Some (rel_bundle_digest release))) as [E|];
      [|done]. destruct bundle as [b|]; [|done]. injection E as E. exists b, ready.
    split_and!; [done..|]. intros Hn%mem_false. rewrite Hs in Hn.
    destruct agent, ready; cbn in *; naive_solver. }
  erewrite run_bind_Ok by exact R3. clear R3.
  destruct (run_optional (contains actions Bootstrap) (bootstrap_once (da_bootstrap_mode d)) h3
    (λ h', holds h' (Some (am_sha256 artifact)) (Some b') control true)) as (h4 & R4 & Hh4).
  { intros _. by eapply run_bootstrap. }
  { intros Hc. by rewrite <- (Hr' Hc). }
  erewrite run_bind_Ok by exact R4. clear R4. erewrite run_bind_Ok by apply run_ready.
  rewrite (holds_ready _ _ _ _ _ Hh4). erewrite run_bind_Ok by apply run_step.
  destruct (run_optional (contains actions PublishRelease) (publish_release_once release) h4
    (λ h', holds h' (Some (am_sha256 artifact)) (Some b') (Some (published control)) true))
    as (h5 & R5 & Hh5).
  { intros _. by eapply run_publish_release. }
  { intros Hc%mem_false. rewrite Hp in Hc. unfold published.
    destruct (decide ((cs_current <$> control) = Some release)) as [E|]; [|done].
    rewrite bool_decide_true by done. by destruct control. }
  by exists h5, b'.
Qed.

(** The observation of the finished host has nothing left to do. *)
Lemma finished_noop b c :
  abr_bundle_digest b = rel_bundle_digest release → cs_current c = release →
  ∃ plan, plan_application d artifact (rel_bundle_digest release)
      (observation (Some (am_sha256 artifact)) (Some b) (Some c) true) = Ok plan ∧
    ap_class plan = ClassNoop.
Proof using Hdesired.
  intros Hb Hc. pose proof Hdesired as E.
  apply desired_release_Ok in E as (_ & _ & _ & s & Hs & _).
  exists (plan_known s release (observation (Some (am_sha256 artifact)) (Some b) (Some c) true)).
  split.
  - unfold plan_application. rewrite Hdesired, Hs.
    cbn [mbind result_bind observation ao_current_release ao_observed_agent_sha256
      ao_observed_bundle_digest fmap option_fmap option_map].
    rewrite Hb, Hc. unfold known. rewrite release_agent. by rewrite !bool_decide_true.
  - pose proof (plan_known_actions s release
      (observation (Some (am_sha256 artifact)) (Some b) (Some c) true)) as (_ & _ & Hn & _).
    apply Hn. cbn. by rewrite Hb, Hc, release_agent.
Qed.

Lemma run_execute_desired path authorized mode h agent bundle control ready plan :
  holds h agent bundle control ready →
  (∀ record, application_control_to_proto (published control) = Ok record →
     control_rep record) →
  apply_granted d artifact (rel_bundle_digest release) authorized mode
    (observation agent bundle control ready) plan →
  ∃ h' b' report,
    run (execute_desired d artifact path p authorized mode) h = (Ok report, h') ∧
    holds h' (Some (rel_agent_sha256 release)) (Some b') (Some (published control)) true ∧
    abr_bundle_digest b' = rel_bundle_digest release ∧
    ap_class (aer_final_plan report) = ClassNoop.
Proof.
  intros Hh Hrep (Hplan & (granted & Hgranted & <-) & Hclass).
  assert (Hn : mode_refusal mode plan = None ∧ ap_class plan ≠ ClassNoop).
  { unfold mode_refusal. by destruct Hclass as [[-> ->]|[-> ->]]. }
  destruct Hn as [Hn Hc]. unfold execute_desired.
  erewrite run_bind_Ok by apply run_artifact. cbv zeta.
  erewrite run_bind_Ok by by eapply run_observe. rewrite Hplan. cbn [app_text map_err].
  erewrite run_bind_Ok by apply run_step. rewrite Hgranted.
  erewrite run_bind_Ok by apply run_step. unfold authorize_application_plan in Hgranted.
  apply map_err_Ok in Hgranted. unfold authority_text.
  rewrite (verify_own_authority _ _ _ _ _ _ Hgranted). cbn [map_err].
  erewrite run_bind_Ok by apply run_step. rewrite Hn, bool_decide_false by done.
  apply plan_application_cases in Hplan as (s & r & Hr & _ & _ & [(_ & Hb & _)|[_ ->]]).
  { exfalso. destruct Hclass as [[? ?]|[? ?]]; congruence. }
  rewrite Hdesired in Hr. injection Hr as <-.
  destruct (run_actions path s h agent bundle control ready Hh Hrep) as (h' & b' & R & Hh' & Hb').
  erewrite run_bind_Ok by exact R. erewrite run_bind_Ok by by eapply run_observe.
  destruct (finished_noop b' (published control) Hb' (published_current _)) as (final & -> & Hf).
  cbn [app_text map_err]. erewrite run_bind_Ok by apply run_step. rewrite Hf.
  erewrite run_bind_Ok by done.
  exists h', b'. eexists. split; [done|]. rewrite release_agent. done.
Qed.
End Host.

(** ** The release of a desired state *)

Lemma identifier_graphic c : app_identifier_char c = true → 33 ≤ code c ≤ 126.
Proof. destruct c as [[] [] [] [] [] [] [] []]; vm_compute; intros; (done || by split). Qed.
Lemma desired_release_ok `{Sha256} `{SerdeJson} d a b r :
  desired_release d a b = Ok r → release_ok r.
Proof.
  intros Hr. pose proof (release_id_shape d a b r Hr) as [Hl Hid].
  assert (Ht : trim (rel_release_id r) ≠ "").
  { destruct (rel_release_id r) as [|c id].
    - unfold slen in Hl. simpl in Hl. lia.
    - apply andb_true in Hid as [Hc _]. by apply trim_not_empty, identifier_graphic. }
  apply desired_release_Ok in Hr as (_ & Ha & Hb & h & _ & ->).
  apply validate_artifact_Ok in Ha as (? & ? & ? & ?). apply validate_hex_Ok in Hb. done.
Qed.

Section Converges.
Context `{Sha256} `{SerdeJson} `{TextForms}.
Context `{MessageLaws ApplicationBundleReleaseState bundle_rep}.
Context `{MessageLaws ApplicationControlStateRecord control_rep}.
Context (Hbundle : ∀ b : ApplicationBundleReleaseState,
  abr_schema_version b = 1 → encode_to_vec b ≠ []).
Context (Hcontrol : ∀ r : ApplicationControlStateRecord,
  acr_schema_version r = 1 → encode_to_vec r ≠ []).

(** C34: an authorized run converges. On a host that performs what it is asked and
    answers the uploads, where the answers to the commands and to the calls of the
    agent may all be lost on the way back, a run of [execute_desired] with the
    artifact and the prepared bundle of the desired release, under the authority of
    the host's own observation, succeeds, and leaves the exact agent, the exact
    bundle, a ready runtime and a control state whose current release is the desired
    one and whose previous release is the one that was published before, unless that
    was the desired one already. *)
Theorem application_apply_converges d artifact content lost p path authorized mode h
    agent bundle control ready plan :
  (∀ remote, lost (Uploaded remote) = false) →
  validate_artifact artifact = Ok tt → sha256_hex content = am_sha256 artifact →
  canonical_apply_bundle_digest (prepared_request p)
    = Ok (rel_bundle_digest (prepared_release p)) →
  apply_bundle_digest (prepared_request p) = Some (rel_bundle_digest (prepared_release p)) →
  desired_release d artifact (rel_bundle_digest (prepared_release p))
    = Ok (prepared_release p) →
  bundle_rep (marker (prepared_request p)) →
  (∀ record, application_control_to_proto (published p control) = Ok record →
     control_rep record) →
  holds (bundle_rep := bundle_rep) h agent bundle control ready →
  apply_granted d artifact (rel_bundle_digest (prepared_release p)) authorized mode
    (observation agent bundle control ready) plan →
  ∃ h' b' report,
    run artifact content lost (execute_desired d artifact path p authorized mode) h
      = (Ok report, h') ∧
    holds (bundle_rep := bundle_rep) h' (Some (rel_agent_sha256 (prepared_release p))) (Some b')
      (Some (published p control)) true ∧
    abr_bundle_digest b' = rel_bundle_digest (prepared_release p) ∧
    cs_current (published p control) = prepared_release p ∧
    (cs_current <$> control ≠ Some (prepared_release p) →
     cs_previous (published p control) = cs_current <$> control) ∧
    ap_class (aer_final_plan report) = ClassNoop.
Proof.
  intros Hup Ha Hd Hc Hr Hrel Hm Hrep Hh Hg. pose proof (desired_release_ok _ _ _ _ Hrel) as Hok.
  destruct (run_execute_desired artifact content lost Hup Hbundle Hcontrol Ha Hd p Hc Hr Hm Hok d Hrel
    path authorized mode h agent bundle control ready plan Hh Hrep Hg)
    as (h' & b' & report & R & Hh' & Hb' & Hn).
  exists h', b', report. split_and!; [done..|apply published_current| |done].
  intros Hne. unfold published. by rewrite bool_decide_false.
Qed.

(** An authorized rollback converges. On a host that performs what it is asked, kept
    the bundle of the previous release and, where the agents differ, its agent, answers
    the uploads and may lose every other answer to a mutation, a run of [execute_rollback] under the
    authority of the host's own observation succeeds and leaves exactly the previous
    release, with a ready runtime and the two releases exchanged in the control state.
    *)
Theorem application_rollback_converges artifact content lost d rollback_digest authorized plan
    record h agent bundle control ready b :
  (∀ remote, lost (Uploaded remote) = false) →
  holds (bundle_rep := bundle_rep) h agent bundle control ready →
  keeps (bundle_rep := bundle_rep) plan h b →
  rollback_granted d rollback_digest authorized (observation agent bundle control ready) plan →
  application_control_to_proto (exchanged plan) = Ok record → control_rep record →
  ∃ h' o,
    run artifact content lost (execute_rollback d rollback_digest authorized) h = (Ok o, h') ∧
    holds (bundle_rep := bundle_rep) h'
      (Some (rel_agent_sha256 (rb_previous_release plan))) (Some b) (Some (exchanged plan)) true ∧
    abr_bundle_digest b = rel_bundle_digest (rb_previous_release plan).
Proof.
  intros Hup Hh Hk Hg Hp Hrep.
  assert (Hok : release_ok (rb_previous_release plan)).
  { destruct Hg as [Hr _]. apply bind_Ok in Hr as ([] & _ & Hr).
    apply bind_Ok in Hr as (q & Hbuild & Hr). apply bind_Ok in Hr as ([] & _ & [= ->]).
    apply build_rollback_plan_Ok in Hbuild as (_ & _ & Hprev & _). cbn in Hprev.
    destruct control as [s|]; [|done]. cbn in Hprev.
    pose proof (control_bytes_ok _ _ (holds_control _ _ _ _ _ Hh)) as (_ & _ & Hs). by apply Hs. }
  destruct (run_execute_rollback artifact content lost Hup Hbundle Hcontrol plan Hok d rollback_digest
    authorized record h agent bundle control ready b Hh Hk Hg Hp Hrep) as (h' & o & R & Hh').
  exists h', o. split_and!; [done..|]. apply Hk.
Qed.
End Converges.

(** ** Witness: the first deployment of a fresh machine; only the uploads are answered *)
Module HostSample.
Import ApplicationSample.
Definition all_but_uploads (m : mutation) : bool :=
  match m with Uploaded _ => false | _ => true end.
Definition content : bytes := as_bytes "edge-agent".
Definition artifact : AgentArtifactManifest :=
  {| am_schema := 1; am_source_revision := hex40; am_sha256 := sha256_hex content |}.
Definition prepared : PreparedApplicationBundle :=
  match prepare_application_bundle_with_image_environment PrepareSample.protoc PrepareSample.dir
          desired artifact PrepareSample.environment with
  | Ok p => p
  | Err _ => PrepareSample.prepared
  end.
Definition first_state : ApplicationControlState := published prepared None.
Definition first_record : ApplicationControlStateRecord :=
  match application_control_to_proto first_state with
  | Ok r => r
  | Err _ => {| acr_schema_version := 0; acr_current := None; acr_previous := None |}
  end.
#[export] Instance forms : TextForms := {| decode_error := λ _, "invalid"; debug_str := λ s, s |}.
#[export] Instance markers : Message ApplicationBundleReleaseState :=
  table_message [marker (prepared_request prepared)].
#[export] Instance records : Message ApplicationControlStateRecord := table_message [first_record].
Definition fresh : host := {|
  hs_agent := None; hs_candidate := None; hs_previous_agent := None; hs_dropin := "";
  hs_bundle := None; hs_previous_bundle := None; hs_control := []; hs_staged := [];
  hs_local := []; hs_ready := false |}.
Definition bundle_digest : string := rel_bundle_digest (prepared_release prepared).
Definition seen : ApplicationObservation := observation None None None false.
Definition first_plan : ApplicationPlan :=
  match plan_application desired artifact bundle_digest seen with
  | Ok p => p
  | Err _ => blocked_plan "" previous ""
  end.
Definition authorized : string :=
  match authorize_application_plan desired artifact bundle_digest seen first_plan with
  | Ok g => authority_digest (authority g)
  | Err _ => ""
  end.
Lemma fresh_holds : holds (bundle_rep := (.∈ [marker (prepared_request prepared)]))
  fresh None None None false.
Proof. split; done. Qed.
Lemma first_granted :
  apply_granted desired artifact bundle_digest authorized ModeApply seen first_plan.
Proof.
  split_and!; [vm_compute; reflexivity| |left; vm_compute; done].
  unfold authorized. destruct (authorize_application_plan _ _ _ _ _) as [g|e] eqn:E; [by eauto|].
  exfalso. revert E. vm_compute. discriminate.
Qed.
Lemma record_rep record :
  application_control_to_proto (published prepared None) = Ok record → record ∈ [first_record].
Proof. intros E. apply list_elem_of_singleton. unfold first_record, first_state. by rewrite E. Qed.
End HostSample.
Import HostSample.

Lemma application_apply_converges_witness :
  ∃ h' report,
    run HostSample.artifact HostSample.content HostSample.all_but_uploads
      (execute_desired ApplicationSample.desired HostSample.artifact "edge-agent"
         HostSample.prepared HostSample.authorized ModeApply) HostSample.fresh = (Ok report, h') ∧
    hs_agent h' = Some (rel_agent_sha256 (prepared_release HostSample.prepared)).
Proof.
  destruct (application_apply_converges 
    (H3 := table_message_laws [marker (prepared_request HostSample.prepared)])
    (H5 := table_message_laws [HostSample.first_record])
    ltac:(done) ltac:(done) ApplicationSample.desired HostSample.artifact HostSample.content
    HostSample.all_but_uploads HostSample.prepared "edge-agent" HostSample.authorized ModeApply
    HostSample.fresh
    None None None false HostSample.first_plan) as (h' & b' & report & R & Hh & _).
  - reflexivity.
  - vm_compute. reflexivity.
  - vm_compute. reflexivity.
  - vm_compute. reflexivity.
  - vm_compute. reflexivity.
  - vm_compute. reflexivity.
  - apply list_elem_of_singleton. done.
  - exact HostSample.record_rep.
  - exact HostSample.fresh_holds.
  - exact HostSample.first_granted.
  - exists h', report. split; [exact R|]. apply Hh.
Defined.

(** The trace of that deployment, and of a staging on the fresh machine *)
Definition first_trace : list (exchange app_call) :=
  exec_trace (@answer _ _ HostSample.artifact HostSample.content HostSample.all_but_uploads)
    (execute_desired ApplicationSample.desired HostSample.artifact "edge-agent"
       HostSample.prepared HostSample.authorized ModeApply) HostSample.fresh.
Lemma application_apply_once_witness :
  length (mutations first_trace) = 6%nat ∧
  ∃ t0 t1 t2 o plan, first_trace = t0 ++ t1 ++ t2 ∧
    apply_granted ApplicationSample.desired HostSample.artifact HostSample.bundle_digest
      HostSample.authorized ModeApply o plan.
Proof.
  assert (Hl : length (mutations first_trace) = 6%nat) by (vm_compute; reflexivity).
  split; [exact Hl|].
  destruct (application_apply_once _ _ _ _ _ _ _ _
    (exec_runs (@answer _ _ HostSample.artifact HostSample.content HostSample.all_but_uploads)
       (execute_desired ApplicationSample.desired HostSample.artifact "edge-agent"
          HostSample.prepared HostSample.authorized ModeApply) HostSample.fresh))
    as [[Hm|(t0 & t1 & t2 & o & plan & E & _ & _ & _ & Hg & _)] _].
  - exfalso. change (mutations first_trace = []) in Hm. rewrite Hm in Hl. discriminate Hl.
  - exists t0, t1, t2, o, plan. split; [exact E|exact Hg].
Defined.

Definition staged_trace : list (exchange app_call) :=
  exec_trace (@answer _ _ HostSample.artifact HostSample.content (λ _, false))
    (stage_initial_application_policy HostSample.artifact "edge-agent" HostSample.prepared)
    HostSample.fresh.
Lemma initial_stage_exact_witness :
  length (mutations staged_trace) = 3%nat ∧
  mutations staged_trace `sublist_of` agent_mutations HostSample.artifact
    ++ [Ran private_service_command; Staged (prepared_request HostSample.prepared)].
Proof.
  split; [vm_compute; reflexivity|].
  exact (proj1 (initial_stage_exact _ _ _ _ _
    (exec_runs (@answer _ _ HostSample.artifact HostSample.content (λ _, false))
       (stage_initial_application_policy HostSample.artifact "edge-agent" HostSample.prepared)
       HostSample.fresh))).
Defined.

Lemma control_state_roundtrip_witness :
  control_state_of (encode_to_vec HostSample.first_record) = Ok HostSample.first_state.
Proof.
  apply (proj1 (control_state_roundtrip (H1 := table_message_laws [HostSample.first_record]))
    HostSample.first_state HostSample.first_record "path").
  - split_and!; [done| |by intros ? [=]]. apply desired_release_ok with
      ApplicationSample.desired HostSample.artifact HostSample.bundle_digest.
    vm_compute. reflexivity.
  - vm_compute. reflexivity.
  - by apply list_elem_of_singleton.
Defined.

(** ** Witness: a rollback to the previous release; only the uploads are answered *)
Module RollbackHostSample.
Import ApplicationSample.
Definition active : ApplicationBundleReleaseState :=
  {| abr_schema_version := 1; abr_bundle_id := "edge-1";
     abr_bundle_digest := rel_bundle_digest current |}.
Definition kept : ApplicationBundleReleaseState :=
  {| abr_schema_version := 1; abr_bundle_id := "edge-0";
     abr_bundle_digest := rel_bundle_digest previous |}.
Definition state : ApplicationControlState :=
  {| cs_schema := 1; cs_current := current; cs_previous := Some previous |}.
Definition record_of (s : ApplicationControlState) : ApplicationControlStateRecord := {|
  acr_schema_version := cs_schema s; acr_current := Some (published_release_to_proto (cs_current s));
  acr_previous := published_release_to_proto <$> cs_previous s |}.
Definition rolled_back : ApplicationControlState := exchanged RollbackSample.plan.
Definition markers : list ApplicationBundleReleaseState := [active; kept].
Definition records : list ApplicationControlStateRecord := [record_of state; record_of rolled_back].
#[export] Instance active_message : Message ApplicationBundleReleaseState :=
  table_message markers.
#[export] Instance state_message : Message ApplicationControlStateRecord :=
  table_message records.
Definition deployed : host := {|
  hs_agent := Some (rel_agent_sha256 current); hs_candidate := None;
  hs_previous_agent := Some (rel_agent_sha256 previous); hs_dropin := "";
  hs_bundle := Some active; hs_previous_bundle := Some kept;
  hs_control := encode_to_vec (record_of state); hs_staged := []; hs_local := [];
  hs_ready := true |}.
Definition seen : ApplicationObservation :=
  observation (Some (rel_agent_sha256 current)) (Some active) (Some state) true.
Definition authorized : string :=
  match authorize_application_rollback desired seen RollbackSample.plan with
  | Ok g => authority_digest (authority g)
  | Err _ => ""
  end.

Lemma markers_ok b : b ∈ markers → marker_ok (bundle_rep := (.∈ markers)) b.
Proof.
  intros Hb. split; [done|]. unfold markers in Hb.
  apply elem_of_cons in Hb as [->|Hb]; [|apply list_elem_of_singleton in Hb as ->];
    vm_compute; repeat split; discriminate.
Qed.
Lemma deployed_holds : holds (bundle_rep := (.∈ markers)) deployed
  (Some (rel_agent_sha256 current)) (Some active) (Some state) true.
Proof.
  split; try done.
  - intros s [= <-]. vm_compute. by split.
  - intros b [= <-]. apply markers_ok. apply list_elem_of_here.
Qed.
Lemma deployed_keeps : keeps (bundle_rep := (.∈ markers)) RollbackSample.plan deployed kept.
Proof.
  split_and!; [done|done| |done]. apply markers_ok. apply list_elem_of_further, list_elem_of_here.
Qed.
Lemma rollback_sample_granted :
  rollback_granted desired digest_text authorized seen RollbackSample.plan.
Proof.
  split; [vm_compute; reflexivity|]. unfold authorized.
  destruct (authorize_application_rollback _ _ _) as [g|e] eqn:E; [by eauto|].
  exfalso. revert E. vm_compute. discriminate.
Qed.
Definition trace : list (exchange app_call) :=
  exec_trace (@answer _ _ HostSample.artifact HostSample.content HostSample.all_but_uploads)
    (execute_rollback desired digest_text authorized) deployed.
End RollbackHostSample.
Import RollbackHostSample.

Lemma application_rollback_converges_witness :
  ∃ h' o,
    run HostSample.artifact HostSample.content HostSample.all_but_uploads
      (execute_rollback ApplicationSample.desired ApplicationSample.digest_text
         RollbackHostSample.authorized) deployed = (Ok o, h') ∧
    hs_agent h' = Some (rel_agent_sha256 ApplicationSample.previous).
Proof.
  destruct (application_rollback_converges (H3 := table_message_laws RollbackHostSample.markers)
    (H5 := table_message_laws RollbackHostSample.records) ltac:(done) ltac:(done)
    HostSample.artifact HostSample.content HostSample.all_but_uploads ApplicationSample.desired
    ApplicationSample.digest_text RollbackHostSample.authorized RollbackSample.plan
    (record_of rolled_back) deployed _ _ _ _ kept ltac:(done) deployed_holds deployed_keeps
    rollback_sample_granted) as (h' & o & R & Hh & _).
  - reflexivity.
  - apply list_elem_of_further, list_elem_of_here.
  - exists h', o. split; [exact R|]. apply Hh.
Defined.

Lemma application_rollback_once_witness :
  length (mutations RollbackHostSample.trace) = 6%nat ∧
  ∃ t0 t1 t2 o plan, RollbackHostSample.trace = t0 ++ t1 ++ t2 ∧
    rollback_granted ApplicationSample.desired ApplicationSample.digest_text
      RollbackHostSample.authorized o plan.
Proof.
  assert (Hl : length (mutations RollbackHostSample.trace) = 6%nat) by (vm_compute; reflexivity).
  split; [exact Hl|].
  destruct (application_rollback_once _ _ _ _ _
    (exec_runs (@answer _ _ HostSample.artifact HostSample.content HostSample.all_but_uploads)
       (execute_rollback ApplicationSample.desired ApplicationSample.digest_text
          RollbackHostSample.authorized) deployed))
    as [[Hm _]|(t0 & t1 & t2 & o & plan & E & _ & _ & Hg & _)].
  - exfalso. change (mutations RollbackHostSample.trace = []) in Hm. rewrite Hm in Hl.
    discriminate Hl.
  - exists t0, t1, t2, o, plan. split; [exact E|exact Hg].
Defined.
