(* ===== verification/DeployPhases.v ===== *)
(** * Deployment phases

    Models the phase machine of [edge-controller-core/src/lib.rs]
    ([is_allowed_deploy_transition], [validate_deploy_transition]) over the
    enumerations of [proto/edge/platform/v1/common.proto]. *)

From S2P Require Import Prelude RustStd.

Inductive DeployPhase : Set :=
| DeployUnspecified | Requested | InstanceCreateRequested | InstanceProvisioning
| InstanceAddressAssigned | InstanceRuntimeReady | HostTrustInitialized | BundleRendered
| BundleUploaded | BaseBootstrapStarted | BaseReadyVerified | DnsCutoverStarted
| DnsCutoverVerified | TunnelBootstrapStarted | TunnelReadyVerified | DeploymentPublished
| LocalConfigSynced | DeployCompleted | DeployFailed | RollbackStarted | RollbackCompleted
| LocalRuntimeStartStarted | LocalRuntimeReadyVerified | SelectorIntentsReconciling
| SelectorsVerified | AppEgressVerified | AppReadyCompleted.
#[global] Instance DeployPhase_eq_dec : EqDecision DeployPhase.
Proof. solve_decision. Defined.

Definition deploy_phases : list DeployPhase :=
  [DeployUnspecified; Requested; InstanceCreateRequested; InstanceProvisioning;
   InstanceAddressAssigned; InstanceRuntimeReady; HostTrustInitialized; BundleRendered;
   BundleUploaded; BaseBootstrapStarted; BaseReadyVerified; DnsCutoverStarted;
   DnsCutoverVerified; TunnelBootstrapStarted; TunnelReadyVerified; DeploymentPublished;
   LocalConfigSynced; DeployCompleted; DeployFailed; RollbackStarted; RollbackCompleted;
   LocalRuntimeStartStarted; LocalRuntimeReadyVerified; SelectorIntentsReconciling;
   SelectorsVerified; AppEgressVerified; AppReadyCompleted].

(** [DeployPhase::as_str_name]: the names of the proto file *)
Definition deploy_phase_name (p : DeployPhase) : string :=
  match p with
  | DeployUnspecified => "DEPLOY_PHASE_UNSPECIFIED"
  | Requested => "DEPLOY_PHASE_REQUESTED"
  | InstanceCreateRequested => "INSTANCE_CREATE_REQUESTED"
  | InstanceProvisioning => "INSTANCE_PROVISIONING"
  | InstanceAddressAssigned => "INSTANCE_ADDRESS_ASSIGNED"
  | InstanceRuntimeReady => "INSTANCE_RUNTIME_READY"
  | HostTrustInitialized => "HOST_TRUST_INITIALIZED"
  | BundleRendered => "BUNDLE_RENDERED"
  | BundleUploaded => "BUNDLE_UPLOADED"
  | BaseBootstrapStarted => "BASE_BOOTSTRAP_STARTED"
  | BaseReadyVerified => "BASE_READY_VERIFIED"
  | DnsCutoverStarted => "DNS_CUTOVER_STARTED"
  | DnsCutoverVerified => "DNS_CUTOVER_VERIFIED"
  | TunnelBootstrapStarted => "TUNNEL_BOOTSTRAP_STARTED"
  | TunnelReadyVerified => "TUNNEL_READY_VERIFIED"
  | DeploymentPublished => "DEPLOYMENT_PUBLISHED"
  | LocalConfigSynced => "LOCAL_CONFIG_SYNCED"
  | DeployCompleted => "DEPLOY_PHASE_COMPLETED"
  | DeployFailed => "DEPLOY_PHASE_FAILED"
  | RollbackStarted => "ROLLBACK_STARTED"
  | RollbackCompleted => "ROLLBACK_COMPLETED"
  | LocalRuntimeStartStarted => "LOCAL_RUNTIME_START_STARTED"
  | LocalRuntimeReadyVerified => "LOCAL_RUNTIME_READY_VERIFIED"
  | SelectorIntentsReconciling => "SELECTOR_INTENTS_RECONCILING"
  | SelectorsVerified => "SELECTORS_VERIFIED"
  | AppEgressVerified => "APP_EGRESS_VERIFIED"
  | AppReadyCompleted => "APP_READY_COMPLETED"
  end.
(** [DeployPhase::from_str_name] *)
Definition deploy_phase_of_name (s : string) : option DeployPhase :=
  List.find (λ p, str_eqb (deploy_phase_name p) s) deploy_phases.

Inductive AppReadinessPhase : Set :=
| ReadinessUnspecified | DeploymentAbsent | ServerRuntimeReady | LocalRuntimeReady
| SelectorsReady | AppEgressReady | AppReady | ReadinessFailed.
#[global] Instance AppReadinessPhase_eq_dec : EqDecision AppReadinessPhase.
Proof. solve_decision. Defined.
Definition readiness_phases : list AppReadinessPhase :=
  [ReadinessUnspecified; DeploymentAbsent; ServerRuntimeReady; LocalRuntimeReady;
   SelectorsReady; AppEgressReady; AppReady; ReadinessFailed].
Definition readiness_phase_name (p : AppReadinessPhase) : string :=
  match p with
  | ReadinessUnspecified => "APP_READINESS_PHASE_UNSPECIFIED"
  | DeploymentAbsent => "DEPLOYMENT_ABSENT"
  | ServerRuntimeReady => "SERVER_RUNTIME_READY"
  | LocalRuntimeReady => "LOCAL_RUNTIME_READY"
  | SelectorsReady => "SELECTORS_READY"
  | AppEgressReady => "APP_EGRESS_READY"
  | AppReady => "APP_READY"
  | ReadinessFailed => "APP_READINESS_FAILED"
  end.
Definition readiness_phase_of_name (s : string) : option AppReadinessPhase :=
  List.find (λ p, str_eqb (readiness_phase_name p) s) readiness_phases.

(** [ErrorSubsystem] and [PlatformError] *)
Inductive ErrorSubsystem : Set :=
| SubsystemUnspecified | ProviderCompute | ProviderDns | RuntimeCompose | TransportSsh
| LocalSingbox | ServerAgent | StateSubsystem.
Record PlatformError : Type := {
  pe_code : string; pe_stage : string; pe_message : string; pe_retryable : bool;
  pe_subsystem : ErrorSubsystem
}.

Definition is_allowed_deploy_transition (from to : DeployPhase) : bool :=
  match from, to with
  | Requested, InstanceCreateRequested
  | InstanceCreateRequested, InstanceProvisioning
  | InstanceProvisioning, InstanceAddressAssigned
  | InstanceAddressAssigned, InstanceRuntimeReady
  | InstanceRuntimeReady, HostTrustInitialized
  | HostTrustInitialized, BundleRendered
  | BundleRendered, BundleUploaded
  | BundleUploaded, BaseBootstrapStarted
  | BaseBootstrapStarted, BaseReadyVerified
  | BaseReadyVerified, DnsCutoverStarted
  | DnsCutoverStarted, DnsCutoverVerified
  | DnsCutoverVerified, TunnelBootstrapStarted
  | TunnelBootstrapStarted, TunnelReadyVerified
  | TunnelReadyVerified, DeploymentPublished
  | DeploymentPublished, LocalConfigSynced
  | LocalConfigSynced, LocalRuntimeStartStarted
  | LocalRuntimeStartStarted, LocalRuntimeReadyVerified
  | LocalRuntimeReadyVerified, SelectorIntentsReconciling
  | SelectorIntentsReconciling, SelectorsVerified
  | SelectorsVerified, AppEgressVerified
  | AppEgressVerified, AppReadyCompleted
  | LocalConfigSynced, DeployCompleted
  | LocalRuntimeReadyVerified, DeployCompleted
  | SelectorsVerified, DeployCompleted
  | AppEgressVerified, DeployCompleted
  | Requested, DeployFailed
  | InstanceCreateRequested, DeployFailed
  | InstanceProvisioning, DeployFailed
  | InstanceAddressAssigned, DeployFailed
  | InstanceRuntimeReady, DeployFailed
  | HostTrustInitialized, DeployFailed
  | BundleRendered, DeployFailed
  | BundleUploaded, DeployFailed
  | BaseBootstrapStarted, DeployFailed
  | BaseReadyVerified, DeployFailed
  | DnsCutoverStarted, DeployFailed
  | DnsCutoverVerified, DeployFailed
  | TunnelBootstrapStarted, DeployFailed
  | TunnelReadyVerified, DeployFailed
  | DeploymentPublished, DeployFailed
  | LocalConfigSynced, DeployFailed
  | LocalRuntimeStartStarted, DeployFailed
  | LocalRuntimeReadyVerified, DeployFailed
  | SelectorIntentsReconciling, DeployFailed
  | SelectorsVerified, DeployFailed
  | AppEgressVerified, DeployFailed
  | DeployFailed, RollbackStarted
  | RollbackStarted, RollbackCompleted => true
  | _, _ => false
  end.

Definition validate_deploy_transition (from to : DeployPhase) : result PlatformError unit :=
  if is_allowed_deploy_transition from to then Ok tt
  else Err {|
    pe_code := "invalid_deploy_phase_transition"; pe_stage := deploy_phase_name from;
    pe_message := "cannot transition deploy phase from " +:+ deploy_phase_name from
      +:+ " to " +:+ deploy_phase_name to;
    pe_retryable := false; pe_subsystem := StateSubsystem |}.

(** ** Facts *)

Lemma deploy_phase_in p : p ∈ deploy_phases.
Proof. destruct p; unfold deploy_phases; set_solver. Qed.
Lemma deploy_phase_name_roundtrip p : deploy_phase_of_name (deploy_phase_name p) = Some p.
Proof. by destruct p. Qed.
Lemma readiness_phase_name_roundtrip p :
  readiness_phase_of_name (readiness_phase_name p) = Some p.
Proof. by destruct p. Qed.

(** A history of the phase: every change was allowed. *)
Inductive deploy_trace : list DeployPhase → Prop :=
| trace_start p : deploy_trace [p]
| trace_step p q ps : is_allowed_deploy_transition p q = true →
    deploy_trace (q :: ps) → deploy_trace (p :: q :: ps).

(** The order in which a deployment is built up *)
Definition deploy_order : list DeployPhase :=
  [Requested; InstanceCreateRequested; InstanceProvisioning; InstanceAddressAssigned;
   InstanceRuntimeReady; HostTrustInitialized; BundleRendered; BundleUploaded;
   BaseBootstrapStarted; BaseReadyVerified; DnsCutoverStarted; DnsCutoverVerified;
   TunnelBootstrapStarted; TunnelReadyVerified; DeploymentPublished; LocalConfigSynced;
   LocalRuntimeStartStarted; LocalRuntimeReadyVerified; SelectorIntentsReconciling;
   SelectorsVerified; AppEgressVerified; AppReadyCompleted].

(** What may follow the build-up: completion once the local configuration was
    synced, or a failure with its rollback *)
Definition closing (done_ : list DeployPhase) (tail : list DeployPhase) : Prop :=
  tail = [] ∨
  tail = [DeployCompleted] ∧ LocalConfigSynced ∈ done_ ∨
  tail ∈ [[DeployFailed]; [DeployFailed; RollbackStarted];
          [DeployFailed; RollbackStarted; RollbackCompleted]].

Lemma failed_tail ps : deploy_trace (DeployFailed :: ps) →
  DeployFailed :: ps ∈ [[DeployFailed]; [DeployFailed; RollbackStarted];
                        [DeployFailed; RollbackStarted; RollbackCompleted]].
Proof.
  intros H. inversion H as [|? q ps1 Ha Ht]; subst; [set_solver|].
  destruct q; try discriminate Ha. inversion Ht as [|? q ps2 Hb Hu]; subst; [set_solver|].
  destruct q; try discriminate Hb. inversion Hu as [|? q ps3 Hc ?]; subst; [set_solver|].
  by destruct q.
Qed.
Lemma completed_tail ps : deploy_trace (DeployCompleted :: ps) → ps = [].
Proof. intros H. inversion H as [|? q ? Ha]; subst; [done|]. by destruct q. Qed.

Lemma order_step i p q :
  deploy_order !! i = Some p → is_allowed_deploy_transition p q = true →
  deploy_order !! S i = Some q ∨ q = DeployFailed ∨ q = DeployCompleted ∧ (15 ≤ i)%nat.
Proof.
  intros Hi Ha. do 22 (destruct i as [|i]; [injection Hi as <-; destruct q; try discriminate Ha;
    solve [by left | right; left; done | right; right; split; [done|lia]]|]).
  done.
Qed.

Lemma order_trace ps : ∀ i p,
  deploy_order !! i = Some p → deploy_trace (p :: ps) →
  ∃ k tail, (i < k)%nat ∧ p :: ps = drop i (take k deploy_order) ++ tail ∧
    closing (take k deploy_order) tail.
Proof.
  assert (head : ∀ i p, deploy_order !! i = Some p → drop i (take (S i) deploy_order) = [p]).
  { intros i p Hi. rewrite (take_S_r _ _ _ Hi), drop_app_length'; [done|].
    rewrite length_take. apply lookup_lt_Some in Hi. lia. }
  induction ps as [|q ps IH]; intros i p Hi Ht.
  { exists (S i), []. rewrite (head i p Hi). split_and!; [lia|done|by left]. }
  inversion Ht as [|? ? ? Ha Hq]; subst.
  destruct (order_step i p q Hi Ha) as [Hn|[->|[-> H15]]].
  - destruct (IH (S i) q Hn Hq) as (k & tail & Hk & Heq & Hc). exists k, tail.
    split_and!; [lia| |done]. rewrite Heq, (drop_S _ p i); [done|].
    rewrite lookup_take_lt by lia. done.
  - exists (S i), (DeployFailed :: ps). rewrite (head i p Hi).
    split_and!; [lia|done|]. right. right. by apply failed_tail.
  - apply completed_tail in Hq as ->. exists (S i), [DeployCompleted]. rewrite (head i p Hi).
    split_and!; [lia|done|]. right. left. split; [done|].
    apply list_elem_of_lookup. exists 15%nat. rewrite lookup_take_lt by lia. done.
Qed.

(** The history of a deployment from its request *)
Lemma deploy_history ps :
  deploy_trace (Requested :: ps) →
  ∃ k tail, Requested :: ps = take k deploy_order ++ tail ∧
    closing (take k deploy_order) tail ∧ (length (Requested :: ps) ≤ 25)%nat.
Proof.
  intros Ht. destruct (order_trace ps 0 Requested eq_refl Ht) as (k & tail & _ & Heq & Hc).
  exists k, tail. rewrite drop_0 in Heq. split_and!; [done..|]. rewrite Heq, length_app, length_take.
  assert (length tail ≤ 3)%nat.
  { destruct Hc as [->|[[-> _]|Hc]]; simpl; [lia..|]. set_unfold in Hc.
    destruct Hc as [->|[->|[->|[]]]]; simpl; lia. }
  change (length deploy_order) with 22%nat. lia.
Qed.

(** The changes of a sequence of phases: repetitions are dropped. *)
Fixpoint changes (p : DeployPhase) (ps : list DeployPhase) : list DeployPhase :=
  match ps with
  | [] => [p]
  | q :: ps => if decide (p = q) then changes p ps else p :: changes q ps
  end.
Lemma changes_head p ps : ∃ rest, changes p ps = p :: rest.
Proof.
  induction ps as [|q ps IH]; simpl; [by eexists|]. destruct (decide (p = q)); [done|by eexists].
Qed.
