(* ===== verification/EdgeState.v ===== *)
(** * The controller's state store

    Models [edge-state/src/lib.rs]: the tables of the SQLite database, one function
    per method of [EdgeState] with the effect of its SQL statements on the tables,
    and the transactions that several statements run in.

    A statement may fail at the engine (disk, lock, interrupt): the failures are an
    argument of the model, by the number of the statement, each with the engine's
    choice to end the open transaction or to keep it. The clock is an argument too.
    The tables that no method reads or writes and the [ALTER TABLE] statements of
    the migrations are left out: every column is there from the start. *)

From S2P Require Import Prelude RustStd DeployPhases.

(** ** Rows *)

Record StoredDeployment : Type := {
  dep_id : Z; dep_label : string; dep_instance_id : string; dep_server_ip : string;
  dep_created_at : Z }.
Record StoredOperation : Type := {
  op_id : Z; op_kind : string; op_status : string; op_created_at : Z;
  op_completed_at : option Z; op_target_label : option string;
  op_target_instance_id : option string; op_target_ip : option string }.
Record StoredOperationEvent : Type := {
  ev_id : Z; ev_operation_id : Z; ev_message : string; ev_created_at : Z }.
Record StoredDestroyTombstone : Type := {
  ts_id : Z; ts_label : option string; ts_instance_id : option string;
  ts_server_ip : option string; ts_created_at : Z }.
Record LocalObservation : Type := { lo_kind : string; lo_payload : bytes; lo_observed_at : Z }.
Record StoredSecretRef : Type := { sr_name : string; sr_secret_ref : string; sr_updated_at : Z }.
Record StoredSelectorIntent : Type := {
  si_group_name : string; si_desired_route : string; si_updated_at : Z }.
Record StoredTrustEntry : Type := {
  te_id : Z; te_deployment_id : string; te_instance_id : string; te_ip : string;
  te_known_host_line : string; te_domain_name : option string; te_ca_cert_path : option string;
  te_server_cert_path : option string; te_client_cert_path : option string;
  te_client_key_path : option string; te_updated_at : Z }.
(** The identity of the active deployment *)
Record ActiveDeployment : Type := {
  ad_label : option string; ad_instance_id : option string; ad_server_ip : option string;
  ad_tunnel_domain : option string; ad_state_json : option string }.
(** The row of [controller_state]: the phases are stored by name. *)
Record ControllerRow : Type := {
  cr_active : ActiveDeployment; cr_deploy_phase : string; cr_app_readiness_phase : string;
  cr_last_error_code : option string; cr_last_error_message : option string;
  cr_updated_at : Z }.
Record StoredControllerState : Type := {
  cs_active : ActiveDeployment; cs_deploy_phase : DeployPhase;
  cs_app_readiness_phase : AppReadinessPhase; cs_last_error_code : option string;
  cs_last_error_message : option string; cs_updated_at : Z }.

Record Db : Type := {
  deployments : list StoredDeployment;
  operations : list StoredOperation;
  operation_events : list StoredOperationEvent;
  destroy_tombstones : list StoredDestroyTombstone;
  local_observations : list LocalObservation;
  secret_refs : list StoredSecretRef;
  selector_intents : list StoredSelectorIntent;
  trust_store : list StoredTrustEntry;
  controller_state : option ControllerRow
}.

Definition with_deployments (db : Db) l : Db := {|
  deployments := l; operations := operations db; operation_events := operation_events db;
  destroy_tombstones := destroy_tombstones db; local_observations := local_observations db;
  secret_refs := secret_refs db; selector_intents := selector_intents db;
  trust_store := trust_store db; controller_state := controller_state db |}.
Definition with_operations (db : Db) l : Db := {|
  deployments := deployments db; operations := l; operation_events := operation_events db;
  destroy_tombstones := destroy_tombstones db; local_observations := local_observations db;
  secret_refs := secret_refs db; selector_intents := selector_intents db;
  trust_store := trust_store db; controller_state := controller_state db |}.
Definition with_operation_events (db : Db) l : Db := {|
  deployments := deployments db; operations := operations db; operation_events := l;
  destroy_tombstones := destroy_tombstones db; local_observations := local_observations db;
  secret_refs := secret_refs db; selector_intents := selector_intents db;
  trust_store := trust_store db; controller_state := controller_state db |}.
Definition with_destroy_tombstones (db : Db) l : Db := {|
  deployments := deployments db; operations := operations db;
  operation_events := operation_events db; destroy_tombstones := l;
  local_observations := local_observations db;
  secret_refs := secret_refs db; selector_intents := selector_intents db;
  trust_store := trust_store db; controller_state := controller_state db |}.
Definition with_local_observations (db : Db) l : Db := {|
  deployments := deployments db; operations := operations db;
  operation_events := operation_events db; destroy_tombstones := destroy_tombstones db;
  local_observations := l; secret_refs := secret_refs db;
  selector_intents := selector_intents db; trust_store := trust_store db;
  controller_state := controller_state db |}.
Definition with_secret_refs (db : Db) l : Db := {|
  deployments := deployments db; operations := operations db;
  operation_events := operation_events db; destroy_tombstones := destroy_tombstones db;
  local_observations := local_observations db; secret_refs := l;
  selector_intents := selector_intents db; trust_store := trust_store db;
  controller_state := controller_state db |}.
Definition with_selector_intents (db : Db) l : Db := {|
  deployments := deployments db; operations := operations db;
  operation_events := operation_events db; destroy_tombstones := destroy_tombstones db;
  local_observations := local_observations db; secret_refs := secret_refs db;
  selector_intents := l; trust_store := trust_store db;
  controller_state := controller_state db |}.
Definition with_trust_store (db : Db) l : Db := {|
  deployments := deployments db; operations := operations db;
  operation_events := operation_events db; destroy_tombstones := destroy_tombstones db;
  local_observations := local_observations db; secret_refs := secret_refs db;
  selector_intents := selector_intents db; trust_store := l;
  controller_state := controller_state db |}.
Definition with_controller_state (db : Db) r : Db := {|
  deployments := deployments db; operations := operations db;
  operation_events := operation_events db; destroy_tombstones := destroy_tombstones db;
  local_observations := local_observations db; secret_refs := secret_refs db;
  selector_intents := selector_intents db; trust_store := trust_store db;
  controller_state := r |}.

(** ** SQL *)

(** [INTEGER PRIMARY KEY]: the next row id is one above the largest. *)
Definition max_id {A} (id : A → Z) (rows : list A) : Z := foldr (λ r m, Z.max (id r) m) 0 rows.
Definition next_id {A} (id : A → Z) (rows : list A) : Z := max_id id rows + 1.

(** [ORDER BY key ASC], and [ORDER BY key DESC LIMIT 1] *)
Definition order_by_id {A} (id : A → Z) (rows : list A) : list A :=
  sort_by (λ a b, id a <=? id b) rows.
Definition order_by_text {A} (key : A → string) (rows : list A) : list A :=
  sort_by (λ a b, str_leb (key a) (key b)) rows.
Definition latest {A} (id : A → Z) (rows : list A) : option A := last (order_by_id id rows).

(** [INSERT ... ON CONFLICT(key) DO UPDATE SET]: the row with the key is replaced by
    its update, or the new row is appended. *)
Fixpoint upsert {A} (same : A → bool) (update : A → A) (row : A) (rows : list A) : list A :=
  match rows with
  | [] => [row]
  | r :: rows => if same r then update r :: rows else r :: upsert same update row rows
  end.
(** [UPDATE ... WHERE]: the rows, and how many changed *)
Definition update_where {A} (p : A → bool) (f : A → A) (rows : list A) : list A * nat :=
  (map (λ r, if p r then f r else r) rows, length (List.filter p rows)).
(** [DELETE ... WHERE] *)
Definition delete_where {A} (p : A → bool) (rows : list A) : list A :=
  List.filter (λ r, negb (p r)) rows.
(** [?1 IS NOT NULL AND column = ?1] on a nullable column *)
Definition opt_match (param column : option string) : bool :=
  match param, column with Some a, Some b => str_eqb a b | _, _ => false end.

Inductive SqlError : Type :=
| QueryReturnedNoRows
| FromSqlConversionFailure (message : string)
| SqlFailure (message : string).

(** A failure of the engine; [fault_rollback]: it ended the open transaction. *)
Record Fault : Type := { fault_message : string; fault_rollback : bool }.

(** A connection: the tables as it sees them, the tables at [BEGIN] when a
    transaction is open, and the number of statements and clock readings so far *)
Record Conn : Type := { c_db : Db; c_tx : option Db; c_step : nat }.

(** What another connection sees, and what is left after a crash *)
Definition durable (c : Conn) : Db := match c_tx c with Some db => db | None => c_db c end.

Definition sql (A : Type) : Type := Conn → result SqlError A * Conn.
#[global] Instance sql_ret : MRet sql := λ A a c, (Ok a, c).
#[global] Instance sql_bind : MBind sql := λ A B f m c,
  match m c with (Ok a, c') => f a c' | (Err e, c') => (Err e, c') end.
Definition sql_fail {A} (e : SqlError) : sql A := λ c, (Err e, c).
Definition sql_result {A} (r : result SqlError A) : sql A := λ c, (r, c).
Definition next_step (c : Conn) : Conn :=
  {| c_db := c_db c; c_tx := c_tx c; c_step := S (c_step c) |}.

Section Store.
Context (clock : nat → Z) (fault : nat → option Fault).

Definition unix_now : sql Z := λ c, (Ok (clock (c_step c)), next_step c).

(** The connection after the engine failed *)
Definition failed (f : Fault) (c : Conn) : Conn :=
  match c_tx c with
  | Some snapshot =>
      if fault_rollback f then {| c_db := snapshot; c_tx := None; c_step := S (c_step c) |}
      else next_step c
  | None => next_step c
  end.
Definition statement {A} (run : Db → A * Db) : sql A := λ c,
  match fault (c_step c) with
  | Some f => (Err (SqlFailure (fault_message f)), failed f c)
  | None => let '(a, db) := run (c_db c) in
            (Ok a, {| c_db := db; c_tx := c_tx c; c_step := S (c_step c) |})
  end.
Definition execute (run : Db → Db) : sql unit := statement (λ db, (tt, run db)).
Definition query {A} (run : Db → A) : sql A := statement (λ db, (run db, db)).

Definition begin_immediate : sql unit := λ c,
  match fault (c_step c), c_tx c with
  | Some f, _ => (Err (SqlFailure (fault_message f)), failed f c)
  | None, Some _ =>
      (Err (SqlFailure "cannot start a transaction within a transaction"), next_step c)
  | None, None => (Ok tt, {| c_db := c_db c; c_tx := Some (c_db c); c_step := S (c_step c) |})
  end.
Definition commit : sql unit := λ c,
  match fault (c_step c), c_tx c with
  | Some f, _ => (Err (SqlFailure (fault_message f)), failed f c)
  | None, None => (Err (SqlFailure "cannot commit - no transaction is active"), next_step c)
  | None, Some _ => (Ok tt, {| c_db := c_db c; c_tx := None; c_step := S (c_step c) |})
  end.
Definition rollback : sql unit := λ c,
  match fault (c_step c), c_tx c with
  | Some f, _ => (Err (SqlFailure (fault_message f)), failed f c)
  | None, None => (Err (SqlFailure "cannot rollback - no transaction is active"), next_step c)
  | None, Some db => (Ok tt, {| c_db := db; c_tx := None; c_step := S (c_step c) |})
  end.

(** [match f(conn) { Ok => COMMIT, Err => ROLLBACK }] *)
Definition finish_transaction {A} (f : sql A) : sql A := λ c,
  match f c with
  | (Ok value, c') => (commit ;; (mret value : sql A)) c'
  | (Err err, c') => (Err err, snd (rollback c'))
  end.
Definition with_immediate_transaction {A} (f : sql A) : sql A :=
  begin_immediate ;; finish_transaction f.

(** ** The controller state *)

Definition parse_deploy_phase_storage_value (value : string) : result SqlError DeployPhase :=
  if str_eqb value "DEPLOYMENT_ABSENT" then Ok DeployUnspecified
  else if str_eqb value "FAILED" then Ok DeployFailed
  else if str_eqb value "COMPLETED" then Ok DeployCompleted
  else ok_or (deploy_phase_of_name value)
    (FromSqlConversionFailure ("invalid controller state deploy_phase: " +:+ value)).
Definition parse_app_readiness_phase_storage_value (value : string)
    : result SqlError AppReadinessPhase :=
  ok_or (readiness_phase_of_name value)
    (FromSqlConversionFailure ("invalid controller state app_readiness_phase: " +:+ value)).

Definition parse_controller_row (r : ControllerRow) : result SqlError StoredControllerState :=
  deploy ← parse_deploy_phase_storage_value (cr_deploy_phase r);
  readiness ← parse_app_readiness_phase_storage_value (cr_app_readiness_phase r);
  Ok {| cs_active := cr_active r; cs_deploy_phase := deploy;
        cs_app_readiness_phase := readiness; cs_last_error_code := cr_last_error_code r;
        cs_last_error_message := cr_last_error_message r; cs_updated_at := cr_updated_at r |}.
Definition get_controller_state : sql (option StoredControllerState) :=
  row ← query controller_state;
  match row with
  | Some r => state ← sql_result (parse_controller_row r); mret (Some state)
  | None => mret None
  end.

Record NewControllerState : Type := {
  ns_active : ActiveDeployment; ns_deploy_phase : DeployPhase;
  ns_app_readiness_phase : AppReadinessPhase; ns_last_error_code : option string;
  ns_last_error_message : option string }.
Definition upsert_controller_state (state : NewControllerState) : sql StoredControllerState :=
  updated_at ← unix_now;
  execute (λ db, with_controller_state db (Some {|
    cr_active := ns_active state;
    cr_deploy_phase := deploy_phase_name (ns_deploy_phase state);
    cr_app_readiness_phase := readiness_phase_name (ns_app_readiness_phase state);
    cr_last_error_code := ns_last_error_code state;
    cr_last_error_message := ns_last_error_message state;
    cr_updated_at := updated_at |})) ;;
  stored ← get_controller_state;
  sql_result (ok_or stored QueryReturnedNoRows).

Definition no_deployment : ActiveDeployment := {|
  ad_label := None; ad_instance_id := None; ad_server_ip := None; ad_tunnel_domain := None;
  ad_state_json := None |}.
Definition absent_row (now : Z) : ControllerRow := {|
  cr_active := no_deployment; cr_deploy_phase := deploy_phase_name DeployUnspecified;
  cr_app_readiness_phase := readiness_phase_name DeploymentAbsent;
  cr_last_error_code := None; cr_last_error_message := None; cr_updated_at := now |}.

(** The row that the migrations insert, [ON CONFLICT DO NOTHING] *)
Definition run_migrations : sql unit :=
  now ← unix_now;
  execute (λ db, match controller_state db with
    | Some _ => db | None => with_controller_state db (Some (absent_row now)) end).
(** [UPDATE ... WHERE singleton_key = 1] *)
Definition clear_row (now : Z) (db : Db) : Db :=
  match controller_state db with
  | Some _ => with_controller_state db (Some (absent_row now))
  | None => db
  end.
Definition clear_controller_state : sql unit :=
  now ← unix_now; execute (clear_row now).

(** ** Operations and their events *)

Definition update_operation_status (operation_id : Z) (status : string) : sql unit :=
  completed_at ← (if str_eqb status "RUNNING" then mret None
                  else now ← unix_now; mret (Some now));
  updated ← statement (λ db,
    let '(rows, n) := update_where (λ r, op_id r =? operation_id) (λ r, {|
      op_id := op_id r; op_kind := op_kind r; op_status := status;
      op_created_at := op_created_at r;
      op_completed_at := match op_completed_at r with Some t => Some t | None => completed_at end;
      op_target_label := op_target_label r; op_target_instance_id := op_target_instance_id r;
      op_target_ip := op_target_ip r |}) (operations db) in
    (n, with_operations db rows));
  match updated with O => sql_fail QueryReturnedNoRows | S _ => mret tt end.
Definition append_event_row (operation_id : Z) (message : string) (now : Z) (db : Db) : Db :=
  with_operation_events db (operation_events db ++ [{|
    ev_id := next_id ev_id (operation_events db); ev_operation_id := operation_id;
    ev_message := message; ev_created_at := now |}]).
Definition append_operation_event_in_conn (operation_id : Z) (message : string) : sql unit :=
  now ← unix_now; execute (append_event_row operation_id message now).
(** [append_operation_event], which also returns the row under [last_insert_rowid] *)
Definition append_operation_event (operation_id : Z) (message : string)
    : sql StoredOperationEvent :=
  created_at ← unix_now;
  id ← statement (λ db, (next_id ev_id (operation_events db),
                         append_event_row operation_id message created_at db));
  mret {| ev_id := id; ev_operation_id := operation_id; ev_message := message;
          ev_created_at := created_at |}.
Definition start_operation (kind status : string) : sql StoredOperation :=
  created_at ← unix_now;
  statement (λ db, let row := {|
    op_id := next_id op_id (operations db); op_kind := kind; op_status := status;
    op_created_at := created_at; op_completed_at := None; op_target_label := None;
    op_target_instance_id := None; op_target_ip := None |} in
    (row, with_operations db (operations db ++ [row]))).
Definition set_operation_target (operation_id : Z)
    (target_label target_instance_id target_ip : option string) : sql unit :=
  updated ← statement (λ db,
    let '(rows, n) := update_where (λ r, op_id r =? operation_id) (λ r, {|
      op_id := op_id r; op_kind := op_kind r; op_status := op_status r;
      op_created_at := op_created_at r; op_completed_at := op_completed_at r;
      op_target_label := target_label; op_target_instance_id := target_instance_id;
      op_target_ip := target_ip |}) (operations db) in
    (n, with_operations db rows));
  match updated with O => sql_fail QueryReturnedNoRows | S _ => mret tt end.
Definition get_operation (operation_id : Z) : sql (option StoredOperation) :=
  query (λ db, List.find (λ r, op_id r =? operation_id) (operations db)).
Definition latest_operation_by_kind (kind : string) : sql (option StoredOperation) :=
  query (λ db, latest op_id (List.filter (λ r, str_eqb (op_kind r) kind) (operations db))).
Definition list_operation_events (operation_id : Z) : sql (list StoredOperationEvent) :=
  query (λ db, order_by_id ev_id
    (List.filter (λ r, ev_operation_id r =? operation_id) (operation_events db))).
Definition list_operations_by_status (status : string) : sql (list StoredOperation) :=
  query (λ db, order_by_id op_id
    (List.filter (λ r, str_eqb (op_status r) status) (operations db))).

Record OperationJournalUpdate : Type := {
  ju_operation_id : Z; ju_operation_status : option string; ju_message : option string }.
Record ControllerStateTransition : Type := {
  tr_deploy_phase : DeployPhase; tr_app_readiness_phase : AppReadinessPhase;
  tr_last_error_code : option string; tr_last_error_message : option string;
  tr_journal : option OperationJournalUpdate }.

Definition journal_update (j : option OperationJournalUpdate) : sql unit :=
  match j with
  | Some journal =>
      match ju_operation_status journal with
      | Some status => update_operation_status (ju_operation_id journal) status
      | None => mret tt
      end ;;
      match ju_message journal with
      | Some message => append_operation_event_in_conn (ju_operation_id journal) message
      | None => mret tt
      end
  | None => mret tt
  end.
Definition transition_body (t : ControllerStateTransition) : sql StoredControllerState :=
  current ← get_controller_state;
  stored ← upsert_controller_state {|
    ns_active := match current with Some s => cs_active s | None => no_deployment end;
    ns_deploy_phase := tr_deploy_phase t; ns_app_readiness_phase := tr_app_readiness_phase t;
    ns_last_error_code := tr_last_error_code t;
    ns_last_error_message := tr_last_error_message t |};
  journal_update (tr_journal t) ;;
  mret stored.
Definition transition_controller_state_with_operation (t : ControllerStateTransition)
    : sql StoredControllerState :=
  with_immediate_transaction (transition_body t).

Record AppReadinessUpdate : Type := {
  ru_phase : AppReadinessPhase; ru_last_error_code : option string;
  ru_last_error_message : option string }.
Definition readiness_body (u : AppReadinessUpdate) : sql StoredControllerState :=
  now ← unix_now;
  execute (λ db, match controller_state db with
    | Some r => with_controller_state db (Some {|
        cr_active := cr_active r; cr_deploy_phase := cr_deploy_phase r;
        cr_app_readiness_phase := readiness_phase_name (ru_phase u);
        cr_last_error_code := ru_last_error_code u;
        cr_last_error_message := ru_last_error_message u; cr_updated_at := now |})
    | None => db end) ;;
  stored ← get_controller_state;
  sql_result (ok_or stored QueryReturnedNoRows).
Definition update_app_readiness_phase (u : AppReadinessUpdate) : sql StoredControllerState :=
  with_immediate_transaction (readiness_body u).

(** ** Deployments, tombstones and the destroy transition *)

Definition record_deployment (label instance_id server_ip : string) : sql StoredDeployment :=
  created_at ← unix_now;
  statement (λ db, let row := {|
    dep_id := next_id dep_id (deployments db); dep_label := label;
    dep_instance_id := instance_id; dep_server_ip := server_ip;
    dep_created_at := created_at |} in
    (row, with_deployments db (deployments db ++ [row]))).
Definition latest_deployment : sql (option StoredDeployment) :=
  query (λ db, latest dep_id (deployments db)).
Definition find_deployment_by_instance (instance_id : string) : sql (option StoredDeployment) :=
  query (λ db, latest dep_id
    (List.filter (λ r, str_eqb (dep_instance_id r) instance_id) (deployments db))).
Definition delete_deployments (p : StoredDeployment → bool) : sql unit :=
  execute (λ db, with_deployments db (delete_where p (deployments db))).
Definition clear_deployment_by_label (label : string) : sql unit :=
  delete_deployments (λ r, str_eqb (dep_label r) label).
Definition clear_deployment_by_instance (instance_id : string) : sql unit :=
  delete_deployments (λ r, str_eqb (dep_instance_id r) instance_id).

Definition insert_tombstone (label instance_id server_ip : option string) (now : Z) (db : Db)
    : StoredDestroyTombstone * Db :=
  let row := {| ts_id := next_id ts_id (destroy_tombstones db); ts_label := label;
                ts_instance_id := instance_id; ts_server_ip := server_ip;
                ts_created_at := now |} in
  (row, with_destroy_tombstones db (destroy_tombstones db ++ [row])).
Definition record_destroy_tombstone (label instance_id server_ip : option string)
    : sql StoredDestroyTombstone :=
  created_at ← unix_now;
  statement (insert_tombstone label instance_id server_ip created_at).
Definition tombstone_of (label instance_id : option string) (r : StoredDestroyTombstone) : bool :=
  opt_match label (ts_label r) || opt_match instance_id (ts_instance_id r).
Definition find_destroy_tombstone (label instance_id : option string)
    : sql (option StoredDestroyTombstone) :=
  query (λ db, latest ts_id
    (List.filter (tombstone_of label instance_id) (destroy_tombstones db))).
Definition clear_destroy_tombstones (label instance_id : option string) : sql unit :=
  execute (λ db, with_destroy_tombstones db
    (delete_where (tombstone_of label instance_id) (destroy_tombstones db))).

(** [value.filter(|value| !value.trim().is_empty())] *)
Definition nonblank (o : option string) : option string :=
  match o with Some s => if str_empty (trim s) then None else Some s | None => None end.

Definition delete_trust (p : StoredTrustEntry → bool) : sql unit :=
  execute (λ db, with_trust_store db (delete_where p (trust_store db))).
Definition trust_of_instance (instance_id : string) (r : StoredTrustEntry) : bool :=
  str_eqb (te_instance_id r) instance_id.
Definition trust_of_deployment (label : string) (r : StoredTrustEntry) : bool :=
  str_eqb (te_deployment_id r) label.
Definition trust_of_ip (ip : string) (r : StoredTrustEntry) : bool := str_eqb (te_ip r) ip.

Record DestroyAuthorityTransition : Type := {
  da_deployment_label : option string; da_instance_id : option string;
  da_server_ip : option string; da_operation_id : Z; da_operation_status : option string;
  da_event_message : option string }.

Definition tombstone_step (label instance_id server_ip : option string) : sql unit :=
  match label, instance_id, server_ip with
  | None, None, None => mret tt
  | _, _, _ =>
      now ← unix_now; execute (λ db, snd (insert_tombstone label instance_id server_ip now db))
  end.
Definition forget_step (label instance_id server_ip : option string) : sql unit :=
  match instance_id, label, server_ip with
  | Some instance_id, _, _ =>
      clear_deployment_by_instance instance_id ;; delete_trust (trust_of_instance instance_id)
  | None, Some label, _ =>
      clear_deployment_by_label label ;; delete_trust (trust_of_deployment label)
  | None, None, Some ip => delete_trust (trust_of_ip ip)
  | None, None, None => mret tt
  end.
Definition destroy_body (t : DestroyAuthorityTransition) : sql unit :=
  let label := nonblank (da_deployment_label t) in
  let instance_id := nonblank (da_instance_id t) in
  let server_ip := nonblank (da_server_ip t) in
  tombstone_step label instance_id server_ip ;;
  forget_step label instance_id server_ip ;;
  clear_controller_state ;;
  journal_update (Some {| ju_operation_id := da_operation_id t;
    ju_operation_status := da_operation_status t; ju_message := da_event_message t |}).
Definition mark_authoritative_absent_for_destroy (t : DestroyAuthorityTransition) : sql unit :=
  with_immediate_transaction (destroy_body t).

(** ** Trust entries *)

Record NewTrustEntry : Type := {
  nt_deployment_id : string; nt_instance_id : string; nt_ip : string;
  nt_known_host_line : string; nt_domain_name : option string; nt_ca_cert_path : option string;
  nt_server_cert_path : option string; nt_client_cert_path : option string;
  nt_client_key_path : option string }.

Definition trust_key (deployment_id instance_id ip : string) (r : StoredTrustEntry) : bool :=
  str_eqb (te_deployment_id r) deployment_id && str_eqb (te_instance_id r) instance_id
  && str_eqb (te_ip r) ip.
Definition trust_row (e : NewTrustEntry) (id now : Z) : StoredTrustEntry := {|
  te_id := id; te_deployment_id := nt_deployment_id e; te_instance_id := nt_instance_id e;
  te_ip := nt_ip e; te_known_host_line := nt_known_host_line e;
  te_domain_name := nt_domain_name e; te_ca_cert_path := nt_ca_cert_path e;
  te_server_cert_path := nt_server_cert_path e; te_client_cert_path := nt_client_cert_path e;
  te_client_key_path := nt_client_key_path e; te_updated_at := now |}.
Definition get_trust_entry (deployment_id instance_id ip : string)
    : sql (option StoredTrustEntry) :=
  query (λ db, List.find (trust_key deployment_id instance_id ip) (trust_store db)).
Definition upsert_trust_entry (e : NewTrustEntry) : sql StoredTrustEntry :=
  updated_at ← unix_now;
  execute (λ db, with_trust_store db (upsert
    (trust_key (nt_deployment_id e) (nt_instance_id e) (nt_ip e))
    (λ r, trust_row e (te_id r) updated_at)
    (trust_row e (next_id te_id (trust_store db)) updated_at) (trust_store db))) ;;
  stored ← get_trust_entry (nt_deployment_id e) (nt_instance_id e) (nt_ip e);
  sql_result (ok_or stored QueryReturnedNoRows).
Definition list_trust_entries : sql (list StoredTrustEntry) :=
  query (λ db, order_by_id te_id (trust_store db)).
(** [ORDER BY updated_at_unix DESC, id DESC LIMIT 1] *)
Definition trust_recency (a b : StoredTrustEntry) : bool :=
  (te_updated_at a <? te_updated_at b)
  || (te_updated_at a =? te_updated_at b) && (te_id a <=? te_id b).
Definition find_latest_trust_entry (instance_id ip : string) : sql (option StoredTrustEntry) :=
  query (λ db, last (sort_by trust_recency (List.filter
    (λ r, str_eqb (te_instance_id r) instance_id && str_eqb (te_ip r) ip) (trust_store db)))).
Definition clear_trust_entries (instance_id ip : option string) : sql unit :=
  match nonblank instance_id with
  | Some instance_id => delete_trust (trust_of_instance instance_id)
  | None => match nonblank ip with
            | Some ip => delete_trust (trust_of_ip ip)
            | None => mret tt
            end
  end.
Definition clear_trust_entry (deployment_id instance_id ip : string) : sql unit :=
  delete_trust (trust_key deployment_id instance_id ip).

(** ** Observations, selector intents and secret references *)

Definition store_local_observation (kind : string) (payload : bytes) : sql unit :=
  now ← unix_now;
  let row := {| lo_kind := kind; lo_payload := payload; lo_observed_at := now |} in
  execute (λ db, with_local_observations db
    (upsert (λ r, str_eqb (lo_kind r) kind) (λ _, row) row (local_observations db))).
Definition local_observation_count : sql Z :=
  query (λ db, Z.of_nat (length (local_observations db))).

Definition upsert_selector_intent (group_name desired_route : string) : sql unit :=
  now ← unix_now;
  let row := {| si_group_name := group_name; si_desired_route := desired_route;
                si_updated_at := now |} in
  execute (λ db, with_selector_intents db
    (upsert (λ r, str_eqb (si_group_name r) group_name) (λ _, row) row (selector_intents db))).
Definition get_selector_intent (group_name : string) : sql (option StoredSelectorIntent) :=
  query (λ db, List.find (λ r, str_eqb (si_group_name r) group_name) (selector_intents db)).
Definition list_selector_intents : sql (list StoredSelectorIntent) :=
  query (λ db, order_by_text si_group_name (selector_intents db)).

Definition upsert_secret_ref (name secret_ref : string) : sql unit :=
  now ← unix_now;
  let row := {| sr_name := name; sr_secret_ref := secret_ref; sr_updated_at := now |} in
  execute (λ db, with_secret_refs db
    (upsert (λ r, str_eqb (sr_name r) name) (λ _, row) row (secret_refs db))).
Definition get_secret_ref (name : string) : sql (option StoredSecretRef) :=
  query (λ db, List.find (λ r, str_eqb (sr_name r) name) (secret_refs db)).
Definition list_secret_refs : sql (list StoredSecretRef) :=
  query (λ db, order_by_text sr_name (secret_refs db)).

(** ** The controller's phase change

    [upsert_controller_phases_with_journal] of [edge-controller/src/main.rs], under
    the lock of the store; [sql_error_text] is rusqlite's [Display]. *)
Definition upsert_controller_phases_with_journal (sql_error_text : SqlError → string)
    (deploy_phase : DeployPhase)
    (app_readiness_phase : AppReadinessPhase) (last_error_code last_error_message : option string)
    (journal : option OperationJournalUpdate) (c : Conn) : res unit * Conn :=
  match get_controller_state c with
  | (Err e, c) => (Err ("failed to read controller state: " +:+ sql_error_text e), c)
  | (Ok existing, c) =>
      match (match existing with
             | Some current =>
                 if decide (cs_deploy_phase current = deploy_phase) then Ok tt
                 else map_err (λ e, "invalid controller phase transition: " +:+ pe_message e)
                        (validate_deploy_transition (cs_deploy_phase current) deploy_phase)
             | None => Ok tt
             end) with
      | Err e => (Err e, c)
      | Ok _ =>
          match transition_controller_state_with_operation {|
            tr_deploy_phase := deploy_phase; tr_app_readiness_phase := app_readiness_phase;
            tr_last_error_code := last_error_code;
            tr_last_error_message := last_error_message; tr_journal := journal |} c with
          | (Ok _, c) => (Ok tt, c)
          | (Err e, c) =>
              (Err ("failed to update controller state phases: " +:+ sql_error_text e), c)
          end
      end
  end.
End Store.
