(* ===== verification/EdgeStateFacts.v ===== *)
(** * The controller's state store: transactions

    A method of [EdgeState] that runs several statements either happens as a whole
    or not at all, whatever the engine does; and a failed [COMMIT] leaves a
    connection on which no later write becomes durable. *)

From S2P Require Import Prelude RustStd DeployPhases EdgeState.

Section Facts.
Context (clock : nat → Z) (fault : nat → option Fault).

(** ** Bodies of transactions

    A body keeps the transaction it runs in; when it fails, the engine may have
    ended the transaction and restored the tables. *)
Definition engine_rolls_back : Prop := ∃ n f, fault n = Some f ∧ fault_rollback f = true.
Definition tx_body {A} (m : sql A) : Prop := ∀ c s r c',
  c_tx c = Some s → m c = (r, c') →
  match r with
  | Ok _ => c_tx c' = Some s
  | Err _ => c_tx c' = Some s ∨ engine_rolls_back ∧ c_tx c' = None ∧ c_db c' = s
  end.

Lemma body_ret {A} (a : A) : tx_body (mret a : sql A).
Proof using Type. by intros c s r c' Hs [= <- <-]. Qed.
Lemma body_result {A} (x : result SqlError A) : tx_body (sql_result x).
Proof using Type. intros c s r c' Hs [= <- <-]. destruct x; auto. Qed.
Lemma body_fail {A} e : tx_body (sql_fail e : sql A).
Proof using Type. intros c s r c' Hs [= <- <-]. auto. Qed.
Lemma body_bind {A B} (m : sql A) (f : A → sql B) :
  tx_body m → (∀ a, tx_body (f a)) → tx_body (m ≫= f).
Proof using Type.
  intros Hm Hf c s r c' Hs. unfold mbind, sql_bind.
  destruct (m c) as [[a|e] c1] eqn:E; specialize (Hm _ _ _ _ Hs E); simpl in Hm.
  - by apply Hf.
  - by intros [= <- <-].
Qed.
Lemma body_now : tx_body (unix_now clock).
Proof using Type. by intros c s r c' Hs [= <- <-]. Qed.
Lemma failed_tx f c s :
  fault (c_step c) = Some f → c_tx c = Some s →
  c_tx (failed f c) = Some s ∨
  engine_rolls_back ∧ c_tx (failed f c) = None ∧ c_db (failed f c) = s.
Proof using Type.
  intros Hf Hs. unfold failed. rewrite Hs. destruct (fault_rollback f) eqn:Hr; [|by left].
  right. split; [|done]. by exists (c_step c), f.
Qed.
Lemma body_statement {A} (run : Db → A * Db) : tx_body (statement fault run).
Proof using Type.
  intros c s r c' Hs. unfold statement. destruct (fault (c_step c)) as [f|] eqn:Hf.
  - intros [= <- <-]. by apply failed_tx.
  - destruct (run (c_db c)). by intros [= <- <-].
Qed.
Hint Resolve body_ret body_result body_fail body_bind body_now body_statement : sql_body.
Ltac solve_body :=
  repeat first
    [ apply body_bind; [|intros ?] | apply body_ret | apply body_result | apply body_fail
    | apply body_now | apply body_statement
    | match goal with |- tx_body (match ?x with _ => _ end) => destruct x end ].

Lemma body_get_controller_state : tx_body (get_controller_state fault).
Proof using Type. unfold get_controller_state, query. solve_body. Qed.
Lemma body_upsert_controller_state s : tx_body (upsert_controller_state clock fault s).
Proof using Type.
  unfold upsert_controller_state, execute. solve_body.
Qed.
Lemma body_journal j : tx_body (journal_update clock fault j).
Proof using Type.
  unfold journal_update, update_operation_status, append_operation_event_in_conn, execute.
  solve_body.
Qed.
Lemma body_transition t : tx_body (transition_body clock fault t).
Proof using Type.
  unfold transition_body. apply body_bind; [apply body_get_controller_state|intros cur].
  apply body_bind; [apply body_upsert_controller_state|intros st].
  apply body_bind; [apply body_journal|intros ?; apply body_ret].
Qed.
Lemma body_readiness u : tx_body (readiness_body clock fault u).
Proof using Type. unfold readiness_body, execute. solve_body. Qed.
Lemma body_destroy t : tx_body (destroy_body clock fault t).
Proof using Type.
  unfold destroy_body, tombstone_step, forget_step, clear_controller_state,
    clear_deployment_by_instance, clear_deployment_by_label, delete_deployments, delete_trust,
    execute. cbn zeta. solve_body.
Qed.

(** ** Transactions are atomic *)

(** The connection inside the transaction that starts at [c] *)
Definition opened (c : Conn) : Conn :=
  {| c_db := c_db c; c_tx := Some (c_db c); c_step := S (c_step c) |}.

Lemma transaction_atomic {A} (f : sql A) c r c' :
  tx_body f → c_tx c = None → with_immediate_transaction fault f c = (r, c') →
  match r with
  | Ok v => c_tx c' = None ∧ ∃ c1, f (opened c) = (Ok v, c1) ∧ c_db c' = c_db c1
  | Err _ => durable c' = durable c
  end.
Proof using Type.
  intros Hf Hc. unfold with_immediate_transaction, mbind, sql_bind, begin_immediate.
  unfold durable at 2. rewrite Hc. destruct (fault (c_step c)) as [x|].
  { intros [= <- <-]. unfold failed. rewrite Hc. unfold durable. simpl. by rewrite Hc. }
  unfold finish_transaction. fold (opened c).
  destruct (f (opened c)) as [[v|e] c1] eqn:E; pose proof (Hf (opened c) (c_db c) _ _ eq_refl E) as Hb; simpl in Hb.
  - unfold mbind, sql_bind, commit. rewrite Hb. destruct (fault (c_step c1)) as [x|].
    + intros [= <- <-]. unfold failed, durable. rewrite Hb. by destruct (fault_rollback x); simpl; rewrite ?Hb.
    + intros [= <- <-]. split; [done|]. by exists c1.
  - unfold rollback, failed, durable. intros [= <- <-].
    destruct (fault (c_step c1)) as [x|], Hb as [Hb|(_ & Hb & <-)]; rewrite ?Hb; simpl; rewrite ?Hb;
      try done. destruct (fault_rollback x); simpl; by rewrite ?Hb.
Qed.

(** ** What a successful run did *)

Lemma bind_sql_Ok {A B} (m : sql A) (f : A → sql B) c b c' :
  (m ≫= f) c = (Ok b, c') → ∃ a c1, m c = (Ok a, c1) ∧ f a c1 = (Ok b, c').
Proof using Type. unfold mbind, sql_bind. destruct (m c) as [[a|e] c1]; [eauto|done]. Qed.
Lemma now_Ok c t c' :
  unix_now clock c = (Ok t, c') → c_db c' = c_db c ∧ c_tx c' = c_tx c.
Proof using Type. by intros [= <- <-]. Qed.
Lemma statement_Ok {A} (run : Db → A * Db) c a c' :
  statement fault run c = (Ok a, c') → run (c_db c) = (a, c_db c') ∧ c_tx c' = c_tx c.
Proof using Type.
  unfold statement. destruct (fault (c_step c)); [done|].
  destruct (run (c_db c)). by intros [= <- <-].
Qed.
Lemma execute_Ok (run : Db → Db) c a c' :
  execute fault run c = (Ok a, c') → c_db c' = run (c_db c) ∧ c_tx c' = c_tx c.
Proof using Type. unfold execute. by intros [[= _ ->] ?]%statement_Ok. Qed.
Lemma query_Ok {A} (run : Db → A) c a c' :
  query fault run c = (Ok a, c') → a = run (c_db c) ∧ c_db c' = c_db c ∧ c_tx c' = c_tx c.
Proof using Type. unfold query. by intros [[= -> ->] ?]%statement_Ok. Qed.
Lemma ret_Ok {A} (a b : A) c c' : (mret a : sql A) c = (Ok b, c') → a = b ∧ c' = c.
Proof using Type. by intros [= -> ->]. Qed.
Lemma result_Ok {A} (x : result SqlError A) c a c' :
  sql_result x c = (Ok a, c') → x = Ok a ∧ c' = c.
Proof using Type. by intros [= -> ->]. Qed.

Lemma get_controller_state_Ok c o c' :
  get_controller_state fault c = (Ok o, c') →
  c_db c' = c_db c ∧ c_tx c' = c_tx c ∧
  match controller_state (c_db c) with
  | Some r => ∃ st, parse_controller_row r = Ok st ∧ o = Some st
  | None => o = None
  end.
Proof using Type.
  unfold get_controller_state. intros (row & c1 & (-> & Hdb & Htx)%query_Ok & H)%bind_sql_Ok.
  destruct (controller_state (c_db c)) as [r|].
  - apply bind_sql_Ok in H as (st & c2 & [Hp ->]%result_Ok & [<- ->]%ret_Ok). eauto.
  - by apply ret_Ok in H as [<- ->].
Qed.

Definition new_row (s : NewControllerState) (now : Z) : ControllerRow := {|
  cr_active := ns_active s; cr_deploy_phase := deploy_phase_name (ns_deploy_phase s);
  cr_app_readiness_phase := readiness_phase_name (ns_app_readiness_phase s);
  cr_last_error_code := ns_last_error_code s; cr_last_error_message := ns_last_error_message s;
  cr_updated_at := now |}.

Lemma parse_deploy_phase_stored p :
  parse_deploy_phase_storage_value (deploy_phase_name p) = Ok p.
Proof using Type. by destruct p. Qed.
Lemma parse_new_row s now :
  parse_controller_row (new_row s now) = Ok {|
    cs_active := ns_active s; cs_deploy_phase := ns_deploy_phase s;
    cs_app_readiness_phase := ns_app_readiness_phase s;
    cs_last_error_code := ns_last_error_code s;
    cs_last_error_message := ns_last_error_message s; cs_updated_at := now |}.
Proof using Type.
  unfold parse_controller_row. simpl. rewrite parse_deploy_phase_stored. simpl.
  unfold parse_app_readiness_phase_storage_value. by rewrite readiness_phase_name_roundtrip.
Qed.

Lemma upsert_controller_state_Ok s c st c' :
  upsert_controller_state clock fault s c = (Ok st, c') →
  ∃ now, c_db c' = with_controller_state (c_db c) (Some (new_row s now)) ∧
    parse_controller_row (new_row s now) = Ok st.
Proof using Type.
  unfold upsert_controller_state.
  intros (now & c1 & [E1 _]%now_Ok & H)%bind_sql_Ok.
  apply bind_sql_Ok in H as ([] & c2 & [E2 _]%execute_Ok & H).
  apply bind_sql_Ok in H as (o & c3 & (E3 & _ & Ho)%get_controller_state_Ok
    & [Hst%ok_or_Ok ->]%result_Ok). exists now. rewrite E3, E2, E1. split; [done|].
  rewrite E2 in Ho. simpl in Ho. destruct Ho as (st' & Hp & ->). by injection Hst as <-.
Qed.

(** The journal of a transition: the operation gets its status, once and for all a
    completion time, and its event. *)
Definition with_status (operation_id : Z) (status : string) (completed_at : option Z)
    (ops : list StoredOperation) : list StoredOperation :=
  map (λ r, if op_id r =? operation_id then {|
      op_id := op_id r; op_kind := op_kind r; op_status := status;
      op_created_at := op_created_at r;
      op_completed_at := match op_completed_at r with Some t => Some t | None => completed_at end;
      op_target_label := op_target_label r; op_target_instance_id := op_target_instance_id r;
      op_target_ip := op_target_ip r |} else r) ops.
Definition status_done (id : Z) (status : option string) (ops ops' : list StoredOperation)
    : Prop :=
  match status with
  | Some s => (∃ r, r ∈ ops ∧ op_id r = id) ∧
      ∃ t, ops' = with_status id s t ops ∧ (t = None ↔ s = "RUNNING")
  | None => ops' = ops
  end.
Definition event_done (id : Z) (message : option string)
    (evs evs' : list StoredOperationEvent) : Prop :=
  match message with
  | Some m => ∃ now, evs' = evs ++ [{| ev_id := next_id ev_id evs; ev_operation_id := id;
                                       ev_message := m; ev_created_at := now |}]
  | None => evs' = evs
  end.
Definition journal_done (j : option OperationJournalUpdate) (db db' : Db) : Prop :=
  match j with
  | Some j =>
      status_done (ju_operation_id j) (ju_operation_status j) (operations db) (operations db') ∧
      event_done (ju_operation_id j) (ju_message j) (operation_events db) (operation_events db')
  | None => operations db' = operations db ∧ operation_events db' = operation_events db
  end.
(** The tables that neither a transition nor its journal touches *)
Definition same_records (db db' : Db) : Prop :=
  deployments db' = deployments db ∧ destroy_tombstones db' = destroy_tombstones db ∧
  local_observations db' = local_observations db ∧ secret_refs db' = secret_refs db ∧
  selector_intents db' = selector_intents db ∧ trust_store db' = trust_store db.

Lemma update_operation_status_Ok id status c c' :
  update_operation_status clock fault id status c = (Ok tt, c') →
  status_done id (Some status) (operations (c_db c)) (operations (c_db c')) ∧
  same_records (c_db c) (c_db c') ∧ controller_state (c_db c') = controller_state (c_db c) ∧
  operation_events (c_db c') = operation_events (c_db c).
Proof using Type.
  unfold update_operation_status. intros (t & c1 & Ht & H)%bind_sql_Ok.
  assert (c_db c1 = c_db c ∧ (t = None ↔ status = "RUNNING")) as [E1 Hn].
  { destruct (str_eqb status "RUNNING") eqn:Hr.
    - apply ret_Ok in Ht as [<- ->]. apply str_eqb_true in Hr. done.
    - apply bind_sql_Ok in Ht as (now & c2 & [E _]%now_Ok & [<- ->]%ret_Ok).
      apply str_eqb_false in Hr. split; [done|]. naive_solver. }
  apply bind_sql_Ok in H as (n & c2 & [Hs _]%statement_Ok & H). rewrite E1 in Hs.
  injection Hs as Hlen Hdb.
  destruct n as [|n]; [done|]. apply ret_Ok in H as [_ ->]. rewrite <- Hdb.
  cbn [operations with_operations controller_state operation_events].
  split; [|done]. split; [|by exists t].
  destruct (List.filter (λ r, op_id r =? id) (operations (c_db c))) as [|r rs] eqn:E; [done|].
  assert (In r (List.filter (λ r, op_id r =? id) (operations (c_db c)))) as Hin
    by (rewrite E; by left).
  apply filter_In in Hin as [Hin Hr]. exists r. split; [by apply list_elem_of_In|lia].
Qed.
Lemma append_event_Ok id m c c' :
  append_operation_event_in_conn clock fault id m c = (Ok tt, c') →
  ∃ now, c_db c' = append_event_row id m now (c_db c).
Proof using Type.
  unfold append_operation_event_in_conn. intros (now & c1 & [E1 _]%now_Ok & [E2 _]%execute_Ok)%bind_sql_Ok.
  exists now. by rewrite E2, E1.
Qed.
Lemma journal_update_Ok j c c' :
  journal_update clock fault j c = (Ok tt, c') →
  journal_done j (c_db c) (c_db c') ∧ same_records (c_db c) (c_db c') ∧
  controller_state (c_db c') = controller_state (c_db c).
Proof using Type.
  unfold journal_update. destruct j as [[id status message]|]; simpl.
  2:{ by intros [_ ->]%ret_Ok. }
  intros ([] & c1 & Hs & Hm)%bind_sql_Ok.
  assert (status_done id status (operations (c_db c)) (operations (c_db c1)) ∧
    same_records (c_db c) (c_db c1) ∧ controller_state (c_db c1) = controller_state (c_db c) ∧
    operation_events (c_db c1) = operation_events (c_db c)) as (Hst & Hrec & Hcs & Hev).
  { destruct status as [status|]; [by apply update_operation_status_Ok|].
    by apply ret_Ok in Hs as [_ ->]. }
  destruct message as [m|].
  - apply append_event_Ok in Hm as (now & ->). simpl. rewrite Hev, Hcs.
    split_and!; [done|by exists now|done|done].
  - apply ret_Ok in Hm as [_ ->]. rewrite Hev. done.
Qed.

(** The active deployment of a store *)
Definition active_of (db : Db) : ActiveDeployment :=
  match controller_state db with Some r => cr_active r | None => no_deployment end.
Definition row_reads (db : Db) (st : StoredControllerState) : Prop :=
  ∃ r, controller_state db = Some r ∧ parse_controller_row r = Ok st.

Lemma parse_row_active r st : parse_controller_row r = Ok st → cs_active st = cr_active r.
Proof using Type.
  unfold parse_controller_row. intros (d & _ & H)%bind_Ok.
  by apply bind_Ok in H as (a & _ & [= <-]).
Qed.

Lemma transition_body_Ok t c st c' :
  transition_body clock fault t c = (Ok st, c') →
  row_reads (c_db c') st ∧ cs_active st = active_of (c_db c) ∧
  cs_deploy_phase st = tr_deploy_phase t ∧ cs_app_readiness_phase st = tr_app_readiness_phase t ∧
  cs_last_error_code st = tr_last_error_code t ∧
  cs_last_error_message st = tr_last_error_message t ∧
  journal_done (tr_journal t) (c_db c) (c_db c') ∧ same_records (c_db c) (c_db c').
Proof using Type.
  unfold transition_body.
  intros (cur & c1 & (E1 & _ & Hcur)%get_controller_state_Ok & H)%bind_sql_Ok.
  apply bind_sql_Ok in H as (st' & c2 & (now & E2 & Hp)%upsert_controller_state_Ok & H).
  apply bind_sql_Ok in H as ([] & c3 & (Hj & Hrec & Hcs)%journal_update_Ok & [<- ->]%ret_Ok).
  rewrite E2, E1 in *. pose proof Hp as Hst. rewrite parse_new_row in Hst.
  injection Hst as <-. simpl in *. split_and!; try done.
  - exists (new_row {|
      ns_active := match cur with Some s => cs_active s | None => no_deployment end;
      ns_deploy_phase := tr_deploy_phase t; ns_app_readiness_phase := tr_app_readiness_phase t;
      ns_last_error_code := tr_last_error_code t;
      ns_last_error_message := tr_last_error_message t |} now). done.
  - unfold active_of. destruct (controller_state (c_db c)) as [r|]; [|by subst].
    destruct Hcur as (s0 & Hs & ->). by apply parse_row_active.
Qed.

(** C29: a phase transition of the controller is atomic under every failure of the
    database engine. When it succeeds, the new phases and error are stored over the
    unchanged identity of the active deployment together with exactly the requested
    journal entry, and nothing else changed; when any statement fails, COMMIT and
    ROLLBACK included, no connection and no restart ever sees a part of it. *)
Theorem transition_atomic t c r c' :
  c_tx c = None →
  transition_controller_state_with_operation clock fault t c = (r, c') →
  match r with
  | Err _ => durable c' = durable c
  | Ok st =>
      c_tx c' = None ∧ row_reads (durable c') st ∧ cs_active st = active_of (durable c) ∧
      cs_deploy_phase st = tr_deploy_phase t ∧
      cs_app_readiness_phase st = tr_app_readiness_phase t ∧
      cs_last_error_code st = tr_last_error_code t ∧
      cs_last_error_message st = tr_last_error_message t ∧
      journal_done (tr_journal t) (durable c) (durable c') ∧
      same_records (durable c) (durable c')
  end.
Proof using Type.
  intros Hc H. apply transaction_atomic in H; [|apply body_transition|done].
  destruct r as [st|e]; [|done]. destruct H as (Hc' & c1 & Hf & E).
  apply transition_body_Ok in Hf. split; [done|].
  unfold durable. rewrite Hc, Hc', E. exact Hf.
Qed.

(** ** A failed COMMIT *)

(** What a client runs on a connection: single statements and their sequences, or
    transactions *)
Definition store_op (g : Conn → Conn) : Prop :=
  (∃ A (m : sql A), tx_body m ∧ g = λ c, snd (m c)) ∨
  (∃ A (m : sql A), g = λ c, snd (with_immediate_transaction fault m c)).
Definition run_ops (ops : list (Conn → Conn)) (c : Conn) : Conn := foldl (λ c g, g c) c ops.

Lemma nested_begin {A} (m : sql A) c s :
  ¬ engine_rolls_back → c_tx c = Some s →
  ∃ e c', with_immediate_transaction fault m c = (Err e, c') ∧ c_tx c' = Some s.
Proof using Type.
  intros Hn Hs. unfold with_immediate_transaction, mbind, sql_bind, begin_immediate. rewrite Hs.
  destruct (fault (c_step c)) as [f|] eqn:Hf; [|by eexists _, _].
  eexists _, _. split; [done|]. by destruct (failed_tx f c s Hf Hs) as [|[]].
Qed.
Lemma store_op_open g c s :
  ¬ engine_rolls_back → store_op g → c_tx c = Some s → c_tx (g c) = Some s.
Proof using Type.
  intros Hn [(A & m & Hm & ->)|(A & m & ->)] Hs.
  - destruct (m c) as [r c'] eqn:E. specialize (Hm _ _ _ _ Hs E). destruct r; [done|].
    simpl. naive_solver.
  - by destruct (nested_begin m c s Hn Hs) as (e & c' & -> & ?).
Qed.
Lemma run_ops_open ops c s :
  ¬ engine_rolls_back → Forall store_op ops → c_tx c = Some s → c_tx (run_ops ops c) = Some s.
Proof using Type.
  intros Hn Ho. revert c. induction Ho as [|g ops Hg _ IH]; intros c Hs; [done|].
  by apply IH, store_op_open.
Qed.

(** C31: a COMMIT that fails while the engine keeps the transaction, as SQLite does
    when the database is busy, leaves the store unusable without any error of the
    later writes themselves: the transaction is neither rolled back nor retried, every
    later transaction on the connection fails, and nothing that the client writes
    afterwards ever becomes durable. *)
Theorem failed_commit_wedges {A} (f : sql A) c v c1 x :
  ¬ engine_rolls_back → tx_body f → c_tx c = None → fault (c_step c) = None →
  f (opened c) = (Ok v, c1) → fault (c_step c1) = Some x →
  ∃ c', with_immediate_transaction fault f c = (Err (SqlFailure (fault_message x)), c') ∧
  ∀ ops, Forall store_op ops →
    durable (run_ops ops c') = durable c ∧
    ∀ B (g : sql B), is_err (fst (with_immediate_transaction fault g (run_ops ops c'))) = true.
Proof using Type.
  intros Hn Hb Hc H0 Hf Hx. pose proof (Hb (opened c) (c_db c) _ _ eq_refl Hf) as H1. simpl in H1.
  exists (failed x c1). split.
  - unfold with_immediate_transaction, mbind, sql_bind, begin_immediate. rewrite H0, Hc.
    unfold finish_transaction. fold (opened c). rewrite Hf. unfold mbind, sql_bind, commit.
    by rewrite Hx.
  - intros ops Ho. assert (c_tx (failed x c1) = Some (c_db c)) as Ht
      by (by destruct (failed_tx x c1 (c_db c) Hx H1) as [|[]]).
    pose proof (run_ops_open ops _ _ Hn Ho Ht) as Hr. split.
    + unfold durable. by rewrite Hr, Hc.
    + intros B g. by destruct (nested_begin g _ _ Hn Hr) as (e & c' & -> & _).
Qed.

(** ** Destroying a deployment *)

(** The rows of a deployment that is known by its instance, else by its label, else
    by its address only *)
Definition dead_deployment (label instance_id : option string) (r : StoredDeployment) : bool :=
  match instance_id, label with
  | Some i, _ => str_eqb (dep_instance_id r) i
  | None, Some l => str_eqb (dep_label r) l
  | None, None => false
  end.
Definition dead_trust (label instance_id server_ip : option string) (r : StoredTrustEntry)
    : bool :=
  match instance_id, label, server_ip with
  | Some i, _, _ => trust_of_instance i r
  | None, Some l, _ => trust_of_deployment l r
  | None, None, Some ip => trust_of_ip ip r
  | None, None, None => false
  end.
Definition tombstones_done (label instance_id server_ip : option string)
    (ts ts' : list StoredDestroyTombstone) : Prop :=
  match label, instance_id, server_ip with
  | None, None, None => ts' = ts
  | _, _, _ => ∃ now, ts' = ts ++ [{| ts_id := next_id ts_id ts; ts_label := label;
      ts_instance_id := instance_id; ts_server_ip := server_ip; ts_created_at := now |}]
  end.

Lemma delete_none {A} (p : A → bool) l : (∀ r, p r = false) → delete_where p l = l.
Proof using Type.
  intros Hp. unfold delete_where. induction l as [|r l IH]; simpl; [done|]. by rewrite Hp, IH.
Qed.

Lemma tombstone_step_Ok l i ip c c' :
  tombstone_step clock fault l i ip c = (Ok tt, c') →
  ∃ ts, c_db c' = with_destroy_tombstones (c_db c) ts ∧
    tombstones_done l i ip (destroy_tombstones (c_db c)) ts.
Proof using Type.
  assert (none : c_db c = with_destroy_tombstones (c_db c) (destroy_tombstones (c_db c)))
    by (by destruct (c_db c)).
  assert (some : ∀ c', (now ← unix_now clock; execute fault
      (λ db, snd (insert_tombstone l i ip now db))) c = (Ok tt, c') →
    ∃ now, c_db c' = with_destroy_tombstones (c_db c) (destroy_tombstones (c_db c) ++
      [{| ts_id := next_id ts_id (destroy_tombstones (c_db c)); ts_label := l;
          ts_instance_id := i; ts_server_ip := ip; ts_created_at := now |}])).
  { intros c2 (now & c1 & [E1 _]%now_Ok & [E2 _]%execute_Ok)%bind_sql_Ok.
    exists now. by rewrite E2, E1. }
  unfold tombstone_step, tombstones_done.
  destruct l, i, ip; try (intros (now & ->)%some; by eauto).
  intros [_ ->]%ret_Ok. eauto.
Qed.

Lemma forget_step_Ok l i ip c c' :
  forget_step fault l i ip c = (Ok tt, c') →
  c_db c' = with_trust_store
    (with_deployments (c_db c) (delete_where (dead_deployment l i) (deployments (c_db c))))
    (delete_where (dead_trust l i ip) (trust_store (c_db c))).
Proof using Type.
  unfold forget_step, clear_deployment_by_instance, clear_deployment_by_label,
    delete_deployments, delete_trust, dead_deployment, dead_trust.
  destruct i as [i|], l as [l|], ip as [ip|]; intros H;
    try (apply bind_sql_Ok in H as ([] & c1 & [E1 _]%execute_Ok & [E2 _]%execute_Ok);
         rewrite E2, E1; done).
  - apply execute_Ok in H as [E _]. rewrite E, (delete_none _ (deployments _)) by done.
    by destruct (c_db c).
  - apply ret_Ok in H as [_ ->]. rewrite !delete_none by done. by destruct (c_db c).
Qed.

Lemma clear_controller_state_Ok c c' :
  clear_controller_state clock fault c = (Ok tt, c') → ∃ now, c_db c' = clear_row now (c_db c).
Proof using Type.
  unfold clear_controller_state.
  intros (now & c1 & [E1 _]%now_Ok & [E2 _]%execute_Ok)%bind_sql_Ok. exists now. by rewrite E2, E1.
Qed.

(** Marking a deployment absent is atomic and leaves nothing of it. On success the
    deployments and trust entries of the destroyed instance (else label, else address)
    are gone and all others kept, the controller has no active deployment, a tombstone
    with exactly the given non-blank identities is the newest one, and the operation
    has its status and event; on any failure of the engine nothing has happened. *)
Theorem destroy_atomic t c r c' :
  let label := nonblank (da_deployment_label t) in
  let instance := nonblank (da_instance_id t) in
  let ip := nonblank (da_server_ip t) in
  c_tx c = None →
  mark_authoritative_absent_for_destroy clock fault t c = (r, c') →
  match r with
  | Err _ => durable c' = durable c
  | Ok _ =>
      deployments (durable c') = delete_where (dead_deployment label instance) (deployments (durable c)) ∧
      trust_store (durable c') = delete_where (dead_trust label instance ip) (trust_store (durable c)) ∧
      active_of (durable c') = no_deployment ∧
      tombstones_done label instance ip (destroy_tombstones (durable c))
        (destroy_tombstones (durable c')) ∧
      status_done (da_operation_id t) (da_operation_status t)
        (operations (durable c)) (operations (durable c')) ∧
      event_done (da_operation_id t) (da_event_message t)
        (operation_events (durable c)) (operation_events (durable c'))
  end.
Proof using Type.
  intros l i ip Hc H. apply transaction_atomic in H; [|apply body_destroy|done].
  destruct r as [[]|e]; [|done]. destruct H as (Hc' & c1 & Hf & E).
  unfold durable. rewrite Hc, Hc', E. unfold destroy_body in Hf. fold l i ip in Hf.
  apply bind_sql_Ok in Hf as ([] & c2 & (ts & E2 & Hts)%tombstone_step_Ok & Hf).
  apply bind_sql_Ok in Hf as ([] & c3 & E3%forget_step_Ok & Hf).
  apply bind_sql_Ok in Hf as ([] & c4 & (now & E4)%clear_controller_state_Ok & Hf).
  apply journal_update_Ok in Hf as ((Hst & Hev) & (Hd & Ht & _ & _ & _ & Htr) & Hcs).
  assert (H4 : ∀ db, deployments (clear_row now db) = deployments db ∧
    trust_store (clear_row now db) = trust_store db ∧
    destroy_tombstones (clear_row now db) = destroy_tombstones db ∧
    operations (clear_row now db) = operations db ∧
    operation_events (clear_row now db) = operation_events db ∧
    active_of (clear_row now db) = no_deployment).
  { intros db. unfold clear_row, active_of. by destruct (controller_state db) eqn:Ecs; simpl; rewrite ?Ecs. }
  destruct (H4 (c_db c3)) as (D1 & D2 & D3 & D4 & D5 & D6).
  rewrite Hd, Htr, Ht. unfold active_of in *. rewrite Hcs, E4 in *.
  rewrite D1, D2, D3, D4, D5 in *. rewrite E3 in *. simpl in *. rewrite E2 in *. simpl in *. done.
Qed.

(** ** The phases of the controller *)

Section Phases.
Context (sql_error_text : SqlError → string).

Lemma get_controller_state_keeps c r c' :
  c_tx c = None → get_controller_state fault c = (r, c') → c_tx c' = None ∧ c_db c' = c_db c.
Proof using Type.
  intros Hc. unfold get_controller_state, query, statement, mbind, sql_bind, sql_result.
  destruct (fault (c_step c)) as [f|].
  { intros [= <- <-]. unfold failed. by rewrite Hc. }
  destruct (controller_state (c_db c)) as [row|]; [|by intros [= <- <-]].
  destruct (parse_controller_row row); by intros [= <- <-].
Qed.

Lemma upsert_phases_step p a code msg j c st r c' :
  c_tx c = None → row_reads (c_db c) st →
  upsert_controller_phases_with_journal clock fault sql_error_text p a code msg j c = (r, c') →
  match r with
  | Err _ => durable c' = durable c
  | Ok _ => c_tx c' = None ∧
      (cs_deploy_phase st = p ∨ is_allowed_deploy_transition (cs_deploy_phase st) p = true) ∧
      ∃ st', row_reads (c_db c') st' ∧ cs_deploy_phase st' = p ∧ cs_active st' = cs_active st
  end.
Proof using Type.
  intros Hc (row & Hrow & Hst). unfold upsert_controller_phases_with_journal.
  destruct (get_controller_state fault c) as [o c1] eqn:Hg.
  pose proof (get_controller_state_keeps _ _ _ Hc Hg) as [Hc1 E1].
  assert (same : durable c1 = durable c) by (unfold durable; by rewrite Hc1, Hc, E1).
  destruct o as [o|e]; [|by intros [= <- <-]].
  apply get_controller_state_Ok in Hg as (_ & _ & Ho). rewrite Hrow in Ho.
  destruct Ho as (st0 & Hst0 & ->). assert (st0 = st) as -> by congruence. clear Hst0.
  set (guard := if decide (cs_deploy_phase st = p) then Ok tt else _).
  destruct guard as [[]|e] eqn:Hguard; [|by intros [= <- <-]].
  assert (cs_deploy_phase st = p ∨ is_allowed_deploy_transition (cs_deploy_phase st) p = true) as Hp.
  { revert Hguard. unfold guard, validate_deploy_transition.
    destruct (decide (cs_deploy_phase st = p)); [by left|].
    destruct (is_allowed_deploy_transition _ _); [by right|done]. }
  destruct (transition_controller_state_with_operation _ _ _ _) as [[st'|e] c2] eqn:Ht.
  - intros [= <- <-]. apply transaction_atomic in Ht; [|apply body_transition|done].
    destruct Ht as (Hc2 & c3 & Hf & E). apply transition_body_Ok in Hf as (Hr & Ha & Hd & _).
    split_and!; [done..|]. exists st'. rewrite E. split_and!; [done..|].
    rewrite Ha. simpl. unfold active_of. rewrite E1, Hrow. by apply parse_row_active in Hst.
  - intros [= <- <-]. apply transaction_atomic in Ht; [|apply body_transition|done]. by rewrite Ht.
Qed.

(** A sequence of phase updates of the controller: the phases of the successful ones.
    A failed update leaves the connection without an open transaction. *)
Inductive phase_run : Conn → list DeployPhase → Conn → Prop :=
| run_end c : phase_run c [] c
| run_ok p a code msg j c c1 ps c2 :
    upsert_controller_phases_with_journal clock fault sql_error_text p a code msg j c = (Ok tt, c1) →
    phase_run c1 ps c2 → phase_run c (p :: ps) c2
| run_err p a code msg j c e c1 ps c2 :
    upsert_controller_phases_with_journal clock fault sql_error_text p a code msg j c = (Err e, c1) →
    c_tx c1 = None → phase_run c1 ps c2 → phase_run c ps c2.

Lemma phase_run_trace c ps c' : phase_run c ps c' → ∀ st,
  c_tx c = None → row_reads (c_db c) st →
  deploy_trace (changes (cs_deploy_phase st) ps) ∧ c_tx c' = None ∧
  ∃ st', row_reads (c_db c') st' ∧ last (cs_deploy_phase st :: ps) = Some (cs_deploy_phase st') ∧
    cs_active st' = cs_active st.
Proof using Type.
  induction 1 as [c|p a code msg j c c1 ps c2 Hu _ IH|p a code msg j c e c1 ps c2 Hu Hc1 _ IH];
    intros st Hc Hst.
  - split_and!; [constructor|done|]. by exists st.
  - apply (upsert_phases_step _ _ _ _ _ _ st) in Hu as (Hc1 & Hp & st1 & Hst1 & Hq & Ha); [|done..].
    destruct (IH st1 Hc1 Hst1) as (Ht & Hc2 & st2 & Hst2 & Hl & Ha2). rewrite Hq in *.
    split_and!; [|done|].
    + simpl. destruct (decide (cs_deploy_phase st = p)) as [->|Hne]; [done|].
      destruct (changes_head p ps) as [rest Hrest]. rewrite Hrest in *.
      constructor; [naive_solver|done].
    + exists st2. rewrite Ha2, Ha. split_and!; done.
  - apply (upsert_phases_step _ _ _ _ _ _ st) in Hu; [|done..].
    assert (c_db c1 = c_db c) as E by (unfold durable in Hu; by rewrite Hc1, Hc in Hu).
    apply IH; [done|by rewrite E].
Qed.

(** C30: the controller drives a deployment through its phases in order. Whatever
    updates are attempted on the store from the requested phase on, the stored phases
    of the successful ones, repetitions dropped, are a prefix of the build-up order
    followed by nothing, by completion once the local configuration was synced, or by
    a failure with at most its rollback; the stored phase at the end is the last of
    them and the identity of the active deployment never changed. *)
Theorem controller_phases_ordered c ps c' st :
  phase_run c ps c' → c_tx c = None → row_reads (durable c) st →
  cs_deploy_phase st = Requested →
  (∃ k tail, changes Requested ps = take k deploy_order ++ tail ∧
     closing (take k deploy_order) tail) ∧
  ∃ st', row_reads (durable c') st' ∧ cs_active st' = cs_active st ∧
    last (Requested :: ps) = Some (cs_deploy_phase st').
Proof using Type.
  intros Hrun Hc Hst Hreq. unfold durable in *. rewrite Hc in Hst.
  destruct (phase_run_trace _ _ _ Hrun st Hc Hst) as (Ht & Hc' & st' & Hst' & Hl & Ha).
  rewrite Hreq in *. split.
  - destruct (changes_head Requested ps) as [rest Hrest]. rewrite Hrest in *.
    destruct (deploy_history _ Ht) as (k & tail & Heq & Hcl & _). eauto.
  - exists st'. rewrite Hc'. done.
Qed.
End Phases.
End Facts.

(** ** Witnesses *)
Module StoreSample.
Definition clock (n : nat) : Z := 1000 + Z.of_nat n.
Definition reliable (n : nat) : option Fault := None.
(** The tenth statement, the COMMIT of the sample transition, finds the database busy. *)
Definition busy (n : nat) : option Fault :=
  if decide (n = 9%nat)
  then Some {| fault_message := "database is locked"; fault_rollback := false |} else None.
Definition active : ActiveDeployment := {|
  ad_label := Some "edge"; ad_instance_id := Some "i-1"; ad_server_ip := Some "203.0.113.10";
  ad_tunnel_domain := None; ad_state_json := None |}.
Definition db : Db := {|
  deployments := [{| dep_id := 1; dep_label := "edge"; dep_instance_id := "i-1";
                     dep_server_ip := "203.0.113.10"; dep_created_at := 1 |};
                  {| dep_id := 2; dep_label := "other"; dep_instance_id := "i-2";
                     dep_server_ip := "203.0.113.11"; dep_created_at := 2 |}];
  operations := [{| op_id := 1; op_kind := "deploy"; op_status := "RUNNING"; op_created_at := 3;
                    op_completed_at := None; op_target_label := None;
                    op_target_instance_id := None; op_target_ip := None |}];
  operation_events := []; destroy_tombstones := []; local_observations := [];
  secret_refs := []; selector_intents := []; trust_store := [];
  controller_state := Some {| cr_active := active;
    cr_deploy_phase := deploy_phase_name Requested;
    cr_app_readiness_phase := readiness_phase_name DeploymentAbsent;
    cr_last_error_code := None; cr_last_error_message := None; cr_updated_at := 4 |} |}.
Definition conn : Conn := {| c_db := db; c_tx := None; c_step := 0 |}.
Definition journal : OperationJournalUpdate := {|
  ju_operation_id := 1; ju_operation_status := Some "FAILED"; ju_message := Some "no quota" |}.
Definition transition : ControllerStateTransition := {|
  tr_deploy_phase := DeployFailed; tr_app_readiness_phase := ReadinessFailed;
  tr_last_error_code := Some "quota"; tr_last_error_message := None; tr_journal := Some journal |}.
Definition destroy : DestroyAuthorityTransition := {|
  da_deployment_label := Some " "; da_instance_id := Some "i-1"; da_server_ip := None;
  da_operation_id := 1; da_operation_status := Some "SUCCEEDED"; da_event_message := None |}.
Definition text (e : SqlError) : string := "error".
(** The connection inside the sample transition, and after an allowed phase update *)
Definition inside : Conn := snd (transition_body clock busy transition (opened conn)).
Definition stored : StoredControllerState := {|
  cs_active := active; cs_deploy_phase := Requested; cs_app_readiness_phase := DeploymentAbsent;
  cs_last_error_code := None; cs_last_error_message := None; cs_updated_at := 4 |}.
Definition update (p : DeployPhase) (c : Conn) : Conn :=
  snd (upsert_controller_phases_with_journal clock reliable text p ServerRuntimeReady
         None None None c).
Lemma busy_keeps : ¬ engine_rolls_back busy.
Proof.
  intros (n & f & Hf & Hr). unfold busy in Hf. destruct (decide (n = 9%nat)); [|done].
  injection Hf as <-. done.
Qed.
End StoreSample.

Lemma transition_atomic_witness :
  durable (snd (transition_controller_state_with_operation StoreSample.clock StoreSample.busy
    StoreSample.transition StoreSample.conn)) = StoreSample.db.
Proof.
  pose proof (transition_atomic StoreSample.clock StoreSample.busy StoreSample.transition
    StoreSample.conn _ _ eq_refl (surjective_pairing _)) as H.
  vm_compute in H. vm_compute. exact H.
Defined.

Lemma failed_commit_wedges_witness :
  ∃ c', with_immediate_transaction StoreSample.busy
    (transition_body StoreSample.clock StoreSample.busy StoreSample.transition) StoreSample.conn
    = (Err (SqlFailure "database is locked"), c') ∧
  ∀ ops, Forall (store_op StoreSample.busy) ops →
    durable (run_ops ops c') = StoreSample.db ∧
    ∀ B (g : sql B), is_err (fst (with_immediate_transaction StoreSample.busy g
      (run_ops ops c'))) = true.
Proof.
  refine (failed_commit_wedges StoreSample.busy
    (transition_body StoreSample.clock StoreSample.busy StoreSample.transition) StoreSample.conn
    {| cs_active := StoreSample.active; cs_deploy_phase := DeployFailed;
       cs_app_readiness_phase := ReadinessFailed; cs_last_error_code := Some "quota";
       cs_last_error_message := None; cs_updated_at := 1002 |} StoreSample.inside
    {| fault_message := "database is locked"; fault_rollback := false |}
    StoreSample.busy_keeps (body_transition _ _ _) eq_refl eq_refl _ _);
    vm_compute; reflexivity.
Defined.

Lemma destroy_atomic_witness :
  active_of (durable (snd (mark_authoritative_absent_for_destroy StoreSample.clock
    StoreSample.reliable StoreSample.destroy StoreSample.conn))) = no_deployment.
Proof.
  pose proof (destroy_atomic StoreSample.clock StoreSample.reliable StoreSample.destroy
    StoreSample.conn _ _ eq_refl (surjective_pairing _)) as H.
  vm_compute in H. vm_compute. apply H.
Defined.

Lemma controller_phases_ordered_witness :
  ∃ k tail, [Requested; InstanceCreateRequested] = take k deploy_order ++ tail ∧
    closing (take k deploy_order) tail.
Proof.
  refine (proj1 (controller_phases_ordered StoreSample.clock StoreSample.reliable
    StoreSample.text StoreSample.conn [Requested; InstanceCreateRequested]
    (StoreSample.update InstanceCreateRequested (StoreSample.update Requested StoreSample.conn))
    StoreSample.stored _ eq_refl _ eq_refl)).
  - apply run_ok with (a := ServerRuntimeReady) (code := None) (msg := None) (j := None)
      (c1 := StoreSample.update Requested StoreSample.conn); [vm_compute; reflexivity|].
    apply run_ok with (a := ServerRuntimeReady) (code := None) (msg := None) (j := None)
      (c1 := StoreSample.update InstanceCreateRequested
               (StoreSample.update Requested StoreSample.conn)); [vm_compute; reflexivity|].
    apply run_end.
  - by eexists.
Defined.
