(* ===== verification/EdgeStateWf.v ===== *)
(** * The controller's state store: well-formed tables

    Row ids and keys are unique and the stored phases are readable, after every
    method and every failure of the engine, in what a connection sees and in what
    is durable. *)

From S2P Require Import Prelude RustStd DeployPhases EdgeState EdgeStateFacts.

Definition trust_id (r : StoredTrustEntry) : string * string * string :=
  (te_deployment_id r, te_instance_id r, te_ip r).

Record store_wf (db : Db) : Prop := {
  wf_deployments : NoDup (map dep_id (deployments db));
  wf_operations : NoDup (map op_id (operations db));
  wf_events : NoDup (map ev_id (operation_events db));
  wf_tombstones : NoDup (map ts_id (destroy_tombstones db));
  wf_observations : NoDup (map lo_kind (local_observations db));
  wf_secrets : NoDup (map sr_name (secret_refs db));
  wf_intents : NoDup (map si_group_name (selector_intents db));
  wf_trust_ids : NoDup (map te_id (trust_store db));
  wf_trust_keys : NoDup (map trust_id (trust_store db));
  wf_controller : ∀ r, controller_state db = Some r → ∃ st, parse_controller_row r = Ok st
}.
Definition conn_wf (c : Conn) : Prop :=
  store_wf (c_db c) ∧ ∀ s, c_tx c = Some s → store_wf s.

(** ** Keys of updated tables *)

Lemma max_id_le {A} (id : A → Z) l x : x ∈ l → id x ≤ max_id id l.
Proof.
  unfold max_id. induction 1 as [x l|x y l _ IH]; simpl; lia.
Qed.
Lemma nodup_append {A} (id : A → Z) l row :
  id row = next_id id l → NoDup (map id l) → NoDup (map id (l ++ [row])).
Proof.
  intros Hr Hn. rewrite map_app. apply NoDup_app. split_and!; [done| |apply NoDup_singleton].
  intros z Hz Hz'. simpl in Hz'. apply list_elem_of_singleton in Hz' as ->.
  apply (list_elem_of_fmap_1 id l) in Hz as (x & Ex & Hx). apply (max_id_le id) in Hx.
  unfold next_id in Hr. lia.
Qed.
Lemma sublist_filter {A} (p : A → bool) l : List.filter p l `sublist_of` l.
Proof. induction l as [|x l IH]; simpl; [done|]. destruct (p x); by constructor. Qed.
Lemma sublist_map {A B} (f : A → B) l k : l `sublist_of` k → map f l `sublist_of` map f k.
Proof. induction 1; simpl; by constructor. Qed.
Lemma nodup_delete {A B} (f : A → B) p l : NoDup (map f l) → NoDup (map f (delete_where p l)).
Proof. intros Hn. eapply sublist_NoDup; [done|]. apply sublist_map, sublist_filter. Qed.

Lemma map_upsert_old {A B} (f : A → B) same update row l :
  existsb same l = true → (∀ r, r ∈ l → same r = true → f (update r) = f r) →
  map f (upsert same update row l) = map f l.
Proof.
  induction l as [|r l IH]; simpl; [done|]. intros He Hu.
  destruct (same r) eqn:Hs; simpl.
  - by rewrite Hu by (done || set_solver).
  - f_equal. apply IH; [done|]. intros r' Hr'. apply Hu. set_solver.
Qed.
Lemma upsert_new {A} (same : A → bool) update row l :
  existsb same l = false → upsert same update row l = l ++ [row].
Proof.
  induction l as [|r l IH]; simpl; [done|]. intros [Hs He]%orb_false. by rewrite Hs, IH.
Qed.
(** The key that the conflict is on stays unique. *)
Lemma nodup_upsert {A B} (key : A → B) same update row l :
  (∀ r, same r = true ↔ key r = key row) →
  (∀ r, same r = true → key (update r) = key r) →
  NoDup (map key l) → NoDup (map key (upsert same update row l)).
Proof.
  intros Hk Hu Hn. destruct (existsb same l) eqn:He.
  - rewrite map_upsert_old; [done|done|]. intros r _. apply Hu.
  - rewrite upsert_new by done. rewrite map_app. apply NoDup_app.
    split_and!; [done| |apply NoDup_singleton]. intros k Hin Hk'. simpl in Hk'.
    apply list_elem_of_singleton in Hk' as ->.
    apply (list_elem_of_fmap_1 key l) in Hin as (r & Er & Hr).
    apply list_elem_of_In in Hr. assert (existsb same l = true); [|congruence].
    apply existsb_exists. exists r. split; [done|]. by apply Hk.
Qed.
(** Row ids stay unique under an upsert that keeps the id of the old row. *)
Lemma nodup_upsert_id {A} (id : A → Z) same update row l :
  (∀ r, id (update r) = id r) → id row = next_id id l →
  NoDup (map id l) → NoDup (map id (upsert same update row l)).
Proof.
  intros Hu Hr Hn. destruct (existsb same l) eqn:He.
  - by rewrite map_upsert_old.
  - rewrite upsert_new by done. by apply nodup_append.
Qed.
Lemma map_update_where {A B} (f : A → B) p g l :
  (∀ r, f (g r) = f r) → map f (update_where p g l).1 = map f l.
Proof.
  intros Hg. simpl. rewrite map_map. apply map_ext. intros r. destruct (p r); auto.
Qed.

Ltac conn_cases E :=
  split; simpl; rewrite ?E; first [done | by auto | by intros ? [=]; subst; auto].

Section Preservation.
Context (clock : nat → Z) (fault : nat → option Fault).

Definition preserves {A} (m : sql A) : Prop := ∀ c r c', conn_wf c → m c = (r, c') → conn_wf c'.

Lemma pres_ret {A} (a : A) : preserves (mret a : sql A).
Proof using Type. by intros c r c' Hc [= <- <-]. Qed.
Lemma pres_result {A} (x : result SqlError A) : preserves (sql_result x).
Proof using Type. by intros c r c' Hc [= <- <-]. Qed.
Lemma pres_fail {A} e : preserves (sql_fail e : sql A).
Proof using Type. by intros c r c' Hc [= <- <-]. Qed.
Lemma pres_bind {A B} (m : sql A) (f : A → sql B) :
  preserves m → (∀ a, preserves (f a)) → preserves (m ≫= f).
Proof using Type.
  intros Hm Hf c r c' Hc. unfold mbind, sql_bind.
  destruct (m c) as [[a|e] c1] eqn:E; apply (Hm _ _ _ Hc) in E.
  - by apply Hf.
  - by intros [= <- <-].
Qed.
Lemma pres_now : preserves (unix_now clock).
Proof using Type. by intros c r c' Hc [= <- <-]. Qed.
Lemma failed_wf f c : conn_wf c → conn_wf (failed f c).
Proof using Type.
  intros [Hd Ht]. unfold failed. destruct (c_tx c) as [s|] eqn:E; [destruct (fault_rollback f)|];
    conn_cases E.
Qed.
Lemma pres_statement {A} (run : Db → A * Db) :
  (∀ db, store_wf db → store_wf (run db).2) → preserves (statement fault run).
Proof using Type.
  intros Hrun c r c' Hc. unfold statement. destruct (fault (c_step c)).
  - intros [= <- <-]. by apply failed_wf.
  - specialize (Hrun (c_db c)). destruct Hc as [Hd Ht]. destruct (run (c_db c)) as [a db].
    intros [= <- <-]. split; simpl in *; auto.
Qed.
Lemma pres_transaction {A} (f : sql A) : preserves f → preserves (with_immediate_transaction fault f).
Proof using Type.
  intros Hf. unfold with_immediate_transaction. apply pres_bind.
  - intros c r c' Hc. unfold begin_immediate. destruct (fault (c_step c)).
    { intros [= <- <-]. by apply failed_wf. }
    destruct Hc as [Hd Ht]. destruct (c_tx c) eqn:E; intros [= <- <-]; conn_cases E.
  - intros _ c r c' Hc. unfold finish_transaction.
    destruct (f c) as [[v|e] c1] eqn:E; apply (Hf _ _ _ Hc) in E as [Hd Ht].
    + assert (conn_wf c1) by done. unfold mbind, sql_bind, commit. destruct (fault (c_step c1)).
      { intros [= <- <-]. by apply failed_wf. }
      destruct (c_tx c1) eqn:E; intros [= <- <-]; conn_cases E.
    + assert (conn_wf c1) by done. unfold rollback. destruct (fault (c_step c1)).
      { intros [= <- <-]. by apply failed_wf. }
      destruct (c_tx c1) eqn:E; intros [= <- <-]; conn_cases E.
Qed.

(** ** The methods *)

Ltac wf_fields := intros; match goal with W : store_wf _ |- _ => destruct W end; by constructor.
Lemma wf_with_deployments db l :
  store_wf db → NoDup (map dep_id l) → store_wf (with_deployments db l).
Proof using Type. wf_fields. Qed.
Lemma wf_with_operations db l :
  store_wf db → NoDup (map op_id l) → store_wf (with_operations db l).
Proof using Type. wf_fields. Qed.
Lemma wf_with_events db l :
  store_wf db → NoDup (map ev_id l) → store_wf (with_operation_events db l).
Proof using Type. wf_fields. Qed.
Lemma wf_with_tombstones db l :
  store_wf db → NoDup (map ts_id l) → store_wf (with_destroy_tombstones db l).
Proof using Type. wf_fields. Qed.
Lemma wf_with_observations db l :
  store_wf db → NoDup (map lo_kind l) → store_wf (with_local_observations db l).
Proof using Type. wf_fields. Qed.
Lemma wf_with_secrets db l :
  store_wf db → NoDup (map sr_name l) → store_wf (with_secret_refs db l).
Proof using Type. wf_fields. Qed.
Lemma wf_with_intents db l :
  store_wf db → NoDup (map si_group_name l) → store_wf (with_selector_intents db l).
Proof using Type. wf_fields. Qed.
Lemma wf_with_trust db l :
  store_wf db → NoDup (map te_id l) → NoDup (map trust_id l) → store_wf (with_trust_store db l).
Proof using Type. wf_fields. Qed.
Lemma wf_with_controller db r :
  store_wf db → (∃ st, parse_controller_row r = Ok st) → store_wf (with_controller_state db (Some r)).
Proof using Type.
  intros [] Hr. constructor; [done..|]. by intros ? [= <-].
Qed.

Lemma wf_clear_row now db : store_wf db → store_wf (clear_row now db).
Proof using Type.
  intros Hw. unfold clear_row. destruct (controller_state db); [|done].
  apply wf_with_controller; [done|]. by eexists.
Qed.
Lemma wf_append_event id m now db : store_wf db → store_wf (append_event_row id m now db).
Proof using Type.
  intros Hw. apply wf_with_events; [done|]. apply nodup_append; [done|]. apply Hw.
Qed.
Lemma wf_insert_tombstone l i ip now db :
  store_wf db → store_wf (insert_tombstone l i ip now db).2.
Proof using Type.
  intros Hw. apply wf_with_tombstones; [done|]. apply nodup_append; [done|]. apply Hw.
Qed.

Ltac pres :=
  repeat first
    [ apply pres_ret | apply pres_result | apply pres_fail | apply pres_now
    | apply pres_transaction
    | apply pres_statement; intros ? ?; cbn [fst snd]; [] | apply pres_bind; [|intros ?]
    | match goal with |- preserves (match ?x with _ => _ end) => destruct x end
    | assumption ].

Lemma pres_get_controller_state : preserves (get_controller_state fault).
Proof using Type. unfold get_controller_state, query. pres. Qed.
Lemma pres_upsert_controller_state s : preserves (upsert_controller_state clock fault s).
Proof using Type.
  unfold upsert_controller_state, execute. pres.
  apply wf_with_controller; [done|]. eexists. exact (parse_new_row s a).
Qed.
Lemma pres_run_migrations : preserves (run_migrations clock fault).
Proof using Type.
  unfold run_migrations, execute. pres. destruct (controller_state _); [done|].
  apply wf_with_controller; [done|]. by eexists.
Qed.
Lemma pres_clear_controller_state : preserves (clear_controller_state clock fault).
Proof using Type. unfold clear_controller_state, execute. pres. by apply wf_clear_row. Qed.
Lemma pres_update_operation_status id status :
  preserves (update_operation_status clock fault id status).
Proof using Type.
  unfold update_operation_status. pres. apply wf_with_operations; [done|].
  pose proof (wf_operations _ H) as Hn. rewrite map_map.
  erewrite map_ext; [exact Hn|]. intros r. by destruct (op_id r =? id).
Qed.
Lemma pres_set_operation_target id a b d : preserves (set_operation_target fault id a b d).
Proof using Type.
  unfold set_operation_target. pres. apply wf_with_operations; [done|].
  pose proof (wf_operations _ H) as Hn. rewrite map_map.
  erewrite map_ext; [exact Hn|]. intros r. by destruct (op_id r =? id).
Qed.
Lemma pres_start_operation kind status : preserves (start_operation clock fault kind status).
Proof using Type.
  unfold start_operation. pres. apply wf_with_operations; [done|].
  apply nodup_append; [done|]. by apply wf_operations.
Qed.
Lemma pres_append_event id m : preserves (append_operation_event clock fault id m).
Proof using Type. unfold append_operation_event. pres. by apply wf_append_event. Qed.
Lemma pres_journal j : preserves (journal_update clock fault j).
Proof using Type.
  unfold journal_update. destruct j as [j|]; [|apply pres_ret]. apply pres_bind.
  - destruct (ju_operation_status j); [apply pres_update_operation_status|apply pres_ret].
  - intros _. destruct (ju_message j); [|apply pres_ret].
    unfold append_operation_event_in_conn, execute. pres. by apply wf_append_event.
Qed.
Lemma pres_transition t : preserves (transition_controller_state_with_operation clock fault t).
Proof using Type.
  apply pres_transaction. unfold transition_body.
  apply pres_bind; [apply pres_get_controller_state|intros cur].
  apply pres_bind; [apply pres_upsert_controller_state|intros st].
  apply pres_bind; [apply pres_journal|intros ?; apply pres_ret].
Qed.
Lemma pres_readiness u : preserves (update_app_readiness_phase clock fault u).
Proof using Type.
  unfold update_app_readiness_phase, readiness_body, execute. pres.
  match goal with W : store_wf ?db |- _ => rename W into Hw, db into db end.
  destruct (controller_state db) as [r|] eqn:Hr; [|done].
  apply wf_with_controller; [done|]. destruct (wf_controller _ Hw _ Hr) as (st & Hst).
  revert Hst. unfold parse_controller_row. simpl. intros (d & -> & _)%bind_Ok. simpl.
  unfold parse_app_readiness_phase_storage_value. rewrite readiness_phase_name_roundtrip. by eexists.
Qed.

Lemma pres_delete_deployments p : preserves (delete_deployments fault p).
Proof using Type.
  unfold delete_deployments, execute. pres. apply wf_with_deployments; [done|].
  apply nodup_delete. by apply wf_deployments.
Qed.
Lemma pres_delete_trust p : preserves (delete_trust fault p).
Proof using Type.
  unfold delete_trust, execute. pres. apply wf_with_trust; [done|..]; apply nodup_delete.
  - by apply wf_trust_ids.
  - by apply wf_trust_keys.
Qed.
Lemma pres_record_deployment l i ip : preserves (record_deployment clock fault l i ip).
Proof using Type.
  unfold record_deployment. pres. apply wf_with_deployments; [done|].
  apply nodup_append; [done|]. by apply wf_deployments.
Qed.
Lemma pres_record_tombstone l i ip : preserves (record_destroy_tombstone clock fault l i ip).
Proof using Type. unfold record_destroy_tombstone. pres. by apply wf_insert_tombstone. Qed.
Lemma pres_clear_tombstones l i : preserves (clear_destroy_tombstones fault l i).
Proof using Type.
  unfold clear_destroy_tombstones, execute. pres. apply wf_with_tombstones; [done|].
  apply nodup_delete. by apply wf_tombstones.
Qed.
Lemma pres_destroy t : preserves (mark_authoritative_absent_for_destroy clock fault t).
Proof using Type.
  apply pres_transaction. unfold destroy_body. cbn zeta.
  apply pres_bind; [|intros _; apply pres_bind; [|intros _; apply pres_bind;
    [apply pres_clear_controller_state|intros _; apply pres_journal]]].
  - unfold tombstone_step, execute. pres; by apply wf_insert_tombstone.
  - unfold forget_step. destruct (nonblank (da_instance_id t)), (nonblank (da_deployment_label t)),
      (nonblank (da_server_ip t)); try apply pres_bind;
      intros; first [apply pres_delete_deployments | apply pres_delete_trust | apply pres_ret].
Qed.
Lemma trust_key_id d i ip r : trust_key d i ip r = true ↔ trust_id r = (d, i, ip).
Proof using Type.
  unfold trust_key, trust_id. rewrite !andb_true, !str_eqb_true. naive_solver.
Qed.
Lemma pres_upsert_trust_entry e : preserves (upsert_trust_entry clock fault e).
Proof using Type.
  unfold upsert_trust_entry, get_trust_entry, query, execute. pres.
  apply wf_with_trust; [done|..].
  - apply nodup_upsert_id; [done..|]. by apply wf_trust_ids.
  - apply nodup_upsert; [| |by apply wf_trust_keys].
    + intros r. apply trust_key_id.
    + intros r Hr. apply trust_key_id in Hr. by rewrite Hr.
Qed.
Lemma pres_clear_trust_entries i ip : preserves (clear_trust_entries fault i ip).
Proof using Type.
  unfold clear_trust_entries. destruct (nonblank i); [apply pres_delete_trust|].
  destruct (nonblank ip); [apply pres_delete_trust|apply pres_ret].
Qed.
Lemma pres_store_observation k b : preserves (store_local_observation clock fault k b).
Proof using Type.
  unfold store_local_observation, execute. pres. apply wf_with_observations; [done|].
  apply nodup_upsert; [intros r; apply str_eqb_true|intros r Hr|by apply wf_observations].
  apply str_eqb_true in Hr. done.
Qed.
Lemma pres_selector_intent g d : preserves (upsert_selector_intent clock fault g d).
Proof using Type.
  unfold upsert_selector_intent, execute. pres. apply wf_with_intents; [done|].
  apply nodup_upsert; [intros r; apply str_eqb_true|intros r Hr|by apply wf_intents].
  apply str_eqb_true in Hr. done.
Qed.
Lemma pres_secret_ref n d : preserves (upsert_secret_ref clock fault n d).
Proof using Type.
  unfold upsert_secret_ref, execute. pres. apply wf_with_secrets; [done|].
  apply nodup_upsert; [intros r; apply str_eqb_true|intros r Hr|by apply wf_secrets].
  apply str_eqb_true in Hr. done.
Qed.

(** The methods of [EdgeState] that write *)
Inductive store_method : (Conn → Conn) → Prop :=
| run_method {A} (m : sql A) : writes m → store_method (λ c, snd (m c))
with writes : ∀ {A}, sql A → Prop :=
| w_run_migrations : writes (run_migrations clock fault)
| w_store_local_observation k b : writes (store_local_observation clock fault k b)
| w_upsert_controller_state s : writes (upsert_controller_state clock fault s)
| w_transition t : writes (transition_controller_state_with_operation clock fault t)
| w_update_app_readiness_phase u : writes (update_app_readiness_phase clock fault u)
| w_clear_controller_state : writes (clear_controller_state clock fault)
| w_upsert_selector_intent g d : writes (upsert_selector_intent clock fault g d)
| w_upsert_secret_ref n r : writes (upsert_secret_ref clock fault n r)
| w_record_deployment l i ip : writes (record_deployment clock fault l i ip)
| w_clear_deployment_by_label l : writes (clear_deployment_by_label fault l)
| w_clear_deployment_by_instance i : writes (clear_deployment_by_instance fault i)
| w_record_destroy_tombstone l i ip : writes (record_destroy_tombstone clock fault l i ip)
| w_clear_destroy_tombstones l i : writes (clear_destroy_tombstones fault l i)
| w_destroy t : writes (mark_authoritative_absent_for_destroy clock fault t)
| w_start_operation k s : writes (start_operation clock fault k s)
| w_update_operation_status i s : writes (update_operation_status clock fault i s)
| w_set_operation_target i a b d : writes (set_operation_target fault i a b d)
| w_append_operation_event i m : writes (append_operation_event clock fault i m)
| w_upsert_trust_entry e : writes (upsert_trust_entry clock fault e)
| w_clear_trust_entries i ip : writes (clear_trust_entries fault i ip)
| w_clear_trust_entry d i ip : writes (clear_trust_entry fault d i ip).

Lemma writes_preserve {A} (m : sql A) : writes m → preserves m.
Proof using Type.
  destruct 1; eauto using pres_run_migrations, pres_store_observation,
    pres_upsert_controller_state, pres_transition, pres_readiness, pres_clear_controller_state,
    pres_selector_intent, pres_secret_ref, pres_record_deployment, pres_delete_deployments,
    pres_record_tombstone, pres_clear_tombstones, pres_destroy, pres_start_operation,
    pres_update_operation_status, pres_set_operation_target, pres_append_event,
    pres_upsert_trust_entry, pres_clear_trust_entries.
  apply pres_delete_trust.
Qed.

Definition empty_store : Db := {|
  deployments := []; operations := []; operation_events := []; destroy_tombstones := [];
  local_observations := []; secret_refs := []; selector_intents := []; trust_store := [];
  controller_state := None |}.
Lemma empty_store_wf : store_wf empty_store.
Proof using Type. by constructor; try constructor. Qed.

(** C32: the tables of the store stay well formed. From an empty database, whatever
    writing methods the controller runs and wherever the engine fails, row ids are
    unique, at most one row holds the key of a trust entry, an observation, a selector
    intent or a secret reference, and the stored phases can be read back, both in what
    the connection sees and in what is durable. *)
Theorem store_well_formed ops :
  Forall store_method ops →
  let c := run_ops ops {| c_db := empty_store; c_tx := None; c_step := 0 |} in
  store_wf (c_db c) ∧ store_wf (durable c).
Proof using Type.
  intros Ho. assert (∀ c, conn_wf c → conn_wf (run_ops ops c)) as Hr.
  { induction Ho as [|g ops [A m Hm] _ IH]; intros c Hc; [done|]. apply IH.
    exact (writes_preserve m Hm _ _ _ Hc (surjective_pairing _)). }
  destruct (Hr {| c_db := empty_store; c_tx := None; c_step := 0 |}) as [Hd Ht].
  { split; [apply empty_store_wf|done]. }
  split; [done|]. unfold durable. destruct (c_tx _) eqn:E; [by apply Ht|done].
Qed.
End Preservation.

Lemma store_well_formed_witness :
  store_wf (durable (run_ops
    [(λ c, snd (run_migrations StoreSample.clock StoreSample.busy c));
     (λ c, snd (record_deployment StoreSample.clock StoreSample.busy "edge" "i-1" "192.0.2.1" c))]
    {| c_db := empty_store; c_tx := None; c_step := 0 |})).
Proof.
  apply (store_well_formed StoreSample.clock StoreSample.busy).
  repeat constructor.
Defined.
