(* ===== verification/Orchestration.v ===== *)
(** * Orchestration values and the host substrate

    Models [edge-controller-core/src/orchestration.rs] (what the DNS and Mesh
    lifecycles derive from observed machines and VPCs, the support-access lease, the
    release context) and [host_substrate_lifecycle.rs] (the next action on a host). *)

From S2P Require Import Prelude RustStd RustNet HostTypes PlanAuthority LifecycleCommon.

Inductive OrchestrationScope : Set :=
| ScopeSubstrate | ScopeApplication | ScopeMesh | ScopeProduction | ScopeCleanup.

(** ** Checks *)

Definition parse_exact_ipv4 (label value : string) : res Ipv4Addr :=
  ok_or (parse_ipv4 (trim value)) (label +:+ " must be an exact IPv4 address").

Definition require_non_empty (label value : string) : res unit :=
  fail_if (str_empty (trim value)) (label +:+ " must be non-empty").

Definition canonical_ipv4_cidr (value : string) : res string :=
  '(address, prefix) ← ok_or (split_once "/" (trim value)) "VPC cidr must be an IPv4 CIDR";
  address ← parse_exact_ipv4 "VPC cidr address" address;
  prefix ← map_err (λ _, "VPC cidr prefix must be an integer") (parse_u8 prefix);
  fail_if (32 <? prefix) "VPC cidr prefix must be <= 32" ;;
  let mask := if prefix =? 0 then 0 else u32_mask (32 - prefix) in
  let network := ipv4_of_u32 (Z.land (ipv4_to_u32 address) mask) in
  let text := ipv4_display network +:+ "/" +:+ dec prefix in
  fail_if (negb (bool_decide (network = address)))
    ("VPC cidr must be canonical network address: expected " +:+ text) ;;
  Ok text.

Definition validate_lower_hex (label value : string) (len : Z) : res unit :=
  fail_if (negb (slen value =? len) || negb (str_all is_lower_hex value))
    (label +:+ " must be exactly " +:+ dec len +:+ " lowercase hexadecimal characters").
Definition package_version_char (c : ascii) : bool :=
  is_ascii_alphanumeric c || one_of ".+:~_-" c.
Definition validate_package_version (label value : string) : res unit :=
  fail_if (str_empty value || negb (str_all package_version_char value))
    (label +:+ " must be a safe exact package version").
Definition validate_digest_pinned_image (label value : string) : res unit :=
  '(_, digest) ← ok_or (rsplit_once "@sha256:" value)
    (label +:+ " must be digest-pinned with @sha256:");
  validate_lower_hex label digest 64.

(** ** Observed machines and VPCs *)

Record MachineObservation : Type := { mo_provider_id : string; mo_main_ipv4 : string }.
Definition validate_machine (o : MachineObservation) : res unit :=
  require_non_empty "machine provider_id" (mo_provider_id o) ;;
  parse_exact_ipv4 "machine main_ipv4" (mo_main_ipv4 o) ;;
  Ok tt.

Record VpcObservation : Type := {
  vo_provider_id : string; vo_cidr : string; vo_private_ipv4 : string }.
Definition validate_vpc (o : VpcObservation) : res unit :=
  require_non_empty "VPC provider_id" (vo_provider_id o) ;;
  canonical_ipv4_cidr (vo_cidr o) ;;
  parse_exact_ipv4 "VPC private_ipv4" (vo_private_ipv4 o) ;;
  Ok tt.

Record DerivedDnsTarget : Type := { dt_source_provider_id : string; dt_target_ipv4 : string }.
Definition derive_dns_target (o : MachineObservation) : res DerivedDnsTarget :=
  validate_machine o ;;
  target ← parse_exact_ipv4 "machine main_ipv4" (mo_main_ipv4 o);
  Ok {| dt_source_provider_id := mo_provider_id o; dt_target_ipv4 := ipv4_display target |}.

Record DerivedMeshRoute : Type := {
  mr_source_vpc_id : string; mr_network : string; mr_private_ipv4 : string }.
Definition derive_mesh_route (o : VpcObservation) : res DerivedMeshRoute :=
  validate_vpc o ;;
  network ← canonical_ipv4_cidr (vo_cidr o);
  private ← parse_exact_ipv4 "VPC private_ipv4" (vo_private_ipv4 o);
  Ok {| mr_source_vpc_id := vo_provider_id o; mr_network := network;
        mr_private_ipv4 := ipv4_display private |}.

(** ** The support-access lease *)

Inductive SupportAccessLeasePhase : Set := LeaseAbsent | LeaseAcquired | LeaseReady | LeaseReleased.
#[global] Instance SupportAccessLeasePhase_eq_dec : EqDecision SupportAccessLeasePhase.
Proof. solve_decision. Defined.
(** [{:?}] *)
Definition lease_debug (p : SupportAccessLeasePhase) : string :=
  match p with
  | LeaseAbsent => "Absent" | LeaseAcquired => "Acquired" | LeaseReady => "Ready"
  | LeaseReleased => "Released"
  end.

(** [SupportAccessLeaseState] is its phase; a method returns the phase it leaves. *)
Definition lease_transition (expected next phase : SupportAccessLeasePhase)
    : res unit * SupportAccessLeasePhase :=
  if decide (phase = expected) then (Ok tt, next)
  else (Err ("invalid support-access lease transition: current=" +:+ lease_debug phase
             +:+ ", expected=" +:+ lease_debug expected +:+ ", next=" +:+ lease_debug next), phase).
Definition lease_default : SupportAccessLeasePhase := LeaseAbsent.
Definition lease_acquired := lease_transition LeaseAbsent LeaseAcquired.
Definition lease_ready := lease_transition LeaseAcquired LeaseReady.
Definition lease_released := lease_transition LeaseReady LeaseReleased.

(** ** The release context *)

Record ReleaseContext : Type := {
  rc_accepted_revision : string; rc_source_revision : string; rc_release_set_sha256 : string;
  rc_orchestrator_sha256 : string; rc_agent_sha256 : string; rc_docker_engine_version : string;
  rc_containerd_version : string; rc_compose_version : string; rc_gateway_image : string;
  rc_warp_egress_image : string; rc_mesh_image : string }.
Definition validate_release_context (r : ReleaseContext) : res unit :=
  validate_lower_hex "accepted_revision" (rc_accepted_revision r) 40 ;;
  validate_lower_hex "source_revision" (rc_source_revision r) 40 ;;
  validate_lower_hex "release_set_sha256" (rc_release_set_sha256 r) 64 ;;
  validate_lower_hex "orchestrator_sha256" (rc_orchestrator_sha256 r) 64 ;;
  validate_lower_hex "agent_sha256" (rc_agent_sha256 r) 64 ;;
  validate_package_version "docker_engine_version" (rc_docker_engine_version r) ;;
  validate_package_version "containerd_version" (rc_containerd_version r) ;;
  validate_package_version "compose_version" (rc_compose_version r) ;;
  validate_digest_pinned_image "gateway_image" (rc_gateway_image r) ;;
  validate_digest_pinned_image "warp_egress_image" (rc_warp_egress_image r) ;;
  validate_digest_pinned_image "mesh_image" (rc_mesh_image r).

(** ** The host substrate *)

Definition HOST_CERTIFICATE_MINIMUM_SERIAL : Z := 2.
Inductive StrictSshState : Set :=
| SshPass | SshTransport | SshHostTrust | SshAuthentication | SshRemoteAcceptance | OtherSsh.
Record HostSubstrateObservation : Type := {
  so_machine_id : string; so_provider_id : string; so_main_ip : string;
  so_provider_ready : bool; so_strict_ssh_state : StrictSshState;
  so_strict_ssh_evidence : string; so_user_data_scrubbed : option bool;
  so_host_certificate_serial : option Z }.
Inductive HostSubstrateAction : Set :=
| BlockedProvider | BlockedStrictSsh | BlockedSubstrate | ScrubUserData
| RotateHostCertificate | SubstrateNoop.
Record HostSubstratePlan : Type := { sp_action : HostSubstrateAction; sp_reasons : list string }.

Definition substrate_plan (action : HostSubstrateAction) (reasons : list string)
    : HostSubstratePlan := {| sp_action := action; sp_reasons := reasons |}.
Definition plan_certificate (o : HostSubstrateObservation) (minimum : Z) : HostSubstratePlan :=
  match so_host_certificate_serial o with
  | Some serial =>
      if minimum <=? serial then substrate_plan SubstrateNoop []
      else substrate_plan RotateHostCertificate
        ["host certificate serial " +:+ dec serial +:+ " is below required minimum "
         +:+ dec minimum]
  | None => substrate_plan BlockedStrictSsh ["host certificate serial could not be observed"]
  end.
Definition plan_user_data (o : HostSubstrateObservation) (minimum : Z) : HostSubstratePlan :=
  match so_user_data_scrubbed o with
  | Some false =>
      substrate_plan ScrubUserData ["provider user-data is not in canonical scrubbed state"]
  | None => substrate_plan BlockedProvider ["provider user-data state is unavailable"]
  | Some true => plan_certificate o minimum
  end.
Definition plan_host_substrate (o : HostSubstrateObservation) (minimum : Z)
    : HostSubstratePlan :=
  if negb (so_provider_ready o) then
    substrate_plan BlockedProvider ["provider instance is not ready"]
  else match so_strict_ssh_state o with
  | SshPass => plan_user_data o minimum
  | SshRemoteAcceptance => substrate_plan BlockedSubstrate
      ["strict SSH reached remote substrate acceptance but it is not ready: "
       +:+ so_strict_ssh_evidence o]
  | SshTransport | SshHostTrust | SshAuthentication | OtherSsh =>
      substrate_plan BlockedStrictSsh
        ["strict SSH is not accepted: " +:+ so_strict_ssh_evidence o]
  end.

(** ** Facts *)

Lemma digit_of_nonneg c d : digit_of c = Some d → 0 ≤ d.
Proof.
  unfold digit_of, is_ascii_digit, between. destruct (_ && _) eqn:E; [|done].
  apply andb_true in E as [E _]. intros [= <-]. lia.
Qed.
Lemma parse_u8_digits_nonneg s : ∀ acc v, 0 ≤ acc → parse_u8_digits acc s = Ok v → 0 ≤ v.
Proof.
  induction s as [|c s IH]; intros acc v Ha; simpl; [by intros [= <-]|].
  intros (d & Hd%ok_or_Ok & H)%bind_Ok. apply digit_of_nonneg in Hd.
  destruct (u8_max <? acc * 10 + d); [done|]. apply IH in H; lia.
Qed.
Lemma parse_u8_nonneg s v : parse_u8 s = Ok v → 0 ≤ v.
Proof.
  unfold parse_u8. repeat case_match; try done; by apply parse_u8_digits_nonneg.
Qed.

(** A Mesh route that is derived from an observed VPC is a network: its text is the dotted address and prefix length of a block of IPv4 addresses with no host bit set, and the private address is printed canonically. *)
Lemma mesh_route_is_network o r :
  derive_mesh_route o = Ok r →
  mr_source_vpc_id r = vo_provider_id o ∧
  (∃ ip prefix, 0 ≤ prefix ≤ 32 ∧ octets_in_range ip ∧
     ipv4_to_u32 ip mod 2 ^ (32 - prefix) = 0 ∧
     mr_network r = ipv4_display ip +:+ "/" +:+ dec prefix) ∧
  ∃ ip, octets_in_range ip ∧ mr_private_ipv4 r = ipv4_display ip ∧
    parse_ipv4 (mr_private_ipv4 r) = Some ip.
Proof.
  unfold derive_mesh_route. intros (? & _ & H)%bind_Ok.
  apply bind_Ok in H as (n & Hn & H). apply bind_Ok in H as (ip & Hip%ok_or_Ok & [= <-]).
  apply parse_ipv4_Some in Hip as [_ Hip]. simpl. split_and!; [done| |].
  - unfold canonical_ipv4_cidr in Hn. apply bind_Ok in Hn as ([a p] & _ & H).
    apply bind_Ok in H as (ip' & Hip'%ok_or_Ok & H). apply parse_ipv4_Some in Hip' as [_ Hr].
    apply bind_Ok in H as (prefix & Hp%map_err_Ok%parse_u8_nonneg & H).
    apply bind_Ok in H as (? & H32%fail_if_Ok%Z.ltb_ge & H).
    apply bind_Ok in H as (? & Hm%fail_if_Ok & [= <-]). reflect_in Hm. exists ip', prefix.
    rewrite Hm. split_and!; [done..| |done].
    pose proof (ipv4_to_u32_range _ Hr) as Hu. unfold in_u32, u32_max in Hu.
    apply (f_equal ipv4_to_u32) in Hm. destruct (Z.eqb_spec prefix 0) as [->|Hz].
    + rewrite Z.land_0_r in Hm. rewrite <- Hm. reflexivity.
    + unfold u32_mask in Hm. rewrite land_uint_mask in Hm by lia.
      assert (0 < 2 ^ (32 - prefix)) by (apply Z.pow_pos_nonneg; lia).
      pose proof (Z.mod_pos_bound (ipv4_to_u32 ip') (2 ^ (32 - prefix)) ltac:(lia)).
      assert (Hle : ipv4_to_u32 ip' mod 2 ^ (32 - prefix) ≤ ipv4_to_u32 ip')
        by (apply Z.mod_le; lia).
      rewrite ipv4_u32_roundtrip in Hm; [lia|]. unfold in_u32, u32_max. lia.
  - exists ip. split_and!; [done..|]. by apply parse_ipv4_display.
Qed.

(** The lease moves forward only: the calls that succeed from the start are a prefix
    of acquire, make ready, release. *)
Lemma lease_order phase :
  is_ok (lease_acquired phase).1 = bool_decide (phase = LeaseAbsent) ∧
  is_ok (lease_ready phase).1 = bool_decide (phase = LeaseAcquired) ∧
  is_ok (lease_released phase).1 = bool_decide (phase = LeaseReady) ∧
  (lease_acquired LeaseAbsent).2 = LeaseAcquired ∧
  (lease_ready LeaseAcquired).2 = LeaseReady ∧ (lease_released LeaseReady).2 = LeaseReleased.
Proof. by destruct phase. Qed.

(** The substrate is left alone exactly when everything about it was observed to be
    as required. *)
Lemma substrate_noop o minimum :
  sp_action (plan_host_substrate o minimum) = SubstrateNoop ↔
  so_provider_ready o = true ∧ so_strict_ssh_state o = SshPass ∧
  so_user_data_scrubbed o = Some true ∧
  ∃ serial, so_host_certificate_serial o = Some serial ∧ minimum ≤ serial.
Proof.
  unfold plan_host_substrate, plan_user_data, plan_certificate.
  destruct (so_provider_ready o); simpl; [|naive_solver].
  destruct (so_strict_ssh_state o); simpl; try naive_solver.
  destruct (so_user_data_scrubbed o) as [[]|]; simpl; try naive_solver.
  destruct (so_host_certificate_serial o) as [n|]; simpl; [|naive_solver].
  destruct (Z.leb_spec minimum n); simpl; naive_solver lia.
Qed.
