(* ===== verification/Credentials.v ===== *)
(** * Credential deliveries and the local credential state

    Models [edge-shared-types/src/lib.rs], lines 425-1150, over the messages of
    [proto/edge/platform/v1/credential_plane.proto]: the validation of a delivery
    bundle and of the local state that references it, their canonical encodings, and
    the merge of a rotation delta with the active projection of a host.

    The state of a host references at most two bundles, one per slot of the fixed A/B
    transport. *)

From S2P Require Import Prelude RustStd HostTypes.

(** ** Messages *)

Inductive CredentialProjectionKind : Set :=
| Projection_Unspecified
| Projection_Windows
| Projection_Vm.
#[global] Instance CredentialProjectionKind_eq_dec : EqDecision CredentialProjectionKind.
Proof. solve_decision. Defined.
#[global] Program Instance CredentialProjectionKind_enum : ProtoEnum CredentialProjectionKind := {|
  as_i32 v :=
    match v with Projection_Unspecified => 0 | Projection_Windows => 1 | Projection_Vm => 2 end;
  variants := [Projection_Unspecified; Projection_Windows; Projection_Vm]
|}.
Next Obligation. by destruct e. Qed.

Inductive CredentialDeliverySlot : Set :=
| Slot_Unspecified
| Slot_A
| Slot_B.
#[global] Instance CredentialDeliverySlot_eq_dec : EqDecision CredentialDeliverySlot.
Proof. solve_decision. Defined.
#[global] Program Instance CredentialDeliverySlot_enum : ProtoEnum CredentialDeliverySlot := {|
  as_i32 v := match v with Slot_Unspecified => 0 | Slot_A => 1 | Slot_B => 2 end;
  variants := [Slot_Unspecified; Slot_A; Slot_B]
|}.
Next Obligation. by destruct e. Qed.

Inductive CredentialRotationClass : Set :=
| Rotation_Unspecified
| Rotation_TunnelAuth
| Rotation_RealityIdentity
| Rotation_Line2ProxyAuth.
#[global] Instance CredentialRotationClass_eq_dec : EqDecision CredentialRotationClass.
Proof. solve_decision. Defined.
#[global] Program Instance CredentialRotationClass_enum : ProtoEnum CredentialRotationClass := {|
  as_i32 v :=
    match v with
    | Rotation_Unspecified => 0
    | Rotation_TunnelAuth => 1
    | Rotation_RealityIdentity => 2
    | Rotation_Line2ProxyAuth => 3
    end;
  variants :=
    [Rotation_Unspecified; Rotation_TunnelAuth; Rotation_RealityIdentity; Rotation_Line2ProxyAuth]
|}.
Next Obligation. by destruct e. Qed.

Inductive CredentialApplyPhase : Set :=
| ApplyPhase_Unspecified
| ApplyPhase_Preparing
| ApplyPhase_Prepared
| ApplyPhase_Committed
| ApplyPhase_Aborted
| ApplyPhase_Unknown.
#[global] Instance CredentialApplyPhase_eq_dec : EqDecision CredentialApplyPhase.
Proof. solve_decision. Defined.
#[global] Program Instance CredentialApplyPhase_enum : ProtoEnum CredentialApplyPhase := {|
  as_i32 v :=
    match v with
    | ApplyPhase_Unspecified => 0
    | ApplyPhase_Preparing => 1
    | ApplyPhase_Prepared => 2
    | ApplyPhase_Committed => 3
    | ApplyPhase_Aborted => 4
    | ApplyPhase_Unknown => 5
    end;
  variants :=
    [ApplyPhase_Unspecified; ApplyPhase_Preparing; ApplyPhase_Prepared; ApplyPhase_Committed;
     ApplyPhase_Aborted; ApplyPhase_Unknown]
|}.
Next Obligation. by destruct e. Qed.

Record TunnelAuthentication : Set := {
  ta_vless_uuid : string;
  ta_hysteria2_password : string;
  ta_reality_short_id : string
}.
#[global] Instance TunnelAuthentication_eq_dec : EqDecision TunnelAuthentication.
Proof. solve_decision. Defined.

Record TunnelAuthenticationGeneration : Set := {
  tag_generation : Z;
  tag_direct : option TunnelAuthentication;
  tag_warp : option TunnelAuthentication
}.
#[global] Instance TunnelAuthenticationGeneration_eq_dec :
  EqDecision TunnelAuthenticationGeneration.
Proof. solve_decision. Defined.

Record RealityPublicIdentity : Set := { rpub_public_key : string }.
#[global] Instance RealityPublicIdentity_eq_dec : EqDecision RealityPublicIdentity.
Proof. solve_decision. Defined.

Record RealityPrivateIdentity : Set := { rpriv_private_key : string }.
#[global] Instance RealityPrivateIdentity_eq_dec : EqDecision RealityPrivateIdentity.
Proof. solve_decision. Defined.

Record RealityPublicIdentityGeneration : Set := {
  rpubg_generation : Z;
  rpubg_direct : option RealityPublicIdentity;
  rpubg_warp : option RealityPublicIdentity
}.
#[global] Instance RealityPublicIdentityGeneration_eq_dec :
  EqDecision RealityPublicIdentityGeneration.
Proof. solve_decision. Defined.

Record RealityPrivateIdentityGeneration : Set := {
  rprivg_generation : Z;
  rprivg_direct : option RealityPrivateIdentity;
  rprivg_warp : option RealityPrivateIdentity
}.
#[global] Instance RealityPrivateIdentityGeneration_eq_dec :
  EqDecision RealityPrivateIdentityGeneration.
Proof. solve_decision. Defined.

Record ProxyCredentialGeneration : Set := {
  proxy_generation : Z;
  proxy_password : string
}.
#[global] Instance ProxyCredentialGeneration_eq_dec : EqDecision ProxyCredentialGeneration.
Proof. solve_decision. Defined.

Record WindowsCredentialProjection : Set := {
  wcp_tunnel_auth : option TunnelAuthenticationGeneration;
  wcp_reality_identity : option RealityPublicIdentityGeneration
}.
#[global] Instance WindowsCredentialProjection_eq_dec : EqDecision WindowsCredentialProjection.
Proof. solve_decision. Defined.

Record VmCredentialProjection : Set := {
  vcp_tunnel_auth : option TunnelAuthenticationGeneration;
  vcp_reality_identity : option RealityPrivateIdentityGeneration;
  vcp_line2_proxy : option ProxyCredentialGeneration
}.
#[global] Instance VmCredentialProjection_eq_dec : EqDecision VmCredentialProjection.
Proof. solve_decision. Defined.

Record WindowsCredentialRotationDelta : Set := {
  wrd_credential_class : Z;
  wrd_tunnel_auth : option TunnelAuthenticationGeneration;
  wrd_reality_identity : option RealityPublicIdentityGeneration
}.
#[global] Instance WindowsCredentialRotationDelta_eq_dec :
  EqDecision WindowsCredentialRotationDelta.
Proof. solve_decision. Defined.

Record VmCredentialRotationDelta : Set := {
  vrd_credential_class : Z;
  vrd_tunnel_auth : option TunnelAuthenticationGeneration;
  vrd_reality_identity : option RealityPrivateIdentityGeneration;
  vrd_line2_proxy : option ProxyCredentialGeneration
}.
#[global] Instance VmCredentialRotationDelta_eq_dec : EqDecision VmCredentialRotationDelta.
Proof. solve_decision. Defined.

(** [oneof payload] *)
Inductive Payload : Set :=
| Payload_Windows (value : WindowsCredentialProjection)
| Payload_Vm (value : VmCredentialProjection)
| Payload_WindowsRotation (value : WindowsCredentialRotationDelta)
| Payload_VmRotation (value : VmCredentialRotationDelta).
#[global] Instance Payload_eq_dec : EqDecision Payload.
Proof. solve_decision. Defined.

Record CredentialDeliveryBundle : Set := {
  cdb_schema_version : Z;
  cdb_generation : Z;
  cdb_projection : Z;
  cdb_dummy_non_secret : bool;
  cdb_slot : Z;
  cdb_payload : option Payload
}.
#[global] Instance CredentialDeliveryBundle_eq_dec : EqDecision CredentialDeliveryBundle.
Proof. solve_decision. Defined.

Record LocalCredentialBundleRef : Set := {
  ref_generation : Z;
  ref_slot : Z;
  ref_sha256 : string
}.
#[global] Instance LocalCredentialBundleRef_eq_dec : EqDecision LocalCredentialBundleRef.
Proof. solve_decision. Defined.

Record LocalCredentialState : Set := {
  lcs_schema_version : Z;
  lcs_projection : Z;
  lcs_active : option LocalCredentialBundleRef;
  lcs_candidate : option LocalCredentialBundleRef;
  lcs_previous : option LocalCredentialBundleRef
}.
#[global] Instance LocalCredentialState_eq_dec : EqDecision LocalCredentialState.
Proof. solve_decision. Defined.

Record CredentialApplyCheckpoint : Set := {
  cac_schema_version : Z;
  cac_operation_id : Z;
  cac_release_set_sha256 : string;
  cac_phase : Z;
  cac_windows_active : option LocalCredentialBundleRef;
  cac_windows_candidate : option LocalCredentialBundleRef;
  cac_vm_candidate : option LocalCredentialBundleRef;
  cac_begin_sha256 : string
}.
#[global] Instance CredentialApplyCheckpoint_eq_dec : EqDecision CredentialApplyCheckpoint.
Proof. solve_decision. Defined.

(** The panic of [unreachable!("validated above")] *)
Definition unreachable_code : string :=
  "internal error: entered unreachable code: validated above".

(** ** Values *)

Definition lower_hex_char (c : ascii) : bool :=
  is_ascii_hexdigit c && negb (is_ascii_uppercase c).

Definition validate_lower_hex (label value : string) (expected_len : Z) : res unit :=
  fail_if (negb (slen value =? expected_len) || negb (str_all lower_hex_char value))
    (label +:+ " must be exactly " +:+ dec expected_len
       +:+ " lowercase hexadecimal characters").

(** [value.chars().enumerate().all(...)] *)
Fixpoint uuid_chars (index : Z) (value : string) : bool :=
  match value with
  | EmptyString => true
  | String c value =>
      (if (index =? 8) || (index =? 13) || (index =? 18) || (index =? 23)
       then Ascii.eqb c "-" else lower_hex_char c) && uuid_chars (index + 1) value
  end.
Definition validate_lower_uuid (label value : string) : res unit :=
  fail_if (negb (slen value =? 36) || negb (uuid_chars 0 value))
    (label +:+ " must be a lowercase UUID").

Definition validate_reality_key (label value : string) : res unit :=
  fail_if (negb (slen value =? 43)
           || negb (str_all (λ c, is_ascii_alphanumeric c || one_of "_-" c) value))
    (label +:+ " must be a 43-character unpadded base64url X25519 key").

Definition validate_tunnel_authentication (label : string) (value : TunnelAuthentication)
    : res unit :=
  validate_lower_uuid (label +:+ ".vless_uuid") (ta_vless_uuid value) ;;
  validate_lower_hex (label +:+ ".hysteria2_password") (ta_hysteria2_password value) 64 ;;
  validate_lower_hex (label +:+ ".reality_short_id") (ta_reality_short_id value) 16.

Definition validate_reality_public_identity (label : string) (value : RealityPublicIdentity)
    : res unit :=
  validate_reality_key (label +:+ ".public_key") (rpub_public_key value).
Definition validate_reality_private_identity (label : string) (value : RealityPrivateIdentity)
    : res unit :=
  validate_reality_key (label +:+ ".private_key") (rpriv_private_key value).

Definition validate_tunnel_auth_generation (label : string)
    (value : TunnelAuthenticationGeneration) : res unit :=
  fail_if (tag_generation value =? 0) (label +:+ ".generation must be greater than zero") ;;
  direct ← ok_or (tag_direct value) (label +:+ ".direct is required");
  validate_tunnel_authentication (label +:+ ".direct") direct ;;
  warp ← ok_or (tag_warp value) (label +:+ ".warp is required");
  validate_tunnel_authentication (label +:+ ".warp") warp.

Definition validate_reality_public_generation (label : string)
    (value : RealityPublicIdentityGeneration) : res unit :=
  fail_if (rpubg_generation value =? 0) (label +:+ ".generation must be greater than zero") ;;
  direct ← ok_or (rpubg_direct value) (label +:+ ".direct is required");
  validate_reality_public_identity (label +:+ ".direct") direct ;;
  warp ← ok_or (rpubg_warp value) (label +:+ ".warp is required");
  validate_reality_public_identity (label +:+ ".warp") warp.

Definition validate_reality_private_generation (label : string)
    (value : RealityPrivateIdentityGeneration) : res unit :=
  fail_if (rprivg_generation value =? 0) (label +:+ ".generation must be greater than zero") ;;
  direct ← ok_or (rprivg_direct value) (label +:+ ".direct is required");
  validate_reality_private_identity (label +:+ ".direct") direct ;;
  warp ← ok_or (rprivg_warp value) (label +:+ ".warp is required");
  validate_reality_private_identity (label +:+ ".warp") warp.

Definition validate_proxy_credential_generation (label : string)
    (value : ProxyCredentialGeneration) : res unit :=
  fail_if (proxy_generation value =? 0) (label +:+ ".generation must be greater than zero") ;;
  validate_lower_hex (label +:+ ".password") (proxy_password value) 64.

(** ** Delivery bundles *)

Definition validate_windows_credential_projection (value : WindowsCredentialProjection)
    : res unit :=
  tunnel_auth ← ok_or (wcp_tunnel_auth value)
    "Windows credential projection requires tunnel authentication";
  validate_tunnel_auth_generation "WindowsCredentialProjection.tunnel_auth" tunnel_auth ;;
  reality_identity ← ok_or (wcp_reality_identity value)
    "Windows credential projection requires Reality identity";
  validate_reality_public_generation "WindowsCredentialProjection.reality_identity"
    reality_identity.

Definition validate_vm_credential_projection (value : VmCredentialProjection) : res unit :=
  tunnel_auth ← ok_or (vcp_tunnel_auth value)
    "VM credential projection requires tunnel authentication";
  validate_tunnel_auth_generation "VmCredentialProjection.tunnel_auth" tunnel_auth ;;
  reality_identity ← ok_or (vcp_reality_identity value)
    "VM credential projection requires Reality identity";
  validate_reality_private_generation "VmCredentialProjection.reality_identity"
    reality_identity ;;
  line2 ← ok_or (vcp_line2_proxy value)
    "VM credential projection requires Line 2 proxy credentials";
  validate_proxy_credential_generation "VmCredentialProjection.line2_proxy" line2.

Definition validate_rotation_class (value : Z) : res CredentialRotationClass :=
  class ← ok_or (try_from (E := CredentialRotationClass) value)
    "credential rotation class is unknown";
  fail_if (bool_decide (class = Rotation_Unspecified)) "credential rotation class is required" ;;
  mret class.

Definition is_some {A} (o : option A) : bool := bool_decide (is_Some o).

Definition validate_windows_credential_rotation_delta (delivery_generation : Z)
    (value : WindowsCredentialRotationDelta) : res unit :=
  class ← validate_rotation_class (wrd_credential_class value);
  match class with
  | Rotation_TunnelAuth =>
      tunnel ← ok_or (wrd_tunnel_auth value)
        "Windows tunnel-auth rotation requires tunnel_auth";
      fail_if (is_some (wrd_reality_identity value))
        "Windows tunnel-auth rotation must not carry Reality identity" ;;
      validate_tunnel_auth_generation "WindowsCredentialRotationDelta.tunnel_auth" tunnel ;;
      fail_if (negb (tag_generation tunnel =? delivery_generation))
        "Windows tunnel-auth rotation generation must equal delivery generation"
  | Rotation_RealityIdentity =>
      fail_if (is_some (wrd_tunnel_auth value))
        "Windows Reality rotation must not carry tunnel authentication" ;;
      reality ← ok_or (wrd_reality_identity value)
        "Windows Reality rotation requires reality_identity";
      validate_reality_public_generation "WindowsCredentialRotationDelta.reality_identity"
        reality ;;
      fail_if (negb (rpubg_generation reality =? delivery_generation))
        "Windows Reality rotation generation must equal delivery generation"
  | Rotation_Line2ProxyAuth =>
      fail_if (is_some (wrd_tunnel_auth value) || is_some (wrd_reality_identity value))
        "Windows Line 2 rotation carries no Windows secret material"
  | Rotation_Unspecified => Err unreachable_code
  end.

Definition validate_vm_credential_rotation_delta (delivery_generation : Z)
    (value : VmCredentialRotationDelta) : res unit :=
  class ← validate_rotation_class (vrd_credential_class value);
  match class with
  | Rotation_TunnelAuth =>
      tunnel ← ok_or (vrd_tunnel_auth value) "VM tunnel-auth rotation requires tunnel_auth";
      fail_if (is_some (vrd_reality_identity value) || is_some (vrd_line2_proxy value))
        "VM tunnel-auth rotation must carry only tunnel authentication" ;;
      validate_tunnel_auth_generation "VmCredentialRotationDelta.tunnel_auth" tunnel ;;
      fail_if (negb (tag_generation tunnel =? delivery_generation))
        "VM tunnel-auth rotation generation must equal delivery generation"
  | Rotation_RealityIdentity =>
      fail_if (is_some (vrd_tunnel_auth value) || is_some (vrd_line2_proxy value))
        "VM Reality rotation must carry only Reality identity" ;;
      reality ← ok_or (vrd_reality_identity value)
        "VM Reality rotation requires reality_identity";
      validate_reality_private_generation "VmCredentialRotationDelta.reality_identity" reality ;;
      fail_if (negb (rprivg_generation reality =? delivery_generation))
        "VM Reality rotation generation must equal delivery generation"
  | Rotation_Line2ProxyAuth =>
      fail_if (is_some (vrd_tunnel_auth value) || is_some (vrd_reality_identity value))
        "VM Line 2 rotation must carry only line2_proxy" ;;
      line2 ← ok_or (vrd_line2_proxy value) "VM Line 2 rotation requires line2_proxy";
      validate_proxy_credential_generation "VmCredentialRotationDelta.line2_proxy" line2 ;;
      fail_if (negb (proxy_generation line2 =? delivery_generation))
        "VM Line 2 rotation generation must equal delivery generation"
  | Rotation_Unspecified => Err unreachable_code
  end.

Definition validate_payload (generation : Z) (projection : CredentialProjectionKind)
    (payload : Payload) : res unit :=
  match projection, payload with
  | Projection_Windows, Payload_Windows value => validate_windows_credential_projection value
  | Projection_Vm, Payload_Vm value => validate_vm_credential_projection value
  | Projection_Windows, Payload_WindowsRotation value =>
      validate_windows_credential_rotation_delta generation value
  | Projection_Vm, Payload_VmRotation value =>
      validate_vm_credential_rotation_delta generation value
  | Projection_Windows, (Payload_Vm _ | Payload_VmRotation _) =>
      Err "Windows credential-delivery bundle cannot carry a VM payload"
  | Projection_Vm, (Payload_Windows _ | Payload_WindowsRotation _) =>
      Err "VM credential-delivery bundle cannot carry a Windows payload"
  | Projection_Unspecified, _ => Err unreachable_code
  end.

Definition validate_credential_delivery_bundle (bundle : CredentialDeliveryBundle) : res unit :=
  fail_if (negb (cdb_schema_version bundle =? 1))
    ("unsupported credential-delivery schema_version " +:+ dec (cdb_schema_version bundle)) ;;
  fail_if (cdb_generation bundle =? 0)
    "credential-delivery generation must be greater than zero" ;;
  projection ← ok_or (try_from (E := CredentialProjectionKind) (cdb_projection bundle))
    "credential-delivery projection is unknown";
  fail_if (bool_decide (projection = Projection_Unspecified))
    "credential-delivery projection is required" ;;
  slot ← ok_or (try_from (E := CredentialDeliverySlot) (cdb_slot bundle))
    "credential-delivery slot is unknown";
  if cdb_dummy_non_secret bundle then
    fail_if (bool_decide (slot ≠ Slot_Unspecified))
      "dummy credential-delivery bundle must not claim a real A/B slot" ;;
    fail_if (is_some (cdb_payload bundle))
      "dummy credential-delivery bundle must not carry a real payload"
  else
    fail_if (bool_decide (slot = Slot_Unspecified))
      "real credential-delivery bundle requires fixed slot A or B" ;;
    payload ← ok_or (cdb_payload bundle)
      "real credential-delivery bundle requires a typed payload";
    validate_payload (cdb_generation bundle) projection payload.

Definition credential_delivery_is_rotation_delta (bundle : CredentialDeliveryBundle) : bool :=
  match cdb_payload bundle with
  | Some (Payload_WindowsRotation _) | Some (Payload_VmRotation _) => true
  | _ => false
  end.

Section Bundles.
Context `{MB : Message CredentialDeliveryBundle, SH : Sha256}.

Definition encode_credential_delivery_bundle (bundle : CredentialDeliveryBundle) : res bytes :=
  validate_credential_delivery_bundle bundle ;;
  mret (encode_to_vec bundle).

(** The decoder's own message is left out of the error. *)
Definition decode_credential_delivery_bundle (b : bytes) : res CredentialDeliveryBundle :=
  bundle ← ok_or (decode b) "credential-delivery protobuf decode failed";
  validate_credential_delivery_bundle bundle ;;
  fail_if (negb (bytes_eqb (encode_to_vec bundle) b))
    "credential-delivery bundle is not canonical protobuf encoding" ;;
  mret bundle.

Definition credential_delivery_bundle_sha256 (bundle : CredentialDeliveryBundle) : res string :=
  b ← encode_credential_delivery_bundle bundle;
  mret (hex_of_bytes (sha256 b)).

Definition local_credential_bundle_ref (bundle : CredentialDeliveryBundle)
    : res LocalCredentialBundleRef :=
  validate_credential_delivery_bundle bundle ;;
  fail_if (cdb_dummy_non_secret bundle)
    "local credential state cannot reference a dummy delivery bundle" ;;
  fail_if (credential_delivery_is_rotation_delta bundle)
    "local credential state cannot reference an unmaterialized rotation delta" ;;
  digest ← credential_delivery_bundle_sha256 bundle;
  mret {| ref_generation := cdb_generation bundle;
          ref_slot := cdb_slot bundle;
          ref_sha256 := digest |}.

(** The payload of a rotation: [active] with the selected class replaced *)
Definition rotate_windows (active : WindowsCredentialProjection)
    (delta : WindowsCredentialRotationDelta) : res Payload :=
  class ← validate_rotation_class (wrd_credential_class delta);
  mret (Payload_Windows
    match class with
    | Rotation_TunnelAuth =>
        {| wcp_tunnel_auth := wrd_tunnel_auth delta;
           wcp_reality_identity := wcp_reality_identity active |}
    | Rotation_RealityIdentity =>
        {| wcp_tunnel_auth := wcp_tunnel_auth active;
           wcp_reality_identity := wrd_reality_identity delta |}
    | Rotation_Line2ProxyAuth => active
    | Rotation_Unspecified => active (* refused above *)
    end).
Definition rotate_vm (active : VmCredentialProjection) (delta : VmCredentialRotationDelta)
    : res Payload :=
  class ← validate_rotation_class (vrd_credential_class delta);
  mret (Payload_Vm
    match class with
    | Rotation_TunnelAuth =>
        {| vcp_tunnel_auth := vrd_tunnel_auth delta;
           vcp_reality_identity := vcp_reality_identity active;
           vcp_line2_proxy := vcp_line2_proxy active |}
    | Rotation_RealityIdentity =>
        {| vcp_tunnel_auth := vcp_tunnel_auth active;
           vcp_reality_identity := vrd_reality_identity delta;
           vcp_line2_proxy := vcp_line2_proxy active |}
    | Rotation_Line2ProxyAuth =>
        {| vcp_tunnel_auth := vcp_tunnel_auth active;
           vcp_reality_identity := vcp_reality_identity active;
           vcp_line2_proxy := vrd_line2_proxy delta |}
    | Rotation_Unspecified => active (* refused above *)
    end).

Definition materialize_credential_delivery_candidate
    (active : option CredentialDeliveryBundle) (delivery : CredentialDeliveryBundle)
    : res CredentialDeliveryBundle :=
  validate_credential_delivery_bundle delivery ;;
  fail_if (cdb_dummy_non_secret delivery)
    "credential candidate materialization refuses dummy bundles" ;;
  if negb (credential_delivery_is_rotation_delta delivery) then
    local_credential_bundle_ref delivery ;;
    mret delivery
  else
    active ← ok_or active
      "credential rotation delta requires one validated active local projection";
    validate_credential_delivery_bundle active ;;
    local_credential_bundle_ref active ;;
    fail_if (negb (cdb_projection active =? cdb_projection delivery))
      "credential rotation delta projection differs from active projection" ;;
    fail_if (cdb_generation active =? cdb_generation delivery)
      "credential rotation delivery generation must differ from active" ;;
    fail_if (cdb_slot active =? cdb_slot delivery)
      "credential rotation delta must use the slot opposite active" ;;
    payload ← match cdb_payload active, cdb_payload delivery with
              | Some (Payload_Windows active), Some (Payload_WindowsRotation delta) =>
                  rotate_windows active delta
              | Some (Payload_Vm active), Some (Payload_VmRotation delta) =>
                  rotate_vm active delta
              | _, _ =>
                  Err "credential rotation delta and active projection payloads do not match"
              end;
    let materialized :=
      {| cdb_schema_version := cdb_schema_version delivery;
         cdb_generation := cdb_generation delivery;
         cdb_projection := cdb_projection delivery;
         cdb_dummy_non_secret := false;
         cdb_slot := cdb_slot delivery;
         cdb_payload := Some payload |} in
    validate_credential_delivery_bundle materialized ;;
    local_credential_bundle_ref materialized ;;
    mret materialized.
End Bundles.

(** ** The local state *)

Definition validate_local_credential_bundle_ref (label : string)
    (reference : LocalCredentialBundleRef) : res unit :=
  fail_if (ref_generation reference =? 0) (label +:+ ".generation must be greater than zero") ;;
  slot ← ok_or (try_from (E := CredentialDeliverySlot) (ref_slot reference))
    (label +:+ ".slot is unknown");
  fail_if (bool_decide (slot ∉ [Slot_A; Slot_B])) (label +:+ ".slot must be A or B") ;;
  validate_lower_hex (label +:+ ".sha256") (ref_sha256 reference) 64.

Definition validate_local_credential_refs_are_opposite (left_label : string)
    (left : LocalCredentialBundleRef) (right_label : string) (right : LocalCredentialBundleRef)
    : res unit :=
  fail_if (ref_generation left =? ref_generation right)
    (left_label +:+ " and " +:+ right_label +:+ " must use different delivery generations") ;;
  fail_if (str_eqb (ref_sha256 left) (ref_sha256 right))
    (left_label +:+ " and " +:+ right_label +:+ " must reference different bundle digests") ;;
  fail_if (ref_slot left =? ref_slot right)
    (left_label +:+ " and " +:+ right_label +:+ " must use opposite fixed A/B slots").

Definition validate_reference (reference : string * option LocalCredentialBundleRef) : res unit :=
  match reference with
  | (label, Some reference) => validate_local_credential_bundle_ref label reference
  | (_, None) => mret tt
  end.
Definition validate_opposite (left_label : string) (left : option LocalCredentialBundleRef)
    (right_label : string) (right : option LocalCredentialBundleRef) : res unit :=
  match left, right with
  | Some l, Some r => validate_local_credential_refs_are_opposite left_label l right_label r
  | _, _ => mret tt
  end.

Definition validate_local_credential_state (state : LocalCredentialState) : res unit :=
  fail_if (negb (lcs_schema_version state =? 1))
    ("unsupported local credential state schema_version " +:+ dec (lcs_schema_version state)) ;;
  projection ← ok_or (try_from (E := CredentialProjectionKind) (lcs_projection state))
    "local credential state projection is unknown";
  fail_if (bool_decide (projection = Projection_Unspecified))
    "local credential state projection is required" ;;
  let active := lcs_active state in
  let candidate := lcs_candidate state in
  let previous := lcs_previous state in
  fail_if (negb (is_some active) && negb (is_some candidate) && negb (is_some previous))
    "local credential state must reference at least one bundle" ;;
  fail_if (is_some previous && negb (is_some active))
    "local credential previous state requires an active bundle" ;;
  fail_if (is_some candidate && is_some previous)
    "local credential candidate and previous cannot coexist with fixed A/B transport" ;;
  for_each validate_reference
    [("active", active); ("candidate", candidate); ("previous", previous)] ;;
  validate_opposite "active" active "candidate" candidate ;;
  validate_opposite "active" active "previous" previous.

Section States.
Context `{MB : Message CredentialDeliveryBundle, MS : Message LocalCredentialState, SH : Sha256}.

Definition encode_local_credential_state (state : LocalCredentialState) : res bytes :=
  validate_local_credential_state state ;;
  mret (encode_to_vec state).

Definition decode_local_credential_state (b : bytes) : res LocalCredentialState :=
  state ← ok_or (decode b) "local credential state protobuf decode failed";
  validate_local_credential_state state ;;
  fail_if (negb (bytes_eqb (encode_to_vec state) b))
    "local credential state is not canonical protobuf encoding" ;;
  mret state.

Definition verify_local_credential_bundle_reference (projection : CredentialProjectionKind)
    (reference : LocalCredentialBundleRef) (bundle : CredentialDeliveryBundle) : res unit :=
  validate_local_credential_bundle_ref "bundle reference" reference ;;
  validate_credential_delivery_bundle bundle ;;
  fail_if (cdb_dummy_non_secret bundle)
    "local credential state cannot reference a dummy delivery bundle" ;;
  fail_if (credential_delivery_is_rotation_delta bundle)
    "local credential state cannot reference an unmaterialized rotation delta" ;;
  fail_if (negb (cdb_projection bundle =? as_i32 projection))
    "local credential bundle projection does not match state projection" ;;
  fail_if (negb (cdb_generation bundle =? ref_generation reference))
    "local credential bundle generation does not match state reference" ;;
  fail_if (negb (cdb_slot bundle =? ref_slot reference))
    "local credential bundle slot does not match state reference" ;;
  digest ← credential_delivery_bundle_sha256 bundle;
  fail_if (negb (str_eqb digest (ref_sha256 reference)))
    "local credential bundle digest does not match state reference".
End States.

(** ** The cross-owner checkpoint *)

Definition validate_credential_apply_checkpoint (record : CredentialApplyCheckpoint) : res unit :=
  fail_if (negb (cac_schema_version record =? 1) || (cac_operation_id record =? 0))
    "credential checkpoint requires schema_version=1 and operation_id" ;;
  validate_lower_hex "credential checkpoint ReleaseSet" (cac_release_set_sha256 record) 64 ;;
  validate_lower_hex "credential checkpoint BEGIN digest" (cac_begin_sha256 record) 64 ;;
  phase ← ok_or (try_from (E := CredentialApplyPhase) (cac_phase record))
    "credential checkpoint phase is unknown";
  fail_if (bool_decide (phase = ApplyPhase_Unspecified))
    "credential checkpoint phase is required" ;;
  a ← ok_or (cac_windows_active record) "credential checkpoint Windows ACTIVE A missing";
  b ← ok_or (cac_windows_candidate record) "credential checkpoint Windows candidate B missing";
  vm ← ok_or (cac_vm_candidate record) "credential checkpoint VM candidate B missing";
  fail_if ((ref_generation a =? 0)
           || (ref_generation b =? 0)
           || negb (ref_generation vm =? ref_generation b)
           || (ref_generation a =? ref_generation b)
           || negb (ref_slot a =? as_i32 Slot_A)
           || negb (ref_slot b =? as_i32 Slot_B)
           || negb (ref_slot vm =? as_i32 Slot_B))
    "credential checkpoint A/B slot or generation mismatch" ;;
  for_each (λ '(label, reference), validate_lower_hex label (ref_sha256 reference) 64)
    [("Windows ACTIVE A", a); ("Windows candidate B", b); ("VM candidate B", vm)] ;;
  fail_if (str_eqb (ref_sha256 a) (ref_sha256 b) || str_eqb (ref_sha256 a) (ref_sha256 vm)
           || str_eqb (ref_sha256 b) (ref_sha256 vm))
    "credential checkpoint projections must have distinct digests".

Section Checkpoints.
Context `{MC : Message CredentialApplyCheckpoint}.

Definition encode_credential_apply_checkpoint (record : CredentialApplyCheckpoint) : res bytes :=
  validate_credential_apply_checkpoint record ;;
  mret (encode_to_vec record).

Definition decode_credential_apply_checkpoint (b : bytes) : res CredentialApplyCheckpoint :=
  record ← ok_or (decode b) "credential checkpoint protobuf decode failed";
  validate_credential_apply_checkpoint record ;;
  fail_if (negb (bytes_eqb (encode_to_vec record) b))
    "credential checkpoint protobuf is not canonical" ;;
  mret record.
End Checkpoints.

(** ** Facts *)

Lemma is_some_false {A} (o : option A) : is_some o = false ↔ o = None.
Proof. unfold is_some. rewrite bool_decide_eq_false, <- eq_None_not_Some. done. Qed.
Lemma is_some_true {A} (o : option A) : is_some o = true ↔ is_Some o.
Proof. apply bool_decide_eq_true. Qed.
#[export] Hint Rewrite @is_some_false @is_some_true : reflect.

Lemma lower_hex_char_eq c : lower_hex_char c = is_lower_hex c.
Proof. destruct c as [[] [] [] [] [] [] [] []]; reflexivity. Qed.

Lemma validate_hex_iff label value n :
  validate_lower_hex label value n = Ok tt ↔ slen value = n ∧ str_all is_lower_hex value = true.
Proof.
  unfold validate_lower_hex. rewrite fail_if_Ok, orb_false, !negb_false, Z.eqb_eq.
  assert (str_all lower_hex_char value = str_all is_lower_hex value) as ->; [|done].
  induction value as [|c value IH]; simpl; [done|]. by rewrite lower_hex_char_eq, IH.
Qed.

Lemma is_ok_unit (m : res unit) : m = Ok tt ↔ is_ok m = true.
Proof. destruct m as [[]|]; simpl; naive_solver. Qed.
Lemma is_ok_seq (m : res unit) (f : unit → res unit) :
  is_ok (m ≫= f) = is_ok m && is_ok (f tt).
Proof. by destruct m as [[]|]. Qed.
Lemma is_ok_demand {A} (o : option A) e (f : A → res unit) :
  is_ok (ok_or o e ≫= f) = match o with Some x => is_ok (f x) | None => false end.
Proof. by destruct o. Qed.
Lemma is_ok_fail_if b (e : string) : is_ok (fail_if b e) = negb b.
Proof. by destruct b. Qed.
Create Rewrite HintDb verdict.
#[export] Hint Rewrite is_ok_seq @is_ok_demand is_ok_fail_if : verdict.

(** The verdict of a validator does not depend on its label. *)
Definition unlabelled {A} (validate : string → A → res unit) : Prop :=
  ∀ label label' x, is_ok (validate label x) = is_ok (validate label' x).
Lemma relabel {A} (validate : string → A → res unit) l l' x :
  unlabelled validate → validate l x = Ok tt → validate l' x = Ok tt.
Proof. intros Hu. rewrite !is_ok_unit. by rewrite (Hu l l'). Qed.

Lemma lower_hex_unlabelled n : unlabelled (λ l v, validate_lower_hex l v n).
Proof. intros l l' x. unfold validate_lower_hex. by rewrite !is_ok_fail_if. Qed.
Lemma tunnel_authentication_unlabelled : unlabelled validate_tunnel_authentication.
Proof.
  intros l l' x.
  unfold validate_tunnel_authentication, validate_lower_uuid, validate_lower_hex.
  by autorewrite with verdict.
Qed.
Lemma reality_public_unlabelled : unlabelled validate_reality_public_identity.
Proof.
  intros l l' x. unfold validate_reality_public_identity, validate_reality_key.
  by autorewrite with verdict.
Qed.
Lemma reality_private_unlabelled : unlabelled validate_reality_private_identity.
Proof.
  intros l l' x. unfold validate_reality_private_identity, validate_reality_key.
  by autorewrite with verdict.
Qed.

(** The two halves of a generation *)
Lemma generation_unlabelled {A G} (gen : G → Z) (direct warp : G → option A)
    (validate : string → A → res unit) :
  unlabelled validate →
  unlabelled (λ label value,
    fail_if (gen value =? 0) (label +:+ ".generation must be greater than zero") ;;
    direct ← ok_or (direct value) (label +:+ ".direct is required");
    validate (label +:+ ".direct") direct ;;
    warp ← ok_or (warp value) (label +:+ ".warp is required");
    validate (label +:+ ".warp") warp).
Proof.
  intros Hu l l' x. autorewrite with verdict. f_equal.
  destruct (direct x) as [d|]; [|done]. autorewrite with verdict.
  rewrite (Hu _ (l' +:+ ".direct")). f_equal. by destruct (warp x).
Qed.
Lemma proxy_unlabelled : unlabelled validate_proxy_credential_generation.
Proof.
  intros l l' x. unfold validate_proxy_credential_generation, validate_lower_hex.
  by autorewrite with verdict.
Qed.
Lemma tunnel_auth_generation_unlabelled : unlabelled validate_tunnel_auth_generation.
Proof. exact (generation_unlabelled _ _ _ _ tunnel_authentication_unlabelled). Qed.
Lemma reality_public_generation_unlabelled : unlabelled validate_reality_public_generation.
Proof. exact (generation_unlabelled _ _ _ _ reality_public_unlabelled). Qed.
Lemma reality_private_generation_unlabelled : unlabelled validate_reality_private_generation.
Proof. exact (generation_unlabelled _ _ _ _ reality_private_unlabelled). Qed.

Lemma rotation_class_Ok z class :
  validate_rotation_class z = Ok class ↔ z = as_i32 class ∧ class ≠ Rotation_Unspecified.
Proof.
  unfold validate_rotation_class. rewrite bind_Ok. setoid_rewrite ok_or_Ok.
  setoid_rewrite bind_Ok. setoid_rewrite fail_if_Ok. setoid_rewrite bool_decide_eq_false.
  setoid_rewrite try_from_Some. split.
  - intros (c & -> & [] & ? & [= <-]). done.
  - intros [-> ?]. exists class. split; [done|]. by exists tt.
Qed.

(** The merge of an accepted delta with an accepted projection is accepted. *)
Lemma rotate_windows_valid generation active delta :
  validate_windows_credential_projection active = Ok tt →
  validate_windows_credential_rotation_delta generation delta = Ok tt →
  ∃ next, rotate_windows active delta = Ok (Payload_Windows next) ∧
    validate_windows_credential_projection next = Ok tt.
Proof.
  unfold validate_windows_credential_rotation_delta, rotate_windows.
  intros Ha (class & Hc & Hd)%bind_Ok. rewrite Hc. eexists. split; [reflexivity|].
  unfold validate_windows_credential_projection in *.
  apply bind_Ok in Ha as (t & Ht%ok_or_Ok & ([] & Htv & (r & Hr%ok_or_Ok & Hrv)%bind_Ok)%bind_Ok).
  destruct class; simpl.
  - done.
  - apply bind_Ok in Hd as (t' & Ht'%ok_or_Ok & ([] & _ & ([] & Hv & _)%bind_Ok)%bind_Ok).
    rewrite Ht'. simpl. erewrite relabel by eauto using tunnel_auth_generation_unlabelled.
    simpl. by rewrite Hr.
  - apply bind_Ok in Hd as ([] & _ & (r' & Hr'%ok_or_Ok & ([] & Hv & _)%bind_Ok)%bind_Ok).
    rewrite Ht. simpl. rewrite Htv, Hr'. simpl.
    eapply relabel; [apply reality_public_generation_unlabelled|exact Hv].
  - rewrite Ht. simpl. rewrite Htv, Hr. done.
Qed.
Lemma rotate_vm_valid generation active delta :
  validate_vm_credential_projection active = Ok tt →
  validate_vm_credential_rotation_delta generation delta = Ok tt →
  ∃ next, rotate_vm active delta = Ok (Payload_Vm next) ∧
    validate_vm_credential_projection next = Ok tt.
Proof.
  unfold validate_vm_credential_rotation_delta, rotate_vm.
  intros Ha (class & Hc & Hd)%bind_Ok. rewrite Hc. eexists. split; [reflexivity|].
  unfold validate_vm_credential_projection in *.
  apply bind_Ok in Ha as (t & Ht%ok_or_Ok & ([] & Htv & (r & Hr%ok_or_Ok &
    ([] & Hrv & (p & Hp%ok_or_Ok & Hpv)%bind_Ok)%bind_Ok)%bind_Ok)%bind_Ok).
  destruct class; simpl.
  - done.
  - apply bind_Ok in Hd as (t' & Ht'%ok_or_Ok & ([] & _ & ([] & Hv & _)%bind_Ok)%bind_Ok).
    rewrite Ht'. simpl. erewrite relabel by eauto using tunnel_auth_generation_unlabelled.
    simpl. rewrite Hr. simpl. rewrite Hrv, Hp. done.
  - apply bind_Ok in Hd as ([] & _ & (r' & Hr'%ok_or_Ok & ([] & Hv & _)%bind_Ok)%bind_Ok).
    rewrite Ht. simpl. rewrite Htv, Hr'. simpl.
    erewrite relabel by eauto using reality_private_generation_unlabelled. simpl. by rewrite Hp.
  - apply bind_Ok in Hd as ([] & _ & (p' & Hp'%ok_or_Ok & ([] & Hv & _)%bind_Ok)%bind_Ok).
    rewrite Ht. simpl. rewrite Htv, Hr. simpl. rewrite Hrv, Hp'. simpl.
    eapply relabel; [apply proxy_unlabelled|exact Hv].
Qed.

Lemma valid_bundle b :
  validate_credential_delivery_bundle b = Ok tt ↔
  cdb_schema_version b = 1 ∧ cdb_generation b ≠ 0 ∧
  ∃ projection slot, cdb_projection b = as_i32 projection ∧ projection ≠ Projection_Unspecified ∧
    cdb_slot b = as_i32 slot ∧
    if cdb_dummy_non_secret b then slot = Slot_Unspecified ∧ cdb_payload b = None
    else slot ≠ Slot_Unspecified ∧ ∃ payload, cdb_payload b = Some payload ∧
           validate_payload (cdb_generation b) projection payload = Ok tt.
Proof.
  unfold validate_credential_delivery_bundle. split.
  - intros ([] & Hs & ([] & Hg & (p & Hp & ([] & Hu & (sl & Hsl & Hb)%bind_Ok)%bind_Ok)%bind_Ok)%bind_Ok)%bind_Ok.
    autorewrite with reflect in Hs, Hg, Hp, Hu, Hsl. apply try_from_Some in Hp, Hsl.
    split_and!; [lia|lia|]. exists p, sl. split_and!; [done|done|done|].
    destruct (cdb_dummy_non_secret b).
    + apply bind_Ok in Hb as ([] & Hx & Hy). apply fail_if_Ok in Hx, Hy.
      apply bool_decide_eq_false in Hx. apply is_some_false in Hy.
      split; [by destruct (decide (sl = Slot_Unspecified))|done].
    + apply bind_Ok in Hb as ([] & Hx & (pl & Hpl%ok_or_Ok & Hv)%bind_Ok). apply fail_if_Ok in Hx.
      apply bool_decide_eq_false in Hx. eauto.
  - intros (-> & Hg & p & sl & -> & Hp & -> & Hb). rewrite (proj2 (Z.eqb_neq _ _) Hg).
    rewrite !try_from_as_i32. cbn [Z.eqb Pos.eqb negb fail_if ok_or mbind result_bind].
    rewrite (bool_decide_eq_false_2 (p = _)) by done.
    cbn [Z.eqb Pos.eqb negb fail_if ok_or mbind result_bind].
    destruct (cdb_dummy_non_secret b).
    + destruct Hb as [-> ->]. done.
    + destruct Hb as (Hsl & pl & -> & Hv). by rewrite bool_decide_eq_false_2.
Qed.

Section BundleFacts.
Context `{MB : Message CredentialDeliveryBundle, SH : Sha256}.

(** The reference of a bundle, and the bundles a state can reference *)
Definition bundle_digest (b : CredentialDeliveryBundle) : string :=
  hex_of_bytes (sha256 (encode_to_vec b)).
Definition ref_of (b : CredentialDeliveryBundle) : LocalCredentialBundleRef :=
  {| ref_generation := cdb_generation b; ref_slot := cdb_slot b; ref_sha256 := bundle_digest b |}.
Record full_projection (b : CredentialDeliveryBundle) : Prop := {
  fp_valid : validate_credential_delivery_bundle b = Ok tt;
  fp_real : cdb_dummy_non_secret b = false;
  fp_full : credential_delivery_is_rotation_delta b = false
}.

Lemma bundle_sha256_Ok b d :
  credential_delivery_bundle_sha256 b = Ok d ↔
  validate_credential_delivery_bundle b = Ok tt ∧ d = bundle_digest b.
Proof.
  unfold credential_delivery_bundle_sha256, encode_credential_delivery_bundle.
  fold (bundle_digest b). destruct (validate_credential_delivery_bundle b) as [[]|e]; simpl.
  - split; [by intros [= <-]|by intros [_ ->]].
  - by split; [|intros []].
Qed.
Lemma bundle_ref_Ok b r :
  local_credential_bundle_ref b = Ok r ↔ full_projection b ∧ r = ref_of b.
Proof.
  unfold local_credential_bundle_ref. split.
  - intros ([] & Hv & ([] & Hd & ([] & Hr & (d & Hs & [= <-])%bind_Ok)%bind_Ok)%bind_Ok)%bind_Ok.
    apply fail_if_Ok in Hd, Hr. apply bundle_sha256_Ok in Hs as [_ ->]. done.
  - intros [[Hv Hd Hr] ->]. rewrite Hv, Hd, Hr. simpl.
    by rewrite (proj2 (bundle_sha256_Ok b _) (conj Hv eq_refl)).
Qed.

Lemma bundle_digest_hex b :
  slen (bundle_digest b) = 64 ∧ str_all is_lower_hex (bundle_digest b) = true.
Proof.
  split; [|apply hex_of_bytes_lower_hex]. unfold slen, bundle_digest.
  by rewrite length_hex_of_bytes, sha256_length.
Qed.
Lemma bundle_digest_inj `{ML : !MessageLaws CredentialDeliveryBundle R} a b :
  R a → R b → bundle_digest a = bundle_digest b →
  a = b ∨ sha256_collision (encode_to_vec a) (encode_to_vec b).
Proof.
  intros Ha Hb [E|?]%hex_of_bytes_inj%sha256_eq; [left|by right].
  by apply (encode_inj (R := R)).
Qed.

Lemma full_projection_slot b :
  full_projection b → ref_slot (ref_of b) = as_i32 Slot_A ∨ ref_slot (ref_of b) = as_i32 Slot_B.
Proof.
  intros [(_ & _ & p & sl & _ & _ & Hs & Hb)%valid_bundle Hd _]. rewrite Hd in Hb.
  destruct Hb as [Hb _]. simpl. destruct sl; naive_solver.
Qed.
Lemma ref_of_valid label b :
  full_projection b → validate_local_credential_bundle_ref label (ref_of b) = Ok tt.
Proof.
  intros Hf. pose proof (full_projection_slot b Hf) as Hs.
  pose proof (proj1 (valid_bundle b) (fp_valid b Hf)) as (_ & Hg & _).
  unfold validate_local_credential_bundle_ref. cbn [ref_generation ref_of].
  rewrite (proj2 (Z.eqb_neq _ _) Hg). cbn [fail_if mbind result_bind].
  destruct Hs as [-> | ->]; rewrite try_from_as_i32; cbn [ok_or mbind result_bind];
    rewrite bool_decide_eq_false_2 by set_solver; cbn [fail_if mbind result_bind];
    apply validate_hex_iff, bundle_digest_hex.
Qed.
End BundleFacts.

(** ** Rotation *)

(** What a rotation may change: the identity of the delivery and the selected class *)
Definition rotates (active delivery next : CredentialDeliveryBundle) : Prop :=
  cdb_schema_version next = cdb_schema_version delivery ∧
  cdb_generation next = cdb_generation delivery ∧
  cdb_projection next = cdb_projection delivery ∧
  cdb_slot next = cdb_slot delivery ∧
  match cdb_payload active, cdb_payload delivery, cdb_payload next with
  | Some (Payload_Windows a), Some (Payload_WindowsRotation d), Some (Payload_Windows n) =>
      let selected c := bool_decide (wrd_credential_class d = as_i32 c) in
      wcp_tunnel_auth n =
        (if selected Rotation_TunnelAuth then wrd_tunnel_auth d else wcp_tunnel_auth a) ∧
      wcp_reality_identity n =
        (if selected Rotation_RealityIdentity then wrd_reality_identity d
         else wcp_reality_identity a)
  | Some (Payload_Vm a), Some (Payload_VmRotation d), Some (Payload_Vm n) =>
      let selected c := bool_decide (vrd_credential_class d = as_i32 c) in
      vcp_tunnel_auth n =
        (if selected Rotation_TunnelAuth then vrd_tunnel_auth d else vcp_tunnel_auth a) ∧
      vcp_reality_identity n =
        (if selected Rotation_RealityIdentity then vrd_reality_identity d
         else vcp_reality_identity a) ∧
      vcp_line2_proxy n =
        (if selected Rotation_Line2ProxyAuth then vrd_line2_proxy d else vcp_line2_proxy a)
  | _, _, _ => False
  end.

Section Rotation.
Context `{MB : Message CredentialDeliveryBundle, SH : Sha256}.

Definition rotated_payload (active delivery : CredentialDeliveryBundle) : res Payload :=
  match cdb_payload active, cdb_payload delivery with
  | Some (Payload_Windows active), Some (Payload_WindowsRotation delta) =>
      rotate_windows active delta
  | Some (Payload_Vm active), Some (Payload_VmRotation delta) => rotate_vm active delta
  | _, _ => Err "credential rotation delta and active projection payloads do not match"
  end.
Definition with_payload (delivery : CredentialDeliveryBundle) (payload : Payload)
    : CredentialDeliveryBundle :=
  {| cdb_schema_version := cdb_schema_version delivery;
     cdb_generation := cdb_generation delivery;
     cdb_projection := cdb_projection delivery;
     cdb_dummy_non_secret := false;
     cdb_slot := cdb_slot delivery;
     cdb_payload := Some payload |}.

(** The active projection [a] accepts the delta [d]. *)
Record accepts_delta (a d : CredentialDeliveryBundle) : Prop := {
  ad_active : full_projection a;
  ad_valid : validate_credential_delivery_bundle d = Ok tt;
  ad_projection : cdb_projection a = cdb_projection d;
  ad_generation : cdb_generation a ≠ cdb_generation d;
  ad_slot : cdb_slot a ≠ cdb_slot d
}.

Lemma delta_not_dummy d :
  validate_credential_delivery_bundle d = Ok tt →
  credential_delivery_is_rotation_delta d = true → cdb_dummy_non_secret d = false.
Proof using Type.
  intros (_ & _ & p & sl & _ & _ & _ & Hd)%valid_bundle. unfold credential_delivery_is_rotation_delta.
  destruct (cdb_dummy_non_secret d); [|done]. by destruct Hd as [_ ->].
Qed.

Lemma rotated_payload_full a d :
  credential_delivery_is_rotation_delta d = true → accepts_delta a d →
  ∃ payload, rotated_payload a d = Ok payload ∧ full_projection (with_payload d payload) ∧
    rotates a d (with_payload d payload).
Proof using Type.
  intros Hdelta [[Hav Had Haf] Hd Hproj Hgen Hslot].
  pose proof (delta_not_dummy d Hd Hdelta) as Hreal.
  pose proof Hav as (_ & _ & p & sl & Hp & _ & _ & Ha)%valid_bundle. rewrite Had in Ha.
  destruct Ha as (_ & pa & Hpa & Hpav).
  pose proof Hd as (Hs & Hg & q & sl' & Hq & Hqn & Hsl & Hd')%valid_bundle. rewrite Hreal in Hd'.
  destruct Hd' as (Hsl' & pd & Hpd & Hpdv).
  assert (q = p) as -> by (apply as_i32_inj; congruence).
  unfold credential_delivery_is_rotation_delta in *. rewrite Hpa in Haf. rewrite Hpd in Hdelta.
  unfold rotated_payload, rotates. rewrite Hpa, Hpd.
  assert (∀ payload, validate_payload (cdb_generation d) p payload = Ok tt →
    credential_delivery_is_rotation_delta (with_payload d payload) = false →
    full_projection (with_payload d payload)) as Hfull.
  { intros payload Hv Hf. split; [|done..]. apply valid_bundle. simpl.
    split_and!; [done..|]. exists p, sl'. eauto 8. }
  destruct p, pa, pd; try done; simpl in Hpav, Hpdv.
  - destruct (rotate_windows_valid _ _ _ Hpav Hpdv) as (next & Hr & Hv).
    exists (Payload_Windows next). split_and!; [done|by apply Hfull|simpl; done..|].
    revert Hr. unfold rotate_windows. rewrite bind_Ok.
    intros (class & [-> Hc]%rotation_class_Ok & [= <-]). by destruct class.
  - destruct (rotate_vm_valid _ _ _ Hpav Hpdv) as (next & Hr & Hv).
    exists (Payload_Vm next). split_and!; [done|by apply Hfull|simpl; done..|].
    revert Hr. unfold rotate_vm. rewrite bind_Ok.
    intros (class & [-> Hc]%rotation_class_Ok & [= <-]). by destruct class.
Qed.

Lemma materialize_delta a d m :
  credential_delivery_is_rotation_delta d = true →
  materialize_credential_delivery_candidate (Some a) d = Ok m →
  accepts_delta a d ∧ ∃ payload, rotated_payload a d = Ok payload ∧ m = with_payload d payload.
Proof.
  intros Hdelta. unfold materialize_credential_delivery_candidate. rewrite Hdelta.
  intros ([] & Hv & ([] & _ & (? & [= <-] & ([] & Hav & (r & [Hf _]%bundle_ref_Ok &
    ([] & Hp & ([] & Hg & ([] & Hs & (pl & Hpl & ([] & _ & (r' & _ & [= <-])
    %bind_Ok)%bind_Ok)%bind_Ok)%bind_Ok)%bind_Ok)%bind_Ok)%bind_Ok)%bind_Ok)%bind_Ok)%bind_Ok)%bind_Ok.
  apply fail_if_Ok in Hp, Hg, Hs. split; [|by eauto]. split; [done|done|lia..].
Qed.
Lemma materialize_accepts a d :
  credential_delivery_is_rotation_delta d = true → accepts_delta a d →
  ∃ m, materialize_credential_delivery_candidate (Some a) d = Ok m ∧ full_projection m ∧
    rotates a d m.
Proof.
  intros Hdelta Hacc. destruct (rotated_payload_full a d Hdelta Hacc) as (pl & Hpl & Hf & Hr).
  exists (with_payload d pl). split; [|done]. destruct Hacc as [Ha Hd Hp Hg Hs].
  unfold materialize_credential_delivery_candidate.
  rewrite Hd, Hdelta, (delta_not_dummy d Hd Hdelta). cbn [fail_if negb ok_or mbind result_bind].
  rewrite (fp_valid a Ha), Hp. cbn [fail_if negb ok_or mbind result_bind].
  rewrite (proj2 (bundle_ref_Ok a _) (conj Ha eq_refl)), Z.eqb_refl.
  rewrite (proj2 (Z.eqb_neq _ _) Hg), (proj2 (Z.eqb_neq _ _) Hs).
  cbn [fail_if negb ok_or mbind result_bind]. fold (rotated_payload a d). rewrite Hpl.
  cbn [mbind result_bind]. fold (with_payload d pl). rewrite (fp_valid _ Hf).
  by rewrite (proj2 (bundle_ref_Ok _ _) (conj Hf eq_refl)).
Qed.

(** C28: A rotation delta materializes exactly when the delivery is valid and the host
    has a full active projection of the same kind, with another generation and in the
    other slot; the candidate is again a full projection that a state can reference,
    it takes the selected credential class from the delta and every other class from
    the active projection. A delta without an active projection never materializes. *)
Theorem rotation_materializes (a d : CredentialDeliveryBundle) :
  credential_delivery_is_rotation_delta d = true →
  (is_ok (materialize_credential_delivery_candidate (Some a) d) = true ↔ accepts_delta a d) ∧
  (∀ m, materialize_credential_delivery_candidate (Some a) d = Ok m →
     local_credential_bundle_ref m = Ok (ref_of m) ∧ rotates a d m) ∧
  is_err (materialize_credential_delivery_candidate None d) = true.
Proof.
  intros Hdelta. split_and!.
  - rewrite is_ok_true. split.
    + by intros (m & [? _]%materialize_delta).
    + intros (m & Hm & _)%materialize_accepts; eauto.
  - intros m Hm. destruct (materialize_delta a d m Hdelta Hm) as [Hacc _].
    destruct (materialize_accepts a d Hdelta Hacc) as (m' & Hm' & Hf & Hr).
    rewrite Hm in Hm'. injection Hm' as <-. split; [by apply bundle_ref_Ok|done].
  - unfold materialize_credential_delivery_candidate. rewrite Hdelta.
    destruct (validate_credential_delivery_bundle d) as [[]|]; [|done].
    by destruct (cdb_dummy_non_secret d).
Qed.
End Rotation.

(** ** Valid states *)

Definition valid_ref (r : LocalCredentialBundleRef) : Prop :=
  ref_generation r ≠ 0 ∧ (ref_slot r = as_i32 Slot_A ∨ ref_slot r = as_i32 Slot_B) ∧
  slen (ref_sha256 r) = 64 ∧ str_all is_lower_hex (ref_sha256 r) = true.

(** Two references that can be held at the same time *)
Definition opposite (l r : LocalCredentialBundleRef) : Prop :=
  ref_generation l ≠ ref_generation r ∧ ref_sha256 l ≠ ref_sha256 r ∧ ref_slot l ≠ ref_slot r.

(** The four shapes of a state: active, candidate, previous *)
Inductive state_shape :
    option LocalCredentialBundleRef → option LocalCredentialBundleRef →
    option LocalCredentialBundleRef → Prop :=
| shape_first c : state_shape None (Some c) None
| shape_active a : state_shape (Some a) None None
| shape_staged a c : opposite a c → state_shape (Some a) (Some c) None
| shape_replaced a p : opposite a p → state_shape (Some a) None (Some p).

(** [\[active, candidate, previous\].into_iter().flatten()] *)
Definition state_references (state : LocalCredentialState) : list LocalCredentialBundleRef :=
  option_list (lcs_active state) ++ option_list (lcs_candidate state)
    ++ option_list (lcs_previous state).

Record valid_state (s : LocalCredentialState) : Prop := {
  vs_schema : lcs_schema_version s = 1;
  vs_projection : lcs_projection s = as_i32 Projection_Windows ∨
    lcs_projection s = as_i32 Projection_Vm;
  vs_shape : state_shape (lcs_active s) (lcs_candidate s) (lcs_previous s);
  vs_refs : Forall valid_ref (state_references s)
}.

Lemma bundle_ref_valid label r :
  validate_local_credential_bundle_ref label r = Ok tt ↔ valid_ref r.
Proof.
  unfold validate_local_credential_bundle_ref, valid_ref. split.
  - intros ([] & Hg & (sl & Hsl & ([] & Hs & Hx%validate_hex_iff)%bind_Ok)%bind_Ok)%bind_Ok.
    apply fail_if_Ok in Hg, Hs. apply ok_or_Ok, try_from_Some in Hsl.
    apply bool_decide_eq_false in Hs. split_and!; [lia| |by apply Hx..].
    rewrite Hsl. destruct sl; [|by left|by right]. set_solver.
  - intros (Hg & Hs & Hx). rewrite (proj2 (Z.eqb_neq _ _) Hg).
    cbn [fail_if mbind result_bind].
    destruct Hs as [-> | ->]; rewrite try_from_as_i32; cbn [ok_or mbind result_bind];
      rewrite bool_decide_eq_false_2 by set_solver; by apply validate_hex_iff.
Qed.
Lemma refs_opposite ll l lr r :
  validate_local_credential_refs_are_opposite ll l lr r = Ok tt ↔ opposite l r.
Proof.
  unfold validate_local_credential_refs_are_opposite, opposite.
  rewrite !is_ok_unit. autorewrite with verdict.
  rewrite !andb_true, !negb_true, str_eqb_false, !Z.eqb_neq. done.
Qed.

Lemma validate_reference_Ok l r :
  validate_reference (l, r) = Ok tt ↔ Forall valid_ref (option_list r).
Proof.
  destruct r as [r|]; simpl; [|by split].
  by rewrite bundle_ref_valid, Forall_singleton.
Qed.
Lemma validate_opposite_Ok ll l lr r :
  validate_opposite ll l lr r = Ok tt ↔ ∀ x y, l = Some x → r = Some y → opposite x y.
Proof.
  destruct l as [l|], r as [r|]; simpl; try naive_solver.
  rewrite refs_opposite. naive_solver.
Qed.

Lemma local_state_valid s : validate_local_credential_state s = Ok tt ↔ valid_state s.
Proof.
  transitivity (lcs_schema_version s = 1 ∧
    (lcs_projection s = as_i32 Projection_Windows ∨ lcs_projection s = as_i32 Projection_Vm) ∧
    state_shape (lcs_active s) (lcs_candidate s) (lcs_previous s) ∧
    Forall valid_ref (state_references s));
    [|split; [by intros (? & ? & ? & ?)|by intros []]].
  unfold validate_local_credential_state, state_references. destruct s as [v p a c o].
  cbn [lcs_schema_version lcs_projection lcs_active lcs_candidate lcs_previous]. split.
  - intros ([] & Hv & (q & Hq & ([] & Hu & ([] & H1 & ([] & H2 & ([] & H3 &
      ([] & Hr & ([] & Hc & Ho)%bind_Ok)%bind_Ok)%bind_Ok)%bind_Ok)%bind_Ok)%bind_Ok)%bind_Ok)%bind_Ok.
    apply fail_if_Ok in Hv, Hu, H1, H2, H3. apply ok_or_Ok, try_from_Some in Hq.
    apply bool_decide_eq_false in Hu. rewrite validate_opposite_Ok in Hc, Ho.
    apply for_each_Ok in Hr. rewrite !Forall_cons_iff, !validate_reference_Ok in Hr.
    destruct Hr as (Ha & Hca & Hpr & _). rewrite !Forall_app.
    split_and!; [lia|destruct q; auto; done| |done..].
    destruct a, c, o; simpl in *; try done; constructor; auto.
  - rewrite !Forall_app. intros (-> & Hp & Hs & Ha & Hc & Ho).
    assert (for_each validate_reference [("active", a); ("candidate", c); ("previous", o)] = Ok tt)
      as Hr.
    { apply for_each_Ok. rewrite !Forall_cons_iff, !validate_reference_Ok. done. }
    cbn [Z.eqb Pos.eqb negb fail_if mbind result_bind].
    destruct Hp as [-> | ->]; rewrite try_from_as_i32; destruct Hs; cbn -[for_each] in Hr |- *;
      rewrite Hr; cbn [mbind result_bind]; try done; by rewrite (proj2 (refs_opposite _ _ _ _)).
Qed.
