(* ===== verification/CrashLogic.v ===== *)
(** * Programs that may stop at any point

    A program over calls whose answers and effects are given by a relation on states:
    [during] are the states a run passes through, so the ones a crash can leave,
    [returns] its results. [always I p Q] is the program logic: [I] holds at every point of
    every run of [p], and [Q] of its result. *)

From S2P Require Import Prelude Service.

Section Logic.
Context {C : Type → Type} {S : Type} (step : ∀ R, C R → S → R → S → Prop).
#[local] Arguments step {R}.

Fixpoint during {A} (p : service C A) (s s' : S) : Prop :=
  s' = s ∨ match p with
           | Return _ => False
           | Invoke c k => ∃ r s1, step c s r s1 ∧ during (k r) s1 s'
           end.
Fixpoint returns {A} (p : service C A) (s : S) (a : A) (s' : S) : Prop :=
  match p with
  | Return x => a = x ∧ s' = s
  | Invoke c k => ∃ r s1, step c s r s1 ∧ returns (k r) s1 a s'
  end.

Fixpoint always {A} (I : S → Prop) (p : service C A) (Q : A → S → Prop) (s : S) : Prop :=
  I s ∧ match p with
        | Return a => Q a s
        | Invoke c k => ∀ r s', step c s r s' → always I (k r) Q s'
        end.

Lemma always_during {A} I (p : service C A) Q s s' : always I p Q s → during p s s' → I s'.
Proof.
  revert s. induction p as [a|R c k IH]; intros s; simpl.
  - by intros [HI _] [->|[]].
  - intros [HI Hk] [->|(r & s1 & Hs & Hd)]; [done|]. eapply IH; eauto.
Qed.
Lemma always_returns {A} I (p : service C A) Q s a s' :
  always I p Q s → returns p s a s' → Q a s'.
Proof.
  revert s. induction p as [x|R c k IH]; intros s; simpl.
  - by intros [_ HQ] [-> ->].
  - intros [_ Hk] (r & s1 & Hs & Hd). eapply IH; eauto.
Qed.
(** The logic is complete for what it speaks of. *)
Lemma always_intro {A} I (p : service C A) Q s :
  (∀ s', during p s s' → I s') → (∀ a s', returns p s a s' → Q a s') → always I p Q s.
Proof.
  revert s. induction p as [x|R c k IH]; intros s HI HQ; simpl.
  - split; [apply HI; by left|by apply HQ].
  - split; [apply HI; by left|]. intros r s' Hs. apply IH.
    + intros s2 Hd. apply HI. right. by exists r, s'.
    + intros a s2 Hr. apply HQ. by exists r, s'.
Qed.

Lemma returns_during {A} (p : service C A) s a s' : returns p s a s' → during p s s'.
Proof.
  revert s. induction p as [x|R c k IH]; intros s; simpl; [intros [_ ->]; by left|].
  intros (r & s1 & Hs & Hr). right. eauto.
Qed.

Lemma always_here {A} I (p : service C A) Q s : always I p Q s → I s.
Proof. destruct p; simpl; naive_solver. Qed.
Lemma always_mono {A} (I1 I2 : S → Prop) (p : service C A) (Q1 Q2 : A → S → Prop) s :
  (∀ s, I1 s → I2 s) → (∀ a s, I1 s → Q1 a s → Q2 a s) → always I1 p Q1 s → always I2 p Q2 s.
Proof.
  intros HI HQ. revert s. induction p as [x|R c k IH]; intros s; simpl; intros [? Hk];
    split; auto.
Qed.
Lemma always_post {A} I (p : service C A) (Q1 Q2 : A → S → Prop) s :
  (∀ a s, Q1 a s → Q2 a s) → always I p Q1 s → always I p Q2 s.
Proof. intros HQ. apply always_mono; auto. Qed.
Lemma always_and {A} (I1 I2 : S → Prop) (p : service C A) (Q1 Q2 : A → S → Prop) s :
  always I1 p Q1 s → always I2 p Q2 s → always I1 p (λ a s, Q1 a s ∧ Q2 a s) s.
Proof.
  revert s. induction p as [x|R c k IH]; intros s; simpl; intros [? H1] [_ H2]; split; auto.
Qed.
Lemma always_sbind {A B} I (p : service C A) (f : A → service C B) Q s :
  always I p (λ a, always I (f a) Q) s → always I (service_bind p f) Q s.
Proof.
  revert s. induction p as [x|R c k IH]; intros s; simpl; [by intros [_ ?]|].
  intros [? Hk]. split; auto.
Qed.
Lemma always_return {A} (I : S → Prop) (a : A) (Q : A → S → Prop) s :
  I s → Q a s → always I (Return a) Q s.
Proof. done. Qed.
Lemma always_invoke {A R} (I : S → Prop) (c : C R) (k : R → service C A) Q s :
  I s → (∀ r s', step c s r s' → always I (k r) Q s') → always I (Invoke c k) Q s.
Proof. done. Qed.

(** ** Fallible programs: a postcondition of the [Ok] results and one of the errors *)

Definition ends {E A} (Q : A → S → Prop) (Z : S → Prop) (r : result E A) (s : S) : Prop :=
  match r with Ok a => Q a s | Err _ => Z s end.

Section Fallible.
Context {E : Type}.

Lemma always_bind {A B} I (p : fservice C E A) (f : A → fservice C E B) Q Z s :
  always I p (ends (λ a, always I (f a) (ends Q Z)) Z) s → always I (p ≫= f) (ends Q Z) s.
Proof.
  intros Hp. apply always_sbind. eapply always_mono; [done| |exact Hp].
  intros [a|e] s' HI HQ; [done|]. by apply always_return.
Qed.
Lemma always_pure {A B} I (r : result E A) (f : A → fservice C E B) Q (Z : S → Prop) s :
  I s → Z s → (∀ a, r = Ok a → always I (f a) (ends Q Z) s) →
  always I (pure_step r ≫= f) (ends Q Z) s.
Proof.
  intros HI HZ Hf. apply always_bind, always_return; [done|].
  destruct r as [a|e]; simpl; [by apply Hf|done].
Qed.
Lemma always_ret {A} (I : S → Prop) (a : A) (Q : A → S → Prop) Z s :
  I s → Q a s → always I (mret a : fservice C E A) (ends Q Z) s.
Proof. done. Qed.
Lemma always_call {A R} I (c : C R) (f : R → fservice C E A) Q s :
  I s → (∀ r s', step c s r s' → always I (f r) Q s') → always I (invoke c ≫= f) Q s.
Proof. intros HI Hf. by apply always_invoke. Qed.
Lemma always_call_res {A B} (I : S → Prop) (c : C (result E A)) (f : A → fservice C E B) Q
    (Z : S → Prop) s :
  I s → (∀ s' e, step c s (Err e) s' → I s' ∧ Z s') →
  (∀ a s', step c s (Ok a) s' → always I (f a) (ends Q Z) s') →
  always I (invoke_res c ≫= f) (ends Q Z) s.
Proof.
  intros HI He Hf. apply always_bind, always_invoke; [done|].
  intros [a|e] s' Hs; apply always_return.
  - eapply always_here, Hf, Hs.
  - by apply Hf.
  - by apply (He s' e).
  - by apply (He s' e).
Qed.

(** When nothing is asked of the errors *)
Lemma always_pure' {A B} (I : S → Prop) (r : result E A) (f : A → fservice C E B) Q s :
  I s → (∀ a, r = Ok a → always I (f a) (ends Q (λ _, True)) s) →
  always I (pure_step r ≫= f) (ends Q (λ _, True)) s.
Proof. intros. by apply always_pure. Qed.
Lemma always_res {A B} (I : S → Prop) (c : C (result E A)) (f : A → fservice C E B) Q s :
  I s → (∀ r s', step c s r s' →
    s' = s ∧ ∀ a, r = Ok a → always I (f a) (ends Q (λ _, True)) s) →
  always I (invoke_res c ≫= f) (ends Q (λ _, True)) s.
Proof.
  intros HI Hc. apply always_call_res; [done| |].
  - intros s' err Hs. by destruct (Hc _ _ Hs) as [-> _].
  - intros a s' Hs. destruct (Hc _ _ Hs) as [-> Hf]. by apply Hf.
Qed.
End Fallible.

(** ** Programs that make only calls of one kind *)

Fixpoint only (P : ∀ R, C R → Prop) {A} (p : service C A) : Prop :=
  match p with
  | Return _ => True
  | Invoke c k => P _ c ∧ ∀ r, only P (k r)
  end.
Section Only.
Context (P : ∀ R, C R → Prop).

Lemma only_sbind {A B} (p : service C A) (f : A → service C B) :
  only P p → (∀ a, only P (f a)) → only P (service_bind p f).
Proof using Type.
  induction p as [x|R c k IH]; simpl; [by auto|]. intros [? Hk] Hf. split; auto.
Qed.
Lemma only_bind {E A B} (p : fservice C E A) (f : A → fservice C E B) :
  only P p → (∀ a, only P (f a)) → only P (p ≫= f).
Proof using Type. intros Hp Hf. apply only_sbind; [done|]. by intros [a|e]; simpl. Qed.
Lemma only_call {E R} (c : C R) : P R c → only P (invoke c : fservice C E R).
Proof using Type. done. Qed.
Lemma only_pure {E A} (r : result E A) : only P (pure_step r : fservice C E A).
Proof using Type. done. Qed.

(** What each of these calls preserves, the program preserves. *)
Context (Rel : S → S → Prop) `{!PreOrder Rel}.
Context (HP : ∀ R (c : C R) s r s', P R c → step c s r s' → Rel s s').
Lemma only_always {A} (p : service C A) s0 s :
  only P p → Rel s0 s → always (Rel s0) p (λ _, Rel s0) s.
Proof using HP PreOrder0.
  revert s. induction p as [x|R c k IH]; simpl; intros s; [done|]. intros [Hc Hk] Hs.
  split; [done|]. intros r s' Hstep. apply IH; [done|]. etrans; [done|by eapply HP].
Qed.
End Only.

(** ** A handler that answers the calls *)

Section Handled.
Context (answer : ∀ R, C R → S → R * S).
Context (answer_step : ∀ R (c : C R) s, step c s (answer R c s).1 (answer R c s).2).

Lemma exec_returns {A} (p : service C A) s :
  returns p s (exec answer p s).1 (exec answer p s).2.
Proof using answer_step.
  revert s. induction p as [a|R c k IH]; intros s; simpl; [done|].
  pose proof (answer_step R c s) as Hs. destruct (answer R c s) as [r s']. simpl in Hs.
  exists r, s'. split; [done|]. apply IH.
Qed.
(** The state after [n] calls of the run *)
Fixpoint exec_for {A} (n : nat) (p : service C A) (s : S) : S :=
  match n, p with
  | Datatypes.S n, Invoke c k => let '(r, s') := answer _ c s in exec_for n (k r) s'
  | _, _ => s
  end.
Lemma exec_for_during {A} n (p : service C A) s : during p s (exec_for n p s).
Proof using answer_step.
  revert n s. induction p as [a|R c k IH]; intros [|n] s; simpl; try by left.
  right. pose proof (answer_step R c s) as Hs. destruct (answer R c s) as [r s']. simpl in Hs.
  eauto.
Qed.
End Handled.
End Logic.
