(* ===== verification/CredentialStore.v ===== *)
(** * The local credential store

    Models [edge-secrets/src/credential_store.rs]: the private directory in which a host
    keeps its credential state and the bundles the state references, the methods that
    stage, promote, roll back and drop credentials, and the one-shot promotions that
    leave a receipt before they change the state.

    The methods are programs over file-system calls, as the Unix build makes them; a file
    handle is named by the path it was created at, file modes are left out. Paths are
    relative to the root of the store. *)

From S2P Require Import Prelude RustStd RustText HostTypes Service Credentials.

(** ** File-system calls *)

(** The root of the store and [root.join(BUNDLES_DIR)] *)
Inductive directory : Set := RootDir | BundlesDir.
#[global] Instance directory_eq_dec : EqDecision directory.
Proof. solve_decision. Defined.
#[global] Program Instance directory_countable : Countable directory :=
  inj_countable' (λ d, match d with RootDir => true | BundlesDir => false end)
    (λ b : bool, if b then RootDir else BundlesDir) _.
Next Obligation. by intros []. Qed.

(** A file of one of them *)
Abbreviation path := (directory * string)%type.

(** [std::io::Error]: whether its kind is [NotFound], and its text *)
Record io_error : Set := { not_found : bool; io_text : string }.

(** An entry of [read_dir]: its name, and whether that is UTF-8 *)
Record dir_entry : Set := { entry_name : string; entry_utf8 : bool }.

Inductive store_call : Type → Type :=
| DirExists (d : directory) : store_call bool
| DirIsDir (d : directory) : store_call bool
| Exists (p : path) : store_call bool
| IsFile (p : path) : store_call bool
| Read (p : path) : store_call (result io_error bytes)
| ReadToString (p : path) : store_call (result io_error string)
| CreateDirAll (d : directory) : store_call (result io_error unit)
| ReadDir (d : directory) : store_call (result io_error (list (result io_error dir_entry)))
| RemoveFile (p : path) : store_call (result io_error unit)
| CreateNew (p : path) : store_call (result io_error unit)
| WriteAll (p : path) (b : bytes) : store_call (result io_error unit)
| SyncAll (p : path) : store_call (result io_error unit)
| Rename (source target : path) : store_call (result io_error unit)
| SetDirPermissions (d : directory) : store_call (result io_error unit)
| SetFilePermissions (p : path) : store_call (result io_error unit)
| SyncDir (d : directory) : store_call (result io_error unit).

Abbreviation prog := (fservice store_call string).

(** [call.map_err(|err| ...)?] *)
Definition attempt {A} (c : store_call (result io_error A)) (msg : string → string) : prog A :=
  r ← invoke c;
  pure_step (map_err (λ e, msg (io_text e)) r).

(** [for x in xs { body(x)?; }] *)
Fixpoint for_calls {A} (f : A → prog unit) (xs : list A) : prog unit :=
  match xs with
  | [] => mret tt
  | x :: xs => f x ;; for_calls f xs
  end.

(** ** Paths and values *)

Definition STATE_FILE : string := "state.pb".
Definition BUNDLES_DIR : string := "bundles".
Definition INITIAL_PAIR_COMMIT_RECEIPT : string := "initial-paired-commit-receipt-v1".
Definition INITIAL_PAIR_RECOVERY_RECEIPT : string := "initial-paired-recovery-receipt-v1".
Definition EXISTING_JOIN_RECEIPT : string := "existing-active-join-receipt-v1".
Definition EXISTING_JOIN_PREPARE_RECEIPT : string := "existing-active-prepare-receipt-v1".

Record CredentialStore : Set := {
  store_root : string;
  store_projection : CredentialProjectionKind
}.

(** [Path::join] of a relative name *)
Definition join_path (base name : string) : string :=
  if str_empty base || ends_with "/" base then base +:+ name else base +:+ "/" +:+ name.
(** [path.display()] *)
Definition dir_text (st : CredentialStore) (d : directory) : string :=
  match d with RootDir => store_root st | BundlesDir => join_path (store_root st) BUNDLES_DIR end.
Definition path_text (st : CredentialStore) (p : path) : string := join_path (dir_text st p.1) p.2.

Definition state_path : path := (RootDir, STATE_FILE).
Definition bundle_path (reference : LocalCredentialBundleRef) : path :=
  (BundlesDir, ref_sha256 reference +:+ ".pb").
(** [path.with_extension(...)] adds [.new] to the name. *)
Definition temporary_path (p : path) : path := (p.1, p.2 +:+ ".new").

(** [value.parse::<i32>()] *)
Definition parse_i32 (s : string) : option Z :=
  match s with
  | String "-" EmptyString => None
  | String "-" r => Z.opp <$> parse_digits (2 ^ 31) 0 r
  | _ => parse_uint (2 ^ 31 - 1) s
  end.
(** [value.parse::<u64>().unwrap_or(0) == 0] *)
Definition u64_or_zero (s : string) : Z := default 0 (parse_uint u64_max s).

Definition require_projection (projection : CredentialProjectionKind) : res unit :=
  fail_if (bool_decide (projection ∉ [Projection_Windows; Projection_Vm]))
    "credential store projection must be Windows or VM".

Definition valid_first_use_digest (value : string) : bool :=
  (slen value =? 64) && str_all (λ c, is_ascii_digit c || between 97 102 c) value.

Definition slot_a_or_b (slot : Z) : bool := (slot =? 1) || (slot =? 2).

Definition new (root : string) (projection : CredentialProjectionKind) : res CredentialStore :=
  require_projection projection ;;
  mret {| store_root := root; store_projection := projection |}.

Section Store.
Context `{MB : Message CredentialDeliveryBundle, MS : Message LocalCredentialState, SH : Sha256}.
Context (st : CredentialStore).

Definition require_bundle_projection (bundle : CredentialDeliveryBundle) : res unit :=
  fail_if (negb (cdb_projection bundle =? as_i32 (store_projection st)))
    "credential bundle projection does not match local store owner".
Definition require_state_projection (state : LocalCredentialState) : res unit :=
  fail_if (negb (lcs_projection state =? as_i32 (store_projection st)))
    "local credential state projection does not match store owner".

(** ** Private files *)

Definition set_private_directory_permissions (d : directory) : prog unit :=
  attempt (SetDirPermissions d)
    (λ err, "failed to set " +:+ dir_text st d +:+ " mode 700: " +:+ err).
Definition set_private_file_permissions (p : path) : prog unit :=
  attempt (SetFilePermissions p)
    (λ err, "failed to set " +:+ path_text st p +:+ " mode 600: " +:+ err).
Definition atomic_replace (source target : path) : prog unit :=
  attempt (Rename source target)
    (λ err, "failed to atomically replace " +:+ path_text st target +:+ " with "
              +:+ path_text st source +:+ ": " +:+ err).
Definition sync_directory (d : directory) : prog unit :=
  attempt (SyncDir d) (λ err, "failed to sync directory " +:+ dir_text st d +:+ ": " +:+ err).

Definition clear_temporary (temporary : path) : prog unit :=
  r ← invoke (RemoveFile temporary);
  match r with
  | Ok _ => mret tt
  | Err err =>
      if not_found err then mret tt
      else pure_step (Err ("failed to clear stale credential temp file "
                             +:+ path_text st temporary +:+ ": " +:+ io_text err))
  end.

(** After the stale temporary file is cleared: create it, write and sync it, and put it in the
    place of [p] *)
Definition write_and_replace (p : path) (b : bytes) : prog unit :=
  let temporary := temporary_path p in
  attempt (CreateNew temporary)
    (λ err, "failed to create credential temp file " +:+ path_text st temporary
              +:+ ": " +:+ err) ;;
  attempt (WriteAll temporary b)
    (λ err, "failed to write credential temp file " +:+ path_text st temporary
              +:+ ": " +:+ err) ;;
  attempt (SyncAll temporary)
    (λ err, "failed to sync credential temp file " +:+ path_text st temporary
              +:+ ": " +:+ err) ;;
  set_private_file_permissions temporary ;;
  atomic_replace temporary p ;;
  sync_directory p.1.

Definition write_atomic_private (p : path) (b : bytes) : prog unit :=
  let parent := p.1 in
  attempt (CreateDirAll parent)
    (λ err, "failed to create credential store directory " +:+ dir_text st parent
              +:+ ": " +:+ err) ;;
  set_private_directory_permissions parent ;;
  clear_temporary (temporary_path p) ;;
  write_and_replace p b.

Definition prepare_directories : prog unit :=
  attempt (CreateDirAll RootDir)
    (λ err, "failed to create credential store root " +:+ dir_text st RootDir +:+ ": " +:+ err) ;;
  set_private_directory_permissions RootDir ;;
  attempt (CreateDirAll BundlesDir)
    (λ err, "failed to create credential bundle directory " +:+ dir_text st BundlesDir
              +:+ ": " +:+ err) ;;
  set_private_directory_permissions BundlesDir.

(** ** Bundles *)

Definition read_bundle (reference : LocalCredentialBundleRef) : prog CredentialDeliveryBundle :=
  let p := bundle_path reference in
  b ← attempt (Read p)
    (λ err, "failed to read local credential bundle " +:+ path_text st p +:+ ": " +:+ err);
  bundle ← pure_step (decode_credential_delivery_bundle b);
  pure_step (verify_local_credential_bundle_reference (store_projection st) reference bundle) ;;
  mret bundle.

Definition persist_bundle (bundle : CredentialDeliveryBundle)
    (reference : LocalCredentialBundleRef) : prog unit :=
  b ← pure_step (encode_credential_delivery_bundle bundle);
  digest ← pure_step (credential_delivery_bundle_sha256 bundle);
  pure_step (fail_if (negb (str_eqb digest (ref_sha256 reference)))
    "credential bundle digest changed during persistence") ;;
  let p := bundle_path reference in
  exists_ ← invoke (Exists p);
  if (exists_ : bool) then
    observed ← attempt (Read p)
      (λ err, "failed to read existing credential bundle " +:+ path_text st p +:+ ": " +:+ err);
    pure_step (fail_if (negb (bytes_eqb observed b))
      ("immutable credential bundle digest path contains different bytes: "
         +:+ path_text st p)) ;;
    decoded ← pure_step (decode_credential_delivery_bundle observed);
    pure_step (verify_local_credential_bundle_reference (store_projection st) reference decoded)
  else
    write_atomic_private p b ;;
    observed ← attempt (Read p)
      (λ err, "failed to re-read persisted credential bundle " +:+ path_text st p +:+ ": "
                +:+ err);
    pure_step (fail_if (negb (bytes_eqb observed b))
      "persisted credential bundle failed exact byte verification").

Definition verify_state_references (state : LocalCredentialState) : prog unit :=
  for_calls (λ reference, read_bundle reference ;; mret tt) (state_references state).

Definition gc_entry (remove : string → bool) (entry : result io_error dir_entry) : prog unit :=
  entry ← pure_step (map_err (λ err, "failed to enumerate credential bundle: " +:+ io_text err)
                       entry);
  let p : path := (BundlesDir, entry_name entry) in
  is_file ← invoke (IsFile p);
  if negb is_file then mret tt
  else
    pure_step (fail_if (negb (entry_utf8 entry))
      "credential bundle filename is not valid UTF-8") ;;
    match strip_suffix ".pb" (entry_name entry) with
    | None => mret tt
    | Some digest =>
        if remove digest then
          attempt (RemoveFile p)
            (λ err, "failed to remove unreferenced credential bundle " +:+ path_text st p
                      +:+ ": " +:+ err)
        else mret tt
    end.

Definition gc_unreferenced_bundles (state : LocalCredentialState) : prog unit :=
  let keep := ref_sha256 <$> state_references state in
  entries ← attempt (ReadDir BundlesDir)
    (λ err, "failed to enumerate credential bundle directory " +:+ dir_text st BundlesDir
              +:+ ": " +:+ err);
  for_calls (gc_entry (λ digest, negb (mem digest keep))) entries ;;
  sync_directory BundlesDir.

Definition gc_any_entry (entry : result io_error dir_entry) : prog unit :=
  entry ← pure_step (map_err (λ err, "failed to enumerate credential bundle: " +:+ io_text err)
                       entry);
  let p : path := (BundlesDir, entry_name entry) in
  is_file ← invoke (IsFile p);
  if (is_file : bool) then
    attempt (RemoveFile p)
      (λ err, "failed to remove unreferenced credential bundle " +:+ path_text st p
                +:+ ": " +:+ err)
  else mret tt.

Definition gc_all_bundles : prog unit :=
  exists_ ← invoke (DirExists BundlesDir);
  if negb exists_ then mret tt
  else
    entries ← attempt (ReadDir BundlesDir)
      (λ err, "failed to enumerate credential bundle directory " +:+ dir_text st BundlesDir
                +:+ ": " +:+ err);
    for_calls gc_any_entry entries ;;
    sync_directory BundlesDir.

(** ** The state file *)

Definition read_state : prog (option LocalCredentialState) :=
  r ← invoke (Read state_path);
  match r with
  | Err err =>
      if not_found err then mret None
      else pure_step (Err ("failed to read local credential state "
                             +:+ path_text st state_path +:+ ": " +:+ io_text err))
  | Ok b =>
      state ← pure_step (decode_local_credential_state b);
      pure_step (require_state_projection state) ;;
      verify_state_references state ;;
      mret (Some state)
  end.

Definition write_state (state : LocalCredentialState) : prog unit :=
  pure_step (require_state_projection state) ;;
  pure_step (validate_local_credential_state state) ;;
  verify_state_references state ;;
  b ← pure_step (encode_local_credential_state state);
  write_atomic_private state_path b ;;
  observed ← attempt (Read state_path)
    (λ err, "failed to re-read persisted local credential state: " +:+ err);
  pure_step (fail_if (negb (bytes_eqb observed b))
    "persisted local credential state failed exact byte verification").

Definition remove_state_file : prog unit :=
  r ← invoke (RemoveFile state_path);
  match r with
  | Ok _ => sync_directory RootDir
  | Err err =>
      if not_found err then mret tt
      else pure_step (Err ("failed to remove local credential state "
                             +:+ path_text st state_path +:+ ": " +:+ io_text err))
  end.

Definition open_existing : prog (option CredentialStore) :=
  pure_step (require_projection (store_projection st)) ;;
  exists_ ← invoke (DirExists RootDir);
  if negb exists_ then mret None
  else
    is_dir ← invoke (DirIsDir RootDir);
    pure_step (fail_if (negb is_dir)
      ("credential store root is not a directory: " +:+ dir_text st RootDir)) ;;
    bundles ← invoke (DirExists BundlesDir);
    (if (bundles : bool) then
       bundles_dir ← invoke (DirIsDir BundlesDir);
       pure_step (fail_if (negb bundles_dir)
         ("credential bundle store is not a directory: " +:+ dir_text st BundlesDir))
     else mret tt) ;;
    read_state ;;
    mret (Some st).

(** ** Staging and the ordinary transitions *)

Definition empty_state : LocalCredentialState :=
  {| lcs_schema_version := 1;
     lcs_projection := as_i32 (store_projection st);
     lcs_active := None; lcs_candidate := None; lcs_previous := None |}.
Definition with_candidate (state : LocalCredentialState) (c : option LocalCredentialBundleRef)
    : LocalCredentialState :=
  {| lcs_schema_version := lcs_schema_version state;
     lcs_projection := lcs_projection state;
     lcs_active := lcs_active state; lcs_candidate := c; lcs_previous := lcs_previous state |}.
Definition without_previous (state : LocalCredentialState) : LocalCredentialState :=
  {| lcs_schema_version := lcs_schema_version state;
     lcs_projection := lcs_projection state;
     lcs_active := lcs_active state; lcs_candidate := lcs_candidate state;
     lcs_previous := None |}.

(** The checks of [stage_candidate] against the current state: [None] when the candidate is
    staged already, the next state otherwise *)
Definition check_staging (state : LocalCredentialState) (candidate : LocalCredentialBundleRef)
    : res (option LocalCredentialState) :=
  match lcs_previous state with
  | Some previous =>
      Err ("previous credential generation " +:+ dec (ref_generation previous)
             +:+ " must be dropped before staging a new candidate")
  | None =>
      match lcs_candidate state with
      | Some existing =>
          if bool_decide (existing = candidate) then Ok None
          else Err ("different credential candidate generation "
                      +:+ dec (ref_generation existing) +:+ " is already staged")
      | None =>
          match lcs_active state with
          | Some active =>
              fail_if (bool_decide (active = candidate)) "credential candidate is already active" ;;
              fail_if (ref_slot active =? ref_slot candidate)
                "credential candidate must use the fixed slot opposite the active bundle"
          | None => Ok tt
          end ;;
          mret (Some (with_candidate state (Some candidate)))
      end
  end.

Definition stage_candidate (bundle : CredentialDeliveryBundle) : prog LocalCredentialState :=
  pure_step (require_bundle_projection bundle) ;;
  pure_step (fail_if (cdb_dummy_non_secret bundle)
    "local credential store refuses dummy delivery bundles") ;;
  candidate ← pure_step (local_credential_bundle_ref bundle);
  current ← read_state;
  let current := default empty_state current in
  next ← pure_step (check_staging current candidate);
  match next with
  | None => mret current
  | Some next =>
      pure_step (validate_local_credential_state next) ;;
      prepare_directories ;;
      persist_bundle bundle candidate ;;
      write_state next ;;
      gc_unreferenced_bundles next ;;
      mret next
  end.

Definition stage_delivery_candidate (delivery : CredentialDeliveryBundle)
    : prog LocalCredentialState :=
  state ← read_state;
  active_bundle ← match state ≫= lcs_active with
                  | Some reference => bundle ← read_bundle reference; mret (Some bundle)
                  | None => mret None
                  end;
  candidate ← pure_step (materialize_credential_delivery_candidate active_bundle delivery);
  stage_candidate candidate.

Definition promote_candidate : prog LocalCredentialState :=
  current ← read_state;
  current ← pure_step (ok_or current "local credential state is absent");
  candidate ← pure_step (ok_or (lcs_candidate current) "local credential candidate is absent");
  let next :=
    {| lcs_schema_version := 1;
       lcs_projection := as_i32 (store_projection st);
       lcs_active := Some candidate; lcs_candidate := None;
       lcs_previous := lcs_active current |} in
  pure_step (validate_local_credential_state next) ;;
  write_state next ;;
  gc_unreferenced_bundles next ;;
  mret next.

Definition rollback_previous : prog LocalCredentialState :=
  current ← read_state;
  current ← pure_step (ok_or current "local credential state is absent");
  pure_step (fail_if (is_some (lcs_candidate current))
    "discard the staged candidate before credential rollback") ;;
  active ← pure_step (ok_or (lcs_active current) "local credential active bundle is absent");
  previous ← pure_step (ok_or (lcs_previous current) "local credential previous bundle is absent");
  let next :=
    {| lcs_schema_version := 1;
       lcs_projection := as_i32 (store_projection st);
       lcs_active := Some previous; lcs_candidate := None; lcs_previous := Some active |} in
  pure_step (validate_local_credential_state next) ;;
  write_state next ;;
  mret next.

Definition drop_previous : prog (option LocalCredentialState) :=
  current ← read_state;
  match current with
  | None => mret None
  | Some current =>
      if negb (is_some (lcs_previous current)) then mret (Some current)
      else
        let next := without_previous current in
        pure_step (validate_local_credential_state next) ;;
        write_state next ;;
        gc_unreferenced_bundles next ;;
        mret (Some next)
  end.
End Store.
