(* ===== verification/CredentialReceipts.v ===== *)
(** * One-shot promotions of the credential store

    Models the rest of [edge-secrets/src/credential_store.rs]: the receipts of the paired
    promotions, their readers, the promotions that may be attempted once, and the discard
    of a candidate, which a Windows preparation receipt forbids. *)

From S2P Require Import Prelude RustStd RustText HostTypes Service Credentials CredentialStore.

(** ** Receipt texts *)

(** A line of a receipt *)
Definition line (s : string) : string := s +:+ nl.

Definition initial_pair_text (projection : CredentialProjectionKind) (generation slot : Z)
    (intent_sha256 : string) : string :=
  line "sing-box.initial-paired-commit/v1"
  +:+ line ("projection=" +:+ dec_i32 (as_i32 projection))
  +:+ line ("generation=" +:+ dec generation)
  +:+ line ("slot=" +:+ dec_i32 slot)
  +:+ line ("intent_sha256=" +:+ intent_sha256).

Definition initial_recovery_text (projection : CredentialProjectionKind) (generation slot : Z)
    (original_intent_sha256 recovery_intent_sha256 expected_candidate_sha256 : string) : string :=
  line "sing-box.initial-paired-recovery/v1"
  +:+ line ("projection=" +:+ dec_i32 (as_i32 projection))
  +:+ line ("generation=" +:+ dec generation)
  +:+ line ("slot=" +:+ dec_i32 slot)
  +:+ line ("original_intent_sha256=" +:+ original_intent_sha256)
  +:+ line ("recovery_intent_sha256=" +:+ recovery_intent_sha256)
  +:+ line ("candidate_sha256=" +:+ expected_candidate_sha256).

Definition existing_join_text (projection : CredentialProjectionKind)
    (windows_generation windows_slot : Z) (windows_sha256 : string) (vm_generation vm_slot : Z)
    (vm_sha256 windows_candidate_sha256 intent_sha256 : string) : string :=
  line "sing-box.existing-active-join/v1"
  +:+ line ("projection=" +:+ dec_i32 (as_i32 projection))
  +:+ line ("windows_generation=" +:+ dec windows_generation)
  +:+ line ("windows_slot=" +:+ dec_i32 windows_slot)
  +:+ line ("windows_sha256=" +:+ windows_sha256)
  +:+ line ("vm_generation=" +:+ dec vm_generation)
  +:+ line ("vm_slot=" +:+ dec_i32 vm_slot)
  +:+ line ("vm_sha256=" +:+ vm_sha256)
  +:+ line ("windows_candidate_sha256=" +:+ windows_candidate_sha256)
  +:+ line ("intent_sha256=" +:+ intent_sha256).

Definition join_prepare_text (projection : CredentialProjectionKind)
    (source candidate : LocalCredentialBundleRef) (vm_sha256 begin_sha256 : string) : string :=
  line "sing-box.existing-active-prepare/v1"
  +:+ line ("projection=" +:+ dec_i32 (as_i32 projection))
  +:+ line ("source_generation=" +:+ dec (ref_generation source))
  +:+ line ("source_slot=" +:+ dec_i32 (ref_slot source))
  +:+ line ("source_sha256=" +:+ ref_sha256 source)
  +:+ line ("target_generation=" +:+ dec (ref_generation candidate))
  +:+ line ("target_slot=" +:+ dec_i32 (ref_slot candidate))
  +:+ line ("target_sha256=" +:+ ref_sha256 candidate)
  +:+ line ("vm_sha256=" +:+ vm_sha256)
  +:+ line ("begin_sha256=" +:+ begin_sha256).

(** ** Well-formed receipts *)

(** [fields.get(i)?.strip_prefix(key)?] *)
Definition field (fields : list string) (i : nat) (key : string) : option string :=
  f ← fields !! i; strip_prefix key f.
Definition u64_field (fields : list string) (i : nat) (key : string) : option Z :=
  v ← field fields i key; parse_uint u64_max v.
Definition hex_field (fields : list string) (i : nat) (key : string) : bool :=
  match field fields i key with Some v => valid_first_use_digest v | None => false end.
(** [number.is_none_or(|v| v == 0)] *)
Definition none_or_zero (v : option Z) : bool := match v with Some v => v =? 0 | None => true end.
(** [parts\[i\]["key".len()..]] after [starts_with("key")] *)
Definition rest_after (key part : string) : string := default "" (strip_prefix key part).
Definition is_slot (v : option Z) : bool :=
  match v with Some v => slot_a_or_b v | None => false end.

Definition initial_pair_well_formed (projection : CredentialProjectionKind) (text : string)
    : bool :=
  match lines text with
  | [p0; p1; p2; p3; p4] =>
      str_eqb p0 "sing-box.initial-paired-commit/v1"
      && str_eqb p1 ("projection=" +:+ dec_i32 (as_i32 projection))
      && starts_with "generation=" p2
      && starts_with "slot=" p3
      && starts_with "intent_sha256=" p4
      && negb (u64_or_zero (rest_after "generation=" p2) =? 0)
      && is_slot (parse_i32 (rest_after "slot=" p3))
      && valid_first_use_digest (rest_after "intent_sha256=" p4)
  | _ => false
  end.

(** [parts\[i\].split_once('=').map(|(_, value)| value).unwrap_or("")] *)
Definition after_equals (part : string) : string :=
  match split_once "=" part with Some (_, value) => value | None => "" end.

Definition initial_recovery_well_formed (projection : CredentialProjectionKind) (text : string)
    : bool :=
  match lines text with
  | [p0; p1; p2; p3; p4; p5; p6] =>
      str_eqb p0 "sing-box.initial-paired-recovery/v1"
      && str_eqb p1 ("projection=" +:+ dec_i32 (as_i32 projection))
      && starts_with "generation=" p2
      && negb (u64_or_zero (rest_after "generation=" p2) =? 0)
      && starts_with "slot=" p3
      && is_slot (parse_i32 (rest_after "slot=" p3))
      && starts_with "original_intent_sha256=" p4
      && starts_with "recovery_intent_sha256=" p5
      && starts_with "candidate_sha256=" p6
      && forallb (λ part, valid_first_use_digest (after_equals part)) [p4; p5; p6]
  | _ => false
  end.

Definition existing_join_well_formed (projection : CredentialProjectionKind) (text : string)
    : bool :=
  let fields := lines text in
  let w := u64_field fields 2 "windows_generation=" in
  let v := u64_field fields 5 "vm_generation=" in
  let ws := u64_field fields 3 "windows_slot=" in
  let vs := u64_field fields 6 "vm_slot=" in
  (length fields =? 10)%nat
  && bool_decide (fields !! 0%nat = Some "sing-box.existing-active-join/v1")
  && bool_decide (fields !! 1%nat = Some ("projection=" +:+ dec_i32 (as_i32 projection)))
  && negb (none_or_zero w) && negb (none_or_zero v) && negb (bool_decide (w = v))
  && is_slot ws && is_slot vs && negb (bool_decide (ws = vs))
  && hex_field fields 4 "windows_sha256="
  && hex_field fields 7 "vm_sha256="
  && hex_field fields 8 "windows_candidate_sha256="
  && hex_field fields 9 "intent_sha256=".

Definition join_prepare_well_formed (text : string) : bool :=
  let fields := lines text in
  let number := u64_field fields in
  (length fields =? 10)%nat
  && bool_decide (fields !! 0%nat = Some "sing-box.existing-active-prepare/v1")
  && bool_decide (fields !! 1%nat = Some ("projection=" +:+ dec_i32 (as_i32 Projection_Windows)))
  && negb (none_or_zero (number 2%nat "source_generation="))
  && bool_decide (number 3%nat "source_slot=" = Some 1)
  && hex_field fields 4 "source_sha256="
  && negb (none_or_zero (number 5%nat "target_generation="))
  && bool_decide (number 6%nat "target_slot=" = Some 2)
  && negb (bool_decide (number 2%nat "source_generation=" = number 5%nat "target_generation="))
  && hex_field fields 7 "target_sha256="
  && hex_field fields 8 "vm_sha256="
  && hex_field fields 9 "begin_sha256=".

Section Receipts.
Context `{MB : Message CredentialDeliveryBundle, MS : Message LocalCredentialState, SH : Sha256}.
Context (st : CredentialStore).

(** ** Reading a receipt *)

(** The common part of the four readers: an absent file is no receipt, a malformed one an
    error *)
Definition read_receipt (name : string) (unreadable : string → string)
    (well_formed : string → bool) (malformed : string) : prog (option string) :=
  r ← invoke (ReadToString (RootDir, name));
  match r with
  | Err err =>
      if not_found err then mret None else pure_step (Err (unreadable (io_text err)))
  | Ok text =>
      pure_step (fail_if (negb (well_formed text)) malformed) ;;
      mret (Some text)
  end.

Definition read_initial_pair_receipt : prog (option string) :=
  read_receipt INITIAL_PAIR_COMMIT_RECEIPT
    (λ err, "initial pair receipt readback failed: " +:+ err)
    (initial_pair_well_formed (store_projection st))
    "initial pair receipt is incomplete or malformed; outcome UNKNOWN".
Definition read_initial_pair_recovery_receipt : prog (option string) :=
  read_receipt INITIAL_PAIR_RECOVERY_RECEIPT
    (λ err, "initial pair recovery receipt unavailable: " +:+ err)
    (initial_recovery_well_formed (store_projection st))
    "initial pair recovery receipt malformed; outcome UNKNOWN".
Definition read_existing_join_receipt : prog (option string) :=
  read_receipt EXISTING_JOIN_RECEIPT
    (λ err, "existing-active join receipt read failed: " +:+ err)
    (existing_join_well_formed (store_projection st))
    "existing-active join receipt malformed; outcome UNKNOWN".
Definition read_windows_existing_join_prepare_receipt : prog (option string) :=
  read_receipt EXISTING_JOIN_PREPARE_RECEIPT
    (λ err, "Windows join prepare receipt unreadable: " +:+ err)
    join_prepare_well_formed
    "Windows join prepare receipt malformed; outcome UNKNOWN".

(** ** Writing a receipt: create it, which fails if there is one, write and sync the
    contents, sync the directory entry *)
Definition write_receipt (name text : string) (opened uncertain : string → string) : prog unit :=
  let receipt : path := (RootDir, name) in
  attempt (CreateNew receipt) opened ;;
  written ← invoke (WriteAll receipt (as_bytes text));
  synced ← match written with
           | Ok _ => invoke (SyncAll receipt)
           | Err err => mret (Err err)
           end;
  pure_step (map_err (λ err, uncertain (io_text err)) synced) ;;
  set_private_file_permissions st receipt ;;
  sync_directory st RootDir.

(** ** The promotions *)

Definition promote_initial_paired_candidate (generation slot : Z) (commit_intent_sha256 : string)
    : prog LocalCredentialState :=
  pure_step (fail_if ((generation =? 0) || negb (slot_a_or_b slot)
                      || negb (valid_first_use_digest commit_intent_sha256))
    "initial pair commit requires exact generation/slot/intent digest") ;;
  current ← read_state st;
  current ← pure_step (ok_or current
    "initial pair commit requires existing validated candidate cursor");
  pure_step (fail_if (is_some (lcs_active current) || is_some (lcs_previous current))
    "initial pair commit refuses pre-existing active/previous credential") ;;
  candidate ← pure_step (ok_or (lcs_candidate current)
    "initial pair commit requires one local candidate");
  pure_step (fail_if (negb (ref_generation candidate =? generation)
                      || negb (ref_slot candidate =? slot))
    "initial pair commit rejects candidate generation/slot mismatch") ;;
  read_bundle st candidate ;;
  recovery ← read_initial_pair_recovery_receipt;
  pure_step (fail_if (is_some recovery)
    "initial pair commit refuses an already attempted recovery; reconcile only") ;;
  write_receipt INITIAL_PAIR_COMMIT_RECEIPT
    (initial_pair_text (store_projection st) generation slot commit_intent_sha256)
    (λ err, "initial pair commit receipt already attempted or uncertain: " +:+ err)
    (λ err, "initial pair receipt write uncertain, do not replay: " +:+ err) ;;
  promote_candidate st.

Definition recover_initial_paired_candidate (generation slot : Z)
    (original_intent_sha256 recovery_intent_sha256 expected_candidate_sha256 : string)
    : prog LocalCredentialState :=
  pure_step (fail_if ((generation =? 0) || negb (slot_a_or_b slot)
                      || negb (valid_first_use_digest original_intent_sha256)
                      || negb (valid_first_use_digest recovery_intent_sha256)
                      || negb (valid_first_use_digest expected_candidate_sha256)
                      || str_eqb original_intent_sha256 recovery_intent_sha256)
    "initial pair recovery requires distinct exact intent digests") ;;
  recovery ← read_initial_pair_recovery_receipt;
  pure_step (fail_if (is_some recovery)
    "initial pair recovery already attempted; reconcile only") ;;
  original ← read_initial_pair_receipt;
  pure_step match original with
            | Some original =>
                fail_if (negb (str_eqb original (initial_pair_text (store_projection st)
                                                   generation slot original_intent_sha256)))
                  "initial pair recovery rejects mismatched original receipt"
            | None => Ok tt
            end ;;
  current ← read_state st;
  current ← pure_step (ok_or current
    "initial pair recovery requires the existing complete local state");
  pure_step (fail_if (is_some (lcs_active current) || is_some (lcs_previous current))
    "initial pair recovery refuses already active/previous state") ;;
  candidate ← pure_step (ok_or (lcs_candidate current)
    "initial pair recovery requires exact candidate");
  pure_step (fail_if (negb (ref_generation candidate =? generation)
                      || negb (ref_slot candidate =? slot)
                      || negb (str_eqb (ref_sha256 candidate) expected_candidate_sha256))
    "initial pair recovery refuses candidate provenance drift") ;;
  read_bundle st candidate ;;
  write_receipt INITIAL_PAIR_RECOVERY_RECEIPT
    (initial_recovery_text (store_projection st) generation slot original_intent_sha256
       recovery_intent_sha256 expected_candidate_sha256)
    (λ err, "initial pair recovery already attempted or uncertain: " +:+ err)
    (λ err, "initial pair recovery receipt write uncertain: " +:+ err) ;;
  promote_candidate st.

Definition promote_existing_active_join (generation slot : Z) (candidate_sha256 : string)
    (source_windows_generation source_windows_slot : Z)
    (source_windows_sha256 windows_candidate_sha256 intent_sha256 : string)
    : prog LocalCredentialState :=
  pure_step (fail_if (bool_decide (store_projection st ≠ Projection_Vm)
                      || (generation =? 0)
                      || (source_windows_generation =? 0)
                      || (generation =? source_windows_generation)
                      || negb (slot_a_or_b slot)
                      || negb (slot_a_or_b source_windows_slot)
                      || (slot =? source_windows_slot)
                      || negb (valid_first_use_digest candidate_sha256)
                      || negb (valid_first_use_digest source_windows_sha256)
                      || negb (valid_first_use_digest windows_candidate_sha256)
                      || negb (valid_first_use_digest intent_sha256)
                      || str_eqb candidate_sha256 source_windows_sha256
                      || str_eqb windows_candidate_sha256 source_windows_sha256
                      || str_eqb windows_candidate_sha256 candidate_sha256)
    "existing-active join requires distinct exact A/B owner and intent witnesses") ;;
  state ← read_state st;
  state ← pure_step (ok_or state "existing-active join requires persisted VM candidate");
  pure_step (fail_if (is_some (lcs_active state) || is_some (lcs_previous state))
    "existing-active join refuses VM ACTIVE/PREVIOUS") ;;
  candidate ← pure_step (ok_or (lcs_candidate state) "existing-active join candidate absent");
  pure_step (fail_if (negb (ref_generation candidate =? generation)
                      || negb (ref_slot candidate =? slot)
                      || negb (str_eqb (ref_sha256 candidate) candidate_sha256))
    "existing-active join candidate differs from intent") ;;
  read_bundle st candidate ;;
  first_use ← read_initial_pair_receipt;
  refused ← (if is_some first_use then mret true
             else recovery ← read_initial_pair_recovery_receipt; mret (is_some recovery));
  pure_step (fail_if refused "existing-active join refuses first-use receipt history") ;;
  attempted ← read_existing_join_receipt;
  pure_step (fail_if (is_some attempted)
    "existing-active join already attempted; no replay") ;;
  write_receipt EXISTING_JOIN_RECEIPT
    (existing_join_text (store_projection st) source_windows_generation source_windows_slot
       source_windows_sha256 generation slot candidate_sha256 windows_candidate_sha256
       intent_sha256)
    (λ err, "existing-active join receipt already exists or UNKNOWN: " +:+ err)
    (λ err, "existing-active join receipt uncertain: " +:+ err +:+ "; no replay") ;;
  promote_candidate st.

Definition prepare_windows_existing_join (source candidate : LocalCredentialBundleRef)
    (vm_sha256 begin_sha256 : string) : prog unit :=
  pure_step (fail_if (bool_decide (store_projection st ≠ Projection_Windows)
                      || negb (valid_first_use_digest vm_sha256)
                      || negb (valid_first_use_digest begin_sha256)
                      || str_eqb (ref_sha256 source) (ref_sha256 candidate)
                      || str_eqb (ref_sha256 source) vm_sha256
                      || str_eqb (ref_sha256 candidate) vm_sha256
                      || negb (ref_slot source =? 1)
                      || negb (ref_slot candidate =? 2)
                      || (ref_generation source =? 0)
                      || (ref_generation source =? ref_generation candidate))
    "Windows join prepare requires distinct exact source A and target B") ;;
  state ← read_state st;
  state ← pure_step (ok_or state "Windows join prepare cursor missing");
  refused ← (if bool_decide (lcs_active state ≠ Some source)
                || bool_decide (lcs_candidate state ≠ Some candidate)
                || is_some (lcs_previous state) then mret true
             else
               joined ← read_existing_join_receipt;
               if is_some joined then mret true
               else prepared ← read_windows_existing_join_prepare_receipt;
                    mret (is_some prepared));
  pure_step (fail_if refused
    "Windows join prepare already attempted or state differs; no replay") ;;
  read_bundle st source ;;
  read_bundle st candidate ;;
  write_receipt EXISTING_JOIN_PREPARE_RECEIPT
    (join_prepare_text (store_projection st) source candidate vm_sha256 begin_sha256)
    (λ err, "Windows join prepare receipt already exists or UNKNOWN: " +:+ err)
    (λ err, "Windows join prepare receipt write UNKNOWN: " +:+ err).

(** A first-use receipt names the active bundle. *)
Definition first_use_matches (receipt : string) (active : LocalCredentialBundleRef) : bool :=
  bool_decide (field (lines receipt) 2 "generation=" = Some (dec (ref_generation active)))
  && bool_decide (field (lines receipt) 3 "slot=" = Some (dec_i32 (ref_slot active))).

Definition promote_windows_existing_join (generation slot : Z)
    (windows_active_sha256 windows_candidate_sha256 vm_candidate_sha256 intent_sha256 : string)
    : prog LocalCredentialState :=
  pure_step (fail_if (bool_decide (store_projection st ≠ Projection_Windows)
                      || (generation =? 0)
                      || negb (slot_a_or_b slot)
                      || negb (valid_first_use_digest windows_active_sha256)
                      || negb (valid_first_use_digest windows_candidate_sha256)
                      || negb (valid_first_use_digest vm_candidate_sha256)
                      || negb (valid_first_use_digest intent_sha256)
                      || str_eqb windows_active_sha256 windows_candidate_sha256
                      || str_eqb windows_active_sha256 vm_candidate_sha256
                      || str_eqb windows_candidate_sha256 vm_candidate_sha256)
    "Windows existing join requires exact distinct A/B and VM witnesses") ;;
  state ← read_state st;
  state ← pure_step (ok_or state "Windows existing join requires ACTIVE and CANDIDATE");
  pure_step (fail_if (is_some (lcs_previous state))
    "Windows existing join refuses PREVIOUS rollback state") ;;
  active ← pure_step (ok_or (lcs_active state) "Windows existing join ACTIVE missing");
  candidate ← pure_step (ok_or (lcs_candidate state) "Windows existing join CANDIDATE missing");
  pure_step (fail_if (negb (ref_generation candidate =? generation)
                      || negb (ref_slot candidate =? slot)
                      || negb (str_eqb (ref_sha256 candidate) windows_candidate_sha256)
                      || (ref_generation active =? generation)
                      || (ref_slot active =? slot)
                      || negb (str_eqb (ref_sha256 active) windows_active_sha256))
    "Windows existing join source or target no longer matches intent") ;;
  read_bundle st active ;;
  read_bundle st candidate ;;
  recovery ← read_initial_pair_recovery_receipt;
  refused ← (if is_some recovery then mret true
             else joined ← read_existing_join_receipt; mret (is_some joined));
  pure_step (fail_if refused
    "Windows existing join recovery or duplicate attempt; no replay") ;;
  first_use ← read_initial_pair_receipt;
  pure_step match first_use with
            | Some first_use =>
                fail_if (negb (first_use_matches first_use active))
                  "Windows first-use receipt does not match existing ACTIVE A"
            | None => Ok tt
            end ;;
  write_receipt EXISTING_JOIN_RECEIPT
    (existing_join_text (store_projection st) (ref_generation active) (ref_slot active)
       windows_active_sha256 generation slot vm_candidate_sha256 windows_candidate_sha256
       intent_sha256)
    (λ err, "Windows existing join receipt already attempted or UNKNOWN: " +:+ err)
    (λ err, "Windows existing join receipt write UNKNOWN; no replay: " +:+ err) ;;
  promote_candidate st.

(** ** Discarding a candidate *)

Definition discard_candidate : prog (option LocalCredentialState) :=
  prepared ← (if bool_decide (store_projection st = Projection_Windows)
              then receipt ← read_windows_existing_join_prepare_receipt; mret (is_some receipt)
              else mret false);
  pure_step (fail_if prepared
    "Windows BEGIN-bound candidate requires authenticated paired ABORT, not discard") ;;
  current ← read_state st;
  match current with
  | None => mret None
  | Some current =>
      if negb (is_some (lcs_candidate current)) then mret (Some current)
      else
        let next := with_candidate current None in
        if negb (is_some (lcs_active next)) && negb (is_some (lcs_previous next)) then
          remove_state_file st ;;
          gc_all_bundles st ;;
          mret None
        else
          pure_step (validate_local_credential_state next) ;;
          write_state st next ;;
          gc_unreferenced_bundles st next ;;
          mret (Some next)
  end.
End Receipts.
