(* ===== verification/CredentialDisk.v ===== *)
(** * The disk under the credential store

    What the file-system calls of [CredentialStore] do, on a disk that keeps apart what a
    process sees from what survives a loss of power: the contents of a file are durable
    after [sync_all], a directory entry after a sync of the directory, and until then each
    entry may come back in any of its versions since the last one. Every call may fail.

    The two directories themselves are taken to survive. *)

From S2P Require Import Prelude HostTypes Service CrashLogic Credentials CredentialStore.

Record file : Set := { file_data : bytes; file_synced : bool }.
#[global] Instance file_eq_dec : EqDecision file.
Proof. solve_decision. Defined.

Record disk : Set := {
  files : gmap path file;
  (* the versions of an entry, since its directory was synced, that are not the current one *)
  older : gmap path (list (option file));
  dirs : gset directory
}.

(** A process changes the entry of [p]. *)
Definition put (d : disk) (p : path) (o : option file) : disk :=
  {| files := partial_alter (λ _, o) p (files d);
     older := <[p := files d !! p :: default [] (older d !! p)]> (older d);
     dirs := dirs d |}.
(** It changes the contents of the file at [p]. *)
Definition set_file (d : disk) (p : path) (f : file) : disk :=
  {| files := if decide (is_Some (files d !! p)) then <[p := f]> (files d) else files d;
     older := older d; dirs := dirs d |}.
Definition settle (d : disk) (dir : directory) : disk :=
  {| files := files d; older := filter (λ e, e.1.1 ≠ dir) (older d); dirs := dirs d |}.
Definition make_dir (d : disk) (dir : directory) : disk :=
  {| files := files d; older := older d; dirs := {[ RootDir; dir ]} ∪ dirs d |}.

(** The versions of [p] a loss of power may bring back *)
Definition held (d : disk) (p : path) : list (option file) :=
  files d !! p :: default [] (older d !! p).

(** What a process sees at [p] *)
Definition seen (d : disk) (p : path) : option bytes := file_data <$> files d !! p.

(** What is left of a version of an entry; contents that were not synced may be anything. *)
Definition survives (version : option file) (o : option bytes) : Prop :=
  match version with
  | None => o = None
  | Some f => ∃ b, o = Some b ∧ (file_synced f = true → b = file_data f)
  end.

Definition power_loss (d d' : disk) : Prop :=
  older d' = ∅ ∧ dirs d' = dirs d ∧
  ∀ p, ∃ version, version ∈ held d p ∧ survives version (seen d' p) ∧
    ∀ f, files d' !! p = Some f → file_synced f = true.

Definition failed {A} (r : result io_error A) : Prop := is_err r = true.

(** [step c d r d']: on the disk [d] the call [c] can answer [r] and leave [d']. *)
Definition step {R} (c : store_call R) (d : disk) : R → disk → Prop :=
  match c in store_call R return R → disk → Prop with
  | DirExists dir => λ r d', d' = d ∧ (r = true → dir ∈ dirs d)
  | DirIsDir dir => λ r d', d' = d ∧ (r = true → dir ∈ dirs d)
  | Exists p => λ r d', d' = d ∧ (r = true → is_Some (files d !! p))
  | IsFile p => λ r d', d' = d ∧ (r = true → is_Some (files d !! p))
  | Read p => λ r d', d' = d ∧
      match r with
      | Ok b => seen d p = Some b
      | Err e => not_found e = true → seen d p = None
      end
  | ReadToString p => λ r d', d' = d ∧
      match r with
      | Ok s => seen d p = Some (as_bytes s)
      | Err e => not_found e = true → seen d p = None
      end
  | CreateDirAll dir => λ r d', d' = d ∧ failed r ∨ d' = make_dir d dir
  | ReadDir dir => λ r d', d' = d ∧
      ∀ items, r = Ok items →
        (∀ e, Ok e ∈ items → is_Some (files d !! (dir, entry_name e))) ∧
        (∀ n, is_Some (files d !! (dir, n)) →
           (∃ e, Ok e ∈ items ∧ entry_name e = n) ∨ ∃ e, Err e ∈ items)
  | RemoveFile p => λ r d',
      d' = put d p None ∧ is_Some (files d !! p) ∧ (∀ e, r = Err e → not_found e = false) ∨
      d' = d ∧ ∃ e, r = Err e ∧ (not_found e = true → files d !! p = None)
  | CreateNew p => λ r d',
      d' = put d p (Some {| file_data := []; file_synced := false |}) ∧ files d !! p = None ∧
        p.1 ∈ dirs d ∨
      d' = d ∧ failed r
  | WriteAll p b => λ r d', ∃ written,
      d' = set_file d p {| file_data := written; file_synced := false |} ∧
      written `prefix_of` b ∧ (is_ok r = true → written = b)
  | SyncAll p => λ r d',
      d' = d ∧ failed r ∨
      ∃ f, files d !! p = Some f ∧
        d' = set_file d p {| file_data := file_data f; file_synced := true |}
  | Rename source target => λ r d',
      d' = d ∧ failed r ∨
      ∃ f, files d !! source = Some f ∧ target.1 ∈ dirs d ∧
        d' = put (put d target (Some f)) source None
  | SetDirPermissions _ | SetFilePermissions _ => λ r d', d' = d
  | SyncDir dir => λ r d', d' = d ∧ failed r ∨ d' = settle d dir
  end.

(** ** Outcomes

    [outcome power d p o]: a process that reads [p] next finds [o]; with [power], also one
    that does so after a loss of power. *)

Definition outcome (power : bool) (d : disk) (p : path) (o : option bytes) : Prop :=
  o = seen d p ∨ power = true ∧ ∃ version, version ∈ held d p ∧ survives version o.

Lemma outcome_seen power d p : outcome power d p (seen d p).
Proof. by left. Qed.
Lemma outcome_power_loss d d' p : power_loss d d' → outcome true d p (seen d' p).
Proof. intros (_ & _ & Hp). destruct (Hp p) as (v & ? & ? & _). right. eauto. Qed.
(** After a loss of power nothing more can be lost. *)
Lemma outcome_settled power d p o :
  older d !! p = None → (∀ f, files d !! p = Some f → file_synced f = true) →
  outcome power d p o → o = seen d p.
Proof.
  intros Ho Hs [->|(_ & v & Hv & Hsv)]; [done|]. unfold held in Hv. rewrite Ho in Hv.
  apply list_elem_of_singleton in Hv as ->. unfold seen. destruct (files d !! p) as [f|] eqn:E; simpl in *.
  - destruct Hsv as (b & -> & Hb). by rewrite (Hb (Hs f eq_refl)).
  - done.
Qed.

(** The outcomes of a path in [d'] are among those in [d]. *)
Definition stays (power : bool) (d d' : disk) (p : path) : Prop :=
  ∀ o, outcome power d' p o → outcome power d p o.

Section Outcomes.
Context (power : bool).
#[local] Abbreviation outcome := (outcome power).
#[local] Abbreviation stays := (stays power).

Lemma stays_refl d p : stays d d p.
Proof. by intros o. Qed.
Lemma stays_trans d1 d2 d3 p : stays d1 d2 p → stays d2 d3 p → stays d1 d3 p.
Proof. intros H1 H2 o Ho. by apply H1, H2. Qed.

Lemma put_same d p o : files (put d p o) !! p = o.
Proof. simpl. by rewrite lookup_partial_alter, decide_True. Qed.
Lemma put_other d p o q : p ≠ q → files (put d p o) !! q = files d !! q.
Proof. intros. simpl. by rewrite lookup_partial_alter_ne. Qed.
Lemma held_put d p o : held (put d p o) p = o :: held d p.
Proof. unfold held. rewrite put_same. simpl. by rewrite lookup_insert, decide_True. Qed.
Lemma held_put_other d p o q : p ≠ q → held (put d p o) q = held d q.
Proof.
  intros Hne. unfold held. rewrite put_other by done. simpl.
  by rewrite lookup_insert_ne by done.
Qed.

Lemma stays_put_other d p o q : p ≠ q → stays d (put d p o) q.
Proof.
  intros Hne x. unfold outcome, seen. rewrite put_other, held_put_other by done. done.
Qed.
Lemma outcome_put d p version x :
  outcome (put d p version) p x →
  survives version x ∨ x = file_data <$> version ∨ outcome d p x.
Proof.
  unfold outcome, seen. rewrite put_same, held_put. intros [->|(Hp & v & Hv & Hx)]; [auto|].
  apply elem_of_cons in Hv as [->|Hv]; [auto|]. right. right. right. eauto.
Qed.
Lemma stays_set_file d p f q : p ≠ q → stays d (set_file d p f) q.
Proof.
  intros Hne x. unfold outcome, seen, held. simpl. case_decide; [|done].
  by rewrite lookup_insert_ne by done.
Qed.
Lemma stays_settle d dir q : stays d (settle d dir) q.
Proof.
  intros x [->|(Hp & v & Hv & Hx)]; [by left|]. right. split; [done|]. exists v. split; [|done].
  unfold held in *. simpl in Hv. apply elem_of_cons in Hv as [->|Hv]; [by left|]. right.
  destruct (filter _ (older d) !! q) as [l|] eqn:E; [|by apply elem_of_nil in Hv].
  apply map_lookup_filter_Some in E as [E _]. by rewrite E.
Qed.
Lemma stays_make_dir d dir q : stays d (make_dir d dir) q.
Proof. by intros x. Qed.

(** Once its directory is synced, a synced file is what it is. *)
Lemma outcome_settle d p x f :
  files d !! p = Some f → file_synced f = true →
  outcome (settle d p.1) p x → x = Some (file_data f).
Proof.
  intros Hf Hs [->|(_ & v & Hv & Hx)]; [unfold seen; simpl; by rewrite Hf|].
  unfold held in Hv. simpl in Hv. rewrite Hf in Hv.
  replace (filter _ (older d) !! p) with (@None (list (option file))) in Hv.
  - apply list_elem_of_singleton in Hv as ->. destruct Hx as (b & -> & Hb). by rewrite Hb.
  - symmetry. apply map_lookup_filter_None. right. intros l _. simpl. naive_solver.
Qed.
Lemma outcome_settle_absent d p x :
  files d !! p = None → outcome (settle d p.1) p x → x = None.
Proof.
  intros Hf [->|(_ & v & Hv & Hx)]; [unfold seen; simpl; by rewrite Hf|].
  unfold held in Hv. simpl in Hv. rewrite Hf in Hv.
  replace (filter _ (older d) !! p) with (@None (list (option file))) in Hv.
  - apply list_elem_of_singleton in Hv as ->. done.
  - symmetry. apply map_lookup_filter_None. right. intros l _. simpl. naive_solver.
Qed.
Lemma outcome_settle_present d p x f :
  files d !! p = Some f → outcome (settle d p.1) p x → ∃ b, x = Some b.
Proof.
  intros Hf [->|(_ & v & Hv & Hx)]; [unfold seen; simpl; rewrite Hf; by eexists|].
  unfold held in Hv. simpl in Hv. rewrite Hf in Hv.
  replace (filter _ (older d) !! p) with (@None (list (option file))) in Hv.
  - apply list_elem_of_singleton in Hv as ->. destruct Hx as (b & -> & _). by exists b.
  - symmetry. apply map_lookup_filter_None. right. intros l _. simpl. naive_solver.
Qed.
End Outcomes.
