(* ===== verification/CredentialStoreFacts.v ===== *)
(** * The credential store keeps a readable state

    Every method of the store, stopped at any point, by a crash of the process or by a loss
    of power, leaves a state that can be read, with the bundles it references: the old state
    or the one the method moves to. *)

From S2P Require Import Prelude RustStd HostTypes Service CrashLogic Credentials.
From S2P Require Import CredentialStore CredentialDisk.

Abbreviation always := (CrashLogic.always (@step)).
Abbreviation during := (CrashLogic.during (@step)).
Abbreviation returns := (CrashLogic.returns (@step)).

(** ** Calls *)

Lemma always_attempt {A B} (I : disk → Prop) (c : store_call (result io_error A)) msg
    (f : A → prog B) Q d :
  I d → (∀ e d', step c d (Err e) d' → I d') →
  (∀ a d', step c d (Ok a) d' → always I (f a) (ends Q I) d') →
  always I (attempt c msg ≫= f) (ends Q I) d.
Proof.
  intros HI He Hf. apply always_bind. apply always_call; [done|].
  intros [a|e] d' Hs; apply always_return.
  - eapply always_here, Hf, Hs.
  - by apply Hf.
  - by apply (He e).
  - by apply (He e).
Qed.
Lemma always_attempt_last {A} (I : disk → Prop) (c : store_call (result io_error A)) msg
    (Q : A → disk → Prop) d :
  I d → (∀ e d', step c d (Err e) d' → I d') →
  (∀ a d', step c d (Ok a) d' → I d' ∧ Q a d') →
  always I (attempt c msg) (ends Q I) d.
Proof.
  intros HI He Hf. apply always_call; [done|].
  intros [a|e] d' Hs; apply always_return; by (apply (Hf a) || apply (He e)).
Qed.

(** A program that leaves the disk alone, and [Q] of its result *)
Definition reads {A} (d : disk) (p : prog A) (Q : A → Prop) : Prop :=
  always (λ d', d' = d) p (ends (λ a d', d' = d ∧ Q a) (λ d', d' = d)) d.

Lemma reads_bind {A B} d (p : prog A) (f : A → prog B) P Q :
  reads d p P → (∀ a, P a → reads d (f a) Q) → reads d (p ≫= f) Q.
Proof.
  intros Hp Hf. apply always_bind. eapply always_post; [|exact Hp].
  intros [a|e] d' Ha; [|done]. destruct Ha as [-> Ha]. by apply Hf.
Qed.
Lemma reads_pure {A} d (r : res A) (Q : A → Prop) :
  (∀ a, r = Ok a → Q a) → reads d (pure_step r) Q.
Proof. intros Hr. apply always_return; [done|]. destruct r; simpl; auto. Qed.
Lemma reads_ret {A} d (a : A) (Q : A → Prop) : Q a → reads d (mret a) Q.
Proof. intros Ha. by apply always_return. Qed.
Lemma reads_call {R B} d (c : store_call R) (f : R → prog B) Q :
  (∀ r d', step c d r d' → d' = d) → (∀ r, step c d r d → reads d (f r) Q) →
  reads d (invoke c ≫= f) Q.
Proof.
  intros Hc Hf. apply always_call; [done|]. intros r d' Hs.
  pose proof (Hc r d' Hs) as ->. by apply Hf.
Qed.
Lemma reads_attempt {A} d (c : store_call (result io_error A)) msg Q :
  (∀ r d', step c d r d' → d' = d) → (∀ a, step c d (Ok a) d → Q a) →
  reads d (attempt c msg) Q.
Proof.
  intros Hc Hf. apply always_attempt_last; [done|by intros e d' ?%Hc|].
  intros a d' Hs. pose proof (Hc _ d' Hs) as ->. auto.
Qed.
Lemma reads_mono {A} d (p : prog A) (P Q : A → Prop) :
  (∀ a, P a → Q a) → reads d p P → reads d p Q.
Proof. intros HPQ. apply always_post. intros [a|e] d'; simpl; naive_solver. Qed.
Lemma reads_for_calls {A} d (f : A → prog unit) (P : A → Prop) xs :
  (∀ x, reads d (f x) (λ _, P x)) → reads d (for_calls f xs) (λ _, Forall P xs).
Proof.
  intros Hf. induction xs as [|x xs IH]; [by apply reads_ret|]. simpl.
  eapply reads_bind; [apply Hf|]. intros [] Hx. eapply reads_mono; [|exact IH]. auto.
Qed.

Lemma always_reads {A B} (I : disk → Prop) (p : prog A) (f : A → prog B) P Q d :
  reads d p P → I d → (∀ a, P a → always I (f a) (ends Q I) d) →
  always I (p ≫= f) (ends Q I) d.
Proof.
  intros Hp HI Hf. apply always_bind. eapply always_mono; [| |exact Hp].
  - by intros d' ->.
  - intros [a|e] d' -> HQ; [|done]. destruct HQ as [_ Ha]. by apply Hf.
Qed.
Lemma always_check {A B} (I : disk → Prop) (r : res A) (f : A → prog B) Q d :
  I d → (∀ a, r = Ok a → always I (f a) (ends Q I) d) →
  always I (pure_step r ≫= f) (ends Q I) d.
Proof. intros HI Hf. by apply always_pure. Qed.

(** ** Reading *)

Section Facts.
Context `{MB : Message CredentialDeliveryBundle, MS : Message LocalCredentialState, SH : Sha256}.
Context (st : CredentialStore).

(** The file holds the bundle [reference] names. *)
Definition bundle_ok (reference : LocalCredentialBundleRef) (o : option bytes) : Prop :=
  ∃ b bundle, o = Some b ∧ decode_credential_delivery_bundle b = Ok bundle ∧
    verify_local_credential_bundle_reference (store_projection st) reference bundle = Ok tt.
(** The state file holds [s]. *)
Definition state_ok (o : option bytes) (s : option LocalCredentialState) : Prop :=
  match s with
  | None => o = None
  | Some s => ∃ b, o = Some b ∧ decode_local_credential_state b = Ok s ∧
      require_state_projection st s = Ok tt ∧
      Forall (λ r, in_u64 (ref_generation r)) (state_references s)
  end.

Lemma state_ok_unique o s s' : state_ok o s → state_ok o s' → s = s'.
Proof.
  destruct s, s'; simpl.
  - intros (b & -> & Hd & _) (b' & [= <-] & Hd' & _). congruence.
  - by intros (b & -> & _).
  - by intros -> (b & ? & _).
  - done.
Qed.

Lemma read_bundle_reads d r :
  reads d (read_bundle st r) (λ bundle, bundle_ok r (seen d (bundle_path r)) ∧
    ∃ b, seen d (bundle_path r) = Some b ∧ decode_credential_delivery_bundle b = Ok bundle ∧
      verify_local_credential_bundle_reference (store_projection st) r bundle = Ok tt).
Proof.
  unfold read_bundle.
  eapply (reads_bind _ _ _ (λ b, seen d (bundle_path r) = Some b)).
  { apply reads_attempt; simpl; naive_solver. }
  intros b Hb. eapply (reads_bind _ _ _ (λ x, decode_credential_delivery_bundle b = Ok x)).
  { by apply reads_pure. }
  intros bundle Hd. eapply (reads_bind _ _ _ (λ _, verify_local_credential_bundle_reference
    (store_projection st) r bundle = Ok tt)).
  { apply reads_pure. by intros []. }
  intros _ Hv. apply reads_ret. split; [|by exists b]. exists b, bundle. done.
Qed.
Lemma verify_references_reads d s :
  reads d (verify_state_references st s)
    (λ _, Forall (λ r, bundle_ok r (seen d (bundle_path r))) (state_references s)).
Proof.
  apply reads_for_calls. intros r. eapply reads_bind; [apply read_bundle_reads|].
  intros bundle [? _]. by apply reads_ret.
Qed.
Lemma read_state_reads d :
  reads d (read_state st) (λ s,
    match s with
    | None => seen d state_path = None
    | Some s => ∃ b, seen d state_path = Some b ∧ decode_local_credential_state b = Ok s ∧
        require_state_projection st s = Ok tt ∧
        Forall (λ r, bundle_ok r (seen d (bundle_path r))) (state_references s)
    end).
Proof.
  unfold read_state. apply reads_call; [by intros r d' [? _]|]. intros [b|e] [_ Hr].
  - eapply (reads_bind _ _ _ (λ s, decode_local_credential_state b = Ok s)); [by apply reads_pure|].
    intros s Hs. eapply (reads_bind _ _ _ (λ _, require_state_projection st s = Ok tt)).
    { apply reads_pure. by intros []. }
    intros _ Hp. eapply reads_bind; [apply verify_references_reads|].
    intros u Hv. apply reads_ret. eauto.
  - destruct (not_found e) eqn:E; [apply reads_ret; by apply Hr|by apply reads_pure].
Qed.

(** ** Consistency *)

Section Consistency.
Context (power : bool).

(** Whatever a later process finds, it finds one of the states [S], with its bundles. *)
Record consistent (S : option LocalCredentialState → Prop) (d : disk) : Prop := {
  con_state o : outcome power d state_path o → ∃ s, S s ∧ state_ok o s;
  con_bundles s r o : S (Some s) → r ∈ state_references s →
    outcome power d (bundle_path r) o → bundle_ok r o
}.

Lemma consistent_mono (S S' : option LocalCredentialState → Prop) d :
  (∀ o, outcome power d state_path o → ∀ s, S s → state_ok o s → S' s) →
  (∀ s, S' s → S s ∨ ∀ s' r o, s = Some s' → r ∈ state_references s' →
     outcome power d (bundle_path r) o → bundle_ok r o) →
  consistent S d → consistent S' d.
Proof.
  intros H1 H2 [Hs Hb]. split.
  - intros o Ho. destruct (Hs o Ho) as (s & ? & ?). eauto.
  - intros s r o Hs' Hr Ho. destruct (H2 _ Hs') as [?|?]; eauto.
Qed.
Lemma consistent_stays S d d' :
  stays power d d' state_path →
  (∀ s r, S (Some s) → r ∈ state_references s → stays power d d' (bundle_path r)) →
  consistent S d → consistent S d'.
Proof. intros Hs Hb [Cs Cb]. split; naive_solver. Qed.

(** The state a process reads *)
Lemma consistent_seen S d : consistent S d → ∃ s, S s ∧ state_ok (seen d state_path) s.
Proof. intros [Hs _]. apply Hs, outcome_seen. Qed.
Lemma consistent_read S d s :
  consistent S d → state_ok (seen d state_path) s → S s.
Proof.
  intros (s' & HS & Hs')%consistent_seen Hs. by rewrite (state_ok_unique _ _ _ Hs Hs').
Qed.

(** ** Paths *)

Lemma ascii_chars_app (a b : string) : String.list_ascii_of_string (a +:+ b) =
  String.list_ascii_of_string a ++ String.list_ascii_of_string b.
Proof using Type. induction a as [|c a IH]; [done|]. simpl. by f_equal. Qed.
Lemma new_not_pb (a b : string) : a +:+ ".new" ≠ b +:+ ".pb".
Proof using Type.
  intros E%(f_equal (λ s, rev (String.list_ascii_of_string s))).
  rewrite !ascii_chars_app, !rev_app_distr in E. done.
Qed.
Lemma temporary_not_state p : temporary_path p ≠ state_path.
Proof using Type. intros [= _ E]. by apply (new_not_pb p.2 "state"). Qed.
Lemma temporary_not_bundle p r : temporary_path p ≠ bundle_path r.
Proof using Type. intros [= _ E]. by apply new_not_pb in E. Qed.
Lemma temporary_not_self p : temporary_path p ≠ p.
Proof using Type.
  destruct p as [dir n]. intros [= E]. apply (f_equal String.length) in E.
  rewrite length_app_str in E. simpl in E. lia.
Qed.
Lemma bundle_not_state r : bundle_path r ≠ state_path.
Proof using Type. done. Qed.
Lemma bundle_path_inj r r' : bundle_path r = bundle_path r' → ref_sha256 r = ref_sha256 r'.
Proof using Type.
  intros [= E]. apply (f_equal String.list_ascii_of_string) in E. rewrite !ascii_chars_app in E.
  apply app_inv_tail in E. rewrite <- (String.string_of_list_ascii_of_string (ref_sha256 r)), E.
  apply String.string_of_list_ascii_of_string.
Qed.

(** ** Writing a private file *)

(** Before the rename: only the temporary file has changed. *)
Definition staging (p : path) (d0 d : disk) : Prop :=
  ∀ q, q ≠ temporary_path p → stays power d0 d q.
(** Afterwards [p] may hold [b] instead of what it held. *)
Definition touched (p : path) (b : bytes) (d0 d : disk) : Prop :=
  (∀ q, q ≠ p → q ≠ temporary_path p → stays power d0 d q) ∧
  ∀ o, outcome power d p o → o = Some b ∨ outcome power d0 p o.

Lemma staging_touched p b d0 d : staging p d0 d → touched p b d0 d.
Proof using Type.
  intros Hs. split; [intros q _ Hq; by apply Hs|]. intros o Ho. right. eapply Hs, Ho.
  intros E. by apply (temporary_not_self p).
Qed.
Lemma staging_trans p d0 d1 d2 : staging p d0 d1 → staging p d1 d2 → staging p d0 d2.
Proof using Type. intros H1 H2 q Hq. eapply stays_trans; [by apply H1|by apply H2]. Qed.
Lemma staging_put p o d : staging p d (put d (temporary_path p) o).
Proof using Type. intros q Hq. by apply stays_put_other. Qed.
Lemma staging_set_file p f d : staging p d (set_file d (temporary_path p) f).
Proof using Type. intros q Hq. by apply stays_set_file. Qed.

Lemma set_file_lookup d p f f' :
  files d !! p = Some f → files (set_file d p f') !! p = Some f'.
Proof using Type.
  intros Hf. simpl. rewrite decide_True by (by rewrite Hf). by rewrite lookup_insert, decide_True.
Qed.

(** The outcomes of [p] once the file is in place *)
Definition placed (p : path) (b : bytes) (d0 : disk) (_ : unit) (d : disk) : Prop :=
  touched p b d0 d ∧ ∀ o, outcome power d p o → o = Some b.

(** The last two calls: rename the synced temporary file, sync the directory *)
Lemma replace_spec p b d0 d :
  staging p d0 d →
  files d !! temporary_path p = Some {| file_data := b; file_synced := true |} →
  always (touched p b d0) (atomic_replace st (temporary_path p) p ;; sync_directory st p.1)
    (ends (placed p b d0) (touched p b d0)) d.
Proof using Type.
  intros Hd Hf. pose proof (temporary_not_self p) as Hne.
  set (f := {| file_data := b; file_synced := true |}) in *.
  set (d1 := put (put d p (Some f)) (temporary_path p) None).
  assert (touched p b d0 d1) as Ht.
  { split.
    - intros q Hq Hq'. apply (stays_trans _ d0 d); [by apply Hd|].
      apply (stays_trans _ d (put d p (Some f))); by apply stays_put_other.
    - intros o Ho. apply stays_put_other in Ho; [|done].
      apply outcome_put in Ho as [(x & -> & Hx)|[->|Ho]]; [left; by rewrite Hx|by left|right].
      by eapply Hd; [|exact Ho]. }
  apply always_attempt; [by apply staging_touched| |].
  - intros e d' [[-> _]|(g & Hg & _ & ->)]; [by apply staging_touched|].
    rewrite Hf in Hg. injection Hg as <-. exact Ht.
  - intros [] d' [[-> Hx]|(g & Hg & _ & ->)]; [done|]. rewrite Hf in Hg. injection Hg as <-.
    fold d1. apply always_attempt_last; [done| |].
    + intros e d' [[-> _]| ->]; [done|]. split.
      * intros q Hq Hq'. eapply stays_trans; [by apply Ht|apply stays_settle].
      * intros o Ho%stays_settle. by apply Ht.
    + intros [] d' [[-> Hx]| ->]; [done|].
      assert (∀ o, outcome power (settle d1 p.1) p o → o = Some b) as Hout.
      { intros o. apply (outcome_settle _ d1 p o f); [|done].
        unfold d1. rewrite put_other by done. apply put_same. }
      split; [split|split; [split|]]; try done.
      1,3: intros q Hq Hq'; eapply stays_trans; [by apply Ht|apply stays_settle].
      all: intros o Ho; left; by apply Hout.
Qed.

Lemma write_and_replace_spec p b d0 d :
  staging p d0 d →
  always (touched p b d0) (write_and_replace st p b) (ends (placed p b d0) (touched p b d0)) d.
Proof using Type.
  intros Hd. set (t := temporary_path p).
  apply always_attempt; [by apply staging_touched|..].
  { intros e d' [(-> & _)|[-> _]]; apply staging_touched; [|done].
    eapply staging_trans; [done|apply staging_put]. }
  intros [] d1 [(-> & _)|[_ Hx]]; [|done].
  pose proof (put_same d t (Some {| file_data := []; file_synced := false |})) as Hf.
  assert (staging p d0 (put d t (Some {| file_data := []; file_synced := false |}))) as H1
    by (eapply staging_trans; [done|apply staging_put]).
  set (d1 := put _ _ _) in *. clearbody d1.
  apply always_attempt; [by apply staging_touched|..].
  { intros e d' (w & -> & _). apply staging_touched.
    eapply staging_trans; [done|apply staging_set_file]. }
  intros [] d2 (w & -> & _ & Hw). rewrite (Hw eq_refl). clear Hw.
  apply (set_file_lookup _ _ _ {| file_data := b; file_synced := false |}) in Hf.
  assert (staging p d0 (set_file d1 t {| file_data := b; file_synced := false |})) as H2
    by (eapply staging_trans; [done|apply staging_set_file]).
  set (d2 := set_file _ _ _) in *. clearbody d2.
  apply always_attempt; [by apply staging_touched|..].
  { intros e d' [[-> _]|(g & _ & ->)]; apply staging_touched; [done|].
    eapply staging_trans; [done|apply staging_set_file]. }
  intros [] d3 [[_ Hx]|(g & Hg & ->)]; [done|]. unfold t in *. rewrite Hf in Hg.
  injection Hg as <-.
  apply (set_file_lookup _ _ _ {| file_data := b; file_synced := true |}) in Hf.
  assert (staging p d0 (set_file d2 (temporary_path p) {| file_data := b; file_synced := true |}))
    as H3 by (eapply staging_trans; [done|apply staging_set_file]).
  apply always_attempt; [by apply staging_touched|by intros e d' ->; apply staging_touched|].
  intros [] ? ->. by apply replace_spec.
Qed.

Lemma write_atomic_spec p b d0 :
  always (touched p b d0) (write_atomic_private st p b) (ends (placed p b d0) (touched p b d0)) d0.
Proof using Type.
  assert (staging p d0 d0) as H0 by (intros q _; apply stays_refl).
  apply always_attempt; [by apply staging_touched|..].
  { intros e d' [[-> _]| ->]; by apply staging_touched. }
  intros [] d1 H1. assert (staging p d0 d1) as H1' by (by destruct H1 as [[-> _]| ->]).
  apply always_attempt; [by apply staging_touched|by intros e d' ->; apply staging_touched|].
  intros [] ? ->. apply always_bind, always_call; [by apply staging_touched|]. intros r d2 H2.
  assert (staging p d0 d2) as H2'.
  { destruct H2 as [(-> & _ & _)|[-> _]]; [|done]. eapply staging_trans; [done|apply staging_put]. }
  destruct r as [[]|e].
  - apply always_return; [by apply staging_touched|]. by apply write_and_replace_spec.
  - destruct (not_found e); (apply always_return; [by apply staging_touched|]).
    + by apply write_and_replace_spec.
    + by apply staging_touched.
Qed.

(** ** The state file *)

(** The states prost can represent: generations are [u64]. *)
Definition storable (s : LocalCredentialState) : Prop :=
  valid_state s ∧ Forall (λ r, in_u64 (ref_generation r)) (state_references s).
Context {ML : MessageLaws LocalCredentialState storable}.

(** The disk is consistent with some of the states [S]. *)
Definition keeps (S : option LocalCredentialState → Prop) (d : disk) : Prop :=
  ∃ T, (∀ s, T s → S s) ∧ consistent T d.
Lemma consistent_keeps S d : consistent S d → keeps S d.
Proof using Type. intros Hc. by exists S. Qed.
Lemma keeps_mono (S S' : option LocalCredentialState → Prop) d :
  (∀ s, S s → S' s) → keeps S d → keeps S' d.
Proof using Type. intros Hs (T & HT & Hc). exists T. auto. Qed.

Lemma encoded_state_ok s b :
  require_state_projection st s = Ok tt → Forall (λ r, in_u64 (ref_generation r)) (state_references s) →
  encode_local_credential_state s = Ok b → state_ok (Some b) (Some s).
Proof using ML.
  intros Hp Hr ([] & Hv & [= <-])%bind_Ok. exists (encode_to_vec s). split_and!; [done| |done..].
  unfold decode_local_credential_state.
  rewrite decode_encode by (split; [by apply local_state_valid|done]).
  cbn [ok_or mbind result_bind]. rewrite Hv, (proj2 (bytes_eqb_true _ _) eq_refl). done.
Qed.

(** A verified set of references: what was read is what any later process finds. *)
Definition backed (next : LocalCredentialState) (d : disk) : Prop :=
  ∀ r o, r ∈ state_references next → outcome power d (bundle_path r) o →
    bundle_ok r o ∨ o = seen d (bundle_path r).

Lemma touched_state_consistent (S : option LocalCredentialState → Prop) next b d0 d :
  consistent S d0 → state_ok (Some b) (Some next) →
  (∀ r o, r ∈ state_references next → outcome power d0 (bundle_path r) o → bundle_ok r o) →
  touched state_path b d0 d → consistent (λ s, S s ∨ s = Some next) d.
Proof using Type.
  intros [Hs Hb] Hn Hr [Hq Ho].
  assert (∀ r, stays power d0 d (bundle_path r)) as Hstay.
  { intros r. apply Hq; [apply bundle_not_state|]. intros E. by apply (temporary_not_bundle state_path r). }
  split.
  - intros o [->|(s & ? & ?)%Hs]%Ho; eauto.
  - intros s r o [HS|[= ->]] Hin Hout%Hstay; eauto.
Qed.

Lemma write_state_spec S next d0 :
  consistent S d0 → backed next d0 →
  Forall (λ r, in_u64 (ref_generation r)) (state_references next) →
  always (keeps (λ s, S s ∨ s = Some next)) (write_state st next)
    (ends (λ _ d, consistent (λ s, s = Some next) d) (keeps (λ s, S s ∨ s = Some next))) d0.
Proof using ML.
  intros Hc Hback Hrange. set (I := keeps _).
  assert (I d0) as HI by (exists S; auto).
  apply always_check; [done|]. intros [] Hp. apply always_check; [done|]. intros [] Hv.
  eapply always_reads; [apply verify_references_reads|done|]. intros u Href.
  apply always_check; [done|]. intros b Hb. pose proof (encoded_state_ok next b Hp Hrange Hb) as Hok.
  pose proof (proj1 (list.Forall_forall _ _) Href) as Href'.
  assert (∀ r o, r ∈ state_references next → outcome power d0 (bundle_path r) o → bundle_ok r o)
    as Hall by (intros r o Hr [?| ->]%Hback; auto).
  assert (∀ d, touched state_path b d0 d → consistent (λ s, S s ∨ s = Some next) d) as Htouch
    by (intros d; by apply touched_state_consistent).
  apply always_bind. eapply always_mono; [| |apply (write_atomic_spec state_path b d0)].
  { intros d Hd%Htouch. by apply consistent_keeps. }
  intros [[]|e] d Ht HQ; [|by apply consistent_keeps, Htouch]. destruct HQ as [_ Hout].
  pose proof (Htouch d Ht) as Hd.
  assert (consistent (λ s, s = Some next) d) as Hn.
  { split; [intros o ->%Hout; by exists (Some next)|]. intros s r o [= ->] Hr Ho.
    apply (con_bundles _ _ Hd next r o); auto. }
  assert (I d) as HI' by (exists (λ s, s = Some next); auto).
  apply always_attempt; [done|by intros e d' [-> _]|]. intros observed d' [-> _].
  apply always_return; [done|]. by destruct (negb _).
Qed.

(** ** Collecting garbage *)

Lemma always_for_calls {A} (I J : disk → Prop) (f : A → prog unit) xs d :
  (∀ d, J d → I d) → (∀ x d, J d → always I (f x) (ends (λ _, J) I) d) → J d →
  always I (for_calls f xs) (ends (λ _, J) I) d.
Proof using Type.
  intros HJ Hf. revert d. induction xs as [|x xs IH]; intros d Hd.
  - apply always_return; [by apply HJ|done].
  - apply always_bind. eapply always_post; [|by apply Hf]. intros [[]|e] d'; [apply IH|done].
Qed.
Lemma strip_pb_path n digest : strip_suffix ".pb" n = Some digest → n = digest +:+ ".pb".
Proof using Type. apply strip_suffix_Some. Qed.

Lemma remove_bundle_consistent S d n :
  (∀ s r, S (Some s) → r ∈ state_references s → bundle_path r ≠ (BundlesDir, n)) →
  consistent S d → consistent S (put d (BundlesDir, n) None).
Proof using Type.
  intros Hn. apply consistent_stays; [by apply stays_put_other|].
  intros s r Hs Hr. apply stays_put_other. by eapply not_eq_sym, Hn.
Qed.
Lemma settle_consistent S d dir : consistent S d → consistent S (settle d dir).
Proof using Type. apply consistent_stays; intros; apply stays_settle. Qed.

Lemma remove_entry_spec S n msg d :
  (∀ s r, S (Some s) → r ∈ state_references s → bundle_path r ≠ (BundlesDir, n)) →
  consistent S d →
  always (consistent S) (attempt (RemoveFile (BundlesDir, n)) msg)
    (ends (λ _, consistent S) (consistent S)) d.
Proof using Type.
  intros Hn Hd. apply always_attempt_last; [done|..].
  - intros e d' [(-> & _)|[-> _]]; [by apply remove_bundle_consistent|done].
  - intros [] d' [(-> & _)|[-> (? & ? & _)]]; [|done]. by split; apply remove_bundle_consistent.
Qed.
Lemma sync_spec S dir d :
  consistent S d →
  always (consistent S) (sync_directory st dir) (ends (λ _, consistent S) (consistent S)) d.
Proof using Type.
  intros Hd. apply always_attempt_last; [done|..].
  - intros e d' [[-> _]| ->]; [done|by apply settle_consistent].
  - intros [] d' [[-> _]| ->]; [done|]. by split; apply settle_consistent.
Qed.

(** The collection keeps the bundles of the state. *)
Lemma gc_unreferenced_spec next d :
  consistent (λ s, s = Some next) d →
  always (consistent (λ s, s = Some next)) (gc_unreferenced_bundles st next)
    (ends (λ _, consistent (λ s, s = Some next)) (consistent (λ s, s = Some next))) d.
Proof using Type.
  intros Hd. apply always_attempt; [done|by intros e d' [-> _]|]. intros entries d' [-> _].
  apply always_bind. eapply always_post; [|apply (always_for_calls _ (consistent (λ s, s = Some next)))].
  - intros [[]|e] d'; [apply sync_spec|done].
  - done.
  - intros entry d1 H1. apply always_check; [done|]. intros e _.
    apply always_call; [done|]. intros is_file d2 [-> _]. destruct is_file; [|by apply always_return].
    apply always_check; [done|]. intros [] _.
    destruct (strip_suffix ".pb" (entry_name e)) as [digest|] eqn:Es; [|by apply always_return].
    apply strip_pb_path in Es. destruct (mem digest _) eqn:Em; [by apply always_return|].
    apply mem_false in Em. apply remove_entry_spec; [|done].
    intros s r [= ->] Hr. rewrite Es. intros E%(bundle_path_inj r (Build_LocalCredentialBundleRef 0 0 digest)).
    cbn [ref_sha256] in E. subst digest. apply Em. by apply list_elem_of_fmap_2.
  - done.
Qed.
Lemma gc_all_spec d :
  consistent (λ s, s = None) d →
  always (consistent (λ s, s = None)) (gc_all_bundles st)
    (ends (λ _, consistent (λ s, s = None)) (consistent (λ s, s = None))) d.
Proof using Type.
  intros Hd. apply always_call; [done|]. intros ex d' [-> _].
  destruct ex; [|by apply always_return].
  apply always_attempt; [done|by intros e d' [-> _]|]. intros entries d' [-> _].
  apply always_bind. eapply always_post; [|apply (always_for_calls _ (consistent (λ s, s = None)))].
  - intros [[]|e] d'; [apply sync_spec|done].
  - done.
  - intros entry d1 H1. apply always_check; [done|]. intros e _.
    apply always_call; [done|]. intros is_file d2 [-> _]. destruct is_file; [|by apply always_return].
    by apply remove_entry_spec.
  - done.
Qed.

(** Write the next state, then collect. *)
Lemma commit_spec {A} S next (a : A) d0 :
  consistent S d0 → backed next d0 →
  Forall (λ r, in_u64 (ref_generation r)) (state_references next) →
  always (keeps (λ s, S s ∨ s = Some next))
    (write_state st next ;; gc_unreferenced_bundles st next ;; mret a)
    (ends (λ x d, x = a ∧ consistent (λ s, s = Some next) d)
       (keeps (λ s, S s ∨ s = Some next))) d0.
Proof using ML.
  intros Hc Hb Hr. assert (∀ d, consistent (λ s, s = Some next) d →
    keeps (λ s, S s ∨ s = Some next) d) as Hk by (intros d Hd; exists (λ s, s = Some next); auto).
  apply always_bind. eapply always_post; [|by apply write_state_spec].
  intros [[]|e] d Hd; [|done]. apply always_bind.
  eapply always_mono; [exact Hk| |by apply gc_unreferenced_spec].
  intros [[]|e] d' HI HQ; [|by apply Hk]. apply always_return; [by apply Hk|done].
Qed.
End Consistency.
End Facts.
