(* ===== verification/CredentialStoreSafety.v ===== *)
(** * The credential store refines its state machine

    [transition] is the abstract machine of the store: what staging, promotion, rollback,
    discard and drop do to the state. Every method, stopped at any point and after any
    failure of a call, has left the old state or the one [transition] gives, on a disk
    whose bundles are durable. *)

From S2P Require Import Prelude RustStd HostTypes Service CrashLogic Credentials.
From S2P Require Import CredentialStore CredentialReceipts CredentialDisk CredentialStoreFacts.

(** ** The abstract machine *)

Inductive cred_op : Set :=
| OpStage (candidate : LocalCredentialBundleRef)
| OpPromote
| OpRollback
| OpDiscard
| OpDropPrevious.

Definition promoted (st : CredentialStore) (s : LocalCredentialState)
    (candidate : LocalCredentialBundleRef) : LocalCredentialState :=
  {| lcs_schema_version := 1; lcs_projection := as_i32 (store_projection st);
     lcs_active := Some candidate; lcs_candidate := None; lcs_previous := lcs_active s |}.
Definition rolled_back (st : CredentialStore) (active previous : LocalCredentialBundleRef)
    : LocalCredentialState :=
  {| lcs_schema_version := 1; lcs_projection := as_i32 (store_projection st);
     lcs_active := Some previous; lcs_candidate := None; lcs_previous := Some active |}.

(** The state after [op], [None] where it is refused; an absent state is [None] inside. *)
Definition transition (st : CredentialStore) (op : cred_op) (s : option LocalCredentialState)
    : option (option LocalCredentialState) :=
  match op, s with
  | OpStage c, _ =>
      let current := default (empty_state st) s in
      match lcs_candidate current, lcs_previous current with
      | Some existing, None => if decide (existing = c) then Some (Some current) else None
      | None, None => Some (Some (with_candidate current (Some c)))
      | _, _ => None
      end
  | OpPromote, Some s => c ← lcs_candidate s; Some (Some (promoted st s c))
  | OpRollback, Some s =>
      match lcs_active s, lcs_candidate s, lcs_previous s with
      | Some a, None, Some p => Some (Some (rolled_back st a p))
      | _, _, _ => None
      end
  | OpDiscard, Some s =>
      match lcs_candidate s, lcs_active s with
      | None, _ => Some (Some s)
      | Some _, None => Some None
      | Some _, Some _ => Some (Some (with_candidate s None))
      end
  | OpDropPrevious, Some s => Some (Some (without_previous s))
  | (OpDiscard | OpDropPrevious), None => Some None
  | (OpPromote | OpRollback), None => None
  end.

Section Safety.
Context `{MB : Message CredentialDeliveryBundle, MS : Message LocalCredentialState, SH : Sha256}.
Context {ML : MessageLaws LocalCredentialState storable}.
Context (st : CredentialStore) (power : bool).
#[local] Abbreviation outcome := (outcome power).
#[local] Abbreviation consistent := (consistent st power).
#[local] Abbreviation keeps := (keeps st power).

(** ** The state that is read *)

Lemma read_current s0 d :
  consistent (λ s, s = s0) d → reads d (read_state st) (λ s, s = s0).
Proof using Type.
  intros (s & -> & Hs)%consistent_seen. eapply reads_mono; [|apply read_state_reads].
  intros [s|]; destruct s0 as [s'|]; simpl in *.
  - intros (b & Hb & Hd & _). destruct Hs as (b' & Hb' & Hd' & _). congruence.
  - intros (b & Hb & _). congruence.
  - intros Hn. destruct Hs as (b' & Hb' & _). congruence.
  - done.
Qed.
Lemma current_in_range s d :
  consistent (λ x, x = Some s) d → Forall (λ r, in_u64 (ref_generation r)) (state_references s).
Proof using Type. intros (x & -> & (b & _ & _ & _ & Hr))%consistent_seen. done. Qed.
Lemma current_valid s d :
  consistent (λ x, x = Some s) d →
  valid_state s ∧ lcs_projection s = as_i32 (store_projection st).
Proof using Type.
  intros (x & -> & (b & _ & Hd & Hp & _))%consistent_seen.
  apply bind_Ok in Hd as (s' & _ & ([] & Hv & (u & _ & [= <-])%bind_Ok)%bind_Ok).
  split; [by apply local_state_valid|]. apply fail_if_Ok in Hp. lia.
Qed.

(** References of the current state are backed. *)
Lemma backed_sub s next d :
  consistent (λ x, x = Some s) d → state_references next ⊆ state_references s →
  backed st power next d.
Proof using Type. intros Hc Hsub r o Hr Ho. left. apply (con_bundles st power _ d Hc s r o); auto. Qed.
Lemma range_sub (s next : LocalCredentialState) (P : LocalCredentialBundleRef → Prop) :
  Forall P (state_references s) → state_references next ⊆ state_references s →
  Forall P (state_references next).
Proof using Type. rewrite !list.Forall_forall. auto. Qed.

(** What every method promises: at every point the state is [s0] or one of [L], and a
    result is the state that is left. *)
Definition moves {A} (L : option LocalCredentialState → Prop)
    (result : A → option LocalCredentialState → Prop) (p : prog A)
    (s0 : option LocalCredentialState) (d : disk) : Prop :=
  always (keeps (λ s, s = s0 ∨ L s)) p
    (ends (λ a d', ∃ s, result a s ∧ L s ∧ consistent (λ x, x = s) d')
       (keeps (λ s, s = s0 ∨ L s))) d.

Lemma start_keeps s0 d L : consistent (λ s, s = s0) d → keeps (λ s, s = s0 ∨ L s) d.
Proof using Type. intros Hd. exists (λ s, s = s0). auto. Qed.

(** A move by one commit *)
Lemma commit_backed {A} (L : option LocalCredentialState → Prop) result s0 next (a : A) d :
  consistent (λ x, x = s0) d → backed st power next d →
  Forall (λ r, in_u64 (ref_generation r)) (state_references next) →
  L (Some next) → result a (Some next) →
  moves L result (write_state st next ;; gc_unreferenced_bundles st next ;; mret a) s0 d.
Proof using ML.
  intros Hd Hb Hr HL Hres.
  eapply always_mono; [| |by apply (commit_spec st power (λ x, x = s0) next a)].
  - intros d'. apply keeps_mono. intros x [->| ->]; auto.
  - intros [x|e] d' _; simpl.
    + intros [-> Hc]. eauto.
    + apply keeps_mono. intros x [->| ->]; auto.
Qed.
Lemma commit_moves {A} (L : option LocalCredentialState → Prop) result s next (a : A) d :
  consistent (λ x, x = Some s) d → state_references next ⊆ state_references s →
  L (Some next) → result a (Some next) →
  moves L result (write_state st next ;; gc_unreferenced_bundles st next ;; mret a) (Some s) d.
Proof using ML.
  intros Hd Hsub. apply commit_backed; [done|by eapply backed_sub|].
  by eapply range_sub; [eapply current_in_range|].
Qed.

(** ** The methods *)

Definition same_state (a s : option LocalCredentialState) : Prop := a = s.
Definition some_state (a : LocalCredentialState) (s : option LocalCredentialState) : Prop :=
  Some a = s.
#[local] Abbreviation to op s0 := (λ s, transition st op s0 = Some s).

Lemma promote_moves s0 d :
  consistent (λ s, s = s0) d → moves (to OpPromote s0) some_state (promote_candidate st) s0 d.
Proof using ML.
  intros Hd. pose proof (start_keeps s0 d (to OpPromote s0) Hd) as HI.
  eapply always_reads; [by apply read_current|done|]. intros ? ->.
  apply always_check; [done|]. intros s ->%ok_or_Ok.
  apply always_check; [done|]. intros c Hc%ok_or_Ok.
  apply always_check; [done|]. intros [] Hv.
  apply commit_moves; [done| | |done].
  - unfold state_references. rewrite Hc. cbn [lcs_active lcs_candidate lcs_previous option_list].
    set_solver.
  - simpl. by rewrite Hc.
Qed.
Lemma rollback_moves s0 d :
  consistent (λ s, s = s0) d → moves (to OpRollback s0) some_state (rollback_previous st) s0 d.
Proof using ML.
  intros Hd. pose proof (start_keeps s0 d (to OpRollback s0) Hd) as HI.
  eapply always_reads; [by apply read_current|done|]. intros ? ->.
  apply always_check; [done|]. intros s ->%ok_or_Ok.
  apply always_check; [done|]. intros [] Hc%fail_if_Ok%is_some_false.
  apply always_check; [done|]. intros a Ha%ok_or_Ok.
  apply always_check; [done|]. intros p Hp%ok_or_Ok.
  apply always_check; [done|]. intros [] Hv.
  assert (state_references (rolled_back st a p) ⊆ state_references s) as Hsub.
  { unfold state_references. rewrite Ha, Hc, Hp. cbn. set_solver. }
  assert (transition st OpRollback (Some s) = Some (Some (rolled_back st a p))) as Ht
    by (simpl; by rewrite Ha, Hc, Hp).
  apply always_bind. eapply always_mono;
    [| |apply (write_state_spec st power (λ x, x = Some s) (rolled_back st a p))].
  - intros d'. apply keeps_mono. intros x [->| ->]; auto.
  - intros [[]|e] d' _ Hc'.
    + apply always_return; [|by eexists]. exists (λ x, x = Some (rolled_back st a p)).
      split; [|done]. intros x ->. by right.
    + revert Hc'. apply keeps_mono. intros x [->| ->]; auto.
  - done.
  - by eapply backed_sub.
  - by eapply range_sub; [eapply current_in_range|].
Qed.
Lemma drop_moves s0 d :
  consistent (λ s, s = s0) d → moves (to OpDropPrevious s0) same_state (drop_previous st) s0 d.
Proof using ML.
  intros Hd. pose proof (start_keeps s0 d (to OpDropPrevious s0) Hd) as HI.
  eapply always_reads; [by apply read_current|done|]. intros ? ->.
  destruct s0 as [s|]; [|apply always_return; [done|by exists None]].
  destruct (is_some (lcs_previous s)) eqn:Ep; cbn [negb].
  - apply always_check; [done|]. intros [] Hv. apply commit_moves; [done| |done..].
    unfold state_references. cbn. set_solver.
  - apply always_return; [done|]. exists (Some s). split_and!; [done| |done].
    apply is_some_false in Ep. destruct s. cbn in *. by subst.
Qed.

Lemma receipt_reads name unreadable well_formed malformed d :
  reads d (read_receipt name unreadable well_formed malformed) (λ o,
    match o with
    | Some text => seen d (RootDir, name) = Some (as_bytes text) ∧ well_formed text = true
    | None => seen d (RootDir, name) = None
    end).
Proof using Type.
  apply reads_call; [by intros r d' [? _]|]. intros [text|e] [_ Hr].
  - eapply (reads_bind _ _ _ (λ _, well_formed text = true)).
    + apply reads_pure. by intros [] ?%fail_if_Ok%negb_false.
    + intros [] Hw. by apply reads_ret.
  - destruct (not_found e) eqn:E; [apply reads_ret; by apply Hr|by apply reads_pure].
Qed.

(** The state file is removed: the state is gone, its bundles are not needed any more. *)
Lemma removed_consistent s d :
  consistent (λ x, x = Some s) d →
  consistent (λ x, x = Some s ∨ x = None) (put d state_path None).
Proof using Type.
  intros [Hs Hb]. split.
  - intros o [->|[->|(x & -> & Hx)%Hs]]%outcome_put.
    + exists None. split; [by right|done].
    + exists None. split; [by right|done].
    + exists (Some s). split; [by left|done].
  - intros x r o [[= ->]|[=]] Hr Ho. apply stays_put_other in Ho; [|done]. eauto.
Qed.
Lemma remove_state_spec (L : option LocalCredentialState → Prop) s d :
  L None → consistent (λ x, x = Some s) d →
  always (keeps (λ x, x = Some s ∨ L x)) (remove_state_file st)
    (ends (λ _, consistent (λ x, x = None)) (keeps (λ x, x = Some s ∨ L x))) d.
Proof using Type.
  intros HL Hd. pose proof (start_keeps _ _ L Hd) as HI.
  set (d1 := put d state_path None).
  assert (∀ d', consistent (λ x, x = Some s ∨ x = None) d' → keeps (λ x, x = Some s ∨ L x) d')
    as Hk by (intros d' H; eexists; split; [|exact H]; intros x [->| ->]; auto).
  pose proof (removed_consistent s d Hd) as H1. fold d1 in H1.
  apply always_call; [done|]. intros [[]|e] d' Hr.
  - destruct Hr as [(-> & _)|[_ (e & ? & _)]]; [|done]. fold d1.
    apply always_attempt_last; [by apply Hk|..].
    + intros e d' [[-> _]| ->]; apply Hk; [done|by apply settle_consistent].
    + intros [] d' [[_ ?]| ->]; [done|]. split; [by apply Hk, settle_consistent|].
      split; [|done]. intros o Ho. exists None. split; [done|].
      eapply (outcome_settle_absent _ d1 state_path); [apply put_same|done].
  - destruct Hr as [(-> & _ & Hr)|[-> (e' & [= <-] & Hr)]].
    + rewrite (Hr e eq_refl). apply always_return; [by apply Hk|by apply Hk].
    + destruct (not_found e) eqn:E; [|by apply always_return]. exfalso.
      destruct (consistent_seen _ _ _ _ Hd) as (x & -> & (b & Hb & _)).
      unfold seen in Hb. by rewrite Hr in Hb.
Qed.

Lemma discard_moves s0 d :
  consistent (λ s, s = s0) d → moves (to OpDiscard s0) same_state (discard_candidate st) s0 d.
Proof using ML.
  intros Hd. pose proof (start_keeps s0 d (to OpDiscard s0) Hd) as HI.
  eapply (always_reads _ _ _ (λ _, True)); [|done|intros prepared _].
  { case_bool_decide; [|by apply reads_ret]. eapply reads_bind; [apply receipt_reads|].
    intros. by apply reads_ret. }
  apply always_check; [done|]. intros [] _.
  eapply always_reads; [by apply read_current|done|]. intros ? ->.
  destruct s0 as [s|]; [|apply always_return; [done|by exists None]].
  destruct (lcs_candidate s) as [c|] eqn:Ec.
  2:{ apply always_return; [done|]. exists (Some s). split_and!; [done| |done]. simpl. by rewrite Ec. }
  destruct (current_valid s d Hd) as [[_ _ Hshape _] _]. rewrite Ec in Hshape.
  change (negb (is_some (Some c))) with false. cbn [with_candidate lcs_active lcs_previous].
  destruct (lcs_active s) as [a|] eqn:Ea.
  - apply always_check; [done|]. intros [] Hv. apply commit_moves; [done| | |done].
    + unfold state_references. rewrite Ea. cbn. rewrite Ea. set_solver.
    + simpl. by rewrite Ec, Ea.
  - assert (transition st OpDiscard (Some s) = Some None) as Ht by (simpl; by rewrite Ec, Ea).
    inversion Hshape as [c' E1 E2 E3| | |]; subst.
    apply always_bind. eapply always_post; [|by apply (remove_state_spec (to OpDiscard (Some s)))].
    intros [[]|e] d1 H1; [|done].
    assert (∀ d', consistent (λ x, x = None) d' →
      keeps (λ x, x = Some s ∨ transition st OpDiscard (Some s) = Some x) d') as Hk
      by (intros d' H; eexists; split; [|exact H]; intros x ->; auto).
    apply always_bind. eapply always_mono; [exact Hk| |by apply gc_all_spec].
    intros [[]|e] d2 _ H2; [|by apply Hk]. apply always_return; [by apply Hk|by exists None].
Qed.

(** ** Staging *)

(** No bundle of the store can come back in another version than the one that is there. *)
Definition bundles_settled (d : disk) : Prop :=
  ∀ r o, outcome d (bundle_path r) o → o = seen d (bundle_path r).

Lemma settled_stays r d d' :
  (∀ o, outcome d (bundle_path r) o → o = seen d (bundle_path r)) →
  stays power d d' (bundle_path r) →
  ∀ o, outcome d' (bundle_path r) o → o = seen d' (bundle_path r).
Proof using Type.
  intros Hd Hs o Ho. rewrite (Hd o (Hs o Ho)). symmetry. apply Hd, Hs, outcome_seen.
Qed.

Lemma prepare_directories_spec d0 :
  always (λ d, ∀ q, stays power d0 d q) (prepare_directories st)
    (ends (λ _ d, ∀ q, stays power d0 d q) (λ d, ∀ q, stays power d0 d q)) d0.
Proof using Type.
  assert (∀ dir d, (∀ q, stays power d0 d q) → ∀ r d', step (CreateDirAll dir) d r d' →
    ∀ q, stays power d0 d' q) as Hmake.
  { intros dir d Hd r d' [[-> _]| ->] q; [apply Hd|exact (Hd q)]. }
  assert (∀ q, stays power d0 d0 q) as H0 by (intros; apply stays_refl).
  apply always_attempt; [done|by intros e d'; apply Hmake|]. intros [] d1 H1.
  pose proof (Hmake _ _ H0 _ _ H1) as H1'.
  apply always_attempt; [done|by intros e d' ->|]. intros [] ? ->.
  apply always_attempt; [done|by intros e d'; apply Hmake|]. intros [] d2 H2.
  pose proof (Hmake _ _ H1' _ _ H2) as H2'.
  apply always_attempt_last; [done|by intros e d' ->|by intros [] d' ->].
Qed.

Lemma persist_bundle_spec bundle d0 :
  (∀ o, outcome d0 (bundle_path (ref_of bundle)) o → o = seen d0 (bundle_path (ref_of bundle))) →
  always (touched power (bundle_path (ref_of bundle)) (encode_to_vec bundle) d0)
    (persist_bundle st bundle (ref_of bundle))
    (ends (placed power (bundle_path (ref_of bundle)) (encode_to_vec bundle) d0)
       (touched power (bundle_path (ref_of bundle)) (encode_to_vec bundle) d0)) d0.
Proof using Type.
  intros Hset. set (p := bundle_path _) in *. set (b := encode_to_vec bundle).
  assert (touched power p b d0 d0) as H0 by (split; [intros; apply stays_refl|auto]).
  apply always_check; [done|]. intros x ([] & _ & [= <-])%bind_Ok. fold b.
  apply always_check; [done|]. intros digest _. apply always_check; [done|]. intros [] _.
  fold p. apply always_call; [done|]. intros ex ? [-> _]. destruct ex.
  - apply always_attempt; [done|by intros e d' [-> _]|]. intros observed d' [-> Hseen].
    apply always_check; [done|]. intros [] Heq%fail_if_Ok%negb_false%bytes_eqb_true.
    apply always_check; [done|]. intros decoded _. apply always_return; [done|].
    destruct (verify_local_credential_bundle_reference _ _ _) as [[]|]; [|done].
    split; [done|]. intros o ->%Hset. by rewrite Hseen, Heq.
  - apply always_bind. eapply always_post; [|apply write_atomic_spec].
    intros [[]|e] d1 H1; [|done]. destruct H1 as [Ht Hout].
    apply always_attempt; [done|by intros e d' [-> _]|]. intros observed d' [-> _].
    apply always_return; [done|]. by destruct (negb _).
Qed.

Lemma check_staging_Ok cur c next :
  check_staging cur c = Ok next →
  lcs_previous cur = None ∧
  ((lcs_candidate cur = Some c ∧ next = None) ∨
   (lcs_candidate cur = None ∧ next = Some (with_candidate cur (Some c)))).
Proof using Type.
  unfold check_staging. destruct (lcs_previous cur); [done|].
  destruct (lcs_candidate cur) as [e|].
  - case_bool_decide; [|done]. intros [= <-]. subst. auto.
  - intros ([] & _ & [= <-])%bind_Ok. auto.
Qed.

(** A bundle file that the current state does not reference may be written. *)
Lemma touched_bundle_consistent s0 r b d0 d :
  consistent (λ x, x = s0) d0 →
  (∀ s r', s0 = Some s → r' ∈ state_references s → ref_sha256 r' ≠ ref_sha256 r) →
  touched power (bundle_path r) b d0 d → consistent (λ x, x = s0) d.
Proof using Type.
  intros Hc Hne [Hq _]. revert Hc. apply consistent_stays.
  - apply Hq; [done|]. intros E. by apply (temporary_not_state (bundle_path r)).
  - intros s r' <- Hr. apply Hq.
    + intros E%bundle_path_inj. by eapply Hne.
    + intros E. by apply (temporary_not_bundle (bundle_path r) r').
Qed.

(** The references of a state about to be staged: the active one, if any, and [c] *)
Lemma staged_references cur c r :
  lcs_candidate cur = None → lcs_previous cur = None →
  r ∈ state_references (with_candidate cur (Some c)) ↔ lcs_active cur = Some r ∨ r = c.
Proof using Type.
  intros Hc Hp. unfold state_references. cbn. rewrite Hp. cbn.
  destruct (lcs_active cur) as [a|]; cbn; rewrite !elem_of_cons, elem_of_nil.
  - split; [intros [->|[->|[]]]; auto|intros [[= ->]| ->]; auto].
  - split; [intros [->|[]]; auto|intros [[=]| ->]; auto].
Qed.
Lemma unstaged_references cur r :
  lcs_candidate cur = None → lcs_previous cur = None →
  r ∈ state_references cur ↔ lcs_active cur = Some r.
Proof using Type.
  intros Hc Hp. unfold state_references. rewrite Hc, Hp. cbn.
  destruct (lcs_active cur) as [a|]; cbn; rewrite ?elem_of_cons, elem_of_nil.
  - split; [intros [->|[]]; auto|intros [= ->]; auto].
  - by split.
Qed.
Lemma staged_digest s0 cur c r :
  cur = default (empty_state st) s0 → lcs_candidate cur = None → lcs_previous cur = None →
  valid_state (with_candidate cur (Some c)) →
  ∀ s, s0 = Some s → r ∈ state_references s → ref_sha256 r ≠ ref_sha256 c.
Proof using Type.
  intros -> Hc Hp [_ _ Hs _] s -> Hr. simpl in *. apply unstaged_references in Hr; [|done..].
  rewrite Hr, Hp in Hs. inversion Hs as [| |a c' Ho|]. subst. apply Ho.
Qed.

(** The bundle of the candidate is in place: the state that references it can be written. *)
Lemma stage_commit s0 bundle cur d :
  cur = default (empty_state st) s0 → lcs_candidate cur = None → lcs_previous cur = None →
  in_u64 (cdb_generation bundle) → consistent (λ s, s = s0) d →
  (∀ o, outcome d (bundle_path (ref_of bundle)) o → o = Some (encode_to_vec bundle)) →
  moves (to (OpStage (ref_of bundle)) s0) some_state
    (write_state st (with_candidate cur (Some (ref_of bundle))) ;;
     gc_unreferenced_bundles st (with_candidate cur (Some (ref_of bundle))) ;;
     mret (with_candidate cur (Some (ref_of bundle)))) s0 d.
Proof using ML.
  intros Hcur Hc Hp Hrange Hd Hout.
  assert (∀ r, lcs_active cur = Some r → ∃ s, s0 = Some s ∧ r ∈ state_references s) as Hact.
  { intros r Hr. destruct s0 as [s|]; simpl in *; subst cur; [|done]. exists s. split; [done|].
    by apply unstaged_references. }
  apply commit_backed; [done| | | |done].
  - intros r o [Hr|Hr]%staged_references Ho; [|subst r|done..].
    + left. destruct (Hact r Hr) as (s & -> & Hin). by apply (con_bundles st power _ d Hd s r o).
    + right. rewrite (Hout o Ho). symmetry. apply Hout, outcome_seen.
  - apply list.Forall_forall. intros r [Hr|Hr]%staged_references; [|by subst r|done..].
    destruct (Hact r Hr) as (s & -> & Hin).
    exact (proj1 (list.Forall_forall _ _) (current_in_range s d Hd) r Hin).
  - simpl. rewrite <- Hcur, Hc, Hp. done.
Qed.

Lemma stage_moves bundle s0 d :
  consistent (λ s, s = s0) d → bundles_settled d → in_u64 (cdb_generation bundle) →
  moves (to (OpStage (ref_of bundle)) s0) some_state (stage_candidate st bundle) s0 d.
Proof using ML.
  intros Hd Hset Hrange. set (L := to (OpStage (ref_of bundle)) s0).
  assert (∀ d', consistent (λ s, s = s0) d' → keeps (λ s, s = s0 ∨ L s) d') as Hk
    by (intros d'; apply start_keeps).
  pose proof (Hk d Hd) as HI.
  apply always_check; [done|]. intros [] _. apply always_check; [done|]. intros [] _.
  apply always_check; [done|]. intros c [Hf ->]%bundle_ref_Ok.
  eapply always_reads; [by apply read_current|done|]. intros ? ->.
  set (cur := default (empty_state st) s0).
  apply always_check; [done|]. intros next [Hp [[Hc ->]|[Hc ->]]]%check_staging_Ok.
  - apply always_return; [done|]. destruct s0 as [s|]; [|done]. simpl in cur.
    exists (Some s). split_and!; [done| |done]. unfold L. simpl. subst cur.
    by rewrite Hc, Hp, decide_True.
  - apply always_check; [done|]. intros [] Hv%local_state_valid.
    apply always_bind. eapply always_mono; [| |apply prepare_directories_spec].
    { intros d' Hs. by apply Hk, (consistent_stays _ _ _ d). }
    intros [[]|e] d1 H1 _; [|by apply Hk, (consistent_stays _ _ _ d)].
    assert (consistent (λ s, s = s0) d1) as Hd1 by by apply (consistent_stays _ _ _ d).
    assert (∀ d', touched power (bundle_path (ref_of bundle)) (encode_to_vec bundle) d1 d' →
      consistent (λ s, s = s0) d') as Ht.
    { intros d'. apply touched_bundle_consistent; [done|]. intros s r' Hs Hr.
      by eapply staged_digest; [done|..]. }
    apply always_bind. eapply always_mono; [| |apply (persist_bundle_spec bundle d1)].
    { intros d' Hd'. by apply Hk, Ht. }
    { intros [[]|e] d2 H2 HQ; [|by apply Hk, Ht]. destruct HQ as [_ Hout].
      apply stage_commit; [done..|by apply Ht|done]. }
    eapply settled_stays; [apply Hset|apply H1].
Qed.

Lemma materialized_generation active delivery candidate :
  materialize_credential_delivery_candidate active delivery = Ok candidate →
  cdb_generation candidate = cdb_generation delivery.
Proof using Type.
  destruct (credential_delivery_is_rotation_delta delivery) eqn:Ed.
  - destruct active as [a|].
    + intros (_ & pl & _ & ->)%(materialize_delta a delivery candidate Ed). done.
    + unfold materialize_credential_delivery_candidate. rewrite Ed.
      intros ([] & _ & ([] & _ & (? & [=] & _)%bind_Ok)%bind_Ok)%bind_Ok.
  - unfold materialize_credential_delivery_candidate. rewrite Ed.
    intros ([] & _ & ([] & _ & (r & _ & [= <-])%bind_Ok)%bind_Ok)%bind_Ok. done.
Qed.

(** A delivery stages the candidate it materializes. *)
Definition delivers (delivery : CredentialDeliveryBundle) (s0 s : option LocalCredentialState)
    : Prop :=
  ∃ active candidate, materialize_credential_delivery_candidate active delivery = Ok candidate ∧
    transition st (OpStage (ref_of candidate)) s0 = Some s.

Lemma deliver_moves delivery s0 d :
  consistent (λ s, s = s0) d → bundles_settled d → in_u64 (cdb_generation delivery) →
  moves (delivers delivery s0) some_state (stage_delivery_candidate st delivery) s0 d.
Proof using ML.
  intros Hd Hset Hrange. pose proof (start_keeps s0 d (delivers delivery s0) Hd) as HI.
  eapply always_reads; [by apply read_current|done|]. intros ? ->.
  eapply (always_reads _ _ _ (λ _, True)); [|done|intros active _].
  { destruct (s0 ≫= lcs_active) as [r|]; [|by apply reads_ret].
    eapply reads_bind; [apply read_bundle_reads|]. intros. by apply reads_ret. }
  apply always_check; [done|]. intros candidate Hm.
  assert (∀ s, transition st (OpStage (ref_of candidate)) s0 = Some s → delivers delivery s0 s)
    as Hto by (intros s Hs; by exists active, candidate).
  eapply always_mono; [| |apply (stage_moves candidate s0 d); [done..|]].
  - intros d'. apply keeps_mono. intros s [?|?]; auto.
  - intros [a|e] d' _.
    + intros (s & ? & ? & ?). exists s. auto.
    + apply keeps_mono. intros s [?|?]; auto.
  - by rewrite (materialized_generation _ _ _ Hm).
Qed.

(** ** Receipts *)

Definition noted (name : string) (d0 d : disk) : Prop :=
  ∀ q, q ≠ (RootDir, name) → stays power d0 d q.

Lemma noted_trans name d0 d1 d2 : noted name d0 d1 → noted name d1 d2 → noted name d0 d2.
Proof using Type. intros H1 H2 q Hq. eapply stays_trans; [by apply H1|by apply H2]. Qed.

Lemma write_receipt_spec name text opened uncertain d0 :
  always (noted name d0) (write_receipt st name text opened uncertain)
    (ends (λ _ d, noted name d0 d ∧
             ∀ o, outcome d (RootDir, name) o → o = Some (as_bytes text)) (noted name d0)) d0.
Proof using Type.
  set (p := (RootDir, name) : path).
  assert (noted name d0 d0) as H0 by (intros q _; apply stays_refl).
  assert (∀ d o, noted name d (put d p o)) as Hput by (intros d o q Hq; by apply stays_put_other).
  assert (∀ d f, noted name d (set_file d p f)) as Hset by (intros d f q Hq; by apply stays_set_file).
  apply always_attempt; [done|..].
  { intros e d' [(-> & _)|[-> _]]; [apply Hput|done]. }
  intros [] d1 [(-> & _)|[_ Hx]]; [|done].
  pose proof (put_same d0 p (Some {| file_data := []; file_synced := false |})) as Hf.
  pose proof (Hput d0 (Some {| file_data := []; file_synced := false |})) as H1.
  set (d1 := put _ _ _) in *. clearbody d1.
  apply always_call; [done|]. intros r d2 (w & -> & _ & Hw). pose proof (noted_trans _ _ _ _ H1 (Hset
    d1 {| file_data := w; file_synced := false |})) as H2.
  destruct r as [[]|e]; [|by apply always_return].
  rewrite (Hw eq_refl) in *. apply (set_file_lookup _ _ _
    {| file_data := as_bytes text; file_synced := false |}) in Hf.
  set (d2 := set_file _ _ _) in *. clearbody d2. clear Hw w.
  apply always_call; [done|]. intros r d3 H3.
  assert (noted name d0 d3) as H3'.
  { destruct H3 as [[-> _]|(f & _ & ->)]; [done|]. eapply noted_trans; [done|apply Hset]. }
  destruct r as [[]|e]; [|by apply always_return].
  destruct H3 as [[_ Hx]|(f & Hg & ->)]; [done|]. fold p in Hg. rewrite Hf in Hg. injection Hg as <-.
  apply (set_file_lookup _ _ _ {| file_data := as_bytes text; file_synced := true |}) in Hf.
  set (d3 := set_file _ _ _) in *. clearbody d3. apply always_check; [done|]. intros [] _.
  apply always_attempt; [done|by intros e d' ->|]. intros [] ? ->.
  assert (noted name d0 (settle d3 RootDir)) as H4.
  { intros q Hq. eapply stays_trans; [by apply H3'|apply stays_settle]. }
  apply always_attempt_last; [done|by intros e d' [[-> _]| ->]|].
  intros [] d' [[_ Hx]| ->]; [done|]. split_and!; [done..|]. intros o.
  by apply (outcome_settle _ d3 p o _ Hf).
Qed.
End Safety.
