(* ===== verification/CredentialPromotions.v ===== *)
(** * The one-shot promotions, and the store over crashes

    A paired promotion writes its receipt durably before the state changes and never runs
    twice; every receipt reads back as it was written. At the end of the file, the store
    over any sequence of interrupted methods. *)

From S2P Require Import Prelude RustStd RustText HostTypes Concrete Service CrashLogic Credentials.
From S2P Require Import CredentialStore CredentialReceipts CredentialDisk CredentialStoreFacts.
From S2P Require Import CredentialStoreSafety.

Section Shapes.
Context `{MB : Message CredentialDeliveryBundle, MS : Message LocalCredentialState, SH : Sha256}.
Context (st : CredentialStore).

(** ** The receipt of a promotion, and what a method does before it writes it *)

Definition noted_promotion (name text : string) (opened uncertain : string → string)
    : prog LocalCredentialState :=
  write_receipt st name text opened uncertain ;; promote_candidate st.

(** [p] makes its checks without a change and ends with the noted promotion of one of the
    texts [T]. *)
Definition promotes_once (name : string) (T : string → Prop) (p : prog LocalCredentialState)
    : Prop :=
  ∃ opened uncertain, ∀ (I : disk → Prop) Q d, I d →
    (∀ text, T text → always I (noted_promotion name text opened uncertain) (ends Q I) d) →
    always I p (ends Q I) d.

Lemma any_reads {A} d (p : prog A) Q : reads d p Q → reads d p (λ _, True).
Proof using Type. by apply reads_mono. Qed.

Ltac shape_step :=
  lazymatch goal with
  | |- CrashLogic.always _ _ (mbind _ (pure_step _)) _ _ =>
      apply always_check; [done|]; intros ? ?
  | |- CrashLogic.always _ _ (mbind _ (read_state _)) _ _ =>
      eapply always_reads; [eapply any_reads, read_state_reads|done|intros ? _]
  | |- CrashLogic.always _ _ (mbind _ (read_bundle _ _)) _ _ =>
      eapply always_reads; [eapply any_reads, read_bundle_reads|done|intros ? _]
  | |- CrashLogic.always _ _ (mbind _ (if ?b then _ else _)) _ _ =>
      eapply (always_reads _ _ _ (λ _, True));
      [destruct b; [by apply reads_ret|];
       eapply reads_bind; [apply receipt_reads|intros; by apply reads_ret]|done|intros ? _]
  | |- CrashLogic.always _ _ (mbind _ (_ st)) _ _ =>
      eapply always_reads; [eapply any_reads, receipt_reads|done|intros ? _]
  end.

(** The arguments a promotion accepts, and the receipt it leaves *)
Inductive promotion : Type :=
| InitialPair (generation slot : Z) (intent : string)
| Recovery (generation slot : Z) (original recovery candidate : string)
| JoinVm (generation slot : Z) (candidate : string) (source_generation source_slot : Z)
    (source windows_candidate intent : string)
| JoinWindows (generation slot : Z) (windows_active windows_candidate vm_candidate intent : string).

Definition promotion_program (m : promotion) : prog LocalCredentialState :=
  match m with
  | InitialPair g s i => promote_initial_paired_candidate st g s i
  | Recovery g s o r c => recover_initial_paired_candidate st g s o r c
  | JoinVm g s c sg ss sw wc i => promote_existing_active_join st g s c sg ss sw wc i
  | JoinWindows g s wa wc vc i => promote_windows_existing_join st g s wa wc vc i
  end.
Definition promotion_receipt (m : promotion) : string :=
  match m with
  | InitialPair _ _ _ => INITIAL_PAIR_COMMIT_RECEIPT
  | Recovery _ _ _ _ _ => INITIAL_PAIR_RECOVERY_RECEIPT
  | JoinVm _ _ _ _ _ _ _ _ | JoinWindows _ _ _ _ _ _ => EXISTING_JOIN_RECEIPT
  end.
Definition all_digests (values : list string) : Prop :=
  Forall (λ v, valid_first_use_digest v = true) values.
(** The text of the receipt; the Windows join names the active bundle it replaces. *)
Definition promotion_text (m : promotion) (text : string) : Prop :=
  match m with
  | InitialPair g s i =>
      g ≠ 0 ∧ slot_a_or_b s = true ∧ all_digests [i] ∧
      text = initial_pair_text (store_projection st) g s i
  | Recovery g s o r c =>
      g ≠ 0 ∧ slot_a_or_b s = true ∧ all_digests [o; r; c] ∧
      text = initial_recovery_text (store_projection st) g s o r c
  | JoinVm g s c sg ss sw wc i =>
      g ≠ 0 ∧ sg ≠ 0 ∧ g ≠ sg ∧ slot_a_or_b s = true ∧ slot_a_or_b ss = true ∧ s ≠ ss ∧
      all_digests [sw; c; wc; i] ∧
      text = existing_join_text (store_projection st) sg ss sw g s c wc i
  | JoinWindows g s wa wc vc i => ∃ active,
      g ≠ 0 ∧ valid_ref active ∧ g ≠ ref_generation active ∧ slot_a_or_b s = true ∧
      s ≠ ref_slot active ∧ ref_sha256 active = wa ∧ all_digests [wa; vc; wc; i] ∧
      text = existing_join_text (store_projection st) (ref_generation active) (ref_slot active)
               wa g s vc wc i
  end.

Lemma initial_promotes g s i :
  promotes_once INITIAL_PAIR_COMMIT_RECEIPT (promotion_text (InitialPair g s i))
    (promote_initial_paired_candidate st g s i).
Proof using Type.
  do 2 eexists. intros I Q d HI Ht. unfold promote_initial_paired_candidate.
  apply always_check; [done|]. intros [] Hargs%fail_if_Ok. repeat shape_step. apply Ht.
  rewrite !orb_false, !negb_false, Z.eqb_neq in Hargs. split_and!; try tauto.
  repeat constructor; tauto.
Qed.
Lemma recovery_promotes g s o r c :
  promotes_once INITIAL_PAIR_RECOVERY_RECEIPT (promotion_text (Recovery g s o r c))
    (recover_initial_paired_candidate st g s o r c).
Proof using Type.
  do 2 eexists. intros I Q d HI Ht. unfold recover_initial_paired_candidate.
  apply always_check; [done|]. intros [] Hargs%fail_if_Ok. repeat shape_step. apply Ht.
  rewrite !orb_false, !negb_false, Z.eqb_neq in Hargs. split_and!; try tauto.
  repeat constructor; tauto.
Qed.
Lemma join_vm_promotes g s c sg ss sw wc i :
  promotes_once EXISTING_JOIN_RECEIPT (promotion_text (JoinVm g s c sg ss sw wc i))
    (promote_existing_active_join st g s c sg ss sw wc i).
Proof using Type.
  do 2 eexists. intros I Q d HI Ht. unfold promote_existing_active_join.
  apply always_check; [done|]. intros [] Hargs%fail_if_Ok. repeat shape_step. apply Ht.
  rewrite !orb_false, !negb_false, !Z.eqb_neq in Hargs. split_and!; try tauto.
  repeat constructor; tauto.
Qed.

(** The active reference of the state that was read is valid. *)
Lemma read_active_valid b s a :
  decode_local_credential_state b = Ok s → lcs_active s = Some a → valid_ref a.
Proof using Type.
  intros (s' & _ & ([] & Hv & (u & _ & [= <-])%bind_Ok)%bind_Ok)%bind_Ok Ha.
  apply local_state_valid in Hv as [_ _ _ Hr]. unfold state_references in Hr. rewrite Ha in Hr.
  by apply Forall_cons in Hr as [? _].
Qed.
Lemma join_windows_promotes g s wa wc vc i :
  promotes_once EXISTING_JOIN_RECEIPT (promotion_text (JoinWindows g s wa wc vc i))
    (promote_windows_existing_join st g s wa wc vc i).
Proof using Type.
  do 2 eexists. intros I Q d HI Ht. unfold promote_windows_existing_join.
  apply always_check; [done|]. intros [] Hargs%fail_if_Ok.
  eapply always_reads; [apply read_state_reads|done|]. intros state Hstate.
  apply always_check; [done|]. intros current ->%ok_or_Ok.
  destruct Hstate as (b & _ & Hdec & _). apply always_check; [done|]. intros [] _.
  apply always_check; [done|]. intros active Hactive%ok_or_Ok.
  pose proof (read_active_valid b current active Hdec Hactive) as Hvalid.
  apply always_check; [done|]. intros candidate _. apply always_check; [done|].
  intros [] Hmatch%fail_if_Ok. repeat shape_step. apply Ht.
  rewrite !orb_false, !negb_false, Z.eqb_neq in Hargs.
  rewrite !orb_false, !negb_false, !Z.eqb_neq, !Z.eqb_eq, !str_eqb_true in Hmatch.
  exists active. destruct Hmatch as (((((? & ?) & ?) & Hg) & Hs) & ?).
  split_and!; try done; try tauto; [by apply not_eq_sym..|]. repeat constructor; tauto.
Qed.

Lemma promotions_once m :
  promotes_once (promotion_receipt m) (promotion_text m) (promotion_program m).
Proof using Type.
  destruct m; [apply initial_promotes|apply recovery_promotes|apply join_vm_promotes
    |apply join_windows_promotes].
Qed.
End Shapes.

(** ** The receipt comes first *)

Section Once.
Context `{MB : Message CredentialDeliveryBundle, MS : Message LocalCredentialState, SH : Sha256}.
Context (st : CredentialStore) (power : bool).

(** A file of the root that is not the state file *)
Definition beside (name : string) : Prop :=
  (RootDir, name) ≠ state_path ∧ (RootDir, name) ≠ temporary_path state_path.
Lemma receipt_beside m : beside (promotion_receipt m).
Proof using Type. by destruct m. Qed.

Section Frame.
Context (name : string) (Hname : beside name) (d0 : disk).
#[local] Abbreviation same := (λ d, stays power d0 d (RootDir, name)).

Lemma same_step {R} (c : store_call R) d r d' :
  same d → step c d r d' →
  match c with
  | RemoveFile p | CreateNew p | WriteAll p _ | SyncAll p => p.1 = BundlesDir
  | Rename _ _ => False
  | _ => True
  end → same d'.
Proof using Type.
  intros Hd. destruct c; simpl; try (by intros [-> _]); try done.
  - by intros [[-> _]| ->].
  - intros [(-> & _)|[-> _]] Hp; [|done]. eapply stays_trans; [exact Hd|].
    apply stays_put_other. intros ->. done.
  - intros [(-> & _)|[-> _]] Hp; [|done]. eapply stays_trans; [exact Hd|].
    apply stays_put_other. intros ->. done.
  - intros (w & -> & _) Hp. eapply stays_trans; [exact Hd|].
    apply stays_set_file. intros ->. done.
  - intros [[-> _]|(f & _ & ->)] Hp; [done|]. eapply stays_trans; [exact Hd|].
    apply stays_set_file. intros ->. done.
  - by intros ->.
  - by intros ->.
  - intros [[-> _]| ->] _; [done|]. eapply stays_trans; [exact Hd|apply stays_settle].
Qed.

Lemma gc_same next d :
  same d → always same (gc_unreferenced_bundles st next) (ends (λ _, same) same) d.
Proof using Type.
  intros Hd. apply always_attempt; [done|by intros e d' [-> _]|]. intros entries ? [-> _].
  apply always_bind. eapply always_post; [|apply (always_for_calls _ same)]; [..|done| |done].
  - intros [[]|e] d' H; [|done]. apply always_attempt_last; [done|..].
    + intros e d2 H2. by eapply (same_step (SyncDir BundlesDir)).
    + intros [] d2 H2. by split; eapply (same_step (SyncDir BundlesDir)).
  - intros entry d1 H1. apply always_check; [done|]. intros e _.
    apply always_call; [done|]. intros is_file ? [-> _]. destruct is_file; [|by apply always_return].
    apply always_check; [done|]. intros [] _. destruct (strip_suffix _ _); [|by apply always_return].
    destruct (negb _); [|by apply always_return]. apply always_attempt_last; [done|..].
    + intros e' d2 H2. by eapply (same_step (RemoveFile (BundlesDir, entry_name e))).
    + intros [] d2 H2. by split; eapply (same_step (RemoveFile (BundlesDir, entry_name e))).
Qed.
Lemma write_state_same next d :
  same d → always same (write_state st next) (ends (λ _, same) same) d.
Proof using Hname.
  intros Hd. apply always_check; [done|]. intros [] _. apply always_check; [done|]. intros [] _.
  eapply always_reads; [apply verify_references_reads|done|]. intros ? _.
  apply always_check; [done|]. intros b _. apply always_bind.
  assert (∀ d', touched power state_path b d d' → same d') as Ht.
  { intros d' [Hq _]. eapply stays_trans; [exact Hd|]. apply Hq; apply Hname. }
  eapply always_mono; [exact Ht| |apply (write_atomic_spec st power state_path b d)].
  intros [[]|e] d1 H1 _; [|by apply Ht]. pose proof (Ht d1 H1) as H1'.
  apply always_attempt; [done|by intros e d' [-> _]|]. intros observed ? [-> _].
  apply always_return; [done|]. by destruct (negb _).
Qed.
Lemma promote_same d : same d → always same (promote_candidate st) (ends (λ _, same) same) d.
Proof using Hname.
  intros Hd. eapply always_reads; [apply read_state_reads|done|]. intros state _.
  apply always_check; [done|]. intros s _. apply always_check; [done|]. intros c _.
  apply always_check; [done|]. intros [] _. apply always_bind.
  eapply always_post; [|by apply write_state_same]. intros [[]|e] d1 H1; [|done].
  apply always_bind. eapply always_post; [|by apply gc_same].
  intros [[]|e] d2 H2; [|done]. by apply always_return.
Qed.
End Frame.

(** As long as the state may still be the old one nothing is claimed; once it may be another
    one, every later process finds the receipt. *)
Definition receipt_first (name : string) (T : string → Prop) (d0 d : disk) : Prop :=
  stays power d0 d state_path ∨
  ∃ text, T text ∧ ∀ o, outcome power d (RootDir, name) o → o = Some (as_bytes text).

Lemma noted_promotion_first name (T : string → Prop) text opened uncertain d0 :
  beside name → T text →
  always (receipt_first name T d0) (noted_promotion st name text opened uncertain)
    (ends (λ _, receipt_first name T d0) (receipt_first name T d0)) d0.
Proof using Type.
  intros Hb HT. apply always_bind.
  assert (∀ d, noted power name d0 d → receipt_first name T d0 d) as Hn.
  { intros d Hd. left. apply Hd. apply not_eq_sym, Hb. }
  eapply always_mono; [exact Hn| |apply write_receipt_spec].
  intros [[]|e] d1 H1 HQ; [|by apply Hn]. destruct HQ as [_ Hout].
  assert (∀ d, stays power d1 d (RootDir, name) → receipt_first name T d0 d) as Hs.
  { intros d Hd. right. exists text. split; [done|]. intros o Ho. by apply Hout, Hd. }
  eapply always_mono; [exact Hs| |apply (promote_same name Hb d1 d1), stays_refl].
  intros [a|e] d _ Hd; by apply Hs.
Qed.

(** A receipt, whatever it holds, ends the promotion before any change. *)
Lemma noted_promotion_replay name text opened uncertain f d0 :
  files d0 !! ((RootDir, name) : path) = Some f →
  always (λ d, d = d0) (noted_promotion st name text opened uncertain)
    (ends (λ _ _, False) (λ d, d = d0)) d0.
Proof using Type.
  intros Hf. apply always_bind, always_attempt; [done|..].
  - intros e d' [(_ & Hn & _)|[-> _]]; [congruence|done].
  - intros [] d' [(_ & Hn & _)|[_ ?]]; [congruence|done].
Qed.
End Once.

(** ** Every method *)

Inductive method : Type :=
| Deliver (delivery : CredentialDeliveryBundle)
| Stage (bundle : CredentialDeliveryBundle)
| Promote
| Paired (m : promotion)
| PrepareJoin (source candidate : LocalCredentialBundleRef) (vm_sha256 begin_sha256 : string)
| Rollback
| Discard
| DropPrevious.

Section Methods.
Context `{MB : Message CredentialDeliveryBundle, MS : Message LocalCredentialState, SH : Sha256}.
Context (st : CredentialStore).

(** The method, with the state it reports *)
Definition method_program (m : method) : prog (option (option LocalCredentialState)) :=
  match m with
  | Deliver b => s ← stage_delivery_candidate st b; mret (Some (Some s))
  | Stage b => s ← stage_candidate st b; mret (Some (Some s))
  | Promote => s ← promote_candidate st; mret (Some (Some s))
  | Paired m => s ← promotion_program st m; mret (Some (Some s))
  | PrepareJoin source c vm b => prepare_windows_existing_join st source c vm b ;; mret None
  | Rollback => s ← rollback_previous st; mret (Some (Some s))
  | Discard => s ← discard_candidate st; mret (Some s)
  | DropPrevious => s ← drop_previous st; mret (Some s)
  end.
(** Where it moves the state *)
Definition method_target (m : method) (s0 s : option LocalCredentialState) : Prop :=
  match m with
  | Deliver b => delivers st b s0 s
  | Stage b => transition st (OpStage (ref_of b)) s0 = Some s
  | Promote | Paired _ => transition st OpPromote s0 = Some s
  | PrepareJoin _ _ _ _ => s = s0
  | Rollback => transition st OpRollback s0 = Some s
  | Discard => transition st OpDiscard s0 = Some s
  | DropPrevious => transition st OpDropPrevious s0 = Some s
  end.
(** Generations are [u64]. *)
Definition method_in_range (m : method) : Prop :=
  match m with Deliver b | Stage b => in_u64 (cdb_generation b) | _ => True end.

Definition reported (r : option (option LocalCredentialState)) (s : option LocalCredentialState)
    : Prop := ∀ x, r = Some x → x = s.

Section Power.
Context {ML : MessageLaws LocalCredentialState storable} (power : bool).

Lemma moves_report {A} L (result : A → option LocalCredentialState → Prop) report p s0 d :
  (∀ a s, result a s → reported (report a) s) → moves st power L result p s0 d →
  moves st power L reported (a ← p; mret (report a)) s0 d.
Proof using Type.
  intros Hr Hp. apply always_bind. eapply always_mono; [done| |exact Hp].
  intros [a|e] d' HI HQ; [|done]. destruct HQ as (s & Hs & HL & Hc).
  apply always_return; [done|]. exists s. eauto.
Qed.
Lemma reported_some a s : some_state a s → reported (Some (Some a)) s.
Proof using Type. intros <- x [= <-]. done. Qed.
Lemma reported_same a s : same_state a s → reported (Some a) s.
Proof using Type. intros <- x [= <-]. done. Qed.

Lemma noted_consistent name S d d' :
  beside name → noted power name d d' → consistent st power S d → consistent st power S d'.
Proof using Type.
  intros [Hb _] Hn. apply consistent_stays.
  - apply Hn. by apply not_eq_sym.
  - intros s r _ _. by apply Hn.
Qed.
Lemma paired_moves m s0 d :
  consistent st power (λ s, s = s0) d →
  moves st power (λ s, transition st OpPromote s0 = Some s) some_state
    (promotion_program st m) s0 d.
Proof using ML.
  intros Hd. destruct (promotions_once st m) as (opened & uncertain & Hm).
  apply Hm; [by apply start_keeps|]. intros text _. apply always_bind.
  assert (∀ d', noted power (promotion_receipt m) d d' → consistent st power (λ s, s = s0) d') as Hn
    by (intros d' H; by eapply noted_consistent; [apply receipt_beside|..]).
  eapply always_mono; [| |apply (write_receipt_spec st power (promotion_receipt m) text)].
  - intros d' H. by apply start_keeps, Hn.
  - intros [[]|e] d1 H1 _; [|by apply start_keeps, Hn]. by apply promote_moves, Hn.
Qed.
Lemma prepare_moves source c vm b s0 d :
  consistent st power (λ s, s = s0) d →
  moves st power (λ s, s = s0) (λ _ _, True) (prepare_windows_existing_join st source c vm b) s0 d.
Proof using Type.
  intros Hd. pose proof (start_keeps st power s0 d (λ s, s = s0) Hd) as HI.
  unfold prepare_windows_existing_join. apply always_check; [done|]. intros [] _.
  eapply always_reads; [apply read_state_reads|done|]. intros state _.
  apply always_check; [done|]. intros s _.
  eapply (always_reads _ _ _ (λ _, True)); [|done|intros refused _].
  { destruct (_ || _); [by apply reads_ret|]. eapply reads_bind; [apply receipt_reads|].
    intros joined _. destruct (is_some joined); [by apply reads_ret|].
    eapply reads_bind; [apply receipt_reads|]. intros. by apply reads_ret. }
  apply always_check; [done|]. intros [] _.
  eapply always_reads; [apply read_bundle_reads|done|]. intros ? _.
  eapply always_reads; [apply read_bundle_reads|done|]. intros ? _.
  assert (∀ d', noted power EXISTING_JOIN_PREPARE_RECEIPT d d' →
    consistent st power (λ s, s = s0) d') as Hn
    by (intros d' H; by apply (noted_consistent EXISTING_JOIN_PREPARE_RECEIPT _ d); [split|..]).
  eapply always_mono; [| |apply (write_receipt_spec st power EXISTING_JOIN_PREPARE_RECEIPT)].
  - intros d' H. by apply start_keeps, Hn.
  - intros [[]|e] d1 H1 _; [|by apply start_keeps, Hn]. exists s0. auto.
Qed.

Lemma method_moves m s0 d :
  consistent st power (λ s, s = s0) d → bundles_settled power d → method_in_range m →
  moves st power (method_target m s0) reported (method_program m) s0 d.
Proof using ML.
  intros Hd Hs Hr. destruct m; cbn [method_program method_target].
  - eapply moves_report; [apply reported_some|by apply deliver_moves].
  - eapply moves_report; [apply reported_some|by apply stage_moves].
  - eapply moves_report; [apply reported_some|by apply promote_moves].
  - eapply moves_report; [apply reported_some|by apply paired_moves].
  - eapply moves_report; [|by apply prepare_moves]. by intros a s _ x.
  - eapply moves_report; [apply reported_some|by apply rollback_moves].
  - eapply moves_report; [apply reported_same|by apply discard_moves].
  - eapply moves_report; [apply reported_same|by apply drop_moves].
Qed.

(** ** A method that returns leaves its bundles durable *)

#[local] Abbreviation settled := (bundles_settled power).
Definition settles {A} (p : prog A) (d : disk) : Prop :=
  always (λ _, True) p (ends (λ _, settled) (λ _, True)) d.
(** Every bundle can come back in at most one version, or be absent. *)
Definition loose (d : disk) : Prop :=
  ∀ r, ∃ b, ∀ o, outcome power d (bundle_path r) o → o = None ∨ o = Some b.

Lemma stays_bundles_settled d d' :
  (∀ r, stays power d d' (bundle_path r)) → settled d → settled d'.
Proof using Type. intros Hs Hd r. eapply settled_stays; [apply Hd|apply Hs]. Qed.
Lemma settled_loose d : settled d → loose d.
Proof using Type.
  intros Hd r. exists (default [] (seen d (bundle_path r))). intros o ->%Hd.
  destruct (seen d (bundle_path r)); auto.
Qed.
Lemma loose_settle d : loose d → settled (settle d BundlesDir).
Proof using Type.
  intros Hl r o Ho. destruct (Hl r) as [b Hb].
  assert (∀ x, outcome power (settle d BundlesDir) (bundle_path r) x → x = None ∨ x = Some b) as Hx
    by (intros x Hx; by apply Hb, (stays_settle power d BundlesDir)).
  pose proof (outcome_seen power (settle d BundlesDir) (bundle_path r)) as Hs.
  destruct (files d !! bundle_path r) as [f|] eqn:E.
  - destruct (outcome_settle_present power d _ o f E Ho) as [? ->].
    destruct (outcome_settle_present power d _ _ f E Hs) as [? Es].
    destruct (Hx _ Ho) as [|[= ->]], (Hx _ Hs) as [|]; congruence.
  - rewrite (outcome_settle_absent power d _ o E Ho). symmetry.
    by apply (outcome_settle_absent power d _ _ E).
Qed.
Lemma loose_remove d p : loose d → loose (put d p None).
Proof using Type.
  intros Hl r. destruct (Hl r) as [b Hb]. exists b. intros o Ho.
  destruct (decide (p = bundle_path r)) as [->|Hne].
  - apply outcome_put in Ho as [->|[->|?]]; auto.
  - apply Hb. by eapply stays_put_other.
Qed.
Lemma remove_loose p msg d :
  loose d → always (λ _, True) (attempt (RemoveFile p) msg) (ends (λ _, loose) (λ _, True)) d.
Proof using Type.
  intros Hd. apply always_attempt_last; [done..|].
  intros [] d' [(-> & _)|[-> _]]; (split; [done|]); [by apply loose_remove|done].
Qed.
Lemma sync_settles d : loose d → settles (sync_directory st BundlesDir) d.
Proof using Type.
  intros Hd. apply always_attempt_last; [done..|].
  intros [] d' [[_ ?]| ->]; [done|]. split; [done|by apply loose_settle].
Qed.
Lemma gc_settles next d : settled d → settles (gc_unreferenced_bundles st next) d.
Proof using Type.
  intros Hd. apply always_attempt; [done..|]. intros entries ? [-> _]. apply always_bind.
  eapply always_post; [|apply (always_for_calls _ loose)]; [..|done| |by apply settled_loose].
  - intros [[]|e] d' H; [by apply sync_settles|done].
  - intros entry d1 H1. apply always_check; [done|]. intros e _.
    apply always_call; [done|]. intros is_file ? [-> _]. destruct is_file; [|by apply always_return].
    apply always_check; [done|]. intros [] _. destruct (strip_suffix _ _); [|by apply always_return].
    destruct (negb _); [|by apply always_return]. by apply remove_loose.
Qed.
Lemma gc_all_settles d : settled d → settles (gc_all_bundles st) d.
Proof using Type.
  intros Hd. apply always_call; [done|]. intros ex ? [-> _]. destruct ex; [|by apply always_return].
  apply always_attempt; [done..|]. intros entries ? [-> _]. apply always_bind.
  eapply always_post; [|apply (always_for_calls _ loose)]; [..|done| |by apply settled_loose].
  - intros [[]|e] d' H; [by apply sync_settles|done].
  - intros entry d1 H1. apply always_check; [done|]. intros e _.
    apply always_call; [done|]. intros is_file ? [-> _]. destruct is_file; [|by apply always_return].
    by apply remove_loose.
Qed.
Lemma write_state_settles next d : settled d → settles (write_state st next) d.
Proof using Type.
  intros Hd. apply always_check; [done|]. intros [] _. apply always_check; [done|]. intros [] _.
  eapply always_reads; [apply verify_references_reads|done|]. intros ? _.
  apply always_check; [done|]. intros b _. apply always_bind.
  eapply always_mono; [done| |apply (write_atomic_spec st power state_path b d)].
  intros [[]|e] d1 [H1 _] _; [|done].
  apply always_attempt; [done..|]. intros observed ? [-> _]. apply always_return; [done|].
  destruct (negb _); [done|]. revert Hd. apply stays_bundles_settled. intros r. apply H1; [done|].
  intros E. by apply (temporary_not_bundle state_path r).
Qed.
Lemma commit_settles {A} next (a : A) d :
  settled d → settles (write_state st next ;; gc_unreferenced_bundles st next ;; mret a) d.
Proof using Type.
  intros Hd. apply always_bind. eapply always_post; [|by apply write_state_settles].
  intros [[]|e] d1 H1; [|done]. apply always_bind. eapply always_post; [|by apply gc_settles].
  intros [[]|e] d2 H2; [|done]. by apply always_return.
Qed.

Lemma promote_settles d : settled d → settles (promote_candidate st) d.
Proof using Type.
  intros Hd. eapply always_reads; [apply read_state_reads|done|]. intros state _.
  apply always_check; [done|]. intros s _. apply always_check; [done|]. intros c _.
  apply always_check; [done|]. intros [] _. by apply commit_settles.
Qed.
Lemma rollback_settles d : settled d → settles (rollback_previous st) d.
Proof using Type.
  intros Hd. eapply always_reads; [apply read_state_reads|done|]. intros state _.
  do 5 (apply always_check; [done|]; intros ? _). apply always_bind.
  eapply always_post; [|by apply write_state_settles].
  intros [[]|e] d1 H1; [|done]. by apply always_return.
Qed.
Lemma drop_settles d : settled d → settles (drop_previous st) d.
Proof using Type.
  intros Hd. eapply always_reads; [apply read_state_reads|done|]. intros [s|] _;
    [|by apply always_return].
  destruct (negb _); [by apply always_return|]. apply always_check; [done|]. intros [] _.
  by apply commit_settles.
Qed.
Lemma remove_state_settles d : settled d → settles (remove_state_file st) d.
Proof using Type.
  intros Hd. assert (settled (put d state_path None)) as H1
    by (revert Hd; apply stays_bundles_settled; intros r; by apply stays_put_other).
  apply always_call; [done|]. intros [[]|e] d' Hr.
  - destruct Hr as [(-> & _)|[_ (e & ? & _)]]; [|done]. apply always_attempt_last; [done..|].
    intros [] d' [[_ ?]| ->]; [done|]. split; [done|]. revert H1. apply stays_bundles_settled.
    intros r. apply stays_settle.
  - destruct (not_found e); [|by apply always_return].
    apply always_return; [done|]. by destruct Hr as [(-> & _)|[-> _]].
Qed.
Lemma discard_settles d : settled d → settles (discard_candidate st) d.
Proof using Type.
  intros Hd. eapply (always_reads _ _ _ (λ _, True)); [|done|intros prepared _].
  { case_bool_decide; [|by apply reads_ret]. eapply reads_bind; [apply receipt_reads|].
    intros. by apply reads_ret. }
  apply always_check; [done|]. intros [] _.
  eapply always_reads; [apply read_state_reads|done|]. intros [s|] _; [|by apply always_return].
  destruct (negb _); [by apply always_return|]. cbv zeta.
  destruct (negb (is_some (lcs_active _)) && _); cycle 1.
  - apply always_check; [done|]. intros [] _. by apply commit_settles.
  - apply always_bind. eapply always_post; [|by apply remove_state_settles].
    intros [[]|e] d1 H1; [|done]. apply always_bind.
    eapply always_post; [|by apply gc_all_settles]. intros [[]|e] d2 H2; [|done].
    by apply always_return.
Qed.
Lemma stage_settles bundle d : settled d → settles (stage_candidate st bundle) d.
Proof using Type.
  intros Hd. apply always_check; [done|]. intros [] _. apply always_check; [done|]. intros [] _.
  apply always_check; [done|]. intros c [Hf ->]%bundle_ref_Ok.
  eapply always_reads; [apply read_state_reads|done|]. intros current _.
  apply always_check; [done|]. intros [next|] _; [|by apply always_return].
  apply always_check; [done|]. intros [] _. apply always_bind.
  eapply always_mono; [done| |apply (prepare_directories_spec st power)].
  intros [[]|e] d1 H1 _; [|done].
  assert (settled d1) as Hd1 by (revert Hd; by apply stays_bundles_settled).
  apply always_bind. eapply always_mono; [done| |apply (persist_bundle_spec st power bundle d1)].
  - intros [[]|e] d2 _ HQ; [|done]. destruct HQ as [[H2 _] Hout]. apply commit_settles.
    intros r o Ho. destruct (decide (bundle_path r = bundle_path (ref_of bundle))) as [E|Hne].
    + rewrite E in *. rewrite (Hout o Ho). symmetry. apply Hout, outcome_seen.
    + revert o Ho. eapply settled_stays; [apply Hd1|]. apply H2; [done|].
      intros E. by apply (temporary_not_bundle (bundle_path (ref_of bundle)) r).
  - apply Hd1.
Qed.
Lemma deliver_settles delivery d : settled d → settles (stage_delivery_candidate st delivery) d.
Proof using Type.
  intros Hd. eapply always_reads; [apply read_state_reads|done|]. intros state _.
  eapply (always_reads _ _ _ (λ _, True)); [|done|intros active _].
  { destruct (state ≫= lcs_active) as [r|]; [|by apply reads_ret].
    eapply reads_bind; [apply read_bundle_reads|]. intros. by apply reads_ret. }
  apply always_check; [done|]. intros candidate _. by apply stage_settles.
Qed.
Lemma noted_settled name d d' : noted power name d d' → settled d → settled d'.
Proof using Type. intros Hn. apply stays_bundles_settled. intros r. by apply Hn. Qed.
Lemma paired_settles m d : settled d → settles (promotion_program st m) d.
Proof using Type.
  intros Hd. destruct (promotions_once st m) as (opened & uncertain & Hm).
  apply Hm; [done|]. intros text _. apply always_bind.
  eapply always_mono; [done| |apply (write_receipt_spec st power (promotion_receipt m) text)].
  intros [[]|e] d1 H1 _; [|done]. apply promote_settles. by eapply noted_settled.
Qed.

Lemma prepare_settles source c vm b d :
  settled d → settles (prepare_windows_existing_join st source c vm b) d.
Proof using Type.
  intros Hd. unfold prepare_windows_existing_join. apply always_check; [done|]. intros [] _.
  eapply always_reads; [apply read_state_reads|done|]. intros state _.
  apply always_check; [done|]. intros s _.
  eapply (always_reads _ _ _ (λ _, True)); [|done|intros refused _].
  { destruct (_ || _); [by apply reads_ret|]. eapply reads_bind; [apply receipt_reads|].
    intros joined _. destruct (is_some joined); [by apply reads_ret|].
    eapply reads_bind; [apply receipt_reads|]. intros. by apply reads_ret. }
  apply always_check; [done|]. intros [] _.
  eapply always_reads; [apply read_bundle_reads|done|]. intros ? _.
  eapply always_reads; [apply read_bundle_reads|done|]. intros ? _.
  eapply always_mono; [done| |apply (write_receipt_spec st power EXISTING_JOIN_PREPARE_RECEIPT)].
  intros [[]|e] d1 H1 _; [|done]. by eapply noted_settled.
Qed.
Lemma settles_report {A B} (report : A → B) p d :
  settles p d → settles (a ← p; mret (report a)) d.
Proof using Type.
  intros Hp. apply always_bind. eapply always_post; [|exact Hp].
  intros [a|e] d' H; [|done]. by apply always_return.
Qed.
Lemma method_settles m d : settled d → settles (method_program m) d.
Proof using Type.
  intros Hd. destruct m; cbn [method_program]; apply settles_report.
  - by apply deliver_settles.
  - by apply stage_settles.
  - by apply promote_settles.
  - by apply paired_settles.
  - by apply prepare_settles.
  - by apply rollback_settles.
  - by apply discard_settles.
  - by apply drop_settles.
Qed.
End Power.
End Methods.
