(* ===== verification/CredentialStoreRuns.v ===== *)
(** * Runs of the credential store

    The store over sequences of methods that return, fail, crash or lose the power, the
    one-shot promotions over two attempts, the receipts read back, and an executable disk on
    which every call succeeds. *)

From S2P Require Import Prelude RustStd RustText HostTypes Concrete Service CrashLogic Credentials.
From S2P Require Import CredentialStore CredentialReceipts CredentialDisk CredentialStoreFacts.
From S2P Require Import CredentialStoreSafety CredentialPromotions.

(** ** Receipts read back *)

Lemma digest_line v : valid_first_use_digest v = true → str_all line_char v = true.
Proof.
  intros [_ Hv]%andb_true. revert Hv. apply str_all_impl.
  intros c. by destruct c as [[] [] [] [] [] [] [] []].
Qed.
Lemma dec_i32_line z : str_all line_char (dec_i32 z) = true.
Proof. unfold dec_i32. case_match; [|apply dec_line]. cbn [String.app str_all]. apply dec_line. Qed.
Lemma slot_cases s : slot_a_or_b s = true ↔ s = 1 ∨ s = 2.
Proof. unfold slot_a_or_b. destruct (Z.eqb_spec s 1), (Z.eqb_spec s 2); simpl; naive_solver. Qed.

Lemma lines_line a s : str_all line_char a = true → lines (line a +:+ s) = a :: lines s.
Proof. intros Ha. unfold line. rewrite app_assoc_str. by apply lines_cons. Qed.
Lemma lines_last a : str_all line_char a = true → lines (line a) = [a].
Proof. intros Ha. unfold line. rewrite <- (app_nil_r_str nl). by rewrite lines_cons. Qed.

(** A line of a receipt: a key without line ends and a value *)
Lemma key_line key v :
  str_all line_char key = true → str_all line_char v = true → str_all line_char (key +:+ v) = true.
Proof. intros Hk Hv. by rewrite str_all_app, Hk, Hv. Qed.

Create HintDb receipt discriminated.
#[export] Hint Resolve digest_line dec_line dec_i32_line key_line : receipt.
Ltac receipt_line := apply key_line; [reflexivity|auto with receipt].

Lemma starts_key key v : starts_with key (key +:+ v) = true.
Proof. apply starts_with_true. by exists v. Qed.
Lemma rest_key key v : rest_after key (key +:+ v) = v.
Proof. unfold rest_after. by rewrite strip_prefix_app. Qed.
Lemma u64_key g : in_u64 g → parse_uint u64_max (dec g) = Some g.
Proof. apply parse_uint_dec. Qed.
Lemma slot_key s : slot_a_or_b s = true → is_slot (parse_i32 (dec_i32 s)) = true.
Proof. by intros [->| ->]%slot_cases. Qed.

Lemma initial_pair_lines projection g s i :
  valid_first_use_digest i = true →
  lines (initial_pair_text projection g s i) =
  ["sing-box.initial-paired-commit/v1"; "projection=" +:+ dec_i32 (as_i32 projection);
   "generation=" +:+ dec g; "slot=" +:+ dec_i32 s; "intent_sha256=" +:+ i].
Proof.
  intros Hi. unfold initial_pair_text.
  rewrite !lines_line, lines_last; [done|..]; try receipt_line; reflexivity.
Qed.
Lemma initial_pair_reads_back projection g s i :
  g ≠ 0 → in_u64 g → slot_a_or_b s = true → valid_first_use_digest i = true →
  initial_pair_well_formed projection (initial_pair_text projection g s i) = true.
Proof.
  intros Hg Hu Hs Hi. unfold initial_pair_well_formed. rewrite initial_pair_lines by done.
  rewrite !starts_key, !rest_key, slot_key, Hi by done. unfold u64_or_zero. rewrite u64_key by done.
  rewrite (proj2 (str_eqb_true _ _) eq_refl). simpl default. rewrite (proj2 (Z.eqb_neq _ _) Hg).
  by rewrite (proj2 (str_eqb_true ("projection=" +:+ _) _) eq_refl).
Qed.

Lemma after_equals_key key v :
  str_all (λ x, negb (Ascii.eqb x "=")) key = true → after_equals (key +:+ String "=" v) = v.
Proof. intros Hk. unfold after_equals. by rewrite split_once_app. Qed.
Lemma str_eqb_same s : str_eqb s s = true.
Proof. by apply str_eqb_true. Qed.


Lemma initial_recovery_reads_back projection g s o r c :
  g ≠ 0 → in_u64 g → slot_a_or_b s = true → all_digests [o; r; c] →
  initial_recovery_well_formed projection (initial_recovery_text projection g s o r c) = true.
Proof.
  intros Hg Hu Hs Hd. unfold all_digests in Hd. rewrite !Forall_cons_iff in Hd.
  destruct Hd as (Ho & Hr & Hc & _).
  assert (lines (initial_recovery_text projection g s o r c) =
    ["sing-box.initial-paired-recovery/v1"; "projection=" +:+ dec_i32 (as_i32 projection);
     "generation=" +:+ dec g; "slot=" +:+ dec_i32 s; "original_intent_sha256=" +:+ o;
     "recovery_intent_sha256=" +:+ r; "candidate_sha256=" +:+ c]) as Hl.
  { unfold initial_recovery_text.
    rewrite !lines_line, lines_last; [done|..]; try receipt_line; reflexivity. }
  unfold initial_recovery_well_formed. rewrite Hl, !starts_key, !rest_key, slot_key, !str_eqb_same by done.
  unfold u64_or_zero. rewrite u64_key by done. simpl default. rewrite (proj2 (Z.eqb_neq _ _) Hg).
  cbn [forallb].
  rewrite (after_equals_key "original_intent_sha256" o eq_refl
             : after_equals ("original_intent_sha256=" +:+ o) = o).
  rewrite (after_equals_key "recovery_intent_sha256" r eq_refl
             : after_equals ("recovery_intent_sha256=" +:+ r) = r).
  rewrite (after_equals_key "candidate_sha256" c eq_refl
             : after_equals ("candidate_sha256=" +:+ c) = c).
  by rewrite Ho, Hr, Hc.
Qed.

(** The fields of the two join receipts *)
Lemma field_at fields i key v :
  fields !! i = Some (key +:+ v) → field fields i key = Some v.
Proof. intros Hi. unfold field. rewrite Hi. simpl. by rewrite strip_prefix_app. Qed.
Lemma u64_field_at fields i key g :
  in_u64 g → fields !! i = Some (key +:+ dec g) → u64_field fields i key = Some g.
Proof. intros Hg Hi. unfold u64_field. rewrite (field_at _ _ _ _ Hi). by apply u64_key. Qed.
Lemma slot_field_at fields i key s :
  slot_a_or_b s = true → fields !! i = Some (key +:+ dec_i32 s) → u64_field fields i key = Some s.
Proof.
  intros Hs Hi. unfold u64_field. rewrite (field_at _ _ _ _ Hi).
  by apply slot_cases in Hs as [->| ->].
Qed.
Lemma hex_field_at fields i key v :
  valid_first_use_digest v = true → fields !! i = Some (key +:+ v) → hex_field fields i key = true.
Proof. intros Hv Hi. unfold hex_field. by rewrite (field_at _ _ _ _ Hi). Qed.

Lemma existing_join_reads_back projection wg ws w vg vs v wc i :
  wg ≠ 0 → in_u64 wg → vg ≠ 0 → in_u64 vg → wg ≠ vg →
  slot_a_or_b ws = true → slot_a_or_b vs = true → ws ≠ vs → all_digests [w; v; wc; i] →
  existing_join_well_formed projection (existing_join_text projection wg ws w vg vs v wc i) = true.
Proof.
  intros Hwg Hwu Hvg Hvu Hne Hws Hvs Hns Hd. unfold all_digests in Hd.
  rewrite !Forall_cons_iff in Hd. destruct Hd as (Hw & Hv & Hwc & Hi & _).
  unfold existing_join_well_formed. set (fields := lines _).
  assert (fields = ["sing-box.existing-active-join/v1";
    "projection=" +:+ dec_i32 (as_i32 projection); "windows_generation=" +:+ dec wg;
    "windows_slot=" +:+ dec_i32 ws; "windows_sha256=" +:+ w; "vm_generation=" +:+ dec vg;
    "vm_slot=" +:+ dec_i32 vs; "vm_sha256=" +:+ v; "windows_candidate_sha256=" +:+ wc;
    "intent_sha256=" +:+ i]) as Hl.
  { unfold fields, existing_join_text.
    rewrite !lines_line, lines_last; [done|..]; try receipt_line; reflexivity. }
  rewrite (u64_field_at fields 2 _ wg), (u64_field_at fields 5 _ vg), (slot_field_at fields 3 _ ws),
    (slot_field_at fields 6 _ vs), (hex_field_at fields 4 _ w), (hex_field_at fields 7 _ v),
    (hex_field_at fields 8 _ wc), (hex_field_at fields 9 _ i) by (done || by rewrite Hl).
  rewrite Hl. cbn [length Nat.eqb lookup list_lookup none_or_zero is_slot].
  rewrite !bool_decide_eq_true_2 by done.
  rewrite (bool_decide_eq_false_2 (Some wg = Some vg)) by congruence.
  rewrite (bool_decide_eq_false_2 (Some ws = Some vs)) by congruence.
  by rewrite (proj2 (Z.eqb_neq _ _) Hwg), (proj2 (Z.eqb_neq _ _) Hvg), Hws, Hvs.
Qed.

Lemma join_prepare_reads_back source c vm b :
  valid_ref source → valid_ref c → in_u64 (ref_generation source) → in_u64 (ref_generation c) →
  ref_generation source ≠ ref_generation c → ref_slot source = 1 → ref_slot c = 2 →
  all_digests [ref_sha256 source; ref_sha256 c; vm; b] →
  join_prepare_well_formed (join_prepare_text Projection_Windows source c vm b) = true.
Proof.
  intros [Hsg _] [Hcg _] Hsu Hcu Hne Hss Hcs Hd. unfold all_digests in Hd.
  rewrite !Forall_cons_iff in Hd. destruct Hd as (Hs & Hc & Hv & Hb & _).
  unfold join_prepare_well_formed. set (fields := lines _).
  assert (fields = ["sing-box.existing-active-prepare/v1";
    "projection=" +:+ dec_i32 (as_i32 Projection_Windows);
    "source_generation=" +:+ dec (ref_generation source);
    "source_slot=" +:+ dec_i32 (ref_slot source); "source_sha256=" +:+ ref_sha256 source;
    "target_generation=" +:+ dec (ref_generation c); "target_slot=" +:+ dec_i32 (ref_slot c);
    "target_sha256=" +:+ ref_sha256 c; "vm_sha256=" +:+ vm; "begin_sha256=" +:+ b]) as Hl.
  { unfold fields, join_prepare_text.
    rewrite !lines_line, lines_last; [done|..]; try receipt_line; reflexivity. }
  rewrite (u64_field_at fields 2 _ (ref_generation source)),
    (u64_field_at fields 5 _ (ref_generation c)), (slot_field_at fields 3 _ (ref_slot source)),
    (slot_field_at fields 6 _ (ref_slot c)), (hex_field_at fields 4 _ (ref_sha256 source)),
    (hex_field_at fields 7 _ (ref_sha256 c)), (hex_field_at fields 8 _ vm),
    (hex_field_at fields 9 _ b)
    by (done || (by rewrite Hl) || (by rewrite ?Hss, ?Hcs)).
  rewrite Hl, Hss, Hcs. cbn [length Nat.eqb lookup list_lookup none_or_zero].
  rewrite !bool_decide_eq_true_2 by done.
  rewrite (bool_decide_eq_false_2 (Some _ = Some _)) by congruence.
  by rewrite (proj2 (Z.eqb_neq _ _) Hsg), (proj2 (Z.eqb_neq _ _) Hcg).
Qed.

(** ** An executable disk: every call succeeds *)

Definition absent : io_error := {| not_found := true; io_text := "entity not found" |}.
Definition refused : io_error := {| not_found := false; io_text := "operation failed" |}.

Definition answer {R} (c : store_call R) (d : disk) : R * disk :=
  match c in store_call R return R * disk with
  | DirExists dir => (bool_decide (dir ∈ dirs d), d)
  | DirIsDir dir => (bool_decide (dir ∈ dirs d), d)
  | Exists p => (bool_decide (is_Some (files d !! p)), d)
  | IsFile p => (bool_decide (is_Some (files d !! p)), d)
  | Read p => (ok_or (seen d p) absent, d)
  | ReadToString p => (ok_or (String.string_of_list_byte <$> seen d p) absent, d)
  | CreateDirAll dir => (Ok tt, make_dir d dir)
  | ReadDir dir =>
      (Ok ((λ p : path, Ok {| entry_name := p.2; entry_utf8 := true |}) <$>
             List.filter (λ p : path, bool_decide (p.1 = dir)) (map_to_list (files d)).*1), d)
  | RemoveFile p =>
      if decide (is_Some (files d !! p)) then (Ok tt, put d p None) else (Err absent, d)
  | CreateNew p =>
      if decide (files d !! p = None ∧ p.1 ∈ dirs d)
      then (Ok tt, put d p (Some {| file_data := []; file_synced := false |}))
      else (Err refused, d)
  | WriteAll p b => (Ok tt, set_file d p {| file_data := b; file_synced := false |})
  | SyncAll p =>
      match files d !! p with
      | Some f => (Ok tt, set_file d p {| file_data := file_data f; file_synced := true |})
      | None => (Err refused, d)
      end
  | Rename source target =>
      match files d !! source with
      | Some f =>
          if decide (target.1 ∈ dirs d) then (Ok tt, put (put d target (Some f)) source None)
          else (Err refused, d)
      | None => (Err absent, d)
      end
  | SetDirPermissions _ | SetFilePermissions _ => (Ok tt, d)
  | SyncDir dir => (Ok tt, settle d dir)
  end.

Lemma answer_step {R} (c : store_call R) d : step c d (answer c d).1 (answer c d).2.
Proof.
  destruct c; simpl; try (by auto); try (split; [done|]).
  - by rewrite bool_decide_eq_true.
  - by rewrite bool_decide_eq_true.
  - by rewrite bool_decide_eq_true.
  - by rewrite bool_decide_eq_true.
  - by destruct (seen d p).
  - destruct (seen d p) as [b|]; simpl; [|done]. f_equal.
    symmetry. apply String.list_byte_of_string_of_list_byte.
  - intros items [= <-]. split.
    + intros e (q & [= ->] & Hq)%list_elem_of_fmap. simpl.
      apply list_elem_of_In, List.filter_In in Hq as [Hq%list_elem_of_In Hd].
      apply bool_decide_eq_true in Hd as <-. destruct q as [dir n]. simpl.
      apply list_elem_of_fmap in Hq as ((q & f) & [= <-] & Hin%elem_of_map_to_list). eauto.
    + intros n [f Hf]. left. exists {| entry_name := n; entry_utf8 := true |}. split; [|done].
      apply list_elem_of_fmap. exists (d0, n). split; [done|].
      apply list_elem_of_In, List.filter_In. split; [|by apply bool_decide_eq_true].
      apply list_elem_of_In, list_elem_of_fmap. exists ((d0, n), f).
      by rewrite elem_of_map_to_list.
  - case_decide; simpl; [left|right]; [done|]. split; [done|]. exists absent.
    split; [done|]. intros _. by apply eq_None_not_Some.
  - case_decide as H; simpl; [left|by right]. split_and!; [done|apply H..].
  - eexists. split_and!; [done|done|]. by intros.
  - destruct (files d !! p) as [f|] eqn:E; simpl; [right|by left]. by exists f.
  - destruct (files d !! source) as [f|] eqn:E; simpl; [|by left].
    case_decide; simpl; [right|by left]. by exists f.
Qed.

Lemma disk_returns {A} (p : service store_call A) d :
  returns p d (exec (@answer) p d).1 (exec (@answer) p d).2.
Proof. apply exec_returns. intros R. apply answer_step. Qed.
Abbreviation exec_for := (CrashLogic.exec_for (@answer)).
Lemma disk_during {A} n (p : service store_call A) d : during p d (exec_for n p d).
Proof. apply exec_for_during. intros R. apply answer_step. Qed.

Definition empty_disk : disk := {| files := ∅; older := ∅; dirs := ∅ |}.

(** ** Properties *)

Section Properties.
Context `{MB : Message CredentialDeliveryBundle, MS : Message LocalCredentialState, SH : Sha256}.
Context {ML : MessageLaws LocalCredentialState storable} (st : CredentialStore).

(** C25: The store refines its state machine. Let the disk hold one state, the only
    one that a loss of power can bring back, and let no bundle of the store come back
    in another version. A method, stopped at any point, whatever its calls answered,
    leaves a disk on which a later process, also one after a loss of power, finds the
    old state or the one the machine moves to, with every bundle that state
    references; when the method returns, its state is the one the machine moves to, no
    other can come back, and again no bundle can come back in another version, so that
    the next method starts from such a disk. The condition on the bundles is needed:
    see [reused_bundle_lost]. *)
Theorem store_refines (power : bool) (m : method) (s0 : option LocalCredentialState) (d d' : disk) :
  consistent st power (λ s, s = s0) d → bundles_settled power d → method_in_range m →
  (during (method_program st m) d d' →
     keeps st power (λ s, s = s0 ∨ method_target st m s0 s) d') ∧
  (∀ r, returns (method_program st m) d (Ok r) d' →
     ∃ s, reported r s ∧ method_target st m s0 s ∧ consistent st power (λ x, x = s) d' ∧
       bundles_settled power d').
Proof.
  intros Hd Hs Hr. pose proof (method_moves st power m s0 d Hd Hs Hr) as Hm. split.
  - intros Hu. by eapply always_during.
  - intros r Hu. pose proof (always_returns _ _ _ _ _ _ _ (method_settles st power m d Hs) Hu) as Hb.
    eapply always_returns in Hu; [|exact Hm]. destruct Hu as (s & ? & ? & ?). by exists s.
Qed.

(** Power comes back: the store is consistent with one of the states it kept. *)
Lemma keeps_power_loss S d d' :
  keeps st true S d → power_loss d d' →
  ∃ s, S s ∧ consistent st true (λ x, x = s) d' ∧ bundles_settled true d'.
Proof.
  intros (T & HT & [Hcs Hcb]) Hp.
  assert (∀ p o, outcome true d' p o → o = seen d' p) as Hseen.
  { intros p o. destruct Hp as (Ho & _ & Hf). apply outcome_settled.
    - by rewrite Ho.
    - intros f E. destruct (Hf p) as (v & _ & _ & H). by apply H. }
  destruct (Hcs _ (outcome_power_loss d d' state_path Hp)) as (s & HTs & Hok).
  exists s. split_and!; [by apply HT| |by intros r o; apply Hseen]. split.
  - intros o ->%Hseen. eauto.
  - intros x r o <- Hr ->%Hseen. eapply Hcb; [done..|]. by apply outcome_power_loss.
Qed.
Lemma keeps_process S d :
  keeps st false S d → ∃ s, S s ∧ consistent st false (λ x, x = s) d ∧ bundles_settled false d.
Proof.
  intros (T & HT & [Hcs Hcb]).
  assert (∀ p o, outcome false d p o → o = seen d p) as Hseen by by intros p o [?|[? _]].
  destruct (Hcs _ (outcome_seen false d state_path)) as (s & HTs & Hok).
  exists s. split_and!; [by apply HT| |by intros r o; apply Hseen]. split.
  - intros o ->%Hseen. eauto.
  - intros x r o <- Hr Ho. by eapply Hcb.
Qed.

(** Without a loss of power only what is there matters. *)
Lemma consistent_process S d : consistent st true S d → consistent st false S d.
Proof.
  assert (∀ p o, outcome false d p o → outcome true d p o) as Ho by (intros p o [?|[? _]]; by left).
  intros [Hs Hb]. split; eauto.
Qed.

(** The disk has caught up: the state file and the bundles are as the processes saw them,
    and a loss of power does not change them any more. *)
Definition written (d d' : disk) : Prop :=
  (∀ p, seen d' p = seen d p) ∧
  (∀ o, outcome true d' state_path o → o = seen d' state_path) ∧ bundles_settled true d'.

(** The histories of the store. Methods follow each other on a fresh disk; each returns, or
    fails, or is stopped at any point by a crash of the process or by a loss of power.
    [reachable false] are the disks on which writes of a method that failed or crashed may
    still be pending; the power is not lost after a further method until they are
    [written]. *)
Inductive reachable : bool → disk → Prop :=
| reach_fresh d : dom (files d) = ∅ → older d = ∅ → reachable true d
| reach_returned power m r d d' :
    reachable power d → method_in_range m → returns (method_program st m) d (Ok r) d' →
    reachable power d'
| reach_stopped power m d d' :
    reachable power d → method_in_range m → during (method_program st m) d d' →
    reachable false d'
| reach_power_loss m d d1 d2 :
    reachable true d → method_in_range m → during (method_program st m) d d1 →
    power_loss d1 d2 → reachable true d2
| reach_written d d' : reachable false d → written d d' → reachable true d'.

Lemma written_consistent s d d' :
  consistent st false (λ x, x = s) d → written d d' → consistent st true (λ x, x = s) d'.
Proof.
  intros [Hs Hb] (Hd & Hstate & Hbundles). split.
  - intros o ->%Hstate. rewrite Hd. apply Hs, outcome_seen.
  - intros x r o <- Hr ->%Hbundles. rewrite Hd. eapply Hb; [done..|]. apply outcome_seen.
Qed.
Lemma reachable_consistent power d :
  reachable power d →
  ∃ s, consistent st power (λ x, x = s) d ∧ bundles_settled power d.
Proof.
  induction 1 as [d Hf Ho|power m r d d' _ (s & Hd & Hs) Hr Hm|power m d d' _ (s & Hd & Hs) Hr Hm
    |m d d1 d2 _ (s & Hd & Hs) Hr Hm Hp|d d' _ (s & Hd & Hs) Hw].
  - apply dom_empty_inv_L in Hf.
    assert (∀ p o, outcome true d p o → o = seen d p) as Hseen.
    { intros p o. apply outcome_settled; [by rewrite Ho|by rewrite Hf]. }
    exists None. split; [|by intros r o; apply Hseen]. split; [|done].
    intros o ->%Hseen. exists None. split; [done|]. unfold seen. by rewrite Hf.
  - pose proof (always_returns _ _ _ _ _ _ _ (method_settles st power m d Hs) Hm) as Hb.
    eapply always_returns in Hm; [|by apply (method_moves st power m s d)].
    destruct Hm as (s' & _ & _ & ?). by exists s'.
  - assert (consistent st false (λ x, x = s) d) as Hd'
      by (destruct power; [by apply consistent_process|done]).
    assert (bundles_settled false d) as Hs' by by intros r o [?|[? _]].
    eapply always_during in Hm; [|by apply (method_moves st false m s d)].
    destruct (keeps_process _ _ Hm) as (s' & _ & ? & ?). eauto.
  - eapply always_during in Hm; [|by apply (method_moves st true m s d)].
    destruct (keeps_power_loss _ _ _ Hm Hp) as (s' & _ & ? & ?). eauto.
  - exists s. split; [by eapply written_consistent|apply Hw].
Qed.

(** C24: The store survives. Let methods follow each other on a fresh disk, each of
    them returning, or failing at any of its calls, or stopped at any point by a crash
    of the process or by a loss of power: the state file is absent or holds a valid
    state of this host, and every bundle it references is there and is the one it
    references; a read of the state that returns gives exactly that state. One history
    is left out, for [reused_bundle_lost] shows that it can lose a bundle: another
    method runs while writes of a method that failed or crashed are still pending, and
    the power is lost before the disk has written them. *)
Theorem store_survives (power : bool) (d : disk) :
  reachable power d →
  ∃ s, state_ok st (seen d state_path) s ∧
    (∀ s', s = Some s' → valid_state s' ∧ lcs_projection s' = as_i32 (store_projection st) ∧
       Forall (λ r, bundle_ok st r (seen d (bundle_path r))) (state_references s')) ∧
    reads d (read_state st) (λ s', s' = s).
Proof.
  intros (s & Hd & _)%reachable_consistent. exists s.
  destruct (consistent_seen _ _ _ _ Hd) as (s' & -> & Hok). split_and!; [done| |].
  - intros s' ->. destruct (current_valid st power s' d Hd) as [Hv Hp]. split_and!; [done..|].
    apply list.Forall_forall. intros r Hr. apply (con_bundles st power _ d Hd s' r); [done..|].
    apply outcome_seen.
  - by apply (read_current st power).
Qed.

(** C26: A paired promotion happens once. Let an attempt be stopped anywhere and let a
    second one with the same receipt follow, after the process crashed or the power
    was lost: what the second one finds is the state as it was before the first, or
    the receipt of the first, complete, and then the second attempt changes nothing
    and fails. *)
Theorem promotion_once (m m' : promotion) (d0 d1 d2 d3 : disk) :
  promotion_receipt m' = promotion_receipt m →
  during (promotion_program st m) d0 d1 → d2 = d1 ∨ power_loss d1 d2 →
  during (promotion_program st m') d2 d3 →
  outcome true d0 state_path (seen d2 state_path) ∨
  (∃ text, promotion_text st m text ∧
     seen d2 (RootDir, promotion_receipt m) = Some (as_bytes text)) ∧
  d3 = d2 ∧ ∀ s d, ¬ returns (promotion_program st m') d2 (Ok s) d.
Proof using Type.
  intros Hname H1 H2 H3.
  assert (∀ p, outcome true d1 p (seen d2 p)) as Hout.
  { intros p. destruct H2 as [->|H2]; [apply outcome_seen|by apply outcome_power_loss]. }
  destruct (promotions_once st m) as (opened & uncertain & Hm).
  assert (receipt_first true (promotion_receipt m) (promotion_text st m) d0 d1) as Hfirst.
  { eapply always_during; [|exact H1]. apply Hm; [left; apply stays_refl|].
    intros text Ht. by apply noted_promotion_first; [apply receipt_beside|]. }
  destruct Hfirst as [Hs|(text & Ht & Hr)]; [left; by apply Hs|right].
  pose proof (Hr _ (Hout _)) as Hseen. split; [by eauto|].
  destruct (promotions_once st m') as (opened' & uncertain' & Hm').
  unfold seen in Hseen. destruct (files d2 !! _) as [f|] eqn:Ef; [|done]. rewrite <- Hname in Ef.
  assert (always (λ d, d = d2) (promotion_program st m') (ends (λ _ _, False) (λ d, d = d2)) d2)
    as Hreplay by (apply Hm'; [done|]; intros; by eapply noted_promotion_replay).
  split; [exact (always_during _ _ _ _ _ _ Hreplay H3)|].
  intros s d Hret. exact (always_returns _ _ _ _ _ _ _ Hreplay Hret).
Qed.
End Properties.

(** Every receipt the store writes is accepted by the method that reads it back, so
    that a complete receipt is never reported as malformed: the commit and the
    recovery of an initial pair, the two joins, and the preparation of the Windows
    join. *)
Theorem receipts_read_back (projection : CredentialProjectionKind) :
  (∀ g s i, g ≠ 0 → in_u64 g → slot_a_or_b s = true → valid_first_use_digest i = true →
     initial_pair_well_formed projection (initial_pair_text projection g s i) = true) ∧
  (∀ g s o r c, g ≠ 0 → in_u64 g → slot_a_or_b s = true → all_digests [o; r; c] →
     initial_recovery_well_formed projection (initial_recovery_text projection g s o r c) = true) ∧
  (∀ wg ws w vg vs v wc i, wg ≠ 0 → in_u64 wg → vg ≠ 0 → in_u64 vg → wg ≠ vg →
     slot_a_or_b ws = true → slot_a_or_b vs = true → ws ≠ vs → all_digests [w; v; wc; i] →
     existing_join_well_formed projection
       (existing_join_text projection wg ws w vg vs v wc i) = true) ∧
  (∀ source c vm b, valid_ref source → valid_ref c → in_u64 (ref_generation source) →
     in_u64 (ref_generation c) → ref_generation source ≠ ref_generation c →
     ref_slot source = 1 → ref_slot c = 2 →
     all_digests [ref_sha256 source; ref_sha256 c; vm; b] →
     join_prepare_well_formed (join_prepare_text Projection_Windows source c vm b) = true).
Proof.
  split_and!; intros.
  - by apply initial_pair_reads_back.
  - by apply initial_recovery_reads_back.
  - by apply existing_join_reads_back.
  - by apply join_prepare_reads_back.
Qed.

(** ** A concrete store *)

(** A codec of all the values of a countable type: the bits of its code *)
Fixpoint pos_bits (p : positive) : bytes :=
  match p with xH => [] | xO p => x00 :: pos_bits p | xI p => x01 :: pos_bits p end.
Fixpoint bits_pos (b : bytes) : positive :=
  match b with [] => xH | x :: b => if byte_eqb x x00 then xO (bits_pos b) else xI (bits_pos b) end.
Lemma bits_pos_bits p : bits_pos (pos_bits p) = p.
Proof. induction p as [p IH|p IH|]; simpl; [by rewrite IH..|done]. Qed.
Definition countable_message {A} `{Countable A} : Message A := {|
  encode_to_vec := λ x, pos_bits (encode x);
  decode := λ b, countable.decode (bits_pos b)
|}.
Lemma countable_message_laws {A} `{Countable A} (R : A → Prop) :
  @MessageLaws A countable_message R.
Proof. split. intros x _. simpl. rewrite bits_pos_bits. apply countable.decode_encode. Qed.

#[global] Instance LocalCredentialBundleRef_countable : Countable LocalCredentialBundleRef.
Proof.
  refine (inj_countable' (λ r, (ref_generation r, ref_slot r, ref_sha256 r))
    (λ '(g, s, d), Build_LocalCredentialBundleRef g s d) _). by intros [].
Defined.
#[global] Instance LocalCredentialState_countable : Countable LocalCredentialState.
Proof.
  refine (inj_countable' (λ s, (lcs_schema_version s, lcs_projection s, lcs_active s,
      lcs_candidate s, lcs_previous s))
    (λ '(v, p, a, c, o), Build_LocalCredentialState v p a c o) _). by intros [].
Defined.

Module Sample.
Definition hex (c : ascii) (n : nat) : string := String.string_of_list_ascii (replicate n c).
Definition auth (c : ascii) : TunnelAuthentication :=
  {| ta_vless_uuid := hex c 8 +:+ "-" +:+ hex c 4 +:+ "-" +:+ hex c 4 +:+ "-" +:+ hex c 4
                      +:+ "-" +:+ hex c 12;
     ta_hysteria2_password := hex c 64; ta_reality_short_id := hex c 16 |}.
Definition tunnel (g : Z) (c : ascii) : TunnelAuthenticationGeneration :=
  {| tag_generation := g; tag_direct := Some (auth c); tag_warp := Some (auth c) |}.
Definition reality (g : Z) (c : ascii) : RealityPrivateIdentityGeneration :=
  {| rprivg_generation := g; rprivg_direct := Some {| rpriv_private_key := hex c 43 |};
     rprivg_warp := Some {| rpriv_private_key := hex c 43 |} |}.
(** The first projection of the VM, in slot A, and a rotation of its tunnel authentication *)
Definition first : CredentialDeliveryBundle :=
  {| cdb_schema_version := 1; cdb_generation := 1; cdb_projection := 2;
     cdb_dummy_non_secret := false; cdb_slot := 1;
     cdb_payload := Some (Payload_Vm
       {| vcp_tunnel_auth := Some (tunnel 1 "a"); vcp_reality_identity := Some (reality 1 "B");
          vcp_line2_proxy := Some {| proxy_generation := 1; proxy_password := hex "c" 64 |} |}) |}.
Definition rotation : CredentialDeliveryBundle :=
  {| cdb_schema_version := 1; cdb_generation := 2; cdb_projection := 2;
     cdb_dummy_non_secret := false; cdb_slot := 2;
     cdb_payload := Some (Payload_VmRotation
       {| vrd_credential_class := 1; vrd_tunnel_auth := Some (tunnel 2 "d");
          vrd_reality_identity := None; vrd_line2_proxy := None |}) |}.
Definition second : CredentialDeliveryBundle :=
  {| cdb_schema_version := 1; cdb_generation := 2; cdb_projection := 2;
     cdb_dummy_non_secret := false; cdb_slot := 2;
     cdb_payload := Some (Payload_Vm
       {| vcp_tunnel_auth := Some (tunnel 2 "d"); vcp_reality_identity := Some (reality 1 "B");
          vcp_line2_proxy := Some {| proxy_generation := 1; proxy_password := hex "c" 64 |} |}) |}.

#[global] Instance bundle_message : Message CredentialDeliveryBundle :=
  table_message [first; second].
#[global] Instance state_message : Message LocalCredentialState := countable_message.
#[global] Instance state_laws : MessageLaws LocalCredentialState storable :=
  countable_message_laws storable.

Definition store : CredentialStore :=
  {| store_root := "/var/lib/edge/credentials"; store_projection := Projection_Vm |}.
Definition intent : string := hex "e" 64.
Definition initial : promotion := InitialPair 1 1 intent.

(** A fresh host stages the first projection, promotes it with its receipt, stages the
    rotation and promotes it, rolls back and drops the rotation. *)
Definition after {A} (p : prog A) (d : disk) : disk := (exec (@answer) p d).2.
Definition result_of {A} (p : prog A) (d : disk) : res A := (exec (@answer) p d).1.
Definition staged : disk := after (method_program store (Deliver first)) empty_disk.
Definition active : disk := after (method_program store (Paired initial)) staged.
Definition rotated : disk := after (method_program store (Deliver rotation)) active.
Definition promoted : disk := after (method_program store Promote) rotated.
Definition back : disk := after (method_program store Rollback) promoted.
End Sample.

Example sample_materializes :
  materialize_credential_delivery_candidate (Some Sample.first) Sample.rotation = Ok Sample.second.
Proof. vm_compute. reflexivity. Qed.
Example sample_cycle :
  let final := Sample.result_of (method_program Sample.store DropPrevious) Sample.back in
  ∃ s, final = Ok (Some (Some s)) ∧ lcs_active s = Some (ref_of Sample.first) ∧
    lcs_candidate s = None ∧ lcs_previous s = None.
Proof. eexists. vm_compute. repeat split. Qed.

Lemma fresh_consistent `{Message CredentialDeliveryBundle, Message LocalCredentialState, Sha256}
    st power : consistent st power (λ s, s = None) empty_disk ∧ bundles_settled power empty_disk.
Proof.
  assert (∀ p o, outcome power empty_disk p o → o = None) as Hn.
  { intros p o Ho. by apply outcome_settled in Ho. }
  split; [split|]; [|done|].
  - intros o ->%Hn. by exists None.
  - intros r o ->%Hn. done.
Qed.

Lemma sample_returns {A} (p : prog A) d : returns p d (Sample.result_of p d) (Sample.after p d).
Proof. apply disk_returns. Qed.

(** The first staging on a fresh disk, and the disk after each of its first calls *)
Lemma store_refines_witness :
  let m := Deliver Sample.first in
  (∀ n, keeps Sample.store true (λ s, s = None ∨ method_target Sample.store m None s)
     (exec_for n (method_program Sample.store m) empty_disk)) ∧
  ∃ s, method_target Sample.store m None s ∧
    consistent Sample.store true (λ x, x = s) Sample.staged.
Proof.
  destruct (fresh_consistent Sample.store true) as [Hc Hs].
  assert (method_in_range (Deliver Sample.first)) as Hr by (simpl; unfold in_u64, u64_max; lia).
  split.
  - intros n. apply (store_refines Sample.store true (Deliver Sample.first) None empty_disk _ Hc Hs Hr).
    apply disk_during.
  - destruct (store_refines Sample.store true (Deliver Sample.first) None empty_disk Sample.staged
      Hc Hs Hr) as [_ Hret].
    assert (returns (method_program Sample.store (Deliver Sample.first)) empty_disk
      (Ok (Some (Some {| lcs_schema_version := 1; lcs_projection := 2; lcs_active := None;
                         lcs_candidate := Some (ref_of Sample.first); lcs_previous := None |})))
      Sample.staged) as He.
    { assert (Sample.result_of (method_program Sample.store (Deliver Sample.first)) empty_disk =
        Ok (Some (Some {| lcs_schema_version := 1; lcs_projection := 2; lcs_active := None;
                          lcs_candidate := Some (ref_of Sample.first); lcs_previous := None |})))
        as <- by (vm_compute; reflexivity).
      unfold Sample.staged. exact (sample_returns _ _). }
    destruct (Hret _ He) as (s & _ & Ht & Hs' & _). by exists s.
Defined.

(** Loss of power may undo a change of the entry [p] that was not synced. *)
Lemma power_loss_drop d p :
  None ∈ held d p → (∀ q f, files d !! q = Some f → file_synced f = true) →
  power_loss d {| files := delete p (files d); older := ∅; dirs := dirs d |}.
Proof.
  intros Hp Hs. split_and!; [done..|]. intros q. destruct (decide (q = p)) as [->|Hq].
  - exists None. unfold seen. simpl. rewrite lookup_delete, decide_True by done. split_and!; done.
  - exists (files d !! q). unfold seen, held. simpl. rewrite lookup_delete_ne by done.
    split_and!; [by left| |by apply Hs].
    destruct (files d !! q) as [f|] eqn:E; simpl; [|done]. by exists (file_data f).
Qed.

(** The first staging stops between the rename of the bundle and the sync of its directory,
    and the power is lost: the bundle is gone, and the host stages it again. *)
Module Lost.
Definition interrupted : disk :=
  exec_for 14 (method_program Sample.store (Stage Sample.first)) empty_disk.
Definition lost : disk :=
  {| files := delete (bundle_path (ref_of Sample.first)) (files interrupted); older := ∅;
     dirs := dirs interrupted |}.
Definition again : disk := Sample.after (method_program Sample.store (Stage Sample.first)) lost.
End Lost.

(** The promotion of that staging, stopped after any of its calls *)
Lemma store_survives_witness :
  is_ok (Sample.result_of (method_program Sample.store (Stage Sample.first)) Lost.lost) = true ∧
  seen Lost.interrupted (bundle_path (ref_of Sample.first)) ≠ None ∧
  seen Lost.lost (bundle_path (ref_of Sample.first)) = None ∧
  seen Lost.again state_path ≠ None ∧
  ∀ n, ∃ s, state_ok Sample.store
    (seen (exec_for n (method_program Sample.store (Paired Sample.initial)) Lost.again) state_path) s.
Proof.
  split; [vm_compute; reflexivity|]. split; [vm_compute; discriminate|].
  split; [vm_compute; reflexivity|]. split; [vm_compute; discriminate|]. intros n.
  assert (method_in_range (Stage Sample.first)) as Hr by (simpl; unfold in_u64, u64_max; lia).
  assert (reachable Sample.store true Lost.lost) as Hlost.
  { eapply (reach_power_loss _ (Stage Sample.first) empty_disk Lost.interrupted);
      [by apply reach_fresh|done|apply disk_during|]. apply power_loss_drop.
    - apply (bool_decide_unpack _). vm_compute. exact I.
    - apply (bool_decide_unpack (map_Forall (λ _ f, file_synced f = true) (files Lost.interrupted))).
      vm_compute. exact I. }
  assert (reachable Sample.store true Lost.again) as Hagain.
  { destruct (Sample.result_of (method_program Sample.store (Stage Sample.first)) Lost.lost)
      as [r|e] eqn:He; [|vm_compute in He; discriminate He].
    apply (reach_returned _ true (Stage Sample.first) r Lost.lost); [done..|].
    rewrite <- He. exact (sample_returns _ _). }
  destruct (store_survives Sample.store false (exec_for n (method_program Sample.store
    (Paired Sample.initial)) Lost.again)) as (s & Hs & _); [|by exists s].
  apply (reach_stopped _ true (Paired Sample.initial) Lost.again); [done..|]. apply disk_during.
Defined.

(** The first promotion runs to its end; a second one fails. *)
Definition promoted_once : disk :=
  Sample.after (promotion_program Sample.store Sample.initial) Sample.staged.
Lemma promotion_once_witness :
  (∃ text, seen promoted_once (RootDir, INITIAL_PAIR_COMMIT_RECEIPT) = Some (as_bytes text)) ∧
  ∀ s d, ¬ returns (promotion_program Sample.store Sample.initial) promoted_once (Ok s) d.
Proof.
  destruct (promotion_once Sample.store Sample.initial Sample.initial Sample.staged promoted_once
    promoted_once promoted_once) as [H|((text & _ & Ht) & _ & H)].
  - reflexivity.
  - unfold promoted_once. exact (returns_during _ _ _ _ _ (sample_returns _ _)).
  - by left.
  - exact (disk_during 0 _ _).
  - exfalso. apply outcome_settled in H.
    + vm_compute in H. discriminate H.
    + vm_compute. reflexivity.
    + intros f Hf. vm_compute in Hf. injection Hf as <-. reflexivity.
  - split; [by exists text|exact H].
Defined.

(** The rotation of the sample *)
Lemma rotation_materializes_witness :
  materialize_credential_delivery_candidate (Some Sample.first) Sample.rotation = Ok Sample.second ∧
  rotates Sample.first Sample.rotation Sample.second.
Proof.
  assert (materialize_credential_delivery_candidate (Some Sample.first) Sample.rotation =
    Ok Sample.second) as Hm by (vm_compute; reflexivity).
  split; [exact Hm|].
  destruct (rotation_materializes Sample.first Sample.rotation eq_refl) as (_ & H & _).
  apply (H Sample.second Hm).
Defined.

(** ** A bundle file that is found is not synced again *)

Module Reuse.
Definition stage : prog LocalCredentialState := stage_candidate Sample.store Sample.first.
(** The first staging stops between the rename of the bundle and the sync of its directory;
    the second one finds the file, writes the state and stops before it collects. *)
Definition interrupted : disk := exec_for 14 stage empty_disk.
Definition restaged : disk := exec_for 18 stage interrupted.
Definition lost : disk :=
  {| files := delete (bundle_path (ref_of Sample.first)) (files restaged); older := ∅;
     dirs := dirs restaged |}.
End Reuse.

(** A staged bundle whose directory entry was never synced is accepted by the next staging:
    a loss of power then leaves the state without the bundle it references. *)
Theorem reused_bundle_lost :
  during Reuse.stage empty_disk Reuse.interrupted ∧
  during Reuse.stage Reuse.interrupted Reuse.restaged ∧
  power_loss Reuse.restaged Reuse.lost ∧
  is_ok (Sample.result_of (read_state Sample.store) Reuse.restaged) = true ∧
  is_err (Sample.result_of (read_state Sample.store) Reuse.lost) = true.
Proof.
  split_and!; [apply disk_during..| |vm_compute; reflexivity|vm_compute; reflexivity].
  apply power_loss_drop.
  - apply (bool_decide_unpack _). vm_compute. exact I.
  - apply (bool_decide_unpack (map_Forall (λ _ f, file_synced f = true) (files Reuse.restaged))).
    vm_compute. exact I.
Qed.
