(* ===== verification/CredentialStoreProgress.v ===== *)
(** * The credential store makes progress

    On a disk that performs its calls, a method that the state machine allows and that is
    [ready] returns, with the state the machine gives. *)

From S2P Require Import Prelude RustStd HostTypes Concrete Service CrashLogic Credentials.
From S2P Require Import CredentialStore CredentialReceipts CredentialDisk CredentialStoreFacts.
From S2P Require Import CredentialStoreSafety CredentialPromotions CredentialStoreRuns.

(** [p] runs to an [Ok] result. *)
Definition succeeds {A} (p : prog A) (d : disk) (Q : A → disk → Prop) : Prop :=
  ∃ a d', exec (@answer) p d = (Ok a, d') ∧ Q a d'.

Lemma succeeds_bind {A B} (p : prog A) (f : A → prog B) d P Q :
  succeeds p d P → (∀ a d', P a d' → succeeds (f a) d' Q) → succeeds (p ≫= f) d Q.
Proof.
  intros (a & d' & Hp & HP) Hf. destruct (Hf a d' HP) as (b & d2 & Hb & HQ).
  exists b, d2. split; [|done]. rewrite exec_fbind, Hp. done.
Qed.
Lemma succeeds_pure {A} (r : res A) a d (Q : A → disk → Prop) :
  r = Ok a → Q a d → succeeds (pure_step r) d Q.
Proof. intros -> HQ. by exists a, d. Qed.
Lemma succeeds_ret {A} (a : A) d (Q : A → disk → Prop) : Q a d → succeeds (mret a) d Q.
Proof. intros HQ. by exists a, d. Qed.
Lemma succeeds_call {R B} (c : store_call R) (f : R → prog B) d Q :
  succeeds (f (answer c d).1) (answer c d).2 Q → succeeds (invoke c ≫= f) d Q.
Proof.
  intros (b & d2 & Hb & HQ). exists b, d2. split; [|done]. rewrite exec_call.
  by destruct (answer c d).
Qed.
Lemma succeeds_attempt {A} (c : store_call (result io_error A)) msg a d d' (Q : A → disk → Prop) :
  answer c d = (Ok a, d') → Q a d' → succeeds (attempt c msg) d Q.
Proof.
  intros Hc HQ. apply succeeds_call. rewrite Hc. by apply (succeeds_pure _ a).
Qed.
Lemma succeeds_check {A B} (r : res A) a (f : A → prog B) d Q :
  r = Ok a → succeeds (f a) d Q → succeeds (pure_step r ≫= f) d Q.
Proof.
  intros Hr Hf. eapply succeeds_bind; [by apply (succeeds_pure _ a _ (λ x d', x = a ∧ d' = d))|].
  by intros ? ? [-> ->].
Qed.
Lemma succeeds_mono {A} (p : prog A) d (P Q : A → disk → Prop) :
  (∀ a d', P a d' → Q a d') → succeeds p d P → succeeds p d Q.
Proof. intros HPQ (a & d' & ? & ?). exists a, d'. auto. Qed.
(** A step that leaves the disk alone *)
Lemma succeeds_read {A B} (p : prog A) (f : A → prog B) d a Q :
  succeeds p d (λ x d', x = a ∧ d' = d) → succeeds (f a) d Q → succeeds (p ≫= f) d Q.
Proof. intros Hp Hf. eapply succeeds_bind; [exact Hp|]. by intros ? ? [-> ->]. Qed.
Lemma succeeds_for_calls {A} (f : A → prog unit) xs d :
  (∀ x d, x ∈ xs → succeeds (f x) d (λ _ _, True)) → succeeds (for_calls f xs) d (λ _ _, True).
Proof.
  revert d. induction xs as [|x xs IH]; intros d Hf; [by apply succeeds_ret|]. simpl.
  eapply succeeds_bind; [apply Hf; by left|]. intros [] d' _. apply IH. intros y d2 Hy.
  apply Hf. by right.
Qed.

Section Progress.
Context `{MB : Message CredentialDeliveryBundle, MS : Message LocalCredentialState, SH : Sha256}.
Context {ML : MessageLaws LocalCredentialState storable} (st : CredentialStore).

(** ** Reading *)

Lemma read_bundle_succeeds r d :
  bundle_ok st r (seen d (bundle_path r)) →
  succeeds (read_bundle st r ;; mret tt) d (λ _ d', d' = d).
Proof using Type.
  intros (b & bundle & Hb & Hd & Hv). eapply succeeds_read.
  - eapply succeeds_read; [eapply succeeds_attempt; [simpl; rewrite Hb; reflexivity|done]|].
    eapply succeeds_check; [exact Hd|]. eapply succeeds_check; [exact Hv|]. by apply succeeds_ret.
  - by apply succeeds_ret.
Qed.
Lemma verify_references_succeeds s d :
  Forall (λ r, bundle_ok st r (seen d (bundle_path r))) (state_references s) →
  succeeds (verify_state_references st s) d (λ x d', x = tt ∧ d' = d).
Proof using Type.
  unfold verify_state_references. induction 1 as [|r rs Hr _ IH]; [by apply succeeds_ret|].
  eapply succeeds_bind; [by apply read_bundle_succeeds|]. by intros [] ? ->.
Qed.
Lemma read_state_succeeds s0 d :
  consistent st false (λ s, s = s0) d →
  succeeds (read_state st) d (λ s d', s = s0 ∧ d' = d).
Proof using Type.
  intros Hd. destruct (consistent_seen _ _ _ _ Hd) as (s & -> & Hs). apply succeeds_call.
  cbn [answer fst snd]. destruct s0 as [s|]; simpl in Hs.
  - destruct Hs as (b & Hb & Hdec & Hp & _). rewrite Hb. cbn [ok_or].
    eapply succeeds_check; [exact Hdec|]. eapply succeeds_check; [exact Hp|].
    eapply succeeds_read; [apply verify_references_succeeds|by apply succeeds_ret].
    apply list.Forall_forall. intros r Hr. apply (con_bundles st false _ d Hd s r); [done..|].
    apply outcome_seen.
  - rewrite Hs. by apply succeeds_ret.
Qed.

(** ** Writing *)

Lemma clear_temporary_succeeds p d :
  succeeds (clear_temporary st p) d (λ _ d', files d' !! p = None ∧ dirs d' = dirs d).
Proof using Type.
  apply succeeds_call. cbn [answer]. case_decide as H; cbn [fst snd not_found absent].
  - apply succeeds_ret. split; [apply put_same|done].
  - apply succeeds_ret. split; [by apply eq_None_not_Some|done].
Qed.
Lemma make_dir_has d dir : dir ∈ dirs (make_dir d dir).
Proof using Type. apply elem_of_union_l, elem_of_union_r. by apply elem_of_singleton. Qed.
Lemma write_atomic_succeeds p b d :
  succeeds (write_atomic_private st p b) d (λ _ d', seen d' p = Some b).
Proof using Type.
  eapply succeeds_bind; [by eapply (succeeds_attempt _ _ tt _ _ (λ _ d', p.1 ∈ dirs d'));
    [done|apply make_dir_has]|]. intros [] d1 H1.
  eapply succeeds_bind; [by eapply (succeeds_attempt _ _ tt _ _ (λ _ d', d' = d1))|]. intros [] ? ->.
  eapply succeeds_bind; [apply clear_temporary_succeeds|]. intros [] d2 [Hn Hdir].
  set (t := temporary_path p) in *.
  eapply succeeds_bind; [eapply (succeeds_attempt _ _ tt _ (put d2 t (Some
    {| file_data := []; file_synced := false |})) (λ _ d', is_Some (files d' !! t) ∧ p.1 ∈ dirs d'))|].
  { simpl. rewrite decide_True; [done|]. split; [done|]. by rewrite Hdir. }
  { rewrite put_same. split; [done|]. simpl. by rewrite Hdir. }
  intros [] d3 [[f Hf] H3].
  eapply succeeds_bind; [by eapply (succeeds_attempt _ _ tt _ _ (λ _ d',
    files d' !! t = Some {| file_data := b; file_synced := false |} ∧ p.1 ∈ dirs d'));
    [done|split; [by eapply set_file_lookup|]]|].
  clear f Hf H3. intros [] d4 [Hf H4].
  eapply succeeds_bind; [eapply (succeeds_attempt _ _ tt _ (set_file d4 t
    {| file_data := b; file_synced := true |}) (λ _ d',
    files d' !! t = Some {| file_data := b; file_synced := true |} ∧ p.1 ∈ dirs d'))|].
  { cbn [answer]. fold t. by rewrite Hf. }
  { split; [by eapply set_file_lookup|done]. }
  clear Hf H4. intros [] d5 [Hf H5].
  eapply succeeds_bind; [by eapply (succeeds_attempt _ _ tt _ _ (λ _ d', d' = d5))|]. intros [] ? ->.
  eapply succeeds_bind; [eapply (succeeds_attempt _ _ tt _ _ (λ _ d', seen d' p = Some b))|].
  { cbn [answer]. fold t. rewrite Hf, decide_True by done. reflexivity. }
  { unfold seen. rewrite put_other by apply temporary_not_self. by rewrite put_same. }
  intros [] d6 H6. by eapply succeeds_attempt.
Qed.

Lemma write_state_succeeds next d :
  lcs_projection next = as_i32 (store_projection st) → valid_state next →
  Forall (λ r, bundle_ok st r (seen d (bundle_path r))) (state_references next) →
  succeeds (write_state st next) d (λ _ _, True).
Proof using Type.
  intros Hp Hv Hr. apply (succeeds_check _ tt); [unfold require_state_projection; by rewrite Hp, Z.eqb_refl|].
  apply (succeeds_check _ tt); [by apply local_state_valid|].
  eapply succeeds_read; [by apply verify_references_succeeds|].
  apply (succeeds_check _ (encode_to_vec next)).
  { unfold encode_local_credential_state. by rewrite (proj2 (local_state_valid next) Hv). }
  eapply succeeds_bind; [apply write_atomic_succeeds|]. intros [] d1 H1.
  eapply succeeds_read; [eapply succeeds_attempt; [simpl; rewrite H1; reflexivity|done]|].
  apply (succeeds_pure _ tt); [|done]. by rewrite (proj2 (bytes_eqb_true _ _) eq_refl).
Qed.

Lemma remove_file_succeeds p msg d :
  is_Some (files d !! p) → succeeds (attempt (RemoveFile p) msg) d (λ _ _, True).
Proof using Type. intros Hp. eapply succeeds_attempt; [|done]. cbn. by rewrite decide_True. Qed.
Lemma listed_entry dir d entry :
  entry ∈ ((λ p : path, Ok (E := io_error) {| entry_name := p.2; entry_utf8 := true |}) <$>
    List.filter (λ p : path, bool_decide (p.1 = dir)) (map_to_list (files d)).*1) →
  ∃ n, entry = Ok {| entry_name := n; entry_utf8 := true |}.
Proof using Type. intros (p & -> & _)%list_elem_of_fmap. eauto. Qed.

Lemma gc_unreferenced_succeeds next d :
  succeeds (gc_unreferenced_bundles st next) d (λ _ _, True).
Proof using Type.
  eapply succeeds_read; [by eapply succeeds_attempt|].
  eapply succeeds_bind; [apply succeeds_for_calls|intros; by eapply succeeds_attempt].
  intros entry d1 (n & ->)%listed_entry. eapply succeeds_check; [reflexivity|].
  apply succeeds_call. cbn [answer fst snd entry_name]. case_bool_decide as Hf; [|by apply succeeds_ret].
  eapply succeeds_check; [reflexivity|]. cbn [entry_name].
  destruct (strip_suffix ".pb" n); [|by apply succeeds_ret].
  destruct (negb _); [by apply remove_file_succeeds|by apply succeeds_ret].
Qed.
Lemma gc_all_succeeds d : succeeds (gc_all_bundles st) d (λ _ _, True).
Proof using Type.
  apply succeeds_call. cbn [answer fst snd]. case_bool_decide; [|by apply succeeds_ret].
  eapply succeeds_read; [by eapply succeeds_attempt|].
  eapply succeeds_bind; [apply succeeds_for_calls|intros; by eapply succeeds_attempt].
  intros entry d1 (n & ->)%listed_entry. eapply succeeds_check; [reflexivity|].
  apply succeeds_call. cbn [answer fst snd entry_name]. case_bool_decide as Hf; [|by apply succeeds_ret].
  by apply remove_file_succeeds.
Qed.
Lemma commit_succeeds {A} next (a : A) d :
  lcs_projection next = as_i32 (store_projection st) → valid_state next →
  Forall (λ r, bundle_ok st r (seen d (bundle_path r))) (state_references next) →
  succeeds (write_state st next ;; gc_unreferenced_bundles st next ;; mret a) d (λ x _, x = a).
Proof using Type.
  intros Hp Hv Hr. eapply succeeds_bind; [by apply write_state_succeeds|]. intros [] d1 _.
  eapply succeeds_bind; [apply gc_unreferenced_succeeds|]. intros [] d2 _. by apply succeeds_ret.
Qed.

(** ** The machine keeps states valid *)

Lemma opposite_sym l r : opposite l r → opposite r l.
Proof using Type. intros (? & ? & ?). split_and!; by apply not_eq_sym. Qed.

(** A state of this host *)
Definition local_state (s : LocalCredentialState) : Prop :=
  valid_state s ∧ lcs_projection s = as_i32 (store_projection st).

Lemma local_valid next s :
  local_state s → lcs_schema_version next = 1 →
  lcs_projection next = as_i32 (store_projection st) →
  state_shape (lcs_active next) (lcs_candidate next) (lcs_previous next) →
  state_references next ⊆ state_references s → local_state next.
Proof using Type.
  intros [[Hv Hp Hs Hr] Hps] Hn Hpn Hsn Hsub. split; [|done]. split; [done| |done|].
  - by rewrite Hpn, <- Hps.
  - eapply (range_sub s next valid_ref); done.
Qed.
Lemma promoted_local s c :
  local_state s → lcs_candidate s = Some c → local_state (promoted st s c).
Proof using Type.
  intros Hl Hc. destruct Hl as [[Hv Hp Hs Hr] Hps]. apply (local_valid _ s); [done..| |].
  - simpl. rewrite Hc in Hs. inversion Hs as [c' E1 E2 E3| |a c' Ho E1 E2 E3|].
    + apply shape_active.
    + by apply shape_replaced, opposite_sym.
  - unfold state_references. rewrite Hc. cbn. intros r. rewrite !elem_of_app, !elem_of_cons. tauto.
Qed.
Lemma rolled_back_local s a p :
  local_state s → lcs_active s = Some a → lcs_candidate s = None → lcs_previous s = Some p →
  local_state (rolled_back st a p).
Proof using Type.
  intros Hl Ha Hc Hpr. destruct Hl as [[Hv Hp Hs Hr] Hps]. apply (local_valid _ s); [done..| |].
  - simpl. rewrite Ha, Hc, Hpr in Hs. inversion Hs. by apply shape_replaced, opposite_sym.
  - unfold state_references. rewrite Ha, Hc, Hpr. cbn. intros r. rewrite !elem_of_cons. tauto.
Qed.
Lemma without_previous_local s :
  local_state s → is_Some (lcs_previous s) → local_state (without_previous s).
Proof using Type.
  intros Hl [p Hpr]. destruct Hl as [[Hv Hp Hs Hr] Hps]. apply (local_valid _ s); [done..| |].
  - simpl. rewrite Hpr in Hs.
    destruct (lcs_active s), (lcs_candidate s); try (by inversion Hs). apply shape_active.
  - unfold state_references. cbn. intros r. rewrite !elem_of_app, elem_of_nil. tauto.
Qed.
Lemma without_candidate_local s c a :
  local_state s → lcs_candidate s = Some c → lcs_active s = Some a →
  local_state (with_candidate s None).
Proof using Type.
  intros Hl Hc Ha. destruct Hl as [[Hv Hp Hs Hr] Hps]. apply (local_valid _ s); [done..| |].
  - simpl. rewrite Hc, Ha in Hs. rewrite Ha. inversion Hs. apply shape_active.
  - unfold state_references. cbn. intros r. rewrite !elem_of_app. tauto.
Qed.

Lemma consistent_backs s next d :
  consistent st false (λ x, x = Some s) d → state_references next ⊆ state_references s →
  Forall (λ r, bundle_ok st r (seen d (bundle_path r))) (state_references next).
Proof using Type.
  intros Hd Hsub. apply list.Forall_forall. intros r Hr.
  apply (con_bundles st false _ d Hd s r); [done|by apply Hsub|apply outcome_seen].
Qed.

(** ** The methods *)

Lemma promote_succeeds s c d :
  consistent st false (λ x, x = Some s) d → lcs_candidate s = Some c →
  succeeds (promote_candidate st) d (λ x _, x = promoted st s c).
Proof using Type.
  intros Hd Hc. pose proof (current_valid st false s d Hd) as Hl.
  eapply succeeds_read; [by apply read_state_succeeds|].
  eapply succeeds_check; [reflexivity|]. apply (succeeds_check _ c); [by rewrite Hc|].
  pose proof (promoted_local s c Hl Hc) as [Hv Hp].
  apply (succeeds_check _ tt); [by apply (proj2 (local_state_valid (promoted st s c)))|].
  apply (commit_succeeds (promoted st s c)); [done..|]. apply (consistent_backs s); [done|].
  unfold state_references. rewrite Hc. cbn. intros r. rewrite !elem_of_app, !elem_of_cons. tauto.
Qed.
Lemma rollback_succeeds s a p d :
  consistent st false (λ x, x = Some s) d →
  lcs_active s = Some a → lcs_candidate s = None → lcs_previous s = Some p →
  succeeds (rollback_previous st) d (λ x _, x = rolled_back st a p).
Proof using Type.
  intros Hd Ha Hc Hpr. pose proof (current_valid st false s d Hd) as Hl.
  eapply succeeds_read; [by apply read_state_succeeds|].
  eapply succeeds_check; [reflexivity|]. apply (succeeds_check _ tt); [by rewrite Hc|].
  apply (succeeds_check _ a); [by rewrite Ha|]. apply (succeeds_check _ p); [by rewrite Hpr|].
  pose proof (rolled_back_local s a p Hl Ha Hc Hpr) as [Hv Hp].
  apply (succeeds_check _ tt); [by apply (proj2 (local_state_valid (rolled_back st a p)))|].
  eapply succeeds_bind; [|intros [] d1 _; by apply succeeds_ret].
  apply (write_state_succeeds (rolled_back st a p)); [done..|]. apply (consistent_backs s); [done|].
  unfold state_references. rewrite Ha, Hc, Hpr. cbn. intros r. rewrite !elem_of_cons. tauto.
Qed.
Lemma drop_succeeds s0 s d :
  consistent st false (λ x, x = s0) d → transition st OpDropPrevious s0 = Some s →
  succeeds (drop_previous st) d (λ x _, x = s).
Proof using Type.
  intros Hd Ht. eapply succeeds_read; [by apply read_state_succeeds|].
  destruct s0 as [s'|]; [|injection Ht as <-; by apply succeeds_ret].
  pose proof (current_valid st false s' d Hd) as Hl. injection Ht as <-.
  destruct (is_some (lcs_previous s')) eqn:Ep; cbn [negb].
  - apply is_some_true in Ep. destruct (without_previous_local s' Hl Ep) as [Hv Hp].
    apply (succeeds_check _ tt); [by apply local_state_valid|].
    apply (commit_succeeds (without_previous s')); [done..|]. apply (consistent_backs s'); [done|].
    unfold state_references. cbn. intros r. rewrite !elem_of_app, elem_of_nil. tauto.
  - apply is_some_false in Ep. apply succeeds_ret. destruct s'. cbn in *. by subst.
Qed.
Lemma no_receipt_succeeds name unreadable well_formed malformed d :
  seen d (RootDir, name) = None →
  succeeds (read_receipt name unreadable well_formed malformed) d (λ x d', x = None ∧ d' = d).
Proof using Type.
  intros Hn. apply succeeds_call. cbn [answer fst snd]. rewrite Hn. by apply succeeds_ret.
Qed.
Lemma remove_state_succeeds s d :
  consistent st false (λ x, x = Some s) d → succeeds (remove_state_file st) d (λ _ _, True).
Proof using Type.
  intros Hd. destruct (consistent_seen _ _ _ _ Hd) as (x & -> & (b & Hb & _)).
  apply succeeds_call. cbn [answer]. rewrite decide_True; [by eapply succeeds_attempt|].
  unfold seen in Hb. destruct (files d !! state_path); [done|]. done.
Qed.
Lemma discard_succeeds s0 s d :
  consistent st false (λ x, x = s0) d → transition st OpDiscard s0 = Some s →
  seen d (RootDir, EXISTING_JOIN_PREPARE_RECEIPT) = None →
  succeeds (discard_candidate st) d (λ x _, x = s).
Proof using Type.
  intros Hd Ht Hn. apply (succeeds_read _ _ _ false).
  { case_bool_decide; [|by apply succeeds_ret]. eapply succeeds_read; [by apply no_receipt_succeeds|].
    by apply succeeds_ret. }
  apply (succeeds_check _ tt); [done|].
  eapply succeeds_read; [by apply read_state_succeeds|].
  destruct s0 as [s'|]; [|injection Ht as <-; by apply succeeds_ret].
  pose proof (current_valid st false s' d Hd) as Hl. simpl in Ht.
  destruct (lcs_candidate s') as [c|] eqn:Ec; [|injection Ht as <-; by apply succeeds_ret].
  change (negb (is_some (Some c))) with false. cbn [with_candidate lcs_active lcs_previous].
  destruct (lcs_active s') as [a|] eqn:Ea; injection Ht as <-.
  - destruct (without_candidate_local s' c a Hl Ec Ea) as [Hv Hp].
    cbn [negb is_some andb]. change (negb (is_some (Some a)) && _) with false.
    apply (succeeds_check _ tt); [by apply local_state_valid|].
    apply (commit_succeeds (with_candidate s' None)); [done..|]. apply (consistent_backs s'); [done|].
    unfold state_references. cbn. intros r. rewrite !elem_of_app. tauto.
  - destruct Hl as [[_ _ Hs _] _]. rewrite Ec, Ea in Hs.
    destruct (lcs_previous s') as [p|]; [by inversion Hs|].
    eapply succeeds_bind; [by apply (remove_state_succeeds s')|]. intros [] d1 _.
    eapply succeeds_bind; [apply gc_all_succeeds|]. intros [] d2 _. by apply succeeds_ret.
Qed.

(** ** Staging *)

(** The bundle can be stored: it is one of this host, prost gives it back, and its file, if
    there is one, holds it. *)
Record storable_bundle (bundle : CredentialDeliveryBundle) (d : disk) : Prop := {
  sb_full : full_projection bundle;
  sb_projection : cdb_projection bundle = as_i32 (store_projection st);
  sb_decodes : decode (encode_to_vec bundle) = Some bundle;
  sb_file : seen d (bundle_path (ref_of bundle)) = None ∨
    seen d (bundle_path (ref_of bundle)) = Some (encode_to_vec bundle)
}.

Lemma encoded_bundle_ok bundle d :
  storable_bundle bundle d → bundle_ok st (ref_of bundle) (Some (encode_to_vec bundle)).
Proof using Type.
  intros [Hf Hp Hd _]. exists (encode_to_vec bundle), bundle. split_and!; [done|..].
  - unfold decode_credential_delivery_bundle. rewrite Hd. cbn [ok_or mbind result_bind].
    by rewrite (fp_valid _ Hf), (proj2 (bytes_eqb_true _ _) eq_refl).
  - unfold verify_local_credential_bundle_reference. rewrite ref_of_valid by done.
    rewrite (fp_valid _ Hf), (fp_real _ Hf), (fp_full _ Hf), Hp, Z.eqb_refl. cbn.
    rewrite !Z.eqb_refl. cbn.
    rewrite (proj2 (bundle_sha256_Ok bundle _) (conj (fp_valid _ Hf) eq_refl)). cbn.
    by rewrite (proj2 (str_eqb_true _ _) eq_refl).
Qed.

Lemma prepare_directories_succeeds d :
  succeeds (prepare_directories st) d (λ _ d', ∀ p, seen d' p = seen d p).
Proof using Type. do 2 eexists. split; [reflexivity|]. intros p. reflexivity. Qed.
Lemma persist_bundle_succeeds bundle d :
  storable_bundle bundle d →
  succeeds (persist_bundle st bundle (ref_of bundle)) d
    (λ _ d', seen d' (bundle_path (ref_of bundle)) = Some (encode_to_vec bundle)).
Proof using Type.
  intros Hb. destruct (encoded_bundle_ok bundle d Hb) as (b & x & [= <-] & Hd & Hv).
  pose proof (sb_file _ _ Hb) as Hfile. destruct Hb as [Hf Hp Hdec _].
  apply (succeeds_check _ (encode_to_vec bundle)).
  { unfold encode_credential_delivery_bundle. by rewrite (fp_valid _ Hf). }
  apply (succeeds_check _ (bundle_digest bundle)).
  { apply bundle_sha256_Ok. split; [apply (fp_valid _ Hf)|done]. }
  apply (succeeds_check _ tt); [by rewrite (proj2 (str_eqb_true _ _) eq_refl)|].
  apply succeeds_call. cbn [answer fst snd]. case_bool_decide as He.
  - assert (seen d (bundle_path (ref_of bundle)) = Some (encode_to_vec bundle)) as Hs.
    { destruct Hfile as [Hn|?]; [|done]. destruct He as [f Hfl]. unfold seen in Hn.
      by rewrite Hfl in Hn. }
    eapply succeeds_read; [eapply succeeds_attempt; [cbn; rewrite Hs; reflexivity|done]|].
    apply (succeeds_check _ tt); [by rewrite (proj2 (bytes_eqb_true _ _) eq_refl)|].
    eapply succeeds_check; [exact Hd|]. by eapply succeeds_pure.
  - eapply succeeds_bind; [apply write_atomic_succeeds|]. intros [] d1 H1.
    eapply succeeds_read; [eapply succeeds_attempt; [cbn; rewrite H1; reflexivity|done]|].
    apply (succeeds_pure _ tt); [|done]. by rewrite (proj2 (bytes_eqb_true _ _) eq_refl).
Qed.

(** Another bundle is where it was. *)
Lemma persist_bundle_frame bundle r d d' :
  returns (persist_bundle st bundle (ref_of bundle)) d (Ok tt) d' →
  ref_sha256 r ≠ ref_sha256 (ref_of bundle) → seen d' (bundle_path r) = seen d (bundle_path r).
Proof using Type.
  intros Hret Hne. assert (∀ d p o, outcome false d p o → o = seen d p) as Hseen
    by by intros ? ? ? [?|[? _]].
  eapply always_returns in Hret; [|apply (persist_bundle_spec st false bundle d)].
  - destruct Hret as [[Hq _] _]. apply Hseen, Hq, outcome_seen.
    + intros E%bundle_path_inj. done.
    + intros E. by apply (temporary_not_bundle (bundle_path (ref_of bundle)) r).
  - apply Hseen.
Qed.
Lemma stage_backs s0 cur bundle d d1 d2 :
  cur = default (empty_state st) s0 → lcs_candidate cur = None → lcs_previous cur = None →
  valid_state (with_candidate cur (Some (ref_of bundle))) →
  consistent st false (λ x, x = s0) d → (∀ p, seen d1 p = seen d p) →
  returns (persist_bundle st bundle (ref_of bundle)) d1 (Ok tt) d2 →
  bundle_ok st (ref_of bundle) (seen d2 (bundle_path (ref_of bundle))) →
  Forall (λ r, bundle_ok st r (seen d2 (bundle_path r)))
    (state_references (with_candidate cur (Some (ref_of bundle)))).
Proof using Type.
  intros Hcur Hc Hp Hv Hd H1 Hret Hok. apply list.Forall_forall.
  intros r [Ha|Ha]%staged_references; [|by subst r|done..].
  destruct s0 as [s|]; simpl in *; subst cur; [|done].
  assert (r ∈ state_references s) as Hr by (by apply unstaged_references).
  rewrite (persist_bundle_frame bundle r d1 d2 Hret), H1.
  - apply (con_bundles st false _ d Hd s r); [done..|]. apply outcome_seen.
  - by eapply (staged_digest st (Some s) s).
Qed.

Lemma stage_succeeds bundle s0 s d :
  consistent st false (λ x, x = s0) d → storable_bundle bundle d → local_state s →
  transition st (OpStage (ref_of bundle)) s0 = Some (Some s) →
  succeeds (stage_candidate st bundle) d (λ x _, x = s).
Proof.
  intros Hd Hb [Hv Hp] Ht.
  apply (succeeds_check _ tt). { unfold require_bundle_projection. by rewrite (sb_projection _ _ Hb), Z.eqb_refl. }
  apply (succeeds_check _ tt); [by rewrite (fp_real _ (sb_full _ _ Hb))|].
  apply (succeeds_check _ (ref_of bundle)). { apply bundle_ref_Ok. split; [apply (sb_full _ _ Hb)|done]. }
  eapply succeeds_read; [by apply read_state_succeeds|].
  simpl in Ht. set (cur := default (empty_state st) s0) in *. unfold check_staging.
  destruct (lcs_candidate cur) as [c|] eqn:Ec, (lcs_previous cur) eqn:Epr; try discriminate Ht.
  - case_decide as Hc; [|done]. injection Ht as <-. eapply succeeds_check.
    { by rewrite bool_decide_eq_true_2. } by apply succeeds_ret.
  - injection Ht as <-. set (next := with_candidate cur (Some (ref_of bundle))) in *.
    apply (succeeds_check _ (Some next)).
    { pose proof (vs_shape _ Hv) as Hs. simpl in Hs. rewrite Epr in Hs.
      destruct (lcs_active cur) as [a|]; [|done]. inversion Hs as [| |a' c' Ho|]; subst.
      destruct Ho as (Hg & _ & Hsl). rewrite bool_decide_eq_false_2 by (by intros ->).
      simpl. simpl in Hsl. by rewrite (proj2 (Z.eqb_neq _ _) Hsl). }
    apply (succeeds_check _ tt); [by apply local_state_valid|].
    eapply succeeds_bind; [apply prepare_directories_succeeds|]. intros [] d1 H1.
    assert (storable_bundle bundle d1) as Hb1.
    { destruct Hb. split; [done..|]. by rewrite H1. }
    pose proof (disk_returns (persist_bundle st bundle (ref_of bundle)) d1) as Hret.
    destruct (persist_bundle_succeeds bundle d1 Hb1) as ([] & d2 & He & H2).
    rewrite He in Hret. apply (succeeds_bind _ _ _ (λ _ d', d' = d2)).
    { by exists tt, d2. }
    intros [] ? ->. apply commit_succeeds; [done..|].
    apply (stage_backs s0 cur bundle d d1); try done.
    rewrite H2. by apply (encoded_bundle_ok bundle d).
Qed.

(** What a method needs beyond the machine: staging, a bundle that can be stored and a valid
    next state; a discard, that no receipt of a prepared Windows join forbids it. *)
Definition ready (m : method) (s : option LocalCredentialState) (d : disk) : Prop :=
  match m with
  | Stage b => storable_bundle b d ∧ ∀ s', s = Some s' → local_state s'
  | Promote | Rollback | DropPrevious => True
  | Discard => seen d (RootDir, EXISTING_JOIN_PREPARE_RECEIPT) = None
  | Deliver _ | Paired _ | PrepareJoin _ _ _ _ => False
  end.

Lemma method_succeeds m s0 s d :
  consistent st false (λ x, x = s0) d → method_target st m s0 s → ready m s d →
  succeeds (method_program st m) d (λ r _, r = Some s).
Proof.
  intros Hd Ht Hr.
  assert (∀ A (p : prog A) (f : A → option LocalCredentialState),
    succeeds p d (λ a _, f a = s) →
    succeeds (a ← p; mret (Some (f a))) d (λ r _, r = Some s)) as Hmap.
  { intros A p f Hp. eapply succeeds_bind; [exact Hp|]. intros a d' <-. by apply succeeds_ret. }
  destruct m; try done; cbn [method_program method_target ready] in *.
  - destruct Hr as [Hb Hl]. apply (Hmap _ _ Some). destruct s as [s|].
    + eapply succeeds_mono; [|by eapply stage_succeeds; [..|by apply Hl|]]. by intros a d' ->.
    + exfalso. revert Ht. simpl. repeat case_match; try done; by case_decide.
  - apply (Hmap _ _ Some). destruct s0 as [s'|]; [|done]. simpl in Ht.
    destruct (lcs_candidate s') as [c|] eqn:Ec; [|done]. injection Ht as <-.
    eapply succeeds_mono; [|by apply (promote_succeeds s' c d)]. by intros a d' ->.
  - apply (Hmap _ _ Some). destruct s0 as [s'|]; [|done]. simpl in Ht.
    destruct (lcs_active s') as [a|] eqn:Ea, (lcs_candidate s') eqn:Ec,
      (lcs_previous s') as [p|] eqn:Ep; try done. injection Ht as <-.
    eapply succeeds_mono; [|by apply (rollback_succeeds s' a p d)]. by intros x d' ->.
  - apply (Hmap _ _ id). eapply succeeds_mono; [|by eapply discard_succeeds]. by intros a d' ->.
  - apply (Hmap _ _ id). eapply succeeds_mono; [|by eapply drop_succeeds]. by intros a d' ->.
Qed.

(** C27: The store is not stuck. On a disk that performs its calls and holds one
    state, promoting, rolling back and dropping return whenever the state machine
    allows them; so does discarding when the receipt of a prepared Windows join is not
    there, and staging when the bundle is a full one of this host that prost gives
    back, its file is absent or holds it, and the state it leads to is valid. What
    they return is the state the machine gives, and that is the state on the disk. *)
Theorem store_progress (m : method) (s0 s : option LocalCredentialState) (d : disk) :
  consistent st false (λ x, x = s0) d → method_in_range m →
  method_target st m s0 s → ready m s d →
  ∃ d', exec (@answer) (method_program st m) d = (Ok (Some s), d') ∧
    consistent st false (λ x, x = s) d'.
Proof.
  intros Hd Hm Ht Hr. destruct (method_succeeds m s0 s d Hd Ht Hr) as (r & d' & He & ->).
  exists d'. split; [done|].
  pose proof (disk_returns (method_program st m) d) as Hret. rewrite He in Hret.
  assert (bundles_settled false d) as Hs by by intros r o [?|[? _]].
  eapply always_returns in Hret; [|by apply (method_moves st false m s0 d)].
  destruct Hret as (s' & Hs' & _ & Hc). by rewrite (Hs' s eq_refl).
Qed.
End Progress.

(** The first staging of the sample *)
Lemma store_progress_witness :
  ∃ d', exec (@answer) (method_program Sample.store (Stage Sample.first)) empty_disk =
    (Ok (Some (Some (with_candidate (empty_state Sample.store) (Some (ref_of Sample.first))))), d').
Proof.
  destruct (store_progress Sample.store (Stage Sample.first) None
    (Some (with_candidate (empty_state Sample.store) (Some (ref_of Sample.first)))) empty_disk)
    as (d' & Hd & _); [..|by exists d'].
  - apply fresh_consistent.
  - simpl. unfold in_u64, u64_max. lia.
  - reflexivity.
  - assert (full_projection Sample.first) as Hf by (split; vm_compute; reflexivity).
    split.
    + split; [exact Hf|vm_compute; reflexivity..|by left].
    + intros s' [= <-]. split; [|done]. apply local_state_valid. vm_compute. reflexivity.
Defined.
