(* ===== verification/NativeNetwork.v ===== *)
(** * Windows network evidence

    [edge-shared-types/src/windows_native_network.rs]: the identity of the routes,
    addresses, resolvers and foreign adapters of a Windows host, its digest, the baseline
    that is stored before a TUN device is started and read back after it was stopped,
    and the checks on a network with the TUN. The Win32 calls that fill the tables are in
    [NativeObserver]. *)

From S2P Require Import Prelude RustStd RustOrd HostTypes.

(** ** Messages *)

Record FleetWindowsNetworkRoute : Set := {
  wroute_interface_luid : Z; wroute_family : Z; wroute_prefix : bytes;
  wroute_prefix_length : Z; wroute_next_hop : bytes; wroute_metric : Z;
  wroute_protocol : Z; wroute_origin : Z; wroute_site_prefix_length : Z;
  wroute_loopback : bool; wroute_published : bool
}.
Record FleetWindowsNetworkAddress : Set := {
  waddress_interface_luid : Z; waddress_family : Z; waddress_address : bytes;
  waddress_prefix_length : Z
}.
Record FleetWindowsNetworkDns : Set := {
  wdns_interface_luid : Z; wdns_order : Z; wdns_family : Z; wdns_server : bytes
}.
Record FleetWindowsNetworkAdapter : Set := {
  wadapter_alias : string; wadapter_interface_luid : Z; wadapter_oper_status : Z
}.
Record FleetWindowsNetworkBaseline : Set := {
  baseline_schema_version : Z; baseline_operation_id : string;
  baseline_before_sha256 : bytes; baseline_routes : list FleetWindowsNetworkRoute;
  baseline_addresses : list FleetWindowsNetworkAddress;
  baseline_dns : list FleetWindowsNetworkDns;
  baseline_foreign_warp_adapters : list FleetWindowsNetworkAdapter
}.
#[global] Instance FleetWindowsNetworkRoute_eq_dec : EqDecision FleetWindowsNetworkRoute.
Proof. solve_decision. Defined.
#[global] Instance FleetWindowsNetworkAddress_eq_dec : EqDecision FleetWindowsNetworkAddress.
Proof. solve_decision. Defined.
#[global] Instance FleetWindowsNetworkDns_eq_dec : EqDecision FleetWindowsNetworkDns.
Proof. solve_decision. Defined.
#[global] Instance FleetWindowsNetworkAdapter_eq_dec : EqDecision FleetWindowsNetworkAdapter.
Proof. solve_decision. Defined.
#[global] Instance FleetWindowsNetworkBaseline_eq_dec : EqDecision FleetWindowsNetworkBaseline.
Proof. solve_decision. Defined.

(** ** Identities *)

(** Winsock's address families *)
Definition AF_INET : Z := 2.
Definition AF_INET6 : Z := 23.

Definition OWNED_TUN_ALIAS : string := "sing-box-tun".
Definition MAX_NATIVE_INTERFACES : Z := 4096.
Definition MAX_NATIVE_ROUTES : Z := 32768.
Definition MAX_NATIVE_ADAPTERS : Z := 512.
Definition MAX_DNS_LINKS : Z := 1024.
Definition MAX_UNICAST_LINKS : Z := 4096.
Definition MAX_ADAPTER_BUFFER_BYTES : Z := 1024 * 1024.
Definition MAX_NATIVE_NETWORK_BASELINE_BYTES : Z := 4 * 1024 * 1024.

Record NativeNetworkReadback : Set := {
  ipv4_routes : Z; ipv6_routes : Z; ipv4_default_routes : Z; ipv6_default_routes : Z;
  ipv4_unicast_addresses : Z; ipv6_unicast_addresses : Z;
  ipv4_dns_servers : Z; ipv6_dns_servers : Z; active_dns_adapters : Z
}.

Record RouteIdentity : Set := {
  rid_interface_luid : Z; rid_family : Z; rid_prefix : bytes; rid_prefix_length : Z;
  rid_next_hop : bytes; rid_metric : Z; rid_protocol : Z; rid_origin : Z;
  rid_site_prefix_length : Z; rid_loopback : bool; rid_published : bool
}.
Record DnsIdentity : Set := {
  did_interface_luid : Z; did_order : Z; did_family : Z; did_server : bytes
}.
Record UnicastAddressIdentity : Set := {
  uid_interface_luid : Z; uid_family : Z; uid_address : bytes; uid_prefix_length : Z
}.
Record ManagedAdapterIdentity : Set := {
  mid_alias : string; mid_interface_luid : Z; mid_oper_status : Z
}.
#[global] Instance RouteIdentity_eq_dec : EqDecision RouteIdentity.
Proof. solve_decision. Defined.
#[global] Instance DnsIdentity_eq_dec : EqDecision DnsIdentity.
Proof. solve_decision. Defined.
#[global] Instance UnicastAddressIdentity_eq_dec : EqDecision UnicastAddressIdentity.
Proof. solve_decision. Defined.
#[global] Instance ManagedAdapterIdentity_eq_dec : EqDecision ManagedAdapterIdentity.
Proof. solve_decision. Defined.

(** [derive(Ord)]: the fields in the order of their declaration *)
#[global] Instance RouteIdentity_ord : Ord RouteIdentity := ord_by (λ r,
  (rid_interface_luid r, (rid_family r, (rid_prefix r, (rid_prefix_length r,
  (rid_next_hop r, (rid_metric r, (rid_protocol r, (rid_origin r,
  (rid_site_prefix_length r, (rid_loopback r, rid_published r))))))))))).
#[global] Instance DnsIdentity_ord : Ord DnsIdentity := ord_by (λ d,
  (did_interface_luid d, (did_order d, (did_family d, did_server d)))).
#[global] Instance UnicastAddressIdentity_ord : Ord UnicastAddressIdentity := ord_by (λ u,
  (uid_interface_luid u, (uid_family u, (uid_address u, uid_prefix_length u)))).
#[global] Instance ManagedAdapterIdentity_ord : Ord ManagedAdapterIdentity := ord_by (λ a,
  (mid_alias a, (mid_interface_luid a, mid_oper_status a))).

#[global] Instance RouteIdentity_ord_laws : OrdLaws RouteIdentity.
Proof. apply ord_by_laws. intros [] [] E. simpl in E. by simplify_eq. Qed.
#[global] Instance DnsIdentity_ord_laws : OrdLaws DnsIdentity.
Proof. apply ord_by_laws. intros [] [] E. simpl in E. by simplify_eq. Qed.
#[global] Instance UnicastAddressIdentity_ord_laws : OrdLaws UnicastAddressIdentity.
Proof. apply ord_by_laws. intros [] [] E. simpl in E. by simplify_eq. Qed.
#[global] Instance ManagedAdapterIdentity_ord_laws : OrdLaws ManagedAdapterIdentity.
Proof. apply ord_by_laws. intros [] [] E. simpl in E. by simplify_eq. Qed.

Record NativeNetworkIdentity : Set := {
  net_routes : list RouteIdentity; net_addresses : list UnicastAddressIdentity;
  net_dns : list DnsIdentity; net_foreign_warp_adapters : list ManagedAdapterIdentity
}.
#[global] Instance NativeNetworkIdentity_eq_dec : EqDecision NativeNetworkIdentity.
Proof. solve_decision. Defined.

Record ManagedTunNetworkObservation : Set := {
  tun_network : NativeNetworkIdentity; tun_owned : ManagedAdapterIdentity
}.

(** ** Control routes *)

Definition reject_control_route_via_owned_tun (selected_luid owned_tun_luid : Z) : res unit :=
  fail_if ((selected_luid =? 0) || (owned_tun_luid =? 0))
    "HOST_WINDOWS_CONTROL_ROUTE_LUID_UNPROVEN" ;;
  fail_if (selected_luid =? owned_tun_luid) "HOST_WINDOWS_CONTROL_ROUTE_CAPTURED_BY_TUN".

(** [GetBestRoute2] gives the LUID of the interface the system would use for an address,
    or fails. *)
Definition require_control_destinations_outside_tun {IpAddr}
    (get_best_route : IpAddr → option Z) (destinations : list IpAddr) (owned_tun_luid : Z)
    : res unit :=
  fail_if (is_empty destinations || (64 <? Z.of_nat (length destinations))
           || (owned_tun_luid =? 0)) "HOST_WINDOWS_CONTROL_ROUTE_DESTINATIONS_UNPROVEN" ;;
  for_each (λ address,
    luid ← ok_or (get_best_route address) "HOST_WINDOWS_CONTROL_ROUTE_UNAVAILABLE";
    reject_control_route_via_owned_tun luid owned_tun_luid) destinations.

(** ** Capture of the default route *)

Definition native_default_capture_present (routes : list RouteIdentity) (luid family : Z)
    : bool :=
  let capture (width : nat) :=
    let zero := replicate width x00 in
    let high := x80 :: replicate (width - 1) x00 in
    let owned (prefix : bytes) (length : Z) :=
      existsb (λ route, (rid_interface_luid route =? luid) && (rid_family route =? family)
        && (rid_prefix_length route =? length) && bytes_eqb (rid_prefix route) prefix) routes in
    owned zero 0 || (owned zero 1 && owned high 1) in
  if family =? AF_INET then capture 4%nat
  else if family =? AF_INET6 then capture 16%nat
  else false.

Definition require_native_dual_stack_route_capture (self : ManagedTunNetworkObservation)
    : res unit :=
  let luid := mid_interface_luid (tun_owned self) in
  let network := tun_network self in
  fail_if ((luid =? 0)
    || existsb (λ warp, mid_interface_luid warp =? luid) (net_foreign_warp_adapters network)
    || negb (mid_oper_status (tun_owned self) =? 1))
    "HOST_WINDOWS_MANAGED_TUN_NATIVE_OWNER_INVALID" ;;
  for_each (λ '(family, reason),
    fail_if (negb (existsb (λ address, (uid_interface_luid address =? luid)
                              && (uid_family address =? family)) (net_addresses network))
             || negb (native_default_capture_present (net_routes network) luid family)) reason)
    [(AF_INET, "HOST_WINDOWS_MANAGED_TUN_IPV4_ROUTE_UNPROVEN");
     (AF_INET6, "HOST_WINDOWS_MANAGED_TUN_IPV6_ROUTE_UNPROVEN")].

(** ** Restoration and preservation *)

Definition require_restored (self after : NativeNetworkIdentity) : res unit :=
  fail_if (negb (bool_decide (net_routes self = net_routes after)))
    "HOST_WINDOWS_NETWORK_ROUTES_NOT_RESTORED" ;;
  fail_if (negb (bool_decide (net_addresses self = net_addresses after)))
    "HOST_WINDOWS_NETWORK_ADDRESSES_NOT_RESTORED" ;;
  fail_if (negb (bool_decide (net_dns self = net_dns after)))
    "HOST_WINDOWS_NETWORK_DNS_NOT_RESTORED" ;;
  fail_if (negb (bool_decide
      (net_foreign_warp_adapters self = net_foreign_warp_adapters after)))
    "HOST_WINDOWS_NETWORK_CLOUDFLARE_ONE_CHANGED".

Definition require_foreign_warp_up (self : NativeNetworkIdentity) : res unit :=
  match net_foreign_warp_adapters self with
  | [warp] =>
      fail_if (negb (mid_oper_status warp =? 1))
        "HOST_WINDOWS_CLOUDFLARE_ONE_NATIVE_IDENTITY_UNPROVEN"
  | _ => Err "HOST_WINDOWS_CLOUDFLARE_ONE_NATIVE_IDENTITY_UNPROVEN"
  end.

(** The network without what belongs to one interface *)
Definition without_interface (luid : Z) (network : NativeNetworkIdentity)
    : NativeNetworkIdentity := {|
  net_routes := filter (λ r, rid_interface_luid r ≠ luid) (net_routes network);
  net_addresses := filter (λ a, uid_interface_luid a ≠ luid) (net_addresses network);
  net_dns := filter (λ d, did_interface_luid d ≠ luid) (net_dns network);
  net_foreign_warp_adapters := net_foreign_warp_adapters network
|}.

Definition require_foreign_network_preserved (self : ManagedTunNetworkObservation)
    (before : NativeNetworkIdentity) : res unit :=
  require_native_dual_stack_route_capture self ;;
  require_foreign_warp_up (tun_network self) ;;
  let preserved :=
    without_interface (mid_interface_luid (tun_owned self)) (tun_network self) in
  require_restored before preserved.

(** ** Digest and baseline *)

Definition u8_of_bool (b : bool) : Byte.byte := if b then x01 else x00.
Definition i32_to_be_bytes (z : Z) : bytes := be_bytes 4 (z mod 2 ^ 32).

Definition route_digest_input (row : RouteIdentity) : bytes :=
  u64_to_be_bytes (rid_interface_luid row) ++ be_bytes 2 (rid_family row)
  ++ framed 4 (rid_prefix row) ++ be_bytes 1 (rid_prefix_length row)
  ++ framed 4 (rid_next_hop row) ++ u32_to_be_bytes (rid_metric row)
  ++ i32_to_be_bytes (rid_protocol row) ++ i32_to_be_bytes (rid_origin row)
  ++ be_bytes 1 (rid_site_prefix_length row)
  ++ [u8_of_bool (rid_loopback row); u8_of_bool (rid_published row)].
Definition address_digest_input (row : UnicastAddressIdentity) : bytes :=
  u64_to_be_bytes (uid_interface_luid row) ++ be_bytes 2 (uid_family row)
  ++ framed 4 (uid_address row) ++ be_bytes 1 (uid_prefix_length row).
Definition dns_digest_input (row : DnsIdentity) : bytes :=
  u64_to_be_bytes (did_interface_luid row) ++ u32_to_be_bytes (did_order row)
  ++ be_bytes 2 (did_family row) ++ framed 4 (did_server row).
Definition adapter_digest_input (row : ManagedAdapterIdentity) : bytes :=
  framed 4 (as_bytes (mid_alias row)) ++ u64_to_be_bytes (mid_interface_luid row)
  ++ i32_to_be_bytes (mid_oper_status row).
Definition counted {A} (f : A → bytes) (rows : list A) : bytes :=
  u32_to_be_bytes (Z.of_nat (length rows)) ++ concat (f <$> rows).

(** What is fed to the hash *)
Definition prebegin_payload (self : NativeNetworkIdentity) : bytes :=
  as_bytes "sing-box/windows-native-network-prebegin/v1:"
  ++ counted route_digest_input (net_routes self)
  ++ counted address_digest_input (net_addresses self)
  ++ counted dns_digest_input (net_dns self)
  ++ counted adapter_digest_input (net_foreign_warp_adapters self).

Definition route_message (r : RouteIdentity) : FleetWindowsNetworkRoute := {|
  wroute_interface_luid := rid_interface_luid r; wroute_family := rid_family r;
  wroute_prefix := rid_prefix r; wroute_prefix_length := rid_prefix_length r;
  wroute_next_hop := rid_next_hop r; wroute_metric := rid_metric r;
  wroute_protocol := rid_protocol r; wroute_origin := rid_origin r;
  wroute_site_prefix_length := rid_site_prefix_length r;
  wroute_loopback := rid_loopback r; wroute_published := rid_published r
|}.
Definition address_message (a : UnicastAddressIdentity) : FleetWindowsNetworkAddress := {|
  waddress_interface_luid := uid_interface_luid a; waddress_family := uid_family a;
  waddress_address := uid_address a; waddress_prefix_length := uid_prefix_length a
|}.
Definition dns_message (d : DnsIdentity) : FleetWindowsNetworkDns := {|
  wdns_interface_luid := did_interface_luid d; wdns_order := did_order d;
  wdns_family := did_family d; wdns_server := did_server d
|}.
Definition adapter_message (a : ManagedAdapterIdentity) : FleetWindowsNetworkAdapter := {|
  wadapter_alias := mid_alias a; wadapter_interface_luid := mid_interface_luid a;
  wadapter_oper_status := mid_oper_status a
|}.

(** [u16::try_from], [u8::try_from] *)
Definition narrow (m n : Z) : res Z :=
  fail_if (negb ((0 <=? n) && (n <=? m))) "HOST_WINDOWS_NETWORK_BASELINE_FIELD_INVALID" ;; Ok n.

Definition route_of_message (r : FleetWindowsNetworkRoute) : res RouteIdentity :=
  family ← narrow u16_max (wroute_family r);
  prefix_length ← narrow u8_max (wroute_prefix_length r);
  site_prefix_length ← narrow u8_max (wroute_site_prefix_length r);
  Ok {| rid_interface_luid := wroute_interface_luid r; rid_family := family;
        rid_prefix := wroute_prefix r; rid_prefix_length := prefix_length;
        rid_next_hop := wroute_next_hop r; rid_metric := wroute_metric r;
        rid_protocol := wroute_protocol r; rid_origin := wroute_origin r;
        rid_site_prefix_length := site_prefix_length;
        rid_loopback := wroute_loopback r; rid_published := wroute_published r |}.
Definition address_of_message (a : FleetWindowsNetworkAddress) : res UnicastAddressIdentity :=
  family ← narrow u16_max (waddress_family a);
  prefix_length ← narrow u8_max (waddress_prefix_length a);
  Ok {| uid_interface_luid := waddress_interface_luid a; uid_family := family;
        uid_address := waddress_address a; uid_prefix_length := prefix_length |}.
Definition dns_of_message (d : FleetWindowsNetworkDns) : res DnsIdentity :=
  family ← narrow u16_max (wdns_family d);
  Ok {| did_interface_luid := wdns_interface_luid d; did_order := wdns_order d;
        did_family := family; did_server := wdns_server d |}.
Definition adapter_of_message (a : FleetWindowsNetworkAdapter) : ManagedAdapterIdentity := {|
  mid_alias := wadapter_alias a; mid_interface_luid := wadapter_interface_luid a;
  mid_oper_status := wadapter_oper_status a
|}.

Section Baseline.
Context `{Sha256} `{Message FleetWindowsNetworkBaseline}.

Definition signed_prebegin_digest (self : NativeNetworkIdentity) : bytes :=
  sha256 (prebegin_payload self).

Definition baseline_of (self : NativeNetworkIdentity) (operation : string)
    : FleetWindowsNetworkBaseline := {|
  baseline_schema_version := 1; baseline_operation_id := operation;
  baseline_before_sha256 := signed_prebegin_digest self;
  baseline_routes := route_message <$> net_routes self;
  baseline_addresses := address_message <$> net_addresses self;
  baseline_dns := dns_message <$> net_dns self;
  baseline_foreign_warp_adapters := adapter_message <$> net_foreign_warp_adapters self
|}.

Definition encode_baseline (self : NativeNetworkIdentity) (operation : string) : res bytes :=
  fail_if (str_empty operation || (96 <? slen operation))
    "HOST_WINDOWS_NETWORK_BASELINE_OPERATION_INVALID" ;;
  let bytes := encode_to_vec (baseline_of self operation) in
  fail_if (MAX_NATIVE_NETWORK_BASELINE_BYTES <? blen bytes)
    "HOST_WINDOWS_NETWORK_BASELINE_OVERSIZED" ;;
  Ok bytes.

Definition decode_baseline (b : bytes) (operation : string) : res NativeNetworkIdentity :=
  fail_if (is_empty b || (MAX_NATIVE_NETWORK_BASELINE_BYTES <? blen b))
    "HOST_WINDOWS_NETWORK_BASELINE_SIZE_INVALID" ;;
  record ← ok_or (decode b) "HOST_WINDOWS_NETWORK_BASELINE_PROTO_INVALID";
  fail_if (negb (bytes_eqb (encode_to_vec (record : FleetWindowsNetworkBaseline)) b)
    || negb (baseline_schema_version record =? 1)
    || negb (str_eqb (baseline_operation_id record) operation)
    || negb (blen (baseline_before_sha256 record) =? 32)
    || (MAX_NATIVE_ROUTES <? Z.of_nat (length (baseline_routes record)))
    || (MAX_UNICAST_LINKS <? Z.of_nat (length (baseline_addresses record)))
    || (MAX_DNS_LINKS <? Z.of_nat (length (baseline_dns record)))
    || (MAX_NATIVE_ADAPTERS <? Z.of_nat (length (baseline_foreign_warp_adapters record))))
    "HOST_WINDOWS_NETWORK_BASELINE_NONCANONICAL" ;;
  routes ← try_map route_of_message (baseline_routes record);
  addresses ← try_map address_of_message (baseline_addresses record);
  dns ← try_map dns_of_message (baseline_dns record);
  let decoded := {| net_routes := routes; net_addresses := addresses; net_dns := dns;
    net_foreign_warp_adapters :=
      adapter_of_message <$> baseline_foreign_warp_adapters record |} in
  if negb (ascending (net_routes decoded)) || negb (ascending (net_addresses decoded))
     || negb (ascending (net_dns decoded))
     || negb (ascending (net_foreign_warp_adapters decoded))
     || negb (bytes_eqb (signed_prebegin_digest decoded) (baseline_before_sha256 record))
  then Err "HOST_WINDOWS_NETWORK_BASELINE_DIGEST_MISMATCH"
  else
    again ← encode_baseline decoded operation;
    fail_if (negb (bytes_eqb again b)) "HOST_WINDOWS_NETWORK_BASELINE_DIGEST_MISMATCH" ;;
    Ok decoded.

Definition decode_active_baseline (b : bytes) : res (string * NativeNetworkIdentity) :=
  fail_if (is_empty b || (MAX_NATIVE_NETWORK_BASELINE_BYTES <? blen b))
    "HOST_WINDOWS_NETWORK_BASELINE_SIZE_INVALID" ;;
  header ← ok_or (decode b) "HOST_WINDOWS_NETWORK_BASELINE_PROTO_INVALID";
  let operation := baseline_operation_id (header : FleetWindowsNetworkBaseline) in
  baseline ← decode_baseline b operation;
  Ok (operation, baseline).
End Baseline.
