(* ===== verification/NativeObserver.v ===== *)
(** * Reading the Windows network tables

    The observers of [edge-shared-types/src/windows_native_network.rs]. A Win32 call is a
    parameter that gives the table it fills. [GetAdaptersAddresses] fills a buffer of the
    caller with structures that point to each other: the buffer is an address range, a
    pointer an address, and a dereference is recorded with the type it is made at, so that
    the checks before a dereference can be compared with what is dereferenced. *)

From S2P Require Import Prelude RustStd RustOrd RustUtf HostTypes NativeNetwork.

(** ** Win32 structures *)

(** The union [SOCKADDR_INET], read through its discriminator *)
Record SOCKADDR_INET : Set := { si_family : Z; sin_addr : bytes; sin6_addr : bytes }.

Record MIB_IF_ROW2 : Set := {
  ifrow_alias : list Z; ifrow_interface_luid : Z; ifrow_oper_status : Z
}.
Record MIB_IPFORWARD_ROW2 : Set := {
  fwd_interface_luid : Z; fwd_prefix : SOCKADDR_INET; fwd_prefix_length : Z;
  fwd_next_hop : SOCKADDR_INET; fwd_metric : Z; fwd_protocol : Z; fwd_origin : Z;
  fwd_site_prefix_length : Z; fwd_loopback : bool; fwd_publish : bool
}.
Record IP_ADAPTER_ADDRESSES_LH : Set := {
  adapter_next : Z; adapter_luid : Z; adapter_oper_status : Z;
  adapter_first_unicast : Z; adapter_first_dns : Z
}.
Record IP_ADAPTER_UNICAST_ADDRESS_LH : Set := {
  unicast_next : Z; unicast_sockaddr : Z; unicast_sockaddr_length : Z;
  unicast_on_link_prefix_length : Z
}.
Record IP_ADAPTER_DNS_SERVER_ADDRESS_XP : Set := {
  dns_next : Z; dns_sockaddr : Z; dns_sockaddr_length : Z
}.

(** The types a pointer is dereferenced at *)
Inductive native_type : Set :=
| Adapter | Unicast | DnsServer | Sockaddr | SockaddrIn | SockaddrIn6.

(** ** Routes *)

Definition address_bytes (addr : SOCKADDR_INET) : res (Z * bytes) :=
  if si_family addr =? AF_INET then Ok (si_family addr, sin_addr addr)
  else if si_family addr =? AF_INET6 then Ok (si_family addr, sin6_addr addr)
  else Err "HOST_WINDOWS_NETWORK_ADDRESS_FAMILY_INVALID".

Definition warp_alias (alias : string) : bool := eq_ignore_ascii_case alias "CloudflareWARP".

Definition default_readback : NativeNetworkReadback := {|
  ipv4_routes := 0; ipv6_routes := 0; ipv4_default_routes := 0; ipv6_default_routes := 0;
  ipv4_unicast_addresses := 0; ipv6_unicast_addresses := 0;
  ipv4_dns_servers := 0; ipv6_dns_servers := 0; active_dns_adapters := 0
|}.

Definition Z_of_bool (b : bool) : Z := if b then 1 else 0.

Definition add_route (r : NativeNetworkReadback) (family prefix_len : Z)
    : res NativeNetworkReadback :=
  let counted v4 v6 := {|
    ipv4_routes := ipv4_routes r + v4; ipv6_routes := ipv6_routes r + v6;
    ipv4_default_routes := ipv4_default_routes r + v4 * Z_of_bool (prefix_len =? 0);
    ipv6_default_routes := ipv6_default_routes r + v6 * Z_of_bool (prefix_len =? 0);
    ipv4_unicast_addresses := ipv4_unicast_addresses r;
    ipv6_unicast_addresses := ipv6_unicast_addresses r;
    ipv4_dns_servers := ipv4_dns_servers r; ipv6_dns_servers := ipv6_dns_servers r;
    active_dns_adapters := active_dns_adapters r |} in
  if (family =? AF_INET) && (prefix_len <=? 32) then Ok (counted 1 0)
  else if (family =? AF_INET6) && (prefix_len <=? 128) then Ok (counted 0 1)
  else Err "HOST_WINDOWS_NETWORK_ROUTE_FAMILY_OR_PREFIX_INVALID".

Definition add_dns (r : NativeNetworkReadback) (family : Z) : res NativeNetworkReadback :=
  let counted v4 v6 := {|
    ipv4_routes := ipv4_routes r; ipv6_routes := ipv6_routes r;
    ipv4_default_routes := ipv4_default_routes r; ipv6_default_routes := ipv6_default_routes r;
    ipv4_unicast_addresses := ipv4_unicast_addresses r;
    ipv6_unicast_addresses := ipv6_unicast_addresses r;
    ipv4_dns_servers := ipv4_dns_servers r + v4; ipv6_dns_servers := ipv6_dns_servers r + v6;
    active_dns_adapters := active_dns_adapters r |} in
  if family =? AF_INET then Ok (counted 1 0)
  else if family =? AF_INET6 then Ok (counted 0 1)
  else Err "HOST_WINDOWS_NETWORK_DNS_FAMILY_INVALID".

Definition add_unicast (r : NativeNetworkReadback) (family prefix_len : Z)
    : res NativeNetworkReadback :=
  let counted v4 v6 := {|
    ipv4_routes := ipv4_routes r; ipv6_routes := ipv6_routes r;
    ipv4_default_routes := ipv4_default_routes r; ipv6_default_routes := ipv6_default_routes r;
    ipv4_unicast_addresses := ipv4_unicast_addresses r + v4;
    ipv6_unicast_addresses := ipv6_unicast_addresses r + v6;
    ipv4_dns_servers := ipv4_dns_servers r; ipv6_dns_servers := ipv6_dns_servers r;
    active_dns_adapters := active_dns_adapters r |} in
  if (family =? AF_INET) && (prefix_len <=? 32) then Ok (counted 1 0)
  else if (family =? AF_INET6) && (prefix_len <=? 128) then Ok (counted 0 1)
  else Err "HOST_WINDOWS_NETWORK_UNICAST_FAMILY_OR_PREFIX_INVALID".

(** [result.active_dns_adapters += 1] *)
Definition add_dns_adapter (r : NativeNetworkReadback) : NativeNetworkReadback := {|
  ipv4_routes := ipv4_routes r; ipv6_routes := ipv6_routes r;
  ipv4_default_routes := ipv4_default_routes r; ipv6_default_routes := ipv6_default_routes r;
  ipv4_unicast_addresses := ipv4_unicast_addresses r;
  ipv6_unicast_addresses := ipv6_unicast_addresses r;
  ipv4_dns_servers := ipv4_dns_servers r; ipv6_dns_servers := ipv6_dns_servers r;
  active_dns_adapters := active_dns_adapters r + 1
|}.

(** [if !set.insert(x) { return Err(e) }] *)
Definition insert_fresh {A} `{Ord A} (x : A) (s : list A) (e : string) : res (list A) :=
  let (new, s) := set_insert x s in fail_if (negb new) e ;; Ok s.

Definition read_route (st : NativeNetworkReadback * list RouteIdentity)
    (row : MIB_IPFORWARD_ROW2) : res (NativeNetworkReadback * list RouteIdentity) :=
  let family := si_family (fwd_prefix row) in
  result ← add_route (fst st) family (fwd_prefix_length row);
  '(prefix_family, prefix) ← address_bytes (fwd_prefix row);
  '(next_family, next_hop) ← address_bytes (fwd_next_hop row);
  fail_if (negb (prefix_family =? family) || negb (next_family =? family))
    "HOST_WINDOWS_NETWORK_ROUTE_ADDRESS_FAMILY_MISMATCH" ;;
  let key := {|
    rid_interface_luid := fwd_interface_luid row; rid_family := family;
    rid_prefix := prefix; rid_prefix_length := fwd_prefix_length row;
    rid_next_hop := next_hop; rid_metric := fwd_metric row;
    rid_protocol := fwd_protocol row; rid_origin := fwd_origin row;
    rid_site_prefix_length := fwd_site_prefix_length row;
    rid_loopback := fwd_loopback row; rid_published := fwd_publish row |} in
  identity ← insert_fresh key (snd st) "HOST_WINDOWS_NETWORK_DUPLICATE_ROUTE_IDENTITY";
  Ok (result, identity).

(** [table]: the rows of [GetIpForwardTable2(AF_UNSPEC)], [None] when it fails *)
Definition read_native_routes (table : option (list MIB_IPFORWARD_ROW2))
    (st : NativeNetworkReadback * list RouteIdentity)
    : res (NativeNetworkReadback * list RouteIdentity) :=
  rows ← ok_or table "HOST_WINDOWS_NETWORK_ROUTE_TABLE_UNAVAILABLE";
  fail_if (MAX_NATIVE_ROUTES <? Z.of_nat (length rows))
    "HOST_WINDOWS_NETWORK_ROUTE_TABLE_UNBOUNDED" ;;
  try_fold read_route st rows.

(** ** Interfaces *)

(** The characters before the first NUL *)
Fixpoint until_nul (raw : list Z) : option (list Z) :=
  match raw with
  | [] => None
  | u :: raw => if u =? 0 then Some [] else us ← until_nul raw; Some (u :: us)
  end.

Definition alias_of (raw : list Z) : res string :=
  units ← ok_or (until_nul raw) "HOST_WINDOWS_NETWORK_INTERFACE_ALIAS_UNTERMINATED";
  ok_or (from_utf16 units) "HOST_WINDOWS_NETWORK_INTERFACE_ALIAS_INVALID".

Definition is_owned_tun_alias (raw : list Z) : res bool :=
  alias ← alias_of raw; Ok (eq_ignore_ascii_case alias OWNED_TUN_ALIAS).

Definition read_interface
    (st : list ManagedAdapterIdentity * list ManagedAdapterIdentity) (row : MIB_IF_ROW2)
    : res (list ManagedAdapterIdentity * list ManagedAdapterIdentity) :=
  let '(foreign, owned) := st in
  is_owned ← is_owned_tun_alias (ifrow_alias row);
  owned ← (if is_owned : bool then
    insert_fresh {| mid_alias := OWNED_TUN_ALIAS;
                    mid_interface_luid := ifrow_interface_luid row;
                    mid_oper_status := ifrow_oper_status row |} owned
      "HOST_WINDOWS_NETWORK_DUPLICATE_MANAGED_TUN"
    else Ok owned);
  alias ← alias_of (ifrow_alias row);
  foreign ← (if warp_alias alias then
    insert_fresh {| mid_alias := to_ascii_lowercase alias;
                    mid_interface_luid := ifrow_interface_luid row;
                    mid_oper_status := ifrow_oper_status row |} foreign
      "HOST_WINDOWS_NETWORK_DUPLICATE_FOREIGN_ADAPTER"
    else Ok foreign);
  Ok (foreign, owned).

(** [table]: the rows of [GetIfTable2], [None] when it fails *)
Definition observe_owned_foreign_interfaces (table : option (list MIB_IF_ROW2))
    : res (list ManagedAdapterIdentity * list ManagedAdapterIdentity) :=
  rows ← ok_or table "HOST_WINDOWS_NETWORK_INTERFACE_READBACK_UNAVAILABLE";
  fail_if (MAX_NATIVE_INTERFACES <? Z.of_nat (length rows))
    "HOST_WINDOWS_NETWORK_INTERFACE_READBACK_UNBOUNDED" ;;
  '(foreign, owned) ← try_fold read_interface ([], []) rows;
  fail_if (1 <? Z.of_nat (length owned))
    "HOST_WINDOWS_NETWORK_MULTIPLE_MANAGED_TUN_INTERFACES" ;;
  Ok (foreign, owned).

Definition require_owned_tun_absent (table : option (list MIB_IF_ROW2)) : res unit :=
  '(_, tun) ← observe_owned_foreign_interfaces table;
  fail_if (negb (is_empty tun)) "HOST_WINDOWS_NETWORK_MANAGED_TUN_INTERFACE_STILL_PRESENT".

(** ** Adapters *)

(** The caller's allocation: the address of its first byte and its size *)
Record buffer : Set := { buf_start : Z; buf_size : Z }.

(** A dereference of an address of a buffer at a type *)
Record access : Set := { acc_buffer : buffer; acc_type : native_type; acc_address : Z }.

(** What a dereference finds *)
Record memory : Type := {
  mem_adapter : Z → IP_ADAPTER_ADDRESSES_LH;
  mem_unicast : Z → IP_ADAPTER_UNICAST_ADDRESS_LH;
  mem_dns : Z → IP_ADAPTER_DNS_SERVER_ADDRESS_XP;
  mem_family : Z → Z;
  mem_in_addr : Z → bytes;
  mem_in6_addr : Z → bytes
}.

(** Answer of [GetAdaptersAddresses]: the status, the size it reports, and, when the
    status is 0, where the buffer is and what it holds *)
Record adapters_answer : Type := {
  ans_status : Z; ans_size : Z; ans_start : Z; ans_memory : memory
}.

(** Code that dereferences: its accesses in order, and its result *)
Definition reads (A : Type) : Type := (list access * res A)%type.
#[global] Instance reads_ret : MRet reads := λ A a, ([], Ok a).
#[global] Instance reads_bind : MBind reads := λ A B f m,
  match snd m with
  | Ok a => (fst m ++ fst (f a), snd (f a))
  | Err e => (fst m, Err e)
  end.
Definition lift {A} (m : res A) : reads A := ([], m).
Definition deref {A} (b : buffer) (t : native_type) (load : Z → A) (p : Z) : reads A :=
  ([{| acc_buffer := b; acc_type := t; acc_address := p |}], Ok (load p)).

Record dns_state : Set := {
  ds_result : NativeNetworkReadback; ds_dns : list DnsIdentity;
  ds_addresses : list UnicastAddressIdentity
}.

Section Adapters.
(** The layout of the Win32 structures *)
Context (size_of align_of : native_type → Z).

Definition usize_max : Z := 2 ^ 64 - 1.

Definition in_native_buffer (b : buffer) (t : native_type) (address : Z) : bool :=
  let end_ := Z.min (buf_start b + buf_size b) usize_max in
  (buf_start b <=? address) && (address mod align_of t =? 0)
  && (address + size_of t <=? usize_max) && (address + size_of t <=? end_).

(** [links] and [unicast_links] count up to their limits in the source; here what is left of
    the limit is counted down. *)
Fixpoint walk_unicast (b : buffer) (m : memory) (luid : Z) (room : nat) (unicast : Z)
    (st : dns_state) : reads (nat * dns_state) :=
  if unicast =? 0 then mret (room, st)
  else match room with
  | O => lift (Err "HOST_WINDOWS_NETWORK_UNICAST_CHAIN_INVALID")
  | S room =>
      lift (fail_if (negb (in_native_buffer b Unicast unicast))
        "HOST_WINDOWS_NETWORK_UNICAST_CHAIN_INVALID") ;;
      row ← deref b Unicast (mem_unicast m) unicast;
      let socket := unicast_sockaddr row in
      lift (fail_if (negb (in_native_buffer b Sockaddr socket)
                     || (unicast_sockaddr_length row <? 16))
        "HOST_WINDOWS_NETWORK_UNICAST_SOCKET_INVALID") ;;
      family ← deref b Sockaddr (mem_family m) socket;
      address ←
        (if (family =? AF_INET) && in_native_buffer b SockaddrIn socket
         then deref b SockaddrIn (mem_in_addr m) socket
         else if (family =? AF_INET6) && ((28 <=? unicast_sockaddr_length row)
                 && in_native_buffer b SockaddrIn6 socket)
         then deref b SockaddrIn6 (mem_in6_addr m) socket
         else lift (Err "HOST_WINDOWS_NETWORK_UNICAST_SOCKET_INVALID"));
      result ← lift (add_unicast (ds_result st) family (unicast_on_link_prefix_length row));
      addresses ← lift (insert_fresh
        {| uid_interface_luid := luid; uid_family := family; uid_address := address;
           uid_prefix_length := unicast_on_link_prefix_length row |} (ds_addresses st)
        "HOST_WINDOWS_NETWORK_DUPLICATE_UNICAST_IDENTITY");
      walk_unicast b m luid room (unicast_next row)
        {| ds_result := result; ds_dns := ds_dns st; ds_addresses := addresses |}
  end.

Fixpoint walk_dns (b : buffer) (m : memory) (luid : Z) (room : nat) (ordinal dns : Z)
    (st : dns_state) : reads (nat * dns_state) :=
  if dns =? 0 then mret (room, st)
  else match room with
  | O => lift (Err "HOST_WINDOWS_NETWORK_DNS_CHAIN_INVALID")
  | S room =>
      lift (fail_if (negb (in_native_buffer b DnsServer dns))
        "HOST_WINDOWS_NETWORK_DNS_CHAIN_INVALID") ;;
      row ← deref b DnsServer (mem_dns m) dns;
      let socket := dns_sockaddr row in
      lift (fail_if (negb (in_native_buffer b Sockaddr socket)
                     || (dns_sockaddr_length row <? 16))
        "HOST_WINDOWS_NETWORK_DNS_SOCKET_INVALID") ;;
      family ← deref b Sockaddr (mem_family m) socket;
      lift (fail_if ((family =? AF_INET6)
                     && ((dns_sockaddr_length row <? 28)
                         || negb (in_native_buffer b SockaddrIn6 socket)))
        "HOST_WINDOWS_NETWORK_DNS_SOCKET_INVALID") ;;
      result ← lift (add_dns (ds_result st) family);
      address ←
        (if family =? AF_INET then deref b SockaddrIn (mem_in_addr m) socket
         else if family =? AF_INET6 then deref b SockaddrIn6 (mem_in6_addr m) socket
         else lift (Err "HOST_WINDOWS_NETWORK_DNS_FAMILY_INVALID"));
      identity ← lift (insert_fresh
        {| did_interface_luid := luid; did_order := ordinal; did_family := family;
           did_server := address |} (ds_dns st)
        "HOST_WINDOWS_NETWORK_DUPLICATE_DNS_IDENTITY");
      walk_dns b m luid room (ordinal + 1) (dns_next row)
        {| ds_result := result; ds_dns := identity; ds_addresses := ds_addresses st |}
  end.

(** One adapter that is up *)
Definition walk_entry (b : buffer) (m : memory) (entry : IP_ADAPTER_ADDRESSES_LH)
    (unicast_room dns_room : nat) (st : dns_state) : reads (nat * nat * dns_state) :=
  '(unicast_room, st) ←
    walk_unicast b m (adapter_luid entry) unicast_room (adapter_first_unicast entry) st;
  let result := if negb (adapter_first_dns entry =? 0)
                then add_dns_adapter (ds_result st) else ds_result st in
  '(dns_room, st) ← walk_dns b m (adapter_luid entry) dns_room 0 (adapter_first_dns entry)
    {| ds_result := result; ds_dns := ds_dns st; ds_addresses := ds_addresses st |};
  mret (unicast_room, dns_room, st).

Fixpoint walk_adapters (b : buffer) (m : memory) (room unicast_room dns_room : nat)
    (adapter : Z) (st : dns_state) : reads dns_state :=
  if adapter =? 0 then mret st
  else match room with
  | O => lift (Err "HOST_WINDOWS_NETWORK_ADAPTER_CHAIN_INVALID")
  | S room =>
      lift (fail_if (negb (in_native_buffer b Adapter adapter))
        "HOST_WINDOWS_NETWORK_ADAPTER_CHAIN_INVALID") ;;
      entry ← deref b Adapter (mem_adapter m) adapter;
      '(unicast_room, dns_room, st) ←
        (if adapter_oper_status entry =? 1
         then walk_entry b m entry unicast_room dns_room st
         else mret (unicast_room, dns_room, st));
      walk_adapters b m room unicast_room dns_room (adapter_next entry) st
  end.

(** [get i size]: what the [i]-th remaining call answers for a buffer of [size] bytes *)
Fixpoint read_native_dns_attempts (attempts : nat) (get : nat → Z → adapters_answer)
    (bytes : Z) (st : dns_state) : reads dns_state :=
  match attempts with
  | O => lift (Err "HOST_WINDOWS_NETWORK_DNS_BUFFER_UNSTABLE")
  | S attempts =>
      lift (fail_if (MAX_ADAPTER_BUFFER_BYTES <? bytes)
        "HOST_WINDOWS_NETWORK_DNS_BUFFER_UNBOUNDED") ;;
      let size := (bytes + 7) / 8 * 8 in
      let answer := get attempts size in
      if ans_status answer =? 111
      then read_native_dns_attempts attempts get (Z.max (ans_size answer) (bytes + 8)) st
      else if negb (ans_status answer =? 0)
      then lift (Err "HOST_WINDOWS_NETWORK_DNS_TABLE_UNAVAILABLE")
      else
        walk_adapters {| buf_start := ans_start answer; buf_size := size |}
          (ans_memory answer) (Z.to_nat MAX_NATIVE_ADAPTERS) (Z.to_nat MAX_UNICAST_LINKS)
          (Z.to_nat MAX_DNS_LINKS) (ans_start answer) st
  end.

Definition read_native_dns (get : nat → Z → adapters_answer) (st : dns_state)
    : reads dns_state :=
  read_native_dns_attempts 3 get (15 * 1024) st.

(** ** The snapshot *)

(** What the system answers to the calls of one snapshot *)
Record windows_tables : Type := {
  os_interfaces : option (list MIB_IF_ROW2);
  os_routes : option (list MIB_IPFORWARD_ROW2);
  os_adapters : nat → Z → adapters_answer
}.

Definition read_native_network_snapshot (os : windows_tables)
    : res (NativeNetworkReadback * NativeNetworkIdentity * list ManagedAdapterIdentity) :=
  '(warp, owned) ← observe_owned_foreign_interfaces (os_interfaces os);
  '(result, routes) ← read_native_routes (os_routes os) (default_readback, []);
  st ← snd (read_native_dns (os_adapters os)
              {| ds_result := result; ds_dns := []; ds_addresses := [] |});
  Ok (ds_result st,
      {| net_routes := routes; net_addresses := ds_addresses st; net_dns := ds_dns st;
         net_foreign_warp_adapters := warp |}, owned).

Definition observe_native_network_identity (os : windows_tables)
    : res (NativeNetworkReadback * NativeNetworkIdentity) :=
  '(readback, network, owned) ← read_native_network_snapshot os;
  fail_if (negb (is_empty owned))
    "HOST_WINDOWS_NETWORK_MANAGED_TUN_INTERFACE_STILL_PRESENT" ;;
  Ok (readback, network).

Definition observe_native_route_dns (os : windows_tables) : res NativeNetworkReadback :=
  '(readback, _) ← observe_native_network_identity os; Ok readback.

Definition observe_native_managed_tun (os : windows_tables)
    : res (NativeNetworkReadback * ManagedTunNetworkObservation) :=
  '(readback, network, owned) ← read_native_network_snapshot os;
  match owned with
  | [tun] => Ok (readback, {| tun_network := network; tun_owned := tun |})
  | _ => Err "HOST_WINDOWS_MANAGED_TUN_OWNER_AMBIGUOUS"
  end.
End Adapters.
