(* ===== verification/NativeObserverFacts.v ===== *)
(** * Properties of the Windows observers

    A logic for code that dereferences, in which the walk over the adapters is memory safe
    and bounded whatever the buffer holds; every snapshot is a well-formed network whose
    counts are those of its tables. *)

From S2P Require Import Prelude RustStd RustOrd RustUtf HostTypes NativeNetwork NativeObserver.

(** ** A logic for [reads]

    [spec P n m Q]: [m] dereferences only as [P] allows and at most [n] times; when it
    returns, [Q] holds of the accesses it has left and of its value. *)

Section Logic.
Context (P : access → Prop).

Definition spec {A} (n : nat) (m : reads A) (Q : nat → A → Prop) : Prop :=
  Forall P (fst m) ∧
  match snd m with
  | Ok a => ∃ k, (length (fst m) + k ≤ n)%nat ∧ Q k a
  | Err _ => (length (fst m) ≤ n)%nat
  end.

Lemma spec_ret {A} n (a : A) Q : Q n a → spec n (mret a) Q.
Proof. intros HQ. split; [constructor|]. exists n. simpl. split; [lia|done]. Qed.

Lemma spec_lift {A} n (m : res A) Q : (∀ a, m = Ok a → Q n a) → spec n (lift m) Q.
Proof.
  intros HQ. split; [constructor|]. destruct m as [a|e]; simpl; [|lia]. exists n. auto with lia.
Qed.

Lemma spec_deref {A} n b t (load : Z → A) p Q :
  P {| acc_buffer := b; acc_type := t; acc_address := p |} →
  Q n (load p) → spec (S n) (deref b t load p) Q.
Proof. intros HP HQ. split; [by constructor|]. exists n. simpl. split; [lia|done]. Qed.

Lemma spec_bind {A B} n (m : reads A) (f : A → reads B) Q R :
  spec n m Q → (∀ k a, Q k a → spec k (f a) R) → spec n (m ≫= f) R.
Proof.
  unfold spec, mbind, reads_bind. intros [HP Hm] Hf. destruct (snd m) as [a|e]; simpl.
  - destruct Hm as (k & Hk & HQ). destruct (Hf k a HQ) as [HPf Hr].
    split; [by apply Forall_app|]. rewrite length_app. destruct (snd (f a)) as [b|e].
    + destruct Hr as (k' & ? & ?). exists k'. split; [lia|done].
    + lia.
  - done.
Qed.

Lemma spec_bind_lift {A B} n (m : res A) (f : A → reads B) R :
  (∀ a, m = Ok a → spec n (f a) R) → spec n (lift m ≫= f) R.
Proof.
  intros Hf. eapply (spec_bind _ _ _ (λ k a, k = n ∧ m = Ok a)); [apply spec_lift; auto|].
  intros k a [-> ?]. auto.
Qed.

Lemma spec_bind_deref {A B} n b t (load : Z → A) p (f : A → reads B) R :
  P {| acc_buffer := b; acc_type := t; acc_address := p |} →
  spec n (f (load p)) R → spec (S n) (deref b t load p ≫= f) R.
Proof.
  intros HP Hf. eapply (spec_bind _ _ _ (λ k a, k = n ∧ a = load p)); [by apply spec_deref|].
  by intros k a [-> ->].
Qed.

Lemma spec_weaken {A} n n' (m : reads A) (Q Q' : nat → A → Prop) :
  (n ≤ n')%nat → (∀ k a, Q k a → Q' k a) → spec n m Q → spec n' m Q'.
Proof.
  intros Hn HQ [HP Hm]. split; [done|]. destruct (snd m) as [a|e]; [|lia].
  destruct Hm as (k & ? & ?). exists k. split; [lia|auto].
Qed.
End Logic.

(** ** Memory safety *)

(** The type a dereference is checked at: the source checks the address of a resolver's
    [SOCKADDR_IN] as a [SOCKADDR] only. *)
Definition checked_type (t : native_type) : native_type :=
  match t with SockaddrIn => Sockaddr | t => t end.

Section Safety.
Context (size_of align_of : native_type → Z).

Definition in_bounds (a : access) : Prop :=
  buf_start (acc_buffer a) ≤ acc_address a ∧
  acc_address a + size_of (acc_type a) ≤ buf_start (acc_buffer a) + buf_size (acc_buffer a).
Definition aligned_at (t : native_type) (a : access) : Prop :=
  acc_address a mod align_of t = 0.
Definition safe (a : access) : Prop := in_bounds a ∧ aligned_at (checked_type (acc_type a)) a.

(** Both have the size of 16 bytes. *)
Context (Hsockaddr : size_of SockaddrIn ≤ size_of Sockaddr).

Lemma in_native_buffer_true b t p :
  in_native_buffer size_of align_of b t p = true →
  buf_start b ≤ p ∧ p + size_of t ≤ buf_start b + buf_size b ∧ p mod align_of t = 0.
Proof using Type. unfold in_native_buffer. intros H. reflect_in H. lia. Qed.

Lemma in_native_buffer_safe b t p :
  in_native_buffer size_of align_of b (checked_type t) p = true →
  safe {| acc_buffer := b; acc_type := t; acc_address := p |}.
Proof.
  intros (? & ? & ?)%in_native_buffer_true.
  split; [split; simpl; destruct t; simpl in *; lia|done].
Qed.

(** How the walks change the limits: each link costs one unit of its limit. *)
Context (b : buffer) (m : memory).

(** What the guards before a dereference establish *)
Lemma guard_in_buffer t p (e : string) u :
  fail_if (negb (in_native_buffer size_of align_of b t p)) e = Ok u →
  in_native_buffer size_of align_of b t p = true.
Proof using Type. by intros H%fail_if_Ok%negb_false. Qed.
Lemma guard_socket t p (c : bool) (e : string) u :
  fail_if (negb (in_native_buffer size_of align_of b t p) || c) e = Ok u →
  in_native_buffer size_of align_of b t p = true.
Proof using Type. intros H%fail_if_Ok. reflect_in H. tauto. Qed.

Lemma walk_unicast_spec luid room unicast st n :
  spec safe (3 * room + n) (walk_unicast size_of align_of b m luid room unicast st)
    (λ k r, k = (3 * fst r + n)%nat).
Proof.
  revert unicast st. induction room as [|room IH]; intros unicast st; cbn [walk_unicast];
    (destruct (unicast =? 0); [by apply spec_ret|]); [by apply spec_lift|].
  replace (3 * S room + n)%nat with (S (S (S (3 * room + n)))) by lia.
  apply spec_bind_lift. intros ? Hu%guard_in_buffer.
  apply spec_bind_deref; [by apply in_native_buffer_safe|]. cbv zeta.
  apply spec_bind_lift. intros ? Hs%guard_socket.
  apply spec_bind_deref; [by apply in_native_buffer_safe|].
  eapply (spec_bind _ _ _ _ (λ k _, k = (3 * room + n)%nat)).
  - case_match; [|case_match eqn:E6; [|by apply spec_lift]].
    + apply spec_deref; [by apply in_native_buffer_safe|done].
    + apply spec_deref; [|done]. apply in_native_buffer_safe. reflect_in E6. tauto.
  - intros k address ->. apply spec_bind_lift. intros result _.
    apply spec_bind_lift. intros addresses _. apply IH.
Qed.

Lemma walk_dns_spec luid room ordinal dns st n :
  spec safe (3 * room + n) (walk_dns size_of align_of b m luid room ordinal dns st)
    (λ k r, k = (3 * fst r + n)%nat).
Proof.
  revert ordinal dns st. induction room as [|room IH]; intros ordinal dns st; cbn [walk_dns];
    (destruct (dns =? 0); [by apply spec_ret|]); [by apply spec_lift|].
  replace (3 * S room + n)%nat with (S (S (S (3 * room + n)))) by lia.
  apply spec_bind_lift. intros ? Hu%guard_in_buffer.
  apply spec_bind_deref; [by apply in_native_buffer_safe|]. cbv zeta.
  apply spec_bind_lift. intros ? Hs%guard_socket.
  apply spec_bind_deref; [by apply in_native_buffer_safe|].
  apply spec_bind_lift. intros ? H6%fail_if_Ok.
  apply spec_bind_lift. intros result _.
  eapply (spec_bind _ _ _ _ (λ k _, k = (3 * room + n)%nat)).
  - destruct (Z.eqb_spec (mem_family m (dns_sockaddr (mem_dns m dns))) AF_INET).
    + apply spec_deref; [by apply in_native_buffer_safe|done].
    + case_match eqn:E6; [|by apply spec_lift].
      apply spec_deref; [|done]. apply in_native_buffer_safe. simpl in H6. reflect_in H6. tauto.
  - intros k address ->. apply spec_bind_lift. intros identity _. apply IH.
Qed.

Lemma walk_entry_spec entry u d st n :
  spec safe (3 * u + 3 * d + n) (walk_entry size_of align_of b m entry u d st)
    (λ k '(u', d', _), k = (3 * u' + 3 * d' + n)%nat).
Proof.
  unfold walk_entry. rewrite <- Nat.add_assoc. eapply spec_bind; [apply walk_unicast_spec|].
  intros k [u' st'] ->. cbn [fst]. replace (3 * u' + (3 * d + n))%nat with (3 * d + (3 * u' + n))%nat
    by lia.
  eapply spec_bind; [apply walk_dns_spec|]. intros k [d' st''] ->. apply spec_ret. cbn [fst]. lia.
Qed.

Lemma walk_adapters_spec room u d adapter st :
  spec safe (room + 3 * u + 3 * d)
    (walk_adapters size_of align_of b m room u d adapter st) (λ _ _, True).
Proof.
  revert u d adapter st. induction room as [|room IH]; intros u d adapter st;
    cbn [walk_adapters]; (destruct (adapter =? 0); [by apply spec_ret|]);
    [by apply spec_lift|].
  replace (S room + 3 * u + 3 * d)%nat with (S (room + 3 * u + 3 * d)) by lia.
  apply spec_bind_lift. intros ? Ha%guard_in_buffer.
  apply spec_bind_deref; [by apply in_native_buffer_safe|].
  eapply (spec_bind _ _ _ _ (λ k '(u', d', _), k = (room + 3 * u' + 3 * d')%nat)).
  - destruct (adapter_oper_status _ =? 1); [|by apply spec_ret].
    eapply spec_weaken; [| |apply (walk_entry_spec _ u d st room)]; [lia|].
    intros k [[u' d'] st'] ->. lia.
  - intros k [[u' d'] st'] ->. apply IH.
Qed.
End Safety.

(** The accesses of one reading: an adapter record per adapter, a record and two
    addresses per link *)
Definition max_accesses : nat :=
  (Z.to_nat MAX_NATIVE_ADAPTERS + 3 * Z.to_nat MAX_UNICAST_LINKS + 3 * Z.to_nat MAX_DNS_LINKS)%nat.

(** C11: Whatever GetAdaptersAddresses returns, also cyclic or wild pointers, reading
    the adapters dereferences only addresses inside the buffer that was passed, and
    makes a bounded number of accesses. *)
Theorem adapters_walk_safe (size_of align_of : native_type → Z)
    (get : nat → Z → adapters_answer) (st : dns_state) :
  size_of SockaddrIn ≤ size_of Sockaddr →
  Forall (safe size_of align_of) (fst (read_native_dns size_of align_of get st)) ∧
  (length (fst (read_native_dns size_of align_of get st)) ≤ max_accesses)%nat.
Proof.
  intros Hs. unfold read_native_dns. generalize 3%nat, (15 * 1024).
  intros attempts bytes. enough (spec (safe size_of align_of) max_accesses
    (read_native_dns_attempts size_of align_of attempts get bytes st) (λ _ _, True)) as [HP Hn].
  { split; [done|]. destruct (snd _) as [a|e]; [destruct Hn as (k & ? & _)|]; lia. }
  revert bytes. induction attempts as [|attempts IH]; intros bytes;
    cbn [read_native_dns_attempts]; [by apply spec_lift|].
  apply spec_bind_lift. intros _ _. cbv zeta. destruct (ans_status _ =? 111); [apply IH|].
  destruct (negb _); [by apply spec_lift|]. apply (walk_adapters_spec _ _ Hs).
Qed.

(** ** Well-formed networks *)

Definition in_i32 (z : Z) : Prop := - 2 ^ 31 ≤ z < 2 ^ 31.
Definition in_u8 (z : Z) : Prop := 0 ≤ z ≤ u8_max.

(** The bytes of an address and the length of a prefix fit the family *)
Definition family_width (family : Z) (w : Z) : Prop :=
  family = AF_INET ∧ w = 4 ∨ family = AF_INET6 ∧ w = 16.

Record route_wf (r : RouteIdentity) : Prop := {
  rwf_luid : in_u64 (rid_interface_luid r);
  rwf_family : family_width (rid_family r) (blen (rid_prefix r));
  rwf_prefix : 0 ≤ rid_prefix_length r ≤ 8 * blen (rid_prefix r);
  rwf_hop : blen (rid_next_hop r) = blen (rid_prefix r);
  rwf_metric : in_u32 (rid_metric r);
  rwf_protocol : in_i32 (rid_protocol r);
  rwf_origin : in_i32 (rid_origin r);
  rwf_site : in_u8 (rid_site_prefix_length r)
}.
Record address_wf (a : UnicastAddressIdentity) : Prop := {
  awf_luid : in_u64 (uid_interface_luid a);
  awf_family : family_width (uid_family a) (blen (uid_address a));
  awf_prefix : 0 ≤ uid_prefix_length a ≤ 8 * blen (uid_address a)
}.
Record dns_wf (d : DnsIdentity) : Prop := {
  dwf_luid : in_u64 (did_interface_luid d);
  dwf_order : 0 ≤ did_order d < MAX_DNS_LINKS;
  dwf_family : family_width (did_family d) (blen (did_server d))
}.
Record adapter_wf (a : ManagedAdapterIdentity) : Prop := {
  mwf_alias : mid_alias a = "cloudflarewarp";
  mwf_luid : in_u64 (mid_interface_luid a);
  mwf_status : in_i32 (mid_oper_status a)
}.

(** What every snapshot satisfies: ordered tables without duplicates, within the limits *)
Record network_wf (n : NativeNetworkIdentity) : Prop := {
  nwf_routes : Forall route_wf (net_routes n);
  nwf_addresses : Forall address_wf (net_addresses n);
  nwf_dns : Forall dns_wf (net_dns n);
  nwf_adapters : Forall adapter_wf (net_foreign_warp_adapters n);
  nwf_ordered : ascending (net_routes n) = true ∧ ascending (net_addresses n) = true ∧
                ascending (net_dns n) = true ∧
                ascending (net_foreign_warp_adapters n) = true;
  nwf_limits : Z.of_nat (length (net_routes n)) ≤ MAX_NATIVE_ROUTES ∧
               Z.of_nat (length (net_addresses n)) ≤ MAX_UNICAST_LINKS ∧
               Z.of_nat (length (net_dns n)) ≤ MAX_DNS_LINKS ∧
               Z.of_nat (length (net_foreign_warp_adapters n)) ≤ MAX_NATIVE_INTERFACES
}.

Definition count {A} (p : A → bool) (l : list A) : Z := Z.of_nat (length (List.filter p l)).
Lemma count_cons {A} (p : A → bool) x l : count p (x :: l) = Z_of_bool (p x) + count p l.
Proof. unfold count. simpl. destruct (p x); simpl; lia. Qed.
#[global] Instance count_proper {A} (p : A → bool) : Proper ((≡ₚ) ==> (=)) (count p).
Proof.
  intros l l' Hl. unfold count. f_equal. induction Hl; simpl; repeat case_match; simpl; lia.
Qed.

(** The counts of a readback are those of the tables it was read with. *)
Record counts_agree (r : NativeNetworkReadback) (routes : list RouteIdentity)
    (addresses : list UnicastAddressIdentity) (dns : list DnsIdentity) : Prop := {
  cnt_routes4 : ipv4_routes r = count (λ x, rid_family x =? AF_INET) routes;
  cnt_routes6 : ipv6_routes r = count (λ x, rid_family x =? AF_INET6) routes;
  cnt_default4 : ipv4_default_routes r =
    count (λ x, (rid_family x =? AF_INET) && (rid_prefix_length x =? 0)) routes;
  cnt_default6 : ipv6_default_routes r =
    count (λ x, (rid_family x =? AF_INET6) && (rid_prefix_length x =? 0)) routes;
  cnt_unicast4 : ipv4_unicast_addresses r = count (λ x, uid_family x =? AF_INET) addresses;
  cnt_unicast6 : ipv6_unicast_addresses r = count (λ x, uid_family x =? AF_INET6) addresses;
  cnt_dns4 : ipv4_dns_servers r = count (λ x, did_family x =? AF_INET) dns;
  cnt_dns6 : ipv6_dns_servers r = count (λ x, did_family x =? AF_INET6) dns
}.

#[global] Instance counts_agree_proper r :
  Proper ((≡ₚ) ==> (≡ₚ) ==> (≡ₚ) ==> (↔)) (counts_agree r).
Proof.
  intros rs rs' Hr us us' Hu ds ds' Hd.
  split; intros []; split; by rewrite ?Hr, ?Hu, ?Hd in * || by rewrite <- ?Hr, <- ?Hu, <- ?Hd in *.
Qed.

(** *** The types of the Win32 structures *)

Definition sockaddr_typed (a : SOCKADDR_INET) : Prop :=
  blen (sin_addr a) = 4 ∧ blen (sin6_addr a) = 16.
Definition forward_typed (row : MIB_IPFORWARD_ROW2) : Prop :=
  in_u64 (fwd_interface_luid row) ∧ sockaddr_typed (fwd_prefix row) ∧
  sockaddr_typed (fwd_next_hop row) ∧ in_u8 (fwd_prefix_length row) ∧
  in_u32 (fwd_metric row) ∧ in_i32 (fwd_protocol row) ∧ in_i32 (fwd_origin row) ∧
  in_u8 (fwd_site_prefix_length row).
Definition interface_typed (row : MIB_IF_ROW2) : Prop :=
  in_u64 (ifrow_interface_luid row) ∧ in_i32 (ifrow_oper_status row).
Definition memory_typed (m : memory) : Prop :=
  ∀ p, in_u64 (adapter_luid (mem_adapter m p)) ∧
       in_u8 (unicast_on_link_prefix_length (mem_unicast m p)) ∧
       blen (mem_in_addr m p) = 4 ∧ blen (mem_in6_addr m p) = 16.
Definition os_typed (os : windows_tables) : Prop :=
  (∀ rows, os_interfaces os = Some rows → Forall interface_typed rows) ∧
  (∀ rows, os_routes os = Some rows → Forall forward_typed rows) ∧
  (∀ i size, memory_typed (ans_memory (os_adapters os i size))).

(** *** One insertion *)

Lemma insert_fresh_Ok `{OrdLaws A} (x : A) s e s' :
  insert_fresh x s e = Ok s' →
  s' ≡ₚ x :: s ∧ (ascending s = true → ascending s' = true).
Proof.
  unfold insert_fresh. intros Hi. pose proof (set_insert_perm x s) as Hp.
  pose proof (set_insert_ascending x s) as Ha. destruct (set_insert x s) as [new t].
  inv_ok Hi. apply negb_false in Hm. simpl in *. auto.
Qed.

(** The counters after one row of a known family *)
Ltac count_row E := split; simpl; rewrite ?count_cons; cbv beta; rewrite ?E;
  unfold AF_INET, AF_INET6 in *; simpl; lia.

Lemma add_route_Ok r family len r' us ds rs x :
  add_route r family len = Ok r' → rid_family x = family → rid_prefix_length x = len →
  counts_agree r rs us ds →
  counts_agree r' (x :: rs) us ds ∧
  (family = AF_INET ∧ len ≤ 32 ∨ family = AF_INET6 ∧ len ≤ 128).
Proof.
  unfold add_route. intros Ha <- <- [].
  destruct (_ && _) eqn:E4 in Ha; [|destruct (_ && _) eqn:E6 in Ha; [|done]]; simplify_eq.
  - reflect_in E4. destruct E4 as [E ?].
    split; [|lia]. split; simpl; rewrite ?count_cons; cbv beta; rewrite ?E;
      destruct (rid_prefix_length x =? 0); unfold AF_INET, AF_INET6 in *; simpl; lia.
  - reflect_in E6. destruct E6 as [E ?].
    split; [|lia]. split; simpl; rewrite ?count_cons; cbv beta; rewrite ?E;
      destruct (rid_prefix_length x =? 0); unfold AF_INET, AF_INET6 in *; simpl; lia.
Qed.

Lemma add_unicast_Ok r family len r' us ds rs x :
  add_unicast r family len = Ok r' → uid_family x = family →
  counts_agree r rs us ds →
  counts_agree r' rs (x :: us) ds ∧
  (family = AF_INET ∧ len ≤ 32 ∨ family = AF_INET6 ∧ len ≤ 128).
Proof.
  unfold add_unicast. intros Ha <- [].
  destruct (_ && _) eqn:E4 in Ha; [|destruct (_ && _) eqn:E6 in Ha; [|done]]; simplify_eq.
  - reflect_in E4. destruct E4 as [E ?].
    split; [|lia]. count_row E.
  - reflect_in E6. destruct E6 as [E ?].
    split; [|lia]. count_row E.
Qed.

Lemma add_dns_Ok r family r' us ds rs x :
  add_dns r family = Ok r' → did_family x = family →
  counts_agree r rs us ds → counts_agree r' rs us (x :: ds).
Proof.
  unfold add_dns. intros Ha <- [].
  destruct (_ =? _) eqn:E4 in Ha; [|destruct (_ =? _) eqn:E6 in Ha; [|done]]; simplify_eq.
  - apply Z.eqb_eq in E4. count_row E4.
  - apply Z.eqb_eq in E6. count_row E6.
Qed.

(** *** Routes *)

Definition routes_ok (st : NativeNetworkReadback * list RouteIdentity) : Prop :=
  counts_agree (fst st) (snd st) [] [] ∧ Forall route_wf (snd st) ∧
  ascending (snd st) = true.

Lemma address_bytes_Ok a family b :
  address_bytes a = Ok (family, b) → sockaddr_typed a →
  family = si_family a ∧ family_width family (blen b).
Proof.
  unfold address_bytes, family_width. intros Ha [? ?].
  destruct (Z.eqb_spec (si_family a) AF_INET); [|destruct (Z.eqb_spec (si_family a) AF_INET6)];
    simplify_eq; auto.
Qed.

Lemma family_width_inj f w w' : family_width f w → family_width f w' → w = w'.
Proof. unfold family_width, AF_INET, AF_INET6. lia. Qed.
Lemma family_width_prefix f w n :
  family_width f w → f = AF_INET ∧ n ≤ 32 ∨ f = AF_INET6 ∧ n ≤ 128 → n ≤ 8 * w.
Proof. unfold family_width, AF_INET, AF_INET6. lia. Qed.

Lemma read_route_ok st row st' :
  forward_typed row → routes_ok st → read_route st row = Ok st' →
  routes_ok st' ∧ (length (snd st') ≤ S (length (snd st)))%nat.
Proof.
  intros (? & Hp & Hh & ? & ? & ? & ? & ?) (Hc & Hf & Ha) Hr. unfold read_route in Hr.
  apply bind_Ok in Hr as (result & Hadd & Hr).
  apply bind_Ok in Hr as ([pf prefix] & Hpb & Hr).
  apply bind_Ok in Hr as ([nf hop] & Hnb & Hr). inv_ok Hr. rename Hm into Hg, Hm0 into Hins.
  apply address_bytes_Ok in Hpb as [-> Hw]; [|done].
  apply address_bytes_Ok in Hnb as [-> Hw']; [|done].
  reflect_in Hg. destruct Hg as [_ Hnf]. rewrite Hnf in Hw'.
  apply insert_fresh_Ok in Hins as [Hperm Hasc].
  match type of Hperm with _ ≡ₚ ?key :: _ =>
    destruct (add_route_Ok _ _ _ _ [] [] _ key Hadd eq_refl eq_refl Hc) as [Hc' Hlen] end.
  split; [split_and!; simpl; [by rewrite Hperm| |by apply Hasc]|simpl; by rewrite Hperm].
  rewrite Hperm. constructor; [|done].
  pose proof (family_width_inj _ _ _ Hw Hw'). unfold in_u8 in *.
  split; simpl; try done. split; [lia|]. eapply family_width_prefix; eauto.
Qed.

Lemma try_fold_rows {A S} (f : S → A → res S) (I : S → Prop) (size : S → nat)
    (typed : A → Prop) rows st st' :
  (∀ s x s', typed x → I s → f s x = Ok s' → I s' ∧ (size s' ≤ Datatypes.S (size s))%nat) →
  Forall typed rows → I st → try_fold f st rows = Ok st' →
  I st' ∧ (size st' ≤ size st + length rows)%nat.
Proof.
  intros Hf Hrows. revert st. induction Hrows as [|x rows Hx _ IH]; intros st HI; simpl.
  - intros [= ->]. split; [done|lia].
  - intros (s1 & H1 & H2)%bind_Ok. destruct (Hf _ _ _ Hx HI H1) as [HI1 Hs].
    destruct (IH _ HI1 H2). split; [done|lia].
Qed.

Lemma read_native_routes_ok table st st' :
  (∀ rows, table = Some rows → Forall forward_typed rows) →
  routes_ok st → snd st = [] → read_native_routes table st = Ok st' →
  routes_ok st' ∧ Z.of_nat (length (snd st')) ≤ MAX_NATIVE_ROUTES.
Proof.
  intros Ht Hok He Hr. unfold read_native_routes in Hr. inv_ok Hr. reflect_in Hm0.
  destruct (try_fold_rows _ routes_ok (length ∘ snd) forward_typed _ _ _
    ltac:(intros s row s' ? ?; by apply read_route_ok)
    (Ht _ Hm) Hok Hr) as [? Hlen].
  split; [done|]. simpl in Hlen. rewrite He in Hlen. simpl in Hlen. lia.
Qed.

(** *** Interfaces *)

Definition interfaces_ok (st : list ManagedAdapterIdentity * list ManagedAdapterIdentity)
    : Prop :=
  Forall adapter_wf (fst st) ∧ ascending (fst st) = true ∧ ascending (snd st) = true.

Lemma read_interface_ok st row st' :
  interface_typed row → interfaces_ok st → read_interface st row = Ok st' →
  interfaces_ok st' ∧ (length (fst st') ≤ S (length (fst st)))%nat.
Proof.
  destruct st as [foreign owned]. intros [? ?] (Hf & Ha & Ho) Hr. unfold read_interface in Hr.
  simpl in *. inv_ok Hr. rename x0 into owned'.
  assert (ascending owned' = true) as Ho'.
  { destruct x; inv_ok Hm0; [|done]. apply insert_fresh_Ok in Hm0 as [_ ?]; auto. }
  clear Hm0. unfold warp_alias, eq_ignore_ascii_case in Hm2.
  destruct (str_eqb _ _) eqn:E in Hm2.
  - apply insert_fresh_Ok in Hm2 as [Hp Hasc]. apply str_eqb_true in E.
    split; [split_and!; simpl; [|by apply Hasc|done]|simpl; by rewrite Hp].
    rewrite Hp. constructor; [|done]. split; simpl; [|done..]. rewrite E. reflexivity.
  - inv_ok Hm2. split; [done|simpl; lia].
Qed.

Lemma observe_interfaces_ok table foreign owned :
  (∀ rows, table = Some rows → Forall interface_typed rows) →
  observe_owned_foreign_interfaces table = Ok (foreign, owned) →
  Forall adapter_wf foreign ∧ ascending foreign = true ∧
  Z.of_nat (length foreign) ≤ MAX_NATIVE_INTERFACES ∧ (length owned ≤ 1)%nat.
Proof.
  intros Ht Hr. unfold observe_owned_foreign_interfaces in Hr.
  apply bind_Ok in Hr as (rows & Hrows%ok_or_Ok & Hr).
  apply bind_Ok in Hr as (? & Hg%fail_if_Ok & Hr).
  apply bind_Ok in Hr as ([f o] & Hfold & Hr). inv_ok Hr. reflect_in Hg. reflect_in Hm.
  destruct (try_fold_rows _ interfaces_ok (length ∘ fst) interface_typed _ ([], []) _
    ltac:(intros s row s' ? ?; by apply read_interface_ok)
    (Ht _ eq_refl) (conj (Forall_nil_2 _) (conj eq_refl eq_refl)) Hfold) as [(? & ? & ?) Hlen].
  simpl in *. split_and!; [done..|lia|lia].
Qed.

(** *** Adapters *)

Lemma reads_bind_Ok {A B} (m : reads A) (f : A → reads B) b :
  snd (m ≫= f) = Ok b ↔ ∃ a, snd m = Ok a ∧ snd (f a) = Ok b.
Proof. unfold mbind, reads_bind. destruct (snd m); simpl; naive_solver. Qed.

Ltac inv_reads H :=
  repeat match type of H with
  | snd (lift _ ≫= _) = Ok _ =>
      let x := fresh "x" in let Hx := fresh "Hx" in
      apply reads_bind_Ok in H as (x & Hx & H); cbn [snd lift] in Hx
  | snd (deref _ _ _ _ ≫= _) = Ok _ =>
      let x := fresh "x" in let Hx := fresh "Hx" in
      apply reads_bind_Ok in H as (x & Hx & H); cbn [snd deref] in Hx;
      injection Hx as <-; cbv zeta in H
  end.

Section Walks.
Context (size_of align_of : native_type → Z) (b : buffer) (m : memory) (Hm : memory_typed m).
Context (routes : list RouteIdentity).

(** The state of the walk, with what is left of the limits *)
Record walk_ok (u d : nat) (st : dns_state) : Prop := {
  wok_counts : counts_agree (ds_result st) routes (ds_addresses st) (ds_dns st);
  wok_addresses : Forall address_wf (ds_addresses st);
  wok_dns : Forall dns_wf (ds_dns st);
  wok_ordered : ascending (ds_addresses st) = true ∧ ascending (ds_dns st) = true;
  wok_unicast : Z.of_nat (length (ds_addresses st)) + Z.of_nat u ≤ MAX_UNICAST_LINKS;
  wok_links : Z.of_nat (length (ds_dns st)) + Z.of_nat d ≤ MAX_DNS_LINKS
}.

Lemma walk_unicast_ok p u d unicast st u' st' :
  walk_ok u d st →
  snd (walk_unicast size_of align_of b m (adapter_luid (mem_adapter m p)) u unicast st)
    = Ok (u', st') → walk_ok u' d st'.
Proof.
  revert unicast st. induction u as [|u IH]; intros unicast st Hok; cbn [walk_unicast];
    destruct (unicast =? 0); try done; try (by intros [= <- <-]).
  intros Hr. inv_reads Hr. apply reads_bind_Ok in Hr as (address & Haddr & Hr). inv_reads Hr.
  apply IH in Hr; [done|]. clear IH Hr.
  destruct Hok as [Hc Ha Hd [Hoa Hod] Hu Hl]. apply insert_fresh_Ok in Hx2 as [Hp Hasc].
  match type of Hp with _ ≡ₚ ?key :: _ =>
    destruct (add_unicast_Ok _ _ _ _ _ _ _ key Hx1 eq_refl Hc) as [Hc' Hlen] end.
  split; simpl; [by rewrite Hp| |done|auto|rewrite Hp; simpl; lia|done].
  rewrite Hp. constructor; [|done].
  destruct (Hm p) as (? & _ & _ & _), (Hm unicast) as (_ & Hplen & _ & _),
    (Hm (unicast_sockaddr (mem_unicast m unicast))) as (_ & _ & H4 & H6).
  assert (family_width (mem_family m (unicast_sockaddr (mem_unicast m unicast))) (blen address)) as Hw.
  { unfold family_width. destruct (_ && _) eqn:E4 in Haddr;
      [|destruct (_ && _) eqn:E6 in Haddr; [|done]]; simplify_eq/=.
    - reflect_in E4. tauto.
    - reflect_in E6. tauto. }
  split; simpl; [done..|]. unfold in_u8 in Hplen. split; [lia|]. eapply family_width_prefix; eauto.
Qed.

Lemma walk_dns_ok p u d ordinal dns st d' st' :
  walk_ok u d st → 0 ≤ ordinal → ordinal + Z.of_nat d ≤ MAX_DNS_LINKS →
  snd (walk_dns size_of align_of b m (adapter_luid (mem_adapter m p)) d ordinal dns st)
    = Ok (d', st') → walk_ok u d' st'.
Proof.
  revert ordinal dns st. induction d as [|d IH]; intros ordinal dns st Hok Ho Hod; cbn [walk_dns];
    destruct (dns =? 0); try done; try (by intros [= <- <-]).
  intros Hr. inv_reads Hr. apply reads_bind_Ok in Hr as (address & Haddr & Hr). inv_reads Hr.
  apply IH in Hr; [done| |lia..]. clear IH Hr.
  destruct Hok as [Hc Ha Hd [Hoa Hodns] Hu Hl]. apply insert_fresh_Ok in Hx3 as [Hp Hasc].
  match type of Hp with _ ≡ₚ ?key :: _ =>
    pose proof (add_dns_Ok _ _ _ _ _ _ key Hx2 eq_refl Hc) as Hc' end.
  split; simpl; [by rewrite Hp|done| |auto|done|rewrite Hp; simpl; lia].
  rewrite Hp. constructor; [|done].
  destruct (Hm p) as (? & _ & _ & _),
    (Hm (dns_sockaddr (mem_dns m dns))) as (_ & _ & H4 & H6).
  split; simpl; [done|lia|]. unfold family_width.
  destruct (Z.eqb_spec (mem_family m (dns_sockaddr (mem_dns m dns))) AF_INET);
    [|destruct (Z.eqb_spec (mem_family m (dns_sockaddr (mem_dns m dns))) AF_INET6)];
    simplify_eq/=; auto.
Qed.

Lemma walk_entry_ok p u d st u' d' st' :
  walk_ok u d st →
  snd (walk_entry size_of align_of b m (mem_adapter m p) u d st) = Ok (u', d', st') →
  walk_ok u' d' st'.
Proof.
  intros Hok Hr. apply reads_bind_Ok in Hr as ([u1 st1] & H1 & Hr).
  apply reads_bind_Ok in Hr as ([d1 st2] & H2 & [= <- <- <-]).
  apply walk_unicast_ok with (d := d) in H1; [|done].
  eapply walk_dns_ok in H2; [exact H2| |lia|destruct H1; simpl; lia].
  destruct H1 as [[] ? ? ? ? ?]. split; try done.
  by destruct (negb _); split.
Qed.

Lemma walk_adapters_ok room u d adapter st st' :
  walk_ok u d st →
  snd (walk_adapters size_of align_of b m room u d adapter st) = Ok st' →
  walk_ok 0 0 st'.
Proof.
  revert u d adapter st. induction room as [|room IH]; intros u d adapter st Hok;
    cbn [walk_adapters]; destruct (adapter =? 0); try done.
  1,2: intros [= <-]; destruct Hok; split; try done; lia.
  intros Hr. inv_reads Hr. apply reads_bind_Ok in Hr as ([[u1 d1] st1] & H1 & Hr).
  apply IH in Hr; [done|]. destruct (adapter_oper_status _ =? 1).
  - by eapply walk_entry_ok.
  - by injection H1 as <- <- <-.
Qed.
End Walks.

Lemma read_native_dns_ok size_of align_of get routes st st' :
  (∀ i size, memory_typed (ans_memory (get i size))) →
  counts_agree (ds_result st) routes [] [] → ds_dns st = [] → ds_addresses st = [] →
  snd (read_native_dns size_of align_of get st) = Ok st' →
  walk_ok routes 0 0 st'.
Proof.
  intros Hm Hc Hd Ha. unfold read_native_dns. generalize 3%nat, (15 * 1024).
  induction n as [|n IH]; intros bytes; cbn [read_native_dns_attempts]; [done|].
  intros Hr. inv_reads Hr. cbv zeta in Hr. destruct (_ =? 111); [by eapply IH|].
  destruct (negb _); [done|]. eapply walk_adapters_ok; [apply Hm| |exact Hr].
  split; rewrite ?Hd, ?Ha; try done; try constructor; try done.
Qed.
