(* ===== verification/NativeSnapshot.v ===== *)
(** * What a snapshot holds

    A snapshot of [NativeObserver] holds exactly what the tables of the system hold: each
    row of the route table, each interface with the name of the TUN or of Cloudflare's
    adapter, and each address and resolver that the pointers of the adapter buffer lead to.
    The strict observer succeeds only without a TUN, the other only with exactly one. *)

From S2P Require Import Prelude RustStd RustOrd RustUtf HostTypes NativeNetwork NativeObserver.
From S2P Require Import NativeObserverFacts.

(** ** What the tables say *)

Definition address_of (family : Z) (v4 v6 : bytes) : bytes :=
  if family =? AF_INET then v4 else v6.

Definition route_identity (row : MIB_IPFORWARD_ROW2) : RouteIdentity := {|
  rid_interface_luid := fwd_interface_luid row;
  rid_family := si_family (fwd_prefix row);
  rid_prefix := address_of (si_family (fwd_prefix row)) (sin_addr (fwd_prefix row))
                  (sin6_addr (fwd_prefix row));
  rid_prefix_length := fwd_prefix_length row;
  rid_next_hop := address_of (si_family (fwd_prefix row)) (sin_addr (fwd_next_hop row))
                    (sin6_addr (fwd_next_hop row));
  rid_metric := fwd_metric row; rid_protocol := fwd_protocol row;
  rid_origin := fwd_origin row; rid_site_prefix_length := fwd_site_prefix_length row;
  rid_loopback := fwd_loopback row; rid_published := fwd_publish row
|}.

(** An interface spells a name when its alias up to the terminator is that name in any
    case. *)
Definition spells (name : string) (row : MIB_IF_ROW2) : bool :=
  match alias_of (ifrow_alias row) with
  | Ok alias => eq_ignore_ascii_case alias name
  | Err _ => false
  end.
Definition interface_identity (alias : string) (row : MIB_IF_ROW2) : ManagedAdapterIdentity := {|
  mid_alias := alias; mid_interface_luid := ifrow_interface_luid row;
  mid_oper_status := ifrow_oper_status row
|}.

(** The linked list that starts at an address *)
Inductive chain {A} (load : Z → A) (next : A → Z) : Z → list A → Prop :=
| chain_nil : chain load next 0 []
| chain_cons p l : p ≠ 0 → chain load next (next (load p)) l → chain load next p (load p :: l).

Section Memory.
Context (m : memory).

Definition unicast_identity (luid : Z) (row : IP_ADAPTER_UNICAST_ADDRESS_LH)
    : UnicastAddressIdentity :=
  let family := mem_family m (unicast_sockaddr row) in {|
  uid_interface_luid := luid; uid_family := family;
  uid_address := address_of family (mem_in_addr m (unicast_sockaddr row))
                   (mem_in6_addr m (unicast_sockaddr row));
  uid_prefix_length := unicast_on_link_prefix_length row
|}.
Definition dns_identity (luid order : Z) (row : IP_ADAPTER_DNS_SERVER_ADDRESS_XP)
    : DnsIdentity :=
  let family := mem_family m (dns_sockaddr row) in {|
  did_interface_luid := luid; did_order := order; did_family := family;
  did_server := address_of family (mem_in_addr m (dns_sockaddr row))
                  (mem_in6_addr m (dns_sockaddr row))
|}.
(** Resolvers are numbered in the order of the list. *)
Fixpoint dns_identities (luid order : Z) (rows : list IP_ADAPTER_DNS_SERVER_ADDRESS_XP)
    : list DnsIdentity :=
  match rows with
  | [] => []
  | row :: rows => dns_identity luid order row :: dns_identities luid (order + 1) rows
  end.

(** The addresses and resolvers of the adapters that are up *)
Inductive adapters_hold : Z → list UnicastAddressIdentity → list DnsIdentity → Prop :=
| hold_end : adapters_hold 0 [] []
| hold_down p us ds :
    p ≠ 0 → adapter_oper_status (mem_adapter m p) ≠ 1 →
    adapters_hold (adapter_next (mem_adapter m p)) us ds → adapters_hold p us ds
| hold_up p ul dl us ds :
    p ≠ 0 → adapter_oper_status (mem_adapter m p) = 1 →
    chain (mem_unicast m) unicast_next (adapter_first_unicast (mem_adapter m p)) ul →
    chain (mem_dns m) dns_next (adapter_first_dns (mem_adapter m p)) dl →
    adapters_hold (adapter_next (mem_adapter m p)) us ds →
    adapters_hold p
      ((unicast_identity (adapter_luid (mem_adapter m p)) <$> ul) ++ us)
      (dns_identities (adapter_luid (mem_adapter m p)) 0 dl ++ ds).

(** *** The walks follow the pointers *)

Context (size_of align_of : native_type → Z) (b : buffer).

Lemma address_of_4 family v4 v6 : family = AF_INET → address_of family v4 v6 = v4.
Proof. by intros ->. Qed.
Lemma address_of_6 family v4 v6 : family = AF_INET6 → address_of family v4 v6 = v6.
Proof. by intros ->. Qed.

Lemma walk_unicast_holds luid u unicast st u' st' :
  snd (walk_unicast size_of align_of b m luid u unicast st) = Ok (u', st') →
  ∃ ul, chain (mem_unicast m) unicast_next unicast ul ∧
    ds_addresses st' ≡ₚ (unicast_identity luid <$> ul) ++ ds_addresses st ∧
    ds_dns st' = ds_dns st.
Proof.
  revert unicast st. induction u as [|u IH]; intros unicast st; cbn [walk_unicast];
    destruct (Z.eqb_spec unicast 0) as [->|Hu]; try done;
    try (intros [= <- <-]; exists []; split_and!; [constructor|done..]).
  intros Hr. inv_reads Hr. apply reads_bind_Ok in Hr as (address & Haddr & Hr). inv_reads Hr.
  apply IH in Hr as (ul & Hul & Ha & Hd). simpl in Ha, Hd.
  exists (mem_unicast m unicast :: ul). split_and!; [by constructor| |done].
  apply insert_fresh_Ok in Hx2 as [Hp _]. rewrite Ha, Hp, fmap_cons. cbn [app].
  rewrite <- Permutation_middle. apply reflexive_eq; f_equal.
  unfold unicast_identity. f_equal.
  destruct (_ && _) eqn:E4 in Haddr; [|destruct (_ && _) eqn:E6 in Haddr; [|done]];
    simplify_eq/=.
  - reflect_in E4. destruct E4. symmetry. by apply address_of_4.
  - reflect_in E6. destruct E6. symmetry. by apply address_of_6.
Qed.

Lemma walk_dns_holds luid d ordinal dns st d' st' :
  snd (walk_dns size_of align_of b m luid d ordinal dns st) = Ok (d', st') →
  ∃ dl, chain (mem_dns m) dns_next dns dl ∧
    ds_dns st' ≡ₚ dns_identities luid ordinal dl ++ ds_dns st ∧
    ds_addresses st' = ds_addresses st.
Proof.
  revert ordinal dns st. induction d as [|d IH]; intros ordinal dns st; cbn [walk_dns];
    destruct (Z.eqb_spec dns 0) as [->|Hu]; try done;
    try (intros [= <- <-]; exists []; split_and!; [constructor|done..]).
  intros Hr. inv_reads Hr. apply reads_bind_Ok in Hr as (address & Haddr & Hr). inv_reads Hr.
  apply IH in Hr as (dl & Hdl & Hd & Ha). simpl in Ha, Hd.
  exists (mem_dns m dns :: dl). split_and!; [by constructor| |done].
  apply insert_fresh_Ok in Hx3 as [Hp _]. rewrite Hd, Hp. cbn [dns_identities app].
  rewrite <- Permutation_middle. apply reflexive_eq; f_equal.
  unfold dns_identity. f_equal.
  destruct (Z.eqb_spec (mem_family m (dns_sockaddr (mem_dns m dns))) AF_INET);
    [|destruct (Z.eqb_spec (mem_family m (dns_sockaddr (mem_dns m dns))) AF_INET6); [|done]];
    simplify_eq/=; symmetry; [by apply address_of_4|by apply address_of_6].
Qed.

Lemma walk_adapters_holds room u d adapter st st' :
  snd (walk_adapters size_of align_of b m room u d adapter st) = Ok st' →
  ∃ us ds, adapters_hold adapter us ds ∧
    ds_addresses st' ≡ₚ us ++ ds_addresses st ∧ ds_dns st' ≡ₚ ds ++ ds_dns st.
Proof.
  revert u d adapter st. induction room as [|room IH]; intros u d adapter st;
    cbn [walk_adapters]; destruct (Z.eqb_spec adapter 0) as [->|Hp]; try done;
    try (intros [= <-]; exists [], []; split_and!; [constructor|done..]).
  intros Hr. inv_reads Hr. apply reads_bind_Ok in Hr as ([[u1 d1] st1] & H1 & Hr).
  apply IH in Hr as (us & ds & Hh & Ha & Hd).
  destruct (Z.eqb_spec (adapter_oper_status (mem_adapter m adapter)) 1).
  - apply reads_bind_Ok in H1 as ([u2 st2] & (ul & Hul & Ha2 & Hd2)%walk_unicast_holds & H1).
    apply reads_bind_Ok in H1 as ([d2 st3] & (dl & Hdl & Hd3 & Ha3)%walk_dns_holds & [= <- <- <-]).
    simpl in *. do 2 eexists. split; [by eapply hold_up|].
    rewrite Ha, Hd, Ha3, Ha2, Hd3, Hd2, !app_assoc.
    split; apply Permutation_app_tail, Permutation_app_comm.
  - injection H1 as <- <- <-. exists us, ds. split; [by apply hold_down|done].
Qed.
End Memory.

Lemma read_native_dns_holds size_of align_of get st st' :
  snd (read_native_dns size_of align_of get st) = Ok st' →
  ∃ i size us ds, ans_status (get i size) = 0 ∧
    adapters_hold (ans_memory (get i size)) (ans_start (get i size)) us ds ∧
    ds_addresses st' ≡ₚ us ++ ds_addresses st ∧ ds_dns st' ≡ₚ ds ++ ds_dns st.
Proof.
  unfold read_native_dns. generalize 3%nat, (15 * 1024).
  induction n as [|n IH]; intros bytes; cbn [read_native_dns_attempts]; [done|].
  intros Hr. inv_reads Hr. cbv zeta in Hr. destruct (_ =? 111); [by eapply IH|].
  destruct (Z.eqb_spec (ans_status (get n ((bytes + 7) / 8 * 8))) 0); [|done].
  apply walk_adapters_holds in Hr as (us & ds & ? & ? & ?). by do 4 eexists.
Qed.

(** ** Routes and interfaces *)

Lemma read_native_routes_holds table st st' :
  read_native_routes table st = Ok st' →
  ∃ rows, table = Some rows ∧ snd st' ≡ₚ (route_identity <$> rows) ++ snd st.
Proof.
  intros Hr. unfold read_native_routes in Hr. inv_ok Hr. exists x. split; [done|]. clear Hm Hm0.
  revert st Hr. induction x as [|row rows IH]; intros st; cbn [try_fold]; [by intros [= <-]|].
  intros (st1 & H1 & H2)%bind_Ok. rewrite (IH _ H2). clear IH H2. unfold read_route in H1.
  apply bind_Ok in H1 as (result & _ & H1). apply bind_Ok in H1 as ([pf prefix] & Hp & H1).
  apply bind_Ok in H1 as ([nf hop] & Hn & H1). inv_ok H1. simpl.
  apply insert_fresh_Ok in Hm0 as [Hperm _]. rewrite Hperm, <- Permutation_middle.
  apply reflexive_eq; f_equal. reflect_in Hm. destruct Hm as [_ Hnf].
  unfold address_bytes in Hp, Hn. unfold route_identity, address_of. f_equal.
  - by repeat case_match; simplify_eq.
  - by repeat case_match; simplify_eq; try congruence.
Qed.

Lemma read_interfaces_hold rows st foreign owned :
  try_fold read_interface st rows = Ok (foreign, owned) →
  owned ≡ₚ (interface_identity OWNED_TUN_ALIAS <$> List.filter (spells OWNED_TUN_ALIAS) rows)
           ++ snd st ∧
  foreign ≡ₚ (interface_identity "cloudflarewarp" <$> List.filter (spells "CloudflareWARP") rows)
           ++ fst st.
Proof.
  revert st. induction rows as [|row rows IH]; intros st; cbn [try_fold]; [by intros [= ->]|].
  intros (st1 & H1 & H2)%bind_Ok. destruct (IH _ H2) as [Ho Hf]. clear IH H2.
  destruct st as [f o]. unfold read_interface, is_owned_tun_alias in H1.
  apply bind_Ok in H1 as (is_owned & (alias & Halias & [= <-])%bind_Ok & H1).
  apply bind_Ok in H1 as (owned1 & Hown & H1). rewrite Halias in H1. cbn [mbind result_bind] in H1.
  apply bind_Ok in H1 as (foreign1 & Hfor & [= <-]). cbn [fst snd] in *. cbn [List.filter].
  assert (∀ name, spells name row = eq_ignore_ascii_case alias name) as Hsp.
  { intros name. unfold spells. by rewrite Halias. }
  rewrite !Hsp. split.
  - destruct (eq_ignore_ascii_case alias OWNED_TUN_ALIAS); [|by injection Hown as <-].
    apply insert_fresh_Ok in Hown as [Hp _]. rewrite Ho, Hp. simpl. by rewrite Permutation_middle.
  - unfold warp_alias in Hfor. destruct (eq_ignore_ascii_case alias "CloudflareWARP") eqn:E;
      [|by injection Hfor as <-].
    apply insert_fresh_Ok in Hfor as [Hp _]. rewrite Hf, Hp. simpl. rewrite <- Permutation_middle.
    apply reflexive_eq; f_equal. unfold interface_identity. f_equal.
    by apply str_eqb_true in E.
Qed.

(** ** The snapshot *)

Section Snapshot.
Context (size_of align_of : native_type → Z) (os : windows_tables).

Record snapshot_exact (net : NativeNetworkIdentity) (owned : list ManagedAdapterIdentity)
    : Prop := {
  exact_routes : ∃ rows, os_routes os = Some rows ∧
    net_routes net ≡ₚ route_identity <$> rows;
  exact_adapters : ∃ i size, ans_status (os_adapters os i size) = 0 ∧ ∃ us ds,
    adapters_hold (ans_memory (os_adapters os i size)) (ans_start (os_adapters os i size)) us ds ∧
    net_addresses net ≡ₚ us ∧ net_dns net ≡ₚ ds;
  exact_interfaces : ∃ rows, os_interfaces os = Some rows ∧
    owned ≡ₚ interface_identity OWNED_TUN_ALIAS <$> List.filter (spells OWNED_TUN_ALIAS) rows ∧
    net_foreign_warp_adapters net ≡ₚ
      interface_identity "cloudflarewarp" <$> List.filter (spells "CloudflareWARP") rows
}.

Lemma snapshot_Ok rb net owned :
  os_typed os → read_native_network_snapshot size_of align_of os = Ok (rb, net, owned) →
  network_wf net ∧ snapshot_exact net owned ∧ (length owned ≤ 1)%nat ∧
  counts_agree rb (net_routes net) (net_addresses net) (net_dns net).
Proof.
  intros (Hti & Htr & Hta) Hr. unfold read_native_network_snapshot in Hr.
  apply bind_Ok in Hr as ([warp ow] & Hi & Hr).
  apply bind_Ok in Hr as ([result routes] & Hroutes & Hr).
  apply bind_Ok in Hr as (st & Hd & [= <- <- <-]).
  pose proof (observe_interfaces_ok _ _ _ Hti Hi) as (? & ? & ? & ?).
  pose proof (read_native_routes_ok _ (default_readback, []) _ Htr
    ltac:(by split_and!; [split|constructor|]) eq_refl Hroutes) as [(Hc & ? & ?) ?].
  pose proof Hd as Hw. apply (read_native_dns_ok _ _ _ routes) in Hw
    as [? ? ? [? ?] ? ?]; [|done..].
  apply read_native_dns_holds in Hd as (i & size & us & ds & ? & ? & Hus & Hds).
  apply read_native_routes_holds in Hroutes as (rows & ? & Hrows).
  unfold observe_owned_foreign_interfaces in Hi.
  apply bind_Ok in Hi as (ifs & Hifs%ok_or_Ok & Hi).
  apply bind_Ok in Hi as (? & _ & Hi). apply bind_Ok in Hi as ([f o] & Hfold & Hi).
  inv_ok Hi. apply read_interfaces_hold in Hfold as [Ho Hf].
  simpl in *. rewrite app_nil_r in *.
  split_and!; [split; simpl; auto with lia| |lia|done].
  split; simpl; [by exists rows|by exists i, size; split; [done|exists us, ds]|by exists ifs].
Qed.

Lemma strict_observation_wf rb net :
  os_typed os → observe_native_network_identity size_of align_of os = Ok (rb, net) →
  network_wf net.
Proof.
  intros Ht Hr. unfold observe_native_network_identity in Hr.
  apply bind_Ok in Hr as ([[rb' net'] owned] & Hs & Hr). inv_ok Hr.
  by apply snapshot_Ok in Hs as (? & _).
Qed.

(** C12: A network observed without the TUN is exactly what the system tables hold:
    every route, address and resolver once and in canonical order, resolvers with
    their order, the adapters of Cloudflare, the counts of routes, addresses and
    resolvers in the readback, and no interface with the name of the TUN. *)
Theorem strict_observation_exact rb net :
  os_typed os → observe_native_network_identity size_of align_of os = Ok (rb, net) →
  network_wf net ∧ snapshot_exact net [] ∧
  counts_agree rb (net_routes net) (net_addresses net) (net_dns net) ∧
  ∃ rows, os_interfaces os = Some rows ∧ Forall (λ row, spells OWNED_TUN_ALIAS row = false) rows.
Proof.
  intros Ht Hr. unfold observe_native_network_identity in Hr.
  apply bind_Ok in Hr as ([[rb' net'] owned] & Hs & Hr). inv_ok Hr.
  apply negb_false, is_empty_true in Hm as ->.
  apply snapshot_Ok in Hs as (? & Hex & _ & ?); [|done]. split_and!; [done..|].
  destruct (exact_interfaces _ _ Hex) as (rows & ? & Hnil & _). exists rows. split; [done|].
  apply Permutation_nil_l, eq_sym, fmap_nil_inv in Hnil. apply Forall_forall. intros row Hrow.
  destruct (spells OWNED_TUN_ALIAS row) eqn:E; [|done]. exfalso.
  assert (In row (List.filter (spells OWNED_TUN_ALIAS) rows)) as Hin.
  { apply filter_In. split; [by apply list_elem_of_In|done]. }
  by rewrite Hnil in Hin.
Qed.

(** With the TUN: exactly one interface has its name, and it is the one reported. *)
Theorem managed_observation_exact rb obs :
  os_typed os → observe_native_managed_tun size_of align_of os = Ok (rb, obs) →
  network_wf (tun_network obs) ∧ snapshot_exact (tun_network obs) [tun_owned obs] ∧
  ∃ rows row, os_interfaces os = Some rows ∧
    List.filter (spells OWNED_TUN_ALIAS) rows = [row] ∧
    tun_owned obs = interface_identity OWNED_TUN_ALIAS row.
Proof.
  intros Ht Hr. unfold observe_native_managed_tun in Hr.
  apply bind_Ok in Hr as ([[rb' net'] owned] & Hs & Hr).
  destruct owned as [|tun [|]]; simplify_eq/=.
  apply snapshot_Ok in Hs as (? & Hex & _ & ?); [|done]. split_and!; [done..|].
  destruct (exact_interfaces _ _ Hex) as (rows & ? & Hone & _).
  destruct (List.filter _ rows) as [|row [|]] eqn:E.
  - by apply Permutation_sym, Permutation_nil_cons in Hone.
  - apply Permutation_singleton_inj in Hone. by exists rows, row.
  - apply Permutation_length in Hone. simpl in Hone. lia.
Qed.
End Snapshot.
