(* ===== verification/NativeNetworkFacts.v ===== *)
(** * Properties of the Windows network evidence

    The digest binds a network, a stored baseline reads back as it was observed, a check of
    restoration compares what the tables of the system hold, and a TUN that passes its checks
    captures both address families and leaves everything of other owners as it was. *)

From S2P Require Import Prelude RustStd RustOrd RustUtf HostTypes Concrete NativeNetwork.
From S2P Require Import NativeObserver NativeObserverFacts NativeSnapshot.

(** ** The digest *)

(** An encoding that can be read back from the front of a longer string *)
Definition delimits {A} (P : A → Prop) (f : A → bytes) : Prop :=
  ∀ x y r s, P x → P y → f x ++ r = f y ++ s → x = y ∧ r = s.

Lemma be_bytes_delimits n :
  delimits (λ z, 0 ≤ z < 256 ^ Z.of_nat n) (be_bytes n).
Proof.
  intros x y r s Hx Hy [E ?]%app_inj_len; [|by rewrite !length_be_bytes].
  apply be_bytes_inj in E; auto.
Qed.
Lemma i32_delimits : delimits in_i32 i32_to_be_bytes.
Proof.
  intros x y r s Hx Hy E. apply (be_bytes_delimits 4) in E as [E ?];
    [|apply Z.mod_pos_bound; lia..].
  split; [|done]. unfold in_i32 in *.
  assert (∀ z, - 2 ^ 31 ≤ z < 2 ^ 31 → z = (z mod 2 ^ 32 + 2 ^ 31) mod 2 ^ 32 - 2 ^ 31) as Hz.
  { intros z Hz. rewrite Z.add_mod_idemp_l by lia. rewrite Z.mod_small; lia. }
  rewrite (Hz x Hx), (Hz y Hy), E. done.
Qed.
Lemma framed_delimits : delimits (λ b, blen b < 2 ^ 32) (framed 4).
Proof. intros x y r s Hx Hy. apply framed_inj; simpl; lia. Qed.

(** Reads one field off both sides of an equation of encodings. *)
Ltac field E H :=
  rewrite <- ?app_assoc in E; apply H in E as [? E]; [|cbv beta; first [assumption|lia]..].

Lemma address_sized family b : family_width family (blen b) →
  blen b < 2 ^ 32 ∧ 0 ≤ family < 256 ^ Z.of_nat 2.
Proof. unfold family_width, AF_INET, AF_INET6. simpl. lia. Qed.

Lemma luid_sized z : in_u64 z → 0 ≤ z < 256 ^ Z.of_nat 8.
Proof. unfold in_u64, u64_max. simpl. lia. Qed.

Lemma u8_of_bool_inj a b : u8_of_bool a = u8_of_bool b → a = b.
Proof. by destruct a, b. Qed.

Lemma route_delimits : delimits route_wf route_digest_input.
Proof.
  intros x y r s [Hl Hf Hp Hh Hm Hpr Ho Hs] [Hl' Hf' Hp' Hh' Hm' Hpr' Ho' Hs'] E.
  unfold route_digest_input, u64_to_be_bytes, u32_to_be_bytes in E.
  apply luid_sized in Hl, Hl'. pose proof (address_sized _ _ Hf) as [? ?].
  pose proof (address_sized _ _ Hf') as [? ?].
  unfold family_width, in_u32, u32_max, in_u8, u8_max in *. simpl Z.of_nat in *.
  field E (be_bytes_delimits 8). field E (be_bytes_delimits 2). field E framed_delimits.
  field E (be_bytes_delimits 1). field E framed_delimits. field E (be_bytes_delimits 4).
  field E i32_delimits. field E i32_delimits. field E (be_bytes_delimits 1).
  simpl in E. injection E as Elo%u8_of_bool_inj Epu%u8_of_bool_inj E.
  destruct x, y; simpl in *; by subst.
Qed.

Lemma address_delimits : delimits address_wf address_digest_input.
Proof.
  intros x y r s [Hl Hf Hp] [Hl' Hf' Hp'] E.
  unfold address_digest_input, u64_to_be_bytes in E.
  apply luid_sized in Hl, Hl'. pose proof (address_sized _ _ Hf) as [? ?].
  pose proof (address_sized _ _ Hf') as [? ?]. unfold family_width in *. simpl Z.of_nat in *.
  field E (be_bytes_delimits 8). field E (be_bytes_delimits 2). field E framed_delimits.
  field E (be_bytes_delimits 1). destruct x, y; simpl in *; by subst.
Qed.

Lemma dns_delimits : delimits dns_wf dns_digest_input.
Proof.
  intros x y r s [Hl Ho Hf] [Hl' Ho' Hf'] E.
  unfold dns_digest_input, u64_to_be_bytes, u32_to_be_bytes in E.
  apply luid_sized in Hl, Hl'. pose proof (address_sized _ _ Hf) as [? ?].
  pose proof (address_sized _ _ Hf') as [? ?]. unfold MAX_DNS_LINKS in *. simpl Z.of_nat in *.
  field E (be_bytes_delimits 8). field E (be_bytes_delimits 4). field E (be_bytes_delimits 2).
  field E framed_delimits. destruct x, y; simpl in *; by subst.
Qed.

Lemma adapter_delimits : delimits adapter_wf adapter_digest_input.
Proof.
  intros x y r s [Ha Hl Hs] [Ha' Hl' Hs'] E. unfold adapter_digest_input, u64_to_be_bytes in E.
  apply luid_sized in Hl, Hl'. rewrite Ha, Ha' in E. rewrite <- ?app_assoc in E.
  apply app_inv_head in E. simpl Z.of_nat in *.
  field E (be_bytes_delimits 8). field E i32_delimits. destruct x, y; simpl in *; by subst.
Qed.

Lemma rows_delimit {A} (P : A → Prop) (f : A → bytes) xs ys r s :
  delimits P f → Forall P xs → Forall P ys → length xs = length ys →
  concat (f <$> xs) ++ r = concat (f <$> ys) ++ s → xs = ys ∧ r = s.
Proof.
  intros Hf Hx. revert ys. induction Hx as [|x xs HPx _ IH]; intros [|y ys] Hy Hl E;
    try done. apply Forall_cons in Hy as [HPy Hy]. simpl in E. rewrite <- !app_assoc in E.
  apply Hf in E as [-> E]; [|done..]. apply IH in E as [-> ->]; [done..|simpl in Hl; lia].
Qed.

Lemma counted_inj {A} (P : A → Prop) (f : A → bytes) xs ys r s :
  delimits P f → Forall P xs → Forall P ys →
  Z.of_nat (length xs) < 2 ^ 32 → Z.of_nat (length ys) < 2 ^ 32 →
  counted f xs ++ r = counted f ys ++ s → xs = ys ∧ r = s.
Proof.
  unfold counted, u32_to_be_bytes. intros Hf Hx Hy Hlx Hly E. rewrite <- !app_assoc in E.
  apply (be_bytes_delimits 4) in E as [El E]; [|simpl; lia..].
  eapply rows_delimit; eauto. lia.
Qed.

Lemma prebegin_payload_inj m n :
  network_wf m → network_wf n → prebegin_payload m = prebegin_payload n → m = n.
Proof.
  intros [? ? ? ? _ (? & ? & ? & ?)] [? ? ? ? _ (? & ? & ? & ?)] E.
  unfold prebegin_payload in E. apply app_inv_head in E.
  unfold MAX_NATIVE_ROUTES, MAX_UNICAST_LINKS, MAX_DNS_LINKS, MAX_NATIVE_INTERFACES in *.
  apply (counted_inj _ _ _ _ _ _ route_delimits) in E as [Er E]; [|done || lia..].
  apply (counted_inj _ _ _ _ _ _ address_delimits) in E as [Ea E]; [|done || lia..].
  apply (counted_inj _ _ _ _ _ _ dns_delimits) in E as [Ed E]; [|done || lia..].
  rewrite <- (app_nil_r (counted _ (net_foreign_warp_adapters m))),
    <- (app_nil_r (counted _ (net_foreign_warp_adapters n))) in E.
  apply (counted_inj _ _ _ _ _ _ adapter_delimits) in E as [Ew _]; [|done || lia..].
  destruct m, n; simpl in *; by subst.
Qed.

Section Digest.
Context `{Sha256}.

Theorem prebegin_digest_binds (m n : NativeNetworkIdentity) :
  network_wf m → network_wf n → signed_prebegin_digest m = signed_prebegin_digest n →
  m = n ∨ sha256_collision (prebegin_payload m) (prebegin_payload n).
Proof.
  intros Hm Hn E. apply sha256_eq in E as [E|E]; [left; by apply prebegin_payload_inj|by right].
Qed.
End Digest.

(** ** Baselines *)

Lemma narrow_Ok m n : 0 ≤ n ≤ m → narrow m n = Ok n.
Proof.
  unfold narrow. intros Hn. destruct (Z.leb_spec 0 n), (Z.leb_spec n m); simpl; done || lia.
Qed.

Lemma try_map_fmap {A B} (f : A → B) (g : B → res A) xs :
  Forall (λ x, g (f x) = Ok x) xs → try_map g (f <$> xs) = Ok xs.
Proof. intros Hx. apply try_map_Ok, Forall2_fmap_l. by apply Forall_Forall2_diag. Qed.

Lemma family_u16 family w : family_width family w → 0 ≤ family ≤ u16_max.
Proof. unfold family_width, AF_INET, AF_INET6, u16_max. lia. Qed.

Lemma route_message_back r : route_wf r → route_of_message (route_message r) = Ok r.
Proof.
  intros [_ Hf Hp _ _ _ _ Hs]. unfold route_of_message, route_message. simpl.
  pose proof (family_u16 _ _ Hf). unfold family_width, in_u8, u8_max in *.
  rewrite (narrow_Ok u16_max) by done. simpl. rewrite !narrow_Ok by (unfold u8_max; lia).
  by destruct r.
Qed.
Lemma address_message_back a : address_wf a → address_of_message (address_message a) = Ok a.
Proof.
  intros [_ Hf Hp]. unfold address_of_message, address_message. simpl.
  pose proof (family_u16 _ _ Hf). unfold family_width in *.
  rewrite (narrow_Ok u16_max) by done. simpl. rewrite narrow_Ok by (unfold u8_max; lia).
  by destruct a.
Qed.
Lemma dns_message_back d : dns_wf d → dns_of_message (dns_message d) = Ok d.
Proof.
  intros [_ _ Hf]. unfold dns_of_message, dns_message. simpl.
  rewrite narrow_Ok by by eapply family_u16. by destruct d.
Qed.
Lemma adapter_message_back (l : list ManagedAdapterIdentity) :
  adapter_of_message <$> (adapter_message <$> l) = l.
Proof. induction l as [|[] l IH]; [done|]. rewrite !fmap_cons, IH. done. Qed.

Section Baselines.
Context `{Sha256} `{MessageLaws FleetWindowsNetworkBaseline R}.

Lemma decode_baseline_written net op b :
  network_wf net → Z.of_nat (length (net_foreign_warp_adapters net)) ≤ MAX_NATIVE_ADAPTERS →
  R (baseline_of net op) → encode_baseline net op = Ok b → b ≠ [] →
  decode_baseline b op = Ok net.
Proof.
  intros [Hr Ha Hd _ (Or & Oa & Od & Ow) (? & ? & ? & _)] Hw HR He Hne.
  pose proof He as He'. unfold encode_baseline in He'. inv_ok He'.
  unfold decode_baseline. rewrite decode_encode by done. cbn [ok_or mbind result_bind].
  destruct (is_empty _) eqn:E; [by apply is_empty_true in E|].
  rewrite Hm0. cbn [orb fail_if mbind result_bind baseline_of baseline_schema_version
    baseline_operation_id baseline_before_sha256 baseline_routes baseline_addresses baseline_dns
    baseline_foreign_warp_adapters]. rewrite !length_fmap.
  rewrite (proj2 (bytes_eqb_true _ _) eq_refl), (proj2 (str_eqb_true _ _) eq_refl).
  assert (blen (signed_prebegin_digest net) = 32) as ->.
  { unfold blen, signed_prebegin_digest. by rewrite sha256_length. }
  repeat (rewrite (proj2 (Z.ltb_ge _ _)) by done).
  cbn [negb orb Z.eqb Pos.eqb Z.of_nat fail_if mbind result_bind].
  rewrite (try_map_fmap _ _ _ (Forall_impl _ _ _ Hr route_message_back)).
  rewrite (try_map_fmap _ _ _ (Forall_impl _ _ _ Ha address_message_back)).
  rewrite (try_map_fmap _ _ _ (Forall_impl _ _ _ Hd dns_message_back)).
  rewrite adapter_message_back. cbn [mbind result_bind net_routes net_addresses net_dns
    net_foreign_warp_adapters]. rewrite Or, Oa, Od, Ow.
  replace {| net_routes := _ |} with net by by destruct net.
  rewrite (proj2 (bytes_eqb_true _ _) eq_refl). cbn [negb orb]. rewrite He.
  cbn [mbind result_bind]. by rewrite (proj2 (bytes_eqb_true _ _) eq_refl).
Qed.

Theorem baseline_roundtrip (net : NativeNetworkIdentity) (op : string) (b : bytes) :
  network_wf net → Z.of_nat (length (net_foreign_warp_adapters net)) ≤ MAX_NATIVE_ADAPTERS →
  R (baseline_of net op) → encode_baseline net op = Ok b → b ≠ [] →
  decode_baseline b op = Ok net ∧ decode_active_baseline b = Ok (op, net).
Proof.
  intros Hn Hw HR He Hne. pose proof (decode_baseline_written _ _ _ Hn Hw HR He Hne) as Hd.
  split; [done|]. unfold decode_active_baseline. pose proof He as He'.
  unfold encode_baseline in He'. inv_ok He'.
  destruct (is_empty _) eqn:E; [by apply is_empty_true in E|].
  rewrite Hm0. cbn [orb fail_if mbind result_bind]. rewrite decode_encode by done.
  cbn [ok_or mbind result_bind baseline_of baseline_operation_id]. by rewrite Hd.
Qed.

(** What is accepted as a baseline is the encoding of the network it stands for. *)
Lemma decode_baseline_canonical b op net :
  decode_baseline b op = Ok net → encode_baseline net op = Ok b.
Proof.
  unfold decode_baseline. intros Hd. inv_ok Hd. destruct (_ || _) in Hd; [done|]. inv_ok Hd.
  apply negb_false, bytes_eqb_true in Hm6. by subst.
Qed.
Lemma decode_active_Ok b op net :
  decode_active_baseline b = Ok (op, net) → decode_baseline b op = Ok net.
Proof. unfold decode_active_baseline. intros Hd. inv_ok Hd. by simplify_eq. Qed.
End Baselines.

(** ** Restoration *)

Lemma require_restored_Ok m n : require_restored m n = Ok tt ↔ m = n.
Proof.
  unfold require_restored. split.
  - intros Hr. inv_ok Hr. reflect_in Hm. reflect_in Hm0. reflect_in Hm1. reflect_in Hr.
    destruct m, n; simpl in *; by subst.
  - intros ->. unfold fail_if. by rewrite !bool_decide_true.
Qed.

(** The tables of two moments hold the same. *)
Record same_tables (m n : NativeNetworkIdentity) : Prop := {
  same_routes r : r ∈ net_routes m ↔ r ∈ net_routes n;
  same_addresses a : a ∈ net_addresses m ↔ a ∈ net_addresses n;
  same_dns d : d ∈ net_dns m ↔ d ∈ net_dns n;
  same_adapters a : a ∈ net_foreign_warp_adapters m ↔ a ∈ net_foreign_warp_adapters n
}.

Lemma same_tables_eq m n : network_wf m → network_wf n → same_tables m n ↔ m = n.
Proof.
  intros [_ _ _ _ (? & ? & ? & ?) _] [_ _ _ _ (? & ? & ? & ?) _]. split; [|by intros ->].
  intros [Hr Ha Hd Hw]. destruct m, n. simpl in *.
  f_equal; by apply ascending_ext.
Qed.

Section Restoration.
Context `{Sha256} `{MessageLaws FleetWindowsNetworkBaseline R}.
Context (size_of align_of : native_type → Z).

(** C13: A baseline stored before the TUN and read back from its record accepts a
    later observation as restored exactly when the tables of routes, addresses,
    resolvers and foreign adapters are the same as before. *)
Theorem restoration_exact (os0 os1 : windows_tables) rb0 rb1 n0 n1 n (op op' : string) (b : bytes) :
  os_typed os0 → os_typed os1 →
  observe_native_network_identity size_of align_of os0 = Ok (rb0, n0) →
  Z.of_nat (length (net_foreign_warp_adapters n0)) ≤ MAX_NATIVE_ADAPTERS →
  R (baseline_of n0 op) → encode_baseline n0 op = Ok b → b ≠ [] →
  decode_active_baseline b = Ok (op', n) →
  observe_native_network_identity size_of align_of os1 = Ok (rb1, n1) →
  op' = op ∧ (require_restored n n1 = Ok tt ↔ same_tables n0 n1).
Proof.
  intros Ht0 Ht1 Ho0 Hw HR He Hne Hd Ho1.
  apply strict_observation_wf in Ho0 as Hn0; [|done].
  apply strict_observation_wf in Ho1 as Hn1; [|done].
  destruct (baseline_roundtrip _ _ _ Hn0 Hw HR He Hne) as [_ Hd']. rewrite Hd in Hd'.
  simplify_eq. split; [done|]. by rewrite require_restored_Ok, same_tables_eq.
Qed.
End Restoration.

(** ** A network with the TUN *)

(** Bit [i] of an address, from the most significant one *)
Definition bit_of (b : bytes) (i : nat) : bool :=
  match b !! (i / 8)%nat with
  | Some x => N.testbit (Byte.to_N x) (N.of_nat (7 - i mod 8))
  | None => false
  end.
Definition route_matches (r : RouteIdentity) (destination : bytes) : Prop :=
  ∀ i, Z.of_nat i < rid_prefix_length r → bit_of (rid_prefix r) i = bit_of destination i.

Lemma bit_of_first (x : Byte.byte) l : bit_of (x :: l) 0 = N.testbit (Byte.to_N x) 7.
Proof. done. Qed.

(** The tests of one capture *)
Definition owned_route (routes : list RouteIdentity) (luid family : Z) (prefix : bytes)
    (length : Z) : Prop :=
  ∃ r, r ∈ routes ∧ rid_interface_luid r = luid ∧ rid_family r = family ∧
    rid_prefix_length r = length ∧ rid_prefix r = prefix.

Lemma capture_present routes luid family w :
  family_width family w → native_default_capture_present routes luid family = true →
  let zero := replicate (Z.to_nat w) x00 in
  let high := x80 :: replicate (Z.to_nat w - 1) x00 in
  owned_route routes luid family zero 0 ∨
  owned_route routes luid family zero 1 ∧ owned_route routes luid family high 1.
Proof.
  intros Hw Hc zero high.
  assert (∀ prefix n, existsb (λ route, (rid_interface_luid route =? luid)
      && (rid_family route =? family) && (rid_prefix_length route =? n)
      && bytes_eqb (rid_prefix route) prefix) routes = true → owned_route routes luid family prefix n)
    as Hex.
  { intros prefix n (r & Hr & Hb)%existsb_exists. reflect_in Hb.
    destruct Hb as [[[? ?] ?] Hp]. exists r.
    split_and!; [by apply list_elem_of_In|done..]. }
  unfold native_default_capture_present in Hc.
  destruct Hw as [[-> ->]|[-> ->]]; simpl in Hc; rewrite orb_true_iff, andb_true in Hc;
    (destruct Hc as [Hc|[Hz Hh]]; [left|right]; auto).
Qed.

Lemma capture_matches routes luid family w destination :
  family_width family w → blen destination = w →
  native_default_capture_present routes luid family = true →
  ∃ r, r ∈ routes ∧ rid_interface_luid r = luid ∧ rid_family r = family ∧
    rid_prefix_length r ≤ 1 ∧ route_matches r destination.
Proof.
  intros Hw Hlen Hc. pose proof (capture_present _ _ _ _ Hw Hc) as Hcap. simpl in Hcap.
  assert (∃ x l, destination = x :: l) as (x & l & ->).
  { unfold family_width, blen in *. destruct destination; simpl in *; [lia|eauto]. }
  assert (∃ k, Z.to_nat w = S k) as [k Hk] by (unfold family_width in Hw; exists (Z.to_nat w - 1)%nat; lia).
  rewrite Hk in Hcap. cbn [replicate] in Hcap.
  destruct Hcap as [(r & ? & ? & ? & ? & Hp)|[(r & ? & ? & ? & ? & Hp) (r' & ? & ? & ? & ? & Hp')]].
  - exists r. split_and!; [done..|lia|]. intros i Hi. lia.
  - destruct (N.testbit (Byte.to_N x) 7) eqn:E.
    + exists r'. split_and!; [done..|lia|]. intros i Hi. assert (i = 0%nat) as -> by lia.
      by rewrite Hp', !bit_of_first, E.
    + exists r. split_and!; [done..|lia|]. intros i Hi. assert (i = 0%nat) as -> by lia.
      by rewrite Hp, !bit_of_first, E.
Qed.

(** What a TUN may have changed *)
Record only_adds (luid : Z) (before after : NativeNetworkIdentity) : Prop := {
  adds_routes r : r ∈ net_routes before ↔ r ∈ net_routes after ∧ rid_interface_luid r ≠ luid;
  adds_addresses a :
    a ∈ net_addresses before ↔ a ∈ net_addresses after ∧ uid_interface_luid a ≠ luid;
  adds_dns d : d ∈ net_dns before ↔ d ∈ net_dns after ∧ did_interface_luid d ≠ luid
}.

(** The TUN is up, distinct from the one adapter of Cloudflare, and has for every
    destination of either family an address and a route that matches. *)
Record captures (obs : ManagedTunNetworkObservation) : Prop := {
  cap_up : mid_oper_status (tun_owned obs) = 1;
  cap_luid : mid_interface_luid (tun_owned obs) ≠ 0;
  cap_foreign : ∃ warp, net_foreign_warp_adapters (tun_network obs) = [warp] ∧
    mid_oper_status warp = 1 ∧ mid_interface_luid warp ≠ mid_interface_luid (tun_owned obs);
  cap_routes family w destination :
    family_width family w → blen destination = w →
    (∃ a, a ∈ net_addresses (tun_network obs) ∧ uid_family a = family ∧
       uid_interface_luid a = mid_interface_luid (tun_owned obs)) ∧
    ∃ r, r ∈ net_routes (tun_network obs) ∧ rid_family r = family ∧
      rid_interface_luid r = mid_interface_luid (tun_owned obs) ∧
      rid_prefix_length r ≤ 1 ∧ route_matches r destination
}.

(** One turn of the loop over the families *)
Lemma family_captured network luid family w destination :
  family_width family w → blen destination = w →
  negb (existsb (λ a, (uid_interface_luid a =? luid) && (uid_family a =? family))
          (net_addresses network))
  || negb (native_default_capture_present (net_routes network) luid family) = false →
  (∃ a, a ∈ net_addresses network ∧ uid_family a = family ∧ uid_interface_luid a = luid) ∧
  ∃ r, r ∈ net_routes network ∧ rid_family r = family ∧ rid_interface_luid r = luid ∧
    rid_prefix_length r ≤ 1 ∧ route_matches r destination.
Proof.
  intros Hwd Hlen Hg. reflect_in Hg. destruct Hg as [Ha Hc]. split.
  - apply existsb_exists in Ha as (a & Ha & Hb). reflect_in Hb.
    exists a. rewrite list_elem_of_In. naive_solver.
  - apply (capture_matches _ _ _ _ destination Hwd) in Hc as (r & ? & ? & ? & ? & ?); [|done].
    by exists r.
Qed.

(** C14: An accepted network with the TUN is the network before plus entries of the
    TUN's interface only; the adapter of Cloudflare is unchanged, up and another
    interface; and for every destination of either family the TUN has an address and a
    route of at most one bit that matches. *)
Theorem tun_preserves_foreign (obs : ManagedTunNetworkObservation)
    (before : NativeNetworkIdentity) :
  require_foreign_network_preserved obs before = Ok tt →
  captures obs ∧
  only_adds (mid_interface_luid (tun_owned obs)) before (tun_network obs) ∧
  net_foreign_warp_adapters before = net_foreign_warp_adapters (tun_network obs).
Proof.
  intros Hr. unfold require_foreign_network_preserved in Hr.
  apply bind_Ok in Hr as (? & Hcap & Hr). apply bind_Ok in Hr as ([] & Hup & Hr).
  cbv zeta in Hr. apply require_restored_Ok in Hr as ->.
  unfold require_native_dual_stack_route_capture in Hcap. inv_ok Hcap. reflect_in Hm.
  destruct Hm as [[Hl Hw] Hs]. cbn [for_each] in Hcap. inv_ok Hcap.
  unfold require_foreign_warp_up in Hup.
  destruct (net_foreign_warp_adapters (tun_network obs)) as [|warp [|]] eqn:Ew; [done| |done].
  apply fail_if_Ok, negb_false, Z.eqb_eq in Hup.
  split_and!.
  - split; [done|done|exists warp; split_and!; [done..|]|].
    + simpl in Hw. apply orb_false in Hw as [Hw _]. by apply Z.eqb_neq in Hw.
    + intros family w destination Hwd Hlen.
      pose proof Hwd as [[-> _]|[-> _]]; by eapply family_captured.
  - split; intros; cbn [without_interface net_routes net_addresses net_dns];
      rewrite list_elem_of_filter; tauto.
  - done.
Qed.

(** ** A host *)

Module WindowsSample.

(** The layout on 64-bit Windows *)
Definition size_of (t : native_type) : Z :=
  match t with
  | Adapter => 448 | Unicast => 64 | DnsServer => 32
  | Sockaddr => 16 | SockaddrIn => 16 | SockaddrIn6 => 28
  end.
Definition align_of (t : native_type) : Z :=
  match t with
  | Adapter => 8 | Unicast => 8 | DnsServer => 8
  | Sockaddr => 2 | SockaddrIn => 4 | SockaddrIn6 => 4
  end.

Definition v4 (a b c d : Z) : bytes := byte_of_Z <$> [a; b; c; d].
Definition v6 (x : Z) : bytes := replicate 16 (byte_of_Z x).

(** Two adapters in a buffer at 4096: a card that is up, with an address and a resolver
    whose socket address is at [socket]; and the TUN, with an address of each family, when it
    is there. *)
Definition host_memory (tun : bool) (socket : Z) : memory := {|
  mem_adapter := λ p,
    if p =? 4096 then {| adapter_next := if tun then 4544 else 0; adapter_luid := 8;
      adapter_oper_status := 1; adapter_first_unicast := 5000; adapter_first_dns := 5104 |}
    else {| adapter_next := 0; adapter_luid := 42; adapter_oper_status := 1;
      adapter_first_unicast := 6000; adapter_first_dns := 0 |};
  mem_unicast := λ p,
    if p =? 5000 then {| unicast_next := 0; unicast_sockaddr := 5200;
      unicast_sockaddr_length := 16; unicast_on_link_prefix_length := 24 |}
    else if p =? 6000 then {| unicast_next := 6064; unicast_sockaddr := 6200;
      unicast_sockaddr_length := 16; unicast_on_link_prefix_length := 30 |}
    else {| unicast_next := 0; unicast_sockaddr := 6232;
      unicast_sockaddr_length := 28; unicast_on_link_prefix_length := 126 |};
  mem_dns := λ _, {| dns_next := 0; dns_sockaddr := socket; dns_sockaddr_length := 16 |};
  mem_family := λ p, if p =? 6232 then AF_INET6 else AF_INET;
  mem_in_addr := λ p, if p =? 5200 then v4 192 0 2 44
                      else if p =? 6200 then v4 172 19 0 1 else v4 192 0 2 53;
  mem_in6_addr := λ _, v6 253
|}.

Definition socket4 (a b c d : Z) : SOCKADDR_INET :=
  {| si_family := AF_INET; sin_addr := v4 a b c d; sin6_addr := v6 0 |}.
Definition socket6 (x : Z) : SOCKADDR_INET :=
  {| si_family := AF_INET6; sin_addr := v4 0 0 0 0; sin6_addr := v6 x |}.
Definition forward (luid metric : Z) (prefix hop : SOCKADDR_INET) : MIB_IPFORWARD_ROW2 := {|
  fwd_interface_luid := luid; fwd_prefix := prefix; fwd_prefix_length := 0;
  fwd_next_hop := hop; fwd_metric := metric; fwd_protocol := 3; fwd_origin := 2;
  fwd_site_prefix_length := 0; fwd_loopback := false; fwd_publish := false
|}.
Definition interface (name : string) (luid : Z) : MIB_IF_ROW2 := {|
  ifrow_alias := encode_utf16 name ++ [0; 0]; ifrow_interface_luid := luid;
  ifrow_oper_status := 1
|}.

Definition tables (tun : bool) (socket : Z) : windows_tables := {|
  os_interfaces := Some ([interface "Ethernet" 8; interface "CloudflareWARP" 7]
    ++ if tun then [interface "Sing-Box-Tun" 42] else []);
  os_routes := Some ((if tun then [forward 42 5 (socket6 0) (socket6 0);
      forward 42 5 (socket4 0 0 0 0) (socket4 0 0 0 0)] else [])
    ++ [forward 8 10 (socket4 0 0 0 0) (socket4 192 0 2 1)]);
  os_adapters := λ _ _, {| ans_status := 0; ans_size := 0; ans_start := 4096;
    ans_memory := host_memory tun socket |}
|}.

Definition observed (socket : Z) : NativeNetworkReadback * NativeNetworkIdentity :=
  match observe_native_network_identity size_of align_of (tables false socket) with
  | Ok r => r
  | Err _ => (default_readback, {| net_routes := []; net_addresses := []; net_dns := [];
                                   net_foreign_warp_adapters := [] |})
  end.
Definition before : NativeNetworkIdentity := Eval vm_compute in snd (observed 5216).

Lemma before_observed :
  observe_native_network_identity size_of align_of (tables false 5216)
  = Ok (fst (observed 5216), before).
Proof. vm_compute. reflexivity. Qed.

Definition with_tun : ManagedTunNetworkObservation :=
  match observe_native_managed_tun size_of align_of (tables true 5216) with
  | Ok r => snd r
  | Err _ => {| tun_network := before;
                tun_owned := {| mid_alias := ""; mid_interface_luid := 0; mid_oper_status := 0 |} |}
  end.

Lemma memory_is_typed tun socket : memory_typed (host_memory tun socket).
Proof.
  intros p. unfold in_u64, u64_max, in_u8, u8_max. cbn -[Z.pow].
  repeat case_match; cbn -[Z.pow]; split_and!; try done; lia.
Qed.

Lemma tables_typed tun socket : os_typed (tables tun socket).
Proof.
  split_and!; [..|intros; apply memory_is_typed].
  - intros rows [= <-]. destruct tun; repeat constructor; vm_compute; done || (split; done).
  - intros rows [= <-]. destruct tun; repeat constructor; vm_compute; done || (split; done).
Qed.

#[global] Instance baseline_message : Message FleetWindowsNetworkBaseline :=
  table_message [baseline_of before "issue1-comment-42"].
#[global] Instance baseline_laws :
  MessageLaws FleetWindowsNetworkBaseline (.∈ [baseline_of before "issue1-comment-42"]) :=
  table_message_laws _.

Lemma adapters_walk_safe_witness :
  size_of SockaddrIn ≤ size_of Sockaddr ∧
  (length (fst (read_native_dns size_of align_of (os_adapters (tables true 5216))
     {| ds_result := default_readback; ds_dns := []; ds_addresses := [] |})) ≤ max_accesses)%nat.
Proof.
  split; [done|]. by apply (adapters_walk_safe size_of align_of).
Defined.

Lemma strict_observation_exact_witness : network_wf before.
Proof.
  apply (strict_observation_exact size_of align_of (tables false 5216) _ _ (tables_typed _ _)
    before_observed).
Defined.

Lemma restoration_exact_witness : same_tables before before.
Proof.
  eapply (restoration_exact size_of align_of (tables false 5216) (tables false 5216)
    _ _ before before before "issue1-comment-42" "issue1-comment-42" [x01]).
  - apply tables_typed.
  - apply tables_typed.
  - apply before_observed.
  - vm_compute. done.
  - apply list_elem_of_singleton. reflexivity.
  - vm_compute. reflexivity.
  - done.
  - vm_compute. reflexivity.
  - apply before_observed.
  - vm_compute. reflexivity.
Defined.

Lemma tun_preserves_foreign_witness : captures with_tun.
Proof. apply (tun_preserves_foreign with_tun before). vm_compute. reflexivity. Defined.

Lemma before_wf : network_wf before.
Proof. exact (strict_observation_wf _ _ _ _ _ (tables_typed _ _) before_observed). Qed.

Lemma prebegin_digest_binds_witness :
  before = before ∨ sha256_collision (prebegin_payload before) (prebegin_payload before).
Proof.
  apply (prebegin_digest_binds before before); [apply before_wf..|done].
Defined.

(** The socket address of a resolver is dereferenced as a [SOCKADDR_IN] also where it has only
    the alignment of a [SOCKADDR]. *)
Theorem resolver_address_misaligned :
  ∃ a, a ∈ fst (read_native_dns size_of align_of (os_adapters (tables false 5218))
         {| ds_result := default_readback; ds_dns := []; ds_addresses := [] |}) ∧
       acc_type a = SockaddrIn ∧ acc_address a mod align_of SockaddrIn ≠ 0.
Proof.
  exists {| acc_buffer := {| buf_start := 4096; buf_size := 15360 |};
            acc_type := SockaddrIn; acc_address := 5218 |}.
  split_and!; [|done..]. apply list_elem_of_lookup. exists 6%nat. vm_compute. reflexivity.
Qed.
End WindowsSample.
