(* ===== verification/HostAdmin.v ===== *)
(** * Administrative requests

    [edge-shared-types/src/host_admin.rs]: the request to run one command on a host, its
    authorization by the Worker, the signed receipt of an execution or of a denial before it
    began, and [windows_absolute_path]. *)

From S2P Require Import Prelude RustStd RustUtf HostTypes.

(** ** Messages *)

Record FleetNativeAdminRequest : Set := {
  areq_schema_version : Z; areq_machine_id : string; areq_source_comment_id : Z;
  areq_argv : list string; areq_release_set_sha256 : bytes; areq_requested_at_unix : Z;
  areq_comment_sha256 : bytes; areq_working_directory : string;
  areq_environment : list string; areq_stdin_bytes : bytes; areq_timeout_seconds : Z;
  areq_publish_output : bool
}.
Record FleetNativeAdminAuthorization : Set := {
  aauth_schema_version : Z; aauth_key_id : string; aauth_operation_id : string;
  aauth_issued_at_unix : Z; aauth_expires_at_unix : Z; aauth_ed25519_signature : bytes
}.
Record FleetNativeAdminResult : Set := {
  ares_schema_version : Z; ares_machine_id : string; ares_operation_id : string;
  ares_request_sha256 : bytes; ares_observed_at_unix : Z; ares_exit_code : Z;
  ares_stdout_sha256 : bytes; ares_stderr_sha256 : bytes; ares_process_exited : bool;
  ares_root_signature : bytes; ares_stdout_preview : bytes; ares_stderr_preview : bytes;
  ares_stdout_total_bytes : Z; ares_stderr_total_bytes : Z;
  ares_stdout_truncated : bool; ares_stderr_truncated : bool;
  ares_stdout_capture_path : string; ares_stderr_capture_path : string;
  ares_stdout_capture_bytes : Z; ares_stderr_capture_bytes : Z;
  ares_stdout_capture_complete : bool; ares_stderr_capture_complete : bool;
  ares_stdout_stream_eof : bool; ares_stderr_stream_eof : bool;
  ares_stdin_bytes_written : Z; ares_stdin_input_complete : bool;
  ares_rejected_before_begin : bool; ares_rejection_code : string;
  ares_worker_authorization : option FleetNativeAdminAuthorization
}.
#[global] Instance FleetNativeAdminRequest_eq_dec : EqDecision FleetNativeAdminRequest.
Proof. solve_decision. Defined.
#[global] Instance FleetNativeAdminAuthorization_eq_dec :
  EqDecision FleetNativeAdminAuthorization.
Proof. solve_decision. Defined.
#[global] Instance FleetNativeAdminResult_eq_dec : EqDecision FleetNativeAdminResult.
Proof. solve_decision. Defined.

Definition default_result : FleetNativeAdminResult := {|
  ares_schema_version := 0; ares_machine_id := ""; ares_operation_id := "";
  ares_request_sha256 := []; ares_observed_at_unix := 0; ares_exit_code := 0;
  ares_stdout_sha256 := []; ares_stderr_sha256 := []; ares_process_exited := false;
  ares_root_signature := []; ares_stdout_preview := []; ares_stderr_preview := [];
  ares_stdout_total_bytes := 0; ares_stderr_total_bytes := 0;
  ares_stdout_truncated := false; ares_stderr_truncated := false;
  ares_stdout_capture_path := ""; ares_stderr_capture_path := "";
  ares_stdout_capture_bytes := 0; ares_stderr_capture_bytes := 0;
  ares_stdout_capture_complete := false; ares_stderr_capture_complete := false;
  ares_stdout_stream_eof := false; ares_stderr_stream_eof := false;
  ares_stdin_bytes_written := 0; ares_stdin_input_complete := false;
  ares_rejected_before_begin := false; ares_rejection_code := "";
  ares_worker_authorization := None
|}.

Definition with_root_signature (r : FleetNativeAdminResult) (signature : bytes)
    : FleetNativeAdminResult := {|
  ares_schema_version := ares_schema_version r; ares_machine_id := ares_machine_id r;
  ares_operation_id := ares_operation_id r; ares_request_sha256 := ares_request_sha256 r;
  ares_observed_at_unix := ares_observed_at_unix r; ares_exit_code := ares_exit_code r;
  ares_stdout_sha256 := ares_stdout_sha256 r; ares_stderr_sha256 := ares_stderr_sha256 r;
  ares_process_exited := ares_process_exited r; ares_root_signature := signature;
  ares_stdout_preview := ares_stdout_preview r; ares_stderr_preview := ares_stderr_preview r;
  ares_stdout_total_bytes := ares_stdout_total_bytes r;
  ares_stderr_total_bytes := ares_stderr_total_bytes r;
  ares_stdout_truncated := ares_stdout_truncated r;
  ares_stderr_truncated := ares_stderr_truncated r;
  ares_stdout_capture_path := ares_stdout_capture_path r;
  ares_stderr_capture_path := ares_stderr_capture_path r;
  ares_stdout_capture_bytes := ares_stdout_capture_bytes r;
  ares_stderr_capture_bytes := ares_stderr_capture_bytes r;
  ares_stdout_capture_complete := ares_stdout_capture_complete r;
  ares_stderr_capture_complete := ares_stderr_capture_complete r;
  ares_stdout_stream_eof := ares_stdout_stream_eof r;
  ares_stderr_stream_eof := ares_stderr_stream_eof r;
  ares_stdin_bytes_written := ares_stdin_bytes_written r;
  ares_stdin_input_complete := ares_stdin_input_complete r;
  ares_rejected_before_begin := ares_rejected_before_begin r;
  ares_rejection_code := ares_rejection_code r;
  ares_worker_authorization := ares_worker_authorization r
|}.

(** ** Paths *)

(** [s.contains(c)] for a character, [s.contains([..])] for several *)
Definition contains_any (p : ascii → bool) (s : string) : bool :=
  negb (str_all (λ c, negb (p c)) s).
Definition nul : ascii := "000".
Definition contains_nul : string → bool := contains_any (Ascii.eqb nul).
Definition backslash : ascii := "092".
Definition double_quote : ascii := "034".

(** [char::is_control]: the category Cc *)
Definition char_is_control (c : Z) : bool :=
  ((0 <=? c) && (c <=? 31)) || ((127 <=? c) && (c <=? 159)).

Definition is_ascii_alphabetic (c : ascii) : bool :=
  is_ascii_lowercase c || is_ascii_uppercase c.

(** A component between two backslashes *)
Definition bad_component (p : string) : bool :=
  str_empty p || str_eqb p "." || str_eqb p ".." || ends_with "." p || ends_with " " p.

Definition windows_absolute_path (path : string) : bool :=
  match path with
  | String b0 (String b1 (String b2 rest)) =>
      is_ascii_alphabetic b0 && Ascii.eqb b1 ":" && Ascii.eqb b2 backslash
      && negb (contains_any (λ c, Ascii.eqb c nul || Ascii.eqb c double_quote
                                  || one_of "/*?" c) path)
      && negb (existsb (λ c, char_is_control c || (c =? 60) || (c =? 62) || (c =? 124))
                 (chars path))
      && negb (contains_any (Ascii.eqb ":") (String b2 rest))
      && (str_empty rest || negb (existsb bad_component (split backslash rest)))
  | _ => false
  end.

(** ** Requests *)

Definition MAX_BYTES : Z := 32768.

Definition operation_id (request : FleetNativeAdminRequest) : string :=
  "issue1-comment-" +:+ dec (areq_source_comment_id request).

Definition machine_char (c : ascii) : bool := is_ascii_alphanumeric c || one_of "-_." c.
Definition key_char (c : ascii) : bool := is_ascii_alphanumeric c || one_of "-_.:" c.
Definition env_char (c : ascii) : bool := is_ascii_alphanumeric c || Ascii.eqb c "_".

Definition bad_argument (arg : string) : bool :=
  str_empty arg || (8192 <? slen arg) || contains_nul arg.
Definition bad_environment (item : string) : bool :=
  (8192 <? slen item) || contains_nul item
  || match split_once "=" item with
     | None => true
     | Some (key, _) => str_empty key || negb (str_all env_char key)
     end.

(** [s.chars()] of an argument: units and backslashes of its quoted form *)
Definition unit_step (st : Z * Z) (c : Z) : Z * Z :=
  let '(n, slashes) := st in
  if c =? 92 then (n, slashes + 1)
  else ((if c =? 34 then n + slashes + 1 else n), 0).
Definition argument_units (s : string) : Z :=
  let '(n, slashes) :=
    fold_left unit_step (chars s) (2 + Z.of_nat (length (encode_utf16 s)), 0) in
  n + slashes.
Definition command_units (argv : list string) : Z :=
  fold_right Z.add 0 (argument_units <$> argv) + Z.of_nat (length argv).

Section Requests.
Context `{Message FleetNativeAdminRequest}.

Definition validate (request : FleetNativeAdminRequest) : res unit :=
  fail_if (negb (areq_schema_version request =? 1)
    || str_empty (areq_machine_id request) || (64 <? slen (areq_machine_id request))
    || negb (str_all machine_char (areq_machine_id request))
    || (areq_source_comment_id request =? 0)
    || negb (blen (areq_release_set_sha256 request) =? 32)
    || negb (blen (areq_comment_sha256 request) =? 32)
    || (areq_requested_at_unix request =? 0)
    || is_empty (areq_argv request) || (128 <? Z.of_nat (length (areq_argv request)))
    || existsb bad_argument (areq_argv request)
    || (2048 <? slen (areq_working_directory request))
    || contains_nul (areq_working_directory request)
    || (negb (str_empty (areq_working_directory request))
        && negb (starts_with "/" (areq_working_directory request))
        && negb (windows_absolute_path (areq_working_directory request)))
    || (128 <? Z.of_nat (length (areq_environment request)))
    || existsb bad_environment (areq_environment request)
    || (areq_timeout_seconds request =? 0) || (3600 <? areq_timeout_seconds request)
    || (MAX_BYTES <? blen (encode_to_vec request)))
    "HOST_ADMIN_REQUEST_INVALID".

Definition validate_for_kind (request : FleetNativeAdminRequest) (kind : FleetHostKind)
    : res unit :=
  validate request ;;
  let cwd := areq_working_directory request in
  valid ← match kind with
    | FleetHostKind_Windows =>
        fail_if (32767 <? command_units (areq_argv request))
          "HOST_ADMIN_WINDOWS_COMMAND_LINE_TOO_LONG" ;;
        Ok (windows_absolute_path (hd "" (areq_argv request))
            && (str_empty cwd || windows_absolute_path cwd))
    | FleetHostKind_Vm => Ok (str_empty cwd || starts_with "/" cwd)
    | _ => Ok false
    end;
  fail_if (negb valid) "HOST_ADMIN_PLATFORM_PATH_INVALID".

Definition decode_request (b : bytes) : res FleetNativeAdminRequest :=
  fail_if (is_empty b || (MAX_BYTES <? blen b)) "HOST_ADMIN_SIZE_INVALID" ;;
  request ← ok_or (decode b) "HOST_ADMIN_PROTOBUF_INVALID";
  fail_if (negb (bytes_eqb (encode_to_vec (request : FleetNativeAdminRequest)) b))
    "HOST_ADMIN_PROTOBUF_NONCANONICAL" ;;
  validate request ;;
  Ok request.

(** ** Authorization *)

Definition authorization_payload (request : FleetNativeAdminRequest)
    (auth : FleetNativeAdminAuthorization) : bytes :=
  as_bytes "sing-box/native-admin-authorization/v1:"
  ++ framed 4 (encode_to_vec request)
  ++ framed 4 (as_bytes (aauth_key_id auth))
  ++ framed 4 (as_bytes (operation_id request))
  ++ u64_to_be_bytes (aauth_issued_at_unix auth)
  ++ u64_to_be_bytes (aauth_expires_at_unix auth).

Definition verify_authorization `{Ed25519} (request : FleetNativeAdminRequest)
    (auth : FleetNativeAdminAuthorization) (worker_public_key : bytes) (now : Z) : res unit :=
  validate request ;;
  fail_if (negb (aauth_schema_version auth =? 1)
    || negb (str_eqb (aauth_operation_id auth) (operation_id request))
    || str_empty (aauth_key_id auth) || (128 <? slen (aauth_key_id auth))
    || negb (str_all key_char (aauth_key_id auth))
    || negb (blen worker_public_key =? 32)
    || negb (blen (aauth_ed25519_signature auth) =? 64)
    || (aauth_expires_at_unix auth <=? aauth_issued_at_unix auth)
    || (180 <? aauth_expires_at_unix auth - aauth_issued_at_unix auth)
    || (u64_saturating_add now 60 <? aauth_issued_at_unix auth)
    || (aauth_expires_at_unix auth <? now))
    "HOST_ADMIN_AUTHORIZATION_EXPIRED_OR_INVALID" ;;
  fail_if (negb (ed25519_verify worker_public_key (authorization_payload request auth)
                   (aauth_ed25519_signature auth))) "HOST_ADMIN_SIGNATURE_REJECTED".

(** ** Receipts *)

Definition expired_before_begin (request : FleetNativeAdminRequest) (now : Z) : bool :=
  u64_saturating_add (areq_requested_at_unix request) 300 <? now.

Definition rejection_code_valid (code : string) : bool :=
  starts_with "HOST_" code && (slen code <=? 128)
  && str_all (λ c, is_ascii_uppercase c || is_ascii_digit c || Ascii.eqb c "_") code.

Definition PREVIEW_MAX : Z := 64 * 1024.
Definition CAPTURE_MAX : Z := 16 * 1024 * 1024.

Context `{Sha256}.

Definition preview_valid (request : FleetNativeAdminRequest) (result : FleetNativeAdminResult)
    : bool :=
  if ares_rejected_before_begin result then
    rejection_code_valid (ares_rejection_code result)
    && negb (bool_decide (is_Some (ares_worker_authorization result)))
    && (negb (str_eqb (ares_rejection_code result) "HOST_ADMIN_REQUEST_EXPIRED_BEFORE_BEGIN")
        || expired_before_begin request (ares_observed_at_unix result))
    && negb (ares_process_exited result)
    && (ares_exit_code result =? 0)
    && bytes_eqb (ares_stdout_sha256 result) (sha256 [])
    && bytes_eqb (ares_stderr_sha256 result) (sha256 [])
    && is_empty (ares_stdout_preview result) && is_empty (ares_stderr_preview result)
    && (ares_stdout_total_bytes result =? 0) && (ares_stderr_total_bytes result =? 0)
    && str_empty (ares_stdout_capture_path result) && str_empty (ares_stderr_capture_path result)
    && (ares_stdout_capture_bytes result =? 0) && (ares_stderr_capture_bytes result =? 0)
    && negb (ares_stdout_capture_complete result) && negb (ares_stderr_capture_complete result)
    && negb (ares_stdout_stream_eof result) && negb (ares_stderr_stream_eof result)
    && (ares_stdin_bytes_written result =? 0) && negb (ares_stdin_input_complete result)
    && negb (ares_stdout_truncated result) && negb (ares_stderr_truncated result)
  else if negb (str_empty (ares_rejection_code result)) then false
  else
    let a := blen (ares_stdout_preview result) in
    let b := blen (ares_stderr_preview result) in
    let stdin := blen (areq_stdin_bytes request) in
    (a <=? PREVIEW_MAX) && (b <=? PREVIEW_MAX)
    && ends_with ".stdout.bin" (ares_stdout_capture_path result)
    && ends_with ".stderr.bin" (ares_stderr_capture_path result)
    && (slen (ares_stdout_capture_path result) <=? 512)
    && (slen (ares_stderr_capture_path result) <=? 512)
    && (ares_stdout_capture_bytes result =? Z.min (ares_stdout_total_bytes result) CAPTURE_MAX)
    && (ares_stderr_capture_bytes result =? Z.min (ares_stderr_total_bytes result) CAPTURE_MAX)
    && Bool.eqb (ares_stdout_capture_complete result)
         (ares_stdout_capture_bytes result =? ares_stdout_total_bytes result)
    && Bool.eqb (ares_stderr_capture_complete result)
         (ares_stderr_capture_bytes result =? ares_stderr_total_bytes result)
    && (ares_stdin_bytes_written result <=? stdin)
    && Bool.eqb (ares_stdin_input_complete result) (ares_stdin_bytes_written result =? stdin)
    && (areq_publish_output request || ((a =? 0) && (b =? 0)))
    && (a <=? ares_stdout_total_bytes result) && (b <=? ares_stderr_total_bytes result)
    && Bool.eqb (ares_stdout_truncated result) (PREVIEW_MAX <? ares_stdout_total_bytes result)
    && Bool.eqb (ares_stderr_truncated result) (PREVIEW_MAX <? ares_stderr_total_bytes result)
    && (negb (areq_publish_output request)
        || ((a =? Z.min (ares_stdout_total_bytes result) PREVIEW_MAX)
            && (b =? Z.min (ares_stderr_total_bytes result) PREVIEW_MAX))).

Definition prebegin_rejection (request : FleetNativeAdminRequest) (now : Z) (reason : string)
    : res FleetNativeAdminResult :=
  validate request ;;
  let code := if rejection_code_valid reason then reason
              else "HOST_ADMIN_PREBEGIN_UNCLASSIFIED" in
  fail_if (str_eqb code "HOST_ADMIN_REQUEST_EXPIRED_BEFORE_BEGIN"
           && negb (expired_before_begin request now)) "HOST_ADMIN_REQUEST_NOT_EXPIRED" ;;
  Ok {| ares_schema_version := 1; ares_machine_id := areq_machine_id request;
        ares_operation_id := operation_id request;
        ares_request_sha256 := sha256 (encode_to_vec request);
        ares_observed_at_unix := now; ares_exit_code := 0;
        ares_stdout_sha256 := sha256 []; ares_stderr_sha256 := sha256 [];
        ares_process_exited := false; ares_root_signature := [];
        ares_stdout_preview := []; ares_stderr_preview := [];
        ares_stdout_total_bytes := 0; ares_stderr_total_bytes := 0;
        ares_stdout_truncated := false; ares_stderr_truncated := false;
        ares_stdout_capture_path := ""; ares_stderr_capture_path := "";
        ares_stdout_capture_bytes := 0; ares_stderr_capture_bytes := 0;
        ares_stdout_capture_complete := false; ares_stderr_capture_complete := false;
        ares_stdout_stream_eof := false; ares_stderr_stream_eof := false;
        ares_stdin_bytes_written := 0; ares_stdin_input_complete := false;
        ares_rejected_before_begin := true; ares_rejection_code := code;
        ares_worker_authorization := None |}.

Definition expired_rejection (request : FleetNativeAdminRequest) (now : Z)
    : res FleetNativeAdminResult :=
  validate request ;;
  fail_if (negb (expired_before_begin request now)) "HOST_ADMIN_REQUEST_NOT_EXPIRED" ;;
  prebegin_rejection request now "HOST_ADMIN_REQUEST_EXPIRED_BEFORE_BEGIN".

Context `{Message FleetNativeAdminResult} `{Ed25519}.

Definition receipt_payload (request : FleetNativeAdminRequest) (result : FleetNativeAdminResult)
    : bytes :=
  as_bytes "sing-box/native-admin-receipt/v1:"
  ++ framed 4 (encode_to_vec request)
  ++ framed 4 (encode_to_vec (with_root_signature result [])).

Definition receipt_identity_invalid (request : FleetNativeAdminRequest)
    (receipt : FleetNativeAdminResult) : bool :=
  negb (ares_schema_version receipt =? 1)
  || negb (str_eqb (ares_machine_id receipt) (areq_machine_id request))
  || negb (str_eqb (ares_operation_id receipt) (operation_id request))
  || negb (bytes_eqb (ares_request_sha256 receipt) (sha256 (encode_to_vec request))).

(** [&mut ResultReceipt]: the signed receipt *)
Definition sign_receipt (request : FleetNativeAdminRequest) (receipt : FleetNativeAdminResult)
    (owner_pkcs8 : bytes) : res FleetNativeAdminResult :=
  fail_if (receipt_identity_invalid request receipt
    || negb (blen (ares_stdout_sha256 receipt) =? 32)
    || negb (blen (ares_stderr_sha256 receipt) =? 32)
    || negb (preview_valid request receipt)) "HOST_ADMIN_RECEIPT_IDENTITY_INVALID" ;;
  _ ← ok_or (ed25519_public_key owner_pkcs8) "HOST_ADMIN_RECEIPT_SIGNER_INVALID";
  Ok (with_root_signature receipt (ed25519_sign owner_pkcs8 (receipt_payload request receipt))).

Definition verify_receipt (request : FleetNativeAdminRequest) (receipt : FleetNativeAdminResult)
    (pinned_owner_public_key : bytes) : res unit :=
  fail_if (receipt_identity_invalid request receipt
    || negb (blen pinned_owner_public_key =? 32)
    || negb (blen (ares_root_signature receipt) =? 64)
    || negb (preview_valid request receipt)) "HOST_ADMIN_RECEIPT_INVALID" ;;
  fail_if (negb (ed25519_verify pinned_owner_public_key (receipt_payload request receipt)
                   (ares_root_signature receipt))) "HOST_ADMIN_RECEIPT_SIGNATURE_REJECTED".

Definition verify_receipt_worker_authority (request : FleetNativeAdminRequest)
    (receipt : FleetNativeAdminResult) (worker_public_key : bytes) : res unit :=
  if ares_rejected_before_begin receipt then
    fail_if (bool_decide (is_Some (ares_worker_authorization receipt)))
      "HOST_ADMIN_REJECTION_CANNOT_CLAIM_AUTHORIZATION"
  else
    auth ← ok_or (ares_worker_authorization receipt)
             "HOST_ADMIN_RECEIPT_WORKER_AUTHORIZATION_MISSING";
    fail_if (ares_observed_at_unix receipt <? aauth_issued_at_unix auth)
      "HOST_ADMIN_RECEIPT_PRECEDES_AUTHORIZATION" ;;
    verify_authorization request auth worker_public_key (aauth_issued_at_unix auth).
End Requests.
