(* ===== verification/AdminCommand.v ===== *)
(** * The command line of an administrative process

    [quote] and [wide] of [edge-console/src/windows_admin_process.rs] against the rules by
    which the Microsoft C runtime splits a command line into arguments: the process receives
    exactly the signed arguments, and the bound that [validate_for_kind] tests before the
    operation begins is the length of the string that [CreateProcessW] gets. *)

From S2P Require Import Prelude RustStd RustText RustUtf HostTypes HostAdmin.

(** ** Quoting *)

(** The loop of [quote] over the characters, with the backslashes seen so far *)
Fixpoint quote_loop (slashes : nat) (cs : list Z) : list Z :=
  match cs with
  | [] => replicate (slashes * 2) 92
  | c :: cs =>
      if c =? 92 then quote_loop (S slashes) cs
      else replicate (if c =? 34 then slashes * 2 + 1 else slashes) 92
           ++ c :: quote_loop 0 cs
  end.
Definition quote (s : string) : string := string_of (34 :: quote_loop 0 (chars s) ++ [34]).

(** [s.encode_utf16().chain(Some(0))] *)
Definition wide (s : string) : list Z := encode_utf16 s ++ [0].

(** [argv.iter().map(quote).collect().join(" ")] *)
Definition command_line (argv : list string) : string := join " " (quote <$> argv).

(** ** The rules of the C runtime

    Arguments are separated by spaces and tabs outside quotation marks. A quotation mark after
    [2n] backslashes opens or closes a quotation and leaves [n] of them; after [2n+1] it is
    literal and leaves [n]; two marks in a quotation are a literal one; other backslashes are
    literal. The program's name comes first and has no escapes. *)

Definition blank (u : Z) : bool := (u =? 32) || (u =? 9).
Definition flush (cur : option (list Z)) (slashes : nat) : list (list Z) :=
  match cur with
  | Some arg => [arg ++ replicate slashes 92]
  | None => match slashes with O => [] | _ => [replicate slashes 92] end
  end.
Definition current (cur : option (list Z)) : list Z := default [] cur.

Fixpoint crt_arguments (us : list Z) (slashes : nat) (quoted : bool) (cur : option (list Z))
    : list (list Z) :=
  match us with
  | [] => flush cur slashes
  | u :: us =>
      if u =? 92 then crt_arguments us (S slashes) quoted (Some (current cur))
      else if u =? 34 then
        let arg := current cur ++ replicate (slashes / 2) 92 in
        if Nat.odd slashes then crt_arguments us 0 quoted (Some (arg ++ [34]))
        else match quoted, us with
        | true, 34 :: us => crt_arguments us 0 true (Some (arg ++ [34]))
        | _, _ => crt_arguments us 0 (negb quoted) (Some arg)
        end
      else if blank u && negb quoted then flush cur slashes ++ crt_arguments us 0 false None
      else crt_arguments us 0 quoted (Some (current cur ++ replicate slashes 92 ++ [u]))
  end.

(** The program's name: up to the first blank outside quotation marks *)
Fixpoint crt_program (us : list Z) (quoted : bool) : list Z * list Z :=
  match us with
  | [] => ([], [])
  | u :: us =>
      if u =? 34 then crt_program us (negb quoted)
      else if blank u && negb quoted then ([], us)
      else let '(name, rest) := crt_program us quoted in (u :: name, rest)
  end.

Definition crt_argv (us : list Z) : list (list Z) :=
  let '(name, rest) := crt_program us false in name :: crt_arguments rest 0 false None.

Example crt_quotes :
  crt_argv (encode_utf16 (command_line ["C:\a b"; "x"; "c\"; "d e\\"]))
  = encode_utf16 <$> ["C:\a b"; "x"; "c\"; "d e\\"].
Proof. vm_compute. reflexivity. Qed.

(** ** Quoting in 16-bit units *)

Lemma units_replicate n : flat_map utf16_char (replicate n 92) = replicate n 92.
Proof. induction n as [|n IH]; simpl; [done|]. by rewrite IH. Qed.

Lemma quote_loop_units n cs :
  Forall scalar cs →
  flat_map utf16_char (quote_loop n cs) = quote_loop n (flat_map utf16_char cs).
Proof.
  intros Hcs. revert n. induction Hcs as [|c cs Hc _ IH]; intros n; cbn [quote_loop flat_map].
  { apply units_replicate. }
  destruct (Z.eqb_spec c 92) as [->|H92]; [apply IH|].
  rewrite flat_map_app, units_replicate. cbn [flat_map]. rewrite IH. unfold utf16_char.
  destruct (Z.ltb_spec c 65536) as [|Hbig].
  { cbn [app quote_loop]. by destruct (Z.eqb_spec c 92); [|destruct (c =? 34)]. }
  unfold scalar in Hc.
  pose proof (Z.div_pos (c - 65536) 1024 ltac:(lia) ltac:(lia)).
  pose proof (Z.mod_pos_bound (c - 65536) 1024 ltac:(lia)).
  cbn [app quote_loop].
  repeat match goal with |- context [?a =? ?b] => destruct (Z.eqb_spec a b); [lia|] end.
  done.
Qed.

Lemma quote_loop_scalar n cs : Forall scalar cs → Forall scalar (quote_loop n cs).
Proof.
  intros Hcs. revert n. induction Hcs as [|c cs Hc _ IH]; intros n; cbn [quote_loop].
  - apply Forall_replicate. unfold scalar. lia.
  - destruct (c =? 92); [apply IH|]. apply Forall_app. split.
    + apply Forall_replicate. unfold scalar. lia.
    + by constructor.
Qed.

(** The quoted form of an argument, and the command line, in units *)
Definition quote_units (us : list Z) : list Z := 34 :: quote_loop 0 us ++ [34].

Lemma encode_quote s : utf8 s → encode_utf16 (quote s) = quote_units (encode_utf16 s).
Proof.
  intros Hs%utf8_scalar. unfold quote. rewrite encode_utf16_string_of.
  - cbn [flat_map]. rewrite flat_map_app, quote_loop_units by done. done.
  - constructor; [unfold scalar; lia|]. apply Forall_app. split; [by apply quote_loop_scalar|].
    constructor; [unfold scalar; lia|constructor].
Qed.

Fixpoint join_units (args : list (list Z)) : list Z :=
  match args with
  | [] => []
  | [a] => a
  | a :: args => a ++ 32 :: join_units args
  end.

Lemma utf8_app a b : utf8 a → utf8 b → utf8 (a +:+ b).
Proof.
  intros (cs & Hcs & ->) (ds & Hds & ->). exists (cs ++ ds).
  split; [by apply Forall_app|by rewrite string_of_app].
Qed.
Lemma encode_utf16_app a b :
  utf8 a → utf8 b → encode_utf16 (a +:+ b) = encode_utf16 a ++ encode_utf16 b.
Proof.
  intros (cs & Hcs & ->) (ds & Hds & ->).
  rewrite <- string_of_app, !encode_utf16_string_of, flat_map_app; [done|done..|].
  by apply Forall_app.
Qed.
Lemma utf8_quote s : utf8 s → utf8 (quote s).
Proof.
  intros Hs%utf8_scalar. eexists. split; [|reflexivity].
  constructor; [unfold scalar; lia|]. apply Forall_app. split; [by apply quote_loop_scalar|].
  constructor; [unfold scalar; lia|constructor].
Qed.

Lemma join_utf8 parts : Forall utf8 parts →
  utf8 (join " " parts) ∧ encode_utf16 (join " " parts) = join_units (encode_utf16 <$> parts).
Proof.
  induction 1 as [|p parts Hp Hparts [IHu IHe]]; [split; [by exists []|done]|].
  destruct parts as [|q parts]; [done|].
  change (join " " (p :: q :: parts)) with (p +:+ " " +:+ join " " (q :: parts)).
  assert (utf8 " ") by by apply ascii_utf8.
  split; [by repeat apply utf8_app|].
  rewrite encode_utf16_app by (done || by apply utf8_app).
  rewrite encode_utf16_app, IHe by done. done.
Qed.

Lemma encode_command_line argv : Forall utf8 argv →
  encode_utf16 (command_line argv) = join_units (quote_units <$> (encode_utf16 <$> argv)).
Proof.
  intros Hargv. unfold command_line.
  rewrite (proj2 (join_utf8 (quote <$> argv)
    (proj2 (Forall_fmap _ _ _) (Forall_impl _ _ _ Hargv utf8_quote)))).
  f_equal. rewrite <- !list_fmap_compose. apply list_fmap_ext.
  intros i s Hi. rewrite Forall_lookup in Hargv. by apply encode_quote, (Hargv i).
Qed.

(** ** The length *)

Lemma quote_loop_length cs n0 k :
  let '(n, slashes) := fold_left unit_step cs (n0, Z.of_nat k) in
  Z.of_nat (length (quote_loop k cs)) = Z.of_nat (length cs) + Z.of_nat k + (n - n0) + slashes.
Proof.
  revert n0 k. induction cs as [|c cs IH]; intros n0 k; cbn [fold_left quote_loop].
  { rewrite length_replicate. cbn [length]. lia. }
  unfold unit_step at 2. destruct (Z.eqb_spec c 92).
  { specialize (IH n0 (S k)). rewrite Nat2Z.inj_succ in IH. unfold Z.succ in IH.
    destruct (fold_left _ _ _). cbn [length]. lia. }
  specialize (IH (if c =? 34 then n0 + Z.of_nat k + 1 else n0) 0%nat). simpl Z.of_nat in IH.
  destruct (fold_left _ _ _). rewrite length_app, length_replicate. cbn [length].
  destruct (c =? 34); lia.
Qed.

Lemma unit_step_units cs st :
  Forall scalar cs →
  fold_left unit_step (flat_map utf16_char cs) st = fold_left unit_step cs st.
Proof.
  intros Hcs. revert st. induction Hcs as [|c cs Hc _ IH]; intros st; [done|].
  cbn [flat_map]. rewrite fold_left_app, IH. cbn [fold_left]. f_equal. unfold utf16_char.
  destruct (Z.ltb_spec c 65536); [done|]. unfold scalar in Hc. cbn [fold_left].
  pose proof (Z.div_pos (c - 65536) 1024 ltac:(lia) ltac:(lia)).
  pose proof (Z.mod_pos_bound (c - 65536) 1024 ltac:(lia)).
  destruct st as [n slashes]. unfold unit_step.
  repeat match goal with |- context [?a =? ?b] => destruct (Z.eqb_spec a b); [lia|] end. done.
Qed.

Lemma argument_units_exact s : utf8 s →
  argument_units s = Z.of_nat (length (quote_units (encode_utf16 s))).
Proof.
  intros Hs%utf8_scalar. unfold argument_units.
  rewrite <- unit_step_units by done. fold (encode_utf16 s).
  pose proof (quote_loop_length (encode_utf16 s) (2 + Z.of_nat (length (encode_utf16 s))) 0) as Hl.
  simpl Z.of_nat in Hl at 1. destruct (fold_left _ _ _).
  unfold quote_units. cbn [length]. rewrite length_app. cbn [length]. lia.
Qed.

Lemma join_units_length args : args ≠ [] →
  Z.of_nat (length (join_units args)) + 1
  = fold_right Z.add 0 ((λ a, Z.of_nat (length a)) <$> args) + Z.of_nat (length args).
Proof.
  induction args as [|a [|b args] IH]; [done|simpl; lia|]. intros _. specialize (IH ltac:(done)).
  change (join_units (a :: b :: args)) with (a ++ 32 :: join_units (b :: args)).
  rewrite length_app. cbn [length fmap list_fmap fold_right] in *. lia.
Qed.

(** What is tested is what is passed. *)
Lemma command_units_exact argv : argv ≠ [] → Forall utf8 argv →
  command_units argv = Z.of_nat (length (wide (command_line argv))).
Proof.
  intros Hne Hargv. unfold command_units, wide. rewrite length_app, encode_command_line by done.
  cbn [length]. rewrite Nat2Z.inj_add. cbn [Z.of_nat Pos.of_succ_nat].
  rewrite join_units_length by (by destruct argv). rewrite !length_fmap. f_equal. f_equal.
  rewrite <- !list_fmap_compose. apply list_fmap_ext. intros i s Hi.
  rewrite Forall_lookup in Hargv. by apply argument_units_exact, (Hargv i).
Qed.

(** ** What the process receives *)

(** The rest of a command line after an argument *)
Definition at_end (rest : list Z) : Prop := rest = [] ∨ ∃ us, rest = 32 :: us.

Lemma crt_slashes n us k quoted cur :
  crt_arguments (replicate n 92 ++ us) k quoted (Some cur)
  = crt_arguments us (n + k) quoted (Some cur).
Proof.
  revert k. induction n as [|n IH]; intros k; [done|]. cbn [replicate app crt_arguments].
  cbn [Z.eqb Pos.eqb]. cbn [current default from_option id]. rewrite IH. f_equal. lia.
Qed.

Lemma replicate_shift {A} k (x : A) us : replicate (S k) x ++ us = replicate k x ++ x :: us.
Proof. by rewrite replicate_S_end, <- app_assoc. Qed.

Lemma crt_quoted us k cur rest :
  at_end rest →
  crt_arguments (quote_loop k us ++ 34 :: rest) 0 true (Some cur)
  = crt_arguments rest 0 false (Some (cur ++ replicate k 92 ++ us)).
Proof.
  intros Hrest. revert k cur. induction us as [|u us IH]; intros k cur; cbn [quote_loop].
  - rewrite crt_slashes. cbn [crt_arguments]. rewrite Nat.add_0_r.
    cbn [Z.eqb Pos.eqb].
    replace (Nat.odd (k * 2)) with false by (symmetry; rewrite Nat.odd_mul; by rewrite andb_false_r).
    rewrite Nat.div_mul by lia. rewrite app_nil_r.
    by destruct Hrest as [->|[us ->]].
  - destruct (Z.eqb_spec u 92) as [->|H92].
    { by rewrite IH, replicate_shift. }
    rewrite <- app_assoc. rewrite crt_slashes, Nat.add_0_r. cbn [app crt_arguments].
    destruct (Z.eqb_spec u 92); [done|]. destruct (Z.eqb_spec u 34) as [->|H34].
    + replace (Nat.odd (k * 2 + 1)) with true
        by (symmetry; rewrite Nat.odd_add, Nat.odd_mul; by rewrite andb_false_r).
      replace ((k * 2 + 1) / 2)%nat with k
        by (symmetry; rewrite Nat.div_add_l by lia; simpl; lia).
      rewrite IH. cbn [replicate app current default]. by rewrite <- !app_assoc.
    + rewrite andb_false_r, IH. cbn [replicate app current default]. by rewrite <- !app_assoc.
Qed.

Lemma crt_argument us rest :
  at_end rest →
  crt_arguments (quote_units us ++ rest) 0 false None
  = us :: match rest with [] => [] | _ :: rest => crt_arguments rest 0 false None end.
Proof.
  intros Hrest. unfold quote_units. cbn [app crt_arguments].
  cbn [Z.eqb Pos.eqb]. cbn [Nat.odd Nat.even negb].
  rewrite <- app_assoc. cbn [app]. change (0 / 2)%nat with 0%nat.
  rewrite crt_quoted by done. cbn [replicate app current default].
  destruct Hrest as [->|[us' ->]]; simpl; by rewrite app_nil_r.
Qed.

Lemma crt_join args :
  args ≠ [] → crt_arguments (join_units (quote_units <$> args)) 0 false None = args.
Proof.
  induction args as [|a [|b args] IH]; [done|..]; intros _.
  - change (join_units _) with (quote_units a). rewrite <- (app_nil_r (quote_units a)).
    rewrite crt_argument; [done|by left].
  - change (join_units (quote_units <$> a :: b :: args))
      with (quote_units a ++ 32 :: join_units (quote_units <$> b :: args)).
    rewrite crt_argument by (right; eauto). f_equal. by apply IH.
Qed.

(** The program's name has no quotation mark and does not end in a backslash. *)
Definition plain_program (us : list Z) : Prop :=
  Forall (λ u, u ≠ 34) us ∧ last us ≠ Some 92.

Lemma quote_loop_plain n us :
  Forall (λ u, u ≠ 34) us → last (replicate n 92 ++ us) ≠ Some 92 →
  quote_loop n us = replicate n 92 ++ us.
Proof.
  intros Hus. revert n. induction Hus as [|u us Hu _ IH]; intros n Hl; cbn [quote_loop].
  - destruct n as [|n]; [done|]. exfalso. apply Hl.
    rewrite app_nil_r, replicate_S_end. apply last_snoc.
  - destruct (Z.eqb_spec u 92) as [->|].
    + rewrite <- replicate_shift in *. by apply IH.
    + destruct (Z.eqb_spec u 34); [done|]. f_equal. f_equal. apply (IH 0%nat).
      simpl. intros E. apply Hl. rewrite last_app, last_cons, E. done.
Qed.

Lemma crt_program_quoted us rest :
  Forall (λ u, u ≠ 34) us → at_end rest →
  crt_program (us ++ 34 :: rest) true
  = (us, match rest with [] => [] | _ :: rest => rest end).
Proof.
  intros Hus Hrest. induction Hus as [|u us Hu _ IH]; cbn [app crt_program].
  - destruct Hrest as [->|[us ->]]; done.
  - destruct (Z.eqb_spec u 34); [done|]. by rewrite andb_false_r, IH.
Qed.

(** The name the runtime reads is what stands between the quotation marks. *)
Lemma crt_command_line program name args :
  quote_units program = 34 :: name ++ [34] → Forall (λ u, u ≠ 34) name →
  crt_argv (join_units (quote_units <$> program :: args)) = name :: args.
Proof.
  intros Hp Hq. unfold crt_argv.
  assert (∃ rest, at_end rest ∧
    join_units (quote_units <$> program :: args) = 34 :: name ++ 34 :: rest ∧
    crt_arguments (match rest with [] => [] | _ :: rest => rest end) 0 false None = args)
    as (rest & Hrest & -> & Hargs).
  { destruct args as [|a args].
    - exists []. split_and!; [by left|by rewrite <- Hp|done].
    - exists (32 :: join_units (quote_units <$> a :: args)).
      split_and!; [right; eauto| |by apply crt_join].
      change (join_units (quote_units <$> program :: a :: args))
        with (quote_units program ++ 32 :: join_units (quote_units <$> a :: args)).
      rewrite Hp. simpl. by rewrite <- app_assoc. }
  cbn [crt_program]. cbn [Z.eqb Pos.eqb negb].
  rewrite crt_program_quoted by done. by rewrite Hargs.
Qed.

(** ** The tests on strings, in units *)

Lemma str_all_chars (p : ascii → bool) cs :
  Forall scalar cs → str_all p (string_of cs) = true →
  Forall (λ c, c < 128 → p (ascii_of_Z c) = true) cs.
Proof.
  induction 1 as [|c cs Hc _ IH]; [constructor|]. cbn [string_of].
  rewrite str_all_app, andb_true. intros [H1 H2]. constructor; [|by apply IH].
  intros Hlt. unfold utf8_char in H1. destruct (Z.ltb_spec c 128); [|lia].
  cbn in H1. by apply andb_true in H1 as [? _].
Qed.

(** A character that a string does not contain is no unit of it. *)
Lemma absent_unit (x : ascii) s :
  utf8 s → code x < 128 → contains_any (Ascii.eqb x) s = false →
  Forall (λ u, u ≠ code x) (encode_utf16 s).
Proof.
  intros (cs & Hcs & ->) Hx Hc. rewrite encode_utf16_string_of by done.
  unfold contains_any in Hc. apply negb_false in Hc.
  pose proof (str_all_chars _ _ Hcs Hc) as Hall. pose proof (code_range x).
  rewrite Forall_forall in *. intros u Hu. rewrite list_elem_of_In in Hu.
  apply in_flat_map in Hu as (c & Hin & Hu). rewrite <- list_elem_of_In in Hin.
  specialize (Hall c Hin). specialize (Hcs c Hin). unfold utf16_char, scalar in *.
  destruct (Z.ltb_spec c 65536).
  - destruct Hu as [<-|[]]. intros ->. rewrite ascii_of_code, Ascii.eqb_refl in Hall. naive_solver.
  - pose proof (Z.div_pos (c - 65536) 1024 ltac:(lia) ltac:(lia)).
    pose proof (Z.mod_pos_bound (c - 65536) 1024 ltac:(lia)).
    destruct Hu as [<-|[<-|[]]]; lia.
Qed.

Lemma last_unit s : utf8 s → last (encode_utf16 s) = Some 92 →
  ∃ t, s = t +:+ String backslash "".
Proof.
  intros (cs & Hcs & ->). rewrite encode_utf16_string_of by done.
  destruct cs as [|c cs _] using rev_ind; [done|]. intros Hl.
  apply Forall_app in Hcs as [_ Hc]. apply Forall_cons in Hc as [Hc _].
  rewrite flat_map_app, last_app in Hl. cbn [flat_map] in Hl. rewrite app_nil_r in Hl.
  exists (string_of cs). rewrite string_of_app. f_equal. cbn [string_of].
  unfold utf16_char, scalar in *. destruct (Z.ltb_spec c 65536).
  - cbn in Hl. simplify_eq. reflexivity.
  - pose proof (Z.mod_pos_bound (c - 65536) 1024 ltac:(lia)). cbn in Hl. simplify_eq. lia.
Qed.

Lemma split_last_empty c s :
  ∃ x l, split c (s +:+ String c "") = x :: l ∧ "" ∈ l.
Proof.
  induction s as [|a s (x & l & E & Hl)].
  - exists "", [""]. rewrite nil_app_str. cbn [split]. rewrite Ascii.eqb_refl. split; [done|by left].
  - rewrite cons_app_str. cbn [split]. rewrite E. destruct (Ascii.eqb a c).
    + exists "", (x :: l). split; [done|by right].
    + by exists (String a x), l.
Qed.

Lemma absolute_path_plain path :
  utf8 path → windows_absolute_path path = true → slen path ≠ 3 →
  plain_program (encode_utf16 path).
Proof.
  intros Hu Hp Hlen. unfold windows_absolute_path in Hp.
  destruct path as [|b0 [|b1 [|b2 rest]]]; try done. reflect_in Hp.
  destruct Hp as [[[[[_ Hb2] Hq] _] _] Hsplit]. apply Ascii.eqb_eq in Hb2 as ->. split.
  - apply (absent_unit double_quote); [done|done|].
    unfold contains_any in *. apply negb_false. apply negb_false in Hq.
    eapply str_all_impl; [|exact Hq]. intros c. rewrite !negb_true. intros Hc.
    reflect_in Hc. destruct Hc as [[_ Hc] _]. by rewrite Ascii.eqb_sym.
  - intros Hl%last_unit; [|done]. destruct Hl as (t & Et).
    assert (∃ r, rest = r +:+ String backslash "") as (r & ->).
    { destruct t as [|c0 [|c1 [|c2 t]]]; rewrite ?cons_app_str, ?nil_app_str in Et;
        simplify_eq; by exists t. }
    destruct (split_last_empty backslash r) as (x & l & E & Hin).
    apply orb_true_iff in Hsplit as [Hs|Hs].
    { by destruct r. }
    apply negb_true in Hs. rewrite E in Hs.
    assert (existsb bad_component (x :: l) = true) as Hbad; [|congruence].
    apply existsb_exists. exists "". split; [right; by apply list_elem_of_In|done].
Qed.

Lemma quote_units_no_nul us : Forall (λ u, u ≠ 0) us → Forall (λ u, u ≠ 0) (quote_units us).
Proof.
  intros Hus. constructor; [done|]. apply Forall_app. split; [|by repeat constructor].
  generalize 0%nat. induction Hus as [|u us Hu _ IH]; intros n; cbn [quote_loop].
  - by apply Forall_replicate.
  - destruct (u =? 92); [apply IH|]. apply Forall_app.
    split; [by apply Forall_replicate|by constructor].
Qed.

Lemma join_units_Forall (P : Z → Prop) args :
  P 32 → Forall (Forall P) args → Forall P (join_units args).
Proof.
  intros H32. induction 1 as [|a [|b args] Ha Hargs IH]; [constructor|done|].
  change (join_units (a :: b :: args)) with (a ++ 32 :: join_units (b :: args)).
  apply Forall_app. split; [done|by constructor].
Qed.

(** What [validate_for_kind] establishes for Windows *)
Lemma windows_request `{Message FleetNativeAdminRequest} r :
  validate_for_kind r FleetHostKind_Windows = Ok tt →
  areq_argv r ≠ [] ∧ existsb bad_argument (areq_argv r) = false ∧
  command_units (areq_argv r) ≤ 32767 ∧ windows_absolute_path (hd "" (areq_argv r)) = true.
Proof.
  unfold validate_for_kind, validate. intros Hv. inv_ok Hv. reflect_in Hm.
  cbn [mbind result_bind] in Hm0. inv_ok Hm0. reflect_in Hm1. reflect_in Hv.
  tauto.
Qed.

(** The root of a drive ends in a backslash, which is doubled before the closing quotation
    mark; the name of the program has no escapes, so that the second one stays. *)
Definition program_name (path : string) : list Z :=
  encode_utf16 path ++ (if slen path =? 3 then [92] else []).
Lemma quoted_program path :
  utf8 path → windows_absolute_path path = true →
  quote_units (encode_utf16 path) = 34 :: program_name path ++ [34] ∧
  Forall (λ u, u ≠ 34) (program_name path).
Proof.
  intros Hu Hp. unfold program_name. destruct (Z.eqb_spec (slen path) 3) as [Hl|Hl].
  - unfold windows_absolute_path in Hp. destruct path as [|b0 [|b1 [|b2 [|b3 rest]]]]; try done.
    2: { exfalso. unfold slen in Hl. cbn [String.length] in Hl. lia. }
    reflect_in Hp. destruct_and! Hp.
    repeat match goal with H : Ascii.eqb _ _ = true |- _ => apply Ascii.eqb_eq in H as -> end.
    match goal with H : is_ascii_alphabetic b0 = true |- _ =>
      destruct b0 as [[] [] [] [] [] [] [] []]; try discriminate H end;
    (split; [vm_compute; reflexivity|repeat constructor; vm_compute; discriminate]).
  - destruct (absolute_path_plain path Hu Hp Hl) as [Hq Hlast]. rewrite app_nil_r.
    split; [|done]. unfold quote_units. by rewrite quote_loop_plain.
Qed.

(** C10: The command line built for a valid request, whose arguments are UTF-8 as all
    Rust strings are, parsed by the rules of the Microsoft C runtime, gives back
    exactly its arguments after the program, and the program exactly, unless that is
    the bare root of a drive, which gains a second backslash; it contains no NUL, and
    fits with its terminator in the 32767 units CreateProcessW allows. *)
Theorem command_line_exact `{Message FleetNativeAdminRequest} (r : FleetNativeAdminRequest) :
  validate_for_kind r FleetHostKind_Windows = Ok tt →
  Forall utf8 (areq_argv r) →
  crt_argv (encode_utf16 (command_line (areq_argv r)))
    = program_name (hd "" (areq_argv r)) :: (encode_utf16 <$> tl (areq_argv r)) ∧
  Forall (λ u, u ≠ 0) (encode_utf16 (command_line (areq_argv r))) ∧
  Z.of_nat (length (wide (command_line (areq_argv r)))) ≤ 32767.
Proof.
  intros (Hne & Hargs & Hunits & Hpath)%windows_request Hutf.
  rewrite <- command_units_exact by done. rewrite encode_command_line by done.
  destruct (areq_argv r) as [|program args]; [done|].
  split_and!; [| |done].
  - apply Forall_cons in Hutf as [Hu _]. by apply crt_command_line; apply quoted_program.
  - apply join_units_Forall; [done|]. apply Forall_fmap. apply Forall_fmap.
    rewrite Forall_forall in *. intros s Hs. simpl. apply quote_units_no_nul.
    apply (absent_unit nul); [by apply Hutf|done|].
    destruct (contains_any _ s) eqn:E; [|done]. exfalso.
    assert (existsb bad_argument (program :: args) = true) as Hbad; [|congruence].
    apply existsb_exists. exists s. split; [by apply list_elem_of_In|].
    unfold bad_argument, contains_nul. by rewrite E, !orb_true_r.
Qed.
