(* ===== verification/AdminProcess.v ===== *)
(** * Running an administrative process

    [edge-console/src/windows_admin_process.rs]: the process is created suspended, put in a
    job whose closing kills it, resumed, waited for and terminated with its descendants; its
    output is drained by two threads. [edge-agent/src/host_admin_native.rs]: the drain of the
    agent. A Win32 call is a call of the program; a thread is the call that joins it, whose
    answer says what the thread read. *)

From S2P Require Import Prelude RustStd RustText RustOrd RustUtf HostTypes Service HostAdmin.
From S2P Require Import AdminCommand.

(** ** Draining a pipe *)

Definition PREVIEW : Z := 64 * 1024.
Definition CAPTURE : Z := 16 * 1024 * 1024.

(** The state of the loop: what was hashed, [Stream], and what was written to the spool *)
Record drain_state : Set := {
  dr_hashed : bytes; dr_total : Z; dr_saved : Z; dr_preview : bytes; dr_spool : bytes
}.
Definition drain_start : drain_state :=
  {| dr_hashed := []; dr_total := 0; dr_saved := 0; dr_preview := []; dr_spool := [] |}.

(** [usize::saturating_sub] *)
Definition saturating_sub (a b : Z) : Z := Z.max (a - b) 0.
(** [&buf[..n.min(limit)]] *)
Definition prefix (buf : bytes) (limit : Z) : bytes :=
  firstn (Z.to_nat (Z.min (blen buf) limit)) buf.

(** One turn of the loop of [drain] that reads *)
Definition drain_chunk (s : drain_state) (buf : bytes) : drain_state :=
  let keep := Z.min (blen buf) (saturating_sub CAPTURE (dr_saved s)) in {|
  dr_hashed := dr_hashed s ++ buf;
  dr_total := dr_total s + blen buf;
  dr_preview := dr_preview s ++ prefix buf (saturating_sub PREVIEW (blen (dr_preview s)));
  dr_spool := dr_spool s ++ firstn (Z.to_nat keep) buf;
  dr_saved := dr_saved s + keep
|}.

(** One turn of the loop of the agent's [capture_stream_with_file]; the spool is optional *)
Definition capture_chunk (spool : bool) (s : drain_state) (buf : bytes) : drain_state :=
  let retain := Z.min (saturating_sub PREVIEW (blen (dr_preview s))) (blen buf) in
  let save := Z.min (saturating_sub CAPTURE (dr_saved s)) (blen buf) in
  let write := spool && (0 <? save) in {|
  dr_hashed := dr_hashed s ++ buf;
  dr_total := u64_saturating_add (dr_total s) (blen buf);
  dr_preview := dr_preview s ++ firstn (Z.to_nat retain) buf;
  dr_spool := if write then dr_spool s ++ firstn (Z.to_nat save) buf else dr_spool s;
  dr_saved := if write then dr_saved s + save else dr_saved s
|}.

(** How the loop ended: the time after the exit of the process ran out, the pipe was broken,
    a read returned nothing, or a call failed *)
Inductive pipe_end : Set :=
| Expired | PeekBroken | ReadEnd | PeekUnknown | ReadUnknown | SpoolUnknown.

(** What a draining thread met: the buffers it read and wrote to the spool, how the loop
    ended, and whether the spool was synchronised; turns that found nothing are left out *)
Record pipe_log : Set := { pl_chunks : list bytes; pl_end : pipe_end; pl_synced : bool }.

Record Stream : Set := {
  str_digest : bytes; str_total : Z; str_saved : Z; str_preview : bytes; str_eof : bool
}.
Record CapturedStream : Set := {
  cap_sha256 : bytes; cap_total_bytes : Z; cap_preview : bytes; cap_capture_bytes : Z
}.

Section Drain.
Context `{Sha256}.

Definition drain (log : pipe_log) : res Stream :=
  let s := fold_left drain_chunk (pl_chunks log) drain_start in
  eof ← match pl_end log with
        | Expired => Ok false
        | PeekBroken | ReadEnd => Ok true
        | PeekUnknown => Err "HOST_ADMIN_PIPE_PEEK_UNKNOWN_NO_REPLAY"
        | ReadUnknown => Err "HOST_ADMIN_PIPE_READ_UNKNOWN_NO_REPLAY"
        | SpoolUnknown => Err "HOST_ADMIN_CAPTURE_UNKNOWN_NO_REPLAY"
        end;
  fail_if (negb (pl_synced log)) "HOST_ADMIN_CAPTURE_SYNC_UNKNOWN_NO_REPLAY" ;;
  Ok {| str_digest := sha256 (dr_hashed s); str_total := dr_total s; str_saved := dr_saved s;
        str_preview := dr_preview s; str_eof := eof |}.

(** [ended]: the reads ended without an error, as did the writes and the synchronisation *)
Definition capture_stream_with_file (chunks : list bytes) (spool ended : bool)
    : option CapturedStream :=
  let s := fold_left (capture_chunk spool) chunks drain_start in
  if ended then
    Some {| cap_sha256 := sha256 (dr_hashed s); cap_total_bytes := dr_total s;
            cap_preview := dr_preview s; cap_capture_bytes := dr_saved s |}
  else None.
End Drain.

(** ** The environment block *)

(** [str::to_uppercase] of an ASCII name *)
Definition to_ascii_uppercase_char (c : ascii) : ascii :=
  if is_ascii_lowercase c then ascii_of_N (N_of_ascii c - 32) else c.
Fixpoint to_ascii_uppercase (s : string) : string :=
  match s with
  | EmptyString => EmptyString
  | String c s => String (to_ascii_uppercase_char c) (to_ascii_uppercase s)
  end.

(** [BTreeMap::insert] *)
Fixpoint map_insert (k v : string) (m : list (string * string)) : list (string * string) :=
  match m with
  | [] => [(k, v)]
  | (k', v') :: m' =>
      match cmp k k' with
      | Lt => (k, v) :: m
      | Eq => (k, v) :: m'
      | Gt => (k', v') :: map_insert k v m'
      end
  end.

(** The entries of the host, then those of the request *)
Definition environment_map (host : list (string * option string)) (entries : list string)
    : res (list (string * string)) :=
  let base := fold_left (λ m '(name, value),
    match value with
    | Some v => map_insert (to_ascii_uppercase name) v m
    | None => m
    end) host [] in
  try_fold (λ m entry,
    '(k, v) ← ok_or (split_once "=" entry) "HOST_ADMIN_ENV_INVALID";
    Ok (map_insert (to_ascii_uppercase k) v m)) base entries.

Definition environment_block (env : list (string * string)) : list Z :=
  let block := flat_map (λ '(k, v), wide (k +:+ "=" +:+ v)) env ++ [0] in
  if Z.of_nat (length block) =? 1 then block ++ [0] else block.

(** ** Calls *)

(** [fs::symlink_metadata]: the file is there, is not there, or the error is another *)
Inductive metadata : Set := Present | NotFound | Unavailable.

Inductive admin_call : Type → Type :=
(** the process *)
| CreateJobObject : admin_call bool
| SetJobLimits : admin_call bool
| CreatePipe (parent_reads : bool) : admin_call (res unit)
| InheritHandles : admin_call (res unit)
| EnvVar (name : string) : admin_call (option string)
| CreateProcess (application command environment cwd : list Z) : admin_call bool
| AssignProcess : admin_call bool
| TerminateProcess (code : Z) : admin_call unit
| ResumeThread : admin_call Z
| WaitForProcess (milliseconds : Z) : admin_call Z
| TerminateJob (code : Z) : admin_call bool
| GetExitCode : admin_call (option Z)
| WriterFinished : admin_call bool
| JoinWriter : admin_call (option (res Z))
| JoinStdout : admin_call (option pipe_log)
| JoinStderr : admin_call (option pipe_log)
(** the exchange and the journal *)
| TransportMetadata : admin_call metadata
| CheckConsole : admin_call (res unit)
| CompetingMetadata (host_intent : bool) : admin_call metadata
| CheckJournal : admin_call (res unit)
| OpenTransport : admin_call (res bytes)
| ReadPrivateKey : admin_call (res bytes)
| Clock : admin_call (option Z)
| JournalMetadata (name : string) : admin_call metadata
| ReadJournal : admin_call (option (list (option string)))
| VerifyAcl (name : string) : admin_call (res unit)
| BoundMachine : admin_call (res string)
| ReadJournalFile (name : string) : admin_call (res bytes)
| CurrentAuthority (machine operation : string) (requested : Z) (private : bytes)
    : admin_call (res (bytes * bytes))
| RequestAuthorization (raw : bytes) : admin_call (res FleetNativeAdminAuthorization)
| CreateNewFile (name : string) : admin_call bool
| WriteSync (name : string) (b : bytes) : admin_call bool
| RemoveJournalFile (name : string) : admin_call bool
| WriteResult (b : bytes) : admin_call bool
| ConsumeTransport : admin_call (res unit).

Abbreviation prog := (fservice admin_call string).

(** [if !call { return Err(e) }] *)
Definition require (c : admin_call bool) (e : string) : prog unit :=
  b ← invoke c; pure_step (fail_if (negb b) e).

(** [thread.join().map_err(..)??]: the thread ran [body] on what it met *)
Definition join_thread {A B} (body : A → res B) (c : admin_call (option A)) (e : string)
    : prog B :=
  r ← invoke c; a ← pure_step (ok_or r e); pure_step (body a).

(** ** The process *)

Definition WAIT_OBJECT_0 : Z := 0.
Definition WAIT_TIMEOUT : Z := 258.
(** [exit as i32] *)
Definition u32_as_i32 (z : Z) : Z := if z <? 2 ^ 31 then z else z - 2 ^ 32.

Section Run.
Context `{Message FleetNativeAdminRequest} `{Sha256}.

(** The evidence [run] returns *)
Definition run_result (request : FleetNativeAdminRequest) (timeout : bool) (exit written : Z)
    (out err : Stream) : FleetNativeAdminResult := {|
  ares_schema_version := 0; ares_machine_id := ""; ares_operation_id := "";
  ares_request_sha256 := []; ares_observed_at_unix := 0;
  ares_exit_code := if timeout then 124 else u32_as_i32 exit;
  ares_stdout_sha256 := str_digest out; ares_stderr_sha256 := str_digest err;
  ares_process_exited := true; ares_root_signature := [];
  ares_stdout_preview := if areq_publish_output request then str_preview out else [];
  ares_stderr_preview := if areq_publish_output request then str_preview err else [];
  ares_stdout_total_bytes := str_total out; ares_stderr_total_bytes := str_total err;
  ares_stdout_truncated := PREVIEW <? str_total out;
  ares_stderr_truncated := PREVIEW <? str_total err;
  ares_stdout_capture_path := ""; ares_stderr_capture_path := "";
  ares_stdout_capture_bytes := str_saved out; ares_stderr_capture_bytes := str_saved err;
  ares_stdout_capture_complete := str_saved out =? str_total out;
  ares_stderr_capture_complete := str_saved err =? str_total err;
  ares_stdout_stream_eof := str_eof out; ares_stderr_stream_eof := str_eof err;
  ares_stdin_bytes_written := written;
  ares_stdin_input_complete := written =? blen (areq_stdin_bytes request);
  ares_rejected_before_begin := false; ares_rejection_code := "";
  ares_worker_authorization := None
|}.

Definition run (request : FleetNativeAdminRequest) : prog FleetNativeAdminResult :=
  pure_step (validate_for_kind request FleetHostKind_Windows) ;;
  require CreateJobObject "HOST_ADMIN_JOB_CREATE_FAILED_NO_REPLAY" ;;
  require SetJobLimits "HOST_ADMIN_JOB_LIMITS_FAILED_NO_REPLAY" ;;
  invoke_res (CreatePipe false) ;;
  invoke_res (CreatePipe true) ;;
  invoke_res (CreatePipe true) ;;
  invoke_res InheritHandles ;;
  let application := wide (hd "" (areq_argv request)) in
  let command := wide (command_line (areq_argv request)) in
  system_root ← invoke (EnvVar "SystemRoot");
  windir ← invoke (EnvVar "WINDIR");
  env ← pure_step (environment_map [("SystemRoot", system_root); ("WINDIR", windir)]
                     (areq_environment request));
  let cwd := wide (if str_empty (areq_working_directory request) then "C:\"
                   else areq_working_directory request) in
  require (CreateProcess application command (environment_block env) cwd)
    "HOST_ADMIN_PROCESS_START_FAILED_NO_REPLAY" ;;
  assigned ← invoke AssignProcess;
  if negb assigned then
    invoke (TerminateProcess 125) ;;
    invoke (WaitForProcess 5000) ;;
    pure_step (Err "HOST_ADMIN_JOB_ASSIGNMENT_FAILED_NO_EXECUTION")
  else
    resumed ← invoke ResumeThread;
    pure_step (fail_if (resumed =? u32_max) "HOST_ADMIN_RESUME_UNKNOWN_NO_REPLAY") ;;
    wait ← invoke (WaitForProcess (areq_timeout_seconds request * 1000));
    let timeout := wait =? WAIT_TIMEOUT in
    pure_step (fail_if (negb (wait =? WAIT_OBJECT_0) && negb timeout)
      "HOST_ADMIN_WAIT_UNKNOWN_NO_REPLAY") ;;
    require (TerminateJob (if timeout then 124 else 125))
      "HOST_ADMIN_JOB_TERMINATION_UNKNOWN_NO_REPLAY" ;;
    exited ← invoke (WaitForProcess 5000);
    pure_step (fail_if (negb (exited =? WAIT_OBJECT_0)) "HOST_ADMIN_EXIT_UNKNOWN_NO_REPLAY") ;;
    code ← invoke GetExitCode;
    exit ← pure_step (ok_or code "HOST_ADMIN_EXIT_CODE_UNKNOWN_NO_REPLAY");
    require WriterFinished "HOST_ADMIN_STDIN_DRAIN_UNKNOWN_NO_REPLAY" ;;
    written ← join_thread (λ r, r) JoinWriter "HOST_ADMIN_STDIN_JOIN_UNKNOWN_NO_REPLAY";
    out ← join_thread drain JoinStdout "HOST_ADMIN_STDOUT_JOIN_UNKNOWN_NO_REPLAY";
    err ← join_thread drain JoinStderr "HOST_ADMIN_STDERR_JOIN_UNKNOWN_NO_REPLAY";
    mret (run_result request timeout exit written out err).
End Run.

(** ** The drain keeps what it should *)

Lemma blen_app (a b : bytes) : blen (a ++ b) = blen a + blen b.
Proof. unfold blen. rewrite length_app. lia. Qed.

(** What a drain has done after reading [all] *)
Definition drained (all : bytes) (s : drain_state) : Prop :=
  dr_hashed s = all ∧ dr_total s = blen all ∧
  dr_preview s = firstn (Z.to_nat PREVIEW) all ∧
  dr_spool s = firstn (Z.to_nat CAPTURE) all ∧ dr_saved s = Z.min (blen all) CAPTURE.

(** Extending a prefix of bounded length *)
Lemma firstn_extend (limit k : Z) (all buf : bytes) :
  0 ≤ limit → k = Z.min (blen buf) (Z.max (limit - Z.min (blen all) limit) 0) →
  firstn (Z.to_nat limit) all ++ firstn (Z.to_nat k) buf
  = firstn (Z.to_nat limit) (all ++ buf).
Proof.
  intros Hl ->. rewrite firstn_app. f_equal.
  unfold blen. destruct (Z.le_gt_cases (Z.of_nat (length buf))
    (Z.max (limit - Z.min (Z.of_nat (length all)) limit) 0)).
  - rewrite Z.min_l by done. rewrite !firstn_all2; [done|lia|lia].
  - rewrite Z.min_r by lia. f_equal. lia.
Qed.

Lemma blen_firstn n (b : bytes) : 0 ≤ n → blen (firstn (Z.to_nat n) b) = Z.min (blen b) n.
Proof. intros. unfold blen. rewrite length_firstn. lia. Qed.

Lemma blen_nonneg (b : bytes) : 0 ≤ blen b.
Proof. unfold blen. lia. Qed.

Lemma PREVIEW_pos : 0 < PREVIEW. Proof. done. Qed.
Lemma CAPTURE_pos : 0 < CAPTURE. Proof. done. Qed.

Lemma drain_chunk_step all s buf : drained all s → drained (all ++ buf) (drain_chunk s buf).
Proof.
  generalize PREVIEW_pos CAPTURE_pos. intros Hpp Hcp (<- & Ht & Hp & Hs & Hk).
  pose proof (blen_nonneg (dr_hashed s)). pose proof (blen_nonneg buf).
  unfold drain_chunk, drained, saturating_sub, prefix.
  cbn [dr_hashed dr_total dr_preview dr_spool dr_saved]. rewrite Ht, Hp, Hs, Hk, blen_app.
  split_and!; [done|done| | |].
  - apply firstn_extend; [apply Z.lt_le_incl, Hpp|].
    rewrite blen_firstn by (apply Z.lt_le_incl, Hpp). done.
  - apply firstn_extend; [apply Z.lt_le_incl, Hcp|done].
  - revert Hcp. generalize CAPTURE. intros. lia.
Qed.

Lemma capture_chunk_step all s buf :
  blen (all ++ buf) ≤ u64_max → drained all s → drained (all ++ buf) (capture_chunk true s buf).
Proof.
  intros Hmax Hd. pose proof (drain_chunk_step all s buf Hd) as Hstep.
  enough (capture_chunk true s buf = drain_chunk s buf) as -> by done.
  destruct Hd as (<- & Ht & _). rewrite blen_app in Hmax.
  unfold capture_chunk, drain_chunk, prefix, u64_saturating_add, saturating_sub. cbn [andb].
  rewrite !(Z.min_comm _ (blen buf)), Ht.
  pose proof (blen_nonneg buf).
  destruct (Z.ltb_spec 0 (Z.min (blen buf) (Z.max (CAPTURE - dr_saved s) 0))) as [_|Hz].
  - f_equal. lia.
  - replace (Z.min (blen buf) (Z.max (CAPTURE - dr_saved s) 0)) with 0
      by (revert Hz; generalize CAPTURE; intros; lia).
    cbn [Z.to_nat firstn]. rewrite app_nil_r, Z.add_0_r. f_equal. lia.
Qed.

Lemma drained_start : drained [] drain_start.
Proof.
  unfold drained. cbn. rewrite !firstn_nil. split_and!; try done.
Qed.

Lemma fold_drained f (P : bytes → Prop) chunks :
  (∀ all s buf, P (all ++ buf) → drained all s → drained (all ++ buf) (f s buf)) →
  (∀ a b, P (a ++ b) → P a) →
  ∀ all s, P (all ++ mjoin chunks) → drained all s →
  drained (all ++ mjoin chunks) (fold_left f chunks s).
Proof.
  intros Hf Hmono. induction chunks as [|buf chunks IH]; intros all s HP Hd; cbn in *.
  - by rewrite app_nil_r.
  - rewrite app_assoc in HP |- *. apply IH; [done|]. apply Hf; [|done]. by apply (Hmono _ (mjoin chunks)).
Qed.
