(* ===== verification/AdminDispatch.v ===== *)
(** * Dispatching an administrative request

    [edge-console/src/windows_admin.rs]: the dispatcher of the SYSTEM task reads the request
    in the exchange, has it authorized, records that it begins, runs it, and records and
    delivers a signed receipt; a request that cannot begin gets a signed denial. The names
    of the protected journal say what has begun ([admin-ID.pending.pb]) and what has ended
    ([admin-ID.terminal.pb]).

    A program may be stopped at any of its calls. The state holds the files of the journal,
    the process that was created suspended, and the processes that were resumed. *)

From S2P Require Import Prelude RustStd RustText RustUtf HostTypes Service HostAdmin.
From S2P Require Import AdminCommand AdminProcess.

(** ** Admission *)

Definition check_journal_entry (name id : string) (admin recovery : bool) : res unit :=
  fail_if (admin && recovery) "HOST_WINDOWS_ADMIN_RECOVERY_SCOPE_INVALID" ;;
  fail_if ((admin && (str_eqb name ("admin-" +:+ id +:+ ".pending.pb")
                      || str_eqb name ("admin-" +:+ id +:+ ".terminal.pb")))
           || (negb admin && (str_eqb name (id +:+ ".pb") || starts_with (id +:+ ".") name)))
    "HOST_WINDOWS_OPERATION_EXISTS_NO_REPLAY" ;;
  fail_if (ends_with ".pending.pb" name && negb (starts_with "resource-" name && recovery))
    "HOST_WINDOWS_PENDING_GATE_NO_REPLAY".

(** [process::sha(operation.as_bytes())] in hexadecimal *)
Definition journal_id `{Sha256} (operation : string) : string :=
  hex_of_bytes (sha256 (as_bytes operation)).
Definition pending_name (id : string) : string := "admin-" +:+ id +:+ ".pending.pb".
Definition terminal_name (id : string) : string := "admin-" +:+ id +:+ ".terminal.pb".
Definition stdout_name (id : string) : string := "admin-" +:+ id +:+ ".stdout.bin".
Definition stderr_name (id : string) : string := "admin-" +:+ id +:+ ".stderr.bin".

(** The loop over the entries of the directory; [skip] is a name that is not checked *)
Fixpoint check_entries (skip : option string) (id : string) (admin recovery : bool)
    (entries : list (option string)) : prog unit :=
  match entries with
  | [] => mret tt
  | entry :: entries =>
      name ← pure_step (ok_or entry "HOST_WINDOWS_JOURNAL_UNAVAILABLE");
      invoke_res (VerifyAcl name) ;;
      (if bool_decide (skip = Some name) then mret tt
       else pure_step (check_journal_entry name id admin recovery)) ;;
      check_entries skip id admin recovery entries
  end.
Definition check_directory (skip : option string) (id : string) (admin recovery : bool)
    : prog unit :=
  listed ← invoke ReadJournal;
  entries ← pure_step (ok_or listed "HOST_WINDOWS_JOURNAL_UNAVAILABLE");
  check_entries skip id admin recovery entries.

Definition request_available `{Sha256} (operation : string) (admin recovery : bool)
    : prog unit :=
  check_directory None (journal_id operation) admin recovery.

Definition reject_competing_request (host_intent : bool) : prog unit :=
  m ← invoke (CompetingMetadata host_intent);
  pure_step match m with
            | Present => Err "HOST_WINDOWS_COMPETING_REQUEST"
            | NotFound => Ok tt
            | Unavailable => Err "HOST_WINDOWS_COMPETING_REQUEST_METADATA_UNAVAILABLE"
            end.

(** ** Records *)

Definition create (name : string) (b : bytes) : prog unit :=
  require (CreateNewFile name) "HOST_ADMIN_RECORD_EXISTS_OR_UNAVAILABLE_NO_REPLAY" ;;
  invoke_res (VerifyAcl name) ;;
  require (WriteSync name b) "HOST_ADMIN_RECORD_SYNC_UNKNOWN_NO_REPLAY".

(** The closure [capture] *)
Definition create_capture (name : string) : prog unit :=
  require (CreateNewFile name) "HOST_ADMIN_CAPTURE_UNAVAILABLE_NO_REPLAY" ;;
  invoke_res (VerifyAcl name).

(** [fs::symlink_metadata] of a file of the journal: whether it is there *)
Definition journal_exists (name e : string) : prog bool :=
  m ← invoke (JournalMetadata name);
  pure_step match m with
            | Present => Ok true
            | NotFound => Ok false
            | Unavailable => Err e
            end.

(** [SystemTime::now().duration_since(UNIX_EPOCH)] *)
Definition clock : prog Z := now ← invoke Clock; pure_step (ok_or now "HOST_ADMIN_CLOCK_INVALID").

(** The value of an [async] block whose error is handled *)
Definition attempt {A} (p : prog A) : prog (res A) := service_bind p (λ r, Return (Ok r)).

Section Dispatch.
Context `{Message FleetNativeAdminRequest} `{Sha256} `{Message FleetNativeAdminResult}
  `{Ed25519}.
(** [root.join("native-host/journal").to_string_lossy()] *)
Context (journal_dir : string).

Definition capture_path (name : string) : string := journal_dir +:+ "\" +:+ name.

(** ** Denial *)

(** The denial of an earlier run, checked against the request *)
Definition recorded_denial (request : FleetNativeAdminRequest) (private : bytes) (id : string)
    : prog bytes :=
  check_directory (Some (terminal_name id)) id true false ;;
  bytes ← invoke_res (ReadJournalFile (terminal_name id));
  receipt ← pure_step (ok_or (decode bytes) "HOST_ADMIN_DENIAL_PROTO_INVALID");
  key ← pure_step (ok_or (ed25519_public_key private) "HOST_ADMIN_DENIAL_SIGNER_INVALID");
  pure_step (verify_receipt request receipt key) ;;
  pure_step (fail_if (negb (ares_rejected_before_begin receipt)
                      || negb (bytes_eqb (encode_to_vec receipt) bytes))
    "HOST_ADMIN_DENIAL_REPLAY_UNPROVEN") ;;
  mret bytes.

Definition fresh_denial (request : FleetNativeAdminRequest) (private : bytes) (now : Z)
    (reason id : string) : prog bytes :=
  request_available (operation_id request) true false ;;
  receipt ← pure_step (prebegin_rejection request now reason);
  receipt ← pure_step (sign_receipt request receipt private);
  create (terminal_name id) (encode_to_vec receipt) ;;
  mret (encode_to_vec receipt).

Definition deny_before_begin (request : FleetNativeAdminRequest) (private : bytes) (now : Z)
    (reason : string) : prog bool :=
  bound ← invoke_res BoundMachine;
  pure_step (fail_if (negb (str_eqb (areq_machine_id request) bound))
    "HOST_ADMIN_EXPIRED_MACHINE_MISMATCH") ;;
  let id := journal_id (operation_id request) in
  there ← journal_exists (terminal_name id) "HOST_ADMIN_DENIAL_METADATA_UNAVAILABLE_NO_REPLAY";
  bytes ← (if there : bool then recorded_denial request private id
           else fresh_denial request private now reason id);
  require (WriteResult bytes) "HOST_ADMIN_DENIAL_DELIVERY_UNKNOWN_NO_REPLAY" ;;
  invoke_res ConsumeTransport ;;
  mret true.

(** ** Execution *)

(** The block [prepared] *)
Definition prepare (raw : bytes) (request : FleetNativeAdminRequest) (private : bytes)
    : prog FleetNativeAdminAuthorization :=
  trust ← invoke_res (CurrentAuthority (areq_machine_id request) (operation_id request)
                        (areq_requested_at_unix request) private);
  pure_step (fail_if (negb (bytes_eqb (sha256 (fst trust)) (areq_release_set_sha256 request)))
    "HOST_ADMIN_RELEASE_MISMATCH") ;;
  auth ← invoke_res (RequestAuthorization raw);
  now ← clock;
  pure_step (verify_authorization request auth (snd trust) now) ;;
  mret auth.

(** The assignments to [receipt] after [process::run] *)
Definition complete_receipt (raw : bytes) (request : FleetNativeAdminRequest)
    (auth : FleetNativeAdminAuthorization) (observed : Z) (out_path err_path : string)
    (r : FleetNativeAdminResult) : FleetNativeAdminResult := {|
  ares_schema_version := 1; ares_machine_id := areq_machine_id request;
  ares_operation_id := operation_id request; ares_request_sha256 := sha256 raw;
  ares_worker_authorization := Some auth; ares_observed_at_unix := observed;
  ares_stdout_capture_path := out_path; ares_stderr_capture_path := err_path;
  ares_exit_code := ares_exit_code r;
  ares_stdout_sha256 := ares_stdout_sha256 r; ares_stderr_sha256 := ares_stderr_sha256 r;
  ares_process_exited := ares_process_exited r; ares_root_signature := ares_root_signature r;
  ares_stdout_preview := ares_stdout_preview r; ares_stderr_preview := ares_stderr_preview r;
  ares_stdout_total_bytes := ares_stdout_total_bytes r;
  ares_stderr_total_bytes := ares_stderr_total_bytes r;
  ares_stdout_truncated := ares_stdout_truncated r;
  ares_stderr_truncated := ares_stderr_truncated r;
  ares_stdout_capture_bytes := ares_stdout_capture_bytes r;
  ares_stderr_capture_bytes := ares_stderr_capture_bytes r;
  ares_stdout_capture_complete := ares_stdout_capture_complete r;
  ares_stderr_capture_complete := ares_stderr_capture_complete r;
  ares_stdout_stream_eof := ares_stdout_stream_eof r;
  ares_stderr_stream_eof := ares_stderr_stream_eof r;
  ares_stdin_bytes_written := ares_stdin_bytes_written r;
  ares_stdin_input_complete := ares_stdin_input_complete r;
  ares_rejected_before_begin := ares_rejected_before_begin r;
  ares_rejection_code := ares_rejection_code r
|}.

(** From [process::run] to the end of the dispatch *)
Definition execute_begun (raw : bytes) (request : FleetNativeAdminRequest) (private : bytes)
    (auth : FleetNativeAdminAuthorization) (id : string) : prog bool :=
  evidence ← run request;
  observed ← clock;
  receipt ← pure_step (sign_receipt request
    (complete_receipt raw request auth observed (capture_path (stdout_name id))
       (capture_path (stderr_name id)) evidence) private);
  create (terminal_name id) (encode_to_vec receipt) ;;
  let complete := ares_process_exited receipt && ares_stdin_input_complete receipt
    && ares_stdout_stream_eof receipt && ares_stderr_stream_eof receipt in
  (if complete then
     require (RemoveJournalFile (pending_name id)) "HOST_ADMIN_PENDING_CLEAR_UNKNOWN_NO_REPLAY"
   else mret tt) ;;
  require (WriteResult (encode_to_vec receipt))
    "HOST_ADMIN_RECEIPT_DELIVERY_UNKNOWN_NO_REPLAY" ;;
  invoke_res ConsumeTransport ;;
  pure_step (fail_if (negb complete) "HOST_ADMIN_COMPLETION_INCOMPLETE_NO_REPLAY") ;;
  mret true.

(** From the authorization to the beginning *)
Definition begin (raw : bytes) (request : FleetNativeAdminRequest) (private : bytes)
    (auth : FleetNativeAdminAuthorization) : prog bool :=
  let id := journal_id (operation_id request) in
  there ← journal_exists (terminal_name id) "HOST_ADMIN_TERMINAL_METADATA_UNAVAILABLE_NO_REPLAY";
  pure_step (fail_if there "HOST_ADMIN_SAME_OPERATION_EXISTS_NO_REPLAY") ;;
  request_available (operation_id request) true false ;;
  create (pending_name id) raw ;;
  create_capture (stdout_name id) ;;
  create_capture (stderr_name id) ;;
  execute_begun raw request private auth id.

Definition dispatch_if_present : prog bool :=
  m ← invoke TransportMetadata;
  match m with
  | NotFound => mret false
  | Unavailable => pure_step (Err "HOST_ADMIN_REQUEST_METADATA_UNAVAILABLE")
  | Present =>
      invoke_res CheckConsole ;;
      reject_competing_request false ;;
      reject_competing_request true ;;
      invoke_res CheckJournal ;;
      raw ← invoke_res OpenTransport;
      request ← pure_step (decode_request raw);
      pure_step (validate_for_kind request FleetHostKind_Windows) ;;
      invoke_res (VerifyAcl "receipt-key.pk8") ;;
      private ← invoke_res ReadPrivateKey;
      now ← clock;
      terminal_exists ← journal_exists (terminal_name (journal_id (operation_id request)))
        "HOST_ADMIN_TERMINAL_METADATA_UNAVAILABLE_NO_REPLAY";
      if expired_before_begin request now || (terminal_exists : bool) then
        deny_before_begin request private now "HOST_ADMIN_REQUEST_EXPIRED_BEFORE_BEGIN"
      else
        request_available (operation_id request) true false ;;
        prepared ← attempt (prepare raw request private);
        match prepared with
        | Ok auth => begin raw request private auth
        | Err reason =>
            now ← clock;
            deny_before_begin request private now reason
        end
  end.

(** A handoff of the code leaves a request only when it has expired and never began *)
Definition preflight_expired_transport_handoff : prog unit :=
  m ← invoke TransportMetadata;
  match m with
  | NotFound => mret tt
  | Unavailable => pure_step (Err "HOST_ADMIN_HANDOFF_REQUEST_METADATA_UNPROVEN")
  | Present =>
      raw ← invoke_res OpenTransport;
      request ← pure_step (decode_request raw);
      pure_step (validate_for_kind request FleetHostKind_Windows) ;;
      now ← clock;
      bound ← invoke_res BoundMachine;
      pure_step (fail_if (negb (str_eqb (areq_machine_id request) bound)
                          || negb (expired_before_begin request now))
        "HOST_ADMIN_HANDOFF_REQUIRES_EXPIRED_UNSTARTED_REQUEST") ;;
      request_available (operation_id request) true false
  end.
End Dispatch.
