(* ===== verification/AdminDispatchFacts.v ===== *)
(** * What a history of administrative requests executes

    The dispatcher may stop at every call and is started again, for the same or another
    request; other parts of the console write to the journal in between, but never remove an
    administrative record. Each operation is executed at most once, what is executed is the
    authorized command, and a pending record of any kind stops every request. *)

From S2P Require Import Prelude RustStd RustText RustUtf HostTypes Service CrashLogic HostAdmin.
From S2P Require Import ApplicationBundle AdminCommand AdminProcess AdminDispatch.

(** ** The machine *)

Record process : Set := {
  pr_application : list Z; pr_command : list Z; pr_environment : list Z; pr_directory : list Z
}.

(** [ms_process]: created, suspended; [ms_executed]: resumed, with the bytes of the request
    in whose dispatch; [ms_result]: the result in the exchange *)
Record machine_state : Type := {
  ms_files : gmap string bytes; ms_process : option process;
  ms_executed : list (bytes * process); ms_result : option bytes
}.
Definition with_files (s : machine_state) f : machine_state := {|
  ms_files := f; ms_process := ms_process s; ms_executed := ms_executed s;
  ms_result := ms_result s |}.
Definition with_process (s : machine_state) p : machine_state := {|
  ms_files := ms_files s; ms_process := p; ms_executed := ms_executed s;
  ms_result := ms_result s |}.
Definition with_result (s : machine_state) r : machine_state := {|
  ms_files := ms_files s; ms_process := ms_process s; ms_executed := ms_executed s;
  ms_result := r |}.
(** The suspended process runs. *)
Definition resume (raw : bytes) (s : machine_state) : machine_state := {|
  ms_files := ms_files s; ms_process := None;
  ms_executed := ms_executed s ++
    match ms_process s with Some p => [(raw, p)] | None => [] end;
  ms_result := ms_result s |}.

Section Machine.
(** The bytes of the request in the exchange, the pinned key of the Worker, the release the
    machine runs and the private key of the owner *)
Context (raw worker private : bytes).

Definition admin_step (R : Type) (c : admin_call R) (s : machine_state) : R → machine_state → Prop :=
  match c in admin_call R return R → machine_state → Prop with
  | CreateProcess a c e d => λ ok s',
      if ok : bool then s' = with_process s (Some {| pr_application := a; pr_command := c;
                                             pr_environment := e; pr_directory := d |})
      else s' = s
  | TerminateProcess _ => λ _ s', s' = with_process s None
  | ResumeThread => λ n s', s' = resume raw s ∨ (n = u32_max ∧ s' = s)
  | OpenTransport => λ r s', s' = s ∧ ∀ b, r = Ok b → b = raw
  | ReadPrivateKey => λ r s', s' = s ∧ ∀ b, r = Ok b → b = private
  | CurrentAuthority _ _ _ _ => λ r s', s' = s ∧ ∀ t, r = Ok t → snd t = worker
  | JournalMetadata name => λ m s', s' = s ∧
      (m = Present → is_Some (ms_files s !! name)) ∧ (m = NotFound → ms_files s !! name = None)
  | ReadJournal => λ r s', s' = s ∧ ∀ entries, r = Some entries → Forall is_Some entries →
      ∀ name, is_Some (ms_files s !! name) → Some name ∈ entries
  | ReadJournalFile name => λ r s', s' = s ∧ ∀ b, r = Ok b → ms_files s !! name = Some b
  | CreateNewFile name => λ ok s',
      (ms_files s !! name = None ∧ s' = with_files s (<[name := []]> (ms_files s)))
      ∨ (ok = false ∧ s' = s)
  | WriteSync name b => λ ok s', ∃ b', s' = with_files s (<[name := b']> (ms_files s)) ∧
      (ok = true → b' = b)
  | RemoveJournalFile name => λ ok s',
      s' = with_files s (delete name (ms_files s)) ∨ (ok = false ∧ s' = s)
  | WriteResult b => λ ok s', ∃ b', s' = with_result s b' ∧ (ok = true → b' = Some b)
  | _ => λ _ s', s' = s
  end.

Abbreviation alw := (always admin_step).

(** A program that changes nothing *)
Definition quiet {A} (p : prog A) (Q : A → machine_state → Prop) : Prop :=
  ∀ s, alw (λ s', s' = s) p (ends (λ a _, Q a s) (λ _, True)) s.

Lemma quiet_bind {A B} (p : prog A) (f : A → prog B) Q Q' :
  quiet p Q → (∀ a s, Q a s → alw (λ s', s' = s) (f a) (ends (λ a _, Q' a s) (λ _, True)) s) →
  quiet (p ≫= f) Q'.
Proof.
  intros Hp Hf s. apply always_bind. eapply always_mono; [| |apply Hp]; [done|].
  intros [a|e] s' -> HQ; simpl in *; [by apply Hf|done].
Qed.
Lemma quiet_pure {A B} (r : res A) (f : A → prog B) Q :
  (∀ a, r = Ok a → quiet (f a) Q) → quiet (pure_step r ≫= f) Q.
Proof. intros Hf s. apply always_pure; [done..|]. intros a Ha. by apply Hf. Qed.
Lemma quiet_ret {A} (a : A) (Q : A → machine_state → Prop) : (∀ s, Q a s) → quiet (mret a) Q.
Proof. intros HQ s. by apply always_ret. Qed.
Lemma quiet_end {A} (r : res A) (Q : A → machine_state → Prop) :
  (∀ a s, r = Ok a → Q a s) → quiet (pure_step r) Q.
Proof. intros HQ s. apply always_return; [done|]. destruct r; simpl; auto. Qed.
Lemma quiet_invoke {A R} (c : admin_call R) (f : R → prog A) Q :
  (∀ s r s', admin_step R c s r s' →
     s' = s ∧ alw (λ s', s' = s) (f r) (ends (λ a _, Q a s) (λ _, True)) s) →
  quiet (invoke c ≫= f) Q.
Proof. intros Hf s. apply always_call; [done|]. intros r s' Hs. by destruct (Hf _ _ _ Hs) as [-> ?]. Qed.
Lemma quiet_res {A} (c : admin_call (res A)) (Q : A → machine_state → Prop) :
  (∀ s r s', admin_step _ c s r s' → s' = s ∧ ∀ a, r = Ok a → Q a s) → quiet (invoke_res c) Q.
Proof.
  intros Hc s. apply always_invoke; [done|]. intros r s' Hs.
  destruct (Hc _ _ _ Hs) as [-> HQ]. apply always_return; [done|]. destruct r; simpl; auto.
Qed.

(** A quiet program before another *)
Lemma always_quiet {A B} I (p : prog A) (f : A → prog B) Q Q' (Z : machine_state → Prop) s :
  quiet p Q → I s → Z s → (∀ a, Q a s → alw I (f a) (ends Q' Z) s) →
  alw I (p ≫= f) (ends Q' Z) s.
Proof.
  intros Hp HI HZ Hf. apply always_bind. eapply always_mono; [| |apply Hp].
  - by intros ? ->.
  - intros [a|e] s' -> HQ; simpl in *; [by apply Hf|done].
Qed.

(** ** The readings of the dispatcher *)

Lemma clock_quiet : quiet clock (λ _ _, True).
Proof.
  apply quiet_invoke. intros s r s' ->. split; [done|]. by apply quiet_end.
Qed.
Lemma competing_quiet b : quiet (reject_competing_request b) (λ _ _, True).
Proof.
  apply quiet_invoke. intros s r s' ->. split; [done|]. by apply quiet_end.
Qed.
Lemma journal_exists_quiet name e :
  quiet (journal_exists name e) (λ b s, b = bool_decide (is_Some (ms_files s !! name))).
Proof.
  apply quiet_invoke. intros s m s' [-> [Hp Hn]]. split; [done|]. apply always_return; [done|].
  destruct m; simpl; [|rewrite (Hn eq_refl)|done].
  - symmetry. apply bool_decide_eq_true. auto.
  - symmetry. apply bool_decide_eq_false. by intros [].
Qed.

(** Every name was tested, but the one to skip. *)
Lemma check_entries_quiet skip id admin recovery entries :
  quiet (check_entries skip id admin recovery entries) (λ _ _, Forall is_Some entries ∧
    ∀ name, Some name ∈ entries → skip = Some name ∨
      check_journal_entry name id admin recovery = Ok tt).
Proof.
  induction entries as [|entry entries IH]; cbn [check_entries].
  - apply quiet_ret. intros _. split; [constructor|]. by intros name ?%elem_of_nil.
  - apply quiet_pure. intros name Hname. destruct entry as [n|]; [|done]. injection Hname as ->.
    apply (quiet_bind _ _ (λ _ _, True)); [by apply quiet_res; intros ??? ->|].
    intros _ s _. revert s.
    change (quiet ((if bool_decide (skip = Some name) then mret tt
      else pure_step (check_journal_entry name id admin recovery)) ;;
      check_entries skip id admin recovery entries) (λ _ _, Forall is_Some (Some name :: entries) ∧
      ∀ name', Some name' ∈ Some name :: entries → skip = Some name' ∨
      check_journal_entry name' id admin recovery = Ok tt)).
    apply (quiet_bind _ _ (λ _ _, skip = Some name ∨
      check_journal_entry name id admin recovery = Ok tt)).
    + case_bool_decide; [apply quiet_ret; by left|]. apply quiet_end. intros [] _ ?. by right.
    + intros _ s Hn. eapply always_mono; [| |apply IH]; [done|].
      intros [[]|] s' -> HQ; simpl in *; [|done]. destruct HQ as [Hs Hall].
      split; [by constructor|]. intros name' [Heq|?]%elem_of_cons; [|auto]. by injection Heq as ->.
Qed.
Lemma check_directory_quiet skip id admin recovery :
  quiet (check_directory skip id admin recovery) (λ _ s, ∀ name, is_Some (ms_files s !! name) →
    skip = Some name ∨ check_journal_entry name id admin recovery = Ok tt).
Proof.
  apply quiet_invoke. intros s r s' [-> Hr]. split; [done|].
  apply always_pure; [done..|]. intros entries He. destruct r as [es|]; [|done]. injection He as ->.
  eapply always_mono; [| |apply check_entries_quiet]; [done|].
  intros [[]|] s' -> HQ; simpl in *; [|done]. destruct HQ as [Hs Hall]. intros name Hname.
  apply Hall. by eapply Hr.
Qed.

(** ** Calls that change the state *)

Lemma always_require {A} I (c : admin_call bool) e (f : () → prog A) Q s :
  I s → (∀ ok s', admin_step _ c s ok s' →
    I s' ∧ (ok = true → alw I (f tt) (ends Q (λ _, True)) s')) →
  alw I (require c e ≫= f) (ends Q (λ _, True)) s.
Proof.
  intros HI Hc. apply always_bind, always_call; [done|]. intros ok s' Hs.
  destruct (Hc _ _ Hs) as [HI' Hf]. apply always_return; [done|].
  destruct ok; simpl; [by apply Hf|done].
Qed.
Lemma always_join {A B D} I (body : A → res B) (c : admin_call (option A)) e (f : B → prog D) Q s :
  I s → (∀ r s', admin_step _ c s r s' → s' = s) →
  (∀ a b, body a = Ok b → alw I (f b) (ends Q (λ _, True)) s) →
  alw I (join_thread body c e ≫= f) (ends Q (λ _, True)) s.
Proof.
  intros HI Hc Hf. unfold join_thread. apply always_bind, always_call; [done|].
  intros r s' ->%Hc. apply always_pure; [done..|]. intros a _. apply always_return; [done|].
  destruct (body a) as [b|] eqn:Hb; cbn [ends]; [by eapply Hf|done].
Qed.

(** A new file, complete when [create] succeeds *)
Definition put (name : string) (b : bytes) (s : machine_state) : machine_state :=
  with_files s (<[name := b]> (ms_files s)).

Lemma put_put name b b' s : put name b (put name b' s) = put name b s.
Proof. unfold put, with_files. simpl. by rewrite insert_insert_eq. Qed.

Lemma always_create {A} (I : machine_state → Prop) name b (f : () → prog A) Q s :
  I s → (∀ b', I (put name b' s)) →
  (ms_files s !! name = None → alw I (f tt) (ends Q (λ _, True)) (put name b s)) →
  alw I (create name b ≫= f) (ends Q (λ _, True)) s.
Proof.
  intros HI Hput Hf. apply always_bind. apply always_require; [done|].
  intros ok s' [[Hnone ->]|[-> ->]]; [|by split].
  split; [apply (Hput [])|]. intros _. apply always_res; [apply (Hput [])|].
  intros r s' ->. split; [done|]. intros [] _. apply always_call; [apply (Hput [])|].
  intros ok' s' (b' & -> & Hb). change (alw I (pure_step (fail_if (negb ok')
    "HOST_ADMIN_RECORD_SYNC_UNKNOWN_NO_REPLAY")) (ends (λ a, alw I (f a) (ends Q (λ _, True)))
    (λ _, True)) (put name b' (put name [] s))). rewrite put_put.
  apply always_return; [apply Hput|]. destruct ok'; simpl; [|done].
  rewrite Hb by done. by apply Hf.
Qed.
Lemma always_create_capture {A} (I : machine_state → Prop) name (f : () → prog A) Q s :
  I s → I (put name [] s) →
  (ms_files s !! name = None → alw I (f tt) (ends Q (λ _, True)) (put name [] s)) →
  alw I (create_capture name ≫= f) (ends Q (λ _, True)) s.
Proof.
  intros HI Hput Hf. apply always_bind. apply always_require; [done|].
  intros ok s' [[Hnone ->]|[-> ->]]; [|by split].
  split; [done|]. intros _. apply always_invoke; [done|].
  intros r s' ->. apply always_return; [done|]. destruct r as [[]|]; simpl; [|done]. by apply Hf.
Qed.
End Machine.

(** ** What runs *)

Section Runs.
Context `{Message FleetNativeAdminRequest} `{Sha256}.
Context (raw worker private : bytes).
Abbreviation alw := (always (admin_step raw worker private)).

(** The process of a request, in an environment *)
Definition process_of (request : FleetNativeAdminRequest) (env : list (string * string))
    : process := {|
  pr_application := wide (hd "" (areq_argv request));
  pr_command := wide (command_line (areq_argv request));
  pr_environment := environment_block env;
  pr_directory := wide (if str_empty (areq_working_directory request) then "C:\"
                        else areq_working_directory request) |}.
(** Its environment is the one the request lists over the locations of the host. *)
Definition denotes (request : FleetNativeAdminRequest) (p : process) : Prop :=
  ∃ system_root windir env,
    environment_map [("SystemRoot", system_root); ("WINDIR", windir)]
      (areq_environment request) = Ok env ∧ p = process_of request env.
(** The evidence is what the draining threads met. *)
Definition evidence_of (request : FleetNativeAdminRequest) (evidence : FleetNativeAdminResult)
    : Prop :=
  ∃ timeout exit written out err sout serr,
    drain out = Ok sout ∧ drain err = Ok serr ∧
    evidence = run_result request timeout exit written sout serr.

Lemma always_run {A} (I P P' : machine_state → Prop) request (f : _ → prog A) Q s :
  (∀ s, P s → I s) → (∀ s, P' s → I s) → (∀ s p, P s → P (with_process s p)) →
  (∀ s p, P s → denotes request p → P' (resume raw (with_process s (Some p)))) →
  P s →
  (∀ s evidence, P' s → evidence_of request evidence → alw I (f evidence) (ends Q (λ _, True)) s) →
  alw I (run request ≫= f) (ends Q (λ _, True)) s.
Proof.
  intros HPI HPI' Hproc Hres HP Hf. apply always_bind. unfold run.
  apply always_pure'; [auto|]. intros [] _.
  do 2 (apply always_require; [auto|]; intros ? ? ->; split; [auto|]; intros _).
  do 4 (apply always_res; [auto|]; intros ? ? ->; split; [done|]; intros ? _).
  apply always_call; [auto|]. intros system_root ? ->.
  apply always_call; [auto|]. intros windir ? ->.
  apply always_pure'; [auto|]. intros env Henv.
  apply always_require; [auto|]. intros [] s' ->; [|split; [auto|done]].
  set (p := {| pr_application := _ |}).
  assert (denotes request p) as Hp by (exists system_root, windir, env; done).
  pose proof (Hproc _ (Some p) HP) as HP1. split; [auto|]. intros _.
  apply always_call; [auto|]. intros [] ? ->; simpl negb; cbv iota.
  2: { apply always_call; [auto|]. intros ? ? ->. pose proof (Hproc _ None HP1).
       apply always_call; [auto|]. intros ? ? ->. apply always_return; [auto|done]. }
  apply always_call; [auto|]. intros n s1 Hs1.
  assert (s1 = resume raw (with_process s (Some p)) ∨ n = u32_max ∧ s1 = with_process s (Some p))
    as Hs2 by exact Hs1. clear Hs1. pose proof (Hres _ _ HP Hp) as HP2.
  assert (I s1) by (destruct Hs2 as [->|[_ ->]]; auto).
  apply always_pure'; [done|]. intros [] Hn.
  assert (s1 = resume raw (with_process s (Some p))) as ->.
  { destruct Hs2 as [->|[-> _]]; [done|]. by rewrite Z.eqb_refl in Hn. }
  apply always_call; [auto|]. intros wait ? ->. apply always_pure'; [auto|]. intros [] _.
  apply always_require; [auto|]. intros ? ? ->. split; [auto|]. intros _.
  apply always_call; [auto|]. intros exited ? ->. apply always_pure'; [auto|]. intros [] _.
  apply always_call; [auto|]. intros code ? ->. apply always_pure'; [auto|]. intros exit _.
  apply always_require; [auto|]. intros ? ? ->. split; [auto|]. intros _.
  apply always_join; [auto|by intros ???|]. intros lw written _.
  apply always_join; [auto|by intros ???|]. intros lo sout Hout.
  apply always_join; [auto|by intros ???|]. intros le serr Herr.
  apply always_ret; [auto|]. apply Hf; [done|].
  eexists _, _, _, _, _, _, _. split_and!; [exact Hout|exact Herr|done].
Qed.
End Runs.

(** ** Records of executions *)

Section Histories.
Context `{Message FleetNativeAdminRequest} `{Sha256} `{Message FleetNativeAdminResult}
  `{Ed25519Laws}.
Context (journal_dir : string) (worker private : bytes).

Definition id_of (request : FleetNativeAdminRequest) : string :=
  journal_id (operation_id request).
Definition request_id (raw : bytes) : option string :=
  match decode_request raw with Ok request => Some (id_of request) | Err _ => None end.

(** The bytes of the request are canonical, the request is valid for Windows, a
    authorization of the Worker was accepted for it, and the process is the one it names. *)
Definition executable (raw : bytes) (p : process) : Prop :=
  ∃ request, decode_request raw = Ok request ∧
    validate_for_kind request FleetHostKind_Windows = Ok tt ∧
    (∃ auth now, verify_authorization request auth worker now = Ok tt) ∧ denotes request p.
(** A record says that the operation began. *)
Definition recorded (files : gmap string bytes) (id : option string) : Prop :=
  ∃ i, id = Some i ∧ (is_Some (files !! pending_name i) ∨ is_Some (files !! terminal_name i)).

Definition admin_inv (s : machine_state) : Prop :=
  (∀ r p, (r, p) ∈ ms_executed s → executable r p ∧ recorded (ms_files s) (request_id r)) ∧
  NoDup ((λ e, request_id (fst e)) <$> ms_executed s).

Lemma recorded_mono f f' id :
  (∀ name, starts_with "admin-" name = true → is_Some (f !! name) → is_Some (f' !! name)) →
  recorded f id → recorded f' id.
Proof.
  intros Hf (i & -> & [Hi|Hi]); exists i; (split; [done|]); [left|right]; by apply Hf.
Qed.
Lemma inv_files s s' :
  ms_executed s' = ms_executed s →
  (∀ name, starts_with "admin-" name = true →
     is_Some (ms_files s !! name) → is_Some (ms_files s' !! name)) →
  admin_inv s → admin_inv s'.
Proof.
  intros He Hf [Hx Hd]. unfold admin_inv. rewrite He. split; [|done].
  intros r p [Hxe Hr]%Hx. split; [done|]. by eapply recorded_mono.
Qed.
Lemma put_is_Some name b s name' :
  is_Some (ms_files s !! name') → is_Some (ms_files (put name b s) !! name').
Proof.
  intros Hs. unfold put; simpl. destruct (decide (name = name')) as [<-|?].
  - by rewrite lookup_insert_eq.
  - by rewrite lookup_insert_ne.
Qed.
Lemma inv_put name b s : admin_inv s → admin_inv (put name b s).
Proof. apply inv_files; [done|]. intros name' _. apply put_is_Some. Qed.
Lemma inv_process p s : admin_inv s → admin_inv (with_process s p).
Proof. by apply inv_files. Qed.
Lemma inv_result r s : admin_inv s → admin_inv (with_result s r).
Proof. by apply inv_files. Qed.

Lemma pending_inj i j : pending_name i = pending_name j → i = j.
Proof.
  intros Hs%app_inv_head_str%(f_equal (strip_suffix ".pending.pb")).
  rewrite !strip_suffix_app in Hs. by injection Hs.
Qed.
Lemma pending_terminal i j : pending_name i ≠ terminal_name j.
Proof.
  intros E%(f_equal (λ s, nth 3 (rev (String.list_ascii_of_string s)) zero)).
  unfold pending_name, terminal_name in E.
  by rewrite !list_ascii_app, !rev_app_distr in E.
Qed.

(** The pending record of an operation that has a terminal one may go. *)
Lemma inv_remove i s :
  is_Some (ms_files s !! terminal_name i) → admin_inv s →
  admin_inv (with_files s (delete (pending_name i) (ms_files s))).
Proof.
  intros Ht [Hx Hd]. split; [|done]. intros r p [Hxe (j & Hj & Hr)]%Hx. split; [done|].
  exists j. split; [done|]. cbn [ms_files with_files].
  rewrite (lookup_delete_ne _ _ (terminal_name j)) by apply pending_terminal.
  destruct (decide (i = j)) as [<-|Hne]; [by right|].
  rewrite lookup_delete_ne; [done|]. by intros ?%pending_inj.
Qed.
(** An operation that has begun, and is recorded, has not run yet. *)
Lemma inv_resume raw request s p :
  decode_request raw = Ok request → executable raw p →
  is_Some (ms_files s !! pending_name (id_of request)) →
  Some (id_of request) ∉ ((λ e, request_id (fst e)) <$> ms_executed s) →
  admin_inv s → admin_inv (resume raw (with_process s (Some p))).
Proof.
  intros Hdec Hex Hpend Hnew [Hx Hd].
  assert (request_id raw = Some (id_of request)) as Hid by (unfold request_id; by rewrite Hdec).
  split; cbn.
  - intros r q [Hin|Hin%list_elem_of_singleton]%elem_of_app; [by apply Hx|].
    injection Hin as -> ->. split; [done|]. rewrite Hid. exists (id_of request). eauto.
  - rewrite fmap_app. apply NoDup_app. split_and!; [done| |apply NoDup_singleton].
    intros x Hin ->%list_elem_of_singleton. cbn in Hin. by rewrite Hid in Hin.
Qed.

(** ** Admission *)

Lemma admitted_clean s operation :
  (∀ name, is_Some (ms_files s !! name) → None = Some name ∨
     check_journal_entry name (journal_id operation) true false = Ok tt) →
  ms_files s !! pending_name (journal_id operation) = None ∧
  ms_files s !! terminal_name (journal_id operation) = None.
Proof.
  intros Hall. split; apply eq_None_not_Some; intros [?|Hc]%Hall; try done;
    unfold check_journal_entry in Hc; cbn [andb] in Hc;
    rewrite (proj2 (str_eqb_true _ _) eq_refl), ?orb_true_r in Hc; done.
Qed.
Lemma admitted_new s request :
  admin_inv s → ms_files s !! pending_name (id_of request) = None →
  ms_files s !! terminal_name (id_of request) = None →
  Some (id_of request) ∉ ((λ e, request_id (fst e)) <$> ms_executed s).
Proof.
  intros [Hx _] Hp Ht ([r p] & Hid & Hin)%list_elem_of_fmap.
  destruct (Hx _ _ Hin) as [_ (i & Hi & Hr)]. cbn in Hid. rewrite Hi in Hid.
  injection Hid as <-. rewrite Hp, Ht in Hr. by destruct Hr as [[]|[]].
Qed.

(** ** Receipts *)

(** What is signed verifies under the key of the owner. *)
Lemma sign_receipt_verifies request receipt signed :
  sign_receipt request receipt private = Ok signed →
  signed = with_root_signature receipt (ed25519_sign private (receipt_payload request receipt)) ∧
  ∃ key, ed25519_public_key private = Some key ∧ verify_receipt request signed key = Ok tt.
Proof.
  unfold sign_receipt. intros Hs. apply bind_Ok in Hs as ([] & Hf & Hs).
  apply bind_Ok in Hs as (key & Hk & Hs). apply ok_or_Ok in Hk. injection Hs as <-.
  split; [done|]. exists key. split; [done|]. unfold verify_receipt.
  set (signed := with_root_signature _ _).
  assert (receipt_identity_invalid request signed = receipt_identity_invalid request receipt) as ->
    by done.
  assert (preview_valid request signed = preview_valid request receipt) as -> by done.
  assert (receipt_payload request signed = receipt_payload request receipt) as -> by done.
  apply fail_if_Ok, orb_false_iff in Hf as [[[Hi _]%orb_false_iff _]%orb_false_iff Hp].
  rewrite Hi, Hp. unfold blen, signed. cbn [ares_root_signature with_root_signature].
  rewrite ed25519_sign_length, (ed25519_public_key_length _ _ Hk). cbn [negb orb fail_if Z.eqb].
  by rewrite (ed25519_sign_verify _ _ _ Hk).
Qed.

(** The result of a dispatch that returns [true]: a receipt that verifies is delivered and
    recorded; the process of the request ran once when it is not a denial. *)
Definition delivered (raw : bytes) (s : machine_state) (b : bool) (s' : machine_state) : Prop :=
  b = true → ∃ request receipt key,
    decode_request raw = Ok request ∧ ed25519_public_key private = Some key ∧
    verify_receipt request receipt key = Ok tt ∧
    ms_result s' = Some (encode_to_vec receipt) ∧
    ms_files s' !! terminal_name (id_of request) = Some (encode_to_vec receipt) ∧
    if ares_rejected_before_begin receipt then ms_executed s' = ms_executed s
    else ms_files s' !! pending_name (id_of request) = None ∧
      ∃ p, denotes request p ∧ ms_executed s' = ms_executed s ++ [(raw, p)].

Section Dispatcher.
Context (raw : bytes).
Abbreviation alw := (always (admin_step raw worker private)).

(** The delivery of a receipt that is recorded *)
Lemma always_deliver {A} e b (f : () → prog A) Q s :
  admin_inv s → (∀ s', s' = with_result s (Some b) → admin_inv s' →
    alw admin_inv (f tt) (ends Q (λ _, True)) s') →
  alw admin_inv (require (WriteResult b) e ≫= λ _, invoke_res ConsumeTransport ≫= f)
    (ends Q (λ _, True)) s.
Proof.
  intros HI Hf. apply always_require; [done|]. intros ok s' (b' & -> & Hb).
  split; [by apply inv_result|]. intros ->. rewrite Hb by done.
  apply always_res; [by apply inv_result|]. intros r s' ->. split; [done|]. intros [] _.
  apply Hf; [done|by apply inv_result].
Qed.

Definition denial_ready (request : FleetNativeAdminRequest) (s : machine_state) (b : bytes)
    (s' : machine_state) : Prop :=
  ∃ receipt key, b = encode_to_vec receipt ∧ ed25519_public_key private = Some key ∧
    verify_receipt request receipt key = Ok tt ∧ ares_rejected_before_begin receipt = true ∧
    ms_files s' !! terminal_name (id_of request) = Some b ∧ ms_executed s' = ms_executed s.

Lemma recorded_denial_always request s :
  admin_inv s → alw admin_inv (recorded_denial request private (id_of request))
    (ends (denial_ready request s) (λ _, True)) s.
Proof.
  intros HI. unfold recorded_denial. eapply always_quiet; [apply check_directory_quiet|done..|].
  intros [] _. apply always_res; [done|]. intros r s' [-> Hr]. split; [done|]. intros b Hb.
  apply always_pure'; [done|]. intros receipt Hd. apply always_pure'; [done|].
  intros key Hk%ok_or_Ok. apply always_pure'; [done|]. intros [] Hv. apply always_pure'; [done|].
  intros [] [Hrej He]%fail_if_Ok%orb_false_iff. apply negb_false_iff in Hrej, He.
  apply bytes_eqb_true in He. apply always_ret; [done|]. exists receipt, key.
  split_and!; [done|done|done|done|by apply Hr|done].
Qed.
Lemma fresh_denial_always request s now reason :
  admin_inv s → alw admin_inv (fresh_denial request private now reason (id_of request))
    (ends (denial_ready request s) (λ _, True)) s.
Proof.
  intros HI. unfold fresh_denial. eapply always_quiet; [apply check_directory_quiet|done..|].
  intros [] _. apply always_pure'; [done|]. intros receipt Hrec. apply always_pure'; [done|].
  intros signed [-> (key & Hk & Hv)]%sign_receipt_verifies.
  apply always_create; [done|intros; by apply inv_put|]. intros _.
  apply always_ret; [by apply inv_put|]. eexists _, key. split_and!; [done|done|exact Hv| | |done].
  - unfold prebegin_rejection in Hrec. apply bind_Ok in Hrec as ([] & _ & Hrec).
    apply bind_Ok in Hrec as ([] & _ & Hrec). by injection Hrec as <-.
  - apply lookup_insert_eq.
Qed.
Lemma deny_always request s now reason :
  decode_request raw = Ok request → admin_inv s →
  alw admin_inv (deny_before_begin request private now reason)
    (ends (delivered raw s) (λ _, True)) s.
Proof.
  intros Hdec HI. unfold deny_before_begin. apply always_res; [done|]. intros r s' ->.
  split; [done|]. intros bound _. apply always_pure'; [done|]. intros [] _.
  eapply always_quiet; [apply journal_exists_quiet|done..|]. intros there _.
  assert (alw admin_inv (if there then recorded_denial request private (id_of request)
    else fresh_denial request private now reason (id_of request))
    (ends (denial_ready request s) (λ _, True)) s) as Hden
    by (destruct there; [by apply recorded_denial_always|by apply fresh_denial_always]).
  apply always_bind. eapply always_mono; [| |exact Hden]; [done|].
  intros [b|e] s1 HI1; [|done]. intros (receipt & key & -> & Hk & Hv & Hrej & Ht & He).
  apply always_deliver; [done|]. intros s2 -> HI2. apply always_ret; [done|]. intros _.
  exists request, receipt, key. rewrite Hrej. done.
Qed.

(** The state when the execution begins *)
Definition begun (request : FleetNativeAdminRequest) (s0 s : machine_state) : Prop :=
  admin_inv s ∧ is_Some (ms_files s !! pending_name (id_of request)) ∧
  Some (id_of request) ∉ ((λ e, request_id (fst e)) <$> ms_executed s0) ∧
  ms_executed s = ms_executed s0.
(** The state after the process was resumed *)
Definition resumed (request : FleetNativeAdminRequest) (s0 s : machine_state) : Prop :=
  admin_inv s ∧ ∃ p, denotes request p ∧ ms_executed s = ms_executed s0 ++ [(raw, p)].

Lemma begun_put request s0 s name b : begun request s0 s → begun request s0 (put name b s).
Proof.
  intros (HI & Hp & Hn & He). split_and!; [by apply inv_put|by apply put_is_Some|done|done].
Qed.

Lemma evidence_executed request evidence auth observed out_path err_path :
  evidence_of request evidence →
  ares_rejected_before_begin
    (complete_receipt raw request auth observed out_path err_path evidence) = false.
Proof. by intros (? & ? & ? & ? & ? & ? & ? & _ & _ & ->). Qed.

Lemma execute_begun_always request auth s0 s :
  decode_request raw = Ok request → (∀ p, denotes request p → executable raw p) →
  begun request s0 s →
  alw admin_inv (execute_begun journal_dir raw request private auth (id_of request))
    (ends (delivered raw s0) (λ _, True)) s.
Proof.
  intros Hdec Hex Hb. unfold execute_begun.
  apply (always_run _ _ _ _ (begun request s0) (resumed request s0)); [by intros ? []..| | |done|].
  - intros s1 q (HI & Hp & Hn & He). split_and!; [by apply inv_process|done..].
  - intros s1 q (HI & Hp & Hn & He) Hq. split.
    + apply (inv_resume _ request); [done|by apply Hex|done|by rewrite He|done].
    + exists q. split; [done|]. cbn. by rewrite He.
  - intros s1 evidence [HI1 (q & Hq & He1)] Hev.
    eapply always_quiet; [apply clock_quiet|done..|]. intros observed _.
    apply always_pure'; [done|]. intros signed [-> (key & Hk & Hv)]%sign_receipt_verifies.
    pose proof (evidence_executed request evidence auth observed
      (capture_path journal_dir (stdout_name (id_of request)))
      (capture_path journal_dir (stderr_name (id_of request))) Hev) as Hrej.
    set (signed := with_root_signature _ _) in *.
    change (ares_rejected_before_begin signed = false) in Hrej.
    set (complete := ares_process_exited signed && _ && _ && _). clearbody signed.
    apply always_create; [done|intros; by apply inv_put|]. intros _.
    set (s2 := put _ _ s1).
    assert (admin_inv s2 ∧ ms_executed s2 = ms_executed s1 ∧
      ms_files s2 !! terminal_name (id_of request) = Some (encode_to_vec signed))
      as (HI2 & He2 & Ht2) by (split_and!; [by apply inv_put|done|apply lookup_insert_eq]).
    clearbody s2. destruct complete.
    + apply always_require; [done|].
      intros ok s3 [->|[-> ->]]; [|done].
      pose proof (inv_remove (id_of request) s2 ltac:(by eexists) HI2) as HI3.
      split; [done|]. intros _. apply always_deliver; [done|]. intros s4 -> HI4.
      apply always_pure'; [done|]. intros [] _. apply always_ret; [done|]. intros _.
      exists request, signed, key. rewrite Hrej. cbn.
      rewrite lookup_delete_ne by apply pending_terminal. rewrite lookup_delete_eq.
      split_and!; try done. exists q. by rewrite He2.
    + apply always_pure'; [done|]. intros [] _. apply always_deliver; [done|]. intros s4 -> HI4.
      apply always_pure'; [done|]. intros [] Hc. done.
Qed.

Lemma begin_always request auth s :
  decode_request raw = Ok request → (∀ p, denotes request p → executable raw p) →
  admin_inv s →
  alw admin_inv (begin journal_dir raw request private auth)
    (ends (delivered raw s) (λ _, True)) s.
Proof.
  intros Hdec Hex HI. unfold begin. eapply always_quiet; [apply journal_exists_quiet|done..|].
  intros there _. apply always_pure'; [done|]. intros [] _.
  eapply always_quiet; [apply check_directory_quiet|done..|]. intros [] [Hp Ht]%admitted_clean.
  pose proof (admitted_new s request HI Hp Ht) as Hnew.
  apply always_create; [done|intros; by apply inv_put|]. intros _.
  assert (begun request s (put (pending_name (id_of request)) raw s)) as Hb.
  { split_and!; [by apply inv_put|unfold put; cbn; rewrite lookup_insert_eq; by eexists|done|done]. }
  pose proof (begun_put _ _ _ (stdout_name (id_of request)) [] Hb) as Hb1.
  pose proof (begun_put _ _ _ (stderr_name (id_of request)) [] Hb1) as Hb2.
  apply always_create_capture; [apply Hb|apply Hb1|]. intros _.
  apply always_create_capture; [apply Hb1|apply Hb2|]. intros _.
  by apply execute_begun_always.
Qed.

(** A program whose error is a value *)
Lemma always_handled {A B} I (p : prog A) (f : res A → prog B) Q (Q' : A → machine_state → Prop) s :
  quiet raw worker private p Q' → I s →
  (∀ r, (∀ a, r = Ok a → Q' a s) → alw I (f r) (ends Q (λ _, True)) s) →
  alw I (attempt p ≫= f) (ends Q (λ _, True)) s.
Proof.
  intros Hp HI Hf. apply always_bind. apply always_sbind.
  eapply always_mono; [| |apply Hp]; [by intros ? ->|].
  intros [a|e] s' -> HQ; apply always_return; try done; apply Hf; try done.
  by intros ? [= <-].
Qed.

(** The authorization was accepted under the pinned key. *)
Lemma prepare_quiet request :
  quiet raw worker private (prepare raw request private)
    (λ auth _, ∃ now, verify_authorization request auth worker now = Ok tt).
Proof.
  unfold prepare. apply (quiet_bind _ _ _ _ _ (λ t _, snd t = worker)).
  { apply quiet_res. by intros ? ? ? [-> ?]. }
  intros t s Ht. apply always_pure'; [done|]. intros [] _. apply always_res; [done|].
  intros r s' ->. split; [done|]. intros auth _.
  eapply always_quiet; [apply clock_quiet|done..|]. intros now _.
  apply always_pure'; [done|]. intros [] Hv. apply always_ret; [done|]. exists now. by rewrite <- Ht.
Qed.

(** The dispatcher up to the admission of a request *)
Lemma always_dispatch (I : machine_state → Prop) (Q : bool → machine_state → Prop) s :
  I s → Q false s →
  (∀ request, decode_request raw = Ok request →
    validate_for_kind request FleetHostKind_Windows = Ok tt →
    (∀ now reason, alw I (deny_before_begin request private now reason) (ends Q (λ _, True)) s) ∧
    alw I (request_available (operation_id request) true false ≫= λ _,
      attempt (prepare raw request private) ≫= λ prepared,
      match prepared with
      | Ok auth => begin journal_dir raw request private auth
      | Err reason => clock ≫= λ now, deny_before_begin request private now reason
      end) (ends Q (λ _, True)) s) →
  alw I (dispatch_if_present journal_dir) (ends Q (λ _, True)) s.
Proof.
  intros HI HQ Hreq. unfold dispatch_if_present. apply always_call; [done|]. intros m s' ->.
  destruct m; [|by apply always_ret|by apply always_return].
  apply always_res; [done|]. intros r s' ->. split; [done|]. intros [] _.
  do 2 (eapply always_quiet; [apply competing_quiet|done..|]; intros [] _).
  apply always_res; [done|]. intros r' s' ->. split; [done|]. intros [] _.
  apply always_res; [done|]. intros r'' s' [-> Hraw]. split; [done|]. intros b ->%Hraw.
  apply always_pure'; [done|]. intros request Hdec.
  apply always_pure'; [done|]. intros [] Hkind. destruct (Hreq _ Hdec Hkind) as [Hdeny Hgo].
  apply always_res; [done|]. intros ? s' ->. split; [done|]. intros [] _.
  apply always_res; [done|]. intros ? s' [-> Hpriv]. split; [done|]. intros b ->%Hpriv.
  eapply always_quiet; [apply clock_quiet|done..|]. intros now _.
  eapply always_quiet; [apply journal_exists_quiet|done..|]. intros there _.
  destruct (expired_before_begin request now || there); [by apply Hdeny|exact Hgo].
Qed.

Lemma dispatch_always s :
  admin_inv s →
  alw admin_inv (dispatch_if_present journal_dir) (ends (delivered raw s) (λ _, True)) s.
Proof.
  intros HI. apply always_dispatch; [done|done|]. intros request Hdec Hkind.
  split; [intros; by apply deny_always|].
  eapply always_quiet; [apply check_directory_quiet|done..|]. intros [] _.
  eapply always_handled; [apply prepare_quiet|done|]. intros [auth|reason] Hauth.
  - apply begin_always; [done| |done]. intros p Hp.
    destruct (Hauth auth eq_refl) as [now' Hv]. exists request. eauto 8.
  - eapply always_quiet; [apply clock_quiet|done..|]. intros now' _. by apply deny_always.
Qed.
End Dispatcher.
End Histories.
