(* ===== verification/AdminHistory.v ===== *)
(** * Histories of administrative requests

    The theorems on the dispatcher of [edge-console/src/windows_admin.rs]: executions are
    authorized and happen at most once, a pending record freezes the dispatcher, what is
    delivered verifies, and the evidence of a process can always be signed. *)

From S2P Require Import Prelude RustStd RustText RustUtf HostTypes Service CrashLogic HostAdmin.
From S2P Require Import ApplicationBundle AdminCommand AdminProcess AdminDispatch.
From S2P Require Import AdminDispatchFacts Concrete.

Section Claims.
Context `{Message FleetNativeAdminRequest} `{Sha256} `{Message FleetNativeAdminResult}
  `{Ed25519Laws}.
Context (journal_dir : string) (worker private : bytes).

(** The states that a history reaches: a dispatch of any request stops anywhere; other
    writers of the journal keep the administrative records. *)
Inductive history (s0 : machine_state) : machine_state → Prop :=
| history_start : history s0 s0
| history_dispatch raw s s' :
    history s0 s → during (admin_step raw worker private) (dispatch_if_present journal_dir) s s' →
    history s0 s'
| history_other s s' :
    history s0 s → ms_executed s' = ms_executed s →
    (∀ name, starts_with "admin-" name = true →
       is_Some (ms_files s !! name) → is_Some (ms_files s' !! name)) →
    history s0 s'.

Lemma history_inv s0 s : admin_inv worker s0 → history s0 s → admin_inv worker s.
Proof.
  intros Hs0. induction 1 as [|raw s s' _ IH Hd|s s' _ IH He Hf]; [done| |].
  - eapply always_during; [|exact Hd]. by apply dispatch_always.
  - by eapply inv_files.
Qed.
Lemma start_inv s : ms_executed s = [] → admin_inv worker s.
Proof.
  intros He. split; rewrite He; [|constructor]. by intros r p ?%elem_of_nil.
Qed.

(** C7: Over any history of dispatches of administrative requests, each stopped at any
    call, with other writers of the journal in between that keep the administrative
    records: no operation is executed twice, and every process that ran belongs to a
    canonical request, valid for Windows, that the Worker's pinned key authorized,
    with exactly the application, command line, environment and directory the request
    names. *)
Theorem admin_at_most_once s0 s :
  ms_executed s0 = [] → history s0 s →
  NoDup ((λ e, request_id (fst e)) <$> ms_executed s) ∧
  ∀ raw p, (raw, p) ∈ ms_executed s → executable worker raw p.
Proof.
  intros Hs0 Hh. destruct (history_inv s0 s (start_inv _ Hs0) Hh) as [Hx Hd].
  split; [done|]. intros raw p Hin. apply (Hx _ _ Hin).
Qed.

(** C8: A dispatch that returns success leaves in the exchange and in the terminal
    record the same receipt, which verifies under the key of the owner; it is a denial
    and nothing ran, or the process of the request ran exactly once and its pending
    record is gone. *)
Theorem admin_delivers raw s0 s s' :
  ms_executed s0 = [] → history s0 s →
  returns (admin_step raw worker private) (dispatch_if_present journal_dir) s (Ok true) s' →
  ∃ request receipt key,
    decode_request raw = Ok request ∧ ed25519_public_key private = Some key ∧
    verify_receipt request receipt key = Ok tt ∧
    ms_result s' = Some (encode_to_vec receipt) ∧
    ms_files s' !! terminal_name (id_of request) = Some (encode_to_vec receipt) ∧
    if ares_rejected_before_begin receipt then ms_executed s' = ms_executed s
    else ms_files s' !! pending_name (id_of request) = None ∧
      ∃ p, denotes request p ∧ ms_executed s' = ms_executed s ++ [(raw, p)].
Proof.
  intros Hs0 Hh Hr. pose proof (history_inv s0 s (start_inv _ Hs0) Hh) as HI.
  pose proof (always_returns _ _ _ _ _ _ _ (dispatch_always journal_dir worker private raw s HI) Hr)
    as Hd. by apply Hd.
Qed.

(** ** A pending record *)

Section Frozen.
Context (raw : bytes) (s0 : machine_state) (name : string).
Context (Hname : is_Some (ms_files s0 !! name)) (Hpend : ends_with ".pending.pb" name = true).
Abbreviation alw := (always (admin_step raw worker private)).

Definition frozen (s : machine_state) : Prop :=
  ms_files s = ms_files s0 ∧ ms_executed s = ms_executed s0.

Lemma frozen_rejected id s :
  frozen s → ¬ (∀ n, is_Some (ms_files s !! n) → None = Some n ∨
    check_journal_entry n id true false = Ok tt).
Proof.
  intros [Hf _] Hall. rewrite Hf in Hall. destruct (Hall _ Hname) as [?|Hc]; [done|].
  unfold check_journal_entry in Hc. apply bind_Ok in Hc as ([] & _ & Hc).
  apply bind_Ok in Hc as ([] & _ & Hc). rewrite Hpend, andb_false_r in Hc. done.
Qed.
Lemma frozen_available {A} operation (f : () → prog A) Q s :
  frozen s → alw frozen (request_available operation true false ≫= f) (ends Q (λ _, True)) s.
Proof.
  intros HI. eapply always_quiet; [apply check_directory_quiet|done..|].
  intros [] Hall. by apply frozen_rejected in Hall.
Qed.
Lemma frozen_deny request now reason s :
  frozen s → alw frozen (deny_before_begin request private now reason)
    (ends (λ _ _, True) (λ _, True)) s.
Proof.
  intros HI. unfold deny_before_begin. apply always_res; [done|]. intros r s' ->.
  split; [done|]. intros bound _. apply always_pure'; [done|]. intros [] _.
  eapply always_quiet; [apply journal_exists_quiet|done..|]. intros there _.
  apply always_bind.
  assert (alw frozen (if there then recorded_denial request private (id_of request)
    else fresh_denial request private now reason (id_of request))
    (ends (λ _ _, True) (λ _, True)) s) as Hden.
  { destruct there; [|by apply frozen_available].
    unfold recorded_denial. eapply always_quiet; [apply check_directory_quiet|done..|].
    intros [] _. apply always_res; [done|]. intros ? s' [-> _]. split; [done|]. intros b _.
    do 4 (apply always_pure'; [done|]; intros ? _). by apply always_ret. }
  eapply always_mono; [| |exact Hden]; [done|]. intros [b|e] s1 HI1 _; [|done].
  apply always_require; [done|]. intros ok s2 (b' & -> & _). split; [done|]. intros _.
  apply always_res; [done|]. intros ? s3 ->. split; [done|]. intros [] _. by apply always_ret.
Qed.
Lemma frozen_dispatch :
  alw frozen (dispatch_if_present journal_dir) (ends (λ _ _, True) (λ _, True)) s0.
Proof.
  apply always_dispatch; [done|done|]. intros request _ _.
  split; [intros; by apply frozen_deny|by apply frozen_available].
Qed.
End Frozen.

(** C9: While any record of the journal ends in .pending.pb, of whatever operation and
    kind, a dispatch stopped anywhere executes nothing and changes no file of the
    journal. *)
Theorem pending_freezes raw s s' name :
  is_Some (ms_files s !! name) → ends_with ".pending.pb" name = true →
  during (admin_step raw worker private) (dispatch_if_present journal_dir) s s' →
  ms_files s' = ms_files s ∧ ms_executed s' = ms_executed s.
Proof.
  intros Hname Hpend Hd. exact (always_during _ _ _ _ _ _ (frozen_dispatch raw s name Hname Hpend) Hd).
Qed.

(** ** Evidence *)

(** A drained stream: its digest is that of all the output, whatever was cut *)
Lemma drain_Ok log out :
  drain log = Ok out →
  str_digest out = sha256 (mjoin (pl_chunks log)) ∧
  str_total out = blen (mjoin (pl_chunks log)) ∧
  str_saved out = Z.min (blen (mjoin (pl_chunks log))) CAPTURE ∧
  str_preview out = firstn (Z.to_nat PREVIEW) (mjoin (pl_chunks log)).
Proof.
  intros Hd. unfold drain in Hd. apply bind_Ok in Hd as (eof & _ & Hd).
  apply bind_Ok in Hd as ([] & _ & Hd). injection Hd as <-.
  destruct (fold_drained drain_chunk (λ _, True) (pl_chunks log)
    (λ all s buf _, drain_chunk_step all s buf) (λ _ _ _, I) [] drain_start I drained_start)
    as (Hh & Ht & Hp & _ & Hk). cbn. rewrite Hh, Ht, Hp, Hk. done.
Qed.

Lemma capture_path_suffix id : ends_with ".stdout.bin" (capture_path journal_dir (stdout_name id)) = true
  ∧ ends_with ".stderr.bin" (capture_path journal_dir (stderr_name id)) = true.
Proof.
  unfold ends_with, capture_path, stdout_name, stderr_name.
  rewrite <- !app_assoc_str. by rewrite !strip_suffix_app.
Qed.

(** The previews that are published are as long as they should be. *)
Lemma preview_length (publish : bool) log out :
  drain log = Ok out →
  blen (if publish then str_preview out else []) =
  if publish then Z.min (str_total out) PREVIEW else 0.
Proof.
  intros (_ & -> & _ & ->)%drain_Ok. destruct publish; [|done].
  apply blen_firstn. by apply Z.lt_le_incl, PREVIEW_pos.
Qed.

Lemma evidence_valid request auth observed timeout exit written out err sout serr id raw :
  drain out = Ok sout → drain err = Ok serr → written ≤ blen (areq_stdin_bytes request) →
  slen (capture_path journal_dir (stdout_name id)) ≤ 512 →
  slen (capture_path journal_dir (stderr_name id)) ≤ 512 →
  preview_valid request (complete_receipt raw request auth observed
    (capture_path journal_dir (stdout_name id)) (capture_path journal_dir (stderr_name id))
    (run_result request timeout exit written sout serr)) = true.
Proof.
  intros Ho He Hw Hlo Hle. unfold preview_valid, complete_receipt, run_result.
  cbn [ares_rejected_before_begin ares_rejection_code ares_stdout_preview ares_stderr_preview
       ares_stdout_capture_path ares_stderr_capture_path ares_stdout_capture_bytes
       ares_stderr_capture_bytes ares_stdout_total_bytes ares_stderr_total_bytes
       ares_stdout_capture_complete ares_stderr_capture_complete ares_stdin_bytes_written
       ares_stdin_input_complete ares_stdout_truncated ares_stderr_truncated].
  destruct (capture_path_suffix id) as [-> ->].
  rewrite (preview_length _ _ _ Ho), (preview_length _ _ _ He), !eqb_reflx.
  destruct (drain_Ok _ _ Ho) as (_ & -> & -> & _). destruct (drain_Ok _ _ He) as (_ & -> & -> & _).
  change PREVIEW_MAX with PREVIEW. change CAPTURE_MAX with CAPTURE.
  generalize PREVIEW_pos CAPTURE_pos (blen_nonneg (mjoin (pl_chunks out)))
    (blen_nonneg (mjoin (pl_chunks err))).
  generalize PREVIEW CAPTURE (blen (mjoin (pl_chunks out))) (blen (mjoin (pl_chunks err))).
  intros P C a b HP HC Ha Hb. rewrite !Z.eqb_refl. change (negb (str_empty "")) with false. cbv iota.
  rewrite !andb_true_iff. destruct (areq_publish_output request); cbn [orb negb];
    rewrite ?andb_true_iff, ?Z.eqb_eq, ?Z.leb_le; repeat split; lia.
Qed.

Lemma decode_request_canonical raw request :
  decode_request raw = Ok request → encode_to_vec request = raw.
Proof.
  unfold decode_request. intros Hd. apply bind_Ok in Hd as ([] & _ & Hd).
  apply bind_Ok in Hd as (r & _ & Hd). apply bind_Ok in Hd as ([] & Hc & Hd).
  apply bind_Ok in Hd as ([] & _ & Hd). injection Hd as <-.
  by apply fail_if_Ok, negb_false_iff, bytes_eqb_true in Hc.
Qed.

(** Whatever the process printed and however its streams were cut, the evidence of a
    finished run is accepted by the signer, the receipt verifies, the digests are
    those of the whole output, and published previews are its first 64 KiB: an
    executed request never fails for its output. *)
Theorem evidence_signs raw request auth observed timeout exit written out err sout serr key :
  let id := id_of request in
  let receipt := complete_receipt raw request auth observed
    (capture_path journal_dir (stdout_name id)) (capture_path journal_dir (stderr_name id))
    (run_result request timeout exit written sout serr) in
  decode_request raw = Ok request → ed25519_public_key private = Some key →
  drain out = Ok sout → drain err = Ok serr → written ≤ blen (areq_stdin_bytes request) →
  slen (capture_path journal_dir (stdout_name id)) ≤ 512 →
  ∃ signed, sign_receipt request receipt private = Ok signed ∧
    verify_receipt request signed key = Ok tt ∧
    ares_stdout_sha256 signed = sha256 (mjoin (pl_chunks out)) ∧
    ares_stderr_sha256 signed = sha256 (mjoin (pl_chunks err)) ∧
    (areq_publish_output request = true →
       ares_stdout_preview signed = firstn (Z.to_nat PREVIEW) (mjoin (pl_chunks out)) ∧
       ares_stderr_preview signed = firstn (Z.to_nat PREVIEW) (mjoin (pl_chunks err))).
Proof.
  intros id receipt Hdec Hkey Ho He Hw Hlen.
  destruct (drain_Ok _ _ Ho) as (Hdo & _ & _ & Hpo). destruct (drain_Ok _ _ He) as (Hde & _ & _ & Hpe).
  assert (sign_receipt request receipt private = Ok (with_root_signature receipt
    (ed25519_sign private (receipt_payload request receipt)))) as Hs.
  { unfold sign_receipt. assert (preview_valid request receipt = true) as ->.
    { apply (evidence_valid _ _ _ _ _ _ out err); [done..|]. revert Hlen.
      unfold capture_path, stdout_name, stderr_name. rewrite !slen_app. done. }
    rewrite Hkey. unfold receipt_identity_invalid, blen. cbn [ares_schema_version ares_machine_id ares_operation_id
      ares_request_sha256 ares_stdout_sha256 ares_stderr_sha256 receipt complete_receipt run_result].
    rewrite Hdo, Hde, !sha256_length, !(proj2 (str_eqb_true _ _) eq_refl).
    by rewrite (decode_request_canonical _ _ Hdec), (proj2 (bytes_eqb_true _ _) eq_refl). }
  eexists. split; [exact Hs|].
  apply sign_receipt_verifies in Hs as [_ (key' & Hkey' & Hv)].
  rewrite Hkey in Hkey'. injection Hkey' as <-. split; [exact Hv|].
  cbn. rewrite Hdo, Hde, Hpo, Hpe. split_and!; [done..|]. by intros ->.
Qed.
End Claims.
(** ** A machine on which every call succeeds *)

Module AdminSample.
Definition release : bytes := as_bytes "release".
Definition worker_private : bytes := as_bytes "worker".
Definition worker : bytes := sha256_fips worker_private.
Definition private : bytes := as_bytes "owner".
Definition journal_dir : string := "C:\ProgramData\edge\native-host/journal".

Definition request_for (comment : Z) : FleetNativeAdminRequest := {|
  areq_schema_version := 1; areq_machine_id := "win-1"; areq_source_comment_id := comment;
  areq_argv := ["C:\Windows\System32\cmd.exe"; "/c"; "type a b.txt"];
  areq_release_set_sha256 := sha256_fips release; areq_requested_at_unix := 1000;
  areq_comment_sha256 := sha256_fips []; areq_working_directory := "";
  areq_environment := ["LANG=en"]; areq_stdin_bytes := as_bytes "yes"; areq_timeout_seconds := 60;
  areq_publish_output := true
|}.
Definition first : FleetNativeAdminRequest := request_for 7.
Definition second : FleetNativeAdminRequest := request_for 8.
#[export] Instance request_message : Message FleetNativeAdminRequest :=
  table_message [first; second].
#[export] Instance receipt_message : Message FleetNativeAdminResult := null_message _.

Definition unsigned_for (request : FleetNativeAdminRequest) : FleetNativeAdminAuthorization := {|
  aauth_schema_version := 1; aauth_key_id := "worker-1";
  aauth_operation_id := operation_id request;
  aauth_issued_at_unix := 1000; aauth_expires_at_unix := 1100; aauth_ed25519_signature := []
|}.
Definition auth_for (request : FleetNativeAdminRequest) : FleetNativeAdminAuthorization := {|
  aauth_schema_version := 1; aauth_key_id := "worker-1";
  aauth_operation_id := operation_id request;
  aauth_issued_at_unix := 1000; aauth_expires_at_unix := 1100;
  aauth_ed25519_signature :=
    ed25519_sign worker_private (authorization_payload request (unsigned_for request))
|}.
Definition output (text : string) : pipe_log :=
  {| pl_chunks := [as_bytes text]; pl_end := PeekBroken; pl_synced := true |}.

Section Answers.
Context (request : FleetNativeAdminRequest).
Definition raw : bytes := encode_to_vec request.

Definition answer (R : Type) (c : admin_call R) (s : machine_state) : R * machine_state :=
  match c in admin_call R return R * machine_state with
  | CreateProcess a c e d =>
      (true, with_process s (Some {| pr_application := a; pr_command := c;
                                     pr_environment := e; pr_directory := d |}))
  | TerminateProcess _ => (tt, with_process s None)
  | ResumeThread => (1, resume raw s)
  | OpenTransport => (Ok raw, s)
  | ReadPrivateKey => (Ok private, s)
  | CurrentAuthority _ _ _ _ => (Ok (release, worker), s)
  | JournalMetadata name =>
      (if decide (is_Some (ms_files s !! name)) then Present else NotFound, s)
  | ReadJournal => (Some (Some <$> (map_to_list (ms_files s)).*1), s)
  | ReadJournalFile name => (ok_or (ms_files s !! name) "missing", s)
  | CreateNewFile name =>
      if decide (ms_files s !! name = None) then (true, put name [] s) else (false, s)
  | WriteSync name b => (true, put name b s)
  | RemoveJournalFile name => (true, with_files s (delete name (ms_files s)))
  | WriteResult b => (true, with_result s (Some b))
  | CreateJobObject | SetJobLimits | AssignProcess | TerminateJob _ | WriterFinished => (true, s)
  | CreatePipe _ | InheritHandles | CheckConsole | CheckJournal | VerifyAcl _
  | ConsumeTransport => (Ok tt, s)
  | EnvVar _ => (Some "C:\Windows", s)
  | WaitForProcess _ => (0, s)
  | GetExitCode => (Some 0, s)
  | JoinWriter => (Some (Ok 3), s)
  | JoinStdout => (Some (output "hello"), s)
  | JoinStderr => (Some (output ""), s)
  | TransportMetadata => (Present, s)
  | CompetingMetadata _ => (NotFound, s)
  | Clock => (Some 1001, s)
  | BoundMachine => (Ok "win-1", s)
  | RequestAuthorization _ => (Ok (auth_for request), s)
  end.

Lemma sample_answer_step R (c : admin_call R) s :
  admin_step raw worker private R c s (answer R c s).1 (answer R c s).2.
Proof.
  destruct c; cbn [answer admin_step fst snd]; try exact eq_refl; try (split; [exact eq_refl|]).
  - by left.
  - by intros b [= <-].
  - by intros b [= <-].
  - case_decide as Hf; cbn [fst]; split; intros E; try discriminate E; [done|].
    by apply eq_None_not_Some.
  - intros entries [= <-] _ name [b Hb]. apply list_elem_of_fmap. exists name. split; [done|].
    apply list_elem_of_fmap. exists (name, b). by rewrite elem_of_map_to_list.
  - intros b Hb. by destruct (ms_files s !! name); [injection Hb as <-|].
  - by intros t [= <-].
  - case_decide; [left|right]; by split.
  - by exists b.
  - by left.
  - by exists (Some b).
Qed.
End Answers.

Definition start : machine_state :=
  {| ms_files := ∅; ms_process := None; ms_executed := []; ms_result := None |}.
Definition dispatch (request : FleetNativeAdminRequest) (s : machine_state)
    : res bool * machine_state := exec (answer request) (dispatch_if_present journal_dir) s.

(** Two requests, one after the other; the first is given again and is not run again. *)
Definition once : machine_state := (dispatch first start).2.
Definition twice : machine_state := (dispatch second once).2.
Definition again : machine_state := (dispatch first twice).2.
Example sample_run :
  (dispatch first start).1 = Ok true ∧ (dispatch second once).1 = Ok true ∧
  (dispatch first twice).1 = Err "HOST_ADMIN_DENIAL_PROTO_INVALID" ∧
  length (ms_executed again) = 2%nat.
Proof. vm_compute. done. Qed.

Lemma dispatch_returns request s :
  returns (admin_step (raw request) worker private) (dispatch_if_present journal_dir) s
    (dispatch request s).1 (dispatch request s).2.
Proof. apply exec_returns. intros R c s'. apply sample_answer_step. Qed.
Lemma dispatch_history request s0 s :
  history journal_dir worker private s0 s →
  history journal_dir worker private s0 (dispatch request s).2.
Proof.
  intros Hh. eapply history_dispatch; [exact Hh|]. eapply returns_during, dispatch_returns.
Qed.
Lemma once_history : history journal_dir worker private start once.
Proof. apply dispatch_history, history_start. Qed.

Lemma admin_at_most_once_witness :
  length (ms_executed again) = 2%nat ∧
  NoDup ((λ e, request_id (fst e)) <$> ms_executed again).
Proof.
  split; [vm_compute; reflexivity|].
  apply (admin_at_most_once journal_dir worker private start again); [reflexivity|].
  apply dispatch_history, dispatch_history, once_history.
Defined.

Lemma twice_returns :
  returns (admin_step (raw second) worker private) (dispatch_if_present journal_dir) once
    (Ok true) twice.
Proof.
  pose proof (dispatch_returns second once) as Hr.
  assert ((dispatch second once).1 = Ok true) as E by (vm_compute; reflexivity).
  rewrite E in Hr. exact Hr.
Qed.
Lemma admin_delivers_witness :
  ∃ request receipt key, decode_request (raw second) = Ok request ∧
    ed25519_public_key private = Some key ∧ verify_receipt request receipt key = Ok tt ∧
    ms_result twice = Some (encode_to_vec receipt).
Proof.
  destruct (admin_delivers journal_dir worker private (raw second) start once twice eq_refl
    once_history twice_returns) as (request & receipt & key & Hd & Hk & Hv & Hr & _).
  exists request, receipt, key. exact (conj Hd (conj Hk (conj Hv Hr))).
Defined.

Definition blocked : machine_state :=
  with_files start {["resource-vm.pending.pb" := []]}.
Lemma pending_freezes_witness :
  ms_executed (exec_for (answer first) 40 (dispatch_if_present journal_dir) blocked) = [].
Proof.
  apply (pending_freezes journal_dir worker private (raw first) blocked _ "resource-vm.pending.pb").
  - vm_compute. by eexists.
  - reflexivity.
  - apply exec_for_during. intros R c s. apply sample_answer_step.
Defined.

Lemma evidence_signs_witness :
  ∃ signed, verify_receipt first signed (sha256_fips private) = Ok tt ∧
    ares_stdout_sha256 signed = sha256_fips (as_bytes "hello") ∧
    ares_stdout_preview signed = as_bytes "hello".
Proof.
  destruct (evidence_signs journal_dir private (raw first) first (auth_for first) 1001 false 0 3
    (output "hello") (output "")
    {| str_digest := sha256_fips (as_bytes "hello"); str_total := 5; str_saved := 5;
       str_preview := as_bytes "hello"; str_eof := true |}
    {| str_digest := sha256_fips []; str_total := 0; str_saved := 0;
       str_preview := []; str_eof := true |} (sha256_fips private))
    as (signed & _ & Hv & Hd & _ & Hp); [vm_compute; reflexivity..| | |].
  - vm_compute. discriminate.
  - vm_compute. discriminate.
  - exists signed. split_and!; [exact Hv| |].
    + rewrite Hd. vm_compute. reflexivity.
    + destruct (Hp eq_refl) as [Hp' _]. rewrite Hp'. vm_compute. reflexivity.
Defined.

Lemma command_line_exact_witness :
  crt_argv (encode_utf16 (command_line (areq_argv first))) = encode_utf16 <$> areq_argv first.
Proof.
  destruct (command_line_exact first) as [-> _]; [vm_compute; reflexivity| |vm_compute; reflexivity].
  repeat constructor; apply ascii_utf8; vm_compute; reflexivity.
Defined.
End AdminSample.
