(* ===== verification/WindowsEffect.v ===== *)
(** * The Windows runtime effect

    [edge-shared-types/src/windows_runtime_effect.rs]: SYSTEM signs one start for the
    controller, bound to a nonce of the controller's process, to the configuration and to
    the network before it. [edge-controller/src/windows_native_runtime.rs]: the controller
    checks the signed effect against what it observes itself, consumes the operation and
    starts the child; as a program over its reads, locks and starts. *)

From S2P Require Import Prelude RustStd RustUtf HostTypes ResourceGraph HostRegistry HostLifecycle.
From S2P Require Import Service NativeNetwork NativeObserver.

(** ** Messages *)

Record FleetWindowsRuntimeChallenge : Set := {
  chal_nonce : bytes; chal_process_id : Z; chal_installed_release_sha256 : bytes
}.
#[global] Instance FleetWindowsRuntimeChallenge_eq_dec : EqDecision FleetWindowsRuntimeChallenge.
Proof. solve_decision. Defined.

Record FleetWindowsRuntimeEffect : Set := {
  eff_schema_version : Z; eff_intent : option FleetHostIntent;
  eff_authorization : option FleetHostAuthorization;
  eff_challenge : option FleetWindowsRuntimeChallenge; eff_config_sha256 : bytes;
  eff_expires_at_unix : Z; eff_system_signature : bytes; eff_registry_pb : bytes;
  eff_selected_spec_bytes : bytes; eff_before_network_sha256 : bytes
}.
#[global] Instance FleetWindowsRuntimeEffect_eq_dec : EqDecision FleetWindowsRuntimeEffect.
Proof. solve_decision. Defined.

Record StartLocalRuntimeRequest : Set := {
  start_singbox_binary_path : option string; start_config_path : option string;
  start_state_path : option string; start_force_restart : bool; start_visible_window : bool;
  start_native_system_effect : bytes
}.

Definition EFFECT_MAX_BYTES : Z := 262144.

Definition with_system_signature (e : FleetWindowsRuntimeEffect) (signature : bytes)
    : FleetWindowsRuntimeEffect := {|
  eff_schema_version := eff_schema_version e; eff_intent := eff_intent e;
  eff_authorization := eff_authorization e; eff_challenge := eff_challenge e;
  eff_config_sha256 := eff_config_sha256 e; eff_expires_at_unix := eff_expires_at_unix e;
  eff_system_signature := signature; eff_registry_pb := eff_registry_pb e;
  eff_selected_spec_bytes := eff_selected_spec_bytes e;
  eff_before_network_sha256 := eff_before_network_sha256 e |}.

(** ** The contract *)

Section Contract.
Context `{Message FleetWindowsRuntimeEffect} `{Message FleetDesiredState} `{Message FleetHost}
  `{Message FleetHostIntent} `{Message FleetWindowsNetworkAdmission} `{Sha256} `{Ed25519}
  `{ProductionText}.

Definition effect_payload (effect : FleetWindowsRuntimeEffect) : bytes :=
  as_bytes "sing-box/windows-runtime-effect/v1:"
  ++ encode_to_vec (with_system_signature effect []).

Definition sign_effect (effect : FleetWindowsRuntimeEffect) (private : bytes)
    : res FleetWindowsRuntimeEffect :=
  _ ← ok_or (ed25519_public_key private) "HOST_WINDOWS_EFFECT_KEY_INVALID";
  Ok (with_system_signature effect (ed25519_sign private (effect_payload effect))).

Definition verify_native_network_binding (effect : FleetWindowsRuntimeEffect)
    (actual_sha256 : bytes) : res unit :=
  fail_if (negb (blen actual_sha256 =? 32)
           || negb (blen (eff_before_network_sha256 effect) =? 32)
           || negb (bytes_eqb (eff_before_network_sha256 effect) actual_sha256))
    "HOST_WINDOWS_EFFECT_NETWORK_PREBEGIN_DRIFT".

Definition decode_effect (b : bytes) : res FleetWindowsRuntimeEffect :=
  fail_if (is_empty b || (EFFECT_MAX_BYTES <? blen b)) "HOST_WINDOWS_EFFECT_SIZE_INVALID" ;;
  effect ← ok_or (decode b) "HOST_WINDOWS_EFFECT_PROTO_INVALID";
  fail_if (negb (bytes_eqb (encode_to_vec (effect : FleetWindowsRuntimeEffect)) b))
    "HOST_WINDOWS_EFFECT_NONCANONICAL" ;;
  Ok effect.

Definition verify_system_signature (effect : FleetWindowsRuntimeEffect)
    (trusted_local_public : bytes) : res unit :=
  fail_if (negb (blen trusted_local_public =? 32)
           || negb (blen (eff_system_signature effect) =? 64))
    "HOST_WINDOWS_EFFECT_SYSTEM_IDENTITY_INVALID" ;;
  fail_if (negb (ed25519_verify trusted_local_public (effect_payload effect)
                   (eff_system_signature effect)))
    "HOST_WINDOWS_EFFECT_SYSTEM_SIGNATURE_REJECTED".

Definition effect_binding_invalid (effect : FleetWindowsRuntimeEffect)
    (intent : FleetHostIntent) (auth : FleetHostAuthorization)
    (challenge : FleetWindowsRuntimeChallenge) (registry : FleetDesiredState)
    (spec config_sha256 : bytes) (now : Z) : bool :=
  negb (eff_schema_version effect =? 1)
  || (EFFECT_MAX_BYTES <? blen (encode_to_vec effect))
  || negb (bool_decide (eff_challenge effect = Some challenge))
  || negb (bytes_eqb (eff_registry_pb effect) (encode_to_vec registry))
  || negb (bytes_eqb (eff_selected_spec_bytes effect) spec)
  || negb (blen (chal_nonce challenge) =? 32)
  || all_zero (chal_nonce challenge)
  || (chal_process_id challenge =? 0)
  || negb (blen (chal_installed_release_sha256 challenge) =? 32)
  || negb (blen config_sha256 =? 32)
  || negb (bytes_eqb (eff_config_sha256 effect) config_sha256)
  || negb (blen (eff_before_network_sha256 effect) =? 32)
  || all_zero (eff_before_network_sha256 effect)
  || (eff_expires_at_unix effect <=? now)
  || (u64_saturating_add now 120 <? eff_expires_at_unix effect)
  || (auth_expires_at_unix auth <? eff_expires_at_unix effect)
  || negb (blen (eff_system_signature effect) =? 64)
  || negb (intent_kind intent =? as_i32 FleetHostKind_Windows)
  || negb (str_eqb (intent_resource_id intent) "sing-box")
  || negb (try_from_one_of (intent_action intent) [FleetHostAction_Start; FleetHostAction_Apply]).

Definition verify_effect (effect : FleetWindowsRuntimeEffect)
    (challenge : FleetWindowsRuntimeChallenge) (registry : FleetDesiredState)
    (registry_sha256 spec config_sha256 : bytes) (now : Z) : res unit :=
  intent ← ok_or (eff_intent effect) "HOST_WINDOWS_EFFECT_INTENT_MISSING";
  auth ← ok_or (eff_authorization effect) "HOST_WINDOWS_EFFECT_AUTH_MISSING";
  fail_if (effect_binding_invalid effect intent auth challenge registry spec config_sha256 now)
    "HOST_WINDOWS_EFFECT_BINDING_OR_FRESHNESS_INVALID" ;;
  host ← ok_or (List.find (λ h, str_eqb (host_machine_id h) (intent_machine_id intent)
                                && (host_kind h =? intent_kind intent))
                  (registry_hosts registry)) "HOST_WINDOWS_EFFECT_MACHINE_UNREGISTERED";
  desired ← parse_production_desired_text spec;
  mode ← validate_windows_mode_target_and_spec host desired;
  fail_if (negb match host_target host with
                | Some t => target_run_state t =? as_i32 FleetHostRunState_Running
                | None => false
                end) "HOST_WINDOWS_EFFECT_RUNNING_TARGET_REQUIRED" ;;
  match mode with
  | WindowsDatapathMode_ProxyOnly =>
      fail_if (bool_decide (is_Some (intent_network_admission intent)))
        "HOST_WINDOWS_EFFECT_PROXY_ONLY_ADMISSION_FORBIDDEN"
  | WindowsDatapathMode_ManagedTun =>
      verify_windows_network_admission intent (host_native_receipt_public_key host)
        (chal_installed_release_sha256 challenge) config_sha256
        (eff_before_network_sha256 effect) now
  | WindowsDatapathMode_Unspecified => Err "HOST_WINDOWS_EFFECT_MODE_UNRECOGNIZED"
  end ;;
  verify_windows_signed_git_prerequisites host ;;
  desired_sha256 ← digest_host_desired host spec;
  validate_host_intent intent registry registry_sha256 desired_sha256
    (intent_release_set_sha256 intent) ;;
  validate_intent_against_target intent registry ;;
  verify_host_authorization intent auth (host_worker_authority_public_key host) now ;;
  fail_if (negb (ed25519_verify (host_native_receipt_public_key host) (effect_payload effect)
                   (eff_system_signature effect)))
    "HOST_WINDOWS_EFFECT_SYSTEM_SIGNATURE_REJECTED".
End Contract.

(** [consume]: the replay set of the process, and the result *)
Definition consume (used : gmap string Z) (operation : string) (expiry now : Z)
    : gmap string Z * res unit :=
  let used := filter (λ e, now < e.2) used in
  if bool_decide (is_Some (used !! operation)) then
    (used, Err "HOST_WINDOWS_EFFECT_ALREADY_CONSUMED_NO_REPLAY")
  else if 128 <=? Z.of_nat (size used) then
    (used, Err "HOST_WINDOWS_EFFECT_ADMISSION_BUSY")
  else (<[operation := expiry]> used, Ok tt).

(** ** The controller *)

(** The fields of [WindowsActivationState] the controller reads *)
Record activation : Set := { act_release_set_sha256 : string; act_sing_box_path : string }.
(** [StartedRuntime]: what the start of a child reports *)
Record started_runtime : Set := { run_pid : option Z; run_note : string; run_warnings : list string }.
Record LocalRuntimeResponse : Set := {
  lrr_success : bool; lrr_pid : option Z; lrr_note : string; lrr_warnings : list string
}.

(** [active] reads and verifies the activation record, its files and the running executable;
    [LockGate], [UnlockGate]: [WINDOWS_RUNTIME_OWNER_GATE]; [LockUsed] gives the replay set
    under its lock, [StoreUsed] writes it and releases the lock *)
Inductive effect_call : Type → Type :=
| Active : effect_call (res activation)
| RandomBytes : effect_call (option bytes)
| InitNonce (fresh : bytes) : effect_call bytes
| ProcessId : effect_call Z
| ProtectedPath (config : bool) : effect_call (res unit)
| ReadPublicKey : effect_call (option bytes)
| ComputerName : effect_call (option string)
| ReadConfig : effect_call (option bytes)
| UnixTime : effect_call (option Z)
| ReadTables : effect_call windows_tables
| RequireManagedTunConfig (config : bytes) : effect_call (res unit)
| VerifyApplicationRoutes (config spec : bytes) : effect_call (res unit)
| LockGate : effect_call bool
| UnlockGate : effect_call unit
| LockUsed : effect_call (option (gmap string Z))
| StoreUsed (used : gmap string Z) : effect_call unit
| StartChild (mode : WindowsDatapathMode) (sing_box_path : string)
    : effect_call (res started_runtime)
| Supervise (baseline : NativeNetworkIdentity) : effect_call unit.

Abbreviation eprog := (fservice effect_call string).

(** [u8::from_str_radix(pair, 16)] *)
Definition u8_of_pair (a b : ascii) : option Z :=
  if Ascii.eqb a "+" then hex_digit_of b
  else hi ← hex_digit_of a; lo ← hex_digit_of b; Some (hi * 16 + lo).
(** [chunks_exact(2)] of the text, each parsed *)
Fixpoint pairs_of_hex (s : string) : option bytes :=
  match s with
  | String a (String b s) =>
      n ← u8_of_pair a b; rest ← pairs_of_hex s; Some (byte_of_Z n :: rest)
  | _ => Some []
  end.

Section Controller.
Context `{Message FleetWindowsRuntimeEffect} `{Message FleetDesiredState} `{Message FleetHost}
  `{Message FleetHostIntent} `{Message FleetWindowsNetworkAdmission} `{Sha256} `{Ed25519}
  `{ProductionText}.
Context (size_of align_of : native_type → Z).

Definition challenge : eprog FleetWindowsRuntimeChallenge :=
  state ← invoke_res Active;
  fresh ← invoke RandomBytes;
  fresh ← pure_step (ok_or fresh "HOST_WINDOWS_EFFECT_RANDOM_UNAVAILABLE");
  nonce ← invoke (InitNonce fresh);
  release ← pure_step (ok_or (pairs_of_hex (act_release_set_sha256 state))
                         "HOST_WINDOWS_EFFECT_RELEASE_INVALID");
  pid ← invoke ProcessId;
  mret {| chal_nonce := nonce; chal_process_id := pid;
          chal_installed_release_sha256 := release |}.

(** [windows_native_network::observe_native_network_identity()] *)
Definition observe_network : eprog NativeNetworkIdentity :=
  os ← invoke ReadTables;
  pure_step ('(_, network) ← observe_native_network_identity size_of align_of os; Ok network).

Definition own_windows_host (host : FleetHost) (computer : string) : bool :=
  match host_owner host with
  | Some (Owner_WindowsRunnerName n) => eq_ignore_ascii_case n computer
  | _ => false
  end.

(** A configuration with a TUN is checked against the signed applications. *)
Definition check_tun_config (mode : WindowsDatapathMode) (config spec : bytes) : eprog unit :=
  if bool_decide (mode = WindowsDatapathMode_ManagedTun) then
    invoke_res (RequireManagedTunConfig config) ;;
    invoke_res (VerifyApplicationRoutes config spec)
  else mret tt.

(** The checks before the gate: the effect, its intent, the mode, the network before, the
    time and the path of the binary *)
Definition admit_effect (request : StartLocalRuntimeRequest)
    : eprog (FleetWindowsRuntimeEffect * FleetHostIntent * WindowsDatapathMode
             * NativeNetworkIdentity * Z * activation) :=
  pure_step (fail_if (bool_decide (is_Some (start_singbox_binary_path request))
                      || bool_decide (is_Some (start_config_path request))
                      || bool_decide (is_Some (start_state_path request))
                      || start_force_restart request || start_visible_window request)
    "HOST_WINDOWS_EFFECT_PATH_OR_MODE_OVERRIDE_FORBIDDEN") ;;
  effect ← pure_step (decode_effect (start_native_system_effect request));
  intent ← pure_step (ok_or (eff_intent effect) "HOST_WINDOWS_EFFECT_INTENT_MISSING");
  invoke_res (ProtectedPath false) ;;
  public ← invoke ReadPublicKey;
  public ← pure_step (ok_or public "HOST_WINDOWS_EFFECT_LOCAL_IDENTITY_UNAVAILABLE");
  pure_step (verify_system_signature effect public) ;;
  registry ← pure_step (map_err (λ _, "HOST_WINDOWS_EFFECT_REGISTRY_INVALID")
                          (decode_host_registry (eff_registry_pb effect)));
  let registry_sha := sha256 (encode_to_vec registry) in
  let spec := eff_selected_spec_bytes effect in
  host ← pure_step (ok_or (find_host registry (intent_machine_id intent))
                      "HOST_WINDOWS_EFFECT_MACHINE_UNREGISTERED");
  computer ← invoke ComputerName;
  computer ← pure_step (ok_or computer "HOST_WINDOWS_EFFECT_MACHINE_UNPROVEN");
  pure_step (fail_if (negb (bytes_eqb (host_native_receipt_public_key host) public))
    "HOST_WINDOWS_EFFECT_LOCAL_IDENTITY_PIN_MISMATCH") ;;
  pure_step (fail_if (negb (own_windows_host host computer))
    "HOST_WINDOWS_EFFECT_MACHINE_MISMATCH") ;;
  expected ← challenge;
  invoke_res (ProtectedPath true) ;;
  config ← invoke ReadConfig;
  config ← pure_step (ok_or config "HOST_WINDOWS_EFFECT_CONFIG_UNAVAILABLE");
  pure_step (fail_if (1024 * 1024 <? blen config) "HOST_WINDOWS_EFFECT_CONFIG_TOO_LARGE") ;;
  now ← invoke UnixTime;
  now ← pure_step (ok_or now "HOST_WINDOWS_EFFECT_CLOCK_INVALID");
  network_before ← observe_network;
  pure_step (verify_native_network_binding effect (signed_prebegin_digest network_before)) ;;
  pure_step (verify_effect effect expected registry registry_sha spec (sha256 config) now) ;;
  desired ← pure_step (parse_production_desired_text spec);
  mode ← pure_step (ok_or (try_from desired : option WindowsDatapathMode)
                      "HOST_WINDOWS_EFFECT_MODE_UNRECOGNIZED");
  check_tun_config mode config spec ;;
  state ← invoke_res Active;
  mret (effect, intent, mode, network_before, now, state).

(** Under the gate: the network once more, the replay set, the start *)
Definition start_under_gate (effect : FleetWindowsRuntimeEffect) (intent : FleetHostIntent)
    (mode : WindowsDatapathMode) (now : Z) (state : activation) : eprog started_runtime :=
  network ← observe_network;
  pure_step (verify_native_network_binding effect (signed_prebegin_digest network)) ;;
  used ← invoke LockUsed;
  used ← pure_step (ok_or used "HOST_WINDOWS_EFFECT_REPLAY_LOCK_POISONED");
  let '(used', consumed) :=
    consume used (intent_operation_id intent) (eff_expires_at_unix effect) now in
  invoke (StoreUsed used') ;;
  pure_step consumed ;;
  match mode with
  | WindowsDatapathMode_ProxyOnly | WindowsDatapathMode_ManagedTun =>
      invoke_res (StartChild mode (act_sing_box_path state))
  | WindowsDatapathMode_Unspecified => pure_step (Err "HOST_WINDOWS_EFFECT_MODE_UNRECOGNIZED")
  end.

(** The gate is released on every way out. *)
Definition gated {A} (p : eprog A) : eprog A :=
  locked ← invoke LockGate;
  pure_step (fail_if (negb locked) "HOST_WINDOWS_EFFECT_OWNER_LOCK_POISONED") ;;
  service_bind p (λ r, invoke UnlockGate ;; pure_step r).

Definition check_after (mode : WindowsDatapathMode) (before : NativeNetworkIdentity) : eprog unit :=
  match mode with
  | WindowsDatapathMode_ProxyOnly =>
      after ← observe_network; pure_step (require_restored before after)
  | WindowsDatapathMode_ManagedTun =>
      os ← invoke ReadTables;
      after ← pure_step ('(_, tun) ← observe_native_managed_tun size_of align_of os; Ok tun);
      pure_step (require_foreign_network_preserved after before)
  | WindowsDatapathMode_Unspecified => pure_step (Err "HOST_WINDOWS_EFFECT_MODE_UNRECOGNIZED")
  end.

Definition execute (request : StartLocalRuntimeRequest) : eprog LocalRuntimeResponse :=
  '(effect, intent, mode, before, now, state) ← admit_effect request;
  started ← gated (start_under_gate effect intent mode now state);
  invoke (Supervise before) ;;
  check_after mode before ;;
  mret {| lrr_success := true; lrr_pid := run_pid started; lrr_note := run_note started;
          lrr_warnings := run_warnings started |}.
End Controller.
