(* ===== verification/WindowsEffectFacts.v ===== *)
(** * Starts of the Windows runtime

    Over a history of start requests to one process of the controller, each stopped at any
    call: an effect starts the child at most once, and only as SYSTEM and the Worker signed
    it, on the network they saw. The clock of the process does not go back, and one request
    runs after the other: [stale_time_replays] shows that the replay set needs it. *)

From S2P Require Import Prelude RustStd RustUtf HostTypes ResourceGraph HostRegistry HostLifecycle.
From S2P Require Import Service CrashLogic NativeNetwork NativeObserver NativeNetworkFacts.
From S2P Require Import WindowsEffect Concrete.

(** ** The replay set *)

Lemma consume_Ok used operation expiry now used' :
  consume used operation expiry now = (used', Ok tt) →
  used' = <[operation := expiry]> (filter (λ e, now < e.2) used) ∧
  (∀ deadline, used !! operation = Some deadline → deadline ≤ now) ∧
  Z.of_nat (size used') ≤ 128.
Proof.
  unfold consume. case_bool_decide as Hin; [done|]. destruct (Z.leb_spec 128 (Z.of_nat
    (size (filter (λ e : string * Z, now < e.2) used)))); [done|]. intros [= <-].
  split_and!; [done| |].
  - intros deadline Hd. destruct (Z.le_gt_cases deadline now) as [?|Hgt]; [done|]. exfalso.
    apply Hin. exists deadline. by apply map_lookup_filter_Some.
  - rewrite map_size_insert_None by (by apply eq_None_not_Some). lia.
Qed.
(** Entries are dropped when they have expired, and only then. *)
Lemma consume_keeps used operation expiry now used' r op deadline :
  consume used operation expiry now = (used', r) → now < deadline →
  used !! op = Some deadline → used' !! op = Some deadline.
Proof.
  intros Hc Hlt Hop.
  assert (filter (λ e : string * Z, now < e.2) used !! op = Some deadline) as Hf
    by (by apply map_lookup_filter_Some).
  unfold consume in Hc. case_bool_decide as Hin; [by injection Hc as <- _|].
  destruct (128 <=? _); [by injection Hc as <- _|]. injection Hc as <- _.
  rewrite lookup_insert_ne; [done|]. intros ->. apply Hin. by exists deadline.
Qed.

(** With a time read before the entry of the operation was dropped, the operation passes a
    second time. *)
Example stale_time_replays :
  let first := consume ∅ "issue1-comment-1" 120 100 in
  let other := consume (fst first) "issue1-comment-2" 240 130 in
  let replay := consume (fst other) "issue1-comment-1" 120 110 in
  snd first = Ok tt ∧ snd other = Ok tt ∧ snd replay = Ok tt.
Proof. vm_compute. done. Qed.

(** ** The process *)

(** A call and its answer *)
Inductive answered : Type :=
| Answered {R : Type} (c : effect_call R) (r : R).

(** A start: the bytes of the effect, the mode, the binary, the tables read last, and the
    calls its request had made, with their answers, the newest first *)
Record start : Type := {
  st_effect : bytes; st_mode : WindowsDatapathMode; st_binary : string;
  st_tables : option windows_tables; st_log : list answered
}.
(** [cs_log]: the calls of the request that runs *)
Record controller_state : Type := {
  cs_used : gmap string Z; cs_starts : list start; cs_clock : Z;
  cs_nonce : option bytes; cs_tables : option windows_tables; cs_log : list answered
}.
Definition with_used (s : controller_state) used : controller_state := {|
  cs_used := used; cs_starts := cs_starts s; cs_clock := cs_clock s;
  cs_nonce := cs_nonce s; cs_tables := cs_tables s; cs_log := cs_log s |}.
Definition with_clock (s : controller_state) t : controller_state := {|
  cs_used := cs_used s; cs_starts := cs_starts s; cs_clock := t;
  cs_nonce := cs_nonce s; cs_tables := cs_tables s; cs_log := cs_log s |}.
Definition with_nonce (s : controller_state) n : controller_state := {|
  cs_used := cs_used s; cs_starts := cs_starts s; cs_clock := cs_clock s;
  cs_nonce := n; cs_tables := cs_tables s; cs_log := cs_log s |}.
Definition with_tables (s : controller_state) os : controller_state := {|
  cs_used := cs_used s; cs_starts := cs_starts s; cs_clock := cs_clock s;
  cs_nonce := cs_nonce s; cs_tables := os; cs_log := cs_log s |}.
Definition with_start (s : controller_state) st : controller_state := {|
  cs_used := cs_used s; cs_starts := cs_starts s ++ [st]; cs_clock := cs_clock s;
  cs_nonce := cs_nonce s; cs_tables := cs_tables s; cs_log := cs_log s |}.
Definition with_log (s : controller_state) log : controller_state := {|
  cs_used := cs_used s; cs_starts := cs_starts s; cs_clock := cs_clock s;
  cs_nonce := cs_nonce s; cs_tables := cs_tables s; cs_log := log |}.
Definition note {R} (c : effect_call R) (r : R) (s : controller_state) : controller_state :=
  with_log s (Answered c r :: cs_log s).
(** A new request *)
Definition begin_request (s : controller_state) : controller_state := with_log s [].

(** [native]: the bytes of the effect in the request that runs. A start that fails may have
    created the child. *)
Definition effect_change (native : bytes) (R : Type) (c : effect_call R) (s : controller_state)
    : R → controller_state → Prop :=
  match c in effect_call R return R → controller_state → Prop with
  | InitNonce fresh => λ n s', s' = with_nonce s (Some n) ∧ n = default fresh (cs_nonce s)
  | UnixTime => λ t s', s' = match t with Some t => with_clock s t | None => s end ∧
      ∀ z, t = Some z → cs_clock s ≤ z
  | ReadTables => λ os s', s' = with_tables s (Some os)
  | LockUsed => λ r s', s' = s ∧ ∀ used, r = Some used → used = cs_used s
  | StoreUsed used => λ _ s', s' = with_used s used
  | StartChild mode path => λ r s',
      s' = with_start s {| st_effect := native; st_mode := mode; st_binary := path;
                           st_tables := cs_tables s; st_log := cs_log s |}
      ∨ is_err r = true ∧ s' = s
  | _ => λ _ s', s' = s
  end.
(** Every answer is noted. *)
Definition effect_step (native : bytes) (R : Type) (c : effect_call R) (s : controller_state)
    (r : R) (s' : controller_state) : Prop :=
  ∃ s1, effect_change native R c s r s1 ∧ s' = note c r s1.

Section Starts.
Context `{Message FleetWindowsRuntimeEffect} `{Message FleetDesiredState} `{Message FleetHost}
  `{Message FleetHostIntent} `{Message FleetWindowsNetworkAdmission} `{Sha256} `{Ed25519}
  `{ProductionText}.
Context (size_of align_of : native_type → Z).

(** The operation and the expiry of an effect *)
Definition effect_key (native : bytes) : option (string * Z) :=
  match decode_effect native with
  | Ok effect =>
      intent ← eff_intent effect; Some (intent_operation_id intent, eff_expires_at_unix effect)
  | Err _ => None
  end.

(** The effect was accepted by a process with this nonce, against what its request read: the
    key of SYSTEM under a protected path, which is the key the registry pins for the host of
    this computer, the installed release, the process, the configuration on the disk under a
    protected path, and the time; a configuration with a TUN was checked as well. *)
Definition accepted (log : list answered) (nonce : bytes) (effect : FleetWindowsRuntimeEffect)
    (mode : WindowsDatapathMode) (now : Z) : Prop :=
  ∃ intent public registry host computer state release pid config,
    eff_intent effect = Some intent ∧
    Answered (ProtectedPath false) (Ok tt) ∈ log ∧
    Answered ReadPublicKey (Some public) ∈ log ∧
    verify_system_signature effect public = Ok tt ∧
    decode_host_registry (eff_registry_pb effect) = Ok registry ∧
    find_host registry (intent_machine_id intent) = Some host ∧
    host_native_receipt_public_key host = public ∧
    Answered ComputerName (Some computer) ∈ log ∧ own_windows_host host computer = true ∧
    Answered Active (Ok state) ∈ log ∧
    pairs_of_hex (act_release_set_sha256 state) = Some release ∧
    Answered ProcessId pid ∈ log ∧
    Answered (ProtectedPath true) (Ok tt) ∈ log ∧
    Answered ReadConfig (Some config) ∈ log ∧ Answered UnixTime (Some now) ∈ log ∧
    verify_effect effect {| chal_nonce := nonce; chal_process_id := pid;
                            chal_installed_release_sha256 := release |}
      registry (sha256 (encode_to_vec registry)) (eff_selected_spec_bytes effect)
      (sha256 config) now = Ok tt ∧
    (mode = WindowsDatapathMode_ManagedTun →
     Answered (RequireManagedTunConfig config) (Ok tt) ∈ log ∧
     Answered (VerifyApplicationRoutes config (eff_selected_spec_bytes effect)) (Ok tt) ∈ log).
(** The binary is the one of the installed release. *)
Definition installed_binary (log : list answered) (path : string) : Prop :=
  ∃ state, Answered Active (Ok state) ∈ log ∧ act_sing_box_path state = path.
(** The tables are those of the network SYSTEM signed. *)
Definition network_is (effect : FleetWindowsRuntimeEffect) (os : option windows_tables) : Prop :=
  ∃ tables readback network, os = Some tables ∧
    observe_native_network_identity size_of align_of tables = Ok (readback, network) ∧
    signed_prebegin_digest network = eff_before_network_sha256 effect.
Definition signed_mode (effect : FleetWindowsRuntimeEffect) (mode : WindowsDatapathMode) : Prop :=
  ∃ desired, parse_production_desired_text (eff_selected_spec_bytes effect) = Ok desired ∧
    try_from desired = Some mode.

Definition justified (nonce : bytes) (st : start) : Prop :=
  ∃ effect now, decode_effect (st_effect st) = Ok effect ∧
    accepted (st_log st) nonce effect (st_mode st) now ∧
    installed_binary (st_log st) (st_binary st) ∧
    signed_mode effect (st_mode st) ∧ network_is effect (st_tables st).

(** Every start is justified, and blocks its effect for as long as the effect is valid. *)
Definition effect_inv (s : controller_state) : Prop :=
  (∀ st, st ∈ cs_starts s → (∃ nonce, cs_nonce s = Some nonce ∧ justified nonce st) ∧
     ∃ op expiry, effect_key (st_effect st) = Some (op, expiry) ∧
       (expiry ≤ cs_clock s ∨ cs_used s !! op = Some expiry)) ∧
  NoDup ((λ st, effect_key (st_effect st)) <$> cs_starts s).

Lemma inv_stable s s' :
  cs_starts s' = cs_starts s → cs_used s' = cs_used s → cs_clock s ≤ cs_clock s' →
  (∀ n, cs_nonce s = Some n → cs_nonce s' = Some n) → effect_inv s → effect_inv s'.
Proof.
  intros He Hu Hc Hn [Hst Hd]. unfold effect_inv. rewrite He, Hu. split; [|done].
  intros st ((nonce & Hnonce & Hj) & op & expiry & Hk & Hb)%Hst. split; [by eauto|].
  exists op, expiry. split; [done|]. destruct Hb; [left; lia|by right].
Qed.

Lemma inv_note {R} (c : effect_call R) r s : effect_inv s → effect_inv (note c r s).
Proof. by apply inv_stable. Qed.
Lemma accepted_log log log' nonce effect mode now :
  log ⊆ log' → accepted log nonce effect mode now → accepted log' nonce effect mode now.
Proof.
  intros Hl (intent & public & registry & host & computer & state & release & pid & config & Ha).
  exists intent, public, registry, host, computer, state, release, pid, config. destruct_and! Ha.
  split_and!; auto. naive_solver.
Qed.

(** An accepted effect has not expired. *)
Lemma accepted_valid log nonce effect mode now :
  accepted log nonce effect mode now → now < eff_expires_at_unix effect.
Proof.
  intros (?&?&?&?&?&?&?&?&?&?&?&?&?&?&?&?&?&?&?&?&?&?&?&?& Hv &_). unfold verify_effect in Hv.
  apply bind_Ok in Hv as (intent & _ & Hv).
  apply bind_Ok in Hv as (auth & _ & Hv). apply bind_Ok in Hv as ([] & Hf & _).
  unfold effect_binding_invalid in Hf. apply fail_if_Ok in Hf.
  repeat match goal with Hf : _ || _ = false |- _ => apply orb_false_iff in Hf as [Hf ?] end.
  lia.
Qed.

(** The replay set only loses expired entries. *)
Lemma inv_used s op expiry now used' r :
  cs_clock s = now → consume (cs_used s) op expiry now = (used', r) →
  effect_inv s → effect_inv (with_used s used').
Proof.
  intros Hnow Hc [Hst Hd]. split; [|done]. intros st Hin.
  destruct (Hst st Hin) as [Hj (op' & e' & Hk & Hb)]. split; [done|]. exists op', e'.
  split; [done|]. cbn [cs_clock cs_used with_used]. destruct Hb as [?|Hb]; [by left|].
  destruct (Z.le_gt_cases e' (cs_clock s)); [by left|right].
  eapply consume_keeps; [exact Hc|lia|done].
Qed.
(** Consuming and starting an effect that is accepted now *)
Lemma inv_consume s effect native now op used' :
  decode_effect native = Ok effect → effect_key native = Some (op, eff_expires_at_unix effect) →
  cs_clock s = now → now < eff_expires_at_unix effect →
  consume (cs_used s) op (eff_expires_at_unix effect) now = (used', Ok tt) →
  effect_inv s →
  effect_inv (with_used s used') ∧
  effect_key native ∉ ((λ st, effect_key (st_effect st)) <$> cs_starts s) ∧
  used' !! op = Some (eff_expires_at_unix effect).
Proof.
  intros Hdec Hkey Hnow Hlt Hc HI. pose proof (consume_Ok _ _ _ _ _ Hc) as (Hu & Hexp & _).
  pose proof HI as [Hst Hd]. split_and!.
  - by eapply inv_used.
  - intros (st & Hk & Hin)%list_elem_of_fmap. destruct (Hst st Hin) as [_ (op' & e' & Hk' & Hb)].
    rewrite <- Hk, Hkey in Hk'. injection Hk' as <- <-.
    destruct Hb as [?|Hb]; [lia|]. apply Hexp in Hb. lia.
  - rewrite Hu. apply lookup_insert_eq.
Qed.
Lemma inv_start s native mode path effect nonce op :
  effect_key native = Some (op, eff_expires_at_unix effect) →
  cs_used s !! op = Some (eff_expires_at_unix effect) → cs_nonce s = Some nonce →
  justified nonce {| st_effect := native; st_mode := mode; st_binary := path;
                     st_tables := cs_tables s; st_log := cs_log s |} →
  effect_key native ∉ ((λ st, effect_key (st_effect st)) <$> cs_starts s) →
  effect_inv s →
  effect_inv (with_start s {| st_effect := native; st_mode := mode; st_binary := path;
                              st_tables := cs_tables s; st_log := cs_log s |}).
Proof.
  intros Hkey Hused Hnonce Hj Hnew [Hst Hd]. split; cbn.
  - intros st [Hin| ->%list_elem_of_singleton]%elem_of_app; [by apply Hst|].
    split; [by eauto|]. exists op, (eff_expires_at_unix effect). auto.
  - rewrite fmap_app. apply NoDup_app. split_and!; [done| |apply NoDup_singleton].
    by intros x Hin ->%list_elem_of_singleton.
Qed.

(** ** Runs *)

Section Run.
Context (native : bytes).
Abbreviation alw := (always (effect_step native)).

(** A call that only leaves its answer *)
Lemma always_noted {A R} (c : effect_call R) (f : R → eprog A) Q s :
  effect_inv s → (∀ r s', effect_change native R c s r s' → s' = s) →
  (∀ r, alw effect_inv (f r) (ends Q (λ _, True)) (note c r s)) →
  alw effect_inv (invoke c ≫= f) (ends Q (λ _, True)) s.
Proof.
  intros HI Hc Hf. apply always_call; [done|]. intros r s' (s1 & ->%Hc & ->). apply Hf.
Qed.
Lemma always_noted_res {A R} (c : effect_call (res R)) (f : R → eprog A) Q s :
  effect_inv s → (∀ r s', effect_change native _ c s r s' → s' = s) →
  (∀ a, alw effect_inv (f a) (ends Q (λ _, True)) (note c (Ok a) s)) →
  alw effect_inv (invoke_res c ≫= f) (ends Q (λ _, True)) s.
Proof.
  intros HI Hc Hf. apply always_call_res; [done| |].
  - intros s' e (s1 & ->%Hc & ->). split; [by apply inv_note|done].
  - intros a s' (s1 & ->%Hc & ->). apply Hf.
Qed.
Ltac noted :=
  first [apply always_noted_res|apply always_noted];
    [repeat apply inv_note; done|intros ? ? Hs; exact Hs|].

Lemma always_challenge {A} (f : _ → eprog A) Q s :
  effect_inv s →
  (∀ nonce pid state release s', effect_inv s' → cs_nonce s' = Some nonce →
     (∃ l, cs_log s' = l ++ cs_log s ∧ Answered Active (Ok state) ∈ l ∧ Answered ProcessId pid ∈ l) →
     pairs_of_hex (act_release_set_sha256 state) = Some release →
     alw effect_inv (f {| chal_nonce := nonce; chal_process_id := pid;
                          chal_installed_release_sha256 := release |})
       (ends Q (λ _, True)) s') →
  alw effect_inv (challenge ≫= f) (ends Q (λ _, True)) s.
Proof.
  intros HI Hf. apply always_bind. unfold challenge. noted. intros state. noted. intros fresh.
  apply always_pure'; [repeat apply inv_note; done|]. intros bytes _.
  apply always_call; [repeat apply inv_note; done|]. intros nonce ? (s1 & [-> Hn] & ->).
  cbn [cs_nonce note with_log] in Hn. set (s1 := note RandomBytes fresh _) in *.
  assert (effect_inv (note (InitNonce bytes) nonce (with_nonce s1 (Some nonce)))) as HI'.
  { apply inv_note, (inv_stable s1); [done..|cbn; lia| |by apply inv_note, inv_note].
    intros n Hs. cbn in Hs |- *. by rewrite Hn, Hs. }
  apply always_pure'; [done|]. intros release Hrel%ok_or_Ok.
  apply always_noted; [done..|]. intros pid.
  apply always_ret; [by apply inv_note|]. apply (Hf _ _ state); [by apply inv_note|done| |done].
  eexists [_; _; _; _]. split; [reflexivity|]. split; repeat first [by left|right].
Qed.

Lemma always_observe {A} (f : _ → eprog A) Q s :
  effect_inv s →
  (∀ os readback network s', effect_inv s' →
     s' = note ReadTables os (with_tables s (Some os)) →
     observe_native_network_identity size_of align_of os = Ok (readback, network) →
     alw effect_inv (f network) (ends Q (λ _, True)) s') →
  alw effect_inv (observe_network size_of align_of ≫= f) (ends Q (λ _, True)) s.
Proof.
  intros HI Hf. apply always_bind. unfold observe_network.
  apply always_call; [done|]. intros os s' (s1 & -> & Hs').
  assert (effect_inv s') as HI' by (rewrite Hs'; by apply inv_note, (inv_stable s)).
  destruct (observe_native_network_identity size_of align_of os) as [[readback network]|e] eqn:Ho;
    apply always_return; try done. by eapply Hf.
Qed.

(** What the checks before the gate establish *)
Definition admission (effect : FleetWindowsRuntimeEffect) (intent : FleetHostIntent)
    (mode : WindowsDatapathMode) (now : Z) (state : activation) (s : controller_state) : Prop :=
  decode_effect native = Ok effect ∧ eff_intent effect = Some intent ∧
  signed_mode effect mode ∧ cs_clock s = now ∧ Answered Active (Ok state) ∈ cs_log s ∧
  ∃ nonce, cs_nonce s = Some nonce ∧ accepted (cs_log s) nonce effect mode now.

(** The check of a configuration with a TUN *)
Lemma always_check_tun {A} mode config spec (f : unit → eprog A) Q s :
  effect_inv s →
  (∀ s', effect_inv s' → cs_nonce s' = cs_nonce s → cs_clock s' = cs_clock s →
     cs_log s ⊆ cs_log s' →
     (mode = WindowsDatapathMode_ManagedTun →
      Answered (RequireManagedTunConfig config) (Ok tt) ∈ cs_log s' ∧
      Answered (VerifyApplicationRoutes config spec) (Ok tt) ∈ cs_log s') →
     alw effect_inv (f tt) (ends Q (λ _, True)) s') →
  alw effect_inv (check_tun_config mode config spec ≫= f) (ends Q (λ _, True)) s.
Proof.
  intros HI Hf. apply always_bind. unfold check_tun_config. case_bool_decide as Hm.
  - noted. intros []. apply always_invoke; [by apply inv_note|]. intros ans s' (s1 & -> & ->).
    apply always_return; [by apply inv_note, inv_note|]. destruct ans as [[]|]; [|done].
    apply Hf; [by apply inv_note, inv_note|done..| |].
    + intros x Hx. by do 2 right.
    + intros _. split; [right; by left|by left].
  - apply always_ret; [done|]. by apply Hf.
Qed.

Lemma always_admit {A} request (f : _ → eprog A) Q s :
  start_native_system_effect request = native → effect_inv s →
  (∀ effect intent mode before now state s', effect_inv s' →
     admission effect intent mode now state s' →
     alw effect_inv (f (effect, intent, mode, before, now, state)) (ends Q (λ _, True)) s') →
  alw effect_inv (admit_effect size_of align_of request ≫= f) (ends Q (λ _, True)) s.
Proof.
  intros Hnat HI Hf. apply always_bind. unfold admit_effect. rewrite Hnat.
  apply always_pure'; [done|]. intros [] _. apply always_pure'; [done|]. intros effect Hdec.
  apply always_pure'; [done|]. intros intent Hint%ok_or_Ok.
  noted. intros []. noted. intros key. set (sa := note _ _ _).
  assert (effect_inv sa) as HIa by (by apply inv_note, inv_note).
  apply always_pure'; [done|]. intros public Hkey%ok_or_Ok.
  apply always_pure'; [done|]. intros [] Hsig. apply always_pure'; [done|].
  intros registry Hreg%map_err_Ok. apply always_pure'; [done|]. intros host Hhost%ok_or_Ok.
  apply always_noted; [done..|]. intros name. set (sb := note _ _ sa).
  assert (effect_inv sb) as HIb by (by apply inv_note).
  apply always_pure'; [done|]. intros computer Hname%ok_or_Ok.
  apply always_pure'; [done|]. intros [] Hpin%fail_if_Ok.
  apply always_pure'; [done|]. intros [] Hown%fail_if_Ok. apply negb_false_iff in Hpin, Hown.
  apply bytes_eqb_true in Hpin.
  apply always_challenge; [done|]. intros nonce pid first release s1 HI1 Hnonce (l & Hl & Hfirst & Hpid) Hrel.
  apply always_noted_res; [done..|]. intros []. apply always_noted; [by apply inv_note|done|].
  intros bytes. set (sc := note _ _ _).
  assert (effect_inv sc) as HIc by (by apply inv_note, inv_note).
  apply always_pure'; [done|]. intros config Hcfg%ok_or_Ok. apply always_pure'; [done|]. intros [] _.
  apply always_call; [done|]. intros t s2' (s2 & [Hs2 Hle] & ->).
  assert (effect_inv s2) as HI2.
  { rewrite Hs2. destruct t as [t|]; [|done]. by apply (inv_stable sc); [..|apply Hle| |]. }
  apply always_pure'; [by apply inv_note|]. intros now Ht%ok_or_Ok. subst t.
  apply always_observe; [by apply inv_note|]. intros os rb before s3 HI3 Hs3 _.
  apply always_pure'; [done|]. intros [] _. apply always_pure'; [done|]. intros [] Hver.
  apply always_pure'; [done|]. intros desired Hdes. apply always_pure'; [done|].
  intros mode Hmode%ok_or_Ok. apply always_check_tun; [done|]. intros s4 HI4 Hn4 Hc4 Hlog4 Htun.
  apply always_noted_res; [done..|]. intros state. apply always_ret; [by apply inv_note|].
  apply Hf; [by apply inv_note|].
  assert (∀ x, x ∈ cs_log s3 → x ∈ cs_log (note Active (Ok state) s4)) as Hsub
    by (intros x Hx; right; by apply Hlog4).
  assert (cs_log s3 = Answered ReadTables os :: Answered UnixTime (Some now)
    :: Answered ReadConfig bytes :: Answered (ProtectedPath true) (Ok tt) :: l
    ++ Answered ComputerName name :: Answered ReadPublicKey key
    :: Answered (ProtectedPath false) (Ok tt) :: cs_log s) as Hlog3.
  { rewrite Hs3, Hs2. cbn [cs_log note with_log with_tables with_clock]. unfold sc.
    cbn [cs_log note with_log]. by rewrite Hl. }
  split_and!; [done|done|by exists desired|by rewrite Hs3, Hs2 in Hc4|by left|].
  exists nonce. split; [cbn [note with_log cs_nonce]; by rewrite Hn4, Hs3, Hs2|].
  exists intent, public, registry, host, computer, first, release, pid, config.
  split_and!; try done;
    try (apply Hsub; rewrite Hlog3, ?Hkey, ?Hname, ?Hcfg; clear -Hfirst Hpid; set_solver).
  intros Hm. destruct (Htun Hm). split; by right.
Qed.

Lemma start_under_gate_always effect intent mode now state s :
  effect_inv s → admission effect intent mode now state s →
  alw effect_inv (start_under_gate size_of align_of effect intent mode now state)
    (λ _ _, True) s.
Proof.
  intros HI (Hdec & Hint & Hmode & Hnow & Hstate & nonce & Hnonce & Hacc). unfold start_under_gate.
  apply (always_post _ _ _ (ends (λ _ _, True) (λ _, True))); [done|].
  apply always_observe; [done|]. intros os rb network s1 HI1 Hs1 Ho.
  apply always_pure'; [done|]. intros [] Hbind. apply always_call; [done|].
  intros r ? (s' & [-> Hu] & ->).
  apply always_pure'; [by apply inv_note|]. intros used Hused%ok_or_Ok%Hu. subst used.
  assert (effect_key native = Some (intent_operation_id intent, eff_expires_at_unix effect))
    as Hkey by (unfold effect_key; by rewrite Hdec, Hint).
  pose proof (accepted_valid _ _ _ _ _ Hacc) as Hlt.
  set (s2 := note LockUsed r s1). assert (effect_inv s2) as HI2 by (by apply inv_note).
  change (cs_used s1) with (cs_used s2).
  assert (cs_clock s2 = now) as Hnow2 by (by unfold s2; subst s1).
  destruct (consume _ _ _ _) as [used' consumed] eqn:Hc.
  apply always_call; [done|]. intros [] ? (s3' & -> & ->).
  destruct consumed as [[]|e].
  2: { apply always_pure'; [|done]. by eapply inv_note, inv_used. }
  destruct (inv_consume _ _ _ _ _ _ Hdec Hkey Hnow2 Hlt Hc HI2) as (HI3 & Hnew & Hin).
  set (s3 := note (StoreUsed used') tt (with_used s2 used')).
  assert (effect_inv s3) as HI3' by (by apply inv_note).
  apply always_pure'; [done|]. intros [] _.
  assert (cs_log s ⊆ cs_log s3) as Hsub.
  { unfold s3, s2. rewrite Hs1. intros x Hx. cbn. by do 3 right. }
  assert (effect_inv (with_start s3 {| st_effect := native; st_mode := mode;
    st_binary := act_sing_box_path state; st_tables := cs_tables s3; st_log := cs_log s3 |})) as Hstart.
  { apply (inv_start _ _ _ _ effect nonce (intent_operation_id intent));
      [done|done|unfold s3, s2; by rewrite Hs1| |done|done].
    exists effect, now. split_and!; [done|by eapply accepted_log|by exists state; auto|done|].
    exists os, rb, network. split_and!; [unfold s3, s2; by rewrite Hs1|done|].
    unfold verify_native_network_binding in Hbind.
    apply fail_if_Ok, orb_false_iff in Hbind as [_ Hb]. by apply negb_false_iff, bytes_eqb_true in Hb. }
  destruct mode; try (by apply always_return);
    (apply always_invoke; [done|]; intros r' ? (s4 & [->|[_ ->]] & ->);
     apply always_return; [by apply inv_note|by destruct r'|by apply inv_note|by destruct r']).
Qed.

(** The gate is held during [p] and released after it. *)
Lemma always_gated {A B} (p : eprog A) (f : A → eprog B) Q s :
  effect_inv s → (∀ locked, alw effect_inv p (λ _ _, True) (note LockGate locked s)) →
  (∀ a s', effect_inv s' → alw effect_inv (f a) (ends Q (λ _, True)) s') →
  alw effect_inv (gated p ≫= f) (ends Q (λ _, True)) s.
Proof.
  intros HI Hp Hf. apply always_bind. unfold gated.
  noted. intros locked. apply always_pure'; [by apply inv_note|]. intros [] _.
  apply always_sbind. eapply always_mono; [| |exact (Hp locked)]; [done|].
  intros r s1 HI1 _. noted. intros []. apply always_return; [by apply inv_note|].
  destruct r; [by apply Hf, inv_note|done].
Qed.

Lemma execute_always request s :
  start_native_system_effect request = native → effect_inv s →
  alw effect_inv (execute size_of align_of request) (ends (λ _ _, True) (λ _, True)) s.
Proof.
  intros Hnat HI. unfold execute. apply always_admit; [done|done|].
  intros effect intent mode before now state s1 HI1 Hadm.
  apply always_gated; [done| |].
  { intros locked. apply start_under_gate_always; [by apply inv_note|].
    destruct Hadm as (? & ? & ? & ? & ? & nonce & ? & ?). split_and!; try done; [by right|].
    exists nonce. split; [done|]. eapply accepted_log; [|done]. intros x ?. by right. }
  intros started s2 HI2. noted. intros []. apply always_bind. set (s2' := note _ _ _).
  assert (effect_inv s2') as HI2' by (by apply inv_note).
  assert (alw effect_inv (check_after size_of align_of mode before)
    (ends (λ _ _, True) (λ _, True)) s2') as Hcheck.
  { destruct mode; cbn [check_after]; [by apply always_return| |].
    - apply always_observe; [done|]. intros os rb after s3 HI3 _ _. apply always_return; [done|].
      by destruct (require_restored _ _).
    - apply always_call; [done|]. intros os s3 (s3' & -> & ->).
      assert (effect_inv (note ReadTables os (with_tables s2' (Some os))))
        by (by apply inv_note, (inv_stable s2')).
      apply always_pure'; [done|]. intros after _. apply always_return; [done|].
      by destruct (require_foreign_network_preserved _ _). }
  eapply always_mono; [| |exact Hcheck]; [done|]. intros [[]|] s3 HI3 _; [|done].
  by apply always_ret.
Qed.
End Run.

(** ** Histories *)

(** Requests to one process, one after the other, each stopped anywhere *)
Inductive effect_history (s0 : controller_state) : controller_state → Prop :=
| effects_start : effect_history s0 s0
| effects_execute request s s' :
    effect_history s0 s →
    during (effect_step (start_native_system_effect request))
      (execute size_of align_of request) (begin_request s) s' →
    effect_history s0 s'.

(** C15: Over any sequence of start requests to one process of the controller, one
    after the other, each stopped at any call, with a clock that does not go back: no
    effect starts the child twice, and every start was accepted against what its own
    request read. SYSTEM signed the effect with the key on the disk, which the
    registry pins for the host of this computer; the effect names the nonce of this
    process, the process and the installed release, the digest of the configuration on
    the disk and an expiry after the time that was read, and the Worker authorized it;
    the child runs the installed binary in the mode of the signed specification, a
    configuration with a TUN was checked, and the tables read last before the start
    have the digest SYSTEM signed. *)
Theorem effects_start_once s0 s :
  cs_starts s0 = [] → effect_history s0 s →
  NoDup ((λ st, effect_key (st_effect st)) <$> cs_starts s) ∧
  ∀ st, st ∈ cs_starts s → ∃ nonce, cs_nonce s = Some nonce ∧ justified nonce st.
Proof.
  intros Hs0 Hh. enough (effect_inv s) as [Hst Hd].
  { split; [done|]. intros st Hin. apply (Hst st Hin). }
  induction Hh as [|request s s' _ IH Hd].
  - split; rewrite Hs0; [|constructor]. by intros st ?%elem_of_nil.
  - eapply always_during; [|exact Hd]. apply execute_always; [done|].
    by apply (inv_stable s).
Qed.
End Starts.

(** ** A process on which every call succeeds *)

Module EffectSample.
Definition system_private : bytes := as_bytes "system".
Definition worker_private : bytes := as_bytes "worker".
Definition windows : FleetHost := {|
  host_machine_id := "pc-1"; host_kind := 1;
  host_owner := Some (Owner_WindowsRunnerName "runner-1");
  host_windows_runner_label := "label-1";
  host_desired_spec_path := "infra/production/production.textproto";
  host_target := Some {| target_run_state := 2; target_windows_mode := 0 |};
  host_vm_containers := []; host_native_receipt_public_key := sha256_fips system_private;
  host_vm_first_use_credential := None;
  host_worker_authority_public_key := sha256_fips worker_private;
  host_vm_provider_spec_path := "" |}.
Definition registry : FleetDesiredState :=
  {| registry_schema_version := 1; registry_hosts := [windows] |}.
#[local] Instance registry_message : Message FleetDesiredState := table_message [registry].
#[local] Instance text : ProductionText := {| parse_production_desired_text := λ _, Ok 1 |}.
#[local] Instance other_message A : Message A | 100 := null_message A.
Definition spec : bytes := [x0a].
Definition config : bytes := [x0b].

Definition intent : FleetHostIntent := {|
  intent_schema_version := 1; intent_machine_id := "pc-1"; intent_kind := 1;
  intent_resource_id := "sing-box"; intent_operation_id := "op-1";
  intent_action := as_i32 FleetHostAction_Start; intent_registry_sha256 := sha256_fips [x01];
  intent_desired_sha256 := sha256_fips (host_desired_payload windows spec);
  intent_release_set_sha256 := sha256_fips [x02];
  intent_requested_mode := 0; intent_requested_at_unix := 5;
  intent_network_admission := None |}.
Definition unsigned_auth : FleetHostAuthorization := {|
  auth_schema_version := 1; auth_key_id := "k1"; auth_operation_id := "op-1";
  auth_issued_at_unix := 1000; auth_expires_at_unix := 1200; auth_ed25519_signature := [] |}.
Definition auth : FleetHostAuthorization := {|
  auth_schema_version := 1; auth_key_id := "k1"; auth_operation_id := "op-1";
  auth_issued_at_unix := 1000; auth_expires_at_unix := 1200;
  auth_ed25519_signature :=
    ed25519_sign worker_private (host_authorization_payload intent unsigned_auth) |}.
Definition nonce : bytes := replicate 32 x07.
Definition release_text : string := hex_of_bytes (replicate 32 x09).
Definition unsigned : FleetWindowsRuntimeEffect := {|
  eff_schema_version := 1; eff_intent := Some intent; eff_authorization := Some auth;
  eff_challenge := Some {| chal_nonce := nonce; chal_process_id := 77;
                           chal_installed_release_sha256 := replicate 32 x09 |};
  eff_config_sha256 := sha256_fips config; eff_expires_at_unix := 1100;
  eff_system_signature := []; eff_registry_pb := [x01]; eff_selected_spec_bytes := spec;
  eff_before_network_sha256 := signed_prebegin_digest WindowsSample.before |}.
Definition signed : FleetWindowsRuntimeEffect := with_system_signature unsigned
  (ed25519_sign system_private (as_bytes "sing-box/windows-runtime-effect/v1:" ++ [x01])).
#[local] Instance effect_message : Message FleetWindowsRuntimeEffect :=
  table_message [unsigned; signed].
Definition request : StartLocalRuntimeRequest := {|
  start_singbox_binary_path := None; start_config_path := None; start_state_path := None;
  start_force_restart := false; start_visible_window := false;
  start_native_system_effect := [x01; x01] |}.

Definition change (R : Type) (c : effect_call R) (s : controller_state)
    : R * controller_state :=
  match c in effect_call R return R * controller_state with
  | Active => (Ok {| act_release_set_sha256 := release_text;
                     act_sing_box_path := "C:\edge\sing-box.exe" |}, s)
  | RandomBytes => (Some nonce, s)
  | InitNonce fresh =>
      (default fresh (cs_nonce s), with_nonce s (Some (default fresh (cs_nonce s))))
  | ProcessId => (77, s)
  | ProtectedPath _ => (Ok tt, s)
  | ReadPublicKey => (Some (sha256_fips system_private), s)
  | ComputerName => (Some "RUNNER-1", s)
  | ReadConfig => (Some config, s)
  | UnixTime => (Some (Z.max (cs_clock s) 1050), with_clock s (Z.max (cs_clock s) 1050))
  | ReadTables =>
      (WindowsSample.tables false 5216, with_tables s (Some (WindowsSample.tables false 5216)))
  | RequireManagedTunConfig _ | VerifyApplicationRoutes _ _ => (Ok tt, s)
  | LockGate => (true, s)
  | UnlockGate => (tt, s)
  | LockUsed => (Some (cs_used s), s)
  | StoreUsed used => (tt, with_used s used)
  | StartChild mode path =>
      (Ok {| run_pid := Some 5; run_note := ""; run_warnings := [] |},
       with_start s {| st_effect := start_native_system_effect request; st_mode := mode;
                       st_binary := path; st_tables := cs_tables s; st_log := cs_log s |})
  | Supervise _ => (tt, s)
  end.
Definition answer (R : Type) (c : effect_call R) (s : controller_state)
    : R * controller_state := let '(r, s') := change R c s in (r, note c r s').
Lemma change_step R (c : effect_call R) s :
  effect_change (start_native_system_effect request) R c s (change R c s).1 (change R c s).2.
Proof.
  destruct c; cbn [change effect_change fst snd]; try exact eq_refl; try (split; [exact eq_refl|]).
  - exact eq_refl.
  - intros z [= <-]. lia.
  - by intros used [= <-].
  - by left.
Qed.
Lemma process_answer_step R (c : effect_call R) s :
  effect_step (start_native_system_effect request) R c s (answer R c s).1 (answer R c s).2.
Proof.
  pose proof (change_step R c s) as Hc. unfold answer. destruct (change R c s) as [r s'].
  by exists s'.
Qed.

Definition idle : controller_state := {|
  cs_used := ∅; cs_starts := []; cs_clock := 1000; cs_nonce := None; cs_tables := None;
  cs_log := [] |}.
Definition program : eprog LocalRuntimeResponse :=
  execute WindowsSample.size_of WindowsSample.align_of request.
Definition once : controller_state := (exec answer program (begin_request idle)).2.
Definition again : controller_state := (exec answer program (begin_request once)).2.

(** The first request starts the child, its replay does not. *)
Example sample_effect :
  is_ok (exec answer program (begin_request idle)).1 = true ∧
  (exec answer program (begin_request once)).1 = Err "HOST_WINDOWS_EFFECT_ALREADY_CONSUMED_NO_REPLAY" ∧
  length (cs_starts again) = 1%nat.
Proof. vm_compute. done. Qed.

Lemma program_history s :
  effect_history WindowsSample.size_of WindowsSample.align_of idle s →
  effect_history WindowsSample.size_of WindowsSample.align_of idle
    (exec answer program (begin_request s)).2.
Proof.
  intros Hh. eapply (effects_execute _ _ _ request); [exact Hh|].
  apply (returns_during _ _ _ (exec answer program (begin_request s)).1), exec_returns.
  intros R c s'. apply process_answer_step.
Qed.

Lemma effects_start_once_witness :
  length (cs_starts again) = 1%nat ∧
  NoDup ((λ st, effect_key (st_effect st)) <$> cs_starts again).
Proof.
  split; [vm_compute; reflexivity|].
  apply (effects_start_once WindowsSample.size_of WindowsSample.align_of idle again);
    [reflexivity|].
  apply program_history, program_history, effects_start.
Defined.
End EffectSample.
