(* ===== verification/HostAttestations.v ===== *)
(** * Receipts and attestations

    [edge-shared-types/src]: the signed receipt of a native owner ([host_receipt.rs]), the
    challenge answered by the serving Worker ([host_signer_attestation.rs]), the fingerprint
    of a first-use probe ([initial_credential_attestation.rs]) and the sealed envelope that
    carries the first identity of a VM ([vm_bootstrap.rs]). The key agreement, the key
    derivation and the authenticated encryption of ring and x25519-dalek are the class
    [SealedBox]. *)

From S2P Require Import Prelude RustStd HostTypes ResourceGraph HostLifecycle Credentials Concrete.

(** ** Messages *)

Record FleetHostReceipt : Set := {
  rcpt_schema_version : Z; rcpt_result : option FleetHostResult; rcpt_ed25519_signature : bytes
}.
#[global] Instance FleetHostReceipt_eq_dec : EqDecision FleetHostReceipt.
Proof. solve_decision. Defined.
Record FleetHostSignerAttestation : Set := {
  sa_schema_version : Z; sa_challenge : bytes; sa_public_key : bytes; sa_key_id : string;
  sa_issued_at_unix : Z; sa_ed25519_signature : bytes
}.
Record FleetVmBootstrapKeyProof : Set := {
  bkp_schema_version : Z; bkp_machine_id : string; bkp_release_set_sha256 : bytes;
  bkp_native_receipt_public_key : bytes; bkp_recipient_x25519_public_key : bytes;
  bkp_native_signature : bytes
}.
Record FleetVmBootstrapAccessEnvelope : Set := {
  env_schema_version : Z; env_recipient : option FleetVmBootstrapKeyProof;
  env_sender_x25519_public_key : bytes; env_nonce : bytes; env_ciphertext : bytes
}.
#[global] Instance FleetVmBootstrapKeyProof_eq_dec : EqDecision FleetVmBootstrapKeyProof.
Proof. solve_decision. Defined.

(** ** Receipts of a native owner *)

Module Receipt.
Definition MAX_NATIVE_RECEIPT_BYTES : Z := 8192.

Section Receipts.
Context `{Message FleetHostIntent} `{Message FleetHostResult} `{Message FleetHostReceipt}
  `{Ed25519}.

Definition payload (intent : FleetHostIntent) (result : FleetHostResult) : bytes :=
  as_bytes "sing-box/native-owner-receipt/v1:" ++ framed 4 (encode_to_vec intent)
  ++ framed 4 (encode_to_vec result).

Definition check_native_receipt_key (host : FleetHost) (pkcs8 : bytes) : res unit :=
  let expected := host_native_receipt_public_key host in
  fail_if (negb (blen expected =? 32) || all_zero expected)
    "HOST_NATIVE_RECEIPT_GIT_PUBLIC_KEY_MISSING" ;;
  public ← ok_or (ed25519_public_key pkcs8) "HOST_NATIVE_RECEIPT_SIGNER_INVALID";
  fail_if (negb (bytes_eqb public expected)) "HOST_NATIVE_RECEIPT_PUBLIC_KEY_MISMATCH".

Definition sign_native_receipt (intent : FleetHostIntent) (result : FleetHostResult)
    (host : FleetHost) (pkcs8 : bytes) : res FleetHostReceipt :=
  check_native_receipt_key host pkcs8 ;;
  validate_unattested_native_result result intent ;;
  fail_if (negb (str_eqb (host_machine_id host) (intent_machine_id intent))
           || negb (host_kind host =? intent_kind intent))
    "HOST_NATIVE_RECEIPT_HOST_MISMATCH" ;;
  _ ← ok_or (ed25519_public_key pkcs8) "HOST_NATIVE_RECEIPT_SIGNER_INVALID";
  let receipt := {| rcpt_schema_version := 1; rcpt_result := Some result;
                    rcpt_ed25519_signature := ed25519_sign pkcs8 (payload intent result) |} in
  fail_if (MAX_NATIVE_RECEIPT_BYTES <? blen (encode_to_vec receipt))
    "HOST_NATIVE_RECEIPT_TOO_LARGE" ;;
  Ok receipt.

Definition decode_native_receipt (b : bytes) : res FleetHostReceipt :=
  fail_if (is_empty b || (MAX_NATIVE_RECEIPT_BYTES <? blen b))
    "HOST_NATIVE_RECEIPT_SIZE_INVALID" ;;
  receipt ← ok_or (decode b) "HOST_NATIVE_RECEIPT_PROTO_INVALID";
  fail_if (negb (bytes_eqb (encode_to_vec (receipt : FleetHostReceipt)) b))
    "HOST_NATIVE_RECEIPT_NONCANONICAL" ;;
  Ok receipt.

Definition verify_native_receipt (intent : FleetHostIntent) (receipt : FleetHostReceipt)
    (host : FleetHost) : res FleetHostResult :=
  fail_if (negb (rcpt_schema_version receipt =? 1)
           || negb (blen (rcpt_ed25519_signature receipt) =? 64)
           || negb (str_eqb (host_machine_id host) (intent_machine_id intent))
           || negb (host_kind host =? intent_kind intent)
           || negb (blen (host_native_receipt_public_key host) =? 32)
           || all_zero (host_native_receipt_public_key host))
    "HOST_NATIVE_RECEIPT_IDENTITY_UNPROVEN" ;;
  result ← ok_or (rcpt_result receipt) "HOST_NATIVE_RECEIPT_RESULT_MISSING";
  validate_unattested_native_result result intent ;;
  fail_if (negb (ed25519_verify (host_native_receipt_public_key host) (payload intent result)
                   (rcpt_ed25519_signature receipt)))
    "HOST_NATIVE_RECEIPT_SIGNATURE_INVALID" ;;
  Ok result.
End Receipts.
End Receipt.

(** ** The serving Worker *)

Module Signer.
Definition MAX_ATTESTATION_BYTES : Z := 512.
Definition signer_id_char (c : ascii) : bool := is_ascii_alphanumeric c || one_of "._:-" c.

Section Attestation.
Context `{Message FleetHostSignerAttestation} `{Ed25519}.

Definition message (proof : FleetHostSignerAttestation) : bytes :=
  as_bytes "sing-box/host-signer-identity/v1:" ++ sa_challenge proof ++ sa_public_key proof
  ++ framed 4 (as_bytes (sa_key_id proof)) ++ u64_to_be_bytes (sa_issued_at_unix proof).

Definition verify_active_worker_identity (raw challenge git_public_key : bytes) (now : Z)
    : res unit :=
  fail_if (is_empty raw || (MAX_ATTESTATION_BYTES <? blen raw))
    "HOST_SIGNER_ATTESTATION_SIZE_INVALID" ;;
  proof ← ok_or (decode raw) "HOST_SIGNER_ATTESTATION_PROTO_INVALID";
  fail_if (negb (bytes_eqb (encode_to_vec (proof : FleetHostSignerAttestation)) raw)
           || negb (sa_schema_version proof =? 1)
           || negb (bytes_eqb (sa_challenge proof) challenge)
           || negb (blen (sa_public_key proof) =? 32)
           || all_zero (sa_public_key proof)
           || negb (blen git_public_key =? 32)
           || all_zero git_public_key
           || negb (bytes_eqb (sa_public_key proof) git_public_key)
           || str_empty (sa_key_id proof)
           || (128 <? slen (sa_key_id proof))
           || negb (str_all signer_id_char (sa_key_id proof))
           || (sa_issued_at_unix proof =? 0)
           || (u64_saturating_add now 30 <? sa_issued_at_unix proof)
           || (120 <? u64_saturating_sub now (sa_issued_at_unix proof))
           || negb (blen (sa_ed25519_signature proof) =? 64))
    "HOST_SIGNER_ATTESTATION_IDENTITY_OR_FRESHNESS_INVALID" ;;
  fail_if (negb (ed25519_verify git_public_key (message proof) (sa_ed25519_signature proof)))
    "HOST_SIGNER_ATTESTATION_SIGNATURE_INVALID".
End Attestation.
End Signer.

(** ** The first-use probe *)

Module FirstUse.
Definition CREDENTIAL_DUMMY_PROBE_GENERATION_A : Z := 9000001.
Definition CREDENTIAL_DUMMY_PROBE_GENERATION_B : Z := 9000002.

Definition lowercase_sha256 (value : string) : bool :=
  (slen value =? 64) && str_all is_lower_hex value.

(** [as_str_name] *)
Definition projection_name (p : CredentialProjectionKind) : string :=
  match p with
  | Projection_Unspecified => "CREDENTIAL_PROJECTION_KIND_UNSPECIFIED"
  | Projection_Windows => "CREDENTIAL_PROJECTION_KIND_WINDOWS"
  | Projection_Vm => "CREDENTIAL_PROJECTION_KIND_VM"
  end.
Definition slot_name (s : CredentialDeliverySlot) : string :=
  match s with
  | Slot_Unspecified => "CREDENTIAL_DELIVERY_SLOT_UNSPECIFIED"
  | Slot_A => "CREDENTIAL_DELIVERY_SLOT_A"
  | Slot_B => "CREDENTIAL_DELIVERY_SLOT_B"
  end.

(** The hashed fields, each with its length *)
Definition attestation_bytes (projection : CredentialProjectionKind) (generation : Z)
    (slot : CredentialDeliverySlot) (provider_intent_sha256 release_set_sha256 machine : string)
    (github_run_id : Z) : bytes :=
  as_bytes "sing-box.initial-owner-probe/v1"
  ++ flat_map (framed 4)
       [as_bytes (projection_name projection); u64_to_be_bytes generation;
        as_bytes (slot_name slot); as_bytes provider_intent_sha256;
        as_bytes release_set_sha256; as_bytes machine; u64_to_be_bytes github_run_id].

Definition first_use_host_attestation_sha256 `{Sha256}
    (projection : CredentialProjectionKind) (generation : Z) (slot : CredentialDeliverySlot)
    (provider_intent_sha256 release_set_sha256 host_identity : string) (github_run_id : Z)
    : res string :=
  fail_if (negb (bool_decide (projection = Projection_Vm ∨ projection = Projection_Windows))
           || negb (bool_decide (slot = Slot_A ∨ slot = Slot_B))
           || (generation =? 0)
           || (generation =? CREDENTIAL_DUMMY_PROBE_GENERATION_A)
           || (generation =? CREDENTIAL_DUMMY_PROBE_GENERATION_B))
    "initial attestation requires a real generation, projection and fixed slot" ;;
  fail_if (negb (lowercase_sha256 provider_intent_sha256)
           || negb (lowercase_sha256 release_set_sha256))
    "initial attestation requires exact lowercase SHA-256 inputs" ;;
  fail_if (github_run_id =? 0)
    "initial attestation requires non-zero GitHub run identity" ;;
  let machine := trim host_identity in
  fail_if (str_empty machine || (256 <? slen machine)
           || negb (str_all (λ c, negb (Ascii.eqb c "010" || Ascii.eqb c "013")) machine))
    "initial attestation needs a bounded local machine identity" ;;
  Ok (hex_of_bytes (sha256 (attestation_bytes projection generation slot
        provider_intent_sha256 release_set_sha256 machine github_run_id))).
End FirstUse.

(** ** The sealed first identity of a VM *)

(** [x25519_dalek]: public keys and agreement; [ring::hkdf]: the derived key;
    [ring::aead] with ChaCha20-Poly1305, whose tag has 16 bytes *)
Class SealedBox := {
  x25519_public : bytes → bytes;
  diffie_hellman : bytes → bytes → bytes;
  hkdf_sha256 : bytes → bytes → bytes → option bytes;
  aead_seal : bytes → bytes → bytes → bytes → option bytes;
  aead_open : bytes → bytes → bytes → bytes → option bytes
}.
(** Both sides agree on the same secret, keys have 32 bytes and one can always be derived;
    a short text can be sealed under a key of 32 bytes and a nonce of 12; what was sealed
    opens under the same key, nonce and additional data, and is longer by its tag. *)
Class SealedBoxLaws `{SealedBox} : Prop := {
  x25519_public_length s : length (x25519_public s) = 32%nat;
  diffie_hellman_agree a b :
    diffie_hellman a (x25519_public b) = diffie_hellman b (x25519_public a);
  hkdf_sha256_total salt secret info :
    ∃ key, hkdf_sha256 salt secret info = Some key ∧ length key = 32%nat;
  aead_seal_total key nonce aad clear :
    length key = 32%nat → length nonce = 12%nat → blen clear ≤ 1024 →
    ∃ c, aead_seal key nonce aad clear = Some c;
  aead_seal_length key nonce aad clear c :
    aead_seal key nonce aad clear = Some c → blen c = blen clear + 16;
  aead_seal_open key nonce aad clear c :
    aead_seal key nonce aad clear = Some c → aead_open key nonce aad c = Some clear
}.

Module Bootstrap.
Definition PURPOSE : bytes := as_bytes "sing-box/vm-first-use-access/v1".
Definition MAX_IDENTITY_BYTES : Z := 1024.

Definition with_native_signature (p : FleetVmBootstrapKeyProof) (signature : bytes)
    : FleetVmBootstrapKeyProof := {|
  bkp_schema_version := bkp_schema_version p; bkp_machine_id := bkp_machine_id p;
  bkp_release_set_sha256 := bkp_release_set_sha256 p;
  bkp_native_receipt_public_key := bkp_native_receipt_public_key p;
  bkp_recipient_x25519_public_key := bkp_recipient_x25519_public_key p;
  bkp_native_signature := signature |}.

Definition machine_id_char (c : ascii) : bool :=
  is_ascii_lowercase c || is_ascii_digit c || Ascii.eqb c "-".

Definition validate_fields (p : FleetVmBootstrapKeyProof) : res unit :=
  fail_if (negb (bkp_schema_version p =? 1)
           || str_empty (bkp_machine_id p) || (63 <? slen (bkp_machine_id p))
           || negb (str_all machine_id_char (bkp_machine_id p))
           || starts_with "-" (bkp_machine_id p) || ends_with "-" (bkp_machine_id p)
           || negb (blen (bkp_release_set_sha256 p) =? 32)
           || negb (blen (bkp_native_receipt_public_key p) =? 32)
           || negb (blen (bkp_recipient_x25519_public_key p) =? 32)
           || all_zero (bkp_release_set_sha256 p)
           || all_zero (bkp_native_receipt_public_key p)
           || all_zero (bkp_recipient_x25519_public_key p))
    "BOOTSTRAP_RECIPIENT_SCOPE_INVALID".

(** [SystemRandom]: [None] when it fails *)
Definition fresh_recipient `{SealedBox} (random : option bytes) : res (bytes * bytes) :=
  secret ← ok_or random "BOOTSTRAP_RANDOM_FAILED";
  Ok (secret, x25519_public secret).

Section Envelope.
Context `{Message FleetVmBootstrapKeyProof} `{Sha256} `{Ed25519} `{SealedBox}.

Definition unsigned_proof_bytes (proof : FleetVmBootstrapKeyProof) : bytes :=
  encode_to_vec (with_native_signature proof []).

Definition sign_root_proof (machine_id : string)
    (release_digest recipient_public_key root_receipt_pkcs8 : bytes)
    : res FleetVmBootstrapKeyProof :=
  public ← ok_or (ed25519_public_key root_receipt_pkcs8) "BOOTSTRAP_RECEIPT_KEY_INVALID";
  let proof := {| bkp_schema_version := 1; bkp_machine_id := machine_id;
    bkp_release_set_sha256 := release_digest; bkp_native_receipt_public_key := public;
    bkp_recipient_x25519_public_key := recipient_public_key; bkp_native_signature := [] |} in
  validate_fields proof ;;
  Ok (with_native_signature proof (ed25519_sign root_receipt_pkcs8 (unsigned_proof_bytes proof))).

Definition verify_root_proof (proof : FleetVmBootstrapKeyProof) : res unit :=
  validate_fields proof ;;
  fail_if (negb (blen (bkp_native_signature proof) =? 64)) "BOOTSTRAP_ROOT_SIGNATURE_INVALID" ;;
  fail_if (negb (ed25519_verify (bkp_native_receipt_public_key proof)
                   (unsigned_proof_bytes proof) (bkp_native_signature proof)))
    "BOOTSTRAP_ROOT_SIGNATURE_INVALID".

Definition derived_key (shared : bytes) (proof : FleetVmBootstrapKeyProof) : res bytes :=
  fail_if (all_zero shared) "BOOTSTRAP_DH_INVALID" ;;
  ok_or (hkdf_sha256 (sha256 (encode_to_vec proof)) shared PURPOSE) "BOOTSTRAP_KDF_INVALID".

(** [random], [nonce]: what [SystemRandom] gives for the key of the sender and the nonce *)
Definition seal_for_native_root (proof : FleetVmBootstrapKeyProof) (secret_identity : bytes)
    (random nonce : option bytes) : res FleetVmBootstrapAccessEnvelope :=
  verify_root_proof proof ;;
  fail_if (is_empty secret_identity || (MAX_IDENTITY_BYTES <? blen secret_identity))
    "BOOTSTRAP_IDENTITY_LENGTH_INVALID" ;;
  '(sender_private, sender_public) ← fresh_recipient random;
  fail_if (negb (blen (bkp_recipient_x25519_public_key proof) =? 32))
    "BOOTSTRAP_RECIPIENT_SCOPE_INVALID" ;;
  let shared := diffie_hellman sender_private (bkp_recipient_x25519_public_key proof) in
  key ← derived_key shared proof;
  nonce ← ok_or nonce "BOOTSTRAP_RANDOM_FAILED";
  ciphertext ← ok_or (aead_seal key nonce (encode_to_vec proof) secret_identity)
                 "BOOTSTRAP_ENCRYPT_FAILED";
  Ok {| env_schema_version := 1; env_recipient := Some proof;
        env_sender_x25519_public_key := sender_public; env_nonce := nonce;
        env_ciphertext := ciphertext |}.

Definition open_for_native_root (envelope : FleetVmBootstrapAccessEnvelope)
    (recipient_secret : bytes) : res bytes :=
  fail_if (negb (env_schema_version envelope =? 1)
           || negb (blen (env_sender_x25519_public_key envelope) =? 32)
           || negb (blen (env_nonce envelope) =? 12)
           || (blen (env_ciphertext envelope) <? 17)
           || (MAX_IDENTITY_BYTES + 16 <? blen (env_ciphertext envelope)))
    "BOOTSTRAP_ENVELOPE_INVALID" ;;
  proof ← ok_or (env_recipient envelope) "BOOTSTRAP_RECIPIENT_MISSING";
  verify_root_proof proof ;;
  fail_if (negb (bytes_eqb (bkp_recipient_x25519_public_key proof)
                   (x25519_public recipient_secret))) "BOOTSTRAP_RECIPIENT_MISMATCH" ;;
  let shared := diffie_hellman recipient_secret (env_sender_x25519_public_key envelope) in
  key ← derived_key shared proof;
  ok_or (aead_open key (env_nonce envelope) (encode_to_vec proof) (env_ciphertext envelope))
    "BOOTSTRAP_AUTHENTICATION_FAILED".
End Envelope.
End Bootstrap.

(** * Theorems

    A signed native receipt travels, verifies and signs one intent with one result; the
    fingerprint of a first-use probe binds everything it is computed from; an identity sealed
    for the root of a VM is opened by that root and by no other key. *)

(** ** Receipts *)

Section ReceiptFacts.
Import Receipt.
Context `{MessageLaws FleetHostIntent RI} `{MessageLaws FleetHostResult RR}
  `{MessageLaws FleetHostReceipt R} `{Ed25519Laws}.

Lemma check_native_receipt_key_Ok host key :
  check_native_receipt_key host key = Ok tt ↔
  ed25519_public_key key = Some (host_native_receipt_public_key host) ∧
  all_zero (host_native_receipt_public_key host) = false.
Proof.
  unfold check_native_receipt_key. split.
  - intros Hc. inv_ok Hc. apply orb_false_iff in Hm as [_ Hz].
    apply negb_false, bytes_eqb_true in Hc. naive_solver.
  - intros [Hk Hz]. rewrite Hz, Hk. unfold blen. rewrite (ed25519_public_key_length _ _ Hk).
    cbn. by rewrite (proj2 (bytes_eqb_true _ _) eq_refl).
Qed.

Lemma sign_native_receipt_verifies intent result host key receipt :
  sign_native_receipt intent result host key = Ok receipt →
  verify_native_receipt intent receipt host = Ok result ∧
  blen (encode_to_vec receipt) ≤ MAX_NATIVE_RECEIPT_BYTES.
Proof.
  unfold sign_native_receipt. intros Hs.
  apply bind_Ok in Hs as ([] & [Hk Hz]%check_native_receipt_key_Ok & Hs).
  apply bind_Ok in Hs as ([] & Hv & Hs). apply bind_Ok in Hs as ([] & Hh & Hs).
  rewrite Hk in Hs. cbn [ok_or mbind result_bind] in Hs.
  apply bind_Ok in Hs as ([] & Hlen & [= <-]). reflect_in Hlen. split; [|done].
  apply fail_if_Ok, orb_false_iff in Hh as [Hm Hkind].
  unfold verify_native_receipt. cbn [rcpt_schema_version rcpt_ed25519_signature rcpt_result].
  rewrite Hm, Hkind, Hz. unfold blen at 1 2.
  rewrite ed25519_sign_length, (ed25519_public_key_length _ _ Hk).
  cbn [negb orb Z.eqb Z.of_nat fail_if ok_or mbind result_bind]. rewrite Hv.
  cbn [mbind result_bind]. by rewrite (ed25519_sign_verify _ _ _ Hk).
Qed.

Lemma receipt_payload_inj intent intent' result result' :
  RI intent → RI intent' → RR result → RR result' →
  Forall (λ b, blen b ≤ u32_max) [encode_to_vec intent; encode_to_vec intent';
    encode_to_vec result; encode_to_vec result'] →
  payload intent result = payload intent' result' → intent = intent' ∧ result = result'.
Proof.
  intros Hi Hi' Hr Hr' Hlen E. unfold payload in E. apply app_inj_len in E as [_ E]; [|done].
  rewrite !Forall_cons in Hlen. destruct Hlen as (? & ? & ? & ? & _). unfold u32_max in *.
  apply framed_inj in E as [Ei E]; [|simpl; lia..].
  rewrite <- (app_nil_r (framed 4 (encode_to_vec result))),
    <- (app_nil_r (framed 4 (encode_to_vec result'))) in E.
  apply framed_inj in E as [Er _]; [|simpl; lia..].
  split; eapply encode_inj; eauto.
Qed.

(** A native receipt is exact: what an owner signs is read back by the controller from
    its bytes, verifies for that intent under the key pinned for the host and gives
    that result; and the signature is of no other message: another intent or another
    result, also a different split of the same bytes between them, has another signed
    text. *)
Theorem native_receipt_exact intent result host key receipt :
  RI intent → RR result → R receipt → encode_to_vec receipt ≠ [] →
  sign_native_receipt intent result host key = Ok receipt →
  decode_native_receipt (encode_to_vec receipt) = Ok receipt ∧
  verify_native_receipt intent receipt host = Ok result ∧
  ∀ intent' result', RI intent' → RR result' → (intent', result') ≠ (intent, result) →
    Forall (λ b, blen b ≤ u32_max) [encode_to_vec intent; encode_to_vec intent';
      encode_to_vec result; encode_to_vec result'] →
    payload intent' result' ≠ payload intent result.
Proof.
  intros Hi Hr HR Hne [Hv Hlen]%sign_native_receipt_verifies. split; [|split; [done|]].
  - unfold decode_native_receipt. rewrite (proj2 (is_empty_false _) Hne), (proj2 (Z.ltb_ge _ _) Hlen).
    cbn. rewrite decode_encode by done. cbn. by rewrite (proj2 (bytes_eqb_true _ _) eq_refl).
  - intros intent' result' Hi' Hr' Hneq Hl E. apply Hneq.
    symmetry in E. apply receipt_payload_inj in E as [-> ->]; done.
Qed.
End ReceiptFacts.

(** ** The first-use probe *)

Section FirstUseFacts.
Import FirstUse.
Context `{Sha256}.

Lemma projection_name_inj p q : projection_name p = projection_name q → p = q.
Proof. by destruct p, q. Qed.
Lemma slot_name_inj s t : slot_name s = slot_name t → s = t.
Proof. by destruct s, t. Qed.

Lemma flat_map_framed_inj n xs ys :
  length xs = length ys →
  Forall (λ x, blen x < 256 ^ Z.of_nat n) xs → Forall (λ x, blen x < 256 ^ Z.of_nat n) ys →
  flat_map (framed n) xs = flat_map (framed n) ys → xs = ys.
Proof.
  revert ys. induction xs as [|x xs IH]; intros [|y ys] Hl Hx Hy E; try done.
  decompose_Forall_hyps. apply framed_inj in E as [-> E]; [|done..]. f_equal. eauto.
Qed.

Lemma u64_to_be_bytes_inj a b :
  in_u64 a → in_u64 b → u64_to_be_bytes a = u64_to_be_bytes b → a = b.
Proof. unfold in_u64, u64_max. intros ??. apply be_bytes_inj; simpl; lia. Qed.

Lemma lowercase_sha256_length s : lowercase_sha256 s = true → slen s = 64.
Proof. unfold lowercase_sha256. intros [? _]%andb_true. by apply Z.eqb_eq. Qed.

Lemma attestation_fields_short p g s pi rs h run :
  slen pi = 64 → slen rs = 64 → slen h ≤ 256 →
  Forall (λ x, blen x < 256 ^ Z.of_nat 4)
    [as_bytes (projection_name p); u64_to_be_bytes g; as_bytes (slot_name s); as_bytes pi;
     as_bytes rs; as_bytes h; u64_to_be_bytes run].
Proof.
  intros. rewrite !Forall_cons, !blen_as_bytes. unfold u64_to_be_bytes, blen.
  rewrite !length_be_bytes. change (256 ^ Z.of_nat 4) with 4294967296.
  destruct p, s; repeat split; (reflexivity || lia || constructor).
Qed.

(** What a successful computation checked, and its value. *)
Lemma first_use_Ok p g s pi rs h run d :
  first_use_host_attestation_sha256 p g s pi rs h run = Ok d →
  slen pi = 64 ∧ slen rs = 64 ∧ slen (trim h) ≤ 256 ∧
  d = hex_of_bytes (sha256 (attestation_bytes p g s pi rs (trim h) run)).
Proof.
  unfold first_use_host_attestation_sha256. intros Hd. inv_ok Hd.
  apply orb_false_iff in Hm0 as [Hpi%negb_false Hrs%negb_false].
  apply orb_false_iff in Hm2 as [[_ Hlen]%orb_false_iff _]. apply Z.ltb_ge in Hlen.
  split_and!; [by apply lowercase_sha256_length..|done|done].
Qed.

(** The fingerprint of a first-use probe binds everything it attests: two probes with
    the same fingerprint have the same projection, generation, slot, provider intent,
    release set, trimmed machine identity and GitHub run, or they exhibit a SHA-256
    collision. *)
Theorem first_use_binds p q g g' s s' pi pi' rs rs' h h' run run' d :
  in_u64 g → in_u64 g' → in_u64 run → in_u64 run' →
  first_use_host_attestation_sha256 p g s pi rs h run = Ok d →
  first_use_host_attestation_sha256 q g' s' pi' rs' h' run' = Ok d →
  (p, g, s, pi, rs, trim h, run) = (q, g', s', pi', rs', trim h', run') ∨
  sha256_collision (attestation_bytes p g s pi rs (trim h) run)
    (attestation_bytes q g' s' pi' rs' (trim h') run').
Proof.
  intros Hg Hg' Hr Hr' (Hpi & Hrs & Hh & ->)%first_use_Ok (Hpi' & Hrs' & Hh' & E)%first_use_Ok.
  apply hex_of_bytes_inj, sha256_eq in E as [E|E]; [left|by right].
  unfold attestation_bytes in E. apply app_inj_len in E as [_ E]; [|done].
  apply flat_map_framed_inj in E; [|done|..].
  - apply (inj2 cons) in E as [Ep%as_bytes_inj%projection_name_inj E].
    apply (inj2 cons) in E as [Eg E]. apply (inj2 cons) in E as [Es%as_bytes_inj%slot_name_inj E].
    apply (inj2 cons) in E as [Epi%as_bytes_inj E]. apply (inj2 cons) in E as [Ers%as_bytes_inj E].
    apply (inj2 cons) in E as [Eh%as_bytes_inj E]. apply (inj2 cons) in E as [Erun _].
    apply u64_to_be_bytes_inj in Eg, Erun; [|done..]. congruence.
  - by apply attestation_fields_short.
  - by apply attestation_fields_short.
Qed.
End FirstUseFacts.

(** ** The sealed first identity of a VM *)

Section EnvelopeFacts.
Import Bootstrap.
Context `{!Message FleetVmBootstrapKeyProof} `{Sha256} `{Ed25519Laws} `{SealedBoxLaws}.

Lemma sign_root_proof_Ok machine release recipient root proof :
  sign_root_proof machine release recipient root = Ok proof →
  verify_root_proof proof = Ok tt ∧ bkp_recipient_x25519_public_key proof = recipient.
Proof.
  unfold sign_root_proof. intros Hs. apply bind_Ok in Hs as (public & Hk & Hs).
  apply ok_or_Ok in Hk. apply bind_Ok in Hs as ([] & Hv & [= <-]). split; [|done].
  unfold verify_root_proof. set (proof := {| bkp_schema_version := 1 |}) in *.
  assert (∀ s, validate_fields (with_native_signature proof s) = Ok tt) as -> by (intros; apply Hv).
  assert (∀ s, unsigned_proof_bytes (with_native_signature proof s) = unsigned_proof_bytes proof)
    as -> by done.
  cbn [mbind result_bind with_native_signature bkp_native_signature
    bkp_native_receipt_public_key proof].
  unfold blen. rewrite ed25519_sign_length. cbn [Z.eqb Z.of_nat negb fail_if mbind result_bind].
  by rewrite (ed25519_sign_verify _ _ _ Hk).
Qed.

(** The first identity of a VM reaches its root and nobody else: for a recipient key
    the root has signed, sealing an identity of one to 1024 bytes succeeds; the root's
    secret opens the envelope to exactly that identity, and a secret with any other
    public key is refused before anything is decrypted. *)
Theorem identity_sealed_for_root machine release secret root proof identity sender nonce :
  sign_root_proof machine release (x25519_public secret) root = Ok proof →
  1 ≤ blen identity ≤ MAX_IDENTITY_BYTES → length nonce = 12%nat →
  all_zero (diffie_hellman sender (x25519_public secret)) = false →
  ∃ envelope,
    seal_for_native_root proof identity (Some sender) (Some nonce) = Ok envelope ∧
    open_for_native_root envelope secret = Ok identity ∧
    ∀ other, x25519_public other ≠ x25519_public secret →
      open_for_native_root envelope other = Err "BOOTSTRAP_RECIPIENT_MISMATCH".
Proof.
  intros [Hv Hr]%sign_root_proof_Ok Hlen Hn Hz. unfold MAX_IDENTITY_BYTES in Hlen.
  destruct (hkdf_sha256_total (sha256 (encode_to_vec proof))
    (diffie_hellman sender (x25519_public secret)) PURPOSE) as (key & Hkey & Hkl).
  destruct (aead_seal_total key nonce (encode_to_vec proof) identity) as [c Hc]; [done|done|lia|].
  pose proof (aead_seal_length _ _ _ _ _ Hc) as Hcl.
  exists {| env_schema_version := 1; env_recipient := Some proof;
    env_sender_x25519_public_key := x25519_public sender; env_nonce := nonce;
    env_ciphertext := c |}.
  assert (is_empty identity = false) as Hne by (apply is_empty_false; intros ->; destruct Hlen as [Hlen _]; by apply Hlen).
  unfold seal_for_native_root, open_for_native_root, derived_key.
  rewrite Hv, Hr. cbn [mbind result_bind ok_or fresh_recipient env_schema_version env_recipient
    env_sender_x25519_public_key env_nonce env_ciphertext].
  unfold blen in *. rewrite Hn, !x25519_public_length, Hcl, Hne, Hz.
  unfold MAX_IDENTITY_BYTES.
  rewrite (proj2 (Z.ltb_ge 1024 _)), (proj2 (Z.ltb_ge _ 17)), (proj2 (Z.ltb_ge (1024 + 16) _)) by lia.
  cbn [negb orb Z.eqb Z.of_nat fail_if mbind result_bind Pos.of_succ_nat Pos.succ Pos.eqb].
  rewrite Hkey. cbn [mbind result_bind ok_or]. rewrite Hc, Hv, Hr. split; [done|].
  cbn [mbind result_bind]. split.
  - rewrite (proj2 (bytes_eqb_true _ _) eq_refl). cbn [negb fail_if mbind result_bind].
    rewrite diffie_hellman_agree, Hz. cbn [fail_if mbind result_bind].
    rewrite Hkey. cbn [ok_or mbind result_bind]. by rewrite (aead_seal_open _ _ _ _ _ Hc).
  - intros other Hneq. by rewrite (proj2 (bytes_eqb_false _ _) (not_eq_sym Hneq)).
Qed.
End EnvelopeFacts.

(** ** Witnesses *)

(** A sealed box: keys are padded to 32 bytes and added; the tag of a text hashes everything
    it authenticates. *)
Module AttestationSample.
Definition pad_key (k : bytes) : bytes := take 32 (k ++ replicate 32 x00).
Definition add_byte (a b : Byte.byte) : Byte.byte := byte_of_Z (Z_of_byte a + Z_of_byte b).
Definition tag (key nonce aad clear : bytes) : bytes :=
  take 16 (sha256_fips (key ++ nonce ++ aad ++ clear)).
Definition open_tagged (key nonce aad c : bytes) : option bytes :=
  let clear := take (length c - 16) c in
  if bytes_eqb (drop (length c - 16) c) (tag key nonce aad clear) then Some clear else None.
#[local] Instance box : SealedBox := {|
  x25519_public := pad_key;
  diffie_hellman := λ secret public, zip_with add_byte (pad_key secret) public;
  hkdf_sha256 := λ salt secret info, Some (sha256_fips (salt ++ secret ++ info));
  aead_seal := λ key nonce aad clear, Some (clear ++ tag key nonce aad clear);
  aead_open := open_tagged |}.
#[local] Instance box_laws : SealedBoxLaws.
Proof.
  assert (∀ k n a c, length (tag k n a c) = 16%nat) as Ht
    by (intros; unfold tag; by rewrite length_take, sha256_fips_length).
  split; cbn [x25519_public diffie_hellman hkdf_sha256 aead_seal aead_open box].
  - intros s. unfold pad_key. rewrite length_take, length_app, length_replicate. lia.
  - intros a b. rewrite <- zip_with_flip. apply zip_with_ext; [|done..].
    intros x y. unfold flip, add_byte. by rewrite Z.add_comm.
  - intros. eexists. split; [done|]. apply sha256_fips_length.
  - by eauto.
  - intros k n a clear c [= <-]. unfold blen. rewrite length_app, Ht. lia.
  - intros k n a clear c [= <-]. unfold open_tagged. rewrite length_app, Ht, Nat.add_sub.
    by rewrite take_app_length, drop_app_length, (proj2 (bytes_eqb_true _ _) eq_refl).
Qed.

Definition root_key : bytes := as_bytes "root".
Definition root_secret : bytes := as_bytes "recipient".
Definition release : bytes := replicate 32 x09.
Definition vm : FleetHost := {|
  host_machine_id := "vm-1"; host_kind := 2; host_owner := None;
  host_windows_runner_label := ""; host_desired_spec_path := ""; host_target := None;
  host_vm_containers := []; host_native_receipt_public_key := sha256_fips root_key;
  host_vm_first_use_credential := None; host_worker_authority_public_key := [];
  host_vm_provider_spec_path := "" |}.
Definition intent : FleetHostIntent := {|
  intent_schema_version := 1; intent_machine_id := "vm-1"; intent_kind := 2;
  intent_resource_id := "sing-box"; intent_operation_id := "op-1";
  intent_action := as_i32 FleetHostAction_Stop; intent_registry_sha256 := release;
  intent_desired_sha256 := release; intent_release_set_sha256 := release;
  intent_requested_mode := 0; intent_requested_at_unix := 5;
  intent_network_admission := None |}.
Definition result : FleetHostResult := {|
  result_schema_version := 1; result_machine_id := "vm-1"; result_resource_id := "sing-box";
  result_operation_id := "op-1"; result_action := as_i32 FleetHostAction_Stop;
  result_state := as_i32 FleetHostResultState_Verified; result_release_set_sha256 := release;
  result_desired_sha256 := release; result_observed_at_unix := 9; result_error_class := "";
  result_next_action := "NONE"; result_physical_readback := true;
  result_reason := as_i32 FleetHostResultReason_NoFurtherAction |}.
#[local] Instance intent_message : Message FleetHostIntent := table_message [intent].
#[local] Instance intent_laws : MessageLaws FleetHostIntent (.∈ [intent]) :=
  table_message_laws _.
#[local] Instance result_message : Message FleetHostResult := table_message [result].
#[local] Instance result_laws : MessageLaws FleetHostResult (.∈ [result]) :=
  table_message_laws _.
Definition receipt : FleetHostReceipt := {|
  rcpt_schema_version := 1; rcpt_result := Some result;
  rcpt_ed25519_signature := ed25519_sign root_key (Receipt.payload intent result) |}.
#[local] Instance receipt_message : Message FleetHostReceipt := table_message [receipt].
#[local] Instance receipt_laws : MessageLaws FleetHostReceipt (.∈ [receipt]) :=
  table_message_laws _.

(** Witness of [native_receipt_exact]. *)
Lemma native_receipt_exact_witness :
  Receipt.verify_native_receipt intent receipt vm = Ok result.
Proof.
  apply (native_receipt_exact intent result vm root_key receipt).
  - apply list_elem_of_singleton. reflexivity.
  - apply list_elem_of_singleton. reflexivity.
  - apply list_elem_of_singleton. reflexivity.
  - discriminate.
  - vm_compute. reflexivity.
Defined.

(** Witness of [first_use_binds]. *)
Definition digest64 : string := hex_of_bytes release.
Lemma first_use_binds_witness : ∃ d,
  FirstUse.first_use_host_attestation_sha256 Projection_Vm 7 Slot_A digest64 digest64
    " vm-1 " 11 = Ok d ∧
  ((Projection_Vm, 7, Slot_A, digest64, digest64, trim " vm-1 ", 11) =
   (Projection_Vm, 7, Slot_A, digest64, digest64, trim "vm-1", 11) ∨
   sha256_collision
     (FirstUse.attestation_bytes Projection_Vm 7 Slot_A digest64 digest64 (trim " vm-1 ") 11)
     (FirstUse.attestation_bytes Projection_Vm 7 Slot_A digest64 digest64 (trim "vm-1") 11)).
Proof.
  eexists. split; [vm_compute; reflexivity|].
  eapply first_use_binds; [split; discriminate..| |]; vm_compute; reflexivity.
Defined.

(** Witness of [identity_sealed_for_root]. *)
#[local] Instance proof_message : Message FleetVmBootstrapKeyProof :=
  null_message FleetVmBootstrapKeyProof.
Definition root_proof : FleetVmBootstrapKeyProof :=
  match Bootstrap.sign_root_proof "vm-1" release (pad_key root_secret) root_key with
  | Ok p => p
  | Err _ => {| bkp_schema_version := 0; bkp_machine_id := ""; bkp_release_set_sha256 := [];
      bkp_native_receipt_public_key := []; bkp_recipient_x25519_public_key := [];
      bkp_native_signature := [] |}
  end.
Definition nonce : bytes := replicate 12 x07.
Definition identity : bytes := as_bytes "access".
Lemma identity_sealed_for_root_witness : ∃ envelope,
  Bootstrap.seal_for_native_root root_proof identity (Some [x01]) (Some nonce) = Ok envelope ∧
  Bootstrap.open_for_native_root envelope root_secret = Ok identity.
Proof.
  destruct (identity_sealed_for_root "vm-1" release root_secret root_key root_proof identity
    [x01] nonce) as (envelope & Hs & Ho & _).
  - vm_compute. reflexivity.
  - split; discriminate.
  - reflexivity.
  - vm_compute. reflexivity.
  - exists envelope. split; [exact Hs|exact Ho].
Defined.
End AttestationSample.
