(* ===== verification/HostDiagnostics.v ===== *)
(** * Diagnostics of a VM

    [edge-shared-types/src/host_diagnostics.rs]: the closed grammar of read-only commands;
    [edge-agent/src/host_probe.rs]: the probe that runs a batch of them, as a program over
    its standard input, child processes and output. A run starts nothing but commands of the
    grammar, without privileges, and nothing at all unless the whole batch is valid. *)

From S2P Require Import Prelude RustStd RustText HostTypes ResourceGraph Service CrashLogic.
From S2P Require Import Concrete.

Record FleetHostDiagnosticRequest : Set := {
  diag_schema_version : Z; diag_machine_id : string; diag_source_comment_id : Z;
  diag_argv : list string
}.
#[global] Instance FleetHostDiagnosticRequest_eq_dec : EqDecision FleetHostDiagnosticRequest.
Proof. solve_decision. Defined.

Definition MAX_DIAGNOSTIC_REQUEST_BYTES : Z := 4096.
Definition MAX_DIAGNOSTIC_OUTPUT_BYTES : Z := 8192.
Definition MAX_DIAGNOSTIC_BATCH_COMMANDS : Z := 6.

(** ** The grammar *)

Definition count {A} (l : list A) : Z := Z.of_nat (length l).
Definition ip_family (a : string) : bool := str_eqb a "-4" || str_eqb a "-6".
Definition table_id (id : string) : bool :=
  match parse_uint u32_max id with Some value => 0 <? value | None => false end.

Definition approved_readonly_command (args : list string) : bool :=
  match args with
  | [a] => str_eqb a "uptime"
  | [a; b] =>
      (str_eqb a "ss" && (str_eqb b "-tuna" || str_eqb b "-tln"))
      || (str_eqb a "uname" && str_eqb b "-r")
      || (str_eqb a "resolvectl" && str_eqb b "status")
  | [a; b; c] =>
      (str_eqb a "ip" && str_eqb b "link" && str_eqb c "show")
      || (str_eqb a "ps" && str_eqb b "-eo" && str_eqb c "pid,ppid,stat,comm")
      || (str_eqb a "systemctl" && str_eqb b "--failed" && str_eqb c "--no-pager")
  | [a; b; c; d] =>
      str_eqb a "ip" && ip_family b
      && (str_eqb c "address" || str_eqb c "addr" || str_eqb c "link" || str_eqb c "rule")
      && str_eqb d "show"
  | [a; b; c; d; e; id] =>
      str_eqb a "ip" && ip_family b && str_eqb c "route" && str_eqb d "show"
      && str_eqb e "table" && (str_eqb id "all" || table_id id)
  | _ => false
  end.

Definition SEGMENT_NOT_ALLOWED : string := "HOST_DIAG_BATCH_SEGMENT_NOT_READONLY_ALLOWED".

Definition parse_arg (state : list (list string) * list string) (arg : string)
    : res (list (list string) * list string) :=
  let '(commands, command) := state in
  if str_eqb arg "--next" then
    fail_if (is_empty command || negb (approved_readonly_command command))
      SEGMENT_NOT_ALLOWED ;;
    let commands := commands ++ [command] in
    fail_if (MAX_DIAGNOSTIC_BATCH_COMMANDS <=? count commands)
      "HOST_DIAG_BATCH_TOO_MANY_COMMANDS" ;;
    Ok (commands, [])
  else
    let command := command ++ [arg] in
    fail_if (8 <? count command) "HOST_DIAG_BATCH_ARGV_TOO_LARGE" ;;
    Ok (commands, command).

Definition parse_commands (argv : list string) : res (list (list string)) :=
  '(commands, command) ← try_fold parse_arg ([], []) argv;
  fail_if (is_empty command || negb (approved_readonly_command command)) SEGMENT_NOT_ALLOWED ;;
  let commands := commands ++ [command] in
  fail_if (MAX_DIAGNOSTIC_BATCH_COMMANDS <? count commands)
    "HOST_DIAG_BATCH_TOO_MANY_COMMANDS" ;;
  Ok commands.

Definition diag_machine_char (c : ascii) : bool := is_ascii_alphanumeric c || one_of "-_." c.
Definition argv_char (c : ascii) : bool := is_ascii_alphanumeric c || one_of "-_.,/:" c.
Definition bad_arg (arg : string) : bool :=
  str_empty arg || (80 <? slen arg) || negb (str_all argv_char arg).

Section Request.
Context `{Message FleetHostDiagnosticRequest}.

(** [encoded_len] is the length of the encoding. *)
Definition validate_diagnostic_request (request : FleetHostDiagnosticRequest) : res unit :=
  fail_if (negb (diag_schema_version request =? 1) || (diag_source_comment_id request =? 0))
    "HOST_DIAG_REQUEST_IDENTITY_INVALID" ;;
  fail_if (str_empty (diag_machine_id request) || (64 <? slen (diag_machine_id request))
           || negb (str_all diag_machine_char (diag_machine_id request)))
    "HOST_DIAG_MACHINE_INVALID" ;;
  fail_if (is_empty (diag_argv request)
           || (MAX_DIAGNOSTIC_BATCH_COMMANDS * 9 <? count (diag_argv request))
           || existsb bad_arg (diag_argv request))
    "HOST_DIAG_ARGV_INVALID" ;;
  fail_if (MAX_DIAGNOSTIC_REQUEST_BYTES <? blen (encode_to_vec request))
    "HOST_DIAG_REQUEST_TOO_LARGE" ;;
  parse_commands (diag_argv request) ;;
  Ok tt.

Definition diagnostic_commands (request : FleetHostDiagnosticRequest)
    : res (list (list string)) :=
  validate_diagnostic_request request ;;
  parse_commands (diag_argv request).

Definition decode_diagnostic_request (data : bytes) : res FleetHostDiagnosticRequest :=
  fail_if (is_empty data || (MAX_DIAGNOSTIC_REQUEST_BYTES <? blen data))
    "HOST_DIAG_REQUEST_SIZE_INVALID" ;;
  request ← ok_or (decode data) "HOST_DIAG_REQUEST_PROTOBUF_INVALID";
  validate_diagnostic_request request ;;
  Ok request.
End Request.

(** ** The probe *)

(** [std::process::Command] as the probe sets it up *)
Record process : Set := {
  proc_program : string; proc_args : list string; proc_env : list (string * string);
  proc_current_dir : string
}.
(** [JoinStdout], [JoinStderr]: what a reader thread read, at most [limit] bytes, or the
    failure of the thread or of the read; [Wait]: the exit code, [Some None] after a signal *)
Inductive probe_call : Type → Type :=
| ReadStdin (limit : Z) : probe_call (option bytes)
| RegisteredVmHost : probe_call (res FleetHost)
| Spawn (p : process) : probe_call bool
| Wait : probe_call (option (option Z))
| JoinStdout (limit : Z) : probe_call (result bool bytes)
| JoinStderr (limit : Z) : probe_call (result bool bytes)
| Println (line : string) : probe_call unit.
Definition probe (A : Type) : Type := fservice probe_call string A.

Definition diagnostic_binary (tool : string) : res string :=
  if str_eqb tool "ip" then Ok "/usr/sbin/ip"
  else if str_eqb tool "ss" then Ok "/usr/bin/ss"
  else if str_eqb tool "ps" then Ok "/usr/bin/ps"
  else if str_eqb tool "uname" then Ok "/usr/bin/uname"
  else if str_eqb tool "uptime" then Ok "/usr/bin/uptime"
  else if str_eqb tool "resolvectl" then Ok "/usr/bin/resolvectl"
  else if str_eqb tool "systemctl" then Ok "/usr/bin/systemctl"
  else Err "HOST_DIAG_BINARY_NOT_ALLOWED".

Definition unprivileged (executable : string) (args : list string) : process := {|
  proc_program := "/usr/bin/timeout";
  proc_args := ["--kill-after=1s"; "7s"; "/usr/bin/setpriv"; "--reuid=65534"; "--regid=65534";
                "--clear-groups"; "--no-new-privs"] ++ [executable] ++ args;
  proc_env := [("PATH", "/usr/sbin:/usr/bin:/sbin:/bin"); ("LANG", "C"); ("LC_ALL", "C")];
  proc_current_dir := "/" |}.

(** [is_ascii_graphic] or a space *)
Definition printable_char : ascii → bool := between 32 126.
(** [from_utf8_lossy] replaces and decodes bytes outside ASCII only, and the filter drops
    every character outside ASCII. *)
Definition printable (line : string) : string := str_take 160 (str_filter printable_char line).

Fixpoint print_all (ls : list string) : probe unit :=
  match ls with
  | [] => mret tt
  | l :: ls => invoke (Println l) ;; print_all ls
  end.

Definition diag_line (index : nat) (rest : string) : string :=
  "host_diagnostic_" +:+ dec (Z.of_nat index) +:+ "_" +:+ rest.
Definition stream_lines (index : nat) (kind : string) (value : bytes) : list string :=
  imap (λ line_index line,
    diag_line index (kind +:+ "_" +:+ dec (Z.of_nat line_index) +:+ "=" +:+ printable line))
    (take 60 (lines (String.string_of_list_byte value))).

Definition join_failure (stream : string) (thread : bool) : string :=
  "HOST_DIAG_" +:+ stream +:+ (if thread then "_THREAD_FAILED" else "_READ_FAILED").

(** [argv[0]] panics on an empty command; the grammar has none. Both pipes are there when the
    child was spawned. *)
Definition run_one_diagnostic (index : nat) (tool : string) (args : list string) : probe bool :=
  executable ← pure_step (diagnostic_binary tool);
  spawned ← invoke (Spawn (unprivileged executable args));
  pure_step (fail_if (negb spawned) "HOST_DIAG_LAUNCHER_UNAVAILABLE") ;;
  status ← invoke Wait;
  code ← pure_step (ok_or status "HOST_DIAG_WAIT_UNAVAILABLE");
  stdout ← invoke (JoinStdout (MAX_DIAGNOSTIC_OUTPUT_BYTES + 1));
  stdout ← pure_step (map_err (join_failure "STDOUT") stdout);
  stderr ← invoke (JoinStderr (MAX_DIAGNOSTIC_OUTPUT_BYTES + 1));
  stderr ← pure_step (map_err (join_failure "STDERR") stderr);
  print_all [diag_line index ("tool=" +:+ tool);
             diag_line index ("exit=" +:+ dec_i32 (default (-1) code))] ;;
  if (MAX_DIAGNOSTIC_OUTPUT_BYTES <? blen stdout) || (MAX_DIAGNOSTIC_OUTPUT_BYTES <? blen stderr)
  then print_all [diag_line index "result=OUTPUT_LIMIT"] ;; mret false
  else
    print_all (stream_lines index "stdout" stdout ++ stream_lines index "stderr" stderr) ;;
    let success := bool_decide (code = Some 0) in
    print_all [diag_line index ("result="
                 +:+ (if success then "COMMAND_OK" else "COMMAND_FAILED"))] ;;
    mret success.

Definition run_command (index : nat) (argv : list string) : probe bool :=
  match argv with
  | tool :: args => run_one_diagnostic index tool args
  | [] => pure_step (Err "panicked")
  end.

(** The loop over the commands, with the failures so far *)
Fixpoint run_commands (index : nat) (failures : Z) (commands : list (list string)) : probe Z :=
  match commands with
  | [] => mret failures
  | argv :: commands =>
      success ← run_command index argv;
      run_commands (S index) (if success : bool then failures else failures + 1) commands
  end.

Definition run_host_probe `{Message FleetHostDiagnosticRequest} : probe unit :=
  input ← invoke (ReadStdin (MAX_DIAGNOSTIC_REQUEST_BYTES + 1));
  input ← pure_step (ok_or input "HOST_DIAG_STDIN_UNAVAILABLE");
  request ← pure_step (decode_diagnostic_request input);
  host ← invoke_res RegisteredVmHost;
  pure_step (fail_if (negb (str_eqb (diag_machine_id request) (host_machine_id host)))
               "HOST_DIAG_NATIVE_MACHINE_MISMATCH") ;;
  commands ← pure_step (diagnostic_commands request);
  print_all ["host_diagnostic_source=RUNNER_COPIED_UNAUTHENTICATED";
             "host_diagnostic_machine=" +:+ diag_machine_id request;
             "host_diagnostic_comment=" +:+ dec (diag_source_comment_id request);
             "host_diagnostic_privilege=UID_65534_GID_65534_CLEAR_GROUPS";
             "host_diagnostic_resource_mutations=0";
             "host_diagnostic_commands=" +:+ dec (count commands)] ;;
  failures ← run_commands 0 0 commands;
  print_all ["host_diagnostic_command_failures=" +:+ dec failures;
             "host_diagnostic_result="
               +:+ (if failures =? 0 then "COMMANDS_OK" else "PARTIAL_COMMAND_FAILURE")].

(** ** The grammar: theorems *)

(** The arguments of a batch: its commands, separated *)
Fixpoint batch_argv (commands : list (list string)) : list string :=
  match commands with
  | [] => []
  | [command] => command
  | command :: commands => command ++ "--next" :: batch_argv commands
  end.
Definition approved (command : list string) : Prop := approved_readonly_command command = true.

Create Rewrite HintDb approval.
#[export] Hint Rewrite andb_true orb_true_iff str_eqb_true : approval.

(** Splits a command of the grammar into its possible forms. *)
Ltac approval H :=
  unfold approved, approved_readonly_command, ip_family in H;
  repeat match type of H with
  | (match ?l with _ => _ end) = true => destruct l; try discriminate H
  end; autorewrite with approval in H.

Lemma approved_no_separator command : approved command → "--next" ∉ command.
Proof.
  intros Hc. approval Hc; rewrite ?not_elem_of_cons; split_and?; try set_solver;
    intros <-; naive_solver.
Qed.
Lemma approved_short command : approved command → 1 ≤ count command ≤ 8.
Proof. intros Hc. approval Hc; unfold count; cbn [length]; lia. Qed.
Lemma approved_binary command : approved command →
  ∃ tool args binary, command = tool :: args ∧ diagnostic_binary tool = Ok binary ∧
    str_all printable_char tool = true.
Proof.
  intros Hc. approval Hc; destruct_and?; destruct_or?; destruct_and?; subst;
    do 3 eexists; split_and!; reflexivity.
Qed.

Lemma try_fold_app {A S} (f : S → A → res S) s xs ys :
  try_fold f s (xs ++ ys) = s' ← try_fold f s xs; try_fold f s' ys.
Proof.
  revert s. induction xs as [|x xs IH]; intros s; simpl; [done|].
  destruct (f s x); simpl; [apply IH|done].
Qed.

(** The arguments of one command are collected. *)
Lemma parse_args commands command args :
  "--next" ∉ args → count (command ++ args) ≤ 8 →
  try_fold parse_arg (commands, command) args = Ok (commands, command ++ args).
Proof.
  revert command. induction args as [|a args IH]; intros command Hn Hl.
  - by rewrite app_nil_r.
  - apply not_elem_of_cons in Hn as [Ha Hn]. cbn [try_fold parse_arg].
    rewrite (proj2 (str_eqb_false _ _) (not_eq_sym Ha)).
    replace (8 <? count (command ++ [a])) with false.
    + cbn. rewrite IH; [by rewrite <- app_assoc|done|by rewrite <- app_assoc].
    + symmetry. apply Z.ltb_ge. unfold count in *. rewrite !length_app in *. simpl in *. lia.
Qed.

Lemma batch_argv_cons c cs :
  cs ≠ [] → batch_argv (c :: cs) = c ++ "--next" :: batch_argv cs.
Proof. by destruct cs. Qed.

Lemma parse_batch before commands :
  commands ≠ [] → Forall approved commands → count before + count commands ≤ 6 →
  ∃ init last, commands = init ++ [last] ∧
    try_fold parse_arg (before, []) (batch_argv commands) = Ok (before ++ init, last).
Proof.
  revert before. induction commands as [|c cs IH]; intros before Hne Hall Hn; [done|].
  apply Forall_cons in Hall as [Hc Hall]. pose proof (approved_short c Hc) as Hs.
  assert (try_fold parse_arg (before, []) c = Ok (before, c)) as Hargs.
  { rewrite parse_args; [done|by apply approved_no_separator|simpl; lia]. }
  destruct (decide (cs = [])) as [->|Hcs].
  { exists [], c. split; [done|]. by rewrite app_nil_r. }
  destruct (IH (before ++ [c])) as (init & last & -> & Hf); [done|done| |].
  { unfold count in *. rewrite length_app. simpl in *. lia. }
  exists (c :: init), last. split; [done|].
  rewrite batch_argv_cons, try_fold_app, Hargs by done. cbn [mbind result_bind try_fold parse_arg].
  rewrite (proj2 (str_eqb_true _ _) eq_refl), Hc, (proj2 (is_empty_false c)).
  2: { intros ->. by cbn in Hs. }
  replace (MAX_DIAGNOSTIC_BATCH_COMMANDS <=? count (before ++ [c])) with false.
  2: { symmetry. apply Z.leb_gt. unfold MAX_DIAGNOSTIC_BATCH_COMMANDS, count in *.
       rewrite length_app in *. simpl in *. rewrite length_app in Hn. simpl in Hn. lia. }
  cbn [orb negb fail_if mbind result_bind]. rewrite Hf. by rewrite <- app_assoc.
Qed.

(** What the arguments read so far are, in terms of the state of the parser *)
Definition parsed (argv : list string) (state : list (list string) * list string) : Prop :=
  argv = flat_map (λ c, c ++ ["--next"]) state.1 ++ state.2 ∧ Forall approved state.1 ∧
  count state.1 ≤ 5.

Lemma parse_arg_parsed argv state arg state' :
  parsed argv state → parse_arg state arg = Ok state' → parsed (argv ++ [arg]) state'.
Proof.
  destruct state as [cs c]. intros (-> & Hall & Hn) Hp. unfold parse_arg in Hp.
  destruct (str_eqb arg "--next") eqn:Harg.
  - apply str_eqb_true in Harg as ->. inv_ok Hp. apply orb_false_iff in Hm as [_ Hc%negb_false].
    apply Z.leb_gt in Hm0. split_and!; cbn [fst snd] in *.
    + rewrite flat_map_app. simpl. by rewrite !app_nil_r, <- app_assoc.
    + apply Forall_app. by repeat constructor.
    + unfold MAX_DIAGNOSTIC_BATCH_COMMANDS in *. lia.
  - inv_ok Hp. split_and!; cbn [fst snd] in *; [by rewrite app_assoc|done|done].
Qed.

Lemma batch_argv_snoc cs c :
  batch_argv (cs ++ [c]) = flat_map (λ c, c ++ ["--next"]) cs ++ c.
Proof.
  induction cs as [|c' cs IH]; [done|]. cbn [app flat_map].
  rewrite batch_argv_cons, IH by (by destruct cs). by rewrite <- !app_assoc.
Qed.

(** The grammar of diagnostics is closed: the parser accepts an argument list exactly
    when it is one to six approved read-only commands separated by --next, and returns
    those commands, in their order; one bad, empty or extra segment rejects all of it.
    *)
Theorem parse_commands_exact argv commands :
  parse_commands argv = Ok commands ↔
  argv = batch_argv commands ∧ 1 ≤ count commands ≤ 6 ∧ Forall approved commands.
Proof.
  split.
  - unfold parse_commands. intros Hp. apply bind_Ok in Hp as ([cs c] & Hf & Hp).
    inv_ok Hp. apply (try_fold_prefix _ parsed) in Hf as (-> & Hall & Hn);
      [|by repeat constructor|eauto using parse_arg_parsed].
    apply orb_false_iff in Hm as [_ Hc%negb_false]. rewrite batch_argv_snoc. split; [done|].
    unfold count in *. rewrite length_app. simpl in *. split; [lia|].
    apply Forall_app. by repeat constructor.
  - intros (-> & Hn & Hall). destruct (parse_batch [] commands) as (init & last & -> & Hf);
      [intros ->; by apply (proj1 Hn)|done|unfold count in *; simpl; lia|].
    unfold parse_commands. rewrite Hf. apply Forall_app in Hall as [_ [Hl _]%Forall_cons].
    cbn [mbind result_bind app]. rewrite Hl, (proj2 (is_empty_false last)).
    2: { intros ->. discriminate Hl. }
    replace (MAX_DIAGNOSTIC_BATCH_COMMANDS <? count (init ++ [last])) with false; [done|].
    symmetry. apply Z.ltb_ge. unfold MAX_DIAGNOSTIC_BATCH_COMMANDS. lia.
Qed.

(** ** The probe: theorems *)

Record probe_state : Type := {
  ps_stdin : option bytes; ps_host : option FleetHost; ps_spawned : list process;
  ps_printed : list string
}.

(** A call of the probe with its answer: any input, host, exit status and output, and any
    call may fail. A process that could not be started did not run. *)
Definition probe_step (R : Type) (c : probe_call R) (s : probe_state)
    : R → probe_state → Prop :=
  match c in probe_call R return R → probe_state → Prop with
  | ReadStdin limit => λ r s', s' = {| ps_stdin := r; ps_host := ps_host s;
      ps_spawned := ps_spawned s; ps_printed := ps_printed s |} ∧
      ∀ b, r = Some b → blen b ≤ limit
  | RegisteredVmHost => λ r s', s' = {| ps_stdin := ps_stdin s;
      ps_host := match r with Ok h => Some h | Err _ => None end;
      ps_spawned := ps_spawned s; ps_printed := ps_printed s |}
  | Spawn p => λ r s', s' = {| ps_stdin := ps_stdin s; ps_host := ps_host s;
      ps_spawned := ps_spawned s ++ (if r : bool then [p] else []);
      ps_printed := ps_printed s |}
  | Wait => λ _ s', s' = s
  | JoinStdout limit | JoinStderr limit => λ r s', s' = s ∧ ∀ b, r = Ok b → blen b ≤ limit
  | Println line => λ _ s', s' = {| ps_stdin := ps_stdin s; ps_host := ps_host s;
      ps_spawned := ps_spawned s; ps_printed := ps_printed s ++ [line] |}
  end.

Definition process_for (command : list string) : process :=
  match command with
  | tool :: args =>
      unprivileged (match diagnostic_binary tool with Ok b => b | Err _ => "" end) args
  | [] => unprivileged "" []
  end.

Definition line_printable (line : string) : Prop := str_all printable_char line = true.

Section ProbeFacts.
Context `{Message FleetHostDiagnosticRequest}.

(** The input is a request of this machine for these commands of the grammar. *)
Definition asked (s : probe_state) (commands : list (list string)) : Prop :=
  ∃ raw request host, ps_stdin s = Some raw ∧ decode raw = Some request ∧
    ps_host s = Some host ∧ diag_machine_id request = host_machine_id host ∧
    diag_argv request = batch_argv commands ∧ 1 ≤ count commands ≤ 6 ∧
    Forall approved commands.

Definition probe_sound (s : probe_state) : Prop :=
  Forall line_printable (ps_printed s) ∧
  (ps_spawned s = [] ∨
   ∃ commands, asked s commands ∧ ps_spawned s `prefix_of` (process_for <$> commands)).

(** [s'] differs from [s] in what was started and printed. *)
Definition extends (s : probe_state) (started : list process) (s' : probe_state) : Prop :=
  ps_stdin s' = ps_stdin s ∧ ps_host s' = ps_host s ∧
  ps_spawned s' = ps_spawned s ++ started.

Lemma extends_trans s s1 s2 l1 l2 : extends s l1 s1 → extends s1 l2 s2 → extends s (l1 ++ l2) s2.
Proof. unfold extends. intros (-> & -> & E1) (-> & -> & ->). by rewrite E1, <- app_assoc. Qed.

Notation always_probe := (always probe_step probe_sound).

Lemma print_all_spec ls s :
  probe_sound s → Forall line_printable ls →
  always_probe (print_all ls)
    (ends (λ _ s', probe_sound s' ∧ extends s [] s') (λ _, True)) s.
Proof.
  revert s. induction ls as [|l ls IH]; intros s Hs Hls; cbn [print_all].
  - apply always_ret; [done|]. split; [done|]. split_and!; [done..|by rewrite app_nil_r].
  - apply Forall_cons in Hls as [Hl Hls]. apply always_call; [done|]. intros [] s' ->.
    eapply always_post; [|apply IH; [|done]].
    + intros [u|e] t; [|done]. intros [Ht (E1 & E2 & E3)]. split; [done|]. by split_and!.
    + destruct Hs as [Hp Hs]. split; [|done]. apply Forall_app. by repeat constructor.
Qed.

Lemma filter_printable s : line_printable (printable s).
Proof.
  apply str_all_take. induction s as [|c s IH]; [done|]. cbn [str_filter].
  destruct (printable_char c) eqn:Hc; [|done]. cbn [str_all]. by rewrite Hc, IH.
Qed.
Lemma printable_digits s : str_all is_ascii_digit s = true → line_printable s.
Proof.
  apply str_all_impl. unfold is_ascii_digit, printable_char, between. intros c Hc.
  reflect_in Hc. apply andb_true. rewrite !Z.leb_le. lia.
Qed.
Lemma dec_printable z : line_printable (dec z).
Proof. apply printable_digits, pretty_digits. Qed.
Lemma dec_i32_printable z : line_printable (dec_i32 z).
Proof. unfold dec_i32. case_match; [|apply dec_printable]. apply dec_printable. Qed.
Lemma printable_app a b : line_printable a → line_printable b → line_printable (a +:+ b).
Proof. unfold line_printable. rewrite str_all_app. by intros -> ->. Qed.
Lemma diag_line_printable i rest : line_printable rest → line_printable (diag_line i rest).
Proof.
  intros. apply printable_app; [done|].
  apply printable_app; [apply dec_printable|by apply printable_app].
Qed.
Lemma stream_lines_printable i kind b :
  line_printable kind → Forall line_printable (stream_lines i kind b).
Proof.
  intros Hk. unfold stream_lines. apply Forall_lookup. intros j l Hl.
  rewrite list_lookup_imap in Hl. destruct (take 60 _ !! j) as [line|]; [|done].
  injection Hl as <-. apply diag_line_printable, printable_app; [done|].
  apply printable_app; [done|]. apply printable_app; [apply dec_printable|].
  apply printable_app; [done|apply filter_printable].
Qed.

(** After some output, the program goes on from an equal state. *)
Lemma always_print {A} ls (f : unit → probe A) Q s :
  probe_sound s → Forall line_printable ls →
  (∀ s', probe_sound s' → extends s [] s' → always_probe (f tt) (ends Q (λ _, True)) s') →
  always_probe (print_all ls ≫= f) (ends Q (λ _, True)) s.
Proof.
  intros Hs Hls Hf. apply always_bind. eapply always_post; [|by apply print_all_spec].
  intros [[]|e] s'; [|done]. intros [Hs' He]. by apply Hf.
Qed.

(** One command starts one process, the one of the command, or none and fails. *)
Lemma run_one_spec i tool args binary s :
  diagnostic_binary tool = Ok binary → line_printable tool → probe_sound s →
  (∀ s', extends s [unprivileged binary args] s' → ps_printed s' = ps_printed s → probe_sound s') →
  always_probe (run_one_diagnostic i tool args)
    (ends (λ _ s', probe_sound s' ∧ extends s [unprivileged binary args] s') (λ _, True)) s.
Proof.
  intros Hb Ht Hs Hnext. unfold run_one_diagnostic. rewrite Hb.
  apply always_pure'; [done|]. intros _ [= <-]. apply always_call; [done|]. intros [] s1 ->.
  2: { rewrite app_nil_r. apply always_pure'; [by destruct s|done]. }
  set (s1 := {| ps_stdin := ps_stdin s |}). assert (extends s [unprivileged binary args] s1) as He
    by done. assert (probe_sound s1) as Hs1 by (by apply Hnext). clearbody s1.
  apply always_pure'; [done|]. intros [] _. apply always_call; [done|]. intros status _ ->.
  apply always_pure'; [done|]. intros code _. apply always_call; [done|]. intros out _ [-> _].
  apply always_pure'; [done|]. intros stdout _. apply always_call; [done|]. intros err _ [-> _].
  apply always_pure'; [done|]. intros stderr _.
  assert (∀ s2, extends s1 [] s2 → extends s [unprivileged binary args] s2) as Hx.
  { intros s2 H2. apply (extends_trans _ _ _ _ _ He H2). }
  apply always_print; [done| |].
  { repeat constructor; apply diag_line_printable, printable_app;
      [done|done|done|apply dec_i32_printable]. }
  intros s2 Hs2 H2. destruct (_ || _).
  { apply always_print; [done| |].
    { repeat constructor. by apply diag_line_printable. }
    intros s3 Hs3 H3. apply always_ret; [done|]. split; [done|].
    apply Hx, (extends_trans _ _ _ _ _ H2 H3). }
  apply always_print; [done|apply Forall_app; split; by apply stream_lines_printable|].
  intros s3 Hs3 H3. apply always_print; [done| |].
  { repeat constructor. apply diag_line_printable, printable_app; [done|]. by case_match. }
  intros s4 Hs4 H4. apply always_ret; [done|]. split; [done|].
  apply Hx, (extends_trans _ _ _ _ _ H2), (extends_trans _ _ _ _ _ H3 H4).
Qed.

Lemma asked_extends s started s' commands :
  extends s started s' → asked s commands → asked s' commands.
Proof. unfold asked. by intros (-> & -> & _). Qed.

Lemma run_commands_spec i failures before rest s :
  probe_sound s → asked s (before ++ rest) → ps_spawned s = process_for <$> before →
  always_probe (run_commands i failures rest)
    (ends (λ _ s', probe_sound s' ∧ extends s (process_for <$> rest) s') (λ _, True)) s.
Proof.
  revert i failures before s. induction rest as [|c rest IH]; intros i failures before s Hs Ha Hsp.
  - apply always_ret; [done|]. split; [done|]. split_and!; [done..|by rewrite app_nil_r].
  - assert (approved c) as Hc.
    { destruct Ha as (? & ? & ? & _ & _ & _ & _ & _ & _ & Hall).
      by apply Forall_app in Hall as [_ [? _]%Forall_cons]. }
    destruct (approved_binary c Hc) as (tool & args & binary & -> & Hb & Ht).
    assert (process_for (tool :: args) = unprivileged binary args) as Hp
      by (unfold process_for; by rewrite Hb).
    cbn [run_commands run_command]. apply always_bind.
    eapply always_post; [|apply (run_one_spec _ _ _ binary); [done..|]].
    + intros [b|e] s'; [|done]. intros [Hs' He]. pose proof He as (_ & _ & E).
      eapply always_post; [|apply (IH _ _ (before ++ [tool :: args]));
        [done|rewrite <- app_assoc; by eapply asked_extends|by rewrite E, Hsp, fmap_app, <- Hp]].
      intros [z|e] s2; [|done]. intros [Hs2 H2]. split; [done|]. cbn [fmap list_fmap].
      rewrite Hp. apply (extends_trans _ _ _ _ _ He H2).
    + intros s' He Hpr. pose proof He as (_ & _ & E). split; [rewrite Hpr; apply Hs|]. right.
      exists (before ++ (tool :: args) :: rest). split; [by eapply asked_extends|].
      rewrite E, Hsp, fmap_app, fmap_cons, Hp. exists (process_for <$> rest).
      by rewrite <- app_assoc.
Qed.

Lemma validate_parses request :
  validate_diagnostic_request request = Ok tt →
  str_all diag_machine_char (diag_machine_id request) = true ∧
  ∃ commands, parse_commands (diag_argv request) = Ok commands.
Proof.
  unfold validate_diagnostic_request. intros Hv. inv_ok Hv.
  apply orb_false_iff in Hm0 as [_ Hm0%negb_false]. eauto.
Qed.

Lemma diag_machine_printable m : str_all diag_machine_char m = true → line_printable m.
Proof.
  apply str_all_impl. intros c. unfold diag_machine_char, is_ascii_alphanumeric. 
  destruct c as [[] [] [] [] [] [] [] []]; vm_compute; congruence.
Qed.

(** The state before the probe runs *)
Definition fresh : probe_state :=
  {| ps_stdin := None; ps_host := None; ps_spawned := []; ps_printed := [] |}.

Lemma run_host_probe_spec :
  always_probe run_host_probe
    (ends (λ _ s', ∃ commands, asked s' commands ∧ ps_spawned s' = process_for <$> commands)
       (λ _, True)) fresh.
Proof.
  assert (∀ i h, probe_sound {| ps_stdin := i; ps_host := h; ps_spawned := []; ps_printed := [] |})
    as Hsound by (intros; split; [done|by left]).
  unfold run_host_probe. apply always_call; [apply Hsound|]. intros input s1 [-> _].
  apply always_pure'; [apply Hsound|]. intros raw ->%ok_or_Ok.
  apply always_pure'; [apply Hsound|]. intros request Hd.
  apply always_call_res; [apply Hsound| |]. { intros s' e ->. split; [apply Hsound|done]. }
  intros host s2 ->. apply always_pure'; [apply Hsound|]. intros [] Hid.
  apply always_pure'; [apply Hsound|]. intros commands Hc.
  apply fail_if_Ok, negb_false, str_eqb_true in Hid.
  unfold decode_diagnostic_request in Hd. inv_ok Hd.
  apply validate_parses in Hm1 as [Hmach _]. unfold diagnostic_commands in Hc.
  apply bind_Ok in Hc as (_ & _ & (Hargv & Hn & Hall)%parse_commands_exact).
  set (s2 := {| ps_stdin := Some raw; ps_host := Some host; ps_spawned := []; ps_printed := [] |}).
  assert (asked s2 commands) as Ha by (exists raw, request, host; destruct Hn; by split_and!).
  apply always_print; [apply Hsound| |].
  { repeat (apply Forall_cons; split); try done; [|apply printable_app; [done|apply dec_printable]..].
    apply printable_app; [done|by apply diag_machine_printable]. }
  intros s3 Hs3 H3. apply always_bind.
  eapply always_post; [|apply (run_commands_spec _ _ []); [done|by eapply asked_extends|]].
  - intros [z|e] s4; [|done]. intros [Hs4 H4].
    eapply always_post; [|apply print_all_spec; [done|]].
    + intros [[]|e] s5; [|done]. intros [Hs5 H5]. pose proof (extends_trans _ _ _ _ _ H3
        (extends_trans _ _ _ _ _ H4 H5)) as Hx. exists commands.
      split; [by eapply asked_extends|]. destruct Hx as (_ & _ & ->). by rewrite app_nil_r.
    + repeat constructor; apply printable_app; [done|apply dec_printable|done|by case_match].
  - by destruct H3 as (_ & _ & ->).
Qed.

(** C23: A diagnostic probe is read-only: whatever its input, and wherever it stops,
    the processes it has started are the first ones of a batch of one to six approved
    commands that its input asks this machine to run, each once, in order, from its
    fixed path, under the unprivileged user with a time limit and a fixed environment;
    nothing starts when any part of the batch is not approved. Every line it prints is
    printable ASCII. When it succeeds, the whole batch has run. *)
Theorem probe_read_only s :
  during probe_step run_host_probe fresh s →
  Forall line_printable (ps_printed s) ∧
  (ps_spawned s = [] ∨
   ∃ commands, asked s commands ∧ ps_spawned s `prefix_of` (process_for <$> commands)) ∧
  (returns probe_step run_host_probe fresh (Ok tt) s →
   ∃ commands, asked s commands ∧ ps_spawned s = process_for <$> commands).
Proof.
  intros Hd. destruct (always_during _ _ _ _ _ _ run_host_probe_spec Hd) as [Hp Hs].
  split_and!; [done..|]. intros Hr. apply (always_returns _ _ _ _ _ _ _ run_host_probe_spec Hr).
Qed.
End ProbeFacts.

(** ** Witness *)

Module DiagnosticSample.
Definition vm : FleetHost := {|
  host_machine_id := "vm-1"; host_kind := 2; host_owner := None;
  host_windows_runner_label := ""; host_desired_spec_path := ""; host_target := None;
  host_vm_containers := []; host_native_receipt_public_key := [];
  host_vm_first_use_credential := None; host_worker_authority_public_key := [];
  host_vm_provider_spec_path := "" |}.
Definition request : FleetHostDiagnosticRequest := {|
  diag_schema_version := 1; diag_machine_id := "vm-1"; diag_source_comment_id := 7;
  diag_argv := ["ip"; "-6"; "route"; "show"; "table"; "100"; "--next"; "uptime"] |}.
#[local] Instance request_message : Message FleetHostDiagnosticRequest :=
  table_message [request].

(** The second command fails. *)
Definition answer (R : Type) (c : probe_call R) (s : probe_state) : R * probe_state :=
  match c in probe_call R return R * probe_state with
  | ReadStdin limit => let r := if 1 <=? limit then Some [x01] else None in
      (r, {| ps_stdin := r; ps_host := ps_host s; ps_spawned := ps_spawned s;
             ps_printed := ps_printed s |})
  | RegisteredVmHost => (Ok vm, {| ps_stdin := ps_stdin s; ps_host := Some vm;
      ps_spawned := ps_spawned s; ps_printed := ps_printed s |})
  | Spawn p => (true, {| ps_stdin := ps_stdin s; ps_host := ps_host s;
      ps_spawned := ps_spawned s ++ [p]; ps_printed := ps_printed s |})
  | Wait => (Some (Some (count (ps_spawned s) - 1)), s)
  | JoinStdout limit | JoinStderr limit => (if 0 <=? limit then Ok [] else Err true, s)
  | Println line => (tt, {| ps_stdin := ps_stdin s; ps_host := ps_host s;
      ps_spawned := ps_spawned s; ps_printed := ps_printed s ++ [line] |})
  end.
Lemma probe_answer_step R (c : probe_call R) s : probe_step R c s (answer R c s).1 (answer R c s).2.
Proof.
  destruct c as [l| | | |l|l|]; simpl; try done.
  - split; [done|]. intros b. destruct (Z.leb_spec 1 l); [|done]. by intros [= <-].
  - split; [done|]. intros b. destruct (Z.leb_spec 0 l); [|done]. by intros [= <-].
  - split; [done|]. intros b. destruct (Z.leb_spec 0 l); [|done]. by intros [= <-].
Qed.

Definition final : probe_state := (exec answer run_host_probe fresh).2.

Lemma probe_sample_returns : returns probe_step run_host_probe fresh (Ok tt) final.
Proof.
  pose proof (exec_returns probe_step answer probe_answer_step run_host_probe fresh) as Hr.
  assert ((exec answer run_host_probe fresh).1 = Ok tt) as E by (vm_compute; reflexivity).
  rewrite E in Hr. exact Hr.
Qed.

(** Witness of [probe_read_only]. *)
Lemma probe_read_only_witness : ∃ commands,
  asked final commands ∧ ps_spawned final = process_for <$> commands.
Proof.
  apply (probe_read_only final).
  - exact (returns_during _ _ _ _ _ probe_sample_returns).
  - exact probe_sample_returns.
Defined.
End DiagnosticSample.
