(* ===== verification/DiagnosticSnapshot.v ===== *)
(** * The signed diagnostic snapshot of a VM

    [edge-shared-types/src/host_diagnostic_snapshot.rs]: the scope of a snapshot, its
    signature under the receipt key of the owner, and its verification against the current
    and against the installed release. *)

From S2P Require Import Prelude RustStd HostTypes ResourceGraph ResourceReport HostLifecycle.
From S2P Require Import ResourceGraphFacts ResourcePlan Credentials Concrete HostAttestations.

Record FleetNativeDiagnosticSnapshot : Set := {
  snap_schema_version : Z; snap_machine_id : string; snap_operation_id : string;
  snap_release_set_sha256 : bytes; snap_observation : option FleetNativeObservation;
  snap_resources : option FleetVmResourceReport; snap_ed25519_signature : bytes;
  snap_pending_resource_count : Z; snap_pending_operation_id : string;
  snap_pending_resource_id : string; snap_pending_request_sha256 : bytes;
  snap_pending_action : Z; snap_line2_failure_code : string; snap_line2_log_sha256 : bytes;
  snap_line2_restart_count : Z; snap_line2_last_exit_code : Z;
  snap_pending_original_release_sha256 : bytes; snap_pending_original_desired_sha256 : bytes;
  snap_pending_begin_record_sha256 : bytes
}.

Definition MAX_SNAPSHOT_BYTES : Z := 65536.

Definition with_snapshot_signature (s : FleetNativeDiagnosticSnapshot) (signature : bytes)
    : FleetNativeDiagnosticSnapshot := {|
  snap_schema_version := snap_schema_version s; snap_machine_id := snap_machine_id s;
  snap_operation_id := snap_operation_id s;
  snap_release_set_sha256 := snap_release_set_sha256 s;
  snap_observation := snap_observation s; snap_resources := snap_resources s;
  snap_ed25519_signature := signature;
  snap_pending_resource_count := snap_pending_resource_count s;
  snap_pending_operation_id := snap_pending_operation_id s;
  snap_pending_resource_id := snap_pending_resource_id s;
  snap_pending_request_sha256 := snap_pending_request_sha256 s;
  snap_pending_action := snap_pending_action s;
  snap_line2_failure_code := snap_line2_failure_code s;
  snap_line2_log_sha256 := snap_line2_log_sha256 s;
  snap_line2_restart_count := snap_line2_restart_count s;
  snap_line2_last_exit_code := snap_line2_last_exit_code s;
  snap_pending_original_release_sha256 := snap_pending_original_release_sha256 s;
  snap_pending_original_desired_sha256 := snap_pending_original_desired_sha256 s;
  snap_pending_begin_record_sha256 := snap_pending_begin_record_sha256 s |}.

Definition empty_or_32 (b : bytes) : bool := is_empty b || (blen b =? 32).
Definition pending_operation_char (c : ascii) : bool :=
  is_ascii_alphanumeric c || one_of "-_.:" c.
Definition pending_resource_char (c : ascii) : bool :=
  is_ascii_alphanumeric c || one_of "-_./" c.
Definition failure_code_char (c : ascii) : bool :=
  is_ascii_uppercase c || is_ascii_digit c || Ascii.eqb c "_".

Definition correlation_invalid (s : FleetNativeDiagnosticSnapshot) (host : FleetHost)
    (expected_operation_id : string) (expected_release_sha256 : bytes) : bool :=
  negb (snap_schema_version s =? 1)
  || negb (host_kind host =? as_i32 FleetHostKind_Vm)
  || negb (str_eqb (snap_machine_id s) (host_machine_id host))
  || negb (str_eqb (snap_operation_id s) expected_operation_id)
  || negb (starts_with "issue1-comment-" expected_operation_id)
  || negb (bool_decide (is_Some (parse_uint u64_max (str_drop 15 expected_operation_id))))
  || negb (bytes_eqb (snap_release_set_sha256 s) expected_release_sha256)
  || negb (blen expected_release_sha256 =? 32).

Definition pending_invalid (s : FleetNativeDiagnosticSnapshot) : bool :=
  (64 <? snap_pending_resource_count s)
  || (128 <? slen (snap_pending_operation_id s))
  || (128 <? slen (snap_pending_resource_id s))
  || negb (str_all pending_operation_char (snap_pending_operation_id s))
  || negb (str_all pending_resource_char (snap_pending_resource_id s))
  || negb (empty_or_32 (snap_pending_request_sha256 s))
  || (96 <? slen (snap_line2_failure_code s))
  || negb (str_all failure_code_char (snap_line2_failure_code s))
  || negb (empty_or_32 (snap_line2_log_sha256 s))
  || negb (empty_or_32 (snap_pending_original_release_sha256 s))
  || negb (empty_or_32 (snap_pending_original_desired_sha256 s))
  || negb (empty_or_32 (snap_pending_begin_record_sha256 s))
  || (starts_with "issue1-comment-" (snap_pending_operation_id s)
      && (negb (blen (snap_pending_original_release_sha256 s) =? 32)
          || negb (blen (snap_pending_original_desired_sha256 s) =? 32)
          || negb (blen (snap_pending_begin_record_sha256 s) =? 32)))
  || (str_eqb (snap_pending_operation_id s) "UNPROVEN_PENDING_RECORD"
      && (negb (is_empty (snap_pending_original_release_sha256 s))
          || negb (is_empty (snap_pending_original_desired_sha256 s))
          || negb (is_empty (snap_pending_begin_record_sha256 s))))
  || ((snap_pending_resource_count s =? 0)
      && (negb (str_empty (snap_pending_operation_id s))
          || negb (str_empty (snap_pending_resource_id s))
          || negb (is_empty (snap_pending_request_sha256 s))
          || negb (is_empty (snap_pending_original_release_sha256 s))
          || negb (is_empty (snap_pending_original_desired_sha256 s))
          || negb (is_empty (snap_pending_begin_record_sha256 s)))).

(** Fresh at [now], and taken together ([abs_diff]) *)
Definition snapshot_stale (observation : FleetNativeObservation)
    (resources : FleetVmResourceReport) (host : FleetHost) (now : Z) : bool :=
  negb (obs_schema_version observation =? 1)
  || negb (obs_host_kind observation =? host_kind host)
  || (obs_observed_at_unix observation =? 0)
  || (u64_saturating_add now 60 <? obs_observed_at_unix observation)
  || (300 <? u64_saturating_sub now (obs_observed_at_unix observation))
  || (u64_saturating_add now 60 <? report_observed_at_unix resources)
  || (300 <? u64_saturating_sub now (report_observed_at_unix resources))
  || (90 <? Z.abs (obs_observed_at_unix observation - report_observed_at_unix resources)).

Section Snapshot.
Context `{Message FleetNativeDiagnosticSnapshot} `{Ed25519}.
Context `{Message FleetVmDesiredGraph} `{Message FleetResourceHierarchy}
  `{Message FleetVmDesiredNetwork} `{Message FleetVmDesiredResource} `{Sha256}
  `{Message FleetVmDualStackNetwork} `{Message Ipv4NetworkObservation}
  `{Message FleetVmResourceReport}.

Definition snapshot_payload (s : FleetNativeDiagnosticSnapshot) : bytes :=
  as_bytes "sing-box/native-diagnostic-snapshot/v1:"
  ++ encode_to_vec (with_snapshot_signature s []).

Definition validate_snapshot_scope (s : FleetNativeDiagnosticSnapshot) (host : FleetHost)
    (expected_operation_id : string) (expected_release_sha256 : bytes) (now : Z) : res unit :=
  fail_if (correlation_invalid s host expected_operation_id expected_release_sha256)
    "HOST_SNAPSHOT_CORRELATION_OR_RELEASE_INVALID" ;;
  fail_if (pending_invalid s) "HOST_SNAPSHOT_PENDING_DIAGNOSTIC_INVALID" ;;
  observation ← ok_or (snap_observation s) "HOST_SNAPSHOT_OBSERVATION_MISSING";
  resources ← ok_or (snap_resources s) "HOST_SNAPSHOT_RESOURCES_MISSING";
  fail_if (snapshot_stale observation resources host now)
    "HOST_SNAPSHOT_STALE_OR_SCOPE_INVALID" ;;
  validate_vm_resource_report resources host ;;
  fail_if (MAX_SNAPSHOT_BYTES <? blen (encode_to_vec s)) "HOST_SNAPSHOT_TOO_LARGE".

Definition sign_snapshot (s : FleetNativeDiagnosticSnapshot) (host : FleetHost) (key : bytes)
    (now : Z) : res FleetNativeDiagnosticSnapshot :=
  Receipt.check_native_receipt_key host key ;;
  fail_if (negb (is_empty (snap_ed25519_signature s))) "HOST_SNAPSHOT_ALREADY_SIGNED" ;;
  validate_snapshot_scope s host (snap_operation_id s) (snap_release_set_sha256 s) now ;;
  _ ← ok_or (ed25519_public_key key) "HOST_SNAPSHOT_KEY_INVALID";
  let signed := with_snapshot_signature s (ed25519_sign key (snapshot_payload s)) in
  fail_if (MAX_SNAPSHOT_BYTES <? blen (encode_to_vec signed)) "HOST_SNAPSHOT_TOO_LARGE" ;;
  Ok signed.

Definition verify_snapshot (b : bytes) (host : FleetHost) (operation_id : string)
    (release_sha256 : bytes) (now : Z) : res FleetNativeDiagnosticSnapshot :=
  fail_if (is_empty b || (MAX_SNAPSHOT_BYTES <? blen b)) "HOST_SNAPSHOT_SIZE_INVALID" ;;
  s ← ok_or (decode b) "HOST_SNAPSHOT_PROTO_INVALID";
  fail_if (negb (bytes_eqb (encode_to_vec s) b)
           || negb (blen (snap_ed25519_signature s) =? 64)
           || negb (blen (host_native_receipt_public_key host) =? 32)
           || all_zero (host_native_receipt_public_key host))
    "HOST_SNAPSHOT_NONCANONICAL_OR_UNPINNED" ;;
  validate_snapshot_scope s host operation_id release_sha256 now ;;
  fail_if (negb (ed25519_verify (host_native_receipt_public_key host) (snapshot_payload s)
                   (snap_ed25519_signature s))) "HOST_SNAPSHOT_SIGNATURE_INVALID" ;;
  Ok s.

Definition verify_installed_read_only (b : bytes) (host : FleetHost) (operation_id : string)
    (current_release_sha256 : bytes) (now : Z) : res (FleetNativeDiagnosticSnapshot * bool) :=
  fail_if (negb (blen current_release_sha256 =? 32)) "HOST_SNAPSHOT_EXPECTED_RELEASE_INVALID" ;;
  fail_if (is_empty b || (MAX_SNAPSHOT_BYTES <? blen b)) "HOST_SNAPSHOT_SIZE_INVALID" ;;
  claimed ← ok_or (decode b) "HOST_SNAPSHOT_PROTO_INVALID";
  fail_if (negb (blen (snap_release_set_sha256 claimed) =? 32)
           || all_zero (snap_release_set_sha256 claimed))
    "HOST_SNAPSHOT_INSTALLED_RELEASE_INVALID" ;;
  accepted ← verify_snapshot b host operation_id (snap_release_set_sha256 claimed) now;
  Ok (accepted, bytes_eqb (snap_release_set_sha256 accepted) current_release_sha256).
End Snapshot.

(** ** Theorems *)

Section SnapshotFacts.
Context `{MessageLaws FleetNativeDiagnosticSnapshot R} `{Ed25519Laws}.
Context `{!Message FleetVmDesiredGraph} `{!Message FleetResourceHierarchy}
  `{!Message FleetVmDesiredNetwork} `{!Message FleetVmDesiredResource} `{Sha256}
  `{!Message FleetVmDualStackNetwork} `{!Message Ipv4NetworkObservation}
  `{!Message FleetVmResourceReport}.

(** When the evidence of a snapshot is too old or too new *)
Definition stale_at (s : FleetNativeDiagnosticSnapshot) (host : FleetHost) (now : Z) : bool :=
  match snap_observation s, snap_resources s with
  | Some observation, Some resources => snapshot_stale observation resources host now
  | _, _ => true
  end.

(** The parts of the scope that do not depend on the time *)
Lemma validate_snapshot_scope_Ok s host op release now :
  validate_snapshot_scope s host op release now = Ok tt ↔
  correlation_invalid s host op release = false ∧ pending_invalid s = false ∧
  stale_at s host now = false ∧
  (∃ resources, snap_resources s = Some resources ∧
    validate_vm_resource_report resources host = Ok tt) ∧
  blen (encode_to_vec s) ≤ MAX_SNAPSHOT_BYTES.
Proof.
  unfold validate_snapshot_scope, stale_at. split.
  - intros Hv. inv_ok Hv. rewrite Hm1, Hm2. apply Z.ltb_ge in Hv. eauto 10.
  - intros (-> & -> & Hst & (resources & Hr & Hv) & Hl). cbn [fail_if mbind result_bind].
    rewrite Hr in *. destruct (snap_observation s) as [o|]; [|done]. cbn [ok_or mbind result_bind].
    rewrite Hst, Hv. cbn. by rewrite (proj2 (Z.ltb_ge _ _) Hl).
Qed.

(** At another time, only the freshness can change the verdict. *)
Lemma validate_snapshot_scope_at s host op release t now :
  validate_snapshot_scope s host op release t = Ok tt →
  validate_snapshot_scope s host op release now =
    fail_if (stale_at s host now) "HOST_SNAPSHOT_STALE_OR_SCOPE_INVALID".
Proof.
  rewrite validate_snapshot_scope_Ok. intros (Hc & Hp & Hst & (resources & Hr & Hv) & Hl).
  unfold validate_snapshot_scope, stale_at in *. rewrite Hc, Hp, Hr in *.
  destruct (snap_observation s) as [o|]; [|done].
  cbn [fail_if ok_or mbind result_bind]. destruct (snapshot_stale _ _ _ now); [done|].
  cbn [fail_if mbind result_bind]. rewrite Hv. cbn [mbind result_bind].
  by rewrite (proj2 (Z.ltb_ge _ _) Hl).
Qed.

Lemma sign_snapshot_Ok s host key t signed :
  sign_snapshot s host key t = Ok signed →
  signed = with_snapshot_signature s (ed25519_sign key (snapshot_payload s)) ∧
  ed25519_public_key key = Some (host_native_receipt_public_key host) ∧
  all_zero (host_native_receipt_public_key host) = false ∧
  validate_snapshot_scope signed host (snap_operation_id s) (snap_release_set_sha256 s) t = Ok tt.
Proof.
  unfold sign_snapshot. intros Hs.
  apply bind_Ok in Hs as ([] & [Hk Hz]%check_native_receipt_key_Ok & Hs). inv_ok Hs.
  split_and!; [done..|]. apply validate_snapshot_scope_Ok in Hm0 as (Hc & Hp & Hst & Hv & _).
  apply validate_snapshot_scope_Ok. apply Z.ltb_ge in Hm2. by split_and!.
Qed.

(** The time apart, a signed snapshot verifies. *)
Lemma verify_signed s host key t signed op release now :
  R signed → encode_to_vec signed ≠ [] → sign_snapshot s host key t = Ok signed →
  verify_snapshot (encode_to_vec signed) host op release now =
    (validate_snapshot_scope signed host op release now ;; Ok signed).
Proof.
  intros HR Hne (Hsig & Hk & Hz & Hv)%sign_snapshot_Ok. apply validate_snapshot_scope_Ok in Hv
    as (_ & _ & _ & _ & Hl). unfold verify_snapshot.
  rewrite (proj2 (is_empty_false _) Hne), (proj2 (Z.ltb_ge _ _) Hl).
  cbn [orb fail_if mbind result_bind]. rewrite decode_encode by done. cbn [ok_or mbind result_bind].
  rewrite (proj2 (bytes_eqb_true _ _) eq_refl), Hz, Hsig.
  cbn [with_snapshot_signature snap_ed25519_signature]. unfold blen at 1 2.
  rewrite ed25519_sign_length, (ed25519_public_key_length _ _ Hk). cbn [negb orb Z.eqb Z.of_nat
    fail_if mbind result_bind Pos.of_succ_nat Pos.succ Pos.eqb].
  destruct (validate_snapshot_scope _ _ _ _ _) as [[]|]; [|done]. cbn [mbind result_bind].
  assert (snapshot_payload (with_snapshot_signature s (ed25519_sign key (snapshot_payload s)))
    = snapshot_payload s) as -> by done. by rewrite (ed25519_sign_verify _ _ _ Hk).
Qed.

(** A signed diagnostic snapshot is exact evidence: what the root of a VM signs is
    accepted under its pinned key for the operation it names as long as both its
    observations are fresh, reported as current exactly when its release is the
    current one, refused as stale at any other time and refused for any other
    operation. Two snapshots with one signed text differ in their signature only. *)
Theorem snapshot_exact s host key t signed current now :
  R signed → R (with_snapshot_signature s []) → encode_to_vec signed ≠ [] →
  blen current = 32 → all_zero (snap_release_set_sha256 s) = false →
  sign_snapshot s host key t = Ok signed →
  verify_installed_read_only (encode_to_vec signed) host (snap_operation_id s) current now =
    (if stale_at s host now then Err "HOST_SNAPSHOT_STALE_OR_SCOPE_INVALID"
     else Ok (signed, bytes_eqb (snap_release_set_sha256 s) current)) ∧
  (∀ op, op ≠ snap_operation_id s →
    verify_installed_read_only (encode_to_vec signed) host op current now =
      Err "HOST_SNAPSHOT_CORRELATION_OR_RELEASE_INVALID") ∧
  ∀ s', R (with_snapshot_signature s' []) → snapshot_payload s' = snapshot_payload s →
    with_snapshot_signature s' [] = with_snapshot_signature s [].
Proof.
  intros HR HR0 Hne Hcur Hz Hs. pose proof (sign_snapshot_Ok _ _ _ _ _ Hs) as (Hsig & _ & _ & Hv).
  pose proof Hv as (Hc & _ & _ & _ & Hl)%validate_snapshot_scope_Ok.
  assert (snap_release_set_sha256 signed = snap_release_set_sha256 s) as Hrel by (by rewrite Hsig).
  assert (blen (snap_release_set_sha256 s) = 32) as H32.
  { unfold correlation_invalid in Hc. apply orb_false_iff in Hc as [_ Hc%negb_false].
    by apply Z.eqb_eq. }
  assert (∀ op, verify_installed_read_only (encode_to_vec signed) host op current now =
    (validate_snapshot_scope signed host op (snap_release_set_sha256 s) now ;;
     Ok (signed, bytes_eqb (snap_release_set_sha256 s) current))) as Hver.
  { intros op. unfold verify_installed_read_only. rewrite Hcur, (proj2 (is_empty_false _) Hne),
      (proj2 (Z.ltb_ge _ _) Hl), decode_encode by done.
    cbn [negb Z.eqb Pos.eqb orb fail_if ok_or mbind result_bind]. rewrite Hrel, H32, Hz.
    cbn [negb Z.eqb Pos.eqb orb fail_if ok_or mbind result_bind].
    rewrite (verify_signed s host key t) by done.
    destruct (validate_snapshot_scope signed host op (snap_release_set_sha256 s) now)
      as [[]|]; [|done]. by rewrite <- Hrel. }
  split_and!.
  - rewrite Hver, (validate_snapshot_scope_at _ _ _ _ _ _ Hv).
    assert (stale_at signed host now = stale_at s host now) as -> by (by rewrite Hsig).
    by destruct (stale_at s host now).
  - intros op Hop. rewrite Hver. unfold validate_snapshot_scope.
    replace (correlation_invalid signed host op (snap_release_set_sha256 s)) with true; [done|].
    symmetry. unfold correlation_invalid. rewrite Hsig at 3. cbn [with_snapshot_signature
      snap_operation_id]. rewrite (proj2 (str_eqb_false _ _) (not_eq_sym Hop)).
    by rewrite !orb_true_r.
  - intros s' HR' E. apply app_inj_len in E as [_ E]; [|done]. by eapply encode_inj.
Qed.
End SnapshotFacts.

(** ** Witness *)

Module SnapshotSample.
#[local] Instance any_message A : Message A | 100 := null_message A.
Definition key : bytes := as_bytes "root".
Definition host : FleetHost := {|
  host_machine_id := host_machine_id GraphSample.host; host_kind := host_kind GraphSample.host;
  host_owner := host_owner GraphSample.host; host_windows_runner_label := "";
  host_desired_spec_path := ""; host_target := host_target GraphSample.host;
  host_vm_containers := host_vm_containers GraphSample.host;
  host_native_receipt_public_key := sha256_fips key;
  host_vm_first_use_credential := host_vm_first_use_credential GraphSample.host;
  host_worker_authority_public_key := []; host_vm_provider_spec_path := "" |}.
Definition unsigned : FleetNativeDiagnosticSnapshot := {|
  snap_schema_version := 1; snap_machine_id := "vm-1"; snap_operation_id := "issue1-comment-42";
  snap_release_set_sha256 := replicate 32 x05;
  snap_observation := Some {| obs_schema_version := 1; obs_host_kind := 2;
    obs_observed_at_unix := 1010; obs_owner_state := 0; obs_release_proof := 0;
    obs_observed_release_sha256 := []; obs_runtime_ready := false;
    obs_runtime_ready_proven := false; obs_reason_codes := [];
    obs_vm_recovery_resources := None; obs_windows_config_sha256 := [] |};
  snap_resources := Some PlanSample.report; snap_ed25519_signature := [];
  snap_pending_resource_count := 1; snap_pending_operation_id := "UNPROVEN_PENDING_RECORD";
  snap_pending_resource_id := ""; snap_pending_request_sha256 := []; snap_pending_action := 0;
  snap_line2_failure_code := ""; snap_line2_log_sha256 := []; snap_line2_restart_count := 0;
  snap_line2_last_exit_code := -1; snap_pending_original_release_sha256 := [];
  snap_pending_original_desired_sha256 := []; snap_pending_begin_record_sha256 := [] |}.
(** The unsigned snapshot is encoded as one byte, the signed one as two. *)
#[local] Instance snapshot_message : Message FleetNativeDiagnosticSnapshot := {|
  encode_to_vec := λ s, if is_empty (snap_ed25519_signature s) then [x01] else [x01; x02];
  decode := λ b, if decide (b = [x01]) then Some unsigned else Some (with_snapshot_signature
    unsigned (ed25519_sign key (as_bytes "sing-box/native-diagnostic-snapshot/v1:" ++ [x01]))) |}.
Definition signed : FleetNativeDiagnosticSnapshot := with_snapshot_signature unsigned
  (ed25519_sign key (as_bytes "sing-box/native-diagnostic-snapshot/v1:" ++ [x01])).
#[local] Instance snapshot_laws :
  MessageLaws FleetNativeDiagnosticSnapshot (λ s, s = unsigned ∨ s = signed).
Proof. split. intros s [->| ->]; vm_compute; reflexivity. Qed.

Definition current : bytes := replicate 32 x06.
Lemma sample_signed : sign_snapshot unsigned host key 1050 = Ok signed.
Proof. vm_compute. reflexivity. Qed.
Lemma sample_fresh : stale_at unsigned host 1100 = false.
Proof. vm_compute. reflexivity. Qed.
Lemma sample_stale : stale_at unsigned host 1311 = true.
Proof. vm_compute. reflexivity. Qed.

(** Witness of [snapshot_exact]. *)
Lemma snapshot_exact_witness :
  verify_installed_read_only (encode_to_vec signed) host (snap_operation_id unsigned) current 1100
    = Ok (signed, bytes_eqb (snap_release_set_sha256 unsigned) current) ∧
  verify_installed_read_only (encode_to_vec signed) host (snap_operation_id unsigned) current 1311
    = Err "HOST_SNAPSHOT_STALE_OR_SCOPE_INVALID".
Proof.
  assert (R1 : signed = unsigned ∨ signed = signed) by (right; reflexivity).
  assert (R2 : with_snapshot_signature unsigned [] = unsigned
               ∨ with_snapshot_signature unsigned [] = signed) by (left; reflexivity).
  assert (Hne : encode_to_vec signed ≠ []) by (vm_compute; discriminate).
  assert (Hc : blen current = 32) by reflexivity.
  assert (Hz : all_zero (snap_release_set_sha256 unsigned) = false) by reflexivity.
  destruct (snapshot_exact unsigned host key 1050 signed current 1100 R1 R2 Hne Hc Hz
    sample_signed) as [E _].
  destruct (snapshot_exact unsigned host key 1050 signed current 1311 R1 R2 Hne Hc Hz
    sample_signed) as [E' _].
  rewrite sample_fresh in E. rewrite sample_stale in E'. exact (conj E E').
Defined.
End SnapshotSample.
