(* ===== verification/WindowsRouting.v ===== *)
(** * Routing policy and runtime state of the Windows host

    [edge-shared-types/src/windows_routing.rs]: the applications Git selects, and the native
    identity of their executables as a program over file-system calls;
    [edge-shared-types/src/lib.rs]: the tags of routes and the state of the tunnels the
    renderer of the sing-box configuration reads. *)

From S2P Require Import Prelude RustStd RustUtf RustNet HostTypes HostAdmin Service.

(** ** Messages *)

Inductive WindowsApplicationScope : Set :=
| WindowsApplicationScope_Unspecified
| WindowsApplicationScope_AllApplications
| WindowsApplicationScope_SelectedApplications.
#[global] Instance WindowsApplicationScope_eq_dec : EqDecision WindowsApplicationScope.
Proof. solve_decision. Defined.
Definition WindowsApplicationScope_as_i32 (v : WindowsApplicationScope) : Z :=
  match v with
  | WindowsApplicationScope_Unspecified => 0
  | WindowsApplicationScope_AllApplications => 1
  | WindowsApplicationScope_SelectedApplications => 2
  end.
#[global] Program Instance WindowsApplicationScope_enum : ProtoEnum WindowsApplicationScope := {|
  as_i32 := WindowsApplicationScope_as_i32;
  variants := [WindowsApplicationScope_Unspecified; WindowsApplicationScope_AllApplications;
               WindowsApplicationScope_SelectedApplications] |}.
Next Obligation. by destruct e. Qed.

Inductive WindowsDefaultRoute : Set :=
| WindowsDefaultRoute_Unspecified
| WindowsDefaultRoute_AutoDirect
| WindowsDefaultRoute_Hysteria2Direct
| WindowsDefaultRoute_VlessRealityDirect
| WindowsDefaultRoute_AutoWarp
| WindowsDefaultRoute_Hysteria2Warp
| WindowsDefaultRoute_VlessRealityWarp.
#[global] Instance WindowsDefaultRoute_eq_dec : EqDecision WindowsDefaultRoute.
Proof. solve_decision. Defined.
Definition WindowsDefaultRoute_as_i32 (v : WindowsDefaultRoute) : Z :=
  match v with
  | WindowsDefaultRoute_Unspecified => 0
  | WindowsDefaultRoute_AutoDirect => 1
  | WindowsDefaultRoute_Hysteria2Direct => 2
  | WindowsDefaultRoute_VlessRealityDirect => 3
  | WindowsDefaultRoute_AutoWarp => 4
  | WindowsDefaultRoute_Hysteria2Warp => 5
  | WindowsDefaultRoute_VlessRealityWarp => 6
  end.
#[global] Program Instance WindowsDefaultRoute_enum : ProtoEnum WindowsDefaultRoute := {|
  as_i32 := WindowsDefaultRoute_as_i32;
  variants := [WindowsDefaultRoute_Unspecified; WindowsDefaultRoute_AutoDirect;
               WindowsDefaultRoute_Hysteria2Direct; WindowsDefaultRoute_VlessRealityDirect;
               WindowsDefaultRoute_AutoWarp; WindowsDefaultRoute_Hysteria2Warp;
               WindowsDefaultRoute_VlessRealityWarp] |}.
Next Obligation. by destruct e. Qed.

Record WindowsApplicationRoute : Set := { war_executable_path : string; war_route : Z }.
Record WindowsApplicationRouting : Set := {
  wap_scope : Z; wap_applications : list WindowsApplicationRoute
}.
Record ProductionWindowsRoutePolicy : Set := { pwr_desktop : Z; pwr_wsl : Z }.
(** The fields of [ProductionDesiredState] that the Windows host reads;
    [pds_reality_server_name]: [application.line1.reality_server_name] *)
Record ProductionDesiredState : Set := {
  pds_windows_datapath_mode : Z;
  pds_windows_route_policy : option ProductionWindowsRoutePolicy;
  pds_windows_application_routing : option WindowsApplicationRouting;
  pds_reality_server_name : option string
}.
Record WindowsTunnelBinding : Set := {
  wtb_domain : string; wtb_hy2_port : Z; wtb_hy2_password : string; wtb_vless_port : Z;
  wtb_vless_uuid : string; wtb_reality_public_key : string; wtb_reality_short_id : string
}.
Record WindowsRuntimeState : Set := {
  wrs_schema_version : Z; wrs_deployment_label : option string; wrs_instance_id : string;
  wrs_server_ip : string; wrs_direct : option WindowsTunnelBinding;
  wrs_warp : option WindowsTunnelBinding
}.

(** ** Routes *)

Definition production_windows_route_tag (value : Z) : res string :=
  route ← ok_or (try_from value : option WindowsDefaultRoute)
            ("unknown Windows default route enum value " +:+ dec value);
  match route with
  | WindowsDefaultRoute_Unspecified => Err "Windows default route must be explicit"
  | WindowsDefaultRoute_AutoDirect => Ok "auto-direct-tunnel"
  | WindowsDefaultRoute_Hysteria2Direct => Ok "hysteria2-direct"
  | WindowsDefaultRoute_VlessRealityDirect => Ok "vless-reality-direct"
  | WindowsDefaultRoute_AutoWarp => Ok "auto-warp-tunnel"
  | WindowsDefaultRoute_Hysteria2Warp => Ok "hysteria2-warp"
  | WindowsDefaultRoute_VlessRealityWarp => Ok "vless-reality-warp"
  end.

Definition FOREIGN_WARP_SERVICE_BASENAME : string := "warp-svc.exe".

(** [str::to_lowercase], with the tables of Unicode *)
Class UnicodeLowercase := to_lowercase : string → string.

(** [path.rsplit('\\').next()] *)
Definition basename (path : string) : string := List.last (split backslash path) "".

Definition specified_route (route : Z) : bool :=
  match (try_from route : option WindowsDefaultRoute) with
  | Some r => negb (bool_decide (r = WindowsDefaultRoute_Unspecified))
  | None => false
  end.

(** [policy.scope == Scope::SelectedApplications as i32] *)
Definition selected_policy (policy : option WindowsApplicationRouting)
    : option WindowsApplicationRouting :=
  match policy with
  | Some p => if wap_scope p =? as_i32 WindowsApplicationScope_SelectedApplications
              then Some p else None
  | None => None
  end.

Section Policy.
Context `{UnicodeLowercase}.

Definition validate_application (seen : list string) (app : WindowsApplicationRoute)
    : res (list string) :=
  let path := war_executable_path app in
  fail_if ((2048 <? slen path) || negb (windows_absolute_path path)
           || mem (to_lowercase path) seen)
    "WINDOWS_APPLICATION_PATH_INVALID_OR_DUPLICATE" ;;
  fail_if (eq_ignore_ascii_case (basename path) FOREIGN_WARP_SERVICE_BASENAME)
    "WINDOWS_APPLICATION_FOREIGN_WARP_BYPASS_FORBIDDEN" ;;
  fail_if (negb (specified_route (war_route app))) "WINDOWS_APPLICATION_ROUTE_INVALID" ;;
  Ok (to_lowercase path :: seen).

Definition validate_policy (policy : option WindowsApplicationRouting) : res unit :=
  match policy with
  | None => Ok tt
  | Some policy =>
      scope ← ok_or (try_from (wap_scope policy)) "WINDOWS_APPLICATION_SCOPE_INVALID";
      let n := Z.of_nat (length (wap_applications policy)) in
      fail_if (negb match scope with
                    | WindowsApplicationScope_AllApplications => n <=? 128
                    | WindowsApplicationScope_SelectedApplications => (1 <=? n) && (n <=? 128)
                    | WindowsApplicationScope_Unspecified => false
                    end) "WINDOWS_APPLICATION_SCOPE_INVALID" ;;
      try_fold validate_application [] (wap_applications policy) ;;
      Ok tt
  end.
End Policy.

(** ** The executables on the host *)

(** An entry of the file system, as an open handle reports it *)
Record entry_metadata : Set := { md_attributes : Z; md_is_file : bool; md_is_dir : bool }.
(** [Open]: for reading, without following a reparse point, shared as [share] says;
    [Canonicalize]: [Some None] when the path is not Unicode *)
Inductive path_call : Type → Type :=
| Open (path : string) (share : Z) : path_call (option positive)
| Metadata (handle : positive) : path_call (option entry_metadata)
| Canonicalize (path : string) : path_call (option (option string)).
Abbreviation path_prog := (fservice path_call string).

(** [Path::ancestors], outermost first: an absolute path has a root and components *)
Fixpoint path_chain (prefix : string) (components : list string) : list string :=
  match components with
  | [] => []
  | c :: cs => (prefix +:+ c) :: path_chain (prefix +:+ c +:+ String backslash "") cs
  end.
Definition ancestors (path : string) : list string :=
  let root := str_take 3 path in
  let rest := str_drop 3 path in
  if str_empty rest then [root] else root :: path_chain root (split backslash rest).

Definition entry_invalid (leaf : bool) (m : entry_metadata) : bool :=
  negb (Z.land (md_attributes m) 1024 =? 0)
  || (leaf && negb (md_is_file m)) || (negb leaf && negb (md_is_dir m)).

Definition open_entry (path entry : string) : path_prog positive :=
  let leaf := str_eqb entry path in
  handle ← invoke (Open entry (if leaf then 1 else 3));
  handle ← pure_step (ok_or handle "WINDOWS_APPLICATION_PATH_UNAVAILABLE_OR_BUSY");
  meta ← invoke (Metadata handle);
  meta ← pure_step (ok_or meta "WINDOWS_APPLICATION_PATH_METADATA_UNPROVEN");
  pure_step (fail_if (entry_invalid leaf meta)
               "WINDOWS_APPLICATION_PATH_REPARSE_OR_TYPE_INVALID") ;;
  mret handle.

Fixpoint open_entries (path : string) (entries : list string) : path_prog (list positive) :=
  match entries with
  | [] => mret []
  | entry :: entries =>
      handle ← open_entry path entry;
      handles ← open_entries path entries;
      mret (handle :: handles)
  end.

Definition verbatim_prefix : string :=
  String backslash (String backslash (String "?" (String backslash ""))).

Definition open_application (app : WindowsApplicationRoute) : path_prog (list positive) :=
  let path := war_executable_path app in
  handles ← open_entries path (ancestors path);
  canonical ← invoke (Canonicalize path);
  canonical ← pure_step (ok_or canonical "WINDOWS_APPLICATION_CANONICAL_PATH_UNPROVEN");
  canonical ← pure_step (ok_or canonical "WINDOWS_APPLICATION_CANONICAL_PATH_UNPROVEN");
  let canonical := default canonical (strip_prefix verbatim_prefix canonical) in
  pure_step (fail_if (negb (eq_ignore_ascii_case canonical path))
               "WINDOWS_APPLICATION_CANONICAL_PATH_MISMATCH") ;;
  mret handles.

Fixpoint open_applications (apps : list WindowsApplicationRoute) : path_prog (list positive) :=
  match apps with
  | [] => mret []
  | app :: apps =>
      handles ← open_application app;
      rest ← open_applications apps;
      mret (handles ++ rest)
  end.

(** The result is the guard that keeps the handles open. *)
Definition verify_native_paths `{UnicodeLowercase} (policy : option WindowsApplicationRouting)
    : path_prog (list positive) :=
  pure_step (validate_policy policy) ;;
  match selected_policy policy with
  | Some p => open_applications (wap_applications p)
  | None => mret []
  end.

(** ** The runtime state of the tunnels *)

Definition validate_safe_runtime_token (label value : string) (max_len : Z) : res unit :=
  fail_if (str_empty value || (max_len <? slen value) || existsb char_is_control (chars value))
    (label +:+ " is invalid").

Definition bad_dns_part (part : string) : bool :=
  str_empty part || (63 <? slen part) || starts_with "-" part || ends_with "-" part
  || negb (str_all (λ c, is_ascii_alphanumeric c || Ascii.eqb c "-") part).

Definition validate_runtime_dns_name (label value : string) : res unit :=
  fail_if (str_empty value || (253 <? slen value)
           || negb (str_eqb value (to_ascii_lowercase value))
           || starts_with "." value || ends_with "." value
           || existsb bad_dns_part (split "." value))
    (label +:+ " must be a normalized lowercase DNS name").

Definition validate_ipv4_literal (label value : string) : res unit :=
  parsed ← ok_or (parse_ip value) (label +:+ " must be an IPv4 literal");
  fail_if (match parsed with V4 _ => false | V6 _ => true end)
    (label +:+ " must be an IPv4 literal").

Definition validate_windows_tunnel_binding (label : string) (value : WindowsTunnelBinding)
    : res unit :=
  validate_runtime_dns_name (label +:+ ".domain") (wtb_domain value) ;;
  fail_if ((wtb_hy2_port value =? 0) || (65535 <? wtb_hy2_port value))
    (label +:+ ".hy2_port must be in 1..=65535") ;;
  fail_if ((wtb_vless_port value =? 0) || (65535 <? wtb_vless_port value))
    (label +:+ ".vless_port must be in 1..=65535") ;;
  for_each (λ '(field, token, max_len),
      validate_safe_runtime_token (label +:+ "." +:+ field) token max_len)
    [("hy2_password", wtb_hy2_password value, 256);
     ("vless_uuid", wtb_vless_uuid value, 128);
     ("reality_public_key", wtb_reality_public_key value, 256);
     ("reality_short_id", wtb_reality_short_id value, 64)].

Definition validate_windows_runtime_state (state : WindowsRuntimeState) : res unit :=
  fail_if (negb (wrs_schema_version state =? 1))
    ("unsupported Windows runtime-state schema_version " +:+ dec (wrs_schema_version state)) ;;
  match wrs_deployment_label state with
  | Some label => validate_safe_runtime_token "WindowsRuntimeState.deployment_label" label 160
  | None => Ok tt
  end ;;
  validate_safe_runtime_token "WindowsRuntimeState.instance_id" (wrs_instance_id state) 160 ;;
  validate_ipv4_literal "WindowsRuntimeState.server_ip" (wrs_server_ip state) ;;
  direct ← ok_or (wrs_direct state) "WindowsRuntimeState.direct is required";
  validate_windows_tunnel_binding "WindowsRuntimeState.direct" direct ;;
  warp ← ok_or (wrs_warp state) "WindowsRuntimeState.warp is required";
  validate_windows_tunnel_binding "WindowsRuntimeState.warp" warp.

Definition encode_windows_runtime_state `{Message WindowsRuntimeState}
    (state : WindowsRuntimeState) : res bytes :=
  validate_windows_runtime_state state ;;
  Ok (encode_to_vec state).
(** The text of prost follows the message of a decoding error. *)
Definition decode_windows_runtime_state `{Message WindowsRuntimeState} (b : bytes)
    : res WindowsRuntimeState :=
  state ← ok_or (decode b) "Windows runtime-state protobuf decode failed";
  validate_windows_runtime_state state ;;
  fail_if (negb (bytes_eqb (encode_to_vec state) b))
    "Windows runtime state is not canonical protobuf encoding" ;;
  Ok state.
