(* ===== verification/Singbox.v ===== *)
(** * The sing-box configuration of the Windows host

    [edge-singbox/src/lib.rs]: the renderer of the configuration from the runtime state and
    Git's desired state, the checks a configuration passes before it is started, the
    synchronization of a configuration with a state, and its inspection. A [serde_json::Map]
    is the list of its entries in increasing order of the keys. *)

From S2P Require Import Prelude RustStd RustUtf RustNet HostTypes Json HostAdmin Service.
From S2P Require Import WindowsRouting.

(** ** [serde_json::Value] *)

(** [serde_json::to_vec_pretty], [serde_json::from_slice] and [from_str]; numbers other than
    unsigned integers are outside the model *)
Class PrettyJson := {
  to_vec_pretty : Value → res bytes;
  from_slice : bytes → option Value
}.

Definition map_get {A} (k : string) (es : list (string * A)) : option A :=
  snd <$> List.find (λ e, str_eqb e.1 k) es.
Definition get (k : string) (v : Value) : option Value :=
  match v with VObject es => map_get k es | _ => None end.
Definition as_array (v : Value) : option (list Value) :=
  match v with VArray l => Some l | _ => None end.
Definition as_str (v : Value) : option string :=
  match v with VString s => Some s | _ => None end.
Definition as_bool (v : Value) : option bool :=
  match v with VBool b => Some b | _ => None end.
Definition get_str (k : string) (v : Value) : option string := get k v ≫= as_str.
Definition get_array (k : string) (v : Value) : option (list Value) := get k v ≫= as_array.
(** [config.pointer("/a/b")], the tokens being no array indices *)
Definition pointer (tokens : list string) (v : Value) : option Value :=
  foldl (λ o k, o ≫= get k) (Some v) tokens.
Definition is_some {A} (o : option A) : bool := bool_decide (is_Some o).
Definition str_is (s : string) (o : option string) : bool := bool_decide (o = Some s).

(** [json!([...])] of texts, and the comparison with it *)
Definition strings (l : list string) : Value := VArray (VString <$> l).
Definition is_strings (l : list string) (v : option Value) : bool :=
  match v with Some (VArray vs) => bool_decide (as_str <$> vs = Some <$> l) | _ => false end.
Definition value_is (s : string) (v : Value) : bool := str_is s (as_str v).

(** [value.get_mut(k)] with [f] applied to what it finds; [as_array_mut]; [map.insert(k, x)] *)
Definition modify (k : string) (f : Value → Value) (v : Value) : Value :=
  match v with
  | VObject es => VObject (map (λ e, if str_eqb e.1 k then (e.1, f e.2) else e) es)
  | v => v
  end.
Definition modify_array (f : list Value → list Value) (v : Value) : Value :=
  match v with VArray l => VArray (f l) | v => v end.
Definition set_key (k : string) (x v : Value) : Value :=
  match v with VObject es => VObject (map_insert k x es) | v => v end.
(** [iter_mut().find(p)] *)
Fixpoint update_first (p : Value → bool) (f : Value → Value) (l : list Value)
    : option (list Value) :=
  match l with
  | [] => None
  | v :: l => if p v then Some (f v :: l) else cons v <$> update_first p f l
  end.

(** ** Constants *)

Definition MANAGED_SELECTOR_TAG : string := "proxy-selector".
Definition WSL_SELECTOR_TAG : string := "wsl-selector".
Definition WSL_INBOUND_TAG : string := "wsl-mixed-in".
Definition DESKTOP_TRACE_INBOUND_TAG : string := "mixed-in".
Definition STAGE2_DESKTOP_PROXY_PORT : N := 17891.
Definition STAGE2_WSL_PROXY_PORT : N := 17892.
Definition STAGE2_CLASH_API_PORT : N := 19091.
Definition DEFAULT_WSL_PROXY_PORT : N := STAGE2_WSL_PROXY_PORT.
Definition WSL_INBOUND_BIND_HOST : string := "0.0.0.0".
Definition WARP_SERVICE_PROCESS : string := FOREIGN_WARP_SERVICE_BASENAME.
Definition WARP_CONTROL_ENDPOINTS : list string :=
  ["162.159.197.2/32"; "162.159.197.3/32"; "162.159.197.4/32"; "162.159.137.105/32";
   "162.159.138.105/32"].
Definition FOREIGN_CLOUDFLARE_MESH_CIDRS : list string := ["100.96.0.0/12"].
Definition LOOPBACK_CIDRS : list string := ["127.0.0.0/8"; "::1/128"].
Definition EXPECTED_OUTBOUND_TAGS : list string :=
  ["auto-direct-tunnel"; "auto-warp-tunnel"; "hysteria2-direct"; "vless-reality-direct";
   "hysteria2-warp"; "vless-reality-warp"].
Definition MANAGED_TUN_TAG : string := "managed-tun-in".

(** ** Admission of a configuration *)

Definition MAX_CONFIG_BYTES : Z := 1024 * 1024.
Definition is_type (t : string) (v : Value) : bool := str_is t (get_str "type" v).

Section Admission.
Context `{PrettyJson}.

Definition require_proxy_only_config (b : bytes) : res unit :=
  fail_if (is_empty b || (MAX_CONFIG_BYTES <? blen b)) "HOST_WINDOWS_EFFECT_CONFIG_SIZE_INVALID" ;;
  config ← ok_or (from_slice b) "HOST_WINDOWS_EFFECT_CONFIG_INVALID";
  rows ← ok_or (get_array "inbounds" config) "HOST_WINDOWS_EFFECT_CONFIG_INVALID";
  fail_if (is_empty rows
           || existsb (λ r, negb (is_type "mixed" r || is_type "socks" r || is_type "http" r)) rows)
    "HOST_WINDOWS_EFFECT_ROUTE_CAPTURE_NOT_AUTHORIZED".

Definition require_managed_tun_config (b : bytes) : res unit :=
  fail_if (is_empty b || (MAX_CONFIG_BYTES <? blen b)) "HOST_WINDOWS_TUN_CONFIG_SIZE_INVALID" ;;
  config ← ok_or (from_slice b) "HOST_WINDOWS_TUN_CONFIG_INVALID";
  inbounds ← ok_or (get_array "inbounds" config) "HOST_WINDOWS_TUN_CONFIG_INVALID";
  let tun := List.filter (is_type "tun") inbounds in
  fail_if (negb (length tun =? 1)%nat || negb (length inbounds =? 3)%nat
           || existsb (λ i, negb (is_type "tun" i || is_type "mixed" i)) inbounds)
    "HOST_WINDOWS_TUN_CONFIG_UNEXPECTED_INBOUND" ;;
  let tun := List.hd VNull tun in
  fail_if (negb (str_is "managed-tun-in" (get_str "tag" tun))
           || negb (str_is "sing-box-tun" (get_str "interface_name" tun))
           || negb (bool_decide (get "auto_route" tun ≫= as_bool = Some true))
           || negb (bool_decide (get "strict_route" tun ≫= as_bool = Some true))
           || negb (str_is "hijack" (get_str "dns_mode" tun))
           || negb (is_strings ["172.19.0.1/30"; "fdfe:dcba:9876::1/126"] (get "address" tun))
           || negb (str_is "managed-dns" (pointer ["dns"; "final"] config ≫= as_str)))
    "HOST_WINDOWS_TUN_CONFIG_NATIVE_ROUTE_INVALID" ;;
  fail_if (negb (bool_decide (pointer ["route"; "find_process"] config ≫= as_bool = Some true)))
    "HOST_WINDOWS_TUN_PROCESS_READBACK_NOT_ENABLED" ;;
  excluded ← ok_or (get_array "route_exclude_address" tun)
               "HOST_WINDOWS_TUN_CONTROL_ROUTE_UNPROVEN";
  fail_if (existsb (λ cidr, negb (existsb (value_is cidr) excluded))
             (WARP_CONTROL_ENDPOINTS ++ FOREIGN_CLOUDFLARE_MESH_CIDRS))
    "HOST_WINDOWS_TUN_CONTROL_ROUTE_UNPROVEN".

Definition require_no_windows_route_capture_config (b : bytes) : res unit :=
  require_proxy_only_config b.
End Admission.

(** ** Rules and inbounds of a configuration *)

Definition tun_rule (rule : Value) : bool := is_strings [MANAGED_TUN_TAG] (get "inbound" rule).
Definition has_process_path (rule : Value) : bool := is_some (get "process_path" rule).

Definition is_warp_service_bypass (rule : Value) : bool :=
  str_is "direct" (get_str "outbound" rule)
  && match get_array "process_name" rule with
     | Some names => existsb (value_is WARP_SERVICE_PROCESS) names
     | None => false
     end.
Definition is_loopback_bypass (rule : Value) : bool :=
  str_is "direct" (get_str "outbound" rule)
  && match get_array "ip_cidr" rule with
     | Some cidrs => forallb (λ expected, existsb (value_is expected) cidrs) LOOPBACK_CIDRS
     | None => false
     end.
Definition direct_process_rule (process_name : string) : Value :=
  obj [("process_name", strings [process_name]); ("outbound", VString "direct")].
Definition direct_cidr_rule (cidrs : list string) : Value :=
  obj [("ip_cidr", strings cidrs); ("outbound", VString "direct")].

Definition stable_bypass (rules : list Value) : list Value :=
  [direct_process_rule WARP_SERVICE_PROCESS; direct_cidr_rule LOOPBACK_CIDRS]
  ++ List.filter (λ rule, negb (is_warp_service_bypass rule) && negb (is_loopback_bypass rule))
       rules.
Definition modify_rules (f : list Value → list Value) : Value → Value :=
  modify "route" (modify "rules" (modify_array f)).
Definition sync_stable_bypass_rules (config : Value) : Value := modify_rules stable_bypass config.

(** Adds the networks that are missing. *)
Definition add_excludes (required : list string) (excludes : list Value) : list Value :=
  foldl (λ ex cidr, if existsb (value_is cidr) ex then ex else ex ++ [VString cidr])
    excludes required.
Definition exclude_inbound (required : list string) (inbound : Value) : Value :=
  if is_type "tun" inbound then
    let excludes := default [] (get_array "route_exclude_address" inbound) in
    set_key "route_exclude_address" (VArray (add_excludes required excludes)) inbound
  else inbound.
Definition control_cidr (ip : IpAddr) : string :=
  ip_display ip +:+ match ip with V4 _ => "/32" | V6 _ => "/128" end.

Definition sync_tun_route_excludes (config : Value) (server_ip : option string) : res Value :=
  match get_array "inbounds" config with
  | None => Ok config
  | Some inbounds =>
      if negb (existsb (is_type "tun") inbounds) then Ok config
      else
        ip ← ok_or server_ip "WINDOWS_MANAGED_TUN_CONTROL_IP_MISSING";
        ip ← ok_or (parse_ip ip) "WINDOWS_MANAGED_TUN_CONTROL_IP_INVALID";
        let required :=
          WARP_CONTROL_ENDPOINTS ++ FOREIGN_CLOUDFLARE_MESH_CIDRS ++ [control_cidr ip] in
        Ok (modify "inbounds" (modify_array (map (exclude_inbound required))) config)
  end.

(** ** The renderer *)

Definition port (p : Z) : Value := VNumber (Z.to_N p).
Definition selector (tag default_route : string) : Value :=
  obj [("type", VString "selector"); ("tag", VString tag);
       ("outbounds", strings EXPECTED_OUTBOUND_TAGS); ("default", VString default_route)].
Definition urltest (tag : string) (outbounds : list string) : Value :=
  obj [("type", VString "urltest"); ("tag", VString tag); ("outbounds", strings outbounds);
       ("url", VString "https://www.gstatic.com/generate_204"); ("interval", VString "10m")].
Definition hysteria2 (tag server : string) (t : WindowsTunnelBinding) : Value :=
  obj [("type", VString "hysteria2"); ("tag", VString tag); ("server", VString server);
       ("server_port", port (wtb_hy2_port t)); ("password", VString (wtb_hy2_password t));
       ("tls", obj [("enabled", VBool true); ("server_name", VString (wtb_domain t))])].
Definition vless (tag server reality_server_name : string) (t : WindowsTunnelBinding) : Value :=
  obj [("type", VString "vless"); ("tag", VString tag); ("server", VString server);
       ("server_port", port (wtb_vless_port t)); ("uuid", VString (wtb_vless_uuid t));
       ("flow", VString "xtls-rprx-vision");
       ("tls", obj [("enabled", VBool true); ("server_name", VString reality_server_name);
          ("utls", obj [("enabled", VBool true); ("fingerprint", VString "chrome")]);
          ("reality", obj [("enabled", VBool true);
             ("public_key", VString (wtb_reality_public_key t));
             ("short_id", VString (wtb_reality_short_id t))])])].
Definition mixed_inbound (tag listen : string) (listen_port : N) : Value :=
  obj [("type", VString "mixed"); ("tag", VString tag); ("listen", VString listen);
       ("listen_port", VNumber listen_port)].
Definition inbound_rule (inbound outbound : string) : Value :=
  obj [("inbound", strings [inbound]); ("outbound", VString outbound)].

Definition base_inbounds : list Value :=
  [mixed_inbound DESKTOP_TRACE_INBOUND_TAG "127.0.0.1" STAGE2_DESKTOP_PROXY_PORT;
   mixed_inbound WSL_INBOUND_TAG WSL_INBOUND_BIND_HOST STAGE2_WSL_PROXY_PORT].
Definition base_rules : list Value :=
  [inbound_rule DESKTOP_TRACE_INBOUND_TAG MANAGED_SELECTOR_TAG;
   inbound_rule WSL_INBOUND_TAG WSL_SELECTOR_TAG].
Definition base_outbounds (server reality_server_name desktop_route wsl_route : string)
    (direct warp : WindowsTunnelBinding) : list Value :=
  [selector MANAGED_SELECTOR_TAG desktop_route;
   selector WSL_SELECTOR_TAG wsl_route;
   urltest "auto-direct-tunnel" ["hysteria2-direct"; "vless-reality-direct"];
   urltest "auto-warp-tunnel" ["hysteria2-warp"; "vless-reality-warp"];
   hysteria2 "hysteria2-direct" server direct;
   vless "vless-reality-direct" server reality_server_name direct;
   hysteria2 "hysteria2-warp" server warp;
   vless "vless-reality-warp" server reality_server_name warp;
   obj [("type", VString "direct"); ("tag", VString "direct")]].
Definition base_config (outbounds : list Value) : Value :=
  obj [("log", obj [("level", VString "info"); ("timestamp", VBool true)]);
       ("inbounds", VArray base_inbounds);
       ("outbounds", VArray outbounds);
       ("route", obj [("rules", VArray base_rules); ("final", VString MANAGED_SELECTOR_TAG);
                      ("auto_detect_interface", VBool true)]);
       ("experimental", obj [("clash_api", obj [("external_controller",
          VString ("127.0.0.1:" +:+ pretty STAGE2_CLASH_API_PORT))])])].

Definition tun_inbound : Value :=
  obj [("type", VString "tun"); ("tag", VString MANAGED_TUN_TAG);
       ("interface_name", VString "sing-box-tun");
       ("address", strings ["172.19.0.1/30"; "fdfe:dcba:9876::1/126"]);
       ("auto_route", VBool true); ("strict_route", VBool true); ("dns_mode", VString "hijack")].
Definition managed_dns : Value :=
  obj [("servers", VArray [obj [("type", VString "tls"); ("tag", VString "managed-dns");
          ("server", VString "1.1.1.1"); ("server_port", VNumber 853);
          ("tls", obj [("enabled", VBool true); ("server_name", VString "cloudflare-dns.com")]);
          ("detour", VString MANAGED_SELECTOR_TAG)]]);
       ("final", VString "managed-dns"); ("strategy", VString "prefer_ipv4")].
Definition app_rule (path outbound : string) : Value :=
  obj [("inbound", strings [MANAGED_TUN_TAG]); ("process_path", strings [path]);
       ("outbound", VString outbound)].
Definition application_rule (app : WindowsApplicationRoute) : res Value :=
  outbound ← production_windows_route_tag (war_route app);
  Ok (app_rule (war_executable_path app) outbound).
Definition tun_fallback : Value := inbound_rule MANAGED_TUN_TAG "direct".

(** [for app in &policy.applications { rules.push(...) }], then the fallback *)
Definition selected_rules (policy : option WindowsApplicationRouting) : res (list Value) :=
  match selected_policy policy with
  | Some p => rules ← try_map application_rule (wap_applications p); Ok (rules ++ [tun_fallback])
  | None => Ok []
  end.

(** What [MANAGED_TUN] adds *)
Definition managed_tun_config (config : Value) (server_ip : string)
    (policy : option WindowsApplicationRouting) : res Value :=
  let config := modify "inbounds" (modify_array (λ l, l ++ [tun_inbound])) config in
  let config := set_key "dns" managed_dns config in
  config ← sync_tun_route_excludes config (Some server_ip);
  rules ← selected_rules policy;
  let config := modify_rules (λ l, l ++ rules) config in
  let config := modify "route" (set_key "find_process" (VBool true)) config in
  Ok (sync_stable_bypass_rules config).

Definition has_tun (config : Value) : bool :=
  match get_array "inbounds" config with
  | Some inbounds => existsb (is_type "tun") inbounds
  | None => false
  end.

Section Renderer.
Context `{PrettyJson} `{UnicodeLowercase} `{Message WindowsRuntimeState}.

(** The configuration before it is written *)
Definition render_value (state : WindowsRuntimeState) (desired : ProductionDesiredState)
    : res Value :=
  encode_windows_runtime_state state ;;
  mode ← ok_or (try_from (pds_windows_datapath_mode desired) : option WindowsDatapathMode)
           "WINDOWS_DATAPATH_MODE_INVALID";
  fail_if (bool_decide (mode = WindowsDatapathMode_Unspecified))
    "WINDOWS_DATAPATH_MODE_UNSPECIFIED" ;;
  validate_policy (pds_windows_application_routing desired) ;;
  routes ← ok_or (pds_windows_route_policy desired) "canonical Windows route policy is missing";
  desktop_route ← production_windows_route_tag (pwr_desktop routes);
  wsl_route ← production_windows_route_tag (pwr_wsl routes);
  reality_server_name ← ok_or
    match pds_reality_server_name desired with
    | Some n => if str_empty n then None else Some n
    | None => None
    end "canonical production Reality server name is missing";
  direct ← ok_or (wrs_direct state) "Windows runtime state direct tunnel is missing";
  warp ← ok_or (wrs_warp state) "Windows runtime state WARP tunnel is missing";
  let config := base_config (base_outbounds (wrs_server_ip state) reality_server_name
                  desktop_route wsl_route direct warp) in
  config ← (if bool_decide (mode = WindowsDatapathMode_ManagedTun)
            then managed_tun_config config (wrs_server_ip state)
                   (pds_windows_application_routing desired)
            else Ok config);
  match mode with
  | WindowsDatapathMode_ProxyOnly =>
      fail_if (has_tun config) "PROXY_ONLY Windows renderer unexpectedly produced a TUN inbound"
  | WindowsDatapathMode_ManagedTun =>
      fail_if (negb (has_tun config)) "MANAGED_TUN Windows renderer did not produce a TUN inbound"
  | WindowsDatapathMode_Unspecified => Err "Windows runtime datapath mode is unspecified"
  end ;;
  Ok config.

Definition render_windows_config_for_desired (state : WindowsRuntimeState)
    (desired : ProductionDesiredState) : res bytes :=
  config ← render_value state desired;
  map_err (λ err, "failed to render Windows config: " +:+ err) (to_vec_pretty config).

(** [canonical_production_desired_state()] is the desired state built into the program. *)
Definition render_windows_config (canonical : res ProductionDesiredState)
    (state : WindowsRuntimeState) : res bytes :=
  desired ← canonical;
  render_windows_config_for_desired state desired.
End Renderer.

(** ** Readback of the selected applications *)

Definition enumerate (l : list Value) : list (nat * Value) := imap (λ i v, (i, v)) l.
Definition APPS_MISMATCH : string := "WINDOWS_SELECTED_APPS_PROCESS_RULE_MISMATCH".

Definition check_app_rule (entry : (nat * Value) * WindowsApplicationRoute) : res unit :=
  let '((index, rule), app) := entry in
  expected ← map_err (λ _, "WINDOWS_SELECTED_APPS_ROUTE_INVALID")
               (production_windows_route_tag (war_route app));
  fail_if (negb (tun_rule rule)
           || negb (is_strings [war_executable_path app] (get "process_path" rule))
           || negb (str_is expected (get_str "outbound" rule))
           || is_some (get "process_name" rule) || is_some (get "domain" rule))
    APPS_MISMATCH ;;
  fail_if (index <? 2)%nat "WINDOWS_SELECTED_APPS_BYPASS_SHADOWED".

(** The checks of a policy that selects applications: the rules of the managed TUN are one
    rule per application and a last one to [direct] *)
Definition check_selected (rules : list Value) (policy : WindowsApplicationRouting) : res unit :=
  let apps := wap_applications policy in
  let paths := List.filter (λ e, has_process_path e.2) (enumerate rules) in
  fail_if (negb (length paths =? length apps)%nat)
    "WINDOWS_SELECTED_APPS_PROCESS_RULE_COUNT_MISMATCH" ;;
  for_each check_app_rule (zip paths apps) ;;
  let tun_rules := List.filter (λ e, tun_rule e.2) (enumerate rules) in
  fail_if (negb (length tun_rules =? length apps + 1)%nat)
    "WINDOWS_SELECTED_APPS_TUN_RULE_COUNT_MISMATCH" ;;
  fallback ← ok_or (last tun_rules) "WINDOWS_SELECTED_APPS_DIRECT_FALLBACK_MISSING";
  fail_if (negb (str_is "direct" (get_str "outbound" fallback.2))
           || is_some (get "process_path" fallback.2)
           || is_some (get "process_name" fallback.2)
           || match last paths with Some (index, _) => (fallback.1 <=? index)%nat | None => false end
           || existsb (λ e, negb (has_process_path e.2)) (take (length apps) tun_rules))
    "WINDOWS_SELECTED_APPS_DIRECT_FALLBACK_INVALID".

(** The first two rules *)
Definition foreign_bypass_missing (rules : list Value) : bool :=
  negb (str_is "direct" (head rules ≫= get_str "outbound"))
  || negb (is_strings [WARP_SERVICE_PROCESS] (head rules ≫= get "process_name"))
  || negb (str_is "direct" (rules !! 1%nat ≫= get_str "outbound"))
  || negb (is_strings LOOPBACK_CIDRS (rules !! 1%nat ≫= get "ip_cidr")).

Definition verify_managed_application_routes `{PrettyJson} `{UnicodeLowercase}
    (config_bytes : bytes) (desired : ProductionDesiredState) : res unit :=
  fail_if (negb (pds_windows_datapath_mode desired =? as_i32 WindowsDatapathMode_ManagedTun))
    "WINDOWS_SELECTED_APPS_MANAGED_TUN_REQUIRED" ;;
  validate_policy (pds_windows_application_routing desired) ;;
  fail_if (is_empty config_bytes || (MAX_CONFIG_BYTES <? blen config_bytes))
    "WINDOWS_SELECTED_APPS_CONFIG_SIZE_INVALID" ;;
  config ← ok_or (from_slice config_bytes) "WINDOWS_SELECTED_APPS_CONFIG_INVALID";
  fail_if (negb (bool_decide (pointer ["route"; "find_process"] config ≫= as_bool = Some true)))
    "WINDOWS_SELECTED_APPS_PROCESS_READBACK_NOT_ENABLED" ;;
  rules ← ok_or (pointer ["route"; "rules"] config ≫= as_array)
            "WINDOWS_SELECTED_APPS_RULES_INVALID";
  match selected_policy (pds_windows_application_routing desired) with
  | Some policy => check_selected rules policy
  | None => fail_if (existsb has_process_path rules || existsb tun_rule rules)
              "WINDOWS_SELECTED_APPS_STALE_OVERRIDE_FORBIDDEN"
  end ;;
  fail_if (foreign_bypass_missing rules) "WINDOWS_SELECTED_APPS_FOREIGN_BYPASS_MISSING".

(** ** Synchronization with a runtime state *)

Record SyncTunnelState : Set := {
  sts_domain : string; sts_hy2_port : Z; sts_hy2_password : string; sts_vless_port : Z;
  sts_vless_uuid : string; sts_reality_public_key : string; sts_reality_short_id : string
}.
Record SyncState : Set := {
  ss_instance_id : option string; ss_ip : option string; ss_tunnel : SyncTunnelState;
  ss_tunnel_warp : SyncTunnelState
}.
Inductive TunnelKind : Set := Hysteria2 | VlessReality.

(** [ensure_child_object], with [f] applied to the child *)
Definition with_child (key : string) (f : list (string * Value) → list (string * Value))
    (parent : list (string * Value)) : list (string * Value) :=
  let child := match map_get key parent with Some (VObject m) => m | _ => [] end in
  map_insert key (VObject (f child)) parent.

Definition tunnel_fields (t : SyncTunnelState) (kind : TunnelKind)
    (o : list (string * Value)) : list (string * Value) :=
  let o := map_insert "server" (VString (sts_domain t)) o in
  match kind with
  | Hysteria2 =>
      let o := map_insert "server_port" (port (sts_hy2_port t)) o in
      let o := map_insert "password" (VString (sts_hy2_password t)) o in
      with_child "tls" (map_insert "server_name" (VString (sts_domain t))) o
  | VlessReality =>
      let o := map_insert "server_port" (port (sts_vless_port t)) o in
      let o := map_insert "uuid" (VString (sts_vless_uuid t)) o in
      with_child "tls" (with_child "reality" (λ r,
        map_insert "short_id" (VString (sts_reality_short_id t))
          (map_insert "public_key" (VString (sts_reality_public_key t)) r))) o
  end.
Definition modify_object (f : list (string * Value) → list (string * Value)) (v : Value) : Value :=
  match v with VObject es => VObject (f es) | v => v end.
Definition has_tag (tag : string) (v : Value) : bool := str_is tag (get_str "tag" v).

(** [if let Some(x) = l.iter_mut().find(p) { f(x) }] *)
Definition update_found (p : Value → bool) (f : Value → Value) (l : list Value) : list Value :=
  default l (update_first p f l).
Definition sync_tunnel_outbound (tag : string) (t : SyncTunnelState) (kind : TunnelKind)
    (config : Value) : Value :=
  modify "outbounds" (modify_array
    (update_found (has_tag tag) (modify_object (tunnel_fields t kind)))) config.

Definition wsl_inbound_fields (o : list (string * Value)) : list (string * Value) :=
  map_insert "listen_port" (VNumber DEFAULT_WSL_PROXY_PORT)
    (map_insert "listen" (VString WSL_INBOUND_BIND_HOST)
      (map_insert "type" (VString "mixed") o)).
Definition sync_wsl_inbound (config : Value) : Value :=
  modify "inbounds" (modify_array (λ l,
    default (l ++ [mixed_inbound WSL_INBOUND_TAG WSL_INBOUND_BIND_HOST DEFAULT_WSL_PROXY_PORT])
      (update_first (has_tag WSL_INBOUND_TAG) (modify_object wsl_inbound_fields) l))) config.

Definition wsl_selector_fields (o : list (string * Value)) : list (string * Value) :=
  map_insert "outbounds" (strings EXPECTED_OUTBOUND_TAGS)
    (map_insert "default" (VString "auto-direct-tunnel")
      (map_insert "type" (VString "selector") o)).
Definition sync_wsl_selector (config : Value) : Value :=
  modify "outbounds" (modify_array (λ l,
    default (l ++ [selector WSL_SELECTOR_TAG "auto-direct-tunnel"])
      (update_first (has_tag WSL_SELECTOR_TAG) (modify_object wsl_selector_fields) l))) config.

Definition names_inbound (tag : string) (rule : Value) : bool :=
  match get_array "inbound" rule with
  | Some inbound => existsb (value_is tag) inbound
  | None => false
  end.
Definition wsl_rule_fields (o : list (string * Value)) : list (string * Value) :=
  map_insert "inbound" (strings [WSL_INBOUND_TAG])
    (map_insert "outbound" (VString WSL_SELECTOR_TAG) o).
(** [rules.iter().position(p).unwrap_or(rules.len())], [rules.insert(at, rule)] *)
Fixpoint insert_before (p : Value → bool) (x : Value) (l : list Value) : list Value :=
  match l with
  | [] => [x]
  | v :: l => if p v then x :: v :: l else v :: insert_before p x l
  end.
Definition sync_wsl_rules (rules : list Value) : list Value :=
  default (insert_before (names_inbound "mixed-in")
             (inbound_rule WSL_INBOUND_TAG WSL_SELECTOR_TAG) rules)
    (update_first (names_inbound WSL_INBOUND_TAG) (modify_object wsl_rule_fields) rules).
Definition sync_wsl_route_rule (config : Value) : Value := modify_rules sync_wsl_rules config.

Definition sync_runtime_paths (runtime_root : string) (config : Value) : Value :=
  let config := modify "experimental" (modify "clash_api" (modify_object
    (map_insert "external_ui" (VString (runtime_root +:+ "/metacubexd-ui"))))) config in
  modify "experimental" (modify "cache_file" (modify_object
    (map_insert "path" (VString (runtime_root +:+ "/cache-dns-vultr-dual.db"))))) config.

(** The new configuration, from the old one *)
Definition sync_config (state : SyncState) (runtime_root : string) (config : Value) : res Value :=
  let config := sync_runtime_paths runtime_root config in
  let config := sync_tunnel_outbound "hysteria2-direct" (ss_tunnel state) Hysteria2 config in
  let config := sync_tunnel_outbound "vless-reality-direct" (ss_tunnel state) VlessReality config in
  let config := sync_tunnel_outbound "hysteria2-warp" (ss_tunnel_warp state) Hysteria2 config in
  let config := sync_tunnel_outbound "vless-reality-warp" (ss_tunnel_warp state)
                  VlessReality config in
  config ← sync_tun_route_excludes config (ss_ip state);
  let config := sync_stable_bypass_rules config in
  let config := sync_wsl_inbound config in
  let config := sync_wsl_selector config in
  Ok (sync_wsl_route_rule config).

(** [ConfigSyncSummary] *)
Record ConfigSyncSummary : Set := { cfs_instance_id : option string; cfs_config_path : string }.

(** [ReadText], [WriteFile]: [Err] with the text of the error *)
Inductive config_call : Type → Type :=
| ReadConfigFile (path : string) : config_call (result string bytes)
| WriteConfigFile (path : string) (contents : bytes) : config_call (result string unit).
Abbreviation config_prog := (fservice config_call string).

Definition sync_local_config_from_bindings `{PrettyJson} (config_path : string)
    (state : SyncState) (runtime_root : string) : config_prog ConfigSyncSummary :=
  raw_config ← invoke (ReadConfigFile config_path);
  raw_config ← pure_step (map_err (λ err, "unable to read local sing-box config: " +:+ err)
                            raw_config);
  config ← pure_step (ok_or (from_slice raw_config)
                        "local sing-box config is not valid JSON");
  config ← pure_step (sync_config state runtime_root config);
  rendered ← pure_step (map_err (λ err, "failed to render updated config: " +:+ err)
                          (to_vec_pretty config));
  written ← invoke (WriteConfigFile config_path rendered);
  pure_step (map_err (λ err, "failed to write config: " +:+ err) written) ;;
  mret {| cfs_instance_id := ss_instance_id state; cfs_config_path := config_path |}.

Definition sync_tunnel_state_from_proto (value : WindowsTunnelBinding) : SyncTunnelState := {|
  sts_domain := wtb_domain value; sts_hy2_port := wtb_hy2_port value;
  sts_hy2_password := wtb_hy2_password value; sts_vless_port := wtb_vless_port value;
  sts_vless_uuid := wtb_vless_uuid value;
  sts_reality_public_key := wtb_reality_public_key value;
  sts_reality_short_id := wtb_reality_short_id value |}.

Definition sync_local_config_from_runtime_state `{PrettyJson} (config_path : string)
    (state : WindowsRuntimeState) (runtime_root : string) : config_prog ConfigSyncSummary :=
  direct ← pure_step (ok_or (wrs_direct state) "Windows runtime state direct tunnel is missing");
  warp ← pure_step (ok_or (wrs_warp state) "Windows runtime state warp tunnel is missing");
  sync_local_config_from_bindings config_path
    {| ss_instance_id := Some (wrs_instance_id state); ss_ip := Some (wrs_server_ip state);
       ss_tunnel := sync_tunnel_state_from_proto direct;
       ss_tunnel_warp := sync_tunnel_state_from_proto warp |} runtime_root.

(** [legacy]: the [Deserialize] of [SyncState] *)
Definition sync_local_config `{PrettyJson} (legacy : bytes → option SyncState)
    (config_path state_path runtime_root : string) : config_prog ConfigSyncSummary :=
  raw_state ← invoke (ReadConfigFile state_path);
  raw_state ← pure_step (map_err (λ err, "unable to read legacy state file: " +:+ err) raw_state);
  state ← pure_step (ok_or (legacy raw_state) "legacy state file is invalid JSON");
  sync_local_config_from_bindings config_path state runtime_root.
