(* ===== verification/SingboxInspect.v ===== *)
(** * Inspection of a sing-box configuration

    [edge-singbox/src/lib.rs]: what the controller reports of the configuration on disk and of
    the running process ([inspect_local_config]), compared with the tunnels it expects; the
    proxy addresses other tools use; the expected tunnels as
    [edge-controller-core/src/lib.rs] reads them from a state. *)

From S2P Require Import Prelude RustStd RustText RustUtf RustNet HostTypes Json HostAdmin WindowsRouting Singbox.

(** ** The typed configuration *)

Record Inbound : Set := {
  in_kind : string; in_tag : string; in_listen : option string; in_listen_port : option Z
}.
Record Reality : Set := { rl_public_key : option string; rl_short_id : option string }.
Record Tls : Set := { tls_server_name : option string; tls_reality : option Reality }.
Record Outbound : Set := {
  ob_kind : string; ob_tag : string; ob_outbounds : list string; ob_default : option string;
  ob_server : option string; ob_server_port : option Z; ob_password : option string;
  ob_uuid : option string; ob_tls : option Tls
}.
(** [cfg_external_controller]: [experimental.clash_api.external_controller] *)
Record SingboxConfig : Set := {
  cfg_inbounds : list Inbound; cfg_outbounds : list Outbound;
  cfg_external_controller : option string
}.

(** The derived [Deserialize] of JSON objects: unknown keys are ignored, a missing or null
    optional field is [None], [#[serde(default)]] makes a missing list empty. A struct written as
    an array and an object with a repeated key are outside the model. *)
Definition de_u32 (v : Value) : option Z :=
  match v with
  | VNumber n => if Z.of_N n <=? u32_max then Some (Z.of_N n) else None
  | _ => None
  end.
Definition de_list {A} (f : Value → option A) (v : Value) : option (list A) :=
  match v with VArray l => mapM f l | _ => None end.
Definition required {A} (f : Value → option A) (k : string) (v : Value) : option A :=
  x ← get k v; f x.
Definition optional {A} (f : Value → option A) (k : string) (v : Value) : option (option A) :=
  match get k v with
  | None | Some VNull => Some None
  | Some x => Some <$> f x
  end.
Definition defaulted {A} (f : Value → option (list A)) (k : string) (v : Value)
    : option (list A) :=
  match get k v with None => Some [] | Some x => f x end.
Definition of_object {A} (f : Value → option A) (v : Value) : option A :=
  match v with VObject _ => f v | _ => None end.

Definition de_inbound : Value → option Inbound := of_object (λ v,
  kind ← required as_str "type" v; tag ← required as_str "tag" v;
  listen ← optional as_str "listen" v; listen_port ← optional de_u32 "listen_port" v;
  Some {| in_kind := kind; in_tag := tag; in_listen := listen; in_listen_port := listen_port |}).
Definition de_reality : Value → option Reality := of_object (λ v,
  public_key ← optional as_str "public_key" v; short_id ← optional as_str "short_id" v;
  Some {| rl_public_key := public_key; rl_short_id := short_id |}).
Definition de_tls : Value → option Tls := of_object (λ v,
  server_name ← optional as_str "server_name" v; reality ← optional de_reality "reality" v;
  Some {| tls_server_name := server_name; tls_reality := reality |}).
Definition de_outbound : Value → option Outbound := of_object (λ v,
  kind ← required as_str "type" v; tag ← required as_str "tag" v;
  outbounds ← defaulted (de_list as_str) "outbounds" v; default ← optional as_str "default" v;
  server ← optional as_str "server" v; server_port ← optional de_u32 "server_port" v;
  password ← optional as_str "password" v; uuid ← optional as_str "uuid" v;
  tls ← optional de_tls "tls" v;
  Some {| ob_kind := kind; ob_tag := tag; ob_outbounds := outbounds; ob_default := default;
          ob_server := server; ob_server_port := server_port; ob_password := password;
          ob_uuid := uuid; ob_tls := tls |}).
Definition flatten {A} (o : option (option A)) : option A := mjoin o.
Definition de_clash_api : Value → option (option string) := of_object (λ v,
  optional as_str "external_controller" v).
Definition de_experimental : Value → option (option string) := of_object (λ v,
  api ← optional de_clash_api "clash_api" v; Some (flatten api)).
Definition de_config : Value → option SingboxConfig := of_object (λ v,
  inbounds ← defaulted (de_list de_inbound) "inbounds" v;
  outbounds ← defaulted (de_list de_outbound) "outbounds" v;
  experimental ← optional de_experimental "experimental" v;
  Some {| cfg_inbounds := inbounds; cfg_outbounds := outbounds;
          cfg_external_controller := flatten experimental |}).

(** ** Observations *)

Record LocalSingboxState : Set := {
  ls_process_running : bool; ls_managed_config : bool; ls_expected_config_path : string;
  ls_active_config_path : option string; ls_clash_api_port : option Z; ls_warnings : list string
}.
(** [proxy_groups] stays empty here. *)
Record SelectorState : Set := {
  sel_desired_main_route : option string; sel_observed_main_route : option string;
  sel_degraded : bool; sel_warnings : list string
}.
Record UbuntuProxyState : Set := {
  ub_available : bool; ub_host : option string; ub_port : option Z; ub_url : option string;
  ub_warnings : list string
}.
Definition local_placeholder (expected_config_path : string) : LocalSingboxState := {|
  ls_process_running := false; ls_managed_config := false;
  ls_expected_config_path := expected_config_path; ls_active_config_path := None;
  ls_clash_api_port := Some 9090; ls_warnings := [] |}.
Definition selector_placeholder : SelectorState := {|
  sel_desired_main_route := None; sel_observed_main_route := None; sel_degraded := false;
  sel_warnings := [] |}.
Definition ubuntu_unavailable (note : string) : UbuntuProxyState := {|
  ub_available := false; ub_host := None; ub_port := None; ub_url := None;
  ub_warnings := [note] |}.

Definition ls_warn (w : string) (s : LocalSingboxState) : LocalSingboxState := {|
  ls_process_running := ls_process_running s; ls_managed_config := ls_managed_config s;
  ls_expected_config_path := ls_expected_config_path s;
  ls_active_config_path := ls_active_config_path s; ls_clash_api_port := ls_clash_api_port s;
  ls_warnings := ls_warnings s ++ [w] |}.
Definition ls_managed (s : LocalSingboxState) : LocalSingboxState := {|
  ls_process_running := ls_process_running s; ls_managed_config := true;
  ls_expected_config_path := ls_expected_config_path s;
  ls_active_config_path := ls_active_config_path s; ls_clash_api_port := ls_clash_api_port s;
  ls_warnings := ls_warnings s |}.
Definition ls_port (p : option Z) (s : LocalSingboxState) : LocalSingboxState := {|
  ls_process_running := ls_process_running s; ls_managed_config := ls_managed_config s;
  ls_expected_config_path := ls_expected_config_path s;
  ls_active_config_path := ls_active_config_path s; ls_clash_api_port := p;
  ls_warnings := ls_warnings s |}.
Definition sel_degrade (s : SelectorState) : SelectorState := {|
  sel_desired_main_route := sel_desired_main_route s;
  sel_observed_main_route := sel_observed_main_route s; sel_degraded := true;
  sel_warnings := sel_warnings s |}.
Definition sel_warn (ws : list string) (s : SelectorState) : SelectorState := {|
  sel_desired_main_route := sel_desired_main_route s;
  sel_observed_main_route := sel_observed_main_route s; sel_degraded := sel_degraded s;
  sel_warnings := sel_warnings s ++ ws |}.

Definition inspect_selector_group (parsed : SingboxConfig) (selector_tag : string)
    (local : LocalSingboxState) : SelectorState * LocalSingboxState :=
  match List.find (λ o, str_eqb (ob_kind o) "selector" && str_eqb (ob_tag o) selector_tag)
          (cfg_outbounds parsed) with
  | Some found =>
      let s := {| sel_desired_main_route := ob_default found;
                  sel_observed_main_route := ob_default found; sel_degraded := false;
                  sel_warnings := [] |} in
      let missing := List.filter (λ tag, negb (mem tag (ob_outbounds found)))
                       EXPECTED_OUTBOUND_TAGS in
      if is_empty missing then (s, local)
      else (sel_degrade s, ls_warn ("managed selector " +:+ selector_tag
        +:+ " is missing expected tunnel entries: " +:+ join ", " missing) local)
  | None =>
      (sel_degrade (sel_warn [selector_tag +:+ " was not found in local config"]
         selector_placeholder),
       ls_warn ("managed selector " +:+ selector_tag +:+ " is missing from local config") local)
  end.

(** [resolve_wsl_proxy_endpoint], from the gateway and the addresses of the adapters *)
Definition resolve_wsl_proxy_endpoint (gateway : option string) (adapters : list string)
    : option string * list string :=
  match gateway, adapters with
  | Some ip, _ => (Some ip, [])
  | None, [only] => (Some only, ["Ubuntu WSL gateway could not be resolved directly; using single detected WSL adapter IPv4"])
  | None, [] => (None, ["Ubuntu WSL gateway could not be resolved; verify WSL is running before using the Ubuntu proxy"])
  | None, many => (None, ["multiple WSL adapter IPv4 addresses detected (" +:+ join ", " many
      +:+ "); Ubuntu endpoint may require verification"])
  end.

Definition proxy_url (host : string) (p : Z) : string := "http://" +:+ host +:+ ":" +:+ dec p.

Definition inspect_ubuntu_proxy_inbound (endpoint : option string * list string)
    (parsed : SingboxConfig) (local : LocalSingboxState) (ubuntu : SelectorState)
    : UbuntuProxyState * LocalSingboxState * SelectorState :=
  match List.find (λ i, str_eqb (in_kind i) "mixed" && str_eqb (in_tag i) WSL_INBOUND_TAG)
          (cfg_inbounds parsed) with
  | None =>
      (ubuntu_unavailable "wsl-mixed-in inbound is missing",
       ls_warn "WSL inbound wsl-mixed-in is missing from local config" local,
       sel_warn ["wsl-mixed-in inbound was not found in local config"] (sel_degrade ubuntu))
  | Some inbound =>
      let host := default (default "127.0.0.1" (in_listen inbound)) (fst endpoint) in
      let p := default (Z.of_N DEFAULT_WSL_PROXY_PORT) (in_listen_port inbound) in
      let ubuntu := if is_empty (snd endpoint) then ubuntu
                    else sel_warn (snd endpoint) (sel_degrade ubuntu) in
      ({| ub_available := true; ub_host := Some host; ub_port := Some p;
          ub_url := Some (proxy_url host p); ub_warnings := snd endpoint |}, local, ubuntu)
  end.

(** ** Comparison with the expected tunnels *)

Record TunnelBinding : Set := {
  tb_domain : string; tb_hy2_port : Z; tb_hy2_password : string; tb_vless_port : Z;
  tb_vless_uuid : string; tb_reality_public_key : string; tb_reality_short_id : string
}.
Record ExpectedTunnelBindings : Set := {
  etb_server : string; etb_direct : TunnelBinding; etb_warp : TunnelBinding
}.
Definition shown (o : option string) : string := default "<missing>" o.

(** A value is compared and shown as its text. *)
Definition compare_field (outbound_tag field_name : string) (observed expected : option string)
    (st : LocalSingboxState * SelectorState) : LocalSingboxState * SelectorState :=
  if bool_decide (observed = expected) then st
  else (ls_warn (outbound_tag +:+ "." +:+ field_name +:+ " does not match live state: config="
          +:+ shown observed +:+ ", state=" +:+ shown expected) (fst st), sel_degrade (snd st)).

Definition tls_reality_of (o : Outbound) : option Reality := ob_tls o ≫= tls_reality.

Definition compare_tunnel_binding (parsed : SingboxConfig) (hy2_tag vless_tag : string)
    (expected_server : string) (expected : TunnelBinding)
    (st : LocalSingboxState * SelectorState) : LocalSingboxState * SelectorState :=
  let missing tag := (ls_warn ("managed config is missing outbound " +:+ tag) (fst st),
                      sel_degrade (snd st)) in
  match List.find (λ o, str_eqb (ob_tag o) hy2_tag) (cfg_outbounds parsed) with
  | None => missing hy2_tag
  | Some hy2 =>
    match List.find (λ o, str_eqb (ob_tag o) vless_tag) (cfg_outbounds parsed) with
    | None => missing vless_tag
    | Some vless =>
        foldl (λ st '(tag, field, observed, expected), compare_field tag field observed
                 (Some expected) st) st
          [(hy2_tag, "server", ob_server hy2, expected_server);
           (hy2_tag, "server_port", dec <$> ob_server_port hy2, dec (tb_hy2_port expected));
           (hy2_tag, "password", ob_password hy2, tb_hy2_password expected);
           (hy2_tag, "tls.server_name", ob_tls hy2 ≫= tls_server_name, tb_domain expected);
           (vless_tag, "server", ob_server vless, expected_server);
           (vless_tag, "server_port", dec <$> ob_server_port vless, dec (tb_vless_port expected));
           (vless_tag, "uuid", ob_uuid vless, tb_vless_uuid expected);
           (vless_tag, "tls.reality.public_key", tls_reality_of vless ≫= rl_public_key,
            tb_reality_public_key expected);
           (vless_tag, "tls.reality.short_id", tls_reality_of vless ≫= rl_short_id,
            tb_reality_short_id expected)]
    end
  end.

(** [value.rsplit(':').next()?.parse().ok()] *)
Definition parse_controller_port (value : string) : option Z :=
  parse_uint u32_max (List.last (split ":" value) "").

(** ** Processes *)

(** [arguments.windows(2)] *)
Fixpoint extract_config_path (arguments : list string) : option string :=
  match arguments with
  | a :: ((b :: _) as rest) =>
      if str_eqb a "-c" || str_eqb a "--config" then Some b else extract_config_path rest
  | _ => None
  end.

(** [fs::read_dir("/proc")]: each entry's name and the arguments of its [cmdline], [None] when
    it cannot be read; [same_path]: [same_path_string] with the expected path *)
Fixpoint detect_process_in (same_path : string → bool)
    (entries : list (string * option (list string))) : option (option string) :=
  match entries with
  | [] => None
  | (pid, cmdline) :: entries =>
      let next := detect_process_in same_path entries in
      if negb (str_all is_ascii_digit pid) then next
      else match cmdline with
           | Some ((program :: _) as parts) =>
               if negb (str_contains "sing-box" program) then next
               else match extract_config_path parts with
                    | Some candidate => if same_path candidate then Some (Some candidate) else next
                    | None => next
                    end
           | _ => next
           end
  end.
Definition detect_process (same_path : string → bool)
    (proc : option (list (string * option (list string)))) : option (option string) :=
  proc ≫= detect_process_in same_path.

(** ** The inspection *)

Record LocalConfigObservation : Set := {
  lco_local_singbox : LocalSingboxState; lco_selector : SelectorState;
  lco_ubuntu_selector : SelectorState; lco_ubuntu_proxy : UbuntuProxyState
}.

(** What the inspection sees of the host: [/proc], whether the configuration is a file, its
    text, and the addresses of WSL *)
Record host_view : Type := {
  hv_proc : option (list (string * option (list string)));
  hv_same_path : string → bool;
  hv_is_file : bool;
  hv_config : result string bytes;
  hv_gateway : option string;
  hv_adapters : list string
}.

Definition observe_process (config_path : string) (hv : host_view) : LocalSingboxState :=
  let process := detect_process (hv_same_path hv) (hv_proc hv) in
  let local := {| ls_process_running := is_some process; ls_managed_config := false;
    ls_expected_config_path := config_path;
    ls_active_config_path := match flatten process with
                             | Some p => Some p
                             | None => if hv_is_file hv then Some config_path else None
                             end;
    ls_clash_api_port := Some 9090; ls_warnings := [] |} in
  match process with
  | None => local
  | Some (Some active_config) =>
      if hv_same_path hv active_config then ls_managed local
      else ls_warn ("sing-box is running with a different config: " +:+ active_config) local
  | Some None => ls_warn "sing-box process detected but config path was not found in command line"
                   local
  end.

(** The part after the configuration was parsed *)
Definition inspect_parsed (expected_bindings : option ExpectedTunnelBindings) (hv : host_view)
    (parsed : SingboxConfig) (local : LocalSingboxState) : LocalConfigObservation :=
  let local := ls_port (cfg_external_controller parsed ≫= parse_controller_port) local in
  let '(sel, local) := inspect_selector_group parsed MANAGED_SELECTOR_TAG local in
  let '(ubuntu, local) := inspect_selector_group parsed WSL_SELECTOR_TAG local in
  let local := if is_some (sel_desired_main_route sel) || is_some (sel_desired_main_route ubuntu)
               then ls_managed local else local in
  let '(proxy, local, ubuntu) := inspect_ubuntu_proxy_inbound
    (resolve_wsl_proxy_endpoint (hv_gateway hv) (hv_adapters hv)) parsed local ubuntu in
  let '(local, sel) :=
    if existsb (λ o, mem (ob_tag o) EXPECTED_OUTBOUND_TAGS) (cfg_outbounds parsed)
    then (local, sel)
    else (ls_warn "local config does not contain expected Vultr dual-tunnel outbounds" local,
          sel_degrade sel) in
  let '(local, sel) :=
    if is_some (ls_clash_api_port local) then (local, sel)
    else (ls_warn "clash API port is not configured in local config" local,
          sel_warn ["live selector observation is limited because clash API is not configured"]
            sel) in
  let '(local, sel) :=
    match expected_bindings with
    | Some expected =>
        compare_tunnel_binding parsed "hysteria2-warp" "vless-reality-warp" (etb_server expected)
          (etb_warp expected)
          (compare_tunnel_binding parsed "hysteria2-direct" "vless-reality-direct"
             (etb_server expected) (etb_direct expected) (local, sel))
    | None => (ls_warn "live tunnel state is unavailable, config/state parity was not checked"
                 local, sel)
    end in
  {| lco_local_singbox := local; lco_selector := sel; lco_ubuntu_selector := ubuntu;
     lco_ubuntu_proxy := proxy |}.

(** The texts of serde_json's errors follow the message of an invalid configuration. *)
Definition inspect_local_config `{PrettyJson} (config_path : string)
    (expected_bindings : option ExpectedTunnelBindings) (hv : host_view)
    : LocalConfigObservation :=
  let local := observe_process config_path hv in
  let unavailable warning note := {|
    lco_local_singbox := ls_warn warning local;
    lco_selector := sel_warn [note] selector_placeholder;
    lco_ubuntu_selector := selector_placeholder;
    lco_ubuntu_proxy := ubuntu_unavailable "WSL proxy inbound is missing" |} in
  match hv_config hv with
  | Err err => unavailable ("unable to read local sing-box config: " +:+ err)
                 "selector state unavailable because local config could not be read"
  | Ok raw =>
      match from_slice raw ≫= de_config with
      | None => unavailable "local sing-box config is not valid JSON"
                  "selector state unavailable because local config JSON is invalid"
      | Some parsed => inspect_parsed expected_bindings hv parsed local
      end
  end.

(** ** Proxy addresses *)

(** [TraceConfig] has the inbounds only. *)
Definition de_trace_config : Value → option (list Inbound) := of_object (λ v,
  defaulted (de_list de_inbound) "inbounds" v).
Definition trace_proxy_url_for_inbound `{PrettyJson} (config : result string bytes)
    (inbound_tag : string) : res (option string) :=
  raw ← map_err (λ err, "unable to read local sing-box config: " +:+ err) config;
  inbounds ← ok_or (from_slice raw ≫= de_trace_config) "invalid local config JSON";
  Ok (foldr (λ i next,
        if str_eqb (in_kind i) "mixed" && str_eqb (in_tag i) inbound_tag then
          match in_listen_port i with
          | Some p => Some (proxy_url (default "127.0.0.1" (in_listen i)) p)
          | None => next
          end
        else next) None inbounds).
Definition default_trace_proxy_url `{PrettyJson} (config : result string bytes)
    : res (option string) := trace_proxy_url_for_inbound config DESKTOP_TRACE_INBOUND_TAG.
Definition ubuntu_trace_proxy_url `{PrettyJson} (config : result string bytes)
    : res (option string) := trace_proxy_url_for_inbound config WSL_INBOUND_TAG.

(** ** The expected tunnels of a state *)

Definition tunnel_binding_from_proto (b : WindowsTunnelBinding) : TunnelBinding := {|
  tb_domain := wtb_domain b; tb_hy2_port := wtb_hy2_port b;
  tb_hy2_password := wtb_hy2_password b; tb_vless_port := wtb_vless_port b;
  tb_vless_uuid := wtb_vless_uuid b; tb_reality_public_key := wtb_reality_public_key b;
  tb_reality_short_id := wtb_reality_short_id b |}.
Definition expected_tunnel_bindings_from_runtime_state (state : WindowsRuntimeState)
    : option ExpectedTunnelBindings :=
  direct ← wrs_direct state;
  warp ← wrs_warp state;
  Some {| etb_server := wrs_server_ip state; etb_direct := tunnel_binding_from_proto direct;
          etb_warp := tunnel_binding_from_proto warp |}.
