(* ===== verification/SingboxFacts.v ===== *)
(** * The sing-box configuration: theorems

    The renderer and the checks agree: every configuration it writes is admitted for its mode
    and for no other. Under sing-box's documented matching of
    rules, the rendered rules implement the policy of Git. *)

From S2P Require Import Prelude RustStd RustUtf RustNet HostTypes Json HostAdmin Service.
From S2P Require Import Concrete WindowsRouting Singbox SingboxInspect.

(** ** JSON *)

(** A value whose maps are in order, as every [serde_json::Value] is, reads back as it was
    written; no text is empty. *)
Class PrettyJsonLaws `{PrettyJson} : Prop := {
  pretty_roundtrip v b :
    canonicalize v = v → to_vec_pretty v = Ok b → from_slice b = Some v;
  pretty_nonempty v b : to_vec_pretty v = Ok b → b ≠ []
}.

Lemma value_is_true s v : value_is s v = true ↔ v = VString s.
Proof.
  unfold value_is, str_is. rewrite bool_decide_eq_true. destruct v; naive_solver.
Qed.
Lemma is_strings_strings l : is_strings l (Some (strings l)) = true.
Proof.
  apply bool_decide_eq_true. rewrite <- list_fmap_compose. by apply list_fmap_ext.
Qed.

(** Every required network is excluded. *)
Lemma add_excludes_mono required ex cidr :
  existsb (value_is cidr) ex = true → existsb (value_is cidr) (add_excludes required ex) = true.
Proof.
  unfold add_excludes. revert ex. induction required as [|c required IH]; intros ex He; [done|].
  cbn [foldl]. apply IH. destruct (existsb (value_is c) ex); [done|].
  rewrite existsb_app. by rewrite He.
Qed.
Lemma add_excludes_in required ex cidr :
  cidr ∈ required → existsb (value_is cidr) (add_excludes required ex) = true.
Proof.
  unfold add_excludes. revert ex. induction required as [|c required IH]; intros ex Hin;
    [by apply not_elem_of_nil in Hin|].
  cbn [foldl]. apply elem_of_cons in Hin as [->|Hin]; [|by apply IH].
  apply add_excludes_mono. destruct (existsb (value_is c) ex) eqn:E; [done|].
  rewrite existsb_app. cbn [existsb]. rewrite (proj2 (value_is_true c (VString c)) eq_refl).
  by rewrite orb_true_r.
Qed.
Lemma add_excludes_canonical required ex :
  map canonicalize ex = ex → map canonicalize (add_excludes required ex) = add_excludes required ex.
Proof.
  unfold add_excludes. revert ex. induction required as [|c required IH]; intros ex He; [done|].
  cbn [foldl]. apply IH. destruct (existsb (value_is c) ex); [done|].
  rewrite map_app, He. done.
Qed.

(** ** The rendered configuration *)

(** The rules of a rendered configuration with a TUN, and the whole of it *)
Definition managed_rules (app_rules : list Value) : list Value :=
  [direct_process_rule WARP_SERVICE_PROCESS; direct_cidr_rule LOOPBACK_CIDRS]
  ++ (base_rules ++ app_rules).
Definition managed_tun (excludes : list Value) : Value :=
  set_key "route_exclude_address" (VArray excludes) tun_inbound.
Definition managed_config (outbounds excludes rules : list Value) : Value :=
  obj [("log", obj [("level", VString "info"); ("timestamp", VBool true)]);
       ("inbounds", VArray (base_inbounds ++ [managed_tun excludes]));
       ("outbounds", VArray outbounds);
       ("route", obj [("rules", VArray rules); ("final", VString MANAGED_SELECTOR_TAG);
                      ("auto_detect_interface", VBool true); ("find_process", VBool true)]);
       ("experimental", obj [("clash_api", obj [("external_controller",
          VString ("127.0.0.1:" +:+ pretty STAGE2_CLASH_API_PORT))])]);
       ("dns", managed_dns)].

(** The rules that the policy adds are no bypass rules. *)
Definition ordinary (rule : Value) : Prop :=
  is_warp_service_bypass rule = false ∧ is_loopback_bypass rule = false.
Lemma stable_bypass_ordinary rules :
  Forall ordinary rules → stable_bypass rules =
    [direct_process_rule WARP_SERVICE_PROCESS; direct_cidr_rule LOOPBACK_CIDRS] ++ rules.
Proof.
  intros Hall. unfold stable_bypass. f_equal. apply filter_all. intros r Hr.
  rewrite Forall_forall in Hall. destruct (Hall r Hr) as [-> ->]. done.
Qed.

(** [apps] is rendered as [rules]. *)
Definition app_rules_of (apps : list WindowsApplicationRoute) (rules : list Value) : Prop :=
  Forall2 (λ app rule, ∃ tag, production_windows_route_tag (war_route app) = Ok tag ∧
    rule = app_rule (war_executable_path app) tag) apps rules.

Lemma application_rules_Ok apps rules :
  try_map application_rule apps = Ok rules ↔ app_rules_of apps rules.
Proof.
  rewrite try_map_Ok. unfold app_rules_of.
  split; intros Hall; eapply Forall2_impl; try exact Hall; intros app rule; unfold application_rule.
  - intros (tag & Ht & [= <-])%bind_Ok. eauto.
  - intros (tag & -> & ->). done.
Qed.

Lemma app_rules_ordinary apps rules : app_rules_of apps rules → Forall ordinary rules.
Proof.
  induction 1 as [|a rule apps rules (tag & _ & ->) _ IH]; [constructor|].
  apply Forall_cons. split; [|done]. by split; apply andb_false_intro2.
Qed.
Lemma app_rules_canonical apps rules : app_rules_of apps rules → map canonicalize rules = rules.
Proof.
  induction 1 as [|a rule apps rules (tag & _ & ->) _ IH]; [done|]. cbn [map]. by rewrite IH.
Qed.

(** The rules that a policy adds: those of its applications and the fallback *)
Definition policy_rules (policy : option WindowsApplicationRouting) (rules : list Value) : Prop :=
  match selected_policy policy with
  | Some p => ∃ app_rules, app_rules_of (wap_applications p) app_rules ∧
      rules = app_rules ++ [tun_fallback]
  | None => rules = []
  end.
Lemma selected_rules_Ok policy rules :
  selected_rules policy = Ok rules ↔ policy_rules policy rules.
Proof.
  unfold selected_rules, policy_rules. destruct (selected_policy policy) as [p|]; [|naive_solver].
  split.
  - intros (app_rules & Hr%application_rules_Ok & [= <-])%bind_Ok. eauto.
  - intros (app_rules & Hr%application_rules_Ok & ->). by rewrite Hr.
Qed.
Lemma policy_rules_ordinary policy rules : policy_rules policy rules → Forall ordinary rules.
Proof.
  unfold policy_rules. destruct (selected_policy policy); [|by intros ->].
  intros (app_rules & Hr%app_rules_ordinary & ->). apply Forall_app. by repeat constructor.
Qed.
Lemma policy_rules_canonical policy rules :
  policy_rules policy rules → map canonicalize rules = rules.
Proof.
  unfold policy_rules. destruct (selected_policy policy); [|by intros ->].
  intros (app_rules & Hr%app_rules_canonical & ->). by rewrite map_app, Hr.
Qed.

Definition required_excludes (ip : IpAddr) : list string :=
  WARP_CONTROL_ENDPOINTS ++ FOREIGN_CLOUDFLARE_MESH_CIDRS ++ [control_cidr ip].

Lemma managed_tun_config_eq outbounds server_ip policy ip rules :
  parse_ip server_ip = Some ip → policy_rules policy rules →
  managed_tun_config (base_config outbounds) server_ip policy =
    Ok (managed_config outbounds (add_excludes (required_excludes ip) []) (managed_rules rules)).
Proof.
  intros Hip Hr. trans (@Ok string _ (managed_config outbounds
    (add_excludes (required_excludes ip) []) (stable_bypass (base_rules ++ rules)))).
  - unfold managed_tun_config, sync_tun_route_excludes. cbn. rewrite Hip. cbn.
    rewrite (proj2 (selected_rules_Ok policy rules) Hr). reflexivity.
  - rewrite stable_bypass_ordinary; [done|].
    apply Forall_app. split; [by repeat constructor|by eapply policy_rules_ordinary].
Qed.

(** ** What can be rendered *)

Section Rendering.
Context `{PrettyJson} `{UnicodeLowercase} `{Message WindowsRuntimeState}.

(** The inputs the renderer needs, and the outbounds they give *)
Definition renderable (state : WindowsRuntimeState) (desired : ProductionDesiredState)
    (mode : WindowsDatapathMode) (outbounds : list Value) : Prop :=
  validate_windows_runtime_state state = Ok tt ∧
  pds_windows_datapath_mode desired = as_i32 mode ∧ mode ≠ WindowsDatapathMode_Unspecified ∧
  validate_policy (pds_windows_application_routing desired) = Ok tt ∧
  ∃ routes desktop wsl reality direct warp,
    pds_windows_route_policy desired = Some routes ∧
    production_windows_route_tag (pwr_desktop routes) = Ok desktop ∧
    production_windows_route_tag (pwr_wsl routes) = Ok wsl ∧
    pds_reality_server_name desired = Some reality ∧ str_empty reality = false ∧
    wrs_direct state = Some direct ∧ wrs_warp state = Some warp ∧
    outbounds = base_outbounds (wrs_server_ip state) reality desktop wsl direct warp.

(** The configuration of each mode *)
Definition rendered (state : WindowsRuntimeState) (desired : ProductionDesiredState)
    (mode : WindowsDatapathMode) (outbounds : list Value) (config : Value) : Prop :=
  match mode with
  | WindowsDatapathMode_ProxyOnly => config = base_config outbounds
  | WindowsDatapathMode_ManagedTun => ∃ ip rules,
      parse_ip (wrs_server_ip state) = Some ip ∧
      policy_rules (pds_windows_application_routing desired) rules ∧
      config = managed_config outbounds (add_excludes (required_excludes ip) [])
                 (managed_rules rules)
  | WindowsDatapathMode_Unspecified => False
  end.

Lemma validate_application_Ok seen app seen' :
  validate_application seen app = Ok seen' →
  specified_route (war_route app) = true ∧ windows_absolute_path (war_executable_path app) = true ∧
  eq_ignore_ascii_case (basename (war_executable_path app)) FOREIGN_WARP_SERVICE_BASENAME = false.
Proof.
  unfold validate_application. intros Hv. inv_ok Hv. apply negb_false in Hm1.
  apply orb_false_iff in Hm as [[_ Hm%negb_false]%orb_false_iff _]. done.
Qed.
Lemma validate_policy_apps policy p :
  validate_policy policy = Ok tt → selected_policy policy = Some p →
  1 ≤ Z.of_nat (length (wap_applications p)) ≤ 128 ∧
  Forall (λ app, specified_route (war_route app) = true ∧
    windows_absolute_path (war_executable_path app) = true ∧
    eq_ignore_ascii_case (basename (war_executable_path app)) FOREIGN_WARP_SERVICE_BASENAME = false)
    (wap_applications p).
Proof.
  unfold validate_policy, selected_policy. destruct policy as [q|]; [|done].
  destruct (wap_scope q =? _) eqn:Hscope; [|done]. intros Hv [= ->].
  apply Z.eqb_eq in Hscope. rewrite Hscope, try_from_as_i32 in Hv. cbn [ok_or mbind result_bind] in Hv.
  inv_ok Hv. apply negb_false, andb_true in Hm as [Hl%Z.leb_le Hu%Z.leb_le]. split; [lia|].
  eapply try_fold_Forall; [|exact Hm0]. intros. by eapply validate_application_Ok.
Qed.
Lemma specified_route_tag r :
  specified_route r = true → ∃ tag, production_windows_route_tag r = Ok tag.
Proof.
  unfold specified_route, production_windows_route_tag.
  destruct (try_from r : option WindowsDefaultRoute) as [[]|]; cbn; try discriminate; eauto.
Qed.
Lemma policy_rules_exist policy :
  validate_policy policy = Ok tt → ∃ rules, policy_rules policy rules.
Proof.
  intros Hv. unfold policy_rules. destruct (selected_policy policy) as [p|] eqn:Hp; [|eauto].
  destruct (validate_policy_apps _ _ Hv Hp) as [_ Hall].
  cut (∃ rs, app_rules_of (wap_applications p) rs); [intros [rs ?]; eauto|].
  induction Hall as [|app apps (Hr & _) _ [rs IH]]; [exists []; constructor|].
  destruct (specified_route_tag _ Hr) as [tag Ht]. eexists (_ :: rs). constructor; eauto.
Qed.

(** The renderer produces these configurations, and no other. *)
Lemma render_value_Ok state desired config :
  render_value state desired = Ok config ↔
  ∃ mode outbounds, renderable state desired mode outbounds ∧
    rendered state desired mode outbounds config.
Proof.
  unfold render_value, encode_windows_runtime_state. split.
  - intros Hr. apply bind_Ok in Hr as (b & Hv & Hr). apply bind_Ok in Hv as ([] & Hv & _).
    apply bind_Ok in Hr as (mode & Hmode%ok_or_Ok%try_from_Some & Hr).
    apply bind_Ok in Hr as ([] & Hun & Hr). reflect_in Hun.
    apply bind_Ok in Hr as ([] & Hpol & Hr).
    apply bind_Ok in Hr as (routes & Hroutes%ok_or_Ok & Hr).
    apply bind_Ok in Hr as (desktop & Hd & Hr). apply bind_Ok in Hr as (wsl & Hw & Hr).
    apply bind_Ok in Hr as (reality & Hre%ok_or_Ok & Hr).
    apply bind_Ok in Hr as (direct & Hdir%ok_or_Ok & Hr).
    apply bind_Ok in Hr as (warp & Hwarp%ok_or_Ok & Hr).
    destruct (pds_reality_server_name desired) as [n|] eqn:Hn; [|done].
    destruct (str_empty n) eqn:Hne; [done|]. injection Hre as ->.
    exists mode, (base_outbounds (wrs_server_ip state) reality desktop wsl direct warp).
    split; [by repeat split; eauto 20|]. apply bind_Ok in Hr as (c & Hc & Hr).
    apply bind_Ok in Hr as ([] & _ & [= ->]).
    destruct mode; [congruence|by injection Hc|]. rewrite bool_decide_eq_true_2 in Hc by done.
    destruct (policy_rules_exist _ Hpol) as [rules Hrules].
    destruct (parse_ip (wrs_server_ip state)) as [ip|] eqn:Hip.
    + rewrite (managed_tun_config_eq _ _ _ ip rules Hip Hrules) in Hc. injection Hc as <-.
      by exists ip, rules.
    + unfold managed_tun_config, sync_tun_route_excludes in Hc. cbn in Hc. by rewrite Hip in Hc.
  - intros (mode & outbounds & (Hv & Hmode & Hun & Hpol & routes & desktop & wsl & reality & direct
      & warp & Hroutes & Hd & Hw & Hre & Hne & Hdir & Hwarp & ->) & Hren).
    rewrite Hv, Hmode, try_from_as_i32, Hpol, Hroutes. cbn [ok_or mbind result_bind].
    rewrite Hd, Hw, Hre, Hne, Hdir, Hwarp.
    rewrite (bool_decide_eq_false_2 (mode = WindowsDatapathMode_Unspecified)) by done.
    cbn [ok_or mbind result_bind fail_if]. destruct mode; [done| |].
    + rewrite bool_decide_eq_false_2 by done. cbn [rendered] in Hren. by rewrite Hren.
    + destruct Hren as (ip & rules & Hip & Hrules & ->). rewrite bool_decide_eq_true_2 by done.
      by rewrite (managed_tun_config_eq _ _ _ ip rules Hip Hrules).
Qed.
End Rendering.

Lemma base_outbounds_canonical server reality desktop wsl direct warp :
  map canonicalize (base_outbounds server reality desktop wsl direct warp) =
  base_outbounds server reality desktop wsl direct warp.
Proof. reflexivity. Qed.
Lemma base_config_canonical outbounds :
  map canonicalize outbounds = outbounds →
  canonicalize (base_config outbounds) = base_config outbounds.
Proof.
  intros Ho. trans (base_config (map canonicalize outbounds)); [reflexivity|by rewrite Ho].
Qed.
Lemma managed_config_canonical outbounds excludes rules :
  map canonicalize outbounds = outbounds → map canonicalize excludes = excludes →
  map canonicalize rules = rules →
  canonicalize (managed_config outbounds excludes rules) = managed_config outbounds excludes rules.
Proof.
  intros Ho He Hr. trans (managed_config (map canonicalize outbounds)
    (map canonicalize excludes) (map canonicalize rules)); [reflexivity|by rewrite Ho, He, Hr].
Qed.
Lemma managed_rules_canonical policy rules :
  policy_rules policy rules → map canonicalize (managed_rules rules) = managed_rules rules.
Proof.
  intros Hr%policy_rules_canonical. trans (managed_rules (map canonicalize rules));
    [|by rewrite Hr]. unfold managed_rules. rewrite !map_app. reflexivity.
Qed.

(** ** Enumerated rules *)

Lemma enum_filter_all (p : Value → bool) (g : nat → nat) l :
  (∀ v, v ∈ l → p v = true) →
  List.filter (λ e, p e.2) (imap (λ i v, (g i, v)) l) = imap (λ i v, (g i, v)) l.
Proof.
  revert g. induction l as [|v l IH]; intros g Hp; [done|]. rewrite imap_cons. cbn [List.filter snd].
  rewrite Hp by left. f_equal. apply (IH (g ∘ S)). intros. apply Hp. by right.
Qed.
Lemma enum_filter_none (p : Value → bool) (g : nat → nat) l :
  (∀ v, v ∈ l → p v = false) → List.filter (λ e, p e.2) (imap (λ i v, (g i, v)) l) = [].
Proof.
  revert g. induction l as [|v l IH]; intros g Hp; [done|]. rewrite imap_cons. cbn [List.filter snd].
  rewrite Hp by left. apply (IH (g ∘ S)). intros. apply Hp. by right.
Qed.
Lemma enum_last (g : nat → nat) (l : list Value) v :
  last (imap (λ i v, (g i, v)) (l ++ [v])) = Some (g (length l), v).
Proof. rewrite imap_app, last_app. cbn. by rewrite Nat.add_0_r. Qed.

(** The first rules of a rendered configuration *)
Definition fixed_rules : list Value :=
  [direct_process_rule WARP_SERVICE_PROCESS; direct_cidr_rule LOOPBACK_CIDRS] ++ base_rules.
Lemma enum_after_fixed (p : Value → bool) rules :
  (∀ v, v ∈ fixed_rules → p v = false) →
  List.filter (λ e, p e.2) (enumerate (managed_rules rules)) =
    List.filter (λ e, p e.2) (imap (λ i v, ((4 + i)%nat, v)) rules).
Proof.
  intros Hp. change (managed_rules rules) with (fixed_rules ++ rules).
  unfold enumerate. rewrite imap_app, List.filter_app.
  rewrite (enum_filter_none p (λ i, i) fixed_rules Hp). done.
Qed.
Lemma fixed_rules_not (p : Value → bool) :
  forallb (λ v, negb (p v)) fixed_rules = true → ∀ v, v ∈ fixed_rules → p v = false.
Proof.
  rewrite forallb_forall. intros Hp v Hv%list_elem_of_In. by apply negb_true, Hp.
Qed.

(** The enumerated rules with a process path, and those of the TUN *)
Lemma managed_paths apps rules :
  app_rules_of apps rules →
  List.filter (λ e, has_process_path e.2) (enumerate (managed_rules (rules ++ [tun_fallback]))) =
    imap (λ i v, ((4 + i)%nat, v)) rules ∧
  List.filter (λ e, tun_rule e.2) (enumerate (managed_rules (rules ++ [tun_fallback]))) =
    imap (λ i v, ((4 + i)%nat, v)) (rules ++ [tun_fallback]).
Proof.
  intros Hr. assert (∀ v, v ∈ rules → has_process_path v = true ∧ tun_rule v = true) as Hall.
  { intros v (k & Hk)%list_elem_of_lookup.
    destruct (Forall2_lookup_r _ _ _ _ _ Hr Hk) as (app & _ & tag & _ & ->). done. }
  rewrite !enum_after_fixed by (by apply fixed_rules_not). split.
  - rewrite imap_app, List.filter_app, (enum_filter_all has_process_path (λ i, (4 + i)%nat)).
    + by rewrite app_nil_r.
    + intros v Hv. by apply Hall.
  - apply (enum_filter_all tun_rule (λ i, (4 + i)%nat)).
    intros v [Hv|Hv%list_elem_of_singleton]%elem_of_app; [by apply Hall|by subst].
Qed.

Lemma check_app_rules apps rules (g : nat → nat) :
  app_rules_of apps rules → (∀ i, (2 ≤ g i)%nat) →
  for_each check_app_rule (zip (imap (λ i v, (g i, v)) rules) apps) = Ok tt.
Proof.
  intros Hr. revert g. induction Hr as [|a rule apps rules (tag & Ht & ->) _ IH]; intros g Hg;
    [done|].
  rewrite imap_cons. cbn [zip zip_with for_each]. 
  assert (for_each check_app_rule (zip (imap ((λ i v, (g i, v)) ∘ S) rules) apps) = Ok tt)
    as -> by (apply (IH (g ∘ S)); intros; apply Hg).
  unfold check_app_rule. rewrite Ht. cbn [map_err mbind result_bind].
  change (tun_rule (app_rule (war_executable_path a) tag)) with true.
  change (get "process_path" (app_rule (war_executable_path a) tag))
    with (Some (strings [war_executable_path a])).
  change (get_str "outbound" (app_rule (war_executable_path a) tag)) with (Some tag).
  rewrite is_strings_strings. unfold str_is. rewrite bool_decide_eq_true_2 by done.
  change (is_some (get "process_name" (app_rule (war_executable_path a) tag))) with false.
  change (is_some (get "domain" (app_rule (war_executable_path a) tag))) with false.
  cbn [negb orb fail_if mbind result_bind]. specialize (Hg 0%nat).
  by rewrite (proj2 (Nat.ltb_ge _ _) Hg).
Qed.

(** A policy that selects applications is read back. *)
Lemma check_selected_rendered p rules :
  app_rules_of (wap_applications p) rules →
  check_selected (managed_rules (rules ++ [tun_fallback])) p = Ok tt.
Proof.
  intros Hr. pose proof (Forall2_length _ _ _ Hr) as Hlen. unfold check_selected.
  destruct (managed_paths _ _ Hr) as [-> ->].
  rewrite !length_imap, length_app, Hlen, !Nat.eqb_refl. cbn [negb fail_if mbind result_bind length].
  rewrite (check_app_rules _ _ (λ i, (4 + i)%nat)) by (done || lia). cbn [mbind result_bind].
  rewrite (enum_last (λ i, (4 + i)%nat)). cbn [negb fail_if mbind result_bind ok_or].
  rewrite imap_app, take_app_le by (rewrite length_imap; lia).
  rewrite take_ge by (rewrite length_imap; lia).
  apply fail_if_Ok. rewrite !orb_false_iff. split_and!; try reflexivity.
  - destruct (last _) as [[i v]|] eqn:El; [|done].
    apply last_Some_elem_of, list_elem_of_lookup in El as (k & Hk).
    rewrite list_lookup_imap in Hk. destruct (rules !! k) as [w|] eqn:Hw; [|done].
    injection Hk as <- <-. apply lookup_lt_Some in Hw. cbn [fst]. apply Nat.leb_gt. lia.
  - apply not_true_is_false. intros (e & (k & Hk)%list_elem_of_In%list_elem_of_lookup & He)
      %existsb_exists. rewrite list_lookup_imap in Hk.
    destruct (rules !! k) as [w|] eqn:Hw; [|done]. injection Hk as <-.
    by destruct (Forall2_lookup_r _ _ _ _ _ Hr Hw) as (app & _ & tag & _ & ->).
Qed.

(** ** Admission *)

Section Admissible.
Context `{PrettyJsonLaws} `{UnicodeLowercase} `{Message WindowsRuntimeState}.

Lemma rendered_canonical state desired mode outbounds config :
  renderable state desired mode outbounds → rendered state desired mode outbounds config →
  canonicalize config = config.
Proof.
  intros (_ & _ & _ & _ & ? & ? & ? & ? & ? & ? & _ & _ & _ & _ & _ & _ & _ & ->) Hr.
  destruct mode; [done| |].
  - cbn [rendered] in Hr. subst. apply base_config_canonical, base_outbounds_canonical.
  - destruct Hr as (ip & rules & _ & Hrules & ->). apply managed_config_canonical.
    + apply base_outbounds_canonical.
    + by apply add_excludes_canonical.
    + by eapply managed_rules_canonical.
Qed.

Lemma proxy_only_admitted outbounds b :
  from_slice b = Some (base_config outbounds) → b ≠ [] → blen b ≤ MAX_CONFIG_BYTES →
  require_proxy_only_config b = Ok tt ∧
  require_managed_tun_config b = Err "HOST_WINDOWS_TUN_CONFIG_UNEXPECTED_INBOUND".
Proof.
  intros Hb Hne Hlen. unfold require_proxy_only_config, require_managed_tun_config.
  by rewrite (proj2 (is_empty_false _) Hne), (proj2 (Z.ltb_ge _ _) Hlen), Hb.
Qed.

Lemma managed_tun_admitted outbounds excludes rules b :
  from_slice b = Some (managed_config outbounds excludes rules) → b ≠ [] →
  blen b ≤ MAX_CONFIG_BYTES →
  (∀ cidr, cidr ∈ WARP_CONTROL_ENDPOINTS ++ FOREIGN_CLOUDFLARE_MESH_CIDRS →
    existsb (value_is cidr) excludes = true) →
  require_managed_tun_config b = Ok tt ∧
  require_proxy_only_config b = Err "HOST_WINDOWS_EFFECT_ROUTE_CAPTURE_NOT_AUTHORIZED".
Proof.
  intros Hb Hne Hlen Hex. unfold require_proxy_only_config, require_managed_tun_config.
  rewrite (proj2 (is_empty_false _) Hne), (proj2 (Z.ltb_ge _ _) Hlen), Hb.
  split; [|reflexivity].
  trans (fail_if (existsb (λ cidr, negb (existsb (value_is cidr) excludes))
    (WARP_CONTROL_ENDPOINTS ++ FOREIGN_CLOUDFLARE_MESH_CIDRS))
    "HOST_WINDOWS_TUN_CONTROL_ROUTE_UNPROVEN"); [reflexivity|].
  apply fail_if_Ok, not_true_is_false. intros (cidr & Hin & Hc)%existsb_exists.
  apply list_elem_of_In in Hin. by rewrite Hex in Hc.
Qed.

Lemma application_routes_verified outbounds excludes rules b desired :
  from_slice b = Some (managed_config outbounds excludes (managed_rules rules)) → b ≠ [] →
  blen b ≤ MAX_CONFIG_BYTES →
  pds_windows_datapath_mode desired = as_i32 WindowsDatapathMode_ManagedTun →
  validate_policy (pds_windows_application_routing desired) = Ok tt →
  policy_rules (pds_windows_application_routing desired) rules →
  verify_managed_application_routes b desired = Ok tt.
Proof.
  intros Hb Hne Hlen Hmode Hpol Hr. unfold verify_managed_application_routes.
  rewrite Hmode, Hpol, (proj2 (is_empty_false _) Hne), (proj2 (Z.ltb_ge _ _) Hlen), Hb.
  cbn [negb orb fail_if mbind result_bind ok_or]. rewrite Z.eqb_refl.
  change (pointer ["route"; "rules"] (managed_config outbounds excludes (managed_rules rules)))
    with (Some (VArray (managed_rules rules))).
  change (pointer ["route"; "find_process"]
    (managed_config outbounds excludes (managed_rules rules))) with (Some (VBool true)).
  cbn [negb fail_if mbind result_bind ok_or option_bind as_array as_bool].
  rewrite bool_decide_eq_true_2 by done. cbn [negb fail_if mbind result_bind].
  assert (foreign_bypass_missing (managed_rules rules) = false) as -> by reflexivity.
  unfold policy_rules in Hr. destruct (selected_policy _) as [p|].
  - destruct Hr as (app_rules & Hr & ->). by rewrite (check_selected_rendered _ _ Hr).
  - by subst.
Qed.

(** C17: The renderer of the Windows configuration and the checks before a start
    agree: every configuration it renders that fits their size limit is admitted for
    its own mode and for no other. A proxy configuration passes the proxy check and is
    no TUN configuration; a TUN configuration is no proxy configuration, passes the
    native TUN check, and its rules read back as the policy of Git it was rendered
    from. *)
Theorem rendered_config_admitted state desired b :
  render_windows_config_for_desired state desired = Ok b → blen b ≤ MAX_CONFIG_BYTES →
  (pds_windows_datapath_mode desired = as_i32 WindowsDatapathMode_ProxyOnly ∧
   require_proxy_only_config b = Ok tt ∧
   require_managed_tun_config b = Err "HOST_WINDOWS_TUN_CONFIG_UNEXPECTED_INBOUND" ∧
   verify_managed_application_routes b desired = Err "WINDOWS_SELECTED_APPS_MANAGED_TUN_REQUIRED")
  ∨
  (pds_windows_datapath_mode desired = as_i32 WindowsDatapathMode_ManagedTun ∧
   require_managed_tun_config b = Ok tt ∧
   require_proxy_only_config b = Err "HOST_WINDOWS_EFFECT_ROUTE_CAPTURE_NOT_AUTHORIZED" ∧
   verify_managed_application_routes b desired = Ok tt).
Proof.
  intros Hr Hlen. apply bind_Ok in Hr as (config & (mode & outbounds & Hin & Hren)%render_value_Ok
    & Hb%map_err_Ok).
  pose proof (pretty_nonempty _ _ Hb) as Hne.
  pose proof (pretty_roundtrip _ _ (rendered_canonical _ _ _ _ _ Hin Hren) Hb) as Hread.
  destruct Hin as (_ & Hmode & Hun & Hpol & _). destruct mode; [done|left|right].
  - cbn [rendered] in Hren. subst config. split; [done|].
    destruct (proxy_only_admitted _ _ Hread Hne Hlen) as [-> ->]. split_and!; [done..|].
    unfold verify_managed_application_routes. by rewrite Hmode.
  - destruct Hren as (ip & rules & Hip & Hrules & ->). split; [done|].
    destruct (managed_tun_admitted _ _ _ _ Hread Hne Hlen) as [-> ->].
    { intros cidr Hc. apply add_excludes_in. unfold required_excludes. rewrite app_assoc.
      apply elem_of_app. by left. }
    split_and!; [done..|]. by eapply application_routes_verified.
Qed.
End Admissible.

(** ** What the rules do *)

(** A connection as sing-box sees it *)
Record flow : Set := {
  fl_inbound : string; fl_process_path : string; fl_process_name : string;
  fl_destination : string
}.

(** A condition of a rule: one of the listed values fits; no condition fits always *)
Definition condition (k : string) (fits : string → bool) (rule : Value) : bool :=
  match get_array k rule with
  | Some vs => existsb (λ v, match as_str v with Some s => fits s | None => false end) vs
  | None => true
  end.
Definition rule_keys (rule : Value) : list string :=
  match rule with VObject es => map fst es | _ => [] end.

(** sing-box: whether a rule matches a connection, and a network an address *)
Class RuleMatching := {
  rule_matches : Value → flow → bool;
  in_network : string → string → bool
}.
(** The documented matching of a rule that has no other conditions: all of its conditions
    hold. *)
Class RuleMatchingLaws `{RuleMatching} : Prop := {
  rule_matches_spec rule f :
    Forall (.∈ ["inbound"; "ip_cidr"; "outbound"; "process_name"; "process_path"])
      (rule_keys rule) →
    rule_matches rule f =
      condition "inbound" (str_eqb (fl_inbound f)) rule
      && condition "process_path" (str_eqb (fl_process_path f)) rule
      && condition "process_name" (str_eqb (fl_process_name f)) rule
      && condition "ip_cidr" (λ network, in_network network (fl_destination f)) rule
}.

Section Routing.
Context `{PrettyJson} `{UnicodeLowercase} `{Message WindowsRuntimeState} `{RuleMatchingLaws}.

(** The outbound of the first rule that matches, or the final one *)
Definition route_flow (config : Value) (f : flow) : option string :=
  match pointer ["route"; "rules"] config ≫= as_array with
  | Some rules =>
      match List.find (λ rule, rule_matches rule f) rules with
      | Some rule => get_str "outbound" rule
      | None => pointer ["route"; "final"] config ≫= as_str
      end
  | None => None
  end.

(** The policy of Git: what the operator asked for a connection *)
Definition loopback_flow (f : flow) : bool :=
  existsb (λ network, in_network network (fl_destination f)) LOOPBACK_CIDRS.
Definition application_of (f : flow) (apps : list WindowsApplicationRoute)
    : option WindowsApplicationRoute :=
  List.find (λ app, str_eqb (fl_process_path f) (war_executable_path app)) apps.
Definition tun_route (policy : option WindowsApplicationRouting) (f : flow) : string :=
  match selected_policy policy with
  | Some p =>
      match application_of f (wap_applications p) with
      | Some app => match production_windows_route_tag (war_route app) with
                    | Ok tag => tag
                    | Err _ => "direct"
                    end
      | None => "direct"
      end
  | None => MANAGED_SELECTOR_TAG
  end.
Definition inbound_route (policy : option WindowsApplicationRouting) (f : flow) : string :=
  if str_eqb (fl_inbound f) WSL_INBOUND_TAG then WSL_SELECTOR_TAG
  else if str_eqb (fl_inbound f) MANAGED_TUN_TAG then tun_route policy f
  else MANAGED_SELECTOR_TAG.
Definition policy_route (desired : ProductionDesiredState) (f : flow) : string :=
  if pds_windows_datapath_mode desired =? as_i32 WindowsDatapathMode_ManagedTun then
    if str_eqb (fl_process_name f) WARP_SERVICE_PROCESS || loopback_flow f then "direct"
    else inbound_route (pds_windows_application_routing desired) f
  else if str_eqb (fl_inbound f) WSL_INBOUND_TAG then WSL_SELECTOR_TAG
  else MANAGED_SELECTOR_TAG.

Ltac rule_keys_fit := repeat apply Forall_cons_2; [set_solver..|apply Forall_nil_2].

Lemma condition_strings k fits rule l :
  get_array k rule = Some (VString <$> l) → condition k fits rule = existsb fits l.
Proof.
  unfold condition. intros ->. induction l as [|s l IH]; [done|]. cbn. by rewrite IH.
Qed.
Lemma condition_none k fits rule : get_array k rule = None → condition k fits rule = true.
Proof. unfold condition. by intros ->. Qed.

Lemma inbound_rule_matches tag outbound f :
  rule_matches (inbound_rule tag outbound) f = str_eqb (fl_inbound f) tag.
Proof.
  rewrite rule_matches_spec by rule_keys_fit.
  rewrite (condition_strings "inbound" _ _ [tag]), !condition_none by done. cbn [existsb].
  by rewrite orb_false_r, !andb_true_r.
Qed.
Lemma app_rule_matches path outbound f :
  rule_matches (app_rule path outbound) f =
    str_eqb (fl_inbound f) MANAGED_TUN_TAG && str_eqb (fl_process_path f) path.
Proof.
  rewrite rule_matches_spec by rule_keys_fit.
  rewrite (condition_strings "inbound" _ _ [MANAGED_TUN_TAG]),
    (condition_strings "process_path" _ _ [path]), !condition_none by done. cbn [existsb].
  by rewrite !orb_false_r, !andb_true_r.
Qed.
Lemma warp_rule_matches f :
  rule_matches (direct_process_rule WARP_SERVICE_PROCESS) f =
    str_eqb (fl_process_name f) WARP_SERVICE_PROCESS.
Proof.
  rewrite rule_matches_spec by rule_keys_fit.
  rewrite (condition_strings "process_name" _ _ [WARP_SERVICE_PROCESS]), !condition_none by done.
  cbn [existsb andb]. by rewrite orb_false_r, andb_true_r.
Qed.
Lemma loopback_rule_matches f :
  rule_matches (direct_cidr_rule LOOPBACK_CIDRS) f = loopback_flow f.
Proof.
  rewrite rule_matches_spec by rule_keys_fit.
  by rewrite (condition_strings "ip_cidr" _ _ LOOPBACK_CIDRS), !condition_none by done.
Qed.

(** The rules of the applications, followed by the fallback *)
Lemma find_app_rules apps rules f :
  app_rules_of apps rules → fl_inbound f = MANAGED_TUN_TAG →
  ∃ rule, List.find (λ rule, rule_matches rule f) (rules ++ [tun_fallback]) = Some rule ∧
    get_str "outbound" rule = Some
      match application_of f apps with
      | Some app => match production_windows_route_tag (war_route app) with
                    | Ok tag => tag
                    | Err _ => "direct"
                    end
      | None => "direct"
      end.
Proof.
  intros Hr Hin. induction Hr as [|a rule apps rules (tag & Ht & ->) _ IH].
  - exists tun_fallback. cbn [Datatypes.app List.find]. unfold tun_fallback.
    rewrite inbound_rule_matches, Hin. done.
  - cbn [Datatypes.app List.find]. rewrite app_rule_matches, Hin.
    rewrite (proj2 (str_eqb_true MANAGED_TUN_TAG _) eq_refl). cbn [andb].
    unfold application_of. cbn [List.find].
    destruct (str_eqb (fl_process_path f) (war_executable_path a)); [|exact IH].
    eexists. split; [done|]. by rewrite Ht.
Qed.
Lemma find_policy_rules policy rules f :
  policy_rules policy rules →
  match List.find (λ rule, rule_matches rule f) rules with
  | Some rule => get_str "outbound" rule
  | None => Some MANAGED_SELECTOR_TAG
  end = Some (if str_eqb (fl_inbound f) MANAGED_TUN_TAG then tun_route policy f
              else MANAGED_SELECTOR_TAG).
Proof.
  unfold policy_rules, tun_route. intros Hr. destruct (selected_policy policy) as [p|].
  2: { subst. by destruct (str_eqb _ _). }
  destruct Hr as (app_rules & Hr & ->). destruct (str_eqb _ _) eqn:Hin.
  - apply str_eqb_true in Hin. by destruct (find_app_rules _ _ f Hr Hin) as (rule & -> & ->).
  - assert (List.find (λ rule, rule_matches rule f) (app_rules ++ [tun_fallback]) = None) as ->;
      [|done].
    induction Hr as [|a rule apps rules (tag & Ht & ->) _ IH];
      cbn [Datatypes.app List.find].
    + unfold tun_fallback. by rewrite inbound_rule_matches, Hin.
    + by rewrite app_rule_matches, Hin, IH.
Qed.

(** C16: The rendered rules implement the policy of Git: under sing-box's first-match
    routing, a connection through a rendered configuration leaves where the policy
    says. With a TUN, the foreign WARP service and loopback go out directly; a
    selected application, recognised by the exact path of its executable, takes its
    own route, and every other application goes out directly, or to the desktop
    selector when no applications are selected; the proxies of the desktop and of WSL
    keep their selectors. *)
Theorem rendered_rules_route state desired config f :
  render_value state desired = Ok config →
  route_flow config f = Some (policy_route desired f).
Proof.
  intros (mode & outbounds & (_ & Hmode & _) & Hren)%render_value_Ok. unfold policy_route.
  destruct mode; [done| |]; rewrite Hmode.
  - cbn [rendered] in Hren. subst config. unfold route_flow.
    change (pointer ["route"; "rules"] (base_config outbounds)) with (Some (VArray base_rules)).
    cbn [mbind option_bind as_array base_rules List.find]. rewrite !inbound_rule_matches.
    destruct (str_eqb (fl_inbound f) DESKTOP_TRACE_INBOUND_TAG) eqn:Hd.
    + apply str_eqb_true in Hd. by rewrite Hd.
    + by destruct (str_eqb (fl_inbound f) WSL_INBOUND_TAG).
  - destruct Hren as (ip & rules & _ & Hr & ->). rewrite Z.eqb_refl. unfold route_flow.
    change (pointer ["route"; "rules"] _) with (Some (VArray (managed_rules rules))).
    change (pointer ["route"; "final"] _) with (Some (VString MANAGED_SELECTOR_TAG)).
    cbn [mbind option_bind as_array as_str managed_rules base_rules Datatypes.app List.find].
    rewrite warp_rule_matches, loopback_rule_matches, !inbound_rule_matches.
    destruct (str_eqb (fl_process_name f) WARP_SERVICE_PROCESS); [done|].
    destruct (loopback_flow f); [done|]. cbn [orb]. unfold inbound_route.
    destruct (str_eqb (fl_inbound f) DESKTOP_TRACE_INBOUND_TAG) eqn:Hd.
    { apply str_eqb_true in Hd. by rewrite Hd. }
    destruct (str_eqb (fl_inbound f) WSL_INBOUND_TAG); [done|]. by apply find_policy_rules.
Qed.
End Routing.

(** ** A host with two selected applications: the inputs of the witnesses *)
Module SingboxSample.
#[export] Instance ascii_lowercase : UnicodeLowercase := to_ascii_lowercase.
#[export] Instance state_message : Message WindowsRuntimeState := null_message _.

Definition binding (domain password uuid : string) : WindowsTunnelBinding :=
  {| wtb_domain := domain; wtb_hy2_port := 443; wtb_hy2_password := password;
     wtb_vless_port := 8443; wtb_vless_uuid := uuid; wtb_reality_public_key := "public-key";
     wtb_reality_short_id := "0123" |}.
Definition state : WindowsRuntimeState :=
  {| wrs_schema_version := 1; wrs_deployment_label := Some "line1"; wrs_instance_id := "i-1";
     wrs_server_ip := "203.0.113.7";
     wrs_direct := Some (binding "direct.example.com" "secret-a" "uuid-a");
     wrs_warp := Some (binding "warp.example.com" "secret-b" "uuid-b") |}.
Definition browser : string := "C:\Apps\browser.exe".
Definition desired : ProductionDesiredState :=
  {| pds_windows_datapath_mode := as_i32 WindowsDatapathMode_ManagedTun;
     pds_windows_route_policy := Some {| pwr_desktop := 1; pwr_wsl := 4 |};
     pds_windows_application_routing := Some
       {| wap_scope := as_i32 WindowsApplicationScope_SelectedApplications;
          wap_applications := [{| war_executable_path := browser; war_route := 2 |};
                               {| war_executable_path := "D:\Mail\mail.exe"; war_route := 6 |}] |};
     pds_reality_server_name := Some "www.example.com" |}.
Definition config : Value :=
  match render_value state desired with Ok config => config | Err _ => VNull end.

(** A writer of this one configuration, and its reader *)
Definition text (v : Value) : bytes := match json_to_vec v with Ok b => b | Err _ => [] end.
Definition config_text : bytes := Eval vm_compute in text config.
#[export] Instance one_config : PrettyJson := {|
  to_vec_pretty v := if bytes_eqb (text v) config_text then Ok config_text else Err "";
  from_slice b := if bytes_eqb b config_text then Some config else None |}.
#[export] Instance one_config_laws : PrettyJsonLaws.
Proof.
  assert (Hc : json_to_vec config = Ok config_text) by (vm_compute; reflexivity).
  split; cbn [to_vec_pretty from_slice one_config]; intros v b.
  - intros _ Hb. destruct (bytes_eqb (text v) config_text) eqn:E; [|done].
    injection Hb as <-. apply bytes_eqb_true in E. rewrite (proj2 (bytes_eqb_true _ _) eq_refl).
    f_equal. apply (json_to_vec_inj config v config_text Hc). unfold text in E.
    destruct (json_to_vec_total v) as [b Hb]. rewrite Hb in E |- *. by rewrite E.
  - intros Hb. destruct (bytes_eqb (text v) config_text); [|done].
    injection Hb as <-. vm_compute. discriminate.
Qed.

(** The documented matching, with networks compared by their texts *)
#[export] Instance documented_matching : RuleMatching := {|
  rule_matches rule f :=
    condition "inbound" (str_eqb (fl_inbound f)) rule
    && condition "process_path" (str_eqb (fl_process_path f)) rule
    && condition "process_name" (str_eqb (fl_process_name f)) rule
    && condition "ip_cidr" (str_eqb (fl_destination f)) rule;
  in_network network address := str_eqb address network |}.
#[export] Instance documented_matching_laws : RuleMatchingLaws.
Proof. split. reflexivity. Qed.

Definition browser_flow : flow :=
  {| fl_inbound := MANAGED_TUN_TAG; fl_process_path := browser; fl_process_name := "browser.exe";
     fl_destination := "198.51.100.1" |}.

Lemma rendered_config_admitted_witness :
  render_windows_config_for_desired state desired = Ok config_text ∧
  verify_managed_application_routes config_text desired = Ok tt.
Proof.
  assert (Hr : render_windows_config_for_desired state desired = Ok config_text)
    by (vm_compute; reflexivity).
  split; [exact Hr|].
  destruct (rendered_config_admitted state desired config_text Hr) as [(Hm & _)|(_ & _ & _ & Hv)].
  - vm_compute. discriminate.
  - vm_compute in Hm. discriminate Hm.
  - exact Hv.
Defined.

Lemma rendered_rules_route_witness :
  route_flow config browser_flow = Some "hysteria2-direct" ∧
  policy_route desired browser_flow = "hysteria2-direct".
Proof.
  split; [|vm_compute; reflexivity].
  rewrite (rendered_rules_route state desired config browser_flow); vm_compute; reflexivity.
Defined.
End SingboxSample.

(** * The inspection of a rendered configuration

    The renderer and the inspection agree: what was rendered from a state is reported in order
    against that state. A configuration that was synchronized with the state is not. *)

(** ** The process *)

(** A process is reported only when it runs the expected configuration, so the two warnings of
    [inspect_local_config] about a process never arise. *)
Lemma detect_process_same same_path entries r :
  detect_process_in same_path entries = Some r →
  ∃ candidate, r = Some candidate ∧ same_path candidate = true.
Proof.
  induction entries as [|[pid cmdline] entries IH]; [done|]. cbn [detect_process_in].
  destruct (negb _); [done|]. destruct cmdline as [[|program args]|]; [done| |done].
  destruct (negb _); [done|]. destruct (extract_config_path _) as [candidate|]; [|done].
  destruct (same_path candidate) eqn:E; [|done]. intros [= <-]. eauto.
Qed.
Lemma observe_process_silent path hv : ls_warnings (observe_process path hv) = [].
Proof.
  unfold observe_process. destruct (detect_process _ _) as [r|] eqn:Hp; [|done].
  unfold detect_process in Hp. destruct (hv_proc hv) as [entries|]; [|done].
  apply detect_process_same in Hp as (candidate & -> & Hs). by rewrite Hs.
Qed.

(** ** The rendered configuration, parsed *)

(** The values fit the types of the source: [u32] ports. *)
Definition binding_typed (t : WindowsTunnelBinding) : Prop :=
  0 ≤ wtb_hy2_port t ≤ u32_max ∧ 0 ≤ wtb_vless_port t ≤ u32_max.

Definition plain_outbound (kind tag : string) (outbounds : list string) (d : option string)
    : Outbound := {|
  ob_kind := kind; ob_tag := tag; ob_outbounds := outbounds; ob_default := d; ob_server := None;
  ob_server_port := None; ob_password := None; ob_uuid := None; ob_tls := None |}.
Definition hysteria2_outbound (tag server : string) (t : WindowsTunnelBinding) : Outbound := {|
  ob_kind := "hysteria2"; ob_tag := tag; ob_outbounds := []; ob_default := None;
  ob_server := Some server; ob_server_port := Some (wtb_hy2_port t);
  ob_password := Some (wtb_hy2_password t); ob_uuid := None;
  ob_tls := Some {| tls_server_name := Some (wtb_domain t); tls_reality := None |} |}.
Definition vless_outbound (tag server reality : string) (t : WindowsTunnelBinding) : Outbound := {|
  ob_kind := "vless"; ob_tag := tag; ob_outbounds := []; ob_default := None;
  ob_server := Some server; ob_server_port := Some (wtb_vless_port t); ob_password := None;
  ob_uuid := Some (wtb_vless_uuid t);
  ob_tls := Some {| tls_server_name := Some reality;
    tls_reality := Some {| rl_public_key := Some (wtb_reality_public_key t);
                           rl_short_id := Some (wtb_reality_short_id t) |} |} |}.
Definition parsed_outbounds (server reality desktop wsl : string)
    (direct warp : WindowsTunnelBinding) : list Outbound :=
  [plain_outbound "selector" MANAGED_SELECTOR_TAG EXPECTED_OUTBOUND_TAGS (Some desktop);
   plain_outbound "selector" WSL_SELECTOR_TAG EXPECTED_OUTBOUND_TAGS (Some wsl);
   plain_outbound "urltest" "auto-direct-tunnel" ["hysteria2-direct"; "vless-reality-direct"] None;
   plain_outbound "urltest" "auto-warp-tunnel" ["hysteria2-warp"; "vless-reality-warp"] None;
   hysteria2_outbound "hysteria2-direct" server direct;
   vless_outbound "vless-reality-direct" server reality direct;
   hysteria2_outbound "hysteria2-warp" server warp;
   vless_outbound "vless-reality-warp" server reality warp;
   plain_outbound "direct" "direct" [] None].
Definition parsed_inbounds : list Inbound :=
  [{| in_kind := "mixed"; in_tag := DESKTOP_TRACE_INBOUND_TAG; in_listen := Some "127.0.0.1";
      in_listen_port := Some (Z.of_N STAGE2_DESKTOP_PROXY_PORT) |};
   {| in_kind := "mixed"; in_tag := WSL_INBOUND_TAG; in_listen := Some WSL_INBOUND_BIND_HOST;
      in_listen_port := Some (Z.of_N STAGE2_WSL_PROXY_PORT) |}].
Definition parsed_config (tun : list Inbound) (outbounds : list Outbound) : SingboxConfig := {|
  cfg_inbounds := parsed_inbounds ++ tun; cfg_outbounds := outbounds;
  cfg_external_controller := Some ("127.0.0.1:" +:+ pretty STAGE2_CLASH_API_PORT) |}.
Definition parsed_tun : Inbound := {|
  in_kind := "tun"; in_tag := MANAGED_TUN_TAG; in_listen := None; in_listen_port := None |}.

Lemma de_u32_port p : 0 ≤ p ≤ u32_max → de_u32 (port p) = Some p.
Proof.
  intros Hp. unfold de_u32, port. rewrite Z2N.id by lia. by rewrite (proj2 (Z.leb_le _ _)) by lia.
Qed.
Lemma de_hysteria2 tag server t :
  binding_typed t → de_outbound (hysteria2 tag server t) = Some (hysteria2_outbound tag server t).
Proof.
  intros [Hp _]. trans (p ← Some <$> de_u32 (port (wtb_hy2_port t));
    Some {| ob_kind := "hysteria2"; ob_tag := tag; ob_outbounds := []; ob_default := None;
            ob_server := Some server; ob_server_port := p;
            ob_password := Some (wtb_hy2_password t); ob_uuid := None;
            ob_tls := Some {| tls_server_name := Some (wtb_domain t); tls_reality := None |} |});
    [reflexivity|by rewrite de_u32_port].
Qed.
Lemma de_vless tag server reality t :
  binding_typed t →
  de_outbound (vless tag server reality t) = Some (vless_outbound tag server reality t).
Proof.
  intros [_ Hp]. trans (p ← Some <$> de_u32 (port (wtb_vless_port t));
    Some {| ob_kind := "vless"; ob_tag := tag; ob_outbounds := []; ob_default := None;
            ob_server := Some server; ob_server_port := p; ob_password := None;
            ob_uuid := Some (wtb_vless_uuid t);
            ob_tls := ob_tls (vless_outbound tag server reality t) |});
    [reflexivity|by rewrite de_u32_port].
Qed.
Lemma de_base_outbounds server reality desktop wsl direct warp :
  binding_typed direct → binding_typed warp →
  mapM de_outbound (base_outbounds server reality desktop wsl direct warp) =
    Some (parsed_outbounds server reality desktop wsl direct warp).
Proof.
  intros Hd Hw. apply mapM_Some. unfold base_outbounds, parsed_outbounds.
  do 4 (apply Forall2_cons_2; [vm_compute; reflexivity|]).
  apply Forall2_cons_2; [by apply de_hysteria2|]. apply Forall2_cons_2; [by apply de_vless|].
  apply Forall2_cons_2; [by apply de_hysteria2|]. apply Forall2_cons_2; [by apply de_vless|].
  apply Forall2_cons_2; [vm_compute; reflexivity|apply Forall2_nil_2].
Qed.

Lemma de_base_config outbounds parsed :
  mapM de_outbound outbounds = Some parsed →
  de_config (base_config outbounds) = Some (parsed_config [] parsed).
Proof.
  intros Ho. trans (o ← mapM de_outbound outbounds; Some (parsed_config [] o));
    [reflexivity|by rewrite Ho].
Qed.
Lemma de_managed_config outbounds excludes rules parsed :
  mapM de_outbound outbounds = Some parsed →
  de_config (managed_config outbounds excludes rules) = Some (parsed_config [parsed_tun] parsed).
Proof.
  intros Ho. trans (o ← mapM de_outbound outbounds; Some (parsed_config [parsed_tun] o));
    [reflexivity|by rewrite Ho].
Qed.

(** ** The comparison *)

Lemma compare_field_same tag field e st : compare_field tag field (Some e) (Some e) st = st.
Proof. unfold compare_field. by rewrite bool_decide_eq_true_2. Qed.

Lemma compare_tunnel_binding_same tun outbounds hy2_tag vless_tag server reality t st :
  List.find (λ o, str_eqb (ob_tag o) hy2_tag) outbounds =
    Some (hysteria2_outbound hy2_tag server t) →
  List.find (λ o, str_eqb (ob_tag o) vless_tag) outbounds =
    Some (vless_outbound vless_tag server reality t) →
  compare_tunnel_binding (parsed_config tun outbounds) hy2_tag vless_tag server
    (tunnel_binding_from_proto t) st = st.
Proof.
  intros Hh Hv. unfold compare_tunnel_binding. cbn [parsed_config cfg_outbounds].
  rewrite Hh, Hv. cbn [foldl]. cbn [hysteria2_outbound vless_outbound tunnel_binding_from_proto
    ob_server ob_server_port ob_password ob_uuid ob_tls tls_server_name tls_reality_of tls_reality
    rl_public_key rl_short_id tb_domain tb_hy2_port tb_hy2_password tb_vless_port tb_vless_uuid
    tb_reality_public_key tb_reality_short_id mbind option_bind fmap option_fmap option_map].
  by rewrite !compare_field_same.
Qed.

(** Nothing is amiss in what is reported. *)
Definition in_order (o : LocalConfigObservation) : Prop :=
  ls_managed_config (lco_local_singbox o) = true ∧ ls_warnings (lco_local_singbox o) = [] ∧
  sel_degraded (lco_selector o) = false ∧ sel_warnings (lco_selector o) = [] ∧
  sel_degraded (lco_ubuntu_selector o) = false ∧ sel_warnings (lco_ubuntu_selector o) = [] ∧
  ub_warnings (lco_ubuntu_proxy o) = [].
(** The routes, the port of the API and the proxy of WSL that are reported *)
Definition reports (desktop wsl gateway : string) (o : LocalConfigObservation) : Prop :=
  sel_observed_main_route (lco_selector o) = Some desktop ∧
  sel_observed_main_route (lco_ubuntu_selector o) = Some wsl ∧
  ls_clash_api_port (lco_local_singbox o) = Some (Z.of_N STAGE2_CLASH_API_PORT) ∧
  ub_url (lco_ubuntu_proxy o) = Some (proxy_url gateway (Z.of_N STAGE2_WSL_PROXY_PORT)).

Lemma inspect_parsed_rendered tun server reality desktop wsl direct warp hv gateway local :
  tun = [] ∨ tun = [parsed_tun] → hv_gateway hv = Some gateway → ls_warnings local = [] →
  let o := inspect_parsed (Some {| etb_server := server;
      etb_direct := tunnel_binding_from_proto direct;
      etb_warp := tunnel_binding_from_proto warp |}) hv
    (parsed_config tun (parsed_outbounds server reality desktop wsl direct warp)) local in
  in_order o ∧ reports desktop wsl gateway o.
Proof.
  intros Htun Hg Hl.
  set (parsed := parsed_config tun (parsed_outbounds server reality desktop wsl direct warp)).
  assert (Hport : cfg_external_controller parsed ≫= parse_controller_port =
    Some (Z.of_N STAGE2_CLASH_API_PORT)) by (subst parsed; vm_compute; reflexivity).
  assert (Hin : List.find (λ i, str_eqb (in_kind i) "mixed" && str_eqb (in_tag i) WSL_INBOUND_TAG)
      (cfg_inbounds parsed) = nth_error parsed_inbounds 1)
    by (subst parsed; destruct Htun as [-> | ->]; vm_compute; reflexivity).
  assert (Hsel : ∀ tag d l, (tag = MANAGED_SELECTOR_TAG ∧ d = desktop) ∨
      (tag = WSL_SELECTOR_TAG ∧ d = wsl) → inspect_selector_group parsed tag l =
      ({| sel_desired_main_route := Some d; sel_observed_main_route := Some d;
          sel_degraded := false; sel_warnings := [] |}, l))
    by (intros tag d l [[-> ->]|[-> ->]]; subst parsed; vm_compute; reflexivity).
  assert (Htags : existsb (λ o, mem (ob_tag o) EXPECTED_OUTBOUND_TAGS) (cfg_outbounds parsed) = true)
    by (subst parsed; vm_compute; reflexivity).
  intros o. subst o. unfold inspect_parsed. rewrite Hport.
  rewrite (Hsel _ desktop) by (by left). rewrite (Hsel _ wsl) by (by right).
  unfold inspect_ubuntu_proxy_inbound. rewrite Hin, Htags, Hg.
  cbn [nth_error parsed_inbounds resolve_wsl_proxy_endpoint fst snd default is_empty
    sel_desired_main_route orb ls_port ls_managed ls_clash_api_port in_listen in_listen_port
    etb_server etb_direct etb_warp].
  change (is_some (Some desktop) || is_some (Some wsl)) with true. cbn [ls_managed ls_clash_api_port].
  change (is_some (ls_clash_api_port (ls_port (Some (Z.of_N STAGE2_CLASH_API_PORT)) local)))
    with true. cbv iota.
  subst parsed. rewrite !(compare_tunnel_binding_same _ _ _ _ _ reality)
    by (vm_compute; reflexivity).
  unfold in_order, reports.
  cbn [lco_local_singbox lco_selector lco_ubuntu_selector lco_ubuntu_proxy ls_managed_config
    ls_warnings sel_degraded sel_warnings ub_warnings sel_observed_main_route ls_clash_api_port
    ub_url]. done.
Qed.

Section Inspection.
Context `{PrettyJsonLaws} `{UnicodeLowercase} `{Message WindowsRuntimeState}.

(** C18: What was rendered is inspected as in order: with a configuration rendered
    from a state on disk, whatever processes run, the inspection against the tunnels
    of that state reports a managed configuration with no warning and no degraded
    selector, the routes of the policy, the port of the Clash API and the proxy of WSL
    behind its gateway. *)
Theorem rendered_config_in_order state desired b path hv gateway routes :
  render_windows_config_for_desired state desired = Ok b →
  (∀ t, wrs_direct state = Some t ∨ wrs_warp state = Some t → binding_typed t) →
  hv_config hv = Ok b → hv_gateway hv = Some gateway →
  pds_windows_route_policy desired = Some routes →
  let o := inspect_local_config path (expected_tunnel_bindings_from_runtime_state state) hv in
  in_order o ∧
  ∃ desktop wsl, production_windows_route_tag (pwr_desktop routes) = Ok desktop ∧
    production_windows_route_tag (pwr_wsl routes) = Ok wsl ∧ reports desktop wsl gateway o.
Proof.
  intros Hr Ht Hc Hg Hp. apply bind_Ok in Hr as
    (config & (mode & outbounds & Hin & Hren)%render_value_Ok & Hb%map_err_Ok).
  pose proof (pretty_roundtrip _ _ (rendered_canonical _ _ _ _ _ Hin Hren) Hb) as Hread.
  destruct Hin as (_ & _ & _ & _ & routes' & desktop & wsl & reality & direct & warp &
    Hroutes & Hd & Hw & _ & _ & Hdirect & Hwarp & ->).
  rewrite Hp in Hroutes. injection Hroutes as <-.
  pose proof (de_base_outbounds (wrs_server_ip state) reality desktop wsl direct warp
    (Ht _ (or_introl Hdirect)) (Ht _ (or_intror Hwarp))) as Hde.
  unfold inspect_local_config. rewrite Hc, Hread.
  unfold expected_tunnel_bindings_from_runtime_state. rewrite Hdirect, Hwarp.
  cbn [mbind option_bind].
  assert (∃ tun, (tun = [] ∨ tun = [parsed_tun]) ∧ de_config config = Some (parsed_config tun
    (parsed_outbounds (wrs_server_ip state) reality desktop wsl direct warp)))
    as (tun & Htun & Hcfg).
  { destruct mode; [done| |]; cbn [rendered] in Hren.
    - subst config. exists []. split; [by left|]. by apply de_base_config.
    - destruct Hren as (ip & rules & _ & _ & ->). exists [parsed_tun]. split; [by right|].
      by apply de_managed_config. }
  rewrite Hcfg. cbv zeta. destruct (inspect_parsed_rendered tun (wrs_server_ip state) reality desktop
    wsl direct warp hv gateway (observe_process path hv) Htun Hg (observe_process_silent path hv))
    as [Ho Hre].
  split; [exact Ho|]. exists desktop, wsl. split_and!; done.
Qed.
End Inspection.

(** ** Witnesses, and what the checks do not see *)
Module InspectSample.
Import SingboxSample.
Definition hv : host_view := {|
  hv_proc := Some [("12", Some ["/usr/bin/sing-box"; "run"; "-c"; "/run/config.json"]);
                   ("self", None)];
  hv_same_path := str_eqb "/run/config.json"; hv_is_file := true; hv_config := Ok config_text;
  hv_gateway := Some "172.20.0.1"; hv_adapters := [] |}.

Lemma rendered_config_in_order_witness :
  in_order (inspect_local_config "/run/config.json"
    (expected_tunnel_bindings_from_runtime_state state) hv).
Proof.
  refine (proj1 (rendered_config_in_order state desired config_text "/run/config.json" hv
    "172.20.0.1" {| pwr_desktop := 1; pwr_wsl := 4 |} _ _ _ _ _)).
  - vm_compute. reflexivity.
  - intros t [[= <-]|[= <-]]; split; vm_compute; split; discriminate.
  - reflexivity.
  - reflexivity.
  - reflexivity.
Defined.

(** [sync_tunnel_outbound] writes the domain of a tunnel as the server, the inspection expects
    the address: a configuration synchronized with a state is degraded against that state. *)
Definition sync_tunnels (f : WindowsRuntimeState → option WindowsTunnelBinding) : SyncTunnelState :=
  sync_tunnel_state_from_proto (default (binding "" "" "") (f state)).
Definition synced : Value :=
  match sync_config {| ss_instance_id := None; ss_ip := Some (wrs_server_ip state);
      ss_tunnel := sync_tunnels wrs_direct; ss_tunnel_warp := sync_tunnels wrs_warp |}
      "/run" config with Ok v => v | Err _ => VNull end.
Example synced_config_degraded :
  (λ parsed, let o := inspect_parsed (expected_tunnel_bindings_from_runtime_state state) hv parsed
      (observe_process "/run/config.json" hv) in
    (sel_degraded (lco_selector o), List.hd "" (ls_warnings (lco_local_singbox o))))
    <$> de_config synced =
  Some (true, "hysteria2-direct.server does not match live state: config=direct.example.com, state=203.0.113.7").
Proof. vm_compute. reflexivity. Qed.

(** A further condition of a rule is not seen by [verify_managed_application_routes]: the rule
    of an application, inverted, is verified as the policy. *)
Definition invert_rules (rules : list Value) : list Value :=
  map (λ rule, if has_process_path rule then set_key "invert" (VBool true) rule else rule) rules.
Definition inverted_reader : PrettyJson := {|
  to_vec_pretty _ := Err ""; from_slice _ := Some (modify_rules invert_rules config) |}.
Example inverted_rules_verified :
  modify_rules invert_rules config ≠ config ∧
  @verify_managed_application_routes inverted_reader ascii_lowercase config_text desired = Ok tt.
Proof. split; [vm_compute; discriminate|vm_compute; reflexivity]. Qed.
End InspectSample.
