(* ===== verification/LocalRuntime.v ===== *)
(** * The local runtime of the Windows host

    [edge-local-runtime/src/lib.rs], in its Windows build: who owns a sing-box process, the
    guarded start and restart with their rollback, the verified starts for SYSTEM, the stop. The
    procedures are programs over calls to processes, files and Win32. The loopback smoke test is
    not modelled. *)

From S2P Require Import Prelude RustStd RustText RustUtf HostTypes Json HostAdmin Service.
From S2P Require Import NativeNetwork NativeObserver WindowsRouting Singbox SingboxInspect.

(** ** Paths of Windows: an optional drive, an optional root, components

    UNC, device and verbatim prefixes are outside the model. *)

Definition is_separator (c : ascii) : bool := Ascii.eqb c backslash || Ascii.eqb c "/".
Definition has_drive (p : string) : bool :=
  match p with String c (String d _) => is_ascii_alphabetic c && Ascii.eqb d ":" | _ => false end.
(** The drive and the root, and what follows *)
Definition path_root (p : string) : string :=
  let drive := if has_drive p then str_take 2 p else "" in
  match str_drop (String.length drive) p with
  | String c _ => if is_separator c then drive +:+ String c "" else drive
  | EmptyString => drive
  end.
Definition has_root (p : string) : bool :=
  negb (String.length (path_root p) =? if has_drive p then 2 else 0)%nat.
(** Without the separators and [.] at the end, from the last character on *)
Fixpoint trim_noise (rooted : bool) (l : list ascii) : list ascii :=
  match l with
  | [] => []
  | c :: l' =>
      if is_separator c then trim_noise rooted l'
      else if Ascii.eqb c "." then
        match l' with
        | [] => if rooted then [] else l
        | d :: _ => if is_separator d then trim_noise rooted l' else l
        end
      else l
  end.
Fixpoint take_while (f : ascii → bool) (l : list ascii) : list ascii :=
  match l with c :: l => if f c then c :: take_while f l else [] | [] => [] end.
Fixpoint drop_while (f : ascii → bool) (l : list ascii) : list ascii :=
  match l with c :: l' => if f c then drop_while f l' else l | [] => [] end.
Definition rev_text (l : list ascii) : string := String.string_of_list_ascii (rev l).

(** The last component, and the text before it *)
Definition last_component (p : string) : string * string :=
  let root := path_root p in
  let l := trim_noise (has_root p)
    (rev (String.list_ascii_of_string (str_drop (String.length root) p))) in
  (rev_text (take_while (λ c, negb (is_separator c)) l),
   root +:+ rev_text (trim_noise (has_root p) (drop_while (λ c, negb (is_separator c)) l))).
Definition path_file_name (p : string) : option string :=
  let name := fst (last_component p) in
  if str_empty name || str_eqb name "." || str_eqb name ".." then None else Some name.
Definition path_parent (p : string) : option string :=
  let '(name, dir) := last_component p in if str_empty name then None else Some dir.
(** [path.join(name)], for a [name] that is one component *)
Definition path_join (dir name : string) : string :=
  let drive_only := has_drive dir && (String.length dir =? 2)%nat in
  let sep := match String.list_ascii_of_string dir with
             | [] => false
             | l => negb (is_separator (List.last l "/"%char))
             end in
  if sep && negb drive_only then dir +:+ String backslash name else dir +:+ name.
(** [path.extension()] *)
Definition path_extension (p : string) : option string :=
  name ← path_file_name p;
  let ext := List.last (split "." name) "" in
  if (length (split "." name) =? 1)%nat || str_eqb name ("." +:+ ext) then None else Some ext.

(** ** Data *)

Record LocalRuntimePaths : Set := {
  rp_singbox_binary_path : string; rp_config_path : string; rp_state_path : string;
  rp_runtime_root : string
}.
(** A process of the system, its arguments decoded lossily *)
Record process : Set := {
  pr_pid : Z; pr_name : string; pr_exe : option string; pr_parent : option Z;
  pr_arguments : list string
}.
Record ProcessObservation : Set := {
  po_pid : Z; po_name : string; po_executable_path : option string; po_parent_pid : option Z;
  po_command_line : string; po_config_path : option string
}.
Inductive RuntimeProcessClassification : Set :=
| Managed (p : ProcessObservation)
| Conflicting (ps : list ProcessObservation)
| Absent.
Record RuntimeOperationResult : Set := {
  ro_pid : option Z; ro_note : string; ro_warnings : list string;
  ro_local_singbox : LocalSingboxState
}.
Record StagedConfig : Set := { sc_candidate_path : string; sc_backup_path : string }.

(** [std::process::Command] as far as it is set, and a child *)
Record command : Set := {
  cm_program : string; cm_args : list string; cm_dir : option string; cm_new_console : bool;
  cm_stdout : option string; cm_stderr : option string
}.
Record child : Set := { ch_handle : positive; ch_pid : Z }.
(** The output of [sing-box check]: its status as text, its errors decoded lossily *)
Record check_output : Set := { ck_success : bool; ck_status : string; ck_stderr : string }.
Inductive remove_error : Set := RemoveNotFound | RemoveFailed (text : string).

(** Errors of [io] are their texts, errors of Win32 their codes. [Processes]: a fresh listing;
    [SamePath]: [same_path_string], which asks the file system; [ClockNanos]: [None] before the
    epoch; [LockJob]: the content of [NATIVE_MANAGED_TUN_JOB] under its lock, [None] when it is
    poisoned *)
Inductive runtime_call : Type → Type :=
| Processes : runtime_call (list process)
| SamePath (candidate expected : string) : runtime_call bool
| IsFile (path : string) : runtime_call bool
| ClockNanos : runtime_call (option Z)
| CopyFile (src dst : string) : runtime_call (result string unit)
| ReadFile (path : string) : runtime_call (result string bytes)
| WriteFile (path : string) (contents : bytes) : runtime_call (result string unit)
| RemoveFile (path : string) : runtime_call (result remove_error unit)
| CreateDirAll (path : string) : runtime_call (result string unit)
| CreateFile (path : string) : runtime_call bool
| CheckConfig (binary config : string) : runtime_call (result string check_output)
| Spawn (c : command) : runtime_call (result string child)
| Sleep (ms : Z) : runtime_call unit
| TryWait (c : child) : runtime_call (result string (option string))
| KillChild (c : child) : runtime_call bool
| WaitChild (c : child) : runtime_call bool
| OpenProcess (pid : Z) : runtime_call (result Z positive)
| TerminateProcess (handle : positive) : runtime_call bool
| WaitForSingleObject (handle : positive) (ms : Z) : runtime_call Z
| GetLastError : runtime_call Z
| CloseHandle (handle : positive) : runtime_call unit
| OpenProcessToken : runtime_call (result Z positive)
| LookupDebugPrivilege : runtime_call (result Z Z)
| EnablePrivilege (token : positive) (luid : Z) : runtime_call bool
| RestorePrivilege (token : positive) : runtime_call Z
| LockJob : runtime_call (option (option positive))
| UnlockJob : runtime_call unit
| CreateJobObject : runtime_call (option positive)
| SetKillOnClose (job : positive) : runtime_call bool
| AssignProcessToJob (job : positive) (c : child) : runtime_call bool
| StoreJob (job : positive) : runtime_call unit
| ReadTables : runtime_call windows_tables.

Abbreviation rprog := (fservice runtime_call string).
(** [let _ = f();] *)
Definition ignored {A} (p : rprog A) : rprog unit := service_bind p (λ _, Return (Ok tt)).
(** The result of [f()] as a value *)
Definition attempted {A} (p : rprog A) : rprog (res A) := service_bind p (λ r, Return (Ok r)).
(** [if let Err(err) = f() { return handle(err) }] *)
Definition on_err {A} (p : rprog A) (handle : string → rprog A) : rprog A :=
  service_bind p (λ r, match r with Ok a => Return (Ok a) | Err err => handle err end).
(** [f().map_err(g)?] *)
Definition io {A} (c : runtime_call (result string A)) (g : string → string) : rprog A :=
  r ← invoke c; pure_step (map_err g r).

(** ** Who owns a process *)

Definition process_observation (p : process) : ProcessObservation := {|
  po_pid := pr_pid p; po_name := pr_name p; po_executable_path := pr_exe p;
  po_parent_pid := pr_parent p; po_command_line := join " " (pr_arguments p);
  po_config_path := extract_config_path (pr_arguments p) |}.

(** The lookup of one process *)
Definition observe_process (pid : Z) : rprog (option ProcessObservation) :=
  ps ← invoke Processes;
  mret (process_observation <$> List.find (λ p, pr_pid p =? pid) ps).

Definition singbox_processes : rprog (list ProcessObservation) :=
  ps ← invoke Processes;
  mret (List.filter (λ p, str_contains "sing-box" (to_ascii_lowercase (po_name p)))
          (map process_observation ps)).

Definition is_managed (config_path : string) (p : ProcessObservation) : rprog bool :=
  match po_config_path p with
  | Some config => invoke (SamePath config config_path)
  | None => mret false
  end.
Definition exact_managed_config_argument (arguments : list string) (expected : string)
    : rprog (option string) :=
  match extract_config_path arguments with
  | Some candidate =>
      same ← invoke (SamePath candidate expected);
      mret (if same : bool then Some candidate else None)
  | None => mret None
  end.
(** The processes with the expected configuration, and the others *)
Fixpoint split_managed (config_path : string) (ps : list ProcessObservation)
    : rprog (list ProcessObservation * list ProcessObservation) :=
  match ps with
  | [] => mret ([], [])
  | p :: ps =>
      m ← is_managed config_path p;
      '(managed, conflicting) ← split_managed config_path ps;
      mret (if m : bool then (p :: managed, conflicting) else (managed, p :: conflicting))
  end.
Definition exact_managed_runtime_processes (config_path : string)
    : rprog (list ProcessObservation) :=
  ps ← singbox_processes;
  '(managed, _) ← split_managed config_path ps;
  mret managed.
Definition classify_processes (config_path : string) (ps : list ProcessObservation)
    : rprog RuntimeProcessClassification :=
  '(managed, conflicting) ← split_managed config_path ps;
  mret (if negb (is_empty conflicting) || (1 <? length managed)%nat
        then Conflicting (conflicting ++ managed)
        else match managed with p :: _ => Managed p | [] => Absent end).
Definition classify_runtime_process (config_path : string) : rprog RuntimeProcessClassification :=
  ps ← singbox_processes;
  classify_processes config_path ps.
Definition find_exact_managed_runtime_process (config_path : string)
    : rprog (option ProcessObservation) :=
  managed ← exact_managed_runtime_processes config_path;
  mret match managed with [p] => Some p | _ => None end.
Definition inspect_runtime_process (config_path : string) : rprog (option ProcessObservation) :=
  c ← classify_runtime_process config_path;
  mret match c with Managed p => Some p | _ => None end.

Definition process_text (p : ProcessObservation) : string :=
  "pid=" +:+ dec (po_pid p) +:+ " cmd=" +:+ po_command_line p.
Definition process_texts (ps : list ProcessObservation) : string :=
  join " | " (process_text <$> ps).

Definition ls_running (s : LocalSingboxState) : LocalSingboxState := {|
  ls_process_running := true; ls_managed_config := ls_managed_config s;
  ls_expected_config_path := ls_expected_config_path s;
  ls_active_config_path := ls_active_config_path s; ls_clash_api_port := ls_clash_api_port s;
  ls_warnings := ls_warnings s |}.
Definition ls_owned (p : ProcessObservation) (s : LocalSingboxState) : LocalSingboxState := {|
  ls_process_running := true; ls_managed_config := true;
  ls_expected_config_path := ls_expected_config_path s;
  ls_active_config_path := po_config_path p; ls_clash_api_port := ls_clash_api_port s;
  ls_warnings := ls_warnings s |}.

(** What the listing of the owned processes shows, then the one of the others *)
Definition show_managed (managed : list ProcessObservation) (local : LocalSingboxState)
    : LocalSingboxState :=
  match managed with
  | [] => local
  | [p] => ls_owned p local
  | _ => ls_warn ("multiple managed sing-box processes violate single-owner runtime: "
           +:+ process_texts managed) (ls_running local)
  end.
Definition show_external (managed : list ProcessObservation) (c : RuntimeProcessClassification)
    (local : LocalSingboxState) : LocalSingboxState :=
  match c with
  | Conflicting ps =>
      let external := List.filter (λ p, negb (existsb (Z.eqb (po_pid p)) (po_pid <$> managed))) ps in
      if is_empty external then local
      else ls_warn ("external sing-box process ownership observed: " +:+ process_texts external)
             (ls_running local)
  | _ => local
  end.
Definition inspect_local_runtime (config_path : string) : rprog LocalSingboxState :=
  managed ← exact_managed_runtime_processes config_path;
  c ← classify_runtime_process config_path;
  let local := show_external managed c (show_managed managed (local_placeholder config_path)) in
  mret (if ls_process_running local then local
        else ls_warn "managed sing-box process is not running" local).

(** ** Processes *)

(** [{:#x}] of a [u32] *)
Fixpoint hex_digits (n : nat) (z : Z) (acc : string) : string :=
  match n with
  | O => acc
  | S n => if z <? 16 then String (hex_char z) acc
           else hex_digits n (z / 16) (String (hex_char (z mod 16)) acc)
  end.
Definition hex_text (z : Z) : string := "0x" +:+ hex_digits 8 z "".

Definition stop_process (pid : Z) : rprog unit :=
  pure_step (fail_if (pid =? 0) "refusing to terminate an invalid process id") ;;
  opened ← invoke (OpenProcess pid);
  handle ← pure_step (map_err (λ code, "failed to open managed process pid " +:+ dec pid
             +:+ " for bounded termination: " +:+ dec code) opened);
  invoke (TerminateProcess handle) ;;
  waited ← invoke (WaitForSingleObject handle 5000);
  last_error ← (if waited =? 0 then mret 0 else invoke GetLastError);
  invoke (CloseHandle handle) ;;
  pure_step (if waited =? 0 then Ok tt
    else if waited =? 258 then Err ("managed process pid " +:+ dec pid
      +:+ " did not exit within the bounded 5-second wait; refusing replacement")
    else Err ("unable to confirm managed process pid " +:+ dec pid +:+ " exit; wait result "
      +:+ hex_text waited +:+ ", Windows error " +:+ dec last_error
      +:+ "; refusing replacement")).

Definition STARTUP_OBSERVATION_SECS : Z := 10.
Definition STARTUP_OBSERVATION_INTERVAL_MS : Z := 500.
Fixpoint observe_attempts (n : nat) (c : child) : rprog unit :=
  match n with
  | O => mret tt
  | S n =>
      invoke (Sleep STARTUP_OBSERVATION_INTERVAL_MS) ;;
      status ← io (TryWait c) (λ err, "failed to observe sing-box startup: " +:+ err);
      match status with
      | Some status => pure_step (Err
          ("sing-box exited during startup observation with status " +:+ status))
      | None => observe_attempts n c
      end
  end.
Definition observe_startup (c : child) : rprog unit :=
  observe_attempts
    (Z.to_nat (STARTUP_OBSERVATION_SECS * 1000 / STARTUP_OBSERVATION_INTERVAL_MS)) c.

Definition with_log (stdout : bool) (file : string) (c : command) : command := {|
  cm_program := cm_program c; cm_args := cm_args c; cm_dir := cm_dir c;
  cm_new_console := cm_new_console c;
  cm_stdout := if stdout then Some file else cm_stdout c;
  cm_stderr := if stdout then cm_stderr c else Some file |}.
Definition attach_log (stdout : bool) (file : string) (c : command) : rprog command :=
  created ← invoke (CreateFile file);
  mret (if created : bool then with_log stdout file c else c).
Definition attach_runtime_logs (runtime_root : string) (c : command) : rprog command :=
  made ← invoke (CreateDirAll runtime_root);
  if is_err made then mret c
  else
    c ← attach_log true (path_join runtime_root "sing-box.stdout.log") c;
    attach_log false (path_join runtime_root "sing-box.stderr.log") c.

(** The body under the open token *)
Definition spawn_with_token (token : positive) (c : command) : rprog child :=
  looked ← invoke LookupDebugPrivilege;
  luid ← pure_step (map_err (λ code,
           "failed to resolve SeDebugPrivilege for managed sing-box child: " +:+ dec code) looked);
  enabled ← invoke (EnablePrivilege token luid);
  enable_error ← invoke GetLastError;
  pure_step (fail_if (negb enabled)
    ("failed to enable SeDebugPrivilege for managed sing-box child: " +:+ dec enable_error)) ;;
  pure_step (fail_if (enable_error =? 1300)
    "controller token does not contain SeDebugPrivilege required by managed sing-box process routing") ;;
  pure_step (fail_if (negb (enable_error =? 0))
    ("unexpected SeDebugPrivilege enable result for managed sing-box child: "
     +:+ dec enable_error)) ;;
  spawned ← invoke (Spawn c);
  restored ← invoke (RestorePrivilege token);
  restore_error ← invoke GetLastError;
  if (restored =? 0) || negb (restore_error =? 0) then
    match spawned with
    | Ok started => invoke (KillChild started) ;; invoke (WaitChild started) ;; mret tt
    | Err _ => mret tt
    end ;;
    pure_step (Err ("controller SeDebugPrivilege restoration failed after sing-box spawn attempt: result="
      +:+ dec restored +:+ " error=" +:+ dec restore_error))
  else pure_step (map_err (λ err, "failed to start sing-box: " +:+ err) spawned).
Definition spawn_with_temporary_debug_privilege (c : command) : rprog child :=
  opened ← invoke OpenProcessToken;
  token ← pure_step (map_err (λ code,
    "failed to open controller token for sing-box process lookup privilege: " +:+ dec code) opened);
  service_bind (spawn_with_token token c) (λ r, invoke (CloseHandle token) ;; pure_step r).

(** The calls of [sync_local_config], among those of the runtime *)
Definition config_call_of {R} (c : config_call R) : runtime_call R :=
  match c with
  | ReadConfigFile path => ReadFile path
  | WriteConfigFile path contents => WriteFile path contents
  end.
Fixpoint over_config {A} (p : service config_call A) : service runtime_call A :=
  match p with
  | Return a => Return a
  | Invoke c k => Invoke (config_call_of c) (λ r, over_config (k r))
  end.

Definition is_typed_runtime_state (state_path : string) : bool :=
  match path_extension state_path with
  | Some ext => eq_ignore_ascii_case ext "pb"
  | None => false
  end.

Definition validate_singbox_config (binary config : string) : rprog unit :=
  output ← io (CheckConfig binary config)
             (λ err, "failed to run sing-box config preflight: " +:+ err);
  pure_step (if ck_success output then Ok tt
    else let detail := trim (ck_stderr output) in
    Err (if str_empty detail
         then "sing-box rejected staged configuration with status " +:+ ck_status output
         else "sing-box rejected staged configuration: " +:+ detail)).

Definition activate_staged_config (paths : LocalRuntimePaths) (staged : StagedConfig)
    : rprog unit :=
  io (CopyFile (rp_config_path paths) (sc_backup_path staged)) (λ err,
    "failed to preserve last-known-good sing-box config at " +:+ sc_backup_path staged
    +:+ ": " +:+ err) ;;
  io (CopyFile (sc_candidate_path staged) (rp_config_path paths)) (λ err,
    "failed to activate staged sing-box config " +:+ sc_candidate_path staged +:+ ": " +:+ err).
Definition restore_last_known_good_config (paths : LocalRuntimePaths) (staged : StagedConfig)
    : rprog unit :=
  io (CopyFile (sc_backup_path staged) (rp_config_path paths)) (λ err,
    "failed to restore last-known-good sing-box config from " +:+ sc_backup_path staged
    +:+ ": " +:+ err).
Definition discard_staged_config (staged : StagedConfig) : rprog unit :=
  removed ← invoke (RemoveFile (sc_candidate_path staged));
  pure_step match removed with
  | Ok _ | Err RemoveNotFound => Ok tt
  | Err (RemoveFailed err) => Err ("failed to remove staged sing-box config "
      +:+ sc_candidate_path staged +:+ ": " +:+ err)
  end.

Definition existing_owner_for_noop (owner : option ProcessObservation) (explicit_restart : bool)
    : option ProcessObservation := if explicit_restart then None else owner.
Definition NOOP_NOTE : string := "NOOP_ALREADY_RUNNING: exact managed sing-box preserved; start never replaces a running TUN".
(** The mode a desired state asks for *)
Definition datapath_mode (canonical : res ProductionDesiredState) : res WindowsDatapathMode :=
  desired ← canonical;
  ok_or (try_from (pds_windows_datapath_mode desired))
    "canonical production Windows datapath mode is invalid".

Section Runtime.
Context `{PrettyJson} `{UnicodeLowercase} `{Message WindowsRuntimeState}.
(** [canonical_production_desired_state()] is built into the program; [legacy]: the
    [Deserialize] of [SyncState] *)
Context (canonical : res ProductionDesiredState) (legacy : bytes → option SyncState).

Definition proxy_only_external_coexistence_allowed (paths : LocalRuntimePaths) : res bool :=
  if negb (is_typed_runtime_state (rp_state_path paths)) then Ok false
  else
    mode ← datapath_mode canonical;
    Ok (bool_decide (mode = WindowsDatapathMode_ProxyOnly)).
Definition managed_tun_debug_privilege_required : res bool :=
  mode ← datapath_mode canonical;
  Ok (bool_decide (mode = WindowsDatapathMode_ManagedTun)).

Definition launch_singbox (paths : LocalRuntimePaths) (visible_window : bool) : rprog child :=
  let c := {| cm_program := rp_singbox_binary_path paths;
    cm_args := ["run"; "-c"; rp_config_path paths]; cm_dir := path_parent (rp_config_path paths);
    cm_new_console := visible_window; cm_stdout := None; cm_stderr := None |} in
  c ← (if visible_window then mret c else attach_runtime_logs (rp_runtime_root paths) c);
  privileged ← pure_step managed_tun_debug_privilege_required;
  if privileged : bool then spawn_with_temporary_debug_privilege c
  else io (Spawn c) (λ err, "failed to start sing-box: " +:+ err).

(** The text of the candidate, from a typed state or by synchronizing the copy *)
Definition prepare_candidate (paths : LocalRuntimePaths) (candidate : string) : rprog unit :=
  if is_typed_runtime_state (rp_state_path paths) then
    b ← io (ReadFile (rp_state_path paths))
          (λ err, "unable to read typed Windows runtime state: " +:+ err);
    state ← pure_step (decode_windows_runtime_state b);
    rendered ← pure_step (render_windows_config canonical state);
    io (WriteFile candidate rendered)
      (λ err, "failed to render typed Windows candidate config: " +:+ err)
  else
    over_config (sync_local_config legacy candidate (rp_state_path paths) (rp_runtime_root paths))
    ;; mret tt.
(** [if let Err(err) = f() { let _ = fs::remove_file(path); return Err(err) }] *)
Definition or_remove {A} (path : string) (p : rprog A) : rprog A :=
  on_err p (λ err, invoke (RemoveFile path) ;; pure_step (Err err)).

Definition candidate_name (stem : string) (nonce : Z) : string :=
  "." +:+ stem +:+ ".next-" +:+ dec nonce +:+ ".json".
Definition stage_and_validate_config (paths : LocalRuntimePaths) : rprog StagedConfig :=
  let config := rp_config_path paths in
  parent ← pure_step (ok_or (path_parent config)
             ("managed config has no parent directory: " +:+ config));
  stem ← pure_step (ok_or (path_file_name config)
           ("managed config has no usable filename: " +:+ config));
  nonce ← invoke ClockNanos;
  nonce ← pure_step (ok_or nonce
    "system clock is before Unix epoch: second time provided was later than self");
  let candidate := path_join parent (candidate_name stem nonce) in
  io (CopyFile config candidate) (λ err,
    "failed to create staged sing-box config from " +:+ config +:+ ": " +:+ err) ;;
  or_remove candidate (prepare_candidate paths candidate) ;;
  or_remove candidate (validate_singbox_config (rp_singbox_binary_path paths) candidate) ;;
  io (CreateDirAll (rp_runtime_root paths)) (λ err,
    "failed to prepare local runtime directory " +:+ rp_runtime_root paths +:+ ": " +:+ err) ;;
  mret {| sc_candidate_path := candidate;
          sc_backup_path := path_join (rp_runtime_root paths) "sing-box.last-known-good.json" |}.

(** Always an error: the one that made the transition fail, and what became of the old runtime *)
Definition rollback_failed_transition {A} (paths : LocalRuntimePaths)
    (previous_runtime : option ProcessObservation) (staged : StagedConfig)
    (startup_error : string) : rprog A :=
  ignored (restore_last_known_good_config paths staged) ;;
  ignored (discard_staged_config staged) ;;
  rollback ← match previous_runtime with
    | Some _ =>
        restarted ← attempted (c ← launch_singbox paths false; observe_startup c ;; mret (ch_pid c));
        mret match restarted with
        | Ok pid => "previous local runtime restored (pid " +:+ dec pid +:+ ")"
        | Err err => "automatic rollback also failed: " +:+ err
        end
    | None => mret "no previous local runtime existed to restore"
    end;
  pure_step (Err ("guarded local restart failed: " +:+ startup_error +:+ "; " +:+ rollback)).

(** [if let Err(err) = f() { return rollback(...) }] *)
Definition or_rollback {A} (paths : LocalRuntimePaths)
    (previous_runtime : option ProcessObservation) (staged : StagedConfig) (p : rprog A)
    : rprog A :=
  on_err p (rollback_failed_transition paths previous_runtime staged).

(** The replacement of the running process by one with the staged configuration *)
Definition replace_runtime (paths : LocalRuntimePaths) (visible_window : bool)
    (runtime : option ProcessObservation) (staged : StagedConfig) : rprog child :=
  match runtime with
  | Some p => on_err (stop_process (po_pid p)) (λ err,
      ignored (discard_staged_config staged) ;; pure_step (Err err))
  | None => mret tt
  end ;;
  or_rollback paths runtime staged (activate_staged_config paths staged) ;;
  c ← or_rollback paths runtime staged (launch_singbox paths visible_window);
  or_rollback paths runtime staged (observe_startup c) ;;
  mret c.

(** The owner is left alone, or replaced *)
Definition noop_or_replace (paths : LocalRuntimePaths) (visible_window explicit_restart : bool)
    (runtime : option ProcessObservation) : rprog RuntimeOperationResult :=
  match existing_owner_for_noop runtime explicit_restart with
  | Some p =>
      local ← inspect_local_runtime (rp_config_path paths);
      mret {| ro_pid := Some (po_pid p); ro_note := NOOP_NOTE; ro_warnings := ls_warnings local;
              ro_local_singbox := local |}
  | None =>
      found ← invoke (IsFile (rp_singbox_binary_path paths));
      pure_step (fail_if (negb found)
        ("sing-box binary was not found: " +:+ rp_singbox_binary_path paths)) ;;
      staged ← stage_and_validate_config paths;
      started ← replace_runtime paths visible_window runtime staged;
      ignored (discard_staged_config staged) ;;
      local ← inspect_local_runtime (rp_config_path paths);
      mret {| ro_pid := Some (ch_pid started);
              ro_note := if visible_window
                then "local sing-box started in a visible window (validated guarded transition)"
                else "local sing-box started (validated guarded transition)";
              ro_warnings := ls_warnings local; ro_local_singbox := local |}
  end.

Definition start_local_runtime_with_policy (paths : LocalRuntimePaths)
    (visible_window explicit_restart : bool) : rprog RuntimeOperationResult :=
  managed ← exact_managed_runtime_processes (rp_config_path paths);
  pure_step (fail_if (1 <? length managed)%nat
    ("refusing managed runtime start with duplicate managed owners: "
     +:+ process_texts managed)) ;;
  let runtime := head managed in
  c ← classify_runtime_process (rp_config_path paths);
  match c with
  | Conflicting ps =>
      allowed ← pure_step (proxy_only_external_coexistence_allowed paths);
      pure_step (fail_if (negb allowed)
        ("refusing managed runtime start while conflicting sing-box ownership exists outside PROXY_ONLY mode: "
         +:+ process_texts ps))
  | _ => mret tt
  end ;;
  noop_or_replace paths visible_window explicit_restart runtime.

Definition start_local_runtime (paths : LocalRuntimePaths) (visible_window : bool)
    : rprog RuntimeOperationResult := start_local_runtime_with_policy paths visible_window false.
Definition restart_local_runtime (paths : LocalRuntimePaths) : rprog RuntimeOperationResult :=
  start_local_runtime_with_policy paths false true.
Definition restart_local_runtime_visible (paths : LocalRuntimePaths)
    : rprog RuntimeOperationResult := start_local_runtime_with_policy paths true true.

Definition stop_local_runtime (config_path : string) (expected_config_only : bool)
    : rprog RuntimeOperationResult :=
  managed ← exact_managed_runtime_processes config_path;
  pure_step (fail_if (1 <? length managed)%nat
    ("refusing managed runtime stop with duplicate managed owners: " +:+ process_texts managed)) ;;
  match head managed with
  | None =>
      local ← inspect_local_runtime config_path;
      mret {| ro_pid := None; ro_note := "managed sing-box is not running";
              ro_warnings := ls_warnings local; ro_local_singbox := local |}
  | Some p =>
      pure_step (fail_if (negb expected_config_only)
        "unbounded sing-box stop is retired; ordinary runtime ownership may stop only the exact managed process") ;;
      stop_process (po_pid p) ;;
      local ← inspect_local_runtime config_path;
      mret {| ro_pid := Some (po_pid p);
              ro_note := "exact managed sing-box stopped; external sing-box ownership was not mutated";
              ro_warnings := ls_warnings local; ro_local_singbox := local |}
  end.

(** ** The starts that SYSTEM admitted *)

Definition start_native_verified_proxy (paths : LocalRuntimePaths)
    : rprog RuntimeOperationResult :=
  b ← io (ReadFile (rp_config_path paths)) (λ _, "HOST_WINDOWS_EFFECT_CONFIG_UNREADABLE");
  pure_step (require_proxy_only_config b) ;;
  managed ← exact_managed_runtime_processes (rp_config_path paths);
  pure_step (fail_if (negb (is_empty managed))
    "HOST_WINDOWS_EFFECT_CHILD_ALREADY_EXISTS_NO_REPLAY") ;;
  validate_singbox_config (rp_singbox_binary_path paths) (rp_config_path paths) ;;
  c ← launch_singbox paths false;
  on_err (observe_startup c) (λ e, pure_step
    (Err ("HOST_WINDOWS_EFFECT_START_POSTSTATE_UNPROVEN: " +:+ e))) ;;
  local ← inspect_local_runtime (rp_config_path paths);
  mret {| ro_pid := Some (ch_pid c); ro_note := "NATIVE_SYSTEM_ADMITTED_PROXY_STARTED";
          ro_warnings := []; ro_local_singbox := local |}.

(** The body under the lock; the handle is closed where it is not kept *)
Definition bind_job (c : child) : rprog unit :=
  created ← invoke CreateJobObject;
  job ← pure_step (ok_or created "HOST_WINDOWS_TUN_JOB_CREATE_FAILED");
  configured ← invoke (SetKillOnClose job);
  if negb configured then
    invoke (CloseHandle job) ;; pure_step (Err "HOST_WINDOWS_TUN_JOB_LIMITS_FAILED")
  else
    assigned ← invoke (AssignProcessToJob job c);
    if negb assigned then
      invoke (CloseHandle job) ;; pure_step (Err "HOST_WINDOWS_TUN_JOB_ASSIGN_FAILED")
    else invoke (StoreJob job) ;; mret tt.
Definition bind_managed_tun_job_to_child (c : child) : rprog unit :=
  owner ← invoke LockJob;
  owner ← pure_step (ok_or owner "HOST_WINDOWS_TUN_JOB_OWNER_LOCK_POISONED");
  service_bind
    match owner with
    | Some _ => pure_step (Err "HOST_WINDOWS_TUN_JOB_OWNER_ALREADY_PRESENT")
    | None => bind_job c
    end (λ r, invoke UnlockJob ;; pure_step r).

Context (size_of align_of : native_type → Z).

Definition observe_identity : rprog NativeNetworkIdentity :=
  os ← invoke ReadTables;
  pure_step ('(_, network) ← observe_native_network_identity size_of align_of os; Ok network).
(** The child is owned and the network as it was, but for the TUN *)
Definition tun_poststate (before : NativeNetworkIdentity) (c : child) : rprog unit :=
  bind_managed_tun_job_to_child c ;;
  observe_startup c ;;
  os ← invoke ReadTables;
  current ← pure_step ('(_, tun) ← observe_native_managed_tun size_of align_of os; Ok tun);
  pure_step (require_foreign_network_preserved current before).
(** Only the new child is stopped, and the network compared with the one before. *)
Definition reject_started {A} (before : NativeNetworkIdentity) (c : child) (error : string)
    : rprog A :=
  killed ← invoke (KillChild c);
  stopped ← (if killed : bool then invoke (WaitChild c) else mret false);
  restored ← attempted (after ← observe_identity; pure_step (require_restored before after));
  pure_step (Err (if stopped && is_ok restored
    then "HOST_WINDOWS_TUN_START_REJECTED_RESTORED: " +:+ error
    else "HOST_WINDOWS_TUN_START_UNKNOWN_NO_REPLAY")).

Definition start_native_verified_managed_tun (paths : LocalRuntimePaths)
    : rprog RuntimeOperationResult :=
  b ← io (ReadFile (rp_config_path paths)) (λ _, "HOST_WINDOWS_TUN_CONFIG_UNREADABLE");
  pure_step (require_managed_tun_config b) ;;
  owners ← classify_runtime_process (rp_config_path paths);
  pure_step (fail_if (match owners with Absent => false | _ => true end)
    "HOST_WINDOWS_TUN_CONFLICTING_CHILD_OR_OWNER") ;;
  before ← observe_identity;
  pure_step (require_foreign_warp_up before) ;;
  os ← invoke ReadTables;
  pure_step (require_owned_tun_absent (os_interfaces os)) ;;
  validate_singbox_config (rp_singbox_binary_path paths) (rp_config_path paths) ;;
  c ← launch_singbox paths false;
  on_err (tun_poststate before c) (reject_started before c) ;;
  local ← inspect_local_runtime (rp_config_path paths);
  mret {| ro_pid := Some (ch_pid c); ro_note := "NATIVE_SYSTEM_ADMITTED_MANAGED_TUN_STARTED";
          ro_warnings := []; ro_local_singbox := local |}.
End Runtime.

Definition reject_unproven_windows_tun_teardown (operation : string) : res unit :=
  Err (operation +:+ " refused before mutation: independent CloudflareWARP DNS restoration and control-channel recovery are not proven for Windows managed TUN teardown").
