(* ===== verification/LocalRuntimeFacts.v ===== *)
(** * The local runtime: theorems

    The host as a state: files, listings, the processes stopped and started. A call answers as
    it can, and a copy that fails, or is cut short, leaves anything in its target. At every point
    of every run of a start the last configuration survives, unless the copy that preserves it
    failed; then the rollback overwrites it. *)

From S2P Require Import Prelude RustStd RustText RustUtf HostTypes Json HostAdmin Service CrashLogic.
From S2P Require Import Concrete NativeNetwork NativeObserver NativeNetworkFacts WindowsRouting Singbox SingboxInspect SingboxFacts LocalRuntime.

(** ** The host *)

(** [w_listings]: the listings of processes that were made, [w_started]: the configurations that
    children were started with, [w_failed]: the copies that failed, [w_bound]: the children that
    were assigned to a job; the newest first. [w_job]: the job the controller keeps *)
Record world : Type := {
  w_files : gmap string bytes; w_listings : list (list process); w_handles : gmap positive Z;
  w_stopped : list Z; w_started : list (option bytes); w_failed : list (string * string);
  w_job : option positive; w_bound : list child
}.
Definition with_files (f : gmap string bytes) (w : world) : world := {|
  w_files := f; w_listings := w_listings w; w_handles := w_handles w; w_stopped := w_stopped w;
  w_started := w_started w; w_failed := w_failed w; w_job := w_job w; w_bound := w_bound w |}.
Definition with_listing (l : list process) (w : world) : world := {|
  w_files := w_files w; w_listings := l :: w_listings w; w_handles := w_handles w; w_stopped := w_stopped w;
  w_started := w_started w; w_failed := w_failed w; w_job := w_job w; w_bound := w_bound w |}.
Definition with_handle (h : positive) (pid : Z) (w : world) : world := {|
  w_files := w_files w; w_listings := w_listings w; w_handles := <[h := pid]> (w_handles w);
  w_stopped := w_stopped w; w_started := w_started w; w_failed := w_failed w;
  w_job := w_job w; w_bound := w_bound w |}.
Definition with_stopped (h : positive) (w : world) : world := {|
  w_files := w_files w; w_listings := w_listings w; w_handles := w_handles w;
  w_stopped := option_list (w_handles w !! h) ++ w_stopped w; w_started := w_started w;
  w_failed := w_failed w; w_job := w_job w; w_bound := w_bound w |}.
Definition with_started (c : option bytes) (w : world) : world := {|
  w_files := w_files w; w_listings := w_listings w; w_handles := w_handles w;
  w_stopped := w_stopped w; w_started := c :: w_started w; w_failed := w_failed w;
  w_job := w_job w; w_bound := w_bound w |}.
Definition with_failed (src dst : string) (w : world) : world := {|
  w_files := w_files w; w_listings := w_listings w; w_handles := w_handles w;
  w_stopped := w_stopped w; w_started := w_started w; w_failed := (src, dst) :: w_failed w;
  w_job := w_job w; w_bound := w_bound w |}.
Definition with_job (j : option positive) (w : world) : world := {|
  w_files := w_files w; w_listings := w_listings w; w_handles := w_handles w;
  w_stopped := w_stopped w; w_started := w_started w; w_failed := w_failed w; w_job := j;
  w_bound := w_bound w |}.
Definition with_bound (c : child) (w : world) : world := {|
  w_files := w_files w; w_listings := w_listings w; w_handles := w_handles w;
  w_stopped := w_stopped w; w_started := w_started w; w_failed := w_failed w;
  w_job := w_job w; w_bound := c :: w_bound w |}.

(** The files are the same but for one. *)
Definition only_file (path : string) (f f' : gmap string bytes) : Prop :=
  ∀ p, p ≠ path → f' !! p = f !! p.
(** The configuration a command names: [run -c path] *)
Definition command_config (w : world) (c : command) : option bytes :=
  w_files w !! List.last (cm_args c) "".

Section World.
(** [same_path_string] on this host, and the configurations that [sing-box check] accepts *)
Context (same : string → string → bool) (valid : bytes → bool).

Definition step {R} (c : runtime_call R) : world → R → world → Prop :=
  match c in runtime_call R return world → R → world → Prop with
  | Processes => λ w l w', w' = with_listing l w
  | SamePath c e => λ w r w', r = same c e ∧ w' = w
  | CopyFile src dst => λ w r w',
      match r with
      | Ok _ => ∃ b, w_files w !! src = Some b ∧ w' = with_files (<[dst := b]> (w_files w)) w
      | Err _ => ∃ f, only_file dst (w_files w) f ∧ w' = with_failed src dst (with_files f w)
      end
  | ReadFile path => λ w r w',
      w' = w ∧ match r with Ok b => w_files w !! path = Some b | Err _ => True end
  | WriteFile path b => λ w r w',
      match r with
      | Ok _ => w' = with_files (<[path := b]> (w_files w)) w
      | Err _ => ∃ f, only_file path (w_files w) f ∧ w' = with_files f w
      end
  | RemoveFile path => λ w r w',
      w' = if is_ok r then with_files (delete path (w_files w)) w else w
  | CreateFile path => λ w _ w', ∃ f, only_file path (w_files w) f ∧ w' = with_files f w
  | CheckConfig _ path => λ w r w',
      w' = w ∧ match r with
               | Ok out => ∃ b, w_files w !! path = Some b ∧ ck_success out = valid b
               | Err _ => True
               end
  | Spawn c => λ w r w', w' = if is_ok r then with_started (command_config w c) w else w
  | OpenProcess pid => λ w r w',
      match r with Ok h => w' = with_handle h pid w | Err _ => w' = w end
  | TerminateProcess h => λ w _ w', w' = with_stopped h w
  | LockJob => λ w r w', w' = w ∧ match r with Some owner => owner = w_job w | None => True end
  | AssignProcessToJob _ c => λ w r w', w' = if r : bool then with_bound c w else w
  | StoreJob j => λ w _ w', w' = with_job (Some j) w
  | _ => λ w _ w', w' = w
  end.

Abbreviation always := (always (@step)).

(** ** What programs change *)

Context (config : string).

(** Only files of [T] are changed, copies fail only into [T], nothing is stopped, and children
    are started, if [spawns], with the configuration as it is. *)
Definition moved (T : string → Prop) (spawns : bool) (w w' : world) : Prop :=
  (∀ p, ¬ T p → w_files w' !! p = w_files w !! p) ∧
  w_stopped w' = w_stopped w ∧ w_job w' = w_job w ∧
  (∃ l, w_listings w' = l ++ w_listings w) ∧
  (∃ l, w_failed w' = l ++ w_failed w ∧ Forall (λ e, T e.2) l) ∧
  (∃ l, w_started w' = l ++ w_started w ∧
     Forall (λ x, spawns = true ∧ x = w_files w !! config) l).
(** The calls that do no more *)
Definition within_files (T : string → Prop) (spawns : bool) R (c : runtime_call R) : Prop :=
  match c with
  | CopyFile _ path | WriteFile path _ | RemoveFile path | CreateFile path => T path
  | Spawn c => spawns = true ∧ List.last (cm_args c) "" = config
  | TerminateProcess _ | StoreJob _ => False
  | _ => True
  end.

Lemma moved_refl T spawns w : moved T spawns w w.
Proof. unfold moved. split_and!; try done; exists []; split_and?; done. Qed.
Lemma moved_trans T spawns w1 w2 w3 :
  (spawns = true → ¬ T config) → moved T spawns w1 w2 → moved T spawns w2 w3 → moved T spawns w1 w3.
Proof.
  intros HT (Hf & Hs & Hj & [l Hl] & (fl & Hfl & Hfa) & (st & Hst & Hsa))
    (Hf' & Hs' & Hj' & [l' Hl'] & (fl' & Hfl' & Hfa') & (st' & Hst' & Hsa')).
  unfold moved. split_and!; [|congruence..|exists (l' ++ l)|exists (fl' ++ fl)|exists (st' ++ st)].
  - intros p Hp. by rewrite Hf', Hf.
  - by rewrite Hl', Hl, app_assoc.
  - rewrite Hfl', Hfl, app_assoc. split; [done|]. by apply Forall_app.
  - rewrite Hst', Hst, app_assoc. split; [done|]. apply Forall_app. split; [|done].
    eapply Forall_impl; [exact Hsa'|]. intros x [? ->]. split; [done|]. apply Hf. auto.
Qed.
Lemma moved_weaken (T T' : string → Prop) spawns w w' :
  (∀ p, T p → T' p) → moved T false w w' → moved T' spawns w w'.
Proof.
  intros HT (Hf & Hs & Hj & Hl & (fl & Hfl & Hfa) & (st & Hst & Hsa)). unfold moved.
  split_and!; [|done..|exists fl|exists st].
  - intros p Hp. apply Hf. auto.
  - split; [done|]. eapply Forall_impl; [exact Hfa|]. auto.
  - split; [done|]. eapply Forall_impl; [exact Hsa|]. by intros x [? _].
Qed.
Lemma step_moved T spawns R (c : runtime_call R) w r w' :
  within_files T spawns R c → step c w r w' → moved T spawns w w'.
Proof.
  assert (Hfile : ∀ path f, T path → only_file path (w_files w) f → moved T spawns w (with_files f w)).
  { intros path f HT Hf. unfold moved. cbn. split_and!; try (exists []; split_and?; done); try done.
    intros p Hp. apply Hf. by intros ->. }
  assert (Hset : ∀ path f, (∀ p, p ≠ path → f !! p = w_files w !! p) → only_file path (w_files w) f)
    by done.
  destruct c; cbn [within_files step]; intros HT Hs; try done;
    try (subst; apply moved_refl); try (destruct Hs as [? ?]; subst; apply moved_refl).
  - subst. unfold moved. cbn. split_and!; try (exists []; split_and?; done); try done. by exists [r].
  - destruct r as [u|e]; destruct Hs as (b & Hb & ->).
    + eapply Hfile; [exact HT|]. intros p Hp. by apply lookup_insert_ne.
    + destruct (Hfile dst b HT Hb) as (Hf & Hst & Hj & Hl & _ & Hsp).
      unfold moved. split_and!; try done. exists [(src, dst)]. split; [done|]. by constructor.
  - destruct r as [u|e].
    + subst. eapply Hfile; [exact HT|]. intros p Hp. by apply lookup_insert_ne.
    + destruct Hs as (f & Hf & ->). by eapply Hfile.
  - destruct r as [u|e]; cbn in Hs; subst; [|apply moved_refl].
    eapply Hfile; [exact HT|]. intros p Hp. by apply lookup_delete_ne.
  - destruct Hs as (f & Hf & ->). by eapply Hfile.
  - destruct HT as [HT Hc]. destruct r as [ch|e]; cbn in Hs; subst w'; [|apply moved_refl].
    unfold moved. cbn. split_and!; try (exists []; split_and?; done); try done.
    eexists [_]. split; [done|]. constructor; [|done]. split; [done|]. unfold command_config.
    by rewrite Hc.
  - destruct r; subst; [|apply moved_refl].
    unfold moved. cbn. split_and!; try (exists []; split_and?; done); done.
  - destruct r; subst; [|apply moved_refl].
    unfold moved. cbn. split_and!; try (exists []; split_and?; done); done.
Qed.

Lemma moved_always {A} T spawns (p : service runtime_call A) w0 w :
  (spawns = true → ¬ T config) → only (within_files T spawns) p → moved T spawns w0 w →
  always (moved T spawns w0) p (λ _, moved T spawns w0) w.
Proof.
  intros HT Hp Hm. assert (PreOrder (moved T spawns)).
  { split; [intros ?; apply moved_refl|]. intros x y z. by apply moved_trans. }
  by apply (only_always _ (within_files T spawns) (moved T spawns) (step_moved T spawns)).
Qed.

(** ** Steps of the logic *)

Lemma always_io {A B} (I : world → Prop) (c : runtime_call (result string A)) g
    (f : A → rprog B) Q (Z : world → Prop) w :
  I w → (∀ e w', step c w (Err e) w' → I w' ∧ Z w') →
  (∀ a w', step c w (Ok a) w' → always I (f a) (ends Q Z) w') →
  always I (io c g ≫= f) (ends Q Z) w.
Proof.
  intros HI He Hf. apply always_bind. apply always_call; [done|].
  intros [a|e] w' Hs; cbn [map_err]; apply always_return.
  - eapply always_here, Hf, Hs.
  - by apply Hf.
  - by eapply He.
  - cbn [ends]. by eapply He.
Qed.
Lemma always_io_end {A} (I : world → Prop) (c : runtime_call (result string A)) g Q
    (Z : world → Prop) w :
  I w → (∀ e w', step c w (Err e) w' → I w' ∧ Z w') →
  (∀ a w', step c w (Ok a) w' → I w' ∧ Q a w') → always I (io c g) (ends Q Z) w.
Proof.
  intros HI He Hf. apply always_call; [done|].
  intros [a|e] w' Hs; cbn [map_err]; apply always_return; cbn [ends];
    first [by eapply He|by eapply Hf].
Qed.
Lemma always_on_err {A} (I : world → Prop) (p : rprog A) h (Q : res A → world → Prop) w :
  always I p (ends (λ a, Q (Ok a)) (λ w', ∀ err, always I (h err) Q w')) w →
  always I (on_err p h) Q w.
Proof.
  intros Hp. apply always_sbind. eapply always_mono; [done| |exact Hp].
  intros [a|e] w' HI HQ; [by apply always_return|by apply HQ].
Qed.
Lemma always_ignored {A B} (I : world → Prop) (p : rprog A) (f : unit → rprog B) Q w :
  always I p (λ _, always I (f tt) Q) w → always I (ignored p ≫= f) Q w.
Proof.
  intros Hp. unfold ignored. apply always_sbind, always_sbind.
  eapply always_mono; [done| |exact Hp]. intros r w' HI HQ. by apply always_return.
Qed.
Lemma always_attempted {A B} (I : world → Prop) (p : rprog A) (f : res A → rprog B) Q w :
  always I p (λ r, always I (f r) Q) w → always I (attempted p ≫= f) Q w.
Proof.
  intros Hp. unfold attempted. apply always_sbind, always_sbind.
  eapply always_mono; [done| |exact Hp]. intros r w' HI HQ. by apply always_return.
Qed.
End World.

Ltac only_shape :=
  lazymatch goal with
  | |- only _ (mbind _ _) => apply only_bind; [|intros ?]
  | |- only _ (service_bind _ _) => apply only_sbind; [|intros ?]
  | |- only _ (pure_step _) => exact I
  | |- only _ (mret _) => exact I
  | |- only _ (Return _) => exact I
  | |- only _ (invoke _) => apply only_call
  | |- only _ (match ?x with _ => _ end) => destruct x
  | |- only _ (io _ _) => unfold io
  | |- only _ (on_err _ _) => unfold on_err
  | |- only _ (ignored _) => unfold ignored
  | |- only _ (attempted _) => unfold attempted
  end.
Create HintDb calls discriminated.
Ltac only_calls := repeat first [solve [auto with calls]|only_shape]; try exact I; try done.

(** ** The programs and what they touch *)
Section Programs.
Context (config : string).
Abbreviation only_in T spawns := (only (within_files config T spawns)).

Lemma only_split T spawns path ps : only_in T spawns (split_managed path ps).
Proof. induction ps as [|p ps IH]; cbn [split_managed]; unfold is_managed; only_calls. Qed.
#[local] Hint Resolve only_split : calls.
Lemma only_managed T spawns path : only_in T spawns (exact_managed_runtime_processes path).
Proof. unfold exact_managed_runtime_processes, singbox_processes. only_calls. Qed.
Lemma only_classify T spawns path : only_in T spawns (classify_runtime_process path).
Proof. unfold classify_runtime_process, classify_processes, singbox_processes. only_calls. Qed.
#[local] Hint Resolve only_managed only_classify : calls.
Lemma only_inspect T spawns path : only_in T spawns (inspect_local_runtime path).
Proof. unfold inspect_local_runtime. only_calls. Qed.
Lemma only_observe T spawns c : only_in T spawns (observe_startup c).
Proof.
  unfold observe_startup. generalize (Z.to_nat (STARTUP_OBSERVATION_SECS * 1000 /
    STARTUP_OBSERVATION_INTERVAL_MS)). intros n. induction n as [|n IH]; cbn [observe_attempts];
    only_calls.
Qed.
Lemma only_validate T spawns binary path : only_in T spawns (validate_singbox_config binary path).
Proof. unfold validate_singbox_config. only_calls. Qed.

Lemma only_spawn_privileged T c :
  List.last (cm_args c) "" = config → only_in T true (spawn_with_temporary_debug_privilege c).
Proof.
  intros Hc. unfold spawn_with_temporary_debug_privilege, spawn_with_token. only_calls.
Qed.
Lemma only_launch canonical paths visible (T : string → Prop) :
  rp_config_path paths = config →
  T (path_join (rp_runtime_root paths) "sing-box.stdout.log") →
  T (path_join (rp_runtime_root paths) "sing-box.stderr.log") →
  only_in T true (launch_singbox canonical paths visible).
Proof.
  intros Hc Hout Herr. unfold launch_singbox. set (c := Build_command _ _ _ _ _ _).
  assert (Hlast : List.last (cm_args c) "" = config) by done. clearbody c.
  assert (Hfinish : ∀ c, List.last (cm_args c) "" = config → only_in T true
    (privileged ← pure_step (managed_tun_debug_privilege_required canonical);
     if privileged : bool then spawn_with_temporary_debug_privilege c
     else io (Spawn c) (λ err, "failed to start sing-box: " +:+ err))).
  { intros c' Hc'. only_calls. by apply only_spawn_privileged. }
  destruct visible; [by apply Hfinish|].
  split; [exact I|]. intros [u|e]; [|by apply Hfinish].
  split; [exact Hout|]. intros [|]; (split; [exact Herr|]; intros [|]; by apply Hfinish).
Qed.

Lemma only_over_config (T : string → Prop) (p : service config_call _) :
  only (λ R c, match c with ReadConfigFile _ => True | WriteConfigFile path _ => T path end) p →
  only_in T false (over_config (A := res ConfigSyncSummary) p).
Proof.
  induction p as [a|R c k IH]; [done|]. cbn. intros [Hc Hk]. split; [by destruct c|]. auto.
Qed.
Lemma only_prepare `{PrettyJson} `{UnicodeLowercase} `{Message WindowsRuntimeState} canonical
    legacy paths candidate (T : string → Prop) :
  T candidate → only_in T false (prepare_candidate canonical legacy paths candidate).
Proof.
  intros HT. unfold prepare_candidate. destruct (is_typed_runtime_state _); [only_calls|].
  apply only_bind; [|done]. apply only_over_config.
  unfold sync_local_config, sync_local_config_from_bindings. only_calls.
Qed.
End Programs.

(** ** The guarded start *)
Section Start.
Context `{PrettyJson} `{UnicodeLowercase} `{Message WindowsRuntimeState}.
Context (same : string → string → bool) (valid : bytes → bool).
Context (canonical : res ProductionDesiredState) (legacy : bytes → option SyncState).
Context (paths : LocalRuntimePaths).
Abbreviation config := (rp_config_path paths).
Abbreviation always := (CrashLogic.always (λ R, @step same valid R)).
Abbreviation moved := (moved config).

Definition backup_path : string :=
  path_join (rp_runtime_root paths) "sing-box.last-known-good.json".
Definition is_candidate (p : string) : Prop := ∃ parent stem nonce,
  path_parent config = Some parent ∧ path_file_name config = Some stem ∧
  p = path_join parent (candidate_name stem nonce).
Definition is_log (p : string) : Prop :=
  p = path_join (rp_runtime_root paths) "sing-box.stdout.log" ∨
  p = path_join (rp_runtime_root paths) "sing-box.stderr.log".
(** The paths the runtime writes are different files. *)
Definition paths_apart : Prop :=
  config ≠ backup_path ∧ ¬ is_log config ∧ ¬ is_log backup_path ∧
  ¬ is_candidate config ∧ ¬ is_candidate backup_path ∧ ¬ is_candidate (rp_state_path paths) ∧
  (∀ p, is_candidate p → ¬ is_log p).

(** The text of a candidate comes from the typed state, if there is one. *)
Definition prepared (w : world) (b : bytes) : Prop :=
  is_typed_runtime_state (rp_state_path paths) = true →
  ∃ raw state, w_files w !! rp_state_path paths = Some raw ∧
    decode_windows_runtime_state raw = Ok state ∧ render_windows_config canonical state = Ok b.

Lemma or_remove_moved {A} T path (p : rprog A) Q w0 w :
  T path → always (moved T false w0) p (ends Q (moved T false w0)) w →
  always (moved T false w0) (or_remove path p) (ends Q (moved T false w0)) w.
Proof.
  intros HT Hp. apply always_on_err. eapply always_mono; [done| |exact Hp].
  intros [a|e] w' HI HQ; [done|]. intros err. apply always_call; [done|]. intros r w2 Hs.
  assert (moved T false w0 w2).
  { eapply moved_trans; [done|exact HI|]. eapply step_moved; [|exact Hs]. exact HT. }
  by apply always_return.
Qed.

Lemma prepare_spec candidate w0 w :
  ¬ is_candidate (rp_state_path paths) → is_candidate candidate → moved is_candidate false w0 w →
  always (moved is_candidate false w0) (prepare_candidate canonical legacy paths candidate)
    (ends (λ _ w', moved is_candidate false w0 w' ∧
       (is_typed_runtime_state (rp_state_path paths) = true →
        ∃ b, w_files w' !! candidate = Some b ∧ prepared w0 b)) (moved is_candidate false w0)) w.
Proof.
  intros Hst Hc Hm. destruct (is_typed_runtime_state (rp_state_path paths)) eqn:Ht.
  2: { eapply always_post; [|apply (moved_always same valid); [done|by apply only_prepare|exact Hm]].
       intros [a|e] w' Hw; cbn [ends]; done. }
  unfold prepare_candidate. rewrite Ht. apply always_io; [done| |].
  { intros e w' [-> _]. done. }
  intros raw w' [-> Hraw]. apply always_pure; [done..|]. intros state Hdec.
  apply always_pure; [done..|]. intros b Hren.
  assert (Hw : ∀ r w', step same valid (WriteFile candidate b) w r w' → moved is_candidate false w0 w').
  { intros r w' Hs. eapply moved_trans; [done|exact Hm|]. eapply step_moved; [|exact Hs]. exact Hc. }
  apply always_io_end; [done| |].
  { intros e w' Hs. split; by eapply Hw. }
  intros a w' Hs. split; [by eapply Hw|]. split; [by eapply Hw|]. intros _. exists b.
  cbn in Hs. subst w'. split; [apply lookup_insert_eq|]. intros _. exists raw, state.
  destruct Hm as (Hf & _). by rewrite <- (Hf _ Hst).
Qed.

(** A staged configuration was accepted by sing-box, and nothing but the candidate was written. *)
Definition is_staged (w0 : world) (staged : StagedConfig) (b : bytes) (w : world) : Prop :=
  is_candidate (sc_candidate_path staged) ∧ sc_backup_path staged = backup_path ∧
  w_files w !! sc_candidate_path staged = Some b ∧ valid b = true ∧ prepared w0 b.

Lemma validate_spec candidate w0 w :
  moved is_candidate false w0 w →
  (is_typed_runtime_state (rp_state_path paths) = true →
   ∃ b, w_files w !! candidate = Some b ∧ prepared w0 b) →
  always (moved is_candidate false w0)
    (validate_singbox_config (rp_singbox_binary_path paths) candidate)
    (ends (λ _ w', moved is_candidate false w0 w' ∧
       ∃ b, w_files w' !! candidate = Some b ∧ valid b = true ∧ prepared w0 b)
       (moved is_candidate false w0)) w.
Proof.
  intros Hm Hp. apply always_io; [done| |].
  { by intros e w' [-> _]. }
  intros out w' [-> (b & Hb & Hv)]. apply always_return; [done|].
  destruct (ck_success out); cbn [ends]; [|done]. split; [done|]. exists b.
  split_and!; [done..|]. intros Ht. destruct (Hp Ht) as (b' & Hb' & Hpre).
  assert (b' = b) as <- by congruence. by apply Hpre.
Qed.

Lemma stage_spec w :
  ¬ is_candidate (rp_state_path paths) →
  always (moved is_candidate false w) (stage_and_validate_config canonical legacy paths)
    (ends (λ staged w', moved is_candidate false w w' ∧ ∃ b, is_staged w staged b w')
       (moved is_candidate false w)) w.
Proof.
  intros Hst. pose proof (moved_refl config is_candidate false w) as Hr.
  apply always_pure; [done..|]. intros parent Hpar%ok_or_Ok.
  apply always_pure; [done..|]. intros stem Hstem%ok_or_Ok.
  apply always_call; [done|]. intros clock w' ->. apply always_pure; [done..|].
  intros nonce Hnonce. set (candidate := path_join parent (candidate_name stem nonce)).
  assert (Hc : is_candidate candidate) by (exists parent, stem, nonce; done).
  assert (Hcopy : ∀ r w', step same valid (CopyFile config candidate) w r w' →
    moved is_candidate false w w').
  { intros r w' Hs. eapply step_moved; [|exact Hs]. exact Hc. }
  apply always_io; [done| |].
  { intros e w' Hs. split; by eapply Hcopy. }
  intros u w1 Hs. pose proof (Hcopy _ _ Hs) as Hw1. clear Hs Hcopy.
  apply always_bind, or_remove_moved; [done|].
  eapply always_post; [|by apply prepare_spec]. intros [_u|e] w2; [|done]. intros [Hw2 Hp2].
  apply always_bind, or_remove_moved; [done|].
  eapply always_post; [|by apply validate_spec]. intros [_v|e] w3; [|done].
  intros [Hw3 (b & Hb & Hv & Hpre)]. apply always_io; [done| |].
  { by intros e w' ->. }
  intros _ w' ->. apply always_return; [done|]. split; [done|]. by exists b.
Qed.

(** A launch that succeeds started a child. *)
Abbreviation anything := (λ _ : world, True).
Definition a_child {A} (r : res A) (w : world) : Prop := is_ok r = true → w_started w ≠ [].
Lemma spawn_token_started token c w : always anything (spawn_with_token token c) a_child w.
Proof.
  apply always_call; [done|]. intros looked w' ->. destruct looked as [luid|e]; [|done].
  apply always_call; [done|]. intros enabled w' ->. apply always_call; [done|].
  intros code w' ->. destruct (negb enabled); [done|]. destruct (code =? 1300); [done|].
  destruct (negb (code =? 0)); [done|].
  apply always_call; [done|]. intros spawned w1 Hs. apply always_call; [done|].
  intros restored w' ->. apply always_call; [done|]. intros code' w' ->.
  destruct (_ || _).
  - destruct spawned as [ch|e]; [|done]. apply always_call; [done|]. intros ? w' ->.
    apply always_call; [done|]. intros ? w' ->. done.
  - apply always_return; [done|]. destruct spawned as [ch|e]; [|done]. intros _.
    cbn in Hs. by subst w1.
Qed.
Lemma launch_started visible w : always anything (launch_singbox canonical paths visible) a_child w.
Proof.
  unfold launch_singbox. set (c := Build_command _ _ _ _ _ _). clearbody c.
  assert (Hfinish : ∀ c w, always anything
    (privileged ← pure_step (managed_tun_debug_privilege_required canonical);
     if privileged : bool then spawn_with_temporary_debug_privilege c
     else io (Spawn c) (λ err, "failed to start sing-box: " +:+ err)) a_child w).
  { clear. intros c w. destruct (managed_tun_debug_privilege_required canonical) as [[]|e]; [| |done].
    - apply always_call; [done|]. intros opened w' ->. destruct opened as [token|e]; [|done].
      change (always anything (service_bind (spawn_with_token token c)
        (λ r, invoke (CloseHandle token) ;; pure_step r)) a_child w).
      apply always_sbind. eapply always_post; [|apply spawn_token_started].
      intros r w' Hr. apply always_call; [done|]. intros u w2 ->. done.
    - apply always_call; [done|]. intros r w' Hs. apply always_return; [done|].
      destruct r as [ch|e]; [|done]. intros _. cbn in Hs. by subst w'. }
  destruct visible; [by apply Hfinish|].
  apply always_call; [done|]. intros [u|e] w1 Hs; [|by apply Hfinish].
  apply always_call; [done|]. intros [|] w2 Hs2; (apply always_call; [done|]);
    intros [|] w3 Hs3; by apply Hfinish.
Qed.

(** The copy that preserves the configuration failed; so did the one that restores it. *)
Definition lost (w : world) : Prop := (config, backup_path) ∈ w_failed w.
Definition unrestored (w : world) : Prop := (backup_path, config) ∈ w_failed w.
Definition kept (c0 : bytes) (w : world) : Prop :=
  w_files w !! config = Some c0 ∨ w_files w !! backup_path = Some c0.

Section Replace.
Context (apart : paths_apart) (c0 b : bytes) (runtime : option ProcessObservation).
Context (seen : list (list process)).

Definition good_start (x : option bytes) (w : world) : Prop :=
  x = Some b ∨ x = Some c0 ∨ lost w ∨ unrestored w.
(** What holds at every point of the replacement *)
Definition guarded (w : world) : Prop :=
  (kept c0 w ∨ lost w) ∧
  Forall (λ pid, ∃ p, runtime = Some p ∧ pid = po_pid p) (w_stopped w) ∧
  Forall (λ x, good_start x w) (w_started w) ∧ seen ⊆ w_listings w.

Lemma failed_mono T spawns e w w' : moved T spawns w w' → e ∈ w_failed w → e ∈ w_failed w'.
Proof. intros (_ & _ & _ & _ & (l & -> & _) & _) He. apply elem_of_app. by right. Qed.
Lemma good_start_mono T spawns x w w' : moved T spawns w w' → good_start x w → good_start x w'.
Proof.
  intros Hm [?|[?|[?|?]]]; [by left|by right; left|do 2 right; left|do 3 right];
    by eapply failed_mono.
Qed.
Lemma guarded_moved (T : string → Prop) spawns w w' :
  ¬ T config → ¬ T backup_path → (spawns = true → good_start (w_files w !! config) w) →
  guarded w → moved T spawns w w' → guarded w'.
Proof.
  intros Hc Hb Hg (Hk & Hs & Hst & Hseen) Hm.
  pose proof Hm as (Hf & Hs' & _ & [ls Hls] & _ & (l & Hl & Hall)). unfold guarded.
  rewrite Hs', Hl, Hls. split_and!; [|done| |intros x Hx; apply elem_of_app; by right; apply Hseen].
  - destruct Hk as [[?|?]|?]; [left; left|left; right|right; by eapply failed_mono];
      by rewrite Hf.
  - apply Forall_app. split.
    + eapply Forall_impl; [exact Hall|]. intros x [Hsp ->]. eapply good_start_mono; eauto.
    + eapply Forall_impl; [exact Hst|]. intros x. by eapply good_start_mono.
Qed.

(** A program that leaves both configurations alone *)
Lemma guarded_always {A} T spawns (p : service runtime_call A) w :
  ¬ T config → ¬ T backup_path → (spawns = true → good_start (w_files w !! config) w) →
  only (within_files config T spawns) p → guarded w →
  always guarded p (λ _ w', guarded w' ∧ moved T spawns w w') w.
Proof.
  intros Hc Hb Hg Hp Hw.
  eapply always_mono; [| |apply (moved_always same valid config T spawns); [done|exact Hp|apply moved_refl]].
  - intros w'. by apply guarded_moved.
  - intros a w' _ Hm. split; [by eapply guarded_moved|done].
Qed.

(** The old configuration is back, unless a copy failed. *)
Definition back (w : world) : Prop := w_files w !! config = Some c0 ∨ lost w ∨ unrestored w.
Lemma back_moved T spawns w w' : ¬ T config → back w → moved T spawns w w' → back w'.
Proof.
  intros HT [Hc|[Hl|Hu]] Hm; [left|right; left|right; right]; [|by eapply failed_mono..].
  destruct Hm as (Hf & _). by rewrite Hf.
Qed.
Lemma back_good w : back w → good_start (w_files w !! config) w.
Proof. intros [?|[?|?]]; [by right; left|by do 2 right; left|by do 3 right]. Qed.

(** A change of the configuration file *)
Lemma guarded_config f w w' :
  only_file config (w_files w) f → (lost w ∨ w_files w !! backup_path = Some c0) →
  w_files w' = f → w_stopped w' = w_stopped w → w_started w' = w_started w →
  w_listings w' = w_listings w → (∃ l, w_failed w' = l ++ w_failed w) → guarded w → guarded w'.
Proof.
  intros Hf Hb Hf' Hs Hst Hls [l Hl] (_ & Hs0 & Hst0 & Hseen). unfold guarded. rewrite Hs, Hst, Hls.
  assert (Hmono : ∀ e, e ∈ w_failed w → e ∈ w_failed w').
  { intros e He. rewrite Hl. apply elem_of_app. by right. }
  split_and!; [|done| |done].
  - destruct Hb as [Hb|Hb]; [right; by apply Hmono|]. left. right. rewrite Hf', Hf; [done|].
    destruct apart as (Hne & _). auto.
  - eapply Forall_impl; [exact Hst0|]. intros x [?|[?|[?|?]]];
      [by left|by right; left|do 2 right; left|do 3 right]; by apply Hmono.
Qed.

Lemma restore_spec staged w :
  sc_backup_path staged = backup_path → guarded w →
  (lost w ∨ w_files w !! backup_path = Some c0) →
  always guarded (restore_last_known_good_config paths staged) (λ _ w', guarded w' ∧ back w') w.
Proof.
  intros Hp Hg Hb. eapply (always_post _ _ _ (ends (λ _ w', guarded w' ∧ back w')
    (λ w', guarded w' ∧ back w'))); [by intros [?|?]|].
  unfold restore_last_known_good_config. rewrite Hp. apply always_io_end; [done| |].
  - intros e w' (f & Hf & ->).
    assert (guarded (with_failed backup_path config (with_files f w))).
    { eapply guarded_config; [exact Hf|done..| |done]. by exists [(backup_path, config)]. }
    split_and!; [done..|]. right. right. apply list_elem_of_here.
  - intros u w' (bb & Hbb & ->).
    assert (guarded (with_files (<[config := bb]> (w_files w)) w)).
    { eapply guarded_config; [|done..| |done]; [|by exists []]. intros p Hne.
      by apply lookup_insert_ne. }
    split_and!; [done..|]. destruct Hb as [Hl|Hb]; [right; by left|]. left. cbn.
    rewrite lookup_insert_eq. congruence.
Qed.

Lemma discard_guarded staged w :
  is_candidate (sc_candidate_path staged) → guarded w →
  always guarded (discard_staged_config staged)
    (λ _ w', guarded w' ∧ moved is_candidate false w w') w.
Proof.
  intros Hc Hg. destruct apart as (_ & _ & _ & Hcc & Hcb & _).
  apply guarded_always; [done..| |done]. unfold discard_staged_config. only_calls.
Qed.
Lemma launch_guarded visible w :
  good_start (w_files w !! config) w → guarded w →
  always guarded (launch_singbox canonical paths visible)
    (λ _ w', guarded w' ∧ moved is_log true w w') w.
Proof.
  intros Hs Hg. destruct apart as (_ & Hlc & Hlb & _).
  apply guarded_always; [done..| |done]. by apply only_launch; [|left|right].
Qed.

Lemma rollback_spec {A} staged err w :
  sc_backup_path staged = backup_path → is_candidate (sc_candidate_path staged) → guarded w →
  (lost w ∨ w_files w !! backup_path = Some c0) →
  always guarded (rollback_failed_transition canonical paths runtime staged err : rprog A)
    (ends (λ _ _, False) back) w.
Proof.
  intros Hp Hcand Hg Hb. destruct apart as (_ & Hlc & Hlb & Hcc & Hcb & _).
  apply always_ignored. eapply always_post; [|by apply restore_spec]. intros _ w1 [Hg1 Hb1].
  apply always_ignored. eapply always_post; [|by apply discard_guarded].
  intros _ w2 [Hg2 Hm2]. pose proof (back_moved _ _ _ _ Hcc Hb1 Hm2) as Hb2.
  assert (Hend : ∀ text w', guarded w' → back w' → always guarded
    (pure_step (Err text) : rprog A) (ends (λ _ _, False) back) w') by done.
  destruct runtime as [p|]; [|by apply Hend].
  apply always_bind, always_attempted.
  eapply always_post; [|apply (guarded_always is_log true); [exact Hlc|exact Hlb|intros _; by apply back_good| |exact Hg2]].
  - intros r w' [Hg' Hm']. apply always_return; [done|]. apply Hend; [done|]. exact (back_moved is_log true w2 w' Hlc Hb2 Hm').
  - apply only_bind; [by apply only_launch; [|left|right]|]. intros c.
    apply only_bind; [apply only_observe|done].
Qed.

Lemma activate_spec staged w :
  sc_backup_path staged = backup_path → is_candidate (sc_candidate_path staged) → guarded w →
  w_files w !! config = Some c0 → w_files w !! sc_candidate_path staged = Some b →
  always guarded (activate_staged_config paths staged)
    (ends (λ _ w', guarded w' ∧ w_files w' !! config = Some b ∧
         w_files w' !! backup_path = Some c0 ∧ w_started w' = w_started w)
       (λ w', guarded w' ∧ (lost w' ∨ w_files w' !! backup_path = Some c0))) w.
Proof.
  intros Hp Hcand Hg Hc Hb. destruct apart as (Hne & _ & _ & Hcc & Hcb & _).
  unfold activate_staged_config. rewrite Hp.
  assert (Hsame : ∀ f w', only_file backup_path (w_files w) f → w_files w' = f →
    w_stopped w' = w_stopped w → w_started w' = w_started w → w_listings w' = w_listings w →
    (∃ l, w_failed w' = l ++ w_failed w) → guarded w' ∧ w_files w' !! config = Some c0).
  { intros f w' Hf Hf' Hs Hst Hls [l Hl]. destruct Hg as (_ & Hs0 & Hst0 & Hseen).
    assert (Hk : w_files w' !! config = Some c0) by (rewrite Hf', Hf; done).
    split; [|done]. unfold guarded. rewrite Hs, Hst, Hls. split_and!; [left; by left|done| |done].
    eapply Forall_impl; [exact Hst0|]. intros x [?|[?|[?|?]]];
      [by left|by right; left|do 2 right; left|do 3 right]; unfold lost, unrestored;
      rewrite Hl; apply elem_of_app; by right. }
  apply always_io; [done| |].
  { intros e w' (f & Hf & ->). 
    destruct (Hsame f (with_failed config backup_path (with_files f w)) Hf) as [Hg' _]; [done..| |].
    { by exists [(config, backup_path)]. }
    split_and!; [done..|]. left. apply list_elem_of_here. }
  intros u w1 (bb & Hbb & ->). assert (bb = c0) as -> by congruence.
  destruct (Hsame (<[backup_path := c0]> (w_files w)) (with_files (<[backup_path := c0]> (w_files w)) w))
    as [Hg1 Hc1]; [by intros q Hq; apply lookup_insert_ne|done..|by exists []|].
  set (w1 := with_files _ _) in *.
  assert (Hb1 : w_files w1 !! backup_path = Some c0) by apply lookup_insert_eq.
  apply always_io_end; [done| |].
  - intros e w' (f & Hf & ->).
    assert (guarded (with_failed (sc_candidate_path staged) config (with_files f w1))).
    { eapply guarded_config; [exact Hf|by right|done..| |done].
      by exists [(sc_candidate_path staged, config)]. }
    split_and!; [done..|]. right. cbn. rewrite Hf; [done|]. auto.
  - intros v w' (b2 & Hb2 & ->). assert (b2 = b) as ->.
    { cbn in Hb2. rewrite lookup_insert_ne in Hb2; [congruence|].
      intros Heq. apply Hcb. by rewrite Heq. }
    assert (guarded (with_files (<[config := b]> (w_files w1)) w1)).
    { eapply (guarded_config (<[config := b]> (w_files w1)) w1); [|by right|done..| |done];
        [|by exists []]. intros q Hq. by apply lookup_insert_ne. }
    split_and!; [done..| | |done]; cbn; [apply lookup_insert_eq|].
    rewrite lookup_insert_ne by done. apply lookup_insert_eq.
Qed.

(** Nothing but the owner is stopped. *)
Lemma stop_spec p w :
  runtime = Some p → guarded w →
  always guarded (stop_process (po_pid p))
    (ends (λ _ w', guarded w' ∧ w_files w' = w_files w ∧ w_started w' = w_started w)
          (λ w', guarded w' ∧ w_files w' = w_files w)) w.
Proof.
  intros Hr Hg. apply always_pure; [done..|]. intros [] _.
  apply always_call; [done|]. intros opened w1 Hs.
  assert (guarded w1 ∧ w_files w1 = w_files w ∧ w_started w1 = w_started w) as (Hg1 & Hf1 & Hst1)
    by (by destruct opened; cbn in Hs; subst w1).
  apply always_pure; [done..|]. intros h Hh%map_err_Ok. subst opened. cbn in Hs.
  apply always_call; [done|]. intros r w2 Hs2. cbn in Hs2.
  assert (guarded w2 ∧ w_files w2 = w_files w ∧ w_started w2 = w_started w) as (Hg2 & Hf2 & Hst2).
  { subst w2 w1. destruct Hg as (Hk & Hsp & Hsa). split_and!; [|done..]. split_and!; [done| |apply Hsa..].
    cbn. rewrite lookup_insert_eq. cbn. constructor; [|done]. by exists p. }
  apply always_call; [done|]. intros waited w' ->.
  assert (Htail : ∀ last_error, always guarded
    (invoke (CloseHandle h) ;; pure_step (if waited =? 0 then Ok tt
       else if waited =? 258 then Err ("managed process pid " +:+ dec (po_pid p)
         +:+ " did not exit within the bounded 5-second wait; refusing replacement")
       else Err ("unable to confirm managed process pid " +:+ dec (po_pid p)
         +:+ " exit; wait result " +:+ hex_text waited +:+ ", Windows error " +:+ dec last_error
         +:+ "; refusing replacement")))
    (ends (λ _ w', guarded w' ∧ w_files w' = w_files w ∧ w_started w' = w_started w)
          (λ w', guarded w' ∧ w_files w' = w_files w)) w2).
  { intros last_error. apply always_call; [done|]. intros u w' ->. apply always_return; [done|].
    destruct (waited =? 0); [done|]. by destruct (waited =? 258). }
  destruct (waited =? 0) eqn:Hw; [by apply (Htail 0)|].
  apply always_call; [done|]. intros e w' ->. by apply Htail.
Qed.

(** The replacement starts the staged configuration, or the old one is back. *)
Definition replaced (w : world) : Prop :=
  w_files w !! config = Some b ∧ ∃ l, w_started w = Some b :: l.

Lemma replace_runtime_spec visible staged w :
  sc_backup_path staged = backup_path → is_candidate (sc_candidate_path staged) → guarded w →
  w_files w !! config = Some c0 → w_files w !! sc_candidate_path staged = Some b →
  w_started w = [] →
  always guarded (replace_runtime canonical paths visible runtime staged)
    (ends (λ _ w', guarded w' ∧ replaced w') back) w.
Proof.
  intros Hp Hcand Hg Hc Hb Hst0. pose proof apart as (Hne & Hlc & Hlb & Hcc & Hcb & _).
  assert (Hroll : ∀ w' err A, guarded w' → (lost w' ∨ w_files w' !! backup_path = Some c0) →
    ∀ Q, always guarded (rollback_failed_transition canonical paths runtime staged err : rprog A)
      (ends Q back) w').
  { intros w' err A Hg' Hb' Q. eapply always_post; [|by apply rollback_spec]. by intros [a|e]. }
  unfold replace_runtime. apply always_bind.
  eapply (always_post _ _ _ (ends (λ _ w', guarded w' ∧ w_files w' = w_files w ∧
    w_started w' = w_started w) back)).
  2: { destruct runtime as [p|] eqn:Hr; [|apply always_return; [done|]; cbn [ends]; done].
       apply always_on_err. eapply always_post; [|by apply stop_spec].
       intros [u|e] w1; [done|]. intros [Hg1 Hf1] err. apply always_ignored.
       eapply always_post; [|by apply discard_guarded]. intros _ w2 [Hg2 Hm2].
       apply always_return; [done|]. cbn [ends]. left. destruct Hm2 as (Hf & _).
       rewrite Hf, Hf1; done. }
  intros [u|e] w1; [|done]. intros (Hg1 & Hf1 & Hs1). apply always_bind, always_on_err.
  eapply always_post; [|apply activate_spec; [done..|by rewrite Hf1|by rewrite Hf1]].
  intros [u2|e] w2; [|intros [? ?] err; by apply Hroll]. intros (Hg2 & Hc2 & Hb2 & Hs2).
  apply always_bind, always_on_err.
  eapply always_post; [|apply (always_and _ _ anything); [apply (launch_guarded visible w2)|apply launch_started]].
  2: { by left. } 2: { done. }
  intros [c|e] w3 [[Hg3 Hm3] Hch].
  2: { intros err. apply Hroll; [done|]. right. destruct Hm3 as (Hf & _). by rewrite Hf. }
  pose proof Hm3 as (Hf3 & _ & _ & _ & _ & (l & Hl & Hall)). rewrite Hs2, Hs1, Hst0, app_nil_r in Hl.
  cbn [ends]. apply always_bind, always_on_err.
  eapply always_post; [|apply (guarded_always is_log false); [done..|apply only_observe|done]].
  intros [u3|e] w4 [Hg4 Hm4]; pose proof Hm4 as (Hf4 & _ & _ & _ & _ & (l' & Hl' & Hall')).
  2: { intros err. apply Hroll; [done|]. right. by rewrite Hf4, Hf3. }
  apply always_return; [done|]. cbn [ends]. split; [done|]. split; [by rewrite Hf4, Hf3|].
  destruct l' as [|x l']; [|by inversion Hall' as [|?? [? _]]].
  destruct l as [|x l]; [by destruct (Hch eq_refl)|]. rewrite Hl', Hl.
  inversion Hall as [|?? [_ ->] _]. exists l. by rewrite Hc2.
Qed.
End Replace.

(** The processes of a listing that run sing-box with the configuration *)
Definition owns (p : ProcessObservation) : bool :=
  match po_config_path p with Some c => same c config | None => false end.
Definition managed_in (l : list process) : list ProcessObservation :=
  List.filter owns (List.filter (λ p, str_contains "sing-box" (to_ascii_lowercase (po_name p)))
    (map process_observation l)).
(** The only owner in a listing of the run *)
Definition sole_owner (w : world) (pid : Z) : Prop :=
  ∃ l, l ∈ w_listings w ∧ map po_pid (managed_in l) = [pid].

Lemma split_spec ps w :
  always (λ w', w' = w) (split_managed config ps)
    (ends (λ mc w', w' = w ∧ fst mc = List.filter owns ps) (λ _, False)) w.
Proof.
  induction ps as [|p ps IH]; [done|]. cbn [split_managed List.filter].
  assert (Hrest : ∀ m : bool, m = owns p → always (λ w', w' = w)
    ('(managed, conflicting) ← split_managed config ps;
     mret (if m : bool then (p :: managed, conflicting) else (managed, p :: conflicting)))
    (ends (λ mc w', w' = w ∧ fst mc = if owns p then p :: List.filter owns ps
                                      else List.filter owns ps) (λ _, False)) w).
  { intros m ->. apply always_bind. eapply always_post; [|exact IH].
    intros [[managed conflicting]|e] w'; [|done]. cbn [ends fst]. intros [-> ->].
    apply always_return; [done|]. cbn [ends]. split; [done|]. by destruct (owns p). }
  assert (Howns : owns p = match po_config_path p with Some c => same c config | None => false end)
    by done. unfold is_managed. destruct (po_config_path p) as [c|]; [|by apply (Hrest false)].
  apply always_call; [done|]. intros m w' [-> ->]. by apply (Hrest (same c config)).
Qed.
Lemma managed_spec T w :
  always (moved T false w) (exact_managed_runtime_processes config)
    (ends (λ m w', moved T false w w' ∧ ∃ l, l ∈ w_listings w' ∧ m = managed_in l) (λ _, False)) w.
Proof.
  apply always_call; [apply moved_refl|]. intros l w' Hs.
  assert (Hm : moved T false w w') by (by eapply (step_moved same valid config T false _ Processes)).
  apply always_bind. eapply always_mono; [| |apply split_spec].
  - by intros w2 ->.
  - intros [[managed conflicting]|e] w2 ->; [|done]. cbn [ends fst]. intros [_ ->].
    apply always_return; [done|]. cbn [ends]. split; [done|]. exists l. split; [|done].
    cbn in Hs. subst w'. apply list_elem_of_here.
Qed.

(** The inspection cannot fail. *)
Definition total {A} (p : rprog A) : Prop := ∀ w, always anything p (λ r _, is_ok r = true) w.
Lemma total_bind {A B} (p : rprog A) (f : A → rprog B) :
  total p → (∀ a, total (f a)) → total (p ≫= f).
Proof.
  intros Hp Hf w. apply always_sbind. eapply always_post; [|apply Hp].
  intros [a|e] w' Ha; [apply Hf|done].
Qed.
Lemma total_split path ps : total (split_managed path ps).
Proof.
  induction ps as [|p ps IH]; cbn [split_managed]; [done|]. apply total_bind.
  - unfold is_managed. by destruct (po_config_path p).
  - intros m. apply total_bind; [done|]. by intros [? ?].
Qed.
Lemma total_inspect path : total (inspect_local_runtime path).
Proof.
  assert (Hps : total singbox_processes) by done.
  apply total_bind; [|intros managed; apply total_bind; [|done]];
    (apply total_bind; [done|]; intros ps; apply total_bind; [apply total_split|by intros [? ?]]).
Qed.

(** At every point of a start: the last configuration is on the disk, unless the copy that
    preserves it failed; only an explicit restart stops a process, and only the sole owner of the
    configuration; every child was started with a configuration that sing-box accepted, prepared
    from the state, or with the old one, unless a copy of the rollback failed. *)
Definition start_guard (restart : bool) (c0 : bytes) (w0 w : world) : Prop :=
  (kept c0 w ∨ lost w) ∧
  (∀ pid, pid ∈ w_stopped w → restart = true ∧ sole_owner w pid) ∧
  (∀ x, x ∈ w_started w → (∃ b, x = Some b ∧ valid b = true ∧ prepared w0 b) ∨
     x = Some c0 ∨ lost w ∨ unrestored w).
(** A success left a running owner alone, or started a configuration that was accepted and
    prepared from the state; an error leaves the old configuration, unless a copy failed. *)
Definition succeeded (restart : bool) (c0 : bytes) (w0 w : world) : Prop :=
  (restart = false ∧ (∃ pid, sole_owner w pid) ∧
   w_files w !! config = Some c0 ∧ w_stopped w = [] ∧ w_started w = []) ∨
  ∃ b l, w_files w !! config = Some b ∧ valid b = true ∧ prepared w0 b ∧
    w_started w = Some b :: l.
Definition start_result (restart : bool) (c0 : bytes) (w0 : world)
    (r : res RuntimeOperationResult) (w : world) : Prop :=
  match r with Ok _ => succeeded restart c0 w0 w | Err _ => back c0 w end.

Section Whole.
Context (apart : paths_apart) (c0 : bytes) (w : world).
Context (Hc0 : w_files w !! config = Some c0) (Hstopped : w_stopped w = [])
  (Hstarted : w_started w = []).

(** Before the replacement: only candidates were written. *)
Lemma untouched w' :
  moved is_candidate false w w' →
  w_files w' !! config = Some c0 ∧ w_stopped w' = [] ∧ w_started w' = [].
Proof.
  intros (Hf & Hs & _ & _ & _ & (l & Hl & Hall)). destruct apart as (_ & _ & _ & Hcc & _).
  split_and!; [by rewrite Hf|by rewrite Hs|]. rewrite Hl, Hstarted, app_nil_r.
  destruct l as [|x l]; [done|]. by inversion Hall as [|?? [? _]].
Qed.
Lemma untouched_guard restart w' : moved is_candidate false w w' → start_guard restart c0 w w'.
Proof.
  intros (Hc & Hs & Hst)%untouched. unfold start_guard. rewrite Hs, Hst.
  split_and!; [left; by left|set_solver..].
Qed.
Lemma untouched_error w' : moved is_candidate false w w' → back c0 w'.
Proof. intros (Hc & _)%untouched. by left. Qed.

(** The guard of the replacement is the one of the start. *)
Lemma guarded_guard restart b runtime l w' :
  valid b = true → prepared w b → runtime = head (managed_in l) →
  (length (managed_in l) ≤ 1)%nat → existing_owner_for_noop runtime restart = None →
  guarded c0 b runtime [l] w' → start_guard restart c0 w w'.
Proof.
  intros Hv Hp Hr Hlen Hno (Hk & Hs & Hst & Hseen). split_and!; [done| |].
  - intros pid Hpid. rewrite Forall_forall in Hs. destruct (Hs pid Hpid) as (p & Hrp & ->).
    subst runtime. split.
    + rewrite Hrp in Hno. by destruct restart.
    + exists l. split; [apply Hseen, list_elem_of_here|].
      destruct (managed_in l) as [|q [|]]; cbn in *; [done| |lia]. by injection Hrp as ->.
  - intros x Hx. rewrite Forall_forall in Hst. destruct (Hst x Hx) as [?|[?|[?|?]]]; eauto 8.
Qed.

Abbreviation whole restart p := (always (start_guard restart c0 w) p (ends (λ _, succeeded restart c0 w) (back c0))).

Lemma whole_pure {A B} restart (r : res A) (f : A → rprog B) w' :
  moved is_candidate false w w' → (∀ a, r = Ok a → whole restart (f a) w') →
  whole restart (pure_step r ≫= f) w'.
Proof.
  intros Hm Hf. apply always_pure; [by apply untouched_guard|by apply (untouched_error w')|done].
Qed.

Lemma transition_spec {B} restart visible runtime l w1 (f : child → LocalSingboxState → B) :
  moved is_candidate false w w1 → l ∈ w_listings w1 → runtime = head (managed_in l) →
  (length (managed_in l) ≤ 1)%nat → existing_owner_for_noop runtime restart = None →
  whole restart
    (staged ← stage_and_validate_config canonical legacy paths;
     started ← replace_runtime canonical paths visible runtime staged;
     ignored (discard_staged_config staged) ;;
     local ← inspect_local_runtime config;
     mret (f started local)) w1.
Proof.
  intros Hm Hl Hr Hlen Hno. pose proof apart as (_ & Hlc & _ & Hcc & Hcb & Hst & _).
  apply always_bind. eapply always_mono; [| |by apply (stage_spec w1)].
  { intros w2 Hm2. apply untouched_guard. by eapply moved_trans. }
  intros [staged|e] w2 _; cbn [ends].
  2: { intros Hm2. apply (untouched_error w2). by eapply moved_trans. }
  intros [Hm2 (b & Hcand & Hback & Hb & Hv & Hpre)].
  assert (Hm02 : moved is_candidate false w w2) by (by eapply moved_trans).
  destruct (untouched w2 Hm02) as (Hc2 & Hs2 & Hst2).
  assert (Hpre0 : prepared w b).
  { intros Ht. destruct (Hpre Ht) as (raw & st & Hraw & Hrest). exists raw, st.
    split; [|done]. destruct Hm as (Hf & _). by rewrite <- (Hf _ Hst). }
  assert (Hg2 : guarded c0 b runtime [l] w2).
  { unfold guarded. rewrite Hs2, Hst2. split_and!; [left; by left|constructor..|].
    intros x ->%list_elem_of_singleton. destruct Hm2 as (_ & _ & _ & [ls ->] & _).
    apply elem_of_app. by right. }
  eapply (always_mono _ (guarded c0 b runtime [l])); [| |apply always_bind].
  { intros w'. by apply guarded_guard. }
  { intros r w' _ HQ. exact HQ. }
  eapply always_post; [|by apply replace_runtime_spec]. intros [c|e] w3; cbn [ends]; [|done].
  intros [Hg3 (Hc3 & started & Hst3)]. apply always_ignored.
  eapply always_post; [|by apply discard_guarded]. intros _ w4 [Hg4 Hm4].
  apply always_bind. eapply always_post; [|apply (always_and _ _ anything);
    [apply (guarded_always c0 b runtime [l] is_candidate false); [done..|apply only_inspect|done]
    |apply total_inspect]].
  intros [local|e] w5 [[Hg5 Hm5] Hok]; [|done]. apply always_return; [done|]. right.
  assert (Hm35 : moved is_candidate false w3 w5) by (by eapply moved_trans).
  destruct Hm35 as (Hf & _ & _ & _ & _ & (new & Hnew & Hall)).
  destruct new as [|x new]; [|by inversion Hall as [|?? [? _]]].
  exists b, started. split_and!; [by rewrite Hf|done..|]. by rewrite Hnew.
Qed.

Lemma noop_or_replace_spec visible restart l w1 :
  moved is_candidate false w w1 → l ∈ w_listings w1 → (length (managed_in l) ≤ 1)%nat →
  whole restart (noop_or_replace canonical legacy paths visible restart (head (managed_in l))) w1.
Proof.
  intros Hm Hl Hlen. unfold noop_or_replace.
  destruct (existing_owner_for_noop _ restart) as [p|] eqn:Hno.
  - apply always_bind. eapply always_mono; [| |apply (moved_always same valid config is_candidate
      false _ w1 w1 ltac:(done) (only_inspect config is_candidate false config)); apply moved_refl].
    { intros w2 Hm2. apply untouched_guard. by eapply moved_trans. }
    intros [local|e] w2 _ Hm2; assert (Hm02 : moved is_candidate false w w2)
      by (by eapply moved_trans); [|by apply untouched_error].
    apply always_return; [by apply untouched_guard|]. left. destruct restart; [done|].
    split; [done|]. split; [|by apply untouched]. exists (po_pid p), l.
    split; [destruct Hm2 as (_ & _ & _ & [ls ->] & _); apply elem_of_app; by right|].
    cbn in Hno. destruct (managed_in l) as [|q [|]]; cbn in *; [done| |lia]. by injection Hno as ->.
  - apply always_call; [by apply untouched_guard|]. intros found w' ->.
    apply whole_pure; [done|]. intros [] _.
    by apply (transition_spec restart visible _ l w1 (λ started local, _)).
Qed.

Lemma start_spec visible restart :
  whole restart (start_local_runtime_with_policy canonical legacy paths visible restart) w.
Proof.
  apply always_bind. eapply always_mono; [| |apply (managed_spec is_candidate w)].
  { apply untouched_guard. }
  intros [managed|e] w1 _; [|done]. intros [Hm1 (l & Hl & ->)].
  apply whole_pure; [done|]. intros [] Hlen%fail_if_Ok%Nat.ltb_ge.
  apply always_bind. eapply always_mono; [| |apply (moved_always same valid config is_candidate
    false _ w1 w1 ltac:(done) (only_classify config is_candidate false config)); apply moved_refl].
  { intros w2 Hm2. apply untouched_guard. by eapply moved_trans. }
  intros [c|e] w2 _ Hm2; assert (Hm02 : moved is_candidate false w w2) by (by eapply moved_trans).
  2: { by apply (untouched_error w2). }
  assert (Hl2 : l ∈ w_listings w2).
  { destruct Hm2 as (_ & _ & _ & [ls ->] & _). apply elem_of_app. by right. }
  pose proof (noop_or_replace_spec visible restart l w2 Hm02 Hl2 Hlen) as Htail.
  assert (Herr : ∀ e, whole restart (Return (Err e) : rprog RuntimeOperationResult) w2).
  { intros e. apply always_return; [by apply untouched_guard|by apply (untouched_error w2)]. }
  destruct c as [p|ps|]; [exact Htail| |exact Htail].
  destruct (proxy_only_external_coexistence_allowed canonical paths) as [[]|e];
    [exact Htail|apply Herr..].
Qed.
End Whole.

(** C19: At every point of every start or restart of the local runtime, so wherever it
    is interrupted and whichever calls fail, the last configuration is in the active
    file or in the backup, unless the copy that makes the backup failed; only an
    explicit restart stops a process, and only the sole process that runs the managed
    configuration; every child was started with a configuration that sing-box accepted
    and that was prepared from the runtime state, or with the last one, unless a copy
    of the rollback failed. *)
Theorem start_keeps_configuration visible restart c0 w w' :
  paths_apart → w_files w !! config = Some c0 → w_stopped w = [] → w_started w = [] →
  during (λ R, @step same valid R)
    (start_local_runtime_with_policy canonical legacy paths visible restart) w w' →
  start_guard restart c0 w w'.
Proof.
  intros Ha Hc Hs Hst. apply always_during with (1 := start_spec Ha c0 w Hc Hs Hst visible restart).
Qed.

(** ** A backup that fails *)

(** The active file is the backup, whatever that holds, and children were started with it;
    unless the copy back failed as well. *)
Definition fated (w : world) : Prop :=
  unrestored w ∨
  w_files w !! config = w_files w !! backup_path ∧
  Forall (λ x, x = w_files w !! config) (w_started w).
Definition overwritten {A} (r : res A) (w : world) : Prop :=
  lost w → is_err r = true ∧ fated w.

Section Overwritten.
Context (apart : paths_apart).

Lemma moved_not_lost (T : string → Prop) spawns w w' :
  ¬ T backup_path → moved T spawns w w' → ¬ lost w → ¬ lost w'.
Proof using Type.
  intros HT (_ & _ & _ & _ & (l & Hl & Hall) & _) Hw Hw'. apply Hw. unfold lost in *.
  rewrite Hl in Hw'. apply elem_of_app in Hw' as [Hin|?]; [|done].
  rewrite Forall_forall in Hall. by destruct (HT (Hall _ Hin)).
Qed.
Lemma moved_fated (T : string → Prop) spawns w w' :
  ¬ T config → ¬ T backup_path → moved T spawns w w' → fated w → fated w'.
Proof using Type.
  intros Hc Hb Hm [Hu|[Hf Hs]]; [left; by eapply failed_mono|right].
  destruct Hm as (Hff & _ & _ & _ & _ & (l & Hl & Hall)). rewrite !Hff by done. split; [done|].
  rewrite Hl. apply Forall_app. split; [|done]. eapply Forall_impl; [exact Hall|]. by intros x [_ ->].
Qed.
Lemma moved_overwritten {A} (T : string → Prop) spawns w w' (r : res A) :
  ¬ T backup_path → moved T spawns w w' → ¬ lost w → overwritten r w'.
Proof using Type. intros HT Hm Hw Hl. by destruct (moved_not_lost T spawns w w' HT Hm Hw). Qed.

(** A program that writes neither configuration *)
Lemma aside {A} T spawns (p : service runtime_call A) w :
  ¬ T config → only (within_files config T spawns) p →
  always anything p (λ _ w', moved T spawns w w') w.
Proof using Type.
  intros Hc Hp. eapply always_mono; [done| |by apply (moved_always same valid config T spawns p w w);
    [|done|apply moved_refl]]. done.
Qed.

(** The part of the rollback after the copy back *)
Lemma rollback_rest {A} (P : world → Prop) (runtime : option ProcessObservation) staged err w :
  is_candidate (sc_candidate_path staged) →
  (∀ T spawns w1 w2, ¬ T config → ¬ T backup_path → moved T spawns w1 w2 → P w1 → P w2) → P w →
  always anything
    (ignored (discard_staged_config staged) ;;
     rollback ← match runtime with
       | Some _ =>
           restarted ← attempted (c ← launch_singbox canonical paths false;
                                  observe_startup c ;; mret (ch_pid c));
           mret match restarted with
           | Ok pid => "previous local runtime restored (pid " +:+ dec pid +:+ ")"
           | Err err => "automatic rollback also failed: " +:+ err
           end
       | None => mret "no previous local runtime existed to restore"
       end;
     pure_step (Err ("guarded local restart failed: " +:+ err +:+ "; " +:+ rollback)) : rprog A)
    (λ r w', is_err r = true ∧ P w') w.
Proof using apart.
  intros Hcand Hmono HP. destruct apart as (_ & Hlc & Hlb & Hcc & Hcb & _).
  apply always_ignored. eapply always_post; [|apply (aside is_candidate false); [done|]].
  2: { unfold discard_staged_config. only_calls. }
  intros r1 w1 Hm1. cbn beta in Hm1. pose proof (Hmono _ _ _ _ Hcc Hcb Hm1 HP) as HP1.
  destruct runtime as [p|]; [|by apply always_return].
  apply always_sbind, always_attempted.
  eapply always_post; [|apply (aside is_log true); [exact Hlc|]].
  - intros r w2 Hm2. apply always_return; [done|]. apply always_return; [done|].
    split; [done|]. exact (Hmono is_log true w1 w2 Hlc Hlb Hm2 HP1).
  - apply only_bind; [by apply only_launch; [|left|right]|]. intros c.
    apply only_bind; [apply only_observe|done].
Qed.
Lemma rollback_overwrites {A} runtime staged err w :
  sc_backup_path staged = backup_path → is_candidate (sc_candidate_path staged) →
  w_started w = [] →
  always anything (rollback_failed_transition canonical paths runtime staged err : rprog A)
    (λ r w', is_err r = true ∧ fated w') w.
Proof using apart.
  intros Hp Hcand Hst. unfold rollback_failed_transition. apply always_ignored.
  unfold restore_last_known_good_config. rewrite Hp. apply always_call; [done|].
  intros copied w1 Hs. apply always_return; [done|].
  apply rollback_rest; [done|exact moved_fated|].
  destruct copied as [u|e]; destruct Hs as (x & Hx & ->).
  - right. cbn. rewrite Hst, lookup_insert_eq. split; [|done].
    rewrite lookup_insert_ne by (destruct apart as [Hne _]; auto). done.
  - left. apply list_elem_of_here.
Qed.
Lemma rollback_not_lost {A} runtime staged err w :
  sc_backup_path staged = backup_path → is_candidate (sc_candidate_path staged) → ¬ lost w →
  always anything (rollback_failed_transition canonical paths runtime staged err : rprog A)
    (λ r w', is_err r = true ∧ ¬ lost w') w.
Proof using apart.
  intros Hp Hcand Hl. unfold rollback_failed_transition. apply always_ignored.
  unfold restore_last_known_good_config. rewrite Hp. apply always_call; [done|].
  intros copied w1 Hs. apply always_return; [done|].
  apply rollback_rest; [done| |].
  { intros T spawns w2 w3 _ HT Hm Hw2. by eapply moved_not_lost. }
  destruct copied as [u|e]; destruct Hs as (x & Hx & ->); [done|].
  unfold lost. cbn. intros [[= Hc _]|?]%elem_of_cons; [|done]. by destruct apart as [Hne _].
Qed.

(** The stop of a process copies and starts nothing. *)
Lemma stop_quiet pid w :
  always anything (stop_process pid)
    (λ _ w', w_failed w' = w_failed w ∧ w_started w' = w_started w) w.
Proof using Type.
  set (stops := λ R (c : runtime_call R), match c with
    | OpenProcess _ | TerminateProcess _ | WaitForSingleObject _ _ | GetLastError
    | CloseHandle _ => True | _ => False end).
  set (Rel := λ w w', w_failed w' = w_failed w ∧ w_started w' = w_started w).
  assert (PreOrder Rel). { split; [done|]. intros x y z [] []. split; congruence. }
  assert (Hstep : ∀ R (c : runtime_call R) w r w', stops R c → step same valid c w r w' → Rel w w').
  { intros R c w1 r w2 Hc Hs. destruct c; try done; cbn in Hs; try (by subst).
    by destruct r; subst. }
  eapply always_mono; [done| |apply (only_always _ stops Rel Hstep (stop_process pid) w w);
    [unfold stop_process; only_calls|done]]. done.
Qed.

Lemma replace_overwrites visible runtime staged w :
  sc_backup_path staged = backup_path → is_candidate (sc_candidate_path staged) → ¬ lost w →
  w_started w = [] →
  always anything (replace_runtime canonical paths visible runtime staged) overwritten w.
Proof using apart.
  intros Hp Hcand Hl Hst. pose proof apart as (Hne & Hlc & Hlb & Hcc & Hcb & _).
  assert (Hclean : ∀ A B (p : rprog A) (f : A → rprog B) T spawns w1, ¬ T config → ¬ T backup_path →
    only (within_files config T spawns) p → ¬ lost w1 →
    (∀ a w2, ¬ lost w2 → always anything (f a) overwritten w2) →
    always anything (or_rollback canonical paths runtime staged p ≫= f) overwritten w1).
  { intros A B p f T spawns w1 HTc HTb Hpp Hl1 Hf. apply always_sbind, always_on_err.
    eapply always_post; [|by apply (aside T spawns p w1)]. intros [a|e] w2 Hm2;
      assert (¬ lost w2) as Hl2 by (by eapply moved_not_lost); [by apply Hf|]. intros err.
    eapply always_post; [|by apply rollback_not_lost]. intros [a|e2] w3 [He Hl3]; [done|].
    apply always_return; [done|]. by intros ?. }
  unfold replace_runtime. apply always_sbind.
  eapply (always_post _ _ _ (λ r w', ¬ lost w' ∧ (is_ok r = true → w_started w' = []))).
  2: { destruct runtime as [p|]; [|by apply always_return].
       apply always_on_err. eapply (always_post _ _ _ (λ _ w', w_failed w' = w_failed w ∧ w_started w' = w_started w)).
       - intros [u|e] w1 [Hf1 Hs1]; unfold lost; cbn [ends]; rewrite ?Hf1, ?Hs1; [done|]. intros err.
         apply always_ignored. eapply always_post; [|apply (aside is_candidate false); [done|]].
         2: { unfold discard_staged_config. only_calls. }
         intros r2 w2 Hm2. cbn beta in Hm2. apply always_return; [done|]. split; [|done].
         eapply moved_not_lost; [exact Hcb|exact Hm2|]. unfold lost. by rewrite Hf1.
       - apply stop_quiet. }
  intros [[]|e] w1 [Hl1 Hs1]; [|apply always_return; [done|by intros ?]]. specialize (Hs1 eq_refl).
  apply always_sbind, always_on_err. unfold activate_staged_config. rewrite Hp.
  apply always_call; [done|]. intros copied w2 Hs. destruct copied as [u|e]; destruct Hs as (x & Hx & ->).
  2: { apply always_return; [done|]. intros err. eapply always_post; [|by apply rollback_overwrites].
       intros [u|e2] w3 [He Hfa]; [done|]. apply always_return; [done|]. by intros _. }
  apply always_call; [done|]. intros copied w3 Hs.
  assert (¬ lost w3) as Hl3.
  { destruct copied as [v|e]; destruct Hs as (y & Hy & ->); [done|].
    unfold lost. cbn. intros [[= _ Hc]|?]%elem_of_cons; [|done]. by destruct Hne. }
  destruct copied as [v|e]; (apply always_return; [done|]); cbn [map_err ends].
  2: { intros err. eapply always_post; [|by apply rollback_not_lost]. intros [a|e2] w4 [He Hl4]; [done|].
       apply always_return; [done|]. by intros ?. }
  eapply (Hclean _ _ _ _ is_log true); [done..|by apply only_launch; [|left|right]|done|].
  intros c w4 Hl4. apply (Hclean _ _ _ _ is_log false); [done..|apply only_observe|done|].
  intros _ w5 Hl5. apply always_return; [done|]. by intros ?.
Qed.
(** What writes candidates only *)
Lemma overwritten_bind {A B} (p : rprog A) (f : A → rprog B) w :
  only (within_files config is_candidate false) p → ¬ lost w → w_started w = [] →
  (∀ a w', ¬ lost w' → w_started w' = [] → always anything (f a) overwritten w') →
  always anything (p ≫= f) overwritten w.
Proof using apart.
  intros Hp Hl Hst Hf. destruct apart as (_ & _ & _ & Hcc & Hcb & _). apply always_sbind.
  eapply always_post; [|by apply (aside is_candidate false p w)]. intros res w' Hm. cbn beta in Hm.
  assert (¬ lost w') as Hl' by (by eapply moved_not_lost).
  assert (w_started w' = []) as Hst'.
  { destruct Hm as (_ & _ & _ & _ & _ & (l & -> & Hall)). rewrite Hst, app_nil_r.
    destruct l as [|x l]; [done|]. by inversion Hall as [|?? [? _]]. }
  destruct res as [a|e]; [by apply Hf|]. apply always_return; [done|]. by intros ?.
Qed.

Lemma transition_overwrites {B} visible runtime w (f : child → LocalSingboxState → B) :
  ¬ lost w → w_started w = [] →
  always anything
    (staged ← stage_and_validate_config canonical legacy paths;
     started ← replace_runtime canonical paths visible runtime staged;
     ignored (discard_staged_config staged) ;;
     local ← inspect_local_runtime config;
     mret (f started local)) overwritten w.
Proof using apart.
  intros Hl Hst. pose proof apart as (_ & _ & _ & Hcc & Hcb & Hcs & _). apply always_sbind.
  eapply (always_mono _ (moved is_candidate false w)); [done| |by apply (stage_spec w)].
  intros [staged|e] w1 Hm Hpost.
  2: { apply always_return; [done|]. eapply moved_overwritten; [exact Hcb|exact Hm|done]. }
  destruct Hpost as [_ (b & Hcand & Hback & _)].
  assert (¬ lost w1) as Hl1 by (by eapply moved_not_lost).
  assert (w_started w1 = []) as Hst1.
  { destruct Hm as (_ & _ & _ & _ & _ & (l & -> & Hall)). rewrite Hst, app_nil_r.
    destruct l as [|x l]; [done|]. by inversion Hall as [|?? [? _]]. }
  apply always_sbind. eapply always_post; [|by apply replace_overwrites].
  intros [c|e] w2 Hw2; [|by apply always_return].
  assert (¬ lost w2) as Hl2 by (intros Hl2; by destruct (Hw2 Hl2)).
  apply always_ignored. eapply always_post; [|apply (aside is_candidate false); [done|]].
  2: { unfold discard_staged_config. only_calls. }
  intros r3 w3 Hm3. cbn beta in Hm3. assert (¬ lost w3) as Hl3 by (by eapply moved_not_lost).
  apply always_sbind. eapply always_post; [|apply (aside is_candidate false); [done|apply only_inspect]].
  intros [local|e] w4 Hm4; cbn beta in Hm4; assert (¬ lost w4) by (by eapply moved_not_lost);
    (apply always_return; [done|]); by intros ?.
Qed.

Lemma start_overwrites visible restart w :
  ¬ lost w → w_started w = [] →
  always anything (start_local_runtime_with_policy canonical legacy paths visible restart)
    overwritten w.
Proof using apart.
  intros Hl Hst. apply overwritten_bind; [apply only_managed|done..|]. intros managed w1 Hl1 Hst1.
  apply overwritten_bind; [done..|]. intros _ w2 Hl2 Hst2.
  apply overwritten_bind; [apply only_classify|done..|]. intros c w3 Hl3 Hst3.
  apply overwritten_bind; [by destruct c; only_calls|done..|]. intros _ w4 Hl4 Hst4.
  unfold noop_or_replace. destruct (existing_owner_for_noop _ _) as [p|].
  - apply overwritten_bind; [apply only_inspect|done..|]. intros local w5 Hl5 _.
    apply always_return; [done|]. by intros ?.
  - apply overwritten_bind; [done..|]. intros found w5 Hl5 Hst5.
    apply overwritten_bind; [done..|]. intros _ w6 Hl6 Hst6.
    by apply (transition_overwrites visible _ w6 (λ started local, _)).
Qed.
End Overwritten.

(** C22: When the copy of the active configuration into the backup fails, the rollback
    of a start or restart overwrites the active configuration, which nothing had
    touched yet. Whatever else the run meets: if the copy back succeeds and the backup
    holds something other than the last configuration, such as an older one, the start
    fails, the last configuration is in neither file, the active one is the backup,
    and every child the run started was started with that. *)
Theorem failed_backup_loses_configuration visible restart c0 old w r w' :
  paths_apart → w_files w !! config = Some c0 → w_started w = [] → w_failed w = [] →
  returns (λ R, @step same valid R)
    (start_local_runtime_with_policy canonical legacy paths visible restart) w r w' →
  (config, backup_path) ∈ w_failed w' → (backup_path, config) ∉ w_failed w' →
  w_files w' !! backup_path = Some old → old ≠ c0 →
  is_err r = true ∧ w_files w' !! config = Some old ∧ ¬ kept c0 w' ∧
  Forall (λ x, x = Some old) (w_started w').
Proof.
  intros Ha Hc Hst Hf Hr Hlost Hres Hold Hne.
  assert (¬ lost w) as Hl by (unfold lost; rewrite Hf; by apply not_elem_of_nil).
  destruct (always_returns _ _ _ _ _ _ _ (start_overwrites Ha visible restart w Hl Hst) Hr Hlost)
    as [He [?|[Hcb Hs]]]; [done|]. rewrite Hold in Hcb. rewrite Hcb in Hs. split_and!; [done..| |done].
  unfold kept. intros [Hk|Hk]; congruence.
Qed.

(** C20: A start of the local runtime that succeeds found the sole owner running and
    changed nothing, which only a plain start does, or the active configuration is one
    that sing-box accepted, prepared from the runtime state, and a child was started
    with it. A start that fails leaves the configuration as it was, unless a copy
    failed that preserves or restores it. *)
Theorem start_outcome visible restart c0 w r w' :
  paths_apart → w_files w !! config = Some c0 → w_stopped w = [] → w_started w = [] →
  returns (λ R, @step same valid R)
    (start_local_runtime_with_policy canonical legacy paths visible restart) w r w' →
  start_result restart c0 w r w'.
Proof.
  intros Ha Hc Hs Hst Hr.
  pose proof (always_returns _ _ _ _ _ _ _ (start_spec Ha c0 w Hc Hs Hst visible restart) Hr) as HQ.
  by destruct r.
Qed.
End Start.

(** ** The job of the controller *)
Section Job.
Context `{PrettyJson}.
Context (same : string → string → bool) (valid : bytes → bool).
Context (canonical : res ProductionDesiredState) (size_of align_of : native_type → Z).
Abbreviation always := (CrashLogic.always (λ R, @step same valid R)).

(** The job the controller keeps, and the children that were bound to one *)
Definition job_state (w : world) : option positive * list child := (w_job w, w_bound w).
Definition keeps_job R (c : runtime_call R) : Prop :=
  match c with StoreJob _ | AssignProcessToJob _ _ => False | _ => True end.
Lemma step_keeps_job R (c : runtime_call R) w r w' :
  keeps_job R c → step same valid c w r w' → job_state w = job_state w'.
Proof.
  destruct c; cbn [keeps_job step]; try done; intros _ Hs; repeat
    match goal with
    | H : _ ∧ _ |- _ => destruct H
    | H : ∃ _, _ |- _ => destruct H
    | H : match ?r with _ => _ end |- _ => destruct r
    | H : _ = if is_ok ?r then _ else _ |- _ => destruct r; cbn in H
    end; by subst.
Qed.
Lemma keeps_always {A} (p : service runtime_call A) w0 w :
  only keeps_job p → job_state w0 = job_state w →
  always (λ w', job_state w0 = job_state w') p (λ _ w', job_state w0 = job_state w') w.
Proof.
  assert (PreOrder (λ w w', job_state w = job_state w')).
  { split; [by intros ?|]. intros x y z Hxy Hyz. by etrans. }
  apply (only_always _ keeps_job (λ w w', job_state w = job_state w') step_keeps_job).
Qed.

(** With a job already there, the program fails and leaves it, and binds no child. *)
Abbreviation refuses p w := (always (λ w', job_state w = job_state w') p
  (λ r w', is_err r = true ∧ job_state w = job_state w') w).
Lemma refuses_bind {A B} (p : rprog A) (f : A → rprog B) w :
  only keeps_job p → (∀ a w', job_state w = job_state w' → refuses (f a) w') → refuses (p ≫= f) w.
Proof.
  intros Hp Hf. apply always_sbind. eapply always_mono; [| |by apply (keeps_always p w w)]; [done|].
  intros [a|e] w' _ Hw; [|by apply always_return].
  eapply always_mono; [| |by apply (Hf a w')]; cbn beta; intros; rewrite Hw; done.
Qed.

Lemma keeps_identity : only keeps_job (observe_identity size_of align_of).
Proof. unfold observe_identity. only_calls. Qed.
Lemma keeps_reject {A} before c e :
  only keeps_job (reject_started size_of align_of before c e : rprog A).
Proof.
  unfold reject_started. apply only_bind; [done|]. intros killed.
  apply only_bind; [by destruct killed|]. intros stopped.
  apply only_bind; [|done]. apply only_sbind; [|done]. apply only_bind; [apply keeps_identity|done].
Qed.
Lemma reject_refuses {A} before c e w :
  refuses (reject_started size_of align_of before c e : rprog A) w.
Proof.
  unfold reject_started. apply refuses_bind; [done|]. intros killed w1 _.
  apply refuses_bind; [by destruct killed|]. intros stopped w2 _.
  apply refuses_bind; [|intros restored w3 _; by apply always_return].
  apply only_sbind; [|done]. apply only_bind; [apply keeps_identity|done].
Qed.
Lemma keeps_launch paths visible : only keeps_job (launch_singbox canonical paths visible).
Proof.
  unfold launch_singbox, attach_runtime_logs, attach_log, spawn_with_temporary_debug_privilege,
    spawn_with_token. only_calls.
Qed.
Lemma keeps_split path ps : only keeps_job (split_managed path ps).
Proof. induction ps as [|p ps IH]; cbn [split_managed]; unfold is_managed; only_calls. Qed.
Lemma keeps_classify path : only keeps_job (classify_runtime_process path).
Proof. do 2 (apply only_bind; [first [done|apply keeps_split]|intros ?]). by case_match. Qed.
Lemma keeps_inspect path : only keeps_job (inspect_local_runtime path).
Proof.
  apply only_bind; [|intros managed; apply only_bind; [apply keeps_classify|done]].
  do 2 (apply only_bind; [first [done|apply keeps_split]|intros ?]). by case_match.
Qed.
Lemma keeps_observe c : only keeps_job (observe_startup c).
Proof.
  unfold observe_startup. generalize (Z.to_nat (STARTUP_OBSERVATION_SECS * 1000 /
    STARTUP_OBSERVATION_INTERVAL_MS)). intros n. induction n as [|n IH]; cbn [observe_attempts];
    only_calls.
Qed.

Lemma bind_refuses c w j : w_job w = Some j → refuses (bind_managed_tun_job_to_child c) w.
Proof.
  intros Hj. apply always_call; [done|]. intros owner w' [-> Ho].
  destruct owner as [owner|]; [|by apply always_return]. rewrite Hj in Ho. subst owner.
  change (always (λ w', job_state w = job_state w')
    (invoke UnlockJob ;; pure_step (Err "HOST_WINDOWS_TUN_JOB_OWNER_ALREADY_PRESENT") : rprog unit)
    (λ r w', is_err r = true ∧ job_state w = job_state w') w).
  apply always_call; [done|]. by intros u w' ->.
Qed.

(** The part of a start before the child is bound *)
Lemma start_until_bound {B} paths (Q : res B → world → Prop) (I : world → Prop)
    (f : NativeNetworkIdentity → child → rprog B) w :
  (∀ w', job_state w = job_state w' → I w') →
  (∀ e w', job_state w = job_state w' → Q (Err e) w') →
  (∀ before c w', job_state w = job_state w' → always I (f before c) Q w') →
  always I
    (b ← LocalRuntime.io (ReadFile (rp_config_path paths)) (λ _, "HOST_WINDOWS_TUN_CONFIG_UNREADABLE");
     pure_step (require_managed_tun_config b) ;;
     owners ← classify_runtime_process (rp_config_path paths);
     pure_step (fail_if (match owners with Absent => false | _ => true end)
       "HOST_WINDOWS_TUN_CONFLICTING_CHILD_OR_OWNER") ;;
     before ← observe_identity size_of align_of;
     pure_step (require_foreign_warp_up before) ;;
     os ← invoke ReadTables;
     pure_step (require_owned_tun_absent (os_interfaces os)) ;;
     validate_singbox_config (rp_singbox_binary_path paths) (rp_config_path paths) ;;
     c ← launch_singbox canonical paths false;
     f before c) Q w.
Proof.
  intros HI He Hf.
  assert (Hstep : ∀ A (p : rprog A) (g : A → rprog B) w', only keeps_job p → job_state w = job_state w' →
    (∀ a w2, job_state w = job_state w2 → always I (g a) Q w2) → always I (p ≫= g) Q w').
  { intros A p g w' Hp Hw Hg. apply always_sbind.
    eapply always_mono; [| |by apply (keeps_always p w w')]; [done|].
    intros [a|e] w2 _ Hw2; [by apply Hg|]. apply always_return; [by apply HI|by apply He]. }
  apply Hstep; [only_calls|done|]. intros b w1 H1. apply Hstep; [done..|]. intros _ w2 H2.
  apply Hstep; [apply keeps_classify|done|]. intros o w3 H3. apply Hstep; [done..|]. intros _ w4 H4.
  apply Hstep; [apply keeps_identity|done|]. intros before w5 H5. apply Hstep; [done..|].
  intros _ w6 H6. apply Hstep; [done..|]. intros os w7 H7. apply Hstep; [done..|]. intros _ w8 H8.
  apply Hstep; [unfold validate_singbox_config; only_calls|done|]. intros _ w9 H9.
  apply Hstep; [apply keeps_launch|done|]. intros c w10 H10. by apply Hf.
Qed.

Lemma tun_start_refuses paths w j :
  w_job w = Some j → refuses (start_native_verified_managed_tun canonical size_of align_of paths) w.
Proof.
  intros Hj. apply start_until_bound; [done|done|]. intros before c w1 Hw1.
  assert (Hj1 : w_job w1 = Some j) by (injection Hw1 as <- _; done).
  apply always_sbind, always_on_err.
  eapply (always_mono _ (λ w', job_state w1 = job_state w') _ _
    (λ r w', is_err r = true ∧ job_state w1 = job_state w')); [by rewrite Hw1| |].
  - intros [u|e] w2 _ [He Hw2]; [done|]. intros err.
    eapply always_mono; [| |apply (reject_refuses before c err w2)]; cbn beta.
    + intros w'. by rewrite Hw1, Hw2.
    + intros [u|e2] w' _ [He2 Hw3]; [done|]. apply always_return; [congruence|]. split; [done|congruence].
  - apply always_sbind. eapply always_post; [|by apply (bind_refuses c w1 j)].
    intros [u|e] w2 [He Hw]; [done|]. by apply always_return.
Qed.

(** A child that was bound to a job leaves the controller with one. *)
Abbreviation anything := (λ _ : world, True).
Definition job_if_bound (w w' : world) : Prop := job_state w = job_state w' ∨ w_job w' ≠ None.
Lemma job_if_bound_kept w w1 w2 : job_if_bound w w1 → job_state w1 = job_state w2 → job_if_bound w w2.
Proof. intros [Hw|Hw] [= Hj Hb]; [left|right]; unfold job_state in *; congruence. Qed.
Lemma bind_job_bound c w :
  always anything (bind_managed_tun_job_to_child c) (λ _ w', job_if_bound w w') w.
Proof.
  apply always_call; [done|]. intros owner w' [-> Ho].
  destruct owner as [[j|]|]; [| |by apply always_return; [|left]].
  - change (always anything
      (invoke UnlockJob ;; pure_step (Err "HOST_WINDOWS_TUN_JOB_OWNER_ALREADY_PRESENT") : rprog unit)
      (λ _ w', job_if_bound w w') w).
    apply always_call; [done|]. intros u w' ->. by apply always_return; [|left].
  - change (always anything (service_bind (bind_job c) (λ r, invoke UnlockJob ;; pure_step r))
      (λ _ w', job_if_bound w w') w).
    apply always_sbind. eapply (always_post _ _ _ (λ _ w', job_if_bound w w')).
    { intros r w' Hw. apply always_call; [done|]. by intros u w2 ->. }
    apply always_call; [done|]. intros created w' ->. destruct created as [job|]; [|by apply always_return; [|left]].
    apply always_call; [done|]. intros configured w' ->. destruct configured; cbn [negb].
    2: { apply always_call; [done|]. intros u w' ->. by apply always_return; [|left]. }
    apply always_call; [done|]. intros assigned w1 Hs. cbn in Hs. destruct assigned; cbn [negb].
    2: { subst w1. apply always_call; [done|]. intros u w' ->. by apply always_return; [|left]. }
    apply always_call; [done|]. intros u w2 ->. apply always_return; [done|]. by right.
Qed.
Lemma start_job_bound paths w :
  always anything (start_native_verified_managed_tun canonical size_of align_of paths)
    (λ _ w', job_if_bound w w') w.
Proof.
  assert (Hkeep : ∀ A (p : rprog A) w1, only keeps_job p → job_if_bound w w1 →
    always anything p (λ _ w2, job_if_bound w w2) w1).
  { intros A p w1 Hp Hw1. eapply always_mono; [| |by apply (keeps_always p w1 w1)]; [done|].
    intros r w2 _ Hw2. by eapply job_if_bound_kept. }
  apply start_until_bound; [done|by left|]. intros before c w1 Hw1. apply always_sbind.
  eapply (always_post _ _ _ (λ _ w', job_if_bound w w')).
  { intros [u|e] w2 Hw2; [|by apply always_return]. apply Hkeep; [|done].
    apply only_bind; [apply keeps_inspect|done]. }
  apply always_sbind. eapply (always_post _ _ _ (λ _ w', job_if_bound w w')).
  { intros [u|e] w2 Hw2; [by apply always_return|]. apply Hkeep; [apply keeps_reject|done]. }
  apply always_sbind. eapply always_post; [|apply bind_job_bound]. intros r w2 Hw2.
  assert (job_if_bound w w2) as Hw.
  { destruct Hw2 as [Hw2|?]; [left; congruence|by right]. }
  destruct r as [[]|e]; [|by apply always_return]. apply Hkeep; [|done].
  apply only_bind; [apply keeps_observe|]. intros _. only_calls.
Qed.

(** The starts of one controller process, one after the other, whatever they return *)
Definition start_of (w w' : world) : Prop := ∃ paths r,
  returns (λ R, @step same valid R)
    (start_native_verified_managed_tun canonical size_of align_of paths) w r w'.

Lemma start_with_job paths w r w' :
  w_job w ≠ None →
  returns (λ R, @step same valid R)
    (start_native_verified_managed_tun canonical size_of align_of paths) w r w' →
  is_err r = true ∧ job_state w' = job_state w.
Proof.
  intros Hj Hr. destruct (w_job w) as [j|] eqn:Hw; [|done].
  by pose proof (always_returns _ _ _ _ _ _ _ (tun_start_refuses paths w j Hw) Hr) as [He Hk].
Qed.

(** C21: A managed TUN that was rejected blocks the next ones. When a start bound its
    new child to a job and was then rejected, the controller keeps the job, and every
    later start of a managed TUN by the same process fails, however many there are and
    whatever the system answers. *)
Theorem rejected_tun_blocks_starts paths w e w1 :
  returns (λ R, @step same valid R)
    (start_native_verified_managed_tun canonical size_of align_of paths) w (Err e) w1 →
  w_bound w1 ≠ w_bound w →
  w_job w1 ≠ None ∧
  ∀ w2, rtc start_of w1 w2 → ∀ paths' r w3,
    returns (λ R, @step same valid R)
      (start_native_verified_managed_tun canonical size_of align_of paths') w2 r w3 →
    is_err r = true.
Proof.
  intros Hr Hb. assert (w_job w1 ≠ None) as Hj.
  { destruct (always_returns _ _ _ _ _ _ _ (start_job_bound paths w) Hr) as [[= _ Hw]|?]; congruence. }
  split; [done|]. intros w2 Hl paths' r w3 Hr3. apply (start_with_job paths' w2 r w3); [|done].
  clear -Hj Hl. induction Hl as [w|w w' w2 (paths & r & Hr) _ IH]; [done|]. apply IH.
  destruct (start_with_job _ _ _ _ Hj Hr) as [_ [= -> _]]. done.
Qed.
End Job.

(** ** A host: the inputs of the witnesses, and the rollback to an old backup *)
Module RuntimeSample.
Import SingboxSample.
Definition paths : LocalRuntimePaths := {|
  rp_singbox_binary_path := "C:\edge\sing-box.exe"; rp_config_path := "C:\edge\sing-box.json";
  rp_state_path := "C:\edge\state.pb"; rp_runtime_root := "C:\edge\runtime" |}.
Definition backup : string := "C:\edge\runtime\sing-box.last-known-good.json".
Definition state_text : bytes := as_bytes "state".
#[export] Instance one_state : Message WindowsRuntimeState | 0 := {|
  encode_to_vec _ := state_text; decode b := if bytes_eqb b state_text then Some state else None |}.
Definition canonical : res ProductionDesiredState := Ok desired.
Definition no_legacy (b : bytes) : option SyncState := None.
Definition valid (b : bytes) : bool := true.

(** [copies dst]: whether a copy into [dst] succeeds; [exits]: nothing runs yet, and a child exits
    at once *)
Section Answers.
Context (copies : string → bool) (exits : bool).
Definition owner_process : process := {| pr_pid := 5; pr_name := "sing-box.exe"; pr_exe := None;
  pr_parent := None; pr_arguments := ["sing-box.exe"; "run"; "-c"; rp_config_path paths] |}.
Definition answer R (c : runtime_call R) : world → R * world :=
  match c in runtime_call R return world → R * world with
  | Processes => λ w,
      let l := if is_empty (w_stopped w) && negb exits then [owner_process] else [] in
      (l, with_listing l w)
  | SamePath c e => λ w, (str_eqb c e, w)
  | IsFile _ => λ w, (true, w)
  | ClockNanos => λ w, (Some 1, w)
  | CopyFile src dst => λ w,
      match w_files w !! src with
      | Some b => if copies dst then (Ok tt, with_files (<[dst := b]> (w_files w)) w)
                  else (Err "access denied", with_failed src dst (with_files (w_files w) w))
      | None => (Err "not found", with_failed src dst (with_files (w_files w) w))
      end
  | ReadFile path => λ w, (ok_or (w_files w !! path) "not found", w)
  | WriteFile path b => λ w, (Ok tt, with_files (<[path := b]> (w_files w)) w)
  | RemoveFile path => λ w, (Ok tt, with_files (delete path (w_files w)) w)
  | CreateDirAll _ => λ w, (Ok tt, w)
  | CreateFile path => λ w, (true, with_files (<[path := []]> (w_files w)) w)
  | CheckConfig _ path => λ w,
      (match w_files w !! path with
       | Some b => Ok {| ck_success := valid b; ck_status := ""; ck_stderr := "" |}
       | None => Err "not found"
       end, w)
  | Spawn c => λ w,
      (Ok {| ch_handle := 2; ch_pid := 7 |}, with_started (command_config w c) w)
  | Sleep _ => λ w, (tt, w)
  | TryWait _ => λ w, (Ok (if exits then Some "exit code: 1" else None), w)
  | KillChild _ => λ w, (true, w)
  | WaitChild _ => λ w, (true, w)
  | OpenProcess pid => λ w, (Ok 1%positive, with_handle 1 pid w)
  | TerminateProcess h => λ w, (true, with_stopped h w)
  | WaitForSingleObject _ _ => λ w, (0, w)
  | GetLastError => λ w, (0, w)
  | CloseHandle _ => λ w, (tt, w)
  | OpenProcessToken => λ w, (Ok 3%positive, w)
  | LookupDebugPrivilege => λ w, (Ok 20, w)
  | EnablePrivilege _ _ => λ w, (true, w)
  | RestorePrivilege _ => λ w, (1, w)
  | LockJob => λ w, (Some (w_job w), w)
  | UnlockJob => λ w, (tt, w)
  | CreateJobObject => λ w, (Some 4%positive, w)
  | SetKillOnClose _ => λ w, (true, w)
  | AssignProcessToJob _ c => λ w, (true, with_bound c w)
  | StoreJob j => λ w, (tt, with_job (Some j) w)
  | ReadTables => λ w, (WindowsSample.tables false 5216, w)
  end.
Lemma host_answer_step R (c : runtime_call R) w :
  step str_eqb valid c w (answer R c w).1 (answer R c w).2.
Proof.
  destruct c; cbn; try done; try (by destruct exits).
  - destruct (w_files w !! src) as [b|] eqn:Hs; [destruct (copies dst)|]; cbn; eauto;
      exists (w_files w); done.
  - destruct (w_files w !! path) as [b|] eqn:Hs; cbn; split; done.
  - eexists. split; [|done]. intros p Hp. by apply lookup_insert_ne.
  - lazymatch goal with |- context [w_files w !! ?p] =>
      destruct (w_files w !! p) as [b|] eqn:Hs end; cbn; [|done]. split; [done|]. by exists b.
Qed.
End Answers.

Definition host (old : option bytes) : world := {|
  w_files := <[rp_config_path paths := as_bytes "current"]>
    (<[rp_state_path paths := state_text]> (partial_alter (λ _, old) backup ∅));
  w_listings := []; w_handles := ∅; w_stopped := []; w_started := []; w_failed := [];
  w_job := None; w_bound := [] |}.
Definition restart : rprog RuntimeOperationResult :=
  start_local_runtime_with_policy canonical no_legacy paths false true.

Lemma paths_apart_sample : paths_apart paths.
Proof.
  assert (Hcand : ∀ p, is_candidate paths p → ∃ t, p = "C:\edge\." +:+ t).
  { intros p (parent & stem & nonce & Hp & Hs & ->). vm_compute in Hp. injection Hp as <-.
    unfold candidate_name. by eexists. }
  split_and!; try (vm_compute; discriminate);
    try (intros [Hl|Hl]; vm_compute in Hl; discriminate Hl);
    try (intros (t & Ht)%Hcand; vm_compute in Ht; discriminate Ht).
  intros p (t & ->)%Hcand [Hl|Hl]; vm_compute in Hl; discriminate Hl.
Qed.

Lemma start_keeps_configuration_witness :
  start_guard str_eqb valid canonical paths true (as_bytes "current") (host None)
    (exec_for (answer (λ _, true) false) 14 restart (host None)).
Proof.
  apply (start_keeps_configuration str_eqb valid canonical no_legacy paths false true
    (as_bytes "current")).
  - exact paths_apart_sample.
  - vm_compute. reflexivity.
  - reflexivity.
  - reflexivity.
  - apply (exec_for_during (λ R, @step str_eqb valid R) (answer (λ _, true) false) (host_answer_step _ _)).
Defined.
Lemma start_outcome_witness :
  is_ok (exec (answer (λ _, true) false) restart (host None)).1 = true ∧
  start_result str_eqb valid canonical paths true (as_bytes "current") (host None)
    (exec (answer (λ _, true) false) restart (host None)).1
    (exec (answer (λ _, true) false) restart (host None)).2.
Proof.
  split; [vm_compute; reflexivity|].
  apply (start_outcome str_eqb valid canonical no_legacy paths false true (as_bytes "current")).
  - exact paths_apart_sample.
  - vm_compute. reflexivity.
  - reflexivity.
  - reflexivity.
  - apply (exec_returns (λ R, @step str_eqb valid R) (answer (λ _, true) false) (host_answer_step _ _)).
Defined.

(** The TUN child exits at once: its start is rejected, the network is as it was, and the job
    stays. *)
Definition tun_host : world :=
  with_files (<[rp_config_path paths := config_text]> (w_files (host None))) (host None).
Definition tun_start : rprog RuntimeOperationResult :=
  start_native_verified_managed_tun canonical WindowsSample.size_of WindowsSample.align_of paths.
Definition rejected : res RuntimeOperationResult * world :=
  Eval vm_compute in exec (answer (λ _, true) true) tun_start tun_host.
Lemma rejected_tun_blocks_starts_witness :
  rejected.1 = Err "HOST_WINDOWS_TUN_START_REJECTED_RESTORED: sing-box exited during startup observation with status exit code: 1" ∧
  w_job rejected.2 ≠ None.
Proof.
  split; [vm_compute; reflexivity|].
  apply (rejected_tun_blocks_starts str_eqb valid canonical WindowsSample.size_of
    WindowsSample.align_of paths tun_host "HOST_WINDOWS_TUN_START_REJECTED_RESTORED: sing-box exited during startup observation with status exit code: 1").
  - pose proof (exec_returns (λ R, @step str_eqb valid R) (answer (λ _, true) true)
      (host_answer_step _ _) tun_start tun_host) as Hr.
    assert (exec (answer (λ _, true) true) tun_start tun_host = rejected) as E
      by (vm_compute; reflexivity).
    rewrite E in Hr. exact Hr.
  - vm_compute. discriminate.
Defined.

(** The backup cannot be written, and an older one is there. *)
Definition refused : res RuntimeOperationResult * world :=
  exec (answer (λ dst, negb (str_eqb dst backup)) false) restart (host (Some (as_bytes "old"))).
Lemma failed_backup_loses_configuration_witness :
  refused.1 = Err ("guarded local restart failed: failed to preserve last-known-good sing-box config at "
    +:+ backup +:+ ": access denied; previous local runtime restored (pid 7)") ∧
  w_files refused.2 !! rp_config_path paths = Some (as_bytes "old") ∧
  ¬ kept paths (as_bytes "current") refused.2.
Proof.
  split; [vm_compute; reflexivity|].
  destruct (failed_backup_loses_configuration str_eqb valid canonical no_legacy paths false true
    (as_bytes "current") (as_bytes "old") (host (Some (as_bytes "old"))) refused.1 refused.2)
    as (_ & Hc & Hk & _).
  - exact paths_apart_sample.
  - vm_compute. reflexivity.
  - reflexivity.
  - reflexivity.
  - apply (exec_returns (λ R, @step str_eqb valid R) _ (host_answer_step _ _)).
  - apply (bool_decide_unpack _). vm_compute. exact I.
  - apply (bool_decide_unpack _). vm_compute. exact I.
  - vm_compute. reflexivity.
  - vm_compute. discriminate.
  - exact (conj Hc Hk).
Defined.
End RuntimeSample.
